(* ===== verification/_CoqProject ===== *)
-Q . S2P
Prelude.v
Numeric.v
PyDecimal.v
Models.v
Json.v
JsonText.v
OrderedDict.v
JsonRead.v
DateTime.v
AuditTrail.v
AuditFacts.v
AuditTamper.v
AuditAppender.v
DatasetFormat.v
DatasetCodec.v
DatasetTables.v
DatasetFacts.v
DatasetStore.v
Lockout.v
RedisStore.v
OrderSecurity.v
OrderSecurityFacts.v
Integration.v
Sessions.v
IntText.v
SessionsFacts.v
MessageProtocol.v
TradingService.v
Portfolio.v
PaperBroker.v
PaperBrokerFacts.v
OrderRoute.v
Microstructure.v
OrderBook.v
OrderBookFacts.v
MatchingEngine.v
PaperExchange.v
PaperExchangeFacts.v
L2Replay.v
ResearchJobs.v
ResearchJobsFacts.v
DatasetRegistry.v
Experiments.v
ExperimentsFacts.v
Worker.v
RateLimit.v
AuthRoutes.v
Handshake.v
Schemas.v
ResearchRoutes.v
SchemasFacts.v
StrategySignals.v
ExecutionModel.v
BacktestEngine.v
BacktestBooks.v
RiskMetrics.v
WalkForward.v
EventSimulator.v
HistoricalData.v
BacktestReport.v
MarketData.v
ResearchTasks.v
Vectors.v
StatTests.v
Matrices.v
PortfolioOpt.v
RegimeDetection.v
NeutralStrategies.v
CorrelationEngine.v
ExecutionAnalytics.v
SignalEngine.v
AlphaResearch.v
FactorModel.v
CrossSectionTasks.v
SignalStream.v
SignalRoutes.v
IntegrationRoutes.v
