(* ===== verification/Prelude.v ===== *)
(** * QuantumSentinel: a verified model of the backend

    QuantumSentinel (src/backend) is a FastAPI service for paper trading and
    quantitative research: users sign orders with post-quantum keys, a paper
    broker executes them against an internal cash ledger, a limit-order-book
    simulator replays market microstructure, research jobs run in worker
    processes over content-addressed datasets, and everything security
    relevant is appended to a signed, hash-chained audit log. This library
    translates the code that carries those promises into Rocq, definition by
    definition, and proves what makes it correct.

    ** How the code is represented

    - Fallible code returns [outcome E A] ([Ret] or [Raise], below); stateful
      code is a function from a state to a state and an answer; several
      processes or threads are sequences of such steps, and a step takes as an
      argument ([others]) what the others committed between a read and the
      write that depends on it.
    - Money is integer micro-dollars and exact decimals (PyDecimal); a float
      is an element of any type with the operations of [Num] (Numeric), which
      has an exact rational instance and an executable binary64 one.
    - Text is its UTF-8 bytes; a JSON value is [Models.json]; an instant is an
      integer of microseconds since the epoch.
    - A table is a finite map from primary key to a row; [UPDATE ... WHERE] is
      [update_row] below, which answers the row count.
    - Transactions are those of PostgreSQL's READ COMMITTED. A row locked with
      [FOR UPDATE] orders the steps that lock it. The session code revokes with
      an [UPDATE] over many rows, which misses the rows other transactions
      commit while it waits for its locks: its steps (Sessions, AuthRoutes)
      take the set [missed] of those rows, and a theorem holds for every such
      set or says which rows it leaves alive.
    - A theorem about [Q] or a real field is about the code in exact
      arithmetic, and its comment says so; doubles round, overflow and have
      NaN. A theorem over any [Num] holds of doubles too.
    - Code that is not in the repository is a parameter: SHA-256, HMAC, AES-GCM,
      ML-DSA, zlib, the Redis server's replies, pydantic's coercions, case
      mapping outside ASCII. Theorems name what they need of it (an injective
      hash, a signature that verifies what was signed) as hypotheses, and
      their witnesses instantiate it. So are NumPy's reductions (mean, standard
      deviation, covariance, percentile), tanh and sqrt, and the iteration
      order of a set; arrays are lists, a pandas frame is an index of dates with
      columns of possibly missing values.

    ** Parts

    Shared: Prelude (errors, state, tactics, strings, tables), Numeric,
    PyDecimal, Models (backend/models.py rows), Json, JsonText, JsonRead
    (json.dumps and json.loads), DateTime, OrderedDict, IntText. A component's
    theorems follow its definitions in its file; where they are many they have
    a file of their own, which adds Facts to the component's name.

    Trading. OrderRoute is main.place_order from the parsed request to the
    response. It calls OrderSecurity (order_security.py: canonical text,
    envelope, idempotency, risk gate), RedisStore (redis_store.py: nonces and
    kill switches in Redis or process memory), PaperBroker (paper_broker.py:
    the cash ledger), TradingService (trading_service.py: quotes and fills)
    and Portfolio (portfolio_service.py: positions and the equity curve).

    Simulation. Microstructure (market_microstructure.py), OrderBook
    (order_book.py; order objects are aliased, so they live in a heap),
    MatchingEngine (matching_engine.py), PaperExchange (paper_exchange.py) and
    L2Replay (l2_event_replay.py).

    Identity and integrity. Lockout and Sessions (auth_service.py), AuthRoutes
    (the account routes of main.py), Handshake (auth_service.perform_handshake),
    RateLimit (the request limiter of main.py), Integration
    (integration_service.py and main.require_api_scope), MessageProtocol
    (crypto/message_protocol.py), AuditTrail and AuditAppender
    (security_service.py: signing identity, hash chain, group commit).

    Research. Schemas (schemas.py: every request class, and what pydantic does
    with its fields), ResearchRoutes (the research routes of main.py),
    ResearchJobs (research_jobs.py and research_trials.py: the queue), Worker
    (worker.py: leases, subprocess, time limits), DatasetFormat
    (dataset_format.py: tables, ids, blobs), DatasetStore (dataset_store.py:
    files written by many processes that may die), DatasetRegistry
    (dataset_registry.py) and Experiments (experiment_registry.py).

    Backtesting. MarketData (market_data.py: frames from frozen datasets, the
    session of a task), HistoricalData (historical_data.py: panels on one
    calendar), StrategySignals (strategy_signals.py), ExecutionModel
    (execution_model.py: costs and sizing), BacktestEngine, RiskMetrics and
    BacktestReport (backtest_service.py: the bar loop, the statistics, the run
    from prices to report), WalkForward (walk_forward.py), EventSimulator
    (event_simulator.py) and ResearchTasks (research_tasks.py: a job's
    parameters to its result, its trials and its data), CrossSectionTasks
    (research_tasks.py: the tasks over many assets). A task validates with
    Schemas, downloads through MarketData, aligns with HistoricalData, runs an
    engine, and what it answers is what Worker hands to ResearchJobs.

    Research engines. Vectors and Matrices (what NumPy offers them), StatTests
    (stat_tests.py), PortfolioOpt (portfolio_optimization.py), RegimeDetection
    (regime_detection.py), NeutralStrategies (neutral_strategies.py),
    CorrelationEngine (correlation_engine.py), AlphaResearch
    (alpha_research.py), FactorModel (factor_model.py) and ExecutionAnalytics
    (execution_analytics.py and latency_model.py, over an exchange or a replay).

    Signals and the user's own settings. SignalEngine (signal_engine.py: the
    simulated bifurcation and the signal caches), SignalRoutes (main.py: latest
    signals, watchlists, preferences, exchange hours), SignalStream (main.py:
    the WebSocket and its connection slots) and IntegrationRoutes (main.py and
    integration_service.py: API keys, webhooks and their delivery, key
    rotation, kill switches), which reads keys with Integration and sets
    switches with OrderSecurity.

    ** What is proved

    - Money: a reservation is exact over any interleaving of placements,
      fills, cancellations ([PaperBrokerFacts.reservations_exact]), finished
      orders stay finished, the sweep of resting orders is a run of broker
      operations, an order that is booked was authorised by its owner and one
      that is refused leaves no trace (OrderRoute), settlement on the
      simulated exchange is exact (PaperExchangeFacts).
    - Order security: the signed text determines the order, an idempotency key
      admits one order, an active kill switch stops every worker in
      production (elsewhere a failed Redis read lets orders through;
      OrderSecurityFacts); nonces, API signatures, sequence numbers are
      accepted once (RedisStore, Integration, MessageProtocol).
    - Order book: every operation preserves its invariant and a sweep takes
      exactly the best-priced oldest quantity (OrderBookFacts); the simulated
      clock releases everything that is due.
    - Sessions: a replayed refresh token kills its family but for the tokens
      its statement misses and their descendants, the token cache never
      changes an answer (SessionsFacts); every session descends from a login
      no later logout ended, but for the tokens a logout everywhere missed
      (AuthRoutes); the two ends of a handshake agree (Handshake);
      the lockout and the request limiter are sliding windows (Lockout,
      RateLimit).
    - Audit: whatever is appended verifies, edits of the history are evident,
      an incremental check answers what a full one does (AuditFacts,
      AuditTamper); every append is answered (AuditAppender, liveness).
    - Research: jobs follow their state diagram, a superseded worker writes
      nothing, a completion is all or nothing (ResearchJobsFacts); a job is
      settled and its time limits hold (Worker); tables are typed, sorted
      and independent of row order (DatasetTables), an id names one dataset
      and a blob decodes to what was encoded (DatasetFacts), readers see whole
      datasets whatever writers do, where the uncompressed payload is within
      the size limit, and an integrity error where it is not (DatasetStore),
      rows describe verified
      bytes and results name datasets their user holds (DatasetRegistry),
      an experiment's life, evidence and signed manifest (ExperimentsFacts);
      an accepted request is accepted again by its task (SchemasFacts).
    - Market data: frames are well shaped and rebuilt from the datasets they
      name, the dividend adjustment is the textbook product (MarketData),
      panels pair prices of the same date and nothing is read ahead
      (HistoricalData), a task given datasets reads only those
      (ResearchTasks).
    - Backtests: orders and signals read only the past, the cash ledger
      balances (final capital is the initial one and what each logged trade
      earned at its mark, less borrow fees), fills keep the limits, folds and searches are exact and blind
      to their test windows, exposure stays bounded, the risk statistics are
      what they are called (BacktestEngine, BacktestBooks, StrategySignals,
      ExecutionModel, WalkForward, EventSimulator, RiskMetrics).
    - Research engines: the multiple-test corrections are the textbook ones
      (StatTests), the simplex projection is the closest portfolio
      (PortfolioOpt), a fitted Markov model is a chain and the decoded
      regimes are its likeliest path (RegimeDetection, with Matrices), hedge
      ratios are predictive and books balance (NeutralStrategies), estimated
      matrices are correlations (CorrelationEngine), ranks and information
      coefficients are what they are called (AlphaResearch), exposures and
      premia look back (FactorModel), adverse selection has a row for each
      fill and reads mids of the replay (ExecutionAnalytics), a task's matrices
      have a row for each day on which every asset has a close and read only
      granted datasets (CrossSectionTasks).
    - Signals and settings: one generation at a time, and a fresh stored
      response is served instead of one; in range when every close is
      positive (SignalEngine); hours, watchlists and personal signals
      (SignalRoutes); a user holds at most three sockets and as many as
      expired counters and lost commands leave uncounted, and is pushed
      only what the account may see (SignalStream); keys work until they
      are revoked, deliveries go to public addresses where the HTTP client
      looks up the name that was checked ([requests_target]: it does not for
      one it first turns to punycode), a rotation leaves one key, switches are one's own (IntegrationRoutes).

    ** Bounds and fuel

    Recursions that follow a Python loop whose bound the code states use that
    bound (five attempts of [claim_next], the orders in flight for the simulated
    clock, a list's length).
    [JsonRead.json_loads] gives twice the text's length as fuel, and each turn
    consumes a character or goes one level down; [DatasetFormat.batches] and [chunks_of] take the length of what
    they split; [Numeric.ndigits] the binary logarithm; the worker's polling
    loop (Worker) takes a number of turns that [run_loop_returns] proves
    enough for the job's time limit; the loops that generate walk-forward folds
    take one turn more than there are bars, and each turn advances by at least
    one. The research engines iterate a fixed number of times as their code
    does: eighty halvings of a projection's interval, the request's iterations
    of expectation maximisation, two hundred steps of a simulated bifurcation;
    the theorems about them hold after any number of turns.

    ** Not modelled

    - report_generator.py (text and PDF), latency_bench.py (wall-clock
      measurements), research_metadata.py (the running interpreter), and the
      sentences of interpretation in the engines' answers. What the engines
      use of NumPy and SciPy beyond lists of sums (pseudo-inverses, eigenvalues,
      least squares, random draws) is a parameter.
    - The synthetic event replay of an experiment, which draws at random.
    - The quote feeds (yfinance, the client of dataset_providers): network input,
      a parameter. Texts of error messages, log lines and timing metrics.
    - crypto/pqc.py and cpp_ext.py (bindings), database.py, config.py,
      migrations, manage.py, db_roles.py (deployment), the static frontend
      hosting and the read-only reporting routes of main.py.
    - Secrets' encryption at rest (Fernet) and the HTTP exchange of a delivery. *)

From stdpp Require Export base tactics option list sets fin_maps gmap strings.
From Stdlib Require Export ZArith Lia.

#[global] Set Default Goal Selector "!".
#[global] Set Warnings "-clear-no-such-hyp,-postfix-notation-not-level-1".

Declare Scope qs_scope.
Delimit Scope qs_scope with qs.
#[global] Open Scope qs_scope.

(** ** Functional record update

    A record declares its [Eta] instance once; [r <| f := v |>] then rebuilds
    the record with the one field replaced, and simplifies by [cbn]. *)

Class Eta (R : Type) := eta_record : R → R.
Class FieldSetter {R T : Type} (proj : R → T) := set_field : (T → T) → R → R.
#[global] Arguments set_field {R T} proj {_} _ _ /.

Ltac head_of t := lazymatch t with ?f _ => head_of f | _ => t end.

Ltac build_setter R T proj :=
  let inst := lazymatch constr:(@eta_record R _) with @eta_record _ ?i => i end in
  let h := head_of inst in
  let body := eval cbv beta delta [h] in inst in
  lazymatch (eval pattern proj in body) with
  | ?f _ =>
      let r := eval cbv beta in (λ (g : T → T) (x : R), f (λ y, g (proj y)) x) in
      exact r
  end.

#[global] Hint Extern 1 (@FieldSetter ?R ?T ?proj) => build_setter R T proj
  : typeclass_instances.

Notation "r <| f := v |>" := (set_field f (λ _, v) r)
  (at level 12, left associativity, f constr at level 10,
   format "r  <| f  :=  v |>") : qs_scope.
Notation "r <| f ::= g |>" := (set_field f g r)
  (at level 12, left associativity, f constr at level 10,
   format "r  <| f  ::=  g |>") : qs_scope.

(** ** Raised exceptions

    [outcome E A] is what a Python call can do: return a value or raise. *)

Inductive outcome (E A : Type) : Type :=
| Ret (a : A)
| Raise (e : E).
Arguments Ret {E A} a.
Arguments Raise {E A} e.

Definition obind {E A B} (m : outcome E A) (k : A → outcome E B) : outcome E B :=
  match m with
  | Ret a => k a
  | Raise e => Raise e
  end.

Notation "'let!' p := m 'in' k" := (obind m (λ p, k))
  (at level 10, p pattern, m at level 200, k at level 200,
   format "'let!'  p  :=  m  'in'  '//' k") : qs_scope.

(** [raise_if c e] is the guard [if c: raise e]. *)
Definition raise_if {E} (c : bool) (e : E) : outcome E unit :=
  if c then Raise e else Ret tt.

Lemma obind_Ret {E A B} (m : outcome E A) (k : A → outcome E B) b :
  obind m k = Ret b ↔ ∃ a, m = Ret a ∧ k a = Ret b.
Proof. destruct m; cbn; naive_solver. Qed.

Lemma obind_Raise {E A B} (m : outcome E A) (k : A → outcome E B) e :
  obind m k = Raise e ↔ m = Raise e ∨ ∃ a, m = Ret a ∧ k a = Raise e.
Proof. destruct m; cbn; naive_solver. Qed.

Lemma raise_if_Ret {E} c (e : E) : raise_if c e = Ret tt ↔ c = false.
Proof. destruct c; cbn; naive_solver. Qed.

(** *** Effects

    [prog S E A]: code over mutable state [S] that returns an [A] or raises an
    [E]. What it wrote before raising stays written, as in Python. *)
Definition prog (S E A : Type) : Type := S → S * outcome E A.

#[global] Instance prog_ret S E : MRet (prog S E) := λ A a s, (s, Ret a).
#[global] Instance prog_bind S E : MBind (prog S E) := λ A B k m s,
  match m s with
  | (s, Ret a) => k a s
  | (s, Raise e) => (s, Raise e)
  end.

Definition pget {S E} : prog S E S := λ s, (s, Ret s).
Definition pmodify {S E} (f : S → S) : prog S E unit := λ s, (f s, Ret tt).
Definition praise {S E A} (e : E) : prog S E A := λ s, (s, Raise e).
Definition plift {S E A} (m : outcome E A) : prog S E A := λ s, (s, m).

(** Run a program on a part of a larger state. *)
Definition zoom {S T E A} (get : S → T) (set : T → S → S) (m : prog T E A) : prog S E A :=
  λ s, let '(t, r) := m (get s) in (set t s, r).

(** [for x in l: s = body(s, x)] with a local [b] threaded through. *)
Fixpoint pfold {S E A B} (body : B → A → prog S E B) (b : B) (l : list A) : prog S E B :=
  match l with
  | [] => mret b
  | x :: l => b ← body b x; pfold body b l
  end.

(** Hoare triples: from a state satisfying [P], [m] returns with [Q] or raises
    with [E]. *)
Definition triple {S E A} (P : S → Prop) (m : prog S E A) (Q : A → S → Prop)
    (X : E → S → Prop) : Prop :=
  ∀ s, P s → match m s with
             | (s', Ret a) => Q a s'
             | (s', Raise e) => X e s'
             end.

Section triples.
Context {S E : Type}.
Implicit Types P : S → Prop.

Lemma triple_ret {A} P (a : A) (Q : A → S → Prop) (X : E → S → Prop) :
  (∀ s, P s → Q a s) → triple P (mret a) Q X.
Proof. intros HQ s Hs. by apply HQ. Qed.

Lemma triple_bind {A B} P (m : prog S E A) (k : A → prog S E B) Q R X :
  triple P m Q X → (∀ a, triple (Q a) (k a) R X) → triple P (m ≫= k) R X.
Proof.
  intros Hm Hk s Hs. specialize (Hm s Hs). unfold mbind, prog_bind.
  destruct (m s) as [s' [a|e]]; [by apply Hk|done].
Qed.

Lemma triple_get P (Q : S → S → Prop) (X : E → S → Prop) : (∀ s, P s → Q s s) → triple P pget Q X.
Proof. intros HQ s Hs. by apply HQ. Qed.

Lemma triple_modify P f (Q : unit → S → Prop) (X : E → S → Prop) :
  (∀ s, P s → Q () (f s)) → triple P (pmodify f) Q X.
Proof. intros HQ s Hs. by apply HQ. Qed.

Lemma triple_conseq {A} P P' (m : prog S E A) (Q Q' : A → S → Prop) (X X' : E → S → Prop) :
  triple P' m Q' X' → (∀ s, P s → P' s) → (∀ a s, Q' a s → Q a s) → (∀ e s, X' e s → X e s) →
  triple P m Q X.
Proof.
  intros Hm HP HQ HX s Hs. specialize (Hm s (HP s Hs)). destruct (m s) as [s' [a|e]]; auto.
Qed.

(** Reading the state: the continuation is verified from that very state. *)
Lemma triple_read {A} P (k : S → prog S E A) Q X :
  (∀ s0, P s0 → triple (λ s, s = s0) (k s0) Q X) → triple P (pget ≫= k) Q X.
Proof. intros Hk s Hs. by apply (Hk s). Qed.

Lemma triple_state {A} P (m : prog S E A) Q X :
  (∀ s0, P s0 → triple (λ s, s = s0) m Q X) → triple P m Q X.
Proof. intros Hk s Hs. by apply (Hk s). Qed.

Lemma triple_fold {A B} (I : B → S → Prop) (body : B → A → prog S E B) l b X :
  (∀ b x, x ∈ l → triple (I b) (body b x) I X) → triple (I b) (pfold body b l) I X.
Proof.
  revert b; induction l as [|x l IH]; intros b Hb; cbn [pfold]; [by apply triple_ret|].
  eapply triple_bind; [apply Hb; set_solver|]. intros b'. apply IH. intros; apply Hb; set_solver.
Qed.

Lemma triple_zoom {T A} (get : S → T) (set : T → S → S) (m : prog T E A)
    P (P' : T → Prop) (Q' : A → T → Prop) (X' : E → T → Prop) Q X :
  triple P' m Q' X' → (∀ s, P s → P' (get s)) →
  (∀ s a t, P s → Q' a t → Q a (set t s)) → (∀ s e t, P s → X' e t → X e (set t s)) →
  triple P (zoom get set m) Q X.
Proof.
  intros Hm HP HQ HX s Hs. specialize (Hm (get s) (HP s Hs)). unfold zoom.
  destruct (m (get s)) as [t [a|e]]; eauto.
Qed.
End triples.

(** FastAPI's [HTTPException(status, detail)]. *)
Record HTTPException := mkHTTPException { http_status : Z; http_detail : string }.

(** ** Tactics *)

Ltac invert H := inversion H; subst; clear H.

(** Split on the innermost [match] of the goal, or of the hypotheses. *)
Ltac inner_match t :=
  lazymatch t with
  | context [match ?x with _ => _ end] => inner_match x
  | _ => t
  end.

Ltac dmatch :=
  match goal with
  | |- context [match ?x with _ => _ end] =>
      let y := inner_match x in let E := fresh "E" in destruct y eqn:E
  end.

Ltac dmatch_in H :=
  match type of H with
  | context [match ?x with _ => _ end] =>
      let y := inner_match x in let E := fresh "E" in destruct y eqn:E
  end.

(** Turn boolean tests into propositions and split conjunctions. *)
Ltac bsimpl :=
  repeat match goal with
  | H : andb _ _ = true |- _ => apply andb_prop in H as [? ?]
  | H : orb _ _ = false |- _ => apply orb_false_elim in H as [? ?]
  | H : negb _ = true |- _ => apply negb_true_iff in H
  | H : negb _ = false |- _ => apply negb_false_iff in H
  | H : (_ <=? _)%Z = true |- _ => apply Z.leb_le in H
  | H : (_ <=? _)%Z = false |- _ => apply Z.leb_gt in H
  | H : (_ <? _)%Z = true |- _ => apply Z.ltb_lt in H
  | H : (_ <? _)%Z = false |- _ => apply Z.ltb_ge in H
  | H : (_ =? _)%Z = true |- _ => apply Z.eqb_eq in H
  | H : (_ =? _)%Z = false |- _ => apply Z.eqb_neq in H
  | H : bool_decide _ = true |- _ => apply bool_decide_eq_true_1 in H
  | H : bool_decide _ = false |- _ => apply bool_decide_eq_false_1 in H
  end.

(** Evaluate the closed [bool_decide]s of the goal. *)
Ltac eval_bools :=
  repeat match goal with
  | |- context [bool_decide ?P] =>
      let b := eval vm_compute in (bool_decide P) in
      match b with
      | true => change (bool_decide P) with true
      | false => change (bool_decide P) with false
      end
  end; cbn [andb orb negb].

(** Decompose a successful chain of [let!]. *)
Ltac inv_ret :=
  repeat match goal with
  | H : obind _ _ = Ret _ |- _ => apply obind_Ret in H as (? & ? & H); cbn in H
  | H : raise_if _ _ = Ret _ |- _ => destruct (raise_if_Ret _ _) as [?H _] in H; clear H
  end.

(** ** Strings *)

(** [str.upper] on ASCII letters. *)
Definition upper_ascii (c : Ascii.ascii) : Ascii.ascii :=
  let n := Ascii.nat_of_ascii c in
  if (97 <=? n)%nat && (n <=? 122)%nat then Ascii.ascii_of_nat (n - 32) else c.
Fixpoint str_upper (s : string) : string :=
  match s with
  | EmptyString => EmptyString
  | String c s => String (upper_ascii c) (str_upper s)
  end.

(** [str.lower] of an ASCII string. *)
Definition lower_ascii (c : Ascii.ascii) : Ascii.ascii :=
  let n := Ascii.nat_of_ascii c in
  if ((65 <=? n) && (n <=? 90))%nat then Ascii.ascii_of_nat (n + 32) else c.
Fixpoint str_lower (s : string) : string :=
  match s with
  | EmptyString => EmptyString
  | String c s => String (lower_ascii c) (str_lower s)
  end.

Lemma string_app_cons (c : Ascii.ascii) (a b : string) : String c a +:+ b = String c (a +:+ b).
Proof. reflexivity. Qed.

Lemma string_cons_inj (c d : Ascii.ascii) (a b : string) : String c a = String d b → c = d ∧ a = b.
Proof. intros E. by injection E as -> ->. Qed.

Lemma string_app_assoc (a b c : string) : (a +:+ b) +:+ c = a +:+ (b +:+ c).
Proof. induction a as [|x a IH]; [done|]. rewrite !string_app_cons. by rewrite IH. Qed.

Lemma string_length_app a b : String.length (a +:+ b) = (String.length a + String.length b)%nat.
Proof.
  induction a as [|c a IH]; [done|]. change (String c a +:+ b) with (String c (a +:+ b)).
  cbn [String.length]. rewrite IH. lia.
Qed.

Lemma string_append_inj_r (a b r s : string) :
  String.length r = String.length s → a +:+ r = b +:+ s → a = b ∧ r = s.
Proof.
  revert b; induction a as [|c a IH]; intros [|d b] Hl E.
  - done.
  - change (r = String d (b +:+ s)) in E. subst r. cbn [String.length] in Hl.
    rewrite string_length_app in Hl. lia.
  - change (String c (a +:+ r) = s) in E. subst s. cbn [String.length] in Hl.
    rewrite string_length_app in Hl. lia.
  - change (String c (a +:+ r) = String d (b +:+ s)) in E. apply string_cons_inj in E as [-> E].
    by destruct (IH b Hl E) as [-> ->].
Qed.

Lemma string_append_inj_l (a b r s : string) :
  String.length a = String.length b → a +:+ r = b +:+ s → a = b ∧ r = s.
Proof.
  revert b; induction a as [|c a IH]; intros [|d b] Hl E; try discriminate Hl; [done|].
  injection Hl as Hl. apply string_cons_inj in E as [-> E]. by destruct (IH b Hl E) as [-> ->].
Qed.

(** ** Folds *)

Lemma filter_all {A} (P : A → Prop) `{∀ x, Decision (P x)} (l : list A) : (∀ x, x ∈ l → P x) → filter P l = l.
Proof.
  induction l as [|x l IH]; intros Hl; [done|]. rewrite filter_cons_True by (apply Hl; by left).
  f_equal. apply IH. intros y Hy. apply Hl. by right.
Qed.

Lemma filter_none {A} (P : A → Prop) `{∀ x, Decision (P x)} (l : list A) : (∀ x, x ∈ l → ¬ P x) → filter P l = [].
Proof.
  induction l as [|x l IH]; intros Hl; [done|]. rewrite filter_cons_False by (apply Hl; by left).
  apply IH. intros y Hy. apply Hl. by right.
Qed.

(** Two loops whose bodies agree on the list. *)
Lemma foldl_ext_in {A B} (f g : A → B → A) a l : (∀ a b, b ∈ l → f a b = g a b) → foldl f a l = foldl g a l.
Proof.
  revert a. induction l as [|b l IH]; intros a Hfg; [done|]. cbn. rewrite Hfg by (by left).
  apply IH. intros a' b' Hb. apply Hfg. by right.
Qed.


Lemma foldl_invariant {A B} (P : A → Prop) (f : A → B → A) l a :
  P a → (∀ a x, x ∈ l → P a → P (f a x)) → P (foldl f a l).
Proof.
  revert a; induction l as [|x l IH]; intros a Ha Hf; cbn; [done|].
  apply IH; [apply Hf; set_solver|]. intros; apply Hf; set_solver.
Qed.

(** ** SQL rows

    A table is a finite map from primary keys to rows. [update_row] is an
    [UPDATE ... WHERE id = k AND guard] and [update_where] an [UPDATE ...
    WHERE guard]; both return the rowcount. *)

Definition update_row {K V} `{Countable K} (k : K) (guard : V → bool) (f : V → V)
    (m : gmap K V) : gmap K V * Z :=
  match m !! k with
  | Some v => if guard v then (<[k := f v]> m, 1%Z) else (m, 0%Z)
  | None => (m, 0%Z)
  end.

Lemma update_row_one {K V} `{Countable K} (k : K) guard f (m m' : gmap K V) :
  update_row k guard f m = (m', 1%Z) ↔
  ∃ v, m !! k = Some v ∧ guard v = true ∧ m' = <[k := f v]> m.
Proof.
  unfold update_row. destruct (m !! k) as [v|] eqn:E; [destruct (guard v) eqn:G|];
    split; intros Hx; try (destruct Hx as (? & ? & ? & ?)); simplify_eq;
    first [congruence | by eauto].
Qed.

Lemma update_row_cases {K V} `{Countable K} (k : K) guard f (m : gmap K V) :
  (∃ v, m !! k = Some v ∧ guard v = true ∧ update_row k guard f m = (<[k := f v]> m, 1%Z)) ∨
  update_row k guard f m = (m, 0%Z).
Proof.
  unfold update_row. destruct (m !! k) as [v|] eqn:?; [destruct (guard v) eqn:?|]; eauto.
Qed.

Lemma update_row_other {K V} `{Countable K} (k j : K) guard f (m : gmap K V) :
  j ≠ k → (update_row k guard f m).1 !! j = m !! j.
Proof.
  intros. destruct (update_row_cases k guard f m) as [(v & _ & _ & ->)| ->]; cbn; [|done].
  by rewrite lookup_insert_ne.
Qed.

(** Preservation of a per-row property by an update that preserves it. *)
Lemma update_row_forall {K V} `{Countable K} (P : K → V → Prop) (k : K) guard f (m : gmap K V) :
  map_Forall P m →
  (∀ v, m !! k = Some v → guard v = true → P k v → P k (f v)) →
  map_Forall P (update_row k guard f m).1.
Proof.
  intros Hm Hf. destruct (update_row_cases k guard f m) as [(v & Hv & G & ->)| ->]; cbn; [|done].
  apply map_Forall_insert_2; [|done]. eauto.
Qed.

(** ** Integer sums over a table *)

Definition map_sum {K V} `{Countable K} (f : V → Z) (m : gmap K V) : Z :=
  map_fold (λ _ v acc, f v + acc)%Z 0%Z m.

Section map_sum.
Context {K V : Type} `{Countable K} (f : V → Z).
Implicit Types m : gmap K V.
Local Open Scope Z_scope.

Lemma map_sum_insert_new k v m : m !! k = None → map_sum f (<[k := v]> m) = f v + map_sum f m.
Proof. intros. unfold map_sum. rewrite map_fold_insert_L; [done|intros; lia|done]. Qed.

Lemma map_sum_insert_old k v w m :
  m !! k = Some v → map_sum f (<[k := w]> m) = map_sum f m - f v + f w.
Proof.
  intros Hk. rewrite <-(insert_id m k v Hk) at 2.
  rewrite <-insert_delete_eq, <-(insert_delete_eq m k v).
  rewrite !map_sum_insert_new by apply lookup_delete_eq. lia.
Qed.

Lemma map_sum_nonneg m : (∀ k v, m !! k = Some v → 0 ≤ f v) → 0 ≤ map_sum f m.
Proof.
  induction m as [|k v m Hk IH] using map_ind; intros Hf; [done|].
  rewrite map_sum_insert_new by done.
  assert (0 ≤ map_sum f m).
  { apply IH. intros j w Hj. apply (Hf j). rewrite lookup_insert_ne; [done|congruence]. }
  specialize (Hf k v ltac:(apply lookup_insert_eq)). lia.
Qed.

Lemma map_sum_elem k v m :
  (∀ k v, m !! k = Some v → 0 ≤ f v) → m !! k = Some v → f v ≤ map_sum f m.
Proof.
  intros Hf Hk. rewrite <-(insert_delete_id m k v Hk), map_sum_insert_new by apply lookup_delete_eq.
  assert (0 ≤ map_sum f (delete k m)); [|lia].
  apply map_sum_nonneg. intros j w [_ Hj]%lookup_delete_Some. eauto.
Qed.

Lemma map_sum_ext g m : (∀ k v, m !! k = Some v → f v = g v) → map_sum f m = map_sum g m.
Proof.
  induction m as [|k v m Hk IH] using map_ind; intros Hf; [done|].
  unfold map_sum. rewrite !map_fold_insert_L by (intros; lia || done).
  fold (map_sum f m) (map_sum g m). rewrite (Hf k v) by apply lookup_insert_eq.
  rewrite IH; [done|]. intros j w Hj. apply (Hf j). rewrite lookup_insert_ne; [done|congruence].
Qed.

Lemma map_sum_zero m : (∀ k v, m !! k = Some v → f v = 0) → map_sum f m = 0.
Proof.
  induction m as [|k v m Hk IH] using map_ind; intros Hf; [done|].
  rewrite map_sum_insert_new by done. rewrite (Hf k v) by apply lookup_insert_eq.
  rewrite IH; [lia|]. intros j w Hj. apply (Hf j). rewrite lookup_insert_ne; [done|congruence].
Qed.
End map_sum.
