(* ===== verification/Numeric.v ===== *)
(** Python's [float], as an interface: the operations of the arithmetic the
    code uses, its exact (rational) instance, on which the quantitative
    theorems are stated, and its executable IEEE 754 binary64 instance. The
    definitions of the other files are written against the interface, so that
    each of them is at once a function on doubles and one on rationals. *)

From S2P Require Import Prelude.
From Stdlib Require Import QArith Qround Qminmax Qabs Lqa SpecFloat.
#[local] Open Scope Z_scope.

(** ** Integer rounding *)

(** Nearest integer to [n / d], ties to even: Python's [round]. *)
Definition div_half_even (n d : Z) : Z :=
  let q := n / d in
  let r := n mod d in
  match (2 * r ?= d) with
  | Lt => q
  | Gt => q + 1
  | Eq => if Z.even q then q else q + 1
  end.

(** Nearest integer to [n / d], ties away from zero: [ROUND_HALF_UP]. *)
Definition div_half_up (n d : Z) : Z :=
  Z.sgn n * ((2 * Z.abs n + d) / (2 * d)).

Lemma div_half_even_exact n d : 0 < d → div_half_even (n * d) d = n.
Proof.
  intros Hd. unfold div_half_even. rewrite Z.div_mul, Z.mod_mul by lia.
  destruct (Z.compare_spec (2 * 0) d); lia.
Qed.

Lemma div_half_up_exact n d : 0 < d → div_half_up (n * d) d = n.
Proof.
  intros Hd. unfold div_half_up. rewrite Z.sgn_mul, Z.abs_mul, (Z.sgn_pos d), (Z.abs_eq d) by lia.
  replace (2 * (Z.abs n * d) + d) with (Z.abs n * (2 * d) + d) by lia.
  rewrite Z.div_add_l, Z.div_small by lia. rewrite Z.add_0_r, Z.mul_1_r, Z.mul_comm.
  apply Z.abs_sgn.
Qed.

Lemma div_half_even_error n d : 0 < d → Z.abs (2 * (div_half_even n d * d - n)) ≤ d.
Proof.
  intros Hd. unfold div_half_even.
  pose proof (Z.div_mod n d ltac:(lia)). pose proof (Z.mod_pos_bound n d Hd).
  set (q := n / d) in *. set (r := n mod d) in *.
  destruct (Z.compare_spec (2 * r) d); [destruct (Z.even q)| |]; nia.
Qed.

Lemma div_half_up_error n d : 0 < d → Z.abs (2 * (div_half_up n d * d - n)) ≤ d.
Proof.
  intros Hd. unfold div_half_up.
  pose proof (Z.div_mod (2 * Z.abs n + d) (2 * d) ltac:(lia)).
  pose proof (Z.mod_pos_bound (2 * Z.abs n + d) (2 * d) ltac:(lia)).
  set (q := _ / _) in *. destruct (Z.sgn_spec n) as [[? ->]|[[? ->]|[? ->]]]; nia.
Qed.

(** ** Decimals as data

    A finite [decimal.Decimal]: [dcoef * 10 ^ dexp]. *)
Record dec := Dec { dcoef : Z; dexp : Z }.

#[global] Instance dec_eq_dec : EqDecision dec.
Proof. solve_decision. Defined.

(** ** The interface *)

Class Num (F : Type) := {
  nof_ratio : Z → positive → F;        (* the float nearest to a ratio *)
  nadd : F → F → F;
  nsub : F → F → F;
  nmul : F → F → F;
  ndiv : F → F → F;                    (* the divisor is not zero *)
  nopp : F → F;
  nabs : F → F;
  nle : F → F → bool;
  nlt : F → F → bool;
  neq : F → F → bool;
  nrint : F → option Z;                (* int(round(x)); None: it raises *)
  nround : F → Z → F;                  (* round(x, digits) *)
  nrepr : F → dec                      (* Decimal(str(x)) *)
}.

Declare Scope num_scope.
Delimit Scope num_scope with num.
Infix "⊕" := nadd (at level 50, left associativity) : num_scope.
Infix "⊖" := nsub (at level 50, left associativity) : num_scope.
Infix "⊗" := nmul (at level 40, left associativity) : num_scope.
Infix "⊘" := ndiv (at level 40, left associativity) : num_scope.
Infix "<=.?" := nle (at level 70, no associativity) : num_scope.
Infix "<.?" := nlt (at level 70, no associativity) : num_scope.
Infix "=.?" := neq (at level 70, no associativity) : num_scope.
Notation "x >.? y" := (nlt y x) (at level 70, no associativity, only parsing) : num_scope.
Notation "x >=.? y" := (nle y x) (at level 70, no associativity, only parsing) : num_scope.
#[global] Open Scope num_scope.

Section Derived.
Context {F : Type} `{Num F}.

Definition nof_Z (z : Z) : F := nof_ratio z 1.
Definition n0 : F := nof_Z 0.
Definition n1 : F := nof_Z 1.

(** Python's [min] and [max] keep the first of equal arguments. *)
Definition nmin (x y : F) : F := if y <.? x then y else x.
Definition nmax (x y : F) : F := if y >.? x then y else x.

(** Truthiness of a float, and [math.isfinite]. *)
Definition nbool (x : F) : bool := negb (x =.? n0).
Definition nfinite (x : F) : bool := (x ⊖ x) =.? n0.

(** [sum(xs)] of floats: CPython (3.12 and later) sums with a running
    compensation [c] of the rounding errors, added once at the end. *)
Definition nsum_step (acc : F * F) (x : F) : F * F :=
  let '(s, c) := acc in
  let t := s ⊕ x in
  (t, c ⊕ (if nabs x <=.? nabs s then (s ⊖ t) ⊕ x else (x ⊖ t) ⊕ s)).

Definition nsum (xs : list F) : F :=
  match xs with
  | [] => n0
  | x :: xs' =>
      let '(s, c) := foldl nsum_step (n0 ⊕ x, n0) xs' in
      if nbool c && nfinite c then s ⊕ c else s
  end.

(** [float(d)] of a finite Decimal, correctly rounded. *)
Definition nof_dec (d : dec) : F :=
  if 0 <=? dexp d then nof_Z (dcoef d * 10 ^ dexp d)
  else nof_ratio (dcoef d) (Z.to_pos (10 ^ (- dexp d))).
End Derived.

(** ** The exact instance

    Arithmetic on rationals. Nothing is rounded except by [round], so a
    theorem on this instance states what the code computes up to the rounding
    of the individual double operations. *)

Definition Q_round_dec (x : Q) (nd : Z) : Q :=
  if 0 <=? nd then
    Qmake (div_half_even (Qnum x * 10 ^ nd) (Zpos (Qden x))) (Z.to_pos (10 ^ nd))
  else
    inject_Z (div_half_even (Qnum x) (Zpos (Qden x) * 10 ^ (- nd)) * 10 ^ (- nd)).

#[global] Instance Num_Q : Num Q := {
  nof_ratio n d := Qmake n d;
  nadd := Qplus;
  nsub := Qminus;
  nmul := Qmult;
  ndiv := Qdiv;
  nopp := Qopp;
  nabs := Qabs;
  nle := Qle_bool;
  nlt x y := negb (Qle_bool y x);
  neq := Qeq_bool;
  nrint x := Some (div_half_even (Qnum x) (Zpos (Qden x)));
  nround := Q_round_dec;
  nrepr x := Dec (div_half_even (Qnum x * 10 ^ 17) (Zpos (Qden x))) (-17)
}.

(** ** The binary64 instance *)

Definition b64 : Type := spec_float.

(** Exactly rounded quotient of two integers. *)
Definition b64_of_ratio (n : Z) (d : positive) : b64 :=
  match n with
  | Z0 => S754_zero false
  | Zpos p =>
      let '(mz, ez, lz) := SFdiv_core_binary 53 1024 (Zpos p) 0 (Zpos d) 0 in
      binary_round_aux 53 1024 false mz ez lz
  | Zneg p =>
      let '(mz, ez, lz) := SFdiv_core_binary 53 1024 (Zpos p) 0 (Zpos d) 0 in
      binary_round_aux 53 1024 true mz ez lz
  end.

(** The exact value of a finite double, as numerator and denominator. *)
Definition b64_ratio (x : b64) : option (Z * Z) :=
  match x with
  | S754_zero _ => Some (0, 1)
  | S754_finite s m e =>
      let n := if s then Zneg m else Zpos m in
      Some (if 0 <=? e then (n * 2 ^ e, 1) else (n, 2 ^ (- e)))
  | _ => None
  end.

Definition b64_rint (x : b64) : option Z :=
  match b64_ratio x with
  | Some (n, d) => Some (div_half_even n d)
  | None => None
  end.

Definition b64_round (x : b64) (nd : Z) : b64 :=
  match b64_ratio x with
  | Some (n, d) =>
      if 0 <=? nd then
        b64_of_ratio (div_half_even (n * 10 ^ nd) d) (Z.to_pos (10 ^ nd))
      else b64_of_ratio (div_half_even n (d * 10 ^ (- nd)) * 10 ^ (- nd)) 1
  | None => x
  end.

(** Number of decimal digits of a non-negative integer. *)
Fixpoint ndigits_fuel (fuel : nat) (n : Z) : Z :=
  match fuel with
  | O => 1
  | S k => if n <? 10 then 1 else 1 + ndigits_fuel k (n / 10)
  end.
Definition ndigits (n : Z) : Z := ndigits_fuel (S (Z.to_nat (Z.log2 n))) n.

(** [repr(x)]: the shortest decimal that reads back as [x], and among the
    decimals of that length the closest to [x]. [scan_repr] tries [k]
    significant digits, then [k + 1], up to 17, which always read back. *)
Definition repr_candidates (n d k : Z) : list dec :=
  (* q: the exponent that leaves k digits before the point *)
  let mag := if d <=? n then ndigits (n / d) else 1 - ndigits (d / n) in
  let try q :=
    let num := if 0 <=? q then n else n * 10 ^ (- q) in
    let den := if 0 <=? q then d * 10 ^ q else d in
    let lo := num / den in
    let near := div_half_even num den in
    [Dec near q; Dec lo q; Dec (lo + 1) q] in
  flat_map (λ q, filter (λ c, ndigits (dcoef c) <= k) (try q))
    [mag - k + 1; mag - k].

Definition reads_back (x : b64) (c : dec) : bool :=
  SFeqb (if 0 <=? dexp c then b64_of_ratio (dcoef c * 10 ^ dexp c) 1
         else b64_of_ratio (dcoef c) (Z.to_pos (10 ^ (- dexp c)))) x.

Fixpoint scan_repr (fuel : nat) (x : b64) (n d k : Z) : dec :=
  match List.find (reads_back x) (repr_candidates n d k) with
  | Some c => c
  | None =>
      match fuel with
      | O => Dec (div_half_even n d) 0
      | S f => scan_repr f x n d (k + 1)
      end
  end.

Definition dec_opp (c : dec) : dec := Dec (- dcoef c) (dexp c).

Definition b64_repr (x : b64) : dec :=
  match b64_ratio x with
  | Some (n, d) =>
      if n =? 0 then Dec 0 0
      else if n <? 0 then dec_opp (scan_repr 17 (SFabs x) (- n) d 1)
      else scan_repr 17 x n d 1
  | None => Dec 0 0
  end.

#[global] Instance Num_b64 : Num b64 := {
  nof_ratio := b64_of_ratio;
  nadd := SFadd 53 1024;
  nsub := SFsub 53 1024;
  nmul := SFmul 53 1024;
  ndiv := SFdiv 53 1024;
  nopp := SFopp;
  nabs := SFabs;
  nle := SFleb;
  nlt := SFltb;
  neq := SFeqb;
  nrint := b64_rint;
  nround := b64_round;
  nrepr := b64_repr
}.

(** [0.1 + 0.2] is [0.30000000000000004], [round(2.675, 2)] is [2.67]. *)
Example b64_point_one_plus_point_two :
  nrepr (nof_ratio (F:=b64) 1 10 ⊕ nof_ratio 2 10) = Dec 30000000000000004 (-17).
Proof. vm_compute. reflexivity. Qed.

Example b64_round_half_cent :
  nrepr (nround (nof_ratio (F:=b64) 2675 1000) 2) = Dec 267 (-2).
Proof. vm_compute. reflexivity. Qed.

Example b64_repr_large : nrepr (nof_ratio (F:=b64) (123456789 * 10 ^ 20) 1) = Dec 123456789 20.
Proof. vm_compute. reflexivity. Qed.

Example b64_repr_negative : nrepr (nof_ratio (F:=b64) (-5) 10000000) = Dec (-5) (-7).
Proof. vm_compute. reflexivity. Qed.

(** CPython's compensated sum: ten times [0.1] is exactly [1.0]. *)
Example b64_sum_tenths : nsum (replicate 10 (nof_ratio (F:=b64) 1 10)) = nof_Z 1.
Proof. vm_compute. reflexivity. Qed.

(** ** The exact instance in propositions *)

Lemma nle_Q (x y : Q) : (x <=.? y) = true ↔ (x <= y)%Q.
Proof. apply Qle_bool_iff. Qed.

Lemma nle_Q_false (x y : Q) : (x <=.? y) = false ↔ (y < x)%Q.
Proof.
  cbn. rewrite <-not_true_iff_false, Qle_bool_iff. split; [apply Qnot_le_lt|apply Qlt_not_le].
Qed.

Lemma nlt_Q (x y : Q) : (x <.? y) = true ↔ (x < y)%Q.
Proof. cbn. rewrite negb_true_iff. apply nle_Q_false. Qed.

Lemma nlt_Q_false (x y : Q) : (x <.? y) = false ↔ (y <= x)%Q.
Proof. cbn. rewrite negb_false_iff. apply nle_Q. Qed.

Lemma neq_Q (x y : Q) : (x =.? y) = true ↔ (x == y)%Q.
Proof. apply Qeq_bool_iff. Qed.

Lemma neq_Q_false (x y : Q) : (x =.? y) = false ↔ ¬ (x == y)%Q.
Proof. rewrite <-neq_Q. by rewrite not_true_iff_false. Qed.

(** Case analysis on a float comparison of the exact instance. *)
Ltac qsimpl :=
  repeat match goal with
  | H : @nle Q _ _ _ = true |- _ => apply nle_Q in H
  | H : @nle Q _ _ _ = false |- _ => apply nle_Q_false in H
  | H : @nlt Q _ _ _ = true |- _ => apply nlt_Q in H
  | H : @nlt Q _ _ _ = false |- _ => apply nlt_Q_false in H
  | H : @neq Q _ _ _ = true |- _ => apply neq_Q in H
  | H : @neq Q _ _ _ = false |- _ => apply neq_Q_false in H
  end.

Lemma nmin_Q (x y : Q) : (nmin x y <= x)%Q ∧ (nmin x y <= y)%Q ∧ (nmin x y = x ∨ nmin x y = y).
Proof. unfold nmin. destruct (y <.? x) eqn:E; qsimpl; repeat split; auto; lra. Qed.

Lemma nmax_Q (x y : Q) : (x <= nmax x y)%Q ∧ (y <= nmax x y)%Q ∧ (nmax x y = x ∨ nmax x y = y).
Proof. unfold nmax. destruct (x <.? y) eqn:E; qsimpl; repeat split; auto; lra. Qed.

(** The plain sum of a list of rationals. *)
Definition qsum (xs : list Q) : Q := foldr Qplus 0%Q xs.

Lemma nsum_steps_Q xs (s c : Q) :
  (c == 0)%Q →
  let '(s', c') := foldl nsum_step (s, c) xs in (s' == s + qsum xs)%Q ∧ (c' == 0)%Q.
Proof.
  revert s c; induction xs as [|x xs IH]; intros s c Hc; cbn [foldl].
  { split; [unfold qsum; cbn; lra|done]. }
  unfold nsum_step at 2. cbn [nadd nsub Num_Q].
  match goal with |- context [foldl _ (?t, ?d) _] => specialize (IH t d) end.
  destruct (foldl _ _ _) as [s' c']. destruct IH as [H1 H2].
  { destruct (nle _ _); lra. }
  split; [|done]. unfold qsum in *. cbn. lra.
Qed.

(** On rationals the compensation is zero and [sum] is the plain sum. *)
Lemma nsum_Q (xs : list Q) : (nsum xs == qsum xs)%Q.
Proof.
  destruct xs as [|x xs]; [reflexivity|]. unfold nsum.
  assert (Hz : (@n0 Q _ == 0)%Q) by reflexivity.
  pose proof (nsum_steps_Q xs (n0 ⊕ x) n0 Hz) as H.
  destruct (foldl _ _ _) as [s c]. destruct H as [H1 H2].
  unfold n0, nof_Z in H1; cbn in H1, H2 |- *.
  assert (nbool (F:=Q) c = false) as ->.
  { unfold nbool. apply negb_false_iff, neq_Q. exact H2. }
  cbn. unfold qsum in *. cbn in *. rewrite H1. ring.
Qed.

(** ** Order laws

    What the two instances share, unconditionally (a comparison with a NaN is
    false, which these laws allow). *)

Class NumOrd (F : Type) `{Num F} := {
  nle_not_lt : ∀ x y : F, (x <=.? y) = true → (y <.? x) = false;
  nlt_le : ∀ x y : F, (x <.? y) = true → (x <=.? y) = true;
  nle_trans : ∀ x y z : F, (x <=.? y) = true → (y <=.? z) = true → (x <=.? z) = true;
  nle_lt_trans : ∀ x y z : F, (x <=.? y) = true → (y <.? z) = true → (x <.? z) = true
}.

#[global] Instance NumOrd_Q : NumOrd Q.
Proof.
  split; intros; qsimpl; first [apply nlt_Q_false | apply nlt_Q | apply nle_Q]; lra.
Qed.

(** A double's position in the order, lexicographically. *)
Definition b64_key (x : b64) : option (Z * Z * Z) :=
  match x with
  | S754_nan => None
  | S754_infinity true => Some (-2, 0, 0)
  | S754_finite true m e => Some (-1, - e, Zneg m)
  | S754_zero _ => Some (0, 0, 0)
  | S754_finite false m e => Some (1, e, Zpos m)
  | S754_infinity false => Some (2, 0, 0)
  end.

Definition lex_lt (a b : Z * Z * Z) : Prop :=
  let '(a1, a2, a3) := a in let '(b1, b2, b3) := b in
  a1 < b1 ∨ a1 = b1 ∧ (a2 < b2 ∨ a2 = b2 ∧ a3 < b3).

Lemma b64_lt_key (x y : b64) :
  SFltb x y = true ↔ ∃ a b, b64_key x = Some a ∧ b64_key y = Some b ∧ lex_lt a b.
Proof.
  split.
  - intros Hlt. unfold SFltb, SFcompare in Hlt.
    destruct x as [|[]| |[] m e], y as [|[]| |[] m' e']; cbn in *; try discriminate;
      try (eexists _, _; repeat split; cbn; lia);
      destruct (Z.compare_spec e e'); try discriminate; eexists _, _; repeat split; cbn; try lia;
      change (Pos.compare_cont Eq m m') with (m ?= m')%positive in Hlt;
      destruct (Pos.compare_spec m m'); cbn in Hlt; try discriminate; lia.
  - intros (a & b & Ha & Hb & Hlt).
    destruct x as [|[]| |[] m e], y as [|[]| |[] m' e']; cbn in *; simplify_eq; cbn in *;
      try done; try lia; unfold SFltb, SFcompare;
      change (Pos.compare_cont Eq m m') with (m ?= m')%positive;
      destruct (Z.compare_spec e e'); try done; try lia;
      destruct (Pos.compare_spec m m'); cbn; try done; lia.
Qed.

Lemma b64_le_key (x y : b64) :
  SFleb x y = true ↔ ∃ a b, b64_key x = Some a ∧ b64_key y = Some b ∧ (lex_lt a b ∨ a = b).
Proof.
  split.
  - intros Hle. unfold SFleb, SFcompare in Hle.
    destruct x as [|[]| |[] m e], y as [|[]| |[] m' e']; cbn in *; try discriminate;
      try (eexists _, _; repeat split; cbn; auto; lia);
      destruct (Z.compare_spec e e'); try discriminate; eexists _, _; repeat split; cbn; try lia;
      change (Pos.compare_cont Eq m m') with (m ?= m')%positive in Hle;
      destruct (Pos.compare_spec m m'); cbn in Hle; try discriminate; subst; auto; lia.
  - intros (a & b & Ha & Hb & Hle).
    destruct x as [|[]| |[] m e], y as [|[]| |[] m' e']; cbn in *; simplify_eq; cbn in *;
      unfold SFleb, SFcompare; try reflexivity;
      try (destruct Hle as [?|[=]]; lia);
      change (Pos.compare_cont Eq m m') with (m ?= m')%positive;
      destruct (Z.compare_spec e e'), (Pos.compare_spec m m'); cbn; try reflexivity;
      destruct Hle as [?|[=]]; lia.
Qed.

#[local] Ltac split_keys :=
  repeat match goal with p : Z * Z * Z |- _ => destruct p as [[] ?] end.

#[global] Instance NumOrd_b64 : NumOrd b64.
Proof.
  split; cbn.
  - intros x y Hle. apply not_true_iff_false. rewrite b64_lt_key. apply b64_le_key in Hle.
    destruct Hle as (a & b & Ha & Hb & Hle). intros (b' & a' & ? & ? & ?). simplify_eq.
    split_keys; cbn in *. destruct Hle as [?|?]; simplify_eq; lia.
  - intros x y. rewrite b64_lt_key, b64_le_key. naive_solver.
  - intros x y z. rewrite !b64_le_key. intros (a & b & ? & ? & H1) (b' & c & ? & ? & H2).
    simplify_eq. exists a, c. repeat split; [done..|].
    split_keys; cbn in *.
    destruct H1, H2; simplify_eq; auto; left; lia.
  - intros x y z. rewrite b64_le_key, !b64_lt_key. intros (a & b & ? & ? & H1) (b' & c & ? & ? & H2).
    simplify_eq. exists a, c. repeat split; [done..|].
    split_keys; cbn in *. destruct H1; simplify_eq; lia.
Qed.

(** [round(x, nd)] moves a rational by at most half a unit of the last digit. *)
Lemma nround_Q_error (x : Q) (nd : Z) :
  0 ≤ nd → (Qabs (nround x nd - x) * inject_Z (2 * 10 ^ nd) <= 1)%Q.
Proof.
  intros Hnd. cbn. unfold Q_round_dec. rewrite (proj2 (Z.leb_le 0 nd)) by lia.
  assert (Hp : 0 < 10 ^ nd) by (apply Z.pow_pos_nonneg; lia).
  set (p := 10 ^ nd) in *. destruct x as [n d]; cbn [Qnum Qden].
  pose proof (div_half_even_error (n * p) (Zpos d) ltac:(lia)) as He.
  set (r := div_half_even (n * p) (Zpos d)) in *.
  unfold Qle, Qabs, Qminus, Qplus, Qopp, Qmult, inject_Z; cbn [Qnum Qden].
  rewrite !Pos2Z.inj_mul, Z2Pos.id by lia.
  destruct (Z.abs_spec (2 * (r * Zpos d - n * p))); destruct (Z.abs_spec (r * Zpos d + - n * p)); nia.
Qed.

(** ** Sums over lists and finite maps of rationals *)

Lemma qsum_Permutation (xs ys : list Q) : Permutation xs ys → (qsum xs == qsum ys)%Q.
Proof.
  unfold qsum. induction 1; cbn; [reflexivity|by rewrite IHPermutation|ring|by etransitivity].
Qed.

Lemma qsum_app (xs ys : list Q) : (qsum (xs ++ ys) == qsum xs + qsum ys)%Q.
Proof. unfold qsum. induction xs as [|x xs IH]; cbn; [ring|]. rewrite IH. ring. Qed.

Lemma qsum_map_ext {A} (f g : A → Q) (xs : list A) :
  (∀ x, x ∈ xs → (f x == g x)%Q) → (qsum (map f xs) == qsum (map g xs))%Q.
Proof.
  unfold qsum. induction xs as [|x xs IH]; cbn; intros Hf; [reflexivity|].
  rewrite (Hf x), IH; [reflexivity|..]; set_solver.
Qed.

Lemma qsum_map_plus {A} (f g : A → Q) (xs : list A) :
  (qsum (map (λ x, f x + g x) xs) == qsum (map f xs) + qsum (map g xs))%Q.
Proof. unfold qsum. induction xs as [|x xs IH]; cbn; [ring|]. rewrite IH. ring. Qed.

(** The sum of [f k v] over a map. *)
Definition map_qsum {V} (f : string → V → Q) (m : gmap string V) : Q :=
  qsum (map (λ kv, f kv.1 kv.2) (map_to_list m)).

Lemma map_qsum_insert_new {V} (f : string → V → Q) k v (m : gmap string V) :
  m !! k = None → (map_qsum f (<[k := v]> m) == f k v + map_qsum f m)%Q.
Proof.
  intros Hk. unfold map_qsum.
  rewrite (qsum_Permutation _ (map (λ kv, f kv.1 kv.2) ((k, v) :: map_to_list m))); [done|].
  apply Permutation_map, map_to_list_insert, Hk.
Qed.

Lemma map_qsum_insert_old {V} (f : string → V → Q) k v w (m : gmap string V) :
  m !! k = Some v → (map_qsum f (<[k := w]> m) == map_qsum f m - f k v + f k w)%Q.
Proof.
  intros Hk. rewrite <-(insert_id m k v Hk) at 2.
  rewrite <-insert_delete_eq, <-(insert_delete_eq m k v).
  rewrite !map_qsum_insert_new by apply lookup_delete_eq. ring.
Qed.

(** Updating one entry, present or not, of a map whose absent entries count
    for nothing. *)
Lemma map_qsum_update {V} (f : string → V → Q) (d : V) k w (m : gmap string V) :
  (f k d == 0)%Q →
  (map_qsum f (<[k := w]> m) == map_qsum f m - f k (default d (m !! k)) + f k w)%Q.
Proof.
  intros Hd. destruct (m !! k) as [v|] eqn:Hk; cbn.
  - by apply map_qsum_insert_old.
  - rewrite map_qsum_insert_new, Hd by done. ring.
Qed.

Lemma map_qsum_plus {V} (f g : string → V → Q) (m : gmap string V) :
  (map_qsum (λ k v, f k v + g k v) m == map_qsum f m + map_qsum g m)%Q.
Proof. apply qsum_map_plus. Qed.
