(* ===== verification/PyDecimal.v ===== *)
(** Python's [decimal.Decimal] under the default context (28 significant
    digits, ROUND_HALF_EVEN), on finite values: what the money arithmetic of
    the paper broker and the canonical order text rely on. *)

From S2P Require Import Prelude Numeric.
#[local] Open Scope Z_scope.

Definition dec_prec : Z := 28.

Definition dec_of_Z (n : Z) : dec := Dec n 0.

(** Rounding a result to the context precision. A carry to a 29th digit can
    only be a power of ten, and drops its last zero. *)
Definition dec_fix (d : dec) : dec :=
  let k := ndigits (Z.abs (dcoef d)) - dec_prec in
  if k <=? 0 then d
  else
    let c := div_half_even (dcoef d) (10 ^ k) in
    if ndigits (Z.abs c) <=? dec_prec then Dec c (dexp d + k)
    else Dec (c / 10) (dexp d + k + 1).

Definition dec_mul (a b : dec) : dec := dec_fix (Dec (dcoef a * dcoef b) (dexp a + dexp b)).

(** Both coefficients over the smaller exponent. *)
Definition dec_align (a b : dec) : Z * Z * Z :=
  let e := Z.min (dexp a) (dexp b) in
  (dcoef a * 10 ^ (dexp a - e), dcoef b * 10 ^ (dexp b - e), e).

Definition dec_add (a b : dec) : dec :=
  let '(x, y, e) := dec_align a b in dec_fix (Dec (x + y) e).
Definition dec_sub (a b : dec) : dec :=
  let '(x, y, e) := dec_align a b in dec_fix (Dec (x - y) e).

Definition dec_compare (a b : dec) : comparison :=
  let '(x, y, _) := dec_align a b in x ?= y.
Definition dec_leb (a b : dec) : bool := match dec_compare a b with Gt => false | _ => true end.
Definition dec_ltb (a b : dec) : bool := match dec_compare a b with Lt => true | _ => false end.

(** [max(a, b)]: the first of equal arguments. *)
Definition dec_max (a b : dec) : dec := if dec_ltb a b then b else a.

(** [int(d.to_integral_value(rounding=ROUND_HALF_UP))]. *)
Definition dec_to_int_half_up (d : dec) : Z :=
  if 0 <=? dexp d then dcoef d * 10 ^ dexp d
  else div_half_up (dcoef d) (10 ^ (- dexp d)).

(** *** Laws *)

Lemma pow10_pos k : 0 ≤ k → 0 < 10 ^ k.
Proof. intros. apply Z.pow_pos_nonneg; lia. Qed.
#[export] Hint Resolve pow10_pos : core.

Lemma ndigits_fuel_bounds fuel n :
  0 ≤ n < 2 ^ Z.of_nat fuel →
  1 ≤ ndigits_fuel fuel n ∧ n < 10 ^ ndigits_fuel fuel n ∧
  (0 < n → 10 ^ (ndigits_fuel fuel n - 1) ≤ n).
Proof.
  revert n; induction fuel as [|k IH]; intros n Hn; cbn [ndigits_fuel].
  { change (2 ^ Z.of_nat 0) with 1 in Hn. cbn. lia. }
  destruct (Z.ltb_spec n 10); [cbn; lia|].
  rewrite Nat2Z.inj_succ, Z.pow_succ_r in Hn by lia.
  assert (0 ≤ n / 10 < 2 ^ Z.of_nat k) as Hd.
  { split; [apply Z.div_pos; lia|]. apply Z.div_lt_upper_bound; lia. }
  destruct (IH _ Hd) as (H1 & H2 & H3).
  pose proof (Z.div_mod n 10 ltac:(lia)). pose proof (Z.mod_pos_bound n 10 ltac:(lia)).
  set (m := ndigits_fuel k (n / 10)) in *.
  replace (1 + m) with (Z.succ m) by lia. rewrite Z.pow_succ_r by lia.
  split; [lia|]. split; [nia|]. intros _.
  replace (Z.succ m - 1) with (Z.succ (m - 1)) by lia. rewrite Z.pow_succ_r by lia.
  specialize (H3 ltac:(lia)). nia.
Qed.

Lemma ndigits_bounds n :
  0 ≤ n → 1 ≤ ndigits n ∧ n < 10 ^ ndigits n ∧ (0 < n → 10 ^ (ndigits n - 1) ≤ n).
Proof.
  intros Hn. unfold ndigits. apply ndigits_fuel_bounds. split; [done|].
  destruct (decide (n = 0)) as [->|]; [cbn; lia|].
  rewrite Nat2Z.inj_succ, Z2Nat.id by apply Z.log2_nonneg.
  apply Z.log2_spec. lia.
Qed.

Lemma ndigits_le n k : 0 ≤ n < 10 ^ k → 0 < k → ndigits n ≤ k.
Proof.
  intros Hn Hk. destruct (ndigits_bounds n ltac:(lia)) as (H1 & H2 & H3).
  destruct (decide (n = 0)) as [->|]; [unfold ndigits; cbn; lia|].
  specialize (H3 ltac:(lia)). destruct (Z_lt_le_dec k (ndigits n)) as [Hlt|]; [|done].
  assert (10 ^ k ≤ 10 ^ (ndigits n - 1)) by (apply Z.pow_le_mono_r; lia). lia.
Qed.

(** Results of at most 28 digits are exact. *)
Lemma dec_fix_exact d : Z.abs (dcoef d) < 10 ^ dec_prec → dec_fix d = d.
Proof.
  intros Hd. unfold dec_fix.
  pose proof (ndigits_le (Z.abs (dcoef d)) dec_prec ltac:(lia) ltac:(unfold dec_prec; lia)).
  destruct (Z.leb_spec (ndigits (Z.abs (dcoef d)) - dec_prec) 0); [done|lia].
Qed.

Lemma dec_mul_exact a b :
  Z.abs (dcoef a * dcoef b) < 10 ^ dec_prec →
  dec_mul a b = Dec (dcoef a * dcoef b) (dexp a + dexp b).
Proof. intros. by apply dec_fix_exact. Qed.

Lemma dec_fix_nonneg d : 0 ≤ dcoef d → 0 ≤ dcoef (dec_fix d).
Proof.
  intros Hd. unfold dec_fix. destruct (Z.leb_spec (ndigits (Z.abs (dcoef d)) - dec_prec) 0); [done|].
  assert (0 ≤ div_half_even (dcoef d) (10 ^ (ndigits (Z.abs (dcoef d)) - dec_prec))) as Hc.
  { unfold div_half_even. assert (0 ≤ dcoef d / 10 ^ (ndigits (Z.abs (dcoef d)) - dec_prec)).
    { apply Z.div_pos; [done|]. apply pow10_pos. lia. }
    destruct (_ ?= _); [destruct (Z.even _)| |]; lia. }
  destruct (_ <=? _); cbn [dcoef]; [done|]. apply Z.div_pos; lia.
Qed.

Lemma dec_mul_nonneg a b : 0 ≤ dcoef a → 0 ≤ dcoef b → 0 ≤ dcoef (dec_mul a b).
Proof. intros. apply dec_fix_nonneg. cbn. nia. Qed.

Lemma div_half_up_nonneg n d : 0 ≤ n → 0 < d → 0 ≤ div_half_up n d.
Proof.
  intros. unfold div_half_up. apply Z.mul_nonneg_nonneg; [by apply Z.sgn_nonneg|].
  apply Z.div_pos; lia.
Qed.

Lemma dec_to_int_nonneg d : 0 ≤ dcoef d → 0 ≤ dec_to_int_half_up d.
Proof.
  intros. unfold dec_to_int_half_up. destruct (Z.leb_spec 0 (dexp d)).
  - pose proof (pow10_pos (dexp d)). nia.
  - apply div_half_up_nonneg; [done|]. apply pow10_pos. lia.
Qed.

Lemma dec_align_same (a b : dec) : dexp a = dexp b → dec_align a b = (dcoef a, dcoef b, dexp a).
Proof.
  intros E. unfold dec_align. rewrite E, Z.min_id, Z.sub_diag. cbn. by rewrite !Z.mul_1_r.
Qed.

#[export] Hint Resolve dec_mul_nonneg dec_to_int_nonneg : core.
