(* ===== verification/Models.v ===== *)
(** The rows of the ORM tables the modelled services read and write
    (backend/models.py). A row is a record with the table's columns: NUMERIC
    columns are exact decimals, timestamps are microseconds since the epoch
    (UTC), nullable columns are options, JSON columns hold [json] values.
    Statuses, sides and order types are the strings the code stores. *)

From S2P Require Import Prelude Numeric.
From stdpp Require Export sorting.
#[local] Open Scope Z_scope.

(** Timestamps, in microseconds. *)
Abbreviation time := Z (only parsing).
Definition seconds (n : Z) : Z := n * 1000000.

(** JSON values as [json.loads] builds them: dicts keep insertion order. *)
#[global] Set Warnings "-register-all".

Inductive json : Type :=
| JNull
| JBool (b : bool)
| JInt (z : Z)
| JFloat (x : b64)
| JStr (s : string)
| JArr (l : list json)
| JObj (l : list (string * json)).

(** ** Trading tables *)

Record Trade := mkTrade {
  tr_id : string;
  tr_user_id : string;
  tr_asset : string;
  tr_side : string;
  tr_quantity : dec;
  tr_order_type : string;
  tr_limit_price : option dec;
  tr_stop_price : option dec;
  tr_time_in_force : string;
  tr_status : string;
  tr_filled_price : option dec;
  tr_submitted_at : Z;
  tr_filled_at : option Z
}.
#[global] Instance eta_Trade : Eta Trade := λ t,
  mkTrade (tr_id t) (tr_user_id t) (tr_asset t) (tr_side t) (tr_quantity t) (tr_order_type t)
    (tr_limit_price t) (tr_stop_price t) (tr_time_in_force t) (tr_status t) (tr_filled_price t)
    (tr_submitted_at t) (tr_filled_at t).

Record PaperAccount := mkPaperAccount {
  cash_micros : Z;
  reserved_micros : Z;
  acc_updated_at : Z
}.
#[global] Instance eta_PaperAccount : Eta PaperAccount := λ a,
  mkPaperAccount (cash_micros a) (reserved_micros a) (acc_updated_at a).

(** A row of the positions projection; its [id] is a random key nothing reads. *)
Record Position := mkPosition {
  po_user_id : string;
  po_asset : string;
  po_quantity : dec;
  po_avg_entry_price : dec;
  po_realized_pnl : dec
}.

(** ** Order-security tables *)

Record KeyPair := mkKeyPair {
  kp_id : string;
  kp_user_id : string;
  kp_algorithm : string;
  kp_public_key : string;
  kp_is_active : bool
}.

Record ApiKey := mkApiKey {
  ak_id : string;
  ak_user_id : string;
  ak_key_prefix : string;
  ak_key_hash : string;
  ak_hmac_secret_encrypted : option string;
  ak_scopes : option (list string);
  ak_last_used_at : option Z;
  ak_expires_at : option Z;
  ak_is_revoked : bool
}.
#[global] Instance eta_ApiKey : Eta ApiKey := λ k,
  mkApiKey (ak_id k) (ak_user_id k) (ak_key_prefix k) (ak_key_hash k) (ak_hmac_secret_encrypted k)
    (ak_scopes k) (ak_last_used_at k) (ak_expires_at k) (ak_is_revoked k).

Record IdempotencyRecord := mkIdempotencyRecord {
  idem_request_hash : string;
  idem_response_json : option json
}.
#[global] Instance eta_IdempotencyRecord : Eta IdempotencyRecord := λ r,
  mkIdempotencyRecord (idem_request_hash r) (idem_response_json r).

(** ** Research tables *)

Record ResearchJob := mkResearchJob {
  rj_id : string;
  rj_user_id : string;
  rj_kind : string;
  rj_params_json : list (string * json);
  rj_status : string;
  rj_cancel_requested : bool;
  rj_attempts : Z;
  rj_max_attempts : Z;
  rj_worker_id : option string;
  rj_lease_expires_at : option Z;
  rj_created_at : Z;
  rj_started_at : option Z;
  rj_finished_at : option Z;
  rj_result_json : option json;
  rj_error_status : option Z;
  rj_error_detail : option string
}.
#[global] Instance eta_ResearchJob : Eta ResearchJob := λ j,
  mkResearchJob (rj_id j) (rj_user_id j) (rj_kind j) (rj_params_json j) (rj_status j)
    (rj_cancel_requested j) (rj_attempts j) (rj_max_attempts j) (rj_worker_id j)
    (rj_lease_expires_at j) (rj_created_at j) (rj_started_at j) (rj_finished_at j)
    (rj_result_json j) (rj_error_status j) (rj_error_detail j).

Record ResearchWorker := mkResearchWorker {
  rw_hostname : string;
  rw_pid : Z;
  rw_started_at : Z;
  rw_last_seen_at : Z;
  rw_current_job_id : option string
}.
#[global] Instance eta_ResearchWorker : Eta ResearchWorker := λ w,
  mkResearchWorker (rw_hostname w) (rw_pid w) (rw_started_at w) (rw_last_seen_at w)
    (rw_current_job_id w).

(** ** Authentication and audit tables *)

Record RefreshToken := mkRefreshToken {
  rt_user_id : string;
  rt_token_hash : string;
  rt_family_id : string;
  rt_is_used : bool;
  rt_is_revoked : bool;
  rt_created_at : Z;
  rt_expires_at : Z
}.
#[global] Instance eta_RefreshToken : Eta RefreshToken := λ r,
  mkRefreshToken (rt_user_id r) (rt_token_hash r) (rt_family_id r) (rt_is_used r)
    (rt_is_revoked r) (rt_created_at r) (rt_expires_at r).

(** Keyed by id. *)
Record AuditLog := mkAuditLog {
  al_user_id : option string;
  al_action : string;
  al_resource_type : option string;
  al_resource_id : option string;
  al_metadata_json : json;
  al_pqc_signature : option string;
  al_signing_key_id : option string;
  al_created_at : Z
}.

(** Keyed by the unique sequence. *)
Record AuditChainLink := mkAuditChainLink {
  cl_audit_log_id : string;
  cl_previous_hash : string;
  cl_entry_hash : string;
  cl_checkpoint_signature : string;
  cl_signing_key_id : option string;
  cl_created_at : Z
}.

(** ** The ledger database and its sessions

    A session sees the committed state plus its own pending statements;
    [commit] publishes them and [rollback] forgets them. Transactions on the
    ledger serialise on the rows they write, so between two statements of one
    session no other session changes those rows. *)

Record LedgerDB := mkLedgerDB {
  db_trades : gmap string Trade;
  db_accounts : gmap string PaperAccount;
  db_positions : list Position
}.
#[global] Instance eta_LedgerDB : Eta LedgerDB := λ d,
  mkLedgerDB (db_trades d) (db_accounts d) (db_positions d).

Record Session := mkSession { committed : LedgerDB; working : LedgerDB }.
#[global] Instance eta_Session : Eta Session := λ s, mkSession (committed s) (working s).

Definition begin_session (d : LedgerDB) : Session := mkSession d d.
Definition commit (s : Session) : Session := mkSession (working s) (working s).
Definition rollback (s : Session) : Session := mkSession (committed s) (committed s).

(** Rows in [ORDER BY] order: ascending, with NULLs last. *)
Definition nulls_last_le (a b : option Z) : Prop :=
  match a, b with
  | Some x, Some y => x ≤ y
  | _, None => True
  | None, Some _ => False
  end.
#[global] Instance nulls_last_le_dec a b : Decision (nulls_last_le a b).
Proof. destruct a, b; cbn; apply _. Defined.
#[global] Instance nulls_last_le_total : Total nulls_last_le.
Proof. intros [x|] [y|]; cbn; auto. lia. Qed.
#[global] Instance nulls_last_le_trans : Transitive nulls_last_le.
Proof. intros [x|] [y|] [z|]; cbn; try done. lia. Qed.

Definition filled_earlier (a b : Trade) : Prop := nulls_last_le (tr_filled_at a) (tr_filled_at b).
#[global] Instance filled_earlier_dec a b : Decision (filled_earlier a b).
Proof. unfold filled_earlier. apply _. Defined.

Definition rows {K V} `{Countable K} (m : gmap K V) : list V := (map_to_list m).*2.

(** The user's filled trades, in the order of their fills. *)
Definition filled_trades (d : LedgerDB) (user_id : string) : list Trade :=
  merge_sort filled_earlier
    (filter (λ t, tr_user_id t = user_id ∧ tr_status t = "FILLED") (rows (db_trades d))).

Lemma elem_of_rows {K V} `{Countable K} (m : gmap K V) v : v ∈ rows m ↔ ∃ k, m !! k = Some v.
Proof.
  unfold rows. rewrite list_elem_of_fmap. split.
  - intros ([k v'] & -> & Hin). apply elem_of_map_to_list in Hin. eauto.
  - intros (k & Hk). exists (k, v). split; [done|]. by apply elem_of_map_to_list.
Qed.

Lemma filled_trades_elem d u t :
  t ∈ filled_trades d u ↔
  tr_user_id t = u ∧ tr_status t = "FILLED" ∧ ∃ k, db_trades d !! k = Some t.
Proof.
  unfold filled_trades. rewrite merge_sort_Permutation, list_elem_of_filter, elem_of_rows. naive_solver.
Qed.
