(* ===== verification/Json.v ===== *)
(** [json.dumps(value, sort_keys=True, separators=(",", ":"),
    ensure_ascii=False)], the text the services sign and hash, and the proof
    that it determines the value: no two values share a text. Strings are
    their UTF-8 bytes; escaping only touches ASCII characters. *)

From S2P Require Import Prelude Numeric Models.
From stdpp Require Import pretty.
From Stdlib Require Import Ascii.
#[local] Open Scope Z_scope.

(** ** Text *)

Definition dquote : ascii := "034"%char.
Definition backslash : ascii := "092"%char.

Definition hex_digit (n : nat) : ascii :=
  if (n <? 10)%nat then ascii_of_nat (48 + n) else ascii_of_nat (87 + n).

(** The escape of one character. *)
Definition escape_char (c : ascii) : string :=
  let n := nat_of_ascii c in
  if (n =? 34)%nat then String backslash (String dquote EmptyString)
  else if (n =? 92)%nat then String backslash (String backslash EmptyString)
  else if (n =? 10)%nat then String backslash "n"
  else if (n =? 13)%nat then String backslash "r"
  else if (n =? 9)%nat then String backslash "t"
  else if (n =? 12)%nat then String backslash "f"
  else if (n =? 8)%nat then String backslash "b"
  else if (n <? 32)%nat then
    String backslash ("u00" +:+ String (hex_digit (n / 16)) (String (hex_digit (n mod 16)) ""))
  else String c EmptyString.

Fixpoint escape (s : string) : string :=
  match s with
  | EmptyString => EmptyString
  | String c s => escape_char c +:+ escape s
  end.

Definition json_string (s : string) : string :=
  String dquote (escape s +:+ String dquote EmptyString).

Fixpoint commas (l : list string) : string :=
  match l with
  | [] => EmptyString
  | [x] => x
  | x :: l => x +:+ "," +:+ commas l
  end.

(** ** Floats: [float.__repr__] *)

Fixpoint zeros (n : nat) : string :=
  match n with O => EmptyString | S n => String "0" (zeros n) end.

(** The shortest decimal [c * 10 ^ e], written the way [repr] chooses. *)
Definition repr_text (d : dec) : string :=
  let c := dcoef d in
  let digits := pretty (Z.abs c) in
  let n := Z.of_nat (String.length digits) in
  let point := n + dexp d in
  (if c <? 0 then "-" else EmptyString) +:+
  if (-4 <? point) && (point <=? 16) then
    if point <=? 0 then "0." +:+ zeros (Z.to_nat (- point)) +:+ digits
    else if 0 <=? dexp d then digits +:+ zeros (Z.to_nat (dexp d)) +:+ ".0"
    else String.substring 0 (Z.to_nat point) digits +:+ "."
           +:+ String.substring (Z.to_nat point) (String.length digits) digits
  else
    let ex := point - 1 in
    let ex_digits := pretty (Z.abs ex) in
    String.substring 0 1 digits
      +:+ (if n =? 1 then EmptyString else "." +:+ String.substring 1 (String.length digits) digits)
      +:+ "e" +:+ (if ex <? 0 then "-" else "+")
      +:+ (if Z.abs ex <? 10 then "0" else EmptyString) +:+ ex_digits.

Definition float_text (x : b64) : string :=
  match x with
  | SpecFloat.S754_zero s => if s then "-0.0" else "0.0"
  | SpecFloat.S754_infinity s => if s then "-Infinity" else "Infinity"
  | SpecFloat.S754_nan => "NaN"
  | SpecFloat.S754_finite _ _ _ => repr_text (nrepr (F:=b64) x)
  end.

(** ** Values *)

Fixpoint json_print (v : json) : string :=
  match v with
  | JNull => "null"
  | JBool b => if b then "true" else "false"
  | JInt z => pretty z
  | JFloat x => float_text x
  | JStr s => json_string s
  | JArr l => "[" +:+ commas (map json_print l) +:+ "]"
  | JObj l =>
      "{" +:+ commas (map (λ kv : string * json, json_string kv.1 +:+ ":" +:+ json_print kv.2) l)
          +:+ "}"
  end.

(** [sort_keys=True]: every dict's items in key order. *)
Fixpoint insert_field (f : string * json) (l : list (string * json)) : list (string * json) :=
  match l with
  | [] => [f]
  | g :: l' => if String.leb f.1 g.1 then f :: l else g :: insert_field f l'
  end.
Definition sort_fields (l : list (string * json)) : list (string * json) :=
  foldr insert_field [] l.

Fixpoint json_sort (v : json) : json :=
  match v with
  | JArr l => JArr (map json_sort l)
  | JObj l => JObj (sort_fields (map (λ kv : string * json, (kv.1, json_sort kv.2)) l))
  | v => v
  end.

(** [canonical_json] *)
Definition canonical_json (v : json) : string := json_print (json_sort v).

Example canonical_json_sample :
  canonical_json (JObj [("b", JArr [JInt (-5); JFloat (nof_ratio 1 10)]); ("a", JStr "x y")])
  = String "{" (json_string "a" +:+ ":" +:+ json_string "x y" +:+ ","
      +:+ json_string "b" +:+ ":[-5,0.1]}").
Proof. vm_compute. reflexivity. Qed.

Example float_text_samples :
  float_text (nof_ratio 100 1) = "100.0" ∧ float_text (nof_ratio 1 100000) = "1e-05" ∧
  float_text (nof_ratio (10 ^ 16) 1) = "1e+16" ∧ float_text (nof_ratio 12345 1000) = "12.345".
Proof. vm_compute. auto. Qed.

(** ** The text determines the value *)

Section json_induction.
Variable P : json → Prop.
Hypothesis Hnull : P JNull.
Hypothesis Hbool : ∀ b, P (JBool b).
Hypothesis Hint : ∀ z, P (JInt z).
Hypothesis Hfloat : ∀ x, P (JFloat x).
Hypothesis Hstr : ∀ s, P (JStr s).
Hypothesis Harr : ∀ l, Forall P l → P (JArr l).
Hypothesis Hobj : ∀ l, Forall (λ kv : string * json, P kv.2) l → P (JObj l).

Fixpoint json_nested_ind (v : json) : P v :=
  match v with
  | JNull => Hnull
  | JBool b => Hbool b
  | JInt z => Hint z
  | JFloat x => Hfloat x
  | JStr s => Hstr s
  | JArr l => Harr l (list_ind (Forall P) (Forall_nil_2 P)
                        (λ v _ IH, Forall_cons_2 P _ _ (json_nested_ind v) IH) l)
  | JObj l => Hobj l (list_ind (Forall (λ kv, P kv.2)) (Forall_nil_2 _)
                        (λ kv _ IH, Forall_cons_2 (λ kv, P kv.2) _ _ (json_nested_ind kv.2) IH) l)
  end.
End json_induction.

(** Reading back one escaped character. *)
Definition unescape_char (s : string) : option (ascii * string) :=
  match s with
  | EmptyString => None
  | String c s =>
      if (nat_of_ascii c =? 34)%nat then None
      else if (nat_of_ascii c =? 92)%nat then
        match s with
        | String e s =>
            match nat_of_ascii e with
            | 110 => Some (ascii_of_nat 10, s)
            | 114 => Some (ascii_of_nat 13, s)
            | 116 => Some (ascii_of_nat 9, s)
            | 102 => Some (ascii_of_nat 12, s)
            | 98 => Some (ascii_of_nat 8, s)
            | 117 =>
                match s with
                | String _ (String _ (String h (String l s))) =>
                    let digit c := let n := nat_of_ascii c in
                                   (if n <? 58 then n - 48 else n - 87)%nat in
                    Some (ascii_of_nat (16 * digit h + digit l), s)
                | _ => None
                end
            | _ => Some (e, s)
            end%nat
        | EmptyString => None
        end
      else Some (c, s)
  end.

Lemma unescape_escape c s : unescape_char (escape_char c +:+ s) = Some (c, s).
Proof. destruct c as [[] [] [] [] [] [] [] []]; reflexivity. Qed.

Lemma escape_prefix a b r s :
  escape a +:+ String dquote r = escape b +:+ String dquote s → a = b ∧ r = s.
Proof.
  revert b; induction a as [|c a IH]; intros [|d b] E; cbn [escape] in E;
    rewrite ?string_app_assoc in E.
  - by injection E.
  - apply (f_equal unescape_char) in E. by rewrite unescape_escape in E.
  - apply (f_equal unescape_char) in E. by rewrite unescape_escape in E.
  - apply (f_equal unescape_char) in E. rewrite !unescape_escape in E.
    injection E as -> E. by destruct (IH b E) as [-> ->].
Qed.

Lemma json_string_prefix a b r s :
  json_string a +:+ r = json_string b +:+ s → a = b ∧ r = s.
Proof.
  unfold json_string. rewrite !string_app_cons, !string_app_assoc.
  intros E. injection E as E. by apply escape_prefix in E.
Qed.

(** Decimal integers. *)
Definition digitlike (c : ascii) : bool :=
  let n := nat_of_ascii c in ((48 <=? n)%nat && (n <=? 57)%nat) || (n =? 45)%nat.
Fixpoint all_digitlike (s : string) : bool :=
  match s with
  | EmptyString => true
  | String c s => digitlike c && all_digitlike s
  end.
(** The next character, if there is one, ends a number. *)
Definition number_end (s : string) : bool :=
  match s with
  | EmptyString => true
  | String c _ => negb (digitlike c)
  end.

Lemma pretty_N_go_digitlike x s : all_digitlike s = true → all_digitlike (pretty_N_go x s) = true.
Proof.
  revert s. induction (N.lt_wf_0 x) as [x _ IH]; intros s Hs.
  destruct (decide (0 < x)%N) as [Hx|Hx].
  - rewrite pretty_N_go_step by done. apply IH; [by apply N.div_lt|]. cbn. rewrite Hs.
    unfold pretty_N_char. by repeat case_match.
  - replace x with 0%N by lia. by rewrite pretty_N_go_0.
Qed.

Lemma pretty_Z_digitlike (z : Z) : all_digitlike (pretty z) = true.
Proof. by destruct z as [|p|p]; [done|apply (pretty_N_go_digitlike (N.pos p))..]. Qed.

Lemma pretty_N_go_cons x s : (0 < x)%N ∨ s ≠ EmptyString → pretty_N_go x s ≠ EmptyString.
Proof.
  revert s. induction (N.lt_wf_0 x) as [x _ IH]; intros s Hs.
  destruct (decide (0 < x)%N) as [Hx|Hx].
  - rewrite pretty_N_go_step by done. apply IH; [by apply N.div_lt|]. by right.
  - replace x with 0%N by lia. rewrite pretty_N_go_0. destruct Hs; [lia|done].
Qed.

Lemma pretty_Z_head (z : Z) : ∃ c s, pretty z = String c s ∧ digitlike c = true.
Proof.
  pose proof (pretty_Z_digitlike z) as Hd.
  assert (pretty z ≠ EmptyString) as Hn.
  { destruct z as [|p|p]; [done| |done]. apply (pretty_N_go_cons (N.pos p)). left. lia. }
  destruct (pretty z) as [|c s]; [done|]. cbn in Hd. apply andb_prop in Hd as [? _]. eauto.
Qed.

Lemma digits_prefix a b r s :
  all_digitlike a = true → all_digitlike b = true →
  number_end r = true → number_end s = true → a +:+ r = b +:+ s → a = b ∧ r = s.
Proof.
  revert b; induction a as [|c a IH]; intros [|d b]; cbn [all_digitlike]; intros Ha Hb Hr Hs E.
  - done.
  - change (r = String d (b +:+ s)) in E. subst r. cbn in Hr. apply andb_prop in Hb as [Hb _]. by rewrite Hb in Hr.
  - change (String c (a +:+ r) = s) in E. subst s. cbn in Hs. apply andb_prop in Ha as [Ha _]. by rewrite Ha in Hs.
  - apply andb_prop in Ha as [_ Ha], Hb as [_ Hb]. injection E as -> E.
    by destruct (IH b Ha Hb Hr Hs E) as [-> ->].
Qed.

Lemma pretty_Z_prefix (a b : Z) r s :
  number_end r = true → number_end s = true → pretty a +:+ r = pretty b +:+ s → a = b ∧ r = s.
Proof.
  intros Hr Hs E. apply digits_prefix in E as [E ->]; [|apply pretty_Z_digitlike..|done|done].
  split; [|done]. by apply (inj pretty).
Qed.

(** Values without floats: what a canonical order is made of. *)
Fixpoint floatless (v : json) : bool :=
  match v with
  | JFloat _ => false
  | JArr l => forallb floatless l
  | JObj l => forallb (λ kv : string * json, floatless kv.2) l
  | _ => true
  end.

(** What may follow a value inside a JSON text. *)
Definition delimited (s : string) : bool :=
  match s with
  | EmptyString => true
  | String c _ => let n := nat_of_ascii c in (n =? 44)%nat || (n =? 93)%nat || (n =? 125)%nat
  end.

Lemma delimited_number_end s : delimited s = true → number_end s = true.
Proof.
  destruct s as [|c s]; [done|]. cbn. unfold digitlike.
  intros [[E|E]%orb_prop|E]%orb_prop; apply Nat.eqb_eq in E; by rewrite E.
Qed.

(** The kind of a value shows in the first character of its text. *)
Definition kind_of_head (c : ascii) : nat :=
  if digitlike c then 3
  else match nat_of_ascii c with
       | 110 => 0 | 116 => 1 | 102 => 2 | 34 => 4 | 91 => 5 | 123 => 6 | _ => 7
       end%nat.
Definition kind (v : json) : nat :=
  match v with
  | JNull => 0 | JBool true => 1 | JBool false => 2 | JInt _ | JFloat _ => 3 | JStr _ => 4
  | JArr _ => 5 | JObj _ => 6
  end%nat.

Lemma json_print_head v :
  floatless v = true → ∃ c s, json_print v = String c s ∧ kind_of_head c = kind v.
Proof.
  destruct v as [|[]|z|x|s|l|l]; intros Hv; try discriminate Hv;
    try (eexists _, _; split; [reflexivity|reflexivity]).
  destruct (pretty_Z_head z) as (c & s & E & Hc). exists c, s. cbn [json_print kind].
  split; [done|]. unfold kind_of_head. by rewrite Hc.
Qed.

Lemma json_print_kind v w r s :
  floatless v = true → floatless w = true →
  json_print v +:+ r = json_print w +:+ s → kind v = kind w.
Proof.
  intros (c & s1 & E1 & <-)%json_print_head (d & s2 & E2 & <-)%json_print_head.
  rewrite E1, E2. intros E. by injection E as ->.
Qed.

(** A comma-separated sequence of texts each of which determines its source,
    up to its closing bracket. *)
Definition opens (s : string) : bool :=
  match s with EmptyString => false | String _ _ => negb (delimited s) end.

Section sequences.
Context {A : Type} (print : A → string) (ok : A → bool) (close : ascii).
Hypothesis Hclose : ∀ s, delimited (String close s) = true.
Hypothesis Hcomma : nat_of_ascii close ≠ 44%nat.
Hypothesis Hopens : ∀ x, ok x = true → opens (print x) = true.

Definition determined (x : A) : Prop :=
  ∀ y r s, ok y = true → delimited r = true → delimited s = true →
    print x +:+ r = print y +:+ s → x = y ∧ r = s.

Lemma opens_not_close x r s : ok x = true → print x +:+ r ≠ String close s.
Proof.
  intros Hx E. apply Hopens in Hx. destruct (print x) as [|c p]; [done|].
  injection E as -> _. unfold opens in Hx. by rewrite Hclose in Hx.
Qed.

Lemma commas_cons x l r :
  commas (map print (x :: l)) +:+ String close r =
  print x +:+ (match l with [] => String close r
               | _ => "," +:+ commas (map print l) +:+ String close r end).
Proof. destruct l; cbn [map commas]; [done|]. by rewrite !string_app_assoc. Qed.

Lemma commas_prefix l1 l2 r s :
  Forall determined l1 → forallb ok l1 = true → forallb ok l2 = true →
  commas (map print l1) +:+ String close r = commas (map print l2) +:+ String close s →
  l1 = l2 ∧ r = s.
Proof.
  intros Hl. revert l2. induction Hl as [|x l1 Hx Hl IH]; intros [|y l2] H1 H2 E.
  - by injection E as ->.
  - rewrite commas_cons in E. symmetry in E. apply andb_prop in H2 as [Hy _].
    by apply opens_not_close in E.
  - rewrite commas_cons in E. apply andb_prop in H1 as [Hx1 _]. by apply opens_not_close in E.
  - rewrite !commas_cons in E. apply andb_prop in H1 as [_ H1], H2 as [Hy H2].
    change (forallb ok l1 = true) in H1; change (forallb ok l2 = true) in H2.
    apply Hx in E as [-> E]; [|done|by destruct l1; [apply Hclose|]|by destruct l2; [apply Hclose|]].
    destruct l1 as [|x1 l1], l2 as [|y2 l2].
    + by injection E as ->.
    + injection E as E _. exfalso. by apply Hcomma; rewrite E.
    + injection E as E _. exfalso. by apply Hcomma; rewrite <-E.
    + change (String "," (commas (map print (x1 :: l1)) +:+ String close r) =
              String "," (commas (map print (y2 :: l2)) +:+ String close s)) in E.
      apply string_cons_inj in E as [_ E]. by destruct (IH _ H1 H2 E) as [-> ->].
Qed.
End sequences.

Definition field_print (kv : string * json) : string := json_string kv.1 +:+ ":" +:+ json_print kv.2.

Lemma json_print_opens v : floatless v = true → opens (json_print v) = true.
Proof.
  intros (c & s & E & Hk)%json_print_head. rewrite E. unfold opens, delimited.
  destruct (orb _ _) eqn:Ho; [|done]. exfalso. unfold kind_of_head, digitlike in Hk.
  apply orb_prop in Ho as [[Ho|Ho]%orb_prop|Ho]; apply Nat.eqb_eq in Ho; rewrite Ho in Hk;
    by destruct v as [|[]|z|x|s'|l|l].
Qed.

Lemma json_print_prefix v :
  floatless v = true → determined json_print floatless v.
Proof.
  induction v as [|b|z|x|a|l IH|l IH] using json_nested_ind; intros Hv w r s Hw Hr Hs E;
    pose proof (json_print_kind _ _ _ _ Hv Hw E) as Hk.
  - destruct w as [|[]|?|?|?|?|?]; try discriminate Hk. split; [done|]. by injection E.
  - destruct b; destruct w as [|[]|?|?|?|?|?]; try discriminate Hk; (split; [done|]; by injection E).
  - destruct w as [|[]|z'|?|?|?|?]; try discriminate Hk; [|discriminate Hw].
    apply pretty_Z_prefix in E as [-> ->]; auto using delimited_number_end.
  - discriminate Hv.
  - destruct w as [|[]|?|?|a'|?|?]; try discriminate Hk.
    by apply json_string_prefix in E as [-> ->].
  - destruct w as [|[]|?|?|?|l'|?]; try discriminate Hk. cbn [json_print] in E.
    rewrite !string_app_assoc in E. injection E as E.
    apply (commas_prefix json_print floatless "]"%char) in E as [-> ->]; try done.
    + apply json_print_opens.
    + cbn in Hv. rewrite forallb_forall in Hv. apply Forall_forall. intros x Hx.
      rewrite Forall_forall in IH. apply (IH x Hx). by apply Hv, list_elem_of_In.
  - destruct w as [|[]|?|?|?|?|l']; try discriminate Hk. cbn [json_print] in E.
    rewrite !string_app_assoc in E. injection E as E.
    apply (commas_prefix field_print (λ kv, floatless kv.2) "}"%char) in E as [-> ->]; try done.
    cbn in Hv. rewrite forallb_forall in Hv. apply Forall_forall. intros [k x] Hx [k' y] r' s' Hy Hr' Hs'.
    unfold field_print. cbn. rewrite !string_app_assoc. intros E'.
    apply json_string_prefix in E' as [-> E']. injection E' as E'.
    rewrite Forall_forall in IH. specialize (IH _ Hx (Hv _ (proj1 (list_elem_of_In _ _) Hx))).
    cbn in IH. by destruct (IH y r' s' Hy Hr' Hs' E') as [-> ->].
Qed.

Lemma json_print_inj v w :
  floatless v = true → floatless w = true → json_print v = json_print w → v = w.
Proof.
  intros Hv Hw E. apply (json_print_prefix v Hv w "" "" Hw eq_refl eq_refl). by rewrite E.
Qed.
