(* ===== verification/JsonText.v ===== *)
(** [json.dumps] with its default [ensure_ascii=True]: strings are their UTF-8
    bytes, printed as ASCII with [\uXXXX] escapes and surrogate pairs, in
    either the default or a compact layout; with the proof that a printed
    string determines its source. *)

From Stdlib Require Import Ascii.
From stdpp Require Import pretty.
From S2P Require Import Prelude Numeric Models Json.
#[local] Ltac Zify.zify_post_hook ::= Z.to_euclidean_division_equations.
#[local] Open Scope Z_scope.

(** ** UTF-8 *)

Definition byte_val (c : ascii) : Z := Z.of_N (N_of_ascii c).
Definition byte_char (z : Z) : ascii := ascii_of_N (Z.to_N z).

(** The code points of well-formed UTF-8. *)
Fixpoint code_points (s : string) : list Z :=
  match s with
  | EmptyString => []
  | String a s1 =>
      let x := byte_val a in
      if x <? 128 then x :: code_points s1
      else match s1 with
           | EmptyString => []
           | String b s2 =>
               let y := byte_val b - 128 in
               if x <? 224 then ((x - 192) * 64 + y) :: code_points s2
               else match s2 with
                    | EmptyString => []
                    | String c s3 =>
                        let z := byte_val c - 128 in
                        if x <? 240 then ((x - 224) * 4096 + y * 64 + z) :: code_points s3
                        else match s3 with
                             | EmptyString => []
                             | String d s4 =>
                                 ((x - 240) * 262144 + y * 4096 + z * 64 + (byte_val d - 128))
                                   :: code_points s4
                             end
                    end
           end
  end.

Definition utf8_char (cp : Z) : string :=
  if cp <? 128 then String (byte_char cp) EmptyString
  else if cp <? 2048 then
    String (byte_char (192 + cp / 64)) (String (byte_char (128 + cp mod 64)) EmptyString)
  else if cp <? 65536 then
    String (byte_char (224 + cp / 4096))
      (String (byte_char (128 + cp / 64 mod 64)) (String (byte_char (128 + cp mod 64)) EmptyString))
  else
    String (byte_char (240 + cp / 262144))
      (String (byte_char (128 + cp / 4096 mod 64))
         (String (byte_char (128 + cp / 64 mod 64)) (String (byte_char (128 + cp mod 64)) EmptyString))).
Definition utf8 (cps : list Z) : string := foldr (λ cp s, utf8_char cp +:+ s) EmptyString cps.

(** A Unicode scalar value. *)
Definition scalar (cp : Z) : bool :=
  (0 <=? cp) && (cp <? 1114112) && negb ((55296 <=? cp) && (cp <? 57344)).

(** The text of a string column: well-formed UTF-8. *)
Definition valid_text (s : string) : bool :=
  forallb scalar (code_points s) && String.eqb (utf8 (code_points s)) s.

Lemma code_points_inj a b :
  valid_text a = true → valid_text b = true → code_points a = code_points b → a = b.
Proof.
  intros [_ Ha%String.eqb_eq]%andb_prop [_ Hb%String.eqb_eq]%andb_prop E. congruence.
Qed.

(** ** Escapes *)

Definition hex_char (z : Z) : ascii := hex_digit (Z.to_nat z).
Definition u_escape (v : Z) : string :=
  String backslash (String "u" (String (hex_char (v / 4096)) (String (hex_char (v / 256 mod 16))
    (String (hex_char (v / 16 mod 16)) (String (hex_char (v mod 16)) EmptyString))))).

Definition escape_point (cp : Z) : string :=
  if cp <? 127 then escape_char (byte_char cp)
  else if cp <? 65536 then u_escape cp
  else u_escape (55296 + (cp - 65536) / 1024) +:+ u_escape (56320 + (cp - 65536) mod 1024).

Definition escape_ascii (cps : list Z) : string :=
  foldr (λ cp s, escape_point cp +:+ s) EmptyString cps.
Definition ascii_string (s : string) : string :=
  String dquote (escape_ascii (code_points s) +:+ String dquote EmptyString).

(** ** Values *)

Definition separated (sep : string) (l : list string) : string :=
  match l with
  | [] => EmptyString
  | x :: l => x +:+ foldr (λ y s, sep +:+ y +:+ s) EmptyString l
  end.

Section dumps.
(** The [separators]. *)
Variables item_sep key_sep : string.

Fixpoint dumps_ascii (v : json) : string :=
  match v with
  | JNull => "null"
  | JBool b => if b then "true" else "false"
  | JInt z => pretty z
  | JFloat x => float_text x
  | JStr s => ascii_string s
  | JArr l => "[" +:+ separated item_sep (map dumps_ascii l) +:+ "]"
  | JObj l =>
      "{" +:+ separated item_sep
        (map (λ kv : string * json, ascii_string kv.1 +:+ key_sep +:+ dumps_ascii kv.2) l) +:+ "}"
  end.
End dumps.

(** [json.dumps(v, sort_keys=True)] *)
Definition dumps_sorted (v : json) : string := dumps_ascii ", " ": " (json_sort v).
(** [json.dumps(v, sort_keys=True, separators=(",", ":"))] *)
Definition dumps_compact (v : json) : string := dumps_ascii "," ":" (json_sort v).

(** U+00E9, U+20AC and U+1F600. *)
Definition accented : string := utf8 [233; 8364; 128512].

Example dumps_samples :
  ascii_string accented = String dquote ("\u00e9\u20ac\ud83d\ude00" +:+ String dquote "") ∧
  valid_text accented = true ∧
  dumps_sorted (JObj [("b", JArr [JInt 1; JNull]); ("a", JBool true)]) =
    String "{" (json_string "a" +:+ ": true, " +:+ json_string "b" +:+ ": [1, null]}") ∧
  dumps_compact (JObj [("b", JArr [JInt 1; JNull]); ("a", JBool true)]) =
    String "{" (json_string "a" +:+ ":true," +:+ json_string "b" +:+ ":[1,null]}").
Proof. vm_compute. auto. Qed.

(** ** A printed string determines its source *)

Definition hex_val (c : ascii) : Z :=
  let z := byte_val c in if z <? 58 then z - 48 else z - 87.

Definition read_u (s : string) : option (Z * string) :=
  match s with
  | String _ (String _ (String a (String b (String c (String d s))))) =>
      Some (4096 * hex_val a + 256 * hex_val b + 16 * hex_val c + hex_val d, s)
  | _ => None
  end.

(** Whether a text starts with [\u], and reading the character it starts with. *)
Definition starts_u (s : string) : bool :=
  match s with
  | String a s =>
      bool_decide (a = backslash) && match s with String b _ => bool_decide (b = "u"%char) | _ => false end
  | EmptyString => false
  end.
Definition read_point (s : string) : option (Z * string) :=
  if starts_u s then
    match read_u s with
    | Some (v, s') =>
        if (55296 <=? v) && (v <? 56320) then
          match read_u s' with
          | Some (w, s'') => Some (65536 + (v - 55296) * 1024 + (w - 56320), s'')
          | None => None
          end
        else Some (v, s')
    | None => None
    end
  else match unescape_char s with Some (c, s) => Some (byte_val c, s) | None => None end.

Lemma hex_val_char z : 0 ≤ z < 16 → hex_val (hex_char z) = z.
Proof.
  intros Hz. rewrite <-(Z2Nat.id z) by lia. assert (Z.to_nat z < 16)%nat as Hn by lia.
  revert Hn. generalize (Z.to_nat z). intros n Hn. do 16 (destruct n as [|n]; [reflexivity|]). lia.
Qed.

Lemma read_u_escape v s : 0 ≤ v < 65536 → read_u (u_escape v +:+ s) = Some (v, s).
Proof.
  intros Hv. unfold u_escape. rewrite !string_app_cons. cbn [read_u].
  rewrite !hex_val_char by lia. f_equal. f_equal. lia.
Qed.

Lemma byte_val_char z : 0 ≤ z < 256 → byte_val (byte_char z) = z.
Proof. intros Hz. unfold byte_val, byte_char. rewrite N_ascii_embedding; lia. Qed.

Lemma read_control c s :
  read_point (escape_char c +:+ s) = Some (byte_val c, s).
Proof. destruct c as [[] [] [] [] [] [] [] []]; reflexivity. Qed.

Lemma read_escape cp s : scalar cp = true → read_point (escape_point cp +:+ s) = Some (cp, s).
Proof.
  unfold scalar. rewrite !andb_true_iff, negb_true_iff, andb_false_iff. intros [[H0 H1] Hsur].
  unfold escape_point. destruct (Z.ltb_spec cp 127).
  { rewrite read_control, byte_val_char by lia. done. }
  destruct (Z.ltb_spec cp 65536).
  - unfold read_point. change (starts_u (u_escape cp +:+ s)) with true. cbv iota.
    rewrite read_u_escape by lia. cbv iota beta.
    destruct (andb _ _) eqn:E; [|done]. apply andb_prop in E. destruct Hsur; lia.
  - rewrite string_app_assoc. unfold read_point.
    change (starts_u (u_escape (55296 + (cp - 65536) / 1024) +:+ ?r)) with true. cbv iota.
    rewrite read_u_escape by lia. cbv iota beta.
    assert ((55296 <=? 55296 + (cp - 65536) / 1024) && (55296 + (cp - 65536) / 1024 <? 56320) = true) as ->
      by (apply andb_true_intro; lia).
    rewrite read_u_escape by lia. cbv iota beta. f_equal. f_equal. lia.
Qed.

Lemma escape_ascii_prefix a b r s :
  forallb scalar a = true → forallb scalar b = true →
  escape_ascii a +:+ String dquote r = escape_ascii b +:+ String dquote s → a = b ∧ r = s.
Proof.
  assert (∀ s, read_point (String dquote s) = None) as Hend by (by intros []).
  revert b; induction a as [|x a IH]; intros [|y b]; cbn [forallb escape_ascii foldr]; intros Ha Hb E.
  - by apply string_cons_inj in E as [_ ->].
  - apply andb_prop in Hb as [Hy _]. apply (f_equal read_point) in E.
    rewrite string_app_assoc, read_escape in E by done. change (read_point (String dquote r) = Some (y, escape_ascii b +:+ String dquote s)) in E.
    by rewrite Hend in E.
  - apply andb_prop in Ha as [Hx _]. apply (f_equal read_point) in E.
    rewrite string_app_assoc, read_escape in E by done. symmetry in E.
    change (read_point (String dquote s) = Some (x, escape_ascii a +:+ String dquote r)) in E.
    by rewrite Hend in E.
  - apply andb_prop in Ha as [Hx Ha], Hb as [Hy Hb]. apply (f_equal read_point) in E.
    rewrite !string_app_assoc, !read_escape in E by done. injection E as -> E.
    by destruct (IH b Ha Hb E) as [-> ->].
Qed.

Lemma ascii_string_prefix a b r s :
  valid_text a = true → valid_text b = true →
  ascii_string a +:+ r = ascii_string b +:+ s → a = b ∧ r = s.
Proof.
  intros Ha Hb. unfold ascii_string. rewrite !string_app_cons, !string_app_assoc. intros E.
  apply string_cons_inj in E as [_ E].
  pose proof (andb_prop _ _ Ha) as [Ha' _]. pose proof (andb_prop _ _ Hb) as [Hb' _].
  apply escape_ascii_prefix in E as [E ->]; [|done..]. split; [|done]. by apply code_points_inj.
Qed.

(** ** Sorting keys twice changes nothing *)

Fixpoint keys_ascend (l : list (string * json)) : Prop :=
  match l with
  | a :: (b :: _) as l' => String.leb a.1 b.1 = true ∧ keys_ascend l'
  | _ => True
  end.

Lemma insert_field_ascends f l : keys_ascend l → keys_ascend (insert_field f l).
Proof.
  induction l as [|a l IH]; [done|]. intros Hl. cbn [insert_field].
  destruct (String.leb f.1 a.1) eqn:E; [by split|].
  assert (String.leb a.1 f.1 = true) as Ha by (destruct (String.leb_total f.1 a.1); congruence).
  destruct l as [|b l]; [by split|]. destruct Hl as [Hab Hl]. specialize (IH Hl).
  cbn [insert_field] in IH |- *. destruct (String.leb f.1 b.1); by split.
Qed.

Lemma sort_fields_ascends l : keys_ascend (sort_fields l).
Proof. induction l as [|f l IH]; [done|]. by apply insert_field_ascends. Qed.

Lemma sort_fields_id l : keys_ascend l → sort_fields l = l.
Proof.
  induction l as [|a l IH]; [done|]. intros Hl. cbn [sort_fields foldr].
  assert (keys_ascend l) as Hl' by (destruct l; [done|apply Hl]).
  change (foldr insert_field [] l) with (sort_fields l). rewrite (IH Hl').
  destruct l as [|b l]; [done|]. cbn [insert_field]. by rewrite (proj1 Hl).
Qed.

Lemma elem_of_insert_field f g l : g ∈ insert_field f l ↔ g = f ∨ g ∈ l.
Proof.
  induction l as [|a l IH]; cbn [insert_field]; [set_solver|].
  destruct (String.leb f.1 a.1); set_solver.
Qed.

Lemma elem_of_sort_fields g l : g ∈ sort_fields l ↔ g ∈ l.
Proof.
  induction l as [|f l IH]; [done|].
  change (sort_fields (f :: l)) with (insert_field f (sort_fields l)).
  rewrite elem_of_insert_field, IH. set_solver.
Qed.

Lemma json_sort_idem v : json_sort (json_sort v) = json_sort v.
Proof.
  induction v as [| | | | |l IH|l IH] using json_nested_ind; try done; cbn [json_sort]; f_equal.
  - rewrite map_map. apply map_ext_in. intros x Hx%list_elem_of_In.
    rewrite Forall_forall in IH. by apply IH.
  - set (f := λ kv : string * json, (kv.1, json_sort kv.2)).
    assert (map f (sort_fields (map f l)) = sort_fields (map f l)) as ->.
    { rewrite <-(map_id (sort_fields (map f l))) at 2. apply map_ext_in.
      intros x Hx%list_elem_of_In%elem_of_sort_fields%list_elem_of_fmap.
      destruct Hx as ([k y] & -> & Hy). unfold f. cbn [fst snd]. f_equal.
      rewrite Forall_forall in IH. by apply (IH (k, y)). }
    apply sort_fields_id, sort_fields_ascends.
Qed.

(** * Theorems

    Well-formed UTF-8, as the encodings of Unicode scalar values: closed under
    concatenation, and under the printing of JSON. *)

#[local] Ltac Zify.zify_post_hook ::= Z.to_euclidean_division_equations.
#[local] Open Scope Z_scope.

Lemma code_points_char cp s : scalar cp = true → code_points (utf8_char cp +:+ s) = cp :: code_points s.
Proof.
  unfold scalar. rewrite !andb_true_iff, negb_true_iff, andb_false_iff. intros [[H0 H1] _].
  unfold utf8_char. destruct (Z.ltb_spec cp 128); [|destruct (Z.ltb_spec cp 2048); [|destruct (Z.ltb_spec cp 65536)]];
    rewrite !string_app_cons; cbn [code_points]; change ("" +:+ s) with s; rewrite !byte_val_char by lia.
  - by rewrite (proj2 (Z.ltb_lt _ _)) by lia.
  - rewrite (proj2 (Z.ltb_ge _ _)), (proj2 (Z.ltb_lt _ _)) by lia. f_equal. lia.
  - rewrite (proj2 (Z.ltb_ge _ _)), (proj2 (Z.ltb_ge _ 224)), (proj2 (Z.ltb_lt _ _)) by lia. f_equal. lia.
  - rewrite (proj2 (Z.ltb_ge _ _)), (proj2 (Z.ltb_ge _ 224)), (proj2 (Z.ltb_ge _ 240)) by lia. f_equal. lia.
Qed.

Definition well_formed (s : string) : Prop := ∃ cps, Forall (λ cp, scalar cp = true) cps ∧ s = utf8 cps.

Lemma code_points_utf8 cps : Forall (λ cp, scalar cp = true) cps → code_points (utf8 cps) = cps.
Proof.
  induction 1 as [|cp cps Hcp H IH]; [done|]. change (utf8 (cp :: cps)) with (utf8_char cp +:+ utf8 cps).
  by rewrite code_points_char, IH.
Qed.

Lemma valid_text_well_formed s : valid_text s = true ↔ well_formed s.
Proof.
  unfold valid_text. split.
  - intros [Hs E%String.eqb_eq]%andb_prop. exists (code_points s). split; [|done].
    apply Forall_forall. intros cp Hcp. rewrite forallb_forall in Hs. by apply Hs, list_elem_of_In.
  - intros (cps & Hc & ->). rewrite code_points_utf8 by done. apply andb_true_intro.
    split; [|by apply String.eqb_eq]. apply forallb_forall. intros cp Hcp%list_elem_of_In.
    rewrite Forall_forall in Hc. by apply Hc.
Qed.

Lemma utf8_app a b : utf8 (a ++ b) = utf8 a +:+ utf8 b.
Proof.
  induction a as [|cp a IH]; [done|]. change (utf8_char cp +:+ utf8 (a ++ b) = (utf8_char cp +:+ utf8 a) +:+ utf8 b).
  by rewrite IH, string_app_assoc.
Qed.

Lemma well_formed_app a b : well_formed a → well_formed b → well_formed (a +:+ b).
Proof.
  intros (ca & Ha & ->) (cb & Hb & ->). exists (ca ++ cb). split; [by apply Forall_app|]. symmetry. apply utf8_app.
Qed.

Lemma well_formed_empty : well_formed EmptyString.
Proof. by exists []. Qed.

(** ASCII characters. *)
Definition is_ascii_char (c : ascii) : Prop := (nat_of_ascii c <? 128)%nat = true.
Fixpoint ascii_only (s : string) : Prop :=
  match s with EmptyString => True | String c s => is_ascii_char c ∧ ascii_only s end.

Lemma well_formed_char c s : is_ascii_char c → well_formed s → well_formed (String c s).
Proof.
  intros Hc%Nat.ltb_lt Hs. change (String c s) with (String c EmptyString +:+ s). apply well_formed_app; [|done].
  exists [byte_val c]. unfold byte_val, nat_of_ascii in *. split.
  - constructor; [|done]. unfold scalar. rewrite !andb_true_iff, negb_true_iff, andb_false_iff. lia.
  - cbn. unfold utf8_char. rewrite (proj2 (Z.ltb_lt _ _)) by lia. cbn. unfold byte_char.
    rewrite N2Z.id. by rewrite ascii_N_embedding.
Qed.

Lemma well_formed_ascii s : ascii_only s → well_formed s.
Proof. induction s as [|c s IH]; [intros _; apply well_formed_empty|]. intros [Hc Hs]. by apply well_formed_char; [|apply IH]. Qed.

Lemma ascii_only_app a b : ascii_only a → ascii_only b → ascii_only (a +:+ b).
Proof. induction a as [|c a IH]; [done|]. intros [Hc Ha] Hb. rewrite string_app_cons. split; auto. Qed.

(** ** JSON text *)

Lemma escape_app a b : escape (a +:+ b) = escape a +:+ escape b.
Proof. induction a as [|c a IH]; [done|]. rewrite string_app_cons. cbn [escape]. by rewrite IH, string_app_assoc. Qed.

Lemma escape_char_ascii c : is_ascii_char c → ascii_only (escape_char c).
Proof.
  destruct c as [[] [] [] [] [] [] [] []]; intros H; try discriminate H; repeat split.
Qed.

Lemma escape_char_high c : (128 ≤ nat_of_ascii c)%nat → escape_char c = String c EmptyString.
Proof. destruct c as [[] [] [] [] [] [] [] []]; intros H%Nat.leb_le; try reflexivity; discriminate H. Qed.

Lemma nat_byte_char z : 0 ≤ z < 256 → nat_of_ascii (byte_char z) = Z.to_nat z.
Proof. intros Hz. unfold nat_of_ascii, byte_char. rewrite N_ascii_embedding by lia. lia. Qed.

Lemma well_formed_escape_point cp : scalar cp = true → well_formed (escape (utf8_char cp)).
Proof.
  intros Hs. pose proof Hs as Hr. unfold scalar in Hr. rewrite !andb_true_iff in Hr. destruct Hr as [[H0 H1] _].
  destruct (Z.ltb_spec cp 128) as [Hlt|Hge].
  - unfold utf8_char. rewrite (proj2 (Z.ltb_lt _ _)) by lia. cbn [escape].
    apply well_formed_app, well_formed_empty. apply well_formed_ascii, escape_char_ascii.
    unfold is_ascii_char. rewrite nat_byte_char by lia. apply Nat.ltb_lt. lia.
  - assert (escape (utf8_char cp) = utf8_char cp) as ->.
    { unfold utf8_char. rewrite (proj2 (Z.ltb_ge _ _)) by lia.
      destruct (cp <? 2048) eqn:E1; [|destruct (cp <? 65536) eqn:E2]; cbn [escape];
        rewrite !escape_char_high by (rewrite nat_byte_char by lia; lia); reflexivity. }
    exists [cp]. split; [by constructor|]. cbn. by destruct (utf8_char cp) as [|c s] eqn:E; [|clear; induction (String c s) as [|d t IH]; [|rewrite string_app_cons; by rewrite <-IH]].
Qed.

Lemma well_formed_escape s : well_formed s → well_formed (escape s).
Proof.
  intros (cps & Hc & ->). induction Hc as [|cp cps Hcp Hc IH]; [apply well_formed_empty|].
  change (utf8 (cp :: cps)) with (utf8_char cp +:+ utf8 cps). rewrite escape_app.
  apply well_formed_app; [by apply well_formed_escape_point|done].
Qed.

Lemma well_formed_json_string s : well_formed s → well_formed (json_string s).
Proof.
  intros Hs. unfold json_string. apply well_formed_char; [reflexivity|].
  apply well_formed_app; [by apply well_formed_escape|]. apply well_formed_ascii. split; [reflexivity|done].
Qed.

Lemma ascii_only_digits s : all_digitlike s = true → ascii_only s.
Proof.
  induction s as [|c s IH]; [done|]. cbn [all_digitlike]. intros [Hc Hs]%andb_prop. split; [|by apply IH].
  unfold is_ascii_char, digitlike in *. apply Nat.ltb_lt. apply orb_prop in Hc as [[_ Hc%Nat.leb_le]%andb_prop|Hc%Nat.eqb_eq]; lia.
Qed.

Lemma well_formed_commas l : Forall well_formed l → well_formed (commas l).
Proof.
  induction 1 as [|x l Hx Hl IH]; [apply well_formed_empty|]. cbn [commas]. destruct l; [done|].
  apply well_formed_app; [done|]. apply well_formed_app; [|done]. apply well_formed_ascii.
  split; [reflexivity|done].
Qed.

(** The strings of a value, keys included, are well formed. *)
Fixpoint json_well_formed (v : json) : Prop :=
  match v with
  | JStr s => well_formed s
  | JArr l => foldr (λ x P, json_well_formed x ∧ P) True l
  | JObj l => foldr (λ kv P, (well_formed kv.1 ∧ json_well_formed kv.2) ∧ P) True l
  | _ => True
  end.

Lemma well_formed_json_print v : floatless v = true → json_well_formed v → well_formed (json_print v).
Proof.
  assert (∀ c s, is_ascii_char c → well_formed s → well_formed (String c EmptyString +:+ s)) as Hcons.
  { intros c s Hc Hs. by apply well_formed_char. }
  induction v as [|[]|z|x|s|l IH|l IH] using json_nested_ind; intros Hf Hv.
  - apply well_formed_ascii. repeat split.
  - apply well_formed_ascii. repeat split.
  - apply well_formed_ascii. repeat split.
  - apply well_formed_ascii, ascii_only_digits, pretty_Z_digitlike.
  - discriminate Hf.
  - by apply well_formed_json_string.
  - cbn [json_print]. apply Hcons; [reflexivity|]. apply well_formed_app.
    + apply well_formed_commas. cbn in Hf, Hv. induction IH as [|x l Hx IH IHl]; [constructor|].
      cbn in Hf, Hv. apply andb_prop in Hf as [Hfx Hf]. destruct Hv as [Hvx Hv]. constructor; auto.
    + apply well_formed_ascii. repeat split.
  - cbn [json_print]. apply Hcons; [reflexivity|]. apply well_formed_app.
    + apply well_formed_commas. cbn in Hf, Hv. induction IH as [|[k x] l Hx IH IHl]; [constructor|].
      cbn in Hf, Hv. apply andb_prop in Hf as [Hfx Hf]. destruct Hv as [[Hk Hvx] Hv]. constructor; [|auto].
      cbn [fst snd]. apply well_formed_app; [by apply well_formed_json_string|]. apply Hcons; [reflexivity|auto].
    + apply well_formed_ascii. repeat split.
Qed.
