(* ===== verification/OrderedDict.v ===== *)
(** [collections.OrderedDict] as the services use it: an association list,
    oldest entry first, with unique keys; and expiry from its front, which is
    exact when the entries are in expiry order. *)

From S2P Require Import Prelude.
From stdpp Require Import sorting.

Section ordered_dict.
Context {V : Type}.
Implicit Types l : list (string * V).

Fixpoint od_get (k : string) (l : list (string * V)) : option V :=
  match l with
  | [] => None
  | (k', v) :: l => if decide (k' = k) then Some v else od_get k l
  end.

(** [pop(k, None)] *)
Definition od_pop (k : string) (l : list (string * V)) : list (string * V) := filter (λ kv, kv.1 ≠ k) l.

(** [d[k] = v]: a new key goes to the end, an old one keeps its place. *)
Fixpoint od_put (k : string) (v : V) (l : list (string * V)) : list (string * V) :=
  match l with
  | [] => [(k, v)]
  | (k', v') :: l => if decide (k' = k) then (k, v) :: l else (k', v') :: od_put k v l
  end.

(** [d[k] = v; d.move_to_end(k)] *)
Definition od_put_end (k : string) (v : V) (l : list (string * V)) : list (string * V) :=
  od_pop k l ++ [(k, v)].

(** [d.move_to_end(k)] of a key that is there. *)
Definition od_move_to_end (k : string) (l : list (string * V)) : list (string * V) :=
  match od_get k l with Some v => od_put_end k v l | None => l end.

(** Popping from the front while [dead]. *)
Fixpoint od_expire (dead : V → bool) (l : list (string * V)) : list (string * V) :=
  match l with
  | [] => []
  | (k, v) :: l' => if dead v then od_expire dead l' else l
  end.

Definition od_keys (l : list (string * V)) : list string := l.*1.

Lemma od_get_elem k v l : NoDup (od_keys l) → od_get k l = Some v ↔ (k, v) ∈ l.
Proof.
  induction l as [|[k' v'] l IH]; [by split; [|intros []%not_elem_of_nil]|].
  cbn [od_keys fmap list_fmap fst]. rewrite NoDup_cons. intros [Hk' Hnd]. cbn [od_get].
  rewrite elem_of_cons. destruct (decide (k' = k)) as [->|Hne].
  - split; [intros [= ->]; by left|]. intros [[= ->]|Hin]; [done|]. destruct Hk'.
    apply list_elem_of_fmap. by exists (k, v).
  - rewrite (IH Hnd). split; [by right|]. intros [[= <- _]|?]; [done|done].
Qed.

Lemma od_get_pop k j l : od_get j (od_pop k l) = if decide (j = k) then None else od_get j l.
Proof.
  unfold od_pop. induction l as [|[k' v'] l IH]; [by case_decide|].
  rewrite filter_cons. cbn [fst]. destruct (decide (k' ≠ k)) as [Hne|Heq]; cbn [od_get].
  - rewrite IH. destruct (decide (k' = j)) as [->|]; by repeat case_decide.
  - apply dec_stable in Heq as ->. rewrite IH. destruct (decide (j = k)) as [->|Hj]; [done|].
    by rewrite decide_False by congruence.
Qed.

Lemma od_get_app k l l' : od_get k (l ++ l') = match od_get k l with Some v => Some v | None => od_get k l' end.
Proof. induction l as [|[k' v'] l IH]; [done|]. cbn. by case_decide. Qed.

Lemma od_get_put_end k j v l : od_get j (od_put_end k v l) = if decide (j = k) then Some v else od_get j l.
Proof.
  unfold od_put_end. rewrite od_get_app, od_get_pop. cbn. destruct (decide (j = k)) as [->|].
  - by rewrite decide_True.
  - destruct (od_get j l); [done|]. by rewrite decide_False by congruence.
Qed.

Lemma od_get_put k j v l : od_get j (od_put k v l) = if decide (j = k) then Some v else od_get j l.
Proof.
  induction l as [|[k' v'] l IH]; cbn [od_put od_get].
  - repeat case_decide; congruence.
  - destruct (decide (k' = k)) as [->|Hne]; cbn [od_get].
    + repeat case_decide; congruence.
    + rewrite IH. repeat case_decide; congruence.
Qed.

Lemma od_keys_pop k l : NoDup (od_keys l) → NoDup (od_keys (od_pop k l)).
Proof.
  induction l as [|[k' v'] l IH]; [done|]. cbn [od_keys fmap list_fmap fst]. rewrite NoDup_cons. intros [Hk Hnd].
  unfold od_pop. rewrite filter_cons. case_decide; [|by apply IH].
  cbn [od_keys fmap list_fmap fst]. apply NoDup_cons. split; [|by apply IH].
  intros (kv & -> & Hin)%list_elem_of_fmap. apply list_elem_of_filter in Hin as [_ Hin].
  apply Hk, list_elem_of_fmap. by exists kv.
Qed.

Lemma od_keys_put_end k v l : NoDup (od_keys l) → NoDup (od_keys (od_put_end k v l)).
Proof.
  intros Hnd. unfold od_put_end, od_keys. rewrite fmap_app. apply NoDup_app. split_and!.
  - by apply od_keys_pop.
  - intros j (kv & -> & Hin)%list_elem_of_fmap Hj%list_elem_of_singleton.
    by apply list_elem_of_filter in Hin as [? _].
  - apply NoDup_singleton.
Qed.

Lemma od_keys_put_in k v l j : j ∈ od_keys (od_put k v l) → j = k ∨ j ∈ od_keys l.
Proof.
  unfold od_keys. induction l as [|[k' v'] l IH]; cbn [od_put].
  - intros ->%list_elem_of_singleton. by left.
  - case_decide as E; cbn; rewrite !elem_of_cons; [subst; tauto|]. intros [->|Hj%IH]; tauto.
Qed.

Lemma od_keys_put k v l : NoDup (od_keys l) → NoDup (od_keys (od_put k v l)).
Proof.
  induction l as [|[k' v'] l IH]; cbn [od_put]; [intros _; apply NoDup_singleton|].
  unfold od_keys in *. cbn [fmap list_fmap fst]. rewrite NoDup_cons. intros [Hk Hnd].
  case_decide as E; cbn; apply NoDup_cons; [by subst|].
  split; [|by apply IH]. intros [->|?]%od_keys_put_in; done.
Qed.

Lemma od_expire_suffix dead l : ∃ l0, l = l0 ++ od_expire dead l ∧ Forall (λ kv, dead kv.2 = true) l0.
Proof.
  induction l as [|[k v] l (l0 & E & Hd)]; [by exists []|]. cbn [od_expire].
  destruct (dead v) eqn:Ev; [|by exists []]. exists ((k, v) :: l0). split; [cbn; by rewrite <-E|by constructor].
Qed.

Lemma od_keys_expire dead l : NoDup (od_keys l) → NoDup (od_keys (od_expire dead l)).
Proof.
  destruct (od_expire_suffix dead l) as (l0 & E & _). rewrite E at 1. unfold od_keys. rewrite fmap_app.
  by intros (_ & _ & ?)%NoDup_app.
Qed.

(** An entry that is not dead survives expiry, and nothing else changes. *)
Lemma od_get_expire dead k l :
  NoDup (od_keys l) →
  od_get k (od_expire dead l) = od_get k l ∨
  (od_get k (od_expire dead l) = None ∧ ∃ v, od_get k l = Some v ∧ dead v = true).
Proof.
  intros Hnd. destruct (od_expire_suffix dead l) as (l0 & E & Hd).
  generalize dependent (od_expire dead l). intros rest ->. rewrite od_get_app.
  unfold od_keys in Hnd. rewrite fmap_app in Hnd. apply NoDup_app in Hnd as (Hnd & Hdis & _).
  destruct (od_get k l0) as [v|] eqn:Ek; [|by left]. right. apply od_get_elem in Ek; [|done]. split.
  - destruct (od_get k rest) as [w|] eqn:Ew; [|done]. exfalso.
    apply (Hdis k); [apply list_elem_of_fmap; by exists (k, v)|].
    clear -Ew. induction rest as [|[k' v'] rest IH]; [done|]. cbn in Ew |- *.
    case_decide as E; [subst; by left|right; by apply IH].
  - exists v. split; [done|]. rewrite Forall_forall in Hd. by apply (Hd _ Ek).
Qed.

Lemma od_pop_put k v l : od_pop k (od_put k v l) = od_pop k l.
Proof.
  unfold od_pop. induction l as [|[k' v'] l IH]; cbn [od_put].
  - by rewrite filter_cons_False by (cbn; tauto).
  - case_decide as E; [subst|].
    + by rewrite !filter_cons_False by (cbn; tauto).
    + by rewrite !filter_cons_True, IH by done.
Qed.

Lemma od_pop_pop k l : od_pop k (od_pop k l) = od_pop k l.
Proof. unfold od_pop. apply list_filter_filter_l. done. Qed.

Lemma od_pop_put_end k v l : od_pop k (od_put_end k v l) = od_pop k l.
Proof.
  unfold od_put_end. unfold od_pop at 1. rewrite filter_app, filter_cons_False, filter_nil, app_nil_r by (cbn; tauto).
  apply od_pop_pop.
Qed.

Lemma od_put_in kv k v l : kv ∈ od_put k v l → kv = (k, v) ∨ kv ∈ l.
Proof.
  induction l as [|[k' v'] l IH]; cbn [od_put].
  - intros ->%list_elem_of_singleton. by left.
  - case_decide; rewrite !elem_of_cons; [tauto|]. intros [->|?%IH]; tauto.
Qed.

Lemma od_pop_in kv k l : kv ∈ od_pop k l ↔ kv.1 ≠ k ∧ kv ∈ l.
Proof. unfold od_pop. by rewrite list_elem_of_filter. Qed.

Lemma od_get_in k v l : od_get k l = Some v → (k, v) ∈ l.
Proof.
  induction l as [|[k' v'] l IH]; [done|]. cbn. case_decide as E; [intros [= ->]; subst; by left|].
  intros Hk. right. by apply IH.
Qed.

(** In an order in which the dead come first, what is left is alive. *)
Section ordered.
Variable before : V → V → Prop.
Definition od_ordered (l : list (string * V)) : Prop := StronglySorted (λ a b, before a.2 b.2) l.

Lemma od_expire_live dead l :
  od_ordered l → (∀ v w, before v w → dead w = true → dead v = true) →
  Forall (λ kv, dead kv.2 = false) (od_expire dead l).
Proof.
  intros Hs Hd. induction Hs as [|[k v] l Hs IH Hv]; [done|]. cbn [od_expire].
  destruct (dead v) eqn:E; [done|]. constructor; [done|]. rewrite Forall_forall in Hv |- *.
  intros kv Hin. destruct (dead kv.2) eqn:E'; [|done]. rewrite (Hd v kv.2) in E; [done|by apply Hv|done].
Qed.

Lemma od_ordered_expire dead l : od_ordered l → od_ordered (od_expire dead l).
Proof.
  destruct (od_expire_suffix dead l) as (l0 & E & _). unfold od_ordered. rewrite E at 1.
  by intros ?%StronglySorted_app_1_r.
Qed.

Lemma od_ordered_pop k l : od_ordered l → od_ordered (od_pop k l).
Proof.
  unfold od_pop. induction 1 as [|kv l Hs IH Hv]; [constructor|]. rewrite filter_cons. case_decide; [|done].
  constructor; [done|]. rewrite Forall_forall in Hv |- *. intros x [_ Hx]%list_elem_of_filter. by apply Hv.
Qed.

Lemma od_ordered_put_end k v l :
  od_ordered l → (∀ kv, kv ∈ l → before kv.2 v) → od_ordered (od_put_end k v l).
Proof.
  intros Hs Hv. apply StronglySorted_app_2; [|by apply od_ordered_pop|by repeat constructor].
  intros x y [_ Hx]%list_elem_of_filter ->%list_elem_of_singleton. by apply Hv.
Qed.

(** Replacing a value by one that sorts the same. *)
Lemma od_ordered_put k v v0 l :
  od_get k l = Some v0 → (∀ w, before w v0 → before w v) → (∀ w, before v0 w → before v w) →
  od_ordered l → od_ordered (od_put k v l).
Proof.
  intros Hk Hl Hr Hs. induction Hs as [|[k' v'] l Hs IH Hv]; [done|]. cbn [od_put od_get] in *.
  rewrite Forall_forall in Hv. case_decide as E.
  - injection Hk as ->. constructor; [done|]. apply Forall_forall. intros x Hx. by apply Hr, Hv.
  - constructor; [by apply IH|]. apply Forall_forall. intros x [->|Hx]%od_put_in; [|by apply Hv].
    apply Hl. by apply (Hv (k, v0)), od_get_in.
Qed.
End ordered.
End ordered_dict.
