(* ===== verification/JsonRead.v ===== *)
(** [json.loads]: an executable reader of JSON text as CPython reads it, and
    that it reads back what [json.dumps] wrote. *)

From S2P Require Import Prelude Numeric Models Json JsonText OrderedDict.
From stdpp Require Import pretty.
From Stdlib Require Import Ascii.
#[local] Open Scope Z_scope.

Definition char_in (c : ascii) (codes : list nat) : bool := existsb (Nat.eqb (nat_of_ascii c)) codes.
Definition json_space (c : ascii) : bool := char_in c [32; 9; 10; 13]%nat.
Definition json_digit (c : ascii) : bool := (48 <=? nat_of_ascii c)%nat && (nat_of_ascii c <=? 57)%nat.

Fixpoint skip_space (s : string) : string :=
  match s with
  | String c s' => if json_space c then skip_space s' else s
  | EmptyString => EmptyString
  end.

(** The longest run of digits. *)
Fixpoint span_digits (s : string) : string * string :=
  match s with
  | String c s' => if json_digit c then let '(d, r) := span_digits s' in (String c d, r) else (EmptyString, s)
  | EmptyString => (EmptyString, EmptyString)
  end.
Fixpoint digits_value (acc : Z) (s : string) : Z :=
  match s with
  | EmptyString => acc
  | String c s => digits_value (10 * acc + (Z.of_nat (nat_of_ascii c) - 48)) s
  end.

(** ** Strings *)

Definition hex_value (c : ascii) : option Z :=
  let n := Z.of_nat (nat_of_ascii c) in
  if json_digit c then Some (n - 48)
  else if (97 <=? n) && (n <=? 102) then Some (n - 87)
  else if (65 <=? n) && (n <=? 70) then Some (n - 55)
  else None.
Definition hex4 (a b c d : ascii) : option Z :=
  a' ← hex_value a; b' ← hex_value b; c' ← hex_value c; d' ← hex_value d;
  Some (4096 * a' + 256 * b' + 16 * c' + d').

Definition simple_escape (c : ascii) : option ascii :=
  match nat_of_ascii c with
  | 34 => Some c | 92 => Some c | 47 => Some c
  | 98 => Some (ascii_of_nat 8) | 102 => Some (ascii_of_nat 12) | 110 => Some (ascii_of_nat 10)
  | 114 => Some (ascii_of_nat 13) | 116 => Some (ascii_of_nat 9)
  | _ => None
  end%nat.

Definition high_surrogate (v : Z) : bool := (55296 <=? v) && (v <? 56320).
Definition low_surrogate (v : Z) : bool := (56320 <=? v) && (v <? 57344).

(** A low surrogate's escape at the start of a text. *)
Definition low_escape (s : string) : option Z :=
  match s with
  | String b (String u (String a1 (String a2 (String a3 (String a4 _))))) =>
      if bool_decide (b = backslash) && bool_decide (u = "u"%char) then
        match hex4 a1 a2 a3 a4 with
        | Some v => if low_surrogate v then Some v else None
        | None => None
        end
      else None
  | _ => None
  end.

(** The rest of a string after its opening quote. *)
Fixpoint read_string (s : string) : option (string * string) :=
  match s with
  | EmptyString => None
  | String c s1 =>
      if (nat_of_ascii c =? 34)%nat then Some (EmptyString, s1)
      else if (nat_of_ascii c =? 92)%nat then
        match s1 with
        | EmptyString => None
        | String e s2 =>
            if (nat_of_ascii e =? 117)%nat then
              match s2 with
              | String a1 (String a2 (String a3 (String a4 s3))) =>
                  match hex4 a1 a2 a3 a4 with
                  | None => None
                  | Some v =>
                      match s3 with
                      | String _ (String _ (String _ (String _ (String _ (String _ s4))))) =>
                          match (if high_surrogate v then low_escape s3 else None) with
                          | Some w =>
                              '(t, r) ← read_string s4;
                              Some (utf8_char (65536 + (v - 55296) * 1024 + (w - 56320)) +:+ t, r)
                          | None => '(t, r) ← read_string s3; Some (utf8_char v +:+ t, r)
                          end
                      | _ => '(t, r) ← read_string s3; Some (utf8_char v +:+ t, r)
                      end
                  end
              | _ => None
              end
            else
              match simple_escape e with
              | Some x => '(t, r) ← read_string s2; Some (String x t, r)
              | None => None
              end
        end
      else if (nat_of_ascii c <? 32)%nat then None
      else '(t, r) ← read_string s1; Some (String c t, r)
  end.

(** ** Numbers *)

(** [int(text)] refuses more than 4300 digits. *)
Definition INT_MAX_STR_DIGITS : Z := 4300.

Definition read_fraction (s : string) : string * string :=
  match s with
  | String c r =>
      if (nat_of_ascii c =? 46)%nat then
        let '(d, r') := span_digits r in
        if String.eqb d EmptyString then (EmptyString, s) else (d, r')
      else (EmptyString, s)
  | EmptyString => (EmptyString, s)
  end.

Definition read_exponent (s : string) : option Z * string :=
  match s with
  | String c r =>
      if char_in c [69; 101]%nat then
        let '(negative, r1) :=
          match r with
          | String g r1 =>
              if (nat_of_ascii g =? 45)%nat then (true, r1) else if (nat_of_ascii g =? 43)%nat then (false, r1) else (false, r)
          | EmptyString => (false, r)
          end in
        let '(d, r') := span_digits r1 in
        if String.eqb d EmptyString then (None, s)
        else (Some (if negative : bool then - digits_value 0 d else digits_value 0 d), r')
      else (None, s)
  | EmptyString => (None, s)
  end.

Definition read_integer_part (s : string) : option (string * string) :=
  match s with
  | String c r =>
      if (nat_of_ascii c =? 48)%nat then Some (String c EmptyString, r)
      else if json_digit c then Some (span_digits s)
      else None
  | EmptyString => None
  end.

Definition read_unsigned (negative : bool) (s : string) : option (json * string) :=
  '(whole, r) ← read_integer_part s;
  let '(fraction, r1) := read_fraction r in
  let '(exponent, r2) := read_exponent r1 in
  if String.eqb fraction EmptyString && bool_decide (exponent = None) then
    if INT_MAX_STR_DIGITS <? Z.of_nat (String.length whole) then None
    else Some (JInt (if negative then - digits_value 0 whole else digits_value 0 whole), r)
  else
    let x := nof_dec (Dec (digits_value 0 (whole +:+ fraction))
                          (default 0 exponent - Z.of_nat (String.length fraction))) in
    Some (JFloat (if negative then nopp x else x), r2).

Fixpoint literal (l s : string) : option string :=
  match l, s with
  | EmptyString, _ => Some s
  | String a l, String b s => if Ascii.eqb a b then literal l s else None
  | _, EmptyString => None
  end.

Definition read_number (s : string) : option (json * string) :=
  match s with
  | String c r =>
      if (nat_of_ascii c =? 45)%nat then
        match literal "Infinity" r with
        | Some r' => Some (JFloat (SpecFloat.S754_infinity true), r')
        | None => read_unsigned true r
        end
      else read_unsigned false s
  | EmptyString => None
  end.

(** ** Values *)

(** [dict(pairs)]: the last of equal keys wins, in the first one's place. *)
Definition dict_of (pairs : list (string * json)) : list (string * json) :=
  foldl (λ l kv, od_put kv.1 kv.2 l) [] pairs.

(** The text after a value in an array or object: what follows a comma, or
    nothing after the closing bracket. *)
Definition after_value (close : ascii) (s : string) : option (option string * string) :=
  match skip_space s with
  | String c r =>
      if Ascii.eqb c close then Some (None, r)
      else if (nat_of_ascii c =? 44)%nat then Some (Some (skip_space r), EmptyString)
      else None
  | EmptyString => None
  end.

Fixpoint read_value (fuel : nat) (s : string) : option (json * string) :=
  match fuel with
  | O => None
  | S fuel =>
      match s with
      | EmptyString => None
      | String c r =>
          match nat_of_ascii c with
          | 34 => '(t, r) ← read_string r; Some (JStr t, r)
          | 123 =>
              match skip_space r with
              | String d r' =>
                  if Ascii.eqb d "}" then Some (JObj [], r')
                  else '(pairs, r) ← read_members fuel (String d r'); Some (JObj (dict_of pairs), r)
              | EmptyString => None
              end
          | 91 =>
              match skip_space r with
              | String d r' =>
                  if Ascii.eqb d "]" then Some (JArr [], r')
                  else '(items, r) ← read_items fuel (String d r'); Some (JArr items, r)
              | EmptyString => None
              end
          | 110 => r ← literal "ull" r; Some (JNull, r)
          | 116 => r ← literal "rue" r; Some (JBool true, r)
          | 102 => r ← literal "alse" r; Some (JBool false, r)
          | 78 => r ← literal "aN" r; Some (JFloat SpecFloat.S754_nan, r)
          | 73 => r ← literal "nfinity" r; Some (JFloat (SpecFloat.S754_infinity false), r)
          | _ => read_number s
          end%nat
      end
  end
with read_items (fuel : nat) (s : string) : option (list json * string) :=
  match fuel with
  | O => None
  | S fuel =>
      '(v, r) ← read_value fuel s;
      match after_value "]" r with
      | Some (None, r) => Some ([v], r)
      | Some (Some r, _) => '(vs, r) ← read_items fuel r; Some (v :: vs, r)
      | None => None
      end
  end
with read_members (fuel : nat) (s : string) : option (list (string * json) * string) :=
  match fuel with
  | O => None
  | S fuel =>
      match s with
      | String q r =>
          if (nat_of_ascii q =? 34)%nat then
            '(k, r) ← read_string r;
            match skip_space r with
            | String c r =>
                if (nat_of_ascii c =? 58)%nat then
                  '(v, r) ← read_value fuel (skip_space r);
                  match after_value "}" r with
                  | Some (None, r) => Some ([(k, v)], r)
                  | Some (Some r, _) => '(kvs, r) ← read_members fuel r; Some ((k, v) :: kvs, r)
                  | None => None
                  end
                else None
            | EmptyString => None
            end
          else None
      | EmptyString => None
      end
  end.

(** [json.loads(text)]; [None] where it raises. *)
Definition json_loads (s : string) : option json :=
  '(v, r) ← read_value (2 * String.length s) (skip_space s);
  match skip_space r with EmptyString => Some v | _ => None end.

Example json_loads_samples :
  json_loads (" { " +:+ json_string "a" +:+ " : [1, -2.5e1, " +:+ json_string "x" +:+ ", null], " +:+
              json_string "b" +:+ ":{}, " +:+ json_string "a" +:+ ":true} ")
    = Some (JObj [("a", JBool true); ("b", JObj [])]) ∧
  json_loads "[-2.5e1, 10, 0.1]" = Some (JArr [JFloat (nof_Z (-25)); JInt 10; JFloat (nof_ratio 1 10)]) ∧
  json_loads (ascii_string accented) = Some (JStr accented) ∧
  json_loads "01" = None ∧ json_loads "[1,]" = None ∧ json_loads "{} x" = None ∧ json_loads "-" = None.
Proof. vm_compute. auto 10. Qed.

(** ** What was printed is read back *)

Lemma read_escape_char c t :
  read_string (escape_char c +:+ t) = ('(x, r) ← read_string t; Some (String c x, r)).
Proof.
  destruct c as [[] [] [] [] [] [] [] []]; try reflexivity;
    destruct t as [|? [|? [|? [|? [|? [|? ?]]]]]]; reflexivity.
Qed.

Lemma read_string_escape s r : read_string (escape s +:+ String dquote r) = Some (s, r).
Proof.
  induction s as [|c s IH]; [reflexivity|]. cbn [escape]. rewrite string_app_assoc, read_escape_char, IH.
  reflexivity.
Qed.

(** *** Numbers *)

Definition digits_text (ds : list N) (s : string) : string := foldr (λ d t, String (pretty_N_char d) t) s ds.
Definition digits_number (acc : N) (ds : list N) : N := foldl (λ a d, 10 * a + d)%N acc ds.

Lemma pretty_N_digits (x : N) : (0 < x)%N →
  ∃ d ds, (∀ s, pretty_N_go x s = digits_text (d :: ds) s) ∧ (0 < d < 10)%N ∧
    Forall (λ d, d < 10)%N ds ∧ digits_number 0 (d :: ds) = x.
Proof.
  induction (N.lt_wf_0 x) as [x _ IH]. intros Hx.
  pose proof (N.div_mod x 10 ltac:(lia)) as Hdm. pose proof (N.mod_lt x 10 ltac:(lia)) as Hm.
  destruct (decide (x < 10)%N) as [Hs|Hs].
  - exists x, []. split_and!; [|lia|lia|by constructor|unfold digits_number; cbn; lia]. intros s.
    rewrite pretty_N_go_step by done. rewrite N.div_small, pretty_N_go_0, N.mod_small by done. reflexivity.
  - destruct (IH (x `div` 10)%N) as (d & ds & Hp & Hd & Hds & Hv); [apply N.div_lt; lia| |].
    { apply N.div_str_pos. lia. }
    exists d, (ds ++ [x `mod` 10])%N. split_and!; [|lia|lia|by apply Forall_app_2; [|constructor]|].
    + intros s. rewrite pretty_N_go_step, Hp by done. unfold digits_text.
      change (d :: ds ++ [x `mod` 10]%N) with ((d :: ds) ++ [x `mod` 10]%N). by rewrite foldr_app.
    + unfold digits_number in *. change (d :: ds ++ [x `mod` 10]%N) with ((d :: ds) ++ [x `mod` 10]%N).
      rewrite foldl_app, Hv. cbn [foldl]. lia.
Qed.

Lemma pretty_char_digit d : (d < 10)%N →
  json_digit (pretty_N_char d) = true ∧ Z.of_nat (nat_of_ascii (pretty_N_char d)) - 48 = Z.of_N d ∧
  ((0 < d)%N → (nat_of_ascii (pretty_N_char d) =? 48)%nat = false) ∧
  (nat_of_ascii (pretty_N_char d) =? 45)%nat = false.
Proof. intros Hd. destruct d as [|[[[[]|[]|]|[[]|[]|]|]|[[[]|[]|]|[[]|[]|]|]|]]; by repeat split || lia. Qed.

Definition no_digit (r : string) : Prop :=
  match r with String c _ => json_digit c = false | EmptyString => True end.

Lemma span_digits_text ds r :
  Forall (λ d, d < 10)%N ds → no_digit r → span_digits (digits_text ds r) = (digits_text ds EmptyString, r).
Proof.
  intros Hds Hr. induction Hds as [|d ds Hd Hds IH].
  - destruct r as [|c r]; [done|]. cbn in Hr |- *. by rewrite Hr.
  - cbn [digits_text foldr span_digits]. destruct (pretty_char_digit d Hd) as (-> & _).
    change (foldr _ r ds) with (digits_text ds r). by rewrite IH.
Qed.

Lemma digits_value_text acc ds :
  Forall (λ d, d < 10)%N ds → digits_value (Z.of_N acc) (digits_text ds EmptyString) = Z.of_N (digits_number acc ds).
Proof.
  intros Hds. revert acc. induction Hds as [|d ds Hd Hds IH]; intros acc; [done|].
  cbn [digits_text foldr digits_value]. destruct (pretty_char_digit d Hd) as (_ & -> & _).
  change (digits_number acc (d :: ds)) with (digits_number (10 * acc + d) ds). rewrite <-IH.
  unfold digits_text. f_equal. lia.
Qed.

(** What follows does not go on with a number. *)
Definition number_over (r : string) : Prop :=
  match r with String c _ => json_digit c = false ∧ char_in c [46; 69; 101]%nat = false | EmptyString => True end.

Lemma number_over_no_digit r : number_over r → no_digit r.
Proof. destruct r as [|c r]; [done|]. by intros []. Qed.

Lemma number_over_fraction r : number_over r → read_fraction r = (EmptyString, r).
Proof.
  destruct r as [|c r]; [done|]. intros [_ Hc]. unfold char_in in Hc. cbn in Hc |- *.
  by apply orb_false_elim in Hc as [-> _].
Qed.

Lemma number_over_exponent r : number_over r → read_exponent r = (None, r).
Proof.
  destruct r as [|c r]; [done|]. intros [_ Hc]. unfold char_in in Hc. cbn [existsb] in Hc.
  apply orb_false_elim in Hc as [_ Hc]. unfold read_exponent, char_in. cbn [existsb]. by rewrite Hc.
Qed.

Definition short_int (z : Z) : bool := Z.of_nat (String.length (pretty (Z.abs z))) <=? INT_MAX_STR_DIGITS.

Lemma read_unsigned_pretty negative (n : N) r :
  short_int (Z.of_N n) = true → number_over r →
  read_unsigned negative (pretty n +:+ r) = Some (JInt (if negative : bool then - Z.of_N n else Z.of_N n), r).
Proof.
  intros Hs Hr. assert (read_integer_part (pretty n +:+ r) = Some (pretty n, r) ∧
    digits_value 0 (pretty n) = Z.of_N n) as [Hp Hv].
  { destruct n as [|p]; [by split|].
    destruct (pretty_N_digits (N.pos p)) as (d & ds & Hp & Hd & Hds & Hv); [done|].
    assert (pretty (N.pos p) = digits_text (d :: ds) EmptyString) as -> by apply Hp.
    assert (Forall (λ d, d < 10)%N (d :: ds)) as Hall by (constructor; [lia|done]). split.
    - assert (digits_text (d :: ds) EmptyString +:+ r = digits_text (d :: ds) r) as ->.
      { clear. induction (d :: ds) as [|x l IH]; [done|].
        change (String (pretty_N_char x) (digits_text l EmptyString +:+ r) = String (pretty_N_char x) (digits_text l r)).
        by rewrite IH. }
      pose proof (span_digits_text _ _ Hall (number_over_no_digit _ Hr)) as Hspan.
      cbn [digits_text foldr] in Hspan |- *. unfold read_integer_part.
      destruct (pretty_char_digit d) as (Hdig & _ & Hnz & _); [lia|]. rewrite Hnz, Hdig by lia. by rewrite Hspan.
    - pose proof (digits_value_text 0 (d :: ds) Hall) as E. rewrite Hv in E. exact E. }
  unfold read_unsigned. rewrite Hp. cbn [mbind option_bind]. rewrite (number_over_fraction _ Hr), (number_over_exponent _ Hr).
  cbn [String.eqb andb]. rewrite bool_decide_true by done.
  assert (pretty (Z.abs (Z.of_N n)) = pretty n) as E by (by destruct n).
  unfold short_int in Hs. rewrite E in Hs. rewrite (proj2 (Z.ltb_ge _ _)) by lia. by rewrite Hv.
Qed.

Lemma read_number_pretty (z : Z) r :
  short_int z = true → number_over r → read_number (pretty z +:+ r) = Some (JInt z, r).
Proof.
  intros Hs Hr. destruct z as [|p|p].
  - by apply (read_unsigned_pretty false 0).
  - change (pretty (Z.pos p)) with (pretty (N.pos p)). pose proof (read_unsigned_pretty false (N.pos p) r Hs Hr) as E.
    destruct (pretty_N_digits (N.pos p)) as (d & ds & Hp & Hd & _ & _); [done|].
    change (pretty (N.pos p)) with (pretty_N_go (N.pos p) "") in *. rewrite Hp in E |- *.
    cbn [digits_text foldr] in E |- *. rewrite string_app_cons in E |- *. unfold read_number.
    destruct (pretty_char_digit d) as (_ & _ & _ & ->); [lia|]. exact E.
  - change (pretty (Z.neg p)) with (String "-" (pretty (N.pos p))). rewrite string_app_cons. unfold read_number.
    change (nat_of_ascii "-" =? 45)%nat with true. cbv iota.
    pose proof (read_unsigned_pretty true (N.pos p) r Hs Hr) as E.
    destruct (pretty_N_digits (N.pos p)) as (d & ds & Hp & Hd & _ & _); [done|].
    change (pretty (N.pos p)) with (pretty_N_go (N.pos p) "") in *. rewrite Hp in E |- *.
    cbn [digits_text foldr] in E |- *. rewrite string_app_cons in E |- *. cbn [literal].
    destruct (Ascii.eqb_spec "I" (pretty_N_char d)) as [Heq|_]; [|exact E].
    destruct (pretty_char_digit d) as (Hdig & _); [lia|]. by rewrite <-Heq in Hdig.
Qed.

(** *** Values *)

(** Values that their text gives back: no floats, no integers too long to
    read, and dicts. *)
Fixpoint readable (v : json) : bool :=
  match v with
  | JFloat _ => false
  | JInt z => short_int z
  | JArr l => forallb readable l
  | JObj l => bool_decide (NoDup l.*1) && forallb (λ kv : string * json, readable kv.2) l
  | _ => true
  end.

Lemma readable_floatless v : readable v = true → floatless v = true.
Proof.
  induction v as [| | | | |l IH|l IH] using json_nested_ind; try done; cbn [readable floatless].
  - rewrite !forallb_forall. rewrite Forall_forall in IH. intros H x Hx.
    apply (IH x); [by apply list_elem_of_In|by apply H].
  - intros [_ H]%andb_prop. revert H. rewrite !forallb_forall. rewrite Forall_forall in IH. intros H x Hx.
    apply (IH x); [by apply list_elem_of_In|by apply H].
Qed.

Lemma od_put_new {V} k (v : V) l : k ∉ od_keys l → od_put k v l = l ++ [(k, v)].
Proof.
  induction l as [|[k' v'] l IH]; [done|]. cbn. rewrite not_elem_of_cons. intros [Hk Hl].
  rewrite decide_False by congruence. by rewrite IH.
Qed.

Lemma dict_of_unique l : NoDup l.*1 → dict_of l = l.
Proof.
  unfold dict_of. assert (∀ acc : list (string * json), NoDup (acc ++ l).*1 →
    foldl (λ a kv, od_put kv.1 kv.2 a) acc l = acc ++ l) as H; [|by apply (H [])].
  induction l as [|[k v] l IH]; intros acc Hnd; [by rewrite app_nil_r|]. cbn [foldl fst snd].
  rewrite od_put_new.
  - rewrite IH; by rewrite <-app_assoc.
  - rewrite fmap_app in Hnd. apply NoDup_app in Hnd as (_ & Hd & _). intros Hk. apply (Hd k Hk). by left.
Qed.

Lemma json_print_no_space v r :
  floatless v = true → skip_space (json_print v +:+ r) = json_print v +:+ r.
Proof.
  intros (c & s & E & Hk)%json_print_head. rewrite E, string_app_cons. cbn [skip_space].
  destruct (json_space c) eqn:Hs; [|done]. exfalso. unfold json_space, char_in in Hs. cbn [existsb] in Hs.
  unfold kind_of_head, digitlike in Hk.
  repeat (apply orb_prop in Hs as [Hs|Hs]); try discriminate Hs; apply Nat.eqb_eq in Hs; rewrite Hs in Hk;
    by destruct v as [|[]| | | | |].
Qed.

Lemma delimited_number_over r : delimited r = true → number_over r.
Proof.
  destruct r as [|c r]; [done|]. cbn [delimited]. unfold number_over, json_digit, char_in. cbn [existsb].
  intros [[E|E]%orb_prop|E]%orb_prop; apply Nat.eqb_eq in E; by rewrite E.
Qed.

Definition reads_back_at (v : json) : Prop :=
  ∀ fuel r, (2 * String.length (json_print v) ≤ S fuel)%nat → delimited r = true →
    read_value fuel (json_print v +:+ r) = Some (v, r).

Lemma after_close (close : ascii) r :
  json_space close = false → after_value close (String close r) = Some (None, r).
Proof. intros Hs. unfold after_value. cbn [skip_space]. by rewrite Hs, Ascii.eqb_refl. Qed.

Lemma after_comma (close : ascii) r :
  close = "]"%char ∨ close = "}"%char → after_value close ("," +:+ r) = Some (Some (skip_space r), EmptyString).
Proof. by intros [-> | ->]. Qed.

Lemma read_items_print l fuel r :
  l ≠ [] → Forall reads_back_at l → forallb floatless l = true →
  (2 * S (String.length (commas (map json_print l))) ≤ fuel)%nat →
  read_items fuel (commas (map json_print l) +:+ String "]" r) = Some (l, r).
Proof.
  intros Hne Hl. revert fuel Hne. induction Hl as [|v l Hv Hl IH]; intros fuel Hne Hf Hfuel; [done|].
  apply andb_prop in Hf as [Hfv Hfl]. change (forallb floatless l = true) in Hfl.
  destruct fuel as [|fuel]; [lia|]. rewrite commas_cons. cbn [read_items].
  destruct l as [|w l].
  - cbn [map commas] in Hfuel. rewrite Hv; [|lia|done]. cbn [mbind option_bind].
    by rewrite after_close.
  - cbn [map commas] in Hfuel. rewrite !string_length_app in Hfuel. change (String.length ",") with 1%nat in Hfuel.
    rewrite Hv; [|lia|done]. cbn [mbind option_bind]. rewrite after_comma by auto.
    assert (skip_space (commas (map json_print (w :: l)) +:+ String "]" r) =
            commas (map json_print (w :: l)) +:+ String "]" r) as ->.
    { rewrite commas_cons. apply json_print_no_space. cbn in Hfl. by apply andb_prop in Hfl as [? _]. }
    rewrite IH; [done|done|done|]. cbn [map commas]. lia.
Qed.

Lemma json_string_length s : (2 ≤ String.length (json_string s))%nat.
Proof. unfold json_string. cbn [String.length]. rewrite string_length_app. cbn. lia. Qed.

Lemma read_members_print l fuel r :
  l ≠ [] → Forall (λ kv : string * json, reads_back_at kv.2) l → forallb (λ kv : string * json, floatless kv.2) l = true →
  (2 * S (String.length (commas (map field_print l))) ≤ fuel)%nat →
  read_members fuel (commas (map field_print l) +:+ String "}" r) = Some (l, r).
Proof.
  intros Hne Hl. revert fuel Hne. induction Hl as [|[k v] l Hv Hl IH]; intros fuel Hne Hf Hfuel; [done|].
  cbn [fst snd] in Hv. apply andb_prop in Hf as [Hfv Hfl]. cbn [snd] in Hfv.
  change (forallb (λ kv : string * json, floatless kv.2) l = true) in Hfl.
  destruct fuel as [|fuel]; [lia|]. rewrite commas_cons. unfold field_print at 1. cbn [fst snd].
  pose proof (json_string_length k) as Hk. unfold json_string at 1. rewrite (string_app_assoc (String dquote _)), (string_app_cons dquote).
  cbn [read_members]. change (nat_of_ascii dquote =? 34)%nat with true. cbv iota.
  rewrite (string_app_assoc (escape k)), (string_app_cons dquote), read_string_escape. cbn [mbind option_bind].
  rewrite ?string_app_assoc.
  match goal with |- context [json_print v +:+ ?rest] => set (R := json_print v +:+ rest) end.
  change (String.append EmptyString ?x) with x. change (":" +:+ R) with (String ":" R). cbn [skip_space].
  change (json_space ":") with false. cbv iota. change (nat_of_ascii ":" =? 58)%nat with true. cbv iota.
  subst R. rewrite json_print_no_space by done.
  assert (2 * String.length (json_print v) ≤ S fuel)%nat as Hfv'.
  { destruct l; cbn [map commas] in Hfuel; unfold field_print in Hfuel; cbn [fst snd] in Hfuel;
      rewrite !string_length_app in Hfuel; lia. }
  destruct l as [|w l].
  - rewrite Hv by done. cbn [mbind option_bind]. by rewrite after_close.
  - rewrite Hv by done. cbn [mbind option_bind]. rewrite after_comma by auto.
    assert (skip_space (commas (map field_print (w :: l)) +:+ String "}" r) =
            commas (map field_print (w :: l)) +:+ String "}" r) as ->.
    { rewrite commas_cons. reflexivity. }
    rewrite IH; [done|done|done|]. cbn [map commas] in Hfuel |- *. rewrite !string_length_app in Hfuel.
    unfold field_print at 1 in Hfuel. rewrite !string_length_app in Hfuel.
    change (String.length ",") with 1%nat in Hfuel. lia.
Qed.

Lemma read_value_print v : readable v = true → reads_back_at v.
Proof.
  induction v as [|b|z|x|s|l IH|l IH] using json_nested_ind; intros Hv fuel r Hfuel Hr.
  - destruct fuel; [cbn in Hfuel; lia|]. reflexivity.
  - destruct fuel; [destruct b; cbn in Hfuel; lia|]. by destruct b.
  - destruct (pretty_Z_head z) as (c & s & E & Hc). cbn [json_print] in *.
    destruct fuel as [|fuel]; [rewrite E in Hfuel; cbn in Hfuel; lia|].
    pose proof (read_number_pretty z r Hv (delimited_number_over _ Hr)) as Hn.
    rewrite E, string_app_cons in Hn |- *. cbn [read_value].
    revert Hn. generalize (s +:+ r). intros t Hn.
    destruct c as [[] [] [] [] [] [] [] []]; try discriminate Hc; exact Hn.
  - discriminate Hv.
  - cbn [json_print] in *. pose proof (json_string_length s). destruct fuel as [|fuel]; [lia|].
    unfold json_string. rewrite string_app_cons, string_app_assoc, string_app_cons. cbn [read_value].
    change (nat_of_ascii dquote) with 34%nat. cbv iota. by rewrite read_string_escape.
  - cbn [json_print] in *. rewrite !string_length_app in Hfuel. cbn [String.length] in Hfuel.
    destruct fuel as [|fuel]; [lia|]. rewrite !string_app_assoc. cbn [readable] in Hv.
    pose proof (readable_floatless (JArr l) Hv) as Hf. cbn [floatless] in Hf.
    change ("[" +:+ ?x) with (String "[" x). change ("]" +:+ r) with (String "]" r). cbn [read_value].
    change (nat_of_ascii "[") with 91%nat. cbv iota.
    destruct l as [|v l]; [reflexivity|].
    assert (Forall reads_back_at (v :: l)) as Hall.
    { rewrite Forall_forall in IH |- *. rewrite forallb_forall in Hv. intros x Hx.
      apply (IH x Hx), Hv. by apply list_elem_of_In. }
    assert (skip_space (commas (map json_print (v :: l)) +:+ String "]" r) =
            commas (map json_print (v :: l)) +:+ String "]" r) as ->.
    { rewrite commas_cons. apply json_print_no_space. cbn in Hf. by apply andb_prop in Hf as [? _]. }
    pose proof (read_items_print (v :: l) fuel r ltac:(done) Hall Hf ltac:(lia)) as Hi.
    destruct (commas (map json_print (v :: l)) +:+ String "]" r) as [|c t] eqn:E.
    { destruct fuel; [discriminate Hi|]. by destruct fuel. }
    destruct (Ascii.eqb_spec c "]") as [->|_]; [|by rewrite Hi].
    exfalso. apply (opens_not_close json_print floatless "]"%char ltac:(done) json_print_opens v
      (match l with [] => String "]" r | _ => "," +:+ commas (map json_print l) +:+ String "]" r end) t).
    { cbn in Hf. by apply andb_prop in Hf as [? _]. }
    by rewrite <-E, commas_cons.
  - cbn [json_print] in *. rewrite !string_length_app in Hfuel. cbn [String.length] in Hfuel.
    destruct fuel as [|fuel]; [lia|]. rewrite !string_app_assoc. cbn [readable] in Hv.
    pose proof (readable_floatless (JObj l) Hv) as Hf. cbn [floatless] in Hf.
    apply andb_prop in Hv as [Hnd%bool_decide_eq_true Hv].
    change ("{" +:+ ?x) with (String "{" x). change ("}" +:+ r) with (String "}" r). cbn [read_value].
    change (nat_of_ascii "{") with 123%nat. cbv iota.
    destruct l as [|[k v] l]; [reflexivity|].
    assert (Forall (λ kv : string * json, reads_back_at kv.2) ((k, v) :: l)) as Hall.
    { rewrite Forall_forall in IH |- *. rewrite forallb_forall in Hv. intros x Hx.
      apply (IH x Hx), Hv. by apply list_elem_of_In. }
    fold field_print in Hfuel |- *.
    pose proof (read_members_print ((k, v) :: l) fuel r ltac:(done) Hall Hf ltac:(lia)) as Hi.
    rewrite commas_cons in Hi |- *. unfold field_print at 1 in Hi. unfold field_print at 1. cbn [fst snd] in Hi |- *.
    unfold json_string in Hi |- *. rewrite !string_app_cons in Hi |- *. cbn [skip_space].
    change (json_space dquote) with false. cbv iota. change (Ascii.eqb dquote "}") with false. cbv iota.
    rewrite Hi. cbn [mbind option_bind]. by rewrite dict_of_unique.
Qed.

(** [json.loads] of a printed value is that value. *)
Lemma json_loads_print v : readable v = true → json_loads (json_print v) = Some v.
Proof.
  intros Hv. pose proof (read_value_print v Hv (2 * String.length (json_print v))%nat "" ltac:(lia) eq_refl) as E.
  pose proof (json_print_no_space v "" (readable_floatless v Hv)) as Hs.
  assert (∀ s, s +:+ "" = s) as Hnil by (intros s; induction s as [|c s IHs]; [done|rewrite string_app_cons; by rewrite IHs]).
  rewrite Hnil in E, Hs. unfold json_loads. rewrite Hs, E. reflexivity.
Qed.

Lemma sort_fields_keys l : (sort_fields l).*1 ≡ₚ l.*1.
Proof.
  induction l as [|f l IH]; [done|]. change (sort_fields (f :: l)) with (insert_field f (sort_fields l)).
  cbn [fmap list_fmap]. rewrite <-IH. generalize (sort_fields l). intros m.
  induction m as [|g m IHm]; [done|]. cbn [insert_field]. destruct (String.leb f.1 g.1); [done|].
  cbn [fmap list_fmap]. rewrite IHm. apply Permutation_swap.
Qed.

Lemma readable_sort v : readable v = true → readable (json_sort v) = true.
Proof.
  induction v as [| | | | |l IH|l IH] using json_nested_ind; try done; cbn [readable json_sort].
  - rewrite !forallb_forall. rewrite Forall_forall in IH. intros H x Hx. apply in_map_iff in Hx as (y & <- & Hy).
    apply (IH y); [by apply list_elem_of_In|by apply H].
  - intros [Hnd%bool_decide_eq_true H]%andb_prop. apply andb_true_intro. split.
    + apply bool_decide_eq_true. rewrite sort_fields_keys.
      assert ((map (λ kv : string * json, (kv.1, json_sort kv.2)) l).*1 = l.*1) as ->; [|done].
      clear. induction l as [|[k v] l IH]; [done|]. cbn. by rewrite <-IH.
    + revert H. rewrite !forallb_forall. rewrite Forall_forall in IH. intros H x Hx.
      apply list_elem_of_In, elem_of_sort_fields, list_elem_of_In, in_map_iff in Hx as (y & <- & Hy).
      cbn [snd]. apply (IH y); [by apply list_elem_of_In|by apply H].
Qed.

(** [json.loads(canonical_json(v))]: [v] with its dicts in key order. *)
Lemma json_loads_canonical v : readable v = true → json_loads (canonical_json v) = Some (json_sort v).
Proof. intros Hv. by apply json_loads_print, readable_sort. Qed.
