(* ===== verification/DateTime.v ===== *)
(** UTC instants and their text: [datetime.isoformat] of an instant in
    microseconds since the epoch, with the proof that the text determines the
    instant. The proleptic calendar is the standard library's. *)

From S2P Require Import Prelude Models.
From Stdlib Require Import Ascii.
#[local] Ltac Zify.zify_post_hook ::= Z.to_euclidean_division_equations.
#[local] Open Scope Z_scope.

(** ** Fixed-width decimals *)

Definition digit_char (d : Z) : ascii := ascii_of_N (Z.to_N (48 + d mod 10)).

(** [f"{z:0{w}d}"] of [0 <= z < 10 ^ w] *)
Fixpoint pad (w : nat) (z : Z) : string :=
  match w with
  | O => EmptyString
  | S w => pad w (z / 10) +:+ String (digit_char z) EmptyString
  end.

Lemma digit_char_inj a b : digit_char a = digit_char b → a mod 10 = b mod 10.
Proof.
  intros E. apply (f_equal N_of_ascii) in E. unfold digit_char in E.
  pose proof (Z.mod_pos_bound a 10 ltac:(lia)). pose proof (Z.mod_pos_bound b 10 ltac:(lia)).
  rewrite !N_ascii_embedding in E by lia. lia.
Qed.

Lemma pad_length w z : String.length (pad w z) = w.
Proof.
  revert z. induction w as [|w IH]; intros z; [done|]. cbn [pad].
  rewrite string_length_app, IH. cbn. lia.
Qed.

Lemma pad_inj w a b : 0 ≤ a < 10 ^ Z.of_nat w → 0 ≤ b < 10 ^ Z.of_nat w → pad w a = pad w b → a = b.
Proof.
  revert a b. induction w as [|w IH]; intros a b Ha Hb E; [cbn in *; lia|].
  cbn [pad] in E. rewrite Nat2Z.inj_succ, Z.pow_succ_r in Ha, Hb by lia.
  apply string_append_inj_r in E as [E Ed]; [|done].
  apply string_cons_inj in Ed as [Ed%digit_char_inj _].
  assert (∀ z, 0 ≤ z < 10 * 10 ^ Z.of_nat w → 0 ≤ z / 10 < 10 ^ Z.of_nat w) as Hdiv.
  { intros z Hz. split; [apply Z.div_pos; lia|apply Z.div_lt_upper_bound; lia]. }
  specialize (IH _ _ (Hdiv _ Ha) (Hdiv _ Hb) E).
  rewrite (Z.div_mod a 10), (Z.div_mod b 10) by lia. congruence.
Qed.

Lemma pad_prefix w a b r s :
  0 ≤ a < 10 ^ Z.of_nat w → 0 ≤ b < 10 ^ Z.of_nat w → pad w a +:+ r = pad w b +:+ s → a = b ∧ r = s.
Proof.
  intros Ha Hb E. apply string_append_inj_l in E as [E ->]; [|by rewrite !pad_length].
  split; [|done]. by eapply pad_inj.
Qed.

(** ** Civil dates *)

(** Year, month and day of a day number (0 is 1970-01-01). *)
Definition civil (days : Z) : Z * Z * Z :=
  let z := days + 719468 in
  let era := z / 146097 in
  let doe := z mod 146097 in
  let yoe := (doe - doe / 1460 + doe / 36524 - doe / 146096) / 365 in
  let doy := doe - (365 * yoe + yoe / 4 - yoe / 100) in
  let mp := (5 * doy + 2) / 153 in
  let month := if mp <? 10 then mp + 3 else mp - 9 in
  (yoe + era * 400 + (if month <=? 2 then 1 else 0), month, doy - (153 * mp + 2) / 5 + 1).

Definition days_of_civil (date : Z * Z * Z) : Z :=
  let '(y, m, d) := date in
  let y := if m <=? 2 then y - 1 else y in
  let yoe := y mod 400 in
  let doy := (153 * (if 2 <? m then m - 3 else m + 9) + 2) / 5 + d - 1 in
  y / 400 * 146097 + (yoe * 365 + yoe / 4 - yoe / 100 + doy) - 719468.

Example civil_samples :
  civil 0 = (1970, 1, 1) ∧ civil (-1) = (1969, 12, 31) ∧ civil 11016 = (2000, 2, 29) ∧
  civil 19782 = (2024, 2, 29) ∧ civil 2932896 = (9999, 12, 31).
Proof. vm_compute. auto. Qed.

(** Within one 400-year cycle: the year and the day of the year. *)
Lemma year_of_cycle doe :
  0 ≤ doe < 146097 →
  let yoe := (doe - doe / 1460 + doe / 36524 - doe / 146096) / 365 in
  0 ≤ yoe < 400 ∧ 0 ≤ doe - (365 * yoe + yoe / 4 - yoe / 100) ≤ 365.
Proof.
  intros Hd. destruct (decide (doe = 146096)) as [->|Hl]; [vm_compute; repeat split; congruence|].
  assert (doe / 146096 = 0) as -> by (apply Z.div_small; lia).
  set (c := doe / 36524). set (e := doe / 1460).
  assert (36524 * c ≤ doe < 36524 * c + 36524) as Hc by (subst c; lia).
  assert (1460 * e ≤ doe < 1460 * e + 1460) as He by (subst e; lia).
  assert (0 ≤ c ≤ 3 ∧ c ≤ e ≤ 100) as [Hc' He'] by lia.
  set (n := doe - e + c - 0). intros yoe.
  assert (yoe / 4 = n / 1460) as -> by (apply Z.div_div; lia).
  assert (yoe / 100 = c) as ->.
  { transitivity (n / 36500); [apply Z.div_div; lia|]. symmetry.
    assert (c = 0 ∨ c = 1 ∨ c = 2 ∨ c = 3) as Hcs by lia.
    apply (Z.div_unique _ _ _ (n - 36500 * c)); [left|lia]. clearbody c e.
    by destruct Hcs as [->|[->|[->| ->]]]; subst n; lia. }
  assert (e - 1 ≤ n / 1460 ≤ e).
  { split; [apply Z.div_le_lower_bound; lia|apply Z.lt_succ_r, Z.div_lt_upper_bound; lia]. }
  assert (365 * yoe ≤ n < 365 * yoe + 365) by (subst yoe; lia). lia.
Qed.

(** Every day number is the number of its date. *)
Lemma civil_exact days :
  let '(y, m, d) := civil days in days_of_civil (y, m, d) = days ∧ 1 ≤ m ≤ 12 ∧ 1 ≤ d ≤ 31.
Proof.
  unfold civil, days_of_civil. cbv zeta.
  set (era := (days + 719468) / 146097). set (doe := (days + 719468) mod 146097).
  assert (0 ≤ doe < 146097) as Hdoe by (apply Z.mod_pos_bound; lia).
  assert (days + 719468 = 146097 * era + doe) as Hdays by (apply Z.div_mod; lia).
  pose proof (year_of_cycle doe Hdoe) as [Hy Hdoy]. cbv zeta in Hy, Hdoy. revert Hy Hdoy.
  generalize ((doe - doe / 1460 + doe / 36524 - doe / 146096) / 365). intros yoe Hy Hdoy.
  set (doy := doe - _) in *. set (mp := (5 * doy + 2) / 153).
  assert (0 ≤ mp ≤ 11) as Hmp by (subst mp; lia).
  assert (1 ≤ doy - (153 * mp + 2) / 5 + 1 ≤ 31) as Hday by (subst mp; lia).
  set (first := (153 * mp + 2) / 5) in *.
  assert (∀ y, y = yoe + era * 400 → y mod 400 = yoe ∧ y / 400 = era) as Hmod.
  { intros y ->. rewrite Z.mod_add, Z.div_add, Z.mod_small, Z.div_small by lia. lia. }
  destruct (Z.ltb_spec mp 10).
  - rewrite (proj2 (Z.leb_gt (mp + 3) 2)), (proj2 (Z.ltb_lt 2 (mp + 3))) by lia.
    destruct (Hmod (yoe + era * 400 + 0) ltac:(lia)) as [-> ->].
    replace (mp + 3 - 3) with mp by lia. fold first. lia.
  - rewrite (proj2 (Z.leb_le (mp - 9) 2)), (proj2 (Z.ltb_ge 2 (mp - 9))) by lia.
    destruct (Hmod (yoe + era * 400 + 1 - 1) ltac:(lia)) as [-> ->].
    replace (mp - 9 + 9) with mp by lia. fold first. lia.
Qed.

(** ** [isoformat] *)

Definition US_PER_DAY : Z := 86400000000.

Definition iso_date (days : Z) : string :=
  let '(y, m, d) := civil days in pad 4 y +:+ "-" +:+ pad 2 m +:+ "-" +:+ pad 2 d.
Definition iso_time (sec : Z) : string :=
  pad 2 (sec / 3600) +:+ ":" +:+ pad 2 (sec / 60 mod 60) +:+ ":" +:+ pad 2 (sec mod 60).
Definition iso_fraction (us : Z) : string := if us =? 0 then EmptyString else "." +:+ pad 6 us.

(** A naive datetime's text; [t] is the instant it names in UTC. *)
Definition iso_naive (t : Z) : string :=
  let tod := t mod US_PER_DAY in
  iso_date (t / US_PER_DAY) +:+ "T" +:+ iso_time (tod / 1000000) +:+ iso_fraction (tod mod 1000000).

(** An offset from UTC, in seconds. *)
Definition iso_offset (off : Z) : string :=
  let o := Z.abs off in
  (if off <? 0 then "-" else "+") +:+ pad 2 (o / 3600) +:+ ":" +:+ pad 2 (o / 60 mod 60)
    +:+ (if o mod 60 =? 0 then EmptyString else ":" +:+ pad 2 (o mod 60)).

(** An aware datetime's: its local time and offset. *)
Definition iso_aware (off t : Z) : string := iso_naive (t + off * 1000000) +:+ iso_offset off.

Example iso_samples :
  iso_aware 0 1700000000123456 = "2023-11-14T22:13:20.123456+00:00" ∧
  iso_naive 1700000000000000 = "2023-11-14T22:13:20" ∧
  iso_aware 19800 1700000000000000 = "2023-11-15T03:43:20+05:30".
Proof. vm_compute. auto. Qed.

(** The years [datetime] has room for. *)
Definition representable (t : Z) : Prop := 0 ≤ (civil (t / US_PER_DAY)).1.1 < 10000.

Definition no_fraction (s : string) : Prop :=
  match s with String c _ => c ≠ "."%char | EmptyString => True end.

Lemma iso_date_prefix a b r s :
  0 ≤ (civil a).1.1 < 10000 → 0 ≤ (civil b).1.1 < 10000 →
  iso_date a +:+ r = iso_date b +:+ s → a = b ∧ r = s.
Proof.
  unfold iso_date. pose proof (civil_exact a) as Ha. pose proof (civil_exact b) as Hb.
  destruct (civil a) as [[y m] d], (civil b) as [[y' m'] d']. cbn [fst snd]. intros Hy Hy' E.
  destruct Ha as (<- & Hm & Hd), Hb as (<- & Hm' & Hd').
  rewrite !string_app_assoc in E.
  apply pad_prefix in E as [-> E]; [|lia..]. apply string_cons_inj in E as [_ E].
  apply pad_prefix in E as [-> E]; [|lia..]. apply string_cons_inj in E as [_ E].
  by apply pad_prefix in E as [-> ->]; [|lia..].
Qed.

Lemma iso_time_prefix a b r s :
  0 ≤ a < 86400 → 0 ≤ b < 86400 → iso_time a +:+ r = iso_time b +:+ s → a = b ∧ r = s.
Proof.
  intros Ha Hb E. unfold iso_time in E. rewrite !string_app_assoc in E.
  apply pad_prefix in E as [Hh E]; [|lia..]. apply string_cons_inj in E as [_ E].
  apply pad_prefix in E as [Hm E]; [|lia..]. apply string_cons_inj in E as [_ E].
  apply pad_prefix in E as [Hs ->]; [|lia..]. split; [lia|done].
Qed.

Lemma iso_fraction_prefix a b r s :
  0 ≤ a < 1000000 → 0 ≤ b < 1000000 → no_fraction r → no_fraction s →
  iso_fraction a +:+ r = iso_fraction b +:+ s → a = b ∧ r = s.
Proof.
  intros Ha Hb Hr Hs. unfold iso_fraction.
  destruct (Z.eqb_spec a 0) as [->|Ha0], (Z.eqb_spec b 0) as [->|Hb0]; intros E.
  - done.
  - exfalso. change (r = String "." (pad 6 b +:+ s)) in E. subst r. by apply Hr.
  - exfalso. change (String "." (pad 6 a +:+ r) = s) in E. subst s. by apply Hs.
  - apply string_cons_inj in E as [_ E]. by apply pad_prefix in E; [|lia..].
Qed.

Lemma iso_naive_prefix t u r s :
  representable t → representable u → no_fraction r → no_fraction s →
  iso_naive t +:+ r = iso_naive u +:+ s → t = u ∧ r = s.
Proof.
  intros Ht Hu Hr Hs E. unfold iso_naive in E. rewrite !string_app_assoc in E.
  unfold US_PER_DAY in *.
  apply iso_date_prefix in E as [Hd E]; [|done..]. apply string_cons_inj in E as [_ E].
  apply iso_time_prefix in E as [Hs' E]; [|lia..].
  apply iso_fraction_prefix in E as [Hf ->]; [|lia|lia|done|done]. split; [lia|done].
Qed.

Lemma iso_offset_no_fraction off : no_fraction (iso_offset off).
Proof. unfold iso_offset. by destruct (off <? 0). Qed.

Lemma iso_offset_inj a b : -86400 < a < 86400 → -86400 < b < 86400 → iso_offset a = iso_offset b → a = b.
Proof.
  intros Ha Hb. unfold iso_offset.
  assert (∀ x y, 0 ≤ x < 86400 → 0 ≤ y < 86400 →
    pad 2 (x / 3600) +:+ ":" +:+ pad 2 (x / 60 mod 60)
      +:+ (if x mod 60 =? 0 then EmptyString else ":" +:+ pad 2 (x mod 60)) =
    pad 2 (y / 3600) +:+ ":" +:+ pad 2 (y / 60 mod 60)
      +:+ (if y mod 60 =? 0 then EmptyString else ":" +:+ pad 2 (y mod 60)) → x = y) as Habs.
  { intros x y Hx Hy E. apply pad_prefix in E as [Hh E]; [|lia..]. apply string_cons_inj in E as [_ E].
    apply pad_prefix in E as [Hm E]; [|lia..].
    destruct (Z.eqb_spec (x mod 60) 0), (Z.eqb_spec (y mod 60) 0); try discriminate E; [lia|].
    apply string_cons_inj in E as [_ E]. apply pad_inj in E; lia. }
  destruct (Z.ltb_spec a 0), (Z.ltb_spec b 0); intros E; apply string_cons_inj in E as [E1 E];
    try discriminate E1; apply Habs in E; lia.
Qed.

(** A text names one instant, whatever mix of naive and aware forms it is
    read as. *)
Lemma iso_naive_inj t u : representable t → representable u → iso_naive t = iso_naive u → t = u.
Proof.
  intros Ht Hu E. apply (iso_naive_prefix t u "" ""); try done. by rewrite E.
Qed.

Lemma iso_aware_inj a b t u :
  -86400 < a < 86400 → -86400 < b < 86400 →
  representable (t + a * 1000000) → representable (u + b * 1000000) →
  iso_aware a t = iso_aware b u → t = u.
Proof.
  intros Ha Hb Ht Hu E. apply iso_naive_prefix in E as [E Eo]; auto using iso_offset_no_fraction.
  apply iso_offset_inj in Eo; lia.
Qed.

Lemma iso_naive_aware a t u :
  representable t → representable (u + a * 1000000) → iso_naive t ≠ iso_aware a u.
Proof.
  intros Ht Hu E. unfold iso_aware in E.
  assert (iso_naive t +:+ "" = iso_naive (u + a * 1000000) +:+ iso_offset a) as E'.
  { rewrite <-E. clear. induction (iso_naive t) as [|c s IH]; [done|]. by rewrite string_app_cons, IH. }
  apply iso_naive_prefix in E' as [_ E']; try done; auto using iso_offset_no_fraction.
  unfold iso_offset in E'. by destruct (a <? 0).
Qed.
