(* ===== verification/AuditTrail.v ===== *)
(** backend/services/security_service.py: the server's signing identity, the
    audit log and its hash chain, the group commit that appends to it, and
    its verification, in full or from the newest link already verified. *)

From S2P Require Import Prelude Numeric Models Json JsonText DateTime.
From stdpp Require Import pretty.
#[local] Open Scope Z_scope.

(** ** Tables *)

Record ServerSigningKey := mkServerSigningKey {
  sk_key_id : string;
  sk_algorithm : string;
  sk_public_key : string;
  sk_fingerprint : string;
  sk_status : string;
  sk_created_at : Z;
  sk_activated_at : Z;
  sk_retired_at : option Z
}.
#[global] Instance eta_ServerSigningKey : Eta ServerSigningKey := λ k,
  mkServerSigningKey (sk_key_id k) (sk_algorithm k) (sk_public_key k) (sk_fingerprint k)
    (sk_status k) (sk_created_at k) (sk_activated_at k) (sk_retired_at k).

(** The tables: signing keys by key id, events by id, links by their unique
    sequence; [adb_users] are the ids a [user_id] may refer to. *)
Record AuditDB := mkAuditDB {
  adb_keys : gmap string ServerSigningKey;
  adb_logs : gmap string AuditLog;
  adb_links : gmap Z AuditChainLink;
  adb_users : gset string
}.
#[global] Instance eta_AuditDB : Eta AuditDB := λ d,
  mkAuditDB (adb_keys d) (adb_logs d) (adb_links d) (adb_users d).

(** This process's [ServerIdentity]. *)
Record ServerIdentity := mkServerIdentity {
  si_dsa_pk : option string;
  si_dsa_sk : option string;
  si_created_at : Z;
  si_key_id : option string;
  si_fingerprint : option string;
  si_registered : bool
}.
#[global] Instance eta_ServerIdentity : Eta ServerIdentity := λ i,
  mkServerIdentity (si_dsa_pk i) (si_dsa_sk i) (si_created_at i) (si_key_id i) (si_fingerprint i)
    (si_registered i).

(** What a new key needs: [dsa_keygen()], [gen_uuid()] and the clock. *)
Record Fresh := mkFresh { fr_pk : string; fr_sk : string; fr_uuid : string; fr_now : Z }.

(** What the database can answer a statement with, and what decoding can raise. *)
Inductive AuditError :=
| DatabaseError (message : string)
| Malformed.

(** An append waiting for its batch. [pa_payload] is the value whose text is
    signed; [json.loads] of that text gives it back. *)
Record PendingAudit := mkPendingAudit {
  pa_log_id : string;
  pa_user_id : option string;
  pa_action : string;
  pa_resource_type : option string;
  pa_resource_id : option string;
  pa_metadata : json;
  pa_payload : json;
  pa_signature : string;
  pa_signing_key_id : option string
}.

Section audit.
(** [hashlib.sha256(...).hexdigest()], [base64], and pqc's ML-DSA-65, whose
    verification raises on a malformed public key. *)
Variable sha256_hex : string → string.
Variable b64 : string → string.
Variable unb64 : string → option string.
Variable dsa_sign : string → string → string.
Variable dsa_verify : string → string → string → option bool.

(** ** The identity *)

(** [ServerIdentity.__init__] with the configured keys, if there are any. *)
Definition new_identity (configured : option (string * string)) (created_at : Z) : ServerIdentity :=
  match configured with
  | Some (pk, sk) => mkServerIdentity (Some pk) (Some sk) created_at None (Some (sha256_hex pk)) false
  | None => mkServerIdentity None None created_at None None false
  end.

Definition ensure_keypair (fresh : Fresh) (i : ServerIdentity) : ServerIdentity :=
  i <| si_dsa_pk := Some (fr_pk fresh) |> <| si_dsa_sk := Some (fr_sk fresh) |>
    <| si_created_at := fr_now fresh |> <| si_fingerprint := Some (sha256_hex (fr_pk fresh)) |>
    <| si_key_id := Some (fr_uuid fresh) |> <| si_registered := false |>.

Definition sign (fresh : Fresh) (message : string) (i : ServerIdentity) : ServerIdentity * string :=
  let i := match si_dsa_sk i with None => ensure_keypair fresh i | Some _ => i end in
  (i, dsa_sign (default "" (si_dsa_sk i)) message).

Definition by_fingerprint (fp : string) (keys : gmap string ServerSigningKey) : option ServerSigningKey :=
  List.find (λ k, bool_decide (sk_fingerprint k = fp)) (rows keys).

(** [register_in_db]: insert unless the fingerprint is there, then adopt the
    row that holds it. *)
Definition register_in_db (uuid : string) (now : Z) (i : ServerIdentity) (d : AuditDB)
    : ServerIdentity * AuditDB * outcome AuditError (option string) :=
  match si_dsa_pk i with
  | None => (i, d, Ret None)
  | Some pk =>
      let fp := default (sha256_hex pk) (si_fingerprint i) in
      let i := i <| si_fingerprint := Some fp |> in
      match by_fingerprint fp (adb_keys d) with
      | Some row => (i <| si_key_id := Some (sk_key_id row) |> <| si_registered := true |>, d,
                     Ret (Some (sk_key_id row)))
      | None =>
          let key_id := default uuid (si_key_id i) in
          match adb_keys d !! key_id with
          | Some _ => (i, d, Raise (DatabaseError "server_signing_keys_pkey"))
          | None =>
              let row := mkServerSigningKey key_id "ML-DSA-65" (b64 pk) fp "active" now
                           (si_created_at i) None in
              (i <| si_key_id := Some key_id |> <| si_registered := true |>,
               d <| adb_keys ::= <[key_id := row]> |>, Ret (Some key_id))
          end
      end
  end.

Definition ensure_registered (fresh : Fresh) (uuid : string) (now : Z) (i : ServerIdentity)
    (d : AuditDB) : ServerIdentity * AuditDB * outcome AuditError unit :=
  if si_registered i then (i, d, Ret tt)
  else
    let i := match si_dsa_sk i with None => ensure_keypair fresh i | Some _ => i end in
    let '(i, d, r) := register_in_db uuid now i d in
    match r with
    | Ret _ => (i <| si_registered := true |>, d, Ret tt)
    | Raise e => (i, d, Raise e)
    end.

(** [rotate(db)]: the old key's row is retired, or written as retired if it
    was never registered; then a new key is generated and registered. *)
Definition rotate (fresh : Fresh) (uuid : string) (now : Z) (i : ServerIdentity) (d : AuditDB)
    : ServerIdentity * AuditDB * outcome AuditError (option string) :=
  let old_record := si_key_id i ≫= λ k, adb_keys d !! k in
  let d :=
    match old_record with
    | Some row =>
        d <| adb_keys ::= <[sk_key_id row := row <| sk_status := "retired" |> <| sk_retired_at := Some now |>]> |>
    | None => d
    end in
  let retire :=
    match old_record, si_dsa_pk i, si_fingerprint i with
    | None, Some pk, Some fp =>
        let key_id := default uuid (si_key_id i) in
        match adb_keys d !! key_id, by_fingerprint fp (adb_keys d) with
        | None, None =>
            inl (d <| adb_keys ::= <[key_id := mkServerSigningKey key_id "ML-DSA-65" (b64 pk) fp "retired"
                                                (si_created_at i) (si_created_at i) (Some now)]> |>)
        | _, _ => inr (DatabaseError "server_signing_keys")
        end
    | _, _, _ => inl d
    end in
  match retire with
  | inr e => (i, d, Raise e)
  | inl d => register_in_db uuid now (ensure_keypair fresh i) d
  end.

(** ** Events and links *)

Definition opt_str (s : option string) : json :=
  match s with Some s => JStr s | None => JNull end.

(** [value or {}] *)
Definition or_empty (v : json) : json :=
  match v with
  | JNull | JBool false | JInt 0 | JStr EmptyString | JArr [] | JObj [] => JObj []
  | JFloat (SpecFloat.S754_zero _) => JObj []
  | v => v
  end.

Definition event_payload (action : string) (user_id resource_type resource_id : option string)
    (metadata : json) : json :=
  JObj [("action", JStr action); ("user_id", opt_str user_id);
        ("resource_type", opt_str resource_type); ("resource_id", opt_str resource_id);
        ("metadata", metadata)].
Definition log_payload (l : AuditLog) : json :=
  event_payload (al_action l) (al_user_id l) (al_resource_type l) (al_resource_id l)
    (or_empty (al_metadata_json l)).

Definition GENESIS : string := zeros 64.

Definition chain_timestamp (created_at : Z) : string := iso_aware 0 created_at.

(** [server_tz] is the offset from UTC, in seconds, of the server's zone. *)
Definition legacy_chain_timestamps (created_at : Z) (server_tz : option (Z → Z)) : list string :=
  iso_naive created_at ::
    match server_tz with Some tz => [iso_aware (tz created_at) created_at] | None => [] end.

Definition chain_text (audit_log_id created_at : string) (payload : json) (previous_hash : string)
    : string :=
  dumps_compact (JObj [("audit_log_id", JStr audit_log_id); ("created_at", JStr created_at);
                       ("payload", payload); ("previous_hash", JStr previous_hash)]).
Definition chain_hash (audit_log_id created_at : string) (payload : json) (previous_hash : string)
    : string := sha256_hex (chain_text audit_log_id created_at payload previous_hash).

(** The links in sequence order, with their sequences. *)
Definition sequence_le (a b : Z * AuditChainLink) : Prop := a.1 ≤ b.1.
#[global] Instance sequence_le_dec a b : Decision (sequence_le a b) := decide (a.1 ≤ b.1).
Definition chain (d : AuditDB) : list (Z * AuditChainLink) :=
  merge_sort sequence_le (map_to_list (adb_links d)).

(** ** Appending *)

(** The sequence and hash of the newest link. *)
Definition chain_head (d : AuditDB) : Z * string :=
  match last (chain d) with
  | Some (sequence, l) => (sequence, cl_entry_hash l)
  | None => (0, GENESIS)
  end.

(** An event and its link, with their keys. *)
Abbreviation audit_row := ((string * AuditLog) * (Z * AuditChainLink))%type (only parsing).

(** The rows of one batch: its events, and the links that chain them after
    [previous_hash]; [clock] is read as each one is made. *)
Fixpoint chain_rows (fresh : Fresh) (clock : nat → Z) (sequence : Z) (previous_hash : string)
    (batch : list PendingAudit) (i : ServerIdentity) : ServerIdentity * list audit_row :=
  match batch with
  | [] => (i, [])
  | p :: batch =>
      let sequence := sequence + 1 in
      let created_at := clock (length batch) in
      let entry_hash := chain_hash (pa_log_id p) (chain_timestamp created_at) (pa_payload p) previous_hash in
      let '(i, checkpoint) := sign fresh entry_hash i in
      let event := mkAuditLog (pa_user_id p) (pa_action p) (pa_resource_type p)
                     (pa_resource_id p) (pa_metadata p) (Some (pa_signature p)) (pa_signing_key_id p)
                     created_at in
      let link := mkAuditChainLink (pa_log_id p) previous_hash entry_hash (b64 checkpoint)
                    (pa_signing_key_id p) created_at in
      let '(i, rows) := chain_rows fresh clock sequence entry_hash batch i in
      (i, ((pa_log_id p, event), (sequence, link)) :: rows)
  end.

(** The constraints one event and its link must meet. *)
Definition insertable (d : AuditDB) (row : audit_row) : bool :=
  let '((id, e), (sequence, link)) := row in
  bool_decide (adb_logs d !! id = None)
  && match al_user_id e with Some u => bool_decide (u ∈ adb_users d) | None => true end
  && bool_decide (adb_links d !! sequence = None)
  && forallb (λ l, negb (bool_decide (cl_audit_log_id l = cl_audit_log_id link))
                   && negb (bool_decide (cl_entry_hash l = cl_entry_hash link))) (rows (adb_links d)).

Definition insert_row (row : audit_row) (d : AuditDB) : AuditDB :=
  d <| adb_logs ::= <[row.1.1 := row.1.2]> |> <| adb_links ::= <[row.2.1 := row.2.2]> |>.

Fixpoint insert_rows (rs : list audit_row) (d : AuditDB) : option AuditDB :=
  match rs with
  | [] => Some d
  | r :: rs => if insertable d r then insert_rows rs (insert_row r d) else None
  end.

(** [_insert_chain_links]: one transaction under the advisory lock. [fault]
    is a failure of the connection or the commit. *)
Definition insert_chain_links (fresh : Fresh) (clock : nat → Z) (fault : option string)
    (batch : list PendingAudit) (i : ServerIdentity) (d : AuditDB)
    : ServerIdentity * AuditDB * outcome AuditError unit :=
  let '(sequence, previous_hash) := chain_head d in
  let '(i, rs) := chain_rows fresh clock sequence previous_hash batch i in
  match fault with
  | Some m => (i, d, Raise (DatabaseError m))
  | None =>
      match insert_rows rs d with
      | Some d => (i, d, Ret tt)
      | None => (i, d, Raise (DatabaseError "constraint"))
      end
  end.

(** [_write_chain_batch]: the batch, or each append alone; the answer of each
    append. [moments k] are the clock and the fault of the [k]th attempt. *)
Fixpoint write_singles (fresh : Fresh) (moments : nat → (nat → Z) * option string)
    (batch : list PendingAudit) (i : ServerIdentity) (d : AuditDB)
    : ServerIdentity * AuditDB * list (outcome AuditError unit) :=
  match batch with
  | [] => (i, d, [])
  | p :: batch =>
      let '(clock, fault) := moments (S (length batch)) in
      let '(i, d, r) := insert_chain_links fresh clock fault [p] i d in
      let '(i, d, rs) := write_singles fresh moments batch i d in
      (i, d, r :: rs)
  end.

Definition write_chain_batch (fresh : Fresh) (moments : nat → (nat → Z) * option string)
    (batch : list PendingAudit) (i : ServerIdentity) (d : AuditDB)
    : ServerIdentity * AuditDB * list (outcome AuditError unit) :=
  let '(clock, fault) := moments O in
  match insert_chain_links fresh clock fault batch i d with
  | (i, d, Ret _) => (i, d, map (λ _, Ret tt) batch)
  | (i, d, Raise e) =>
      match batch with
      | [_] => (i, d, [Raise e])
      | _ => write_singles fresh moments batch i d
      end
  end.

(** [write_audit_log] up to the append: register, sign, queue. *)
Definition pending_audit (fresh : Fresh) (uuid log_id : string) (now : Z) (user_id : option string)
    (action : string) (resource_type resource_id : option string) (metadata : option json)
    (i : ServerIdentity) (d : AuditDB)
    : ServerIdentity * AuditDB * outcome AuditError PendingAudit :=
  let metadata := or_empty (default JNull metadata) in
  let '(i, d, r) := ensure_registered fresh uuid now i d in
  match r with
  | Raise e => (i, d, Raise e)
  | Ret _ =>
      let value := event_payload action user_id resource_type resource_id metadata in
      let '(i, signature) := sign fresh (dumps_sorted value) i in
      (i, d, Ret (mkPendingAudit log_id user_id action resource_type resource_id metadata
                    (json_sort value) (b64 signature) (si_key_id i)))
  end.

(** ** Verification *)

(** [verify_audit_log]; [dsa_pk] is this process's current public key. *)
Definition verify_audit_log (dsa_pk : option string) (log_id : string) (d : AuditDB)
    : outcome AuditError bool :=
  match adb_logs d !! log_id with
  | None => Ret false
  | Some entry =>
      match al_pqc_signature entry with
      | None | Some EmptyString => Ret false
      | Some signature =>
          let record :=
            match al_signing_key_id entry with
            | Some EmptyString | None => None
            | Some k => adb_keys d !! k
            end in
          let! pk := match record with
                     | Some k => match unb64 (sk_public_key k) with
                                 | Some pk => Ret (Some pk)
                                 | None => Raise Malformed
                                 end
                     | None => Ret dsa_pk
                     end in
          match pk with
          | None => Ret false
          | Some pk =>
              match unb64 signature with
              | None => Raise Malformed
              | Some sg =>
                  match dsa_verify pk (dumps_sorted (log_payload entry)) sg with
                  | Some b => Ret b
                  | None => Raise Malformed
                  end
              end
          end
      end
  end.

(** [_link_failure] of a link and its event. *)
Definition link_failure (keys : gmap string string) (dsa_pk : option string)
    (server_tz : option (Z → Z)) (l : AuditChainLink) (event : option AuditLog)
    (previous_hash : string) : outcome AuditError (option string) :=
  match event with
  | None => Ret (Some "audit event missing")
  | Some e =>
      if bool_decide (cl_previous_hash l ≠ previous_hash) then
        Ret (Some "link does not point at the preceding link")
      else
        let key :=
          match cl_signing_key_id l ≫= λ k, keys !! k with
          | Some EmptyString | None => dsa_pk
          | Some pk => Some pk
          end in
        match key with
        | None => Ret (Some "no verification key")
        | Some pk =>
            let hash ts := chain_hash (cl_audit_log_id l) ts (log_payload e) previous_hash in
            if bool_decide (hash (chain_timestamp (al_created_at e)) ≠ cl_entry_hash l)
               && negb (existsb (λ ts, bool_decide (hash ts = cl_entry_hash l))
                          (legacy_chain_timestamps (al_created_at e) server_tz)) then
              Ret (Some "event content does not match its link hash")
            else
              match unb64 (cl_checkpoint_signature l) with
              | None => Raise Malformed
              | Some sg =>
                  match dsa_verify pk (cl_entry_hash l) sg with
                  | None => Raise Malformed
                  | Some false => Ret (Some "checkpoint signature invalid")
                  | Some true => Ret None
                  end
              end
        end
  end.

(** The links after [after]. *)
Definition links_after (after : Z) (d : AuditDB) : list (Z * AuditChainLink) :=
  filter (λ l, after < l.1) (chain d).

(** The loop: the first failure, and the newest link verified. *)
Fixpoint check_links (keys : gmap string string) (dsa_pk : option string)
    (server_tz : option (Z → Z)) (logs : gmap string AuditLog) (previous_hash : string)
    (last : option (Z * string)) (ls : list (Z * AuditChainLink))
    : outcome AuditError (option (Z * string) * option (Z * string)) :=
  match ls with
  | [] => Ret (None, last)
  | (sequence, l) :: ls =>
      let! reason := link_failure keys dsa_pk server_tz l (logs !! cl_audit_log_id l) previous_hash in
      match reason with
      | Some r => Ret (Some (sequence, r), last)
      | None =>
          check_links keys dsa_pk server_tz logs (cl_entry_hash l)
            (Some (sequence, cl_entry_hash l)) ls
      end
  end.

(** Every registered key decoded. *)
Definition decode_keys (keys : gmap string ServerSigningKey) : outcome AuditError (gmap string string) :=
  if forallb (λ k, bool_decide (is_Some (unb64 (sk_public_key k)))) (rows keys) then
    Ret (omap (λ k, unb64 (sk_public_key k)) keys)
  else Raise Malformed.

(** What this process remembers about a database's chain. *)
Record VerifiedChain := mkVerifiedChain {
  vc_head : option (Z * string);
  vc_full_verified_at : option Z;
  vc_generation : Z
}.
#[global] Instance eta_VerifiedChain : Eta VerifiedChain := λ s,
  mkVerifiedChain (vc_head s) (vc_full_verified_at s) (vc_generation s).
Definition no_chain_verified : VerifiedChain := mkVerifiedChain None None 0.

Record ChainStatus := mkChainStatus {
  cs_valid : bool;
  cs_links : Z;
  cs_unchained_events : Z;
  cs_first_invalid_sequence : option Z;
  cs_reason : option string;
  cs_mode : string;
  cs_verified_from_sequence : Z;
  cs_last_full_verification_at : option string
}.
#[global] Instance eta_ChainStatus : Eta ChainStatus := λ s,
  mkChainStatus (cs_valid s) (cs_links s) (cs_unchained_events s) (cs_first_invalid_sequence s)
    (cs_reason s) (cs_mode s) (cs_verified_from_sequence s) (cs_last_full_verification_at s).

Definition unchained_events (d : AuditDB) : Z :=
  Z.of_nat (length (filter (λ id, forallb (λ l, negb (bool_decide (cl_audit_log_id l = id)))
                                    (rows (adb_links d)) = true) (map_to_list (adb_logs d)).*1)).

(** Where a check starts: after the remembered head if that link still has
    the hash it was verified with, else at the beginning. *)
Definition check_from (full : bool) (head : option (Z * string)) (d : AuditDB) : Z * string :=
  match full, head with
  | false, Some (sequence, hash) =>
      if bool_decide (cl_entry_hash <$> adb_links d !! sequence = Some hash) then (sequence, hash)
      else (0, GENESIS)
  | _, _ => (0, GENESIS)
  end.

(** [audit_chain_status] between its two critical sections, from the head it
    read in the first: the status (without the last full verification) and
    the newest link verified. *)
Definition check_chain (dsa_pk : option string) (server_tz : option (Z → Z)) (full : bool)
    (head : option (Z * string)) (d : AuditDB)
    : outcome AuditError (ChainStatus * option (Z * string)) :=
  let '(after, previous_hash) := check_from full head d in
  let! keys := decode_keys (adb_keys d) in
  let! result := check_links keys dsa_pk server_tz (adb_logs d) previous_hash None (links_after after d) in
  let '(failure, newest) := result in
  Ret (mkChainStatus (bool_decide (failure = None)) (Z.of_nat (size (adb_links d))) (unchained_events d)
         (fst <$> failure) (snd <$> failure)
         (if after =? 0 then "full" else "incremental") (after + 1) None, newest).

(** The second critical section. [generation] is what the first one read. *)
Definition store_check (started_at generation : Z) (status : ChainStatus)
    (newest : option (Z * string)) (s : VerifiedChain) : VerifiedChain * ChainStatus :=
  let s :=
    if negb (cs_valid status) then
      s <| vc_head := None |> <| vc_generation := vc_generation s + 1 |>
    else if vc_generation s =? generation then
      let s := if bool_decide (cs_mode status = "full") then s <| vc_full_verified_at := Some started_at |>
               else s in
      match newest with
      | Some n =>
          match vc_head s with
          | Some h => if h.1 <=? n.1 then s <| vc_head := newest |> else s
          | None => s <| vc_head := newest |>
          end
      | None => s
      end
    else s in
  (s, status <| cs_last_full_verification_at := iso_aware 0 <$> vc_full_verified_at s |>).

Definition audit_chain_status (dsa_pk : option string) (server_tz : option (Z → Z)) (full : bool)
    (started_at : Z) (s : VerifiedChain) (d : AuditDB)
    : VerifiedChain * outcome AuditError ChainStatus :=
  match check_chain dsa_pk server_tz full (vc_head s) d with
  | Raise e => (s, Raise e)
  | Ret (status, newest) =>
      let '(s, status) := store_check started_at (vc_generation s) status newest s in (s, Ret status)
  end.

Definition verify_audit_chain (dsa_pk : option string) (server_tz : option (Z → Z)) (started_at : Z)
    (s : VerifiedChain) (d : AuditDB) : VerifiedChain * outcome AuditError bool :=
  let '(s, r) := audit_chain_status dsa_pk server_tz true started_at s d in
  (s, let! status := r in Ret (cs_valid status)).
End audit.
