(* ===== verification/AuditFacts.v ===== *)
(** What the audit chain guarantees: whatever is appended by whichever
    process, before and after key rotations, verifies; two chains that end in
    the same hash record the same history; and a check from the newest
    verified link answers what a full check does. *)

From S2P Require Import Prelude Numeric Models Json JsonText DateTime AuditTrail.
#[local] Open Scope Z_scope.

(** ** The chain as a list *)

#[global] Instance sequence_le_trans : Transitive sequence_le.
Proof. intros a b c. unfold sequence_le. lia. Qed.

Lemma Sorted_chain d : Sorted sequence_le (chain d).
Proof.
  apply Sorted_merge_sort. intros a b. unfold sequence_le. lia.
Qed.

Lemma elem_of_chain d s l : (s, l) ∈ chain d ↔ adb_links d !! s = Some l.
Proof. unfold chain. by rewrite merge_sort_Permutation, elem_of_map_to_list. Qed.

Lemma chain_unique d ls :
  Sorted sequence_le ls → ls ≡ₚ map_to_list (adb_links d) → chain d = ls.
Proof.
  intros Hs Hp. unfold chain.
  apply (Sorted_unique_strong sequence_le); [|apply Sorted_chain|done|by rewrite merge_sort_Permutation].
  intros [s l] [s' l'] H1 H2 H3 H4. unfold sequence_le in *. cbn in *.
  assert (s = s') as -> by lia. f_equal.
  apply elem_of_chain in H1. rewrite Hp, elem_of_map_to_list in H2. congruence.
Qed.

(** A link after all others goes to the end. *)
Lemma chain_snoc d d' n l :
  adb_links d' = <[n := l]> (adb_links d) →
  (∀ s, is_Some (adb_links d !! s) → s < n) →
  chain d' = chain d ++ [(n, l)].
Proof.
  intros Hd Hn. apply chain_unique.
  - pose proof (Sorted_chain d) as Hs.
    assert (∀ x, x ∈ chain d → sequence_le x (n, l)) as Hle.
    { intros [s l'] Hx%elem_of_chain. unfold sequence_le. cbn. apply Z.lt_le_incl, Hn. by eexists. }
    induction Hs as [|a ls Hs IH Hhd]; [by repeat constructor|]. cbn. constructor.
    + apply IH. intros x Hx. apply Hle. by right.
    + destruct Hhd; constructor; [apply Hle; by left|done].
  - rewrite Hd, map_to_list_insert.
    + unfold chain. rewrite merge_sort_Permutation. by rewrite Permutation_app_comm.
    + destruct (adb_links d !! n) eqn:E; [|done]. specialize (Hn n ltac:(by eexists)). lia.
Qed.

(** ** Chains that link up *)

Section facts.
Variable sha256_hex : string → string.
Variable b64 : string → string.
Variable unb64 : string → option string.
Variable dsa_sign : string → string → string.
Variable dsa_verify : string → string → string → option bool.

#[local] Abbreviation hash := (chain_hash sha256_hex).

(** The public key registered under [k]. *)
Definition key_of (d : AuditDB) (k : string) (pk : string) : Prop :=
  ∃ row, adb_keys d !! k = Some row ∧ unb64 (sk_public_key row) = Some pk ∧ pk ≠ "".

(** A link that verifies after [previous_hash], in the tables of [d]. *)
Definition good_link (d : AuditDB) (previous_hash : string) (l : AuditChainLink) : Prop :=
  ∃ e k pk sg, adb_logs d !! cl_audit_log_id l = Some e ∧ cl_previous_hash l = previous_hash ∧
    cl_entry_hash l = hash (cl_audit_log_id l) (chain_timestamp (al_created_at e)) (log_payload e)
                        previous_hash ∧
    cl_signing_key_id l = Some k ∧ key_of d k pk ∧
    unb64 (cl_checkpoint_signature l) = Some sg ∧ dsa_verify pk (cl_entry_hash l) sg = Some true.

Fixpoint linked (d : AuditDB) (n : Z) (h : string) (ls : list (Z * AuditChainLink)) : Prop :=
  match ls with
  | [] => True
  | (s, l) :: ls => s = n + 1 ∧ good_link d h l ∧ linked d s (cl_entry_hash l) ls
  end.

(** The sequence and hash a list of links ends with. *)
Definition end_of (n : Z) (h : string) (ls : list (Z * AuditChainLink)) : Z * string :=
  match last ls with Some (s, l) => (s, cl_entry_hash l) | None => (n, h) end.

Lemma chain_head_end d : chain_head d = end_of 0 GENESIS (chain d).
Proof. reflexivity. Qed.

Lemma end_of_cons n h s l ls : end_of n h ((s, l) :: ls) = end_of s (cl_entry_hash l) ls.
Proof. unfold end_of. rewrite last_cons. by destruct (last ls) as [[]|]. Qed.

Lemma linked_snoc d n h ls s l :
  linked d n h (ls ++ [(s, l)]) ↔
  linked d n h ls ∧ s = (end_of n h ls).1 + 1 ∧ good_link d (end_of n h ls).2 l.
Proof.
  revert n h. induction ls as [|[s' l'] ls IH]; intros n h; cbn [app linked].
  - cbn. tauto.
  - rewrite IH, end_of_cons. tauto.
Qed.

Lemma linked_bounds d n h ls :
  linked d n h ls → n ≤ (end_of n h ls).1 ∧ ∀ s l, (s, l) ∈ ls → n < s ≤ (end_of n h ls).1.
Proof.
  revert n h. induction ls as [|[s' l'] ls IH]; intros n h; cbn [linked].
  - intros _. cbn. split; [lia|]. intros s l []%not_elem_of_nil.
  - intros (-> & _ & Hl). apply IH in Hl as [H1 H2]. rewrite end_of_cons. split; [lia|].
    intros s l [[= -> ->]|Hin]%elem_of_cons; [lia|]. specialize (H2 s l Hin). lia.
Qed.

(** Registered keys keep their bytes, and events stay as they were. *)
Definition grows (d d' : AuditDB) : Prop :=
  (∀ k row, adb_keys d !! k = Some row →
     ∃ row', adb_keys d' !! k = Some row' ∧ sk_public_key row' = sk_public_key row) ∧
  (∀ id e, adb_logs d !! id = Some e → adb_logs d' !! id = Some e).

#[global] Instance grows_preorder : PreOrder grows.
Proof.
  split.
  - intros d. split; eauto.
  - intros d1 d2 d3 [Hk Hl] [Hk' Hl']. split; [|by eauto].
    intros k row Hr. destruct (Hk k row Hr) as (r2 & H2 & E2). destruct (Hk' k r2 H2) as (r3 & H3 & E3).
    exists r3. split; [done|congruence].
Qed.

Lemma key_of_grows d d' k pk : grows d d' → key_of d k pk → key_of d' k pk.
Proof.
  intros [Hk _] (row & Hr & Hpk & Hne). destruct (Hk k row Hr) as (row' & Hr' & E).
  exists row'. by rewrite E.
Qed.

Lemma good_link_grows d d' h l : grows d d' → good_link d h l → good_link d' h l.
Proof.
  intros Hg (e & k & pk & sg & He & Hp & Hh & Hk & Hpk & Hsg & Hv).
  exists e, k, pk, sg. split_and!; try done; [by apply Hg|by eapply key_of_grows].
Qed.

Lemma linked_grows d d' n h ls : grows d d' → linked d n h ls → linked d' n h ls.
Proof.
  intros Hg. revert n h. induction ls as [|[s l] ls IH]; intros n h; [done|]. cbn.
  intros (-> & Hl & Hr). split_and!; eauto using good_link_grows.
Qed.

(** Every public key a row holds decodes. *)
Definition keys_decode (d : AuditDB) : Prop :=
  ∀ k row, adb_keys d !! k = Some row → is_Some (unb64 (sk_public_key row)).

Lemma decode_keys_ok d :
  keys_decode d →
  decode_keys unb64 (adb_keys d) = Ret (omap (λ k, unb64 (sk_public_key k)) (adb_keys d)).
Proof.
  intros Hd. unfold decode_keys.
  destruct (forallb _ _) eqn:E; [done|]. exfalso. revert E. apply not_false_iff_true.
  apply forallb_forall. intros row (k & Hk)%list_elem_of_In%elem_of_rows.
  apply bool_decide_eq_true_2. eauto.
Qed.

Lemma good_link_passes d dsa_pk tz h l :
  good_link d h l →
  link_failure sha256_hex unb64 dsa_verify (omap (λ k, unb64 (sk_public_key k)) (adb_keys d)) dsa_pk tz l
    (adb_logs d !! cl_audit_log_id l) h = Ret None.
Proof.
  intros (e & k & pk & sg & He & Hp & Hh & Hk & (row & Hrow & Hpk & Hne) & Hsg & Hv).
  rewrite He. unfold link_failure.
  rewrite (bool_decide_eq_false_2 (cl_previous_hash l ≠ h)) by (intros Hx; by apply Hx).
  rewrite Hk. cbn [mbind option_bind]. rewrite lookup_omap, Hrow. cbn [mbind option_bind]. rewrite Hpk.
  destruct pk as [|c pk]; [done|]. rewrite <-Hh.
  rewrite (bool_decide_eq_false_2 (cl_entry_hash l ≠ cl_entry_hash l)) by (intros Hx; by apply Hx).
  cbn [andb]. by rewrite Hsg, Hv.
Qed.

Lemma linked_checks d dsa_pk tz n h ls newest :
  linked d n h ls →
  check_links sha256_hex unb64 dsa_verify (omap (λ k, unb64 (sk_public_key k)) (adb_keys d)) dsa_pk tz
    (adb_logs d) h newest ls =
  Ret (None, match last ls with Some (s, l) => Some (s, cl_entry_hash l) | None => newest end).
Proof.
  revert n h newest. induction ls as [|[s l] ls IH]; intros n h newest; [done|].
  cbn [linked]. intros (_ & Hl & Hr). cbn [check_links]. rewrite (good_link_passes d dsa_pk tz h l Hl).
  cbn [obind]. rewrite (IH _ _ _ Hr), last_cons. by destruct (last ls) as [[]|].
Qed.

(** ** Keys, identities and single events *)

(** The key pairs in use: ML-DSA verifies what it signed, and no two of them
    share a fingerprint. *)
Variable key_pair : string → string → Prop.
Hypothesis sign_verifies : ∀ pk sk m, key_pair pk sk → dsa_verify pk m (dsa_sign sk m) = Some true.
Hypothesis keys_nonempty : ∀ pk sk, key_pair pk sk → pk ≠ "".
Hypothesis fingerprints_differ : ∀ pk sk pk' sk',
  key_pair pk sk → key_pair pk' sk' → sha256_hex pk = sha256_hex pk' → pk = pk'.
Hypothesis b64_decodes : ∀ x, unb64 (b64 x) = Some x.
Hypothesis signatures_nonempty : ∀ sk m, b64 (dsa_sign sk m) ≠ "".

Definition event_verifies (d : AuditDB) (e : AuditLog) : Prop :=
  ∃ k pk text sg, al_signing_key_id e = Some k ∧ k ≠ "" ∧ key_of d k pk ∧
    al_pqc_signature e = Some text ∧ text ≠ "" ∧ unb64 text = Some sg ∧
    dsa_verify pk (dumps_sorted (log_payload e)) sg = Some true.

Lemma event_verifies_grows d d' e : grows d d' → event_verifies d e → event_verifies d' e.
Proof.
  intros Hg (k & pk & text & sg & ? & ? & Hk & ?). exists k, pk, text, sg.
  eauto using key_of_grows.
Qed.

Lemma event_verified d dsa_pk id e :
  adb_logs d !! id = Some e → event_verifies d e →
  verify_audit_log unb64 dsa_verify dsa_pk id d = Ret true.
Proof.
  intros He (k & pk & text & sg & Hk & Hne & (row & Hrow & Hpk & _) & Ht & Htne & Hsg & Hv).
  unfold verify_audit_log. rewrite He, Ht, Hk. destruct text as [|c text]; [done|].
  destruct k as [|c' k]; [done|]. rewrite Hrow, Hpk. cbn [obind]. by rewrite Hsg, Hv.
Qed.

(** A registered key's row. *)
Definition key_row (k : string) (row : ServerSigningKey) : Prop :=
  k ≠ "" ∧ sk_key_id row = k ∧
  ∃ pk sk, key_pair pk sk ∧ sk_public_key row = b64 pk ∧ sk_fingerprint row = sha256_hex pk.

Record audited (d : AuditDB) : Prop := {
  aud_keys : ∀ k row, adb_keys d !! k = Some row → key_row k row;
  aud_chain : linked d 0 GENESIS (chain d);
  aud_events : ∀ id e, adb_logs d !! id = Some e → event_verifies d e;
  aud_chained : ∀ id e, adb_logs d !! id = Some e →
                  ∃ s l, adb_links d !! s = Some l ∧ cl_audit_log_id l = id
}.

Record identity_ok (d : AuditDB) (i : ServerIdentity) : Prop := {
  io_sk : ∀ sk, si_dsa_sk i = Some sk →
            ∃ pk, si_dsa_pk i = Some pk ∧ key_pair pk sk ∧ si_fingerprint i = Some (sha256_hex pk);
  io_pk : ∀ pk, si_dsa_pk i = Some pk → is_Some (si_dsa_sk i);
  io_id : ∀ k, si_key_id i = Some k → k ≠ "";
  io_registered : si_registered i = true →
                  ∃ k pk, si_key_id i = Some k ∧ si_dsa_pk i = Some pk ∧ key_of d k pk
}.

(** A registered identity that can sign, with its pieces. *)
Lemma registered_identity d i :
  identity_ok d i → si_registered i = true →
  ∃ k pk sk, si_key_id i = Some k ∧ k ≠ "" ∧ si_dsa_pk i = Some pk ∧ si_dsa_sk i = Some sk ∧
    key_pair pk sk ∧ key_of d k pk.
Proof.
  intros Hi (k & pk & Hk & Hpk & Hrow)%(io_registered _ _ Hi).
  destruct (io_pk _ _ Hi pk Hpk) as [sk Hsk]. destruct (io_sk _ _ Hi sk Hsk) as (pk' & Hpk' & Hp & _).
  rewrite Hpk in Hpk'. injection Hpk' as <-. exists k, pk, sk. split_and!; try done. by eapply io_id.
Qed.

Lemma identity_ok_grows d d' i : grows d d' → identity_ok d i → identity_ok d' i.
Proof.
  intros Hg [H1 H2 H3 H4]. split; [done|done|done|]. intros Hr.
  destruct (H4 Hr) as (k & pk & ? & ? & ?). exists k, pk. eauto using key_of_grows.
Qed.

Definition fresh_ok (f : Fresh) : Prop := key_pair (fr_pk f) (fr_sk f) ∧ fr_uuid f ≠ "".

Lemma ensure_keypair_ok d f i : fresh_ok f → identity_ok d (ensure_keypair sha256_hex f i).
Proof.
  intros [Hp Hu]. split; cbn.
  - intros sk [= <-]. by exists (fr_pk f).
  - intros pk _. by eexists.
  - by intros k [= <-].
  - done.
Qed.

(** A change of the signing keys alone. *)
Lemma audited_new_keys d keys :
  audited d →
  (∀ k row, adb_keys d !! k = Some row →
     ∃ row', keys !! k = Some row' ∧ sk_public_key row' = sk_public_key row) →
  (∀ k row, keys !! k = Some row → key_row k row) →
  grows d (d <| adb_keys := keys |>) ∧ audited (d <| adb_keys := keys |>).
Proof.
  intros [_ Hc He Hch] Hg Hk. assert (grows d (d <| adb_keys := keys |>)) as Hgr by (split; [done|by eauto]).
  split; [done|]. split; [done| | |done].
  - by apply (linked_grows d).
  - intros id e Hid. by apply (event_verifies_grows d); [|apply (He id)].
Qed.

Lemma by_fingerprint_Some fp keys row :
  by_fingerprint fp keys = Some row → sk_fingerprint row = fp ∧ ∃ k, keys !! k = Some row.
Proof.
  intros [Hin Hfp]%List.find_some. apply bool_decide_eq_true in Hfp.
  by apply list_elem_of_In, elem_of_rows in Hin.
Qed.

Lemma insert_key_ok d k row :
  audited d → adb_keys d !! k = None → key_row k row →
  grows d (d <| adb_keys ::= <[k := row]> |>) ∧ audited (d <| adb_keys ::= <[k := row]> |>).
Proof.
  intros Ha Hn Hr. apply (audited_new_keys d (<[k := row]> (adb_keys d)) Ha).
  - intros k' row' Hk'. exists row'. rewrite lookup_insert_ne by congruence. done.
  - intros k' row' [[<- <-]|[_ Hk']]%lookup_insert_Some; [done|]. by apply (aud_keys d Ha).
Qed.

Lemma register_ok uuid now i d :
  uuid ≠ "" → audited d → identity_ok d i →
  let '(i', d', r) := register_in_db sha256_hex b64 uuid now i d in
  grows d d' ∧ audited d' ∧ identity_ok d' i' ∧
  (si_dsa_pk i ≠ None → ∀ x, r = Ret x → si_registered i' = true) ∧
  si_dsa_sk i' = si_dsa_sk i ∧ adb_links d' = adb_links d ∧ adb_logs d' = adb_logs d.
Proof.
  intros Hu Ha Hi. unfold register_in_db. destruct (si_dsa_pk i) as [pk|] eqn:Epk.
  2: { split_and!; try done. }
  destruct (io_pk _ _ Hi pk Epk) as [sk Esk]. destruct (io_sk _ _ Hi sk Esk) as (pk' & Epk' & Hp & Hf).
  rewrite Epk in Epk'. injection Epk' as <-. rewrite Hf. cbn [from_option id].
  assert (∀ i' d', si_dsa_pk i' = Some pk → si_dsa_sk i' = Some sk →
            si_fingerprint i' = Some (sha256_hex pk) →
            (∀ k, si_key_id i' = Some k → k ≠ "") →
            (si_registered i' = true → ∃ k, si_key_id i' = Some k ∧ key_of d' k pk) →
            identity_ok d' i') as Hmk.
  { intros i' d' H1 H2 H3 H4 H5. split.
    - intros sk'. rewrite H2. intros [= <-]. by exists pk.
    - intros pk' _. rewrite H2. by eexists.
    - done.
    - intros Hr. destruct (H5 Hr) as (k & Hk & Ho). by exists k, pk. }
  assert (∀ k row d', adb_keys d' !! k = Some row → sk_public_key row = b64 pk → key_of d' k pk) as Hkey.
  { intros k row d' Hrow E. exists row. split_and!; [done| |by eapply keys_nonempty]. by rewrite E, b64_decodes. }
  cbn [si_key_id set_field].
  destruct (by_fingerprint _ _) as [row|] eqn:Ef.
  - apply by_fingerprint_Some in Ef as [Efp [k Hk]].
    destruct (aud_keys d Ha k row Hk) as (Hkne & Hkid & pk' & sk' & Hp' & Hrow & Hfp).
    assert (pk' = pk) as -> by (eapply fingerprints_differ; [done..|congruence]).
    split_and!; try done. apply Hmk; try done; rewrite Hkid; cbn.
    + by intros ? [= <-].
    + intros _. exists k. eauto.
  - destruct (adb_keys d !! default uuid (si_key_id i)) as [row|] eqn:Ek.
    + split_and!; try done. apply Hmk; try done; cbn; [apply (io_id _ _ Hi)|].
      intros Hr. destruct (io_registered _ _ Hi Hr) as (k & pk' & Hk & Hpk' & Ho).
      rewrite Epk in Hpk'. injection Hpk' as <-. by exists k.
    + assert (default uuid (si_key_id i) ≠ "") as Hne.
      { destruct (si_key_id i) as [k|] eqn:E; cbn; [by apply (io_id _ _ Hi)|done]. }
      set (row := mkServerSigningKey _ _ _ _ _ _ _ _).
      destruct (insert_key_ok d (default uuid (si_key_id i)) row Ha Ek) as [Hg Ha'].
      { split_and!; [done|done|]. by exists pk, sk. }
      split_and!; try done. apply Hmk; try done; cbn.
      * by intros ? [= <-].
      * intros _. eexists. split; [done|]. eapply Hkey; [apply lookup_insert_eq|done].
Qed.

Lemma ensure_registered_ok f uuid now i d :
  uuid ≠ "" → fresh_ok f → audited d → identity_ok d i →
  let '(i', d', r) := ensure_registered sha256_hex b64 f uuid now i d in
  grows d d' ∧ audited d' ∧ identity_ok d' i' ∧ (r = Ret tt → si_registered i' = true) ∧
  adb_links d' = adb_links d ∧ adb_logs d' = adb_logs d.
Proof.
  intros Hu Hf Ha Hi. unfold ensure_registered. destruct (si_registered i) eqn:Er; [by split_and!|].
  set (i0 := match si_dsa_sk i with Some _ => i | None => _ end).
  assert (identity_ok d i0 ∧ is_Some (si_dsa_sk i0)) as [Hi0 [sk Hsk]].
  { subst i0. destruct (si_dsa_sk i) eqn:Es; [by rewrite Es; split|].
    split; [by apply ensure_keypair_ok|by eexists]. }
  pose proof (register_ok uuid now i0 d Hu Ha Hi0) as Hr.
  destruct (register_in_db _ _ _ _ _ _) as [[i1 d1] r].
  destruct Hr as (Hg & Ha1 & Hi1 & Hreg & _ & Hl & Hlg).
  destruct (io_sk _ _ Hi0 sk Hsk) as (pk & Hpk & _).
  destruct r as [x|e]; [|by split_and!]. specialize (Hreg ltac:(congruence) x eq_refl).
  split_and!; try done. destruct Hi1 as [H1 H2 H3 H4]. split; [done..|]. intros _. by apply H4.
Qed.

Lemma sign_ok f m i sk : si_dsa_sk i = Some sk → sign sha256_hex dsa_sign f m i = (i, dsa_sign sk m).
Proof. intros E. unfold sign. by rewrite E, E. Qed.

Lemma rotate_ok f uuid now i d :
  uuid ≠ "" → fresh_ok f → audited d → identity_ok d i →
  let '(i', d', r) := rotate sha256_hex b64 f uuid now i d in
  grows d d' ∧ audited d' ∧ identity_ok d' i' ∧ adb_links d' = adb_links d ∧ adb_logs d' = adb_logs d.
Proof.
  intros Hu Hf Ha Hi. unfold rotate. set (old := si_key_id i ≫= _).
  set (d1 := match old with Some row => _ | None => d end).
  assert (grows d d1 ∧ audited d1 ∧ adb_links d1 = adb_links d ∧ adb_logs d1 = adb_logs d)
    as (Hg1 & Ha1 & Hl1 & Hlg1).
  { subst d1. destruct old as [row|] eqn:Eo; [|by split_and!]. subst old.
    apply bind_Some in Eo as (k & _ & Hrow). destruct (aud_keys d Ha k row Hrow) as (Hne & Hid & Hpk).
    rewrite Hid. set (row' := row <| sk_status := _ |> <| sk_retired_at := _ |>).
    destruct (audited_new_keys d (<[k := row']> (adb_keys d)) Ha) as [Hg Ha'].
    - intros k' r' Hk'. destruct (decide (k' = k)) as [->|Hk].
      + rewrite lookup_insert_eq. exists row'. rewrite Hrow in Hk'. by injection Hk' as <-.
      + exists r'. by rewrite lookup_insert_ne.
    - intros k' r' [[<- <-]|[_ Hk']]%lookup_insert_Some; [by split_and!|by apply (aud_keys d Ha)].
    - by split_and!. }
  assert (identity_ok d1 i) as Hi1 by (by eapply identity_ok_grows).
  set (retire := match old, si_dsa_pk i, si_fingerprint i with None, Some _, Some _ => _ | _, _, _ => _ end).
  assert (match retire with
          | inl d2 => grows d1 d2 ∧ audited d2 ∧ adb_links d2 = adb_links d1 ∧ adb_logs d2 = adb_logs d1
          | inr _ => True end) as Hret.
  { subst retire. destruct old; [by split_and!|].
    destruct (si_dsa_pk i) as [pk|] eqn:Epk; [|by split_and!].
    destruct (si_fingerprint i) as [fp|] eqn:Efp; [|by split_and!].
    destruct (adb_keys d1 !! default uuid (si_key_id i)) eqn:Ek; [done|].
    destruct (by_fingerprint fp (adb_keys d1)); [done|].
    destruct (io_pk _ _ Hi pk Epk) as [sk Esk]. destruct (io_sk _ _ Hi sk Esk) as (pk' & Hpk' & Hp & Hfp).
    edestruct (insert_key_ok d1 (default uuid (si_key_id i))) as [Hg Ha'];
      [done|done| |by split_and!].
    split_and!; [|done|].
    - destruct (si_key_id i) as [k|] eqn:E; cbn; [by apply (io_id _ _ Hi)|done].
    - exists pk, sk. rewrite Epk in Hpk'. injection Hpk' as <-. rewrite Efp in Hfp. injection Hfp as ->. done. }
  destruct retire as [d2|e]; [|by split_and!]. destruct Hret as (Hg2 & Ha2 & Hl2 & Hlg2).
  pose proof (register_ok uuid now (ensure_keypair sha256_hex f i) d2 Hu Ha2 (ensure_keypair_ok d2 f i Hf)) as Hr.
  destruct (register_in_db _ _ _ _ _ _) as [[i3 d3] r].
  destruct Hr as (Hg3 & Ha3 & Hi3 & _ & _ & Hl3 & Hlg3).
  split_and!; [by etrans; [|etrans]|done|done|congruence|congruence].
Qed.

(** ** Appending a batch *)

Lemma or_empty_idem v : or_empty (or_empty v) = or_empty v.
Proof.
  destruct v as [|[]|[]|[]|[]|[]|[]]; try reflexivity; cbn;
  repeat match goal with |- context [match ?x with _ => _ end] => destruct x; try reflexivity end.
Qed.

Lemma chain_text_sorted id ts v h : chain_text id ts (json_sort v) h = chain_text id ts v h.
Proof.
  unfold chain_text, dumps_compact. f_equal. cbn [json_sort map fst snd]. by rewrite json_sort_idem.
Qed.

(** An append as [write_audit_log] queues it under the identity [i]. *)
Definition pending_ok (d : AuditDB) (i : ServerIdentity) (p : PendingAudit) : Prop :=
  ∃ pk sg, si_dsa_pk i = Some pk ∧
    pa_payload p = json_sort (event_payload (pa_action p) (pa_user_id p) (pa_resource_type p)
                                (pa_resource_id p) (pa_metadata p)) ∧
    or_empty (pa_metadata p) = pa_metadata p ∧
    pa_signing_key_id p = si_key_id i ∧ pa_signature p ≠ "" ∧ unb64 (pa_signature p) = Some sg ∧
    dsa_verify pk (dumps_sorted (event_payload (pa_action p) (pa_user_id p) (pa_resource_type p)
                                   (pa_resource_id p) (pa_metadata p))) sg = Some true.

Lemma insert_row_ok d id e s l :
  audited d → insertable d ((id, e), (s, l)) = true → s = (chain_head d).1 + 1 →
  event_verifies d e →
  cl_audit_log_id l = id →
  let d' := insert_row ((id, e), (s, l)) d in
  good_link d' (chain_head d).2 l →
  grows d d' ∧ audited d' ∧ chain_head d' = (s, cl_entry_hash l).
Proof.
  intros Ha Hins Hs He Hid d' Hl. unfold insertable in Hins.
  apply andb_prop in Hins as [[[Hn _]%andb_prop _]%andb_prop _]. apply bool_decide_eq_true in Hn.
  assert (grows d d') as Hg.
  { split; [by eauto|]. intros id' e' Hid'. unfold d', insert_row. cbn.
    rewrite lookup_insert_ne; [done|congruence]. }
  rewrite chain_head_end in Hs, Hl.
  assert (chain d' = chain d ++ [(s, l)]) as Hc.
  { apply chain_snoc; [done|]. intros s' [l' Hl']%(λ x, x).
    apply elem_of_chain in Hl'. pose proof (linked_bounds _ _ _ _ (aud_chain d Ha)) as [_ Hb].
    specialize (Hb _ _ Hl'). lia. }
  split_and!; [done| |].
  - split.
    + apply (aud_keys d Ha).
    + rewrite Hc, linked_snoc. split_and!; [|done|done]. apply (linked_grows d); [done|apply Ha].
    + intros id' e'. unfold d', insert_row. cbn.
      intros [[<- <-]|[_ H']]%lookup_insert_Some; apply (event_verifies_grows d); try done.
      by apply (aud_events d Ha id').
    + intros id' e'. unfold d', insert_row. cbn. intros [[<- <-]|[_ H']]%lookup_insert_Some.
      * exists s, l. by rewrite lookup_insert_eq.
      * destruct (aud_chained d Ha id' e' H') as (s' & l' & Hs' & Hid'). exists s', l'.
        pose proof (proj2 (linked_bounds _ _ _ _ (aud_chain d Ha)) s' l' (proj2 (elem_of_chain _ _ _) Hs')).
        rewrite lookup_insert_ne; [done|lia].
  - rewrite chain_head_end, Hc. unfold end_of. by rewrite last_snoc.
Qed.

Lemma pending_ok_grows d d' i p : pending_ok d i p → pending_ok d' i p.
Proof. done. Qed.

Lemma chain_rows_identity f clock s h batch i sk i' rs :
  si_dsa_sk i = Some sk →
  chain_rows sha256_hex b64 dsa_sign f clock s h batch i = (i', rs) → i' = i.
Proof.
  intros Hsk. revert s h rs. induction batch as [|q batch IH]; intros s h rs; cbn [chain_rows];
    [by intros [= <- _]|].
  rewrite (sign_ok _ _ _ sk Hsk). destruct (chain_rows _ _ _ _ _ _ _ _ _) as [i2 rs2] eqn:E2.
  intros [= <- _]. by apply IH in E2.
Qed.

Lemma insert_rows_ok f clock batch i d d' s h :
  identity_ok d i → si_registered i = true → audited d → chain_head d = (s, h) →
  Forall (pending_ok d i) batch →
  let '(i', rs) := chain_rows sha256_hex b64 dsa_sign f clock s h batch i in
  i' = i ∧ (insert_rows rs d = Some d' → grows d d' ∧ audited d').
Proof.
  intros Hi Hreg. destruct (registered_identity d i Hi Hreg) as (k & pk & sk & Hk & Hkne & Hpk & Hsk & Hp & Hrow).
  clear Hi Hreg. revert d d' s h Hrow.
  induction batch as [|p batch IH]; intros d d' s h Hrow Ha Hh Hb; cbn [chain_rows].
  { split; [done|]. cbn. by intros [= <-]. }
  rewrite (sign_ok _ _ _ sk Hsk). apply Forall_cons in Hb as [Hpend Hb].
  set (h' := chain_hash _ _ _ _ _).
  set (e := mkAuditLog _ _ _ _ _ _ _ _). set (l := mkAuditChainLink _ _ _ _ _ _).
  destruct (chain_rows _ _ _ _ _ _ _ _ _) as [i' rs] eqn:Er.
  destruct Hpend as (pk' & sg & Hpk' & Hpay & Hmeta & Hkid & Hsne & Hsg & Hv).
  rewrite Hpk in Hpk'. injection Hpk' as <-.
  assert (log_payload e = event_payload (pa_action p) (pa_user_id p) (pa_resource_type p)
                            (pa_resource_id p) (pa_metadata p)) as Hlp.
  { unfold log_payload. cbn. by rewrite Hmeta. }
  set (d1 := insert_row ((pa_log_id p, e), (s + 1, l)) d).
  assert (insertable d ((pa_log_id p, e), (s + 1, l)) = true →
          grows d d1 ∧ audited d1 ∧ chain_head d1 = (s + 1, h')) as Hstep.
  { intros Hins. apply insert_row_ok; try done.
    - by rewrite Hh.
    - exists k, pk, (pa_signature p), sg. rewrite Hlp. cbn. rewrite Hkid. by split_and!.
    - rewrite Hh. exists e, k, pk, (dsa_sign sk h'). cbn. rewrite lookup_insert_eq, Hkid.
      split_and!; try done; [|by apply sign_verifies].
      unfold h', chain_hash. by rewrite Hpay, chain_text_sorted, <-Hlp. }
  destruct (insertable d ((pa_log_id p, e), (s + 1, l))) eqn:Ei.
  - destruct (Hstep eq_refl) as (Hg & Ha1 & Hh1).
    specialize (IH d1 d' (s + 1) h' ltac:(by eapply key_of_grows) Ha1 Hh1 Hb).
    rewrite Er in IH. destruct IH as [-> IH]. split; [done|]. cbn [insert_rows]. rewrite Ei.
    fold d1. intros Hins. destruct (IH Hins) as [Hg' Ha']. split; [by etrans|done].
  - split; [|cbn [insert_rows]; by rewrite Ei].
    by eapply chain_rows_identity.
Qed.

Definition ready (d : AuditDB) (i : ServerIdentity) : Prop := identity_ok d i ∧ si_registered i = true.

Lemma insert_links_ok f clock fault batch i d :
  ready d i → audited d → Forall (pending_ok d i) batch →
  let '(i', d', _) := insert_chain_links sha256_hex b64 dsa_sign f clock fault batch i d in
  i' = i ∧ grows d d' ∧ audited d'.
Proof.
  intros [Hi Hr] Ha Hb. unfold insert_chain_links.
  destruct (chain_head d) as [s h] eqn:Hh.
  assert (∀ d', let '(i', rs) := chain_rows sha256_hex b64 dsa_sign f clock s h batch i in
                i' = i ∧ (insert_rows rs d = Some d' → grows d d' ∧ audited d')) as Hins.
  { intros d'. by apply insert_rows_ok. }
  destruct (chain_rows _ _ _ _ _ _ _ _ _) as [i' rs]. destruct fault.
  - destruct (Hins d) as [-> _]. by split_and!.
  - destruct (insert_rows rs d) as [d'|]; [|destruct (Hins d) as [-> _]; by split_and!].
    destruct (Hins d') as [-> H]. by destruct (H eq_refl).
Qed.

Lemma ready_grows d d' i : grows d d' → ready d i → ready d' i.
Proof. intros Hg [Hi Hr]. split; [by eapply identity_ok_grows|done]. Qed.

Lemma write_singles_ok f moments batch i d :
  ready d i → audited d → Forall (pending_ok d i) batch →
  let '(i', d', _) := write_singles sha256_hex b64 dsa_sign f moments batch i d in
  i' = i ∧ grows d d' ∧ audited d'.
Proof.
  revert d. induction batch as [|p batch IH]; intros d Hi Ha Hb; cbn [write_singles]; [done|].
  apply Forall_cons in Hb as [Hp Hb]. destruct (moments _) as [clock fault].
  pose proof (insert_links_ok f clock fault [p] i d Hi Ha (Forall_cons_2 _ _ _ Hp (Forall_nil_2 _))) as Hs.
  destruct (insert_chain_links _ _ _ _ _ _ _ _ _) as [[i1 d1] r]. destruct Hs as (-> & Hg & Ha1).
  specialize (IH d1 (ready_grows _ _ _ Hg Hi) Ha1 Hb).
  destruct (write_singles _ _ _ _ _ _ _ _) as [[i2 d2] rs]. destruct IH as (-> & Hg2 & Ha2).
  split_and!; [done|by etrans|done].
Qed.

Lemma write_batch_ok f moments batch i d :
  ready d i → audited d → Forall (pending_ok d i) batch →
  let '(i', d', _) := write_chain_batch sha256_hex b64 dsa_sign f moments batch i d in
  i' = i ∧ grows d d' ∧ audited d'.
Proof.
  intros Hi Ha Hb. unfold write_chain_batch. destruct (moments O) as [clock fault].
  pose proof (insert_links_ok f clock fault batch i d Hi Ha Hb) as Hs.
  destruct (insert_chain_links _ _ _ _ _ _ _ _ _) as [[i1 d1] r]. destruct Hs as (-> & Hg & Ha1).
  destruct r as [x|e]; [done|].
  pose proof (write_singles_ok f moments batch i d1 (ready_grows _ _ _ Hg Hi) Ha1 Hb) as Hs.
  destruct batch as [|p [|q batch]]; [|done|];
    destruct (write_singles _ _ _ _ _ _ _ _) as [[i2 d2] rs]; destruct Hs as (-> & Hg2 & Ha2);
    (split_and!; [done|by etrans|done]).
Qed.

Lemma pending_audit_ok f uuid log_id now user_id action rtype rid metadata i d :
  uuid ≠ "" → fresh_ok f → audited d → identity_ok d i →
  let '(i', d', r) := pending_audit sha256_hex b64 dsa_sign f uuid log_id now user_id action rtype rid
                        metadata i d in
  grows d d' ∧ audited d' ∧ identity_ok d' i' ∧
  (si_registered i = true → i' = i) ∧
  ∀ p, r = Ret p → pending_ok d' i' p ∧ si_registered i' = true.
Proof.
  intros Hu Hf Ha Hi. unfold pending_audit.
  pose proof (ensure_registered_ok f uuid now i d Hu Hf Ha Hi) as He.
  assert (si_registered i = true → (ensure_registered sha256_hex b64 f uuid now i d).1.1 = i) as Hsame.
  { unfold ensure_registered. by destruct (si_registered i). }
  destruct (ensure_registered _ _ _ _ _ _ _) as [[i1 d1] r].
  destruct He as (Hg & Ha1 & Hi1 & Hreg & _). cbn [fst] in Hsame. destruct r as [[]|e]; [|by split_and!].
  specialize (Hreg eq_refl). destruct (registered_identity d1 i1 Hi1 Hreg)
    as (k & pk & sk & Hk & Hkne & Hpk & Hsk & Hp & _).
  rewrite (sign_ok _ _ _ sk Hsk). split_and!; try done. intros p [= <-]. split; [|done].
  exists pk, (dsa_sign sk (dumps_sorted (event_payload action user_id rtype rid
                                           (or_empty (default JNull metadata))))).
  split_and!; cbn; try done; [apply or_empty_idem|by apply sign_verifies].
Qed.

(** ** Any history verifies *)

(** One [write_audit_log] call. *)
Record AuditRequest := mkAuditRequest {
  ar_log_id : string; ar_now : Z; ar_user_id : option string; ar_action : string;
  ar_resource_type : option string; ar_resource_id : option string; ar_metadata : option json
}.

(** What the processes that share the tables do: start, register their key
    at startup, rotate it, and write events, whose appends end up in one batch. *)
Inductive audit_op :=
| Start (process : nat) (configured : option (string * string)) (created_at : Z)
| RegisterKey (process : nat) (uuid : string) (now : Z)
| RotateKey (process : nat) (fresh : Fresh) (uuid : string) (now : Z)
| WriteEvents (process : nat) (fresh : Fresh) (uuid : string) (moments : nat → (nat → Z) * option string)
    (requests : list AuditRequest).

Record AuditSystem := mkAuditSystem { sys_db : AuditDB; sys_identity : nat → ServerIdentity }.

Definition set_identity (p : nat) (i : ServerIdentity) (s : nat → ServerIdentity) : nat → ServerIdentity :=
  λ q, if (q =? p)%nat then i else s q.

Fixpoint queue_requests (fresh : Fresh) (uuid : string) (requests : list AuditRequest)
    (i : ServerIdentity) (d : AuditDB) : ServerIdentity * AuditDB * list PendingAudit :=
  match requests with
  | [] => (i, d, [])
  | q :: requests =>
      let '(i, d, r) := pending_audit sha256_hex b64 dsa_sign fresh uuid (ar_log_id q) (ar_now q)
                          (ar_user_id q) (ar_action q) (ar_resource_type q) (ar_resource_id q)
                          (ar_metadata q) i d in
      let '(i, d, ps) := queue_requests fresh uuid requests i d in
      (i, d, match r with Ret p => p :: ps | Raise _ => ps end)
  end.

Definition run_audit (s : AuditSystem) (op : audit_op) : AuditSystem :=
  let with_identity p i d := mkAuditSystem d (set_identity p i (sys_identity s)) in
  match op with
  | Start p configured created_at =>
      with_identity p (new_identity sha256_hex configured created_at) (sys_db s)
  | RegisterKey p uuid now =>
      let '(i, d, _) := register_in_db sha256_hex b64 uuid now (sys_identity s p) (sys_db s) in
      with_identity p i d
  | RotateKey p fresh uuid now =>
      let '(i, d, _) := rotate sha256_hex b64 fresh uuid now (sys_identity s p) (sys_db s) in
      with_identity p i d
  | WriteEvents p fresh uuid moments requests =>
      let '(i, d, ps) := queue_requests fresh uuid requests (sys_identity s p) (sys_db s) in
      let '(i, d, _) := write_chain_batch sha256_hex b64 dsa_sign fresh moments ps i d in
      with_identity p i d
  end.

(** Generated keys and ids are what the libraries generate. *)
Definition op_generates (op : audit_op) : Prop :=
  match op with
  | Start _ (Some (pk, sk)) _ => key_pair pk sk
  | Start _ None _ => True
  | RegisterKey _ uuid _ => uuid ≠ ""
  | RotateKey _ fresh uuid _ | WriteEvents _ fresh uuid _ _ => fresh_ok fresh ∧ uuid ≠ ""
  end.

Definition system_ok (s : AuditSystem) : Prop :=
  audited (sys_db s) ∧ ∀ p, identity_ok (sys_db s) (sys_identity s p).

Lemma queue_ok f uuid qs i d :
  uuid ≠ "" → fresh_ok f → audited d → identity_ok d i →
  let '(i', d', ps) := queue_requests f uuid qs i d in
  grows d d' ∧ audited d' ∧ identity_ok d' i' ∧ (si_registered i = true → i' = i) ∧
  (ps ≠ [] → si_registered i' = true) ∧ Forall (pending_ok d' i') ps.
Proof.
  intros Hu Hf. revert i d. induction qs as [|q qs IH]; intros i d Ha Hi; cbn [queue_requests].
  { by split_and!. }
  pose proof (pending_audit_ok f uuid (ar_log_id q) (ar_now q) (ar_user_id q) (ar_action q)
    (ar_resource_type q) (ar_resource_id q) (ar_metadata q) i d Hu Hf Ha Hi) as Hp.
  destruct (pending_audit _ _ _ _ _ _ _ _ _ _ _ _ _ _) as [[i1 d1] r].
  destruct Hp as (Hg & Ha1 & Hi1 & Hsame & Hr). specialize (IH i1 d1 Ha1 Hi1).
  destruct (queue_requests f uuid qs i1 d1) as [[i2 d2] ps].
  destruct IH as (Hg2 & Ha2 & Hi2 & Hsame2 & Hreg & Hps). split_and!; try done; [by etrans| | |].
  - intros Hri. specialize (Hsame Hri). subst i1. auto.
  - destruct r as [p|e]; [|done]. intros _. destruct (Hr p eq_refl) as [_ H1]. by rewrite (Hsame2 H1).
  - destruct r as [p|e]; [|done]. destruct (Hr p eq_refl) as [Hp H1]. constructor; [|done].
    rewrite (Hsame2 H1). done.
Qed.

Lemma set_identity_ok s p i d :
  grows (sys_db s) d → audited d → identity_ok d i → system_ok s →
  system_ok (mkAuditSystem d (set_identity p i (sys_identity s))).
Proof.
  intros Hg Ha Hi [_ Hs]. split; [done|]. intros q. cbn. unfold set_identity.
  destruct (q =? p)%nat; [done|]. by apply (identity_ok_grows (sys_db s)).
Qed.

Lemma run_audit_ok s op : op_generates op → system_ok s → system_ok (run_audit s op).
Proof.
  intros Hop Hs. pose proof Hs as [Ha Hi]. destruct op as [p cfg at_|p uuid now|p f uuid now|p f uuid ms qs]; cbn.
  - apply set_identity_ok; try done. destruct cfg as [[pk sk]|]; cbn in Hop |- *; [|by split].
    split; cbn; [|by eexists|done|done]. intros ? [= <-]. by exists pk.
  - pose proof (register_ok uuid now _ _ Hop Ha (Hi p)) as H.
    destruct (register_in_db _ _ _ _ _ _) as [[i d] r]. destruct H as (? & ? & ? & _).
    by apply set_identity_ok.
  - destruct Hop as [Hf Hu]. pose proof (rotate_ok f uuid now _ _ Hu Hf Ha (Hi p)) as H.
    destruct (rotate _ _ _ _ _ _ _) as [[i d] r]. destruct H as (? & ? & ? & _).
    by apply set_identity_ok.
  - destruct Hop as [Hf Hu]. pose proof (queue_ok f uuid qs _ _ Hu Hf Ha (Hi p)) as H.
    destruct (queue_requests _ _ _ _ _) as [[i d] ps]. destruct H as (Hg & Ha1 & Hi1 & _ & Hreg & Hps).
    destruct ps as [|q ps].
    + assert (write_chain_batch sha256_hex b64 dsa_sign f ms [] i d = (i, d, [])) as ->.
      { unfold write_chain_batch, insert_chain_links. destruct (ms O) as [clock []], (chain_head d); done. }
      by apply set_identity_ok.
    + assert (ready d i) as Hready by (split; [done|by apply Hreg]).
      pose proof (write_batch_ok f ms (q :: ps) i d Hready Ha1 Hps) as H.
      destruct (write_chain_batch _ _ _ _ _ _ _ _) as [[i2 d2] rs]. destruct H as (-> & Hg2 & Ha2).
      apply set_identity_ok; [by etrans|done|by eapply identity_ok_grows|done].
Qed.

Lemma audited_nothing_unchained d : audited d → unchained_events d = 0.
Proof.
  intros Ha. unfold unchained_events. destruct (filter _ _) as [|id ids] eqn:E; [done|]. exfalso.
  assert (id ∈ filter (λ id, forallb (λ l, negb (bool_decide (cl_audit_log_id l = id)))
                               (rows (adb_links d)) = true) (map_to_list (adb_logs d)).*1) as Hin
    by (rewrite E; by left).
  apply list_elem_of_filter in Hin as [Hf Hin]. apply list_elem_of_fmap in Hin as ([id' e] & -> & Hin).
  apply elem_of_map_to_list in Hin. destruct (aud_chained d Ha id' e Hin) as (s & l & Hl & Hid).
  rewrite forallb_forall in Hf. specialize (Hf l). rewrite bool_decide_eq_true_2 in Hf by done.
  by discriminate Hf; apply list_elem_of_In, elem_of_rows; exists s.
Qed.

Lemma audited_checks d dsa_pk tz started st :
  audited d →
  ∃ status, (audit_chain_status sha256_hex unb64 dsa_verify dsa_pk tz true started st d).2 = Ret status ∧
    cs_valid status = true ∧ cs_unchained_events status = 0.
Proof.
  intros Ha. unfold audit_chain_status, check_chain.
  change (check_from true (vc_head st) d) with (0, GENESIS). cbv iota beta.
  rewrite decode_keys_ok.
  2: { intros k row Hk. destruct (aud_keys d Ha k row Hk) as (_ & _ & pk & sk & _ & -> & _).
       rewrite b64_decodes. by eexists. }
  cbn [obind].
  assert (links_after 0 d = chain d) as ->.
  { unfold links_after. apply filter_all. intros [s l] Hin.
    by apply (proj2 (linked_bounds _ _ _ _ (aud_chain d Ha)) s l). }
  rewrite (linked_checks d dsa_pk tz 0 GENESIS (chain d) None (aud_chain d Ha)). cbn [obind].
  destruct (store_check _ _ _ _ _) as [st' status] eqn:E. exists status. split; [done|].
  unfold store_check in E. injection E as _ <-. cbn. split; [done|]. by apply audited_nothing_unchained.
Qed.

(** C5: the audit history always verifies. Whatever processes with whatever
    signing keys start, register, rotate keys and write events in any order,
    with batches that fail as a whole or in part, a full check of the chain
    finds it valid with no event outside it, and every single event verifies
    against the key that signed it, long after that key was retired and
    whichever process asks. *)
Theorem audit_history_verifies ops s dsa_pk tz started st :
  system_ok s → Forall op_generates ops →
  let d := sys_db (foldl run_audit s ops) in
  (∃ status,
     (audit_chain_status sha256_hex unb64 dsa_verify dsa_pk tz true started st d).2 = Ret status ∧
     cs_valid status = true ∧ cs_unchained_events status = 0) ∧
  ∀ id e, adb_logs d !! id = Some e → verify_audit_log unb64 dsa_verify dsa_pk id d = Ret true.
Proof.
  intros Hs Hops d.
  assert (audited d) as Ha.
  { apply (foldl_invariant system_ok); [done|]. intros s' op Hop. apply run_audit_ok.
    rewrite Forall_forall in Hops. by apply Hops. }
  split; [by apply audited_checks|]. intros id e He. eapply event_verified; [done|].
  by apply (aud_events d Ha id).
Qed.
End facts.

(** ** Two processes, a rotation between their events *)

Definition toy_pair (pk sk : string) : Prop := pk = sk ∧ pk ≠ "".
Definition toy_sign (sk m : string) : string := sk +:+ ":" +:+ m.
Definition toy_verify (pk m s : string) : option bool := Some (bool_decide (s = toy_sign pk m)).
Definition toy_hash (s : string) : string := "h" +:+ s.

Definition no_events : AuditSystem :=
  mkAuditSystem (mkAuditDB ∅ ∅ ∅ {["u1"]}) (λ _, new_identity toy_hash None 0).
Definition no_faults : nat → (nat → Z) * option string := λ k, (λ j, Z.of_nat j, None).
Definition login (id : string) : AuditRequest :=
  mkAuditRequest id 0 (Some "u1") "USER_LOGIN" None None (Some (JObj [("n", JInt 1)])).
Definition busy_processes : list audit_op :=
  [Start 0 None 0; Start 1 (Some ("key1", "key1")) 0; RegisterKey 1 "k1" 0;
   WriteEvents 0 (mkFresh "key0" "key0" "k0" 1) "row0" no_faults [login "e1"; login "e2"];
   RotateKey 0 (mkFresh "key2" "key2" "k2" 2) "row2" 2;
   WriteEvents 1 (mkFresh "x" "x" "x" 3) "row3" no_faults [login "e3"]].

Lemma audit_history_verifies_witness :
  let d := sys_db (foldl (run_audit toy_hash id toy_sign) no_events busy_processes) in
  verify_audit_log Some toy_verify None "e1" d = Ret true ∧ is_Some (adb_logs d !! "e3").
Proof.
  cbv zeta.
  destruct (audit_history_verifies toy_hash id Some toy_sign toy_verify toy_pair
              (λ pk sk m '(conj E _), f_equal Some (bool_decide_eq_true_2 _ (f_equal (λ k, toy_sign k m) (eq_sym E))))
              (λ pk sk '(conj _ E), E)) with (ops := busy_processes) (s := no_events)
              (dsa_pk := @None string) (tz := @None (Z → Z)) (started := 0) (st := no_chain_verified)
    as [_ Hv].
  - intros pk sk pk' sk' _ _ E. by injection E.
  - done.
  - intros [] m E; discriminate E.
  - split; [|intros p; split; cbn; try done].
    split; [by intros k row Hk|exact I|by intros k row Hk|by intros k row Hk].
  - repeat constructor; cbn; try (intros E; discriminate E); done.
  - split; [eapply Hv; vm_compute; reflexivity|vm_compute; by eexists].
Defined.
