(* ===== verification/AuditTamper.v ===== *)
(** What verification of the audit chain establishes about tables anyone may
    have edited: a valid chain is determined by its newest hash, and checking
    only the links after a verified one answers what a full check does. *)

From S2P Require Import Prelude Numeric Models Json JsonText DateTime AuditTrail AuditFacts.
From Stdlib Require Import Ascii.
#[local] Ltac Zify.zify_post_hook ::= Z.to_euclidean_division_equations.
#[local] Open Scope Z_scope.

(** ** Plain text *)

(** Printable ASCII that JSON does not escape. *)
Definition plain_char (c : ascii) : bool :=
  let n := nat_of_ascii c in
  (32 <=? n)%nat && (n <? 127)%nat && negb (n =? 34)%nat && negb (n =? 92)%nat.
Fixpoint plain (s : string) : bool :=
  match s with EmptyString => true | String c s => plain_char c && plain s end.

Lemma plain_point c :
  plain_char c = true →
  (byte_val c <? 128) = true ∧ utf8_char (byte_val c) = String c EmptyString ∧
  escape_point (byte_val c) = String c EmptyString ∧ scalar (byte_val c) = true.
Proof. by destruct c as [[] [] [] [] [] [] [] []]; intros E; try discriminate E; repeat split. Qed.

Lemma plain_text s :
  plain s = true →
  utf8 (code_points s) = s ∧ escape_ascii (code_points s) = s ∧ forallb scalar (code_points s) = true.
Proof.
  induction s as [|c s IH]; [done|]. intros [Hc Hs]%andb_prop.
  destruct (plain_point c Hc) as (Hb & Hu & He & Hsc). destruct (IH Hs) as (IHu & IHe & IHs).
  cbn [code_points]. rewrite Hb. cbn [utf8 escape_ascii foldr forallb].
  change (foldr _ EmptyString (code_points s)) with (utf8 (code_points s)) at 1.
  change (foldr (λ cp s, escape_point cp +:+ s) EmptyString (code_points s)) with (escape_ascii (code_points s)).
  by rewrite Hu, He, Hsc, IHu, IHe, IHs.
Qed.

Lemma plain_valid s : plain s = true → valid_text s = true.
Proof.
  intros Hs. destruct (plain_text s Hs) as (Hu & _ & Hsc). unfold valid_text.
  rewrite Hu, Hsc. by apply String.eqb_eq.
Qed.

Lemma plain_ascii_string s : plain s = true → ascii_string s = String dquote (s +:+ String dquote EmptyString).
Proof. intros Hs. unfold ascii_string. by rewrite (proj1 (proj2 (plain_text s Hs))). Qed.

Lemma plain_app a b : plain (a +:+ b) = plain a && plain b.
Proof.
  induction a as [|c a IH]; [done|]. rewrite string_app_cons. cbn [plain]. by rewrite IH, andb_assoc.
Qed.

Lemma plain_pad w z : plain (pad w z) = true.
Proof.
  revert z. induction w as [|w IH]; intros z; [done|]. cbn [pad]. rewrite plain_app, IH. cbn [plain andb].
  rewrite andb_true_r. unfold digit_char, plain_char, nat_of_ascii.
  pose proof (Z.mod_pos_bound z 10 ltac:(lia)). rewrite N_ascii_embedding by lia.
  rewrite !andb_true_iff, !negb_true_iff, !Nat.eqb_neq, Nat.ltb_lt, Nat.leb_le. lia.
Qed.

Lemma plain_iso_naive t : plain (iso_naive t) = true.
Proof.
  unfold iso_naive, iso_date, iso_time, iso_fraction. destruct (civil _) as [[y m] d].
  destruct (_ =? 0); rewrite !plain_app, !plain_pad; done.
Qed.

Lemma plain_iso_aware off t : plain (iso_aware off t) = true.
Proof.
  unfold iso_aware, iso_offset. rewrite !plain_app, plain_iso_naive, !plain_pad.
  destruct (off <? 0), (_ =? 0); rewrite ?plain_app, ?plain_pad; reflexivity.
Qed.

(** What a SHA-256 digest looks like. *)
Definition digest (s : string) : Prop := plain s = true ∧ String.length s = 64%nat.

Lemma digest_genesis : digest GENESIS.
Proof. by split. Qed.

(** ** The hashed text determines the event *)

Lemma chain_text_shape id ts v h :
  chain_text id ts v h =
  (String "{" (json_string "audit_log_id") +:+ ":" +:+ ascii_string id +:+ ("," +:+ json_string "created_at"
     +:+ ":") +:+ ascii_string ts +:+ ("," +:+ json_string "payload" +:+ ":") +:+ dumps_compact v)
  +:+ (("," +:+ json_string "previous_hash" +:+ ":") +:+ ascii_string h +:+ "}").
Proof.
  unfold chain_text, dumps_compact. cbn [json_sort map fst snd].
  change (sort_fields _) with
    [("audit_log_id", JStr id); ("created_at", JStr ts); ("payload", json_sort v); ("previous_hash", JStr h)].
  cbn [dumps_ascii map separated foldr fst snd].
  change (ascii_string "audit_log_id") with (json_string "audit_log_id").
  change (ascii_string "created_at") with (json_string "created_at").
  change (ascii_string "payload") with (json_string "payload").
  change (ascii_string "previous_hash") with (json_string "previous_hash").
  repeat (rewrite ?string_app_assoc; cbn [String.append]). reflexivity.
Qed.

Lemma chain_text_inj id ts v h id' ts' v' h' :
  valid_text id = true → valid_text id' = true → plain ts = true → plain ts' = true →
  digest h → digest h' →
  chain_text id ts v h = chain_text id' ts' v' h' →
  id = id' ∧ ts = ts' ∧ dumps_compact v = dumps_compact v' ∧ h = h'.
Proof.
  intros Hid Hid' Hts Hts' [Hh Hl] [Hh' Hl']. rewrite !chain_text_shape, (plain_ascii_string h Hh), (plain_ascii_string h' Hh').
  intros E. apply string_append_inj_r in E as [E Eh].
  2: { rewrite !string_length_app. f_equal. cbn [String.length]. rewrite !string_length_app. by rewrite Hl, Hl'. }
  apply string_append_inj_l in Eh as [_ Eh]; [|done]. apply string_append_inj_r in Eh as [Eh _]; [|done].
  apply string_cons_inj in Eh as [_ Eh]. apply string_append_inj_r in Eh as [-> _]; [|done].
  apply string_append_inj_l in E as [_ E]; [|done]. apply string_cons_inj in E as [_ E].
  apply ascii_string_prefix in E as [-> E]; [|done..].
  apply string_append_inj_l in E as [_ E]; [|done].
  apply ascii_string_prefix in E as [-> E]; [|by apply plain_valid..].
  by apply string_append_inj_l in E as [_ E].
Qed.

(** ** Two valid chains with the same newest hash *)

Section tamper.
Variable sha256_hex : string → string.
Variable unb64 : string → option string.
Variable dsa_verify : string → string → string → option bool.
Hypothesis digests : ∀ x, digest (sha256_hex x).

#[local] Abbreviation checked := (check_links sha256_hex unb64 dsa_verify).

(** The forms an event's time may have been hashed in. *)
Definition time_forms (tz : option (Z → Z)) (t : Z) : list string :=
  chain_timestamp t :: legacy_chain_timestamps t tz.

(** The texts a check of [ls] may hash. *)
Fixpoint hashed_texts (tz : option (Z → Z)) (logs : gmap string AuditLog) (h : string)
    (ls : list (Z * AuditChainLink)) : list string :=
  match ls with
  | [] => []
  | (_, l) :: ls =>
      match logs !! cl_audit_log_id l with
      | Some e => map (λ ts, chain_text (cl_audit_log_id l) ts (log_payload e) h)
                    (time_forms tz (al_created_at e))
      | None => []
      end ++ hashed_texts tz logs (cl_entry_hash l) ls
  end.

(** What a link records: its event's id, instant and content. *)
Definition recorded (logs : gmap string AuditLog) (sl : Z * AuditChainLink)
    : string * option (Z * string) :=
  (cl_audit_log_id sl.2,
   (λ e, (al_created_at e, dumps_compact (log_payload e))) <$> logs !! cl_audit_log_id sl.2).

Definition history (d : AuditDB) : list (string * option (Z * string)) :=
  map (recorded (adb_logs d)) (links_after 0 d).

(** Every link's event is there and hashes, in one of the forms, to its link. *)
Fixpoint verified (tz : option (Z → Z)) (logs : gmap string AuditLog) (h : string)
    (ls : list (Z * AuditChainLink)) : Prop :=
  match ls with
  | [] => True
  | (_, l) :: ls =>
      (∃ e ts, logs !! cl_audit_log_id l = Some e ∧ ts ∈ time_forms tz (al_created_at e) ∧
         cl_entry_hash l = sha256_hex (chain_text (cl_audit_log_id l) ts (log_payload e) h)) ∧
      verified tz logs (cl_entry_hash l) ls
  end.

Lemma link_passes keys pk tz l event h :
  link_failure sha256_hex unb64 dsa_verify keys pk tz l event h = Ret None →
  ∃ e ts, event = Some e ∧ ts ∈ time_forms tz (al_created_at e) ∧
    cl_entry_hash l = sha256_hex (chain_text (cl_audit_log_id l) ts (log_payload e) h).
Proof.
  unfold link_failure. destruct event as [e|]; [|done]. case_bool_decide as Eh; [done|].
  destruct (match cl_signing_key_id l ≫= _ with Some EmptyString | None => pk | Some p => Some p end);
    [|done].
  destruct (_ && _) eqn:E; [done|]. intros _. exists e.
  apply andb_false_iff in E as [E|E].
  - apply bool_decide_eq_false, dec_stable in E. exists (chain_timestamp (al_created_at e)).
    split_and!; [done|by left|done].
  - apply negb_false_iff, existsb_exists in E as (ts & Hin & E). apply bool_decide_eq_true in E.
    exists ts. split_and!; [done|right; by apply list_elem_of_In|done].
Qed.

Lemma checked_verified keys pk tz logs h newest ls n :
  checked keys pk tz logs h newest ls = Ret (None, n) →
  verified tz logs h ls ∧
  n = match last ls with Some (s, l) => Some (s, cl_entry_hash l) | None => newest end.
Proof.
  revert h newest. induction ls as [|[s l] ls IH]; intros h newest; cbn [check_links].
  { by intros [= <-]. }
  intros ([r|] & Hr & E)%obind_Ret; [done|]. apply link_passes in Hr as (e & ts & He & Hts & Hh).
  destruct (IH _ _ E) as [Hv ->]. split.
  - cbn [verified]. split; [by exists e, ts|done].
  - rewrite last_cons. by destruct (last ls) as [[]|].
Qed.

Lemma verified_snoc tz logs h ls s l :
  verified tz logs h (ls ++ [(s, l)]) ↔
  verified tz logs h ls ∧
  ∃ e ts, logs !! cl_audit_log_id l = Some e ∧ ts ∈ time_forms tz (al_created_at e) ∧
    cl_entry_hash l = sha256_hex (chain_text (cl_audit_log_id l) ts (log_payload e) (end_of 0 h ls).2).
Proof.
  assert (∀ m n h ls, (end_of m h ls).2 = (end_of n h ls).2) as Hend.
  { intros m n h' ls'. unfold end_of. by destruct (last ls') as [[]|]. }
  revert h. induction ls as [|[s' l'] ls IH]; intros h; cbn [app verified]; [cbn; tauto|].
  rewrite IH, end_of_cons, (Hend s' 0). tauto.
Qed.

Lemma hashed_snoc tz logs h ls s l e ts :
  logs !! cl_audit_log_id l = Some e → ts ∈ time_forms tz (al_created_at e) →
  chain_text (cl_audit_log_id l) ts (log_payload e) (end_of 0 h ls).2
    ∈ hashed_texts tz logs h (ls ++ [(s, l)]).
Proof.
  assert (∀ m n h ls, (end_of m h ls).2 = (end_of n h ls).2) as Hend.
  { intros m n h' ls'. unfold end_of. by destruct (last ls') as [[]|]. }
  intros He Hts. revert h. induction ls as [|[s' l'] ls IH]; intros h; cbn [app hashed_texts].
  - rewrite He, elem_of_app. left. apply (list_elem_of_fmap (λ ts, chain_text (cl_audit_log_id l) ts (log_payload e) h)).
    by exists ts.
  - rewrite elem_of_app. right. rewrite end_of_cons, (Hend s' 0). apply IH.
Qed.

Lemma hashed_prefix tz logs h ls ls' x :
  x ∈ hashed_texts tz logs h ls → x ∈ hashed_texts tz logs h (ls ++ ls').
Proof.
  revert h. induction ls as [|[s l] ls IH]; intros h; cbn [app hashed_texts]; [by intros ?%not_elem_of_nil|].
  rewrite !elem_of_app. intros [?|?]; [by left|right; by apply IH].
Qed.

(** The instants and zones in question stay within [datetime]'s years. *)
Definition zone_ok (tz : option (Z → Z)) (t : Z) : Prop :=
  representable t ∧
  match tz with Some tz => -86400 < tz t < 86400 ∧ representable (t + tz t * 1000000) | None => True end.

Lemma time_forms_name_instant tz tz' t u ts :
  zone_ok tz t → zone_ok tz' u → ts ∈ time_forms tz t → ts ∈ time_forms tz' u → t = u.
Proof.
  intros [Ht Htz] [Hu Huz].
  assert (∀ tz v x, zone_ok tz v → x ∈ time_forms tz v →
            (x = iso_naive v ∧ representable v) ∨
            ∃ off, -86400 < off < 86400 ∧ representable (v + off * 1000000) ∧ x = iso_aware off v) as Hform.
  { intros z v x [Hv Hz] [->|[->|Hx]%elem_of_cons]%elem_of_cons.
    - right. exists 0. rewrite Z.mul_0_l, Z.add_0_r. split_and!; [lia|lia|done|done].
    - by left.
    - destruct z as [z|]; [|by apply not_elem_of_nil in Hx]. apply list_elem_of_singleton in Hx as ->.
      right. exists (z v). naive_solver. }
  intros [[-> H1]|(a & Ha & Hra & ->)]%Hform [[E H2]|(b & Hb & Hrb & E)]%Hform; try done.
  - by apply iso_naive_inj.
  - exfalso. by apply (iso_naive_aware b t u).
  - exfalso. by apply (iso_naive_aware a u t).
  - by eapply (iso_aware_inj a b).
Qed.

(** The ids are text and the times are dates. *)
Definition rows_ok (tz : option (Z → Z)) (logs : gmap string AuditLog) : Prop :=
  ∀ id e, logs !! id = Some e → valid_text id = true ∧ zone_ok tz (al_created_at e).

Lemma plain_time_forms tz t ts : ts ∈ time_forms tz t → plain ts = true.
Proof.
  intros [->|[->|Hx]%elem_of_cons]%elem_of_cons; [apply plain_iso_aware|apply plain_iso_naive|].
  destruct tz; [|by apply not_elem_of_nil in Hx]. apply list_elem_of_singleton in Hx as ->. apply plain_iso_aware.
Qed.

Lemma end_digest tz logs ls : verified tz logs GENESIS ls → digest (end_of 0 GENESIS ls).2.
Proof.
  destruct ls as [|[s l] ls] using rev_ind; [by intros _|].
  rewrite verified_snoc. intros (_ & e & ts & _ & _ & E). unfold end_of. rewrite last_snoc. cbn.
  rewrite E. apply digests.
Qed.

Lemma same_end_same_records tz tz' logs logs' ls ls' :
  rows_ok tz logs → rows_ok tz' logs' →
  let texts := hashed_texts tz logs GENESIS ls ++ hashed_texts tz' logs' GENESIS ls' in
  (∀ x y, x ∈ texts → y ∈ texts → sha256_hex x = sha256_hex y → x = y) →
  (∀ x, x ∈ texts → sha256_hex x ≠ GENESIS) →
  verified tz logs GENESIS ls → verified tz' logs' GENESIS ls' →
  (end_of 0 GENESIS ls).2 = (end_of 0 GENESIS ls').2 →
  map (recorded logs) ls = map (recorded logs') ls'.
Proof.
  intros Hok Hok'. revert ls'. induction ls as [|[s l] ls IH] using rev_ind;
    intros ls' texts Hinj Hgen Hv Hv' Hend;
    (destruct ls' as [|[s' l'] ls' _] using rev_ind; [|apply verified_snoc in Hv' as (Hv' & e' & ts' & He' & Hts' & Eh');
       pose proof (hashed_snoc tz' logs' GENESIS ls' s' l' e' ts' He' Hts') as Hin']).
  - done.
  - exfalso. revert Hend. unfold end_of. rewrite last_snoc. cbn. rewrite Eh'.
    intros E. by apply (Hgen _ (proj2 (elem_of_app _ _ _) (or_intror Hin'))).
  - exfalso. apply verified_snoc in Hv as (_ & e & ts & He & Hts & Eh).
    pose proof (hashed_snoc tz logs GENESIS ls s l e ts He Hts) as Hin.
    revert Hend. unfold end_of. rewrite last_snoc. cbn. rewrite Eh.
    by apply (Hgen _ (proj2 (elem_of_app _ _ _) (or_introl Hin))).
  - apply verified_snoc in Hv as (Hv & e & ts & He & Hts & Eh).
    pose proof (hashed_snoc tz logs GENESIS ls s l e ts He Hts) as Hin.
    unfold end_of in Hend at 1 2. rewrite !last_snoc in Hend. cbn [snd] in Hend. rewrite Eh, Eh' in Hend.
    apply Hinj in Hend; [|apply elem_of_app; auto..].
    apply chain_text_inj in Hend as (Hid & Ets & Hp & Hprev);
      [|eapply Hok, He|eapply Hok', He'|by eapply plain_time_forms..|by eapply end_digest|by eapply end_digest].
    subst ts'. rewrite !map_app. f_equal.
    + apply (IH ls'); try done.
      * intros x y Hx Hy. apply Hinj; apply elem_of_app; [apply elem_of_app in Hx as []|apply elem_of_app in Hy as []];
          auto using hashed_prefix.
      * intros x Hx. apply Hgen, elem_of_app. apply elem_of_app in Hx as []; auto using hashed_prefix.
    + cbn. unfold recorded. cbn [snd]. rewrite He, He', <-Hid. cbn [fmap option_fmap option_map].
      rewrite Hp. do 4 f_equal.
      eapply (time_forms_name_instant tz tz'); [eapply Hok, He|eapply Hok', He'|done|done].
Qed.

(** C6: the audit chain is tamper evident. Two states of the tables whose
    chains a full check accepts, with any keys, and whose newest links carry
    the same hash, record the same events, in the same order and at the same
    instants: no event can be altered, inserted, removed or reordered behind a
    hash that is known from elsewhere, even by renaming an instant in one of
    the accepted legacy timestamp forms. The texts the two checks hash are
    assumed free of SHA-256 collisions and of a preimage of the genesis value. *)
Theorem chain_tamper_evident pk pk' tz tz' d d' status status' n n' h :
  rows_ok tz (adb_logs d) → rows_ok tz' (adb_logs d') →
  let texts := hashed_texts tz (adb_logs d) GENESIS (links_after 0 d) ++
               hashed_texts tz' (adb_logs d') GENESIS (links_after 0 d') in
  (∀ x y, x ∈ texts → y ∈ texts → sha256_hex x = sha256_hex y → x = y) →
  (∀ x, x ∈ texts → sha256_hex x ≠ GENESIS) →
  check_chain sha256_hex unb64 dsa_verify pk tz true None d = Ret (status, Some (n, h)) →
  cs_valid status = true →
  check_chain sha256_hex unb64 dsa_verify pk' tz' true None d' = Ret (status', Some (n', h)) →
  cs_valid status' = true →
  history d = history d'.
Proof.
  intros Hok Hok' texts Hinj Hgen Hc Hs Hc' Hs'.
  assert (∀ pk tz d status n,
            check_chain sha256_hex unb64 dsa_verify pk tz true None d = Ret (status, Some (n, h)) →
            cs_valid status = true →
            verified tz (adb_logs d) GENESIS (links_after 0 d) ∧ (end_of 0 GENESIS (links_after 0 d)).2 = h)
    as Hchecked.
  { clear. intros pk tz d status n Hc Hs. unfold check_chain in Hc. cbn [check_from] in Hc.
    apply obind_Ret in Hc as (keys & _ & Hc). apply obind_Ret in Hc as ([failure newest] & Hl & Hc).
    injection Hc as <- ->. apply bool_decide_eq_true in Hs. subst failure.
    apply checked_verified in Hl as [Hv Hn]. split; [done|]. unfold end_of.
    destruct (last _) as [[s l]|]; [by injection Hn as _ ->|done]. }
  destruct (Hchecked _ _ _ _ _ Hc Hs) as [Hv He]. destruct (Hchecked _ _ _ _ _ Hc' Hs') as [Hv' He'].
  eapply same_end_same_records; try done. congruence.
Qed.
End tamper.

(** ** Checking only the newest links *)

Section incremental.
Variable sha256_hex : string → string.
Variable unb64 : string → option string.
Variable dsa_verify : string → string → string → option bool.

#[local] Abbreviation checked := (check_links sha256_hex unb64 dsa_verify).

Lemma checked_app keys pk tz logs h newest ls ls' h' n :
  checked keys pk tz logs h newest ls = Ret (None, Some (n, h')) → ls ≠ [] →
  checked keys pk tz logs h newest (ls ++ ls') = checked keys pk tz logs h' (Some (n, h')) ls'.
Proof.
  revert h newest. induction ls as [|[s l] ls IH]; intros h newest; [done|]. cbn [check_links app].
  intros Hc _. apply obind_Ret in Hc as ([r|] & Hr & Hc); [done|]. rewrite Hr. cbn [obind].
  destruct ls as [|x ls]; [|by apply IH]. cbn [check_links] in Hc. injection Hc as <- <-. done.
Qed.

(** The newest verified link is remembered whatever it was before. *)
Lemma checked_newest keys pk tz logs h newest newest' ls :
  match checked keys pk tz logs h newest ls, checked keys pk tz logs h newest' ls with
  | Ret (f, n), Ret (f', n') => f = f' ∧ ((n = newest ∧ n' = newest') ∨ (n = n' ∧ is_Some n))
  | Raise e, Raise e' => e = e'
  | _, _ => False
  end.
Proof.
  revert h newest newest'. induction ls as [|[s l] ls IH]; intros h newest newest'; cbn [check_links].
  { split; [done|by left]. }
  destruct (link_failure _ _ _ _ _ _ _ _ _) as [[r|]|e]; cbn [obind]; [split; [done|by left]| |done].
  specialize (IH (cl_entry_hash l) (Some (s, cl_entry_hash l)) (Some (s, cl_entry_hash l))).
  destruct (checked _ _ _ _ _ _ ls) as [[f n]|e]; [|done]. split; [done|].
  destruct IH as [_ [[-> _]|[_ Hn]]]; right; eauto.
Qed.

Lemma sorted_split n (ls : list (Z * AuditChainLink)) :
  Sorted sequence_le ls → ls = filter (λ l, l.1 ≤ n) ls ++ filter (λ l, n < l.1) ls.
Proof.
  intros Hs%Sorted_StronglySorted; [|apply _].
  induction Hs as [|x ls Hs IH Hx]; [done|]. destruct (decide (x.1 ≤ n)) as [Hle|Hgt].
  - rewrite filter_cons_True by done. rewrite (filter_cons_False _ x) by (cbn; lia). cbn. by f_equal.
  - rewrite filter_cons_False by done. rewrite (filter_cons_True _ x) by (cbn; lia).
    assert (filter (λ l : Z * AuditChainLink, l.1 ≤ n) ls = []) as ->.
    { clear IH. induction Hx as [|y ls' Hy Hx' IH]; [done|]. inversion_clear Hs. unfold sequence_le in Hy.
      rewrite filter_cons_False by (cbn; lia). auto. }
    rewrite Forall_forall in Hx. cbn. f_equal. symmetry. apply filter_all. intros y Hy%Hx. unfold sequence_le in Hy. lia.
Qed.

(** Checking from the newest verified link is enough while the links
    behind it are intact. If the links up to the remembered head still verify
    and end in the hash it was remembered with, an incremental check and a
    full check of the same tables agree: on whether the chain is valid, on the
    first link that fails and why, on an exception, and on the newest link
    verified. *)
Theorem incremental_check_agrees pk tz d n h :
  0 < n →
  (∀ keys, decode_keys unb64 (adb_keys d) = Ret keys →
     checked keys pk tz (adb_logs d) GENESIS None (filter (λ l, l.1 ≤ n) (links_after 0 d)) =
       Ret (None, Some (n, h))) →
  match check_chain sha256_hex unb64 dsa_verify pk tz true (Some (n, h)) d,
        check_chain sha256_hex unb64 dsa_verify pk tz false (Some (n, h)) d with
  | Ret (full, newest), Ret (incremental, newest') =>
      cs_valid full = cs_valid incremental ∧
      cs_first_invalid_sequence full = cs_first_invalid_sequence incremental ∧
      cs_reason full = cs_reason incremental ∧
      newest = match newest' with Some x => Some x | None => Some (n, h) end ∧
      cs_mode incremental = "incremental" ∧ cs_verified_from_sequence incremental = n + 1
  | Raise e, Raise e' => e = e'
  | _, _ => False
  end.
Proof.
  intros Hn Hprefix. unfold check_chain. cbn [check_from].
  destruct (decode_keys unb64 (adb_keys d)) as [keys|e] eqn:Ek.
  2: { by destruct (bool_decide _). }
  specialize (Hprefix keys eq_refl). cbn [obind].
  set (old := filter (λ l : Z * AuditChainLink, l.1 ≤ n) (links_after 0 d)) in *.
  assert (links_after 0 d = old ++ links_after n d) as ->.
  { unfold old, links_after. rewrite (sorted_split n (chain d) (Sorted_chain d)) at 1.
    rewrite filter_app. rewrite !list_filter_filter. f_equal; apply list_filter_iff; intros x; lia. }
  assert (old ≠ []) as Hold by (intros E; by rewrite E in Hprefix).
  rewrite (checked_app _ _ _ _ _ _ _ _ _ _ Hprefix Hold).
  assert (cl_entry_hash <$> adb_links d !! n = Some h) as Hhead.
  { pose proof Hprefix as Hl. apply checked_verified in Hl as [_ Hl].
    destruct (last old) as [[s l]|] eqn:El; [|done]. injection Hl as -> ->.
    apply last_Some_elem_of in El. unfold old in El. apply list_elem_of_filter in El as [_ El].
    apply list_elem_of_filter in El as [_ El]. apply elem_of_chain in El. by rewrite El. }
  rewrite (bool_decide_eq_true_2 _ Hhead). cbv iota beta.
  pose proof (checked_newest keys pk tz (adb_logs d) h (Some (n, h)) None (links_after n d)) as Hnew.
  destruct (checked keys pk tz (adb_logs d) h (Some (n, h)) _) as [[f m]|e],
    (checked keys pk tz (adb_logs d) h None _) as [[f' m']|e']; cbn [obind]; try done.
  destruct Hnew as [<- Hm]. cbn. destruct (Z.eqb_spec n 0); [lia|].
  split_and!; try done. destruct Hm as [[-> ->]|[-> [x ->]]]; done.
Qed.
End incremental.

(** ** A chain written by one process, and the same chain renumbered *)

Fixpoint number_of (s : string) (acc : Z) : Z :=
  match s with
  | EmptyString => acc
  | String c s => number_of s (Z.land (acc * 257 + byte_val c + 1) (Z.ones 64))
  end.
(** A digest of the right shape, for evaluating samples. *)
Definition sample_hash (s : string) : string := pad 64 (number_of s 1).

Lemma sample_hash_digest s : digest (sample_hash s).
Proof. split; [apply plain_pad|apply pad_length]. Qed.

Definition written : AuditDB :=
  sys_db (foldl (run_audit sample_hash id toy_sign)
            (mkAuditSystem (mkAuditDB ∅ ∅ ∅ {["u1"]}) (λ _, new_identity sample_hash None 0))
            [WriteEvents 0 (mkFresh "key0" "key0" "k0" 1) "row0" no_faults [login "e1"; login "e2"]]).
Definition renumbered : AuditDB :=
  written <| adb_links := map_fold (λ s l m, <[7 * s := l]> m) ∅ (adb_links written) |>.

Lemma set_links_logs d links : adb_logs (d <| adb_links := links |>) = adb_logs d.
Proof. reflexivity. Qed.
Lemma renumbered_logs : adb_logs renumbered = adb_logs written.
Proof. apply set_links_logs. Qed.

Definition sample_texts : list string :=
  hashed_texts None (adb_logs written) GENESIS (links_after 0 written) ++
  hashed_texts None (adb_logs renumbered) GENESIS (links_after 0 renumbered).

Lemma sample_texts_differ :
  forallb (λ x, forallb (λ y, negb (String.eqb (sample_hash x) (sample_hash y)) || String.eqb x y) sample_texts
                && negb (String.eqb (sample_hash x) GENESIS)) sample_texts = true.
Proof. vm_compute. reflexivity. Qed.

Definition newest_of (r : outcome AuditError (ChainStatus * option (Z * string))) : Z * string :=
  match r with Ret (_, Some n) => n | _ => (0, "") end.
Definition status_of (r : outcome AuditError (ChainStatus * option (Z * string))) : ChainStatus :=
  match r with Ret (s, _) => s | Raise _ => mkChainStatus false 0 0 None None "" 0 None end.

Lemma chain_tamper_evident_witness :
  adb_links written !! 7 = None ∧ is_Some (adb_links renumbered !! 7) ∧ history written = history renumbered.
Proof.
  split_and!; [vm_compute; reflexivity|vm_compute; by eexists|].
  set (full d := check_chain sample_hash Some toy_verify None None true None d).
  assert (rows_ok None (adb_logs written)) as Hok.
  { assert (∀ id e, adb_logs written !! id = Some e → (id = "e1" ∨ id = "e2") ∧ representable (al_created_at e)) as H.
    { intros id e He. apply elem_of_map_to_list in He.
      assert (map_to_list (adb_logs written) = rev (rev (map_to_list (adb_logs written)))) as E by by rewrite rev_involutive.
      vm_compute in E, He. clear E.
      repeat (apply elem_of_cons in He as [He|He]; [injection He as -> ->; split; [auto|split; vm_compute; congruence]|]).
      by apply not_elem_of_nil in He. }
    intros id e He. destruct (H id e He) as [Hid Ht]. split; [by destruct Hid as [->| ->]|by split]. }
  pose proof sample_texts_differ as Hd. rewrite forallb_forall in Hd.
  eapply (chain_tamper_evident sample_hash Some toy_verify sample_hash_digest None None None None
            written renumbered (status_of (full written)) (status_of (full renumbered))
            (newest_of (full written)).1 (newest_of (full renumbered)).1 (newest_of (full written)).2 Hok
            (eq_ind_r (rows_ok None) Hok renumbered_logs)).
  - clear Hok. intros x y Hx%list_elem_of_In%Hd Hy%list_elem_of_In E. apply andb_prop in Hx as [Hx _].
    rewrite forallb_forall in Hx. specialize (Hx y Hy). apply orb_prop in Hx as [Hx|Hx]; [|by apply String.eqb_eq].
    apply negb_true_iff, String.eqb_neq in Hx. destruct (Hx E).
  - intros x Hx%list_elem_of_In%Hd E. apply andb_prop in Hx as [_ Hx].
    apply negb_true_iff, String.eqb_neq in Hx. destruct (Hx E).
  - vm_compute. reflexivity.
  - vm_compute. reflexivity.
  - vm_compute. reflexivity.
  - vm_compute. reflexivity.
Defined.

Lemma incremental_check_agrees_witness :
  match check_chain sample_hash Some toy_verify None None true (Some (newest_of (check_chain sample_hash Some toy_verify None None true None written))) written,
        check_chain sample_hash Some toy_verify None None false (Some (newest_of (check_chain sample_hash Some toy_verify None None true None written))) written with
  | Ret (full, _), Ret (incremental, _) => cs_valid full = cs_valid incremental
  | _, _ => False
  end.
Proof.
  pose proof (incremental_check_agrees sample_hash Some toy_verify None None written
    (newest_of (check_chain sample_hash Some toy_verify None None true None written)).1
    (newest_of (check_chain sample_hash Some toy_verify None None true None written)).2) as H.
  rewrite <-surjective_pairing in H.
  destruct (check_chain _ _ _ _ _ true (Some _) _) as [[f n]|e] eqn:E1;
    [|vm_compute in E1; discriminate E1].
  destruct (check_chain _ _ _ _ _ false (Some _) _) as [[f' n']|e] eqn:E2;
    [|vm_compute in E2; discriminate E2].
  apply H; [vm_compute; reflexivity|]. intros keys Hk. vm_compute in Hk. injection Hk as <-.
  vm_compute. reflexivity.
Defined.
