(* ===== verification/AuditAppender.v ===== *)
(** The group commit of audit appends (backend/services/security_service.py,
    [_AuditAppender.append]) as a step relation over the threads of one
    process: a thread queues its append, and then waits, leads a batch, or
    returns, each turn of the loop one critical section of the condition. It
    always ends: whatever the interleaving, every caller gets its answer. *)

From S2P Require Import Prelude Models AuditTrail.
From stdpp Require Import relations.
#[local] Open Scope Z_scope.

Definition AUDIT_BATCH_MAX : nat := 8.

(** Where a thread is. [Interrupted] is a thread that an exception other than
    a failed write took out of [append]. *)
Inductive thread := Arriving | Ready | Sleeping | Leading | Answered | Interrupted.
#[global] Instance thread_eq_dec : EqDecision thread.
Proof. solve_decision. Defined.

(** A thread's append is known by its thread. [ap_writing] is the leader, its
    batch, and whether [_write_chain_batch] has returned; [ap_outcomes] holds
    the appends that are [done], with the error of each; [ap_batches] are the
    batches taken so far, oldest first. *)
Record Appender := mkAppender {
  ap_threads : gmap nat thread;
  ap_queue : list nat;
  ap_writing : option (nat * list nat * bool);
  ap_outcomes : gmap nat (outcome AuditError unit);
  ap_batches : list (list nat)
}.
#[global] Instance eta_Appender : Eta Appender := λ s,
  mkAppender (ap_threads s) (ap_queue s) (ap_writing s) (ap_outcomes s) (ap_batches s).

Definition set_thread (t : nat) (x : thread) (s : Appender) : Appender :=
  s <| ap_threads ::= <[t := x]> |>.

(** [notify_all] *)
Definition wake (x : thread) : thread := match x with Sleeping => Ready | x => x end.

Definition answer (batch : list nat) (answers : list (outcome AuditError unit)) (s : Appender) : Appender :=
  s <| ap_outcomes ::= λ m, list_to_map (zip batch answers) ∪ m |>.

(** The [finally]: appends of the batch that are not done get an error, the
    next batch may start, and the waiting threads wake. *)
Definition interrupted_error : outcome AuditError unit := Raise (DatabaseError "audit write interrupted").
Definition release_batch (batch : list nat) (s : Appender) : Appender :=
  s <| ap_outcomes ::= (λ m, m ∪ list_to_map (map (λ t, (t, interrupted_error)) batch)) |>
    <| ap_writing := None |> <| ap_threads ::= fmap wake |>.

Inductive append_step : Appender → Appender → Prop :=
| step_arrive t s :
    ap_threads s !! t = Some Arriving →
    append_step s (set_thread t Ready (s <| ap_queue ::= (λ q, q ++ [t]) |>))
| step_sleep t s :
    ap_threads s !! t = Some Ready → is_Some (ap_writing s) → ap_outcomes s !! t = None →
    append_step s (set_thread t Sleeping s)
| step_return t s :
    ap_threads s !! t = Some Ready → is_Some (ap_outcomes s !! t) →
    append_step s (set_thread t Answered s)
| step_lead t s batch :
    ap_threads s !! t = Some Ready → ap_outcomes s !! t = None → ap_writing s = None →
    batch = take AUDIT_BATCH_MAX (ap_queue s) →
    append_step s (set_thread t Leading (s <| ap_queue ::= drop AUDIT_BATCH_MAX |>
                     <| ap_writing := Some (t, batch, false) |>
                     <| ap_batches ::= (λ bs, bs ++ [batch]) |>))
| step_write t s batch answers :
    ap_writing s = Some (t, batch, false) → length answers = length batch →
    append_step s (answer batch answers s <| ap_writing := Some (t, batch, true) |>)
| step_release t s batch :
    ap_writing s = Some (t, batch, true) →
    append_step s (set_thread t Ready (release_batch batch s))
| step_interrupt t s batch some_answers :
    ap_writing s = Some (t, batch, false) →
    append_step s (set_thread t Interrupted (release_batch batch (answer batch some_answers s))).

(** Each caller is about to append. *)
Definition all_arriving (callers : gset nat) : Appender :=
  mkAppender (set_to_map (λ t, (t, Arriving)) callers) [] None ∅ [].

(** [_write_chain_batch] answers every append of its batch. *)
Lemma write_batch_answers sha256_hex b64 dsa_sign f moments batch i d :
  length (write_chain_batch sha256_hex b64 dsa_sign f moments batch i d).2 = length batch.
Proof.
  assert (∀ batch i d, length (write_singles sha256_hex b64 dsa_sign f moments batch i d).2 = length batch)
    as Hs.
  { clear. induction batch as [|p batch IH]; intros i d; [done|]. cbn [write_singles].
    destruct (moments _) as [clock fault]. destruct (insert_chain_links _ _ _ _ _ _ _ _ _) as [[i1 d1] r].
    specialize (IH i1 d1). destruct (write_singles _ _ _ _ _ _ _ _) as [[i2 d2] rs]. cbn in *. lia. }
  unfold write_chain_batch. destruct (moments _) as [clock fault].
  destruct (insert_chain_links _ _ _ _ _ _ _ _ _) as [[i1 d1] [x|e]]; [cbn; by rewrite length_map|].
  destruct batch as [|p [|q batch]]; [done|done|apply Hs].
Qed.

(** ** The invariant *)

Record appender_ok (s : Appender) : Prop := {
  ao_arriving : ∀ t, ap_threads s !! t = Some Arriving →
                  (t ∉ ap_queue s) ∧ (t ∉ concat (ap_batches s));
  ao_known : ∀ t, t ∈ ap_queue s → is_Some (ap_threads s !! t);
  ao_nodup : NoDup (concat (ap_batches s) ++ ap_queue s);
  ao_pending : ∀ t x, ap_threads s !! t = Some x → x = Ready ∨ x = Sleeping ∨ x = Leading →
                 ap_outcomes s !! t = None →
                 t ∈ ap_queue s ∨ ∃ l b, ap_writing s = Some (l, b, false) ∧ (t ∈ b);
  ao_answered : ∀ t, ap_threads s !! t = Some Answered → is_Some (ap_outcomes s !! t);
  ao_wrote : ∀ l b t, ap_writing s = Some (l, b, true) → t ∈ b → is_Some (ap_outcomes s !! t);
  ao_sleeping : ∀ t, ap_threads s !! t = Some Sleeping → is_Some (ap_writing s);
  ao_leader : ∀ l b w, ap_writing s = Some (l, b, w) → ap_threads s !! l = Some Leading;
  ao_leading : ∀ l, ap_threads s !! l = Some Leading → ∃ b w, ap_writing s = Some (l, b, w);
  ao_short : Forall (λ b, (length b ≤ AUDIT_BATCH_MAX)%nat) (ap_batches s)
}.

Lemma all_arriving_ok callers : appender_ok (all_arriving callers).
Proof.
  assert (∀ t x, ap_threads (all_arriving callers) !! t = Some x → x = Arriving) as Hx.
  { intros t x. cbn. rewrite lookup_set_to_map by done. by intros (y & _ & [= _ <-]). }
  split; try done; try (intros t Ht; apply Hx in Ht; discriminate Ht).
  - intros t _. split; by intros []%not_elem_of_nil.
  - by intros t []%not_elem_of_nil.
  - constructor.
  - intros t x Ht [->|[->| ->]]; apply Hx in Ht; discriminate Ht.
Qed.

Lemma answered_by batch answers (m : gmap nat (outcome AuditError unit)) t :
  is_Some (m !! t) → is_Some ((list_to_map (zip batch answers) ∪ m : gmap nat (outcome AuditError unit)) !! t).
Proof. intros [r Hr]. rewrite lookup_union. rewrite Hr. destruct (list_to_map _ !! t); by eexists. Qed.

Lemma answered_batch batch (answers : list (outcome AuditError unit)) t :
  length answers = length batch → t ∈ batch →
  is_Some ((list_to_map (zip batch answers) : gmap nat (outcome AuditError unit)) !! t).
Proof.
  revert answers. induction batch as [|u batch IH]; intros [|r rs] Hl Ht; try done.
  - by apply not_elem_of_nil in Ht.
  - cbn. destruct (decide (t = u)) as [->|Hne]; [rewrite lookup_insert_eq; by eexists|].
    rewrite lookup_insert_ne by done. apply IH; [by injection Hl|]. by apply elem_of_cons in Ht as [->|].
Qed.

Lemma arrive_ok t s :
  ap_threads s !! t = Some Arriving → appender_ok s →
  appender_ok (set_thread t Ready (s <| ap_queue ::= (λ q, q ++ [t]) |>)).
Proof.
  intros Ht [Harr Hknown Hnd Hpend Hans Hwr Hsl Hld Hlg Hshort]. destruct (Harr t Ht) as [Hq Hb].
  split; cbn.
  - intros u [[<- [=]]|[Hne Hu]]%lookup_insert_Some. destruct (Harr u Hu). set_solver.
  - intros u Hu. apply lookup_insert_is_Some. destruct (decide (t = u)); [by left|right; split; [done|]].
    apply elem_of_app in Hu as [Hu|Hu]; [by apply Hknown|set_solver].
  - rewrite app_assoc. apply NoDup_app. split; [done|]. split; [|apply NoDup_singleton].
    intros u Hu ->%list_elem_of_singleton. set_solver.
  - intros u x [[<- <-]|[Hne Hu]]%lookup_insert_Some Hx Ho; [left; set_solver|].
    destruct (Hpend u x Hu Hx Ho) as [?|?]; [left; set_solver|by right].
  - intros u [[<- [=]]|[Hne Hu]]%lookup_insert_Some. by apply Hans.
  - done.
  - intros u [[<- [=]]|[Hne Hu]]%lookup_insert_Some. by apply (Hsl u).
  - intros l b w Hw. rewrite lookup_insert_ne; [by eapply Hld|]. intros <-. specialize (Hld _ _ _ Hw). congruence.
  - intros l [[<- [=]]|[Hne Hu]]%lookup_insert_Some. by apply Hlg.
  - done.
Qed.

(** A ready thread that goes to sleep or returns. *)
Lemma leave_ok t x s :
  ap_threads s !! t = Some Ready → appender_ok s →
  (x = Sleeping ∧ is_Some (ap_writing s) ∨ x = Answered ∧ is_Some (ap_outcomes s !! t)) →
  appender_ok (set_thread t x s).
Proof.
  intros Ht [Harr Hknown Hnd Hpend Hans Hwr Hsl Hld Hlg Hshort] Hx. split; cbn; try done.
  - intros u [[<- E]|[Hne Hu]]%lookup_insert_Some; [|by apply Harr]. by destruct Hx as [[-> _]|[-> _]].
  - intros u Hu. apply lookup_insert_is_Some. destruct (decide (t = u)); [by left|right; split; [done|by apply Hknown]].
  - intros u y [[<- <-]|[Hne Hu]]%lookup_insert_Some Hy Ho; [|by apply (Hpend u y)].
    apply (Hpend t Ready); auto.
  - intros u [[<- E]|[Hne Hu]]%lookup_insert_Some; [|by apply Hans]. by destruct Hx as [[-> _]|[-> ?]].
  - intros u [[<- E]|[Hne Hu]]%lookup_insert_Some; [|by apply (Hsl u)]. by destruct Hx as [[-> ?]|[-> _]].
  - intros l b w Hw. rewrite lookup_insert_ne; [by eapply Hld|]. intros <-. specialize (Hld _ _ _ Hw). congruence.
  - intros l [[<- E]|[Hne Hu]]%lookup_insert_Some; [|by apply Hlg]. by destruct Hx as [[-> _]|[-> _]].
Qed.

Lemma lead_ok t s batch :
  ap_threads s !! t = Some Ready → ap_writing s = None →
  batch = take AUDIT_BATCH_MAX (ap_queue s) → appender_ok s →
  appender_ok (set_thread t Leading (s <| ap_queue ::= drop AUDIT_BATCH_MAX |>
                 <| ap_writing := Some (t, batch, false) |> <| ap_batches ::= (λ bs, bs ++ [batch]) |>)).
Proof.
  intros Ht Hw Hb [Harr Hknown Hnd Hpend Hans Hwr Hsl Hld Hlg Hshort].
  assert (ap_queue s = batch ++ drop AUDIT_BATCH_MAX (ap_queue s)) as Hq by (subst batch; by rewrite take_drop).
  assert (∀ u, u ∈ batch ∨ u ∈ drop AUDIT_BATCH_MAX (ap_queue s) ↔ u ∈ ap_queue s) as Hin.
  { intros u. rewrite <-elem_of_app. by rewrite <-Hq. }
  split; cbn -[drop].
  - intros u [[<- [=]]|[Hne Hu]]%lookup_insert_Some. destruct (Harr u Hu) as [Hu1 Hu2].
    rewrite concat_app. cbn. rewrite app_nil_r, elem_of_app. pose proof (Hin u). tauto.
  - intros u Hu. apply lookup_insert_is_Some. destruct (decide (t = u)); [by left|right; split; [done|]].
    apply Hknown, Hin. by right.
  - rewrite concat_app. cbn [concat]. rewrite app_nil_r, <-app_assoc. by rewrite <-Hq.
  - intros u x [[<- <-]|[Hne Hu]]%lookup_insert_Some Hx Ho.
    + destruct (Hpend t Ready Ht ltac:(auto) Ho) as [Hu|(l & b & Hl & _)]; [|congruence].
      apply Hin in Hu as [Hu|Hu]; [right; by exists t, batch|by left].
    + destruct (Hpend u x Hu Hx Ho) as [Hq'|(l & b & Hl & _)]; [|congruence].
      apply Hin in Hq' as [?|?]; [right; by exists t, batch|by left].
  - intros u [[<- [=]]|[Hne Hu]]%lookup_insert_Some. by apply Hans.
  - done.
  - intros u _. by eexists.
  - intros l b w E. injection E as <- _ _. apply lookup_insert_eq.
  - intros l [[<- _]|[Hne Hu]]%lookup_insert_Some; [by exists batch, false|].
    destruct (Hlg l Hu) as (? & ? & E). congruence.
  - apply Forall_app. split; [done|]. constructor; [|done]. subst batch. rewrite length_take. lia.
Qed.

Lemma write_ok t s batch answers :
  ap_writing s = Some (t, batch, false) → length answers = length batch → appender_ok s →
  appender_ok (answer batch answers s <| ap_writing := Some (t, batch, true) |>).
Proof.
  intros Hw Hlen [Harr Hknown Hnd Hpend Hans Hwr Hsl Hld Hlg Hshort]. split; cbn; try done.
  - intros u x Hu Hx Ho. apply eq_None_not_Some in Ho.
    destruct (ap_outcomes s !! u) eqn:E; [destruct Ho; apply answered_by; by rewrite E|].
    destruct (Hpend u x Hu Hx E) as [?|(l & b & Hl & Hb)]; [by left|]. exfalso. apply Ho.
    rewrite Hw in Hl. injection Hl as <- <-. destruct (answered_batch batch answers u Hlen Hb) as [r Hr].
    rewrite lookup_union, Hr. destruct (ap_outcomes s !! u); by eexists.
  - intros u Hu. by apply answered_by, Hans.
  - intros l b u [= <- <-] Hu. destruct (answered_batch batch answers u Hlen Hu) as [r Hr].
    rewrite lookup_union, Hr. destruct (ap_outcomes s !! u); by eexists.
  - intros l b w E. injection E as <- _ _. by eapply Hld.
  - intros l Hl. destruct (Hlg l Hl) as (b & w & E). rewrite Hw in E. injection E as <- <- <-. by exists batch, true.
Qed.

Lemma lookup_wake (m : gmap nat thread) t x :
  (wake <$> m) !! t = Some x → ∃ y, m !! t = Some y ∧ x = wake y.
Proof. rewrite lookup_fmap, fmap_Some. done. Qed.

(** The end of a batch, whether it was written or interrupted. *)
Lemma release_batch_ok t s batch w x :
  ap_writing s = Some (t, batch, w) → x = Ready ∨ x = Interrupted → appender_ok s →
  appender_ok (set_thread t x (release_batch batch s)).
Proof.
  intros Hw Hx [Harr Hknown Hnd Hpend Hans Hwr Hsl Hld Hlg Hshort].
  assert (∀ u (m : gmap nat (outcome AuditError unit)), is_Some (m !! u) →
            is_Some ((m ∪ list_to_map (map (λ t, (t, interrupted_error)) batch)) !! u)) as Hkeep.
  { intros u m [r Hr]. exists r. by apply lookup_union_Some_l. }
  assert (∀ u (m : gmap nat (outcome AuditError unit)), u ∈ batch →
            is_Some ((m ∪ list_to_map (map (λ t, (t, interrupted_error)) batch)) !! u)) as Hbatch.
  { intros u m Hu. destruct (m !! u) eqn:E; [apply Hkeep; by rewrite E|].
    rewrite lookup_union, E. clear -Hu. induction batch as [|v batch IH]; [by apply not_elem_of_nil in Hu|].
    cbn. destruct (decide (u = v)) as [->|]; [rewrite lookup_insert_eq; by eexists|].
    rewrite lookup_insert_ne by done. apply IH. by apply elem_of_cons in Hu as [->|]. }
  assert (∀ l, l ≠ t → ap_threads s !! l ≠ Some Leading) as Hone.
  { intros l Hne Hl. destruct (Hlg l Hl) as (b & w' & E). congruence. }
  assert (ap_threads s !! t = Some Leading) as Ht by by eapply Hld.
  split; cbn; try done.
  - intros u [[<- E]|[Hne (y & Hu & E)%lookup_wake]]%lookup_insert_Some; [by destruct Hx as [-> | ->]|].
    destruct y; try discriminate E. by apply Harr.
  - intros u Hu. apply lookup_insert_is_Some. destruct (decide (t = u)); [by left|right; split; [done|]].
    rewrite lookup_fmap, fmap_is_Some. by apply Hknown.
  - intros u y Hu Hy Ho. apply eq_None_not_Some in Ho.
    assert (ap_outcomes s !! u = None) as Ho'.
    { destruct (ap_outcomes s !! u) eqn:E; [|done]. destruct Ho. apply Hkeep. by rewrite E. }
    assert (∃ z, ap_threads s !! u = Some z ∧ (z = Ready ∨ z = Sleeping ∨ z = Leading)) as (z & Hz & Hzs).
    { apply lookup_insert_Some in Hu as [[<- _]|[Hne (z & Hz & ->)%lookup_wake]]; [exists Leading; auto|].
      exists z. split; [done|]. destruct z; destruct Hy as [E|[E|E]]; try discriminate E; auto. }
    left. destruct (Hpend u z Hz Hzs Ho') as [?|(l & b & Hl & Hb)]; [done|].
    rewrite Hw in Hl. injection Hl as <- <- _. destruct Ho. by apply Hbatch.
  - intros u [[<- E]|[Hne (y & Hu & E)%lookup_wake]]%lookup_insert_Some; [by destruct Hx as [-> | ->]|].
    destruct y; try discriminate E. by apply Hkeep, Hans.
  - intros u [[<- E]|[Hne (y & Hu & E)%lookup_wake]]%lookup_insert_Some; [by destruct Hx as [-> | ->]|].
    by destruct y.
  - intros l [[<- E]|[Hne (y & Hu & E)%lookup_wake]]%lookup_insert_Some; [by destruct Hx as [-> | ->]|].
    destruct y; try discriminate E. by destruct (Hone l ltac:(done) Hu).
Qed.

Lemma step_ok s s' : append_step s s' → appender_ok s → appender_ok s'.
Proof.
  intros Hstep Hok. destruct Hstep as [t s Ht|t s Ht Hw Ho|t s Ht Ho|t s batch Ht Ho Hw Hb
    |t s batch answers Hw Hlen|t s batch Hw|t s batch some Hw].
  - by apply arrive_ok.
  - apply leave_ok; auto.
  - apply leave_ok; auto.
  - by apply lead_ok.
  - by apply write_ok.
  - eapply release_batch_ok; eauto.
  - eapply release_batch_ok; eauto. destruct Hok as [Harr Hknown Hnd Hpend Hans Hwr Hsl Hld Hlg Hshort]. split; cbn; try done.
    + intros u x Hu Hx Ho. apply (Hpend u x Hu Hx). apply eq_None_not_Some. intros E.
      apply eq_None_not_Some in Ho. destruct Ho. by apply answered_by.
    + intros u Hu. by apply answered_by, Hans.
    + intros l b u E. rewrite Hw in E. discriminate E.
Qed.

(** ** Every run ends *)

Definition thread_weight (n : Z) (x : thread) : Z :=
  match x with Arriving => 2 * n + 11 | Ready => 2 | Sleeping => 1 | _ => 0 end.
Definition writing_weight (n : Z) (w : option (nat * list nat * bool)) : Z :=
  match w with Some (_, _, false) => 2 * n + 6 | Some (_, _, true) => n + 3 | None => 0 end.

(** What is left to do: a bound on the steps any run can still take. *)
Definition steps_left (s : Appender) : Z :=
  let n := Z.of_nat (size (ap_threads s)) in
  map_sum (thread_weight n) (ap_threads s) + (2 * n + 8) * Z.of_nat (length (ap_queue s))
    + writing_weight n (ap_writing s).

Lemma thread_weight_nonneg n x : 0 ≤ n → 0 ≤ thread_weight n x.
Proof. destruct x; cbn; lia. Qed.

Lemma steps_left_nonneg s : 0 ≤ steps_left s.
Proof.
  unfold steps_left. cbv zeta.
  assert (0 ≤ map_sum (thread_weight (Z.of_nat (size (ap_threads s)))) (ap_threads s)).
  { apply map_sum_nonneg. intros k x _. apply thread_weight_nonneg. lia. }
  assert (0 ≤ writing_weight (Z.of_nat (size (ap_threads s))) (ap_writing s))
    by (destruct (ap_writing s) as [[[l b] []]|]; cbn; lia).
  nia.
Qed.

Lemma wake_weight n (m : gmap nat thread) :
  map_sum (thread_weight n) (wake <$> m) ≤ map_sum (thread_weight n) m + Z.of_nat (size m).
Proof.
  induction m as [|k x m Hk IH] using map_ind; [rewrite fmap_empty, map_size_empty; lia|].
  rewrite fmap_insert, !map_sum_insert_new, map_size_insert_None by (by rewrite ?lookup_fmap, ?Hk).
  destruct x; cbn [wake thread_weight]; lia.
Qed.

Lemma set_thread_size t x (m : gmap nat thread) y : m !! t = Some y → size (<[t := x]> m) = size m.
Proof. intros Hy. by rewrite map_size_insert_Some by (by eexists). Qed.

Lemma step_decreases s s' : append_step s s' → appender_ok s → steps_left s' < steps_left s.
Proof.
  intros Hstep Hok. destruct Hstep as [t s Ht|t s Ht Hw Ho|t s Ht Ho|t s batch Ht Ho Hw Hb
    |t s batch answers Hw Hlen|t s batch Hw|t s batch some Hw]; unfold steps_left; cbn -[drop map_sum size thread_weight writing_weight Z.mul Z.add Z.of_nat].
  - rewrite (set_thread_size t _ _ _ Ht), (map_sum_insert_old _ _ _ _ _ Ht), length_app. cbn [thread_weight length]. lia.
  - rewrite (set_thread_size t _ _ _ Ht), (map_sum_insert_old _ _ _ _ _ Ht). cbn [thread_weight]. lia.
  - rewrite (set_thread_size t _ _ _ Ht), (map_sum_insert_old _ _ _ _ _ Ht). cbn [thread_weight]. lia.
  - rewrite (set_thread_size t _ _ _ Ht), (map_sum_insert_old _ _ _ _ _ Ht), length_drop, Hw.
    destruct (ao_pending _ Hok t Ready Ht ltac:(auto) Ho) as [Hq|(l & b & E & _)]; [|congruence].
    assert (0 < length (ap_queue s))%nat by (destruct (ap_queue s); [by apply not_elem_of_nil in Hq|cbn; lia]).
    unfold AUDIT_BATCH_MAX. cbn [thread_weight writing_weight]. nia.
  - rewrite Hw. cbn [writing_weight]. lia.
  - assert ((wake <$> ap_threads s) !! t = Some Leading) as Ht.
    { rewrite lookup_fmap. by rewrite (ao_leader _ Hok _ _ _ Hw). }
    rewrite (set_thread_size t _ _ _ Ht), (map_sum_insert_old _ _ _ _ _ Ht), map_size_fmap, Hw.
    pose proof (wake_weight (Z.of_nat (size (ap_threads s))) (ap_threads s)). cbn [thread_weight writing_weight]. lia.
  - assert ((wake <$> ap_threads s) !! t = Some Leading) as Ht.
    { rewrite lookup_fmap. by rewrite (ao_leader _ Hok _ _ _ Hw). }
    rewrite (set_thread_size t _ _ _ Ht), (map_sum_insert_old _ _ _ _ _ Ht), map_size_fmap, Hw.
    pose proof (wake_weight (Z.of_nat (size (ap_threads s))) (ap_threads s)). cbn [thread_weight writing_weight]. lia.
Qed.

(** No lost wakeup: while some caller has not left, some thread can go on. *)
Lemma can_step s t x :
  appender_ok s → ap_threads s !! t = Some x → x ≠ Answered → x ≠ Interrupted → red append_step s.
Proof.
  intros Hok Ht Ha Hi.
  assert (∀ l b w, ap_writing s = Some (l, b, w) → red append_step s) as Hlead.
  { intros l b [] Hw; eexists; [by eapply step_release|].
    apply (step_write l s b (replicate (length b) (Ret tt)) Hw). by rewrite length_replicate. }
  destruct x; try done.
  - eexists. by eapply step_arrive.
  - destruct (ap_outcomes s !! t) eqn:Ho; [eexists; apply (step_return t); [done|by eexists]|].
    destruct (ap_writing s) as [w|] eqn:Hw; [|eexists; by eapply step_lead].
    eexists. apply (step_sleep t); [done|by rewrite Hw|done].
  - destruct (ao_sleeping _ Hok t Ht) as [[[l b] w] Hw]. by eapply Hlead.
  - destruct (ao_leading _ Hok t Ht) as (b & w & Hw). by eapply Hlead.
Qed.

Lemma step_threads s s' : append_step s s' → appender_ok s → dom (ap_threads s') = dom (ap_threads s).
Proof.
  intros Hstep Hok. assert (∀ t x, is_Some (ap_threads s !! t) →
    dom (<[t := x]> (ap_threads s)) = dom (ap_threads s)) as Hins.
  { intros t x Ht%elem_of_dom. rewrite dom_insert_L. set_solver. }
  destruct Hstep as [t s Ht|t s Ht Hw Ho|t s Ht Ho|t s batch Ht Ho Hw Hb
    |t s batch answers Hw Hlen|t s batch Hw|t s batch some Hw]; cbn;
    try (apply Hins; by eexists); [done|..];
    rewrite dom_insert_L, dom_fmap_L; apply (ao_leader _ Hok) in Hw; apply elem_of_dom_2 in Hw; set_solver.
Qed.

Lemma reachable_ok callers s :
  rtc append_step (all_arriving callers) s → appender_ok s ∧ dom (ap_threads s) = callers.
Proof.
  intros Hr. pattern s. eapply (rtc_ind_r _ (all_arriving callers)); [|clear s Hr|exact Hr].
  - split; [apply all_arriving_ok|]. cbn. apply set_eq. intros t. rewrite elem_of_dom. split.
    + intros [x Hx]. apply lookup_set_to_map in Hx as (y & Hy & [= <- _]); done.
    + intros Ht. exists Arriving. apply lookup_set_to_map; [done|]. by exists t.
  - intros s s' _ Hstep [Hok Hd]. split; [by eapply step_ok|]. by rewrite (step_threads s s' Hstep Hok).
Qed.

(** C11: every audited write gets its answer. Whatever threads call [append]
    at once and however their critical sections interleave, a bound on the
    remaining steps is known at every moment, so every run ends; and where no
    thread can go on, every caller has left [append] with the outcome of its
    own append, unless an exception tore it out of a batch it was leading: no
    wakeup is lost and no append is forgotten. Along the way each append is
    in at most one batch, and a batch has at most eight. *)
Theorem every_append_is_answered callers s :
  rtc append_step (all_arriving callers) s →
  (∀ k s', nsteps append_step k s s' → Z.of_nat k ≤ steps_left s) ∧
  (nf append_step s → ∀ t, t ∈ callers →
     ap_threads s !! t = Some Answered ∧ is_Some (ap_outcomes s !! t) ∨
     ap_threads s !! t = Some Interrupted) ∧
  NoDup (concat (ap_batches s)) ∧ Forall (λ b, (length b ≤ AUDIT_BATCH_MAX)%nat) (ap_batches s).
Proof.
  intros [Hok Hd]%reachable_ok. split_and!.
  - intros k s' Hk. clear Hd. induction Hk as [s|k s s1 s' Hstep Hk IH]; [apply steps_left_nonneg|].
    specialize (IH (step_ok _ _ Hstep Hok)). pose proof (step_decreases _ _ Hstep Hok). lia.
  - intros Hnf t Ht. rewrite <-Hd in Ht. apply elem_of_dom in Ht as [x Hx].
    destruct (decide (x = Answered)) as [->|Ha]; [left; split; [done|by apply (ao_answered _ Hok)]|].
    destruct (decide (x = Interrupted)) as [->|Hi]; [by right|].
    destruct Hnf. by eapply can_step.
  - pose proof (ao_nodup _ Hok) as Hnd. by apply NoDup_app in Hnd as [? _].
  - apply (ao_short _ Hok).
Qed.

(** Two callers, the first of which has queued its append. *)
Definition two_callers : gset nat := {[0%nat; 1%nat]}.

Lemma every_append_is_answered_witness :
  ∃ s, append_step (all_arriving two_callers) s ∧
    (∀ k s', nsteps append_step k s s' → Z.of_nat k ≤ 29).
Proof.
  assert (append_step (all_arriving two_callers) (set_thread 0%nat Ready (all_arriving two_callers <| ap_queue ::= (λ q, q ++ [0%nat]) |>)))
    as Hstep by (apply step_arrive; vm_compute; reflexivity).
  eexists. split; [exact Hstep|].
  exact (proj1 (every_append_is_answered two_callers _ (rtc_once _ _ Hstep))).
Defined.
