(* ===== verification/DatasetFormat.v ===== *)
(** backend/services/dataset_format.py: typed tables in key order, the
    encoding their hashes cover, dataset ids, and the blob a dataset is stored
    as. Byte strings are strings; a float64 is its 64-bit pattern, a date its
    day number, a timestamp its nanoseconds. *)

From S2P Require Import Prelude Numeric Models Json JsonText JsonRead DateTime.
From stdpp Require Import sorting.
From Stdlib Require Import Ascii SpecFloat.
#[local] Open Scope Z_scope.

Definition TABLE_SCHEME : string := "qs-col-sha256-v1".
Definition DATASET_SCHEME : string := "qs-ds-sha256-v1".
Definition BLOB_FORMAT : string := "qs-blob-v1".
Definition MAX_SAFE_INTEGER : Z := 2 ^ 53 - 1.

Inductive FormatError := DatasetError | DatasetIntegrityError.

(** ** Bytes *)

(** [n] bytes of [z], little-endian, in two's complement. *)
Fixpoint le_bytes (n : nat) (z : Z) : string :=
  match n with O => EmptyString | S n => String (byte_char (z mod 256)) (le_bytes n (z / 256)) end.
Fixpoint le_value (s : string) : Z :=
  match s with EmptyString => 0 | String c s => byte_val c + 256 * le_value s end.
Definition signed (bits z : Z) : Z := if z <? 2 ^ (bits - 1) then z else z - 2 ^ bits.
Definition u64 (z : Z) : string := le_bytes 8 z.
Definition len (s : string) : Z := Z.of_nat (String.length s).

Fixpoint str_prefix (n : nat) (s : string) : string :=
  match n, s with S n, String c s => String c (str_prefix n s) | _, _ => EmptyString end.
Fixpoint str_suffix (n : nat) (s : string) : string :=
  match n, s with S n, String _ s => str_suffix n s | _, _ => s end.

Definition concat_text (l : list string) : string := foldr String.append EmptyString l.

(** ** Regular expressions *)

Definition in_range (lo hi : nat) (c : ascii) : bool := (lo <=? nat_of_ascii c)%nat && (nat_of_ascii c <=? hi)%nat.
Definition lower_letter : ascii → bool := in_range 97 122.
Definition letter (c : ascii) : bool := lower_letter c || in_range 65 90 c.
Definition name_char (c : ascii) : bool := lower_letter c || json_digit c || char_in c [95]%nat.
Definition token_char (c : ascii) : bool := letter c || json_digit c || char_in c [46; 95; 58; 43; 45]%nat.

Fixpoint all_of (p : ascii → bool) (s : string) : bool :=
  match s with EmptyString => true | String c s => p c && all_of p s end.

(** [_NAME.fullmatch], [_TOKEN.fullmatch] and [DATASET_ID.fullmatch] *)
Definition is_name (s : string) : bool :=
  match s with
  | String c s' => lower_letter c && all_of name_char s' && (len s' <=? 62)
  | EmptyString => false
  end.
Definition is_token (s : string) : bool :=
  match s with
  | String c s' => (letter c || json_digit c) && all_of token_char s' && (len s' <=? 63)
  | EmptyString => false
  end.
Definition lower_hex (c : ascii) : bool := json_digit c || in_range 97 102 c.
Definition is_dataset_id (s : string) : bool :=
  match literal (DATASET_SCHEME +:+ ":") s with
  | Some digest => all_of lower_hex digest && (len digest =? 64)
  | None => false
  end.

(** ** Canonical JSON *)

Definition ascii_text (s : string) : bool := all_of (in_range 0 127) s.

(** [_check_canonical] *)
Fixpoint check_canonical (v : json) : bool :=
  match v with
  | JInt z => Z.abs z <=? MAX_SAFE_INTEGER
  | JFloat _ => false
  | JArr l => forallb check_canonical l
  | JObj l => forallb (λ kv : string * json, ascii_text kv.1 && check_canonical kv.2) l
  | _ => true
  end.
(** The text encodes as UTF-8: no lone surrogates. *)
Fixpoint encodable (v : json) : bool :=
  match v with
  | JStr s => valid_text s
  | JArr l => forallb encodable l
  | JObj l => forallb (λ kv : string * json, encodable kv.2) l
  | _ => true
  end.
Definition canonical_bytes (v : json) : outcome FormatError string :=
  if check_canonical v && encodable v then Ret (canonical_json v) else Raise DatasetError.

(** ** Schemas *)

Inductive col_type := utf8 | date32 | timestamp_ns | float64.
#[global] Instance col_type_eq_dec : EqDecision col_type.
Proof. solve_decision. Defined.

Definition type_name (t : col_type) : string :=
  match t with utf8 => "utf8" | date32 => "date32" | timestamp_ns => "timestamp_ns" | float64 => "float64" end.
Definition TYPES : list col_type := [utf8; date32; timestamp_ns; float64].
Definition type_of_name (s : string) : option col_type := list_find (λ t, type_name t = s) TYPES ≫= λ it, Some it.2.

(** A column; [nullable] is whatever the caller or a header says, used for
    its truth. *)
Record Column := mkColumn { col_name : string; col_type_of : col_type; col_nullable : json }.

Definition truthy (v : json) : bool :=
  match v with
  | JNull => false
  | JBool b => b
  | JInt z => negb (z =? 0)
  | JFloat x => nbool (F:=b64) x
  | JStr s => negb (String.eqb s EmptyString)
  | JArr l => match l with [] => false | _ => true end
  | JObj l => match l with [] => false | _ => true end
  end.
Definition nullable (c : Column) : bool := truthy (col_nullable c).

Record TableSchema := mkTableSchema { ts_name : string; ts_columns : list Column; ts_key : list string }.

(** [TableSchema.__post_init__] *)
Definition schema_valid (s : TableSchema) : bool :=
  let names := col_name <$> ts_columns s in
  is_name (ts_name s) && forallb is_name names && bool_decide (NoDup names) && bool_decide (names ≠ []) &&
  bool_decide (ts_key s ≠ []) && bool_decide (NoDup (ts_key s)) &&
  forallb (λ k, existsb (λ c, bool_decide (col_name c = k) && negb (nullable c)) (ts_columns s)) (ts_key s).
Definition make_schema (s : TableSchema) : outcome FormatError TableSchema :=
  if schema_valid s then Ret s else Raise DatasetError.

Definition required (name : string) (t : col_type) : Column := mkColumn name t (JBool false).
Definition optional (name : string) (t : col_type) : Column := mkColumn name t (JBool true).
Definition BARS_V1 : TableSchema := mkTableSchema "bars"
  [required "symbol" utf8; required "session_date" date32; optional "open" float64; optional "high" float64;
   optional "low" float64; required "close" float64; optional "volume" float64] ["symbol"; "session_date"].
Definition CORPORATE_ACTIONS_V1 : TableSchema := mkTableSchema "corporate_actions"
  [required "symbol" utf8; required "ex_date" date32; required "action" utf8; required "value" float64;
   optional "announced_at" timestamp_ns; required "source" utf8] ["symbol"; "ex_date"; "action"].
Definition INSTRUMENTS_V1 : TableSchema := mkTableSchema "instruments"
  [required "symbol" utf8; required "instrument_type" utf8; required "exchange" utf8; required "timezone" utf8;
   required "currency" utf8] ["symbol"].

Example schemas_valid : forallb schema_valid [BARS_V1; CORPORATE_ACTIONS_V1; INSTRUMENTS_V1] = true.
Proof. vm_compute. reflexivity. Qed.

(** ** Values *)

(** A value of a column; [None] is a null (NaN, NaT or None in the arrays). *)
Inductive value := VFloat (bits : Z) | VDate (days : Z) | VStamp (ns : Z) | VText (s : string).
#[global] Instance value_eq_dec : EqDecision value.
Proof. solve_decision. Defined.
Abbreviation cell := (option value).

(** What a caller may pass for a column: a plain sequence of Python objects,
    or an array of float64, of datetime64[D] or of datetime64[ns]. *)
Inductive item :=
| INone | IBool (b : bool) | IInt (z : Z) | IFloat (bits : Z) | IStr (s : string) | IDate (days : Z)
| IDatetime (utc_ns : option Z).
Inductive column_data := Items (l : list item) | Floats (l : list Z) | Days (l : list Z) | Stamps (l : list Z).

Definition NaT : Z := - 2 ^ 63.
Definition NaN : Z := 2047 * 2 ^ 52 + 2 ^ 51.
Definition DAY_NS : Z := 86400 * 10 ^ 9.

Definition exponent_field (bits : Z) : Z := bits / 2 ^ 52 mod 2 ^ 11.
Definition is_nan (bits : Z) : bool := (exponent_field bits =? 2047) && negb (bits mod 2 ^ 52 =? 0).
Definition is_inf (bits : Z) : bool := (exponent_field bits =? 2047) && (bits mod 2 ^ 52 =? 0).
Definition is_zero (bits : Z) : bool := bits mod 2 ^ 63 =? 0.

(** The bit pattern of a double. *)
Definition f64_bits (x : b64) : Z :=
  let sign (s : bool) : Z := if s then 2 ^ 63 else 0 in
  match x with
  | S754_zero s => sign s
  | S754_infinity s => sign s + 2047 * 2 ^ 52
  | S754_nan => NaN
  | S754_finite s m e =>
      if Z.pos m <? 2 ^ 52 then sign s + Z.pos m else sign s + (e + 1075) * 2 ^ 52 + (Z.pos m - 2 ^ 52)
  end.

Example f64_bits_samples :
  f64_bits (nof_Z 1) = 1023 * 2 ^ 52 ∧ f64_bits (nof_Z (-2)) = 2 ^ 63 + 1024 * 2 ^ 52 ∧
  f64_bits (nof_ratio 1 10) = 4591870180066957722 ∧ f64_bits (nof_ratio 1 (2 ^ 1074)) = 1.
Proof. vm_compute. auto. Qed.

Definition number_item (i : item) : option Z :=
  match i with
  | INone => Some NaN
  | IInt z => Some (f64_bits (nof_Z z))
  | IFloat bits => Some bits
  | _ => None
  end.

(** [_float64] *)
Definition float_cell (bits : Z) : cell :=
  if is_nan bits then None else Some (VFloat (if is_zero bits then 0 else bits)).
Definition float64_column (c : Column) (d : column_data) : outcome FormatError (list cell) :=
  let raw := match d with Items l => mapM number_item l | Floats l => Some l | _ => None end in
  match raw with
  | None => Raise DatasetError
  | Some bits =>
      if existsb is_inf bits then Raise DatasetError
      else if negb (nullable c) && existsb is_nan bits then Raise DatasetError
      else Ret (float_cell <$> bits)
  end.

(** [_one_date] *)
Definition iso_date_of (s : string) : option Z :=
  match String.list_ascii_of_string s with
  | [y1; y2; y3; y4; h1; m1; m2; h2; d1; d2] =>
      if forallb json_digit [y1; y2; y3; y4; m1; m2; d1; d2] && forallb (Ascii.eqb "-") [h1; h2] then
        let number l := digits_value 0 (String.string_of_list_ascii l) in
        let date := (number [y1; y2; y3; y4], number [m1; m2], number [d1; d2]) in
        if (1 <=? date.1.1) && bool_decide (civil (days_of_civil date) = date) then Some (days_of_civil date) else None
      else None
  | _ => None
  end.
Definition one_date (i : item) : option Z :=
  match i with
  | INone => Some NaT
  | IDate days => Some days
  | IStr s => iso_date_of s
  | _ => None
  end.

(** [_date32]. A datetime64[ns] array passes if its values are whole days. *)
Definition date_cell (days : Z) : cell := if days =? NaT then None else Some (VDate days).
Definition in_int32 (z : Z) : bool := (- 2 ^ 31 <=? z) && (z <=? 2 ^ 31 - 1).
Definition date32_column (d : column_data) : outcome FormatError (list cell) :=
  let days :=
    match d with
    | Days l => Some l
    | Stamps l =>
        if existsb (λ ns, negb (ns =? NaT) && negb (ns mod DAY_NS =? 0)) l then None
        else Some ((λ ns, if ns =? NaT then NaT else ns / DAY_NS) <$> l)
    | Items l => mapM one_date l
    | Floats [] => Some []
    | Floats _ => None
    end in
  match days with
  | None => Raise DatasetError
  | Some l => if forallb (λ z, (z =? NaT) || in_int32 z) l then Ret (date_cell <$> l) else Raise DatasetError
  end.

(** [_one_timestamp] and [_timestamp_ns] *)
Definition in_stamps (ns : Z) : bool := (- 2 ^ 63 <? ns) && (ns <? 2 ^ 63).
Definition one_timestamp (i : item) : option Z :=
  match i with
  | INone => Some NaT
  | IDatetime (Some ns) => if in_stamps ns then Some ns else None
  | _ => None
  end.
Definition stamp_cell (ns : Z) : cell := if ns =? NaT then None else Some (VStamp ns).
Definition timestamp_column (d : column_data) : outcome FormatError (list cell) :=
  let stamps :=
    match d with
    | Stamps l => Some l
    | Days l =>
        if forallb (λ z, (z =? NaT) || in_stamps (z * DAY_NS)) l
        then Some ((λ z, if z =? NaT then NaT else z * DAY_NS) <$> l) else None
    | Items l => mapM one_timestamp l
    | Floats [] => Some []
    | Floats _ => None
    end in
  match stamps with None => Raise DatasetError | Some l => Ret (stamp_cell <$> l) end.

(** [_utf8] *)
Definition text_item (c : Column) (i : item) : option cell :=
  match i with
  | INone => if nullable c then Some None else None
  | IStr s => if valid_text s then Some (Some (VText s)) else None
  | _ => None
  end.
Definition utf8_column (c : Column) (d : column_data) : outcome FormatError (list cell) :=
  let texts := match d with Items l => mapM (text_item c) l | Floats [] | Days [] | Stamps [] => Some [] | _ => None end in
  match texts with None => Raise DatasetError | Some l => Ret l end.

Definition normalise (c : Column) (d : column_data) : outcome FormatError (list cell) :=
  match col_type_of c with
  | float64 => float64_column c d
  | date32 => date32_column d
  | timestamp_ns => timestamp_column d
  | utf8 => utf8_column c d
  end.

(** ** Tables *)

(** [columns] in schema order, their rows in key order. *)
Record Table := mkTable { tb_schema : TableSchema; tb_columns : list (list cell) }.

(** [_sort_codes]: text by its bytes, the rest by their 64-bit patterns as
    signed integers. *)
Definition sort_code (v : cell) : Z + string :=
  match v with
  | Some (VFloat bits) => inl (signed 64 bits)
  | Some (VDate z) | Some (VStamp z) => inl z
  | Some (VText s) => inr s
  | None => inl NaT
  end.
Definition cell_compare (a b : cell) : comparison :=
  match sort_code a, sort_code b with
  | inl x, inl y => x ?= y
  | inr s, inr t => String.compare s t
  | inl _, inr _ => Lt
  | inr _, inl _ => Gt
  end.
Fixpoint key_compare (a b : list cell) : comparison :=
  match a, b with
  | x :: a, y :: b => match cell_compare x y with Eq => key_compare a b | o => o end
  | _, _ => Eq
  end.

Definition array_at (a : list cell) (i : nat) : cell := default None (a !! i).
Definition key_at (keys : list (list cell)) (i : nat) : list cell := (λ a, array_at a i) <$> keys.
Definition key_le (keys : list (list cell)) (i j : nat) : Prop := key_compare (key_at keys i) (key_at keys j) ≠ Gt.
#[global] Instance key_le_dec keys i j : Decision (key_le keys i j).
Proof. unfold key_le. destruct (key_compare _ _); [left|left|right]; congruence. Defined.

(** [np.lexsort] *)
Definition key_order (keys : list (list cell)) (n : nat) : list nat := merge_sort (key_le keys) (seq 0 n).
(** Two neighbours with equal keys. *)
Fixpoint has_duplicate (keys : list (list cell)) (order : list nat) : bool :=
  match order with
  | i :: (j :: _) as rest => bool_decide (key_compare (key_at keys i) (key_at keys j) = Eq) || has_duplicate keys rest
  | _ => false
  end.

(** The arrays named by a key. *)
Definition key_arrays (s : TableSchema) (arrays : list (list cell)) : list (list cell) :=
  (λ k, default [] (list_find (λ c, col_name c = k) (ts_columns s) ≫= λ it, arrays !! it.1)) <$> ts_key s.

Fixpoint normalise_all (cs : list Column) (data : gmap string column_data) : outcome FormatError (list (list cell)) :=
  match cs with
  | [] => Ret []
  | c :: cs =>
      let! a := normalise c (default (Items []) (data !! col_name c)) in
      let! rest := normalise_all cs data in
      Ret (a :: rest)
  end.

Definition missing_value (cs : list Column) (arrays : list (list cell)) : bool :=
  existsb (λ ca : Column * list cell, negb (nullable ca.1) && existsb (λ v, bool_decide (v = None)) ca.2) (zip cs arrays).

(** [Table.build] *)
Definition build (s : TableSchema) (data : gmap string column_data) : outcome FormatError Table :=
  if negb (bool_decide (dom data = list_to_set (col_name <$> ts_columns s))) then Raise DatasetError
  else
    let! arrays := normalise_all (ts_columns s) data in
    let n := length (default [] (arrays !! 0%nat)) in
    if negb (forallb (λ a, (length a =? n)%nat) arrays) then Raise DatasetError
    else if missing_value (ts_columns s) arrays then Raise DatasetError
    else
      let keys := key_arrays s arrays in
      let order := key_order keys n in
      if has_duplicate keys order then Raise DatasetError
      else Ret (mkTable s ((λ a, array_at a <$> order) <$> arrays)).

(** [len(table)] *)
Definition row_count (t : Table) : nat := length (default [] (tb_columns t !! 0%nat)).

(** ** Encoding *)

Definition width (t : col_type) : nat := match t with date32 => 4 | _ => 8 end.
Definition byte (z : Z) : string := String (byte_char z) EmptyString.

Definition encode_value (t : col_type) (v : cell) : string :=
  match v with
  | Some (VFloat bits) => le_bytes (width t) bits
  | Some (VDate z) | Some (VStamp z) => le_bytes (width t) z
  | Some (VText s) => u64 (len s) +:+ s
  | None => match t with utf8 => u64 0 | _ => le_bytes (width t) 0 end
  end.
(** A row of a column; nullable columns prefix a validity byte. *)
Definition encode_cell (c : Column) (v : cell) : string :=
  match v with
  | Some _ => (if nullable c then byte 1 else EmptyString) +:+ encode_value (col_type_of c) v
  | None =>
      match col_type_of c with
      | utf8 => byte 0 +:+ u64 0
      | t => (if nullable c then byte 0 else EmptyString) +:+ encode_value t None
      end
  end.

Definition UTF8_BATCH : Z := 65536.
Fixpoint batches (fuel : nat) (l : list cell) : list (list cell) :=
  match fuel, l with
  | _, [] => []
  | O, _ => [l]
  | S fuel, _ => take (Z.to_nat UTF8_BATCH) l :: batches fuel (drop (Z.to_nat UTF8_BATCH) l)
  end.
(** [Table.encoded]: the encoding of a column, in chunks. *)
Definition encoded (c : Column) (a : list cell) : list string :=
  let chunk rows := concat_text (encode_cell c <$> rows) in
  match col_type_of c with
  | utf8 => chunk <$> batches (length a) a
  | _ => [chunk a]
  end.

(** ** Datasets *)

Record DatasetIdentity := mkDatasetIdentity {
  di_family : string; di_provider : string; di_licence_id : string; di_frequency : string;
  di_session_boundary : string; di_adjustment : string; di_survivorship : string
}.
#[global] Instance identity_eq_dec : EqDecision DatasetIdentity.
Proof. solve_decision. Defined.

Definition identity_fields (i : DatasetIdentity) : list (string * string) :=
  [("family", di_family i); ("provider", di_provider i); ("licence_id", di_licence_id i);
   ("frequency", di_frequency i); ("session_boundary", di_session_boundary i);
   ("adjustment", di_adjustment i); ("survivorship", di_survivorship i)].
(** [DatasetIdentity.__post_init__] and [as_dict] *)
Definition identity_valid (i : DatasetIdentity) : bool := forallb (λ f, is_token f.2) (identity_fields i).
Definition identity_dict (i : DatasetIdentity) : json := JObj ((λ f, (f.1, JStr f.2)) <$> identity_fields i).

Record Dataset := mkDataset { ds_identity : DatasetIdentity; ds_tables : list Table }.
Definition table_names (d : Dataset) : list string := (λ t, ts_name (tb_schema t)) <$> ds_tables d.
(** [Dataset.__post_init__] *)
Definition make_dataset (d : Dataset) : outcome FormatError Dataset :=
  if bool_decide (table_names d ≠ []) && bool_decide (NoDup (table_names d)) then Ret d else Raise DatasetError.
Definition table (name : string) (d : Dataset) : option Table :=
  list_find (λ t, ts_name (tb_schema t) = name) (ds_tables d) ≫= λ it, Some it.2.

Section hashing.
Variable sha256_hex : string → string.

Definition column_digest (c : Column) (a : list cell) : string := sha256_hex (concat_text (encoded c a)).
Definition table_manifest (t : Table) : json :=
  JObj [("columns", JArr ((λ ca : Column * list cell,
           JObj [("name", JStr (col_name ca.1)); ("nullable", col_nullable ca.1);
                 ("sha256", JStr (column_digest ca.1 ca.2)); ("type", JStr (type_name (col_type_of ca.1)))])
           <$> zip (ts_columns (tb_schema t)) (tb_columns t)));
        ("key", JArr (JStr <$> ts_key (tb_schema t))); ("rows", JInt (Z.of_nat (row_count t)));
        ("scheme", JStr TABLE_SCHEME)].
Definition table_hash (t : Table) : outcome FormatError string :=
  let! text := canonical_bytes (table_manifest t) in Ret (sha256_hex text).

Fixpoint table_hashes (ts : list Table) : outcome FormatError (list (string * json)) :=
  match ts with
  | [] => Ret []
  | t :: ts =>
      let! h := table_hash t in
      let! rest := table_hashes ts in
      Ret ((ts_name (tb_schema t), JStr h) :: rest)
  end.
Definition dataset_manifest (d : Dataset) : outcome FormatError json :=
  let! tables := table_hashes (ds_tables d) in
  Ret (JObj [("identity", identity_dict (ds_identity d)); ("scheme", JStr DATASET_SCHEME); ("tables", JObj tables)]).
Definition dataset_id (d : Dataset) : outcome FormatError string :=
  let! manifest := dataset_manifest d in
  let! text := canonical_bytes manifest in
  Ret (DATASET_SCHEME +:+ ":" +:+ sha256_hex text).
End hashing.

(** ** Blobs *)

Definition BLOB_MAGIC : string := "QSBLOB" +:+ byte 0 +:+ byte 1.
Definition MAX_HEADER : Z := 2 ^ 20.
Definition DEFAULT_MAX_BYTES : Z := 2 * 2 ^ 30.

(** *** Reading columns back *)

Fixpoint chunks_of (fuel n : nat) (s : string) : list string :=
  match fuel, s with
  | _, EmptyString => []
  | O, _ => []
  | S fuel, _ => str_prefix n s :: chunks_of fuel n (str_suffix n s)
  end.

(** [_parse] of a fixed-width column: its records as an array. *)
Definition split_record (c : Column) (r : string) : bool * Z * string :=
  if nullable c then
    match r with String v s => (negb (byte_val v =? 0), byte_val v, s) | EmptyString => (false, 0, EmptyString) end
  else (true, 1, r).
Definition record_width (c : Column) : nat := (if nullable c then 1 else 0) + width (col_type_of c).

Definition parse_wide (c : Column) (raw : string) (rows : Z) : option column_data :=
  if negb (len raw =? rows * Z.of_nat (record_width c)) then None
  else
    let records := split_record c <$> chunks_of (String.length raw) (record_width c) raw in
    if existsb (λ r, 1 <? r.1.2) records then None
    else
      match col_type_of c with
      | float64 => Some (Floats ((λ r, if r.1.1 : bool then le_value r.2 else NaN) <$> records))
      | date32 => Some (Days ((λ r, if r.1.1 : bool then signed 32 (le_value r.2) else NaT) <$> records))
      | _ => Some (Stamps ((λ r, if r.1.1 : bool then signed 64 (le_value r.2) else NaT) <$> records))
      end.

(** [_parse_utf8] *)
Fixpoint parse_texts (rows : nat) (c : Column) (raw : string) : option (list item * string) :=
  match rows with
  | O => Some ([], raw)
  | S rows =>
      let flag :=
        if nullable c then
          match raw with
          | String v r => if 1 <? byte_val v then None else Some (byte_val v =? 1, r)
          | EmptyString => None
          end
        else Some (true, raw) in
      '(valid, r) ← flag;
      if len r <? 8 then None
      else
        let length := le_value (str_prefix 8 r) in
        let r := str_suffix 8 r in
        if len r <? length then None
        else
          let text := str_prefix (Z.to_nat length) r in
          '(rest, r) ← parse_texts rows c (str_suffix (Z.to_nat length) r);
          if (valid : bool) then if valid_text text then Some (IStr text :: rest, r) else None
          else Some (INone :: rest, r)
  end.
Definition parse_utf8 (c : Column) (raw : string) (rows : Z) : option column_data :=
  '(items, r) ← parse_texts (Z.to_nat rows) c raw;
  match r with EmptyString => Some (Items items) | _ => None end.

Definition parse (c : Column) (raw : string) (rows : Z) : option column_data :=
  if rows <? 0 then None
  else match col_type_of c with utf8 => parse_utf8 c raw rows | _ => parse_wide c raw rows end.

(** *** Reading the header

    [None] stands for the exceptions [decode_blob] turns into
    [DatasetIntegrityError]. A Python [bool] is an [int]. *)
Definition field (name : string) (v : json) : option json :=
  match v with JObj l => list_find (λ kv : string * json, kv.1 = name) l ≫= λ it, Some it.2.2 | _ => None end.
Definition field_as {A} (read : json → option A) (name : string) (v : json) : option A :=
  match field name v with Some x => read x | None => None end.
Definition as_int (v : json) : option Z :=
  match v with JInt z => Some z | JBool b => Some (if b then 1 else 0) | _ => None end.
Definition as_text (v : json) : option string := match v with JStr s => Some s | _ => None end.
Definition as_list (v : json) : option (list json) := match v with JArr l => Some l | _ => None end.
(** The items of [tuple(value)] that are strings: of a list, of a string its
    characters, of a dict its keys. *)
Definition key_texts (v : json) : option (list string) :=
  match v with
  | JArr l => mapM as_text l
  | JStr s => Some ((λ cp, utf8_char cp) <$> code_points s)
  | JObj l => Some l.*1
  | _ => None
  end.

Definition read_column (v : json) : option Column :=
  name ← field_as as_text "name" v;
  type ← field_as (λ t, as_text t ≫= type_of_name) "type" v;
  nullable ← field "nullable" v;
  Some (mkColumn name type nullable).
Definition read_schema (spec : json) : option TableSchema :=
  name ← field_as as_text "name" spec;
  columns ← field_as (λ l, as_list l ≫= mapM read_column) "columns" spec;
  key ← field_as key_texts "key" spec;
  let s := mkTableSchema name columns key in
  if schema_valid s then Some s else None.

Definition read_identity (v : json) : option DatasetIdentity :=
  match v with
  | JObj l =>
      texts ← mapM (λ kv : string * json, t ← as_text kv.2; Some (kv.1, t)) l;
      let get name := list_find (λ kv : string * string, kv.1 = name) texts ≫= λ it, Some it.2.2 in
      family ← get "family"; provider ← get "provider"; licence_id ← get "licence_id"; frequency ← get "frequency";
      session_boundary ← get "session_boundary"; adjustment ← get "adjustment"; survivorship ← get "survivorship";
      let i := mkDatasetIdentity family provider licence_id frequency session_boundary adjustment survivorship in
      if (length l =? 7)%nat && identity_valid i then Some i else None
  | _ => None
  end.

Definition to_option {E A} (m : outcome E A) : option A := match m with Ret a => Some a | Raise _ => None end.

(** The columns of one table, from the payload at [offset]. *)
Fixpoint read_columns (rows : Z) (specs : list (json * Column)) (payload : string) (offset : Z)
    : option (gmap string column_data * Z) :=
  match specs with
  | [] => Some (∅, offset)
  | (spec, c) :: specs =>
      length ← field_as as_int "length" spec;
      if (length <? 0) || (len payload <? offset + length) then None
      else
        data ← parse c (str_prefix (Z.to_nat length) (str_suffix (Z.to_nat offset) payload)) rows;
        '(rest, offset) ← read_columns rows specs payload (offset + length);
        Some (<[col_name c := data]> rest, offset)
  end.
Fixpoint read_tables (specs : list json) (payload : string) (offset : Z) : option (list Table * Z) :=
  match specs with
  | [] => Some ([], offset)
  | spec :: specs =>
      schema ← read_schema spec;
      columns ← field_as as_list "columns" spec;
      rows ← field "rows" spec;
      '(data, offset) ← match as_int rows with
                        | Some n => read_columns n (zip columns (ts_columns schema)) payload offset
                        | None => None
                        end;
      t ← to_option (build schema data);
      '(rest, offset) ← read_tables specs payload offset;
      Some (t :: rest, offset)
  end.

(** [json.loads] of bytes: the encoding they are in, by their first bytes;
    [None] for UTF-8. *)
Definition other_encoding (b : string) : bool :=
  match (λ c, byte_val c) <$> String.list_ascii_of_string (str_prefix 4 b) with
  | 255 :: 254 :: _ | 254 :: 255 :: _ | 239 :: 187 :: 191 :: _ => true
  | [x; y; _; _] | [x; y] => (x =? 0) || (y =? 0)
  | _ => false
  end.
(** Decodable with surrogates passed through. *)
Definition pass_text (s : string) : bool :=
  forallb (λ cp, (0 <=? cp) && (cp <? 1114112)) (code_points s) && String.eqb (JsonText.utf8 (code_points s)) s.

Section blobs.
Variable sha256_hex : string → string.

(** zlib: a stream of the given chunks; and [decompressobj().decompress(data,
    max_length)], which raises or gives the output with [eof],
    [unconsumed_tail] and [unused_data]. *)
Variable zlib_compress : list string → string.
Variable zlib_decompress : string → Z → option (string * bool * string * string).
(** [json.loads] of bytes that are not UTF-8. *)
Variable loads_other : string → option json.

Definition json_loads_bytes (b : string) : option json :=
  if other_encoding b then loads_other b else if pass_text b then json_loads b else None.

Definition column_spec (ca : Column * list cell) : json :=
  let '(c, a) := ca in
  JObj [("length", JInt (len (concat_text (encoded c a)))); ("name", JStr (col_name c));
        ("nullable", col_nullable c); ("type", JStr (type_name (col_type_of c)))].
Definition table_spec (t : Table) : json :=
  JObj [("columns", JArr (column_spec <$> zip (ts_columns (tb_schema t)) (tb_columns t)));
        ("key", JArr (JStr <$> ts_key (tb_schema t))); ("name", JStr (ts_name (tb_schema t)));
        ("rows", JInt (Z.of_nat (row_count t)))].
Definition table_chunks (t : Table) : list string :=
  concat ((λ ca : Column * list cell, encoded ca.1 ca.2) <$> zip (ts_columns (tb_schema t)) (tb_columns t)).
Definition payload_chunks (d : Dataset) : list string := concat (table_chunks <$> ds_tables d).

Definition encode_blob (d : Dataset) : outcome FormatError string :=
  let! id := dataset_id sha256_hex d in
  let! header := canonical_bytes (JObj
    [("dataset_id", JStr id); ("format", JStr BLOB_FORMAT); ("identity", identity_dict (ds_identity d));
     ("payload_length", JInt (len (concat_text (payload_chunks d)))); ("tables", JArr (table_spec <$> ds_tables d))]) in
  Ret (BLOB_MAGIC +:+ u64 (len header) +:+ header +:+ zlib_compress (payload_chunks d)).

Definition decode_ (blob : string) (max_bytes : Z) : option Dataset :=
  if negb (String.eqb (str_prefix 8 blob) BLOB_MAGIC) || (len blob <? 16) then None
  else
    let header_length := le_value (str_prefix 8 (str_suffix 8 blob)) in
    if (MAX_HEADER <? header_length) || (len blob <? 16 + header_length) then None
    else
      let rest := str_suffix 16 blob in
      header ← json_loads_bytes (str_prefix (Z.to_nat header_length) rest);
      format ← field "format" header;
      if negb (bool_decide (as_text format = Some BLOB_FORMAT)) then None
      else
        total ← field_as as_int "payload_length" header;
        if (total <? 0) || (max_bytes <? total) then None
        else
          '(payload, eof, tail, unused) ← zlib_decompress (str_suffix (Z.to_nat header_length) rest) (total + 1);
          if negb (len payload =? total) || negb eof || negb (String.eqb tail "") || negb (String.eqb unused "") then None
          else
            specs ← field_as as_list "tables" header;
            '(tables, offset) ← read_tables specs payload 0;
            if negb (offset =? total) then None
            else
              identity ← field_as read_identity "identity" header;
              to_option (make_dataset (mkDataset identity tables)).

(** [decode_blob]: computing the id of what was read can itself raise. *)
Definition decode_blob (blob expected_id : string) (max_bytes : Z) : outcome FormatError Dataset :=
  match decode_ blob max_bytes with
  | None => Raise DatasetIntegrityError
  | Some d =>
      let! id := dataset_id sha256_hex d in
      if String.eqb id expected_id then Ret d else Raise DatasetIntegrityError
  end.
End blobs.
