(* ===== verification/DatasetCodec.v ===== *)
(** The column encoding of dataset_format.py is read back exactly: bytes,
    records, and whole columns of every type. *)

From S2P Require Import Prelude Numeric Models Json JsonText JsonRead DateTime DatasetFormat.
From Stdlib Require Import Ascii.
#[local] Ltac Zify.zify_post_hook ::= Z.to_euclidean_division_equations.
#[local] Open Scope Z_scope.

(** ** Bytes *)

Lemma str_prefix_app a b : str_prefix (String.length a) (a +:+ b) = a.
Proof. induction a as [|c a IH]; [by destruct b|]. rewrite string_app_cons. cbn. by rewrite IH. Qed.
Lemma str_suffix_app a b : str_suffix (String.length a) (a +:+ b) = b.
Proof. induction a as [|c a IH]; [by destruct b|]. rewrite string_app_cons. cbn. done. Qed.

Lemma len_app a b : len (a +:+ b) = len a + len b.
Proof. unfold len. rewrite string_length_app. lia. Qed.
Lemma len_nonneg s : 0 ≤ len s.
Proof. unfold len. lia. Qed.
Lemma len_id s : Z.to_nat (len s) = String.length s.
Proof. unfold len. lia. Qed.

Lemma le_bytes_length n z : String.length (le_bytes n z) = n.
Proof. revert z. induction n as [|n IH]; intros z; [done|]. cbn. by rewrite IH. Qed.

Lemma byte_val_range c : 0 ≤ byte_val c < 256.
Proof. unfold byte_val. pose proof (N_ascii_bounded c). lia. Qed.

Lemma le_value_bytes n z : le_value (le_bytes n z) = z mod 2 ^ (8 * Z.of_nat n).
Proof.
  revert z. induction n as [|n IH]; intros z; [cbn; by rewrite Z.mod_1_r|].
  cbn [le_bytes le_value]. rewrite IH, byte_val_char by (apply Z.mod_pos_bound; lia).
  replace (8 * Z.of_nat (S n)) with (8 + 8 * Z.of_nat n) by lia.
  rewrite Z.pow_add_r by lia. change (2 ^ 8) with 256. rewrite Z.rem_mul_r; [done|lia|].
  apply Z.pow_pos_nonneg; lia.
Qed.

Lemma le_value_id n z : 0 ≤ z < 2 ^ (8 * Z.of_nat n) → le_value (le_bytes n z) = z.
Proof. intros Hz. by rewrite le_value_bytes, Z.mod_small. Qed.

Lemma signed_mod bits z : 0 < bits → - 2 ^ (bits - 1) ≤ z < 2 ^ (bits - 1) → signed bits (z mod 2 ^ bits) = z.
Proof.
  intros Hb Hz. unfold signed. assert (2 ^ bits = 2 * 2 ^ (bits - 1)) as E.
  { rewrite <-Z.pow_succ_r by lia. f_equal. lia. }
  destruct (decide (0 ≤ z)).
  - rewrite Z.mod_small by lia. destruct (Z.ltb_spec z (2 ^ (bits - 1))); lia.
  - replace (z mod 2 ^ bits) with (z + 2 ^ bits).
    + destruct (Z.ltb_spec (z + 2 ^ bits) (2 ^ (bits - 1))); lia.
    + apply Z.mod_unique with (-1); lia.
Qed.

Lemma signed_le_value bits n z :
  0 < bits → bits = 8 * Z.of_nat n → - 2 ^ (bits - 1) ≤ z < 2 ^ (bits - 1) → signed bits (le_value (le_bytes n z)) = z.
Proof. intros Hb -> Hz. rewrite le_value_bytes. by apply signed_mod. Qed.

Lemma concat_text_app l l' : concat_text (l ++ l') = concat_text l +:+ concat_text l'.
Proof.
  induction l as [|s l IH]; [done|]. change (s +:+ concat_text (l ++ l') = (s +:+ concat_text l) +:+ concat_text l').
  by rewrite IH, string_app_assoc.
Qed.

(** ** Typed cells *)

Definition is_double (bits : Z) : Prop := 0 ≤ bits < 2 ^ 64.

(** What a column of a table may hold: finite doubles with one zero, dates
    and instants in range, valid text, nulls where allowed. *)
Definition cell_ok (c : Column) (v : cell) : Prop :=
  match v with
  | None => nullable c = true
  | Some v =>
      match col_type_of c, v with
      | float64, VFloat bits =>
          is_double bits ∧ is_nan bits = false ∧ is_inf bits = false ∧ (is_zero bits = true → bits = 0)
      | date32, VDate z => in_int32 z = true
      | timestamp_ns, VStamp z => in_stamps z = true
      | utf8, VText s => valid_text s = true ∧ len s < 2 ^ 64
      | _, _ => False
      end
  end.

(** ** Chunks *)

Lemma concat_batches (f : cell → string) fuel a :
  (length a ≤ fuel)%nat → concat_text ((λ rows, concat_text (f <$> rows)) <$> batches fuel a) = concat_text (f <$> a).
Proof.
  revert a. induction fuel as [|fuel IH]; intros a Ha.
  { destruct a; [done|]. cbn in Ha. lia. }
  destruct a as [|v a]; [done|]. cbn [batches].
  change (v :: a) with ([v] ++ a) at 1. set (l := v :: a). 
  rewrite fmap_cons. change (concat_text (?x :: ?y)) with (x +:+ concat_text y).
  rewrite IH, <-concat_text_app, <-fmap_app, take_drop; [done|].
  rewrite length_drop. cbn [length] in *. subst l. cbn [length]. unfold UTF8_BATCH.
  assert (0 < Z.to_nat 65536)%nat by lia. lia.
Qed.

(** A column's chunks joined: its cells one after the other. *)
Lemma concat_encoded c a : concat_text (encoded c a) = concat_text (encode_cell c <$> a).
Proof.
  unfold encoded. destruct (col_type_of c); [by apply concat_batches|..]; cbn [concat_text foldr];
    by induction (concat_text (encode_cell c <$> a)) as [|x s IH]; [|rewrite string_app_cons; cbn; f_equal].
Qed.

(** ** Fixed-width columns *)

Lemma chunks_of_concat fuel n l :
  (0 < n)%nat → Forall (λ s, String.length s = n) l → (length l ≤ fuel)%nat →
  chunks_of fuel n (concat_text l) = l.
Proof.
  intros Hn Hl. revert fuel. induction Hl as [|s l Hs Hl IH]; intros fuel Hf; [by destruct fuel|].
  destruct fuel as [|fuel]; [cbn in Hf; lia|]. change (concat_text (s :: l)) with (s +:+ concat_text l).
  destruct s as [|c s]; [cbn in Hs; lia|]. rewrite string_app_cons.
  change (chunks_of (S fuel) n (String c (s +:+ concat_text l))) with
    (str_prefix n (String c s +:+ concat_text l) :: chunks_of fuel n (str_suffix n (String c s +:+ concat_text l))).
  rewrite <-Hs, str_prefix_app, str_suffix_app, Hs. f_equal. apply IH. cbn in Hf. lia.
Qed.

Lemma concat_text_length n l :
  Forall (λ s, String.length s = n) l → String.length (concat_text l) = (length l * n)%nat.
Proof.
  induction 1 as [|s l Hs Hl IH]; [done|]. change (concat_text (s :: l)) with (s +:+ concat_text l).
  rewrite string_length_app, Hs, IH. cbn. lia.
Qed.

Section wide.
Variable c : Column.
Hypothesis wide : col_type_of c ≠ utf8.

Lemma encode_cell_length v : cell_ok c v → String.length (encode_cell c v) = record_width c.
Proof.
  intros Hv. unfold encode_cell, record_width, cell_ok in *. destruct v as [v|].
  - rewrite string_length_app. destruct (col_type_of c), v; try done; cbn [encode_value];
      rewrite le_bytes_length; by destruct (nullable c).
  - rewrite Hv. destruct (col_type_of c); try done; cbn [encode_value];
      rewrite string_length_app, le_bytes_length; done.
Qed.

(** The number read from a cell's record; a null's is [null]. *)
Definition raw_number (null : Z) (v : cell) : Z :=
  match v with Some (VFloat z) | Some (VDate z) | Some (VStamp z) => z | _ => null end.

Lemma split_encoded v : cell_ok c v →
  ∃ flag s, split_record c (encode_cell c v) = (bool_decide (v ≠ None), flag, s) ∧ (1 <? flag) = false ∧
    (v ≠ None → s = le_bytes (width (col_type_of c)) (raw_number 0 v)).
Proof.
  intros Hv. unfold encode_cell, cell_ok, split_record in *. destruct v as [v|].
  - assert (encode_value (col_type_of c) (Some v) = le_bytes (width (col_type_of c)) (raw_number 0 (Some v))) as ->.
    { by destruct (col_type_of c), v. }
    destruct (nullable c).
    + change (byte 1 +:+ ?x) with (String (byte_char 1) x). by eexists _, _.
    + by eexists _, _.
  - rewrite Hv. destruct (col_type_of c); try done; change (byte 0 +:+ ?x) with (String (byte_char 0) x); by eexists _, _.
Qed.

Lemma parse_wide_encoded a : Forall (cell_ok c) a →
  parse_wide c (concat_text (encode_cell c <$> a)) (Z.of_nat (length a)) =
  Some (match col_type_of c with
        | float64 => Floats (raw_number NaN <$> a)
        | date32 => Days (raw_number NaT <$> a)
        | _ => Stamps (raw_number NaT <$> a)
        end).
Proof.
  intros Ha.
  assert (Forall (λ s, String.length s = record_width c) (encode_cell c <$> a)) as Hlen.
  { apply Forall_fmap. eapply Forall_impl; [exact Ha|]. intros v. apply encode_cell_length. }
  assert (0 < record_width c)%nat as Hw by (unfold record_width, width; destruct (col_type_of c); lia).
  unfold parse_wide, len. rewrite (concat_text_length _ _ Hlen), length_fmap.
  rewrite (proj2 (Z.eqb_eq _ _)) by lia. cbn [negb].
  rewrite chunks_of_concat; [|done|done|rewrite length_fmap; nia].
  rewrite <-!list_fmap_compose.
  assert (existsb (λ r : bool * Z * string, 1 <? r.1.2) (split_record c ∘ encode_cell c <$> a) = false) as ->.
  { clear Hlen. induction Ha as [|v a Hv Ha IH]; [done|]. cbn [fmap list_fmap existsb compose].
    destruct (split_encoded v Hv) as (flag & s & -> & Hflag & _). cbn [fst snd]. by rewrite Hflag. }
  assert (∀ null (read : Z → Z), (∀ v, cell_ok c v → v ≠ None → read (le_value (le_bytes (width (col_type_of c)) (raw_number 0 v))) = raw_number null v) →
    (λ r : bool * Z * string, if r.1.1 then read (le_value r.2) else null) ∘ (split_record c ∘ encode_cell c) <$> a = raw_number null <$> a) as Hread.
  { intros null read Hr. clear Hlen. induction Ha as [|v a Hv Ha IH]; [done|]. cbn [fmap list_fmap compose]. f_equal; [|exact IH].
    destruct (split_encoded v Hv) as (flag & s & -> & _ & Hs). cbn [fst snd].
    case_bool_decide as Hn; [by rewrite Hs, Hr|]. by subst v. }
  destruct (col_type_of c) eqn:Ht; [done| | |]; do 2 f_equal; rewrite <-?list_fmap_compose.
  - apply (Hread NaT (signed 32)). intros v Hv Hn. unfold cell_ok in Hv. rewrite Ht in Hv.
    destruct v as [[]|]; try done. unfold in_int32 in Hv. cbn [raw_number width].
    apply signed_le_value; [done|done|]. change (32 - 1) with 31. lia.
  - apply (Hread NaT (signed 64)). intros v Hv Hn. unfold cell_ok in Hv. rewrite Ht in Hv.
    destruct v as [[]|]; try done. unfold in_stamps in Hv. cbn [raw_number width].
    apply signed_le_value; [done|done|]. change (64 - 1) with 63. lia.
  - apply (Hread NaN (λ z, z)). intros v Hv Hn. unfold cell_ok in Hv. rewrite Ht in Hv.
    destruct v as [[]|]; try done. destruct Hv as [Hv _]. cbn [raw_number width]. by apply le_value_id.
Qed.
End wide.

Lemma Forall_existsb_false {A} (p : A → bool) (l : list A) : Forall (λ x, p x = false) l → existsb p l = false.
Proof. induction 1 as [|x l Hx Hl IH]; [done|]. cbn. by rewrite Hx. Qed.
Lemma Forall_forallb {A} (p : A → bool) (l : list A) : Forall (λ x, p x = true) l → forallb p l = true.
Proof. induction 1 as [|x l Hx Hl IH]; [done|]. cbn. by rewrite Hx. Qed.
Lemma Forall_fmap_id {A B} (P : A → Prop) (f : A → B) (g : B → A) (l : list A) :
  (∀ x, P x → g (f x) = x) → Forall P l → g <$> (f <$> l) = l.
Proof. intros Hfg. induction 1 as [|x l Hx Hl IH]; [done|]. cbn. by rewrite Hfg, IH. Qed.

Lemma normalise_wide c a : col_type_of c ≠ utf8 → Forall (cell_ok c) a →
  normalise c (match col_type_of c with
               | float64 => Floats (raw_number NaN <$> a)
               | date32 => Days (raw_number NaT <$> a)
               | _ => Stamps (raw_number NaT <$> a)
               end) = Ret a.
Proof.
  intros Hu Ha. unfold normalise. destruct (col_type_of c) eqn:Ht; [done| | |].
  - unfold date32_column. rewrite Forall_forallb.
    + f_equal. apply (Forall_fmap_id (cell_ok c)); [|done]. intros [[]|] Hv; unfold cell_ok in Hv; rewrite ?Ht in Hv; try done.
      cbn [raw_number]. unfold date_cell. destruct (Z.eqb_spec days NaT) as [->|]; [done|done].
    + apply Forall_fmap. eapply Forall_impl; [exact Ha|]. intros [[]|] Hv; unfold cell_ok in Hv; rewrite ?Ht in Hv; try done.
      cbn [compose raw_number]. by rewrite Hv, orb_true_r.
  - unfold timestamp_column. f_equal. apply (Forall_fmap_id (cell_ok c)); [|done].
    intros [[]|] Hv; unfold cell_ok in Hv; rewrite ?Ht in Hv; try done. cbn [raw_number]. unfold stamp_cell.
    destruct (Z.eqb_spec ns NaT) as [->|]; [done|done].
  - unfold float64_column. rewrite Forall_existsb_false.
    + assert (negb (nullable c) && existsb is_nan (raw_number NaN <$> a) = false) as ->.
      { destruct (nullable c) eqn:Hn; [done|]. apply Forall_existsb_false, Forall_fmap. eapply Forall_impl; [exact Ha|].
        intros [[]|] Hv; unfold cell_ok in Hv; rewrite ?Ht in Hv; try done; [|congruence]. cbn. apply Hv. }
      f_equal. apply (Forall_fmap_id (cell_ok c)); [|done].
      intros [[]|] Hv; unfold cell_ok in Hv; rewrite ?Ht in Hv; try done. cbn [raw_number].
      destruct Hv as (Hd & Hn & Hi & Hz). unfold float_cell. rewrite Hn.
      destruct (is_zero bits); [by rewrite Hz|done].
    + apply Forall_fmap. eapply Forall_impl; [exact Ha|]. intros [[]|] Hv; unfold cell_ok in Hv; rewrite ?Ht in Hv; try done.
      cbn. apply Hv.
Qed.

(** ** Text columns *)

Definition item_of (v : cell) : item := match v with Some (VText s) => IStr s | _ => INone end.

Lemma parse_texts_encoded c a rest : col_type_of c = utf8 → Forall (cell_ok c) a →
  parse_texts (length a) c (concat_text (encode_cell c <$> a) +:+ rest) = Some (item_of <$> a, rest).
Proof.
  intros Ht. induction 1 as [|v a Hv Ha IH]; [done|].
  change (concat_text (encode_cell c <$> v :: a)) with (encode_cell c v +:+ concat_text (encode_cell c <$> a)).
  rewrite string_app_assoc. cbn [length parse_texts]. unfold encode_cell, cell_ok in *. rewrite Ht in *.
  set (tail := concat_text _ +:+ rest) in *.
  assert (∀ n s, 0 ≤ n < 2 ^ 64 → let r := u64 n +:+ s in
    (len r <? 8) = false ∧ le_value (str_prefix 8 r) = n ∧ str_suffix 8 r = s) as Hu64.
  { intros n s Hn r. assert (String.length (u64 n) = 8%nat) as Hl by apply le_bytes_length.
    split_and!.
    - unfold r. rewrite len_app. unfold len at 1. rewrite Hl. pose proof (len_nonneg s). apply Z.ltb_ge. lia.
    - unfold r. rewrite <-Hl at 1. rewrite str_prefix_app. by apply le_value_id.
    - unfold r. rewrite <-Hl at 1. by rewrite str_suffix_app. }
  destruct v as [[| | |s]|]; try done.
  - destruct Hv as [Hs Hlen]. cbn [encode_value].
    destruct (Hu64 (len s) (s +:+ tail)) as (H1 & H2 & H3); [pose proof (len_nonneg s); lia|].
    assert (∀ (r : string), r = u64 (len s) +:+ s +:+ tail →
      (if len r <? 8 then None
       else if len (str_suffix 8 r) <? le_value (str_prefix 8 r) then None
       else '(rest0, r0) ← parse_texts (length a) c (str_suffix (Z.to_nat (le_value (str_prefix 8 r))) (str_suffix 8 r));
            if valid_text (str_prefix (Z.to_nat (le_value (str_prefix 8 r))) (str_suffix 8 r))
            then Some (IStr (str_prefix (Z.to_nat (le_value (str_prefix 8 r))) (str_suffix 8 r)) :: rest0, r0) else None)
      = Some (IStr s :: (item_of <$> a), rest)) as Hread.
    { intros r ->. rewrite H1, H2, H3, len_id, str_prefix_app, str_suffix_app, Hs.
      rewrite (proj2 (Z.ltb_ge _ _)); [by rewrite IH|]. rewrite len_app. pose proof (len_nonneg tail). lia. }
    destruct (nullable c).
    + change (byte 1 +:+ ?x) with (String (byte_char 1) x). rewrite !string_app_cons, string_app_assoc.
      cbn [mbind option_bind]. exact (Hread _ eq_refl).
    + change (EmptyString +:+ ?x) with x. rewrite string_app_assoc. cbn [mbind option_bind]. exact (Hread _ eq_refl).
  - rewrite Hv. change (byte 0 +:+ ?x) with (String (byte_char 0) x). rewrite string_app_cons.
    cbn [mbind option_bind]. destruct (Hu64 0 tail) as (H1 & H2 & H3); [lia|]. cbv zeta in H1, H2, H3.
    change (1 <? byte_val (byte_char 0)) with false. change (byte_val (byte_char 0) =? 1) with false. cbv iota.
    cbn [mbind option_bind]. rewrite H1, H2, H3. change (Z.to_nat 0) with 0%nat.
    rewrite (proj2 (Z.ltb_ge _ _)) by apply len_nonneg. 
    assert (str_suffix 0 tail = tail) as -> by (by destruct tail).
    by rewrite IH.
Qed.

Lemma mapM_item c a : col_type_of c = utf8 → Forall (cell_ok c) a → mapM (text_item c) (item_of <$> a) = Some a.
Proof.
  intros Ht. induction 1 as [|v a Hv Ha IH]; [done|]. cbn [fmap list_fmap mapM].
  assert (text_item c (item_of v) = Some v) as ->; [|cbn; by rewrite IH].
  unfold cell_ok in Hv. rewrite Ht in Hv. destruct v as [[]|]; try done; cbn [item_of text_item].
  - destruct Hv as [Hs _]. by rewrite Hs.
  - by rewrite Hv.
Qed.

(** ** Any column *)

Lemma parse_encoded c a : Forall (cell_ok c) a →
  ∃ data, parse c (concat_text (encoded c a)) (Z.of_nat (length a)) = Some data ∧ normalise c data = Ret a.
Proof.
  intros Ha. rewrite concat_encoded. unfold parse. rewrite (proj2 (Z.ltb_ge _ _)) by lia.
  destruct (decide (col_type_of c = utf8)) as [Ht|Ht].
  - rewrite Ht. exists (Items (item_of <$> a)). split.
    + unfold parse_utf8. rewrite Nat2Z.id. pose proof (parse_texts_encoded c a "" Ht Ha) as Hp.
      assert (∀ s, s +:+ "" = s) as Hnil by (intros s; induction s as [|x s IHs]; [done|rewrite string_app_cons; by rewrite IHs]).
      rewrite Hnil in Hp. by rewrite Hp.
    + unfold normalise. rewrite Ht. unfold utf8_column. by rewrite mapM_item.
  - eexists. split; [|by apply normalise_wide].
    rewrite <-parse_wide_encoded by done. by destruct (col_type_of c).
Qed.

(** Equal encodings of columns of one length come from equal columns. *)
Lemma encoded_inj c a b : Forall (cell_ok c) a → Forall (cell_ok c) b → length a = length b →
  concat_text (encoded c a) = concat_text (encoded c b) → a = b.
Proof.
  intros Ha Hb Hl E. destruct (parse_encoded c a Ha) as (da & Hpa & Hna). destruct (parse_encoded c b Hb) as (db & Hpb & Hnb).
  rewrite E, Hl, Hpb in Hpa. injection Hpa as ->. congruence.
Qed.
