(* ===== verification/DatasetTables.v ===== *)
(** What [Table.build] guarantees: every table it returns is well typed and
    strictly sorted by its key, holds exactly the rows it was given, and is
    the same whatever order they came in. *)

From S2P Require Import Prelude Numeric Models Json JsonText JsonRead DateTime DatasetFormat DatasetCodec.
From stdpp Require Import sorting.
From Stdlib Require Import Ascii.
#[local] Open Scope Z_scope.

(** ** The order of keys *)

(** A comparison that orders its arguments totally. *)
Record orders {A} (cmp : A → A → comparison) : Prop := {
  cmp_opp : ∀ x y, cmp y x = CompOpp (cmp x y);
  cmp_trans : ∀ x y z, cmp x y ≠ Gt → cmp y z ≠ Gt → cmp x z ≠ Gt
}.

Section orders.
Context {A} (cmp : A → A → comparison) (O : orders cmp).

Lemma cmp_refl x : cmp x x = Eq.
Proof. pose proof (cmp_opp _ O x x) as E. by destruct (cmp x x). Qed.

Lemma cmp_lt_le x y z : cmp x y = Lt → cmp y z ≠ Gt → cmp x z = Lt.
Proof.
  intros Hxy Hyz. destruct (cmp x z) eqn:E; [|done|].
  - exfalso. assert (cmp y x ≠ Gt) as H.
    { eapply (cmp_trans _ O); [exact Hyz|]. rewrite (cmp_opp _ O), E. done. }
    by rewrite (cmp_opp _ O), Hxy in H.
  - exfalso. apply (cmp_trans _ O x y z); congruence.
Qed.

Lemma cmp_le_lt x y z : cmp x y ≠ Gt → cmp y z = Lt → cmp x z = Lt.
Proof.
  intros Hxy Hyz. destruct (cmp x z) eqn:E; [|done|].
  - exfalso. assert (cmp z y ≠ Gt) as H.
    { eapply (cmp_trans _ O); [|exact Hxy]. rewrite (cmp_opp _ O), E. done. }
    by rewrite (cmp_opp _ O), Hyz in H.
  - exfalso. apply (cmp_trans _ O x y z); congruence.
Qed.

Lemma cmp_eq_trans x y z : cmp x y = Eq → cmp y z = Eq → cmp x z = Eq.
Proof.
  intros Hxy Hyz. destruct (cmp x z) eqn:E; [done| |].
  - exfalso. assert (cmp z x ≠ Gt) as H.
    { apply (cmp_trans _ O z y x); rewrite (cmp_opp _ O); [rewrite Hyz|rewrite Hxy]; done. }
    by rewrite (cmp_opp _ O), E in H.
  - exfalso. apply (cmp_trans _ O x y z); congruence.
Qed.
End orders.

Lemma orders_Z : orders Z.compare.
Proof. split; intros; [apply Z.compare_antisym|]. rewrite Z.compare_le_iff in *. lia. Qed.

Lemma string_compare_cons c d s t :
  String.compare (String c s) (String d t) =
  match N.compare (N_of_ascii c) (N_of_ascii d) with Eq => String.compare s t | o => o end.
Proof. reflexivity. Qed.

Lemma orders_string : orders String.compare.
Proof.
  split; [intros x y; apply String.compare_antisym|].
  intros x. induction x as [|a x IH]; intros [|b y] [|c z]; try done.
  rewrite !string_compare_cons. intros H1 H2.
  destruct (N.compare_spec (N_of_ascii a) (N_of_ascii b)) as [E|E|E]; [| |done];
    destruct (N.compare_spec (N_of_ascii b) (N_of_ascii c)) as [E'|E'|E']; try done.
  - rewrite E, E', N.compare_refl. by eapply IH.
  - by rewrite E, (proj2 (N.compare_lt_iff _ _)).
  - by rewrite <-E', (proj2 (N.compare_lt_iff _ _)).
  - rewrite (proj2 (N.compare_lt_iff _ _)); [done|lia].
Qed.

Lemma orders_cell : orders cell_compare.
Proof.
  unfold cell_compare. split.
  - intros x y. destruct (sort_code x), (sort_code y); try done; [apply Z.compare_antisym|apply String.compare_antisym].
  - intros x y z. destruct (sort_code x), (sort_code y), (sort_code z); try done;
      [apply (cmp_trans _ orders_Z)|apply (cmp_trans _ orders_string)].
Qed.

(** Keys of one table have one length. *)
Section keys.
Variable keys : list (list cell).
#[local] Abbreviation at_ := (key_at keys).

Lemma key_compare_opp i j : key_compare (at_ j) (at_ i) = CompOpp (key_compare (at_ i) (at_ j)).
Proof.
  unfold key_at. induction keys as [|a ks IH]; [done|]. cbn [fmap list_fmap key_compare].
  rewrite (cmp_opp _ orders_cell (array_at a i)). by destruct (cell_compare (array_at a i) (array_at a j)).
Qed.

Lemma key_compare_trans i j k :
  key_compare (at_ i) (at_ j) ≠ Gt → key_compare (at_ j) (at_ k) ≠ Gt → key_compare (at_ i) (at_ k) ≠ Gt.
Proof.
  unfold key_at. induction keys as [|a ks IH]; [done|]. cbn [fmap list_fmap key_compare].
  destruct (cell_compare (array_at a i) (array_at a j)) eqn:E1, (cell_compare (array_at a j) (array_at a k)) eqn:E2;
    try done; intros H1 H2.
  - rewrite (cmp_eq_trans _ orders_cell _ _ _ E1 E2). by apply IH.
  - by rewrite (cmp_le_lt _ orders_cell _ (array_at a j)) by congruence.
  - by rewrite (cmp_lt_le _ orders_cell _ (array_at a j)) by congruence.
  - by rewrite (cmp_lt_le _ orders_cell _ (array_at a j)) by congruence.
Qed.

Lemma orders_rows : orders (λ i j, key_compare (at_ i) (at_ j)).
Proof. split; [apply key_compare_opp|apply key_compare_trans]. Qed.

#[local] Instance key_le_trans : Transitive (key_le keys).
Proof. intros i j k. apply key_compare_trans. Qed.
#[local] Instance key_le_total : Total (key_le keys).
Proof. intros i j. unfold key_le. rewrite (key_compare_opp i j). destruct (key_compare (at_ i) (at_ j)); [left|left|right]; done. Qed.

Definition key_lt (i j : nat) : Prop := key_compare (at_ i) (at_ j) = Lt.

Lemma key_order_perm n : key_order keys n ≡ₚ seq 0 n.
Proof. apply merge_sort_Permutation. Qed.

Lemma no_duplicate_sorted order :
  StronglySorted (key_le keys) order → has_duplicate keys order = false → StronglySorted key_lt order.
Proof.
  induction 1 as [|i order Hs IH Hi]; intros Hd; [constructor|].
  destruct order as [|j order]; [by repeat constructor|].
  cbn [has_duplicate] in Hd. apply orb_false_elim in Hd as [Hne%bool_decide_eq_false Hd].
  assert (key_lt i j) as Hij.
  { apply Forall_cons_1 in Hi as [Hij _]. unfold key_le, key_lt in *. by destruct (key_compare (at_ i) (at_ j)). }
  constructor; [by apply IH|]. constructor; [done|].
  apply StronglySorted_inv in Hs as [_ Hj]. eapply Forall_impl; [exact Hj|]. intros k Hk.
  by eapply (cmp_lt_le _ orders_rows _ j).
Qed.

Lemma key_order_sorted n : has_duplicate keys (key_order keys n) = false → StronglySorted key_lt (key_order keys n).
Proof. apply no_duplicate_sorted, (StronglySorted_merge_sort (key_le keys)). Qed.

Lemma sorted_no_duplicate order : StronglySorted key_lt order → has_duplicate keys order = false.
Proof.
  induction 1 as [|i order Hs IH Hi]; [done|]. destruct order as [|j order]; [done|]. cbn [has_duplicate].
  apply Forall_cons_1 in Hi as [Hij _]. unfold key_lt in Hij. rewrite Hij. rewrite bool_decide_false by done. exact IH.
Qed.

(** Rows already in strict order stay where they are. *)
Lemma key_order_unique order n : order ≡ₚ seq 0 n → StronglySorted key_lt order → key_order keys n = order.
Proof.
  intros Hp Hs. apply (StronglySorted_unique_strong (key_le keys)).
  - intros i j Hi Hj Hij Hji. destruct (decide (i = j)) as [|Hne]; [done|]. exfalso.
    assert (key_lt i j ∨ key_lt j i) as [Hlt|Hlt].
    { assert (j ∈ order) as Hj' by done. assert (i ∈ order) as Hi' by (by rewrite Hp, <-(key_order_perm n)).
      clear -Hs Hi' Hj' Hne. induction Hs as [|k order Hs IH Hk]; [by apply not_elem_of_nil in Hi'|].
      rewrite Forall_forall in Hk. apply elem_of_cons in Hi' as [->|Hi'], Hj' as [->|Hj'];
        [done|left; by apply Hk|right; by apply Hk|by apply IH]. }
    + unfold key_le in Hji. rewrite (key_compare_opp i j), Hlt in Hji. done.
    + unfold key_le in Hij. rewrite (key_compare_opp j i), Hlt in Hij. done.
  - apply (StronglySorted_merge_sort (key_le keys)).
  - clear -Hs. induction Hs as [|i order Hs IH Hi]; constructor; [done|].
    eapply Forall_impl; [exact Hi|]. intros j Hj. unfold key_le, key_lt in *. congruence.
  - by rewrite key_order_perm, Hp.
Qed.
End keys.

(** ** Well-typed tables *)

(** Values an array can hold: doubles and 64-bit integers. *)
Definition is_int64 (z : Z) : Prop := - 2 ^ 63 ≤ z < 2 ^ 63.
Definition item_ok (i : item) : Prop :=
  match i with
  | IInt z => is_double (f64_bits (nof_Z z))
  | IFloat bits => is_double bits
  | IStr s => len s < 2 ^ 64
  | _ => True
  end.
Definition data_ok (d : column_data) : Prop :=
  match d with
  | Items l => Forall item_ok l
  | Floats l => Forall is_double l
  | Days l | Stamps l => Forall is_int64 l
  end.

Definition table_keys (t : Table) : list (list cell) := key_arrays (tb_schema t) (tb_columns t).

Record table_ok (t : Table) : Prop := {
  tok_schema : schema_valid (tb_schema t) = true;
  tok_cells : Forall2 (λ c a, Forall (cell_ok c) a) (ts_columns (tb_schema t)) (tb_columns t);
  tok_lengths : Forall (λ a, length a = row_count t) (tb_columns t);
  tok_sorted : ∀ i j, (i < j < row_count t)%nat → key_compare (key_at (table_keys t) i) (key_at (table_keys t) j) = Lt
}.

Lemma mapM_Forall {A B} (f : A → option B) (P : A → Prop) (Q : B → Prop) l k :
  (∀ x y, P x → f x = Some y → Q y) → Forall P l → mapM f l = Some k → Forall Q k.
Proof.
  intros Hf. revert k. induction l as [|x l IH]; intros k Hl; cbn; [by intros [= <-]|].
  apply Forall_cons_1 in Hl as [Hx Hl]. destruct (f x) as [y|] eqn:E; [|done]. cbn.
  destruct (mapM f l) as [k'|] eqn:E'; [|done]. intros [= <-]. constructor; [by eapply Hf|by apply IH].
Qed.

Definition or_null (P : cell → Prop) (v : cell) : Prop := v = None ∨ P v.

Lemma existsb_false_Forall {A} (p : A → bool) (l : list A) : existsb p l = false → Forall (λ x, p x = false) l.
Proof. induction l as [|x l IH]; [constructor|]. cbn. intros [Hx Hl]%orb_false_elim. constructor; auto. Qed.
Lemma forallb_Forall {A} (p : A → bool) (l : list A) : forallb p l = true → Forall (λ x, p x = true) l.
Proof. induction l as [|x l IH]; [constructor|]. cbn. intros [Hx Hl]%andb_prop. constructor; auto. Qed.

Lemma is_nan_NaN : is_nan NaN = true.
Proof. reflexivity. Qed.

Lemma float64_column_ok c d a : data_ok d → col_type_of c = float64 → float64_column c d = Ret a →
  Forall (or_null (cell_ok c)) a.
Proof.
  intros Hd Ht. unfold float64_column.
  destruct (match d with Items l => mapM number_item l | Floats l => Some l | _ => None end) as [bits|] eqn:E; [|done].
  destruct (existsb is_inf bits) eqn:Hinf; [done|]. destruct (_ && _); [done|]. intros [= <-].
  assert (Forall is_double bits) as Hb.
  { destruct d as [l|l|l|l]; try done; [|by injection E as <-].
    eapply (mapM_Forall number_item item_ok); [|exact Hd|exact E]. intros [] y; cbn; try done; try (intros _ [= <-]; done).
    - intros Hok [= <-]. exact Hok.
    - intros Hok [= <-]. exact Hok. }
  apply Forall_fmap. apply existsb_false_Forall in Hinf.
  assert (Forall (λ b, is_double b ∧ is_inf b = false) bits) as Hall by (by apply Forall_and).
  eapply Forall_impl; [exact Hall|]. intros b [Hdb Hib]. cbn. unfold float_cell.
  destruct (is_nan b) eqn:Hnan; [by left|]. right. unfold cell_ok. rewrite Ht. destruct (is_zero b) eqn:Hz.
  - by split_and!.
  - split; [exact Hdb|split; [done|split; [done|congruence]]].
Qed.


Lemma normalise_ok c d a : data_ok d → normalise c d = Ret a → Forall (or_null (cell_ok c)) a.
Proof.
  intros Hd. unfold normalise. destruct (col_type_of c) eqn:Ht.
  - unfold utf8_column. intros H.
    assert (∃ l, (d = Items l ∧ mapM (text_item c) l = Some a) ∨ a = []) as (l & [[-> Hm]| ->]); [| |constructor].
    { destruct d as [l|[|]|[|]|[|]]; try done; try (injection H as <-; exists []; by right).
      exists l. left. split; [done|]. by destruct (mapM _ l); [injection H as <-|]. }
    eapply (mapM_Forall (text_item c) item_ok); [|exact Hd|exact Hm].
    intros [] y; cbn; try done.
    + intros _. destruct (nullable c); [|done]. intros [= <-]. by left.
    + intros Hl. destruct (valid_text s) eqn:E; [|done]. intros [= <-]. right. unfold cell_ok. by rewrite Ht.
  - unfold date32_column. destruct (match d with Days l => _ | _ => _ end) as [l|]; [|done].
    destruct (forallb _ l) eqn:E; [|done]. intros [= <-]. apply Forall_fmap.
    eapply Forall_impl; [apply (forallb_Forall _ _ E)|]. intros z Hz. cbn in Hz |- *. unfold date_cell.
    destruct (z =? NaT); [by left|]. right. unfold cell_ok. by rewrite Ht.
  - unfold timestamp_column. destruct (match d with Stamps l => _ | _ => _ end) as [l|] eqn:E; [|done].
    intros [= <-]. apply Forall_fmap.
    assert (Forall (λ z, z = NaT ∨ in_stamps z = true) l) as Hl.
    { destruct d as [k|[|]|k|k]; try done.
      - eapply (mapM_Forall one_timestamp (λ _, True)); [|by apply Forall_true|exact E].
        intros [| | | | | |[ns|]] y _; cbn; try done; [intros [= <-]; by left|].
        destruct (in_stamps ns) eqn:Hin; [|done]. intros [= <-]. by right.
      - injection E as <-. constructor.
      - destruct (forallb _ k) eqn:Ef; [|done]. injection E as <-. apply Forall_fmap.
        eapply Forall_impl; [apply (forallb_Forall _ _ Ef)|]. intros z. cbn.
        destruct (z =? NaT); [by left|]. cbn. by right.
      - injection E as <-. eapply Forall_impl; [exact Hd|]. intros z. unfold is_int64, in_stamps, NaT. lia. }
    eapply Forall_impl; [exact Hl|]. intros z Hz. cbn. unfold stamp_cell. destruct (Z.eqb_spec z NaT); [by left|].
    right. unfold cell_ok. rewrite Ht. by destruct Hz.
  - by apply float64_column_ok.
Qed.

(** ** Building *)

(** The rows of [a] at the positions [p]. *)
Definition pick {A} (p : list nat) (a : list A) : list A := omap (λ i, a !! i) p.

Lemma pick_cons {A} i (p : list nat) (a : list A) v : a !! i = Some v → pick (i :: p) a = v :: pick p a.
Proof. intros Hv. unfold pick. cbn. by rewrite Hv. Qed.

Lemma array_at_pick (p : list nat) (a : list cell) :
  Forall (λ i, i < length a)%nat p → array_at a <$> p = pick p a.
Proof.
  induction 1 as [|i p Hi Hp IH]; [done|]. destruct (lookup_lt_is_Some_2 a i Hi) as [v Hv].
  rewrite (pick_cons _ _ _ _ Hv), <-IH. cbn. f_equal. unfold array_at. by rewrite Hv.
Qed.

Lemma pick_length {A} (p : list nat) (a : list A) : Forall (λ i, i < length a)%nat p → length (pick p a) = length p.
Proof.
  induction 1 as [|i p Hi Hp IH]; [done|]. destruct (lookup_lt_is_Some_2 a i Hi) as [v Hv].
  rewrite (pick_cons _ _ _ _ Hv). cbn. by rewrite IH.
Qed.

Lemma pick_lookup {A} (p : list nat) (a : list A) k :
  Forall (λ i, i < length a)%nat p → pick p a !! k = p !! k ≫= λ i, a !! i.
Proof.
  intros Hp. revert k. induction Hp as [|i p Hi Hp IH]; intros k; [done|].
  destruct (lookup_lt_is_Some_2 a i Hi) as [v Hv]. rewrite (pick_cons _ _ _ _ Hv). destruct k as [|k]; [exact (eq_sym Hv)|apply IH].
Qed.

Lemma pick_Forall {A} (P : A → Prop) (p : list nat) (a : list A) : Forall P a → Forall P (pick p a).
Proof.
  intros Ha. unfold pick. apply Forall_forall. intros x (i & _ & Hi)%list_elem_of_omap.
  rewrite Forall_forall in Ha. apply Ha. by eapply list_elem_of_lookup_2.
Qed.

Lemma perm_below order n : order ≡ₚ seq 0 n → Forall (λ i, i < n)%nat order.
Proof. intros ->. apply Forall_forall. intros i Hi%elem_of_seq. lia. Qed.

Lemma key_at_pick (p : list nat) keys n k i :
  Forall (λ i, i < n)%nat p → Forall (λ a, length a = n) keys → p !! k = Some i →
  key_at (pick p <$> keys) k = key_at keys i.
Proof.
  intros Hp Hk Hi. unfold key_at. rewrite <-list_fmap_compose. apply list_fmap_ext. intros j a Ha. cbn.
  unfold array_at. rewrite pick_lookup, Hi; [done|]. rewrite Forall_lookup in Hk. by rewrite (Hk _ _ Ha).
Qed.

Lemma normalise_all_spec cs data arrays :
  normalise_all cs data = Ret arrays ↔
  Forall2 (λ c a, normalise c (default (Items []) (data !! col_name c)) = Ret a) cs arrays.
Proof.
  revert arrays. induction cs as [|c cs IH]; intros arrays.
  - cbn. split; [intros [= <-]; constructor|]. by intros ->%Forall2_nil_inv_l.
  - cbn [normalise_all]. split.
    + intros (a & Ha & H)%obind_Ret. apply obind_Ret in H as (rest & Hr & [= <-]). constructor; [done|by apply IH].
    + intros (a & rest & Ha & Hr & ->)%Forall2_cons_inv_l. rewrite Ha. cbn. apply IH in Hr. by rewrite Hr.
Qed.

(** The position of a named column. *)
Lemma key_column_found s k : schema_valid s = true → k ∈ ts_key s →
  ∃ i c, list_find (λ c, col_name c = k) (ts_columns s) = Some (i, c).
Proof.
  unfold schema_valid. rewrite !andb_true_iff. intros [_ Hk] Hin. rewrite forallb_forall in Hk.
  apply list_elem_of_In, Hk, existsb_exists in Hin as (c & Hc & [E%bool_decide_eq_true _]%andb_prop).
  destruct (list_find_elem_of (λ c, col_name c = k) (ts_columns s) c) as [[i c'] Hf]; [by apply list_elem_of_In|done|].
  by exists i, c'.
Qed.

Lemma key_arrays_fmap s (f : list cell → list cell) arrays :
  schema_valid s = true → length arrays = length (ts_columns s) →
  key_arrays s (f <$> arrays) = f <$> key_arrays s arrays.
Proof.
  intros Hs Hl. unfold key_arrays. rewrite <-list_fmap_compose. apply list_fmap_ext. intros j k Hk. cbn.
  destruct (key_column_found s k Hs) as (i & c & E); [by eapply list_elem_of_lookup_2|].
  rewrite E. cbn. rewrite list_lookup_fmap. apply list_find_Some in E as (E & _ & _).
  apply lookup_lt_Some in E. destruct (lookup_lt_is_Some_2 arrays i) as [a ->]; [lia|done].
Qed.

Lemma key_arrays_Forall s (P : list cell → Prop) arrays :
  schema_valid s = true → length arrays = length (ts_columns s) → Forall P arrays → Forall P (key_arrays s arrays).
Proof.
  intros Hs Hl HP. unfold key_arrays. apply Forall_fmap, Forall_forall. intros k Hk. cbn.
  destruct (key_column_found s k Hs Hk) as (i & c & E). rewrite E. cbn. apply list_find_Some in E as (E & _ & _).
  apply lookup_lt_Some in E. destruct (lookup_lt_is_Some_2 arrays i) as [a Ha]; [lia|]. rewrite Ha. cbn.
  rewrite Forall_forall in HP. apply HP. by eapply list_elem_of_lookup_2.
Qed.

Lemma missing_value_false cs arrays :
  missing_value cs arrays = false → Forall2 (λ c a, Forall (or_null (cell_ok c)) a) cs arrays →
  Forall2 (λ c a, Forall (cell_ok c) a) cs arrays.
Proof.
  unfold missing_value. intros Hm H. induction H as [|c a cs arrays Ha H IH]; [constructor|].
  cbn in Hm. apply orb_false_elim in Hm as [Hc Hm]. constructor; [|by apply IH].
  destruct (nullable c) eqn:Hn.
  - eapply Forall_impl; [exact Ha|]. intros v [->|Hv]; [exact Hn|done].
  - cbn in Hc. apply existsb_false_Forall in Hc.
    assert (Forall (λ v, or_null (cell_ok c) v ∧ bool_decide (v = None) = false) a) as Hb by (by apply Forall_and).
    eapply Forall_impl; [exact Hb|]. intros v [[->|Hv] Hne]; [done|done].
Qed.

Lemma missing_value_ok cs arrays : Forall2 (λ c a, Forall (cell_ok c) a) cs arrays → missing_value cs arrays = false.
Proof.
  unfold missing_value. induction 1 as [|c a cs arrays Ha H IH]; [done|]. cbn. rewrite IH, orb_false_r.
  destruct (nullable c) eqn:Hn; [done|]. cbn. apply Forall_existsb_false. eapply Forall_impl; [exact Ha|].
  intros [v|] Hv; [done|]. cbn in Hv. congruence.
Qed.

Lemma key_lt_rows keys order : StronglySorted (key_lt keys) order →
  ∀ i j x y, (i < j)%nat → order !! i = Some x → order !! j = Some y → key_lt keys x y.
Proof.
  induction 1 as [|z order Hs IH Hz]; intros i j x y Hij Hi Hj; [done|].
  destruct j as [|j]; [lia|]. destruct i as [|i].
  - cbn in Hi. injection Hi as ->. rewrite Forall_forall in Hz. apply Hz. by eapply list_elem_of_lookup_2.
  - cbn in Hi, Hj. eapply (IH i j); [lia|done|done].
Qed.

(** What a successful build did. *)
Lemma build_Ret s data t : build s data = Ret t ↔
  ∃ arrays n order,
    dom data = list_to_set (col_name <$> ts_columns s) ∧ normalise_all (ts_columns s) data = Ret arrays ∧
    n = length (default [] (arrays !! 0%nat)) ∧ Forall (λ a, length a = n) arrays ∧
    missing_value (ts_columns s) arrays = false ∧ order = key_order (key_arrays s arrays) n ∧
    has_duplicate (key_arrays s arrays) order = false ∧ t = mkTable s (pick order <$> arrays).
Proof.
  unfold build. split.
  - case_bool_decide as Hd; [|done]. cbn [negb]. intros (arrays & Ha & H)%obind_Ret. cbv zeta in H.
    set (n := length (default [] (arrays !! 0%nat))) in *.
    destruct (forallb _ arrays) eqn:Hl; [|done]. cbn [negb] in H. destruct (missing_value _ _) eqn:Hm; [done|].
    destruct (has_duplicate _ _) eqn:Hdup; [done|]. injection H as <-.
    assert (Forall (λ a : list cell, length a = n) arrays) as Hlen.
    { eapply Forall_impl; [apply (forallb_Forall _ _ Hl)|]. intros a Hn. by apply Nat.eqb_eq. }
    exists arrays, n, (key_order (key_arrays s arrays) n). split_and!; try done. f_equal.
    apply list_fmap_ext. intros j a Hj. apply array_at_pick.
    rewrite (Forall_lookup_1 _ _ _ _ Hlen Hj). apply perm_below, key_order_perm.
  - intros (arrays & n & order & Hd & Ha & Hn & Hl & Hm & Ho & Hdup & ->).
    rewrite bool_decide_true by done. cbn [negb]. rewrite Ha. cbn [obind]. rewrite <-Hn.
    rewrite Forall_forallb by (eapply Forall_impl; [exact Hl|]; intros a E; by apply Nat.eqb_eq).
    cbn [negb]. rewrite Hm, <-Ho, Hdup. f_equal. f_equal.
    apply list_fmap_ext. intros j a Hj. apply array_at_pick.
    rewrite (Forall_lookup_1 _ _ _ _ Hl Hj), Ho. apply perm_below, key_order_perm.
Qed.

Lemma normalise_all_ok cs data arrays :
  (∀ k d, data !! k = Some d → data_ok d) → normalise_all cs data = Ret arrays →
  Forall2 (λ c a, Forall (or_null (cell_ok c)) a) cs arrays.
Proof.
  intros Hd H%normalise_all_spec. eapply Forall2_impl; [exact H|]. intros c a. apply normalise_ok.
  destruct (data !! col_name c) as [d|] eqn:E; [by eapply Hd|constructor].
Qed.

Lemma pick_seq {A} (a : list A) : pick (seq 0 (length a)) a = a.
Proof.
  apply list_eq. intros k. rewrite pick_lookup by (apply Forall_forall; intros i Hi%elem_of_seq; lia).
  destruct (decide (k < length a)%nat) as [Hk|Hk].
  - by rewrite lookup_seq_lt by done.
  - rewrite lookup_seq_ge, lookup_ge_None_2 by lia. done.
Qed.

Lemma build_table_ok s data t :
  schema_valid s = true → (∀ k d, data !! k = Some d → data_ok d) → build s data = Ret t → table_ok t.
Proof.
  intros Hs Hd (arrays & n & order & _ & Ha & Hn & Hl & Hm & Ho & Hdup & ->)%build_Ret.
  pose proof (normalise_all_ok _ _ _ Hd Ha) as Hok. apply (missing_value_false _ _ Hm) in Hok.
  pose proof (Forall2_length _ _ _ Hok) as Hlen. symmetry in Hlen.
  assert (order ≡ₚ seq 0 n) as Hp by (rewrite Ho; apply key_order_perm).
  pose proof (perm_below _ _ Hp) as Hbelow.
  assert (Forall (λ a : list cell, length a = n) (pick order <$> arrays)) as Hpl.
  { apply Forall_fmap. eapply Forall_impl; [exact Hl|]. intros a E. cbn. rewrite pick_length by (by rewrite E).
    by rewrite (Permutation_length Hp), length_seq. }
  assert (row_count (mkTable s (pick order <$> arrays)) = n) as Hrows.
  { unfold row_count. cbn. rewrite list_lookup_fmap. destruct arrays as [|a arrays]; [by rewrite Hn|].
    cbn. by apply Forall_cons_1 in Hpl as [-> _]. }
  split; cbn [tb_schema tb_columns].
  - done.
  - clear -Hok. induction Hok as [|c a cs arrays Ha H IH]; constructor; [|done]. by apply pick_Forall.
  - by rewrite Hrows.
  - rewrite Hrows. intros i j Hij. unfold table_keys. cbn [tb_schema tb_columns].
    rewrite key_arrays_fmap by done.
    assert (Forall (λ a : list cell, length a = n) (key_arrays s arrays)) as Hkl by by apply key_arrays_Forall.
    destruct (lookup_lt_is_Some_2 order i) as [x Hx]; [rewrite (Permutation_length Hp), length_seq; lia|].
    destruct (lookup_lt_is_Some_2 order j) as [y Hy]; [rewrite (Permutation_length Hp), length_seq; lia|].
    rewrite (key_at_pick order _ n i x), (key_at_pick order _ n j y) by done.
    rewrite Ho in Hx, Hy, Hdup. by eapply (key_lt_rows _ _ (key_order_sorted _ _ Hdup) i j); [lia|..].
Qed.

Lemma table_ok_key_lt t : table_ok t → StronglySorted (key_lt (table_keys t)) (seq 0 (row_count t)).
Proof.
  intros Ht. assert (∀ m k, (k + m ≤ row_count t)%nat → StronglySorted (key_lt (table_keys t)) (seq k m)) as H.
  { induction m as [|m IH]; intros k Hk; [constructor|]. cbn. constructor; [apply IH; lia|].
    apply Forall_forall. intros i Hi%elem_of_seq. apply (tok_sorted _ Ht). lia. }
  apply H. lia.
Qed.

(** A table is built again from any data that normalises to its columns. *)
Lemma rebuild t data : table_ok t →
  dom data = list_to_set (col_name <$> ts_columns (tb_schema t)) →
  Forall2 (λ c a, normalise c (default (Items []) (data !! col_name c)) = Ret a) (ts_columns (tb_schema t)) (tb_columns t) →
  build (tb_schema t) data = Ret t.
Proof.
  intros Ht Hdom Hn. apply build_Ret. pose proof (table_ok_key_lt t Ht) as Hs.
  assert (key_order (table_keys t) (row_count t) = seq 0 (row_count t)) as Ho by by apply key_order_unique.
  exists (tb_columns t), (row_count t), (seq 0 (row_count t)). split_and!; try done.
  - by apply normalise_all_spec.
  - apply (tok_lengths _ Ht).
  - apply missing_value_ok, (tok_cells _ Ht).
  - by apply sorted_no_duplicate.
  - destruct t as [s cols]. f_equal. cbn [tb_columns tb_schema]. symmetry.
    pose proof (tok_lengths _ Ht) as Hl. cbn [tb_columns] in Hl. etrans; [|apply list_fmap_id].
    apply list_fmap_ext. intros j a Hj. rewrite <-(Forall_lookup_1 _ _ _ _ Hl Hj). apply pick_seq.
Qed.

(** ** Any order of rows *)

Definition pick_data (p : list nat) (d : column_data) : column_data :=
  match d with
  | Items l => Items (pick p l) | Floats l => Floats (pick p l)
  | Days l => Days (pick p l) | Stamps l => Stamps (pick p l)
  end.
Definition data_length (d : column_data) : nat :=
  match d with Items l => length l | Floats l | Days l | Stamps l => length l end.

Lemma pick_fmap {A B} (f : A → B) p l : f <$> pick p l = pick p (f <$> l).
Proof.
  unfold pick. induction p as [|i p IH]; [done|]. cbn. rewrite list_lookup_fmap. destruct (l !! i); cbn; by rewrite IH.
Qed.

Lemma mapM_pick {A B} (f : A → option B) p l k : mapM f l = Some k → mapM f (pick p l) = Some (pick p k).
Proof.
  intros H%mapM_Some_1. apply mapM_Some_2. unfold pick. induction p as [|i p IH]; [constructor|]. cbn.
  destruct (l !! i) as [x|] eqn:E.
  - destruct (Forall2_lookup_l _ _ _ _ _ H E) as (y & -> & Hxy). cbn. by constructor.
  - rewrite (proj2 (lookup_ge_None k i)); [done|]. rewrite <-(Forall2_length _ _ _ H). by apply lookup_ge_None_1.
Qed.

Lemma pick_existsb {A} (f : A → bool) p l : existsb f l = false → existsb f (pick p l) = false.
Proof. intros H%existsb_false_Forall. by apply Forall_existsb_false, pick_Forall. Qed.
Lemma pick_forallb {A} (f : A → bool) p l : forallb f l = true → forallb f (pick p l) = true.
Proof. intros H%forallb_Forall. by apply Forall_forallb, pick_Forall. Qed.

Lemma pick_nil {A} p : pick p (@nil A) = [].
Proof. unfold pick. induction p as [|i p IH]; [done|]. cbn. by rewrite lookup_nil. Qed.

Lemma normalise_pick c d a p : normalise c d = Ret a → normalise c (pick_data p d) = Ret (pick p a).
Proof.
  unfold normalise. destruct (col_type_of c).
  - unfold utf8_column. destruct d as [l|[|]|[|]|[|]]; cbn [pick_data]; rewrite ?pick_nil; try done;
      try (intros [= <-]; by rewrite pick_nil).
    destruct (mapM _ l) as [k|] eqn:E; [|done]. intros [= <-]. by rewrite (mapM_pick _ _ _ _ E).
  - unfold date32_column. intros H.
    match type of H with match ?x with _ => _ end = _ => destruct x as [days|] eqn:E end; [|done].
    assert (match pick_data p d with
            | Days l => Some l
            | Stamps l => if existsb (λ ns, negb (ns =? NaT) && negb (ns mod DAY_NS =? 0)) l then None
                          else Some ((λ ns, if ns =? NaT then NaT else ns / DAY_NS) <$> l)
            | Items l => mapM one_date l | Floats [] => Some [] | Floats _ => None end = Some (pick p days)) as ->.
    { destruct d as [l|[|]|l|l]; cbn [pick_data]; try done.
      - by apply mapM_pick.
      - injection E as <-. by rewrite pick_nil.
      - by injection E as ->.
      - destruct (existsb _ l) eqn:Ex; [done|]. injection E as <-. rewrite pick_existsb by done. by rewrite pick_fmap. }
    destruct (forallb _ days) eqn:Ef; [|done]. injection H as <-. rewrite pick_forallb by done. by rewrite pick_fmap.
  - unfold timestamp_column. intros H.
    match type of H with match ?x with _ => _ end = _ => destruct x as [l'|] eqn:E end; [|done]. injection H as <-.
    rewrite <-pick_fmap. destruct d as [l|[|]|l|l]; cbn [pick_data]; try done.
    + by rewrite (mapM_pick _ _ _ _ E).
    + injection E as <-. by rewrite pick_nil.
    + destruct (forallb _ l) eqn:Ef; [|done]. injection E as <-. rewrite pick_forallb by done. by rewrite pick_fmap.
    + by injection E as <-.
  - unfold float64_column. intros H.
    match type of H with match ?x with _ => _ end = _ => destruct x as [bits|] eqn:E end; [|done].
    assert (match pick_data p d with Items l => mapM number_item l | Floats l => Some l | _ => None end = Some (pick p bits)) as ->.
    { destruct d; try done; [by apply mapM_pick|by injection E as ->]. }
    destruct (existsb is_inf bits) eqn:E1; [done|]. rewrite pick_existsb by done.
    destruct (negb (nullable c) && existsb is_nan bits) eqn:E2; [done|]. injection H as <-.
    assert (negb (nullable c) && existsb is_nan (pick p bits) = false) as ->; [|by rewrite pick_fmap].
    destruct (nullable c); [done|]. by apply pick_existsb.
Qed.

(** Where [i] stands in [p]. *)
Definition position (p : list nat) (i : nat) : nat := default 0%nat (fst <$> list_find (λ j, j = i) p).

Lemma position_lookup p i : i ∈ p → p !! position p i = Some i.
Proof.
  intros Hi. unfold position. destruct (list_find_elem_of (λ j, j = i) p i Hi eq_refl) as [[k j] E].
  rewrite E. cbn. apply list_find_Some in E as (E & -> & _). done.
Qed.

Lemma position_perm p n : p ≡ₚ seq 0 n → position p <$> p = seq 0 n.
Proof.
  intros Hp. assert (NoDup p) as Hnd by (rewrite Hp; apply NoDup_seq).
  assert (length p = n) as Hl by (by rewrite (Permutation_length Hp), length_seq).
  apply list_eq. intros k. rewrite list_lookup_fmap. destruct (p !! k) as [i|] eqn:E.
  - cbn. rewrite lookup_seq_lt by (apply lookup_lt_Some in E; lia). f_equal. cbn.
    eapply (NoDup_lookup p); [done| |exact E]. apply position_lookup. by eapply list_elem_of_lookup_2.
  - cbn. apply lookup_ge_None_1 in E. rewrite lookup_seq_ge; [done|lia].
Qed.

Lemma pick_pick {A} (order p : list nat) (a : list A) n :
  order ≡ₚ seq 0 n → p ≡ₚ seq 0 n → length a = n → pick (position p <$> order) (pick p a) = pick order a.
Proof.
  intros Ho Hp Ha. pose proof (perm_below _ _ Ho) as Hob.
  assert (Forall (λ i, i < length a)%nat p) as Hpb by (rewrite Ha; by apply perm_below).
  assert (Forall (λ i, i ∈ p) order) as Hin.
  { apply Forall_forall. intros i Hi. by rewrite Hp, <-Ho. }
  clear Ho Hob. induction Hin as [|i order Hi Hin IH]; [done|].
  destruct (lookup_lt_is_Some_2 a i) as [v Hv]; [by eapply Forall_forall in Hpb|].
  rewrite fmap_cons, (pick_cons _ _ (pick p a) v), (pick_cons _ _ a v Hv); [by rewrite IH|].
  rewrite pick_lookup, (position_lookup p i Hi) by done. exact Hv.
Qed.

(** Rows may be given in any order. A permutation of the rows of every
    column of the data a table was built from builds the same table, and so
    the same hashes and the same dataset id. *)
Theorem build_any_order s data t p :
  schema_valid s = true → build s data = Ret t → p ≡ₚ seq 0 (row_count t) →
  build s (pick_data p <$> data) = Ret t.
Proof.
  intros Hs H Hp. apply build_Ret in H as (arrays & n & order & Hd & Ha & Hn & Hl & Hm & Ho & Hdup & ->).
  assert (length arrays = length (ts_columns s)) as Hlen.
  { apply normalise_all_spec, Forall2_length in Ha. done. }
  assert (order ≡ₚ seq 0 n) as Hperm by (rewrite Ho; apply key_order_perm).
  assert (∀ q, q ≡ₚ seq 0 n → Forall (λ a : list cell, length a = n) (pick q <$> arrays)) as Hpl.
  { intros q Hq. apply Forall_fmap. eapply Forall_impl; [exact Hl|]. intros a E. cbn.
    rewrite pick_length by (rewrite E; by apply perm_below). by rewrite (Permutation_length Hq), length_seq. }
  assert (∀ q, q ≡ₚ seq 0 n → n = length (default [] ((pick q <$> arrays) !! 0%nat))) as Hfirst.
  { intros q Hq. specialize (Hpl q Hq). destruct arrays as [|a arrays]; [done|]. cbn in *.
    by apply Forall_cons_1 in Hpl as [-> _]. }
  assert (row_count (mkTable s (pick order <$> arrays)) = n) as Hrows by (symmetry; by apply Hfirst).
  rewrite Hrows in Hp. set (order' := position p <$> order).
  assert (order' ≡ₚ seq 0 n) as Hperm' by (unfold order'; by rewrite Hperm, <-Hp, (position_perm p n Hp)).
  assert (Forall (λ a : list cell, length a = n) (key_arrays s arrays)) as Hkl by by apply key_arrays_Forall.
  assert (StronglySorted (key_lt (key_arrays s (pick p <$> arrays))) order') as Hsorted.
  { rewrite Ho in Hdup. pose proof (key_order_sorted _ _ Hdup) as Hso. rewrite <-Ho in Hso.
    rewrite key_arrays_fmap by done. unfold order'.
    assert (∀ i, i ∈ order → key_at (pick p <$> key_arrays s arrays) (position p i) = key_at (key_arrays s arrays) i) as Hat.
    { intros i Hi. apply (key_at_pick p _ n); [by apply perm_below|done|]. apply position_lookup. by rewrite Hp, <-Hperm. }
    clear -Hso Hat. induction Hso as [|i order Hs IH Hi]; cbn; constructor.
    - apply IH. intros j Hj. apply Hat. by right.
    - apply Forall_fmap. rewrite Forall_forall in Hi |- *. intros j Hj. unfold key_lt. cbn.
      rewrite !Hat by (by left || by right). by apply Hi. }
  apply build_Ret. exists (pick p <$> arrays), n, order'. split_and!.
  - by rewrite dom_fmap_L.
  - apply normalise_all_spec. apply normalise_all_spec in Ha. apply Forall2_fmap_r.
    eapply Forall2_impl; [exact Ha|]. intros c a Hc. rewrite lookup_fmap.
    apply (normalise_pick _ _ _ p) in Hc. destruct (data !! col_name c) as [d|]; [exact Hc|].
    change (normalise c (Items (pick p [])) = Ret (pick p a)) in Hc. rewrite pick_nil in Hc. exact Hc.
  - by apply Hfirst.
  - by apply Hpl.
  - unfold missing_value in *. clear -Hm. revert arrays Hm. induction (ts_columns s) as [|c cs IH]; intros [|a arrays]; try done.
    cbn. intros [Hc Hr]%orb_false_elim. apply orb_false_intro; [|by apply IH].
    destruct (nullable c); [done|]. cbn in *. by apply pick_existsb.
  - symmetry. by apply key_order_unique.
  - by apply sorted_no_duplicate.
  - f_equal. rewrite <-list_fmap_compose. apply list_fmap_ext. intros j a Hj. cbn. symmetry.
    unfold order'. rewrite (pick_pick order p a n); [done|done|done|]. exact (Forall_lookup_1 _ _ _ _ Hl Hj).
Qed.

(** Every table [Table.build] returns is well typed and in key order: its
    columns hold only values of their types, finite doubles with a single
    zero, dates and instants in range, valid text, and nulls only where the
    schema allows them; all columns have one length; the keys strictly
    ascend, so they are unique; and its rows are exactly the rows given. *)
Theorem built_tables_well_typed s data t :
  schema_valid s = true → (∀ k d, data !! k = Some d → data_ok d) → build s data = Ret t →
  table_ok t ∧ tb_schema t = s ∧
  ∃ arrays order, normalise_all (ts_columns s) data = Ret arrays ∧ order ≡ₚ seq 0 (row_count t) ∧
    tb_columns t = pick order <$> arrays.
Proof.
  intros Hs Hd H. pose proof (build_table_ok _ _ _ Hs Hd H) as Ht. split; [done|].
  pose proof H as (arrays & n & order & _ & Ha & _ & Hl & _ & Ho & _ & E)%build_Ret. subst t. split; [done|].
  exists arrays, order. split_and!; [done| |done].
  assert (order ≡ₚ seq 0 n) as Hp by (rewrite Ho; apply key_order_perm).
  enough (n = row_count (mkTable s (pick order <$> arrays))) as <- by done.
  pose proof (tok_lengths _ Ht) as Hrl. cbn [tb_columns] in Hrl.
  destruct arrays as [|a arrays].
  - exfalso. pose proof (tok_cells _ Ht) as Hc. cbn in Hc. apply Forall2_nil_inv_r in Hc.
    unfold schema_valid in Hs. rewrite Hc in Hs. by rewrite !andb_false_r in Hs.
  - apply Forall_cons_1 in Hrl as [<- _]. apply Forall_cons_1 in Hl as [Hla _]. rewrite pick_length.
    + by rewrite (Permutation_length Hp), length_seq.
    + rewrite Hla. by apply perm_below.
Qed.

(** ** A concrete table *)

Definition sample_data : gmap string column_data :=
  list_to_map [("symbol", Items [IStr "MSFT"; IStr "AAPL"; IStr "AAPL"]);
    ("session_date", Items [IStr "2024-01-02"; IStr "2024-01-03"; IDate 19724]);
    ("open", Items [IInt 370; INone; IFloat 0]); ("high", Items [IInt 375; INone; IInt 190]);
    ("low", Items [IInt 366; INone; IInt 180]); ("close", Items [IInt 371; IInt 184; IInt 185]);
    ("volume", Floats [NaN; 2 ^ 63; 0])].

Lemma build_any_order_witness :
  ∃ t, build BARS_V1 sample_data = Ret t ∧ row_count t = 3%nat ∧
    tb_columns t !! 0%nat = Some [Some (VText "AAPL"); Some (VText "AAPL"); Some (VText "MSFT")] ∧
    build BARS_V1 (pick_data [2; 0; 1]%nat <$> sample_data) = Ret t.
Proof.
  destruct (build BARS_V1 sample_data) as [t|] eqn:E; [|vm_compute in E; discriminate E].
  exists t. pose proof E as E'. vm_compute in E'. injection E' as <-.
  split; [done|]. split; [reflexivity|]. split; [reflexivity|].
  apply (build_any_order BARS_V1 sample_data _ [2; 0; 1]%nat); [reflexivity|exact E|].
  refine (bool_decide_unpack _ _). vm_compute. exact I.
Defined.

Lemma built_tables_well_typed_witness :
  ∃ t, build BARS_V1 sample_data = Ret t ∧ table_ok t.
Proof.
  destruct (build BARS_V1 sample_data) as [t|] eqn:E; [|vm_compute in E; discriminate E].
  exists t. split; [done|]. refine (proj1 (built_tables_well_typed BARS_V1 sample_data t eq_refl _ E)).
  intros k d Hk. assert (map_Forall (λ _ d, data_ok d) sample_data) as Hall; [|exact (Hall k d Hk)].
  repeat (apply map_Forall_insert_2; [|]); try apply map_Forall_empty; repeat constructor; vm_compute; done.
Defined.
