(* ===== verification/DatasetFacts.v ===== *)
(** What dataset ids and blobs guarantee: a blob decodes to the dataset it was
    encoded from, and an id names one dataset. *)

From Stdlib Require Import Ascii.
From stdpp Require Import pretty sorting.
From S2P Require Import Prelude Numeric Models Json JsonText JsonRead DateTime DatasetFormat DatasetCodec DatasetTables.
#[local] Open Scope Z_scope.

(** ** Canonical JSON is read back *)

Fixpoint unique_keys (v : json) : Prop :=
  match v with
  | JArr l => foldr (λ x P, unique_keys x ∧ P) True l
  | JObj l => NoDup l.*1 ∧ foldr (λ kv P, unique_keys kv.2 ∧ P) True l
  | _ => True
  end.

Lemma digits_number_bound acc ds : (acc * 10 ^ N.of_nat (length ds) ≤ digits_number acc ds)%N.
Proof.
  revert acc. induction ds as [|d ds IH]; intros acc; [cbn; lia|].
  change (digits_number acc (d :: ds)) with (digits_number (10 * acc + d) ds).
  specialize (IH (10 * acc + d)%N). cbn [length]. rewrite Nat2N.inj_succ, N.pow_succ_r'. nia.
Qed.

Lemma digits_text_length ds : String.length (digits_text ds EmptyString) = length ds.
Proof. induction ds as [|d ds IH]; [done|]. cbn. by rewrite <-IH. Qed.

Lemma safe_integer_short z : Z.abs z ≤ MAX_SAFE_INTEGER → short_int z = true.
Proof.
  intros Hz. unfold short_int. apply Z.leb_le. destruct (Z.abs z) as [|p|p] eqn:E; [vm_compute; discriminate| |lia].
  change (pretty (Z.pos p)) with (pretty_N_go (N.pos p) "").
  destruct (pretty_N_digits (N.pos p)) as (d & ds & -> & Hd & _ & Hv); [done|].
  rewrite digits_text_length. cbn [length].
  change (digits_number 0 (d :: ds)) with (digits_number d ds) in Hv.
  pose proof (digits_number_bound d ds) as Hb. rewrite Hv in Hb.
  assert (10 ^ N.of_nat (length ds) < 10 ^ 16)%N as Hlt.
  { eapply N.le_lt_trans; [|apply (N.lt_le_trans _ (2 ^ 53)); [|vm_compute; discriminate]].
    - etrans; [|exact Hb]. nia.
    - unfold MAX_SAFE_INTEGER in Hz. lia. }
  apply N.pow_lt_mono_r_iff in Hlt; [|lia]. unfold INT_MAX_STR_DIGITS. lia.
Qed.

Lemma canonical_readable v : check_canonical v = true → unique_keys v → readable v = true.
Proof.
  induction v as [| |z| | |l IH|l IH] using json_nested_ind; try done; cbn [check_canonical readable unique_keys].
  - intros Hz%Z.leb_le _. by apply safe_integer_short.
  - intros Hc Hu. induction IH as [|x l Hx IH IHl]; [done|]. cbn in *. apply andb_prop in Hc as [Hcx Hc]. destruct Hu as [Hux Hu].
    by rewrite Hx, IHl.
  - intros Hc [Hnd Hu]. rewrite bool_decide_true by done. cbn [andb]. clear Hnd.
    induction IH as [|[k x] l Hx IH IHl]; [done|]. cbn in *. apply andb_prop in Hc as [[_ Hcx]%andb_prop Hc].
    destruct Hu as [Hux Hu]. by rewrite Hx, IHl.
Qed.

Lemma ascii_text_only s : ascii_text s = true → ascii_only s.
Proof.
  unfold ascii_text. induction s as [|c s IH]; [done|]. cbn. unfold in_range. intros [Hc%Nat.leb_le Hs]%andb_prop.
  split; [|by apply IH]. apply Nat.ltb_lt. lia.
Qed.

Lemma canonical_well_formed v : check_canonical v = true → encodable v = true → json_well_formed v.
Proof.
  induction v as [| |z| |s|l IH|l IH] using json_nested_ind; try done; cbn [check_canonical encodable json_well_formed].
  - intros _ Hs. by apply valid_text_well_formed.
  - intros Hc He. induction IH as [|x l Hx IH IHl]; [done|]. cbn in *. apply andb_prop in Hc as [Hcx Hc], He as [Hex He].
    split; auto.
  - intros Hc He. induction IH as [|[k x] l Hx IH IHl]; [done|]. cbn in *.
    apply andb_prop in Hc as [[Hk Hcx]%andb_prop Hc], He as [Hex He].
    split; [split; [by apply well_formed_ascii, ascii_text_only|auto]|auto].
Qed.

Lemma json_well_formed_sort v : json_well_formed v → json_well_formed (json_sort v).
Proof.
  induction v as [| | | |s|l IH|l IH] using json_nested_ind; try done; cbn [json_sort json_well_formed].
  - induction IH as [|x l Hx IH IHl]; [done|]. cbn. intros [? ?]. split; auto.
  - intros Hv.
    assert (∀ l' : list (string * json), foldr (λ kv P, (well_formed kv.1 ∧ json_well_formed kv.2) ∧ P) True l' ↔
              ∀ kv, kv ∈ l' → well_formed kv.1 ∧ json_well_formed kv.2) as Hall.
    { clear. intros l'. induction l' as [|kv l' IH]; cbn; [split; [intros _ kv []%not_elem_of_nil|done]|].
      rewrite IH. split; [intros [? ?] x [->|?]%elem_of_cons; auto|intros H; split; [apply H; by left|intros; apply H; by right]]. }
    rewrite Hall in *. intros kv (kv' & -> & Hin)%elem_of_sort_fields%list_elem_of_fmap. cbn [fst snd].
    rewrite Forall_forall in IH. destruct (Hv kv' Hin). split; [done|]. by apply IH.
Qed.

Lemma check_canonical_floatless v : check_canonical v = true → floatless v = true.
Proof.
  induction v as [| |z| |s|l IH|l IH] using json_nested_ind; try done; cbn [check_canonical floatless].
  - induction IH as [|x l Hx IH IHl]; [done|]. cbn. intros [? ?]%andb_prop. by rewrite Hx, IHl.
  - induction IH as [|[k x] l Hx IH IHl]; [done|]. cbn in *. intros [[_ ?]%andb_prop ?]%andb_prop. by rewrite Hx, IHl.
Qed.

Lemma floatless_sort v : floatless v = true → floatless (json_sort v) = true.
Proof.
  induction v as [| |z| |s|l IH|l IH] using json_nested_ind; try done; cbn [json_sort floatless]; rewrite !forallb_forall; intros Hv x Hx.
  - apply in_map_iff in Hx as (y & <- & Hy). rewrite Forall_forall in IH. apply IH; [by apply list_elem_of_In|by apply Hv].
  - apply list_elem_of_In, elem_of_sort_fields, list_elem_of_fmap in Hx as (y & -> & Hy). cbn [snd].
    rewrite Forall_forall in IH. apply IH; [done|]. by apply Hv, list_elem_of_In.
Qed.

(** Canonical text determines its value, up to the order of keys. *)
Lemma canonical_bytes_inj v w s :
  canonical_bytes v = Ret s → canonical_bytes w = Ret s → json_sort v = json_sort w.
Proof.
  unfold canonical_bytes. destruct (check_canonical v) eqn:Hv; [|done]. destruct (encodable v); [|done].
  destruct (check_canonical w) eqn:Hw; [|done]. destruct (encodable w); [|done]. cbn. intros [= <-] [= E].
  apply json_print_inj; [by apply floatless_sort, check_canonical_floatless..|]. symmetry. exact E.
Qed.

Lemma pass_text_well_formed s : well_formed s → pass_text s = true.
Proof.
  intros (cps & Hc & ->). unfold pass_text. rewrite code_points_utf8 by done. apply andb_true_intro.
  split; [|by apply String.eqb_eq]. apply forallb_forall. intros cp Hcp%list_elem_of_In.
  rewrite Forall_forall in Hc. specialize (Hc cp Hcp). unfold scalar in Hc. by apply andb_prop in Hc as [? _].
Qed.

Lemma canonical_bytes_spec v s : canonical_bytes v = Ret s →
  s = canonical_json v ∧ check_canonical v = true ∧ pass_text s = true.
Proof.
  unfold canonical_bytes. destruct (check_canonical v) eqn:Hv; [|done]. destruct (encodable v) eqn:He; [|done].
  cbn. intros [= <-]. split_and!; [done|done|]. apply pass_text_well_formed, well_formed_json_print.
  - by apply floatless_sort, check_canonical_floatless.
  - by apply json_well_formed_sort, canonical_well_formed.
Qed.

(** ** Well-formed datasets *)

(** [nullable] is a boolean, as the type annotation says. *)
Definition column_typed (c : Column) : Prop := ∃ b, col_nullable c = JBool b.

Record dataset_ok (d : Dataset) : Prop := {
  dok_identity : identity_valid (ds_identity d) = true;
  dok_tables : Forall table_ok (ds_tables d);
  dok_typed : Forall (λ t, Forall column_typed (ts_columns (tb_schema t))) (ds_tables d);
  dok_made : make_dataset d = Ret d
}.

Lemma type_of_type_name t : type_of_name (type_name t) = Some t.
Proof. by destruct t. Qed.

(** ** Reading headers back *)

Lemma read_identity_dict i : identity_valid i = true → read_identity (json_sort (identity_dict i)) = Some i.
Proof.
  intros Hi. destruct i as [f p l q b a s].
  change (read_identity (json_sort (identity_dict (mkDatasetIdentity f p l q b a s)))) with
    (if identity_valid (mkDatasetIdentity f p l q b a s) then Some (mkDatasetIdentity f p l q b a s) else None).
  by rewrite Hi.
Qed.

Lemma read_column_spec c a : column_typed c → read_column (json_sort (column_spec (c, a))) = Some c.
Proof.
  destruct c as [n t j]. intros [b E]. cbn in E. subst j.
  change (read_column (json_sort (column_spec (mkColumn n t (JBool b), a)))) with
    (t' ← type_of_name (type_name t); Some (mkColumn n t' (JBool b))).
  by rewrite type_of_type_name.
Qed.

Lemma mapM_read_columns cas : Forall (λ ca : Column * list cell, column_typed ca.1) cas →
  mapM read_column (map json_sort (column_spec <$> cas)) = Some cas.*1.
Proof.
  induction 1 as [|[c a] cas Hc H IH]; [done|]. cbn [fmap list_fmap map mapM].
  rewrite read_column_spec by done. cbn. by rewrite IH.
Qed.

Lemma mapM_as_text l : mapM as_text (map json_sort (JStr <$> l)) = Some l.
Proof. induction l as [|s l IH]; [done|]. cbn. by rewrite IH. Qed.

Lemma zip_fst {A B} (l : list A) (k : list B) : length l = length k → (zip l k).*1 = l.
Proof. revert k. induction l as [|x l IH]; intros [|y k]; try done. cbn. intros [= E]. f_equal. by apply IH. Qed.

Lemma table_columns_length t : table_ok t → length (ts_columns (tb_schema t)) = length (tb_columns t).
Proof. intros Ht. apply (Forall2_length _ _ _ (tok_cells _ Ht)). Qed.

Definition table_cells (t : Table) : list (Column * list cell) := zip (ts_columns (tb_schema t)) (tb_columns t).

Lemma table_cells_ok t : table_ok t →
  Forall (λ ca : Column * list cell, Forall (cell_ok ca.1) ca.2 ∧ length ca.2 = row_count t) (table_cells t).
Proof.
  intros Ht. unfold table_cells. pose proof (tok_cells _ Ht) as Hc. pose proof (tok_lengths _ Ht) as Hl.
  revert Hl. generalize (row_count t). induction Hc as [|c a cs cols Ha Hc IH]; intros n Hl; [constructor|].
  apply Forall_cons_1 in Hl as [Hla Hl]. cbn. constructor; [done|by apply IH].
Qed.

Lemma table_cells_typed t : Forall column_typed (ts_columns (tb_schema t)) →
  Forall (λ ca : Column * list cell, column_typed ca.1) (table_cells t).
Proof.
  unfold table_cells. intros H. generalize (tb_columns t). induction H as [|c cs Hc H IH]; intros l; [constructor|].
  destruct l; cbn; constructor; auto.
Qed.

Lemma read_schema_spec t : table_ok t → Forall column_typed (ts_columns (tb_schema t)) →
  read_schema (json_sort (table_spec t)) = Some (tb_schema t).
Proof.
  intros Ht Htyped.
  change (read_schema (json_sort (table_spec t))) with
    (columns ← mapM read_column (map json_sort (column_spec <$> table_cells t));
     key ← mapM as_text (map json_sort (JStr <$> ts_key (tb_schema t)));
     let s := mkTableSchema (ts_name (tb_schema t)) columns key in if schema_valid s then Some s else None).
  rewrite mapM_read_columns by by apply table_cells_typed. cbn [mbind option_bind].
  rewrite mapM_as_text. cbn [mbind option_bind]. unfold table_cells. rewrite zip_fst by by apply table_columns_length.
  pose proof (tok_schema _ Ht) as Hs. destruct (tb_schema t) as [n cs k]. cbn in *. by rewrite Hs.
Qed.

(** ** Reading payloads back *)

Lemma str_prefix_exact n a b : n = len a → str_prefix (Z.to_nat n) (a +:+ b) = a.
Proof. intros ->. rewrite len_id. apply str_prefix_app. Qed.
Lemma str_suffix_exact n a b : n = len a → str_suffix (Z.to_nat n) (a +:+ b) = b.
Proof. intros ->. rewrite len_id. apply str_suffix_app. Qed.

Definition cells_text (cas : list (Column * list cell)) : string :=
  concat_text ((λ ca, concat_text (encoded ca.1 ca.2)) <$> cas).

Lemma read_columns_encoded n cas pre post :
  Forall (λ ca : Column * list cell, Forall (cell_ok ca.1) ca.2 ∧ length ca.2 = n) cas →
  NoDup (col_name <$> cas.*1) →
  ∃ m, read_columns (Z.of_nat n) (zip (map json_sort (column_spec <$> cas)) cas.*1)
         (pre +:+ cells_text cas +:+ post) (len pre) = Some (m, len pre + len (cells_text cas)) ∧
    dom m = list_to_set (col_name <$> cas.*1) ∧
    Forall (λ ca : Column * list cell, ∃ data, m !! col_name ca.1 = Some data ∧ normalise ca.1 data = Ret ca.2) cas.
Proof.
  intros Hc. revert pre. induction Hc as [|[c a] cas [Ha Hl] Hc IH]; intros pre Hnd.
  { exists ∅. split; [|split; [by rewrite dom_empty_L|constructor]]. cbn. do 2 f_equal. unfold len. cbn. lia. }
  cbn [fst snd] in *. cbn [fmap list_fmap fst] in Hnd. apply NoDup_cons in Hnd as [Hni Hnd].
  set (text := concat_text (encoded c a)). change (cells_text ((c, a) :: cas)) with (text +:+ cells_text cas).
  destruct (IH (pre +:+ text) Hnd) as (m & Hm & Hdom & Hdata).
  destruct (parse_encoded c a Ha) as (data & Hp & Hn). rewrite Hl in Hp. fold text in Hp.
  exists (<[col_name c := data]> m). split; [|split].
  - cbn [fmap list_fmap map zip zip_with fst]. 
    change (json_sort (column_spec (c, a))) with
      (JObj [("length", JInt (len text)); ("name", JStr (col_name c)); ("nullable", json_sort (col_nullable c));
             ("type", JStr (type_name (col_type_of c)))]).
    cbn [read_columns]. change (field_as as_int "length" (JObj (("length", JInt (len text)) :: ?l))) with (Some (len text)).
    cbn [mbind option_bind].
    rewrite (proj2 (Z.ltb_ge _ _)) by apply len_nonneg. cbn [orb].
    rewrite (proj2 (Z.ltb_ge _ _)) by (rewrite !len_app; pose proof (len_nonneg (cells_text cas)); pose proof (len_nonneg post); lia).
    rewrite (str_suffix_exact (len pre)) by done. rewrite string_app_assoc, (str_prefix_exact (len text)) by done.
    rewrite Hp. cbn [mbind option_bind]. rewrite !string_app_assoc in Hm. rewrite len_app in Hm.
    rewrite Hm. cbn [mbind option_bind]. do 2 f_equal. rewrite len_app. lia.
  - rewrite dom_insert_L, Hdom. done.
  - constructor; cbn [fst snd].
    + exists data. by rewrite lookup_insert_eq.
    + rewrite Forall_forall in Hdata |- *. intros [c' a'] Hin.
      destruct (Hdata _ Hin) as (data' & Hm' & Hn'). exists data'. split; [|done]. cbn [fst] in *.
      rewrite lookup_insert_ne; [done|]. intros E. apply Hni. rewrite E.
      apply list_elem_of_fmap. exists c'. split; [done|]. apply list_elem_of_fmap. by exists (c', a').
Qed.

Definition tables_text (ts : list Table) : string := concat_text ((λ t, cells_text (table_cells t)) <$> ts).

Lemma zip_read_columns t : table_ok t →
  zip (map json_sort (column_spec <$> table_cells t)) (ts_columns (tb_schema t)) =
  zip (map json_sort (column_spec <$> table_cells t)) (table_cells t).*1.
Proof. intros Ht. unfold table_cells at 3. by rewrite zip_fst by by apply table_columns_length. Qed.

Lemma schema_names_unique s : schema_valid s = true → NoDup (col_name <$> ts_columns s).
Proof. unfold schema_valid. rewrite !andb_true_iff. intros [[[[[_ H] _] _] _] _]. by apply bool_decide_eq_true in H. Qed.

Lemma read_tables_encoded ts pre post :
  Forall table_ok ts → Forall (λ t, Forall column_typed (ts_columns (tb_schema t))) ts →
  read_tables (map json_sort (table_spec <$> ts)) (pre +:+ tables_text ts +:+ post) (len pre) =
  Some (ts, len pre + len (tables_text ts)).
Proof.
  intros Ht. revert pre. induction Ht as [|t ts Ht Hts IH]; intros pre Htyped.
  { cbn. do 2 f_equal. unfold len. cbn. lia. }
  apply Forall_cons_1 in Htyped as [Hty Htyped].
  change (tables_text (t :: ts)) with (cells_text (table_cells t) +:+ tables_text ts).
  cbn [fmap list_fmap map read_tables]. rewrite read_schema_spec by done. cbn [mbind option_bind].
  change (field_as as_list "columns" (json_sort (table_spec t))) with
    (Some (map json_sort (column_spec <$> table_cells t))).
  change (field "rows" (json_sort (table_spec t))) with (Some (JInt (Z.of_nat (row_count t)))).
  cbn [mbind option_bind as_int]. rewrite zip_read_columns by done.
  assert (NoDup (col_name <$> (table_cells t).*1)) as Hnd.
  { unfold table_cells. rewrite zip_fst by by apply table_columns_length. apply schema_names_unique, (tok_schema _ Ht). }
  destruct (read_columns_encoded (row_count t) (table_cells t) pre (tables_text ts +:+ post) (table_cells_ok t Ht) Hnd)
    as (m & Hm & Hdom & Hdata).
  rewrite string_app_assoc, Hm. cbn [mbind option_bind].
  assert (build (tb_schema t) m = Ret t) as Hb.
  { apply rebuild; [done| |].
    - rewrite Hdom. unfold table_cells. by rewrite zip_fst by by apply table_columns_length.
    - clear -Hdata Ht. pose proof (table_columns_length t Ht) as Hl. unfold table_cells in Hdata. revert Hl Hdata.
      generalize (ts_columns (tb_schema t)) (tb_columns t). induction l as [|c cs IH]; intros [|a cols] Hl Hd; try done.
      cbn in Hd. apply Forall_cons_1 in Hd as [(data & Hm & Hn) Hd]. cbn in Hm, Hn. constructor; [by rewrite Hm|].
      apply IH; [by injection Hl|done]. }
  rewrite Hb. cbn [to_option mbind option_bind].
  pose proof (IH (pre +:+ cells_text (table_cells t)) Htyped) as Hr. rewrite !string_app_assoc, len_app in Hr.
  rewrite Hr. cbn [mbind option_bind]. do 2 f_equal. rewrite len_app. lia.
Qed.

Lemma payload_text d : Forall table_ok (ds_tables d) → concat_text (payload_chunks d) = tables_text (ds_tables d).
Proof.
  unfold payload_chunks, tables_text. intros _. induction (ds_tables d) as [|t ts IH]; [done|].
  cbn [fmap list_fmap concat]. rewrite concat_text_app.
  change (concat_text (cells_text (table_cells t) :: ?l)) with (cells_text (table_cells t) +:+ concat_text l).
  change (concat_text (?x :: ?y)) with (x +:+ concat_text y). rewrite <-IH. f_equal.
  unfold table_chunks, cells_text. fold (table_cells t). induction (table_cells t) as [|ca cas IHc]; [done|].
  cbn [fmap list_fmap concat]. rewrite concat_text_app, IHc. reflexivity.
Qed.

Section blobs.
Variable sha256_hex : string → string.
Variable zlib_compress : list string → string.
Variable zlib_decompress : string → Z → option (string * bool * string * string).
Variable loads_other : string → option json.

(** Decompressing a whole stream, with room to spare, gives back its chunks. *)
Hypothesis zlib_roundtrip : ∀ chunks n, len (concat_text chunks) < n →
  zlib_decompress (zlib_compress chunks) n = Some (concat_text chunks, true, EmptyString, EmptyString).

#[local] Abbreviation encode := (encode_blob sha256_hex zlib_compress).
#[local] Abbreviation decode := (decode_blob sha256_hex zlib_decompress loads_other).

Definition blob_header (id : string) (d : Dataset) : json :=
  JObj [("dataset_id", JStr id); ("format", JStr BLOB_FORMAT); ("identity", identity_dict (ds_identity d));
        ("payload_length", JInt (len (concat_text (payload_chunks d)))); ("tables", JArr (table_spec <$> ds_tables d))].

Lemma blob_header_unique id d : dataset_ok d → unique_keys (blob_header id d).
Proof.
  intros Hd.
  assert (∀ t, Forall column_typed (ts_columns (tb_schema t)) → unique_keys (table_spec t)) as Ht.
  { intros t Hty. cbn. split_and!; try done; [apply (bool_decide_unpack _); by vm_compute| |].
    - pose proof (table_cells_typed t Hty) as Hc. fold (table_cells t). induction Hc as [|[c a] cas [b Hb] Hc IH]; [done|].
      cbn. cbn in Hb. rewrite Hb. split; [|exact IH]. split_and!; try done. apply (bool_decide_unpack _). by vm_compute.
    - induction (ts_key (tb_schema t)) as [|k ks IH]; [done|]. by split. }
  cbn. split_and!; try done; try (apply (bool_decide_unpack _); by vm_compute).
  pose proof (dok_typed _ Hd) as Hty. induction Hty as [|t ts Hty H IH]; [done|]. cbn. split; [by apply Ht|done].
Qed.

Lemma other_encoding_header id d rest : other_encoding (canonical_json (blob_header id d) +:+ rest) = false.
Proof. reflexivity. Qed.

Lemma string_app_nil s : s +:+ EmptyString = s.
Proof. induction s as [|c s IH]; [done|]. rewrite string_app_cons. by rewrite IH. Qed.

(** A blob whose header fits is read exactly when its uncompressed payload is
    within the reader's limit. *)
Lemma decode_blob_limit d id blob max_bytes :
  dataset_ok d → dataset_id sha256_hex d = Ret id → encode d = Ret blob →
  len (canonical_json (blob_header id d)) ≤ MAX_HEADER →
  decode blob id max_bytes =
    if max_bytes <? len (concat_text (payload_chunks d)) then Raise DatasetIntegrityError else Ret d.
Proof.
  intros Hd Hid He Hhead. unfold encode_blob in He. rewrite Hid in He. cbn [obind] in He.
  apply obind_Ret in He as (header & Hh & [= <-]). fold (blob_header id d) in Hh.
  destruct (canonical_bytes_spec _ _ Hh) as (-> & Hcheck & Hpass).
  set (header := canonical_json (blob_header id d)) in *. set (z := zlib_compress (payload_chunks d)).
  assert (len BLOB_MAGIC = 8) as Hmagic by reflexivity.
  assert (len (u64 (len header)) = 8) as Hu by (unfold len at 1, u64; by rewrite le_bytes_length).
  pose proof (len_nonneg header) as Hh0. pose proof (len_nonneg z) as Hz0.
  assert (2 ^ 20 < 2 ^ 64) as H64 by (vm_compute; reflexivity).
  assert (decode_ zlib_decompress loads_other (BLOB_MAGIC +:+ u64 (len header) +:+ header +:+ z) max_bytes =
    if max_bytes <? len (concat_text (payload_chunks d)) then None else Some d) as Hdec;
    [|unfold decode_blob; rewrite Hdec; destruct (max_bytes <? _); [done|]; rewrite Hid; cbn [obind]; by rewrite String.eqb_refl].
  unfold decode_. change 8%nat with (Z.to_nat 8) at 1. rewrite (str_prefix_exact 8), String.eqb_refl by done.
  cbn [negb orb]. rewrite (proj2 (Z.ltb_ge _ 16)) by (rewrite !len_app; lia).
  assert (str_suffix 8 (BLOB_MAGIC +:+ u64 (len header) +:+ header +:+ z) = u64 (len header) +:+ header +:+ z) as ->
    by (change 8%nat with (Z.to_nat 8); by apply str_suffix_exact).
  assert (str_suffix 16 (BLOB_MAGIC +:+ u64 (len header) +:+ header +:+ z) = header +:+ z) as ->.
  { rewrite <-string_app_assoc. change 16%nat with (Z.to_nat 16). apply str_suffix_exact. rewrite len_app. lia. }
  assert (str_prefix 8 (u64 (len header) +:+ header +:+ z) = u64 (len header)) as ->
    by (change 8%nat with (Z.to_nat 8); by apply str_prefix_exact).
  unfold u64. rewrite le_value_id by (unfold MAX_HEADER in Hhead; change (8 * Z.of_nat 8) with 64; lia).
  rewrite (proj2 (Z.ltb_ge MAX_HEADER _)) by lia. fold (u64 (len header)).
  rewrite (proj2 (Z.ltb_ge _ (16 + len header))) by (rewrite !len_app; lia). cbn [orb].
  rewrite (str_prefix_exact (len header)), (str_suffix_exact (len header)) by done.
  assert (json_loads_bytes loads_other header = Some (json_sort (blob_header id d))) as ->.
  { unfold json_loads_bytes. pose proof (other_encoding_header id d "") as Ho. fold header in Ho.
    rewrite string_app_nil in Ho. rewrite Ho, Hpass. apply json_loads_canonical, canonical_readable; [done|].
    by apply blob_header_unique. }
  cbn [mbind option_bind].
  change (field "format" (json_sort (blob_header id d))) with (Some (JStr BLOB_FORMAT)). cbn [mbind option_bind as_text].
  rewrite bool_decide_true by done. cbn [negb].
  change (field_as as_int "payload_length" (json_sort (blob_header id d))) with (Some (len (concat_text (payload_chunks d)))).
  cbn [mbind option_bind]. rewrite (proj2 (Z.ltb_ge _ 0)) by apply len_nonneg.
  cbn [orb]. destruct (max_bytes <? _); [done|]. subst z. rewrite zlib_roundtrip by lia.
  cbn [mbind option_bind]. rewrite Z.eqb_refl. cbn [negb orb String.eqb].
  change (field_as as_list "tables" (json_sort (blob_header id d))) with (Some (map json_sort (table_spec <$> ds_tables d))).
  cbn [mbind option_bind]. pose proof (dok_tables _ Hd) as Ht.
  rewrite payload_text by done.
  pose proof (read_tables_encoded (ds_tables d) "" "" Ht (dok_typed _ Hd)) as Hr.
  change (len "") with 0 in Hr. change ("" +:+ ?x) with x in Hr. rewrite string_app_nil in Hr. rewrite Hr.
  cbn [mbind option_bind]. rewrite Z.eqb_refl. cbn [negb].
  change (field_as read_identity "identity" (json_sort (blob_header id d))) with
    (read_identity (json_sort (identity_dict (ds_identity d)))).
  rewrite read_identity_dict by apply (dok_identity _ Hd). cbn [mbind option_bind].
  destruct d as [i ts]. cbn [ds_identity ds_tables]. pose proof (dok_made _ Hd) as Hm. by rewrite Hm.
Qed.

(** A blob decodes to the dataset it was encoded from. Whenever encoding a
    well-formed dataset succeeds, and its header and payload are within the
    reader's limits, decoding the bytes under the dataset's id gives back the
    dataset: schema, identity, and every cell of every column. *)
Theorem decode_encode_blob d id blob max_bytes :
  dataset_ok d → dataset_id sha256_hex d = Ret id → encode d = Ret blob →
  len (concat_text (payload_chunks d)) ≤ max_bytes →
  len (canonical_json (blob_header id d)) ≤ MAX_HEADER →
  decode blob id max_bytes = Ret d.
Proof.
  intros Hd Hid He Hmax Hhead. rewrite (decode_blob_limit d id) by done. by rewrite (proj2 (Z.ltb_ge max_bytes _)).
Qed.
End blobs.

(** ** An id names one dataset *)

Section identity.
Variable sha256_hex : string → string.

(** The texts hashed for a table, and for a dataset. *)
Definition table_texts (t : Table) : list string :=
  canonical_json (table_manifest sha256_hex t) :: ((λ ca, concat_text (encoded ca.1 ca.2)) <$> table_cells t).
Definition dataset_texts (d : Dataset) : list string :=
  match dataset_manifest sha256_hex d with Ret m => [canonical_json m] | Raise _ => [] end ++
  concat (table_texts <$> ds_tables d).

(** No two of the texts collide. *)
Definition no_collision (l l' : list string) : Prop :=
  ∀ x y, x ∈ l → y ∈ l' → sha256_hex x = sha256_hex y → x = y.

Lemma table_hashes_spec ts l : table_hashes sha256_hex ts = Ret l →
  Forall2 (λ t kv, ∃ h, table_hash sha256_hex t = Ret h ∧ kv = (ts_name (tb_schema t), JStr h)) ts l.
Proof.
  revert l. induction ts as [|t ts IH]; intros l; cbn; [intros [= <-]; constructor|].
  intros (h & Hh & H)%obind_Ret. apply obind_Ret in H as (rest & Hr & [= <-]). constructor; [by exists h|by apply IH].
Qed.

Lemma table_hash_spec t h : table_hash sha256_hex t = Ret h →
  canonical_bytes (table_manifest sha256_hex t) = Ret (canonical_json (table_manifest sha256_hex t)) ∧
  h = sha256_hex (canonical_json (table_manifest sha256_hex t)).
Proof.
  unfold table_hash. intros (s & Hs & [= <-])%obind_Ret. by destruct (canonical_bytes_spec _ _ Hs) as (-> & _).
Qed.

Definition column_entry (ca : Column * list cell) : json :=
  JObj [("name", JStr (col_name ca.1)); ("nullable", col_nullable ca.1);
        ("sha256", JStr (column_digest sha256_hex ca.1 ca.2)); ("type", JStr (type_name (col_type_of ca.1)))].

Lemma column_entry_inj ca ca' : column_typed ca.1 → column_typed ca'.1 →
  json_sort (column_entry ca) = json_sort (column_entry ca') →
  ca.1 = ca'.1 ∧ column_digest sha256_hex ca.1 ca.2 = column_digest sha256_hex ca'.1 ca'.2.
Proof.
  destruct ca as [[n t j] a], ca' as [[n' t' j'] a']. cbn [fst snd]. intros [b Hb] [b' Hb']. cbn in Hb, Hb'. subst j j'.
  intros E.
  assert (JObj [("name", JStr n); ("nullable", JBool b); ("sha256", JStr (column_digest sha256_hex (mkColumn n t (JBool b)) a)); ("type", JStr (type_name t))] =
          JObj [("name", JStr n'); ("nullable", JBool b'); ("sha256", JStr (column_digest sha256_hex (mkColumn n' t' (JBool b')) a')); ("type", JStr (type_name t'))]) as E' by exact E.
  injection E' as En Eb Ed Et. split; [|exact Ed]. subst. by destruct t, t'.
Qed.

(** Tables of one name with one hash are equal. *)
Lemma table_hash_inj t t' h : table_ok t → table_ok t' →
  Forall column_typed (ts_columns (tb_schema t)) → Forall column_typed (ts_columns (tb_schema t')) →
  no_collision (table_texts t) (table_texts t') → ts_name (tb_schema t) = ts_name (tb_schema t') →
  table_hash sha256_hex t = Ret h → table_hash sha256_hex t' = Ret h → t = t'.
Proof.
  intros Ht Ht' Hty Hty' Hnc Hname Hh Hh'.
  destruct (table_hash_spec _ _ Hh) as [Hb ->]. destruct (table_hash_spec _ _ Hh') as [Hb' E].
  apply Hnc in E; [|by left|by left]. rewrite <-E in Hb'.
  pose proof (canonical_bytes_inj _ _ _ Hb Hb') as Es.
  pose proof (f_equal (field_as as_list "columns") Es) as Ec. pose proof (f_equal (field_as as_int "rows") Es) as Er.
  pose proof (f_equal (field_as key_texts "key") Es) as Ek.
  change (Some (Z.of_nat (row_count t)) = Some (Z.of_nat (row_count t'))) in Er. injection Er as Er. apply Nat2Z.inj in Er.
  change (mapM as_text (map json_sort (JStr <$> ts_key (tb_schema t))) = mapM as_text (map json_sort (JStr <$> ts_key (tb_schema t')))) in Ek.
  rewrite !mapM_as_text in Ek. injection Ek as Ek.
  change (Some (map json_sort (column_entry <$> table_cells t)) = Some (map json_sort (column_entry <$> table_cells t'))) in Ec.
  injection Ec as Ec.
  assert (table_cells t = table_cells t') as Ecells.
  { pose proof (table_cells_ok t Ht) as Hok. pose proof (table_cells_ok t' Ht') as Hok'. rewrite <-Er in Hok'.
    apply table_cells_typed in Hty, Hty'.
    assert (∀ ca ca', ca ∈ table_cells t → ca' ∈ table_cells t' →
      column_digest sha256_hex ca.1 ca.2 = column_digest sha256_hex ca'.1 ca'.2 →
      concat_text (encoded ca.1 ca.2) = concat_text (encoded ca'.1 ca'.2)) as Hdig.
    { intros ca ca' Hin Hin' Ed. apply Hnc; [right; apply list_elem_of_fmap; by exists ca|right; apply list_elem_of_fmap; by exists ca'|done]. }
    revert Ec Hok Hok' Hty Hty' Hdig. generalize (row_count t) (table_cells t) (table_cells t'). clear. intros n l.
    induction l as [|[c a] l IH]; intros [|[c' a'] l'] Ec Hok Hok' Hty Hty' Hdig; try done. cbn [fmap list_fmap map] in Ec.
    pose proof (f_equal (hd JNull) Ec) as E. apply (f_equal tail) in Ec. cbn [hd tail] in E, Ec.
    apply Forall_cons_1 in Hok as [[Ha Hla] Hok], Hok' as [[Ha' Hla'] Hok'], Hty as [Htc Hty], Hty' as [Htc' Hty'].
    cbn [fst snd] in *. destruct (column_entry_inj (c, a) (c', a') Htc Htc') as [Ecc Ed]; [exact E|]. cbn [fst snd] in Ecc, Ed. subst c'.
    f_equal.
    - f_equal. apply (encoded_inj c); [done|done|congruence|]. apply (Hdig (c, a) (c, a')); [by left|by left|done].
    - apply IH; [done|done|done|done|done|]. intros ca ca' Hin Hin'. apply Hdig; by right. }
  destruct t as [[n cs k] cols], t' as [[n' cs' k'] cols']. cbn in Hname, Ek. subst.
  pose proof (table_columns_length _ Ht) as Hl. pose proof (table_columns_length _ Ht') as Hl'. unfold table_cells in Ecells. cbn in Ecells, Hl, Hl'.
  assert (cs = cs' ∧ cols = cols') as [-> ->]; [|done]. revert Ecells Hl Hl'. clear.
  revert cs' cols cols'. induction cs as [|c cs IH]; intros [|c' cs'] [|a cols] [|a' cols'] E Hl Hl'; try done.
  cbn in E. injection E as -> -> E. destruct (IH cs' cols cols' E) as [-> ->]; [by injection Hl|by injection Hl'|done].
Qed.

Lemma make_dataset_names d : make_dataset d = Ret d → NoDup (table_names d).
Proof. unfold make_dataset. destruct (_ && _) eqn:E; [|done]. by apply andb_prop in E as [_ ?%bool_decide_eq_true]. Qed.

Lemma identity_dict_inj i i' : json_sort (identity_dict i) = json_sort (identity_dict i') → i = i'.
Proof.
  destruct i as [f p l q b a s], i' as [f' p' l' q' b' a' s']. intros E.
  assert (JObj [("adjustment", JStr a); ("family", JStr f); ("frequency", JStr q); ("licence_id", JStr l); ("provider", JStr p);
                ("session_boundary", JStr b); ("survivorship", JStr s)] =
          JObj [("adjustment", JStr a'); ("family", JStr f'); ("frequency", JStr q'); ("licence_id", JStr l'); ("provider", JStr p');
                ("session_boundary", JStr b'); ("survivorship", JStr s')]) as E' by exact E.
  injection E' as -> -> -> -> -> -> ->. done.
Qed.

(** A dataset id names one dataset. Two well-formed datasets with the same
    id have the same identity facts and the same tables, cell for cell, in
    some order, unless two of the texts hashed for them collide: nothing that
    changes what a dataset says keeps its name. *)
Theorem dataset_id_binds d d' id :
  dataset_ok d → dataset_ok d' → no_collision (dataset_texts d) (dataset_texts d') →
  dataset_id sha256_hex d = Ret id → dataset_id sha256_hex d' = Ret id →
  ds_identity d = ds_identity d' ∧ ds_tables d ≡ₚ ds_tables d'.
Proof.
  intros Hd Hd' Hnc Hid Hid'. unfold dataset_id in Hid, Hid'.
  apply obind_Ret in Hid as (m & Hm & Hid). apply obind_Ret in Hid as (s & Hs & [= E]).
  apply obind_Ret in Hid' as (m' & Hm' & Hid'). apply obind_Ret in Hid' as (s' & Hs' & [= E']).
  destruct (canonical_bytes_spec _ _ Hs) as (-> & _). destruct (canonical_bytes_spec _ _ Hs') as (-> & _).
  assert (canonical_json m = canonical_json m') as Em.
  { apply Hnc; [unfold dataset_texts; rewrite Hm; by left|unfold dataset_texts; rewrite Hm'; by left|].
    subst id. apply (inj (String.append (DATASET_SCHEME +:+ ":"))). symmetry. exact E'. }
  rewrite <-Em in Hs'. pose proof (canonical_bytes_inj _ _ _ Hs Hs') as Es.
  unfold dataset_manifest in Hm, Hm'. apply obind_Ret in Hm as (l & Hl & [= <-]). apply obind_Ret in Hm' as (l' & Hl' & [= <-]).
  pose proof (f_equal (field "identity") Es) as Ei. pose proof (f_equal (field "tables") Es) as Et.
  change (Some (json_sort (identity_dict (ds_identity d))) = Some (json_sort (identity_dict (ds_identity d')))) in Ei.
  apply (inj Some), identity_dict_inj in Ei. split; [done|].
  change (Some (json_sort (JObj l)) = Some (json_sort (JObj l'))) in Et. apply (inj Some) in Et. cbn [json_sort] in Et. injection Et as Et.
  apply table_hashes_spec in Hl, Hl'.
  assert (∀ d l, Forall2 (λ t kv, ∃ h, table_hash sha256_hex t = Ret h ∧ kv = (ts_name (tb_schema t), JStr h)) (ds_tables d) l →
    map (λ kv : string * json, (kv.1, json_sort kv.2)) l = l) as Hsame.
  { clear. intros d l H. induction H as [|t kv ts l (h & _ & ->) H IH]; [done|]. cbn. by rewrite IH. }
  rewrite (Hsame d l Hl), (Hsame d' l' Hl') in Et.
  assert (∀ kv, kv ∈ l ↔ kv ∈ l') as Hsub by (intros kv; rewrite <-(elem_of_sort_fields kv l), Et; apply elem_of_sort_fields).
  pose proof (make_dataset_names _ (dok_made _ Hd)) as Hnd. pose proof (make_dataset_names _ (dok_made _ Hd')) as Hnd'.
  assert (∀ d d' l l', dataset_ok d → dataset_ok d' → no_collision (dataset_texts d) (dataset_texts d') →
    Forall2 (λ t kv, ∃ h, table_hash sha256_hex t = Ret h ∧ kv = (ts_name (tb_schema t), JStr h)) (ds_tables d) l →
    Forall2 (λ t kv, ∃ h, table_hash sha256_hex t = Ret h ∧ kv = (ts_name (tb_schema t), JStr h)) (ds_tables d') l' →
    (∀ kv, kv ∈ l → kv ∈ l') → ∀ t, t ∈ ds_tables d → t ∈ ds_tables d') as Hincl.
  { clear. intros d d' l l' Hd Hd' Hnc Hl Hl' Hsub t Hin. apply list_elem_of_lookup in Hin as [i Hi].
    destruct (Forall2_lookup_l _ _ _ _ _ Hl Hi) as (kv & Hkv & h & Hh & ->).
    apply list_elem_of_lookup_2, Hsub, list_elem_of_lookup in Hkv as [j Hj].
    destruct (Forall2_lookup_r _ _ _ _ _ Hl' Hj) as (t' & Ht' & h' & Hh' & [= En <-]).
    assert (t = t') as ->; [|by eapply list_elem_of_lookup_2].
    pose proof (dok_tables _ Hd) as Hok. pose proof (dok_tables _ Hd') as Hok'. pose proof (dok_typed _ Hd) as Hty. pose proof (dok_typed _ Hd') as Hty'.
    eapply table_hash_inj; [exact (Forall_lookup_1 _ _ _ _ Hok Hi)|exact (Forall_lookup_1 _ _ _ _ Hok' Ht')|
      exact (Forall_lookup_1 _ _ _ _ Hty Hi)|exact (Forall_lookup_1 _ _ _ _ Hty' Ht')| |done|done|done].
    intros x y Hx Hy. apply Hnc; unfold dataset_texts; apply elem_of_app; right; apply list_elem_of_In, in_concat.
    - exists (table_texts t). split; [|by apply list_elem_of_In]. apply list_elem_of_In, list_elem_of_fmap. exists t. split; [done|by eapply list_elem_of_lookup_2].
    - exists (table_texts t'). split; [|by apply list_elem_of_In]. apply list_elem_of_In, list_elem_of_fmap. exists t'. split; [done|by eapply list_elem_of_lookup_2]. }
  apply NoDup_Permutation; [by eapply NoDup_fmap_1 in Hnd|by eapply NoDup_fmap_1 in Hnd'|].
  intros t. split; [apply (Hincl d d' l l'); try done; intros kv; apply Hsub|].
  apply (Hincl d' d l' l); try done; [|intros kv; apply Hsub]. intros x y Hx Hy E2. symmetry. by apply Hnc.
Qed.
End identity.

(** ** A concrete dataset *)

Definition sample_identity : DatasetIdentity :=
  mkDatasetIdentity "EQUITY_EOD" "yahoo" "yahoo-personal-use" "1d" "exchange-local" "split" "current_listings".
Definition sample_instruments : gmap string column_data :=
  list_to_map [("symbol", Items [IStr "MSFT"; IStr "AAPL"]); ("instrument_type", Items [IStr "equity"; IStr "equity"]);
    ("exchange", Items [IStr "NMS"; IStr "NMS"]); ("timezone", Items [IStr "America/New_York"; IStr "America/New_York"]);
    ("currency", Items [IStr "USD"; IStr "USD"])].
Definition built (s : TableSchema) (data : gmap string column_data) : Table :=
  match build s data with Ret t => t | Raise _ => mkTable s [] end.
Definition sample_dataset : Dataset :=
  mkDataset sample_identity [built BARS_V1 sample_data; built INSTRUMENTS_V1 sample_instruments].
Definition sample_dataset_swapped : Dataset :=
  mkDataset sample_identity [built INSTRUMENTS_V1 sample_instruments; built BARS_V1 sample_data].

(** Stand-ins for SHA-256 and zlib. *)
Fixpoint sample_hash (s : string) : string :=
  match s with
  | EmptyString => EmptyString
  | String c s => let n := nat_of_ascii c in String (hex_digit (n / 16)) (String (hex_digit (n mod 16)) (sample_hash s))
  end.
Definition sample_compress (l : list string) : string := concat_text l.
Definition sample_decompress (s : string) (n : Z) : option (string * bool * string * string) := Some (s, true, "", "").

Lemma sample_hash_inj s t : sample_hash s = sample_hash t → s = t.
Proof.
  assert (∀ c d : ascii, hex_digit (nat_of_ascii c / 16) = hex_digit (nat_of_ascii d / 16) →
            hex_digit (nat_of_ascii c mod 16) = hex_digit (nat_of_ascii d mod 16) → c = d) as Hhex.
  { assert (∀ m n : nat, (m < 16 → n < 16 → hex_digit m = hex_digit n → m = n)%nat) as H16.
    { intros m n Hm Hn. do 16 (destruct m as [|m]; [do 16 (destruct n as [|n]; [done|]); lia|]). lia. }
    intros c d E1 E2. pose proof (nat_ascii_bounded c). pose proof (nat_ascii_bounded d).
    apply H16 in E1; [|apply Nat.Div0.div_lt_upper_bound; lia..]. apply H16 in E2; [|apply Nat.mod_upper_bound; lia..].
    rewrite <-(ascii_nat_embedding c), <-(ascii_nat_embedding d). f_equal.
    rewrite (Nat.div_mod_eq (nat_of_ascii c) 16), (Nat.div_mod_eq (nat_of_ascii d) 16). lia. }
  revert t. induction s as [|c s IH]; intros [|d t]; try done. cbn [sample_hash]. intros [= E1 E2 E].
  f_equal; [by apply Hhex|by apply IH].
Qed.

Lemma built_ok s data : schema_valid s = true → map_Forall (λ _ d, data_ok d) data →
  bool_decide (to_option (build s data) = None) = false → table_ok (built s data).
Proof.
  intros Hs Hd. unfold built. destruct (build s data) as [t|] eqn:E; [|done]. intros _.
  by apply (build_table_ok s data).
Qed.

Lemma sample_tables_ok : table_ok (built BARS_V1 sample_data) ∧ table_ok (built INSTRUMENTS_V1 sample_instruments).
Proof.
  split; apply built_ok; try reflexivity;
    repeat (apply map_Forall_insert_2; [|]); try apply map_Forall_empty; repeat constructor; vm_compute; done.
Qed.

Lemma sample_typed : Forall column_typed (ts_columns BARS_V1) ∧ Forall column_typed (ts_columns INSTRUMENTS_V1).
Proof. split; repeat constructor; by eexists. Qed.

Lemma sample_dataset_ok : dataset_ok sample_dataset ∧ dataset_ok sample_dataset_swapped.
Proof.
  destruct sample_tables_ok as [Hb Hi]. destruct sample_typed as [Tb Ti].
  assert (tb_schema (built BARS_V1 sample_data) = BARS_V1) as Sb by (vm_compute; reflexivity).
  assert (tb_schema (built INSTRUMENTS_V1 sample_instruments) = INSTRUMENTS_V1) as Si by (vm_compute; reflexivity).
  split; (split; [reflexivity|by repeat (apply Forall_cons_2; [done|])
    |repeat (apply Forall_cons_2; [rewrite ?Sb, ?Si; done|]); apply Forall_nil_2|]);
    unfold make_dataset, table_names; cbn [ds_tables sample_dataset sample_dataset_swapped fmap list_fmap];
    rewrite Sb, Si; reflexivity.
Qed.

Definition succeeds {E A} (m : outcome E A) (p : A → bool) : bool := match m with Ret a => p a | Raise _ => false end.
Lemma succeeds_Ret {E A} (m : outcome E A) p : succeeds m p = true → ∃ a, m = Ret a ∧ p a = true.
Proof. destruct m as [a|]; [by exists a|done]. Qed.

Lemma sample_blob_decodes :
  ∃ id blob, dataset_id sample_hash sample_dataset = Ret id ∧ encode_blob sample_hash sample_compress sample_dataset = Ret blob ∧
    decode_blob sample_hash sample_decompress (λ _, None) blob id 4096 = Ret sample_dataset.
Proof.
  destruct (succeeds_Ret (dataset_id sample_hash sample_dataset)
    (λ id, len (canonical_json (blob_header id sample_dataset)) <=? MAX_HEADER)) as (id & Hid & Hh); [vm_compute; reflexivity|].
  destruct (succeeds_Ret (encode_blob sample_hash sample_compress sample_dataset) (λ _, true)) as (blob & Hb & _);
    [vm_compute; reflexivity|].
  exists id, blob. split; [exact Hid|split; [exact Hb|]].
  refine (decode_encode_blob sample_hash sample_compress sample_decompress (λ _, None) _ sample_dataset id blob 4096
    (proj1 sample_dataset_ok) Hid Hb _ (proj1 (Z.leb_le _ _) Hh)).
  - intros chunks n _. reflexivity.
  - apply Z.leb_le. vm_compute. reflexivity.
Defined.

Lemma dataset_id_binds_witness :
  ∃ id, dataset_id sample_hash sample_dataset = Ret id ∧ dataset_id sample_hash sample_dataset_swapped = Ret id ∧
    ds_tables sample_dataset ≡ₚ ds_tables sample_dataset_swapped.
Proof.
  destruct (succeeds_Ret (dataset_id sample_hash sample_dataset)
    (λ id, succeeds (dataset_id sample_hash sample_dataset_swapped) (String.eqb id))) as (id & Hid & H); [vm_compute; reflexivity|].
  apply succeeds_Ret in H as (id' & Hid' & <-%String.eqb_eq).
  exists id. split; [exact Hid|split; [exact Hid'|]].
  refine (proj2 (dataset_id_binds sample_hash sample_dataset sample_dataset_swapped id
    (proj1 sample_dataset_ok) (proj2 sample_dataset_ok) _ Hid Hid')).
  intros x y _ _ E. exact (sample_hash_inj x y E).
Defined.

(** A stored blob whose header was edited to a non-integer [nullable] is
    refused with [DatasetError], not [DatasetIntegrityError]: the id of what
    was read is computed outside the handler. *)
Definition edited_header : json :=
  JObj [("dataset_id", JStr "x"); ("format", JStr BLOB_FORMAT); ("identity", identity_dict sample_identity);
        ("payload_length", JInt 0);
        ("tables", JArr [JObj [("columns", JArr [
             JObj [("length", JInt 0); ("name", JStr "k"); ("nullable", JBool false); ("type", JStr "date32")];
             JObj [("length", JInt 0); ("name", JStr "v"); ("nullable", JFloat (nof_ratio 1 2)); ("type", JStr "float64")]]);
           ("key", JArr [JStr "k"]); ("name", JStr "bars"); ("rows", JInt 0)]])].

Example edited_header_escapes :
  let text := json_print edited_header in
  decode_blob sample_hash sample_decompress (λ _, None) (BLOB_MAGIC +:+ u64 (len text) +:+ text) "expected" 4096
    = Raise DatasetError.
Proof. vm_compute. reflexivity. Qed.
