(* ===== verification/DatasetStore.v ===== *)
(** backend/services/dataset_store.py: blobs under paths named by their ids,
    written under a temporary name and renamed into place, by any number of
    writers at once, each of which may die at any point. *)

From Stdlib Require Import Ascii.
From stdpp Require Import strings relations.
From S2P Require Import Prelude Numeric Models Json JsonText JsonRead DatasetFormat DatasetCodec DatasetTables DatasetFacts.
#[local] Open Scope Z_scope.

Record StoredDataset := mkStoredDataset { sd_dataset_id : string; sd_path : string; sd_sha256 : string; sd_size : Z }.

(** The files of the disk, by path. *)
Abbreviation filesystem := (gmap string string) (only parsing).

(** The hex digest of a dataset id: what follows the scheme. *)
Definition digest_of (dataset_id : string) : string := default EmptyString (literal (DATASET_SCHEME +:+ ":") dataset_id).

Section store.
Variable sha256_hex : string → string.
Variable zlib_compress : list string → string.
Variable zlib_decompress : string → Z → option (string * bool * string * string).
Variable loads_other : string → option json.

(** The store's directory and size limit. *)
Variable root : string.
Variable max_bytes : Z.

Definition parent_of (digest : string) : string :=
  root +:+ "/" +:+ DATASET_SCHEME +:+ "/" +:+ str_prefix 2 digest.
Definition path_for (dataset_id : string) : outcome FormatError string :=
  if is_dataset_id dataset_id
  then let digest := digest_of dataset_id in Ret (parent_of digest +:+ "/" +:+ digest)
  else Raise DatasetError.
(** [mkstemp(prefix=".tmp-", dir=path.parent)] *)
Definition temporary_for (dataset_id random : string) : string :=
  parent_of (digest_of dataset_id) +:+ "/.tmp-" +:+ random.

(** [_read] *)
Definition read_blob (fs : filesystem) (path : string) : outcome FormatError string :=
  match fs !! path with
  | Some blob => if max_bytes <? len blob then Raise DatasetIntegrityError else Ret blob
  | None => Raise DatasetIntegrityError
  end.

(** [_verified] *)
Definition verified_path (fs : filesystem) (dataset_id path : string) : outcome FormatError StoredDataset :=
  let! blob := read_blob fs path in
  let! _ := decode_blob sha256_hex zlib_decompress loads_other blob dataset_id max_bytes in
  Ret (mkStoredDataset dataset_id path (sha256_hex blob) (len blob)).

Definition verified (fs : filesystem) (dataset_id : string) (sha256 : option string)
    : outcome FormatError (Dataset * StoredDataset) :=
  let! path := path_for dataset_id in
  let! blob := read_blob fs path in
  let digest := sha256_hex blob in
  let! _ := raise_if (match sha256 with Some h => negb (String.eqb digest h) | None => false end) DatasetIntegrityError in
  let! d := decode_blob sha256_hex zlib_decompress loads_other blob dataset_id max_bytes in
  Ret (d, mkStoredDataset dataset_id path digest (len blob)).
Definition get (fs : filesystem) (dataset_id : string) (sha256 : option string) : outcome FormatError Dataset :=
  let! p := verified fs dataset_id sha256 in Ret p.1.

(** [put] with no other writer about. *)
Definition put (d : Dataset) (fs : filesystem) : filesystem * outcome FormatError StoredDataset :=
  match (let! id := dataset_id sha256_hex d in let! path := path_for id in Ret (id, path)) with
  | Raise e => (fs, Raise e)
  | Ret (id, path) =>
      match fs !! path with
      | Some _ => (fs, verified_path fs id path)
      | None =>
          match encode_blob sha256_hex zlib_compress d with
          | Raise e => (fs, Raise e)
          | Ret blob =>
              if max_bytes <? len blob then (fs, Raise DatasetError)
              else (<[path := blob]> fs, Ret (mkStoredDataset id path (sha256_hex blob) (len blob)))
          end
      end
  end.

(** ** Writers at work

    A writer has its dataset, its id and path, its temporary file, the blob and
    how much of it has been written. *)
Record Writer := mkWriter {
  w_dataset : Dataset; w_id : string; w_path : string; w_temporary : string; w_blob : string; w_written : nat
}.
Record StoreState := mkStoreState { st_files : filesystem; st_writers : gmap nat Writer }.

(** The datasets the callers of [put] have. *)
Variable given : Dataset → Prop.

Inductive store_step : StoreState → StoreState → Prop :=
| StepOpen s w d id path blob random :
    (* the path did not exist when looked for (it may by now), the blob is small
       enough, mkstemp gives a new file *)
    given d → st_writers s !! w = None → dataset_id sha256_hex d = Ret id → path_for id = Ret path →
    encode_blob sha256_hex zlib_compress d = Ret blob → len blob ≤ max_bytes →
    st_files s !! temporary_for id random = None →
    store_step s (mkStoreState (<[temporary_for id random := EmptyString]> (st_files s))
                               (<[w := mkWriter d id path (temporary_for id random) blob 0]> (st_writers s)))
| StepWrite s w x n :
    (* handle.write, a piece at a time *)
    st_writers s !! w = Some x → (w_written x ≤ n)%nat →
    store_step s (mkStoreState (<[w_temporary x := str_prefix n (w_blob x)]> (st_files s))
                   (<[w := mkWriter (w_dataset x) (w_id x) (w_path x) (w_temporary x) (w_blob x) n]> (st_writers s)))
| StepReplace s w x content :
    (* os.replace, once everything is written and flushed: the file's bytes move *)
    st_writers s !! w = Some x → (String.length (w_blob x) ≤ w_written x)%nat →
    st_files s !! w_temporary x = Some content →
    store_step s (mkStoreState (<[w_path x := content]> (delete (w_temporary x) (st_files s)))
                               (delete w (st_writers s)))
| StepCleanUp s w x :
    (* the finally clause, after a failure *)
    st_writers s !! w = Some x →
    store_step s (mkStoreState (delete (w_temporary x) (st_files s)) (delete w (st_writers s)))
| StepDie s w :
    (* the process is killed: its temporary file stays *)
    store_step s (mkStoreState (st_files s) (delete w (st_writers s))).
End store.

(** * Theorems

    What readers of the dataset store can rely on, whatever writers are doing. *)

#[local] Open Scope Z_scope.

(** ** Paths *)

Lemma literal_app p s : literal p (p +:+ s) = Some s.
Proof. induction p as [|c p IH]; [done|]. rewrite string_app_cons. cbn. by rewrite Ascii.eqb_refl. Qed.
Lemma literal_Some p s r : literal p s = Some r → s = p +:+ r.
Proof.
  revert s. induction p as [|c p IH]; intros s; [by intros [= ->]|]. destruct s as [|d s]; [done|]. cbn.
  destruct (Ascii.eqb_spec c d) as [->|]; [|done]. intros H%IH. by rewrite string_app_cons, H.
Qed.

Lemma is_dataset_id_spec id : is_dataset_id id = true →
  id = (DATASET_SCHEME +:+ ":") +:+ digest_of id ∧ all_of lower_hex (digest_of id) = true ∧ String.length (digest_of id) = 64%nat.
Proof.
  unfold is_dataset_id, digest_of. destruct (literal _ id) as [r|] eqn:E; [|done].
  apply literal_Some in E. unfold len. intros [H1 H2%Z.eqb_eq]%andb_prop. change (default EmptyString (Some r)) with r. split_and!; [done|done|lia].
Qed.

Section paths.
Variable root : string.

Lemma path_for_Ret id path : path_for root id = Ret path →
  is_dataset_id id = true ∧ path = parent_of root (digest_of id) +:+ "/" +:+ digest_of id.
Proof. unfold path_for. destruct (is_dataset_id id); [|done]. by intros [= <-]. Qed.

Lemma path_for_inj id id' path : path_for root id = Ret path → path_for root id' = Ret path → id = id'.
Proof.
  intros [Hv ->]%path_for_Ret [Hv' E]%path_for_Ret.
  destruct (is_dataset_id_spec _ Hv) as (Ei & _ & Hl). destruct (is_dataset_id_spec _ Hv') as (Ei' & _ & Hl').
  rewrite <-!string_app_assoc in E. apply string_append_inj_r in E as [_ E]; [|by rewrite Hl, Hl'].
  by rewrite Ei, Ei', E.
Qed.

Lemma str_prefix_length n s : (n ≤ String.length s)%nat → String.length (str_prefix n s) = n.
Proof. revert s. induction n as [|n IH]; intros [|c s] Hn; cbn in *; [done|done|lia|]. f_equal. apply IH. lia. Qed.

(** No temporary file has a dataset's path: a digest does not start with a dot. *)
Lemma temporary_not_path id id' path random :
  is_dataset_id id = true → path_for root id' = Ret path → temporary_for root id random ≠ path.
Proof.
  intros Hv [Hv' ->]%path_for_Ret E. destruct (is_dataset_id_spec _ Hv) as (_ & _ & Hl).
  destruct (is_dataset_id_spec _ Hv') as (_ & Hhex & Hl'). unfold temporary_for, parent_of in E.
  rewrite !string_app_assoc in E. do 4 (apply (inj (String.append _)) in E).
  apply string_append_inj_l in E as [_ E]; [|rewrite !str_prefix_length; lia].
  destruct (digest_of id') as [|c r]; [done|].
  apply string_cons_inj in E as [_ E]. apply string_cons_inj in E as [<- _]. done.
Qed.
End paths.

(** ** Invariant *)

Section facts.
Variable sha256_hex : string → string.
Variable zlib_compress : list string → string.
Variable zlib_decompress : string → Z → option (string * bool * string * string).
Variable loads_other : string → option json.
Variable root : string.
Variable max_bytes : Z.
Variable given : Dataset → Prop.

Hypothesis zlib_roundtrip : ∀ chunks n, len (concat_text chunks) < n →
  zlib_decompress (zlib_compress chunks) n = Some (concat_text chunks, true, EmptyString, EmptyString).

(** What the callers of [put] have are datasets. *)
Hypothesis given_datasets : ∀ d, given d → dataset_ok d.

#[local] Abbreviation step := (store_step sha256_hex zlib_compress root max_bytes given).
#[local] Abbreviation encode := (encode_blob sha256_hex zlib_compress).

(** [blob] is the blob of a dataset somebody had, under its id. *)
Definition blob_of (id blob : string) : Prop :=
  ∃ d, given d ∧ dataset_id sha256_hex d = Ret id ∧ encode d = Ret blob ∧ len blob ≤ max_bytes.

Record writer_ok (fs : gmap string string) (x : Writer) : Prop := {
  wok_path : path_for root (w_id x) = Ret (w_path x);
  wok_temporary : ∃ random, w_temporary x = temporary_for root (w_id x) random;
  wok_blob : blob_of (w_id x) (w_blob x);
  wok_content : fs !! w_temporary x = Some (str_prefix (w_written x) (w_blob x))
}.

Record store_ok (s : StoreState) : Prop := {
  sok_files : ∀ id path blob, path_for root id = Ret path → st_files s !! path = Some blob → blob_of id blob;
  sok_writers : ∀ w x, st_writers s !! w = Some x → writer_ok (st_files s) x;
  sok_distinct : ∀ w w' x x', st_writers s !! w = Some x → st_writers s !! w' = Some x' →
    w_temporary x = w_temporary x' → w = w'
}.

Lemma empty_store_ok : store_ok (mkStoreState ∅ ∅).
Proof. split; cbn; intros *; rewrite ?lookup_empty; done. Qed.

Lemma path_is_id id path : path_for root id = Ret path → is_dataset_id id = true.
Proof. by intros [? _]%path_for_Ret. Qed.

Lemma writer_temporary_not_path fs x id path : writer_ok fs x → path_for root id = Ret path → w_temporary x ≠ path.
Proof.
  intros Hx Hp. destruct (wok_temporary _ _ Hx) as [r ->].
  apply (temporary_not_path root (w_id x) id path r); [|done]. by eapply path_is_id, wok_path.
Qed.

(** A change to files other than a writer's temporary leaves the writer be. *)
Lemma writer_ok_files fs fs' x : writer_ok fs x → fs' !! w_temporary x = fs !! w_temporary x → writer_ok fs' x.
Proof. intros [Hp Ht Hb Hc] E. split; [done|done|done|]. by rewrite E. Qed.

Lemma str_prefix_all n s : (String.length s ≤ n)%nat → str_prefix n s = s.
Proof. revert n. induction s as [|c s IH]; intros [|n] Hn; cbn in *; [done|done|lia|]. f_equal. apply IH. lia. Qed.

(** Dropping a writer, and its temporary if still there, keeps the invariant. *)
Lemma drop_writer_ok s w x : store_ok s → st_writers s !! w = Some x →
  store_ok (mkStoreState (delete (w_temporary x) (st_files s)) (delete w (st_writers s))).
Proof.
  intros [Hf Hw Hd] Hx. split; cbn.
  - intros id path blob Hp [_ Hl]%lookup_delete_Some. eauto.
  - intros w' x' [Hne Hl]%lookup_delete_Some. eapply writer_ok_files; [eauto|].
    apply lookup_delete_ne. intros E. by apply Hne, (Hd w w' x x').
  - intros w1 w2 x1 x2 [_ H1]%lookup_delete_Some [_ H2]%lookup_delete_Some. eauto.
Qed.

Lemma store_step_ok s s' : store_ok s → step s s' → store_ok s'.
Proof.
  intros Hs Hstep. pose proof Hs as [Hf Hw Hd].
  destruct Hstep as [s w d id path blob random Hg Hnew Hid Hpath Henc Hlen Htmp|s w x n Hx Hn|s w x content Hx Hn Hc|s w x Hx|s w].
  - assert (∀ w' x', st_writers s !! w' = Some x' → w_temporary x' ≠ temporary_for root id random) as Hne.
    { intros w' x' Hx' E. pose proof (wok_content _ _ (Hw _ _ Hx')) as Hc. rewrite E, Htmp in Hc. done. }
    split; cbn.
    + intros id' path' blob' Hp [[E _]|[_ Hl]]%lookup_insert_Some; [|eauto].
      by apply temporary_not_path with (id := id) (random := random) in Hp; [|by eapply path_is_id].
    + intros w' x' [[-> <-]|[Hww Hl]]%lookup_insert_Some.
      * split; cbn; [done|by exists random|by exists d|by rewrite lookup_insert_eq].
      * eapply writer_ok_files; [eauto|]. apply lookup_insert_ne. intros E. by apply (Hne _ _ Hl).
    + intros w1 w2 x1 x2 [[-> <-]|[_ H1]]%lookup_insert_Some [[-> <-]|[_ H2]]%lookup_insert_Some; cbn; intros E; [done| | |eauto].
      * by destruct (Hne _ _ H2).
      * by destruct (Hne _ _ H1).
  - pose proof (Hw _ _ Hx) as Hxok. split; cbn.
    + intros id path blob Hp [[E _]|[_ Hl]]%lookup_insert_Some; [|eauto].
      by destruct (writer_temporary_not_path _ _ _ _ Hxok Hp).
    + intros w' x' [[-> <-]|[Hww Hl]]%lookup_insert_Some.
      * destruct Hxok as [? ? ? ?]. split; cbn; [done|done|done|by rewrite lookup_insert_eq].
      * eapply writer_ok_files; [eauto|]. apply lookup_insert_ne. intros E. by apply Hww, (Hd w w' x x').
    + intros w1 w2 x1 x2 [[-> <-]|[_ H1]]%lookup_insert_Some [[-> <-]|[_ H2]]%lookup_insert_Some; cbn; intros E; eauto.
  - pose proof (Hw _ _ Hx) as Hxok. pose proof (drop_writer_ok s w x Hs Hx) as [Hf' Hw' Hd'].
    rewrite (wok_content _ _ Hxok), str_prefix_all in Hc by done. injection Hc as <-. split; cbn in *.
    + intros id path blob Hp [[E <-]|[_ Hl]]%lookup_insert_Some; [|eauto]. subst path.
      rewrite <-(path_for_inj root _ _ _ (wok_path _ _ Hxok) Hp). exact (wok_blob _ _ Hxok).
    + intros w' x' Hl. eapply writer_ok_files; [eauto|]. apply lookup_insert_ne. intros E. symmetry in E.
      eapply writer_temporary_not_path in E; [done|apply (Hw w' x'); by apply lookup_delete_Some in Hl as [_ ?]|exact (wok_path _ _ Hxok)].
    + exact Hd'.
  - by apply drop_writer_ok.
  - split; cbn; [exact Hf| |].
    + intros w' x' [_ Hl]%lookup_delete_Some. eauto.
    + intros w1 w2 x1 x2 [_ H1]%lookup_delete_Some [_ H2]%lookup_delete_Some. eauto.
Qed.

Lemma reachable_store_ok s s' : store_ok s → rtc step s s' → store_ok s'.
Proof. intros Hs. induction 1; eauto using store_step_ok. Qed.

(** A dataset's file, once there, stays. *)
Lemma file_stays s s' id path : store_ok s → rtc step s s' → path_for root id = Ret path →
  is_Some (st_files s !! path) → is_Some (st_files s' !! path).
Proof.
  intros Hs Hr Hp. induction Hr as [s|s s1 s2 Hstep Hr IH]; [done|]. intros Hin.
  apply IH; [by eapply store_step_ok|]. pose proof (sok_writers _ Hs) as Hw.
  destruct Hstep as [s w d id' path' blob random|s w x n Hx Hn|s w x content Hx Hn Hc|s w x Hx|s w]; cbn; try done.
  - destruct (decide (temporary_for root id' random = path)) as [->|]; [by rewrite lookup_insert_eq|by rewrite lookup_insert_ne].
  - destruct (decide (w_temporary x = path)) as [->|]; [by rewrite lookup_insert_eq|by rewrite lookup_insert_ne].
  - destruct (decide (w_path x = path)) as [->|]; [by rewrite lookup_insert_eq|rewrite lookup_insert_ne by done].
    rewrite lookup_delete_ne; [done|]. by eapply writer_temporary_not_path; eauto.
  - rewrite lookup_delete_ne; [done|]. by eapply writer_temporary_not_path; eauto.
Qed.

(** Reading a dataset's file, with or without its recorded hash. *)
Lemma blob_of_read fs id path blob d hash :
  path_for root id = Ret path → fs !! path = Some blob →
  given d → dataset_id sha256_hex d = Ret id → encode d = Ret blob → len blob ≤ max_bytes →
  len (canonical_json (blob_header id d)) ≤ MAX_HEADER → hash = None ∨ hash = Some (sha256_hex blob) →
  get sha256_hex zlib_decompress loads_other root max_bytes fs id hash =
    if max_bytes <? len (concat_text (payload_chunks d)) then Raise DatasetIntegrityError else Ret d.
Proof.
  intros Hp Hf Hg Hid He Hl Hh Hhash. unfold get, verified. rewrite Hp. cbn [obind]. unfold read_blob.
  rewrite Hf, (proj2 (Z.ltb_ge _ _)) by done. cbn [obind].
  rewrite (decode_blob_limit sha256_hex zlib_compress zlib_decompress loads_other zlib_roundtrip d id blob max_bytes) by eauto.
  destruct Hhash as [-> | ->]; rewrite ?String.eqb_refl; cbn [negb raise_if obind]; by destruct (max_bytes <? _).
Qed.

(** C7: The store serves whole datasets only. However any number of writers
    interleave, write piecemeal, fail or are killed, a file found at a
    dataset's path is the complete blob of a dataset with that id that was
    put, and from then on the path always holds such a blob. Reading it, with
    or without the recorded hash of its bytes, verifies and returns that
    dataset if its uncompressed payload is within the store's limit, and
    raises [DatasetIntegrityError] if it is not: [put] compares only the
    compressed blob with the limit, so a file can be stored that is never
    read. This is for datasets that are well-formed, whose blob header is at
    most the format's 1 MiB, and a zlib that inflates what it deflated. *)
Theorem store_serves_whole_datasets s id path blob :
  rtc step (mkStoreState ∅ ∅) s → path_for root id = Ret path → st_files s !! path = Some blob →
  (∃ d, given d ∧ dataset_id sha256_hex d = Ret id ∧ encode d = Ret blob ∧ len blob ≤ max_bytes ∧
    (len (canonical_json (blob_header id d)) ≤ MAX_HEADER →
     ∀ hash, hash = None ∨ hash = Some (sha256_hex blob) →
      get sha256_hex zlib_decompress loads_other root max_bytes (st_files s) id hash =
        if max_bytes <? len (concat_text (payload_chunks d)) then Raise DatasetIntegrityError else Ret d)) ∧
  ∀ s', rtc step s s' → ∃ blob' d', st_files s' !! path = Some blob' ∧ given d' ∧
    dataset_id sha256_hex d' = Ret id ∧ encode d' = Ret blob'.
Proof.
  intros Hr Hp Hf. assert (store_ok s) as Hs by (eapply reachable_store_ok; [apply empty_store_ok|done]). split.
  - destruct (sok_files s Hs id path blob Hp Hf) as (d & Hg & Hid & He & Hl).
    exists d. split_and!; [done..|]. intros Hh hash Hhash. by eapply blob_of_read.
  - intros s' Hr'. destruct (file_stays s s' id path Hs Hr' Hp) as [blob' Hf']; [by eexists|].
    destruct (sok_files s' (reachable_store_ok s s' Hs Hr') id path blob' Hp Hf') as (d' & ? & ? & ? & _). by exists blob', d'.
Qed.

(** Open, write everything, rename: the files gain one blob. *)
Lemma put_steps s d id path blob random :
  given d → st_writers s !! 0%nat = None → dataset_id sha256_hex d = Ret id → path_for root id = Ret path →
  encode d = Ret blob → len blob ≤ max_bytes → st_files s !! temporary_for root id random = None →
  rtc step s (mkStoreState (<[path := blob]> (st_files s)) (st_writers s)).
Proof.
  intros Hg Hnew Hid Hp He Hlen Hfree.
  eapply rtc_l; [eapply (StepOpen _ _ _ _ _ s 0 d id path blob random); eauto|].
  eapply rtc_l; [eapply (StepWrite _ _ _ _ _ _ 0 _ (String.length blob)); cbn; [apply lookup_insert_eq|cbn; lia]|].
  eapply rtc_l; [eapply (StepReplace _ _ _ _ _ _ 0); cbn; [apply lookup_insert_eq|cbn; lia|cbn; apply lookup_insert_eq]|].
  cbn. rewrite str_prefix_all by done. rewrite !insert_insert_eq, !delete_insert_eq.
  rewrite delete_id, delete_id by done. done.
Qed.

(** [put] is one run of the writers' steps. Putting a dataset somebody
    has, from any reachable state in which its temporary name is free, either
    changes nothing, because it fails or verifies the file already there, or
    opens, writes and renames, and then the files hold exactly one more blob;
    and when it returns, it returns the description of the file at the
    dataset's path. *)
Theorem put_is_a_run s d fs' r random :
  rtc step (mkStoreState ∅ ∅) s → given d → st_writers s !! 0%nat = None →
  (∀ id, dataset_id sha256_hex d = Ret id → st_files s !! temporary_for root id random = None) →
  put sha256_hex zlib_compress zlib_decompress loads_other root max_bytes d (st_files s) = (fs', r) →
  rtc step s (mkStoreState fs' (st_writers s)) ∧
  match r with
  | Ret sd => dataset_id sha256_hex d = Ret (sd_dataset_id sd) ∧ path_for root (sd_dataset_id sd) = Ret (sd_path sd) ∧
      ∃ blob, fs' !! sd_path sd = Some blob ∧ sd_sha256 sd = sha256_hex blob ∧ sd_size sd = len blob
  | Raise _ => fs' = st_files s
  end.
Proof.
  intros Hr Hg Hnew Hfree. assert (mkStoreState (st_files s) (st_writers s) = s) as Es by by destruct s. unfold put.
  destruct (dataset_id sha256_hex d) as [id|e] eqn:Hid; cbn [obind]; [|intros [= <- <-]; by rewrite Es].
  destruct (path_for root id) as [path|e] eqn:Hp; cbn [obind]; [|intros [= <- <-]; by rewrite Es].
  destruct (st_files s !! path) as [old|] eqn:Hf.
  - intros [= <- <-]. rewrite Es. split; [done|]. unfold verified_path, read_blob. rewrite Hf.
    destruct (_ <? _); cbn [obind]; [done|]. destruct (decode_blob _ _ _ _ _ _); cbn [obind]; [|done]. cbn [sd_dataset_id sd_path sd_sha256 sd_size].
    split_and!; [done|done|by exists old].
  - destruct (encode d) as [blob|e] eqn:He; [|intros [= <- <-]; by rewrite Es].
    destruct (Z.ltb_spec max_bytes (len blob)); intros [= <- <-]; [by rewrite Es|]. cbn. split.
    + by eapply put_steps; eauto.
    + split_and!; [done|done|]. exists blob. by rewrite lookup_insert_eq.
Qed.
End facts.

(** ** A store at work *)

Definition flat_hash (_ : string) : string :=
  "00000000000000000000000000000000000000000000000000000000000000ff".
Definition sample_id : string := DATASET_SCHEME +:+ ":" +:+ flat_hash EmptyString.
Definition sample_path : string := "/data/qs-ds-sha256-v1/00/" +:+ flat_hash EmptyString.

Lemma sample_given : ∃ blob,
  dataset_id flat_hash sample_dataset = Ret sample_id ∧ path_for "/data" sample_id = Ret sample_path ∧
  encode_blob flat_hash sample_compress sample_dataset = Ret blob ∧ len blob ≤ 8192 ∧
  len (concat_text (payload_chunks sample_dataset)) ≤ 8192 ∧ len (canonical_json (blob_header sample_id sample_dataset)) ≤ MAX_HEADER.
Proof.
  destruct (succeeds_Ret (dataset_id flat_hash sample_dataset) (String.eqb sample_id)) as (i & Hi & <-%String.eqb_eq); [vm_compute; reflexivity|].
  destruct (succeeds_Ret (path_for "/data" sample_id) (String.eqb sample_path)) as (p & Hp & <-%String.eqb_eq); [vm_compute; reflexivity|].
  destruct (succeeds_Ret (encode_blob flat_hash sample_compress sample_dataset) (λ b, len b <=? 8192)) as (b & Hb & Hl%Z.leb_le); [vm_compute; reflexivity|].
  exists b. split_and!; [exact Hi|exact Hp|exact Hb|exact Hl|apply Z.leb_le; vm_compute; reflexivity..].
Qed.

Lemma store_serves_whole_datasets_witness : ∃ files blob,
  files !! sample_path = Some blob ∧
  ∃ d, d = sample_dataset ∧ dataset_id flat_hash d = Ret sample_id ∧
    get flat_hash sample_decompress (λ _, None) "/data" 8192 files sample_id None = Ret d.
Proof.
  destruct sample_given as (blob & Hid & Hp & He & Hl & Hpay & Hhead).
  exists (<[sample_path := blob]> ∅), blob. split; [apply lookup_insert_eq|].
  destruct (store_serves_whole_datasets flat_hash sample_compress sample_decompress (λ _, None) "/data" 8192 (λ d, d = sample_dataset)
    ltac:(reflexivity) ltac:(intros d ->; exact (proj1 sample_dataset_ok))
    (mkStoreState (<[sample_path := blob]> ∅) ∅) sample_id sample_path blob) as [(d & -> & Hi & _ & _ & Hget) _].
  - exact (put_steps flat_hash sample_compress "/data" 8192 (λ d, d = sample_dataset) (mkStoreState ∅ ∅) sample_dataset sample_id sample_path blob "x"
      eq_refl eq_refl Hid Hp He Hl eq_refl).
  - exact Hp.
  - apply lookup_insert_eq.
  - exists sample_dataset. split; [reflexivity|split; [exact Hid|]].
    specialize (Hget Hhead None (or_introl eq_refl)). rewrite (proj2 (Z.ltb_ge _ _) Hpay) in Hget. exact Hget.
Defined.

Lemma put_is_a_run_witness : ∃ files sd,
  rtc (store_step flat_hash sample_compress "/data" 8192 (λ d, d = sample_dataset)) (mkStoreState ∅ ∅) (mkStoreState files ∅) ∧
  ∃ blob, files !! sd_path sd = Some blob.
Proof.
  destruct sample_given as (blob & Hid & Hp & He & Hl & Hpay & Hhead).
  assert (put flat_hash sample_compress sample_decompress (λ _, None) "/data" 8192 sample_dataset ∅ =
    (<[sample_path := blob]> ∅, Ret (mkStoredDataset sample_id sample_path (flat_hash blob) (len blob)))) as E.
  { unfold put. rewrite Hid. cbn [obind]. rewrite Hp. cbn [obind]. rewrite lookup_empty, He. rewrite (proj2 (Z.ltb_ge _ _)) by exact Hl. done. }
  destruct (put_is_a_run flat_hash sample_compress sample_decompress (λ _, None) "/data" 8192 (λ d, d = sample_dataset)
    (mkStoreState ∅ ∅) sample_dataset _ _ "x" (rtc_refl _ _) eq_refl eq_refl (λ _ _, lookup_empty _) E) as [Hr (_ & _ & b & Hb & _)].
  exists (<[sample_path := blob]> ∅), (mkStoredDataset sample_id sample_path (flat_hash blob) (len blob)). split; [exact Hr|by exists b].
Defined.
