(* ===== verification/Lockout.v ===== *)
(** The login lockout of backend/services/auth_service.py: five failures of
    one (email, address) within fifteen minutes lock it for fifteen minutes.
    The code keeps two ordered dicts swept from the front; the specification
    is a list of failures per key and nothing else. *)

From S2P Require Import Prelude Models OrderedDict.
From Stdlib Require Import Ascii.
From stdpp Require Import sorting.
#[local] Open Scope Z_scope.

(** Times are microseconds. *)
Definition FAIL_WINDOW_SECONDS : Z := 900.
Definition MAX_ATTEMPTS : nat := 5.
Definition LOCKOUT_SECONDS : Z := 900.

Definition rate_key (email : string) (ip : option string) : string :=
  str_lower email +:+ ":" +:+ match ip with Some EmptyString | None => "unknown" | Some ip => ip end.

(** [_FAIL_ATTEMPTS] and [_LOCKED_UNTIL]. *)
Record Lockout := mkLockout {
  fail_attempts : list (string * list Z);
  locked_until : list (string * Z)
}.
#[global] Instance eta_Lockout : Eta Lockout := λ s, mkLockout (fail_attempts s) (locked_until s).

Definition in_window (now t : Z) : Prop := now - t < seconds FAIL_WINDOW_SECONDS.
#[global] Instance in_window_dec now t : Decision (in_window now t) := decide (_ < _).

Definition stale_failures (now : Z) (times : list Z) : bool :=
  match last times with Some t => negb (bool_decide (in_window now t)) | None => true end.

Definition expire_lockout_state (now : Z) (s : Lockout) : Lockout :=
  s <| fail_attempts ::= od_expire (stale_failures now) |>
    <| locked_until ::= od_expire (λ until, negb (now <? until)) |>.

Definition recent_failures (key : string) (now : Z) (s : Lockout) : Lockout * list Z :=
  let times := filter (in_window now) (default [] (od_get key (fail_attempts s))) in
  (s <| fail_attempts ::= match times with [] => od_pop key | _ => od_put key times end |>, times).

(** Whether the key is locked, and for how many seconds. [now] is read before
    the lock is taken, so concurrent calls may be applied slightly out of the
    order of their times. *)
Definition check_rate_limit (now : Z) (email : string) (ip : option string) (s : Lockout)
    : Lockout * (bool * Z) :=
  let key := rate_key email ip in
  let s := expire_lockout_state now s in
  let until := default 0 (od_get key (locked_until s)) in
  if now <? until then (s, (true, (until - now) / seconds 1))
  else ((recent_failures key now s).1, (false, 0)).

Definition record_failed_attempt (now : Z) (email : string) (ip : option string) (s : Lockout)
    : Lockout * option Z :=
  let key := rate_key email ip in
  let s := expire_lockout_state now s in
  let '(s, times) := recent_failures key now s in
  let times := times ++ [now] in
  let s := s <| fail_attempts ::= od_put_end key times |> in
  if (MAX_ATTEMPTS <=? length times)%nat then
    (s <| locked_until ::= od_put_end key (now + seconds LOCKOUT_SECONDS) |>
       <| fail_attempts ::= od_pop key |>, Some LOCKOUT_SECONDS)
  else (s, None).

Definition clear_failed_attempts (email : string) (ip : option string) (s : Lockout) : Lockout :=
  let key := rate_key email ip in
  s <| fail_attempts ::= od_pop key |> <| locked_until ::= od_pop key |>.

(** ** The specification *)

(** Each key's failures since it was last cleared or locked, and its lock. *)
Record LockoutSpec := mkLockoutSpec { sp_failures : string → list Z; sp_locked : string → option Z }.

Definition fupd {A} (k : string) (a : A) (f : string → A) : string → A :=
  λ j, if decide (j = k) then a else f j.

Definition spec_check (now : Z) (key : string) (s : LockoutSpec) : bool * Z :=
  match sp_locked s key with
  | Some until => if now <? until then (true, (until - now) / seconds 1) else (false, 0)
  | None => (false, 0)
  end.
Definition spec_fail (now : Z) (key : string) (s : LockoutSpec) : LockoutSpec * option Z :=
  let times := filter (in_window now) (sp_failures s key) ++ [now] in
  if (MAX_ATTEMPTS <=? length times)%nat then
    (mkLockoutSpec (fupd key [] (sp_failures s))
       (fupd key (Some (now + seconds LOCKOUT_SECONDS)) (sp_locked s)), Some LOCKOUT_SECONDS)
  else (mkLockoutSpec (fupd key times (sp_failures s)) (sp_locked s), None).
Definition spec_clear (key : string) (s : LockoutSpec) : LockoutSpec :=
  mkLockoutSpec (fupd key [] (sp_failures s)) (fupd key None (sp_locked s)).

(** ** The simulation *)

Definition newest (times : list Z) : Z := default 0 (last times).

Definition older (ts us : list Z) : Prop := ts ≠ [] ∧ us ≠ [] ∧ newest ts ≤ newest us.

(** At time [T]: what is stored is in order, and agrees with the
    specification on everything that can still matter. *)
Record sim (T : Z) (s : Lockout) (a : LockoutSpec) : Prop := {
  sim_keys : NoDup (od_keys (fail_attempts s));
  sim_lock_keys : NoDup (od_keys (locked_until s));
  sim_times : ∀ k ts, od_get k (fail_attempts s) = Some ts →
                StronglySorted Z.le ts ∧ Forall (λ t, t ≤ T) ts;
  sim_order : od_ordered older (fail_attempts s);
  sim_nonempty : ∀ k ts, od_get k (fail_attempts s) = Some ts → ts ≠ [];
  sim_lock_order : od_ordered Z.le (locked_until s);
  sim_lock_bound : ∀ k u, od_get k (locked_until s) = Some u → u ≤ T + seconds LOCKOUT_SECONDS;
  sim_failures : ∀ k now, T ≤ now →
                   filter (in_window now) (default [] (od_get k (fail_attempts s))) =
                   filter (in_window now) (sp_failures a k);
  sim_locked : ∀ k now, T ≤ now →
                 match od_get k (locked_until s) with Some u => if now <? u then Some u else None | None => None end =
                 match sp_locked a k with Some u => if now <? u then Some u else None | None => None end
}.

(** Nothing stored is out of date. *)
Definition no_garbage (now : Z) (s : Lockout) : Prop :=
  Forall (λ kv, stale_failures now kv.2 = false) (fail_attempts s) ∧
  Forall (λ kv, now < kv.2) (locked_until s).

Lemma stale_filter now ts :
  StronglySorted Z.le ts → stale_failures now ts = true → filter (in_window now) ts = [].
Proof.
  unfold stale_failures. destruct ts as [|t ts _] using rev_ind; [done|].
  rewrite last_snoc, negb_true_iff, bool_decide_eq_false. unfold in_window.
  intros Hs Ht. assert (Forall (λ x, ¬ now - x < seconds FAIL_WINDOW_SECONDS) (ts ++ [t])) as Hall.
  { apply Forall_app. split; [|by constructor]. apply Forall_forall. intros x Hx.
    pose proof (StronglySorted_app_1_elem_of _ _ _ x t Hs Hx ltac:(by left)). lia. }
  clear Hs Ht. induction Hall as [|x l Hx Hl IH]; [done|]. by rewrite filter_cons_False.
Qed.

Lemma in_window_mono now now' t : now ≤ now' → in_window now' t → in_window now t.
Proof. unfold in_window. lia. Qed.

Lemma filter_window_mono now now' (ts : list Z) :
  now ≤ now' → filter (in_window now') (filter (in_window now) ts) = filter (in_window now') ts.
Proof. intros Hle. apply list_filter_filter_l. intros t. by apply in_window_mono. Qed.

Lemma live_newest now ts :
  stale_failures now ts = false → filter (in_window now) ts ≠ [] ∧ newest (filter (in_window now) ts) = newest ts.
Proof.
  unfold stale_failures, newest. destruct ts as [|t ts _] using rev_ind; [done|].
  rewrite last_snoc, negb_false_iff, bool_decide_eq_true. intros Ht. rewrite filter_app, filter_cons_True by done.
  split; [by destruct (filter _ ts)|]. by rewrite filter_nil, last_snoc.
Qed.

Lemma sim_later T T' s a : T ≤ T' → sim T s a → sim T' s a.
Proof.
  intros Hle [H1 H2 H3 H4 H5 H6 H7 H8 H9]. split; try done.
  - intros k ts Hk. destruct (H3 k ts Hk) as [? Hf]. split; [done|]. eapply Forall_impl; [done|]. cbn. lia.
  - intros k u Hu. specialize (H7 k u Hu). lia.
  - intros k now Hn. apply H8. lia.
  - intros k now Hn. apply H9. lia.
Qed.

(** Sweeping the fronts forgets only what no longer matters. *)
Lemma expire_sim now s a :
  sim now s a → sim now (expire_lockout_state now s) a ∧ no_garbage now (expire_lockout_state now s).
Proof.
  intros [H1 H2 H3 H4 H5 H6 H7 H8 H9]. unfold expire_lockout_state.
  pose proof (λ k, od_get_expire (stale_failures now) k (fail_attempts s) H1) as Hf.
  pose proof (λ k, od_get_expire (λ u, negb (now <? u)) k (locked_until s) H2) as Hl.
  split; [split; cbn|split; cbn].
  - by apply od_keys_expire.
  - by apply od_keys_expire.
  - intros k ts. destruct (Hf k) as [->|[-> _]]; [apply H3|done].
  - by apply od_ordered_expire.
  - intros k ts. destruct (Hf k) as [->|[-> _]]; [apply H5|done].
  - by apply od_ordered_expire.
  - intros k u. destruct (Hl k) as [->|[-> _]]; [apply H7|done].
  - intros k now' Hn. rewrite <-(H8 k now' Hn). destruct (Hf k) as [->|(-> & ts & Hts & Hd)]; [done|].
    rewrite Hts. cbn. rewrite <-(filter_window_mono now now' ts Hn), (stale_filter now ts); [done| |done].
    by apply (H3 k).
  - intros k now' Hn. rewrite <-(H9 k now' Hn). destruct (Hl k) as [->|(-> & u & -> & Hd)]; [done|].
    apply negb_true_iff, Z.ltb_ge in Hd. by rewrite (proj2 (Z.ltb_ge now' u)) by lia.
  - eapply od_expire_live; [exact H4|]. intros ts us (Hts & Hus & Hle).
    unfold stale_failures, newest, in_window in *. destruct (last us) as [u|] eqn:Eu; [|by apply last_None in Eu].
    destruct (last ts) as [t|] eqn:Et; [|done]. cbn in Hle.
    rewrite !negb_true_iff, !bool_decide_eq_false. lia.
  - assert (Forall (λ kv : string * Z, negb (now <? kv.2) = false) (od_expire (λ u, negb (now <? u)) (locked_until s)))
      as Hlive.
    { apply (od_expire_live Z.le (λ u, negb (now <? u)) _ H6). intros u w Hle. rewrite !negb_true_iff, !Z.ltb_ge. lia. }
    eapply Forall_impl; [exact Hlive|]. intros kv. rewrite negb_false_iff. apply Z.ltb_lt.
Qed.

Lemma newest_snoc ts t : newest (ts ++ [t]) = t.
Proof. unfold newest. by rewrite last_snoc. Qed.

Lemma sim_stored now s a k ts :
  sim now s a → (k, ts) ∈ fail_attempts s → ts ≠ [] ∧ newest ts ≤ now.
Proof.
  intros Hs Hin. apply od_get_elem in Hin; [|apply Hs]. pose proof (sim_nonempty _ _ _ Hs k ts Hin) as Hne.
  split; [done|]. destruct (sim_times _ _ _ Hs k ts Hin) as [_ Hb].
  destruct ts as [|t ts _] using rev_ind; [done|]. rewrite newest_snoc. apply Forall_app in Hb as [_ Hb].
  by apply Forall_cons in Hb as [? _].
Qed.

(** One key's failures replaced, at the end of the order. *)
Lemma put_failures_sim now key ts s a :
  sim now s a → StronglySorted Z.le ts → Forall (λ t, t ≤ now) ts →
  sim now (s <| fail_attempts ::= od_put_end key (ts ++ [now]) |>)
    (mkLockoutSpec (fupd key (ts ++ [now]) (sp_failures a)) (sp_locked a)).
Proof.
  intros Hsim Hs Hb. pose proof Hsim as [H1 H2 H3 H4 H5 H6 H7 H8 H9]. split; cbn; try done.
  - by apply od_keys_put_end.
  - intros k us. rewrite od_get_put_end. case_decide; [|apply H3]. intros [= <-]. split.
    + apply StronglySorted_app_2; [|done|by repeat constructor]. intros x y Hx ->%list_elem_of_singleton.
      rewrite Forall_forall in Hb. by apply Hb.
    + apply Forall_app. split; [done|by constructor].
  - apply od_ordered_put_end; [done|]. intros [k us] Hin. cbn. destruct (sim_stored _ _ _ _ _ Hsim Hin) as [Hne Hle].
    split_and!; [done|by destruct ts|by rewrite newest_snoc].
  - intros k us. rewrite od_get_put_end. case_decide; [|apply H5]. intros [= <-]. by destruct ts.
  - intros k now' Hn. rewrite od_get_put_end. unfold fupd. case_decide; [done|]. by apply H8.
Qed.

(** One key's failures dropped, and its lock set or not. *)
Lemma drop_failures_sim now key s a locked :
  sim now s a → locked = None ∨ locked = Some (now + seconds LOCKOUT_SECONDS) →
  sim now (s <| fail_attempts ::= od_pop key |>
             <| locked_until ::= match locked with Some u => od_put_end key u | None => od_pop key end |>)
    (mkLockoutSpec (fupd key [] (sp_failures a)) (fupd key locked (sp_locked a))).
Proof.
  intros Hsim Hl. pose proof Hsim as [H1 H2 H3 H4 H5 H6 H7 H8 H9].
  assert (∀ k, od_get k (match locked with Some u => od_put_end key u | None => od_pop key end (locked_until s)) =
               if decide (k = key) then locked else od_get k (locked_until s)) as Hget.
  { intros k. destruct locked; [by rewrite od_get_put_end|by rewrite od_get_pop]. }
  split; cbn; try done.
  - by apply od_keys_pop.
  - destruct locked; [by apply od_keys_put_end|by apply od_keys_pop].
  - intros k ts. rewrite od_get_pop. case_decide; [done|apply H3].
  - by apply od_ordered_pop.
  - intros k ts. rewrite od_get_pop. case_decide; [done|apply H5].
  - destruct locked as [u|]; [|by apply od_ordered_pop]. destruct Hl as [|[= ->]]; [done|].
    apply od_ordered_put_end; [done|]. intros [k u] Hin. apply (H7 k). by apply od_get_elem.
  - intros k u. rewrite Hget. case_decide; [|apply H7]. intros ->. destruct Hl as [|[= ->]]; [done|lia].
  - intros k now' Hn. rewrite od_get_pop. unfold fupd. case_decide; [done|]. by apply H8.
  - intros k now' Hn. rewrite Hget. unfold fupd. case_decide; [done|]. by apply H9.
Qed.

Lemma StronglySorted_filter (P : Z → Prop) `{∀ x, Decision (P x)} ts :
  StronglySorted Z.le ts → StronglySorted Z.le (filter P ts).
Proof.
  induction 1 as [|t ts Hs IH Ht]; [constructor|]. rewrite filter_cons. case_decide; [|done].
  constructor; [done|]. rewrite Forall_forall in Ht |- *. intros x [_ Hx]%list_elem_of_filter. by apply Ht.
Qed.

Lemma stored_ok now s a key :
  sim now s a →
  let ts := filter (in_window now) (default [] (od_get key (fail_attempts s))) in
  StronglySorted Z.le ts ∧ Forall (λ t, t ≤ now) ts ∧ ts = filter (in_window now) (sp_failures a key).
Proof.
  intros Hs ts. split_and!; [| |apply (sim_failures _ _ _ Hs); lia]; subst ts;
    (destruct (od_get key (fail_attempts s)) as [us|] eqn:E; [|cbn; by constructor]);
    destruct (sim_times _ _ _ Hs key us E) as [H1 H2].
  - by apply StronglySorted_filter.
  - cbn. rewrite Forall_forall in H2 |- *. intros t [_ Ht]%list_elem_of_filter. by apply H2.
Qed.

Lemma no_garbage_pop now key s :
  no_garbage now s → no_garbage now (s <| fail_attempts ::= od_pop key |>).
Proof.
  intros [Hf Hl]. split; [|done]. cbn. rewrite Forall_forall in Hf |- *. intros kv [_ Hin]%od_pop_in. by apply Hf.
Qed.

Lemma update_failures_ext s (f g : list (string * list Z) → list (string * list Z)) :
  f (fail_attempts s) = g (fail_attempts s) → s <| fail_attempts ::= f |> = s <| fail_attempts ::= g |>.
Proof. intros E. unfold set_field. cbn. by rewrite E. Qed.

Lemma fail_sim now email ip s a :
  sim now s a →
  let '(s', r) := record_failed_attempt now email ip s in
  let '(a', r') := spec_fail now (rate_key email ip) a in
  r = r' ∧ sim now s' a' ∧ no_garbage now s'.
Proof.
  intros Hs. unfold record_failed_attempt, spec_fail. set (key := rate_key email ip).
  destruct (expire_sim now s a Hs) as [Hs1 Hg]. set (s1 := expire_lockout_state now s) in *. unfold recent_failures.
  pose proof (stored_ok now s1 a key Hs1) as (Hsort & Hb & Heq). cbv zeta in Hsort, Hb, Heq.
  rewrite <-Heq. set (ts := filter (in_window now) (default [] (od_get key (fail_attempts s1)))) in *.
  set (f := match ts with [] => od_pop key | _ => od_put key ts end).
  assert (∀ v, od_put_end key v (f (fail_attempts s1)) = od_put_end key v (fail_attempts s1)) as Hput.
  { intros v. unfold od_put_end. f_equal. subst f. destruct ts; [apply od_pop_pop|apply od_pop_put]. }
  clearbody f.
  assert (s1 <| fail_attempts ::= f |> <| fail_attempts ::= od_put_end key (ts ++ [now]) |> =
          s1 <| fail_attempts ::= od_put_end key (ts ++ [now]) |>) as ->.
  { apply (update_failures_ext s1 (λ m, od_put_end key (ts ++ [now]) (f m))), Hput. }
  destruct (MAX_ATTEMPTS <=? length (ts ++ [now]))%nat.
  - split; [done|]. assert (∀ u, s1 <| fail_attempts ::= od_put_end key (ts ++ [now]) |> <| locked_until ::= u |>
        <| fail_attempts ::= od_pop key |> = s1 <| fail_attempts ::= od_pop key |> <| locked_until ::= u |>) as ->.
    { intros u.
      transitivity (s1 <| fail_attempts ::= (λ m, od_pop key (od_put_end key (ts ++ [now]) m)) |> <| locked_until ::= u |>);
        [reflexivity|].
      by rewrite (update_failures_ext s1 _ (od_pop key) (od_pop_put_end _ _ _)). }
    split; [by apply (drop_failures_sim now key s1 a (Some _)); [|right]|].
    destruct (no_garbage_pop now key s1 Hg) as [Hf Hl]. split; [done|]. cbn. unfold od_put_end.
    apply Forall_app. split; [|constructor; [unfold seconds, LOCKOUT_SECONDS; cbn; lia|done]].
    rewrite Forall_forall in Hl |- *. intros kv [_ Hin]%od_pop_in. by apply Hl.
  - split; [done|]. split; [by apply put_failures_sim|]. destruct Hg as [Hf Hl]. split; [|done]. cbn.
    unfold od_put_end. apply Forall_app. split.
    + rewrite Forall_forall in Hf |- *. intros kv [_ Hin]%od_pop_in. by apply Hf.
    + constructor; [|done]. cbn. unfold stale_failures. rewrite last_snoc, negb_false_iff.
      apply bool_decide_eq_true_2. unfold in_window, seconds, FAIL_WINDOW_SECONDS. lia.
Qed.

(** Keeping only the recent failures of a key, in place. *)
Lemma recent_sim now key s a :
  sim now s a → no_garbage now s →
  sim now (recent_failures key now s).1 a ∧ no_garbage now (recent_failures key now s).1.
Proof.
  intros Hs [Hf Hl]. unfold recent_failures. cbn [fst].
  destruct (od_get key (fail_attempts s)) as [us|] eqn:E; cbn [default from_option id].
  2: { assert (od_pop key (fail_attempts s) = fail_attempts s) as Hpop.
       { unfold od_pop. clear -E. induction (fail_attempts s) as [|[k v] l IH]; [done|]. cbn in E.
         case_decide; [done|]. by rewrite filter_cons_True, IH. }
       cbn [filter list_filter]. unfold set_field. cbn. rewrite Hpop. by destruct s. }
  assert (stale_failures now us = false) as Hlive.
  { rewrite Forall_forall in Hf. apply (Hf (key, us)). by apply od_get_in. }
  destruct (live_newest now us Hlive) as [Hne Hnew].
  pose proof (stored_ok now s a key Hs) as (Hsort & Hb & Heq). cbv zeta in Hsort, Hb, Heq.
  rewrite E in Hsort, Hb, Heq. cbn [default from_option id] in Hsort, Hb, Heq.
  set (ts := filter (in_window now) us) in *.
  assert (match ts with [] => od_pop key | _ => od_put key ts end = od_put key ts) as -> by by destruct ts.
  pose proof Hs as [H1 H2 H3 H4 H5 H6 H7 H8 H9]. split; [split; cbn; try done|split; [|done]]; cbn.
  - by apply od_keys_put.
  - intros k vs. rewrite od_get_put. case_decide; [|apply H3]. by intros [= <-].
  - apply (od_ordered_put older key ts us); [done| | |exact H4]; unfold older; rewrite Hnew; naive_solver.
  - intros k vs. rewrite od_get_put. case_decide; [|apply H5]. by intros [= <-].
  - intros k now' Hn. rewrite od_get_put, <-(H8 k now' Hn). case_decide; [|done]. subst k. rewrite E.
    by apply filter_window_mono.
  - rewrite Forall_forall in Hf |- *. intros kv [->|Hin]%od_put_in; [|by apply Hf].
    cbn. unfold stale_failures in *. unfold newest in Hnew.
    destruct (last us) as [u|] eqn:Eu; [|done]. destruct (last ts) as [t|] eqn:Et.
    + cbn in Hnew. by subst.
    + by apply last_None in Et.
Qed.

Lemma check_sim now email ip s a :
  0 ≤ now → sim now s a →
  let '(s', r) := check_rate_limit now email ip s in
  r = spec_check now (rate_key email ip) a ∧ sim now s' a ∧ no_garbage now s'.
Proof.
  intros Hnow Hs. unfold check_rate_limit, spec_check. set (key := rate_key email ip).
  destruct (expire_sim now s a Hs) as [Hs1 Hg]. set (s1 := expire_lockout_state now s) in *.
  pose proof (sim_locked _ _ _ Hs1 key now ltac:(lia)) as Hl.
  pose proof (recent_sim now key s1 a Hs1 Hg) as [Hs2 Hg2].
  destruct (od_get key (locked_until s1)) as [u|]; cbn [default from_option id].
  - destruct (now <? u).
    + destruct (sp_locked a key) as [v|]; [|done]. destruct (now <? v) eqn:Ev; [|done]. by injection Hl as <-.
    + destruct (sp_locked a key) as [v|]; [|done]. by destruct (now <? v).
  - rewrite (proj2 (Z.ltb_ge now 0)) by lia.
    destruct (sp_locked a key) as [v|]; [|done]. by destruct (now <? v).
Qed.

(** ** Any history of logins *)

Inductive login_op := Check | FailLogin | ClearLogin.

(** A call at a time, with the email and address it is about. *)
Record login_call := mkLoginCall { lc_now : Z; lc_op : login_op; lc_email : string; lc_ip : option string }.

(** What a call answers: a check its lock, a failure its lockout. *)
Definition run_lockout (s : Lockout) (c : login_call) : Lockout * (bool * Z) * option Z :=
  match lc_op c with
  | Check => let '(s, r) := check_rate_limit (lc_now c) (lc_email c) (lc_ip c) s in (s, r, None)
  | FailLogin => let '(s, r) := record_failed_attempt (lc_now c) (lc_email c) (lc_ip c) s in (s, (false, 0), r)
  | ClearLogin => (clear_failed_attempts (lc_email c) (lc_ip c) s, (false, 0), None)
  end.
Definition run_spec (a : LockoutSpec) (c : login_call) : LockoutSpec * (bool * Z) * option Z :=
  let key := rate_key (lc_email c) (lc_ip c) in
  match lc_op c with
  | Check => (a, spec_check (lc_now c) key a, None)
  | FailLogin => let '(a, r) := spec_fail (lc_now c) key a in (a, (false, 0), r)
  | ClearLogin => (spec_clear key a, (false, 0), None)
  end.

Fixpoint answers {S} (run : S → login_call → S * (bool * Z) * option Z) (s : S) (cs : list login_call)
    : S * list ((bool * Z) * option Z) :=
  match cs with
  | [] => (s, [])
  | c :: cs =>
      let '(s, r, l) := run s c in
      let '(s, rs) := answers run s cs in (s, (r, l) :: rs)
  end.

(** The clock does not go back. *)
Fixpoint clock_ascends (T : Z) (cs : list login_call) : Prop :=
  match cs with [] => True | c :: cs => T ≤ lc_now c ∧ clock_ascends (lc_now c) cs end.

Definition never_failed : LockoutSpec := mkLockoutSpec (λ _, []) (λ _, None).

Lemma run_sim T s a c :
  0 ≤ T → T ≤ lc_now c → sim T s a →
  let '(s', r, l) := run_lockout s c in
  let '(a', r', l') := run_spec a c in
  r = r' ∧ l = l' ∧ sim (lc_now c) s' a' ∧ (lc_op c ≠ ClearLogin → no_garbage (lc_now c) s').
Proof.
  intros HT Hle Hs%(sim_later T (lc_now c)); [|done]. unfold run_lockout, run_spec. destruct (lc_op c).
  - pose proof (check_sim (lc_now c) (lc_email c) (lc_ip c) s a ltac:(lia) Hs) as H.
    destruct (check_rate_limit _ _ _ s) as [s' r]. naive_solver.
  - pose proof (fail_sim (lc_now c) (lc_email c) (lc_ip c) s a Hs) as H.
    destruct (record_failed_attempt _ _ _ s) as [s' r]. destruct (spec_fail _ _ a) as [a' r']. naive_solver.
  - split_and!; try done. by apply (drop_failures_sim _ _ s a None); [|left].
Qed.

(** C33: the login lockout is the sliding window it means to be. However checks,
    failures and successful logins of any accounts are interleaved, while the
    clock does not go back, every answer (locked or not, the seconds left, the
    lockout a failure triggers) is the one of the specification that merely
    keeps each key's failures: locked for fifteen minutes by the fifth failure
    within fifteen minutes. And sweeping only the fronts of the two dicts keeps
    nothing out of date: after any check or failure every stored key has a
    failure inside the window, and every stored lock is still in force. *)
Theorem lockout_refines_window cs c :
  clock_ascends 0 (cs ++ [c]) →
  (answers run_lockout (mkLockout [] []) (cs ++ [c])).2 = (answers run_spec never_failed (cs ++ [c])).2 ∧
  (lc_op c ≠ ClearLogin → no_garbage (lc_now c) (answers run_lockout (mkLockout [] []) (cs ++ [c])).1).
Proof.
  assert (sim 0 (mkLockout [] []) never_failed) as Hs.
  { split; cbn; try done; constructor. }
  revert Hs. generalize (mkLockout [] []), never_failed. intros s a Hs.
  assert (0 ≤ 0) as H0 by lia. revert Hs H0. generalize 0 at 1 3 4. intros T.
  revert T s a. induction cs as [|d cs IH]; intros T s a Hs HT [Hle Hasc]; cbn [app answers].
  - pose proof (run_sim T s a c HT Hle Hs) as Hr.
    destruct (run_lockout s c) as [[s' r] l], (run_spec a c) as [[a' r'] l'].
    destruct Hr as (-> & -> & _ & Hg). done.
  - pose proof (run_sim T s a d HT Hle Hs) as Hr.
    destruct (run_lockout s d) as [[s' r] l], (run_spec a d) as [[a' r'] l'].
    destruct Hr as (-> & -> & Hs' & _). specialize (IH (lc_now d) s' a' Hs' ltac:(lia) Hasc).
    destruct (answers run_lockout s' (cs ++ [c])) as [s2 rs], (answers run_spec a' (cs ++ [c])) as [a2 rs'].
    cbn in *. destruct IH as [-> Hg]. done.
Qed.

(** Five failures, a check, and another one fifteen minutes later. *)
Definition five_failures : list login_call :=
  map (λ t, mkLoginCall (seconds t) FailLogin "A@b.c" (Some "1.2.3.4")) [1; 2; 3; 4; 5].

Lemma lockout_refines_window_witness :
  let cs := five_failures ++ [mkLoginCall (seconds 6) Check "a@B.C" (Some "1.2.3.4")] in
  let c := mkLoginCall (seconds 905) Check "a@b.c" (Some "1.2.3.4") in
  (answers run_lockout (mkLockout [] []) (cs ++ [c])).2 =
    [((false, 0), None); ((false, 0), None); ((false, 0), None); ((false, 0), None);
     ((false, 0), Some 900); ((true, 899), None); ((false, 0), None)].
Proof.
  cbv zeta. rewrite (proj1 (lockout_refines_window
    (five_failures ++ [mkLoginCall (seconds 6) Check "a@B.C" (Some "1.2.3.4")])
    (mkLoginCall (seconds 905) Check "a@b.c" (Some "1.2.3.4"))
    ltac:(repeat (split; [vm_compute; congruence|]); exact I))).
  vm_compute. reflexivity.
Defined.
