(* ===== verification/RedisStore.v ===== *)
(** backend/services/redis_store.py: shared state in Redis with an in-memory
    fallback for development. The Redis client is a record of its calls over
    an abstract server state; each call replies or raises. Times are
    microseconds; a fallback entry's expiry is [None] for [float("inf")]. *)

From Stdlib Require Import Ascii.
From S2P Require Import Prelude Models.
#[local] Open Scope Z_scope.

(** The calls the services make, on a server in state [R]. [rc_set key value
    nx ex] is [set(key, value, nx=nx, ex=ex)] and returns whether the reply is
    not [None]. *)
Record RedisClient (R : Type) := mkRedisClient {
  rc_set : string → string → bool → option Z → R → R * outcome string bool;
  rc_get : string → R → R * outcome string (option string);
  rc_exists : string → R → R * outcome string bool;
  rc_delete : string → R → R * outcome string unit;
  rc_scan_iter : string → R → R * outcome string (list string)
}.
Arguments rc_set {R}. Arguments rc_get {R}. Arguments rc_exists {R}.
Arguments rc_delete {R}. Arguments rc_scan_iter {R}.

(** An exception of the client let through, or the code's own. *)
Inductive StoreError :=
| RedisError (message : string)
| RiskStateUnavailable.

(** The server, and this process's fallback stores. *)
Record Store (R : Type) := mkStore {
  st_redis : R;
  mem_kv : gmap string (string * option Z);
  mem_nonces : gmap string Z;
  mem_kill_switches : gset string
}.
Arguments mkStore {R}. Arguments st_redis {R}. Arguments mem_kv {R}.
Arguments mem_nonces {R}. Arguments mem_kill_switches {R}.
#[global] Instance eta_Store R : Eta (Store R) := λ s,
  mkStore (st_redis s) (mem_kv s) (mem_nonces s) (mem_kill_switches s).

(** [key.split(":")] *)
Fixpoint split_colon (s : string) : list string :=
  match s with
  | EmptyString => [EmptyString]
  | String c s =>
      if bool_decide (c = ":"%char) then EmptyString :: split_colon s
      else match split_colon s with
           | w :: ws => String c w :: ws
           | [] => [String c EmptyString]
           end
  end.

(** An optional string that is neither [None] nor empty. *)
Definition nonempty (s : option string) : option string :=
  match s with
  | Some EmptyString | None => None
  | Some s => Some s
  end.

Definition kill_key (scope : string) (identifier : option string) : string :=
  match nonempty identifier with
  | Some i => "qs:risk:kill:" +:+ scope +:+ ":" +:+ i
  | None => "qs:risk:kill:" +:+ scope
  end.

(** A listed key's scope and identifier. *)
Definition kill_entry (key : string) : option (string * option string) :=
  match split_colon key with
  | _ :: _ :: _ :: scope :: rest => Some (scope, head rest)
  | _ => None
  end.

Section store.
Context {R : Type}.
Variable redis_client : option (RedisClient R).
(** [ENVIRONMENT == "production"] *)
Variable production : bool.
(** [hashlib.sha256(...).hexdigest()] *)
Variable sha256_hex : string → string.

#[local] Abbreviation io A := (prog (Store R) StoreError A).

(** [if redis_client: try: return await call; except: ...], then the code
    below it. [reraise] is what the handler does with the exception. *)
Definition try_redis {A} (call : RedisClient R → R → R * outcome string A)
    (reraise : string → option StoreError) (fallback : io A) : io A := λ s,
  match redis_client with
  | None => fallback s
  | Some c =>
      let '(r, reply) := call c (st_redis s) in
      let s := s <| st_redis := r |> in
      match reply with
      | Ret a => (s, Ret a)
      | Raise m =>
          match reraise m with
          | Some e => (s, Raise e)
          | None => fallback s
          end
      end
  end.

(** [if ENVIRONMENT == "production": raise] *)
Definition raise_in_production (m : string) : option StoreError :=
  if production then Some (RedisError m) else None.
Definition unavailable_in_production (_ : string) : option StoreError :=
  if production then Some RiskStateUnavailable else None.

Definition lapsed_at (now : Z) (expiry : option Z) : Prop :=
  match expiry with
  | Some e => e ≠ 0 ∧ e < now
  | None => False
  end.
#[global] Instance lapsed_at_dec now e : Decision (lapsed_at now e).
Proof. destruct e; cbn; apply _. Defined.

(** [_cleanup_mem] *)
Definition cleanup_mem (now : Z) (s : Store R) : Store R :=
  s <| mem_kv ::= λ m, filter (λ kv, ¬ lapsed_at now kv.2.2) m |>
    <| mem_nonces ::= λ m, filter (λ kv, ¬ kv.2 < now) m |>.

Definition unexpired (now : Z) (entry : option (string * option Z)) : bool :=
  match entry with
  | Some (_, Some e) => now <? e
  | Some (_, None) => true
  | None => false
  end.

Definition set_nx_ex (now : Z) (key : string) (ttl : Z) : io bool :=
  try_redis (λ c, rc_set c key "1" true (Some ttl)) raise_in_production
    (_ ← pmodify (cleanup_mem now);
     s ← pget;
     if unexpired now (mem_kv s !! key) then mret false
     else
       _ ← pmodify (λ s, s <| mem_kv ::= <[key := ("1", Some (now + seconds ttl))]> |>);
       mret true).

Definition exists_ (now : Z) (key : string) : io bool :=
  try_redis (λ c, rc_exists c key) raise_in_production
    (_ ← pmodify (cleanup_mem now);
     s ← pget;
     mret (bool_decide (is_Some (mem_kv s !! key)))).

(** A missing or zero [ttl] sets no expiry. *)
Definition truthy_ttl (ttl : option Z) : option Z :=
  match ttl with
  | Some t => if t =? 0 then None else Some t
  | None => None
  end.

Definition set_key (now : Z) (key value : string) (ttl : option Z) : io unit :=
  try_redis (λ c r, let '(r, reply) := rc_set c key value false (truthy_ttl ttl) r in
                    (r, let! _ := reply in Ret tt)) raise_in_production
    (pmodify (λ s, s <| mem_kv ::=
       <[key := (value, (λ t, now + seconds t) <$> truthy_ttl ttl)]> |>)).

Definition get_key (now : Z) (key : string) : io (option string) :=
  try_redis (λ c, rc_get c key) raise_in_production
    (_ ← pmodify (cleanup_mem now);
     s ← pget;
     mret (fst <$> mem_kv s !! key)).

(** A failed delete falls through to the fallback store everywhere. *)
Definition delete_key (key : string) : io unit :=
  try_redis (λ c, rc_delete c key) (λ _, None)
    (pmodify (λ s, s <| mem_kv ::= delete key |>)).

(** *** Nonces *)

Definition pqc_nonce_key (nonce : string) : string := "qs:pqc:nonce:" +:+ sha256_hex nonce.
Definition order_nonce_key (user_id nonce : string) : string :=
  "qs:order:nonce:" +:+ sha256_hex (user_id +:+ ":" +:+ nonce).
Definition api_nonce_key (key_id nonce : string) : string :=
  "qs:api:nonce:" +:+ sha256_hex (key_id +:+ ":" +:+ nonce).

Definition consume_pqc_nonce (now : Z) (nonce : string) : io bool :=
  set_nx_ex now (pqc_nonce_key nonce) 300.
Definition consume_order_nonce (now : Z) (nonce user_id : string) : io bool :=
  set_nx_ex now (order_nonce_key user_id nonce) 300.
Definition consume_api_nonce (now : Z) (key_id nonce : string) : io bool :=
  set_nx_ex now (api_nonce_key key_id nonce) 300.

(** *** Kill switches *)

Definition set_kill_switch (now : Z) (scope : string) (identifier : option string)
    (enabled : bool) : io unit :=
  let key := kill_key scope identifier in
  if enabled then
    _ ← set_key now key "1" None;
    pmodify (λ s, s <| mem_kill_switches ::= λ m, {[key]} ∪ m |>)
  else
    _ ← delete_key key;
    pmodify (λ s, s <| mem_kill_switches ::= λ m, m ∖ {[key]} |>).

Definition is_kill_switch_active (scope : string) (identifier : option string) : io bool :=
  let key := kill_key scope identifier in
  try_redis (λ c, rc_exists c key) unavailable_in_production
    (s ← pget; mret (bool_decide (key ∈ mem_kill_switches s))).

Definition list_kill_switches : io (list (string * option string)) :=
  try_redis (λ c r, let '(r, reply) := rc_scan_iter c "qs:risk:kill:*" r in
                    (r, let! keys := reply in Ret (omap kill_entry keys)))
    unavailable_in_production
    (s ← pget; mret (omap kill_entry (elements (mem_kill_switches s)))).

(** *** Refresh-token cache *)

Definition cache_refresh_token (now : Z) (token_hash user_id : string) (ttl : Z) : io unit :=
  set_key now ("qs:refresh:" +:+ token_hash) user_id (Some ttl).
Definition get_cached_refresh_user (now : Z) (token_hash : string) : io (option string) :=
  get_key now ("qs:refresh:" +:+ token_hash).
Definition invalidate_refresh_token (token_hash : string) : io unit :=
  delete_key ("qs:refresh:" +:+ token_hash).

(** [run_sync]: [None] when there is no application loop, when the coroutine
    raises, and when its result does not arrive in time. *)
Definition run_sync {A} (loop_running in_time : bool) (m : io A) (s : Store R)
    : Store R * option A :=
  if loop_running then
    let '(s, r) := m s in
    (s, match r with Ret a => if in_time then Some a else None | Raise _ => None end)
  else (s, None).
End store.

(** * Theorems

    What the shared store guarantees: a nonce is consumed once inside its
    lifetime whatever else the store is used for meanwhile, production never
    falls back to process memory, and the kill-switch keys are unambiguous. *)

#[local] Open Scope Z_scope.

(** ** Kill-switch keys *)

Fixpoint colon_free (s : string) : bool :=
  match s with
  | EmptyString => true
  | String c s => bool_decide (c ≠ ":"%char) && colon_free s
  end.

Lemma split_colon_free s : colon_free s = true → split_colon s = [s].
Proof.
  induction s as [|c s IH]; [done|]. cbn [colon_free split_colon]. intros [Hc Hs]%andb_prop.
  apply bool_decide_eq_true_1 in Hc. rewrite bool_decide_eq_false_2 by done. by rewrite IH.
Qed.

Lemma split_colon_cut s t : colon_free s = true → split_colon (s +:+ ":" +:+ t) = s :: split_colon t.
Proof.
  induction s as [|c s IH]; [done|]. cbn [colon_free]. intros [Hc Hs]%andb_prop.
  apply bool_decide_eq_true_1 in Hc. change (String c s +:+ ?r) with (String c (s +:+ r)).
  cbn [split_colon]. rewrite bool_decide_eq_false_2 by done. by rewrite IH.
Qed.

(** A listed key gives back the scope and identifier it was made of. *)
Lemma kill_entry_key scope identifier :
  colon_free scope = true → colon_free (default "" identifier) = true →
  kill_entry (kill_key scope identifier) = Some (scope, nonempty identifier).
Proof.
  intros Hs Hi. unfold kill_key, kill_entry.
  destruct identifier as [[|c i]|]; cbn [nonempty default from_option] in *.
  - change (split_colon _) with ("qs" :: "risk" :: "kill" :: split_colon scope).
    by rewrite split_colon_free.
  - change (split_colon _) with ("qs" :: "risk" :: "kill" :: split_colon (scope +:+ ":" +:+ String c i)).
    by rewrite split_colon_cut, split_colon_free.
  - change (split_colon _) with ("qs" :: "risk" :: "kill" :: split_colon scope).
    by rewrite split_colon_free.
Qed.

Lemma colon_cut_inj a b r s :
  colon_free a = true → colon_free b = true → a +:+ ":" +:+ r = b +:+ ":" +:+ s → a = b ∧ r = s.
Proof.
  revert b; induction a as [|c a IH]; intros [|d b]; cbn [colon_free]; intros Ha Hb E.
  - by injection E.
  - injection E as <- _. discriminate Hb.
  - injection E as -> _. discriminate Ha.
  - apply andb_prop in Ha as [_ Ha], Hb as [_ Hb]. injection E as -> E.
    by destruct (IH b Ha Hb E) as [-> ->].
Qed.

Lemma colon_cut_absent a b r : colon_free b = true → a +:+ ":" +:+ r ≠ b.
Proof.
  revert b; induction a as [|c a IH]; intros [|d b]; cbn [colon_free]; intros Hb E; try discriminate E.
  - injection E as <- _. discriminate Hb.
  - apply andb_prop in Hb as [_ Hb]. injection E as _ E. by apply (IH b Hb).
Qed.

(** Distinct switches have distinct keys, whatever the identifiers contain. *)
Lemma kill_key_inj scope scope' identifier identifier' :
  colon_free scope = true → colon_free scope' = true →
  kill_key scope identifier = kill_key scope' identifier' →
  scope = scope' ∧ nonempty identifier = nonempty identifier'.
Proof.
  unfold kill_key. intros Hs Hs'.
  destruct (nonempty identifier) as [i|], (nonempty identifier') as [i'|]; intros E; injection E as E.
  - by apply colon_cut_inj in E as [-> ->].
  - by apply colon_cut_absent in E.
  - symmetry in E. by apply colon_cut_absent in E.
  - done.
Qed.

(** ** Nonces *)

Section nonces.
Context {R : Type}.
Variable redis_client : option (RedisClient R).
Variable production : bool.
Variable sha256_hex : string → string.
#[local] Abbreviation io A := (prog (Store R) StoreError A).

(** A use of each of the three nonce namespaces. *)
Inductive nonce_use :=
| PqcNonce (nonce : string)
| OrderNonce (user_id nonce : string)
| ApiNonce (key_id nonce : string).

Definition nonce_key (u : nonce_use) : string :=
  match u with
  | PqcNonce n => pqc_nonce_key sha256_hex n
  | OrderNonce user_id n => order_nonce_key sha256_hex user_id n
  | ApiNonce key_id n => api_nonce_key sha256_hex key_id n
  end.

Definition consume (now : Z) (u : nonce_use) : io bool :=
  match u with
  | PqcNonce n => consume_pqc_nonce redis_client production sha256_hex now n
  | OrderNonce user_id n => consume_order_nonce redis_client production sha256_hex now n user_id
  | ApiNonce key_id n => consume_api_nonce redis_client production sha256_hex now key_id n
  end.

Lemma consume_set_nx now u :
  consume now u = set_nx_ex redis_client production now (nonce_key u) 300.
Proof. by destruct u. Qed.

(** Everything else the process does with the store. *)
Inductive store_op :=
| OpNonce (u : nonce_use)
| OpExists (key : string)
| OpSetKill (scope : string) (identifier : option string) (enabled : bool)
| OpKillActive (scope : string) (identifier : option string)
| OpListKill
| OpCacheRefresh (token_hash user_id : string) (ttl : Z)
| OpGetRefresh (token_hash : string)
| OpInvalidateRefresh (token_hash : string).

Definition run_store_op (now : Z) (op : store_op) (s : Store R) : Store R :=
  match op with
  | OpNonce u => (consume now u s).1
  | OpExists key => (exists_ redis_client production now key s).1
  | OpSetKill scope i e => (set_kill_switch redis_client production now scope i e s).1
  | OpKillActive scope i => (is_kill_switch_active redis_client production scope i s).1
  | OpListKill => (list_kill_switches redis_client production s).1
  | OpCacheRefresh h u ttl => (cache_refresh_token redis_client production now h u ttl s).1
  | OpGetRefresh h => (get_cached_refresh_user redis_client production now h s).1
  | OpInvalidateRefresh h => (invalidate_refresh_token redis_client h s).1
  end.

Definition run_store_history (history : list (Z * store_op)) (s : Store R) : Store R :=
  foldl (λ s op, run_store_op op.1 op.2 s) s history.
End nonces.

(** Run a store program to the point where its reads are compared. *)
Ltac run_store :=
  unfold set_kill_switch, cache_refresh_token, invalidate_refresh_token, set_key, delete_key,
    set_nx_ex, try_redis, mbind, prog_bind, mret, prog_ret, pmodify, pget; cbn.

(** *** The fallback store *)

Section fallback.
Context {R : Type}.
Variable production : bool.
Variable sha256_hex : string → string.
Implicit Types s : Store R.

(** [key] is marked used until [e]. *)
Definition used_until (e : Z) (key : string) (s : Store R) : Prop :=
  mem_kv s !! key = Some ("1", Some e).

Lemma nonce_key_not_kill u scope i : nonce_key sha256_hex u ≠ kill_key scope i.
Proof. unfold kill_key. by destruct u, (nonempty i). Qed.
Lemma nonce_key_not_refresh u h : nonce_key sha256_hex u ≠ "qs:refresh:" +:+ h.
Proof. by destruct u. Qed.

Lemma used_cleanup e key now s : now ≤ e → used_until e key s → used_until e key (cleanup_mem now s).
Proof.
  unfold used_until. intros Hn Hs. cbn. apply map_lookup_filter_Some. split; [done|].
  cbn. lia.
Qed.

Lemma used_set_nx e key now key' ttl s :
  now < e → used_until e key s → used_until e key (set_nx_ex None production now key' ttl s).1.
Proof.
  intros Hn Hs. apply (used_cleanup e key now) in Hs; [|lia].
  unfold set_nx_ex, try_redis, mbind, prog_bind, pmodify, pget, mret, prog_ret.
  set (s1 := cleanup_mem now s) in *. destruct (unexpired now (mem_kv s1 !! key')) eqn:E; [done|].
  unfold used_until in *. cbn. destruct (decide (key' = key)) as [->|Hk].
  - exfalso. rewrite Hs in E. cbn in E. lia.
  - by rewrite lookup_insert_ne.
Qed.

(** No other use of the store unmarks a nonce before it lapses. *)
Lemma used_step e u now op s :
  now < e → used_until e (nonce_key sha256_hex u) s →
  used_until e (nonce_key sha256_hex u) (run_store_op None production sha256_hex now op s).
Proof.
  intros Hn Hs. destruct op as [u'|k|scope i []|scope i| |h x ttl|h|h]; cbn [run_store_op].
  - rewrite consume_set_nx. by apply used_set_nx.
  - apply used_cleanup; [lia|done].
  - unfold used_until. run_store. rewrite lookup_insert_ne; [done|]. apply not_eq_sym, nonce_key_not_kill.
  - unfold used_until. run_store. rewrite lookup_delete_ne; [done|]. apply not_eq_sym, nonce_key_not_kill.
  - done.
  - done.
  - unfold used_until. run_store. rewrite lookup_insert_ne; [done|]. apply not_eq_sym, nonce_key_not_refresh.
  - apply used_cleanup; [lia|done].
  - unfold used_until. run_store. rewrite lookup_delete_ne; [done|]. apply not_eq_sym, nonce_key_not_refresh.
Qed.

Lemma used_history e u history s :
  Forall (λ op, op.1 < e) history → used_until e (nonce_key sha256_hex u) s →
  used_until e (nonce_key sha256_hex u) (run_store_history None production sha256_hex history s).
Proof.
  intros Ht Hs. unfold run_store_history. revert s Hs. induction Ht as [|op l Hop Hl IH]; intros s Hs; [done|].
  cbn [foldl]. apply IH. by apply used_step.
Qed.

(** What one consumption does, by the state of its key. *)
Lemma consume_fallback now u s :
  let s1 := cleanup_mem now s in
  let key := nonce_key sha256_hex u in
  consume None production sha256_hex now u s =
  if unexpired now (mem_kv s1 !! key) then (s1, Ret false)
  else (s1 <| mem_kv ::= <[key := ("1", Some (now + seconds 300))]> |>, Ret true).
Proof.
  cbv zeta. rewrite consume_set_nx. unfold set_nx_ex, try_redis, mbind, prog_bind, pmodify, pget.
  by destruct (unexpired _ _).
Qed.

Lemma consume_marks now u s s' :
  consume None production sha256_hex now u s = (s', Ret true) →
  used_until (now + seconds 300) (nonce_key sha256_hex u) s'.
Proof.
  rewrite consume_fallback. destruct (unexpired _ _); intros E; [discriminate E|].
  injection E as <-. unfold used_until. cbn. by rewrite lookup_insert_eq.
Qed.

Lemma consume_used e now u s :
  now < e → used_until e (nonce_key sha256_hex u) s →
  (consume None production sha256_hex now u s).2 = Ret false.
Proof.
  intros Hn Hs. rewrite consume_fallback. apply (used_cleanup _ _ now) in Hs; [|lia].
  rewrite Hs. cbn. by rewrite (proj2 (Z.ltb_lt now e) Hn).
Qed.

(** A nonce is consumed at most once in its lifetime. Once a handshake,
    order or API nonce has been accepted at [t0], every further attempt to
    consume it before [t0 + 300 s] is refused, whatever the process does with
    the shared store in between: other nonces, kill switches set and cleared,
    refresh tokens cached and invalidated, lookups that purge lapsed entries.
    From [t0 + 300 s] on the nonce is accepted again. *)
Theorem nonce_consumed_once u t0 t s s0 history :
  consume None production sha256_hex t0 u s = (s0, Ret true) →
  Forall (λ op, op.1 < t0 + seconds 300) history →
  let s1 := run_store_history None production sha256_hex history s0 in
  (t < t0 + seconds 300 → (consume None production sha256_hex t u s1).2 = Ret false) ∧
  (t0 + seconds 300 ≤ t → (consume None production sha256_hex t u s1).2 = Ret true).
Proof.
  intros Hc Ht s1. apply consume_marks in Hc.
  pose proof (used_history _ u _ _ Ht Hc : used_until _ _ s1) as Hu. split; intros Htime.
  - by apply (consume_used (t0 + seconds 300)).
  - rewrite consume_fallback. unfold used_until in Hu. cbn.
    destruct (filter _ (mem_kv s1) !! nonce_key sha256_hex u) as [[v e]|] eqn:E; [|done].
    apply map_lookup_filter_Some in E as [E _]. rewrite Hu in E. injection E as <- <-.
    cbn. by rewrite (proj2 (Z.ltb_ge t (t0 + seconds 300)) Htime).
Qed.
End fallback.

(** ** The promise to the API-key dependency

    [consume] is single use over [uses]: once it has accepted a nonce, and
    whatever other uses of the store follow before [t], it does not accept the
    nonce again within its 300 seconds. *)
Class SingleUse {S : Type} (consume : Z → string → string → S → S * outcome StoreError bool)
    (uses : Z → S → S → Prop) := {
  single_use : ∀ t0 t key_id nonce s s0 s1,
    consume t0 key_id nonce s = (s0, Ret true) →
    rtc (λ a b, ∃ time, time ≤ t ∧ uses time a b) s0 s1 →
    t < t0 + seconds 300 →
    (consume t key_id nonce s1).2 ≠ Ret true
}.

(** The fallback store, used in any of the ways [store_op] lists. *)
Definition fallback_use {R} (production : bool) (sha256_hex : string → string) (now : Z)
    (a b : Store R) : Prop :=
  ∃ op, b = run_store_op None production sha256_hex now op a.

#[export] Instance fallback_single_use {R} production sha256_hex :
  SingleUse (consume_api_nonce (R:=R) None production sha256_hex)
    (fallback_use production sha256_hex).
Proof.
  constructor. intros t0 t key_id nonce s s0 s1 Hc Huse Ht.
  apply (consume_marks production sha256_hex t0 (ApiNonce key_id nonce)) in Hc.
  assert (used_until (t0 + seconds 300) (nonce_key sha256_hex (ApiNonce key_id nonce)) s1) as Hu.
  { induction Huse as [|a b c (time & Htime & op & ->) _ IH]; [done|].
    apply IH. apply used_step; [lia|done]. }
  apply (consume_used production sha256_hex _ t) in Hu; [|done]. cbn [consume] in Hu. by rewrite Hu.
Qed.

Definition blank_store : Store () := mkStore tt ∅ ∅ ∅.
Definition busy_history : list (Z * store_op) :=
  [(seconds 1, OpNonce (ApiNonce "k" "other")); (seconds 2, OpSetKill "asset" (Some "SPY") true);
   (seconds 3, OpCacheRefresh "h" "u" 60); (seconds 299, OpGetRefresh "h");
   (seconds 299, OpInvalidateRefresh "h")].

Lemma nonce_consumed_once_witness :
  let u := ApiNonce "k" "n" in
  let s0 := (consume None true id 0 u blank_store).1 in
  let s1 := run_store_history None true id busy_history s0 in
  (seconds 299 < 0 + seconds 300 → (consume None true id (seconds 299) u s1).2 = Ret false) ∧
  (0 + seconds 300 ≤ seconds 299 → (consume None true id (seconds 299) u s1).2 = Ret true).
Proof.
  cbv zeta. eapply (nonce_consumed_once true id (ApiNonce "k" "n") 0 (seconds 299) blank_store).
  - vm_compute. reflexivity.
  - repeat constructor.
Defined.

(** ** Production *)

Section production.
Context {R : Type} (client : RedisClient R) (sha256_hex : string → string).
Implicit Types s : Store R.

(** This process's own fallback stores. *)
Definition fallback_of s : gmap string (string * option Z) * gmap string Z * gset string :=
  (mem_kv s, mem_nonces s, mem_kill_switches s).

Lemma try_redis_production {A} (call : RedisClient R → R → R * outcome string A) reraise
    (fallback : prog (Store R) StoreError A) s s' r :
  (∀ m, is_Some (reraise m)) →
  try_redis (Some client) call reraise fallback s = (s', r) →
  fallback_of s' = fallback_of s ∧
  ((∃ a, r = Ret a ∧ call client (st_redis s) = (st_redis s', Ret a)) ∨
   (∃ m e, r = Raise e ∧ reraise m = Some e ∧ call client (st_redis s) = (st_redis s', Raise m))).
Proof.
  intros Hr. unfold try_redis. destruct (call client (st_redis s)) as [rs [a|m]] eqn:Ec.
  - intros [= <- <-]. split; [done|]. left. by exists a.
  - destruct (Hr m) as [e He]. rewrite He. intros [= <- <-]. split; [done|]. right. by exists m, e.
Qed.

(** In production the answers of the shared store are Redis's own. A nonce
    is accepted exactly when Redis's SET NX took the key, a kill switch is
    reported exactly as Redis reports its key, an unreachable Redis is an
    error to the caller ([RiskStateUnavailable] for a kill switch), and the
    process's fallback stores are neither read nor written. *)
Theorem production_answers_from_redis now u scope identifier s :
  (let '(s', r) := consume (Some client) true sha256_hex now u s in
   fallback_of s' = fallback_of s ∧
   match rc_set client (nonce_key sha256_hex u) "1" true (Some 300) (st_redis s), r with
   | (rs, Ret accepted), Ret b => st_redis s' = rs ∧ b = accepted
   | (rs, Raise m), Raise e => st_redis s' = rs ∧ e = RedisError m
   | _, _ => False
   end) ∧
  (let '(s', r) := is_kill_switch_active (Some client) true scope identifier s in
   fallback_of s' = fallback_of s ∧
   match rc_exists client (kill_key scope identifier) (st_redis s), r with
   | (rs, Ret present), Ret b => st_redis s' = rs ∧ b = present
   | (rs, Raise m), Raise e => st_redis s' = rs ∧ e = RiskStateUnavailable
   | _, _ => False
   end).
Proof.
  rewrite consume_set_nx. unfold set_nx_ex, is_kill_switch_active. split.
  - destruct (try_redis _ _ _ _ s) as [s' r] eqn:E.
    apply try_redis_production in E as [Hf [(a & -> & ->)|(m & e & -> & [= <-] & ->)]]; by eauto.
  - destruct (try_redis _ _ _ _ s) as [s' r] eqn:E.
    apply try_redis_production in E as [Hf [(a & -> & ->)|(m & e & -> & [= <-] & ->)]]; by eauto.
Qed.
End production.
