(* ===== verification/OrderSecurity.v ===== *)
(** backend/services/order_security.py: the canonical text an order's
    signature covers, the envelope and idempotency checks, signature
    verification, and the risk gate with its kill switches. *)

From S2P Require Import Prelude Numeric Models Json RedisStore.
From stdpp Require Import pretty.
From Stdlib Require Import Ascii.
#[local] Open Scope Z_scope.

Definition PROTOCOL : string := "QS-ORDER-V1".
Definition MAX_ENVELOPE_TTL_SECONDS : Z := 300.

(** ** Canonical orders *)

Fixpoint rstrip (c : ascii) (s : string) : string :=
  match s with
  | EmptyString => EmptyString
  | String x s =>
      match rstrip c s with
      | EmptyString => if bool_decide (x = c) then EmptyString else String x EmptyString
      | r => String x r
      end
  end.

Fixpoint str_take (n : nat) (s : string) : string :=
  match n, s with
  | S n, String c s => String c (str_take n s)
  | _, _ => EmptyString
  end.
Fixpoint str_drop (n : nat) (s : string) : string :=
  match n, s with
  | S n, String _ s => str_drop n s
  | _, s => s
  end.

(** [Decimal(str(x))] of the float whose shortest decimal is [d]: [repr] adds
    [".0"] to a whole number below [1e16]. *)
Definition decimal_of_repr (d : dec) : dec :=
  let point := Z.of_nat (String.length (pretty (Z.abs (dcoef d)))) + dexp d in
  if (0 <=? dexp d) && (point <=? 16) then Dec (dcoef d * 10 ^ (dexp d + 1)) (-1) else d.

(** [format(d, "f")] *)
Definition format_f (d : dec) : string :=
  let digits := pretty (Z.abs (dcoef d)) in
  (if dcoef d <? 0 then "-" else EmptyString) +:+
  if 0 <=? dexp d then digits +:+ zeros (Z.to_nat (dexp d))
  else
    let places := Z.to_nat (- dexp d) in
    let n := String.length digits in
    if (n <=? places)%nat then "0." +:+ zeros (places - n) +:+ digits
    else str_take (n - places) digits +:+ "." +:+ str_drop (n - places) digits.

Definition decimal_text (d : dec) : string :=
  match rstrip "." (rstrip "0" (format_f (decimal_of_repr d))) with
  | EmptyString => "0"
  | s => s
  end.

Section canonical.
Context {F : Type} `{Num F}.

(** [_decimal] *)
Definition decimal_ (value : option F) : option string :=
  (λ x, decimal_text (nrepr x)) <$> value.

Definition opt_str (s : option string) : json :=
  match s with Some s => JStr s | None => JNull end.

(** The fields an order is signed over. *)
Record SignedOrder := mkSignedOrder {
  so_order_id : string;
  so_user_id : string;
  so_asset : string;
  so_side : string;
  so_quantity : F;
  so_order_type : string;
  so_limit_price : option F;
  so_stop_price : option F;
  so_time_in_force : string;
  so_timestamp : Z;
  so_expires_at : Z;
  so_nonce : string
}.

Definition canonical_order (o : SignedOrder) : string :=
  canonical_json (JObj [
    ("protocol", JStr PROTOCOL); ("order_id", JStr (so_order_id o));
    ("user_id", JStr (so_user_id o)); ("asset", JStr (str_upper (so_asset o)));
    ("side", JStr (str_upper (so_side o)));
    ("quantity", opt_str (decimal_ (Some (so_quantity o))));
    ("order_type", JStr (str_upper (so_order_type o)));
    ("limit_price", opt_str (decimal_ (so_limit_price o)));
    ("stop_price", opt_str (decimal_ (so_stop_price o)));
    ("time_in_force", JStr (str_upper (so_time_in_force o)));
    ("timestamp", JInt (so_timestamp o)); ("expires_at", JInt (so_expires_at o));
    ("nonce", JStr (so_nonce o))]).
End canonical.
Arguments SignedOrder F : clear implicits.

Definition request_hash (sha256_hex : string → string) (request : json) : string :=
  sha256_hex (canonical_json request).

(** [token] is what [secrets.token_urlsafe(24)] returned; [now] is in seconds. *)
Definition make_development_envelope (now : Z) (token : string) : Z * Z * string :=
  (now, now + 120, token).

(** ** Envelope *)

Definition url_safe (c : ascii) : bool :=
  let n := nat_of_ascii c in
  ((65 <=? n) && (n <=? 90) || (97 <=? n) && (n <=? 122) || (48 <=? n) && (n <=? 57)
   || (n =? 95) || (n =? 45))%nat.
Fixpoint all_url_safe (s : string) : bool :=
  match s with
  | EmptyString => true
  | String c s => url_safe c && all_url_safe s
  end.

(** [re.fullmatch(r"[A-Za-z0-9_-]{lo,hi}", s)] *)
Definition url_safe_token (lo hi : nat) (s : string) : bool :=
  all_url_safe s && (lo <=? String.length s)%nat && (String.length s <=? hi)%nat.

Definition validate_envelope (now timestamp expires_at : Z) (nonce : string)
    : outcome HTTPException unit :=
  let! _ := raise_if (negb (url_safe_token 16 128 nonce))
              (mkHTTPException 400 "order nonce must be 16-128 URL-safe characters") in
  let! _ := raise_if ((now + 30 <? timestamp) || (timestamp <? now - MAX_ENVELOPE_TTL_SECONDS))
              (mkHTTPException 400 "order timestamp is outside the accepted clock window") in
  raise_if ((expires_at <=? now) || (expires_at <=? timestamp)
            || (MAX_ENVELOPE_TTL_SECONDS <? expires_at - timestamp))
    (mkHTTPException 400 "order expiry is invalid or exceeds the five-minute maximum").

(** ** Signatures *)

Section signatures.
Variable production : bool.
(** [base64.b64decode] and the ML-DSA verification raise on some inputs. *)
Variable unb64 : string → option string.
Variable dsa_verify : string → string → string → option bool.
(** [pqc.b64(server_identity.sign(...))], once its key is registered. *)
Variable server_attestation : string → string.

(** The [try] block: an exception makes the signature invalid. *)
Definition signature_valid (public_key canonical signature : string) : bool :=
  default false (pk ← unb64 public_key; sg ← unb64 signature; dsa_verify pk canonical sg).

Definition verify_or_attest (keys : gmap string KeyPair) (user_id canonical : string)
    (key_id signature : option string) : outcome HTTPException (string * string * string) :=
  match nonempty key_id, nonempty signature with
  | Some kid, Some sg =>
      match keys !! kid with
      | Some key =>
          let! _ := raise_if (bool_decide (kp_user_id key ≠ user_id)
                              || bool_decide (kp_algorithm key ≠ "ML-DSA-65")
                              || negb (kp_is_active key))
                      (mkHTTPException 403 "invalid or inactive client signing key") in
          let! _ := raise_if (negb (signature_valid (kp_public_key key) canonical sg))
                      (mkHTTPException 403 "invalid ML-DSA order signature") in
          Ret (kp_id key, sg, "client_mldsa")
      | None => Raise (mkHTTPException 403 "invalid or inactive client signing key")
      end
  | None, None =>
      let! _ := raise_if production
                  (mkHTTPException 403 "production order submission requires a client ML-DSA signature") in
      Ret ("server-development-attestation", server_attestation canonical, "development_server")
  | _, _ => Raise (mkHTTPException 400 "key_id and signature must be supplied together")
  end.
End signatures.

(** ** Idempotency

    The table's rows by (user, key), its unique constraint; every operation
    commits its own transaction. *)

Abbreviation idem_table := (gmap (string * string) IdempotencyRecord) (only parsing).

Section idempotency.
Variable production : bool.

Definition validate_idempotency_key (key : option string) : outcome HTTPException unit :=
  match nonempty key with
  | None => raise_if production
              (mkHTTPException 400 "Idempotency-Key is required for order submission")
  | Some k => raise_if (negb (url_safe_token 8 128 k))
                (mkHTTPException 400 "invalid Idempotency-Key")
  end.

(** What an existing row answers. *)
Definition answer_existing (existing : IdempotencyRecord) (payload_hash : string)
    : outcome HTTPException (option json) :=
  if bool_decide (idem_request_hash existing ≠ payload_hash) then
    Raise (mkHTTPException 409 "Idempotency-Key was already used with different payload")
  else
    match idem_response_json existing with
    | Some response => Ret (Some response)
    | None => Raise (mkHTTPException 409 "an order with this Idempotency-Key is in progress")
    end.

(** The reservation. [races] is what other sessions commit between this
    session's read and its commit, attempt after attempt: an insert that then
    violates the unique constraint starts over. *)
Fixpoint reserve_loop (races : list (idem_table → idem_table)) (user_id k payload_hash : string)
    (db : idem_table) : idem_table * outcome HTTPException (option json) :=
  match db !! (user_id, k) with
  | Some existing => (db, answer_existing existing payload_hash)
  | None =>
      let row := mkIdempotencyRecord payload_hash None in
      match races with
      | [] => (<[(user_id, k) := row]> db, Ret None)
      | race :: races =>
          let db := race db in
          match db !! (user_id, k) with
          | Some _ => reserve_loop races user_id k payload_hash db
          | None => (<[(user_id, k) := row]> db, Ret None)
          end
      end
  end.

Definition reserve_idempotency (races : list (idem_table → idem_table)) (user_id : string)
    (key : option string) (payload_hash : string) (db : idem_table)
    : idem_table * outcome HTTPException (option json) :=
  match validate_idempotency_key key with
  | Raise e => (db, Raise e)
  | Ret _ =>
      match nonempty key with
      | None => (db, Ret None)
      | Some k => reserve_loop races user_id k payload_hash db
      end
  end.

Definition get_completed_idempotency_response (db : idem_table) (user_id : string)
    (key : option string) (payload_hash : string) : outcome HTTPException (option json) :=
  let! _ := validate_idempotency_key key in
  match nonempty key with
  | None => Ret None
  | Some k =>
      match db !! (user_id, k) with
      | None => Ret None
      | Some existing => answer_existing existing payload_hash
      end
  end.

Definition release_idempotency (user_id : string) (key : option string) (db : idem_table)
    : idem_table :=
  match nonempty key with
  | None => db
  | Some k =>
      match db !! (user_id, k) with
      | Some r => if bool_decide (idem_response_json r = None) then delete (user_id, k) db else db
      | None => db
      end
  end.

Definition complete_idempotency (user_id : string) (key : option string) (response : json)
    (db : idem_table) : idem_table :=
  match nonempty key with
  | None => db
  | Some k => alter (λ r, r <| idem_response_json := Some response |>) (user_id, k) db
  end.
End idempotency.

(** ** Kill switches and the risk gate *)

Definition known_scope (scope : string) : bool :=
  bool_decide (scope = "global" ∨ scope = "user" ∨ scope = "asset").

Definition normalized_id (scope : string) (identifier : option string) : option string :=
  match bool_decide (scope = "asset"), nonempty identifier with
  | true, Some i => Some (str_upper i)
  | _, _ => identifier
  end.

(** What the gate can raise: its own answers, or the store's error. *)
Inductive GateError :=
| GateHTTP (e : HTTPException)
| GateStore (e : StoreError).

Definition http {A} (m : outcome HTTPException A) : outcome GateError A :=
  match m with Ret a => Ret a | Raise e => Raise (GateHTTP e) end.

Section gate.
Context {R F : Type} `{Num F}.
Variable redis_client : option (RedisClient R).
Variable production : bool.
Variable PAPER_MAX_POSITION_FRACTION : F.

(** This process's [_KILL_SWITCHES], with the store it shares. *)
Record Risk := mkRisk {
  kill_switches : gset (string * option string);
  risk_store : Store R
}.
#[global] Instance eta_Risk : Eta Risk := λ s, mkRisk (kill_switches s) (risk_store s).

(** [set_kill_switch]: this process's set. *)
Definition set_local (scope : string) (identifier : option string) (enabled : bool)
    (s : Risk) : Risk :=
  let value := (scope, normalized_id scope identifier) in
  s <| kill_switches ::= λ m, if enabled then {[value]} ∪ m else m ∖ {[value]} |>.

Definition set_kill_switch_sync (scope : string) (identifier : option string) (enabled : bool)
    (s : Risk) : Risk * outcome string unit :=
  if known_scope scope then (set_local scope identifier enabled s, Ret tt)
  else (s, Raise "scope must be global, user, or asset").

(** [set_kill_switch_async] *)
Definition set_kill_switch_async (now : Z) (scope : string) (identifier : option string)
    (enabled : bool) (s : Risk) : Risk * outcome (string + StoreError) unit :=
  if known_scope scope then
    let '(store, r) := set_kill_switch redis_client production now scope
                         (normalized_id scope identifier) enabled (risk_store s) in
    let s := s <| risk_store := store |> in
    match r with
    | Ret _ => (set_local scope identifier enabled s, Ret tt)
    | Raise e => (s, Raise (inr e))
    end
  else (s, Raise (inl "scope must be global, user, or asset")).

(** An order as the gate sees it. *)
Record GateOrder := mkGateOrder {
  go_user_id : string;
  go_asset : string;
  go_side : string;
  go_quantity : F;
  go_price : F;
  go_held_quantity : F;
  go_account_equity : F;
  go_gross_exposure : F
}.

(** The three switches that can stop an order. *)
Definition relevant (o : GateOrder) : list (string * option string) :=
  [("global", None); ("user", Some (go_user_id o)); ("asset", Some (str_upper (go_asset o)))].

Definition locally_blocked (local : gset (string * option string)) (o : GateOrder) : bool :=
  existsb (λ k, bool_decide (k ∈ local)) (relevant o).

Definition percent (x : F) : string :=
  pretty (default 0 (nrint (x ⊗ nof_Z 100))) +:+ "%".

(** The limits on size, holdings and leverage. *)
Definition check_limits (o : GateOrder) : outcome HTTPException unit :=
  let notional := go_quantity o ⊗ go_price o in
  let! _ := raise_if (notional >.? go_account_equity o ⊗ PAPER_MAX_POSITION_FRACTION)
              (mkHTTPException 400 ("risk gate: order exceeds " +:+ percent PAPER_MAX_POSITION_FRACTION
                 +:+ " account-equity notional limit")) in
  let! _ := raise_if (bool_decide (go_side o = "sell") && (go_quantity o >.? go_held_quantity o))
              (mkHTTPException 400 "risk gate: sell quantity exceeds available paper position") in
  raise_if ((go_gross_exposure o ⊕ (if bool_decide (go_side o = "buy") then notional else n0))
            >.? go_account_equity o)
    (mkHTTPException 400 "risk gate: leverage limit exceeded").

(** One switch read through the bridge of a synchronous route. [in_time] is
    whether the reply arrives before [run_sync] gives up on it. *)
Definition read_switch (loop_running : bool) (in_time : string → bool)
    (store : Store R) (k : string * option string) : Store R * option bool :=
  run_sync loop_running (in_time k.1)
    (is_kill_switch_active redis_client production k.1 k.2) store.

Fixpoint read_switches (loop_running : bool) (in_time : string → bool)
    (store : Store R) (ks : list (string * option string)) : Store R * list (option bool) :=
  match ks with
  | [] => (store, [])
  | k :: ks =>
      let '(store, state) := read_switch loop_running in_time store k in
      let '(store, states) := read_switches loop_running in_time store ks in
      (store, state :: states)
  end.

(** [assert_risk_gate] *)
Definition assert_risk_gate (loop_running : bool) (in_time : string → bool) (o : GateOrder)
    (s : Risk) : Risk * outcome HTTPException unit :=
  let blocked := locally_blocked (kill_switches s) o in
  let '(s, checked) :=
    match blocked, redis_client with
    | false, Some _ =>
        let '(store, states) :=
          read_switches loop_running in_time (risk_store s) (relevant o) in
        (s <| risk_store := store |>,
         if existsb (λ st, bool_decide (st = None)) states && production then
           Raise (mkHTTPException 503 "risk state unavailable; order not accepted")
         else Ret (existsb (default false) states))
    | _, _ => (s, Ret blocked)
    end in
  (s, let! blocked := checked in
      let! _ := raise_if blocked (mkHTTPException 423 "trading kill switch is active") in
      check_limits o).

(** [assert_risk_gate_async]: the [or] stops at the first active switch. *)
Fixpoint any_active (ks : list (string * option string)) : prog (Store R) StoreError bool :=
  match ks with
  | [] => mret false
  | k :: ks =>
      active ← is_kill_switch_active redis_client production k.1 k.2;
      if (active : bool) then mret true else any_active ks
  end.

Definition assert_risk_gate_async (o : GateOrder) (s : Risk) : Risk * outcome GateError unit :=
  let '(s, blocked) :=
    match redis_client with
    | Some _ =>
        let '(store, r) := any_active (relevant o) (risk_store s) in
        (s <| risk_store := store |>, r)
    | None => (s, Ret (locally_blocked (kill_switches s) o))
    end in
  (s, match blocked with
      | Ret b => http (let! _ := raise_if b (mkHTTPException 423 "trading kill switch is active") in
                       check_limits o)
      | Raise e => Raise (GateStore e)
      end).
End gate.
Arguments Risk R : clear implicits.
Arguments GateOrder F : clear implicits.
