(* ===== verification/OrderSecurityFacts.v ===== *)
(** What the order checks guarantee: the signed text determines the order,
    accepted production orders carry a valid client signature, an idempotency
    key admits one order, and an active kill switch stops every worker. *)

From Stdlib Require Import Ascii QArith Lqa.
From stdpp Require Import pretty.
From S2P Require Import Prelude Numeric Models Json RedisStore OrderSecurity.
#[local] Open Scope Z_scope.

(** ** Decimal texts are read back *)

Definition digit_value (c : ascii) : Z := Z.of_nat (nat_of_ascii c) - 48.

Fixpoint read_digits (acc : Z) (s : string) : Z :=
  match s with
  | EmptyString => acc
  | String c s => read_digits (10 * acc + digit_value c) s
  end.

(** The value of a decimal numeral, [acc] being its digits so far and [k] the
    number of them after the point. *)
Fixpoint read_fraction (acc : Z) (k : nat) (s : string) : Q :=
  match s with
  | EmptyString => acc # Z.to_pos (10 ^ Z.of_nat k)
  | String c s => read_fraction (10 * acc + digit_value c) (S k) s
  end.

Fixpoint read_decimal (acc : Z) (s : string) : Q :=
  match s with
  | EmptyString => inject_Z acc
  | String c s =>
      if bool_decide (c = "."%char) then read_fraction acc 0 s
      else read_decimal (10 * acc + digit_value c) s
  end.

Fixpoint point_free (s : string) : bool :=
  match s with
  | EmptyString => true
  | String c s => bool_decide (c ≠ "."%char) && point_free s
  end.

Lemma read_decimal_point a b acc :
  point_free a = true →
  read_decimal acc (a +:+ "." +:+ b) = read_fraction (read_digits acc a) 0 b.
Proof.
  revert acc; induction a as [|c a IH]; intros acc; [done|]. cbn [point_free].
  intros [Hc Ha]%andb_prop. apply bool_decide_eq_true_1 in Hc.
  change (String c a +:+ ?r) with (String c (a +:+ r)). cbn [read_decimal read_digits].
  rewrite bool_decide_eq_false_2 by done. by apply IH.
Qed.

Lemma read_decimal_whole a acc : point_free a = true → read_decimal acc a = inject_Z (read_digits acc a).
Proof.
  revert acc; induction a as [|c a IH]; intros acc; [done|]. cbn [point_free].
  intros [Hc Ha]%andb_prop. apply bool_decide_eq_true_1 in Hc. cbn [read_decimal read_digits].
  rewrite bool_decide_eq_false_2 by done. by apply IH.
Qed.

Lemma pow10_pos' n : 0 < 10 ^ Z.of_nat n.
Proof. apply Z.pow_pos_nonneg; lia. Qed.

Lemma read_fraction_digits b acc k :
  (read_fraction acc k b == read_digits acc b # Z.to_pos (10 ^ Z.of_nat (k + String.length b)))%Q.
Proof.
  revert acc k; induction b as [|c b IH]; intros acc k; cbn [read_fraction read_digits String.length].
  - by rewrite Nat.add_0_r.
  - rewrite IH. by rewrite Nat.add_succ_r, Nat.add_succ_l.
Qed.

(** Trailing zeros after the point do not change the value. *)
Lemma read_fraction_rstrip b acc k : (read_fraction acc k (rstrip "0" b) == read_fraction acc k b)%Q.
Proof.
  revert acc k; induction b as [|c b IH]; intros acc k; [reflexivity|]. cbn [rstrip].
  specialize (IH (10 * acc + digit_value c) (S k)).
  destruct (rstrip "0" b) as [|d r]; cbn [read_fraction] in *; [|done].
  destruct (bool_decide (c = "0"%char)) eqn:E; cbn [read_fraction]; rewrite <-IH; [|reflexivity].
  apply bool_decide_eq_true_1 in E as ->. unfold Qeq, digit_value; cbn [Qnum Qden].
  change (Z.of_nat (nat_of_ascii "0") - 48) with 0.
  rewrite !Z2Pos.id by apply pow10_pos'. rewrite (Nat2Z.inj_succ k), Z.pow_succ_r by lia. ring.
Qed.

Lemma rstrip_point_tail a b :
  rstrip "0" (a +:+ "." +:+ b) = a +:+ "." +:+ rstrip "0" b.
Proof.
  induction a as [|c a IH].
  - change ("" +:+ ?r) with r. change ("." +:+ ?r) with (String "." r). cbn [rstrip].
    by destruct (rstrip "0" b).
  - change (String c a +:+ ?r) with (String c (a +:+ r)). cbn [rstrip]. rewrite IH. by destruct a.
Qed.

Lemma point_free_rstrip_zero b : point_free b = true → point_free (rstrip "0" b) = true.
Proof.
  induction b as [|c b IH]; [done|]. cbn [point_free rstrip]. intros [Hc Hb]%andb_prop.
  specialize (IH Hb). destruct (rstrip "0" b); [destruct (bool_decide (c = _))|];
    cbn [point_free] in *; rewrite ?Hc; done.
Qed.

Lemma point_free_rstrip_point a : point_free a = true → rstrip "." a = a.
Proof.
  induction a as [|c a IH]; [done|]. cbn [point_free rstrip]. intros [Hc Ha]%andb_prop.
  apply bool_decide_eq_true_1 in Hc. rewrite (IH Ha). destruct a; [|done].
  by rewrite bool_decide_eq_false_2.
Qed.

Lemma rstrip_point a b :
  point_free a = true → point_free b = true →
  rstrip "." (a +:+ "." +:+ b) = match b with EmptyString => a | _ => a +:+ "." +:+ b end.
Proof.
  intros Ha Hb. induction a as [|c a IH].
  - change ("" +:+ ?r) with r. change ("." +:+ ?r) with (String "." r). cbn [rstrip].
    rewrite point_free_rstrip_point by done. by destruct b.
  - cbn [point_free] in Ha. apply andb_prop in Ha as [Hc Ha]. apply bool_decide_eq_true_1 in Hc.
    change (String c a +:+ ?r) with (String c (a +:+ r)). cbn [rstrip]. rewrite (IH Ha).
    destruct b; [|by destruct a]. destruct a; [by rewrite bool_decide_eq_false_2|done].
Qed.

(** *** Printed digits *)

Lemma read_digits_app a b acc : read_digits acc (a +:+ b) = read_digits (read_digits acc a) b.
Proof. revert acc; induction a as [|c a IH]; intros acc; [done|]. apply IH. Qed.

Lemma pretty_char_value x : (x < 10)%N → digit_value (pretty_N_char x) = Z.of_N x.
Proof.
  intros Hx. assert (x = 0 ∨ x = 1 ∨ x = 2 ∨ x = 3 ∨ x = 4 ∨ x = 5 ∨ x = 6 ∨ x = 7 ∨ x = 8
                     ∨ x = 9)%N as Hd by lia.
  by destruct_or! Hd; subst x.
Qed.

Lemma read_pretty_go x s : read_digits 0 (pretty_N_go x s) = read_digits (Z.of_N x) s.
Proof.
  revert s. induction (N.lt_wf_0 x) as [x _ IH]; intros s.
  destruct (decide (0 < x)%N) as [Hx|Hx].
  - rewrite pretty_N_go_step by done. rewrite IH by (by apply N.div_lt). cbn [read_digits].
    rewrite pretty_char_value by (by apply N.mod_lt).
    f_equal. rewrite N2Z.inj_div, N2Z.inj_mod. pose proof (Z.div_mod (Z.of_N x) (Z.of_N 10)). lia.
  - replace x with 0%N by lia. by rewrite pretty_N_go_0.
Qed.

Lemma read_pretty n : 0 ≤ n → read_digits 0 (pretty n) = n.
Proof. destruct n as [|p|p]; [done| |lia]. intros _. apply (read_pretty_go (N.pos p)). Qed.

Lemma point_free_pretty_go x s : point_free s = true → point_free (pretty_N_go x s) = true.
Proof.
  revert s. induction (N.lt_wf_0 x) as [x _ IH]; intros s Hs.
  destruct (decide (0 < x)%N) as [Hx|Hx].
  - rewrite pretty_N_go_step by done. apply IH; [by apply N.div_lt|]. cbn. rewrite Hs.
    unfold pretty_N_char. by repeat case_match.
  - replace x with 0%N by lia. by rewrite pretty_N_go_0.
Qed.

Lemma point_free_pretty (n : Z) : point_free (pretty n) = true.
Proof. by destruct n as [|p|p]; [done|apply (point_free_pretty_go (N.pos p))..]. Qed.

Lemma point_free_app a b : point_free (a +:+ b) = point_free a && point_free b.
Proof.
  induction a as [|c a IH]; [done|]. change (String c a +:+ b) with (String c (a +:+ b)).
  cbn [point_free]. by rewrite IH, andb_assoc.
Qed.

Lemma take_drop_str n s : str_take n s +:+ str_drop n s = s.
Proof.
  revert s; induction n as [|n IH]; intros [|c s]; try done. cbn [str_take str_drop].
  change (String c (str_take n s +:+ str_drop n s) = String c s). by rewrite IH.
Qed.

Lemma length_drop_str n s : String.length (str_drop n s) = (String.length s - n)%nat.
Proof. revert s; induction n as [|n IH]; intros [|c s]; cbn; auto. Qed.

Lemma take_str_cons n s : (0 < n ≤ String.length s)%nat → str_take n s ≠ EmptyString.
Proof. destruct n, s; cbn; done || lia. Qed.

Lemma zeros_facts n :
  String.length (zeros n) = n ∧ point_free (zeros n) = true ∧ read_digits 0 (zeros n) = 0.
Proof. induction n as [|n (IH1 & IH2 & IH3)]; cbn; auto. Qed.

(** A decimal with places is written around a point. *)
Lemma format_f_point d :
  0 ≤ dcoef d → dexp d < 0 →
  ∃ a b, format_f d = a +:+ "." +:+ b ∧ point_free a = true ∧ point_free b = true ∧
    a ≠ EmptyString ∧ read_digits (read_digits 0 a) b = dcoef d ∧
    String.length b = Z.to_nat (- dexp d).
Proof.
  intros Hc He. unfold format_f. rewrite (proj2 (Z.ltb_ge (dcoef d) 0)) by lia.
  rewrite (proj2 (Z.leb_gt 0 (dexp d))) by lia. rewrite Z.abs_eq by done.
  pose proof (point_free_pretty (dcoef d)) as Hp. pose proof (read_pretty _ Hc) as Hr.
  set (D := pretty (dcoef d)) in *. set (places := Z.to_nat (- dexp d)) in *.
  destruct (Nat.leb_spec (String.length D) places) as [Hl|Hl].
  - destruct (zeros_facts (places - String.length D)) as (Hz1 & Hz2 & Hz3).
    exists "0", (zeros (places - String.length D) +:+ D). split_and!; [done|done| |done| |].
    + by rewrite point_free_app, Hz2, Hp.
    + change (read_digits 0 "0") with 0. by rewrite read_digits_app, Hz3.
    + rewrite string_length_app. lia.
  - set (n := (String.length D - places)%nat).
    exists (str_take n D), (str_drop n D). pose proof (take_drop_str n D) as Ht.
    rewrite <-Ht, point_free_app in Hp. apply andb_prop in Hp as [Hp1 Hp2].
    split_and!; [done|done|done| | |].
    + apply take_str_cons. lia.
    + by rewrite <-read_digits_app, Ht.
    + rewrite length_drop_str. lia.
Qed.

(** [decimal_of_repr] keeps the value, and gives it a point below [1e16]. *)
Lemma decimal_of_repr_value d : (nof_dec (F:=Q) (decimal_of_repr d) == nof_dec d)%Q.
Proof.
  unfold decimal_of_repr. destruct (_ && _) eqn:E; [|reflexivity].
  apply andb_prop in E as [E _]. apply Z.leb_le in E. unfold nof_dec. cbn [dexp dcoef].
  change (0 <=? -1) with false. rewrite (proj2 (Z.leb_le 0 (dexp d)) E).
  change (Z.to_pos (10 ^ (- -1))) with 10%positive. unfold nof_Z, Qeq.
  cbn [nof_ratio Num_Q Qnum Qden]. rewrite Z.pow_add_r, Z.pow_1_r by lia. lia.
Qed.

Lemma ndigits_pretty n k :
  0 ≤ n < 10 ^ k → 1 ≤ k → Z.of_nat (String.length (pretty n)) ≤ k.
Proof.
  assert (∀ x s k, (Z.of_N x < 10 ^ Z.of_nat k) →
            (String.length (pretty_N_go x s) ≤ k + String.length s)%nat) as Hgo.
  { intros x. induction (N.lt_wf_0 x) as [x _ IH]; intros s j Hx.
    destruct (decide (0 < x)%N) as [Hp|Hp].
    - rewrite pretty_N_go_step by done. destruct j as [|j]; [cbn in Hx; lia|].
      etrans; [apply (IH _ (N.div_lt x 10 Hp eq_refl) _ j)|cbn; lia].
      rewrite N2Z.inj_div. apply Z.div_lt_upper_bound; [lia|].
      rewrite Nat2Z.inj_succ, Z.pow_succ_r in Hx by lia. lia.
    - replace x with 0%N by lia. rewrite pretty_N_go_0. lia. }
  intros Hn Hk. destruct n as [|p|p]; [cbn; lia| |lia].
  specialize (Hgo (N.pos p) "" (Z.to_nat k)). rewrite Z2Nat.id in Hgo by lia.
  change (pretty (Z.pos p)) with (pretty_N_go (N.pos p) ""). specialize (Hgo (proj2 Hn)).
  cbn [String.length] in Hgo. lia.
Qed.

Lemma decimal_of_repr_point d :
  0 < dcoef d → (nof_dec (F:=Q) d < inject_Z (10 ^ 16))%Q →
  0 < dcoef (decimal_of_repr d) ∧ dexp (decimal_of_repr d) < 0.
Proof.
  intros Hc Hv. unfold decimal_of_repr. destruct (Z.leb_spec 0 (dexp d)) as [He|He]; [|done].
  assert (dcoef d * 10 ^ dexp d < 10 ^ 16) as Hb.
  { unfold nof_dec in Hv. rewrite (proj2 (Z.leb_le 0 (dexp d)) He) in Hv.
    unfold Qlt, inject_Z, nof_Z in Hv. cbn [nof_ratio Num_Q Qnum Qden] in Hv. lia. }
  assert (dexp d < 16) as Hx.
  { apply Z.nle_gt. intros H16. pose proof (Z.pow_le_mono_r 10 16 (dexp d) ltac:(lia) H16). nia. }
  assert (dcoef d < 10 ^ (16 - dexp d)) as Hd.
  { apply Z.nle_gt. intros Hg.
    assert (10 ^ 16 = 10 ^ (16 - dexp d) * 10 ^ dexp d) as H16.
    { rewrite <-Z.pow_add_r by lia. f_equal. lia. }
    pose proof (Z.pow_pos_nonneg 10 (dexp d) ltac:(lia) He). nia. }
  pose proof (ndigits_pretty (dcoef d) (16 - dexp d) ltac:(lia) ltac:(lia)) as Hl.
  rewrite Z.abs_eq by lia. rewrite (proj2 (Z.leb_le _ 16)) by lia. cbn [andb dcoef dexp].
  pose proof (Z.pow_pos_nonneg 10 (dexp d + 1) ltac:(lia) ltac:(lia)). nia.
Qed.

(** [_decimal] of a positive number below [1e16] reads back as that number. *)
Lemma decimal_text_value d :
  0 < dcoef d → (nof_dec (F:=Q) d < inject_Z (10 ^ 16))%Q →
  (read_decimal 0 (decimal_text d) == nof_dec (F:=Q) d)%Q.
Proof.
  intros Hc Hv. destruct (decimal_of_repr_point d Hc Hv) as [Hc' He'].
  rewrite <-(decimal_of_repr_value d). unfold decimal_text.
  set (d' := decimal_of_repr d) in *.
  destruct (format_f_point d' ltac:(lia) He') as (a & b & -> & Ha & Hb & Hn & Hr & Hl).
  rewrite rstrip_point_tail, rstrip_point by auto using point_free_rstrip_zero.
  assert (nof_dec (F:=Q) d' == read_fraction (read_digits 0 a) 0 b)%Q as Hd.
  { rewrite read_fraction_digits, Hr. cbn [Nat.add]. rewrite Hl. unfold nof_dec.
    rewrite (proj2 (Z.leb_gt 0 (dexp d'))) by lia. cbn. by rewrite Z2Nat.id by lia. }
  rewrite Hd, <-read_fraction_rstrip.
  destruct (rstrip "0" b) as [|c r] eqn:Er.
  - destruct a as [|x a]; [done|]. rewrite read_decimal_whole by done. cbn [read_fraction].
    by rewrite Z.pow_0_r.
  - rewrite <-read_decimal_point by done. by destruct a.
Qed.

(** ** Canonical orders *)

Section canonical_orders.
Context {F : Type} `{Num F}.
Implicit Types o : SignedOrder F.

(** The amount a float denotes in the text: its shortest decimal. *)
Definition amount (x : F) : Q := nof_dec (nrepr x).
Definition same_amount (x y : F) : Prop := (amount x == amount y)%Q.

(** A positive amount below [1e16], where [repr] still writes a point. *)
Definition printable (x : F) : Prop :=
  0 < dcoef (nrepr x) ∧ (amount x < inject_Z (10 ^ 16))%Q.

Definition signable o : Prop :=
  printable (so_quantity o) ∧ from_option printable True (so_limit_price o) ∧
  from_option printable True (so_stop_price o).

Lemma decimal_some_inj x y :
  printable x → printable y → decimal_ (Some x) = decimal_ (Some y) → same_amount x y.
Proof.
  intros [Hx Hx'] [Hy Hy'] [= E]. unfold same_amount, amount.
  by rewrite <-(decimal_text_value _ Hx Hx'), <-(decimal_text_value _ Hy Hy'), E.
Qed.

Lemma decimal_inj x y :
  from_option printable True x → from_option printable True y →
  decimal_ x = decimal_ y → option_Forall2 same_amount x y.
Proof.
  destruct x as [x|], y as [y|]; cbn [from_option]; intros Hx Hy E; try discriminate E; constructor.
  by apply decimal_some_inj.
Qed.

Lemma opt_str_inj a b : opt_str a = opt_str b → a = b.
Proof. destruct a, b; cbn; congruence. Qed.
Lemma floatless_opt_str a : floatless (opt_str a) = true.
Proof. by destruct a. Qed.
Lemma json_sort_opt_str a : json_sort (opt_str a) = opt_str a.
Proof. by destruct a. Qed.

(** The fields in key order: what is printed. *)
Definition sorted_order o : json :=
  JObj [
    ("asset", JStr (str_upper (so_asset o))); ("expires_at", JInt (so_expires_at o));
    ("limit_price", opt_str (decimal_ (so_limit_price o))); ("nonce", JStr (so_nonce o));
    ("order_id", JStr (so_order_id o)); ("order_type", JStr (str_upper (so_order_type o)));
    ("protocol", JStr PROTOCOL); ("quantity", opt_str (decimal_ (Some (so_quantity o))));
    ("side", JStr (str_upper (so_side o))); ("stop_price", opt_str (decimal_ (so_stop_price o)));
    ("time_in_force", JStr (str_upper (so_time_in_force o))); ("timestamp", JInt (so_timestamp o));
    ("user_id", JStr (so_user_id o))].

Lemma canonical_order_sorted o : canonical_order o = json_print (sorted_order o).
Proof.
  unfold canonical_order, canonical_json. f_equal. cbn [json_sort map fst snd].
  rewrite !json_sort_opt_str. reflexivity.
Qed.

Lemma sorted_order_floatless o : floatless (sorted_order o) = true.
Proof. cbn [sorted_order floatless forallb snd]. by rewrite !floatless_opt_str. Qed.

(** C29: the signed text determines the order. Two orders whose quantities and
    prices are below [1e16] and whose canonical texts are equal have the same
    id, owner, nonce, timestamps, amounts to the last digit, and the same
    asset, side, type and time in force up to letter case; no value can be
    moved between fields, whatever characters it contains. *)
Theorem canonical_order_binds o o' :
  signable o → signable o' → canonical_order o = canonical_order o' →
  so_order_id o = so_order_id o' ∧ so_user_id o = so_user_id o' ∧ so_nonce o = so_nonce o' ∧
  so_timestamp o = so_timestamp o' ∧ so_expires_at o = so_expires_at o' ∧
  str_upper (so_asset o) = str_upper (so_asset o') ∧
  str_upper (so_side o) = str_upper (so_side o') ∧
  str_upper (so_order_type o) = str_upper (so_order_type o') ∧
  str_upper (so_time_in_force o) = str_upper (so_time_in_force o') ∧
  same_amount (so_quantity o) (so_quantity o') ∧
  option_Forall2 same_amount (so_limit_price o) (so_limit_price o') ∧
  option_Forall2 same_amount (so_stop_price o) (so_stop_price o').
Proof.
  intros (Hq & Hl & Hs) (Hq' & Hl' & Hs'). rewrite !canonical_order_sorted.
  intros E%json_print_inj; [|apply sorted_order_floatless..]. unfold sorted_order in E.
  injection E as Ea Ee El En Eo Et Eq Eside Es Etif Ets Eu.
  apply opt_str_inj in El, Es. apply (f_equal Some) in Eq.
  split_and!; try done; [by apply decimal_some_inj|by apply decimal_inj..].
Qed.
End canonical_orders.

Definition sample_order (asset : string) (limit : b64) : SignedOrder b64 :=
  mkSignedOrder "order-0001" "u1" asset "buy" (nof_ratio 5 2) "limit" (Some limit) None "day"
    1700000000 1700000120 "nonce-0123456789".

Lemma canonical_order_binds_witness :
  str_upper "spy" = str_upper "SPY" ∧
  option_Forall2 same_amount (Some (nof_ratio (F:=b64) 40125 100)) (Some (nof_ratio 40125 100)).
Proof.
  assert (∀ a, signable (sample_order a (nof_ratio 40125 100))) as Hs.
  { intros a. split_and!; [| |exact I]; split; vm_compute; reflexivity. }
  destruct (canonical_order_binds (sample_order "spy" (nof_ratio 40125 100))
              (sample_order "SPY" (nof_ratio 40125 100)) (Hs _) (Hs _) eq_refl)
    as (_ & _ & _ & _ & _ & Ha & _ & _ & _ & _ & Hl & _).
  by split.
Defined.

(** At [1e16] [repr] switches to an exponent, [format(..., "f")] writes no
    point, and the trailing zeros that are stripped are digits of the number:
    a limit of 10000000000000000 is signed as a limit of 1. *)
Theorem canonical_order_collision :
  canonical_order (sample_order "SPY" (nof_ratio (10 ^ 16) 1))
  = canonical_order (sample_order "SPY" (nof_ratio 1 1)).
Proof. vm_compute. reflexivity. Qed.

(** ** The risk gate *)

Section risk_gate.
Context {R : Type} (client : RedisClient R).

(** Redis answered, one after the other, that no key of [ks] exists. *)
Fixpoint all_absent (ks : list (string * option string)) (r : R) : option R :=
  match ks with
  | [] => Some r
  | k :: ks =>
      match rc_exists client (kill_key k.1 k.2) r with
      | (r, Ret false) => all_absent ks r
      | _ => None
      end
  end.

Definition states_clear (states : list (option bool)) : Prop := Forall (λ st, st = Some false) states.

Lemma read_switch_some loop_running in_time store k :
  read_switch (Some client) true loop_running in_time store k =
  if loop_running then
    let '(r, reply) := rc_exists client (kill_key k.1 k.2) (st_redis store) in
    (store <| st_redis := r |>,
     match reply with Ret b => if in_time k.1 then Some b else None | Raise _ => None end)
  else (store, None).
Proof.
  unfold read_switch, run_sync, is_kill_switch_active, try_redis. destruct loop_running; [|done].
  by destruct (rc_exists client _ _) as [r [b|m]].
Qed.

Lemma read_switches_clear in_time ks store :
  let '(store', states) := read_switches (Some client) true true in_time store ks in
  fallback_of store' = fallback_of store ∧
  (∀ r, all_absent ks (st_redis store) = Some r → st_redis store' = r) ∧
  (states_clear states ↔
   Forall (λ k, in_time k.1 = true) ks ∧ is_Some (all_absent ks (st_redis store))).
Proof.
  revert store; induction ks as [|k ks IH]; intros store; cbn [read_switches].
  { split_and!; [done|by intros r [= <-]|]. split; [|by constructor].
    intros _. split; [by constructor|by eexists]. }
  rewrite read_switch_some. cbn [all_absent]. destruct (rc_exists client _ _) as [r reply].
  specialize (IH (store <| st_redis := r |>)).
  destruct (read_switches _ _ _ _ _ ks) as [store' states]. destruct IH as (Hf & Hr & IH).
  cbn [st_redis set_field] in *. unfold states_clear in *. rewrite !Forall_cons, IH.
  destruct reply as [[]|m], (in_time k.1); (split_and!; [exact Hf|naive_solver|]);
    (split; [naive_solver|]); try naive_solver;
    by intros [_ [? Hx]].
Qed.

(** Without an application loop nothing can be read. *)
Lemma read_switches_no_loop in_time ks store :
  read_switches (Some client) true false in_time store ks = (store, replicate (length ks) None).
Proof.
  induction ks as [|k ks IH]; cbn [read_switches length replicate]; [done|].
  rewrite read_switch_some. by rewrite IH.
Qed.

Lemma check_limits_Q fraction (o : GateOrder Q) :
  check_limits fraction o = Ret tt ↔
  (go_quantity o * go_price o <= go_account_equity o * fraction)%Q ∧
  (go_side o = "sell" → (go_quantity o <= go_held_quantity o)%Q) ∧
  (go_gross_exposure o + (if bool_decide (go_side o = "buy") then go_quantity o * go_price o else 0)
   <= go_account_equity o)%Q.
Proof.
  unfold check_limits, raise_if, obind.
  destruct (nlt _ (go_quantity o ⊗ go_price o)) eqn:E1;
    [|destruct (_ && _) eqn:E2; [|destruct (nlt (go_account_equity o) _) eqn:E3]]; qsimpl.
  - split; [discriminate|]. intros (Hc & _). apply Qle_not_lt in Hc. by destruct Hc.
  - split; [discriminate|]. intros (_ & Hc & _). apply andb_prop in E2 as [E2 E2'].
    apply bool_decide_eq_true_1 in E2. specialize (Hc E2). qsimpl. lra.
  - split; [discriminate|]. intros (_ & _ & Hc). destruct (bool_decide _); cbn in *; lra.
  - split; [|done]. intros _. split_and!; [done| |].
    + intros Hs. rewrite bool_decide_eq_true_2 in E2 by done. rewrite andb_true_l in E2. by qsimpl.
    + destruct (bool_decide _); cbn in *; lra.
Qed.

Lemma locally_blocked_false (local : gset (string * option string)) (o : GateOrder Q) :
  locally_blocked local o = false ↔ Forall (λ k, k ∉ local) (relevant o).
Proof.
  unfold locally_blocked. induction (relevant o) as [|k ks IH]; cbn [existsb]; [by split|].
  rewrite orb_false_iff, bool_decide_eq_false, Forall_cons, IH. done.
Qed.

Lemma unknown_or_active states :
  states_clear states ↔
  existsb (λ st, bool_decide (st = None)) states = false ∧ existsb (default false) states = false.
Proof.
  unfold states_clear. induction states as [|st states IH]; cbn [existsb]; [by split; [|constructor]|].
  rewrite Forall_cons, IH, !orb_false_iff, bool_decide_eq_false.
  destruct st as [[]|]; cbn; naive_solver.
Qed.

(** An accepted order: its switches and its limits. *)
Lemma gate_accepts fraction loop_running in_time (o : GateOrder Q) s s' :
  assert_risk_gate (Some client) true fraction loop_running in_time o s = (s', Ret tt) ↔
  locally_blocked (kill_switches s) o = false ∧
  loop_running = true ∧ Forall (λ k, in_time k.1 = true) (relevant o) ∧
  (∃ r, all_absent (relevant o) (st_redis (risk_store s)) = Some r ∧
        s' = s <| risk_store ::= λ st, st <| st_redis := r |> |>) ∧
  check_limits fraction o = Ret tt.
Proof.
  unfold assert_risk_gate.
  destruct (locally_blocked (kill_switches s) o) eqn:El; [naive_solver|].
  destruct loop_running; [|rewrite read_switches_no_loop; naive_solver].
  pose proof (read_switches_clear in_time (relevant o) (risk_store s)) as Hr.
  destruct (read_switches _ _ _ _ _ (relevant o)) as [store states]. destruct Hr as (Hf & Hst & Hr).
  rewrite unknown_or_active in Hr. rewrite andb_true_r.
  assert (s <| risk_store := store |> =
          s <| risk_store ::= λ st, st <| st_redis := st_redis store |> |>) as Hs.
  { destruct s as [ks [r0 kv no mk]], store as [r1 kv1 no1 mk1].
    unfold fallback_of in Hf. cbn in *. by injection Hf as -> -> ->. }
  rewrite Hs. split.
  - destruct (existsb (λ st, _) states) eqn:E1; [naive_solver|]. cbn [obind].
    destruct (existsb (default false) states) eqn:E2; [naive_solver|]. cbn [raise_if obind]. intros [= <- Hc].
    destruct (proj1 Hr (conj eq_refl eq_refl)) as [Hi [r Ha]].
    split_and!; try done. exists r. by rewrite (Hst r Ha).
  - intros (_ & _ & Hi & (r & Ha & ->) & Hc).
    destruct (proj2 Hr (conj Hi (ex_intro _ r Ha))) as [-> ->]. cbn [obind raise_if].
    by rewrite Hc, (Hst r Ha).
Qed.

(** In production the risk gate accepts an order exactly when this
    process holds no switch against it, Redis was reachable and answered in
    time that the global, user and asset switches are all absent, the order
    is within the concentration limit, a sell is covered by the holding, and
    the account stays unleveraged. Whatever Redis's state, an unanswered
    question rejects the order. (Amounts in exact arithmetic.) *)
Theorem risk_gate_exact fraction loop_running in_time (o : GateOrder Q) s s' :
  assert_risk_gate (Some client) true fraction loop_running in_time o s = (s', Ret tt) ↔
  Forall (λ k, k ∉ kill_switches s) (relevant o) ∧
  loop_running = true ∧ Forall (λ k, in_time k.1 = true) (relevant o) ∧
  (∃ r, all_absent (relevant o) (st_redis (risk_store s)) = Some r ∧
        s' = s <| risk_store ::= λ st, st <| st_redis := r |> |>) ∧
  (go_quantity o * go_price o <= go_account_equity o * fraction)%Q ∧
  (go_side o = "sell" → (go_quantity o <= go_held_quantity o)%Q) ∧
  (go_gross_exposure o + (if bool_decide (go_side o = "buy") then go_quantity o * go_price o else 0)
   <= go_account_equity o)%Q.
Proof. by rewrite gate_accepts, check_limits_Q, locally_blocked_false. Qed.
End risk_gate.

(** *** Several worker processes sharing one Redis *)

(** What Redis promises about keys set without an expiry ([view]): they stay
    until they are deleted, whichever calls fail, and EXISTS never denies
    one. *)
Record redis_keeps {R} (client : RedisClient R) (view : R → gset string) : Prop := {
  keeps_set : ∀ k v r,
    let '(r', reply) := rc_set client k v false None r in
    view r ⊆ view r' ∧ (∀ b, reply = Ret b → k ∈ view r');
  keeps_exists : ∀ k r,
    let '(r', reply) := rc_exists client k r in
    view r' = view r ∧ (k ∈ view r → reply ≠ Ret false);
  keeps_delete : ∀ k r, view r ∖ {[k]} ⊆ view (rc_delete client k r).1
}.

Section workers.
Context {R : Type} (client : RedisClient R) (view : R → gset string).
Hypothesis Hredis : redis_keeps client view.
Variable fraction : Q.
#[local] Abbreviation rc := (Some client).

(** The server, and each worker's own state ([st_redis] unused). *)
Record Deployment := mkDeployment { shared : R; workers : nat → Risk R }.

Definition as_seen_by (w : nat) (d : Deployment) : Risk R :=
  workers d w <| risk_store ::= λ st, st <| st_redis := shared d |> |>.
Definition written_by (w : nat) (s : Risk R) (d : Deployment) : Deployment :=
  mkDeployment (st_redis (risk_store s)) (λ v, if (v =? w)%nat then s else workers d v).

Inductive worker_op :=
| SetSwitch (now : Z) (scope : string) (identifier : option string) (enabled : bool)
| Gate (loop_running : bool) (in_time : string → bool) (o : GateOrder Q).

Definition run_worker (w : nat) (op : worker_op) (d : Deployment) : Deployment :=
  match op with
  | SetSwitch now scope i e =>
      written_by w (set_kill_switch_async rc true now scope i e (as_seen_by w d)).1 d
  | Gate lr it o =>
      written_by w (assert_risk_gate rc true fraction lr it o (as_seen_by w d)).1 d
  end.

Definition run_workers (ops : list (nat * worker_op)) (d : Deployment) : Deployment :=
  foldl (λ d op, run_worker op.1 op.2 d) d ops.

(** The operation clears the switch stored under [key]. *)
Definition clears (key : string) (op : worker_op) : Prop :=
  match op with
  | SetSwitch _ scope i false => kill_key scope (normalized_id scope i) = key
  | _ => False
  end.

Lemma set_switch_server now scope i e s :
  let '(s', r) := set_kill_switch_async rc true now scope i e s in
  let key := kill_key scope (normalized_id scope i) in
  (e = false → view (st_redis (risk_store s)) ∖ {[key]} ⊆ view (st_redis (risk_store s'))) ∧
  (e = true → view (st_redis (risk_store s)) ⊆ view (st_redis (risk_store s')) ∧
              (r = Ret tt → key ∈ view (st_redis (risk_store s')))).
Proof.
  unfold set_kill_switch_async. destruct (known_scope scope); [|cbn; set_solver].
  set (key := kill_key _ _). destruct s as [local [r0 kv no mk]]. destruct e.
  - pose proof (keeps_set _ _ Hredis key "1" r0) as Hs.
    run_store. fold key. destruct (rc_set client key "1" false None r0) as [r1 [b|m]]; cbn;
      split; try done; intros _; destruct Hs as [Hv Hk]; (split; [done|]); [intros _; by apply (Hk b)|done].
  - pose proof (keeps_delete _ _ Hredis key r0) as Hs.
    run_store. fold key. destruct (rc_delete client key r0) as [r1 [b|m]]; cbn in *; done.
Qed.

Lemma read_switches_server lr it ks store :
  view (st_redis (read_switches rc true lr it store ks).1) = view (st_redis store).
Proof.
  revert store; induction ks as [|k ks IH]; intros store; cbn [read_switches]; [done|].
  rewrite read_switch_some. destruct lr.
  - pose proof (keeps_exists _ _ Hredis (kill_key k.1 k.2) (st_redis store)) as Hx.
    destruct (rc_exists client _ _) as [r reply]. specialize (IH (store <| st_redis := r |>)).
    destruct (read_switches _ _ _ _ _ ks). cbn in *. rewrite IH. apply Hx.
  - specialize (IH store). by destruct (read_switches _ _ _ _ _ ks).
Qed.

Lemma gate_server lr it o s :
  view (st_redis (risk_store (assert_risk_gate rc true fraction lr it o s).1)) =
  view (st_redis (risk_store s)).
Proof.
  unfold assert_risk_gate. destruct (locally_blocked _ o); [done|].
  pose proof (read_switches_server lr it (relevant o) (risk_store s)) as Hr.
  by destruct (read_switches _ _ _ _ _ _).
Qed.

(** A switch in Redis stays there until an operation clears it. *)
Lemma switch_persists key w op d :
  key ∈ view (shared d) → ¬ clears key op → key ∈ view (shared (run_worker w op d)).
Proof.
  intros Hk Hc. destruct op as [now scope i e|lr it o]; cbn [run_worker].
  - pose proof (set_switch_server now scope i e (as_seen_by w d)) as Hs.
    destruct (set_kill_switch_async _ _ _ _ _ _ _) as [s' r]. cbn in Hs |- *.
    destruct Hs as [Hs1 Hs2]. destruct e; [by apply (Hs2 eq_refl)|].
    apply (Hs1 eq_refl). cbn in Hc. set_solver.
  - cbn. by rewrite gate_server.
Qed.

Lemma switch_persists_history key ops d :
  key ∈ view (shared d) → Forall (λ op, ¬ clears key op.2) ops →
  key ∈ view (shared (run_workers ops d)).
Proof.
  intros Hk Ho. revert d Hk. induction Ho as [|op ops Hop _ IH]; intros d Hk; [done|].
  cbn. apply IH. by apply switch_persists.
Qed.

Lemma all_absent_view ks r r' :
  all_absent client ks r = Some r' → Forall (λ k, kill_key k.1 k.2 ∉ view r) ks.
Proof.
  revert r; induction ks as [|k ks IH]; intros r; cbn [all_absent]; [by constructor|].
  pose proof (keeps_exists _ _ Hredis (kill_key k.1 k.2) r) as Hx.
  destruct (rc_exists client _ _) as [r1 [[]|m]]; try done.
  intros Ha%IH. destruct Hx as [Hv Hx]. rewrite Hv in Ha. constructor; [|done].
  intros Hin. by apply (Hx Hin).
Qed.

(** C2: in production, with Redis configured, a kill switch set through one
    worker stops the orders of every worker. Once a worker has set a switch in
    Redis, and until some worker clears that same switch, no worker's risk
    gate accepts an order the switch covers, whatever the workers did in
    between and whichever of their Redis calls failed or timed out. (Outside
    production a switch that could not be read does not block.) *)
Theorem kill_switch_stops_every_worker w now scope identifier d ops v lr it o :
  (set_kill_switch_async rc true now scope identifier true (as_seen_by w d)).2 = Ret tt →
  let key := kill_key scope (normalized_id scope identifier) in
  Forall (λ op, ¬ clears key op.2) ops →
  key ∈ ((λ k, kill_key k.1 k.2) <$> relevant o) →
  let d' := run_workers ops (run_worker w (SetSwitch now scope identifier true) d) in
  (assert_risk_gate rc true fraction lr it o (as_seen_by v d')).2 ≠ Ret tt.
Proof.
  intros Hset key Ho Hk d' Hgate.
  assert (key ∈ view (shared d')) as Hin.
  { apply switch_persists_history; [|done]. cbn [run_worker].
    pose proof (set_switch_server now scope identifier true (as_seen_by w d)) as Hs.
    destruct (set_kill_switch_async _ _ _ _ _ _ _) as [s' r]. cbn in Hset, Hs |- *.
    by apply (proj2 (proj2 Hs eq_refl)). }
  destruct (assert_risk_gate _ _ _ _ _ _ _) as [s' r] eqn:E. cbn in Hgate. subst r.
  apply gate_accepts in E as (_ & _ & _ & (r & Ha & _) & _).
  apply all_absent_view in Ha. rewrite Forall_forall in Ha.
  apply list_elem_of_fmap in Hk as (k & -> & Hk). by apply (Ha k Hk).
Qed.
End workers.

(** A Redis of keys without expiry, for the concrete runs. *)
Definition plain_redis : RedisClient (gset string) := {|
  rc_set := λ k _ _ _ r, ({[k]} ∪ r, Ret true);
  rc_get := λ _ r, (r, Ret None);
  rc_exists := λ k r, (r, Ret (bool_decide (k ∈ r)));
  rc_delete := λ k r, (r ∖ {[k]}, Ret tt);
  rc_scan_iter := λ _ r, (r, Ret (elements r))
|}.

Lemma plain_redis_keeps : redis_keeps plain_redis id.
Proof.
  constructor; cbn.
  - intros k _ r. split; [set_solver|]. intros _ _. set_solver.
  - intros k r. split; [done|]. intros Hk. by rewrite bool_decide_eq_true_2.
  - intros k r. done.
Qed.

Definition fresh_risk : Risk (gset string) := mkRisk ∅ (mkStore ∅ ∅ ∅ ∅).
Definition fresh_deployment : Deployment (R:=gset string) := mkDeployment ∅ (λ _, fresh_risk).
Definition spy_buy : GateOrder Q := mkGateOrder "u1" "spy" "buy" (10 # 1) (100 # 1) 0%Q (100000 # 1) 0%Q.

Lemma kill_switch_stops_every_worker_witness :
  let d' := run_workers plain_redis (1 # 20)
              [(1%nat, SetSwitch 0 "global" None true); (1%nat, SetSwitch 0 "global" None false);
               (2%nat, Gate true (λ _, true) spy_buy)]
              (run_worker plain_redis (1 # 20) 0 (SetSwitch 0 "asset" (Some "Spy") true)
                 fresh_deployment) in
  (assert_risk_gate (Some plain_redis) true (1 # 20) true (λ _, true) spy_buy
     (as_seen_by 2 d')).2 ≠ Ret tt.
Proof.
  refine (kill_switch_stops_every_worker plain_redis id plain_redis_keeps (1 # 20) 0 0 "asset"
            (Some "Spy") fresh_deployment _ 2 true (λ _, true) spy_buy _ _ _).
  - vm_compute. reflexivity.
  - repeat constructor; vm_compute; try (intros E; discriminate E); by intros [].
  - vm_compute. right. right. left.
Defined.

(** A switch that worker 0 set and worker 1 cleared is gone from Redis, yet
    worker 0 keeps rejecting: its own copy is consulted first and nothing
    ever removes it. *)
Definition cleared_elsewhere : Deployment (R:=gset string) :=
  run_workers plain_redis (1 # 20)
    [(0%nat, SetSwitch 0 "asset" (Some "SPY") true); (1%nat, SetSwitch 0 "asset" (Some "SPY") false)]
    fresh_deployment.

Theorem cleared_switch_lingers :
  shared cleared_elsewhere = ∅ ∧
  (assert_risk_gate (Some plain_redis) true (1 # 20) true (λ _, true) spy_buy
     (as_seen_by 1 cleared_elsewhere)).2 = Ret tt ∧
  (assert_risk_gate (Some plain_redis) true (1 # 20) true (λ _, true) spy_buy
     (as_seen_by 0 cleared_elsewhere)).2 =
    Raise (mkHTTPException 423 "trading kill switch is active").
Proof. split_and!; vm_compute; reflexivity. Qed.

(** ** Client signatures *)

Lemma raise_if_cont {E A} c (e : E) (m : outcome E A) a :
  (let! _ := raise_if c e in m) = Ret a ↔ c = false ∧ m = Ret a.
Proof. destruct c; cbn; naive_solver. Qed.

(** Production verification, as a specification of its inputs. *)
Lemma verify_production unb64 dsa_verify attest keys user_id canonical key_id signature out :
  verify_or_attest true unb64 dsa_verify attest keys user_id canonical key_id signature = Ret out ↔
  ∃ kid sg key pk sb,
    key_id = Some kid ∧ kid ≠ "" ∧ signature = Some sg ∧ sg ≠ "" ∧
    keys !! kid = Some key ∧ kp_user_id key = user_id ∧ kp_algorithm key = "ML-DSA-65" ∧
    kp_is_active key = true ∧
    unb64 (kp_public_key key) = Some pk ∧ unb64 sg = Some sb ∧ dsa_verify pk canonical sb = Some true ∧
    out = (kp_id key, sg, "client_mldsa").
Proof.
  assert (∀ pk sg, signature_valid unb64 dsa_verify pk canonical sg = true ↔
            ∃ p b, unb64 pk = Some p ∧ unb64 sg = Some b ∧ dsa_verify p canonical b = Some true) as Hv.
  { intros pk sg. unfold signature_valid.
    destruct (unb64 pk) as [p|]; [destruct (unb64 sg) as [b|];
      [cbn; destruct (dsa_verify p canonical b) as [[]|] eqn:E|]|]; cbn;
      (split; [intros Hx; try discriminate Hx; by eauto|
               by intros (? & ? & Hp & Hb & Hd); simplify_eq]). }
  assert (∀ o : option string, match nonempty o with Some s => o = Some s ∧ s ≠ "" | None => True end) as Hn.
  { by intros [[]|]. }
  unfold verify_or_attest. pose proof (Hn key_id) as Hk. pose proof (Hn signature) as Hs.
  destruct (nonempty key_id) as [kid|] eqn:Ek, (nonempty signature) as [sg|] eqn:Es.
  - destruct Hk as [-> Hk], Hs as [-> Hs]. destruct (keys !! kid) as [key|] eqn:E;
      [|split; [discriminate|]; intros (? & ? & ? & ? & ? & [= ->] & ? & [= ->] & ? & ? & _); congruence].
    rewrite !raise_if_cont, !orb_false_iff, !bool_decide_eq_false, !negb_false_iff, Hv.
    split; [|naive_solver].
    intros (((Hu%dec_stable & Ha%dec_stable) & Hact) & (p & b & ? & ? & ?) & [= <-]).
    by exists kid, sg, key, p, b.
  - split; [discriminate|]. intros (? & ? & ? & ? & ? & -> & ? & -> & ? & _). by destruct x0.
  - split; [discriminate|]. intros (? & ? & ? & ? & ? & -> & ? & -> & ? & _). by destruct x.
  - split; [discriminate|]. intros (? & ? & ? & ? & ? & -> & ? & _). by destruct x.
Qed.

(** In production an order is accepted for signing exactly when the
    request names a key and a signature, the key is an active ML-DSA-65 key
    of the submitting user, and the signature verifies over the order's
    canonical text; a verification that raises counts as a failure. *)
Theorem production_orders_are_signed unb64 dsa_verify attest keys user_id canonical key_id signature out :
  verify_or_attest true unb64 dsa_verify attest keys user_id canonical key_id signature = Ret out ↔
  ∃ kid sg key pk sb,
    key_id = Some kid ∧ kid ≠ "" ∧ signature = Some sg ∧ sg ≠ "" ∧
    keys !! kid = Some key ∧ kp_user_id key = user_id ∧ kp_algorithm key = "ML-DSA-65" ∧
    kp_is_active key = true ∧
    unb64 (kp_public_key key) = Some pk ∧ unb64 sg = Some sb ∧ dsa_verify pk canonical sb = Some true ∧
    out = (kp_id key, sg, "client_mldsa").
Proof. apply verify_production. Qed.

(** ** Idempotency keys *)

Section idempotency_keys.
Variable production : bool.
Variables (user_id k : string).
Hypothesis Hkey : url_safe_token 8 128 k = true.

(** What sessions do with the table. *)
Inductive idem_op :=
| Reserve (races : list (gmap (string * string) IdempotencyRecord → gmap (string * string) IdempotencyRecord))
    (user : string) (key : option string) (payload_hash : string)
| Complete (user : string) (key : option string) (response : json)
| Release (user : string) (key : option string).

Definition run_idem (op : idem_op) (db : gmap (string * string) IdempotencyRecord) :=
  match op with
  | Reserve races u key h => (reserve_idempotency production races u key h db).1
  | Complete u key resp => complete_idempotency u key resp db
  | Release u key => release_idempotency u key db
  end.

(** The operation is not a release of this key; concurrent commits it races
    with are other operations of the history where they touch this key. *)
Definition keeps_key (op : idem_op) : Prop :=
  match op with
  | Reserve races _ _ _ => Forall (λ race, ∀ db, race db !! (user_id, k) = db !! (user_id, k)) races
  | Complete _ _ _ => True
  | Release u key => (u, nonempty key) ≠ (user_id, Some k)
  end.

(** The response the history leaves for the key. *)
Definition completed (response : option json) (op : idem_op) : option json :=
  match op with
  | Complete u key resp => if bool_decide ((u, nonempty key) = (user_id, Some k)) then Some resp else response
  | _ => response
  end.

Lemma nonempty_key : nonempty (Some k) = Some k.
Proof. by destruct k. Qed.

Lemma reserve_this races h db :
  reserve_idempotency production races user_id (Some k) h db = reserve_loop races user_id k h db.
Proof.
  unfold reserve_idempotency, validate_idempotency_key. by rewrite nonempty_key, Hkey.
Qed.

Lemma reserve_loop_row races u k' h db r :
  Forall (λ race, ∀ db, race db !! (user_id, k) = db !! (user_id, k)) races →
  db !! (user_id, k) = Some r → (reserve_loop races u k' h db).1 !! (user_id, k) = Some r.
Proof.
  intros Hr. revert db. induction Hr as [|race races Hrace Hr IH]; intros db Hdb; cbn [reserve_loop].
  - destruct (db !! (u, k')) eqn:E; [done|]. cbn. rewrite lookup_insert_ne; [done|]. congruence.
  - destruct (db !! (u, k')) eqn:E; [done|]. rewrite <-(Hrace db) in Hdb.
    destruct (race db !! (u, k')) eqn:E'; [by apply IH|]. cbn.
    rewrite lookup_insert_ne; [done|]. congruence.
Qed.

Lemma run_idem_row op db h response :
  keeps_key op → db !! (user_id, k) = Some (mkIdempotencyRecord h response) →
  run_idem op db !! (user_id, k) = Some (mkIdempotencyRecord h (completed response op)).
Proof.
  intros Hkeep Hdb. destruct op as [races u key h'|u key resp|u key]; cbn [run_idem completed keeps_key] in *.
  - unfold reserve_idempotency. destruct (validate_idempotency_key production key); [|done].
    destruct (nonempty key); [|done]. by apply reserve_loop_row.
  - unfold complete_idempotency. destruct (nonempty key) as [k'|]; [|by rewrite bool_decide_eq_false_2].
    destruct (decide ((u, k') = (user_id, k))) as [E|E].
    + injection E as -> ->. rewrite bool_decide_eq_true_2 by done.
      by rewrite lookup_alter_eq, Hdb.
    + rewrite lookup_alter_ne by done. rewrite bool_decide_eq_false_2; [done|]. congruence.
  - unfold release_idempotency. destruct (nonempty key) as [k'|]; [|done].
    destruct (db !! (u, k')) as [r|]; [|done]. destruct (bool_decide _); [|done].
    rewrite lookup_delete_ne; [done|]. congruence.
Qed.

Lemma run_idem_history ops db h response :
  Forall keeps_key ops → db !! (user_id, k) = Some (mkIdempotencyRecord h response) →
  foldl (λ db op, run_idem op db) db ops !! (user_id, k) =
    Some (mkIdempotencyRecord h (foldl completed response ops)).
Proof.
  intros Ho. revert db response. induction Ho as [|op ops Hop _ IH]; intros db response Hdb; [done|].
  cbn [foldl]. apply IH. by apply run_idem_row.
Qed.

Lemma reserve_admits races h db db' :
  reserve_loop races user_id k h db = (db', Ret None) →
  db' !! (user_id, k) = Some (mkIdempotencyRecord h None).
Proof.
  assert (∀ r h, answer_existing r h ≠ Ret None) as Ha.
  { intros r h'. unfold answer_existing. destruct (bool_decide _); [done|]. by destruct (idem_response_json r). }
  revert db. induction races as [|race races IH]; intros db; cbn [reserve_loop].
  - destruct (db !! (user_id, k)) as [r|]; [intros [= <- E]; by apply Ha in E|].
    intros [= <-]. by rewrite lookup_insert_eq.
  - destruct (db !! (user_id, k)) as [r|]; [intros [= <- E]; by apply Ha in E|].
    destruct (race db !! (user_id, k)) eqn:Er; [apply IH|].
    intros [= <-]. by rewrite lookup_insert_eq.
Qed.

(** C31: an idempotency key admits one order. Once a request has reserved the
    key, then until that reservation is released every further request with
    the key is answered from it, however the sessions interleave and race:
    a different payload is a 409, the same payload gets the recorded response
    if the order has completed and a 409 "in progress" if not. *)
Theorem idempotency_key_admits_once races h db db' ops races' h' :
  reserve_idempotency production races user_id (Some k) h db = (db', Ret None) →
  Forall keeps_key ops →
  (reserve_idempotency production races' user_id (Some k) h' (foldl (λ db op, run_idem op db) db' ops)).2 =
    if bool_decide (h ≠ h') then
      Raise (mkHTTPException 409 "Idempotency-Key was already used with different payload")
    else match foldl completed None ops with
         | Some response => Ret (Some response)
         | None => Raise (mkHTTPException 409 "an order with this Idempotency-Key is in progress")
         end.
Proof.
  rewrite !reserve_this. intros Hr Ho. apply reserve_admits in Hr.
  apply (run_idem_history ops _ _ _ Ho) in Hr. by destruct races'; cbn [reserve_loop]; rewrite Hr.
Qed.
End idempotency_keys.

Lemma idempotency_key_admits_once_witness :
  (reserve_idempotency true [] "u" (Some "key-0001") "h"
     (foldl (λ db op, run_idem true op db) (<[("u", "key-0001") := mkIdempotencyRecord "h" None]> ∅)
        [Reserve [] "u" (Some "key-0002") "h2"; Complete "u" (Some "key-0001") (JInt 7);
         Release "u" (Some "key-0002")])).2 = Ret (Some (JInt 7)).
Proof.
  refine (idempotency_key_admits_once true "u" "key-0001" eq_refl [] "h" ∅ _
            [Reserve [] "u" (Some "key-0002") "h2"; Complete "u" (Some "key-0001") (JInt 7);
             Release "u" (Some "key-0002")] [] "h" _ _).
  - vm_compute. reflexivity.
  - repeat constructor. cbn. congruence.
Defined.
