(* ===== verification/Integration.v ===== *)
(** backend/services/integration_service.py and the API-key dependency of
    backend/main.py ([require_api_scope]): bearer keys, HMAC-signed requests,
    and the nonce each signed request consumes. *)

From Stdlib Require Import Ascii.
From S2P Require Import Prelude Models Json RedisStore.
#[local] Open Scope Z_scope.

(** ** [int(text)] *)

Definition is_digit (c : ascii) : bool :=
  let n := nat_of_ascii c in (48 <=? n)%nat && (n <=? 57)%nat.
Definition is_space (c : ascii) : bool :=
  let n := nat_of_ascii c in ((9 <=? n) && (n <=? 13) || (28 <=? n) && (n <=? 32))%nat.

Fixpoint strip_left (s : string) : string :=
  match s with
  | String c s' => if is_space c then strip_left s' else s
  | EmptyString => EmptyString
  end.
Fixpoint strip_right (s : string) : string :=
  match s with
  | EmptyString => EmptyString
  | String c s =>
      match strip_right s with
      | EmptyString => if is_space c then EmptyString else String c EmptyString
      | r => String c r
      end
  end.

(** Digits with single underscores between them; [after] is whether a digit
    has just been read. *)
Fixpoint read_int_digits (after : bool) (acc : Z) (s : string) : option Z :=
  match s with
  | EmptyString => if after then Some acc else None
  | String c s =>
      if is_digit c then read_int_digits true (10 * acc + (Z.of_nat (nat_of_ascii c) - 48)) s
      else if after && (nat_of_ascii c =? 95)%nat then read_int_digits false acc s
      else None
  end.

(** [int(s)] of an ASCII string; [None] where it raises [ValueError]. *)
Definition py_int (s : string) : option Z :=
  match strip_right (strip_left s) with
  | String c s' =>
      if (nat_of_ascii c =? 45)%nat then Z.opp <$> read_int_digits false 0 s'
      else if (nat_of_ascii c =? 43)%nat then read_int_digits false 0 s'
      else read_int_digits false 0 (String c s')
  | EmptyString => None
  end.

Example py_int_samples :
  py_int " 1700000000 " = Some 1700000000 ∧ py_int "1_000" = Some 1000 ∧ py_int "-5" = Some (-5) ∧
  py_int "1__0" = None ∧ py_int "" = None ∧ py_int "5||6" = None.
Proof. vm_compute. auto 10. Qed.

(** ** Keys *)

Section keys.
Variable sha256_hex : string → string.
(** [hmac.new(key, message, sha256).hexdigest()] *)
Variable hmac_sha256_hex : string → string → string.
(** The Fernet decryption, which raises on a foreign token. *)
Variable decrypt_hmac_secret : string → option string.

(** [generate_api_key]; [raw_token] and [secret_token] are what
    [secrets.token_urlsafe(32)] returned. *)
Definition generate_api_key (raw_token secret_token : string) : string * string * string * string :=
  let raw := "qs_" +:+ raw_token in
  (raw, String.substring 0 11 raw, sha256_hex raw, secret_token).

Definition in_scope (scope : string) (key : ApiKey) : bool :=
  let scopes := default [] (ak_scopes key) in
  bool_decide (scope ∈ scopes) || bool_decide ("admin" ∈ scopes).

Definition unexpired_key (now : Z) (key : ApiKey) : bool :=
  match ak_expires_at key with
  | Some e => negb (e <? now)
  | None => true
  end.

(** [key.last_used_at = now; db.commit()] *)
Definition touch (now : Z) (key : ApiKey) (keys : gmap string ApiKey) : gmap string ApiKey :=
  <[ak_id key := key <| ak_last_used_at := Some now |>]> keys.

(** The unique key with this hash that is not revoked. *)
Definition find_by_hash (hash : string) (keys : gmap string ApiKey) : option ApiKey :=
  List.find (λ k, bool_decide (ak_key_hash k = hash) && negb (ak_is_revoked k)) (rows keys).

Definition verify_api_key (now : Z) (raw_key scope : string) (keys : gmap string ApiKey)
    : gmap string ApiKey * option ApiKey :=
  match find_by_hash (sha256_hex raw_key) keys with
  | None => (keys, None)
  | Some key =>
      if in_scope scope key && unexpired_key now key then
        (touch now key keys, Some (key <| ak_last_used_at := Some now |>))
      else (keys, None)
  end.

(** The request line and body a signature covers. *)
Record SignedRequest := mkSignedRequest {
  rq_key_id : string;
  rq_timestamp : string;
  rq_nonce : string;
  rq_signature : string;
  rq_method : string;
  rq_path : string;
  rq_body : string
}.

Definition signed_message (r : SignedRequest) : string :=
  str_upper (rq_method r) +:+ "||" +:+ rq_path r +:+ "||" +:+ rq_timestamp r +:+ "||"
    +:+ rq_nonce r +:+ "||" +:+ sha256_hex (rq_body r).

Fixpoint is_ascii (s : string) : bool :=
  match s with
  | EmptyString => true
  | String c s => (nat_of_ascii c <? 128)%nat && is_ascii s
  end.

(** [hmac.compare_digest] of two strings raises [TypeError] when one of them
    has a non-ASCII character. *)
Definition compare_digest (a b : string) : option bool :=
  if is_ascii a && is_ascii b then Some (bool_decide (a = b)) else None.

(** [verify_hmac_request]: the key, no key, or the [TypeError]. *)
Definition verify_hmac_request (now : Z) (r : SignedRequest) (scope : string)
    (keys : gmap string ApiKey) : gmap string ApiKey * option (option ApiKey) :=
  let refused := (keys, Some None) in
  match keys !! rq_key_id r with
  | None => refused
  | Some key =>
      if ak_is_revoked key || negb (in_scope scope key) then refused
      else if negb (unexpired_key now key) then refused
      else
        match py_int (rq_timestamp r) with
        | None => refused
        | Some ts =>
            if 30 <? Z.abs (now / seconds 1 - ts) then refused
            else
              match nonempty (ak_hmac_secret_encrypted key) ≫= decrypt_hmac_secret with
              | None => refused
              | Some secret =>
                  match compare_digest (rq_signature r) (hmac_sha256_hex secret (signed_message r)) with
                  | None => (keys, None)
                  | Some false => refused
                  | Some true =>
                      (touch now key keys, Some (Some (key <| ak_last_used_at := Some now |>)))
                  end
              end
        end
  end.

(** ** [require_api_scope] *)

(** What it answers: the key, an HTTP error, or an unhandled exception. *)
Inductive ApiError :=
| ApiHTTP (e : HTTPException)
| ApiStore (e : StoreError)
| ApiTypeError.

(** [consume] is [redis_store.consume_api_nonce] at the clock reading
    [now_nonce], after the verification at [now]. *)
Definition api_signed_request {S} (consume : Z → string → string → S → S * outcome StoreError bool)
    (now now_nonce : Z) (r : SignedRequest) (scope : string) (keys : gmap string ApiKey) (store : S)
    : gmap string ApiKey * S * outcome ApiError ApiKey :=
  match verify_hmac_request now r scope keys with
  | (keys, None) => (keys, store, Raise ApiTypeError)
  | (keys, Some None) =>
      (keys, store, Raise (ApiHTTP (mkHTTPException 403 "Invalid HMAC signature or insufficient scope")))
  | (keys, Some (Some key)) =>
      match consume now_nonce (rq_key_id r) (rq_nonce r) store with
      | (store, Ret true) => (keys, store, Ret key)
      | (store, Ret false) =>
          (keys, store, Raise (ApiHTTP (mkHTTPException 409 "API request nonce already used")))
      | (store, Raise e) => (keys, store, Raise (ApiStore e))
      end
  end.

(** The header values of a request, [None] where absent. *)
Record ApiHeaders := mkApiHeaders {
  h_api_key : option string;
  h_key_id : option string;
  h_timestamp : option string;
  h_nonce : option string;
  h_signature : option string
}.

Definition require_api_scope {S} (consume : Z → string → string → S → S * outcome StoreError bool)
    (now now_nonce : Z) (h : ApiHeaders) (method path body scope : string)
    (keys : gmap string ApiKey) (store : S) : gmap string ApiKey * S * outcome ApiError ApiKey :=
  match nonempty (h_key_id h), nonempty (h_timestamp h), nonempty (h_nonce h), nonempty (h_signature h) with
  | Some key_id, Some timestamp, Some nonce, Some signature =>
      api_signed_request consume now now_nonce
        (mkSignedRequest key_id timestamp nonce signature method path body) scope keys store
  | _, _, _, _ =>
      match nonempty (h_api_key h) with
      | None =>
          (keys, store,
           Raise (ApiHTTP (mkHTTPException 401 "Missing X-QS-API-KEY or HMAC signature headers")))
      | Some raw =>
          match verify_api_key now raw scope keys with
          | (keys, None) =>
              (keys, store, Raise (ApiHTTP (mkHTTPException 403 "Invalid API key or insufficient scope")))
          | (keys, Some key) => (keys, store, Ret key)
          end
      end
  end.
End keys.

(** * Theorems

    What API-key authentication guarantees: the signed message determines the
    request, and a signed request is accepted at most once. *)

#[local] Open Scope Z_scope.

(** ** The signed message *)

Fixpoint pipe_free (s : string) : bool :=
  match s with
  | EmptyString => true
  | String c s => negb (nat_of_ascii c =? 124)%nat && pipe_free s
  end.

Lemma pipe_cut a b r s :
  pipe_free a = true → pipe_free b = true → a +:+ "||" +:+ r = b +:+ "||" +:+ s → a = b ∧ r = s.
Proof.
  revert b; induction a as [|c a IH]; intros [|d b]; cbn [pipe_free]; intros Ha Hb E.
  - by injection E.
  - injection E as <- _. discriminate Hb.
  - injection E as -> _. discriminate Ha.
  - apply andb_prop in Ha as [_ Ha], Hb as [_ Hb].
    change (String c (a +:+ "||" +:+ r) = String d (b +:+ "||" +:+ s)) in E.
    apply string_cons_inj in E as [-> E]. by destruct (IH b Ha Hb E) as [-> ->].
Qed.

Lemma pipe_free_no_digits after acc s z :
  read_int_digits after acc s = Some z → pipe_free s = true.
Proof.
  revert after acc; induction s as [|c s IH]; intros after acc; [done|]. cbn [read_int_digits pipe_free].
  destruct (is_digit c) eqn:Ed.
  - intros E%IH. rewrite E, andb_true_r. unfold is_digit in Ed. apply andb_prop in Ed as [_ Ed].
    apply Nat.leb_le in Ed. apply negb_true_iff, Nat.eqb_neq. lia.
  - destruct (after && _) eqn:Eu; [|done]. intros E%IH. rewrite E, andb_true_r.
    apply andb_prop in Eu as [_ Eu]. apply Nat.eqb_eq in Eu. by rewrite Eu.
Qed.

Lemma pipe_free_strip_left s : pipe_free (strip_left s) = true → pipe_free s = true.
Proof.
  induction s as [|c s IH]; [done|]. cbn [strip_left]. destruct (is_space c) eqn:Es; [|done].
  intros E%IH. cbn [pipe_free]. rewrite E, andb_true_r. unfold is_space in Es.
  apply negb_true_iff, Nat.eqb_neq. intros Hc. rewrite Hc in Es. done.
Qed.

Lemma pipe_free_strip_right s : pipe_free (strip_right s) = true → pipe_free s = true.
Proof.
  induction s as [|c s IH]; [done|]. cbn [strip_right].
  destruct (strip_right s) as [|d r] eqn:Er.
  - specialize (IH eq_refl). cbn [pipe_free]. rewrite IH, andb_true_r.
    destruct (is_space c) eqn:Es; [|cbn [pipe_free]; by rewrite andb_true_r].
    intros _. unfold is_space in Es. apply negb_true_iff, Nat.eqb_neq. intros Hc. by rewrite Hc in Es.
  - intros [Hc Hr]%andb_prop. cbn [pipe_free]. rewrite Hc. by apply IH.
Qed.

(** A timestamp that [int] accepts contains no separator. *)
Lemma pipe_free_int s z : py_int s = Some z → pipe_free s = true.
Proof.
  unfold py_int. intros E. apply pipe_free_strip_left, pipe_free_strip_right.
  destruct (strip_right (strip_left s)) as [|c t]; [done|]. cbn [pipe_free].
  destruct (nat_of_ascii c =? 45)%nat eqn:E1; [|destruct (nat_of_ascii c =? 43)%nat eqn:E2].
  - apply Nat.eqb_eq in E1. rewrite E1. cbn. apply fmap_Some in E as (y & E & _).
    by apply pipe_free_no_digits in E.
  - apply Nat.eqb_eq in E2. rewrite E2. cbn. by apply pipe_free_no_digits in E.
  - by apply pipe_free_no_digits in E.
Qed.

Section authentication.
Variable sha256_hex : string → string.
Variable hmac_sha256_hex : string → string → string.
Variable decrypt_hmac_secret : string → option string.
#[local] Abbreviation verify := (verify_hmac_request sha256_hex hmac_sha256_hex decrypt_hmac_secret).

(** What a successful verification established. *)
Lemma verify_accepts now r scope keys keys' key :
  verify now r scope keys = (keys', Some (Some key)) →
  ∃ row secret ts,
    keys !! rq_key_id r = Some row ∧ ak_is_revoked row = false ∧ in_scope scope row = true ∧
    unexpired_key now row = true ∧
    py_int (rq_timestamp r) = Some ts ∧ Z.abs (now / seconds 1 - ts) ≤ 30 ∧
    nonempty (ak_hmac_secret_encrypted row) ≫= decrypt_hmac_secret = Some secret ∧
    rq_signature r = hmac_sha256_hex secret (signed_message sha256_hex r) ∧
    key = row <| ak_last_used_at := Some now |> ∧ keys' = touch now row keys.
Proof.
  unfold verify_hmac_request. destruct (keys !! rq_key_id r) as [row|]; [|done].
  destruct (ak_is_revoked row) eqn:E1, (in_scope scope row) eqn:E2; cbn [negb orb]; try done.
  destruct (unexpired_key now row) eqn:E3; cbn [negb]; [|done].
  destruct (py_int (rq_timestamp r)) as [ts|] eqn:E4; [|done].
  destruct (Z.ltb_spec 30 (Z.abs (now / seconds 1 - ts))) as [|E5]; [done|].
  destruct (nonempty _ ≫= _) as [secret|] eqn:E6; [|done].
  unfold compare_digest. destruct (_ && _); [|done].
  case_bool_decide as E7; [|done]. intros [= <- <-]. by exists row, secret, ts.
Qed.

(** An HMAC signature vouches for one request. Two requests whose signed
    messages coincide, and whose timestamps the server can read, have the same
    method up to case, path, timestamp, nonce and body digest, provided the
    methods and paths contain no bar; the nonce may contain anything. *)
Theorem signed_message_binds r r' ts ts' :
  py_int (rq_timestamp r) = Some ts → py_int (rq_timestamp r') = Some ts' →
  pipe_free (str_upper (rq_method r)) = true → pipe_free (str_upper (rq_method r')) = true →
  pipe_free (rq_path r) = true → pipe_free (rq_path r') = true →
  String.length (sha256_hex (rq_body r)) = String.length (sha256_hex (rq_body r')) →
  signed_message sha256_hex r = signed_message sha256_hex r' →
  str_upper (rq_method r) = str_upper (rq_method r') ∧ rq_path r = rq_path r' ∧
  rq_timestamp r = rq_timestamp r' ∧ rq_nonce r = rq_nonce r' ∧
  sha256_hex (rq_body r) = sha256_hex (rq_body r').
Proof.
  intros Ht%pipe_free_int Ht'%pipe_free_int Hm Hm' Hp Hp' Hl E. unfold signed_message in E.
  apply pipe_cut in E as [-> E]; [|done..]. apply pipe_cut in E as [-> E]; [|done..].
  apply pipe_cut in E as [-> E]; [|done..].
  apply string_append_inj_r in E as [-> E].
  { injection E as E. change (sha256_hex (rq_body r) = sha256_hex (rq_body r')) in E. by rewrite E. }
  change (S (S (String.length (sha256_hex (rq_body r)))) = S (S (String.length (sha256_hex (rq_body r'))))).
  by rewrite Hl.
Qed.

Section replay.
Context {S : Type} (consume : Z → string → string → S → S * outcome StoreError bool).
Context (uses : Z → S → S → Prop) `{!SingleUse consume uses}.
#[local] Abbreviation request := (api_signed_request sha256_hex hmac_sha256_hex decrypt_hmac_secret consume).

(** A signed API request is accepted at most once. Once a request has been
    accepted, no request with its key, nonce and timestamp is accepted again,
    at any later time, under any signature, path, body or key table, and
    whatever else the nonce store was used for in between: within 300 seconds
    its nonce is spent, and after 30 its timestamp has lapsed. (A request is
    taken to reach its nonce check within two minutes of its verification.) *)
Theorem signed_request_accepted_once r now1 now1' scope1 keys1 keys1' s s0 key1
    r2 now2 now2' scope2 keys2 s1 :
  request now1 now1' r scope1 keys1 s = (keys1', s0, Ret key1) →
  now1 ≤ now1' → now1' ≤ now2 → now2' ≤ now2 + seconds 120 →
  rtc (λ a b, ∃ time, time ≤ now2' ∧ uses time a b) s0 s1 →
  rq_key_id r2 = rq_key_id r → rq_nonce r2 = rq_nonce r → rq_timestamp r2 = rq_timestamp r →
  ∀ key2, (request now2 now2' r2 scope2 keys2 s1).2 ≠ Ret key2.
Proof.
  intros Hreq H1 H2 H3 Huse Hk Hn Ht key2 Hreq2. unfold api_signed_request in *.
  destruct (verify now1 r scope1 keys1) as [k1 [[a1|]|]] eqn:E1; try done.
  destruct (consume now1' (rq_key_id r) (rq_nonce r) s) as [sa [[]|e]] eqn:C1; try done.
  injection Hreq as -> -> ->.
  destruct (verify now2 r2 scope2 keys2) as [k2 [[a2|]|]] eqn:E2; try done.
  destruct (consume now2' (rq_key_id r2) (rq_nonce r2) s1) as [sb [[]|e]] eqn:C2; try done.
  apply verify_accepts in E1 as (_ & _ & ts & _ & _ & _ & _ & Ht1 & Hd1 & _).
  apply verify_accepts in E2 as (_ & _ & ts2 & _ & _ & _ & _ & Ht2 & Hd2 & _).
  rewrite Ht, Ht1 in Ht2. injection Ht2 as <-.
  apply (single_use now1' now2' (rq_key_id r) (rq_nonce r) s s0 s1 C1 Huse).
  - unfold seconds in *.
    pose proof (Z.div_mod now1 (1 * 1000000)). pose proof (Z.mod_pos_bound now1 (1 * 1000000)).
    pose proof (Z.div_mod now2 (1 * 1000000)). pose proof (Z.mod_pos_bound now2 (1 * 1000000)). lia.
  - rewrite <-Hk, <-Hn. by rewrite C2.
Qed.
End replay.
End authentication.

Definition demo_key : ApiKey :=
  mkApiKey "k1" "u1" "qs_" "h" (Some "s3cret") (Some ["trade"]) None None false.
Definition demo_request (nonce : string) : SignedRequest :=
  let r := mkSignedRequest "k1" "1700000000" nonce "" "post" "/api/sdk" "{}" in
  mkSignedRequest "k1" "1700000000" nonce ("s3cret" +:+ signed_message id r) "post" "/api/sdk" "{}".
Abbreviation demo_auth := (api_signed_request id String.append Some
  (consume_api_nonce (R:=unit) None false id)) (only parsing).
Definition demo_accepted :=
  demo_auth (seconds 1700000010) (seconds 1700000010) (demo_request "n1") "trade" {["k1" := demo_key]}
    (mkStore tt ∅ ∅ ∅).

Lemma signed_message_binds_witness :
  let r' := mkSignedRequest "k1" "1700000000" "a||b" "" "POST" "/api/sdk" "{}" in
  signed_message id (demo_request "a||b") = signed_message id r' ∧
  rq_nonce (demo_request "a||b") = rq_nonce r'.
Proof.
  cbv zeta. split; [vm_compute; reflexivity|].
  apply (signed_message_binds id (demo_request "a||b")
           (mkSignedRequest "k1" "1700000000" "a||b" "" "POST" "/api/sdk" "{}") 1700000000 1700000000);
    vm_compute; reflexivity.
Defined.

Lemma signed_request_accepted_once_witness :
  (∃ key, demo_accepted.2 = Ret key) ∧
  match (demo_auth (seconds 1700000020) (seconds 1700000020) (demo_request "n1") "trade"
           {["k1" := demo_key]} demo_accepted.1.2).2 with
  | Ret _ => False
  | Raise _ => True
  end.
Proof.
  split; [eexists; vm_compute; reflexivity|].
  destruct (demo_auth (seconds 1700000020) _ _ _ _ _) as [[keys s2] r] eqn:E. cbn [snd].
  destruct r as [k|e]; [|done].
  refine (signed_request_accepted_once id String.append Some (consume_api_nonce (R:=unit) None false id)
            (fallback_use false id) (demo_request "n1") (seconds 1700000010) (seconds 1700000010) "trade"
            {["k1" := demo_key]} demo_accepted.1.1 (mkStore tt ∅ ∅ ∅) demo_accepted.1.2
            (demo_key <| ak_last_used_at := Some (seconds 1700000010) |>)
            (demo_request "n1") (seconds 1700000020) (seconds 1700000020) "trade" {["k1" := demo_key]}
            demo_accepted.1.2 _ _ _ _ _ eq_refl eq_refl eq_refl k _).
  - vm_compute. reflexivity.
  - reflexivity.
  - by vm_compute.
  - by vm_compute.
  - apply rtc_refl.
  - by rewrite E.
Defined.
