(* ===== verification/Sessions.v ===== *)
(** backend/services/auth_service.py: refresh-token families with reuse
    detection, the cache of verified access tokens, CSRF tokens, and the
    in-process PQC sessions and nonces. *)

From S2P Require Import Prelude Models OrderedDict Integration.
From stdpp Require Import pretty.
From Stdlib Require Import Ascii.
#[local] Open Scope Z_scope.

(** ** Refresh tokens: the table by token hash, its unique constraint *)

Abbreviation refresh_table := (gmap string RefreshToken) (only parsing).

Section refresh.
Variable sha256_hex : string → string.
Variables REFRESH_TOKEN_SECONDS REFRESH_ABSOLUTE_SESSION_SECONDS : Z.

Definition new_token (now : Z) (user_id hash family_id : string) : RefreshToken :=
  mkRefreshToken user_id hash family_id false false now (now + seconds REFRESH_TOKEN_SECONDS).

(** An insert that violates the unique constraint raises. *)
Definition insert_token (t : RefreshToken) (db : refresh_table) : option refresh_table :=
  match db !! rt_token_hash t with
  | Some _ => None
  | None => Some (<[rt_token_hash t := t]> db)
  end.

(** [raw_token] is [secrets.token_urlsafe(48)], [family_id] a new uuid. *)
Definition create_refresh_token (now : Z) (user_id raw_token family_id : string) (db : refresh_table)
    : refresh_table * option (string * string) :=
  match insert_token (new_token now user_id (sha256_hex raw_token) family_id) db with
  | Some db => (db, Some (raw_token, family_id))
  | None => (db, None)
  end.

(** [UPDATE … SET is_revoked = true WHERE …], under READ COMMITTED: the
    statement looks at the rows that were committed when it started. It waits
    for the row locks in its way and then updates the rows' current versions,
    but a row another transaction inserted and committed in the meantime is
    not among the rows it looks at. [missed] holds the hashes of those rows;
    each call below is placed at the time of its commit. *)
Definition revoke_where (missed : gset string) (p : RefreshToken → bool) (db : refresh_table) : refresh_table :=
  map_imap (λ h t, Some (if bool_decide (h ∈ missed) then t
                         else if p t then t <| rt_is_revoked := true |> else t)) db.
Definition revoke_family (missed : gset string) (family_id : string) : refresh_table → refresh_table :=
  revoke_where missed (λ t, bool_decide (rt_family_id t = family_id)).

Definition min_created (ts : list RefreshToken) : option Z :=
  foldr (λ t m, Some (match m with Some x => Z.min (rt_created_at t) x | None => rt_created_at t end)) None ts.
Definition family_created_at (family_id : string) (db : refresh_table) : option Z :=
  min_created (filter (λ t, rt_family_id t = family_id) (rows db)).

(** [rotate_refresh_token]: the new token, its user and family; [None] for a
    refusal; an exception for a violated constraint. [SELECT … FOR UPDATE]
    locks the presented row only, so that row is, at the commit, what it was
    when read; the rest of the table may change in between, and [missed] are
    the rows committed while the family's UPDATE ran. A rotation that mints
    reads its family's age with the family's one live token locked, so no
    other rotation adds a row to the family before its commit. *)
Definition rotate_refresh_token (missed : gset string) (now : Z) (raw_token new_raw : string) (db : refresh_table)
    : refresh_table * outcome string (option (string * string * string)) :=
  match db !! sha256_hex raw_token with
  | None => (db, Ret None)
  | Some record =>
      if rt_expires_at record <? now then (db, Ret None)
      else if rt_is_revoked record then (db, Ret None)
      else if rt_is_used record then (revoke_family missed (rt_family_id record) db, Ret None)
      else
        let too_old :=
          match family_created_at (rt_family_id record) db with
          | Some c => seconds REFRESH_ABSOLUTE_SESSION_SECONDS <? now - c
          | None => false
          end in
        if too_old then (revoke_family missed (rt_family_id record) db, Ret None)
        else
          let db' := <[sha256_hex raw_token := record <| rt_is_used := true |>]> db in
          match insert_token (new_token now (rt_user_id record) (sha256_hex new_raw) (rt_family_id record)) db' with
          | Some db' => (db', Ret (Some (new_raw, rt_user_id record, rt_family_id record)))
          | None => (db, Raise "uq_refresh_token_hash")
          end
  end.

Definition revoke_refresh_token (raw_token : string) (db : refresh_table) : refresh_table * bool :=
  match db !! sha256_hex raw_token with
  | Some t => (<[sha256_hex raw_token := t <| rt_is_revoked := true |>]> db, true)
  | None => (db, false)
  end.

(** Every session of a user the statement sees; the rowcount. *)
Definition revoke_user_refresh_tokens (missed : gset string) (user_id : string) (db : refresh_table) : refresh_table * Z :=
  let hit t := bool_decide (rt_user_id t = user_id) && negb (rt_is_revoked t) in
  (revoke_where missed hit db,
   Z.of_nat (length (filter (λ ht, ht.1 ∉ missed ∧ hit ht.2 = true) (map_to_list db)))).
End refresh.

(** ** Access tokens *)

(** The claims the code reads; the rest of the payload is [cl_rest]. *)
Record Claims := mkClaims { cl_sub : string; cl_exp : Z; cl_rest : json }.

Section access.
(** [jwt.decode] of a token at a time, in microseconds: [None] where it raises. *)
Variable jwt_decode : Z → string → option Claims.
Definition VERIFIED_TOKENS_MAX : Z := 10000.

Definition expired_claims (now : Z) (c : Claims) : bool := seconds (cl_exp c) <=? now.

(** [decode_access_token] with its cache [_VERIFIED_TOKENS]. *)
Definition decode_access_token (now : Z) (token : string) (cache : list (string * Claims))
    : list (string * Claims) * option Claims :=
  match od_get token cache with
  | Some payload =>
      if negb (expired_claims now payload) then (cache, Some payload)
      else (od_pop token cache, None)
  | None =>
      match jwt_decode now token with
      | None => (cache, None)
      | Some payload =>
          let cache := od_put token payload (od_expire (expired_claims now) cache) in
          (if VERIFIED_TOKENS_MAX <? Z.of_nat (length cache) then tail cache else cache, Some payload)
      end
  end.
End access.

(** ** CSRF tokens *)

(** [bytes.rsplit(b":", 1)] *)
Fixpoint rsplit_colon (s : string) : option (string * string) :=
  match s with
  | EmptyString => None
  | String c s =>
      match rsplit_colon s with
      | Some (a, b) => Some (String c a, b)
      | None => if bool_decide (c = ":"%char) then Some (EmptyString, s) else None
      end
  end.

Section csrf.
(** [hmac.new(CSRF_SECRET, payload, sha256).hexdigest()], and url-safe base64. *)
Variable csrf_mac : string → string.
Variable urlsafe_b64encode : string → string.
Variable urlsafe_b64decode : string → option string.

Definition csrf_signature (payload : string) : string := String.substring 0 32 (csrf_mac payload).

(** [now] is in microseconds; [int(time.time())] its seconds. *)
Definition generate_csrf_token (now : Z) (session_id : string) : string :=
  let payload := session_id +:+ ":" +:+ pretty (now / seconds 1) in
  urlsafe_b64encode (payload +:+ ":" +:+ csrf_signature payload).

(** Any exception makes the token invalid. *)
Definition verify_csrf_token (now : Z) (token : string) (session_id : option string) (max_age : Z) : bool :=
  match urlsafe_b64decode token ≫= rsplit_colon with
  | None => false
  | Some (payload, sig) =>
      match compare_digest sig (csrf_signature payload) with
      | Some true =>
          let '(token_session_id, ts_str) :=
            match rsplit_colon payload with Some p => p | None => (EmptyString, payload) end in
          match py_int ts_str with
          | None => false
          | Some ts =>
              if seconds max_age <? now - seconds ts then false
              else match session_id with
                   | None => true
                   | Some sid => default false (compare_digest token_session_id sid)
                   end
          end
      | _ => false
      end
  end.
End csrf.

(** ** PQC sessions and nonces of this process *)

Record PqcSession := mkPqcSession {
  ps_user_id : string; ps_session_key : string; ps_created_at : Z; ps_expires_at : Z
}.
Definition NONCE_TTL_SECONDS : Z := 300.
Definition MAX_SESSIONS : Z := 10000.

Definition created_le (a b : string * PqcSession) : Prop := ps_created_at a.2 ≤ ps_created_at b.2.
#[global] Instance created_le_dec a b : Decision (created_le a b) := decide (ps_created_at a.2 ≤ ps_created_at b.2).

(** [_expire_sessions]; [SESSIONS] in insertion order. *)
Definition expire_sessions (now : Z) (sessions : list (string * PqcSession)) : list (string * PqcSession) :=
  let live := filter (λ kv, ¬ ps_expires_at kv.2 < now) sessions in
  if MAX_SESSIONS <? Z.of_nat (length live) then
    let victims := take (Z.to_nat (Z.of_nat (length live) - MAX_SESSIONS)) (merge_sort created_le live) in
    foldl (λ l kv, od_pop kv.1 l) live victims
  else live.

(** [_consume_nonce_local] *)
Definition consume_nonce_local (sha256_hex : string → string) (now : Z) (nonce : string)
    (nonces : gmap string Z) : gmap string Z * bool :=
  let nonces := filter (λ kv, ¬ kv.2 < now - seconds NONCE_TTL_SECONDS) nonces in
  match nonces !! sha256_hex nonce with
  | Some _ => (nonces, false)
  | None => (<[sha256_hex nonce := now]> nonces, true)
  end.
