(* ===== verification/IntText.v ===== *)
(** Decimal text: what [int] reads back from what [str] wrote, the characters
    it is made of, and cutting a string at its last colon. *)

From S2P Require Import Prelude Integration Sessions.
From stdpp Require Import pretty.
From Stdlib Require Import Ascii.
#[local] Open Scope Z_scope.

(** Every character satisfies [p]. *)
Fixpoint all_chars (p : ascii → bool) (s : string) : bool :=
  match s with
  | EmptyString => true
  | String c s => p c && all_chars p s
  end.

Definition is_colon (c : ascii) : bool := bool_decide (c = ":"%char).
Definition plain_char (c : ascii) : bool := is_digit c || bool_decide (c = "-"%char).

Lemma all_chars_app p a b : all_chars p (a +:+ b) = all_chars p a && all_chars p b.
Proof. induction a as [|c a IH]; [done|]. rewrite string_app_cons. cbn [all_chars]. by rewrite IH, andb_assoc. Qed.

Lemma all_chars_impl (p q : ascii → bool) s :
  (∀ c, p c = true → q c = true) → all_chars p s = true → all_chars q s = true.
Proof.
  intros Hpq. induction s as [|c s IH]; [done|]. cbn [all_chars]. intros [Hc Hs]%andb_prop.
  by rewrite (Hpq _ Hc), (IH Hs).
Qed.

Lemma is_ascii_all s : is_ascii s = all_chars (λ c, nat_of_ascii c <? 128)%nat s.
Proof. induction s as [|c s IH]; [done|]. cbn [is_ascii all_chars]. by rewrite IH. Qed.

(** ** Digits *)

Lemma digit_char (d : N) : (d < 10)%N →
  is_digit (pretty_N_char d) = true ∧ Z.of_nat (nat_of_ascii (pretty_N_char d)) - 48 = Z.of_N d.
Proof.
  intros Hd. unfold pretty_N_char.
  destruct d as [|[[[[]|[]|]|[[]|[]|]|]|[[[]|[]|]|[[]|[]|]|]|]]; try lia; by split.
Qed.

Lemma read_int_pretty_go (x : N) b s : (0 < x)%N →
  read_int_digits b 0 (pretty_N_go x s) = read_int_digits true (Z.of_N x) s.
Proof.
  revert b s. induction (N.lt_wf_0 x) as [x _ IH]. intros b s Hx. rewrite pretty_N_go_step by done.
  assert (x `mod` 10 < 10)%N as Hm by (apply N.mod_lt; lia).
  destruct (digit_char _ Hm) as [Hdig Hval].
  assert (∀ b' acc, read_int_digits b' acc (String (pretty_N_char (x `mod` 10)) s) =
            read_int_digits true (10 * acc + Z.of_N (x `mod` 10)) s) as Hstep.
  { intros b' acc. cbn [read_int_digits]. by rewrite Hdig, Hval. }
  pose proof (N.div_mod x 10 ltac:(lia)) as Hdm.
  destruct (decide (x `div` 10 = 0)%N) as [E|E].
  - rewrite E, pretty_N_go_0, Hstep. f_equal. lia.
  - rewrite IH, Hstep; [f_equal; lia|apply N.div_lt; lia|lia].
Qed.

Lemma plain_pretty_go (x : N) s : all_chars plain_char s = true → all_chars plain_char (pretty_N_go x s) = true.
Proof.
  revert s. induction (N.lt_wf_0 x) as [x _ IH]. intros s Hs.
  destruct (decide (x = 0)%N) as [->|Hx]; [by rewrite pretty_N_go_0|].
  rewrite pretty_N_go_step by lia. apply IH; [apply N.div_lt; lia|]. cbn [all_chars].
  destruct (digit_char (x `mod` 10)) as [Hd _]; [apply N.mod_lt; lia|]. unfold plain_char at 1. by rewrite Hd.
Qed.

(** [str] of an integer has digits and a sign only. *)
Lemma plain_pretty (z : Z) : all_chars plain_char (pretty z) = true.
Proof.
  assert (∀ n : N, all_chars plain_char (pretty n) = true) as Hn.
  { intros n. unfold pretty, pretty_N. case_decide; [done|by apply plain_pretty_go]. }
  destruct z as [|p|p]; [done|apply Hn|].
  change (plain_char "-"%char && all_chars plain_char (pretty (N.pos p)) = true). by rewrite Hn.
Qed.

Lemma strip_plain s : all_chars plain_char s = true → strip_right (strip_left s) = s.
Proof.
  assert (∀ c, plain_char c = true → is_space c = false) as Hsp.
  { intros c [Hc|Hc]%orb_prop; [|by apply bool_decide_eq_true in Hc as ->].
    unfold is_digit, is_space in *. apply andb_prop in Hc as [?%Nat.leb_le ?%Nat.leb_le].
    apply orb_false_iff.
    split; apply andb_false_iff; right; apply Nat.leb_gt; lia. }
  assert (∀ s, all_chars plain_char s = true → strip_right s = s) as Hr.
  { clear s. induction s as [|c s IH]; [done|]. cbn [all_chars strip_right]. intros [Hc Hs]%andb_prop.
    rewrite (IH Hs). destruct s; [|done]. by rewrite (Hsp _ Hc). }
  intros Hs. replace (strip_left s) with s; [by apply Hr|].
  destruct s as [|c s]; [done|]. cbn [all_chars strip_left] in *. apply andb_prop in Hs as [Hc _].
  by rewrite (Hsp _ Hc).
Qed.

(** [int(str(z)) == z]. *)
Lemma py_int_pretty (z : Z) : py_int (pretty z) = Some z.
Proof.
  unfold py_int. rewrite strip_plain by apply plain_pretty.
  assert (∀ p b, read_int_digits b 0 (pretty (N.pos p)) = Some (Z.pos p)) as Hp.
  { intros p b. change (pretty (N.pos p)) with (pretty_N_go (N.pos p) ""). by rewrite read_int_pretty_go by lia. }
  destruct z as [|p|p]; [done| |].
  - change (pretty (Z.pos p)) with (pretty (N.pos p)).
    specialize (Hp p). destruct (pretty (N.pos p)) as [|c s] eqn:E; [by specialize (Hp true)|].
    destruct (nat_of_ascii c =? 45)%nat eqn:E1; [|destruct (nat_of_ascii c =? 43)%nat eqn:E2; [|by apply Hp]];
      specialize (Hp false); cbn [read_int_digits] in Hp; unfold is_digit in Hp.
    + apply Nat.eqb_eq in E1. by rewrite E1 in Hp.
    + apply Nat.eqb_eq in E2. by rewrite E2 in Hp.
  - change (pretty (Z.neg p)) with (String "-" (pretty (N.pos p))). cbn [Nat.eqb nat_of_ascii].
    change (nat_of_ascii "-" =? 45)%nat with true. cbn match. by rewrite Hp.
Qed.

(** ** The last colon *)

Definition no_colon : string → bool := all_chars (λ c, negb (is_colon c)).

Lemma no_colon_pretty (z : Z) : no_colon (pretty z) = true.
Proof.
  eapply all_chars_impl; [|apply plain_pretty]. intros c Hc.
  destruct (is_colon c) eqn:E; [|done]. by apply bool_decide_eq_true in E as ->.
Qed.

Lemma rsplit_no_colon s : no_colon s = true → rsplit_colon s = None.
Proof.
  induction s as [|c s IH]; [done|]. unfold no_colon. cbn [all_chars rsplit_colon]. intros [Hc Hs]%andb_prop.
  rewrite (IH Hs). unfold is_colon in Hc. by rewrite (proj1 (negb_true_iff _) Hc).
Qed.

Lemma rsplit_colon_app a b : no_colon b = true → rsplit_colon (a +:+ ":" +:+ b) = Some (a, b).
Proof.
  intros Hb. induction a as [|c a IH].
  - change (rsplit_colon (String ":" b) = Some ("", b)). cbn [rsplit_colon]. by rewrite rsplit_no_colon.
  - rewrite string_app_cons. cbn [rsplit_colon]. by rewrite IH.
Qed.

(** What is cut off was there: the string is the two parts around a colon. *)
Lemma rsplit_colon_eq s a b : rsplit_colon s = Some (a, b) → s = a +:+ ":" +:+ b.
Proof.
  revert a. induction s as [|c s IH]; intros a; [done|]. cbn [rsplit_colon].
  destruct (rsplit_colon s) as [[a' b']|] eqn:E.
  - intros [= <- <-]. rewrite string_app_cons. f_equal. by apply IH.
  - case_bool_decide as Ec; [|done]. intros [= <- <-]. by subst.
Qed.

Lemma is_ascii_plain s : all_chars plain_char s = true → is_ascii s = true.
Proof.
  rewrite is_ascii_all. apply all_chars_impl. intros c [Hc|Hc]%orb_prop.
  - unfold is_digit in Hc. apply andb_prop in Hc as [_ Hc%Nat.leb_le]. apply Nat.ltb_lt. lia.
  - by apply bool_decide_eq_true in Hc as ->.
Qed.
