(* ===== verification/SessionsFacts.v ===== *)
(** What the session tokens guarantee: at most one live refresh token per
    family and no life after a replay, a token cache that never changes an
    answer, and CSRF tokens bound to their session. *)

From S2P Require Import Prelude Models OrderedDict Integration Sessions IntText.
From stdpp Require Import pretty.
From Stdlib Require Import Ascii.
#[local] Open Scope Z_scope.

(** ** Refresh-token families *)

Section refresh.
Variable sha256_hex : string → string.
Variables token_seconds session_seconds : Z.

#[local] Abbreviation rotate := (rotate_refresh_token sha256_hex token_seconds session_seconds).

(** What can happen to the table: calls, in the order of their commits, with
    the rows their UPDATE, if any, was too early to see. *)
Inductive refresh_op :=
| Create (now : Z) (user_id raw family_id : string)
| Rotate (missed : gset string) (now : Z) (raw new_raw : string)
| Revoke (raw : string)
| RevokeUser (missed : gset string) (user_id : string).

Definition run_refresh (db : gmap string RefreshToken) (op : refresh_op) : gmap string RefreshToken :=
  match op with
  | Create now u raw f => (create_refresh_token sha256_hex token_seconds now u raw f db).1
  | Rotate missed now raw new => (rotate missed now raw new db).1
  | Revoke raw => (revoke_refresh_token sha256_hex raw db).1
  | RevokeUser missed u => (revoke_user_refresh_tokens missed u db).1
  end.

(** A token that can still be rotated. *)
Definition live (t : RefreshToken) : Prop := rt_is_used t = false ∧ rt_is_revoked t = false.

(** Rows sit under their hash, and a family has at most one live token. *)
Record families_ok (db : gmap string RefreshToken) : Prop := {
  fam_hash : ∀ h t, db !! h = Some t → rt_token_hash t = h;
  fam_one : ∀ h h' t t', db !! h = Some t → db !! h' = Some t' →
              rt_family_id t = rt_family_id t' → live t → live t' → h = h'
}.

(** New families are new. *)
Definition fresh_family (db : gmap string RefreshToken) (op : refresh_op) : Prop :=
  match op with
  | Create _ _ _ f => ∀ h t, db !! h = Some t → rt_family_id t ≠ f
  | _ => True
  end.

Lemma lookup_revoke_where missed p (db : gmap string RefreshToken) h t :
  revoke_where missed p db !! h = Some t ↔
  ∃ t0, db !! h = Some t0 ∧
    t = if bool_decide (h ∈ missed) then t0 else if p t0 then t0 <| rt_is_revoked := true |> else t0.
Proof.
  unfold revoke_where. rewrite map_lookup_imap. destruct (db !! h) as [t0|]; cbn.
  - split; [intros [= <-]; by exists t0|]. by intros (t1 & [= <-] & ->).
  - split; [done|]. by intros (t1 & ? & _).
Qed.

(** A revocation keeps every row, and only ever sets its [is_revoked]. *)
Lemma revoke_where_keeps missed p (db : gmap string RefreshToken) h t :
  db !! h = Some t →
  ∃ t', revoke_where missed p db !! h = Some t' ∧ (t' = t ∨ t' = t <| rt_is_revoked := true |>).
Proof.
  intros Ht. eexists. split; [apply lookup_revoke_where; by exists t|].
  destruct (bool_decide _); [by left|]. destruct (p t); [by right|by left].
Qed.

Lemma revoke_where_inv missed p (db : gmap string RefreshToken) h t :
  revoke_where missed p db !! h = Some t →
  ∃ t0, db !! h = Some t0 ∧ (t = t0 ∨ t = t0 <| rt_is_revoked := true |>).
Proof.
  intros (t0 & Ht & ->)%lookup_revoke_where. exists t0. split; [done|].
  destruct (bool_decide _); [by left|]. destruct (p t0); [by right|by left].
Qed.

Lemma revoke_where_ok missed p db : families_ok db → families_ok (revoke_where missed p db).
Proof.
  intros [Hh Ho]. split.
  - intros h t (t0 & Ht & [->| ->])%revoke_where_inv; exact (Hh _ _ Ht).
  - intros h h' t t' (t0 & Ht & [->| ->])%revoke_where_inv (t0' & Ht' & [->| ->])%revoke_where_inv Hf Hl Hl';
      try by destruct Hl. 2: by destruct Hl'. by apply (Ho h h' t0 t0').
Qed.

(** Making a token dead keeps the invariant. *)
Lemma kill_token_ok h t t' db :
  families_ok db → db !! h = Some t → rt_token_hash t' = h → ¬ live t' →
  families_ok (<[h := t']> db).
Proof.
  intros [Hh Ho] Ht Ht' Hdead. split.
  - intros j u [[<- <-]|[_ Hj]]%lookup_insert_Some; [done|by apply Hh].
  - intros j j' u u' [[<- <-]|[Hn Hj]]%lookup_insert_Some [[<- <-]|[Hn' Hj']]%lookup_insert_Some Hf Hl Hl';
      try done. by eapply Ho.
Qed.

Lemma insert_token_ok t db db' :
  families_ok db → insert_token t db = Some db' →
  (∀ h u, db !! h = Some u → rt_family_id u = rt_family_id t → ¬ live u) →
  families_ok db'.
Proof.
  intros [Hh Ho] Hi Hdead. unfold insert_token in Hi.
  destruct (db !! rt_token_hash t) eqn:E; [done|]. injection Hi as <-. split.
  - intros j u [[<- <-]|[_ Hj]]%lookup_insert_Some; [done|by apply Hh].
  - intros j j' u u' [[<- <-]|[Hn Hj]]%lookup_insert_Some [[<- <-]|[Hn' Hj']]%lookup_insert_Some Hf Hl Hl'.
    + done.
    + exfalso. by eapply Hdead.
    + exfalso. by eapply Hdead.
    + by eapply Ho.
Qed.

(** The outcomes of a rotation. *)
Lemma rotate_cases missed now raw new db :
  let '(db', r) := rotate missed now raw new db in
  (db' = db ∧ (∀ x, r ≠ Ret (Some x))) ∨
  (∃ t, db !! sha256_hex raw = Some t ∧ db' = revoke_family missed (rt_family_id t) db ∧ r = Ret None) ∨
  (∃ t, db !! sha256_hex raw = Some t ∧ live t ∧ now ≤ rt_expires_at t ∧
     insert_token (new_token token_seconds now (rt_user_id t) (sha256_hex new) (rt_family_id t))
       (<[sha256_hex raw := t <| rt_is_used := true |>]> db) = Some db' ∧
     r = Ret (Some (new, rt_user_id t, rt_family_id t))).
Proof.
  unfold rotate_refresh_token. destruct (db !! sha256_hex raw) as [t|] eqn:E; [|left; by split].
  destruct (Z.ltb_spec (rt_expires_at t) now) as [|Hexp]; [left; by split|].
  destruct (rt_is_revoked t) eqn:Er; [left; by split|].
  destruct (rt_is_used t) eqn:Eu; [right; left; by exists t|].
  destruct (match family_created_at _ _ with Some _ => _ | None => _ end); [right; left; by exists t|].
  destruct (insert_token _ _) as [db'|] eqn:Ei; [|left; by split].
  right; right. exists t. split_and!; try done.
Qed.

Lemma run_refresh_ok db op : families_ok db → fresh_family db op → families_ok (run_refresh db op).
Proof.
  intros Hok Hf. destruct op as [now u raw f|missed now raw new|raw|missed u]; cbn [run_refresh fresh_family] in *.
  - unfold create_refresh_token. destruct (insert_token _ db) as [db'|] eqn:E; [|done].
    eapply insert_token_ok; [done|exact E|]. intros h t Ht Hfam _. exact (Hf h t Ht Hfam).
  - pose proof (rotate_cases missed now raw new db) as Hc. destruct (rotate missed now raw new db) as [db' r].
    destruct Hc as [[-> _]|[(t & _ & -> & _)|(t & Ht & Hl & _ & Hi & _)]]; [done|by apply revoke_where_ok|].
    pose proof (fam_hash _ Hok _ _ Ht) as Hh.
    eapply insert_token_ok; [|exact Hi|].
    + eapply kill_token_ok; [done|exact Ht|done|]. by intros [? _].
    + intros h t' [[<- <-]|[Hne Ht']]%lookup_insert_Some Hfam; [by intros [? _]|].
      intros Hl'. apply Hne. by eapply (fam_one _ Hok).
  - unfold revoke_refresh_token. destruct (db !! sha256_hex raw) as [t|] eqn:E; [|done].
    eapply kill_token_ok; [done|exact E|exact (fam_hash _ Hok _ _ E)|]. by intros [_ ?].
  - by apply revoke_where_ok.
Qed.

(** Runs of operations, each starting new families with new ids. *)
Fixpoint refresh_run (db : gmap string RefreshToken) (ops : list refresh_op) : Prop :=
  match ops with
  | [] => True
  | op :: ops => fresh_family db op ∧ refresh_run (run_refresh db op) ops
  end.

Lemma run_refreshes_ok ops db :
  families_ok db → refresh_run db ops → families_ok (foldl run_refresh db ops).
Proof.
  revert db. induction ops as [|op ops IH]; intros db Hok; [done|]. intros [Hf Hr]. cbn.
  by apply IH; [apply run_refresh_ok|].
Qed.

(** What later calls may have made of a row: its flags are only ever set. *)
Definition grown (t t' : RefreshToken) : Prop :=
  rt_family_id t' = rt_family_id t ∧ rt_expires_at t' = rt_expires_at t ∧
  (rt_is_used t = true → rt_is_used t' = true) ∧ (rt_is_revoked t = true → rt_is_revoked t' = true).

#[local] Instance grown_preorder : PreOrder grown.
Proof.
  split; [by intros t; split_and!|]. intros t t' t'' (Hf & He & Hu & Hr) (Hf' & He' & Hu' & Hr').
  split_and!; [congruence..|auto|auto].
Qed.

Lemma grown_used t : grown t (t <| rt_is_used := true |>).
Proof. by split_and!. Qed.
Lemma grown_revoked t : grown t (t <| rt_is_revoked := true |>).
Proof. by split_and!. Qed.

Lemma live_before t t' : grown t t' → live t' → live t.
Proof.
  intros (_ & _ & Hu & Hr) [Hu' Hr']. split; apply not_true_iff_false; intros E;
    [rewrite (Hu E) in Hu'|rewrite (Hr E) in Hr']; done.
Qed.

(** From [db] to [db']: no row goes away, and a row of a family that has
    rows is an old one, or was minted from a live token of the family. *)
Definition follows (db db' : gmap string RefreshToken) : Prop :=
  (∀ h t, db !! h = Some t → ∃ t', db' !! h = Some t' ∧ grown t t') ∧
  (∀ h t, db' !! h = Some t →
     (∃ t0, db !! h = Some t0 ∧ grown t0 t) ∨
     (∃ h0 t0, db !! h0 = Some t0 ∧ live t0 ∧ rt_family_id t0 = rt_family_id t) ∨
     (∀ h0 t0, db !! h0 = Some t0 → rt_family_id t0 ≠ rt_family_id t)).

#[local] Instance follows_refl : Reflexive follows.
Proof. intros db. split; intros h t Ht; [by exists t|left; by exists t]. Qed.

Lemma revoke_where_follows missed p db : follows db (revoke_where missed p db).
Proof.
  split; intros h t.
  - intros (t' & Ht' & [->| ->])%(revoke_where_keeps missed p); (eexists; split; [done|]); [done|apply grown_revoked].
  - intros (t0 & Ht0 & [->| ->])%revoke_where_inv; left; exists t0; split; [done|done|done|apply grown_revoked].
Qed.

Lemma put_follows h t t' db : db !! h = Some t → grown t t' → follows db (<[h := t']> db).
Proof.
  intros Ht Hg. split; intros j u Hj.
  - destruct (decide (j = h)) as [->|Hne]; [exists t'; rewrite lookup_insert_eq; by simplify_eq|].
    exists u. by rewrite lookup_insert_ne.
  - left. apply lookup_insert_Some in Hj as [[<- <-]|[_ Hj]]; [by exists t|by exists u].
Qed.

Lemma insert_token_follows t db db' :
  insert_token t db = Some db' →
  ((∃ h0 t0, db !! h0 = Some t0 ∧ live t0 ∧ rt_family_id t0 = rt_family_id t) ∨
   ∀ h0 t0, db !! h0 = Some t0 → rt_family_id t0 ≠ rt_family_id t) →
  follows db db'.
Proof.
  unfold insert_token. destruct (db !! rt_token_hash t) eqn:E; [done|]. intros [= <-] Hsrc. split; intros j u Hj.
  - exists u. split; [|done]. rewrite lookup_insert_ne; [done|congruence].
  - apply lookup_insert_Some in Hj as [[<- <-]|[_ Hj]]; [by right|left; by exists u].
Qed.

Lemma rotate_follows missed now raw new db : follows db (rotate missed now raw new db).1.
Proof.
  pose proof (rotate_cases missed now raw new db) as Hc. destruct (rotate missed now raw new db) as [db' r]. cbn [fst].
  destruct Hc as [[-> _]|[(t & _ & -> & _)|(t & Ht & Hl & _ & Hi & _)]]; [done|by apply revoke_where_follows|].
  unfold insert_token in Hi. destruct (_ !! rt_token_hash _) eqn:E; [done|]. injection Hi as <-.
  cbn [rt_token_hash new_token] in *. split; intros j u Hj.
  - destruct (decide (j = sha256_hex new)) as [->|Hn].
    + rewrite lookup_insert in E. case_decide; [done|congruence].
    + rewrite lookup_insert_ne by done. by apply (put_follows _ _ _ _ Ht (grown_used t)).
  - apply lookup_insert_Some in Hj as [[<- <-]|[_ Hj]]; [right; left; by exists (sha256_hex raw), t|].
    by apply (put_follows _ _ _ _ Ht (grown_used t)).
Qed.

Lemma run_follows db op : fresh_family db op → follows db (run_refresh db op).
Proof.
  destruct op as [now u raw g|missed now raw new|raw|missed u]; cbn [run_refresh fresh_family]; intros Hf.
  - unfold create_refresh_token. destruct (insert_token _ db) as [db'|] eqn:E; [|done].
    eapply insert_token_follows; [exact E|by right].
  - apply rotate_follows.
  - unfold revoke_refresh_token. destruct (db !! sha256_hex raw) as [t|] eqn:E; [|done].
    eapply put_follows; [exact E|apply grown_revoked].
  - apply revoke_where_follows.
Qed.

Lemma rows_grow ops h t db :
  refresh_run db ops → db !! h = Some t → ∃ t', foldl run_refresh db ops !! h = Some t' ∧ grown t t'.
Proof.
  revert db t. induction ops as [|op ops IH]; intros db t Hr Ht; [by exists t|].
  destruct Hr as [Hf Hr]. destruct (proj1 (run_follows db op Hf) h t Ht) as (t1 & Ht1 & Hg1).
  destruct (IH _ t1 Hr Ht1) as (t2 & Ht2 & Hg2). exists t2. split; [done|by etrans].
Qed.

(** A family with tokens and no live one never has one again. *)
Definition family_dead (f : string) (db : gmap string RefreshToken) : Prop :=
  (∃ h t, db !! h = Some t ∧ rt_family_id t = f) ∧
  ∀ h t, db !! h = Some t → rt_family_id t = f → ¬ live t.

Lemma family_dead_runs ops f db :
  family_dead f db → refresh_run db ops → family_dead f (foldl run_refresh db ops).
Proof.
  revert db. induction ops as [|op ops IH]; intros db Hd; [done|]. intros [Hf Hr]. cbn [foldl]. apply IH; [|done].
  destruct Hd as [(h0 & t0 & H0 & Hf0) Hall], (run_follows db op Hf) as [K N]. split.
  - destruct (K _ _ H0) as (t1 & H1 & Hg & _). exists h0, t1. split; [done|congruence].
  - intros h t Ht Hfam Hl. destruct (N h t Ht) as [(t1 & H1 & Hg)|[(h1 & t1 & H1 & Hl1 & Hf1)|Hno]].
    + eapply (Hall h t1 H1); [|by eapply live_before]. destruct Hg as [Hg _]. congruence.
    + eapply (Hall h1 t1 H1); [congruence|done].
    + apply (Hno h0 t0 H0). congruence.
Qed.

(** A token that is not live is refused; a revoked one without a trace. *)
Lemma dead_refused missed now raw new t db :
  db !! sha256_hex raw = Some t → ¬ live t → (rotate missed now raw new db).2 = Ret None.
Proof.
  intros Ht Hd. unfold rotate_refresh_token. rewrite Ht. destruct (_ <? _); [done|].
  destruct (rt_is_revoked t) eqn:Er; [done|]. destruct (rt_is_used t) eqn:Eu; [done|]. by destruct Hd.
Qed.

Lemma revoked_refused missed now raw new t db :
  db !! sha256_hex raw = Some t → rt_is_revoked t = true → rotate missed now raw new db = (db, Ret None).
Proof. intros Ht Hr. unfold rotate_refresh_token. rewrite Ht, Hr. by destruct (_ <? _). Qed.

(** The family's UPDATE revokes every token of it that it sees. *)
Lemma family_seen_revoked missed f db h t :
  revoke_family missed f db !! h = Some t → rt_family_id t = f → h ∉ missed → rt_is_revoked t = true.
Proof.
  intros (t0 & H0 & ->)%lookup_revoke_where Hf Hm. rewrite bool_decide_eq_false_2 in * by done.
  case_bool_decide as Hb; [done|]. by destruct Hb.
Qed.

(** A successful rotation leaves the presented token used. *)
Lemma rotated_is_used missed now raw new x u f db db' :
  rotate missed now raw new db = (db', Ret (Some (x, u, f))) →
  ∃ t, db' !! sha256_hex raw = Some t ∧ rt_is_used t = true ∧ rt_family_id t = f.
Proof.
  intros Hrot. pose proof (rotate_cases missed now raw new db) as Hc. rewrite Hrot in Hc.
  destruct Hc as [[_ Hc]|[(t & _ & _ & [=])|(t & Ht & _ & _ & Hi & [= -> -> ->])]]; [by destruct (Hc (x, u, f))|].
  exists (t <| rt_is_used := true |>). split; [|done]. unfold insert_token in Hi.
  destruct (_ !! rt_token_hash _) eqn:E; [done|]. injection Hi as <-.
  rewrite lookup_insert_ne; [apply lookup_insert_eq|]. intros E'. rewrite E' in E. by rewrite lookup_insert_eq in E.
Qed.

(** C32: a stolen refresh token does not outlive its detection. Once a token
    has been rotated, no later presentation of it, after whatever logins,
    rotations and revocations, is ever answered with a token; and presenting
    it again before it expires or is revoked starts the UPDATE that revokes
    its family. Every token of the family committed before that UPDATE took
    its snapshot is then dead for good, and if no live token of the family was
    committed while it ran (that is, by a rotation concurrent with the replay)
    the whole family is: no token of it, the thief's or the owner's, is ever
    rotated again. Throughout, a family has at most one token that is neither
    used nor revoked. Calls are in the order of their commits, under READ
    COMMITTED, and every UPDATE may miss any set of rows. *)
Theorem replayed_refresh_token_kills_family db0 missed0 now raw new u f db1 ops missed now2 new2 :
  families_ok db0 →
  rotate missed0 now raw new db0 = (db1, Ret (Some (new, u, f))) →
  refresh_run db1 ops →
  let db2 := foldl run_refresh db1 ops in
  let '(db3, r) := rotate missed now2 raw new2 db2 in
  r = Ret None ∧ families_ok db2 ∧
  ((∀ t, db2 !! sha256_hex raw = Some t → now2 ≤ rt_expires_at t ∧ rt_is_revoked t = false) →
   ∀ ops', refresh_run db3 ops' →
   let db4 := foldl run_refresh db3 ops' in
   (∀ missed' now' raw' new' t', db2 !! sha256_hex raw' = Some t' → rt_family_id t' = f → sha256_hex raw' ∉ missed →
      rotate missed' now' raw' new' db4 = (db4, Ret None)) ∧
   ((∀ h t, db2 !! h = Some t → rt_family_id t = f → live t → h ∉ missed) →
    ∀ missed' now' raw' new' t', db4 !! sha256_hex raw' = Some t' → rt_family_id t' = f →
      (rotate missed' now' raw' new' db4).2 = Ret None)).
Proof.
  intros Hok Hrot Hrun db2.
  assert (families_ok db1) as Hok1.
  { pose proof (run_refresh_ok db0 (Rotate missed0 now raw new) Hok I) as H. cbn [run_refresh] in H. by rewrite Hrot in H. }
  assert (families_ok db2) as Hok2 by by apply run_refreshes_ok.
  destruct (rotated_is_used _ _ _ _ _ _ _ _ _ Hrot) as (t & Ht1 & Hu1 & <-).
  destruct (rows_grow ops _ _ db1 Hrun Ht1) as (t2 & Ht2 & Hf2 & _ & Hu2 & _). specialize (Hu2 Hu1). fold db2 in Ht2.
  unfold rotate_refresh_token at 1. rewrite Ht2.
  destruct (Z.ltb_spec (rt_expires_at t2) now2) as [Hexp|Hexp].
  { split_and!; [done|done|]. intros Hv. destruct (Hv t2 eq_refl). lia. }
  destruct (rt_is_revoked t2) eqn:Er.
  { split_and!; [done|done|]. intros Hv. destruct (Hv t2 eq_refl). congruence. }
  rewrite Hu2, Hf2. split_and!; [done|done|]. intros _ ops' Hrun'. split.
  - intros missed' now' raw' new' t' Ht' Hf' Hm.
    destruct (revoke_where_keeps missed (λ t', bool_decide (rt_family_id t' = rt_family_id t)) _ _ _ Ht') as (t3 & Ht3 & Hc3).
    assert (rt_is_revoked t3 = true) as Hr3.
    { eapply (family_seen_revoked missed); [exact Ht3| |done]. by destruct Hc3 as [->| ->]. }
    destruct (rows_grow ops' _ _ _ Hrun' Ht3) as (t4 & Ht4 & _ & _ & _ & Hr4). by eapply revoked_refused, Hr4.
  - intros Hmiss missed' now' raw' new' t' Ht' Hf'. eapply dead_refused; [exact Ht'|].
    refine (proj2 (family_dead_runs ops' _ _ _ Hrun') _ _ Ht' Hf'). split.
    + destruct (revoke_where_keeps missed (λ t', bool_decide (rt_family_id t' = rt_family_id t)) _ _ _ Ht2) as (t3 & Ht3 & Hc3).
      eexists _, t3. split; [exact Ht3|]. by destruct Hc3 as [->| ->].
    + intros h x Hx Hfx Hl. destruct (decide (h ∈ missed)) as [Hin|Hm].
      * destruct (revoke_where_inv _ _ _ _ _ Hx) as (x0 & Hx0 & [->| ->]); [|by destruct Hl].
        by apply (Hmiss h x0 Hx0 Hfx Hl).
      * destruct Hl as [_ Hl]. by rewrite (family_seen_revoked _ _ _ _ _ Hx Hfx Hm) in Hl.
Qed.
End refresh.

Definition login_then_theft : list refresh_op :=
  [Rotate ∅ (seconds 20) "b" "c"; Create (seconds 30) "u" "d" "G"; RevokeUser ∅ "w"].

Lemma replayed_refresh_token_kills_family_witness :
  let rotate := rotate_refresh_token (String.append "#") 1000 2000 ∅ in
  let run := run_refresh (String.append "#") 1000 2000 in
  let db0 := run ∅ (Create 0 "u" "a" "F") in
  let db2 := foldl run (rotate (seconds 10) "a" "b" db0).1 login_then_theft in
  let db3 := (rotate (seconds 40) "a" "x" db2).1 in
  (rotate (seconds 10) "a" "b" db0).2 = Ret (Some ("b", "u", "F")) ∧ (rotate (seconds 40) "a" "x" db2).2 = Ret None ∧
  rotate (seconds 50) "c" "y" db3 = (db3, Ret None).
Proof.
  intros rotate run db0 db2 db3.
  assert (families_ok db0) as Hok.
  { apply run_refresh_ok; [|intros h t E; by rewrite lookup_empty in E].
    split; [intros h t E|intros h h' t t' E]; by rewrite lookup_empty in E. }
  assert ((rotate (seconds 10) "a" "b" db0).2 = Ret (Some ("b", "u", "F"))) as Hr by (vm_compute; reflexivity).
  assert (refresh_run (String.append "#") 1000 2000 (rotate (seconds 10) "a" "b" db0).1 login_then_theft) as Hrun.
  { split; [exact I|split; [|split; exact I]].
    assert (map_Forall (λ _ t, rt_family_id t ≠ "G") (run (rotate (seconds 10) "a" "b" db0).1 (Rotate ∅ (seconds 20) "b" "c")))
      as Hall by (refine (bool_decide_unpack _ _); vm_compute; exact I).
    intros h t Ht. exact (Hall h t Ht). }
  assert (db2 !! ("#" +:+ "a") = Some (mkRefreshToken "u" "#a" "F" true false 0 (seconds 1000))) as Ha by (vm_compute; reflexivity).
  assert (db2 !! ("#" +:+ "c") = Some (mkRefreshToken "u" "#c" "F" false false (seconds 20) (seconds 1020))) as Hc
    by (vm_compute; reflexivity).
  pose proof (replayed_refresh_token_kills_family (String.append "#") 1000 2000 db0 ∅ (seconds 10) "a" "b" "u" "F"
    (rotate (seconds 10) "a" "b" db0).1 login_then_theft ∅ (seconds 40) "x" Hok) as T.
  rewrite <-Hr in T. fold (rotate (seconds 10) "a" "b" db0) in T. rewrite <-surjective_pairing in T. specialize (T eq_refl Hrun).
  cbv zeta in T. fold rotate run in T. fold (rotate (seconds 10)) in T. fold db2 in T. fold (rotate (seconds 40) "a" "x" db2) in T.
  rewrite (surjective_pairing (rotate (seconds 40) "a" "x" db2)) in T. cbv beta iota in T.
  destruct T as (Hr2 & _ & Hdead). split; [exact Hr|split; [exact Hr2|]].
  assert (∀ t, db2 !! ("#" +:+ "a") = Some t → seconds 40 ≤ rt_expires_at t ∧ rt_is_revoked t = false) as Hv.
  { intros t. rewrite Ha. intros [= <-]. by split. }
  destruct (Hdead Hv [] I) as [Hseen _].
  assert ("#" +:+ "c" ∉ (∅ : gset string)) as Hnew by apply not_elem_of_empty.
  cbn [foldl] in Hseen. fold db3 in Hseen. clearbody db3 db2.
  exact (Hseen ∅ (seconds 50) "c" "y" _ Hc eq_refl Hnew).
Defined.

(** What the row lock does not prevent: a replay of the used token [a] starts
    its family UPDATE while a rotation of the live token [b] holds [b]'s lock;
    the rotation commits its child [c], which the UPDATE does not see, and [c]
    is rotated afterwards. *)
Lemma concurrent_rotation_escapes_revocation :
  let rotate := rotate_refresh_token (String.append "#") 1000 2000 in
  let run := foldl (run_refresh (String.append "#") 1000 2000) in
  let db := run ∅ [Create 0 "u" "a" "F"; Rotate ∅ (seconds 10) "a" "b"; Rotate ∅ (seconds 20) "b" "c"] in
  let db' := (rotate {["#c"]} (seconds 20) "a" "x" db).1 in
  rt_is_revoked <$> (db' !! "#b") = Some true ∧
  (rotate ∅ (seconds 30) "c" "d" db').2 = Ret (Some ("d", "u", "F")).
Proof. vm_compute. done. Qed.

(** ** The cache of verified access tokens *)

Section cache.
Variable jwt_decode : Z → string → option Claims.

(** Time changes the answer for a token only through its expiry. *)
Hypothesis jwt_time : ∀ t t' token c,
  jwt_decode t token = Some c → t ≤ t' → jwt_decode t' token = if expired_claims t' c then None else Some c.

(** What is cached was verified at an earlier time. *)
Definition cache_ok (now : Z) (cache : list (string * Claims)) : Prop :=
  ∀ kv, kv ∈ cache → ∃ t, t ≤ now ∧ jwt_decode t kv.1 = Some kv.2.

Lemma cache_ok_sub now cache cache' : (∀ kv, kv ∈ cache' → kv ∈ cache) → cache_ok now cache → cache_ok now cache'.
Proof. intros Hsub Hok kv Hin. by apply Hok, Hsub. Qed.

Lemma decode_step now token cache :
  cache_ok now cache →
  let '(cache', r) := decode_access_token jwt_decode now token cache in
  r = jwt_decode now token ∧ cache_ok now cache'.
Proof.
  intros Hok. unfold decode_access_token. destruct (od_get token cache) as [payload|] eqn:E.
  - destruct (Hok _ (od_get_in _ _ _ E)) as (t & Ht & Hd). cbn [fst snd] in Hd.
    rewrite (jwt_time _ _ _ _ Hd Ht). destruct (expired_claims now payload); [|done].
    split; [done|]. eapply cache_ok_sub, Hok. by intros kv [_ ?]%od_pop_in.
  - destruct (jwt_decode now token) as [payload|] eqn:Hd; [|done]. split; [done|].
    assert (cache_ok now (od_put token payload (od_expire (expired_claims now) cache))) as Hput.
    { intros kv [->|Hin]%od_put_in; [by exists now|].
      apply Hok. destruct (od_expire_suffix (expired_claims now) cache) as (l0 & -> & _).
      apply elem_of_app. by right. }
    destruct (_ <? _); [|done]. eapply cache_ok_sub, Hput. intros kv Hin.
    destruct (od_put _ _ _); [done|by right].
Qed.

(** A sequence of requests, each at its time. *)
Fixpoint decode_all (queries : list (Z * string)) (cache : list (string * Claims)) : list (option Claims) :=
  match queries with
  | [] => []
  | (now, token) :: queries =>
      let '(cache, r) := decode_access_token jwt_decode now token cache in
      r :: decode_all queries cache
  end.

Lemma decode_all_from queries t0 cache :
  cache_ok t0 cache → StronglySorted Z.le (t0 :: queries.*1) →
  decode_all queries cache = (λ q, jwt_decode q.1 q.2) <$> queries.
Proof.
  revert t0 cache. induction queries as [|[now token] queries IH]; intros t0 cache Hok Hs; [done|].
  cbn [fmap list_fmap fst] in Hs. apply StronglySorted_inv in Hs as [Hs H0].
  apply Forall_cons_1 in H0 as [Ht0 _].
  assert (cache_ok now cache) as Hok'.
  { intros kv Hin. destruct (Hok kv Hin) as (t & Ht & Hd). exists t. split; [lia|done]. }
  pose proof (decode_step now token cache Hok') as Hstep. cbn [decode_all].
  destruct (decode_access_token jwt_decode now token cache) as [cache' r]. destruct Hstep as [-> Hc].
  cbn [fmap list_fmap fst snd]. f_equal. by eapply IH.
Qed.

(** The cache of verified tokens never changes an answer: for any requests
    in the order of their times, from an empty cache, every answer is what
    verifying the token afresh at that moment would give, whatever has been
    cached, has expired or was pushed out. *)
Theorem token_cache_transparent queries :
  StronglySorted Z.le queries.*1 →
  decode_all queries [] = (λ q, jwt_decode q.1 q.2) <$> queries.
Proof.
  intros Hs. destruct queries as [|[now token] queries]; [done|].
  apply (decode_all_from _ now); [by intros kv ?%not_elem_of_nil|].
  cbn [fmap list_fmap fst] in *. constructor; [done|]. apply StronglySorted_inv in Hs as [_ Hs]. by constructor.
Qed.
End cache.

(** Tokens that name their expiry by their length. *)
Definition jwt_sample (now : Z) (token : string) : option Claims :=
  let c := mkClaims token (Z.of_nat (String.length token)) JNull in
  if expired_claims now c then None else Some c.

Lemma token_cache_transparent_witness :
  decode_all jwt_sample [(seconds 1, "abc"); (seconds 2, "abc"); (seconds 2, "toolong"); (seconds 3, "abc")] [] =
  [Some (mkClaims "abc" 3 JNull); Some (mkClaims "abc" 3 JNull); Some (mkClaims "toolong" 7 JNull); None].
Proof.
  assert (∀ t t' token c, jwt_sample t token = Some c → t ≤ t' →
            jwt_sample t' token = if expired_claims t' c then None else Some c) as Htime.
  { intros t t' token c. unfold jwt_sample. destruct (expired_claims t _); [done|]. by intros [= <-] _. }
  refine (eq_trans (token_cache_transparent jwt_sample Htime _ _) _); [|reflexivity].
  repeat (apply SSorted_cons || apply SSorted_nil || apply Forall_cons_2 || apply Forall_nil_2); vm_compute; discriminate.
Defined.

(** ** CSRF tokens *)

Section csrf.
Variable csrf_mac : string → string.
Variable urlsafe_b64encode : string → string.
Variable urlsafe_b64decode : string → option string.
Hypothesis b64_roundtrip : ∀ s, urlsafe_b64decode (urlsafe_b64encode s) = Some s.

(** Hexadecimal digits. *)
Definition is_hex (c : ascii) : bool := is_digit c || ((97 <=? nat_of_ascii c) && (nat_of_ascii c <=? 102))%nat.
Hypothesis mac_hex : ∀ s, all_chars is_hex (csrf_mac s) = true.

#[local] Abbreviation generate := (generate_csrf_token csrf_mac urlsafe_b64encode).
#[local] Abbreviation verify := (verify_csrf_token csrf_mac urlsafe_b64decode).

Lemma all_chars_substring p n m s : all_chars p s = true → all_chars p (String.substring n m s) = true.
Proof.
  revert n m. induction s as [|c s IH]; intros n m; [by destruct n, m|]. cbn [all_chars].
  intros [Hc Hs]%andb_prop. destruct n as [|n]; [destruct m as [|m]|]; cbn [String.substring all_chars].
  - done.
  - by rewrite Hc, IH.
  - by apply IH.
Qed.

Lemma signature_plain payload :
  is_ascii (csrf_signature csrf_mac payload) = true ∧ no_colon (csrf_signature csrf_mac payload) = true.
Proof.
  pose proof (all_chars_substring _ 0 32 _ (mac_hex payload)) as Hs. unfold csrf_signature.
  rewrite is_ascii_all. split; (eapply all_chars_impl; [|exact Hs]); intros c Hc.
  - apply Nat.ltb_lt. unfold is_hex, is_digit in Hc. apply orb_prop in Hc as [Hc|Hc]; apply andb_prop in Hc as [_ Hc%Nat.leb_le]; lia.
  - destruct (is_colon c) eqn:E; [|done]. by apply bool_decide_eq_true in E as ->.
Qed.

(** A CSRF token is good for its own session and its lifetime only. The
    token generated for a session at [t0] is accepted at [now] for session
    [s'] exactly when [s'] is that session and the token, dated to the whole
    second, is at most [max_age] old; and no token is accepted unless it ends
    in the truncated MAC of what precedes its last colon. *)
Theorem csrf_token_bound t0 s now s' max_age :
  is_ascii s = true → is_ascii s' = true →
  verify now (generate t0 s) (Some s') max_age =
    bool_decide (s = s' ∧ now - seconds (t0 / seconds 1) ≤ seconds max_age) ∧
  ∀ token sid, verify now token sid max_age = true →
    ∃ payload, urlsafe_b64decode token = Some (payload +:+ ":" +:+ csrf_signature csrf_mac payload).
Proof.
  intros Hs Hs'. split.
  - unfold verify_csrf_token, generate_csrf_token. rewrite b64_roundtrip. cbn [mbind option_bind].
    set (payload := s +:+ ":" +:+ pretty (t0 / seconds 1)). destruct (signature_plain payload) as [Ha Hc].
    rewrite rsplit_colon_app by done. unfold compare_digest at 1. rewrite Ha. cbn [andb].
    rewrite bool_decide_true by done. unfold payload at 1.
    rewrite rsplit_colon_app by apply no_colon_pretty. rewrite py_int_pretty.
    destruct (Z.ltb_spec (seconds max_age) (now - seconds (t0 / seconds 1))).
    + symmetry. apply bool_decide_eq_false. lia.
    + unfold compare_digest. rewrite Hs, Hs'. cbn [andb default from_option id].
      apply bool_decide_ext. split; [done|by intros [? _]].
  - intros token sid. unfold verify_csrf_token. destruct (urlsafe_b64decode token) as [d|] eqn:E; [|done].
    cbn [mbind option_bind]. destruct (rsplit_colon d) as [[payload sig]|] eqn:Er; [|done].
    unfold compare_digest at 1. destruct (_ && _); [|done]. case_bool_decide as Hsig; [|done]. intros _.
    exists payload. f_equal. rewrite <-Hsig. by apply rsplit_colon_eq.
Qed.
End csrf.

Lemma csrf_token_bound_witness :
  verify_csrf_token (λ _, "c0ffee") Some (seconds 1000)
    (generate_csrf_token (λ _, "c0ffee") id (seconds 1 * 5 + 7) "session-1") (Some "session-1") 995 = true.
Proof.
  destruct (csrf_token_bound (λ _, "c0ffee") id Some ltac:(done) ltac:(done) (seconds 1 * 5 + 7) "session-1" (seconds 1000) "session-1" 995
    eq_refl eq_refl) as [H _].
  rewrite H. reflexivity.
Defined.
