(* ===== verification/MessageProtocol.v ===== *)
(** backend/crypto/message_protocol.py: per-message AES-256-GCM with sequence
    numbers. Bytes are strings of 8-bit characters. The cipher and the key
    derivation are the library's; everything the session decides itself is
    modelled: the associated data, the replay window and its pruning. *)

From S2P Require Import Prelude.
From Stdlib Require Import Ascii.
#[local] Open Scope Z_scope.

(** [struct.pack(">Q", seq)]: eight bytes, most significant first. *)
Definition byte_of (z : Z) : ascii := ascii_of_N (Z.to_N (z mod 256)).
Fixpoint big_endian (n : nat) (z : Z) : string :=
  match n with
  | O => EmptyString
  | S n => big_endian n (z / 256) +:+ String (byte_of z) EmptyString
  end.
Definition pack_u64 (seq : Z) : option string :=
  if (0 <=? seq) && (seq <? 2 ^ 64) then Some (big_endian 8 seq) else None.

Record AEADEnvelope := mkEnvelope {
  env_session_id : string;
  env_sequence_number : Z;
  env_nonce : string;
  env_ciphertext : string
}.

Inductive SessionError :=
| ReplayError (message : string) (seq : Z)
| AuthenticationError
| StructError                           (* the number does not fit in 64 bits *)
| ShortKey.

Record AEADSession := mkSession {
  as_session_id : string;
  as_enc_key : string;
  as_send_seq : Z;
  as_recv_seq : Z;
  as_seen_seqs : gset Z;
  as_max_seen_seq : Z
}.
#[global] Instance eta_AEADSession : Eta AEADSession := λ s,
  mkSession (as_session_id s) (as_enc_key s) (as_send_seq s) (as_recv_seq s) (as_seen_seqs s)
    (as_max_seen_seq s).

Section session.
(** [HKDF(SHA256, 32, salt=None, info="qs-aead-encryption-v1").derive]. *)
Variable hkdf : string → string.
(** [AESGCM(key).encrypt(nonce, data, aad)], and [decrypt], which raises on a
    ciphertext that does not authenticate. *)
Variable gcm_encrypt : string → string → string → string → string.
Variable gcm_decrypt : string → string → string → string → option string.

Definition new_session (session_id session_key : string) : outcome SessionError AEADSession :=
  let! _ := raise_if (String.length session_key <? 32)%nat ShortKey in
  Ret (mkSession session_id (hkdf session_key) 0 0 ∅ (-1)).

(** [_build_aad] *)
Definition build_aad (s : AEADSession) (seq : Z) : option string :=
  (λ packed, as_session_id s +:+ packed) <$> pack_u64 seq.

(** [encrypt]; [nonce] is what [os.urandom(12)] returned. *)
Definition encrypt (nonce plaintext : string) : prog AEADSession SessionError AEADEnvelope :=
  s ← pget;
  let seq := as_send_seq s in
  _ ← pmodify (λ s, s <| as_send_seq ::= Z.add 1 |>);
  match build_aad s seq with
  | None => praise StructError
  | Some aad =>
      mret (mkEnvelope (as_session_id s) seq nonce (gcm_encrypt (as_enc_key s) nonce plaintext aad))
  end.

(** Sequence numbers old enough to be refused without a record are dropped. *)
Definition prune_seen (s : AEADSession) : AEADSession :=
  if (2000 <? Z.of_nat (size (as_seen_seqs s))) then
    let cutoff := as_max_seen_seq s - 1000 in
    s <| as_seen_seqs ::= filter (λ n, cutoff ≤ n) |>
  else s.

Definition accept (seq : Z) (s : AEADSession) : AEADSession :=
  prune_seen (s <| as_seen_seqs ::= λ m, {[seq]} ∪ m |>
                <| as_max_seen_seq ::= λ m, if m <? seq then seq else m |>).

(** [decrypt] *)
Definition decrypt (envelope : AEADEnvelope) : prog AEADSession SessionError string :=
  s ← pget;
  let seq := env_sequence_number envelope in
  if bool_decide (seq ∈ as_seen_seqs s) then praise (ReplayError "already received (replay)" seq)
  else if seq <? as_max_seen_seq s - 1000 then praise (ReplayError "too old" seq)
  else
    match build_aad s seq with
    | None => praise StructError
    | Some aad =>
        match gcm_decrypt (as_enc_key s) (env_nonce envelope) (env_ciphertext envelope) aad with
        | None => praise AuthenticationError
        | Some plaintext =>
            _ ← pmodify (accept seq);
            mret plaintext
        end
    end.

(** [check_gap] *)
Definition check_gap (s : AEADSession) (received_seq : Z) : list Z :=
  if as_max_seen_seq s <? 0 then []
  else
    filter (λ n, n ∉ as_seen_seqs s)
      (seqZ (as_max_seen_seq s + 1) (received_seq - (as_max_seen_seq s + 1))).
End session.

(** ** The replay window *)

(** What the window remembers about the accepted numbers [acc]. *)
Record window_ok (acc : gset Z) (s : AEADSession) : Prop := {
  window_seen : as_seen_seqs s ⊆ acc;
  window_max : ∀ n, n ∈ acc → n ≤ as_max_seen_seq s;
  window_forgotten : ∀ n, n ∈ acc → n ∈ as_seen_seqs s ∨ n < as_max_seen_seq s - 1000;
  window_top : as_max_seen_seq s = -1 ∨ as_max_seen_seq s ∈ acc;
  window_size : Z.of_nat (size (as_seen_seqs s)) ≤ 2000
}.

Lemma accept_window acc seq s :
  window_ok acc s → as_max_seen_seq s - 1000 ≤ seq → window_ok ({[seq]} ∪ acc) (accept seq s).
Proof.
  intros [Hs Hm Hf Ht Hz] Hseq.
  set (s1 := s <| as_seen_seqs ::= (λ m, {[seq]} ∪ m) |>
               <| as_max_seen_seq ::= (λ m, if m <? seq then seq else m) |>).
  assert (as_max_seen_seq s1 = Z.max (as_max_seen_seq s) seq) as Hmax.
  { cbn. destruct (Z.ltb_spec (as_max_seen_seq s) seq); lia. }
  assert (as_seen_seqs s1 = {[seq]} ∪ as_seen_seqs s) as Hseen by done.
  assert (∀ n, n ∈ {[seq]} ∪ acc → n ≤ as_max_seen_seq s1) as Hm1.
  { intros n [->%elem_of_singleton|Hn%Hm]%elem_of_union; lia. }
  assert (∀ n, n ∈ {[seq]} ∪ acc → n ∈ as_seen_seqs s1 ∨ n < as_max_seen_seq s1 - 1000) as Hf1.
  { intros n [->%elem_of_singleton|Hn]%elem_of_union; [left; set_solver|].
    destruct (Hf n Hn); [left; set_solver|right; lia]. }
  assert (as_max_seen_seq s1 = -1 ∨ as_max_seen_seq s1 ∈ {[seq]} ∪ acc) as Ht1.
  { cbn. destruct (Z.ltb_spec (as_max_seen_seq s) seq); [right; set_solver|].
    destruct Ht as [?|?]; [by left|right; set_solver]. }
  unfold accept. fold s1. unfold prune_seen.
  destruct (Z.ltb_spec 2000 (Z.of_nat (size (as_seen_seqs s1)))) as [Hbig|Hsmall].
  - constructor; cbn [as_seen_seqs as_max_seen_seq set_field].
    + set_solver.
    + done.
    + intros n Hn. destruct (Hf1 n Hn) as [Hin|]; [|by right].
      destruct (decide (as_max_seen_seq s1 - 1000 ≤ n)); [left; set_solver|right; lia].
    + done.
    + (* what survives lies in a range of 1001 numbers *)
      assert (filter (λ n, as_max_seen_seq s1 - 1000 ≤ n) (as_seen_seqs s1)
              ⊆ list_to_set (seqZ (as_max_seen_seq s1 - 1000) 1001)) as Hsub.
      { intros n [Hlo Hn]%elem_of_filter. apply elem_of_list_to_set, elem_of_seqZ.
        specialize (Hm1 n ltac:(set_solver)). lia. }
      apply subseteq_size in Hsub. rewrite size_list_to_set, length_seqZ in Hsub by apply NoDup_seqZ. lia.
  - constructor; [set_solver|done|done|done|lia].
Qed.

(** Everything a session can be asked to do. *)
Inductive session_op :=
| OpEncrypt (nonce plaintext : string)
| OpDecrypt (envelope : AEADEnvelope).

Section protocol.
Variable hkdf : string → string.
Variable gcm_encrypt : string → string → string → string → string.
Variable gcm_decrypt : string → string → string → string → option string.

(** Run a history, collecting the accepted sequence numbers. *)
Definition run_session_op (st : gset Z * AEADSession) (op : session_op) : gset Z * AEADSession :=
  let '(acc, s) := st in
  match op with
  | OpEncrypt nonce p => (acc, (encrypt gcm_encrypt nonce p s).1)
  | OpDecrypt e =>
      match decrypt gcm_decrypt e s with
      | (s, Ret _) => ({[env_sequence_number e]} ∪ acc, s)
      | (s, Raise _) => (acc, s)
      end
  end.

Lemma decrypt_cases e s :
  (∃ err, decrypt gcm_decrypt e s = (s, Raise err)) ∨
  (∃ p, (env_sequence_number e ∉ as_seen_seqs s) ∧
        as_max_seen_seq s - 1000 ≤ env_sequence_number e ∧
        decrypt gcm_decrypt e s = (accept (env_sequence_number e) s, Ret p)).
Proof.
  unfold decrypt, mbind, prog_bind, pget, praise, pmodify, mret, prog_ret.
  case_bool_decide; [by eauto|]. destruct (Z.ltb_spec (env_sequence_number e) (as_max_seen_seq s - 1000));
    [by eauto|].
  destruct (build_aad s _); [|by eauto]. destruct (gcm_decrypt _ _ _ _); [|by eauto].
  right. eexists. split_and!; [done|lia|reflexivity].
Qed.

Lemma encrypt_window acc nonce p s :
  window_ok acc s → window_ok acc (encrypt gcm_encrypt nonce p s).1.
Proof.
  intros [Hs Hm Hf Ht Hz]. unfold encrypt, mbind, prog_bind, pget, pmodify, praise, mret, prog_ret.
  by destruct (build_aad s _).
Qed.

Lemma run_session_window ops acc s :
  window_ok acc s →
  let '(acc', s') := foldl run_session_op (acc, s) ops in window_ok acc' s' ∧ acc ⊆ acc'.
Proof.
  revert acc s; induction ops as [|op ops IH]; intros acc s Hw; cbn [foldl]; [done|].
  destruct op as [nonce p|e]; cbn [run_session_op].
  - by apply IH, encrypt_window.
  - destruct (decrypt_cases e s) as [[err ->]|(p & Hn & Hlo & ->)]; [by apply IH|].
    specialize (IH _ _ (accept_window acc _ s Hw Hlo)).
    destruct (foldl _ _ ops). destruct IH as [? ?]. split; [done|set_solver].
Qed.

Lemma new_session_window id key s : new_session hkdf id key = Ret s → window_ok ∅ s.
Proof.
  unfold new_session. intros E. inv_ret. injection E as <-. constructor; cbn; [done|set_solver|set_solver|by left|].
  rewrite size_empty. lia.
Qed.

(** A number accepted once is refused from then on. *)
Lemma accepted_refused acc s e :
  window_ok acc s → env_sequence_number e ∈ acc →
  ∃ m, decrypt gcm_decrypt e s = (s, Raise (ReplayError m (env_sequence_number e))).
Proof.
  intros [Hs Hm Hf Ht Hz] Hin. unfold decrypt, mbind, prog_bind, pget, praise.
  case_bool_decide; [by eauto|]. destruct (Hf _ Hin) as [|Hold]; [done|].
  rewrite (proj2 (Z.ltb_lt _ _) Hold). by eauto.
Qed.

(** A message that was not accepted before and is not too old is judged by
    the cipher alone. *)
Lemma fresh_decrypt s e aad p :
  env_sequence_number e ∉ as_seen_seqs s → as_max_seen_seq s - 1000 ≤ env_sequence_number e →
  build_aad s (env_sequence_number e) = Some aad →
  gcm_decrypt (as_enc_key s) (env_nonce e) (env_ciphertext e) aad = Some p →
  decrypt gcm_decrypt e s = (accept (env_sequence_number e) s, Ret p).
Proof.
  intros Hn Hlo Ha Hg. unfold decrypt, mbind, prog_bind, pget, pmodify, mret, prog_ret.
  rewrite bool_decide_eq_false_2 by done. rewrite (proj2 (Z.ltb_ge _ _) Hlo). by rewrite Ha, Hg.
Qed.

(** Replay protection. After any history of sends and receipts of a new
    session, with [acc] the sequence numbers accepted in it: an envelope whose
    number is in [acc], however re-encrypted, raises [ReplayError] and leaves
    the session as it was; an envelope whose number is not in [acc] and not
    more than 1000 behind the newest is accepted if and only if the cipher
    authenticates it with the session id and that number; and the session
    remembers at most 2000 numbers. *)
Theorem sequence_accepted_once id key s0 history e :
  new_session hkdf id key = Ret s0 →
  let '(acc, s) := foldl run_session_op (∅, s0) history in
  Z.of_nat (size (as_seen_seqs s)) ≤ 2000 ∧
  (env_sequence_number e ∈ acc →
   ∃ m, decrypt gcm_decrypt e s = (s, Raise (ReplayError m (env_sequence_number e)))) ∧
  (env_sequence_number e ∉ acc → as_max_seen_seq s - 1000 ≤ env_sequence_number e →
   ∀ p, (decrypt gcm_decrypt e s).2 = Ret p ↔
        ∃ aad, build_aad s (env_sequence_number e) = Some aad ∧
               gcm_decrypt (as_enc_key s) (env_nonce e) (env_ciphertext e) aad = Some p).
Proof.
  intros Hnew. pose proof (run_session_window history ∅ s0 (new_session_window _ _ _ Hnew)) as Hw.
  destruct (foldl run_session_op (∅, s0) history) as [acc s]. destruct Hw as [Hw _].
  split_and!; [apply Hw|by apply accepted_refused|]. intros Hn Hlo p.
  assert (env_sequence_number e ∉ as_seen_seqs s) as Hseen by (intros ?; by apply Hn, (window_seen _ _ Hw)).
  split.
  - unfold decrypt, mbind, prog_bind, pget, praise, pmodify, mret, prog_ret.
    rewrite bool_decide_eq_false_2 by done. rewrite (proj2 (Z.ltb_ge _ _) Hlo).
    destruct (build_aad s _) as [aad|]; [|done]. destruct (gcm_decrypt _ _ _ aad) as [q|] eqn:Eg; [|done].
    intros [= <-]. by exists aad.
  - intros (aad & Ha & Hg). by rewrite (fresh_decrypt s e aad p).
Qed.

(** ** Delivery *)

(** Every message of a list, sent in order. *)
Fixpoint send_all (msgs : list (string * string)) (s : AEADSession)
    : AEADSession * list (AEADEnvelope * string) :=
  match msgs with
  | [] => (s, [])
  | (nonce, p) :: msgs =>
      match encrypt gcm_encrypt nonce p s with
      | (s, Ret e) => let '(s, es) := send_all msgs s in (s, (e, p) :: es)
      | (s, Raise _) => let '(s, es) := send_all msgs s in (s, es)
      end
  end.

Fixpoint receive_all (es : list AEADEnvelope) (s : AEADSession)
    : AEADSession * list (outcome SessionError string) :=
  match es with
  | [] => (s, [])
  | e :: es =>
      let '(s, r) := decrypt gcm_decrypt e s in
      let '(s, rs) := receive_all es s in (s, r :: rs)
  end.

(** Envelopes arrive once each, at most 1000 behind the newest before them. *)
Fixpoint in_window (newest : Z) (arrived : gset Z) (es : list AEADEnvelope) : Prop :=
  match es with
  | [] => True
  | e :: es =>
      let n := env_sequence_number e in
      (n ∉ arrived) ∧ newest - 1000 ≤ n ∧ in_window (Z.max newest n) ({[n]} ∪ arrived) es
  end.

(** The documented law of the cipher. *)
Hypothesis gcm_round_trip : ∀ key nonce p aad,
  gcm_decrypt key nonce (gcm_encrypt key nonce p aad) aad = Some p.

(** What an envelope of a sender with this id and key decrypts to. *)
Definition genuine (id key : string) (ep : AEADEnvelope * string) : Prop :=
  ∃ packed, pack_u64 (env_sequence_number ep.1) = Some packed ∧
    env_ciphertext ep.1 = gcm_encrypt key (env_nonce ep.1) ep.2 (id +:+ packed).

Lemma send_all_genuine msgs s :
  Forall (genuine (as_session_id s) (as_enc_key s)) (send_all msgs s).2.
Proof.
  revert s; induction msgs as [|[nonce p] msgs IH]; intros s; cbn [send_all]; [by constructor|].
  unfold encrypt, mbind, prog_bind, pget, pmodify, praise, mret, prog_ret, build_aad.
  specialize (IH (s <| as_send_seq ::= Z.add 1 |>)).
  change (pack_u64 (as_send_seq s)) with (pack_u64 (env_sequence_number
    (mkEnvelope (as_session_id s) (as_send_seq s) nonce ""))).
  destruct (pack_u64 _) as [packed|] eqn:Ep; cbn [fmap option_fmap option_map];
    destruct (send_all msgs _) as [s' es]; [|exact IH].
  constructor; [|exact IH]. by exists packed.
Qed.

Lemma receive_window es s acc :
  window_ok acc s → Forall (genuine (as_session_id s) (as_enc_key s)) es →
  in_window (as_max_seen_seq s) acc es.*1 →
  (receive_all es.*1 s).2 = map (λ ep, Ret ep.2) es.
Proof.
  revert s acc; induction es as [|[e p] es IH]; intros s acc Hw Hg Hin; [done|].
  apply Forall_cons in Hg as [(packed & Hp & Hc) Hg]. cbn [fst snd] in Hp, Hc.
  destruct Hin as (Hn & Hlo & Hin). cbn [fst snd] in Hn, Hlo, Hin. cbn [fmap list_fmap receive_all map fst snd].
  assert (env_sequence_number e ∉ as_seen_seqs s) as Hseen by (intros ?; by apply Hn, (window_seen _ _ Hw)).
  rewrite (fresh_decrypt s e (as_session_id s +:+ packed) p); [|done|done| |].
  - pose proof (accept_window acc _ s Hw Hlo) as Hw'.
    assert (as_max_seen_seq (accept (env_sequence_number e) s)
            = Z.max (as_max_seen_seq s) (env_sequence_number e)) as Hmax.
    { unfold accept, prune_seen. destruct (Z.ltb 2000 _); cbn;
        destruct (Z.ltb_spec (as_max_seen_seq s) (env_sequence_number e)); lia. }
    assert (as_session_id (accept (env_sequence_number e) s) = as_session_id s ∧
            as_enc_key (accept (env_sequence_number e) s) = as_enc_key s) as [Hid Hkey].
    { unfold accept, prune_seen. by destruct (Z.ltb 2000 _). }
    specialize (IH _ _ Hw'). rewrite Hmax, Hid, Hkey in IH. specialize (IH Hg Hin).
    destruct (receive_all es.*1 _) as [s' rs]. cbn in IH |- *. by rewrite IH.
  - unfold build_aad. by rewrite Hp.
  - rewrite Hc. apply gcm_round_trip.
Qed.

(** What is sent is what is received. Two sessions with the same id and
    key agree: whatever selection of the sender's messages arrives, in
    whatever order, each at most 1000 behind the newest, decrypts to exactly
    the plaintexts that were sent, in the order of arrival. *)
Theorem messages_round_trip id key sender receiver msgs arrived :
  new_session hkdf id key = Ret sender → new_session hkdf id key = Ret receiver →
  (∀ ep, ep ∈ arrived → ep ∈ (send_all msgs sender).2) →
  in_window (-1) ∅ arrived.*1 →
  (receive_all arrived.*1 receiver).2 = map (λ ep, Ret ep.2) arrived.
Proof.
  intros Hs Hr Hsub Hin. rewrite Hs in Hr. injection Hr as <-.
  assert (as_max_seen_seq sender = -1) as Hmax.
  { unfold new_session in Hs. inv_ret. by injection Hs as <-. }
  apply (receive_window arrived sender ∅); [by eapply new_session_window| |by rewrite Hmax].
  pose proof (send_all_genuine msgs sender) as Hg. rewrite Forall_forall in Hg |- *. auto.
Qed.
End protocol.

(** A stand-in cipher that authenticates: the ciphertext carries its key,
    nonce and associated data. *)
Definition toy_encrypt (key nonce p aad : string) : string := (key +:+ nonce +:+ aad) +:+ p.
Definition toy_decrypt (key nonce c aad : string) : option string :=
  let h := key +:+ nonce +:+ aad in
  if String.prefix h c then Some (String.substring (String.length h) (String.length c - String.length h) c)
  else None.
Definition toy_key : string := "0123456789abcdef0123456789abcdef".

Lemma toy_prefix (h p : string) :
  String.prefix h (h +:+ p) = true ∧
  String.substring (String.length h) (String.length (h +:+ p) - String.length h) (h +:+ p) = p.
Proof.
  assert (∀ q, String.substring 0 (String.length q) q = q) as Hq.
  { induction q as [|c q IH]; cbn; [done|by rewrite IH]. }
  induction h as [|c h [IH1 IH2]].
  - change ("" +:+ p) with p. cbn [String.length]. rewrite Nat.sub_0_r. split; [by destruct p|apply Hq].
  - change (String c h +:+ p) with (String c (h +:+ p)). cbn [String.prefix String.length].
    rewrite Nat.sub_succ. split; [|exact IH2]. by destruct (Ascii.ascii_dec c c).
Qed.

Lemma toy_round_trip key nonce p aad : toy_decrypt key nonce (toy_encrypt key nonce p aad) aad = Some p.
Proof.
  unfold toy_decrypt, toy_encrypt.
  destruct (toy_prefix (key +:+ nonce +:+ aad) p) as [-> ->]. done.
Qed.

Definition toy_session : AEADSession := mkSession "sid" toy_key 0 0 ∅ (-1).
Definition toy_sent : list (AEADEnvelope * string) :=
  (send_all toy_encrypt [("n0", "hello"); ("n1", "lost"); ("n2", "world")] toy_session).2.

Lemma messages_round_trip_witness :
  (receive_all toy_decrypt (match toy_sent with [a; b; c] => [c.1; a.1] | _ => [] end) toy_session).2
  = [Ret "world"; Ret "hello"].
Proof.
  refine (messages_round_trip id toy_encrypt toy_decrypt toy_round_trip "sid" toy_key
            toy_session toy_session [("n0", "hello"); ("n1", "lost"); ("n2", "world")]
            (match toy_sent with [a; b; c] => [c; a] | _ => [] end) eq_refl eq_refl _ _).
  - cbn. intros ep Hep. set_solver.
  - cbn. split_and!; first [done|set_solver].
Defined.

Lemma sequence_accepted_once_witness :
  let e := mkEnvelope "sid" 0 "n0" "forged" in
  let '(acc, s) := foldl (run_session_op toy_encrypt toy_decrypt) (∅, toy_session)
                     (map (λ ep, OpDecrypt ep.1) toy_sent) in
  acc = {[0; 1; 2]} ∧ ∃ m, decrypt toy_decrypt e s = (s, Raise (ReplayError m 0)).
Proof.
  pose proof (sequence_accepted_once id toy_encrypt toy_decrypt "sid" toy_key toy_session
    (map (λ ep, OpDecrypt ep.1) toy_sent) (mkEnvelope "sid" 0 "n0" "forged") eq_refl) as H.
  cbv zeta. destruct (foldl _ _ _) as [acc s] eqn:E.
  assert (acc = {[0; 1; 2]}) as Hacc by (change ((acc, s).1 = {[0; 1; 2]}); rewrite <-E; vm_compute; reflexivity).
  split; [done|]. apply H. cbn. rewrite Hacc. set_solver.
Defined.
