(* ===== verification/TradingService.v ===== *)
(** backend/services/trading_service.py: the quote cache in front of the
    market-data provider, which prices may be executed against, and the paper
    broker's fill rules. *)

From S2P Require Import Prelude Numeric.
From Stdlib Require Import QArith Qabs Lqa.
#[local] Open Scope Z_scope.

(** ** Exceptions *)

(** [StaleMarketData] is a subclass of [MarketDataUnavailable] that carries
    the stale price. *)
Inductive MarketDataError (F : Type) :=
| MarketDataUnavailable (asset : string)
| StaleMarketData (asset : string) (price : F) (market_time : option F) (max_age : F).
Arguments MarketDataUnavailable {F} asset.
Arguments StaleMarketData {F} asset price market_time max_age.

Module QuoteCache.
Section quotes.
Context {F : Type} `{Num F}.

(** The provider calls (yfinance): a live trade with its exchange time, the
    last price without a time, the last daily close. *)
Variable live_quote : string → option (F * F).
Variable fast_info_price : string → option F.
Variable last_close : string → option F.

Definition PRICE_CACHE_TTL : F := nof_Z 20.
Definition QUOTE_FAILURE_TTL : F := nof_Z 20.
Definition QUOTE_FAILURES_PRUNE_AT : nat := 1024.

(** [_price_cache] and [_quote_failures]. *)
Record quote_state := mkQuoteState {
  price_cache : gmap string (F * F * option F);   (* price, fetched_at, market_time *)
  quote_failures : gmap string F
}.
#[global] Instance eta_quote_state : Eta quote_state := λ s,
  mkQuoteState (price_cache s) (quote_failures s).

(** [_fresh_quote]. *)
Definition fresh_quote (s : quote_state) (asset : string) (now : F)
    : outcome (MarketDataError F) (option (F * option F)) :=
  match price_cache s !! asset with
  | Some (price, fetched_at, market_time) =>
      if (now ⊖ fetched_at) <.? PRICE_CACHE_TTL then Ret (Some (price, market_time))
      else match quote_failures s !! asset with
           | Some failed_at =>
               if (now ⊖ failed_at) <.? QUOTE_FAILURE_TTL
               then Raise (MarketDataUnavailable asset) else Ret None
           | None => Ret None
           end
  | None =>
      match quote_failures s !! asset with
      | Some failed_at =>
          if (now ⊖ failed_at) <.? QUOTE_FAILURE_TTL
          then Raise (MarketDataUnavailable asset) else Ret None
      | None => Ret None
      end
  end.

(** [_remember_failure]. *)
Definition remember_failure (s : quote_state) (asset : string) (now : F) : quote_state :=
  let kept :=
    if (QUOTE_FAILURES_PRUNE_AT <=? size (quote_failures s))%nat
    then filter (λ kv : string * F, negb (QUOTE_FAILURE_TTL <=.? (now ⊖ kv.2)) = true) (quote_failures s)
    else quote_failures s in
  s <| quote_failures := <[asset := now]> kept |>.

(** The fallback prices, good for valuation only. *)
Definition untimed_price (asset : string) : option F :=
  match fast_info_price asset with
  | Some p => if nbool p then Some p else last_close asset
  | None => last_close asset
  end.

(** [_quote]: [t1] and [t2] are the clock before and after the fetch lock
    is taken, and [others] what other requests did to the caches while this
    one waited for it. *)
Definition quote (others : quote_state → quote_state) (t1 t2 : F) (asset : string)
    (s : quote_state) : quote_state * outcome (MarketDataError F) (F * option F) :=
  match fresh_quote s asset t1 with
  | Raise e => (s, Raise e)
  | Ret (Some cached) => (s, Ret cached)
  | Ret None =>
      let s := others s in
      match fresh_quote s asset t2 with
      | Raise e => (s, Raise e)
      | Ret (Some cached) => (s, Ret cached)
      | Ret None =>
          let found :=
            match live_quote asset with
            | Some (price, market_time) => Some (price, Some market_time)
            | None =>
                match untimed_price asset with
                | Some price => Some (price, None)
                | None => None
                end
            end in
          match found with
          | None => (remember_failure s asset t2, Raise (MarketDataUnavailable asset))
          | Some (price, market_time) =>
              (s <| price_cache := <[asset := (price, t2, market_time)]> (price_cache s) |>
                 <| quote_failures ::= delete asset |>,
               Ret (price, market_time))
          end
      end
  end.

Variable MAX_QUOTE_AGE_SECONDS : F.

(** [get_last_price]; [t3] is the clock when the quote's age is checked. *)
Definition get_last_price (others : quote_state → quote_state) (t1 t2 t3 : F)
    (asset : string) (s : quote_state) : quote_state * outcome (MarketDataError F) F :=
  let '(s, q) := quote others t1 t2 asset s in
  (s, let! (price, market_time) := q in
      match market_time with
      | Some m =>
          if (t3 ⊖ m) >.? MAX_QUOTE_AGE_SECONDS
          then Raise (StaleMarketData asset price market_time MAX_QUOTE_AGE_SECONDS)
          else Ret price
      | None => Raise (StaleMarketData asset price None MAX_QUOTE_AGE_SECONDS)
      end).

(** [get_mark_price]: a mark and whether it is stale. *)
Definition get_mark_price (others : quote_state → quote_state) (t1 t2 t3 : F)
    (asset : string) (s : quote_state) : quote_state * (option F * bool) :=
  let '(s, p) := get_last_price others t1 t2 t3 asset s in
  (s, match p with
      | Ret price => (Some price, false)
      | Raise (StaleMarketData _ price _ _) => (Some price, true)
      | Raise (MarketDataUnavailable _) =>
          match price_cache s !! asset with
          | Some (price, _, _) => (Some price, true)
          | None => (None, true)
          end
      end).

(** *** Properties of the cache *)

(** A price is executable only if its exchange trade time is known and
    recent at the time of the check. *)
Lemma get_last_price_fresh others t1 t2 t3 asset s s' p :
  get_last_price others t1 t2 t3 asset s = (s', Ret p) →
  ∃ m, (quote others t1 t2 asset s).2 = Ret (p, Some m) ∧
       (MAX_QUOTE_AGE_SECONDS <.? (t3 ⊖ m)) = false.
Proof.
  unfold get_last_price. destruct (quote others t1 t2 asset s) as [s1 q]. intros [= -> Hq].
  apply obind_Ret in Hq as ((price & mt) & -> & Hq). destruct mt as [m|]; [|done].
  destruct (_ <.? _) eqn:E; [done|]. simplify_eq. cbn. eauto.
Qed.

(** A failed fetch never replaces a good observation. *)
Lemma quote_failure_keeps_cache t1 t2 asset s s' e :
  quote id t1 t2 asset s = (s', Raise e) → price_cache s' = price_cache s.
Proof.
  unfold quote. intros Hq. destruct (fresh_quote s asset t1) as [[c|]|]; simplify_eq; [|done].
  unfold id in Hq. destruct (fresh_quote s asset t2) as [[c|]|]; simplify_eq; [|done].
  destruct (live_quote asset) as [[p m]|]; [simplify_eq|].
  destruct (untimed_price asset); by simplify_eq.
Qed.

(** Whatever was observed once stays available as a valuation mark. *)
Lemma get_mark_price_total t1 t2 t3 asset s :
  is_Some (price_cache s !! asset) → is_Some (get_mark_price id t1 t2 t3 asset s).2.1.
Proof.
  intros [[[p0 f0] m0] Hc]. unfold get_mark_price, get_last_price.
  destruct (quote id t1 t2 asset s) as [s1 q] eqn:Eq. cbn.
  destruct q as [[price mt]|e]; cbn.
  - destruct mt as [m|]; [destruct (_ <.? _)|]; eauto.
  - apply quote_failure_keeps_cache in Eq as Ec. destruct e; [|eauto]. rewrite Ec, Hc. eauto.
Qed.
End quotes.
End QuoteCache.
Export QuoteCache.

(** ** Fill rules *)

Section fill_rules.
Context {F : Type} `{Num F}.

(** [{"status": ..., "filled_price": ...}] *)
Record fill_result := mkFill { fill_status : string; fill_price : option F }.

(** [last >= (stop or inf)], for a finite [last]: a missing (or zero) stop
    price is an infinite threshold. *)
Definition at_or_above_stop (last : F) (stop_price : option F) : bool :=
  match stop_price with
  | Some stop => nbool stop && (last >=.? stop)
  | None => false
  end.

(** [last <= (stop or 0)]. *)
Definition at_or_below_stop (last : F) (stop_price : option F) : bool :=
  match stop_price with
  | Some stop => if nbool stop then last <=.? stop else last <=.? n0
  | None => last <=.? n0
  end.

Definition price_digits (px : F) : Z := if px <.? n1 then 6 else 2.

(** [simulate_fill], given the price it is called with or has fetched. *)
Definition simulate_fill (side order_type : string) (limit_price stop_price : option F)
    (last_price : F) : fill_result :=
  if bool_decide (order_type = "market") then mkFill "FILLED" (Some last_price)
  else
    let is_stop := bool_decide (order_type = "stop" ∨ order_type = "stop_limit") in
    let triggered :=
      (bool_decide (side = "buy") && at_or_above_stop last_price stop_price)
      || (bool_decide (side = "sell") && at_or_below_stop last_price stop_price) in
    if is_stop && negb triggered then mkFill "ACCEPTED" None
    else if is_stop && bool_decide (order_type = "stop") then mkFill "FILLED" (Some last_price)
    else
      match limit_price with
      | None => mkFill "FILLED" (Some last_price)
      | Some limit =>
          let marketable :=
            (bool_decide (side = "buy") && (last_price <=.? limit))
            || (bool_decide (side = "sell") && (last_price >=.? limit)) in
          if marketable then
            let fill_px := if bool_decide (side = "buy") then nmin last_price limit
                           else nmax last_price limit in
            mkFill "FILLED" (Some (nround fill_px (price_digits fill_px)))
          else mkFill "ACCEPTED" None
      end.

(** [check_pending_limit_fill]. *)
Definition check_pending_limit_fill (side : string) (limit_price last_price : F) : option F :=
  if bool_decide (side = "buy") && (last_price <=.? limit_price) then
    Some (nround (nmin last_price limit_price) (price_digits last_price))
  else if bool_decide (side = "sell") && (last_price >=.? limit_price) then
    Some (nround (nmax last_price limit_price) (price_digits last_price))
  else None.
End fill_rules.
Arguments fill_result F : clear implicits.

(** ** Properties of the fill rules *)

Lemma marketable_fill_is_last {F} `{NumOrd F} (last limit : F) :
  ((last <=.? limit) = true → nmin last limit = last) ∧
  ((limit <=.? last) = true → nmax last limit = last).
Proof. unfold nmin, nmax. split; intros ->%nle_not_lt; done. Qed.

Lemma limit_rules_agree {F} `{NumOrd F} (side : string) (limit last : F) :
  fill_price (simulate_fill side "limit" (Some limit) None last) =
  check_pending_limit_fill side limit last.
Proof.
  destruct (marketable_fill_is_last last limit) as [Hmin Hmax].
  unfold simulate_fill, check_pending_limit_fill. cbn.
  destruct (decide (side = "buy")) as [->|Hb]; cbn.
  - destruct (last <=.? limit) eqn:E; cbn; [|done]. by rewrite (Hmin eq_refl).
  - rewrite !(bool_decide_eq_false_2 (side = "buy")) by done. cbn.
    destruct (decide (side = "sell")) as [->|Hs]; cbn.
    + destruct (limit <=.? last) eqn:E; cbn; [|done]. by rewrite (Hmax eq_refl).
    + by rewrite !(bool_decide_eq_false_2 (side = "sell")) by done.
Qed.

(** The sweeper's rule for a resting limit order and the rule applied
    when the order is placed are the same function of the price: an order
    fills, at the same price, whichever of the two sees that price first. In
    any arithmetic whose comparisons are ordered, doubles included. *)
Theorem resting_fill_agrees {F} `{NumOrd F} (side : string) (limit last : F) :
  fill_price (simulate_fill side "limit" (Some limit) None last) =
  check_pending_limit_fill side limit last.
Proof. apply limit_rules_agree. Qed.

Lemma price_digits_pos {F} `{Num F} (x : F) : 0 ≤ price_digits x.
Proof. unfold price_digits. destruct (x <.? n1); lia. Qed.

(** What a limit order can be filled at, in exact arithmetic. It fills
    only when the market price is at or better than its limit, and then at
    the market price rounded to cents (to 1e-6 below one dollar): never more
    than half of that last digit away from the market price. *)
Theorem limit_fill_bounds (side : string) (limit last p : Q) :
  fill_price (simulate_fill side "limit" (Some limit) None last) = Some p →
  (side = "buy" ∧ (last <= limit)%Q ∨ side = "sell" ∧ (limit <= last)%Q) ∧
  (Qabs (p - last) * inject_Z (2 * 10 ^ price_digits last) <= 1)%Q.
Proof.
  rewrite limit_rules_agree. unfold check_pending_limit_fill.
  destruct (marketable_fill_is_last last limit) as [Hmin Hmax].
  destruct (decide (side = "buy")) as [->|Hb];
    [rewrite bool_decide_eq_true_2 by done|rewrite bool_decide_eq_false_2 by done]; cbn [andb].
  - destruct (last <=.? limit) eqn:E; cbn; [|done]. intros [= <-]. rewrite Hmin by done.
    split; [left; by apply nle_Q in E|]. apply nround_Q_error, price_digits_pos.
  - destruct (decide (side = "sell")) as [->|Hs];
      [rewrite bool_decide_eq_true_2 by done|by rewrite bool_decide_eq_false_2 by done]; cbn [andb].
    destruct (limit <=.? last) eqn:E; cbn; [|done]. intros [= <-]. rewrite Hmax by done.
    split; [right; by apply nle_Q in E|]. apply nround_Q_error, price_digits_pos.
Qed.

Lemma limit_fill_bounds_witness :
  fill_price (simulate_fill (F:=Q) "buy" "limit" (Some (10050 # 100)) None (10037 # 100)) = Some (10037 # 100)
  ∧ (Qabs ((10037 # 100) - (10037 # 100)) * inject_Z (2 * 10 ^ price_digits (10037 # 100)%Q) <= 1)%Q.
Proof.
  split; [vm_compute; reflexivity|].
  apply (limit_fill_bounds "buy" (10050 # 100) (10037 # 100) (10037 # 100)). vm_compute. reflexivity.
Defined.

(** The rounding is the only way past the limit, and it is a real one: a buy
    limited at 100.006 with the market at 100.006 is filled at 100.01. *)
Theorem buy_fill_can_exceed_limit :
  let limit := nof_ratio (F:=b64) 100006 1000 in
  ∃ p, fill_price (simulate_fill "buy" "limit" (Some limit) None limit) = Some p ∧
       (limit <.? p) = true ∧ nrepr p = Dec 10001 (-2).
Proof. eexists. split; [vm_compute; reflexivity|]. split; vm_compute; reflexivity. Qed.

Lemma resting_fill_agrees_witness :
  fill_price (simulate_fill "sell" "limit" (Some (nof_ratio (F:=b64) 99 1)) None (nof_ratio 100 1)) =
  check_pending_limit_fill "sell" (nof_ratio 99 1) (nof_ratio 100 1).
Proof. apply resting_fill_agrees. Defined.

(** Every fill is at the market price, or at its rounding. *)
Lemma check_pending_price {F} `{NumOrd F} side (limit last p : F) :
  check_pending_limit_fill side limit last = Some p → p = nround last (price_digits last).
Proof.
  destruct (marketable_fill_is_last last limit) as [Hmin Hmax].
  unfold check_pending_limit_fill. destruct (bool_decide (side = "buy")); cbn [andb].
  - destruct (last <=.? limit); [rewrite Hmin by done; congruence|].
    destruct (_ && _) eqn:E; [|done]. apply andb_prop in E as [_ E]. rewrite Hmax by done. congruence.
  - destruct (_ && _) eqn:E; [|done]. apply andb_prop in E as [_ E]. rewrite Hmax by done. congruence.
Qed.

Lemma simulate_fill_price {F} `{NumOrd F} side ot (limit stop : option F) (last p : F) :
  fill_price (simulate_fill side ot limit stop last) = Some p →
  p = last ∨ p = nround last (price_digits last).
Proof.
  unfold simulate_fill. cbn zeta.
  destruct (bool_decide (ot = "market")); [intros [= <-]; by left|].
  destruct (_ && negb _); [done|]. destruct (_ && bool_decide (ot = "stop")); [intros [= <-]; by left|].
  destruct limit as [l|]; [|intros [= <-]; by left].
  destruct (marketable_fill_is_last last l) as [Hmin Hmax].
  destruct (decide (side = "buy")) as [->|Hb]; eval_bools.
  - destruct (last <=.? l); [|done]. rewrite Hmin by done. intros [= <-]. by right.
  - rewrite (bool_decide_eq_false_2 (side = "buy")) by done. cbn [andb orb].
    destruct (_ && _) eqn:E; [|done]. apply andb_prop in E as [_ E]. rewrite Hmax by done.
    intros [= <-]. by right.
Qed.
