(* ===== verification/Portfolio.v ===== *)
(** backend/services/portfolio_service.py: the positions projection rebuilt
    from filled trades, mark-to-market reads, the equity curve and the
    closed-trade count. *)

From S2P Require Import Prelude Numeric PyDecimal Models.
From Stdlib Require Import QArith Qabs Lqa.
#[local] Open Scope Z_scope.

Section portfolio.
Context {F : Type} `{Num F}.

(** [float(t.filled_price or 0)] *)
Definition trade_price (t : Trade) : F :=
  match tr_filled_price t with
  | Some p => if dcoef p =? 0 then n0 else nof_dec p
  | None => n0
  end.
Definition trade_qty (t : Trade) : F := nof_dec (tr_quantity t).

(** One asset's [{"qty", "cost", "realized"}]. *)
Record book_entry := mkEntry { b_qty : F; b_cost : F; b_realized : F }.
Definition empty_entry : book_entry := mkEntry n0 n0 n0.

(** One filled trade applied to its asset's entry. *)
Definition entry_step (b : book_entry) (t : Trade) : book_entry :=
  let qty := trade_qty t in
  let price := trade_price t in
  if bool_decide (tr_side t = "buy") then
    mkEntry (b_qty b ⊕ qty) (b_cost b ⊕ (qty ⊗ price)) (b_realized b)
  else
    let avg_cost := if nbool (b_qty b) then b_cost b ⊘ b_qty b else n0 in
    let sell_qty := nmin qty (b_qty b) in
    let qty' := b_qty b ⊖ sell_qty in
    mkEntry qty' (avg_cost ⊗ nmax n0 qty') (b_realized b ⊕ ((price ⊖ avg_cost) ⊗ sell_qty)).

Definition book_step (book : gmap string book_entry) (t : Trade) : gmap string book_entry :=
  <[tr_asset t := entry_step (default empty_entry (book !! tr_asset t)) t]> book.

Definition book_of (trades : list Trade) : gmap string book_entry := foldl book_step ∅ trades.

(** The row stored for an open entry; none for a flat one. *)
Definition position_row (user_id asset : string) (b : book_entry) : option Position :=
  if b_qty b <=.? n0 then None
  else Some (mkPosition user_id asset (nrepr (nround (b_qty b) 6))
               (nrepr (nround (b_cost b ⊘ b_qty b) 4)) (nrepr (nround (b_realized b) 2))).

(** [rebuild_positions]: replace the user's rows by those of the fold. *)
Definition rebuild_positions (d : LedgerDB) (user_id : string) : LedgerDB :=
  let book := book_of (filled_trades d user_id) in
  let others := filter (λ p, po_user_id p ≠ user_id) (db_positions d) in
  d <| db_positions :=
         others ++ omap (λ kb : string * book_entry, position_row user_id kb.1 kb.2)
                     (map_to_list book) |>.

(** [recompute_positions] *)
Definition recompute_positions (s : Session) (user_id : string) : Session :=
  commit (s <| working ::= λ d, rebuild_positions d user_id |>).

(** *** Reading positions *)

Record position_view := mkView {
  v_asset : string;
  v_quantity : F;
  v_avg_entry_price : F;
  v_current_price : F;
  v_price_stale : bool;
  v_unrealized_pnl : F;
  v_realized_pnl : F;
  v_market_value : F
}.

(** The mark of an asset and whether it is stale ([get_mark_price]). *)
Variable get_mark_price : string → option F * bool.

(** [get_positions_with_pnl] *)
Definition get_positions_with_pnl (d : LedgerDB) (user_id : string) : list position_view :=
  map (λ p,
    let quantity := nof_dec (po_quantity p) in
    let avg_entry := nof_dec (po_avg_entry_price p) in
    let '(mark, stale) := get_mark_price (po_asset p) in
    let current_price := default avg_entry mark in
    let unrealized := (current_price ⊖ avg_entry) ⊗ quantity in
    mkView (po_asset p) quantity avg_entry current_price stale (nround unrealized 2)
      (nof_dec (po_realized_pnl p)) (nround (current_price ⊗ quantity) 2))
  (filter (λ p, po_user_id p = user_id ∧ 0 < dcoef (po_quantity p)) (db_positions d)).

(** *** The equity curve *)

(** [last_fill]: the price of each asset's last fill. *)
Definition last_fills (trades : list Trade) : gmap string F :=
  foldl (λ m t, <[tr_asset t := trade_price t]> m) ∅ trades.

Definition current_prices (trades : list Trade) : gmap string F :=
  map_imap (λ asset last, Some (default last (get_mark_price asset).1)) (last_fills trades).

(** Cash and holdings after one trade. *)
Definition equity_step (s : F * gmap string F) (t : Trade) : F * gmap string F :=
  let '(equity, book) := s in
  let qty := trade_qty t in
  let price := trade_price t in
  let held_qty := default n0 (book !! tr_asset t) in
  if bool_decide (tr_side t = "buy") then
    (equity ⊖ (qty ⊗ price), <[tr_asset t := held_qty ⊕ qty]> book)
  else
    let sell_qty := nmin qty held_qty in
    (equity ⊕ (sell_qty ⊗ price), <[tr_asset t := held_qty ⊖ sell_qty]> book).

(** The marked value of the open holdings. *)
Definition open_value (prices book : gmap string F) : F :=
  nsum (omap (λ kq : string * F,
                if kq.2 >.? n0 then Some (kq.2 ⊗ default n0 (prices !! kq.1)) else None)
             (map_to_list book)).

Fixpoint curve_from (prices : gmap string F) (s : F * gmap string F) (trades : list Trade)
    : list F :=
  match trades with
  | [] => []
  | t :: ts =>
      let s := equity_step s t in
      (s.1 ⊕ open_value prices s.2) :: curve_from prices s ts
  end.

(** [equity_curve_from_trades] *)
Definition equity_curve_from_trades (d : LedgerDB) (user_id : string) (starting_capital : F)
    : list F :=
  let trades := filled_trades d user_id in
  starting_capital :: curve_from (current_prices trades) (starting_capital, ∅) trades.

(** *** Closed trades *)

(** [closed_trade_results]: wins and closed round trips. *)
Definition closed_step (s : gmap string (F * F) * Z * Z) (t : Trade)
    : gmap string (F * F) * Z * Z :=
  let '(book, wins, closed) := s in
  let qty := trade_qty t in
  let price := trade_price t in
  let '(current_qty, cost) := default (n0, n0) (book !! tr_asset t) in
  if bool_decide (tr_side t = "buy") then
    (<[tr_asset t := (current_qty ⊕ qty, cost ⊕ (qty ⊗ price))]> book, wins, closed)
  else if current_qty >.? n0 then
    let avg := if nbool current_qty then cost ⊘ current_qty else n0 in
    let remaining := nmax n0 (current_qty ⊖ qty) in
    (<[tr_asset t := (remaining, avg ⊗ remaining)]> book,
     (if price >.? avg then wins + 1 else wins), closed + 1)
  else (book, wins, closed).

Definition closed_trade_results (trades : list Trade) : Z * Z :=
  let '(_, wins, closed) := foldl closed_step (∅, 0, 0) trades in (wins, closed).
End portfolio.
Arguments book_entry F : clear implicits.
Arguments position_view F : clear implicits.

(** ** Properties of the projection, in exact arithmetic *)

Definition trade_ok (t : Trade) : Prop := 0 ≤ dcoef (tr_quantity t).

Lemma nof_dec_nonneg (d : dec) : 0 ≤ dcoef d → (0 <= nof_dec (F:=Q) d)%Q.
Proof.
  intros Hd. unfold nof_dec. destruct (Z.leb_spec 0 (dexp d)); cbn; unfold Qle; cbn; [|lia].
  pose proof (pow10_pos (dexp d)). nia.
Qed.

Lemma trade_qty_nonneg t : trade_ok t → (0 <= trade_qty (F:=Q) t)%Q.
Proof. apply nof_dec_nonneg. Qed.

(** A holding is never negative and a flat one has no cost. *)
Definition entry_ok (b : book_entry Q) : Prop :=
  (0 <= b_qty b)%Q ∧ ((b_qty b == 0)%Q → (b_cost b == 0)%Q).

Lemma empty_entry_ok : entry_ok empty_entry.
Proof. split; cbn; intros; [done|reflexivity]. Qed.

Lemma nbool_Q_false (x : Q) : nbool x = false ↔ (x == 0)%Q.
Proof. unfold nbool. rewrite negb_false_iff. apply neq_Q. Qed.

(** What one trade does to its entry, with the divisions resolved. *)
Lemma entry_step_Q (b : book_entry Q) t :
  entry_ok b → trade_ok t →
  let b' := entry_step b t in
  let sold := nmin (trade_qty t) (b_qty b) in
  entry_ok b' ∧
  (b_realized b' - b_cost b' ==
   b_realized b - b_cost b +
   if bool_decide (tr_side t = "buy") then - (trade_qty t * trade_price t)
   else sold * trade_price t)%Q.
Proof.
  intros [Hq Hc] Ht%trade_qty_nonneg. unfold entry_step.
  destruct (bool_decide (tr_side t = "buy")); cbn [b_qty b_cost b_realized].
  - split; [split; cbn [b_qty b_cost nadd Num_Q nmul]; [lra|intros He]|cbn; ring].
    assert (b_qty b == 0)%Q as Hb by lra. assert (trade_qty t == 0)%Q as -> by lra.
    rewrite (Hc Hb). ring.
  - destruct (nmin_Q (trade_qty t) (b_qty b)) as (Hm1 & Hm2 & Hm3).
    set (sold := nmin (trade_qty t) (b_qty b)) in *. cbn zeta.
    assert (0 <= sold)%Q as Hs by (destruct Hm3 as [-> | ->]; done).
    destruct (nmax_Q n0 (b_qty b ⊖ sold)) as (Hx1 & Hx2 & Hx3).
    assert (nmax n0 (b_qty b ⊖ sold) == b_qty b - sold)%Q as Hx.
    { destruct Hx3 as [Hx3|Hx3]; rewrite Hx3 in *; [|reflexivity].
      unfold n0, nof_Z in *; cbn in *. lra. }
    destruct (nbool (b_qty b)) eqn:Hb.
    + assert (¬ b_qty b == 0)%Q as Hn by (intros ?%nbool_Q_false; congruence).
      cbn [nadd nsub nmul ndiv Num_Q] in *. split; [split; cbn [b_qty b_cost]; [lra|]|].
      * intros He. rewrite Hx, He. ring.
      * rewrite Hx. field. done.
    + apply nbool_Q_false in Hb. specialize (Hc Hb).
      assert (sold == 0)%Q as Hs0 by lra.
      cbn [nadd nsub nmul ndiv Num_Q] in *. split; [split; cbn [b_qty b_cost]; [lra|]|].
      * intros He. rewrite Hx, He. ring.
      * rewrite Hx, Hs0, Hb. unfold n0, nof_Z. cbn [nof_ratio Num_Q]. lra.
Qed.

Definition book_ok (book : gmap string (book_entry Q)) : Prop :=
  map_Forall (λ _, entry_ok) book.

Lemma book_ok_default book a : book_ok book → entry_ok (default empty_entry (book !! a)).
Proof. intros Hb. destruct (book !! a) eqn:E; cbn; [by eapply Hb|apply empty_entry_ok]. Qed.
#[export] Hint Resolve empty_entry_ok book_ok_default : core.

Lemma book_step_ok book t : book_ok book → trade_ok t → book_ok (book_step book t).
Proof.
  intros Hb Ht. apply map_Forall_insert_2; [|done]. by apply entry_step_Q; auto.
Qed.

(** The equity fold holds exactly the quantities of the positions fold. *)
Lemma equity_holdings {F} `{Num F} (book : gmap string (book_entry F)) (cash : F) t :
  (equity_step (cash, b_qty <$> book) t).2 = b_qty <$> book_step book t.
Proof.
  unfold equity_step, book_step, entry_step. rewrite fmap_insert, lookup_fmap.
  assert (default n0 (b_qty <$> book !! tr_asset t) = b_qty (default empty_entry (book !! tr_asset t)))
    as -> by (by destruct (book !! tr_asset t)).
  by destruct (bool_decide _).
Qed.

(** Profit locked in minus cost still open, over the book. *)
Definition booked (book : gmap string (book_entry Q)) : Q :=
  map_qsum (λ _ b, b_realized b - b_cost b)%Q book.

Lemma equity_step_booked book cash t :
  book_ok book → trade_ok t →
  ((equity_step (cash, b_qty <$> book) t).1 - booked (book_step book t) == cash - booked book)%Q.
Proof.
  intros Hb Ht. unfold booked, book_step.
  rewrite (map_qsum_update _ empty_entry) by reflexivity.
  pose proof (book_ok_default book (tr_asset t) Hb) as He.
  destruct (entry_step_Q _ t He Ht) as [_ Hs]. rewrite Hs.
  unfold equity_step. rewrite lookup_fmap.
  assert (default n0 (b_qty <$> book !! tr_asset t) = b_qty (default empty_entry (book !! tr_asset t)))
    as -> by (by destruct (book !! tr_asset t)).
  destruct (bool_decide _); cbn; ring.
Qed.

Lemma equity_fold cash book trades :
  book_ok book → Forall trade_ok trades →
  let '(cash', held) := foldl equity_step (cash, b_qty <$> book) trades in
  held = b_qty <$> foldl book_step book trades ∧ book_ok (foldl book_step book trades) ∧
  (cash' - booked (foldl book_step book trades) == cash - booked book)%Q.
Proof.
  revert cash book; induction trades as [|t ts IH]; intros cash book Hb Hts; cbn [foldl].
  { split_and!; [done..|reflexivity]. }
  inversion Hts as [|?? Ht Hts']; subst.
  pose proof (equity_step_booked book cash t Hb Ht) as Hc.
  pose proof (equity_holdings book cash t) as Hh.
  destruct (equity_step (cash, b_qty <$> book) t) as [cash1 held1]. cbn [fst snd] in *. subst held1.
  specialize (IH cash1 (book_step book t) (book_step_ok _ _ Hb Ht) Hts').
  destruct (foldl equity_step _ ts) as [cash' held]. destruct IH as (-> & Hok & IH).
  split_and!; [done..|]. by rewrite IH.
Qed.

Lemma curve_from_last {F} `{Num F} (prices : gmap string F) s trades x :
  x :: curve_from prices s trades =
  (x :: curve_from prices s trades) ∧
  (trades ≠ [] → List.last (curve_from prices s trades) x =
     (foldl equity_step s trades).1 ⊕ open_value prices (foldl equity_step s trades).2).
Proof.
  split; [done|]. revert s x; induction trades as [|t ts IH]; intros s x Hne; [done|].
  cbn [curve_from foldl]. destruct ts as [|t' ts]; [done|].
  specialize (IH (equity_step s t) x ltac:(done)). cbn [curve_from] in IH |- *. exact IH.
Qed.

Lemma open_value_Q (prices : gmap string Q) (book : gmap string (book_entry Q)) :
  book_ok book →
  (open_value prices (b_qty <$> book) ==
   map_qsum (λ a b, b_qty b * default 0 (prices !! a)) book)%Q.
Proof.
  intros Hb. unfold open_value, map_qsum. rewrite nsum_Q, map_to_list_fmap.
  assert (∀ a b, (a, b) ∈ map_to_list book → entry_ok b) as Hall.
  { intros a b Hin%elem_of_map_to_list. by eapply Hb. }
  induction (map_to_list book) as [|[a b] l IH]; [reflexivity|].
  cbn [map fmap list_fmap omap list_omap prod_map fst snd]. unfold id at 1 2.
  assert (entry_ok b) as [Hq _] by (eapply (Hall a); set_solver).
  assert (IH' := IH (λ a' b' Hin, Hall a' b' ltac:(set_solver))).
  destruct (n0 <.? b_qty b) eqn:E; cbn [qsum foldr]; unfold qsum in *; cbn [foldr].
  - rewrite IH'. reflexivity.
  - apply nlt_Q_false in E. rewrite IH'. unfold n0, nof_Z in E. cbn in E.
    assert (b_qty b == 0)%Q as -> by lra. ring.
Qed.

(** The equity curve and the positions projection tell the same story.
    The last point of the curve is the starting capital, plus over all assets
    the profit realised on what was sold, plus the marked value of what is
    still held less what it cost. Oversold quantities are clamped alike in
    both, so a stale fill cannot make them disagree. *)
Theorem equity_curve_accounts (get_mark : string → option Q * bool) (d : LedgerDB)
    (u : string) (start : Q) :
  Forall trade_ok (filled_trades d u) →
  let trades := filled_trades d u in
  (List.last (equity_curve_from_trades get_mark d u start) start ==
   start + map_qsum (λ a b, b_realized b - b_cost b +
                            b_qty b * default 0 (current_prices get_mark trades !! a))
             (book_of trades))%Q.
Proof.
  intros Hok trades. unfold equity_curve_from_trades. fold trades.
  rewrite map_qsum_plus. fold (booked (book_of trades)).
  pose proof (equity_fold start ∅ trades (map_Forall_empty _) Hok) as Hf.
  change (foldl book_step ∅ trades) with (book_of (F:=Q) trades) in Hf.
  rewrite fmap_empty in Hf.
  destruct (decide (trades = [])) as [He|Hne].
  { rewrite He. cbn. unfold booked, map_qsum, qsum. rewrite !map_to_list_empty. cbn. ring. }
  destruct (curve_from_last (current_prices get_mark trades) (start, ∅) trades start) as [_ Hl].
  specialize (Hl Hne).
  destruct (curve_from (current_prices get_mark trades) (start, ∅) trades) as [|x l] eqn:Ec.
  { destruct trades; [done|discriminate]. }
  change (List.last (start :: x :: l) start) with (List.last (x :: l) start). rewrite Hl.
  destruct (foldl equity_step (start, ∅) trades) as [cash held].
  destruct Hf as (-> & Hb & Hc). cbn [fst snd nadd Num_Q].
  rewrite open_value_Q by done.
  assert (cash == start + booked (book_of trades))%Q as ->.
  { change (booked ∅) with 0%Q in Hc. lra. }
  ring.
Qed.

(** A round trip: buy 4 at 10, sell 3 at 12, sell 5 (clamped to 1) at 9. *)
Definition round_trip : LedgerDB :=
  let tr id side q p at_ := mkTrade id "u" "AAPL" side (Dec q 0) "market" None None "day" "FILLED"
                              (Some (Dec p 0)) at_ (Some at_) in
  mkLedgerDB {["a" := tr "a" "buy" 4 10 1; "b" := tr "b" "sell" 3 12 2; "c" := tr "c" "sell" 5 9 3]} ∅ [].

Lemma equity_curve_accounts_witness :
  (List.last (equity_curve_from_trades (λ _, (Some 11%Q, false)) round_trip "u" 100) 100 ==
   100 + map_qsum (λ a b, b_realized b - b_cost b +
           b_qty b * default 0 (current_prices (λ _, (Some 11%Q, false)) (filled_trades round_trip "u") !! a))
           (book_of (filled_trades round_trip "u")))%Q.
Proof.
  apply equity_curve_accounts.
  vm_compute. repeat constructor; discriminate.
Defined.
