(* ===== verification/PaperBroker.v ===== *)
(** backend/services/paper_broker.py: the paper account's cash ledger. Every
    statement that moves money is the conditional UPDATE the code issues; a
    session carries its uncommitted work, and the operations commit or roll
    back where the code does. *)

From S2P Require Import Prelude Numeric PyDecimal Models TradingService Portfolio.
#[local] Open Scope Z_scope.

(** ** Money *)

Definition MICROS : dec := Dec 1000000 0.

Definition to_micros (amount : dec) : Z := dec_to_int_half_up (dec_mul amount MICROS).
Definition from_micros {F} `{Num F} (micros : Z) : F := nof_ratio micros 1000000.
Definition notional_micros (quantity price : dec) : Z := to_micros (dec_mul quantity price).

Definition is_open (status : string) : bool :=
  bool_decide (status = "PENDING" ∨ status = "ACCEPTED").

(** Cash a buy order must hold while open. *)
Definition reservation_micros (side : string) (quantity : dec) (order_type : string)
    (limit_price stop_price market_price : option dec) : Z :=
  if bool_decide (side ≠ "buy") then 0
  else
    let reference :=
      if bool_decide (order_type = "limit" ∨ order_type = "stop_limit") then limit_price
      else if bool_decide (order_type = "stop") then stop_price
      else market_price in
    match reference with
    | None => 0
    | Some p => notional_micros quantity p
    end.

Definition trade_reservation_micros (t : Trade) : Z :=
  if bool_decide (tr_order_type t = "market") then 0
  else reservation_micros (tr_side t) (tr_quantity t) (tr_order_type t)
         (tr_limit_price t) (tr_stop_price t) None.

(** ** Account *)

(** One historic trade replayed into (cash, reserved). *)
Definition replay_trade (acc : Z * Z) (t : Trade) : Z * Z :=
  let '(cash, reserved) := acc in
  match bool_decide (tr_status t = "FILLED"), tr_filled_price t with
  | true, Some p =>
      let amount := notional_micros (tr_quantity t) p in
      (cash + (if bool_decide (tr_side t = "sell") then amount else - amount), reserved)
  | _, _ =>
      if is_open (tr_status t) then (cash, reserved + trade_reservation_micros t)
      else (cash, reserved)
  end.

(** [get_or_create_account]. [others] is what concurrent sessions committed
    between this session's read and its insert: if one of them opened the
    account first, the insert violates the primary key and is rolled back. *)
Definition get_or_create_account (initial_cash : dec) (others : LedgerDB → LedgerDB)
    (s : Session) (user_id : string) (now : Z) : Session * option PaperAccount :=
  match db_accounts (working s) !! user_id with
  | Some a => (s, Some a)
  | None =>
      let trades := filter (λ t, tr_user_id t = user_id) (rows (db_trades (working s))) in
      let '(cash, reserved) := foldl replay_trade (to_micros initial_cash, 0) trades in
      let cash := Z.max 0 cash in
      let row := mkPaperAccount cash (Z.min reserved cash) now in
      let db := others (committed s) in
      let s' :=
        match db_accounts db !! user_id with
        | Some _ => begin_session db
        | None => begin_session (db <| db_accounts ::= <[user_id := row]> |>)
        end in
      (s', db_accounts (working s') !! user_id)
  end.

(** [try_reserve]: not committed. *)
Definition try_reserve (s : Session) (user_id : string) (amount now : Z) : Session * bool :=
  if amount <=? 0 then (s, true)
  else
    let '(accounts, rowcount) :=
      update_row user_id (λ a, amount <=? cash_micros a - reserved_micros a)
        (λ a, a <| reserved_micros := reserved_micros a + amount |> <| acc_updated_at := now |>)
        (db_accounts (working s)) in
    (s <| working ::= λ d, d <| db_accounts := accounts |> |>, rowcount =? 1).

(** The SQL expression [_released]. *)
Definition released (amount : Z) (a : PaperAccount) : Z :=
  if amount <=? reserved_micros a then reserved_micros a - amount else 0.

Definition release_stmt (user_id : string) (amount now : Z) (d : LedgerDB) : LedgerDB :=
  d <| db_accounts ::= λ m,
         (update_row user_id (λ _, true)
            (λ a, a <| reserved_micros := released amount a |> <| acc_updated_at := now |>) m).1 |>.

(** ** Order transitions *)

(** [_cas_status]: open orders only. *)
Definition cas_status (trade_id to_status : string) (values : Trade → Trade) (d : LedgerDB)
    : LedgerDB * bool :=
  let '(trades, rowcount) :=
    update_row trade_id (λ t, is_open (tr_status t))
      (λ t, values (t <| tr_status := to_status |>)) (db_trades d) in
  (d <| db_trades := trades |>, rowcount =? 1).

(** [close_order] *)
Definition close_order (s : Session) (trade : Trade) (to_status : string)
    (reserved : option Z) (now : Z) : Session * bool :=
  let reserved := default (trade_reservation_micros trade) reserved in
  let '(d, won) := cas_status (tr_id trade) to_status id (working s) in
  if won then
    let d := if 0 <? reserved then release_stmt (tr_user_id trade) reserved now d else d in
    (commit (s <| working := d |>), true)
  else (rollback s, false).

(** [accept_order] *)
Definition accept_order (s : Session) (trade : Trade) : Session * bool :=
  let '(trades, rowcount) :=
    update_row (tr_id trade) (λ t, bool_decide (tr_status t = "PENDING"))
      (λ t, t <| tr_status := "ACCEPTED" |>) (db_trades (working s)) in
  (commit (s <| working ::= λ d, d <| db_trades := trades |> |>), rowcount =? 1).

(** [held_quantity]: filled buys and sells in fill order, a sell never taking
    the holding below zero. *)
Definition held_step (held : dec) (t : Trade) : dec :=
  if bool_decide (tr_side t = "buy") then dec_add held (tr_quantity t)
  else dec_max (dec_of_Z 0) (dec_sub held (tr_quantity t)).

Definition held_quantity (d : LedgerDB) (user_id asset : string)
    (exclude_trade_id : option string) : dec :=
  foldl held_step (dec_of_Z 0)
    (filter (λ t, tr_asset t = asset ∧ exclude_trade_id ≠ Some (tr_id t))
       (filled_trades d user_id)).

Inductive FillStatus := FILLED | NOT_OPEN | REJECTED.
#[global] Instance FillStatus_eq_dec : EqDecision FillStatus.
Proof. solve_decision. Defined.

Record FillOutcome := mkFillOutcome { fo_status : FillStatus; fo_reason : option string }.

Section fills.
Context {F : Type} `{Num F}.

(** The cash side of a fill: [Some] the settled database, or [None] with
    the reason the account cannot settle it. *)
Definition settle (d : LedgerDB) (trade : Trade) (cost reserved now : Z) : LedgerDB + string :=
  if bool_decide (tr_side trade = "buy") then
    let '(accounts, rowcount) :=
      update_row (tr_user_id trade) (λ a, released reserved a <=? cash_micros a - cost)
        (λ a, a <| cash_micros := cash_micros a - cost |>
                <| reserved_micros := released reserved a |> <| acc_updated_at := now |>)
        (db_accounts d) in
    if rowcount =? 1 then inl (d <| db_accounts := accounts |>)
    else inr "insufficient available cash at fill"
  else
    let held := held_quantity d (tr_user_id trade) (tr_asset trade) (Some (tr_id trade)) in
    if dec_ltb held (tr_quantity trade) then inr "sell quantity exceeds the current position"
    else
      inl (d <| db_accounts ::= λ m,
             (update_row (tr_user_id trade) (λ _, true)
                (λ a, a <| cash_micros := cash_micros a + cost |> <| acc_updated_at := now |>)
                m).1 |>).

(** [fill_order] *)
Definition fill_order (s : Session) (trade : Trade) (fill_price : F) (reserved : option Z)
    (now : Z) : Session * FillOutcome :=
  let reserved := default (trade_reservation_micros trade) reserved in
  let price := nrepr fill_price in
  let cost := notional_micros (tr_quantity trade) price in
  let '(d, won) :=
    cas_status (tr_id trade) "FILLED"
      (λ t, t <| tr_filled_price := Some price |> <| tr_filled_at := Some now |>)
      (working s) in
  if won then
    match settle d trade cost reserved now with
    | inr reason =>
        let '(s', _) := close_order (rollback s) trade "REJECTED" (Some reserved) now in
        (s', mkFillOutcome REJECTED (Some reason))
    | inl d =>
        (commit (s <| working := rebuild_positions (F:=F) d (tr_user_id trade) |>),
         mkFillOutcome FILLED None)
    end
  else (rollback s, mkFillOutcome NOT_OPEN None).
End fills.

(** ** Read models *)

Section reads.
Context {F : Type} `{Num F}.

(** [open_order_exposure] *)
Definition exposure_step (acc : gmap string Z * gmap string F) (t : Trade)
    : gmap string Z * gmap string F :=
  let '(buy_reserved, pending_sell) := acc in
  if bool_decide (tr_side t = "buy") then
    (<[tr_asset t := default 0 (buy_reserved !! tr_asset t) + trade_reservation_micros t]>
       buy_reserved, pending_sell)
  else
    (buy_reserved,
     <[tr_asset t := default n0 (pending_sell !! tr_asset t) ⊕ nof_dec (tr_quantity t)]>
       pending_sell).

Definition open_order_exposure (d : LedgerDB) (user_id : string)
    : gmap string Z * gmap string F :=
  foldl exposure_step (∅, ∅)
    (filter (λ t, tr_user_id t = user_id ∧ is_open (tr_status t) = true)
       (rows (db_trades d))).

Record account_view := mkAccountView {
  av_initial_cash : F;
  av_cash : F;
  av_reserved_cash : F;
  av_available_cash : F;
  av_positions_value : F;
  av_equity : F;
  av_total_pnl : F;
  av_gross_exposure : F;
  av_net_exposure : F;
  av_long_exposure : F;
  av_short_exposure : F;
  av_prices_stale : bool
}.

(** [account_snapshot], given the account row it opened or found. *)
Definition account_snapshot (initial_cash : F) (account : PaperAccount)
    (positions : list (position_view F)) : account_view :=
  let cash := cash_micros account in
  let reserved := reserved_micros account in
  let values := map (λ p, v_quantity p ⊗ v_current_price p) positions in
  let long_exposure := nsum (List.filter (λ v, v >.? n0) values) in
  let short_exposure := nopp (nsum (List.filter (λ v, v <.? n0) values)) in
  let equity := from_micros cash ⊕ nsum values in
  mkAccountView initial_cash (from_micros cash) (from_micros reserved)
    (from_micros (cash - reserved)) (nround (nsum values) 6) (nround equity 6)
    (nround (equity ⊖ initial_cash) 6) (nround (long_exposure ⊕ short_exposure) 6)
    (nround (long_exposure ⊖ short_exposure) 6) (nround long_exposure 6)
    (nround short_exposure 6) (existsb v_price_stale positions).
End reads.
Arguments account_view F : clear implicits.

(** ** The resting-order sweeper *)

Section sweeper.
Context {F : Type} `{Num F}.

Definition stop_triggered (side : string) (stop last : F) : bool :=
  if bool_decide (side = "buy") then last >=.? stop else last <=.? stop.

(** [_actionable]: the SQL condition. *)
Definition actionable (last : F) (t : Trade) : bool :=
  let has_limit := bool_decide (tr_order_type t = "limit" ∧ is_Some (tr_limit_price t)) in
  let has_stop := bool_decide ((tr_order_type t = "stop" ∨ tr_order_type t = "stop_limit")
                               ∧ is_Some (tr_stop_price t)) in
  let limit_ge := match tr_limit_price t with Some l => nof_dec l >=.? last | None => false end in
  let limit_le := match tr_limit_price t with Some l => nof_dec l <=.? last | None => false end in
  let stop_le := match tr_stop_price t with Some p => nof_dec p <=.? last | None => false end in
  let stop_ge := match tr_stop_price t with Some p => nof_dec p >=.? last | None => false end in
  (has_limit && ((bool_decide (tr_side t = "buy") && limit_ge)
                 || (bool_decide (tr_side t = "sell") && limit_le)))
  || (has_stop && ((bool_decide (tr_side t = "buy") && stop_le)
                   || (bool_decide (tr_side t = "sell") && stop_ge)))
  || (negb has_limit && negb has_stop).

(** What the loop body decides for one order at price [last]: a fill price,
    or the conversion of a triggered stop-limit into a limit order. *)
Inductive sweep_action :=
| SweepFill (price : F)
| SweepConvert
| SweepNothing.

Definition sweep_decision (last : F) (t : Trade) : sweep_action :=
  let limit := nof_dec <$> tr_limit_price t in
  let stop := nof_dec <$> tr_stop_price t in
  match bool_decide (tr_order_type t = "limit"), limit with
  | true, Some l =>
      match check_pending_limit_fill (tr_side t) l last with
      | Some p => SweepFill p
      | None => SweepNothing
      end
  | _, _ =>
      match bool_decide (tr_order_type t = "stop" ∨ tr_order_type t = "stop_limit"), stop with
      | true, Some st =>
          let fill := simulate_fill (tr_side t) (tr_order_type t) limit stop last in
          match bool_decide (fill_status fill = "FILLED"), fill_price fill with
          | true, Some p => SweepFill p
          | _, _ =>
              if bool_decide (tr_order_type t = "stop_limit")
                 && stop_triggered (tr_side t) st last
              then SweepConvert else SweepNothing
          end
      | _, _ => SweepFill last
      end
  end.

(** The conversion statement and its commit. *)
Definition convert_stop_limit (s : Session) (trade_id : string) : Session :=
  commit (s <| working ::= λ d, d <| db_trades ::= λ m,
    (update_row trade_id (λ t, bool_decide (tr_status t = "ACCEPTED"))
       (λ t, t <| tr_order_type := "limit" |>) m).1 |> |>).

(** One iteration of the inner loop; the row is read as it is then. *)
Definition sweep_order (last : F) (now : string → Z)
    (acc : Session * list (string * FillOutcome)) (trade_id : string)
    : Session * list (string * FillOutcome) :=
  let '(s, outcomes) := acc in
  match db_trades (working s) !! trade_id with
  | None => acc
  | Some t =>
      match sweep_decision last t with
      | SweepFill price =>
          let '(s, outcome) := fill_order s t price None (now trade_id) in
          (s, outcomes ++ [(trade_id, outcome)])
      | SweepConvert => (convert_stop_limit s trade_id, outcomes)
      | SweepNothing => acc
      end
  end.

Definition submitted_earlier (a b : Trade) : Prop := tr_submitted_at a ≤ tr_submitted_at b.
#[global] Instance submitted_earlier_dec a b : Decision (submitted_earlier a b).
Proof. unfold submitted_earlier. apply _. Defined.

Definition resting (d : LedgerDB) : list Trade :=
  filter (λ t, tr_status t = "ACCEPTED") (rows (db_trades d)).

(** The iteration of the outer loop for one asset. *)
Definition sweep_asset (last_price : string → option F) (now : string → Z)
    (acc : Session * list (string * FillOutcome)) (asset : string)
    : Session * list (string * FillOutcome) :=
  match last_price asset with
  | None => acc
  | Some last =>
      let trades := merge_sort submitted_earlier
        (filter (λ t, tr_asset t = asset ∧ actionable last t = true) (resting (working acc.1))) in
      foldl (sweep_order last now) acc (tr_id <$> trades)
  end.

(** [process_open_orders]; [last_price] is the executable price of each
    asset, if there is one, and [now] the clock at each order's fill. *)
Definition process_open_orders (last_price : string → option F) (now : string → Z)
    (s : Session) : Session * list (string * FillOutcome) :=
  foldl (sweep_asset last_price now) (s, [])
    (remove_dups (tr_asset <$> resting (working s))).
End sweeper.
Arguments sweep_action F : clear implicits.

(** ** Placing an order

    The part of the order route (backend/main.py, [place_order]) that runs
    after the request has been validated, risk-checked and signed. *)

Section placement.
Context {F : Type} `{Num F}.

(** The reservation and the insert of the order, in one transaction.
    [nonce_unused] is whether the order's security record passes the
    database's nonce uniqueness constraint at commit. *)
Definition place_order (s : Session) (trade : Trade) (reserve now : Z) (nonce_unused : bool)
    : Session * outcome HTTPException unit :=
  match db_trades (working s) !! tr_id trade with
  | Some _ => (s, Raise (mkHTTPException 409 "order_id was already used"))
  | None =>
      let '(s, reserved) := try_reserve s (tr_user_id trade) reserve now in
      if negb reserved then
        (rollback s, Raise (mkHTTPException 400 "insufficient available cash for this order"))
      else
        let s := s <| working ::= λ d, d <| db_trades ::= <[tr_id trade := trade]> |> |> in
        if nonce_unused then (commit s, Ret tt)
        else (rollback s, Raise (mkHTTPException 409 "order nonce has already been used"))
  end.

(** [trade.order_type = "limit"; db.commit()] on the ORM object. *)
Definition retype_as_limit (s : Session) (trade_id : string) : Session :=
  commit (s <| working ::= λ d, d <| db_trades ::= λ m,
    (update_row trade_id (λ _, true) (λ t, t <| tr_order_type := "limit" |>) m).1 |> |>).

(** The immediate execution of a placed order. *)
Definition execute_order (s : Session) (trade : Trade) (quote_stale : bool) (last_price : F)
    (reserve now : Z) : Session * option string :=
  let fill :=
    if quote_stale then mkFill "ACCEPTED" None
    else simulate_fill (tr_side trade) (tr_order_type trade)
           (nof_dec <$> tr_limit_price trade) (nof_dec <$> tr_stop_price trade) last_price in
  match bool_decide (fill_status fill = "FILLED"), fill_price fill with
  | true, Some px =>
      let '(s, out) := fill_order s trade px (Some reserve) now in (s, fo_reason out)
  | _, _ =>
      if bool_decide (tr_time_in_force trade = "ioc") then
        let '(s, _) := close_order s trade "EXPIRED" (Some reserve) now in (s, None)
      else
        let triggered :=
          negb quote_stale && bool_decide (tr_order_type trade = "stop_limit")
          && match tr_stop_price trade with
             | Some p => stop_triggered (tr_side trade) (nof_dec p) last_price
             | None => false
             end in
        let s := if triggered then retype_as_limit s (tr_id trade) else s in
        let '(s, _) := accept_order s trade in (s, None)
  end.
End placement.
