(* ===== verification/PaperBrokerFacts.v ===== *)
(** What the paper broker guarantees: the ledger invariant, the exactness of
    the cash reservations over any interleaving of order placement,
    acceptance, cancellation, conversion and fills, the outcome of a fill on
    every branch, and the agreement of the two folds that count holdings. *)

From S2P Require Import Prelude Numeric PyDecimal Models TradingService Portfolio PaperBroker.
From Stdlib Require Import QArith Lqa.
#[local] Open Scope Z_scope.

(** ** Amounts *)

Lemma notional_nonneg q p : 0 ≤ dcoef q → 0 ≤ dcoef p → 0 ≤ notional_micros q p.
Proof. intros. unfold notional_micros, to_micros. apply dec_to_int_nonneg, dec_mul_nonneg; cbn; auto; lia. Qed.

Definition price_ok (p : option dec) : Prop := match p with Some d => 0 ≤ dcoef d | None => True end.

Definition order_wf (t : Trade) : Prop :=
  0 ≤ dcoef (tr_quantity t) ∧ price_ok (tr_limit_price t) ∧ price_ok (tr_stop_price t).

Lemma reservation_nonneg side q ot lp sp mp :
  0 ≤ dcoef q → price_ok lp → price_ok sp → price_ok mp →
  0 ≤ reservation_micros side q ot lp sp mp.
Proof.
  intros Hq Hl Hs Hm. unfold reservation_micros. repeat case_bool_decide; try done;
    (destruct lp, sp, mp; cbn in *; try done; by apply notional_nonneg).
Qed.

Lemma trade_reservation_nonneg t : order_wf t → 0 ≤ trade_reservation_micros t.
Proof.
  intros (Hq & Hl & Hs). unfold trade_reservation_micros. case_bool_decide; [done|].
  by apply reservation_nonneg.
Qed.
#[export] Hint Resolve notional_nonneg trade_reservation_nonneg : core.

(** What is released later is what was reserved: the two amounts are computed
    from the same fields by the same function, whatever the market price was. *)
Lemma reservation_stable t market_price :
  tr_order_type t ≠ "market" →
  tr_order_type t = "limit" ∨ tr_order_type t = "stop_limit" ∨ tr_order_type t = "stop" →
  reservation_micros (tr_side t) (tr_quantity t) (tr_order_type t)
    (tr_limit_price t) (tr_stop_price t) market_price = trade_reservation_micros t.
Proof.
  intros Hm Ht. unfold trade_reservation_micros, reservation_micros.
  rewrite (bool_decide_eq_false_2 _ Hm).
  repeat case_bool_decide; try done; naive_solver.
Qed.

(** ** Account rows *)

Definition account_ok (a : PaperAccount) : Prop := 0 ≤ reserved_micros a ≤ cash_micros a.

Lemma released_bounds amount a :
  account_ok a → 0 ≤ amount → 0 ≤ released amount a ≤ reserved_micros a.
Proof. unfold account_ok, released. intros. destruct (Z.leb_spec amount (reserved_micros a)); lia. Qed.

Definition accounts_ok (d : LedgerDB) : Prop := map_Forall (λ _, account_ok) (db_accounts d).

Lemma try_reserve_ok s u amount now :
  accounts_ok (working s) → accounts_ok (working (try_reserve s u amount now).1).
Proof.
  intros Hok. unfold try_reserve. destruct (Z.leb_spec amount 0); [done|].
  destruct (update_row _ _ _ _) as [m rc] eqn:E. cbn. change m with (m, rc).1. rewrite <-E.
  apply update_row_forall; [done|]. intros a _ G Ha. bsimpl. unfold account_ok in *. cbn. lia.
Qed.

Lemma release_ok u amount now d :
  accounts_ok d → 0 ≤ amount → accounts_ok (release_stmt u amount now d).
Proof.
  intros Hok Hn. apply update_row_forall; [done|]. intros a _ _ Ha.
  pose proof (released_bounds amount a Ha Hn). unfold account_ok in *. cbn. lia.
Qed.

Lemma settle_ok d t cost reserved now d' :
  accounts_ok d → 0 ≤ reserved → 0 ≤ cost →
  settle d t cost reserved now = inl d' → accounts_ok d'.
Proof.
  intros Hok Hr Hc. unfold settle. case_bool_decide.
  - destruct (update_row _ _ _ _) as [m rc] eqn:E. destruct (rc =? 1); [|done]. intros [= <-].
    cbn. change m with (m, rc).1. rewrite <-E. apply update_row_forall; [done|].
    intros a _ G Ha. bsimpl. pose proof (released_bounds reserved a Ha Hr).
    unfold account_ok in *. cbn in *. lia.
  - destruct (dec_ltb _ _); [done|]. intros [= <-]. apply update_row_forall; [done|].
    intros a _ _ Ha. unfold account_ok in *. cbn. lia.
Qed.

Lemma settle_trades d t cost reserved now d' :
  settle d t cost reserved now = inl d' → db_trades d' = db_trades d.
Proof.
  unfold settle. case_bool_decide.
  - destruct (update_row _ _ _ _) as [m rc]. destruct (rc =? 1); [|done]. by intros [= <-].
  - destruct (dec_ltb _ _); [done|]. by intros [= <-].
Qed.

(** ** The operations, on a session with nothing pending *)

Lemma cas_status_cases id st f d :
  (∃ row, db_trades d !! id = Some row ∧ is_open (tr_status row) = true ∧
     cas_status id st f d =
       (d <| db_trades := <[id := f (row <| tr_status := st |>)]> (db_trades d) |>, true)) ∨
  ((∀ row, db_trades d !! id = Some row → is_open (tr_status row) = false) ∧
     cas_status id st f d = (d, false)).
Proof.
  unfold cas_status, update_row. destruct (db_trades d !! id) as [row|] eqn:E.
  - destruct (is_open (tr_status row)) eqn:Ho.
    + left. eauto.
    + right. split; [|by destruct d]. intros row' [= <-]. done.
  - right. split; [done|by destruct d].
Qed.

Definition close_effect (d : LedgerDB) (trade row : Trade) (st : string) (r now : Z) : LedgerDB :=
  let d := d <| db_trades := <[tr_id trade := row <| tr_status := st |>]> (db_trades d) |> in
  if 0 <? r then release_stmt (tr_user_id trade) r now d else d.

Lemma close_order_cases d trade st reserved now :
  let r := default (trade_reservation_micros trade) reserved in
  (∃ row, db_trades d !! tr_id trade = Some row ∧ is_open (tr_status row) = true ∧
     close_order (begin_session d) trade st reserved now =
       (begin_session (close_effect d trade row st r now), true)) ∨
  ((∀ row, db_trades d !! tr_id trade = Some row → is_open (tr_status row) = false) ∧
     close_order (begin_session d) trade st reserved now = (begin_session d, false)).
Proof.
  intros r. unfold close_order. fold r. cbn [working begin_session].
  destruct (cas_status_cases (tr_id trade) st id d) as [(row & Hr & Ho & ->)|(Hn & ->)].
  - left. exists row. split_and!; [done..|]. done.
  - right. done.
Qed.

Definition fill_effect (d : LedgerDB) (trade row : Trade) (price : dec) (now : Z) : LedgerDB :=
  d <| db_trades :=
    <[tr_id trade := row <| tr_status := "FILLED" |> <| tr_filled_price := Some price |>
                         <| tr_filled_at := Some now |>]> (db_trades d) |>.

Section fill_facts.
Context {F : Type} `{Num F}.

(** The outcome of a fill, branch by branch. *)
Lemma fill_order_cases d trade (px : F) reserved now :
  let r := default (trade_reservation_micros trade) reserved in
  let cost := notional_micros (tr_quantity trade) (nrepr px) in
  (∃ row d', db_trades d !! tr_id trade = Some row ∧ is_open (tr_status row) = true ∧
     settle (fill_effect d trade row (nrepr px) now) trade cost r now = inl d' ∧
     fill_order (begin_session d) trade px reserved now =
       (begin_session (rebuild_positions (F:=F) d' (tr_user_id trade)), mkFillOutcome FILLED None)) ∨
  (∃ row reason, db_trades d !! tr_id trade = Some row ∧ is_open (tr_status row) = true ∧
     settle (fill_effect d trade row (nrepr px) now) trade cost r now = inr reason ∧
     fill_order (begin_session d) trade px reserved now =
       (begin_session (close_effect d trade row "REJECTED" r now),
        mkFillOutcome REJECTED (Some reason))) ∨
  ((∀ row, db_trades d !! tr_id trade = Some row → is_open (tr_status row) = false) ∧
     fill_order (begin_session d) trade px reserved now =
       (begin_session d, mkFillOutcome NOT_OPEN None)).
Proof.
  intros r cost. unfold fill_order. fold r cost. cbn [working begin_session].
  destruct (cas_status_cases (tr_id trade) "FILLED"
    (λ t, t <| tr_filled_price := Some (nrepr px) |> <| tr_filled_at := Some now |>) d)
    as [(row & Hr & Ho & ->)|(Hn & ->)]; [|by right; right].
  unfold fill_effect. destruct (settle _ _ _ _ _) as [d'|reason] eqn:Es.
  - left. exists row, d'. split_and!; [done..|exact Es|]. done.
  - right; left. exists row, reason. split_and!; [done..|exact Es|].
    change (rollback _) with (begin_session d).
    destruct (close_order_cases d trade "REJECTED" (Some r) now) as [(row' & Hr' & _ & ->)|(Hn & _)].
    + by simplify_eq.
    + specialize (Hn _ Hr). congruence.
Qed.

Lemma close_effect_ok d trade row st r now :
  accounts_ok d → 0 ≤ r → accounts_ok (close_effect d trade row st r now).
Proof. intros. unfold close_effect. destruct (0 <? r); [by apply release_ok|done]. Qed.

Lemma fill_order_ok d trade (px : F) reserved now :
  accounts_ok d → 0 ≤ default (trade_reservation_micros trade) reserved →
  0 ≤ notional_micros (tr_quantity trade) (nrepr px) →
  accounts_ok (committed (fill_order (begin_session d) trade px reserved now).1).
Proof.
  intros Hok Hr Hc.
  destruct (fill_order_cases d trade px reserved now)
    as [(row & d' & _ & _ & Hs & ->)|[(row & reason & _ & _ & _ & ->)|[_ ->]]]; cbn.
  - by eapply settle_ok in Hs.
  - by apply close_effect_ok.
  - done.
Qed.
End fill_facts.

(** ** The broker as a transition system

    One step is one committed operation of one session; any number of
    sessions interleave their operations. The ghost map [bs_holds] remembers,
    per order, the amount [reservation_micros] returned when it was placed:
    a market order's cannot be recomputed from the order. *)

Record bstate := mkBstate { bs_db : LedgerDB; bs_holds : gmap string Z }.

Definition held_amount (holds : gmap string Z) (t : Trade) : Z :=
  if bool_decide (tr_order_type t = "market") then default 0 (holds !! tr_id t)
  else trade_reservation_micros t.

(** A session's copy of an order names its row: the columns that never change
    agree, and so does the reservation. *)
Definition copy_of (t row : Trade) (holds : gmap string Z) : Prop :=
  tr_id t = tr_id row ∧ tr_user_id t = tr_user_id row ∧ tr_side t = tr_side row ∧
  tr_quantity t = tr_quantity row ∧ held_amount holds t = held_amount holds row.

(** The [reserved] argument an operation is called with. *)
Definition reserved_arg (holds : gmap string Z) (t : Trade) (reserved : option Z) : Prop :=
  default (trade_reservation_micros t) reserved = held_amount holds t.

Inductive broker_step {F} `{Num F} : bstate → bstate → Prop :=
| step_open_account d holds read initial u now :
    (* [read] is the earlier state the account's history was replayed from *)
    db_accounts read !! u = None →
    map_Forall (λ _, order_wf) (db_trades read) →
    (∀ k t, db_trades read !! k = Some t → tr_user_id t = u → is_open (tr_status t) = false) →
    (∀ k t, db_trades d !! k = Some t → tr_user_id t = u → is_open (tr_status t) = false) →
    broker_step (mkBstate d holds)
      (mkBstate (committed (get_or_create_account initial (λ _, d) (begin_session read) u now).1)
         holds)
| step_place d holds t market now nonce_unused :
    order_wf t → tr_status t = "PENDING" → price_ok market →
    tr_order_type t ∈ ["market"; "limit"; "stop"; "stop_limit"] →
    let reserve := reservation_micros (tr_side t) (tr_quantity t) (tr_order_type t)
                     (tr_limit_price t) (tr_stop_price t) market in
    broker_step (mkBstate d holds)
      (mkBstate (committed (place_order (begin_session d) t reserve now nonce_unused).1)
         (match db_trades d !! tr_id t with
          | Some _ => holds
          | None => <[tr_id t := reserve]> holds
          end))
| step_accept d holds t :
    broker_step (mkBstate d holds) (mkBstate (committed (accept_order (begin_session d) t).1) holds)
| step_close d holds t to_status reserved now :
    (∀ row, db_trades d !! tr_id t = Some row → copy_of t row holds) →
    reserved_arg holds t reserved → is_open to_status = false →
    broker_step (mkBstate d holds)
      (mkBstate (committed (close_order (begin_session d) t to_status reserved now).1) holds)
| step_fill d holds t (px : F) reserved now :
    (∀ row, db_trades d !! tr_id t = Some row → copy_of t row holds) →
    reserved_arg holds t reserved → 0 ≤ dcoef (nrepr px) →
    broker_step (mkBstate d holds)
      (mkBstate (committed (fill_order (begin_session d) t px reserved now).1) holds)
| step_convert d holds id (guard : Trade → bool) :
    (∀ row, db_trades d !! id = Some row → tr_order_type row ∈ ["limit"; "stop_limit"]) →
    broker_step (mkBstate d holds)
      (mkBstate (d <| db_trades ::= λ m,
          (update_row id guard (λ t, t <| tr_order_type := "limit" |>) m).1 |>) holds).

(** The share of a user's reserved cash that one order accounts for. *)
Definition share (holds : gmap string Z) (u : string) (t : Trade) : Z :=
  if bool_decide (tr_user_id t = u) && is_open (tr_status t) then held_amount holds t else 0.

Definition open_reserved (st : bstate) (u : string) : Z :=
  map_sum (share (bs_holds st) u) (db_trades (bs_db st)).

Record broker_inv (st : bstate) : Prop := {
  inv_keys : map_Forall (λ k t, tr_id t = k) (db_trades (bs_db st));
  inv_wf : map_Forall (λ _, order_wf) (db_trades (bs_db st));
  inv_holds : map_Forall (λ _ z, 0 ≤ z) (bs_holds st);
  inv_sells : ∀ k t, db_trades (bs_db st) !! k = Some t → tr_side t ≠ "buy" →
              held_amount (bs_holds st) t = 0;
  inv_accounts : accounts_ok (bs_db st);
  inv_reserved : ∀ u a, db_accounts (bs_db st) !! u = Some a →
                 reserved_micros a = open_reserved st u
}.

Lemma held_amount_nonneg holds t :
  map_Forall (λ _ z, 0 ≤ z) holds → order_wf t → 0 ≤ held_amount holds t.
Proof.
  intros Hh Hw. unfold held_amount. case_bool_decide; [|auto].
  destruct (holds !! tr_id t) eqn:E; cbn; [by eapply Hh in E|done].
Qed.

Lemma share_nonneg holds u t : map_Forall (λ _ z, 0 ≤ z) holds → order_wf t → 0 ≤ share holds u t.
Proof. intros. unfold share. destruct (_ && _); [by apply held_amount_nonneg|done]. Qed.

(** Rewriting one order's row. *)
Lemma open_reserved_update d holds k t t' u :
  db_trades d !! k = Some t →
  map_sum (share holds u) (<[k := t']> (db_trades d)) =
  open_reserved (mkBstate d holds) u - share holds u t + share holds u t'.
Proof. intros. by apply map_sum_insert_old. Qed.

Lemma share_closed holds u t : is_open (tr_status t) = false → share holds u t = 0.
Proof. intros E. unfold share. rewrite E, andb_false_r. done. Qed.

Lemma share_open holds t : is_open (tr_status t) = true → share holds (tr_user_id t) t = held_amount holds t.
Proof. intros E. unfold share. by rewrite E, bool_decide_eq_true_2 by done. Qed.

Lemma share_other holds u t : tr_user_id t ≠ u → share holds u t = 0.
Proof. intros E. unfold share. by rewrite bool_decide_eq_false_2 by done. Qed.

(** An order of a well-formed state is never worth more than the sum. *)
Lemma share_le_reserved st k t :
  broker_inv st → db_trades (bs_db st) !! k = Some t →
  share (bs_holds st) (tr_user_id t) t ≤ open_reserved st (tr_user_id t).
Proof.
  intros Hi Ht. unfold open_reserved. apply (map_sum_elem _ k); [|done].
  intros j w Hj. apply share_nonneg; [apply Hi|by eapply (inv_wf _ Hi)].
Qed.

(** *** Preservation *)

Lemma inv_with_row d holds k row row' accounts' positions' :
  broker_inv (mkBstate d holds) → db_trades d !! k = Some row →
  tr_id row' = tr_id row → order_wf row' → tr_side row' = tr_side row →
  held_amount holds row' = held_amount holds row →
  map_Forall (λ _, account_ok) accounts' →
  (∀ u a, accounts' !! u = Some a →
     reserved_micros a = open_reserved (mkBstate d holds) u - share holds u row + share holds u row') →
  broker_inv (mkBstate (mkLedgerDB (<[k := row']> (db_trades d)) accounts' positions') holds).
Proof.
  intros Hi Hr Hid Hw Hs Hh Ha Hres. split; cbn.
  - apply map_Forall_insert_2; [|apply (inv_keys _ Hi)]. rewrite Hid. by eapply (inv_keys _ Hi).
  - apply map_Forall_insert_2; [done|apply (inv_wf _ Hi)].
  - apply (inv_holds _ Hi).
  - intros j t [[-> <-]|[_ Hj]]%lookup_insert_Some; [|by eapply (inv_sells _ Hi)].
    rewrite Hs, Hh. by eapply (inv_sells _ Hi).
  - done.
  - intros u a Hu. rewrite (Hres u a Hu). unfold open_reserved at 2. cbn.
    by rewrite (open_reserved_update d holds k row row' u).
Qed.

Lemma inv_rebuild {F} `{Num F} d holds u :
  broker_inv (mkBstate d holds) → broker_inv (mkBstate (rebuild_positions (F:=F) d u) holds).
Proof. intros []. by split. Qed.

(** Releasing exactly an open order's share keeps every account exact. *)
Lemma released_exact d holds k row u a :
  broker_inv (mkBstate d holds) → db_trades d !! k = Some row → is_open (tr_status row) = true →
  db_accounts d !! u = Some a → tr_user_id row = u →
  released (held_amount holds row) a =
  open_reserved (mkBstate d holds) u - held_amount holds row.
Proof.
  intros Hi Hr Ho Ha <-. pose proof (share_le_reserved _ k row Hi Hr) as Hle. cbn in Hle.
  rewrite share_open in Hle by done. pose proof (inv_reserved _ Hi _ _ Ha) as He. cbn in He.
  unfold released. destruct (Z.leb_spec (held_amount holds row) (reserved_micros a)); lia.
Qed.

Lemma close_inv d holds trade row st r now :
  broker_inv (mkBstate d holds) → db_trades d !! tr_id trade = Some row →
  is_open (tr_status row) = true → is_open st = false →
  tr_user_id trade = tr_user_id row → r = held_amount holds row →
  broker_inv (mkBstate (close_effect d trade row st r now) holds).
Proof.
  intros Hi Hr Ho Hc Hu ->. unfold close_effect.
  set (row' := row <| tr_status := st |>).
  assert (Hw : order_wf row) by (by eapply (inv_wf _ Hi)).
  assert (0 ≤ held_amount holds row) as Hn by (by apply held_amount_nonneg; [apply Hi|]).
  assert (∀ u, share holds u row' = 0) as Hz by (intros u; by apply share_closed).
  assert (∀ d', db_trades d' = <[tr_id trade := row']> (db_trades d) →
            map_Forall (λ _, account_ok) (db_accounts d') →
            (∀ u a, db_accounts d' !! u = Some a →
               reserved_micros a = open_reserved (mkBstate d holds) u - share holds u row + 0) →
            broker_inv (mkBstate d' holds)) as Hgen.
  { intros [tr' ac' po'] Htr Hac Hres. cbn in *. subst tr'. eapply inv_with_row; try done.
    intros u a Ha. rewrite Hz. by apply Hres. }
  destruct (Z.ltb_spec 0 (held_amount holds row)) as [Hpos|Hzero]; apply Hgen; cbn; try done.
  - by apply (release_ok (tr_user_id trade) (held_amount holds row) now d); [apply Hi|].
  - intros u a Ha. destruct (decide (u = tr_user_id trade)) as [->|Hne].
    + rewrite Hu. rewrite share_open by done. unfold update_row in Ha.
      destruct (db_accounts d !! tr_user_id trade) as [a0|] eqn:E0; cbn in Ha; [|congruence].
      rewrite lookup_insert_eq in Ha. injection Ha as <-. cbn.
      rewrite (released_exact d holds (tr_id trade) row (tr_user_id trade)) by done. rewrite Hu. lia.
    + rewrite update_row_other in Ha by done. rewrite share_other by congruence.
      rewrite (inv_reserved _ Hi _ _ Ha). lia.
  - apply Hi.
  - intros u a Ha. rewrite (inv_reserved _ Hi _ _ Ha).
    destruct (decide (tr_user_id row = u)) as [<-|Hne].
    + rewrite share_open by done. lia.
    + rewrite share_other by done. lia.
Qed.

Lemma settle_reserved d trade cost r now d' u a' :
  settle d trade cost r now = inl d' → db_accounts d' !! u = Some a' →
  ∃ a, db_accounts d !! u = Some a ∧
    reserved_micros a' =
      if bool_decide (u = tr_user_id trade) && bool_decide (tr_side trade = "buy")
      then released r a else reserved_micros a.
Proof.
  unfold settle. destruct (decide (tr_side trade = "buy")) as [Hb|Hb].
  - rewrite !(bool_decide_eq_true_2 _ Hb), andb_true_r. destruct (update_row _ _ _ _) as [m rc] eqn:E.
    destruct (rc =? 1) eqn:Hrc; [|done]. intros [= <-]. cbn. change m with (m, rc).1. rewrite <-E.
    case_bool_decide as Hu; [subst u|rewrite update_row_other by done; eauto].
    unfold update_row. destruct (db_accounts d !! tr_user_id trade) as [a|] eqn:Ea; cbn; [|congruence].
    destruct (_ <=? _) eqn:G; cbn; [rewrite lookup_insert_eq; intros [= <-]; eauto|].
    unfold update_row in E. rewrite Ea, G in E. by injection E as <- <-.
  - rewrite !(bool_decide_eq_false_2 _ Hb), andb_false_r. destruct (dec_ltb _ _); [done|]. intros [= <-].
    cbn. destruct (decide (u = tr_user_id trade)) as [->|Hne]; [|rewrite update_row_other by done; eauto].
    unfold update_row. destruct (db_accounts d !! tr_user_id trade) as [a|] eqn:Ea; cbn; [|congruence].
    rewrite lookup_insert_eq. intros [= <-]. eauto.
Qed.

Lemma fill_inv {F} `{Num F} d holds t (px : F) reserved now :
  broker_inv (mkBstate d holds) →
  (∀ row, db_trades d !! tr_id t = Some row → copy_of t row holds) →
  reserved_arg holds t reserved → 0 ≤ dcoef (nrepr px) →
  broker_inv (mkBstate (committed (fill_order (begin_session d) t px reserved now).1) holds).
Proof.
  intros Hi Hc Hr Hp. red in Hr.
  destruct (fill_order_cases d t px reserved now)
    as [(row & d' & Hrow & Ho & Hs & ->)|[(row & reason & Hrow & Ho & _ & ->)|[_ ->]]]; cbn; [| |done];
    rewrite Hr in *; destruct (Hc _ Hrow) as (Hid & Hu & Hside & Hq & Hh);
    assert (Hw : order_wf row) by (by eapply (inv_wf _ Hi)).
  - apply inv_rebuild. pose proof (settle_trades _ _ _ _ _ _ Hs) as Htr.
    assert (accounts_ok d') as Hac.
    { eapply settle_ok; [| | |exact Hs]; cbn; [apply (inv_accounts _ Hi)| |].
      - rewrite Hh. by apply held_amount_nonneg; [apply Hi|].
      - apply notional_nonneg; [|done]. rewrite Hq. apply Hw. }
    destruct d' as [tr' ac' po']. cbn in Htr. subst tr'. eapply inv_with_row; try done.
    intros u a' Ha'. rewrite (share_closed holds u (mkTrade _ _ _ _ _ _ _ _ _ _ _ _ _)) by done.
    destruct (settle_reserved _ _ _ _ _ _ u a' Hs Ha') as (a & Ha & ->). cbn in Ha.
    destruct (decide (u = tr_user_id t)) as [->|Hne].
    + rewrite (bool_decide_eq_true_2 (tr_user_id t = _)) by done. cbn [andb].
      rewrite Hu, share_open by done. destruct (decide (tr_side t = "buy")) as [Hb|Hb].
      * rewrite bool_decide_eq_true_2 by done. rewrite Hh, <-Hu.
        rewrite (released_exact d holds (tr_id t) row (tr_user_id t) a Hi Hrow Ho Ha (eq_sym Hu)). lia.
      * rewrite bool_decide_eq_false_2 by done.
        pose proof (inv_sells _ Hi (tr_id t) row Hrow ltac:(congruence)) as Hz. cbn in Hz. rewrite Hz.
        rewrite (inv_reserved _ Hi _ _ Ha), Hu. lia.
    + rewrite (bool_decide_eq_false_2 (u = tr_user_id t)) by done. cbn [andb].
      rewrite share_other by congruence. rewrite (inv_reserved _ Hi _ _ Ha). lia.
  - by eapply close_inv.
Qed.

Lemma accept_inv d holds t :
  broker_inv (mkBstate d holds) →
  broker_inv (mkBstate (committed (accept_order (begin_session d) t).1) holds).
Proof.
  intros Hi. unfold accept_order. cbn [working begin_session]. unfold update_row.
  destruct (db_trades d !! tr_id t) as [row|] eqn:Hr; [case_bool_decide as Hp|];
    cbn; [|by destruct d..].
  eapply inv_with_row; try done; [by eapply (inv_wf _ Hi) in Hr|apply (inv_accounts _ Hi)|].
  intros u a Ha. rewrite (inv_reserved _ Hi _ _ Ha). unfold share. cbn [tr_status tr_user_id].
  rewrite Hp. change (is_open "PENDING") with true. change (is_open "ACCEPTED") with true.
  unfold held_amount, trade_reservation_micros. cbn. lia.
Qed.

Lemma convert_inv d holds id guard :
  broker_inv (mkBstate d holds) →
  (∀ row, db_trades d !! id = Some row → tr_order_type row ∈ ["limit"; "stop_limit"]) →
  broker_inv (mkBstate (d <| db_trades ::= λ m,
    (update_row id guard (λ t, t <| tr_order_type := "limit" |>) m).1 |>) holds).
Proof.
  intros Hi Ht. unfold update_row. cbn.
  destruct (db_trades d !! id) as [row|] eqn:Hr; [destruct (guard row)|]; cbn; [|by destruct d..].
  specialize (Ht _ eq_refl).
  assert (∀ h, held_amount h (row <| tr_order_type := "limit" |>) = held_amount h row) as Hh.
  { intros h. unfold held_amount, trade_reservation_micros, reservation_micros. cbn.
    rewrite !elem_of_cons in Ht. destruct Ht as [-> |[-> |[]%elem_of_nil]]; done. }
  eapply inv_with_row; try done; [by eapply (inv_wf _ Hi) in Hr|apply (inv_accounts _ Hi)|].
  intros u a Ha. rewrite (inv_reserved _ Hi _ _ Ha). unfold share. rewrite Hh. cbn. lia.
Qed.

Lemma replay_reserved trades cash :
  Forall (λ t, is_open (tr_status t) = false) trades →
  (foldl replay_trade (cash, 0) trades).2 = 0.
Proof.
  revert cash; induction trades as [|t ts IH]; intros cash Hts; [done|].
  inversion Hts as [|?? Ho Hts']; subst. cbn [foldl]. unfold replay_trade at 2. rewrite Ho.
  destruct (bool_decide _), (tr_filled_price t); by apply IH.
Qed.

Lemma open_account_inv d holds read initial u now :
  broker_inv (mkBstate d holds) → db_accounts read !! u = None →
  (∀ k t, db_trades read !! k = Some t → tr_user_id t = u → is_open (tr_status t) = false) →
  (∀ k t, db_trades d !! k = Some t → tr_user_id t = u → is_open (tr_status t) = false) →
  broker_inv (mkBstate
    (committed (get_or_create_account initial (λ _, d) (begin_session read) u now).1) holds).
Proof.
  intros Hi Hnone Hread Hd. unfold get_or_create_account. cbn [working begin_session].
  rewrite Hnone. destruct (foldl _ _ _) as [cash reserved] eqn:Ef.
  assert (reserved = 0) as ->.
  { change reserved with (cash, reserved).2. rewrite <-Ef. apply replay_reserved, Forall_forall.
    intros t [Hu [k Hk]%elem_of_rows]%list_elem_of_filter. by eapply Hread. }
  destruct (db_accounts d !! u) as [a|] eqn:Ha; cbn; [done|]. split; cbn; try apply Hi.
  - apply map_Forall_insert_2; [|apply (inv_accounts _ Hi)]. unfold account_ok. cbn. lia.
  - intros v b [[<- <-]|[Hne Hb]]%lookup_insert_Some; [|by apply (inv_reserved _ Hi)].
    cbn. rewrite Z.min_l by lia. symmetry. unfold open_reserved. cbn. apply map_sum_zero.
    intros k t Hk. destruct (decide (tr_user_id t = u)) as [Hu|Hu]; [|by apply share_other].
    apply share_closed. by eapply Hd.
Qed.

Lemma held_amount_fresh holds id z t :
  tr_id t ≠ id → held_amount (<[id := z]> holds) t = held_amount holds t.
Proof. intros. unfold held_amount. by rewrite lookup_insert_ne. Qed.

Lemma open_reserved_fresh d holds id z u :
  broker_inv (mkBstate d holds) → db_trades d !! id = None →
  open_reserved (mkBstate d (<[id := z]> holds)) u = open_reserved (mkBstate d holds) u.
Proof.
  intros Hi Hid. unfold open_reserved. cbn.
  apply map_sum_ext. intros k t Hk. unfold share.
  rewrite held_amount_fresh; [done|]. rewrite (inv_keys _ Hi _ _ Hk). congruence.
Qed.

Lemma inv_fresh_hold d holds id z :
  broker_inv (mkBstate d holds) → db_trades d !! id = None → 0 ≤ z →
  broker_inv (mkBstate d (<[id := z]> holds)).
Proof.
  intros Hi Hid Hz. split; cbn; try apply Hi.
  - by apply map_Forall_insert_2; [|apply (inv_holds _ Hi)].
  - intros k t Hk Hs. rewrite held_amount_fresh; [by eapply (inv_sells _ Hi)|].
    rewrite (inv_keys _ Hi _ _ Hk). congruence.
  - intros u a Ha. rewrite open_reserved_fresh by done. by apply (inv_reserved _ Hi).
Qed.

(** Inserting a fresh open order whose reservation has been taken. *)
Lemma inv_insert_order d holds t accounts' :
  broker_inv (mkBstate d holds) → db_trades d !! tr_id t = None → order_wf t →
  (tr_side t ≠ "buy" → held_amount holds t = 0) → is_open (tr_status t) = true →
  map_Forall (λ _, account_ok) accounts' →
  (∀ u a, accounts' !! u = Some a →
     reserved_micros a = open_reserved (mkBstate d holds) u + share holds u t) →
  broker_inv (mkBstate (mkLedgerDB (<[tr_id t := t]> (db_trades d)) accounts' (db_positions d)) holds).
Proof.
  intros Hi Hid Hw Hs Ho Ha Hres. split; cbn.
  - by apply map_Forall_insert_2; [|apply (inv_keys _ Hi)].
  - by apply map_Forall_insert_2; [|apply (inv_wf _ Hi)].
  - apply (inv_holds _ Hi).
  - intros j t' [[<- <-]|[_ Hj]]%lookup_insert_Some; [done|by eapply (inv_sells _ Hi)].
  - done.
  - intros u a Hu. rewrite (Hres _ _ Hu). unfold open_reserved at 2. cbn.
    rewrite map_sum_insert_new by done. unfold open_reserved. cbn. lia.
Qed.

Lemma place_inv d holds t market now nonce_unused :
  broker_inv (mkBstate d holds) → order_wf t → tr_status t = "PENDING" → price_ok market →
  tr_order_type t ∈ ["market"; "limit"; "stop"; "stop_limit"] →
  let reserve := reservation_micros (tr_side t) (tr_quantity t) (tr_order_type t)
                   (tr_limit_price t) (tr_stop_price t) market in
  broker_inv (mkBstate (committed (place_order (begin_session d) t reserve now nonce_unused).1)
    (match db_trades d !! tr_id t with Some _ => holds | None => <[tr_id t := reserve]> holds end)).
Proof.
  intros Hi Hw Hp Hm Hty reserve. unfold place_order. cbn [working begin_session].
  destruct (db_trades d !! tr_id t) as [old|] eqn:Hid; [done|].
  assert (0 ≤ reserve) as Hr by (destruct Hw as (? & ? & ?); by apply reservation_nonneg).
  pose proof (inv_fresh_hold d holds (tr_id t) reserve Hi Hid Hr) as Hi'.
  set (holds' := <[tr_id t := reserve]> holds) in *.
  assert (held_amount holds' t = reserve) as Hh.
  { unfold held_amount. case_bool_decide as Ht; [unfold holds'; by rewrite lookup_insert_eq|].
    symmetry. apply reservation_stable; [done|]. rewrite !elem_of_cons in Hty.
    destruct Hty as [?|[?|[?|[?|[]%elem_of_nil]]]]; tauto. }
  assert (is_open (tr_status t) = true) as Ho by by rewrite Hp.
  assert (tr_side t ≠ "buy" → held_amount holds' t = 0) as Hside.
  { intros Hs. rewrite Hh. unfold reserve, reservation_micros. by rewrite bool_decide_eq_true_2. }
  unfold try_reserve. destruct (Z.leb_spec reserve 0) as [Hz|Hz].
  { cbn. destruct nonce_unused; cbn; [|done].
    apply inv_insert_order; try done; [apply (inv_accounts _ Hi')|].
    intros u a Ha. rewrite (inv_reserved _ Hi' _ _ Ha). unfold share.
    destruct (_ && _); rewrite ?Hh; lia. }
  cbn [working begin_session]. unfold update_row.
  destruct (db_accounts d !! tr_user_id t) as [a|] eqn:Ha; cbn; [|done].
  destruct (Z.leb_spec reserve (cash_micros a - reserved_micros a)); cbn; [|done].
  destruct nonce_unused; cbn; [|done].
  apply inv_insert_order; try done.
  - apply map_Forall_insert_2; [|apply (inv_accounts _ Hi')].
    pose proof (inv_accounts _ Hi _ _ Ha) as Hok. unfold account_ok in *. cbn. lia.
  - intros u b [[<- <-]|[Hne Hb]]%lookup_insert_Some.
    + cbn. rewrite share_open, Hh by done. rewrite (inv_reserved _ Hi' _ _ Ha). done.
    + rewrite share_other by done. rewrite (inv_reserved _ Hi' _ _ Hb). lia.
Qed.

Lemma broker_step_inv {F} `{Num F} st st' : broker_step st st' → broker_inv st → broker_inv st'.
Proof.
  destruct 1; intros Hi.
  - by apply open_account_inv.
  - by apply place_inv.
  - by apply accept_inv.
  - unfold reserved_arg in *. cbn zeta in *.
    destruct (close_order_cases d t to_status reserved now) as [(row & Hr & Ho & ->)|[_ ->]]; cbn; [|done].
    destruct (H0 _ Hr) as (_ & ? & _ & _ & ?). apply (close_inv d holds t row); congruence.
  - by apply fill_inv.
  - by apply convert_inv.
Qed.

Definition empty_ledger : bstate := mkBstate (mkLedgerDB ∅ ∅ []) ∅.

Lemma empty_ledger_inv : broker_inv empty_ledger.
Proof. split; cbn; try apply map_Forall_empty; intros ?? Hx; by rewrite lookup_empty in Hx. Qed.

Lemma broker_steps_inv {F} `{Num F} st st' : rtc broker_step st st' → broker_inv st → broker_inv st'.
Proof. induction 1; eauto using broker_step_inv. Qed.

(** A session's operation touches no other order. *)
Lemma fill_order_other {F} `{Num F} d t (px : F) reserved now j :
  j ≠ tr_id t →
  db_trades (committed (fill_order (begin_session d) t px reserved now).1) !! j = db_trades d !! j.
Proof.
  intros Hj. destruct (fill_order_cases d t px reserved now)
    as [(row & d' & _ & _ & Hs & ->)|[(row & reason & _ & _ & _ & ->)|[_ ->]]]; cbn; [| |done].
  - rewrite (settle_trades _ _ _ _ _ _ Hs). cbn. by rewrite lookup_insert_ne.
  - unfold close_effect. destruct (0 <? _); cbn; by rewrite lookup_insert_ne.
Qed.

Lemma fill_order_session {F} `{Num F} d t (px : F) reserved now :
  let s := (fill_order (begin_session d) t px reserved now).1 in s = begin_session (committed s).
Proof.
  cbn. destruct (fill_order_cases d t px reserved now)
    as [(row & d' & _ & _ & _ & ->)|[(row & reason & _ & _ & _ & ->)|[_ ->]]]; done.
Qed.

(** C1: whatever sequence of operations concurrent sessions commit, starting
    from an empty ledger, every account satisfies 0 <= reserved <= cash, and
    what it holds in reserve is exactly the sum of what its open orders
    reserved when they were placed: no reservation leaks and none is released
    twice. In particular an account with no open order has nothing reserved. *)
Theorem reservations_exact (st : bstate) (u : string) (a : PaperAccount) :
  rtc (broker_step (F:=b64)) empty_ledger st → db_accounts (bs_db st) !! u = Some a →
  0 ≤ reserved_micros a ≤ cash_micros a ∧ reserved_micros a = open_reserved st u ∧
  ((∀ k t, db_trades (bs_db st) !! k = Some t → tr_user_id t = u → is_open (tr_status t) = false) →
   reserved_micros a = 0).
Proof.
  intros Hst Ha. pose proof (broker_steps_inv _ _ Hst empty_ledger_inv) as Hi.
  pose proof (inv_reserved _ Hi _ _ Ha) as Hr.
  split; [by eapply (inv_accounts _ Hi)|]. split; [done|].
  intros Hclosed. rewrite Hr. apply map_sum_zero. intros k t Hk.
  destruct (decide (tr_user_id t = u)) as [Hu|Hu]; [|by apply share_other].
  apply share_closed. by eapply Hclosed.
Qed.

(** The state after opening an account with $1000 and placing a buy of 2 at a
    limit of $150.25. *)
Definition sample_buy : Trade :=
  mkTrade "o1" "alice" "AAPL" "buy" (Dec 2 0) "limit" (Some (Dec 15025 (-2))) None "gtc"
    "PENDING" None 5 None.

Definition sample_state1 : bstate :=
  mkBstate (committed (get_or_create_account (Dec 1000 0) (λ _, bs_db empty_ledger)
                         (begin_session (bs_db empty_ledger)) "alice" 1).1) ∅.
Definition sample_state2 : bstate :=
  mkBstate (committed (place_order (begin_session (bs_db sample_state1)) sample_buy 300500000 5 true).1)
    {["o1" := 300500000]}.

Lemma reservations_exact_witness :
  ∃ a, db_accounts (bs_db sample_state2) !! "alice" = Some a ∧
    cash_micros a = 1000000000 ∧ reserved_micros a = 300500000 ∧
    reserved_micros a = open_reserved sample_state2 "alice".
Proof.
  eexists. split; [vm_compute; reflexivity|]. split; [reflexivity|]. split; [reflexivity|].
  assert (rtc (broker_step (F:=b64)) empty_ledger sample_state2) as Hr.
  { eapply rtc_l; [|eapply rtc_l; [|apply rtc_refl]].
    - apply (step_open_account (bs_db empty_ledger) ∅ (bs_db empty_ledger) (Dec 1000 0) "alice" 1);
        [done|apply map_Forall_empty|intros ?? Hx; cbn in Hx; by rewrite lookup_empty in Hx..].
    - apply (step_place (bs_db sample_state1) ∅ sample_buy None 5 true);
        [unfold order_wf; cbn; lia|reflexivity|done|apply list_elem_of_In; cbn; tauto]. }
  refine (proj1 (proj2 (reservations_exact sample_state2 "alice" _ Hr _))). vm_compute. reflexivity.
Defined.


(** ** Finality *)

Definition same_outcome (t t' : Trade) : Prop :=
  tr_status t' = tr_status t ∧ tr_filled_price t' = tr_filled_price t ∧
  tr_filled_at t' = tr_filled_at t ∧ tr_quantity t' = tr_quantity t.

Lemma close_effect_other d t row st r now k :
  k ≠ tr_id t → db_trades (close_effect d t row st r now) !! k = db_trades d !! k.
Proof. intros. unfold close_effect. destruct (0 <? r); cbn; by rewrite lookup_insert_ne. Qed.

Lemma broker_step_final {F} `{Num F} st st' k t :
  broker_step st st' → db_trades (bs_db st) !! k = Some t → is_open (tr_status t) = false →
  ∃ t', db_trades (bs_db st') !! k = Some t' ∧ same_outcome t t'.
Proof.
  assert (Hrefl : same_outcome t t) by done.
  destruct 1; cbn [bs_db]; intros Hk Ho.
  - exists t. split; [|done]. unfold get_or_create_account. cbn [working begin_session].
    rewrite H0. destruct (foldl _ _ _). by destruct (db_accounts d !! u).
  - exists t. split; [|done]. unfold place_order. cbn [working begin_session].
    destruct (db_trades d !! tr_id t0) eqn:Hid; [done|].
    assert (tr_id t0 ≠ k) by congruence. unfold try_reserve.
    destruct (reserve <=? 0); cbn.
    + destruct nonce_unused; cbn; [by rewrite lookup_insert_ne|done].
    + destruct (update_row _ _ _ _) as [m rc]. destruct (rc =? 1); cbn; [|done].
      destruct nonce_unused; cbn; [by rewrite lookup_insert_ne|done].
  - exists t. split; [|done]. unfold accept_order. cbn [working begin_session]. unfold update_row.
    destruct (db_trades d !! tr_id t0) as [row|] eqn:Hr; [case_bool_decide as Hp|]; cbn; try done.
    rewrite lookup_insert_ne; [done|]. intros <-. assert (row = t) as -> by congruence.
    by rewrite Hp in Ho.
  - exists t. split; [|done].
    destruct (close_order_cases d t0 to_status reserved now) as [(row & Hr & Hro & ->)|[_ ->]]; cbn; [|done].
    rewrite close_effect_other; [done|]. intros ->. congruence.
  - exists t. split; [|done]. destruct (decide (k = tr_id t0)) as [->|Hne].
    + destruct (fill_order_cases d t0 px reserved now)
        as [(row & d' & Hr & Hro & _)|[(row & reason & Hr & Hro & _)|[_ ->]]]; [congruence..|done].
    + by rewrite fill_order_other.
  - cbn. unfold update_row. destruct (db_trades d !! id) as [row|] eqn:Hr; [destruct (guard row)|]; cbn; eauto.
    destruct (decide (k = id)) as [->|Hne]; [|rewrite lookup_insert_ne by done; eauto].
    rewrite lookup_insert_eq. eexists; split; [done|]. simplify_eq. done.
Qed.

(** An order that has left the open statuses never moves again: whatever
    is committed later by any session, its status, fill price, fill time and
    quantity stay as they are. So no order is filled twice, and no cancelled
    order fills. *)
Theorem terminal_orders_final (st st' : bstate) (k : string) (t : Trade) :
  rtc (broker_step (F:=b64)) st st' →
  db_trades (bs_db st) !! k = Some t → is_open (tr_status t) = false →
  ∃ t', db_trades (bs_db st') !! k = Some t' ∧ same_outcome t t'.
Proof.
  intros Hst; revert t; induction Hst as [st|st st1 st' Hstep _ IH]; intros t Hk Ho.
  { exists t. split; [done|]. done. }
  destruct (broker_step_final _ _ _ _ Hstep Hk Ho) as (t1 & Hk1 & He & Hrest).
  destruct (IH t1 Hk1 ltac:(by rewrite He)) as (t' & Hk' & Hs').
  exists t'. split; [done|]. unfold same_outcome in *. destruct Hs' as (-> & -> & -> & ->). done.
Qed.

Definition filled_sample : Trade :=
  sample_buy <| tr_status := "FILLED" |> <| tr_filled_price := Some (Dec 150 0) |>.
Definition filled_state : bstate := mkBstate (mkLedgerDB {["o1" := filled_sample]} ∅ []) ∅.

Lemma terminal_orders_final_witness :
  ∃ t', db_trades (bs_db (mkBstate (committed
           (close_order (begin_session (bs_db filled_state)) filled_sample "CANCELLED" None 9).1) ∅))
          !! "o1" = Some t' ∧ tr_status t' = "FILLED".
Proof.
  destruct (terminal_orders_final filled_state
    (mkBstate (committed (close_order (begin_session (bs_db filled_state)) filled_sample
                            "CANCELLED" None 9).1) ∅) "o1" filled_sample) as (t' & Hk & He & _).
  - apply rtc_once, step_close; [|reflexivity|reflexivity].
    intros row Hr. vm_compute in Hr. injection Hr as <-. repeat split.
  - reflexivity.
  - reflexivity.
  - exists t'. split; [exact Hk|exact He].
Defined.

(** ** What a fill does *)

(** An open buy order of an account fills exactly when the cash left after
    paying the fill price covers what the user's other orders have reserved.
    It then pays exactly quantity x price (in micro-dollars, rounded half up),
    gives back its own reservation, and records price and time. Otherwise the
    order is rejected: no cash moves, only its reservation is given back. *)
Theorem buy_fill_outcome (d : LedgerDB) (t row : Trade) (px : b64) (a : PaperAccount)
    (reserved : option Z) (now : Z) :
  db_trades d !! tr_id t = Some row → is_open (tr_status row) = true → tr_side t = "buy" →
  db_accounts d !! tr_user_id t = Some a →
  let r := default (trade_reservation_micros t) reserved in
  let cost := notional_micros (tr_quantity t) (nrepr px) in
  let '(s', out) := fill_order (begin_session d) t px reserved now in
  if released r a <=? cash_micros a - cost then
    out = mkFillOutcome FILLED None ∧
    db_accounts (committed s') =
      <[tr_user_id t := mkPaperAccount (cash_micros a - cost) (released r a) now]> (db_accounts d) ∧
    db_trades (committed s') =
      <[tr_id t := row <| tr_status := "FILLED" |> <| tr_filled_price := Some (nrepr px) |>
                       <| tr_filled_at := Some now |>]> (db_trades d)
  else
    fo_status out = REJECTED ∧
    db_accounts (committed s') =
      (if 0 <? r then <[tr_user_id t := mkPaperAccount (cash_micros a) (released r a) now]>
                        (db_accounts d) else db_accounts d) ∧
    db_trades (committed s') = <[tr_id t := row <| tr_status := "REJECTED" |>]> (db_trades d).
Proof.
  intros Hr Ho Hside Ha r cost.
  destruct (fill_order_cases d t px reserved now)
    as [(row' & d' & Hr' & _ & Hs & ->)|[(row' & reason & Hr' & _ & Hs & ->)|[Hn _]]];
    [| |by rewrite (Hn _ Hr) in Ho]; simplify_eq; fold r cost in Hs |- *;
    unfold settle in Hs; rewrite bool_decide_eq_true_2 in Hs by done;
    unfold update_row in Hs; cbn in Hs; rewrite Ha in Hs;
    destruct (released r a <=? cash_micros a - cost) eqn:G; cbn in Hs; simplify_eq; cbn.
  - done.
  - split; [done|]. unfold close_effect. destruct (0 <? r) eqn:Hpos; cbn; [|done].
    unfold update_row. by rewrite Ha.
Qed.

Lemma buy_fill_outcome_witness :
  let d := mkLedgerDB {["o1" := sample_buy]} {["alice" := mkPaperAccount 1000000000 300500000 1]} [] in
  (fill_order (begin_session d) sample_buy (nof_ratio (F:=b64) 150 1) None 9).2 =
    mkFillOutcome FILLED None.
Proof.
  intros d. pose proof (buy_fill_outcome d sample_buy sample_buy (nof_ratio 150 1)
    (mkPaperAccount 1000000000 300500000 1) None 9 ltac:(vm_compute; reflexivity)
    ltac:(reflexivity) ltac:(reflexivity) ltac:(vm_compute; reflexivity)) as Hf.
  cbn zeta in Hf. destruct (fill_order _ _ _ _ _) as [s' out].
  assert ((released (default (trade_reservation_micros sample_buy) None)
             (mkPaperAccount 1000000000 300500000 1) <=?
           1000000000 - notional_micros (tr_quantity sample_buy) (nrepr (nof_ratio (F:=b64) 150 1))) = true)
    as E by (vm_compute; reflexivity).
  cbn [cash_micros] in Hf. rewrite E in Hf. exact (proj1 Hf).
Defined.

(** A sell is credited only if the shares are there: a fill of a sell
    order succeeds only for a quantity the filled trades hold, and credits
    exactly quantity x price; a larger one is rejected and no cash moves. *)
Theorem sell_fill_covered (d : LedgerDB) (t row : Trade) (px : b64) (a : PaperAccount)
    (reserved : option Z) (now : Z) :
  db_trades d !! tr_id t = Some row → is_open (tr_status row) = true → tr_side t = "sell" →
  db_accounts d !! tr_user_id t = Some a →
  let held := held_quantity (fill_effect d t row (nrepr px) now) (tr_user_id t) (tr_asset t)
                (Some (tr_id t)) in
  let '(s', out) := fill_order (begin_session d) t px reserved now in
  (fo_status out = FILLED ↔ dec_ltb held (tr_quantity t) = false) ∧
  (fo_status out = FILLED →
     cash_micros <$> db_accounts (committed s') !! tr_user_id t =
       Some (cash_micros a + notional_micros (tr_quantity t) (nrepr px))) ∧
  (fo_status out ≠ FILLED →
     fo_status out = REJECTED ∧
     cash_micros <$> db_accounts (committed s') !! tr_user_id t = Some (cash_micros a)).
Proof.
  intros Hr Ho Hside Ha held.
  destruct (fill_order_cases d t px reserved now)
    as [(row' & d' & Hr' & _ & Hs & ->)|[(row' & reason & Hr' & _ & Hs & ->)|[Hn _]]];
    [| |by rewrite (Hn _ Hr) in Ho]; simplify_eq;
    unfold settle in Hs; rewrite Hside in Hs; change (bool_decide ("sell" = "buy")) with false in Hs;
    fold held in Hs; destruct (dec_ltb held (tr_quantity t)) eqn:G; cbn in Hs; simplify_eq; cbn.
  - unfold update_row. rewrite Ha. cbn. rewrite lookup_insert_eq. naive_solver.
  - split_and!; [naive_solver|done|]. intros _. split; [done|].
    unfold close_effect. destruct (0 <? _); cbn; [|by rewrite Ha].
    unfold update_row. rewrite Ha. cbn. by rewrite lookup_insert_eq.
Qed.

Definition sample_sell : Trade := sample_buy <| tr_id := "o2" |> <| tr_side := "sell" |>.

Lemma sell_fill_covered_witness :
  let d := mkLedgerDB {["o1" := filled_sample; "o2" := sample_sell]}
             {["alice" := mkPaperAccount 700000000 0 1]} [] in
  fo_status (fill_order (begin_session d) sample_sell (nof_ratio (F:=b64) 151 1) None 9).2 = FILLED.
Proof.
  intros d. pose proof (sell_fill_covered d sample_sell sample_sell (nof_ratio 151 1)
    (mkPaperAccount 700000000 0 1) None 9 ltac:(vm_compute; reflexivity)
    ltac:(reflexivity) ltac:(reflexivity) ltac:(vm_compute; reflexivity)) as Hf.
  cbn zeta in Hf. destruct (fill_order _ _ _ _ _) as [s' out].
  apply (proj2 (proj1 Hf)). vm_compute. reflexivity.
Defined.

(** ** The sweeper's query *)

Definition sweep_acts {F} (act : sweep_action F) : bool :=
  match act with SweepNothing => false | _ => true end.

(** The order types and their prices, case by case. *)
Lemma order_type_cases (ot : string) :
  ot = "limit" ∨ ot = "stop" ∨ ot = "stop_limit" ∨
  (ot ≠ "limit" ∧ ot ≠ "stop" ∧ ot ≠ "stop_limit").
Proof.
  destruct (decide (ot = "limit")), (decide (ot = "stop")), (decide (ot = "stop_limit")); tauto.
Qed.

Lemma is_limit_other ot (P : Prop) `{!Decision P} :
  ot ≠ "limit" → bool_decide (ot = "limit" ∧ P) = false.
Proof. intros. apply bool_decide_eq_false_2. tauto. Qed.

(** The SQL condition [_actionable] selects exactly the resting orders
    the sweep loop acts on (fills, or converts from stop-limit to limit), in
    any float arithmetic: no executable order is missed by the query and none
    is loaded in vain. Orders have one of the two sides and a non-zero stop. *)
Theorem actionable_exact {F} `{Num F} (last : F) (t : Trade) :
  tr_side t = "buy" ∨ tr_side t = "sell" →
  (∀ p, tr_stop_price t = Some p → nbool (F:=F) (nof_dec p) = true) →
  actionable last t = sweep_acts (sweep_decision last t).
Proof.
  intros Hside Hstop. unfold actionable, sweep_decision, simulate_fill, check_pending_limit_fill,
    stop_triggered, at_or_above_stop, at_or_below_stop.
  assert (∀ p, tr_stop_price t = Some p → nbool (F:=F) (nof_dec p) = true) as Hst by done.
  destruct (order_type_cases (tr_order_type t)) as [-> |[-> |[-> |(Hl & Hs & Hsl)]]].
  4: { rewrite !is_limit_other, !(bool_decide_eq_false_2 (tr_order_type t = _)) by done.
       rewrite (bool_decide_eq_false_2 (tr_order_type t = "stop" ∨ _)) by tauto.
       rewrite (bool_decide_eq_false_2 ((_ ∨ _) ∧ _)) by tauto. by destruct (tr_limit_price t), (tr_stop_price t). }
  all: destruct (tr_limit_price t) as [l|], (tr_stop_price t) as [p|];
    cbn [fmap option_fmap option_map]; try (specialize (Hst _ eq_refl); rewrite !Hst);
    destruct Hside as [-> | ->]; eval_bools; cbn [fill_status fill_price sweep_acts]; try done.
  all: repeat match goal with |- context [nle ?a ?b] => destruct (nle a b) end; cbn; eval_bools; try done.
Qed.

Lemma actionable_exact_witness :
  actionable (nof_ratio (F:=b64) 150 1) sample_buy
  = sweep_acts (sweep_decision (nof_ratio (F:=b64) 150 1) sample_buy).
Proof. apply actionable_exact; [by left|intros p Hp; discriminate]. Defined.

(** ** The sweeper as broker steps *)

Lemma nrepr_Q_nonneg (x : Q) : (0 <= x)%Q → 0 ≤ dcoef (nrepr x).
Proof.
  intros Hx. cbn. assert (0 ≤ Qnum x) by (unfold Qle in Hx; cbn in Hx; lia).
  unfold div_half_even. assert (0 ≤ Qnum x * 10 ^ 17 / Zpos (Qden x)) by (apply Z.div_pos; lia).
  destruct (_ ?= _); [destruct (Z.even _)| |]; lia.
Qed.

Lemma nround_Q_nonneg (x : Q) nd : 0 ≤ nd → (0 <= x)%Q → (0 <= nround x nd)%Q.
Proof.
  intros Hnd Hx. cbn. unfold Q_round_dec. rewrite (proj2 (Z.leb_le 0 nd)) by done.
  assert (0 ≤ Qnum x) by (unfold Qle in Hx; cbn in Hx; lia). unfold Qle; cbn.
  unfold div_half_even. assert (0 ≤ Qnum x * 10 ^ nd / Zpos (Qden x)).
  { apply Z.div_pos; [|lia]. pose proof (pow10_pos nd Hnd). nia. }
  destruct (_ ?= _); [destruct (Z.even _)| |]; lia.
Qed.

(** Every price the sweeper fills at is a rounding of the market price. *)
Lemma sweep_price_nonneg (last p : Q) t :
  (0 < last)%Q → sweep_decision last t = SweepFill p → (0 <= p)%Q.
Proof.
  intros Hl. assert (0 <= last)%Q as Hl0 by lra.
  assert (0 <= nround last (price_digits last))%Q as Hround
    by (apply nround_Q_nonneg; [apply price_digits_pos|done]).
  assert (p = last ∨ p = nround last (price_digits last) → (0 <= p)%Q) as Hcases
    by (by intros [-> | ->]).
  unfold sweep_decision. intros Hd. apply Hcases. clear Hcases Hround.
  destruct (bool_decide (tr_order_type t = "limit")), (nof_dec <$> tr_limit_price t) as [l|].
  1: { destruct (check_pending_limit_fill _ _ _) eqn:E; simplify_eq. right.
       by eapply check_pending_price. }
  all: destruct (bool_decide _), (nof_dec <$> tr_stop_price t) as [st|]; try (simplify_eq; by left).
  all: destruct (bool_decide (fill_status _ = _)); try (destruct (_ && _); discriminate).
  all: destruct (fill_price _) eqn:E; try (destruct (_ && _); discriminate).
  all: simplify_eq; by eapply simulate_fill_price.
Qed.

Definition bsteps (holds : gmap string Z) (d d' : LedgerDB) : Prop :=
  rtc (broker_step (F:=Q)) (mkBstate d holds) (mkBstate d' holds).

(** How the sweeper changes rows: an order's type stays or becomes a limit
    order's, and no order starts to rest. *)
Definition evolves (d d' : LedgerDB) : Prop :=
  ∀ k t', db_trades d' !! k = Some t' →
  ∃ t, db_trades d !! k = Some t ∧ tr_id t' = tr_id t ∧
    (tr_order_type t' = tr_order_type t ∨ tr_order_type t' = "limit") ∧
    (tr_status t' = "ACCEPTED" → tr_status t = "ACCEPTED").

#[global] Instance evolves_preorder : PreOrder evolves.
Proof.
  split; [intros d k t' Hk; eauto 8|].
  intros d1 d2 d3 H12 H23 k t3 Hk. destruct (H23 _ _ Hk) as (t2 & Hk2 & Hi2 & Ht2 & Hs2).
  destruct (H12 _ _ Hk2) as (t1 & Hk1 & Hi1 & Ht1 & Hs1).
  exists t1. split_and!; [done|congruence| |tauto]. destruct Ht2 as [-> |]; tauto.
Qed.

Lemma evolves_row d d' k row row' :
  db_trades d !! k = Some row → db_trades d' = <[k := row']> (db_trades d) →
  tr_id row' = tr_id row → tr_order_type row' = tr_order_type row ∨ tr_order_type row' = "limit" →
  (tr_status row' = "ACCEPTED" → tr_status row = "ACCEPTED") → evolves d d'.
Proof.
  intros Hr Hd Hid Hty Hst j t'. rewrite Hd. intros [[<- <-]|[_ Hj]]%lookup_insert_Some; eauto 8.
Qed.

Lemma close_effect_trades d t row st r now :
  db_trades (close_effect d t row st r now) = <[tr_id t := row <| tr_status := st |>]> (db_trades d).
Proof. unfold close_effect. by destruct (0 <? r). Qed.

Lemma fill_order_evolves {F} `{Num F} d t (px : F) reserved now :
  evolves d (committed (fill_order (begin_session d) t px reserved now).1).
Proof.
  destruct (fill_order_cases d t px reserved now)
    as [(row & d' & Hr & _ & Hs & ->)|[(row & reason & Hr & _ & _ & ->)|[_ ->]]]; cbn; [| |done].
  - eapply evolves_row; [done|cbn; by rewrite (settle_trades _ _ _ _ _ _ Hs)|by auto..|]. done.
  - eapply evolves_row; [done|apply close_effect_trades|by auto..|]. done.
Qed.

Definition nonmarket (d : LedgerDB) (id : string) : Prop :=
  ∀ row, db_trades d !! id = Some row → tr_order_type row ≠ "market".

Lemma nonmarket_evolves d d' id : evolves d d' → nonmarket d id → nonmarket d' id.
Proof.
  intros He Hn row' Hr'. destruct (He _ _ Hr') as (row & Hr & _ & [-> | ->] & _); [by apply Hn|done].
Qed.

Lemma sweep_convert_type (last : Q) t :
  sweep_decision last t = SweepConvert → tr_order_type t = "stop_limit".
Proof.
  unfold sweep_decision. cbn zeta. repeat (dmatch; try discriminate); bsimpl; done.
Qed.

(** One iteration of the inner loop is at most one broker step. *)
Lemma sweep_order_steps (holds : gmap string Z) (last : Q) now d outs id :
  broker_inv (mkBstate d holds) → (0 < last)%Q → nonmarket d id →
  ∃ d' outs', sweep_order last now (begin_session d, outs) id = (begin_session d', outs') ∧
    bsteps holds d d' ∧ evolves d d'.
Proof.
  intros Hi Hl Hn. unfold sweep_order. cbn [working begin_session].
  destruct (db_trades d !! id) as [t|] eqn:Hid; [|exists d, outs; split_and!; [done|apply rtc_refl|done]].
  assert (tr_id t = id) as Hk by (by eapply (inv_keys _ Hi) in Hid).
  assert (held_amount holds t = trade_reservation_micros t) as Hh.
  { unfold held_amount. by rewrite bool_decide_eq_false_2 by (by apply Hn). }
  destruct (sweep_decision last t) eqn:Ed.
  - pose proof (fill_order_session d t price None (now id)) as Hs. cbn zeta in Hs.
    pose proof (fill_order_evolves d t price None (now id)) as He.
    assert (bsteps holds d (committed (fill_order (begin_session d) t price None (now id)).1)) as Hb.
    { apply rtc_once, step_fill; [|by red|].
      - intros row Hrow. rewrite Hk, Hid in Hrow. injection Hrow as <-. done.
      - eapply nrepr_Q_nonneg, sweep_price_nonneg; done. }
    destruct (fill_order _ _ _ _ _) as [s' out]. cbn [fst] in *. rewrite Hs. eauto.
  - exists (d <| db_trades ::= λ m, (update_row id (λ t, bool_decide (tr_status t = "ACCEPTED"))
                                       (λ t, t <| tr_order_type := "limit" |>) m).1 |>), outs.
    split_and!; [done| |].
    + apply rtc_once, step_convert. intros row Hrow. rewrite Hid in Hrow. injection Hrow as <-.
      rewrite (sweep_convert_type _ _ Ed). apply list_elem_of_In. cbn. tauto.
    + unfold update_row. cbn. rewrite Hid. destruct (bool_decide _); cbn; [|by destruct d].
      eapply evolves_row; [done|done|done|by right|done].
  - exists d, outs; split_and!; [done|apply rtc_refl|done].
Qed.

Lemma sweep_orders_steps (holds : gmap string Z) (last : Q) now d outs ids :
  broker_inv (mkBstate d holds) → (0 < last)%Q → (∀ id, id ∈ ids → nonmarket d id) →
  ∃ d' outs', foldl (sweep_order last now) (begin_session d, outs) ids = (begin_session d', outs') ∧
    bsteps holds d d' ∧ evolves d d'.
Proof.
  intros Hi Hl; revert d outs Hi; induction ids as [|id ids IH]; intros d outs Hi Hn; cbn [foldl].
  { exists d, outs; split_and!; [done|apply rtc_refl|done]. }
  destruct (sweep_order_steps holds last now d outs id Hi Hl (Hn id ltac:(set_solver)))
    as (d1 & outs1 & -> & Hb & He).
  destruct (IH d1 outs1) as (d2 & outs2 & -> & Hb2 & He2).
  - exact (broker_steps_inv _ _ Hb Hi).
  - intros j Hj. eapply nonmarket_evolves; [done|]. apply Hn. set_solver.
  - exists d2, outs2. split_and!; [done|unfold bsteps in *; by etransitivity|by etransitivity].
Qed.

Definition resting_ok (d : LedgerDB) : Prop :=
  ∀ k t, db_trades d !! k = Some t → tr_status t = "ACCEPTED" → tr_order_type t ≠ "market".

Lemma resting_ok_evolves d d' : evolves d d' → resting_ok d → resting_ok d'.
Proof.
  intros He Hr k t' Hk Hs. destruct (He _ _ Hk) as (t & Ht & _ & [-> | ->] & Hst); [|done].
  eapply Hr; eauto.
Qed.

Lemma sweep_asset_steps (holds : gmap string Z) (price : string → option Q) now d outs asset :
  broker_inv (mkBstate d holds) → (∀ a p, price a = Some p → (0 < p)%Q) → resting_ok d →
  ∃ d' outs', sweep_asset price now (begin_session d, outs) asset = (begin_session d', outs') ∧
    bsteps holds d d' ∧ evolves d d'.
Proof.
  intros Hi Hp Hr. unfold sweep_asset. destruct (price asset) as [last|] eqn:E;
    [|exists d, outs; split_and!; [done|apply rtc_refl|done]].
  apply sweep_orders_steps; [done|by eapply Hp|].
  intros id (t & -> & Ht)%list_elem_of_fmap row Hrow.
  rewrite merge_sort_Permutation in Ht. cbn [fst working begin_session] in Ht.
  apply list_elem_of_filter in Ht as [_ Ht]. unfold resting in Ht.
  apply list_elem_of_filter in Ht as [Hs [k Hk]%elem_of_rows].
  pose proof (inv_keys _ Hi _ _ Hk) as Hkey. cbn in Hkey. rewrite Hkey, Hk in Hrow.
  injection Hrow as <-. by eapply Hr.
Qed.

(** A sweep over the resting orders is a sequence of broker steps, so it
    keeps every guarantee of the broker: whatever the market prices (any
    positive ones), it preserves the ledger invariant, and the orders it
    leaves are the ones it found, possibly converted to limit orders. *)
Theorem sweep_refines_broker (holds : gmap string Z) (price : string → option Q)
    (now : string → Z) (d : LedgerDB) :
  broker_inv (mkBstate d holds) → (∀ a p, price a = Some p → (0 < p)%Q) → resting_ok d →
  ∃ d' outcomes, process_open_orders price now (begin_session d) = (begin_session d', outcomes) ∧
    bsteps holds d d' ∧ broker_inv (mkBstate d' holds) ∧ evolves d d'.
Proof.
  intros Hi Hp Hr. unfold process_open_orders. cbn [working begin_session].
  generalize (remove_dups (tr_asset <$> resting d)) as assets. generalize (@nil (string * FillOutcome)).
  intros outs assets; revert d outs Hi Hr; induction assets as [|a assets IH]; intros d outs Hi Hr;
    cbn [foldl].
  { exists d, outs; split_and!; [done|apply rtc_refl|done|done]. }
  destruct (sweep_asset_steps holds price now d outs a Hi Hp Hr) as (d1 & outs1 & -> & Hb & He).
  destruct (IH d1 outs1) as (d2 & outs2 & -> & Hb2 & Hi2 & He2).
  - exact (broker_steps_inv _ _ Hb Hi).
  - by eapply resting_ok_evolves.
  - exists d2, outs2. split_and!; [done|unfold bsteps in *; by etransitivity|done|by etransitivity].
Qed.

Definition resting_sample : LedgerDB :=
  mkLedgerDB {["o1" := sample_buy <| tr_status := "ACCEPTED" |>]}
    {["alice" := mkPaperAccount 1000000000 300500000 1]} [].

Lemma resting_sample_inv : broker_inv (mkBstate resting_sample ∅).
Proof.
  split; cbn.
  - by apply map_Forall_singleton.
  - apply map_Forall_singleton. unfold order_wf. cbn. lia.
  - apply map_Forall_empty.
  - intros k t [<- <-]%lookup_singleton_Some. done.
  - apply map_Forall_singleton. unfold account_ok. cbn. lia.
  - intros u a [<- <-]%lookup_singleton_Some. vm_compute. reflexivity.
Qed.

Lemma sweep_refines_broker_witness :
  ∃ d' outcomes,
    process_open_orders (λ _, Some (150 # 1)%Q) (λ _, 9) (begin_session resting_sample)
      = (begin_session d', outcomes) ∧ broker_inv (mkBstate d' ∅).
Proof.
  destruct (sweep_refines_broker ∅ (λ _, Some (150 # 1)%Q) (λ _, 9) resting_sample resting_sample_inv)
    as (d' & outcomes & Hs & _ & Hi & _).
  - intros a p [= <-]. reflexivity.
  - intros k t Hk _. cbn in Hk. apply lookup_singleton_Some in Hk as [<- <-]. done.
  - eauto.
Defined.

(** ** Two counts of the same holding *)

(** The entry of one asset depends on that asset's trades only. *)
Lemma book_of_asset {F} `{Num F} (ts : list Trade) (book : gmap string (book_entry F)) a :
  default empty_entry (foldl book_step book ts !! a) =
  foldl entry_step (default empty_entry (book !! a)) (filter (λ t, tr_asset t = a) ts).
Proof.
  revert book; induction ts as [|t ts IH]; intros book; [done|]. cbn [foldl]. rewrite IH.
  rewrite filter_cons. unfold book_step. destruct (decide (tr_asset t = a)) as [<-|Hne].
  - by rewrite lookup_insert_eq.
  - by rewrite lookup_insert_ne.
Qed.

Definition dec_Q (d : dec) : Q := nof_dec (F:=Q) d.

(** Quantities kept to the same number of decimals. *)
Definition at_scale (e : Z) (t : Trade) : Prop :=
  dexp (tr_quantity t) = - e ∧ 0 ≤ dcoef (tr_quantity t).

Definition total_units (ts : list Trade) : Z := foldr (λ t acc, dcoef (tr_quantity t) + acc) 0 ts.

Definition scaled (e c : Z) (d : dec) : Prop := d = Dec c (- e) ∨ (d = Dec 0 0 ∧ c = 0).

Lemma scaled_Q e c d : 0 ≤ e → scaled e c d → (dec_Q d == Qmake c (Z.to_pos (10 ^ e)))%Q.
Proof.
  intros He [-> |[-> ->]]; unfold dec_Q, nof_dec; cbn [dexp dcoef].
  - destruct (Z.leb_spec 0 (- e)); [|by rewrite Z.opp_involutive].
    assert (e = 0) as -> by lia. cbn. unfold Qeq. cbn. lia.
  - cbn. unfold Qeq. cbn. lia.
Qed.

Lemma dec_add_scaled e c h q :
  0 ≤ e → scaled e c h → dexp q = - e → Z.abs (c + dcoef q) < 10 ^ dec_prec →
  dec_add h q = Dec (c + dcoef q) (- e).
Proof.
  intros He Hh Hq Hb. destruct q as [qc qe]; cbn [dcoef dexp] in *; subst qe. unfold dec_add.
  destruct Hh as [-> |[-> ->]].
  - rewrite dec_align_same by done. cbn [dcoef dexp]. by apply dec_fix_exact.
  - unfold dec_align. cbn [dcoef dexp]. rewrite Z.min_r by lia. cbn [fst].
    rewrite Z.mul_0_l, Z.sub_diag, Z.mul_1_r. by apply dec_fix_exact.
Qed.

Lemma dec_sub_scaled e c h q :
  0 ≤ e → scaled e c h → dexp q = - e → Z.abs (c - dcoef q) < 10 ^ dec_prec →
  dec_max (dec_of_Z 0) (dec_sub h q) =
  if 0 <? c - dcoef q then Dec (c - dcoef q) (- e) else Dec 0 0.
Proof.
  intros He Hh Hq Hb. destruct q as [qc qe]; cbn [dcoef dexp] in *; subst qe.
  assert (dec_sub h (Dec qc (- e)) = Dec (c - qc) (- e)) as ->.
  { unfold dec_sub. destruct Hh as [-> |[-> ->]].
    - rewrite dec_align_same by done. cbn [dcoef dexp]. by apply dec_fix_exact.
    - unfold dec_align. cbn [dcoef dexp]. rewrite Z.min_r by lia.
      rewrite Z.mul_0_l, Z.sub_diag, Z.mul_1_r. by apply dec_fix_exact. }
  unfold dec_max, dec_ltb, dec_compare, dec_align, dec_of_Z. cbn [dcoef dexp].
  rewrite Z.min_r by lia. rewrite Z.mul_0_l, Z.sub_diag, Z.mul_1_r. unfold Z.ltb.
  by destruct (0 ?= c - qc).
Qed.

Lemma held_fold_agrees e (ts : list Trade) h c (b : book_entry Q) :
  0 ≤ e → Forall (at_scale e) ts → scaled e c h → 0 ≤ c → c + total_units ts < 10 ^ dec_prec →
  (b_qty b == Qmake c (Z.to_pos (10 ^ e)))%Q →
  (dec_Q (foldl held_step h ts) == b_qty (foldl entry_step b ts))%Q.
Proof.
  intros He Hts. revert h c b; induction Hts as [|t ts [Hexp Hq] Hts IH]; intros h c b Hh Hc Hb Hv;
    cbn [foldl]; [rewrite Hv; by apply scaled_Q|].
  cbn [total_units foldr] in Hb. fold (total_units ts) in Hb.
  assert (0 ≤ total_units ts) as Htot.
  { clear -Hts. induction Hts as [|? ? [_ ?]]; cbn; [done|]. fold (total_units l). lia. }
  set (q := dcoef (tr_quantity t)) in *.
  assert (trade_qty (F:=Q) t == Qmake q (Z.to_pos (10 ^ e)))%Q as Htq.
  { apply (scaled_Q e q (tr_quantity t) He). left. unfold q. rewrite <-Hexp. by destruct (tr_quantity t). }
  assert (∀ x y, (Qmake x (Z.to_pos (10 ^ e)) + Qmake y (Z.to_pos (10 ^ e)) ==
                  Qmake (x + y) (Z.to_pos (10 ^ e)))%Q) as Hplus.
  { intros x y. unfold Qeq, Qplus. cbn. rewrite !Pos2Z.inj_mul. ring. }
  assert (∀ x y, (Qmake x (Z.to_pos (10 ^ e)) <= Qmake y (Z.to_pos (10 ^ e)))%Q ↔ x ≤ y) as Hle.
  { intros x y. unfold Qle. cbn. rewrite <-Z.mul_le_mono_pos_r by lia. done. }
  unfold held_step at 2, entry_step at 2. destruct (bool_decide (tr_side t = "buy")).
  - rewrite (dec_add_scaled e c) by (done || (fold q; lia)). fold q.
    apply (IH _ (c + q)); [by left|lia|lia|]. cbn. rewrite Hv, Htq. apply Hplus.
  - rewrite (dec_sub_scaled e c) by (done || (fold q; lia)). fold q.
    destruct (nmin_Q (trade_qty t) (b_qty b)) as (Hm1 & Hm2 & Hm3).
    set (sold := nmin (trade_qty t) (b_qty b)) in *.
    assert (b_qty b - sold == Qmake (Z.max 0 (c - q)) (Z.to_pos (10 ^ e)))%Q as Hleft.
    { destruct (Z.leb_spec q c) as [Hqc|Hqc].
      - assert (sold == trade_qty t)%Q as ->.
        { destruct Hm3 as [-> | ->]; [reflexivity|]. apply Qle_antisym; [done|].
          rewrite Htq, Hv. by apply Hle. }
        rewrite Z.max_r by lia. rewrite Hv, Htq. specialize (Hplus (c - q) q).
        replace (c - q + q) with c in Hplus by lia. lra.
      - assert (sold == b_qty b)%Q as ->.
        { destruct Hm3 as [-> | ->]; [|reflexivity]. apply Qle_antisym; [done|].
          rewrite Htq, Hv. apply Hle. lia. }
        rewrite Z.max_l by lia. transitivity 0%Q; [ring|]. unfold Qeq. cbn. lia. }
    destruct (Z.ltb_spec 0 (c - q)).
    + apply (IH _ (c - q)); [by left|lia|lia|]. cbn. rewrite Hleft, Z.max_r by lia. reflexivity.
    + apply (IH _ 0); [right; done|lia|lia|]. cbn. rewrite Hleft, Z.max_l by lia. reflexivity.
Qed.

(** The two counts of a holding agree, as the docstring of
    [held_quantity] says: the Decimal the sell check compares against is, in
    exact arithmetic, the quantity the positions projection stores, clamped
    sells included. Quantities are kept to [e] decimals and their total stays
    within the 28 digits of the decimal context. *)
Theorem held_quantity_is_position (d : LedgerDB) (u a : string) (e : Z) :
  0 ≤ e →
  Forall (at_scale e) (filter (λ t, tr_asset t = a) (filled_trades d u)) →
  total_units (filter (λ t, tr_asset t = a) (filled_trades d u)) < 10 ^ dec_prec →
  (dec_Q (held_quantity d u a None) ==
   b_qty (default empty_entry (book_of (filled_trades d u) !! a)))%Q.
Proof.
  intros He Hs Ht. unfold held_quantity, book_of. rewrite book_of_asset, lookup_empty. cbn [default].
  rewrite (list_filter_iff (λ t, tr_asset t = a ∧ None ≠ Some (tr_id t)) (λ t, tr_asset t = a)) by naive_solver.
  apply (held_fold_agrees e _ _ 0); [done|done|right; done|done|lia|].
  unfold Qeq. cbn. lia.
Qed.

Lemma held_quantity_is_position_witness :
  (dec_Q (held_quantity round_trip "u" "AAPL" None) ==
   b_qty (default empty_entry (book_of (filled_trades round_trip "u") !! "AAPL")))%Q.
Proof.
  apply (held_quantity_is_position _ _ _ 0); [done| |vm_compute; reflexivity].
  vm_compute. repeat constructor; discriminate.
Defined.
