(* ===== verification/OrderRoute.v ===== *)
(** backend/main.py, [place_order] (POST /api/trading/orders) from the parsed
    request to its response: every check in the order the route makes them,
    the reservation and insert, the immediate execution, and what each
    failure releases. The services it calls are those of the other files. *)

From stdpp Require Import pretty.
From S2P Require Import Prelude Numeric Models Json RedisStore OrderSecurity OrderSecurityFacts TradingService Portfolio PaperBroker PaperBrokerFacts.
#[local] Open Scope Z_scope.

(** ** The request (backend/schemas.py, [OrderRequest]) *)

Record OrderRequest (F : Type) := mkOrderRequest {
  or_asset : string;
  or_side : string;
  or_quantity : F;
  or_order_type : string;
  or_limit_price : option F;
  or_stop_price : option F;
  or_time_in_force : string;
  or_order_id : option string;
  or_timestamp : option Z;
  or_expires_at : option Z;
  or_nonce : option string;
  or_key_id : option string;
  or_signature : option string
}.
Arguments mkOrderRequest {F}. Arguments or_asset {F}. Arguments or_side {F}.
Arguments or_quantity {F}. Arguments or_order_type {F}. Arguments or_limit_price {F}.
Arguments or_stop_price {F}. Arguments or_time_in_force {F}. Arguments or_order_id {F}.
Arguments or_timestamp {F}. Arguments or_expires_at {F}. Arguments or_nonce {F}.
Arguments or_key_id {F}. Arguments or_signature {F}.

(** A row of [order_security_records]; the table is kept by its unique
    (user, nonce). *)
Record OrderSecurityRecord := mkSecurityRecord {
  sr_trade_id : string;
  sr_canonical_order : string;
  sr_request_hash : string;
  sr_expires_at : Z;
  sr_signer_key_id : string;
  sr_signature : string;
  sr_signature_mode : string
}.
Abbreviation security_table := (gmap (string * string) OrderSecurityRecord) (only parsing).

(** The clock readings of one request, and what other sessions commit while
    it runs: before it opens the account, before it reserves its idempotency
    key (attempt by attempt), and before it reserves cash. *)
Record Moments := mkMoments {
  m_envelope : Z;                                   (* seconds *)
  m_open : Z; m_reserve : Z; m_submitted : Z; m_fill : Z;
  m_others_open : LedgerDB → LedgerDB;
  m_others_place : LedgerDB → LedgerDB;
  m_others_security : security_table → security_table;
  m_races : list (gmap (string * string) IdempotencyRecord → gmap (string * string) IdempotencyRecord)
}.

(** ** Message texts *)

(** [f"{x:,.2f}"] *)
Fixpoint group_digits (s : string) : string :=
  match s with
  | EmptyString => EmptyString
  | String c r =>
      String c ((if ((0 <? String.length r) && (String.length r mod 3 =? 0))%nat then "," else EmptyString)
                +:+ group_digits r)
  end.

Section texts.
Context {F : Type} `{Num F}.
Definition money_text (x : F) : string :=
  let d := nrepr (nround x 2) in
  let cents := if -2 <=? dexp d then dcoef d * 10 ^ (dexp d + 2) else dcoef d / 10 ^ (-2 - dexp d) in
  (if cents <? 0 then "-" else EmptyString)
    +:+ group_digits (pretty (Z.abs cents / 100)) +:+ "."
    +:+ (if Z.abs cents mod 100 <? 10 then "0" else EmptyString) +:+ pretty (Z.abs cents mod 100).
End texts.

Example money_text_sample : money_text (F:=b64) (nof_ratio 12345675 10) = "1,234,567.50".
Proof. vm_compute. reflexivity. Qed.

Section route.
Context {R F : Type} `{Num F}.
Variable redis_client : option (RedisClient R).
Variable production : bool.
Variables PAPER_INITIAL_CASH PAPER_MAX_POSITION_FRACTION : F.
Variable sha256_hex : string → string.
Variable unb64 : string → option string.
Variable dsa_verify : string → string → string → option bool.
Variable server_attestation : string → string.
(** [models.gen_uuid()] and [secrets.token_urlsafe(24)] of this request. *)
Variables fresh_id fresh_nonce : string.
(** The JSON value of a float, and the decimal a NUMERIC column stores for it. *)
Variable float_json : F → json.
Variable numeric_column : F → dec.
(** [_serialize_trade], and [str(exc)] of a stale quote. *)
Variable serialize_trade : Trade → json.
Variable stale_message : MarketDataError F → string.
(** [run_sync]'s application loop, and whether each reply arrives in time. *)
Variable loop_running : bool.
Variable in_time : string → bool.

(** What the request sees and changes. *)
Record RouteState := mkRouteState {
  rs_session : Session;
  rs_idem : gmap (string * string) IdempotencyRecord;
  rs_security : security_table;
  rs_risk : Risk R
}.
#[global] Instance eta_RouteState : Eta RouteState := λ s,
  mkRouteState (rs_session s) (rs_idem s) (rs_security s) (rs_risk s).

Definition http_error (status : Z) (detail : string) : HTTPException := mkHTTPException status detail.

(** [req.model_dump(exclude={"signature"})] *)
Definition opt_json {A} (f : A → json) (x : option A) : json :=
  match x with Some x => f x | None => JNull end.
Definition payload (req : OrderRequest F) : json :=
  JObj [("asset", JStr (or_asset req)); ("side", JStr (or_side req));
        ("quantity", float_json (or_quantity req)); ("order_type", JStr (or_order_type req));
        ("limit_price", opt_json float_json (or_limit_price req));
        ("stop_price", opt_json float_json (or_stop_price req));
        ("time_in_force", JStr (or_time_in_force req));
        ("order_id", opt_json JStr (or_order_id req)); ("timestamp", opt_json JInt (or_timestamp req));
        ("expires_at", opt_json JInt (or_expires_at req)); ("nonce", opt_json JStr (or_nonce req));
        ("key_id", opt_json JStr (or_key_id req))].

(** The prices the order type needs. *)
Definition check_fields (req : OrderRequest F) : outcome HTTPException unit :=
  let! _ := raise_if (bool_decide (or_order_type req = "limit" ∨ or_order_type req = "stop_limit")
                      && bool_decide (or_limit_price req = None))
              (http_error 400 "limit_price required for limit orders") in
  raise_if (bool_decide (or_order_type req = "stop" ∨ or_order_type req = "stop_limit")
            && bool_decide (or_stop_price req = None))
    (http_error 400 "stop_price required for stop orders").

(** The price observation: the price, and whether it is stale. *)
Definition observe_price (req : OrderRequest F) (quote : outcome (MarketDataError F) F)
    : outcome HTTPException (F * bool) :=
  match quote with
  | Ret p => Ret (p, false)
  | Raise (StaleMarketData _ price _ _ as exc) =>
      if bool_decide (or_order_type req = "market") then
        Raise (http_error 409 (stale_message exc +:+ ". Market orders need a live market; "
                 +:+ "a limit or stop order can rest until it opens."))
      else Ret (price, true)
  | Raise (MarketDataUnavailable _) =>
      Raise (http_error 503 ("no current market price for " +:+ or_asset req +:+ "; order not accepted"))
  end.

Definition price_for_risk (req : OrderRequest F) (last_price : F) : F :=
  match or_limit_price req, or_stop_price req with
  | Some l, _ => l
  | None, Some s => s
  | None, None => last_price
  end.

(** Concentration and cash, for a buy. *)
Definition check_buy (req : OrderRequest F) (position : option (position_view F))
    (buy_reserved : gmap string Z) (account : account_view F) (reserve : Z) (risk_price : F)
    : outcome HTTPException unit :=
  if bool_decide (or_side req = "buy") then
    let cap := av_equity account ⊗ PAPER_MAX_POSITION_FRACTION in
    let projected :=
      (match position with Some p => v_market_value p | None => n0 end
       ⊕ from_micros (default 0 (buy_reserved !! or_asset req)))
      ⊕ (or_quantity req ⊗ risk_price) in
    let! _ := raise_if (projected >.? cap ⊕ nof_ratio 1 1000000)
                (http_error 400 ("order would take the " +:+ or_asset req +:+ " position to $"
                   +:+ money_text projected +:+ ", above the " +:+ percent PAPER_MAX_POSITION_FRACTION
                   +:+ " per-asset limit ($" +:+ money_text cap +:+ " of account equity)")) in
    raise_if (to_micros (nrepr (av_available_cash account)) <? reserve)
      (http_error 400 ("insufficient available cash: order needs $" +:+ money_text (from_micros (F:=F) reserve)
         +:+ ", $" +:+ money_text (av_available_cash account) +:+ " available"))
  else Ret tt.

(** The envelope: the client's, or one made for it in full. *)
Definition envelope_of (now : Z) (req : OrderRequest F) : outcome HTTPException (string * Z * Z * string) :=
  match or_order_id req, or_timestamp req, or_expires_at req, or_nonce req with
  | Some id, Some ts, Some ex, Some n => Ret (id, ts, ex, n)
  | None, None, None, None =>
      let '(ts, ex, n) := make_development_envelope now fresh_nonce in Ret (fresh_id, ts, ex, n)
  | _, _, _, _ =>
      Raise (http_error 400 "order_id, timestamp, expires_at, and nonce must be supplied together")
  end.

Definition signed_order (user_id : string) (req : OrderRequest F) (env : string * Z * Z * string)
    : SignedOrder F :=
  let '(order_id, timestamp, expires_at, nonce) := env in
  mkSignedOrder order_id user_id (or_asset req) (or_side req) (or_quantity req) (or_order_type req)
    (or_limit_price req) (or_stop_price req) (or_time_in_force req) timestamp expires_at nonce.

Definition trade_of (user_id order_id : string) (req : OrderRequest F) (submitted_at : Z) : Trade :=
  mkTrade order_id user_id (or_asset req) (or_side req) (numeric_column (or_quantity req))
    (or_order_type req) (numeric_column <$> or_limit_price req) (numeric_column <$> or_stop_price req)
    (or_time_in_force req) "PENDING" None submitted_at None.

(** The checks before anything is reserved: the order's position and account
    are read, its limits checked, its risk gated and its signature verified.
    Returns the envelope, the canonical text with its signer, the cash to
    reserve, the price and its staleness. *)
Record admission := mkAdmission {
  ad_envelope : string * Z * Z * string;
  ad_canonical : string;
  ad_signer : string * string * string;
  ad_reserve : Z;
  ad_last_price : F;
  ad_quote_stale : bool
}.

Definition admit_order (get_mark_price : string → option F * bool) (quote : outcome (MarketDataError F) F)
    (keys : gmap string KeyPair) (m : Moments) (user_id : string) (req : OrderRequest F)
    (s : RouteState)
    : RouteState * outcome HTTPException admission :=
  match observe_price req quote with
  | Raise e => (s, Raise e)
  | Ret (last_price, quote_stale) =>
      let d := working (rs_session s) in
      let positions := get_positions_with_pnl get_mark_price d user_id in
      let position := List.find (λ p, bool_decide (v_asset p = or_asset req)) positions in
      let held := match position with Some p => v_quantity p | None => n0 end in
      let '(buy_reserved, pending_sell) := open_order_exposure (F:=F) d user_id in
      let sellable := held ⊖ default n0 (pending_sell !! or_asset req) in
      if bool_decide (or_side req = "sell")
         && (or_quantity req >.? sellable ⊕ nof_ratio 1 1000000000) then
        (s, Raise (http_error 400 ("sell quantity exceeds the available paper position "
                     +:+ "(held quantity minus open sell orders)")))
      else
        let '(session, opened) :=
          get_or_create_account (nrepr PAPER_INITIAL_CASH) (m_others_open m) (rs_session s) user_id
            (m_open m) in
        let s := s <| rs_session := session |> in
        let row := default (mkPaperAccount 0 0 0) opened in
        let account := account_snapshot PAPER_INITIAL_CASH row positions in
        let reserve :=
          reservation_micros (or_side req) (nrepr (or_quantity req)) (or_order_type req)
            (nrepr <$> or_limit_price req) (nrepr <$> or_stop_price req) (Some (nrepr last_price)) in
        let risk_price := price_for_risk req last_price in
        match check_buy req position buy_reserved account reserve risk_price with
        | Raise e => (s, Raise e)
        | Ret _ =>
            let '(risk, gate) :=
              assert_risk_gate redis_client production PAPER_MAX_POSITION_FRACTION loop_running in_time
                (mkGateOrder user_id (or_asset req) (or_side req) (or_quantity req) risk_price sellable
                   (av_equity account) (av_gross_exposure account ⊕ av_reserved_cash account))
                (rs_risk s) in
            let s := s <| rs_risk := risk |> in
            (s, let! _ := gate in
                let! env := envelope_of (m_envelope m) req in
                let '(order_id, timestamp, expires_at, nonce) := env in
                let! _ := validate_envelope (m_envelope m) timestamp expires_at nonce in
                let canonical := canonical_order (signed_order user_id req env) in
                let! signer := verify_or_attest production unb64 dsa_verify server_attestation keys
                                 user_id canonical (or_key_id req) (or_signature req) in
                Ret (mkAdmission env canonical signer reserve last_price quote_stale))
        end
  end.

(** Once the key is reserved: insert, execute, answer. *)
Definition book_order (m : Moments) (user_id payload_hash : string)
    (idempotency_key : option string) (req : OrderRequest F) (ad : admission) (s : RouteState)
    : RouteState * outcome HTTPException json :=
  let '(order_id, _, expires_at, nonce) := ad_envelope ad in
  let '(key_id, signature, mode) := ad_signer ad in
  let session := begin_session (m_others_place m (committed (rs_session s))) in
  let security := m_others_security m (rs_security s) in
  let trade := trade_of user_id order_id req (m_submitted m) in
  let nonce_unused := bool_decide (security !! (user_id, nonce) = None) in
  match place_order session trade (ad_reserve ad) (m_reserve m) nonce_unused with
  | (session, Raise e) =>
      (s <| rs_session := session |> <| rs_security := security |>
         <| rs_idem ::= release_idempotency user_id idempotency_key |>, Raise e)
  | (session, Ret _) =>
      let record := mkSecurityRecord order_id (ad_canonical ad) payload_hash expires_at key_id
                      signature mode in
      let '(session, _) :=
        execute_order session trade (ad_quote_stale ad) (ad_last_price ad) (ad_reserve ad) (m_fill m) in
      let final := default trade (db_trades (committed session) !! order_id) in
      let response := serialize_trade final in
      (s <| rs_session := session |> <| rs_security := <[(user_id, nonce) := record]> security |>
         <| rs_idem ::= complete_idempotency user_id idempotency_key response |>, Ret response)
  end.

(** The route; [quote] is the price observation. *)
Definition order_route (get_mark_price : string → option F * bool)
    (quote : outcome (MarketDataError F) F) (keys : gmap string KeyPair) (m : Moments)
    (user_id : string) (idempotency_key : option string) (req : OrderRequest F) (s : RouteState)
    : RouteState * outcome HTTPException json :=
  let payload_hash := request_hash sha256_hex (payload req) in
  match (let! _ := check_fields req in
         get_completed_idempotency_response production (rs_idem s) user_id idempotency_key
           payload_hash) with
  | Raise e => (s, Raise e)
  | Ret (Some response) => (s, Ret response)
  | Ret None =>
      match admit_order get_mark_price quote keys m user_id req s with
      | (s, Raise e) => (s, Raise e)
      | (s, Ret ad) =>
          let '(idem, reserved) :=
            reserve_idempotency production (m_races m) user_id idempotency_key payload_hash (rs_idem s) in
          let s := s <| rs_idem := idem |> in
          match reserved with
          | Raise e => (s, Raise e)
          | Ret (Some response) => (s, Ret response)
          | Ret None => book_order m user_id payload_hash idempotency_key req ad s
          end
      end
  end.
End route.
Arguments RouteState R : clear implicits.
Arguments admission F : clear implicits.

(** * Theorems

    What the order route guarantees end to end: a booked order was authorised
    by its owner's key, a refused order leaves no trace, and a retried
    submission is answered once. *)

#[local] Open Scope Z_scope.

(** ** The terms of an order never change *)

Definition same_terms (t t' : Trade) : Prop :=
  tr_id t' = tr_id t ∧ tr_user_id t' = tr_user_id t ∧ tr_asset t' = tr_asset t ∧
  tr_side t' = tr_side t ∧ tr_quantity t' = tr_quantity t ∧ tr_limit_price t' = tr_limit_price t ∧
  tr_stop_price t' = tr_stop_price t ∧ tr_time_in_force t' = tr_time_in_force t ∧
  tr_submitted_at t' = tr_submitted_at t.

(** Committed, with the row of [id] still on the terms of [t]. *)
Definition booked_as (id : string) (t : Trade) (s : Session) : Prop :=
  s = begin_session (committed s) ∧
  ∃ t', db_trades (committed s) !! id = Some t' ∧ same_terms t t'.

Section execution.
Context {F : Type} `{Num F}.

Lemma same_terms_refl t : same_terms t t.
Proof. by split_and!. Qed.

Lemma same_terms_trans t1 t2 t3 : same_terms t1 t2 → same_terms t2 t3 → same_terms t1 t3.
Proof. unfold same_terms. intuition congruence. Qed.

Lemma close_booked d row trade st reserved now :
  db_trades d !! tr_id trade = Some row →
  booked_as (tr_id trade) row (close_order (begin_session d) trade st reserved now).1.
Proof.
  intros Hr. destruct (close_order_cases d trade st reserved now) as [(row' & Hr' & _ & ->)|(_ & ->)].
  - rewrite Hr in Hr'. injection Hr' as <-. split; [done|].
    exists (row <| tr_status := st |>). split; [|by split_and!].
    cbn [fst committed begin_session]. rewrite close_effect_trades. by rewrite lookup_insert_eq.
  - split; [done|]. exists row. split; [done|apply same_terms_refl].
Qed.

Lemma fill_booked d row trade (px : F) reserved now :
  db_trades d !! tr_id trade = Some row →
  booked_as (tr_id trade) row (fill_order (begin_session d) trade px reserved now).1.
Proof.
  intros Hr. destruct (fill_order_cases d trade px reserved now)
    as [(row' & d' & Hr' & _ & Hs & ->)|[(row' & reason & Hr' & _ & _ & ->)|[_ ->]]];
    (split; [done|]); cbn [fst committed begin_session].
  - rewrite Hr in Hr'. injection Hr' as <-. eexists. split.
    + change (db_trades (rebuild_positions (F:=F) d' (tr_user_id trade))) with (db_trades d').
      rewrite (settle_trades _ _ _ _ _ _ Hs). unfold fill_effect. cbn. apply lookup_insert_eq.
    + by split_and!.
  - rewrite Hr in Hr'. injection Hr' as <-. exists (row <| tr_status := "REJECTED" |>).
    split; [|by split_and!]. rewrite close_effect_trades. by rewrite lookup_insert_eq.
  - exists row. split; [done|apply same_terms_refl].
Qed.

Lemma accept_booked d row trade :
  db_trades d !! tr_id trade = Some row →
  booked_as (tr_id trade) row (accept_order (begin_session d) trade).1.
Proof.
  intros Hr. unfold accept_order, update_row. cbn [working begin_session]. rewrite Hr.
  destruct (bool_decide _); (split; [done|]); cbn.
  - exists (row <| tr_status := "ACCEPTED" |>). split; [apply lookup_insert_eq|by split_and!].
  - exists row. split; [done|apply same_terms_refl].
Qed.

Lemma retype_booked d row id :
  db_trades d !! id = Some row → booked_as id row (retype_as_limit (begin_session d) id).
Proof.
  intros Hr. unfold retype_as_limit, update_row. cbn. rewrite Hr. split; [done|].
  exists (row <| tr_order_type := "limit" |>). split; [apply lookup_insert_eq|by split_and!].
Qed.

Lemma execute_booked d row trade stale (last : F) reserve now :
  db_trades d !! tr_id trade = Some row →
  booked_as (tr_id trade) row (execute_order (begin_session d) trade stale last reserve now).1.
Proof.
  intros Hr. unfold execute_order. set (fill := if stale then _ else _).
  assert (booked_as (tr_id trade) row (let '(s, _) := close_order (begin_session d) trade "EXPIRED"
            (Some reserve) now in (s, @None string)).1) as Hclose.
  { pose proof (close_booked d row trade "EXPIRED" (Some reserve) now Hr) as Hb.
    by destruct (close_order _ _ _ _ _). }
  assert (∀ trig : bool, booked_as (tr_id trade) row
            (let '(s, _) := accept_order (if trig then retype_as_limit (begin_session d) (tr_id trade)
                                          else begin_session d) trade in (s, @None string)).1) as Haccept.
  { intros [].
    - destruct (retype_booked d row (tr_id trade) Hr) as [-> (row1 & Hr1 & Ht1)].
      pose proof (accept_booked _ row1 trade Hr1) as (E & row2 & Hr2 & Ht2).
      destruct (accept_order _ trade) as [s o]. split; [done|]. exists row2.
      split; [done|by eapply same_terms_trans].
    - pose proof (accept_booked d row trade Hr) as Hb. by destruct (accept_order _ trade). }
  assert (∀ px, booked_as (tr_id trade) row
            (let '(s, out) := fill_order (begin_session d) trade px (Some reserve) now in
             (s, fo_reason out)).1) as Hfill.
  { intros px. pose proof (fill_booked d row trade px (Some reserve) now Hr) as Hb.
    by destruct (fill_order _ _ _ _ _). }
  destruct (bool_decide (fill_status fill = "FILLED")), (fill_price fill) as [px|];
    try apply Hfill; (destruct (bool_decide (tr_time_in_force trade = "ioc")); [apply Hclose|apply Haccept]).
Qed.

Lemma place_order_cases d trade reserve now unused :
  (∃ e, place_order (begin_session d) trade reserve now unused = (begin_session d, Raise e)) ∨
  (db_trades d !! tr_id trade = None ∧ unused = true ∧
   ∃ d', place_order (begin_session d) trade reserve now unused = (begin_session d', Ret tt) ∧
     db_trades d' = <[tr_id trade := trade]> (db_trades d)).
Proof.
  unfold place_order. cbn [working begin_session].
  destruct (db_trades d !! tr_id trade) as [old|]; [left; by eexists|].
  unfold try_reserve. destruct (reserve <=? 0).
  - cbn [negb]. destruct unused; [right|left; by eexists]. split_and!; [done|done|].
    by eexists (d <| db_trades ::= <[tr_id trade := trade]> |>).
  - cbn [working begin_session]. destruct (update_row _ _ _ (db_accounts d)) as [accounts rc].
    destruct (rc =? 1); cbn [negb]; [|left; by eexists].
    destruct unused; [right|left; by eexists]. split_and!; [done|done|]. by eexists.
Qed.
End execution.

(** ** The route *)

Lemma validate_envelope_Ret now timestamp expires_at nonce :
  validate_envelope now timestamp expires_at nonce = Ret tt ↔
  url_safe_token 16 128 nonce = true ∧ now - 300 ≤ timestamp ≤ now + 30 ∧
  now < expires_at ∧ timestamp < expires_at ≤ timestamp + 300.
Proof.
  unfold validate_envelope, MAX_ENVELOPE_TTL_SECONDS. rewrite !raise_if_cont, raise_if_Ret.
  rewrite negb_false_iff, !orb_false_iff, !Z.ltb_ge, !Z.leb_gt. intuition lia.
Qed.

Section route.
Context {R F : Type} `{Num F}.
Variable redis_client : option (RedisClient R).
Variable production : bool.
Variables initial_cash fraction : F.
Variable sha256_hex : string → string.
Variable unb64 : string → option string.
Variable dsa_verify : string → string → string → option bool.
Variable attest : string → string.
Variables fresh_id fresh_nonce : string.
Variable float_json : F → json.
Variable numeric_column : F → dec.
Variable serialize_trade : Trade → json.
Variable stale_message : MarketDataError F → string.
Variable loop_running : bool.
Variable in_time : string → bool.

#[local] Abbreviation admitted production := (admit_order redis_client production initial_cash fraction unb64
  dsa_verify attest fresh_id fresh_nonce stale_message loop_running in_time).
#[local] Abbreviation route production := (order_route redis_client production initial_cash fraction
  sha256_hex unb64 dsa_verify attest fresh_id fresh_nonce float_json numeric_column serialize_trade
  stale_message loop_running in_time).
#[local] Abbreviation booking := (book_order numeric_column serialize_trade).

(** Only the account is opened and the switches read before an order is
    admitted, and an admitted order passed every check. *)
Lemma admit_spec marks quote keys m user_id req s :
  let '(s1, r) := admitted production marks quote keys m user_id req s in
  rs_idem s1 = rs_idem s ∧ rs_security s1 = rs_security s ∧
  (rs_session s1 = rs_session s ∨
   rs_session s1 = (get_or_create_account (nrepr initial_cash) (m_others_open m) (rs_session s) user_id
                      (m_open m)).1) ∧
  ∀ ad, r = Ret ad →
    let '(order_id, timestamp, expires_at, nonce) := ad_envelope ad in
    envelope_of fresh_id fresh_nonce (m_envelope m) req = Ret (ad_envelope ad) ∧
    validate_envelope (m_envelope m) timestamp expires_at nonce = Ret tt ∧
    ad_canonical ad = canonical_order (signed_order user_id req (ad_envelope ad)) ∧
    verify_or_attest production unb64 dsa_verify attest keys user_id (ad_canonical ad)
      (or_key_id req) (or_signature req) = Ret (ad_signer ad) ∧
    ∃ o, go_user_id o = user_id ∧ go_asset o = or_asset req ∧ go_side o = or_side req ∧
      go_quantity o = or_quantity req ∧
      (assert_risk_gate redis_client production fraction loop_running in_time o (rs_risk s)).2 = Ret tt.
Proof.
  unfold admit_order. destruct (observe_price _ req quote) as [[last stale]|e]; [|by repeat split; [left|]].
  destruct (open_order_exposure _ _) as [buys sells].
  destruct (_ && _); [by repeat split; [left|]|].
  destruct (get_or_create_account _ _ _ _ _) as [session opened] eqn:Eo. cbn [fst].
  set (o := mkGateOrder _ _ _ _ _ _ _ _).
  destruct (check_buy _ _ _ _ _ _ _) as [[]|e]; [|by repeat split; [right|]].
  cbn [rs_risk set_field].
  destruct (assert_risk_gate _ _ _ _ _ o (rs_risk s)) as [risk gate] eqn:Eg.
  split_and!; [done|done|by right|]. intros ad Had.
  apply obind_Ret in Had as ([] & Hgate & Had).
  apply obind_Ret in Had as (env & Henv & Had). destruct env as [[[order_id ts] ex] nonce].
  apply obind_Ret in Had as ([] & Hval & Had). apply obind_Ret in Had as (signer & Hsig & Had).
  injection Had as <-. cbn [ad_envelope ad_canonical ad_signer]. split_and!; [done..|].
  exists o. split_and!; [done..|]. by rewrite Eg.
Qed.

(** Booking: the insert and its record, or nothing. *)
Lemma book_order_cases m user_id payload_hash key req ad (s : RouteState R) :
  let '(order_id, _, expires_at, nonce) := ad_envelope ad in
  let '(kid, signature, mode) := ad_signer ad in
  let d := m_others_place m (committed (rs_session s)) in
  let security := m_others_security m (rs_security s) in
  let '(s', r) := booking m user_id payload_hash key req ad s in
  rs_risk s' = rs_risk s ∧
  ((∃ e, r = Raise e ∧ rs_session s' = begin_session d ∧ rs_security s' = security ∧
         rs_idem s' = release_idempotency user_id key (rs_idem s)) ∨
   (∃ response, r = Ret response ∧
      db_trades d !! order_id = None ∧ security !! (user_id, nonce) = None ∧
      rs_security s' = <[(user_id, nonce) := mkSecurityRecord order_id (ad_canonical ad) payload_hash
                                              expires_at kid signature mode]> security ∧
      rs_idem s' = complete_idempotency user_id key response (rs_idem s) ∧
      booked_as order_id (trade_of numeric_column user_id order_id req (m_submitted m)) (rs_session s'))).
Proof.
  unfold book_order. destruct (ad_envelope ad) as [[[order_id ts] ex] nonce].
  destruct (ad_signer ad) as [[kid sg] mode].
  set (d := m_others_place m _). set (security := m_others_security m _).
  set (trade := trade_of _ _ _ _ _).
  destruct (place_order_cases d trade (ad_reserve ad) (m_reserve m)
              (bool_decide (security !! (user_id, nonce) = None)))
    as [(e & ->)|(Hn & Hu & d' & -> & Hd')].
  { split; [done|]. left. by exists e. }
  pose proof (execute_booked d' trade trade (ad_quote_stale ad) (ad_last_price ad) (ad_reserve ad)
                (m_fill m)) as Hx.
  destruct (execute_order _ _ _ _ _ _) as [session reason].
  split; [done|]. right. eexists. split; [done|]. apply bool_decide_eq_true_1 in Hu.
  split_and!; try done. apply Hx. rewrite Hd'. apply lookup_insert_eq.
Qed.

(** The route, as one of its three endings: an answer from the idempotency
    record, a refusal before booking, or a booking. *)
Lemma route_cases marks quote keys m user_id key req (s : RouteState R) :
  let hash := request_hash sha256_hex (payload float_json req) in
  let '(s', r) := route production marks quote keys m user_id key req s in
  let '(s1, _) := admitted production marks quote keys m user_id req s in
  ((s' = s ∧
      (∀ response, r = Ret response →
         get_completed_idempotency_response production (rs_idem s) user_id key hash = Ret (Some response)))
   ∨ (s' = s1 ∧ ∃ e, r = Raise e)
   ∨ (∃ idem res, reserve_idempotency production (m_races m) user_id key hash (rs_idem s1) = (idem, res) ∧
        s' = s1 <| rs_idem := idem |> ∧
        ((∃ e, res = Raise e ∧ r = Raise e) ∨ (∃ response, res = Ret (Some response) ∧ r = Ret response)))
   ∨ (∃ idem ad, (admitted production marks quote keys m user_id req s).2 = Ret ad ∧
        check_fields req = Ret tt ∧
        reserve_idempotency production (m_races m) user_id key hash (rs_idem s1) = (idem, Ret None) ∧
        booking m user_id hash key req ad (s1 <| rs_idem := idem |>) = (s', r))).
Proof.
  intros hash. unfold order_route. fold hash.
  destruct (check_fields req) as [[]|e]; cbn [obind];
    [|destruct (admitted production marks quote keys m user_id req s) as [s1 r1]; left; by split].
  destruct (get_completed_idempotency_response _ _ _ _ _) as [[response|]|e] eqn:Eg.
  - destruct (admitted production marks quote keys m user_id req s). left. split; [done|]. by intros ? [= <-].
  - destruct (admitted production marks quote keys m user_id req s) as [s1 [ad|e]]; [|by right; left; eauto].
    destruct (reserve_idempotency _ _ _ _ _ _) as [idem res] eqn:Er.
    destruct res as [[response|]|e].
    + right; right; left. exists idem, (Ret (Some response)). split_and!; [done|done|]. right. by eexists.
    + destruct (booking _ _ _ _ _ _ _) as [s' r] eqn:Eb. right; right; right. by exists idem, ad.
    + right; right; left. exists idem, (Raise e). split_and!; [done|done|]. left. by eexists.
  - destruct (admitted production marks quote keys m user_id req s). left. by split.
Qed.
(** ** Idempotency around a booking *)

Lemma reserve_completed races user_id key hash idem idem' response :
  reserve_idempotency production races user_id key hash idem = (idem', Ret (Some response)) →
  ∃ k, nonempty key = Some k ∧ idem' !! (user_id, k) = Some (mkIdempotencyRecord hash (Some response)).
Proof.
  unfold reserve_idempotency. destruct (validate_idempotency_key production key); [|done].
  destruct (nonempty key) as [k|]; [|done]. intros Hr. exists k. split; [done|].
  assert (∀ row, answer_existing row hash = Ret (Some response) →
            row = mkIdempotencyRecord hash (Some response)) as Ha.
  { intros [h x]. unfold answer_existing. cbn. case_bool_decide as E; [done|].
    subst h. destruct x; [by intros [= ->]|done]. }
  revert idem Hr. induction races as [|race races IH]; intros idem; cbn [reserve_loop].
  - destruct (idem !! (user_id, k)) as [row|] eqn:E; [|done]. intros [= <- Hx%Ha]. by rewrite E, Hx.
  - destruct (idem !! (user_id, k)) as [row|] eqn:E; [intros [= <- Hx%Ha]; by rewrite E, Hx|].
    destruct (race idem !! (user_id, k)) as [row|]; [apply IH|done].
Qed.

Lemma reserve_fresh races user_id key hash idem idem' k :
  nonempty key = Some k →
  reserve_idempotency production races user_id key hash idem = (idem', Ret None) →
  idem' !! (user_id, k) = Some (mkIdempotencyRecord hash None).
Proof.
  intros Hk. unfold reserve_idempotency. destruct (validate_idempotency_key production key); [|done].
  rewrite Hk. apply reserve_admits.
Qed.

Lemma reserve_release user_id key hash idem idem' :
  reserve_idempotency production [] user_id key hash idem = (idem', Ret None) →
  release_idempotency user_id key idem' = idem.
Proof.
  unfold reserve_idempotency, release_idempotency.
  destruct (validate_idempotency_key production key); [|done].
  destruct (nonempty key) as [k|]; [|by intros [= ->]]. cbn [reserve_loop].
  destruct (idem !! (user_id, k)) as [row|] eqn:E.
  - intros [= _ Hx]. unfold answer_existing in Hx. destruct (bool_decide _); [done|].
    by destruct (idem_response_json row).
  - intros [= <-]. rewrite lookup_insert_eq. cbn. by rewrite delete_insert_id.
Qed.

Lemma reserve_refused user_id key hash idem idem' e :
  reserve_idempotency production [] user_id key hash idem = (idem', Raise e) → idem' = idem.
Proof.
  unfold reserve_idempotency. destruct (validate_idempotency_key production key); [|by intros [= ->]].
  destruct (nonempty key) as [k|]; [|by intros [= ->]]. cbn [reserve_loop].
  destruct (idem !! (user_id, k)); [by intros [= ->]|done].
Qed.

(** An answered request passed the field checks and had an acceptable key. *)
Lemma route_answered marks quote keys m user_id key req (s s' : RouteState R) response :
  route production marks quote keys m user_id key req s = (s', Ret response) →
  check_fields req = Ret tt ∧ validate_idempotency_key production key = Ret tt.
Proof.
  unfold order_route. destruct (check_fields req) as [[]|e]; [|done]. cbn [obind].
  unfold get_completed_idempotency_response.
  by destruct (validate_idempotency_key production key) as [[]|e].
Qed.

(** The record an answered request leaves under its key. *)
Lemma route_recorded marks quote keys m user_id key k req (s s' : RouteState R) response :
  nonempty key = Some k →
  route production marks quote keys m user_id key req s = (s', Ret response) →
  rs_idem s' !! (user_id, k) =
    Some (mkIdempotencyRecord (request_hash sha256_hex (payload float_json req)) (Some response)).
Proof.
  intros Hk Hr. pose proof (route_cases marks quote keys m user_id key req s) as Hc.
  cbv zeta in Hc. rewrite Hr in Hc.
  destruct (admitted production marks quote keys m user_id req s) as [s1 r1].
  set (hash := request_hash _ _) in *.
  destruct Hc as [[-> Hg]|[(_ & e & [=])|[(idem & res & Hres & -> & Hc)|(idem & ad & _ & _ & Hres & Hb)]]].
  - specialize (Hg response eq_refl). unfold get_completed_idempotency_response in Hg. rewrite Hk in Hg.
    destruct (validate_idempotency_key production key); [|done]. cbn [obind] in Hg.
    destruct (rs_idem s !! (user_id, k)) as [[h x]|] eqn:E; [|done].
    unfold answer_existing in Hg. cbn in Hg. case_bool_decide as Eh; [done|]. subst h.
    destruct x; [by injection Hg as ->|done].
  - destruct Hc as [(e & _ & [=])|(x & -> & [= ->])].
    apply reserve_completed in Hres as (k' & Hk' & Hrow). rewrite Hk in Hk'. injection Hk' as <-. done.
  - pose proof (book_order_cases m user_id hash key req ad (s1 <| rs_idem := idem |>)) as Hx.
    destruct (ad_envelope ad) as [[[order_id ts] ex] nonce], (ad_signer ad) as [[kid sg] mode].
    cbv zeta in Hx. rewrite Hb in Hx.
    destruct Hx as (_ & [(e & [=] & _)|(x & [= ->] & _ & _ & _ & -> & _)]).
    cbn [rs_idem set_field]. unfold complete_idempotency. rewrite Hk, lookup_alter_eq.
    by rewrite (reserve_fresh _ _ _ _ _ _ _ Hk Hres).
Qed.

(** Submitting twice orders once. When a request with an idempotency key
    has been answered, every later submission of the same request under the
    same key gets the same response and changes nothing, whatever the market,
    the signing keys or the rest of the state have become, as long as the
    key's record is still there. *)
Theorem retried_order_answered_once marks quote keys m user_id k req (s s' : RouteState R) response
    marks2 quote2 keys2 m2 (s2 : RouteState R) :
  k ≠ "" →
  route production marks quote keys m user_id (Some k) req s = (s', Ret response) →
  rs_idem s2 !! (user_id, k) = rs_idem s' !! (user_id, k) →
  route production marks2 quote2 keys2 m2 user_id (Some k) req s2 = (s2, Ret response).
Proof.
  intros Hne Hr Hs2. assert (nonempty (Some k) = Some k) as Hk by by destruct k.
  destruct (route_answered _ _ _ _ _ _ _ _ _ _ Hr) as [Hf Hv].
  rewrite (route_recorded _ _ _ _ _ _ _ _ _ _ _ Hk Hr) in Hs2.
  unfold order_route, get_completed_idempotency_response, answer_existing.
  rewrite Hf, Hv, Hk, Hs2. cbn [obind idem_request_hash idem_response_json].
  by rewrite bool_decide_eq_false_2 by (intros E; by apply E).
Qed.

(** C13: a refused order leaves no trace. When no other session interferes and
    the route raises, whichever check, reservation or constraint failed, the
    orders, positions, existing cash accounts, security records and
    idempotency records are what they were and nothing is left uncommitted:
    the same key can be used for the corrected order. *)
Theorem refused_orders_leave_no_trace marks quote keys m user_id key req (s s' : RouteState R) d e :
  m_others_open m = id → m_others_place m = id → m_others_security m = id → m_races m = [] →
  rs_session s = begin_session d →
  route production marks quote keys m user_id key req s = (s', Raise e) →
  rs_idem s' = rs_idem s ∧ rs_security s' = rs_security s ∧
  ∃ d', rs_session s' = begin_session d' ∧ db_trades d' = db_trades d ∧
    db_positions d' = db_positions d ∧
    ∀ u a, db_accounts d !! u = Some a → db_accounts d' !! u = Some a.
Proof.
  intros Ho Hp Hs Hra Hd Hr.
  assert (∃ d1, (get_or_create_account (nrepr initial_cash) (m_others_open m) (rs_session s) user_id
                   (m_open m)).1 = begin_session d1 ∧ db_trades d1 = db_trades d ∧
            db_positions d1 = db_positions d ∧
            ∀ u a, db_accounts d !! u = Some a → db_accounts d1 !! u = Some a) as Hopen.
  { rewrite Ho, Hd. unfold get_or_create_account. cbn [working committed begin_session].
    destruct (db_accounts d !! user_id) as [a|] eqn:Ea; [by exists d|].
    destruct (foldl _ _ _) as [cash reserved]. unfold id. rewrite Ea. eexists.
    split_and!; [done|done|done|]. cbn. intros u a Hu. rewrite lookup_insert_ne; [done|congruence]. }
  pose proof (admit_spec marks quote keys m user_id req s) as Ha.
  pose proof (route_cases marks quote keys m user_id key req s) as Hc.
  cbv zeta in Hc. rewrite Hr in Hc.
  destruct (admitted production marks quote keys m user_id req s) as [s1 r1].
  destruct Ha as (Hi & Hsec & Hses & _).
  assert (∃ d1, rs_session s1 = begin_session d1 ∧ db_trades d1 = db_trades d ∧
            db_positions d1 = db_positions d ∧
            ∀ u a, db_accounts d !! u = Some a → db_accounts d1 !! u = Some a) as (d1 & Hd1 & Hkeep).
  { destruct Hses as [Hses|Hses]; rewrite Hses; [by exists d|done]. }
  rewrite Hra in Hc.
  destruct Hc as [[-> _]|[(-> & _)|[(idem & res & Hres & -> & Hc)|(idem & ad & _ & _ & Hres & Hb)]]].
  - split_and!; [done|done|]. by exists d.
  - split_and!; [done|done|]. by exists d1.
  - destruct Hc as [(e' & -> & _)|(x & -> & [=])]. apply reserve_refused in Hres as ->.
    cbn [rs_idem rs_security rs_session set_field]. split_and!; [done|done|]. by exists d1.
  - pose proof (book_order_cases m user_id (request_hash sha256_hex (payload float_json req)) key req ad (s1 <| rs_idem := idem |>)) as Hx.
    destruct (ad_envelope ad) as [[[order_id ts] ex] nonce], (ad_signer ad) as [[kid sg] mode].
    cbv zeta in Hx. rewrite Hb in Hx. destruct Hx as (_ & [(e' & _ & Hx1 & Hx2 & Hx3)|(x & [=] & _)]).
    cbn [rs_idem rs_security rs_session set_field] in Hx1, Hx2, Hx3.
    rewrite Hp, Hd1 in Hx1. rewrite Hs in Hx2. rewrite (reserve_release _ _ _ _ _ Hres) in Hx3.
    split_and!; [congruence|by rewrite Hx2|]. by exists d1.
Qed.

(** C12: in production an order is booked on its owner's authority. A security
    record that a request leaves, and that no one else wrote, is the
    requester's: it names an active ML-DSA-65 key of theirs whose signature
    verifies over the canonical text of exactly the order that was booked
    (same id, asset, side, quantity, prices and time in force), the envelope
    was inside its clock window with an unused nonce, and the risk gate
    accepted that user, asset, side and quantity on the state it read. *)
Theorem booked_orders_authorised marks quote keys m user_id key req (s s' : RouteState R) r u nonce rec :
  production = true →
  route production marks quote keys m user_id key req s = (s', r) →
  rs_security s' !! (u, nonce) = Some rec →
  rs_security s !! (u, nonce) ≠ Some rec →
  m_others_security m (rs_security s) !! (u, nonce) ≠ Some rec →
  u = user_id ∧ m_others_security m (rs_security s) !! (user_id, nonce) = None ∧
  booked_as (sr_trade_id rec) (trade_of numeric_column user_id (sr_trade_id rec) req (m_submitted m))
    (rs_session s') ∧
  (∃ o, go_user_id o = user_id ∧ go_asset o = or_asset req ∧ go_side o = or_side req ∧
     go_quantity o = or_quantity req ∧
     (assert_risk_gate redis_client production fraction loop_running in_time o (rs_risk s)).2 = Ret tt) ∧
  ∃ timestamp kid k pk sig,
    sr_canonical_order rec =
      canonical_order (signed_order user_id req (sr_trade_id rec, timestamp, sr_expires_at rec, nonce)) ∧
    m_envelope m - 300 ≤ timestamp ≤ m_envelope m + 30 ∧
    m_envelope m < sr_expires_at rec ≤ timestamp + 300 ∧
    or_key_id req = Some kid ∧ keys !! kid = Some k ∧ kp_user_id k = user_id ∧
    kp_algorithm k = "ML-DSA-65" ∧ kp_is_active k = true ∧ sr_signer_key_id rec = kp_id k ∧
    or_signature req = Some (sr_signature rec) ∧
    unb64 (kp_public_key k) = Some pk ∧ unb64 (sr_signature rec) = Some sig ∧
    dsa_verify pk (sr_canonical_order rec) sig = Some true.
Proof.
  intros Hprod Hr Hrec Hold Hothers.
  pose proof (admit_spec marks quote keys m user_id req s) as Ha.
  pose proof (route_cases marks quote keys m user_id key req s) as Hc.
  cbv zeta in Hc. rewrite Hr in Hc.
  destruct (admitted production marks quote keys m user_id req s) as [s1 r1].
  destruct Ha as (_ & Hsec & _ & Ha).
  destruct Hc as [[-> _]|[(-> & _)|[(idem & res & _ & -> & _)|(idem & ad & Had & _ & _ & Hb)]]];
    [done|by rewrite Hsec in Hrec|by cbn [rs_security set_field] in Hrec; rewrite Hsec in Hrec|].
  specialize (Ha ad Had).
  pose proof (book_order_cases m user_id (request_hash sha256_hex (payload float_json req)) key req ad
                (s1 <| rs_idem := idem |>)) as Hx.
  destruct (ad_envelope ad) as [[[order_id ts] ex] n].
  destruct Ha as (_ & Hval%validate_envelope_Ret & Hcan & Hsig & Hgate).
  destruct (ad_signer ad) as [[kid sg] mode].
  cbv zeta in Hx. rewrite Hb in Hx. cbn [rs_security set_field] in Hx. rewrite Hsec in Hx.
  destruct Hx as (_ & [(e' & _ & _ & Hx & _)|(x & _ & _ & Hnone & Hx & _ & Hbooked)]);
    rewrite Hx in Hrec; [done|].
  apply lookup_insert_Some in Hrec as [[[= <- <-] <-]|[_ Hrec]]; [|done].
  rewrite Hprod in Hsig. apply verify_production in Hsig
    as (kid' & sg' & k & pk & sb & Hkid & _ & Hsg & _ & Hk & Hu & Halg & Hact & Hpk & Hsb & Hv & [= -> -> _]).
  cbn [sr_trade_id sr_expires_at sr_canonical_order sr_signature sr_signer_key_id].
  split_and!; [done|done|done|done|]. exists ts, kid', k, pk, sb. split_and!; (done || lia).
Qed.
End route.

(** ** A request of each kind *)

Definition sample_request (side : string) (quantity : b64) : OrderRequest b64 :=
  mkOrderRequest "SPY" side quantity "market" None None "day" (Some "order-0001") (Some 1700000000)
    (Some 1700000120) (Some "nonce-0123456789") (Some "k1") (Some "sig").
Definition sample_moments : Moments :=
  mkMoments 1700000010 1 2 3 4 id id id [].
Definition sample_keys : gmap string KeyPair :=
  {["k1" := mkKeyPair "k1" "u1" "ML-DSA-65" "pk" true]}.
Definition sample_state : RouteState unit :=
  mkRouteState (begin_session (mkLedgerDB ∅ ∅ [])) ∅ ∅
    (mkRisk ∅ (mkStore tt ∅ ∅ ∅)).
Definition sample_route (req : OrderRequest b64) (s : RouteState unit) : RouteState unit * outcome HTTPException json :=
  order_route None true (nof_ratio 100000 1) (nof_ratio 1 4) (λ s, s) Some
    (λ pk _ sig, Some (bool_decide (pk = "pk" ∧ sig = "sig"))) (λ _, "") "id" "token" JFloat nrepr
    (λ t, JStr (tr_status t)) (λ _, "stale") true (λ _, true)
    (λ _, (Some (nof_ratio 100 1), true)) (Ret (nof_ratio 100 1)) sample_keys sample_moments "u1"
    (Some "key-0001") req s.

Example sample_booked :
  (sample_route (sample_request "buy" (nof_ratio 10 1)) sample_state).2 = Ret (JStr "FILLED").
Proof. vm_compute. reflexivity. Qed.
Example sample_refused : ∃ e, (sample_route (sample_request "sell" (nof_ratio 10 1)) sample_state).2 = Raise e.
Proof. eexists. vm_compute. reflexivity. Qed.

Lemma retried_order_answered_once_witness :
  let s' := (sample_route (sample_request "buy" (nof_ratio 10 1)) sample_state).1 in
  sample_route (sample_request "buy" (nof_ratio 10 1)) s' = (s', Ret (JStr "FILLED")).
Proof.
  cbv zeta.
  refine (retried_order_answered_once None true (nof_ratio 100000 1) (nof_ratio 1 4) (λ s, s) Some
    (λ pk _ sig, Some (bool_decide (pk = "pk" ∧ sig = "sig"))) (λ _, "") "id" "token" JFloat nrepr
    (λ t, JStr (tr_status t)) (λ _, "stale") true (λ _, true)
    (λ _, (Some (nof_ratio 100 1), true)) (Ret (nof_ratio 100 1)) sample_keys sample_moments "u1"
    "key-0001" (sample_request "buy" (nof_ratio 10 1)) sample_state _ _
    (λ _, (Some (nof_ratio 100 1), true)) (Ret (nof_ratio 100 1)) sample_keys sample_moments _ _ _ eq_refl).
  - intros E; discriminate E.
  - rewrite <- sample_booked. apply surjective_pairing.
Defined.

Lemma refused_orders_leave_no_trace_witness :
  let s' := (sample_route (sample_request "sell" (nof_ratio 10 1)) sample_state).1 in
  rs_idem s' = ∅ ∧ rs_security s' = ∅ ∧
  ∃ d', rs_session s' = begin_session d' ∧ db_trades d' = ∅ ∧ db_positions d' = [] ∧
    ∀ u a, (∅ : gmap string PaperAccount) !! u = Some a → db_accounts d' !! u = Some a.
Proof.
  cbv zeta. destruct sample_refused as [e He].
  refine (refused_orders_leave_no_trace None true (nof_ratio 100000 1) (nof_ratio 1 4) (λ s, s) Some
    (λ pk _ sig, Some (bool_decide (pk = "pk" ∧ sig = "sig"))) (λ _, "") "id" "token" JFloat nrepr
    (λ t, JStr (tr_status t)) (λ _, "stale") true (λ _, true)
    (λ _, (Some (nof_ratio 100 1), true)) (Ret (nof_ratio 100 1)) sample_keys sample_moments "u1"
    (Some "key-0001") (sample_request "sell" (nof_ratio 10 1)) sample_state _ (mkLedgerDB ∅ ∅ []) e
    eq_refl eq_refl eq_refl eq_refl eq_refl _).
  rewrite <- He. apply surjective_pairing.
Defined.

Lemma booked_orders_authorised_witness :
  let s' := (sample_route (sample_request "buy" (nof_ratio 10 1)) sample_state).1 in
  booked_as "order-0001"
    (trade_of nrepr "u1" "order-0001" (sample_request "buy" (nof_ratio 10 1)) 3) (rs_session s').
Proof.
  cbv zeta.
  set (s' := (sample_route (sample_request "buy" (nof_ratio 10 1)) sample_state).1).
  pose (rec := default (mkSecurityRecord "" "" "" 0 "" "" "") (rs_security s' !! ("u1", "nonce-0123456789"))).
  assert (rs_security s' !! ("u1", "nonce-0123456789") = Some rec ∧ sr_trade_id rec = "order-0001")
    as [Hrec Hid] by (split; vm_compute; reflexivity).
  destruct (booked_orders_authorised None true (nof_ratio 100000 1) (nof_ratio 1 4) (λ s, s) Some
    (λ pk _ sig, Some (bool_decide (pk = "pk" ∧ sig = "sig"))) (λ _, "") "id" "token" JFloat nrepr
    (λ t, JStr (tr_status t)) (λ _, "stale") true (λ _, true)
    (λ _, (Some (nof_ratio 100 1), true)) (Ret (nof_ratio 100 1)) sample_keys sample_moments "u1"
    (Some "key-0001") (sample_request "buy" (nof_ratio 10 1)) sample_state s' _ "u1" "nonce-0123456789" rec
    eq_refl (surjective_pairing _) Hrec) as (_ & _ & Hb & _);
    [intros E; discriminate E|intros E; discriminate E|].
  rewrite Hid in Hb. exact Hb.
Defined.
