(* ===== verification/Microstructure.v ===== *)
(** backend/services/market_microstructure.py: the L2 data types and the
    snapshot analytics. (The feed validator is in L2Replay.v, after the book
    it drives.) *)

From S2P Require Import Prelude Numeric.
From Stdlib Require Import QArith Qabs Lqa.
#[local] Open Scope Z_scope.

Inductive BookEventType := ADD | CANCEL | MODIFY | TRADE.
Inductive TradeSide := BUY | SELL.

#[global] Instance BookEventType_eq_dec : EqDecision BookEventType.
Proof. solve_decision. Defined.
#[global] Instance TradeSide_eq_dec : EqDecision TradeSide.
Proof. solve_decision. Defined.

Definition opposite (side : TradeSide) : TradeSide :=
  match side with BUY => SELL | SELL => BUY end.

Section types.
Context {F : Type} `{Num F}.

Record PriceLevel := mkPriceLevel { pl_price : F; pl_size : F }.

Record OrderBookSnapshot := mkSnapshot {
  sn_timestamp : F;
  sn_bids : list PriceLevel;      (* best first *)
  sn_asks : list PriceLevel;
  sn_last_trade_price : option F;
  sn_last_trade_size : option F
}.

Record BookEvent := mkBookEvent {
  ev_timestamp : F;
  ev_event_type : BookEventType;
  ev_side : TradeSide;
  ev_price : F;
  ev_size : F;
  ev_order_id : option string
}.

Record TradeEvent := mkTradeEvent {
  te_timestamp : F;
  te_price : F;
  te_size : F;
  te_aggressor_side : TradeSide
}.

(** ** Analytics *)

Definition n2 : F := nof_Z 2.

Definition compute_mid_price (snap : OrderBookSnapshot) : option F :=
  match sn_bids snap, sn_asks snap with
  | b :: _, a :: _ => Some ((pl_price b ⊕ pl_price a) ⊘ n2)
  | _, _ => None
  end.

Definition compute_spread (snap : OrderBookSnapshot) : option F :=
  match sn_bids snap, sn_asks snap with
  | b :: _, a :: _ => Some (pl_price a ⊖ pl_price b)
  | _, _ => None
  end.

Definition compute_spread_bps (snap : OrderBookSnapshot) : option F :=
  match compute_spread snap, compute_mid_price snap with
  | Some spread, Some mid => if mid =.? n0 then None else Some ((spread ⊘ mid) ⊗ nof_Z 10000)
  | _, _ => None
  end.

Definition compute_microprice (snap : OrderBookSnapshot) : option F :=
  match sn_bids snap, sn_asks snap with
  | b :: _, a :: _ =>
      let denom := pl_size b ⊕ pl_size a in
      if denom =.? n0 then None
      else Some (((pl_price a ⊗ pl_size b) ⊕ (pl_price b ⊗ pl_size a)) ⊘ denom)
  | _, _ => None
  end.

Definition compute_order_book_imbalance (snap : OrderBookSnapshot) (levels : nat) : option F :=
  let bid_vol := nsum (map pl_size (take levels (sn_bids snap))) in
  let ask_vol := nsum (map pl_size (take levels (sn_asks snap))) in
  let total := bid_vol ⊕ ask_vol in
  if total =.? n0 then None else Some ((bid_vol ⊖ ask_vol) ⊘ total).

Record depth_view := mkDepth {
  bid_depth : F; ask_depth : F; total_depth : F; levels_used : nat
}.

Definition compute_depth (snap : OrderBookSnapshot) (levels : nat) : depth_view :=
  let bid_depth := nsum (map pl_size (take levels (sn_bids snap))) in
  let ask_depth := nsum (map pl_size (take levels (sn_asks snap))) in
  mkDepth bid_depth ask_depth (bid_depth ⊕ ask_depth)
    (Nat.min levels (Nat.max (length (sn_bids snap)) (length (sn_asks snap)))).

Definition compute_effective_spread (trade_price mid_price : F) (side : TradeSide) : F :=
  match side with
  | BUY => n2 ⊗ (trade_price ⊖ mid_price)
  | SELL => n2 ⊗ (mid_price ⊖ trade_price)
  end.

(** The level walk of [compute_price_impact]: remaining, cost, consumed. *)
Fixpoint impact_walk (levels : list PriceLevel) (remaining cost : F) (consumed : nat) : F * F * nat :=
  match levels with
  | [] => (remaining, cost, consumed)
  | lvl :: levels =>
      let fill := nmin remaining (pl_size lvl) in
      let cost := cost ⊕ (fill ⊗ pl_price lvl) in
      let remaining := remaining ⊖ fill in
      if remaining <=.? n0 then (remaining, cost, S consumed)
      else impact_walk levels remaining cost (S consumed)
  end.

Record impact_view := mkImpact {
  pi_vwap : option F;
  pi_mid_before : option F;
  pi_impact_bps : option F;
  pi_levels_consumed : nat;
  pi_fully_filled : bool
}.

Definition compute_price_impact (order_size : F) (snap : OrderBookSnapshot) (side : TradeSide)
    : impact_view :=
  match compute_mid_price snap with
  | None => mkImpact None None None 0 false
  | Some mid =>
      let levels := match side with BUY => sn_asks snap | SELL => sn_bids snap end in
      let '(remaining, cost, consumed) := impact_walk levels order_size n0 0 in
      let filled_qty := order_size ⊖ nmax remaining n0 in
      let vwap := if filled_qty >.? n0 then Some (cost ⊘ filled_qty) else None in
      let truthy (x : option F) := match x with Some v => nbool v | None => false end in
      let impact_bps :=
        match vwap with
        | Some v => if nbool v && nbool mid then Some (((v ⊖ mid) ⊘ mid) ⊗ nof_Z 10000) else None
        | None => None
        end in
      let impact_bps := match side with SELL => nopp <$> impact_bps | BUY => impact_bps end in
      mkImpact (if truthy vwap then (λ v, nround v 8) <$> vwap else None) (Some (nround mid 8))
        ((λ x, nround x 4) <$> impact_bps) consumed (remaining <=.? n0)
  end.

Definition compute_trade_imbalance (trades : list TradeEvent) (window_seconds : F)
    (reference_time : option F) : option F :=
  match (match reference_time with
         | Some t => Some t
         | None => te_timestamp <$> last trades
         end) with
  | None => None
  | Some reference_time =>
      let cutoff := reference_time ⊖ window_seconds in
      let '(buy_vol, sell_vol) :=
        foldl (λ '(b, s) t,
            if te_timestamp t <.? cutoff then (b, s)
            else match te_aggressor_side t with
                 | BUY => (b ⊕ te_size t, s)
                 | SELL => (b, s ⊕ te_size t)
                 end) (n0, n0) trades in
      let total := buy_vol ⊕ sell_vol in
      if total =.? n0 then None else Some ((buy_vol ⊖ sell_vol) ⊘ total)
  end.

Definition compute_microprice_deviation (snap : OrderBookSnapshot) : option F :=
  match compute_mid_price snap, compute_microprice snap with
  | Some mid, Some micro =>
      if mid =.? n0 then None else Some (((micro ⊖ mid) ⊘ mid) ⊗ nof_Z 10000)
  | _, _ => None
  end.
End types.
Arguments PriceLevel F : clear implicits.
Arguments OrderBookSnapshot F : clear implicits.
Arguments BookEvent F : clear implicits.
Arguments TradeEvent F : clear implicits.
