(* ===== verification/OrderBook.v ===== *)
(** backend/services/order_book.py: the limit order book. Order objects are
    shared between a price level's queue, the id index, and the engine and
    exchange above, so they live in a heap ([bk_heap]) and everything else
    holds locations. *)

From S2P Require Import Prelude Numeric Microstructure.
#[local] Open Scope Z_scope.

(** ** Orders *)

Inductive OrderType := MARKET | LIMIT | STOP | STOP_LIMIT.
Inductive OrderStatus :=
| SUBMITTED | ACCEPTED | QUEUED | PARTIALLY_FILLED | FILLED | CANCELLED | REJECTED | EXPIRED.
Inductive TimeInForce := DAY | GTC | IOC | FOK.
Inductive Owner := FEED | PAPER.   (* [Owner.MARKET] is FEED here *)

#[global] Instance OrderType_eq_dec : EqDecision OrderType.
Proof. solve_decision. Defined.
#[global] Instance OrderStatus_eq_dec : EqDecision OrderStatus.
Proof. solve_decision. Defined.
#[global] Instance TimeInForce_eq_dec : EqDecision TimeInForce.
Proof. solve_decision. Defined.
#[global] Instance Owner_eq_dec : EqDecision Owner.
Proof. solve_decision. Defined.

Section orders.
Context {F : Type} `{Num F}.

(** [_EPS] *)
Definition EPS : F := nof_ratio 1 1000000000.

Record Order := mkOrder {
  o_id : string;
  o_symbol : string;
  o_side : TradeSide;
  o_type : OrderType;
  o_quantity : F;
  o_limit_price : option F;
  o_stop_price : option F;
  o_tif : TimeInForce;
  o_submitted_at : F;
  o_expires_at : option F;
  o_owner : Owner;
  o_status : OrderStatus;
  o_filled : F;
  o_avg_price : F;
  o_ahead : F;
  o_ahead_at_entry : F;
  o_ahead_peak : F;
  o_entered_book_at : option F;
  o_filled_at : option F;
  o_active_at : option F
}.
#[global] Instance eta_Order : Eta Order := λ o,
  mkOrder (o_id o) (o_symbol o) (o_side o) (o_type o) (o_quantity o) (o_limit_price o)
    (o_stop_price o) (o_tif o) (o_submitted_at o) (o_expires_at o) (o_owner o) (o_status o)
    (o_filled o) (o_avg_price o) (o_ahead o) (o_ahead_at_entry o) (o_ahead_peak o)
    (o_entered_book_at o) (o_filled_at o) (o_active_at o).

(** [Order(...)] with the defaults of the mutable fields. *)
Definition new_order (id symbol : string) (side : TradeSide) (type : OrderType) (quantity : F)
    (limit stop : option F) (tif : TimeInForce) (submitted_at : F) (expires_at : option F)
    (owner : Owner) : Order :=
  mkOrder id symbol side type quantity limit stop tif submitted_at expires_at owner SUBMITTED
    n0 n0 n0 n0 n0 None None None.

#[global] Instance Order_inhabited : Inhabited Order :=
  populate (new_order "" "" BUY LIMIT n0 None None GTC n0 None FEED).

Definition remaining_quantity (o : Order) : F := o_quantity o ⊖ o_filled o.

Definition is_active (o : Order) : bool :=
  match o_status o with
  | ACCEPTED | QUEUED | PARTIALLY_FILLED => true
  | _ => false
  end.

(** [record_fill] *)
Definition record_fill (price quantity timestamp : F) (o : Order) : Order :=
  let previous := o_filled o in
  let filled := previous ⊕ quantity in
  let o := o <| o_filled := filled |>
             <| o_avg_price := ((o_avg_price o ⊗ previous) ⊕ (price ⊗ quantity)) ⊘ filled |>
             <| o_filled_at := Some timestamp |> in
  o <| o_status := if remaining_quantity o <=.? EPS then FILLED else PARTIALLY_FILLED |>.

Record Fill := mkFill {
  f_order_id : string;
  f_price : F;
  f_quantity : F;
  f_timestamp : F;
  f_is_partial : bool;
  f_aggressor : bool;
  f_side : option TradeSide
}.

(** ** The book *)

(** A location in the heap. *)
Abbreviation loc := nat (only parsing).

Record LevelQueue := mkLevelQueue {
  lq_price : F;
  lq_ticks : Z;
  lq_orders : list loc
}.
#[global] Instance eta_LevelQueue : Eta LevelQueue := λ q,
  mkLevelQueue (lq_price q) (lq_ticks q) (lq_orders q).

(** One side: the levels by tick, and their ticks in ascending order. *)
Record BookSide := mkBookSide {
  bs_levels : gmap Z LevelQueue;
  bs_keys : list Z
}.
#[global] Instance eta_BookSide : Eta BookSide := λ s, mkBookSide (bs_levels s) (bs_keys s).

Record OrderBook := mkOrderBook {
  bk_symbol : string;
  bk_tick_size : F;
  bk_decimals : Z;
  bk_bids : BookSide;
  bk_asks : BookSide;
  bk_orders : list (string * loc);      (* the [_orders] dict, in insertion order *)
  bk_last_trade_price : option F;
  bk_last_trade_size : option F;
  bk_last_event_time : F;
  bk_heap : list Order
}.
#[global] Instance eta_OrderBook : Eta OrderBook := λ b,
  mkOrderBook (bk_symbol b) (bk_tick_size b) (bk_decimals b) (bk_bids b) (bk_asks b) (bk_orders b)
    (bk_last_trade_price b) (bk_last_trade_size b) (bk_last_event_time b) (bk_heap b).

Inductive BookError :=
| BadNumber            (* int(round(x)) of a NaN or an infinity *)
| MissingLevel (ticks : Z).

#[local] Abbreviation bprog := (prog OrderBook BookError).

(** [max(0, -Decimal(str(t)).normalize().as_tuple().exponent)] *)
Fixpoint strip_zeros (fuel : nat) (c e : Z) : Z :=
  match fuel with
  | O => e
  | S k => if c =? 0 then 0 else if c mod 10 =? 0 then strip_zeros k (c / 10) (e + 1) else e
  end.

Definition tick_decimals (tick_size : F) : Z :=
  let d := nrepr tick_size in
  Z.max 0 (- strip_zeros (S (Z.to_nat (Z.log2 (Z.abs (dcoef d))))) (dcoef d) (dexp d)).

Definition new_book (symbol : string) (tick_size : F) : option OrderBook :=
  if tick_size <=.? n0 then None   (* ValueError *)
  else Some (mkOrderBook symbol tick_size (tick_decimals tick_size) (mkBookSide ∅ []) (mkBookSide ∅ [])
               [] None None n0 []).

(** *** Tick grid *)

Definition to_ticks (b : OrderBook) (price : F) : option Z := nrint (price ⊘ bk_tick_size b).
Definition from_ticks (b : OrderBook) (ticks : Z) : F :=
  nround (nof_Z ticks ⊗ bk_tick_size b) (bk_decimals b).
Definition is_on_grid (b : OrderBook) (price : F) : option bool :=
  let units := price ⊘ bk_tick_size b in
  (λ r, nabs (units ⊖ nof_Z r) <.? nof_ratio 1 1000000) <$> nrint units.

Definition ticks_of (price : F) : bprog Z := λ b,
  match to_ticks b price with
  | Some t => (b, Ret t)
  | None => (b, Raise BadNumber)
  end.

(** *** Order objects *)

Definition order_at (b : OrderBook) (l : loc) : Order := bk_heap b !!! l.
Definition update_order (l : loc) (f : Order → Order) (b : OrderBook) : OrderBook :=
  b <| bk_heap ::= alter f l |>.
Definition alloc (o : Order) (b : OrderBook) : OrderBook * loc :=
  (b <| bk_heap ::= λ h, h ++ [o] |>, length (bk_heap b)).

(** The [_orders] dict: assignment keeps the place of a key it has. *)
Definition dict_get (k : string) (d : list (string * loc)) : option loc :=
  snd <$> List.find (λ kv, bool_decide (kv.1 = k)) d.
Definition dict_set (k : string) (l : loc) (d : list (string * loc)) : list (string * loc) :=
  if existsb (λ kv, bool_decide (kv.1 = k)) d
  then map (λ kv, if bool_decide (kv.1 = k) then (k, l) else kv) d
  else d ++ [(k, l)].
Definition dict_pop (k : string) (d : list (string * loc)) : list (string * loc) :=
  List.filter (λ kv, negb (bool_decide (kv.1 = k))) d.

Definition get_order (b : OrderBook) (order_id : string) : option loc := dict_get order_id (bk_orders b).

(** *** Levels *)

Definition sizes (b : OrderBook) (ls : list loc) : list F := map (λ l, remaining_quantity (order_at b l)) ls.
Definition is_feed (b : OrderBook) (l : loc) : bool := bool_decide (o_owner (order_at b l) = FEED).
Definition is_paper (b : OrderBook) (l : loc) : bool := bool_decide (o_owner (order_at b l) = PAPER).

Definition total_size (b : OrderBook) (q : LevelQueue) : F := nsum (sizes b (lq_orders q)).
Definition market_size (b : OrderBook) (q : LevelQueue) : F :=
  nsum (sizes b (List.filter (is_feed b) (lq_orders q))).

(** [LevelQueue.remove]: the first order with the id. *)
Fixpoint remove_first (P : loc → bool) (ls : list loc) : list loc :=
  match ls with
  | [] => []
  | l :: ls => if P l then ls else l :: remove_first P ls
  end.
Definition level_remove (b : OrderBook) (order_id : string) (ls : list loc) : list loc :=
  remove_first (λ l, bool_decide (o_id (order_at b l) = order_id)) ls.

(** [refresh_queue_positions] *)
Definition refresh_step (acc : OrderBook * F) (l : loc) : OrderBook * F :=
  let '(b, ahead) := acc in
  let b := if is_paper b l
           then update_order l (λ o, o <| o_ahead := ahead |>
                                       <| o_ahead_peak := nmax (o_ahead_peak o) ahead |>) b
           else b in
  (b, ahead ⊕ remaining_quantity (order_at b l)).
Definition refresh_queue_positions (ls : list loc) (b : OrderBook) : OrderBook :=
  (foldl refresh_step (b, n0) ls).1.

(** [_side] *)
Definition side_of (b : OrderBook) (side : TradeSide) : BookSide :=
  match side with BUY => bk_bids b | SELL => bk_asks b end.
Definition set_side (side : TradeSide) (s : BookSide) (b : OrderBook) : OrderBook :=
  match side with BUY => b <| bk_bids := s |> | SELL => b <| bk_asks := s |> end.

(** [bisect.insort] and [bisect_left] with [pop], on an ascending list. *)
Fixpoint insort (t : Z) (keys : list Z) : list Z :=
  match keys with
  | [] => [t]
  | k :: keys' => if t <? k then t :: keys else k :: insort t keys'
  end.
Fixpoint drop_key (t : Z) (keys : list Z) : list Z :=
  match keys with
  | [] => []
  | k :: keys' => if k <? t then k :: drop_key t keys' else if k =? t then keys' else keys
  end.

Definition find_level (b : OrderBook) (side : TradeSide) (ticks : Z) : option LevelQueue :=
  bs_levels (side_of b side) !! ticks.

Definition set_level (side : TradeSide) (ticks : Z) (q : LevelQueue) (b : OrderBook) : OrderBook :=
  set_side side (side_of b side <| bs_levels ::= <[ticks := q]> |>) b.

(** [_level(side, ticks, create=True)] *)
Definition level_or_new (side : TradeSide) (ticks : Z) (b : OrderBook) : OrderBook * LevelQueue :=
  match find_level b side ticks with
  | Some q => (b, q)
  | None =>
      let q := mkLevelQueue (from_ticks b ticks) ticks [] in
      (set_side side (side_of b side <| bs_levels ::= <[ticks := q]> |> <| bs_keys ::= insort ticks |>) b, q)
  end.

Definition live (b : OrderBook) (l : loc) : bool :=
  (EPS <.? remaining_quantity (order_at b l)) && is_active (order_at b l).

(** [_prune] *)
Definition prune (side : TradeSide) (ticks : Z) (b : OrderBook) : OrderBook :=
  match find_level b side ticks with
  | None => b
  | Some q =>
      let kept := List.filter (live b) (lq_orders q) in
      let gone := List.filter (λ l, negb (live b l) && is_feed b l) (lq_orders q) in
      let b := b <| bk_orders ::= λ d, foldl (λ d l, dict_pop (o_id (order_at b l)) d) d gone |> in
      let b := refresh_queue_positions kept b in
      match kept with
      | [] => set_side side (side_of b side <| bs_levels ::= delete ticks |>
                                            <| bs_keys ::= drop_key ticks |>) b
      | _ => set_level side ticks (q <| lq_orders := kept |>) b
      end
  end.

(** *** Sorted level accessors *)

(** A side's ticks, best first. *)
Definition best_first (b : OrderBook) (side : TradeSide) : list Z :=
  match side with
  | BUY => reverse (bs_keys (bk_bids b))
  | SELL => bs_keys (bk_asks b)
  end.
Definition levels_of (b : OrderBook) (side : TradeSide) : list LevelQueue :=
  omap (find_level b side) (best_first b side).
Definition bid_levels (b : OrderBook) : list LevelQueue := levels_of b BUY.
Definition ask_levels (b : OrderBook) : list LevelQueue := levels_of b SELL.

Definition best_bid (b : OrderBook) : option F := from_ticks b <$> last (bs_keys (bk_bids b)).
Definition best_ask (b : OrderBook) : option F := from_ticks b <$> head (bs_keys (bk_asks b)).
Definition mid_price (b : OrderBook) : option F :=
  match best_bid b, best_ask b with
  | Some bb, Some ba => Some ((bb ⊕ ba) ⊘ nof_Z 2)
  | _, _ => None
  end.
Definition spread (b : OrderBook) : option F :=
  match best_bid b, best_ask b with
  | Some bb, Some ba => Some (ba ⊖ bb)
  | _, _ => None
  end.

(** *** Resting orders *)

(** [add_order], of the order at [l], once its tick is known. *)
Definition rest_order (l : loc) (timestamp : F) (ticks : Z) (b : OrderBook) : OrderBook :=
  let side := o_side (order_at b l) in
  let b := if is_feed b l
           then update_order l (λ o, o <| o_limit_price := Some (from_ticks b ticks) |>) b
           else b in
  let '(b, q) := level_or_new side ticks b in
  let ahead := total_size b q in
  let b := update_order l (λ o,
    o <| o_ahead := ahead |> <| o_ahead_at_entry := ahead |> <| o_ahead_peak := ahead |>
      <| o_entered_book_at := Some timestamp |>
      <| o_status := if o_filled o <=.? n0 then QUEUED else o_status o |>) b in
  let b := set_level side ticks (q <| lq_orders ::= λ ls, ls ++ [l] |>) b in
  b <| bk_orders ::= dict_set (o_id (order_at b l)) l |>.

Definition add_order (l : loc) (timestamp : F) : bprog unit :=
  b ← pget;
  match o_limit_price (order_at b l) with
  | None => mret ()
  | Some price => ticks ← ticks_of price; pmodify (rest_order l timestamp ticks)
  end.

(** [cancel_order]: the cancelled order, or None. *)
Definition cancel_order (order_id : string) : bprog (option loc) :=
  b ← pget;
  match get_order b order_id with
  | None => mret None
  | Some l =>
      let o := order_at b l in
      match o_limit_price o with
      | Some price =>
          if is_active o then
            ticks ← ticks_of price;
            pmodify (λ b,
              let b := update_order l (λ o, o <| o_status := CANCELLED |>) b in
              match find_level b (o_side o) ticks with
              | None => b
              | Some q =>
                  prune (o_side o) ticks
                    (set_level (o_side o) ticks (q <| lq_orders ::= level_remove b order_id |>) b)
              end);;
            mret (Some l)
          else mret None
      | None => mret None
      end
  end.

(** *** Aggressive execution *)

(** [levels[ticks]] *)
Definition level_at (side : TradeSide) (ticks : Z) : bprog LevelQueue := λ b,
  match find_level b side ticks with
  | Some q => (b, Ret q)
  | None => (b, Raise (MissingLevel ticks))
  end.

Definition fill_of (b : OrderBook) (l : loc) (price qty timestamp : F) : Fill :=
  let o := order_at b l in
  mkFill (o_id o) price qty timestamp (negb (bool_decide (o_status o = FILLED))) false (Some (o_side o)).

(** The loop over one level's queue, in [consume_liquidity]. *)
Fixpoint take_queue (skip_paper : bool) (price timestamp : F) (ls : list loc)
    (st : OrderBook * F * list Fill) : OrderBook * F * list Fill :=
  match ls with
  | [] => st
  | l :: ls =>
      let '(b, remaining, fills) := st in
      if remaining <=.? EPS then st
      else if skip_paper && is_paper b l then take_queue skip_paper price timestamp ls st
      else
        let qty := nmin remaining (remaining_quantity (order_at b l)) in
        if qty <=.? EPS then take_queue skip_paper price timestamp ls st
        else
          let b := update_order l (record_fill price qty timestamp) b in
          take_queue skip_paper price timestamp ls
            (b, remaining ⊖ qty, fills ++ [fill_of b l price qty timestamp])
  end.

(** Whether a sweep of [side] stops before a level at [ticks]. *)
Definition beyond_limit (side : TradeSide) (limit_ticks : option Z) (ticks : Z) : bool :=
  match limit_ticks, side with
  | None, _ => false
  | Some limit, BUY => limit <? ticks
  | Some limit, SELL => ticks <? limit
  end.

Fixpoint take_levels (side : TradeSide) (limit_ticks : option Z) (skip_paper : bool) (timestamp : F)
    (ordered : list Z) (remaining : F) (fills : list Fill) : bprog (F * list Fill) :=
  match ordered with
  | [] => mret (remaining, fills)
  | ticks :: ordered =>
      if remaining <=.? EPS then mret (remaining, fills)
      else if beyond_limit side limit_ticks ticks then mret (remaining, fills)
      else
        q ← level_at (opposite side) ticks;
        b ← pget;
        let '(b, remaining, fills) :=
          take_queue skip_paper (lq_price q) timestamp (lq_orders q) (b, remaining, fills) in
        pmodify (λ _, prune (opposite side) ticks b);;
        take_levels side limit_ticks skip_paper timestamp ordered remaining fills
  end.

(** [consume_liquidity] *)
Definition consume_liquidity (side : TradeSide) (quantity timestamp : F) (limit_price : option F)
    (skip_paper : bool) : bprog (list Fill) :=
  limit_ticks ← match limit_price with
                | Some p => t ← ticks_of p; mret (Some t)
                | None => mret None
                end;
  b ← pget;
  '(_, fills) ← take_levels side limit_ticks skip_paper timestamp
                  (best_first b (opposite side)) quantity [];
  match last fills with
  | Some f => pmodify (λ b, b <| bk_last_trade_price := Some (f_price f) |>
                              <| bk_last_trade_size := Some (nsum (map f_quantity fills)) |>)
  | None => mret ()
  end;;
  mret fills.

(** *** Market data *)

Definition market_depth (side : TradeSide) (price : F) : bprog F :=
  ticks ← ticks_of price;
  b ← pget;
  mret match find_level b side ticks with
       | Some q => market_size b q
       | None => n0
       end.

(** [_reduce_market] *)
Definition reduce_market (q : LevelQueue) (amount : F) (b : OrderBook) : OrderBook :=
  let market := List.filter (λ l, is_feed b l && (EPS <.? remaining_quantity (order_at b l)))
                  (lq_orders q) in
  let total := nsum (sizes b market) in
  if total <=.? EPS then b
  else
    let share := nmin n1 (amount ⊘ total) in
    foldl (λ b l, update_order l
             (λ o, o <| o_quantity := o_quantity o ⊖ (remaining_quantity o ⊗ share) |>) b) b market.

(** A feed order of [size] at [price], and its resting. [fresh] is the
    [uuid4] an event without an order id gets. *)
Definition add_feed_order (fresh : string) (ev : BookEvent F) (size price : F) : bprog unit :=
  b ← pget;
  let id := match ev_order_id ev with
            | Some id => if bool_decide (id = "") then fresh else id
            | None => fresh
            end in
  let '(b, l) := alloc (new_order id (bk_symbol b) (ev_side ev) LIMIT size (Some price) None GTC
                          (ev_timestamp ev) None FEED) b in
  pmodify (λ _, b);;
  add_order l (ev_timestamp ev).

Definition apply_add (fresh : string) (ev : BookEvent F) (ticks : Z) : bprog unit :=
  b ← pget;
  if EPS <.? ev_size ev then add_feed_order fresh ev (ev_size ev) (from_ticks b ticks) else mret ().

(** The known order of a CANCEL or MODIFY: the id is in the index, belongs to
    the feed, and that very order is in the level. *)
Definition known_order (b : OrderBook) (ev : BookEvent F) (q : LevelQueue) : option loc :=
  match ev_order_id ev with
  | Some id =>
      if bool_decide (id = "") then None
      else match get_order b id with
           | Some l => if is_feed b l && bool_decide (l ∈ lq_orders q) then Some l else None
           | None => None
           end
  | None => None
  end.

Definition change_known (l : loc) (ev : BookEvent F) (q : LevelQueue) (ticks : Z) (b : OrderBook)
    : OrderBook :=
  let o := order_at b l in
  match ev_event_type ev with
  | CANCEL => update_order l (λ o, o <| o_quantity := nmax (o_filled o) (o_quantity o ⊖ ev_size ev) |>) b
  | _ =>
      let resize := update_order l (λ o, o <| o_quantity := o_filled o ⊕ ev_size ev |>) in
      if ev_size ev <=.? remaining_quantity o then resize b
      else set_level (ev_side ev) ticks
             (q <| lq_orders ::= λ ls, level_remove b (o_id o) ls ++ [l] |>) (resize b)
  end.

Definition change_aggregate (fresh : string) (ev : BookEvent F) (q : LevelQueue) : bprog unit :=
  b ← pget;
  let current := market_size b q in
  let target := match ev_event_type ev with
                | CANCEL => nmax n0 (current ⊖ ev_size ev)
                | _ => ev_size ev
                end in
  if target <.? current then pmodify (reduce_market q (current ⊖ target))
  else if target >.? (current ⊕ EPS) then add_feed_order fresh ev (target ⊖ current) (lq_price q)
  else mret ().

Definition apply_change (fresh : string) (ev : BookEvent F) (ticks : Z) : bprog unit :=
  b ← pget;
  match find_level b (ev_side ev) ticks with
  | None =>
      match ev_event_type ev with
      | MODIFY => if EPS <.? ev_size ev then apply_add fresh ev ticks else mret ()
      | _ => mret ()
      end
  | Some q =>
      match known_order b ev q with
      | Some l => pmodify (change_known l ev q ticks)
      | None => change_aggregate fresh ev q
      end;;
      pmodify (prune (ev_side ev) ticks)
  end.

(** The loop over one level's queue under a TRADE print. *)
Fixpoint print_queue (price timestamp : F) (ls : list loc) (st : OrderBook * F * list Fill)
    : OrderBook * F * list Fill :=
  match ls with
  | [] => st
  | l :: ls =>
      let '(b, remaining, fills) := st in
      if remaining <=.? EPS then st
      else
        let qty := nmin remaining (remaining_quantity (order_at b l)) in
        if qty <=.? EPS then print_queue price timestamp ls st
        else if is_paper b l then
          let b := update_order l (record_fill price qty timestamp) b in
          print_queue price timestamp ls
            (b, remaining ⊖ qty, fills ++ [fill_of b l price qty timestamp])
        else
          print_queue price timestamp ls
            (update_order l (λ o, o <| o_quantity := o_quantity o ⊖ qty |>) b, remaining ⊖ qty, fills)
  end.

Fixpoint print_levels (passive : TradeSide) (timestamp : F) (path : list Z) (remaining : F)
    (fills : list Fill) : bprog (list Fill) :=
  match path with
  | [] => mret fills
  | ticks :: path =>
      if remaining <=.? EPS then mret fills
      else
        q ← level_at passive ticks;
        b ← pget;
        let '(b, remaining, fills) :=
          print_queue (lq_price q) timestamp (lq_orders q) (b, remaining, fills) in
        pmodify (λ _, prune passive ticks b);;
        print_levels passive timestamp path remaining fills
  end.

Definition apply_trade (ev : BookEvent F) (ticks : Z) : bprog (list Fill) :=
  pmodify (λ b, b <| bk_last_trade_price := Some (from_ticks b ticks) |>
                  <| bk_last_trade_size := Some (ev_size ev) |>);;
  b ← pget;
  let passive := opposite (ev_side ev) in
  let path := List.filter (λ t, negb (beyond_limit (ev_side ev) (Some ticks) t)) (best_first b passive) in
  print_levels passive (ev_timestamp ev) path (ev_size ev) [].

(** [apply_market_event]: the fills of resting paper orders. *)
Definition apply_market_event (fresh : string) (ev : BookEvent F) : bprog (list Fill) :=
  pmodify (λ b, b <| bk_last_event_time := ev_timestamp ev |>);;
  ticks ← ticks_of (ev_price ev);
  match ev_event_type ev with
  | ADD => apply_add fresh ev ticks;; mret []
  | CANCEL | MODIFY => apply_change fresh ev ticks;; mret []
  | TRADE => apply_trade ev ticks
  end.

(** [snapshot] *)
Definition snapshot (levels : nat) (b : OrderBook) : OrderBookSnapshot F :=
  let view q := mkPriceLevel (lq_price q) (total_size b q) in
  mkSnapshot (bk_last_event_time b) (map view (take levels (bid_levels b)))
    (map view (take levels (ask_levels b))) (bk_last_trade_price b) (bk_last_trade_size b).

(** The counts of [to_dict]. *)
Definition resting_count (s : BookSide) : nat :=
  map_fold (λ _ q n, (length (lq_orders q) + n)%nat) O (bs_levels s).
End orders.
Arguments Order F : clear implicits.
Arguments OrderBook F : clear implicits.
Arguments Fill F : clear implicits.
Arguments LevelQueue F : clear implicits.
Arguments BookSide F : clear implicits.
