(* ===== verification/OrderBookFacts.v ===== *)
(** Facts about the limit order book. *)

From S2P Require Import Prelude Numeric Microstructure OrderBook.
From stdpp Require Import sorting.
From Stdlib Require Import QArith Qabs Lqa.
#[local] Open Scope Z_scope.

Section wellformed.
Context {F : Type} `{Num F}.
Implicit Types (b : OrderBook F) (s : TradeSide) (q : LevelQueue F).

(** ** Well-formed books *)

Record level_wf (b : OrderBook F) (t : Z) (q : LevelQueue F) : Prop := {
  lw_ticks : lq_ticks q = t;
  lw_price : lq_price q = from_ticks b t;
  lw_alloc : Forall (λ l, l < length (bk_heap b))%nat (lq_orders q)
}.

(** [ex] is a level that may be empty: the one being changed, until it is
    pruned. *)
Record side_wf (ex : option (TradeSide * Z)) (b : OrderBook F) (s : TradeSide) : Prop := {
  sw_sorted : StronglySorted Z.lt (bs_keys (side_of b s));
  sw_keys : ∀ t, t ∈ bs_keys (side_of b s) ↔ is_Some (find_level b s t);
  sw_level : ∀ t q, find_level b s t = Some q → level_wf b t q;
  sw_orders : ∀ t q, find_level b s t = Some q → ex ≠ Some (s, t) → lq_orders q ≠ []
}.

Definition book_wf_but (ex : option (TradeSide * Z)) (b : OrderBook F) : Prop := ∀ s, side_wf ex b s.
Definition book_wf : OrderBook F → Prop := book_wf_but None.

Lemma book_wf_weaken ex b : book_wf b → book_wf_but ex b.
Proof. intros Hb s. destruct (Hb s). split; eauto. Qed.

(** What only touches order objects leaves the levels alone. *)
Record same_levels (b b' : OrderBook F) : Prop := {
  sl_tick : bk_tick_size b' = bk_tick_size b;
  sl_decimals : bk_decimals b' = bk_decimals b;
  sl_side : ∀ s, side_of b' s = side_of b s;
  sl_heap : (length (bk_heap b) ≤ length (bk_heap b'))%nat
}.

#[export] Instance same_levels_preorder : PreOrder same_levels.
Proof.
  split; [by intros b; split|]. intros b1 b2 b3 [] []. split; intros; try lia; congruence.
Qed.

Lemma same_from_ticks b b' t : same_levels b b' → from_ticks b' t = from_ticks b t.
Proof. intros []. unfold from_ticks. congruence. Qed.

Lemma same_to_ticks b b' p : same_levels b b' → to_ticks b' p = to_ticks b p.
Proof. intros []. unfold to_ticks. congruence. Qed.

Lemma same_find b b' s t : same_levels b b' → find_level b' s t = find_level b s t.
Proof. intros []. unfold find_level. congruence. Qed.

Lemma level_wf_same b b' t q : same_levels b b' → level_wf b t q → level_wf b' t q.
Proof.
  intros Hs []. split; try done.
  - by rewrite (same_from_ticks b b').
  - eapply Forall_impl; [done|]. cbn. intros l. pose proof (sl_heap _ _ Hs). lia.
Qed.

Lemma side_wf_same ex b b' s : same_levels b b' → side_wf ex b s → side_wf ex b' s.
Proof.
  intros Hs [Hsort Hk Hl Ho]. split.
  - by rewrite (sl_side _ _ Hs).
  - intros t. by rewrite (sl_side _ _ Hs), (same_find b b').
  - intros t q. rewrite (same_find b b') by done. eauto using level_wf_same.
  - intros t q. rewrite (same_find b b') by done. eauto.
Qed.

Lemma book_wf_same ex b b' : same_levels b b' → book_wf_but ex b → book_wf_but ex b'.
Proof. intros Hs Hb s. eauto using side_wf_same. Qed.

Lemma update_order_same l f b : same_levels b (update_order l f b).
Proof. split; [done..|]. cbn. by rewrite length_alter. Qed.

Lemma alloc_same o b : same_levels b (alloc o b).1.
Proof. split; [done..|]. cbn. rewrite length_app. lia. Qed.

Lemma refresh_same ls b : same_levels b (refresh_queue_positions ls b).
Proof.
  unfold refresh_queue_positions.
  apply (foldl_invariant (λ acc : OrderBook F * F, same_levels b acc.1)); [done|].
  intros [b' a] l _ Hb. cbn. destruct (is_paper b' l); [|done]. etransitivity; [done|].
  apply update_order_same.
Qed.

Lemma take_queue_same skip price now ls b r fs :
  same_levels b (take_queue skip price now ls (b, r, fs)).1.1.
Proof.
  revert b r fs; induction ls as [|l ls IH]; intros b r fs; cbn [take_queue]; [done|].
  destruct (r <=.? EPS); [done|]. destruct (_ && _); [apply IH|]. cbv zeta.
  destruct (nmin _ _ <=.? EPS); [apply IH|]. etransitivity; [apply update_order_same|apply IH].
Qed.

Lemma print_queue_same price now ls b r fs :
  same_levels b (print_queue price now ls (b, r, fs)).1.1.
Proof.
  revert b r fs; induction ls as [|l ls IH]; intros b r fs; cbn [print_queue]; [done|].
  destruct (r <=.? EPS); [done|]. cbv zeta. destruct (nmin _ _ <=.? EPS); [apply IH|].
  destruct (is_paper b l); (etransitivity; [apply update_order_same|apply IH]).
Qed.

Lemma reduce_same q amount b : same_levels b (reduce_market q amount b).
Proof.
  unfold reduce_market. destruct (_ <=.? _); [done|].
  apply (foldl_invariant (λ b', same_levels b b')); [done|].
  intros b' l _ Hb. etransitivity; [done|]. apply update_order_same.
Qed.

(** *** Keys *)

Lemma elem_of_insort t x keys : x ∈ insort t keys ↔ x = t ∨ x ∈ keys.
Proof.
  induction keys as [|k keys IH]; cbn; [set_solver|]. destruct (t <? k); set_solver.
Qed.

Lemma insort_sorted t keys :
  t ∉ keys → StronglySorted Z.lt keys → StronglySorted Z.lt (insort t keys).
Proof.
  intros Hnin. induction 1 as [|k keys Hs IH Hk]; cbn; [by repeat constructor|].
  apply not_elem_of_cons in Hnin as [Hne Hnin]. destruct (Z.ltb_spec t k).
  - constructor; [by constructor|]. constructor; [done|].
    eapply Forall_impl; [exact Hk|]. cbn. lia.
  - constructor; [auto|]. apply Forall_forall. intros x [->|Hx]%elem_of_insort; [lia|].
    rewrite Forall_forall in Hk. auto.
Qed.

Lemma drop_key_spec t keys :
  StronglySorted Z.lt keys →
  StronglySorted Z.lt (drop_key t keys) ∧ ∀ x, x ∈ drop_key t keys ↔ x ∈ keys ∧ x ≠ t.
Proof.
  induction 1 as [|k keys Hs [IHs IHx] Hk]; cbn; [split; [constructor|set_solver]|].
  rewrite Forall_forall in Hk. destruct (Z.ltb_spec k t); [|destruct (Z.eqb_spec k t)].
  - split; [constructor; [done|]; apply Forall_forall; set_solver|].
    intros x. rewrite !elem_of_cons, IHx. split; [intros [->|[]]; auto with lia|].
    intros [[->|] ?]; auto.
  - subst. split; [done|]. intros x. rewrite elem_of_cons. split; [|naive_solver].
    intros Hx. specialize (Hk x Hx). split; [auto|lia].
  - split; [constructor; [done|by apply Forall_forall]|].
    intros x. split; [|by intros []]. intros Hx. split; [done|]. intros ->.
    apply elem_of_cons in Hx as [->|Hx]; [done|]. specialize (Hk t Hx). lia.
Qed.

Lemma side_of_set s s' S b : side_of (set_side s S b) s' = if decide (s = s') then S else side_of b s'.
Proof. by destruct s, s'. Qed.

Lemma find_set_level s t q b s' t' :
  find_level (set_level s t q b) s' t' =
  if decide (s = s' ∧ t = t') then Some q else find_level b s' t'.
Proof.
  unfold find_level, set_level. rewrite side_of_set. destruct (decide (s = s')) as [->|].
  - cbn. destruct (decide (t = t')) as [->|].
    + by rewrite lookup_insert_eq, decide_True.
    + rewrite lookup_insert_ne, decide_False by naive_solver. done.
  - by rewrite decide_False by naive_solver.
Qed.

Lemma heap_set_side s S b : bk_heap (set_side s S b) = bk_heap b.
Proof. by destruct s. Qed.

Lemma level_wf_side s S b t q : level_wf b t q → level_wf (set_side s S b) t q.
Proof. intros []. destruct s; by split. Qed.

(** Replacing an existing level by a well-formed one. *)
Lemma set_level_wf ex s t q b :
  book_wf_but (Some (s, t)) b → is_Some (find_level b s t) → level_wf b t q →
  (ex ≠ Some (s, t) → lq_orders q ≠ []) → book_wf_but ex (set_level s t q b).
Proof.
  intros Hb Ht Hq Hne s'. destruct (Hb s') as [Hsort Hk Hl Ho].
  assert (Hkeys : bs_keys (side_of (set_level s t q b) s') = bs_keys (side_of b s')).
  { unfold set_level. rewrite side_of_set. case_decide as Hs; [by subst|done]. }
  split.
  - by rewrite Hkeys.
  - intros t'. rewrite Hkeys, Hk, find_set_level. case_decide as Ht'; [|done].
    destruct Ht' as [<- <-]. split; [by eexists|done].
  - intros t' q'. rewrite find_set_level. case_decide as Ht'.
    + destruct Ht' as [<- <-]. intros [= <-]. by apply level_wf_side.
    + intros. by apply level_wf_side, Hl.
  - intros t' q'. rewrite find_set_level. case_decide as Ht'.
    + destruct Ht' as [<- <-]. by intros [= <-].
    + intros Hq' _. apply (Ho t' q' Hq'). naive_solver.
Qed.

Lemma level_wf_sublist b t q ls :
  level_wf b t q → (∀ l, l ∈ ls → l ∈ lq_orders q) → level_wf b t (q <| lq_orders := ls |>).
Proof.
  intros [Ht Hp Ha] Hsub. split; try done. cbn. rewrite Forall_forall in *. auto.
Qed.

Lemma elem_of_List_filter {A} (P : A → bool) (x : A) l : x ∈ List.filter P l ↔ x ∈ l ∧ P x = true.
Proof. by rewrite !list_elem_of_In, List.filter_In. Qed.

Definition drop_level (s : TradeSide) (t : Z) (b : OrderBook F) : OrderBook F :=
  set_side s (side_of b s <| bs_levels ::= delete t |> <| bs_keys ::= drop_key t |>) b.

Lemma find_drop_level s t b s' t' :
  find_level (drop_level s t b) s' t' = if decide (s = s' ∧ t = t') then None else find_level b s' t'.
Proof.
  unfold find_level, drop_level. rewrite side_of_set. destruct (decide (s = s')) as [->|].
  - cbn. destruct (decide (t = t')) as [->|].
    + by rewrite lookup_delete_eq, decide_True.
    + rewrite lookup_delete_ne, decide_False by naive_solver. done.
  - by rewrite decide_False by naive_solver.
Qed.

Lemma drop_level_wf s t b : book_wf_but (Some (s, t)) b → book_wf (drop_level s t b).
Proof.
  intros Hb s'. destruct (Hb s') as [Hsort Hk Hl Ho].
  assert (Hkeys : bs_keys (side_of (drop_level s t b) s') =
    if decide (s = s') then drop_key t (bs_keys (side_of b s')) else bs_keys (side_of b s')).
  { unfold drop_level. rewrite side_of_set. case_decide as Hs; [by subst|done]. }
  destruct (drop_key_spec t _ Hsort) as [Hd Hdx]. split.
  - rewrite Hkeys. by case_decide.
  - intros t'. rewrite Hkeys, find_drop_level. destruct (decide (s = s')) as [<-|].
    + rewrite Hdx, Hk. case_decide as Ht'; [|naive_solver]. destruct Ht' as [_ <-].
      split; [by intros []|by intros [? ?]].
    + rewrite decide_False by naive_solver. apply Hk.
  - intros t' q. rewrite find_drop_level. destruct (decide (s = s' ∧ t = t')); [done|].
    intros. by apply level_wf_side, Hl.
  - intros t' q. rewrite find_drop_level. destruct (decide (s = s' ∧ t = t')); [done|].
    intros Hq _. apply (Ho t' q Hq). naive_solver.
Qed.

(** [prune] as one of three changes. *)
Lemma prune_cases s t b :
  (find_level b s t = None ∧ prune s t b = b) ∨
  ∃ q b1, find_level b s t = Some q ∧ same_levels b b1 ∧
    let kept := List.filter (live b) (lq_orders q) in
    prune s t b = match kept with
                  | [] => drop_level s t b1
                  | _ => set_level s t (q <| lq_orders := kept |>) b1
                  end.
Proof.
  unfold prune. destruct (find_level b s t) as [q|] eqn:Hq; [right|by left].
  exists q, (refresh_queue_positions (List.filter (live b) (lq_orders q))
    (b <| bk_orders ::= λ d, foldl (λ d l, dict_pop (o_id (order_at b l)) d) d
            (List.filter (λ l, negb (live b l) && is_feed b l) (lq_orders q)) |>)).
  split_and!; [done| |done].
  transitivity (b <| bk_orders ::= λ d, foldl (λ d l, dict_pop (o_id (order_at b l)) d) d
            (List.filter (λ l, negb (live b l) && is_feed b l) (lq_orders q)) |>); [by split|].
  apply refresh_same.
Qed.

Lemma prune_wf s t b : book_wf_but (Some (s, t)) b → book_wf (prune s t b).
Proof.
  intros Hb. destruct (prune_cases s t b) as [[Hn ->]|(q & b1 & Hq & Hs & ->)].
  { intros s'. destruct (Hb s') as [? ? ? Ho]. split; try done. intros t' q Hq _.
    apply (Ho t' q Hq). naive_solver. }
  assert (Hb1 : book_wf_but (Some (s, t)) b1) by eauto using book_wf_same.
  destruct (List.filter _ _) as [|l ls] eqn:Hf; [by apply drop_level_wf|].
  apply set_level_wf; [done|rewrite (same_find b b1) by done; by eexists| |done].
  apply (level_wf_same b b1); [done|]. apply level_wf_sublist; [by apply (Hb s)|].
  rewrite <-Hf. intros x Hx. by apply elem_of_List_filter in Hx as [? _].
Qed.

Lemma prune_heap s t b : length (bk_heap (prune s t b)) = length (bk_heap b).
Proof.
  unfold prune. destruct (find_level b s t) as [q|]; [|done]. cbv zeta.
  set (b0 := b <| bk_orders ::= _ |>).
  assert (Hr : ∀ ls, length (bk_heap (refresh_queue_positions ls b0)) = length (bk_heap b)).
  { intros ls. unfold refresh_queue_positions.
    apply (foldl_invariant (λ acc : OrderBook F * F, length (bk_heap acc.1) = length (bk_heap b))); [done|].
    intros [b' a] l _ Hb. cbn in *. destruct (is_paper b' l); [|done]. cbn. by rewrite length_alter. }
  destruct (List.filter (live b) _); [|unfold set_level]; rewrite heap_set_side; apply Hr.
Qed.

Lemma prune_grid s t b :
  bk_tick_size (prune s t b) = bk_tick_size b ∧ bk_decimals (prune s t b) = bk_decimals b.
Proof.
  destruct (prune_cases s t b) as [[_ ->]|(q & b1 & Hq & Hs & ->)]; [done|].
  destruct Hs. destruct (List.filter _ _); [unfold drop_level|unfold set_level];
    by destruct s; cbn; split; congruence.
Qed.

Lemma prune_find_other s t b s' t' :
  ¬ (s = s' ∧ t = t') → find_level (prune s t b) s' t' = find_level b s' t'.
Proof.
  intros Hne. destruct (prune_cases s t b) as [[_ ->]|(q & b1 & Hq & Hs & ->)]; [done|].
  rewrite <-(same_find b b1) by done.
  destruct (List.filter _ _); [rewrite find_drop_level|rewrite find_set_level]; by rewrite decide_False.
Qed.

(** What resting an order does to the levels. *)
Lemma rest_order_levels l now t b :
  let s := o_side (order_at b l) in
  let q0 := default (mkLevelQueue (from_ticks b t) t []) (find_level b s t) in
  let b' := rest_order l now t b in
  (∀ s' t', find_level b' s' t' =
     if decide (s = s' ∧ t = t') then Some (q0 <| lq_orders ::= λ ls, ls ++ [l] |>)
     else find_level b s' t') ∧
  (∀ s', bs_keys (side_of b' s') =
     if decide (s = s' ∧ find_level b s t = None) then insort t (bs_keys (side_of b s'))
     else bs_keys (side_of b s')) ∧
  bk_tick_size b' = bk_tick_size b ∧ bk_decimals b' = bk_decimals b ∧
  length (bk_heap b') = length (bk_heap b).
Proof.
  cbv zeta. unfold rest_order. set (s := o_side (order_at b l)).
  set (b1 := if is_feed b l then _ else b).
  assert (Hs1 : same_levels b b1) by (unfold b1; destruct (is_feed b l); [apply update_order_same|done]).
  assert (Hh1 : length (bk_heap b1) = length (bk_heap b)).
  { unfold b1. destruct (is_feed b l); cbn; [by rewrite length_alter|done]. }
  clearbody b1. destruct Hs1 as [Htick Hdec Hside _].
  assert (Hfind : ∀ s' t', find_level b1 s' t' = find_level b s' t')
    by (intros; unfold find_level; by rewrite Hside).
  unfold level_or_new. rewrite Hfind. destruct (find_level b s t) as [q|] eqn:Hq; cbv beta iota zeta.
  - split_and!.
    + intros s' t'. change (find_level (?x <| bk_orders ::= ?f |>) s' t') with (find_level x s' t').
      rewrite find_set_level. cbn [default]. destruct (decide _); [done|]. apply Hfind.
    + intros s'. rewrite decide_False by naive_solver. rewrite <-Hside. unfold set_level. cbn.
      by destruct s, s'.
    + unfold set_level. by destruct s.
    + unfold set_level. by destruct s.
    + unfold set_level. destruct s; cbn; by rewrite length_alter.
  - split_and!.
    + intros s' t'. change (find_level (?x <| bk_orders ::= ?f |>) s' t') with (find_level x s' t').
      rewrite find_set_level. unfold from_ticks. rewrite Htick, Hdec. destruct (decide _) as [|Hne]; [done|].
      rewrite <-Hfind. unfold find_level. cbn.
      destruct s, s'; cbn; try done; rewrite lookup_insert_ne; naive_solver.
    + intros s'. destruct (decide _) as [[<- _]|Hne].
      * rewrite <-Hside. unfold set_level. by destruct s.
      * rewrite <-Hside. unfold set_level. destruct s, s'; try done; destruct Hne; done.
    + unfold set_level. by destruct s.
    + unfold set_level. by destruct s.
    + unfold set_level. destruct s; cbn; by rewrite length_alter.
Qed.

(** Resting an order keeps the book well formed. *)
Lemma rest_order_wf l now t b :
  book_wf b → (l < length (bk_heap b))%nat → book_wf (rest_order l now t b).
Proof.
  intros Hb Hl. pose proof (rest_order_levels l now t b) as Hr. cbv zeta in Hr.
  set (s := o_side (order_at b l)) in *. set (b' := rest_order l now t b) in *.
  destruct Hr as (Hfind & Hkeys & Htick & Hdec & Hheap).
  assert (Hlw : ∀ t' q, level_wf b t' q → level_wf b' t' q).
  { intros t' q [Ht Hp Ha]. split; try done.
    - rewrite Hp. unfold from_ticks. congruence.
    - by rewrite Hheap. }
  intros s'. destruct (Hb s') as [Hsort Hk Hlev Hne0]. split.
  - rewrite Hkeys. destruct (decide _) as [[<- Hnone]|]; [|done]. apply insort_sorted; [|done].
    rewrite Hk, Hnone. by intros [? ?].
  - intros t'. rewrite Hkeys, Hfind. destruct (decide (s = s' ∧ t = t')) as [[<- <-]|Hne].
    + split; [by eexists|intros _]. destruct (decide _) as [|Hsome]; [apply elem_of_insort; by left|].
      apply Hk. destruct (find_level b s t); [by eexists|naive_solver].
    + rewrite <-Hk. destruct (decide _) as [[<- _]|]; [|done]. rewrite elem_of_insort. naive_solver.
  - intros t' q. rewrite Hfind. destruct (decide _) as [[<- <-]|]; [|by eauto].
    intros [= <-]. destruct (find_level b s t) as [q|] eqn:Hq; cbn.
    + destruct (Hlw _ _ (Hlev t q Hq)) as [Ht Hp Ha]. split; cbn; try done.
      apply Forall_app. rewrite Hheap. split; [by rewrite <-Hheap|by repeat constructor].
    + split; cbn; try done.
      * unfold from_ticks. congruence.
      * rewrite Hheap. by repeat constructor.
  - intros t' q. rewrite Hfind. destruct (decide _) as [[<- <-]|]; [|by eauto].
    intros [= <-] _. cbn. by destruct (lq_orders _).
Qed.

(** *** The operations *)

#[local] Abbreviation wf_error := (λ (e : BookError) b, e = BadNumber ∧ book_wf b).

Lemma ticks_of_wf price (P : OrderBook F → Prop) :
  (∀ b, P b → book_wf b) →
  triple P (ticks_of price) (λ t b, P b ∧ to_ticks b price = Some t) wf_error.
Proof. intros HP b Hb. unfold ticks_of. destruct (to_ticks b price) eqn:E; eauto. Qed.

Lemma add_order_wf l now :
  triple (λ b, book_wf b ∧ l < length (bk_heap b))%nat (add_order l now) (λ _, book_wf) wf_error.
Proof.
  apply triple_read. intros b0 [Hb Hl]. destruct (o_limit_price (order_at b0 l)) as [price|];
    [|apply triple_ret; by intros ? ->].
  eapply triple_bind; [apply (ticks_of_wf price (λ b, b = b0)); by intros ? ->|].
  intros t. apply triple_modify. intros b [-> _]. by apply rest_order_wf.
Qed.

Lemma elem_of_remove_first (P : nat → bool) x ls : x ∈ remove_first P ls → x ∈ ls.
Proof. induction ls as [|l ls IH]; cbn; [done|]. destruct (P l); set_solver. Qed.

Lemma shrink_prune_wf s t q ls b :
  book_wf b → find_level b s t = Some q → (∀ x, x ∈ ls → x ∈ lq_orders q) →
  book_wf (prune s t (set_level s t (q <| lq_orders := ls |>) b)).
Proof.
  intros Hb Hq Hls. apply prune_wf, set_level_wf; [by apply book_wf_weaken|by eexists| |done].
  apply level_wf_sublist; [|done]. by apply (Hb s).
Qed.

Lemma cancel_order_wf id : triple book_wf (cancel_order id) (λ _, book_wf) wf_error.
Proof.
  apply triple_read. intros b0 Hb. cbv beta zeta. destruct (get_order b0 id) as [l|]; [|by apply triple_ret; intros ? ->].
  destruct (o_limit_price (order_at b0 l)) as [price|]; [|by apply triple_ret; intros ? ->].
  destruct (is_active (order_at b0 l)); [|by apply triple_ret; intros ? ->].
  eapply triple_bind; [apply (ticks_of_wf price (λ b, b = b0)); by intros ? ->|]. intros t.
  eapply (triple_bind _ _ _ (λ _, book_wf)); [|intros; by apply triple_ret]. apply triple_modify. intros b [-> _].
  set (b1 := update_order _ _ b0). assert (Hs : same_levels b0 b1) by apply update_order_same.
  assert (Hb1 : book_wf b1) by (eapply book_wf_same; eauto).
  destruct (find_level b1 _ t) as [q|] eqn:Hq; [|done].
  apply (shrink_prune_wf _ _ _ _ _ Hb1 Hq). intros x. apply elem_of_remove_first.
Qed.

Lemma level_at_wf s t (P : OrderBook F → Prop) :
  (∀ b, P b → is_Some (find_level b s t)) →
  triple P (level_at s t) (λ q b, P b ∧ find_level b s t = Some q) wf_error.
Proof.
  intros HP b Hb. unfold level_at. destruct (HP b Hb) as [q Hq]. by rewrite Hq.
Qed.

(** The levels a sweep has still to visit exist. *)
Definition visits (s : TradeSide) (ts : list Z) (b : OrderBook F) : Prop :=
  book_wf b ∧ NoDup ts ∧ ∀ t, t ∈ ts → is_Some (find_level b s t).

Lemma visits_prune s t ts b b' :
  visits s (t :: ts) b → same_levels b b' → visits s ts (prune s t b').
Proof.
  intros (Hb & Hnd & Hts) Hs. apply NoDup_cons in Hnd as [Hnin Hnd]. split_and!; [|done|].
  - apply prune_wf. eapply book_wf_same; [done|]. by apply book_wf_weaken.
  - intros t' Ht'. rewrite prune_find_other by (intros [_ <-]; done).
    rewrite (same_find b) by done. apply Hts. by right.
Qed.

Lemma take_levels_wf side limit skip now ts r fs :
  triple (visits (opposite side) ts) (take_levels side limit skip now ts r fs) (λ _, book_wf) wf_error.
Proof.
  revert r fs; induction ts as [|t ts IH]; intros r fs; cbn [take_levels].
  { apply triple_ret. by intros b (? & _). }
  destruct (r <=.? EPS); [apply triple_ret; by intros b (? & _)|].
  destruct (beyond_limit _ _ _); [apply triple_ret; by intros b (? & _)|].
  eapply triple_bind; [apply (level_at_wf _ _ (visits (opposite side) (t :: ts)))|].
  { intros b (_ & _ & Hts). apply Hts. by left. }
  intros q. apply triple_read. intros b0 [Hv Hq].
  pose proof (take_queue_same skip (lq_price q) now (lq_orders q) b0 r fs) as Hs.
  destruct (take_queue _ _ _ _ _) as [[b1 r1] fs1]. cbn in Hs.
  eapply triple_bind; [|intros; apply IH]. apply triple_modify. intros ? _. by eapply visits_prune.
Qed.

Lemma best_first_visits s b : book_wf b → visits s (best_first b s) b.
Proof.
  intros Hb. destruct (Hb s) as [Hsort Hk _ _].
  assert (Hnd : NoDup (bs_keys (side_of b s))).
  { clear Hk. induction Hsort as [|k keys Hs IH Hlt]; constructor; [|done].
    rewrite Forall_forall in Hlt. intros Hin. specialize (Hlt k Hin). lia. }
  split_and!; [done|..]; destruct s; cbn in *.
  - by rewrite reverse_Permutation.
  - done.
  - intros t. rewrite elem_of_reverse. apply Hk.
  - intros t. apply Hk.
Qed.

Lemma consume_wf side qty now limit skip :
  triple book_wf (consume_liquidity side qty now limit skip) (λ _, book_wf) wf_error.
Proof.
  eapply (triple_bind _ _ _ (λ _, book_wf)).
  { destruct limit as [p|]; [|by apply triple_ret].
    eapply triple_bind; [by apply (ticks_of_wf p book_wf)|]. intros t. by apply triple_ret; intros ? []. }
  intros lt. apply triple_read. intros b0 Hb.
  eapply triple_bind.
  { eapply triple_conseq; [apply take_levels_wf|intros ? ->; by apply best_first_visits| |]; eauto. }
  intros [r fs]. eapply (triple_bind _ _ _ (λ _, book_wf)); [|intros; by apply triple_ret].
  destruct (last fs); [|by apply triple_ret]. apply triple_modify. intros b Hb'.
  eapply book_wf_same; [|exact Hb']. by split.
Qed.

Lemma add_feed_order_wf fresh ev size price :
  triple book_wf (add_feed_order fresh ev size price) (λ _, book_wf) wf_error.
Proof.
  apply triple_read. intros b0 Hb. cbv beta zeta.
  match goal with |- context [alloc ?o b0] =>
    pose proof (alloc_same o b0) as Hs; assert (Hl : ((alloc o b0).2 < length (bk_heap (alloc o b0).1))%nat)
      by (cbn; rewrite length_app; cbn; lia);
    destruct (alloc o b0) as [b1 l] end.
  eapply (triple_bind _ _ _ (λ _ b, b = b1)); [by apply triple_modify|]. intros _.
  eapply triple_conseq; [apply add_order_wf| |done|done]. intros ? ->. split; [|done].
  eapply book_wf_same; eauto.
Qed.

Lemma apply_add_wf fresh ev t : triple book_wf (apply_add fresh ev t) (λ _, book_wf) wf_error.
Proof.
  apply triple_read. intros b0 Hb. destruct (EPS <.? ev_size ev).
  - eapply triple_conseq; [apply add_feed_order_wf| |done|done]. by intros ? ->.
  - by apply triple_ret; intros ? ->.
Qed.

Lemma change_known_wf l ev q t b :
  book_wf b → find_level b (ev_side ev) t = Some q → l ∈ lq_orders q →
  book_wf (change_known l ev q t b).
Proof.
  intros Hb Hq Hl. unfold change_known.
  assert (Hr : ∀ f, book_wf (update_order l f b))
    by (intros f; eapply book_wf_same; [apply update_order_same|done]).
  assert (Hm : book_wf (if ev_size ev <=.? remaining_quantity (order_at b l)
    then update_order l (λ o, o <| o_quantity := o_filled o ⊕ ev_size ev |>) b
    else set_level (ev_side ev) t (q <| lq_orders ::= λ ls, level_remove b (o_id (order_at b l)) ls ++ [l] |>)
           (update_order l (λ o, o <| o_quantity := o_filled o ⊕ ev_size ev |>) b))).
  { destruct (_ <=.? _); [apply Hr|].
    match goal with |- book_wf (set_level _ _ _ ?b1) =>
      assert (Hs : same_levels b b1) by apply update_order_same end.
    apply set_level_wf; [by apply book_wf_weaken, Hr|by rewrite (same_find b); [eexists|]| |].
    - apply (level_wf_same b); [done|]. apply level_wf_sublist; [by apply (Hb (ev_side ev))|].
      intros x [?%elem_of_remove_first|Hx]%elem_of_app; [done|]. set_solver.
    - intros _. cbn. by destruct (level_remove _ _ _). }
  destruct (ev_event_type ev); [exact Hm|apply Hr|exact Hm|exact Hm].
Qed.

Lemma change_aggregate_wf fresh ev q :
  triple book_wf (change_aggregate fresh ev q) (λ _, book_wf) wf_error.
Proof.
  apply triple_read. intros b0 Hb. cbv beta zeta.
  set (target := match ev_event_type ev with CANCEL => _ | _ => _ end).
  destruct (target <.? _).
  - apply triple_modify. intros ? ->. eapply book_wf_same; [apply reduce_same|done].
  - destruct (_ <.? target); [|by apply triple_ret; intros ? ->].
    eapply triple_conseq; [apply add_feed_order_wf| |done|done]. by intros ? ->.
Qed.

Lemma apply_change_wf fresh ev t : triple book_wf (apply_change fresh ev t) (λ _, book_wf) wf_error.
Proof.
  apply triple_read. intros b0 Hb. destruct (find_level b0 (ev_side ev) t) as [q|] eqn:Hq.
  - eapply (triple_bind _ _ _ (λ _, book_wf)).
    + unfold known_order. set (known := match ev_order_id ev with Some _ => _ | None => _ end).
      assert (Hk : ∀ l, known = Some l → l ∈ lq_orders q).
      { unfold known. intros l. destruct (ev_order_id ev); [|done]. destruct (bool_decide _); [done|].
        destruct (get_order b0 s) as [l'|]; [|done].
        destruct (is_feed b0 l' && _) eqn:E; [|done]. bsimpl. by intros [= <-]. }
      destruct known as [l|].
      * apply triple_modify. intros ? ->. by apply change_known_wf; [| |apply Hk].
      * eapply triple_conseq; [apply change_aggregate_wf| |done|done]. by intros ? ->.
    + intros _. apply triple_modify. intros b Hb'. by apply prune_wf, book_wf_weaken.
  - assert (Hret : triple (λ b, b = b0) (mret ()) (λ _, book_wf) wf_error)
      by (apply triple_ret; by intros ? ->).
    destruct (ev_event_type ev); try exact Hret. destruct (EPS <.? ev_size ev); [|exact Hret].
    eapply triple_conseq; [apply apply_add_wf| |done|done]. by intros ? ->.
Qed.

Lemma print_levels_wf s now ts r fs :
  triple (visits s ts) (print_levels s now ts r fs) (λ _, book_wf) wf_error.
Proof.
  revert r fs; induction ts as [|t ts IH]; intros r fs; cbn [print_levels].
  { apply triple_ret. by intros b (? & _). }
  destruct (r <=.? EPS); [apply triple_ret; by intros b (? & _)|].
  eapply triple_bind; [apply (level_at_wf _ _ (visits s (t :: ts)))|].
  { intros b (_ & _ & Hts). apply Hts. by left. }
  intros q. apply triple_read. intros b0 [Hv Hq].
  pose proof (print_queue_same (lq_price q) now (lq_orders q) b0 r fs) as Hs.
  destruct (print_queue _ _ _ _) as [[b1 r1] fs1]. cbn in Hs.
  eapply triple_bind; [|intros; apply IH]. apply triple_modify. intros ? _. by eapply visits_prune.
Qed.

Lemma visits_filter s (P : Z → bool) ts b : visits s ts b → visits s (List.filter P ts) b.
Proof.
  intros (Hb & Hnd & Hts). split_and!; [done| |].
  - clear Hts. induction Hnd as [|t ts Hnin Hnd IH]; cbn; [constructor|].
    destruct (P t); [|done]. constructor; [|done]. by intros [? _]%elem_of_List_filter.
  - intros t [? _]%elem_of_List_filter. auto.
Qed.

Lemma apply_trade_wf ev t : triple book_wf (apply_trade ev t) (λ _, book_wf) wf_error.
Proof.
  eapply (triple_bind _ _ _ (λ _, book_wf)).
  { apply triple_modify. intros b Hb. eapply book_wf_same; [|exact Hb]. by split. }
  intros _. apply triple_read. intros b0 Hb. eapply triple_conseq; [apply print_levels_wf| |done|done].
  intros ? ->. by apply visits_filter, best_first_visits.
Qed.

Lemma apply_market_event_wf fresh ev :
  triple book_wf (apply_market_event fresh ev) (λ _, book_wf) wf_error.
Proof.
  eapply (triple_bind _ _ _ (λ _, book_wf)).
  { apply triple_modify. intros b Hb. eapply book_wf_same; [|exact Hb]. by split. }
  intros _. eapply triple_bind; [by apply (ticks_of_wf _ book_wf)|]. intros t.
  assert (Hret : ∀ m : prog (OrderBook F) BookError (),
    triple book_wf m (λ _, book_wf) wf_error →
    triple (λ b, book_wf b ∧ to_ticks b (ev_price ev) = Some t) (m;; mret ([] : list (Fill F)))
      (λ _, book_wf) wf_error).
  { intros m Hm. eapply (triple_bind _ _ _ (λ _, book_wf)); [|intros; by apply triple_ret].
    eapply triple_conseq; [exact Hm| |done|done]. by intros ? []. }
  destruct (ev_event_type ev).
  - apply Hret, apply_add_wf.
  - apply Hret, apply_change_wf.
  - apply Hret, apply_change_wf.
  - eapply triple_conseq; [apply apply_trade_wf| |done|done]. by intros ? [].
Qed.

Lemma new_book_wf symbol tick b : new_book symbol tick = Some b → book_wf b.
Proof.
  unfold new_book. destruct (_ <=.? _); [done|]. intros [= <-] s.
  assert (Hnone : ∀ s t, find_level (mkOrderBook symbol tick (tick_decimals tick) (mkBookSide ∅ [])
      (mkBookSide ∅ []) [] None None n0 []) s t = None) by (intros [] ?; apply lookup_empty).
  split.
  - destruct s; constructor.
  - intros t. rewrite Hnone.
    destruct s; cbn; (split; intros Ht; [by apply not_elem_of_nil in Ht|by destruct Ht]).
  - intros t q. by rewrite Hnone.
  - intros t q. by rewrite Hnone.
Qed.

(** C3: Replaying any feed and interleaving any own orders, cancellations and
    sweeps keeps the book well formed: each side's ticks are strictly
    ascending and are exactly the keys of its levels, every level carries its
    own tick and price and is not empty, and no operation ever fails on a
    missing level (the one exception it can raise is a price that is not a
    number). *)
Theorem book_operations_well_formed b :
  book_wf b →
  (∀ fresh ev, let '(b', r) := apply_market_event fresh ev b in
     book_wf b' ∧ ∀ e, r = Raise e → e = BadNumber) ∧
  (∀ side qty now limit skip, let '(b', r) := consume_liquidity side qty now limit skip b in
     book_wf b' ∧ ∀ e, r = Raise e → e = BadNumber) ∧
  (∀ id, let '(b', r) := cancel_order id b in book_wf b' ∧ ∀ e, r = Raise e → e = BadNumber) ∧
  (∀ l now, (l < length (bk_heap b))%nat → let '(b', r) := add_order l now b in
     book_wf b' ∧ ∀ e, r = Raise e → e = BadNumber).
Proof.
  intros Hb. split_and!.
  - intros fresh ev. pose proof (apply_market_event_wf fresh ev b Hb) as Ht.
    destruct (apply_market_event fresh ev b) as [b' [|]]; naive_solver.
  - intros side qty now limit skip. pose proof (consume_wf side qty now limit skip b Hb) as Ht.
    destruct (consume_liquidity _ _ _ _ _ b) as [b' [|]]; naive_solver.
  - intros id. pose proof (cancel_order_wf id b Hb) as Ht.
    destruct (cancel_order id b) as [b' [|]]; naive_solver.
  - intros l now Hl. pose proof (add_order_wf l now b (conj Hb Hl)) as Ht.
    destruct (add_order l now b) as [b' [|]]; naive_solver.
Qed.
End wellformed.

(** ** Sweeps, on exact arithmetic *)

Section sweeps.
Implicit Types (b : OrderBook Q) (f : Fill Q).

Definition filled_total (fs : list (Fill Q)) : Q := qsum (map f_quantity fs).
Definition open_total (b : OrderBook Q) : Q := qsum (map remaining_quantity (bk_heap b)).

(** What a part of a sweep does: it appends [new] fills, takes their size off
    the amount still wanted and off the resting orders, and touches no paper
    order it must skip. *)
Record swept (skip : bool) (P : Fill Q → Prop) (b b' : OrderBook Q) (r r' : Q)
    (fs fs' : list (Fill Q)) : Prop := {
  sp_fills : ∃ new, fs' = fs ++ new ∧ Forall P new;
  sp_left : (r' + filled_total fs' == r + filled_total fs)%Q;
  sp_pos : (0 <= r)%Q → (0 <= r')%Q;
  sp_dec : (r' <= r)%Q;
  sp_heap : length (bk_heap b') = length (bk_heap b);
  sp_open : (open_total b' + filled_total fs' == open_total b + filled_total fs)%Q;
  sp_order : ∀ l, o_owner (order_at b' l) = o_owner (order_at b l) ∧
    (remaining_quantity (order_at b' l) <= remaining_quantity (order_at b l))%Q ∧
    (skip = true → is_paper b l = true → o_filled (order_at b' l) = o_filled (order_at b l))
}.

Lemma swept_refl skip P b r fs : swept skip P b b r r fs fs.
Proof.
  split; try done.
  - exists []. by rewrite app_nil_r.
  - lra.
  - intros l. split_and!; [done|lra|done].
Qed.

Lemma swept_trans skip P b1 b2 b3 r1 r2 r3 fs1 fs2 fs3 :
  swept skip P b1 b2 r1 r2 fs1 fs2 → swept skip P b2 b3 r2 r3 fs2 fs3 →
  swept skip P b1 b3 r1 r3 fs1 fs3.
Proof.
  intros [(n1 & -> & P1) L1 Z1 D1 S1 O1 H1] [(n2 & -> & P2) L2 Z2 D2 S2 O2 H2].
  split; try lra; auto; try congruence.
  - exists (n1 ++ n2). rewrite app_assoc. split; [done|]. by apply Forall_app.
  - intros l. destruct (H1 l) as (A1 & B1 & C1), (H2 l) as (A2 & B2 & C2).
    split_and!; [congruence|lra|]. intros Hs Hp. rewrite C2, C1; [done..|].
    unfold is_paper in *. by rewrite A1.
Qed.

(** Changing only queue positions sweeps nothing. *)
Definition same_sizes b b' : Prop :=
  length (bk_heap b') = length (bk_heap b) ∧
  ∀ l, let o := order_at b l in let o' := order_at b' l in
    o_owner o' = o_owner o ∧ o_quantity o' = o_quantity o ∧ o_filled o' = o_filled o ∧
    o_status o' = o_status o.

#[export] Instance same_sizes_preorder : PreOrder same_sizes.
Proof.
  split; [by intros b; split|]. intros b1 b2 b3 [Hl1 H1] [Hl2 H2]. split; [congruence|].
  intros l. cbn. destruct (H1 l) as (? & ? & ? & ?), (H2 l) as (? & ? & ? & ?). split_and!; congruence.
Qed.

Lemma order_at_update l k g b :
  order_at (update_order l g b) k =
  if decide (l = k ∧ (l < length (bk_heap b))%nat) then g (order_at b l) else order_at b k.
Proof.
  unfold order_at, update_order. cbn. destruct (decide (l = k)) as [<-|Hne].
  - destruct (decide (l < length (bk_heap b))%nat) as [Hl|Hl].
    + rewrite decide_True by done. rewrite !list_lookup_total_alt, list_lookup_alter_eq.
      destruct (lookup_lt_is_Some_2 _ _ Hl) as [o Ho]. by rewrite Ho.
    + rewrite decide_False by naive_solver. rewrite !list_lookup_total_alt, list_lookup_alter_eq.
      by rewrite lookup_ge_None_2 by lia.
  - rewrite decide_False by naive_solver. by rewrite !list_lookup_total_alt, list_lookup_alter_ne.
Qed.

Lemma same_sizes_total b b' : same_sizes b b' → (open_total b' == open_total b)%Q.
Proof.
  intros [Hlen Hs]. unfold open_total.
  assert (map remaining_quantity (bk_heap b') = map remaining_quantity (bk_heap b)) as ->; [|done].
  apply list_eq_same_length with (length (bk_heap b)); [by rewrite length_map|by rewrite length_map|].
  intros i x y Hi Hx Hy. apply list_lookup_fmap_Some in Hx as (o' & -> & Ho'), Hy as (o & -> & Ho).
  destruct (Hs i) as (_ & Hq & Hf & _). unfold order_at in *.
  rewrite !list_lookup_total_alt, Ho, Ho' in *. cbn in *. unfold remaining_quantity. by rewrite Hq, Hf.
Qed.

Lemma qsum_alter {A} (g : A → Q) (u : A → A) l (h : list A) x :
  h !! l = Some x → (qsum (map g (alter u l h)) == qsum (map g h) - g x + g (u x))%Q.
Proof.
  revert l; induction h as [|y h IH]; intros [|l] Hl; try done; cbn in *; simplify_eq.
  - lra.
  - unfold qsum in *. cbn. rewrite (IH l Hl). lra.
Qed.

Lemma update_order_total l (u : Order Q → Order Q) b :
  (l < length (bk_heap b))%nat →
  (open_total (update_order l u b) ==
   open_total b - remaining_quantity (order_at b l) + remaining_quantity (u (order_at b l)))%Q.
Proof.
  intros Hl. destruct (lookup_lt_is_Some_2 _ _ Hl) as [o Ho]. unfold open_total, order_at. cbn.
  rewrite (qsum_alter _ _ _ _ o Ho). by rewrite list_lookup_total_alt, Ho.
Qed.

Lemma record_fill_remaining price qty now (o : Order Q) :
  (remaining_quantity (record_fill price qty now o) == remaining_quantity o - qty)%Q.
Proof. unfold record_fill, remaining_quantity. cbn. lra. Qed.

Lemma record_fill_owner price qty now (o : Order Q) : o_owner (record_fill price qty now o) = o_owner o.
Proof. done. Qed.

Lemma EPS_pos : (0 < EPS)%Q.
Proof. reflexivity. Qed.

(** One execution. *)
Lemma fill_swept skip (P : Fill Q → Prop) b l r fs price now qty :
  (l < length (bk_heap b))%nat → (skip && is_paper b l) = false →
  qty = nmin r (remaining_quantity (order_at b l)) → (EPS < qty)%Q →
  let b' := update_order l (record_fill price qty now) b in
  P (fill_of b' l price qty now) →
  swept skip P b b' r (r ⊖ qty) fs (fs ++ [fill_of b' l price qty now]).
Proof.
  intros Hl Hskip Hqty Heps b' HP. pose proof EPS_pos.
  pose proof (nmin_Q r (remaining_quantity (order_at b l))) as (Hm1 & Hm2 & _). rewrite <-Hqty in Hm1, Hm2.
  assert (Hft : (filled_total (fs ++ [fill_of b' l price qty now]) == filled_total fs + qty)%Q).
  { unfold filled_total. rewrite map_app, qsum_app. cbn. unfold qsum. cbn. lra. }
  split.
  - exists [fill_of b' l price qty now]. split; [done|]. by repeat constructor.
  - rewrite Hft. cbn. lra.
  - cbn. lra.
  - cbn. lra.
  - cbn. by rewrite length_alter.
  - rewrite Hft. unfold b'. rewrite update_order_total, record_fill_remaining by done. lra.
  - intros k. unfold b'. rewrite order_at_update. destruct (decide _) as [[<- _]|].
    + rewrite record_fill_owner. split_and!; [done| |].
      * pose proof (record_fill_remaining price qty now (order_at b l)). lra.
      * intros -> Hp. by rewrite Hp in Hskip.
    + split_and!; [done|lra|done].
Qed.

Lemma take_queue_swept skip (P : Fill Q → Prop) price now ls b r fs :
  Forall (λ l, l < length (bk_heap b))%nat ls →
  (∀ b l qty, (EPS < qty)%Q → P (fill_of b l price qty now)) →
  let '(b', r', fs') := take_queue skip price now ls (b, r, fs) in
  swept skip P b b' r r' fs fs' ∧
  ((EPS < r')%Q → ∀ l, l ∈ ls → (skip && is_paper b l) = true ∨
     (remaining_quantity (order_at b' l) <= EPS)%Q).
Proof.
  intros Hls HP. revert b r fs Hls; induction ls as [|l ls IH]; intros b r fs Hls; cbn [take_queue].
  { split; [apply swept_refl|]. intros _ l Hl. by apply not_elem_of_nil in Hl. }
  apply Forall_cons in Hls as [Hl Hls].
  destruct (r <=.? EPS) eqn:Hr; qsimpl.
  { split; [apply swept_refl|]. lra. }
  assert (Hrest : ∀ b1 r1 fs1, swept skip P b b1 r r1 fs fs1 →
    Forall (λ l, l < length (bk_heap b1))%nat ls →
    ((EPS < r1)%Q → (skip && is_paper b l) = true ∨ (remaining_quantity (order_at b1 l) <= EPS)%Q) →
    let '(b', r', fs') := take_queue skip price now ls (b1, r1, fs1) in
    swept skip P b b' r r' fs fs' ∧
    ((EPS < r')%Q → ∀ k, k ∈ l :: ls → (skip && is_paper b k) = true ∨
       (remaining_quantity (order_at b' k) <= EPS)%Q)).
  { intros b1 r1 fs1 H1 Hls1 Hl1. specialize (IH b1 r1 fs1 Hls1).
    destruct (take_queue _ _ _ _ _) as [[b' r'] fs']. destruct IH as [H2 Hex].
    split; [by eapply swept_trans|]. intros Hr' k Hk.
    apply elem_of_cons in Hk as [->|Hk].
    - destruct Hl1 as [?|Hle]; [pose proof (sp_dec _ _ _ _ _ _ _ _ H2); lra|by left|right].
      destruct (sp_order _ _ _ _ _ _ _ _ H2 l) as (_ & ? & _). lra.
    - destruct (Hex Hr' k Hk) as [Hp|?]; [left|by right].
      destruct (sp_order _ _ _ _ _ _ _ _ H1 k) as (Ho & _ & _). unfold is_paper in *. by rewrite <-Ho. }
  destruct (skip && is_paper b l) eqn:Hskip.
  { apply Hrest; [apply swept_refl|done|by left]. }
  cbv zeta. pose proof (nmin_Q r (remaining_quantity (order_at b l))) as (Hm1 & Hm2 & Hm).
  destruct (nmin _ _ <=.? EPS) eqn:Hq; qsimpl.
  { apply Hrest; [apply swept_refl|done|]. intros _. right. destruct Hm as [Hm|Hm]; rewrite Hm in Hq; lra. }
  apply Hrest.
  - by apply fill_swept; [| | | |apply HP].
  - cbn. by rewrite length_alter.
  - intros Hr1. right. rewrite order_at_update, decide_True, record_fill_remaining by done.
    change (EPS < r - nmin r (remaining_quantity (order_at b l)))%Q in Hr1. pose proof EPS_pos.
    destruct Hm as [Hm|Hm]; rewrite Hm in Hr1 |- *; lra.
Qed.

Lemma refresh_same_sizes ls b : same_sizes b (refresh_queue_positions ls b).
Proof.
  unfold refresh_queue_positions.
  apply (foldl_invariant (λ acc : OrderBook Q * Q, same_sizes b acc.1)); [done|].
  intros [b' a] l _ Hb. cbn in *. destruct (is_paper b' l); [|done]. etransitivity; [done|].
  split; [cbn; by rewrite length_alter|]. intros k. cbv zeta. rewrite order_at_update.
  destruct (decide _) as [[<- _]|]; done.
Qed.

Lemma prune_same_sizes s t b : same_sizes b (prune s t b).
Proof.
  unfold prune. destruct (find_level b s t) as [q|]; [|done]. cbv zeta.
  set (b0 := b <| bk_orders ::= _ |>). set (kept := List.filter _ _).
  assert (Hr : same_sizes b (refresh_queue_positions kept b0))
    by (etransitivity; [|apply refresh_same_sizes]; by split).
  set (b1 := refresh_queue_positions kept b0) in *. clearbody b1.
  assert (Hset : ∀ S, same_sizes b (set_side s S b1)).
  { intros S. etransitivity; [exact Hr|]. split; [by rewrite heap_set_side|].
    intros l. unfold order_at. by rewrite heap_set_side. }
  destruct kept; [apply Hset|unfold set_level; apply Hset].
Qed.

Lemma same_sizes_swept skip P b b' r fs : same_sizes b b' → swept skip P b b' r r fs fs.
Proof.
  intros Hs. pose proof (same_sizes_total b b' Hs). destruct Hs as [Hlen Hs].
  split; try done; try lra.
  - exists []. by rewrite app_nil_r.
  - intros l. destruct (Hs l) as (Ho & Hq & Hf & _). unfold remaining_quantity. rewrite Hq, Hf.
    split_and!; [done|cbn; lra|done].
Qed.

(** After a prune, the level holds live orders of before only. *)
Lemma prune_level s t b q' l :
  find_level (prune s t b) s t = Some q' → l ∈ lq_orders q' →
  (∃ q, find_level b s t = Some q ∧ l ∈ lq_orders q) ∧ live b l = true.
Proof.
  destruct (prune_cases s t b) as [[Hn ->]|(q & b1 & Hq & Hs & ->)]; [congruence|].
  destruct (List.filter _ _) as [|x xs] eqn:Hf.
  { rewrite find_drop_level, decide_True by done. done. }
  rewrite find_set_level, decide_True by done. intros [= <-]. cbn. rewrite <-Hf.
  intros [Hl Hlive]%elem_of_List_filter. eauto.
Qed.

(** Later in a sweep of [side] is further from the touch. *)
Definition further (side : TradeSide) : Z → Z → Prop :=
  match side with BUY => Z.lt | SELL => Z.gt end.

Lemma beyond_monotone side limit t t' :
  further side t t' → beyond_limit side limit t = true → beyond_limit side limit t' = true.
Proof. destruct limit, side; cbn; intros; bsimpl; try done; apply Z.ltb_lt; lia. Qed.

(** The fills of a sweep within its limit. *)
Definition within (side : TradeSide) (limit : option Z) (b0 : OrderBook Q) (f : Fill Q) : Prop :=
  (EPS < f_quantity f)%Q ∧ ∃ t, beyond_limit side limit t = false ∧ f_price f = from_ticks b0 t.

Definition same_grid (b b' : OrderBook Q) : Prop :=
  bk_tick_size b' = bk_tick_size b ∧ bk_decimals b' = bk_decimals b.

(** The levels among [ts] within the limit have nothing left to take. *)
Definition exhausted (side : TradeSide) (limit : option Z) (skip : bool) (ts : list Z) (b b' : OrderBook Q)
    : Prop :=
  ∀ t q l, t ∈ ts → beyond_limit side limit t = false →
    find_level b' (opposite side) t = Some q → l ∈ lq_orders q → (skip && is_paper b l) = true.

Lemma is_paper_swept skip P b b' r r' fs fs' l :
  swept skip P b b' r r' fs fs' → is_paper b' l = is_paper b l.
Proof. intros Hs. unfold is_paper. by rewrite (proj1 (sp_order _ _ _ _ _ _ _ _ Hs l)). Qed.

(** Visiting one level. *)
Lemma visit_level side limit skip now b0 b t q r fs :
  book_wf b → same_grid b0 b → find_level b (opposite side) t = Some q →
  beyond_limit side limit t = false →
  let '(b1, r1, fs1) := take_queue skip (lq_price q) now (lq_orders q) (b, r, fs) in
  let b2 := prune (opposite side) t b1 in
  swept skip (within side limit b0) b b2 r r1 fs fs1 ∧ same_levels b b1 ∧
  ((EPS < r1)%Q → exhausted side limit skip [t] b b2).
Proof.
  intros Hb [Htick Hdec] Hq Hlim.
  destruct (sw_level _ _ _ (Hb (opposite side)) t q Hq) as [_ Hprice Halloc].
  pose proof (take_queue_same skip (lq_price q) now (lq_orders q) b r fs) as Hsame.
  pose proof (take_queue_swept skip (within side limit b0) (lq_price q) now (lq_orders q) b r fs Halloc) as Hsw.
  destruct (take_queue _ _ _ _ _) as [[b1 r1] fs1]. cbn in Hsame. cbv zeta.
  destruct Hsw as [Hsw Hex].
  { intros b' l qty Hqty. split; [done|]. exists t. split; [done|].
    change (lq_price q = from_ticks b0 t). rewrite Hprice. unfold from_ticks. by rewrite Htick, Hdec. }
  split_and!; [|done|].
  - eapply swept_trans; [exact Hsw|]. apply same_sizes_swept, prune_same_sizes.
  - intros Hr t' q' l Ht' _ Hq' Hl. apply list_elem_of_singleton in Ht' as ->.
    destruct (prune_level _ _ _ _ _ Hq' Hl) as [(q1 & Hq1 & Hl1) Hlive].
    rewrite (same_find b b1), Hq in Hq1 by done. injection Hq1 as <-.
    destruct (Hex Hr l Hl1) as [?|Hle]; [done|]. unfold live in Hlive. bsimpl. qsimpl. lra.
Qed.

Lemma exhausted_app side limit skip ts1 ts2 b b' :
  exhausted side limit skip ts1 b b' → exhausted side limit skip ts2 b b' →
  exhausted side limit skip (ts1 ++ ts2) b b'.
Proof. intros H1 H2 t q l [Ht|Ht]%elem_of_app; eauto. Qed.

Lemma beyond_exhausted side limit skip t ts b b' :
  StronglySorted (further side) (t :: ts) → beyond_limit side limit t = true →
  exhausted side limit skip (t :: ts) b b'.
Proof.
  intros Hsort Hb t' q l Ht' Hlim. apply StronglySorted_inv in Hsort as [_ Hf]. rewrite Forall_forall in Hf.
  apply elem_of_cons in Ht' as [->|Ht']; [congruence|].
  rewrite (beyond_monotone _ _ t) in Hlim; [done|by apply Hf|done].
Qed.

Lemma take_levels_sweep side limit skip now ts b0 b r fs :
  visits (opposite side) ts b → StronglySorted (further side) ts → same_grid b0 b →
  match take_levels side limit skip now ts r fs b with
  | (b', Ret (r', fs')) =>
      swept skip (within side limit b0) b b' r r' fs fs' ∧ same_grid b0 b' ∧
      (∀ t, t ∉ ts → find_level b' (opposite side) t = find_level b (opposite side) t) ∧
      ((EPS < r')%Q → exhausted side limit skip ts b b')
  | (_, Raise _) => True
  end.
Proof.
  revert b r fs; induction ts as [|t ts IH]; intros b r fs Hv Hsort Hgrid; cbn [take_levels].
  { split_and!; [apply swept_refl|exact Hgrid|done|].
    intros _ t q l Ht. by apply not_elem_of_nil in Ht. }
  destruct (r <=.? EPS) eqn:Hr; qsimpl.
  { split_and!; [apply swept_refl|exact Hgrid|done|]. lra. }
  destruct (beyond_limit side limit t) eqn:Hlim.
  { split_and!; [apply swept_refl|exact Hgrid|done|]. intros _. by apply beyond_exhausted. }
  pose proof Hv as (Hb & Hnd & Hts). destruct (Hts t) as [q Hq]; [by left|].
  unfold level_at, pget, pmodify, mbind, prog_bind. rewrite Hq.
  pose proof (visit_level side limit skip now b0 b t q r fs Hb Hgrid Hq Hlim) as Hvl.
  destruct (take_queue _ _ _ _ _) as [[b1 r1] fs1]. destruct Hvl as (Hsw & Hsame & Hex).
  set (b2 := prune (opposite side) t b1) in *.
  assert (Hg2 : same_grid b0 b2).
  { destruct (prune_grid (opposite side) t b1) as [Hp1 Hp2]. destruct Hgrid as [Hg1 Hg2].
    split; unfold b2; [rewrite Hp1, (sl_tick _ _ Hsame)|rewrite Hp2, (sl_decimals _ _ Hsame)]; done. }
  apply StronglySorted_inv in Hsort as Hsort'. destruct Hsort' as [Hsort2 _].
  specialize (IH b2 r1 fs1 (visits_prune _ _ _ _ _ Hv Hsame) Hsort2 Hg2).
  destruct (take_levels _ _ _ _ _ _ _ _) as [b' [[r' fs']|]]; [|done].
  destruct IH as (Hsw' & Hg' & Hfind & Hex'). apply NoDup_cons in Hnd as [Hnin _].
  split_and!; [by eapply swept_trans|exact Hg'| |].
  - intros t' Ht'. apply not_elem_of_cons in Ht' as [Hne Ht']. rewrite Hfind by done.
    unfold b2. rewrite prune_find_other by naive_solver. by apply same_find.
  - intros Hr'. apply (exhausted_app _ _ _ [t] ts).
    + intros t' q' l Ht' Hlim' Hq' Hl. apply list_elem_of_singleton in Ht' as ->.
      rewrite Hfind in Hq' by done.
      eapply Hex; [pose proof (sp_dec _ _ _ _ _ _ _ _ Hsw'); lra|by left|done|exact Hq'|done].
    + intros t' q' l Ht' Hlim' Hq' Hl. rewrite <-(is_paper_swept _ _ _ _ _ _ _ _ l Hsw).
      eapply Hex'; eauto.
Qed.

Lemma StronglySorted_reverse {A} (R : A → A → Prop) (l : list A) :
  StronglySorted R l → StronglySorted (flip R) (reverse l).
Proof.
  induction 1 as [|x l Hs IH Hx]; [constructor|]. rewrite reverse_cons.
  apply StronglySorted_app_2; [|done|by repeat constructor].
  intros y z Hy ->%list_elem_of_singleton. rewrite Forall_forall in Hx. rewrite elem_of_reverse in Hy.
  exact (Hx y Hy).
Qed.

Lemma StronglySorted_impl {A} (R R' : A → A → Prop) (l : list A) :
  (∀ x y, R x y → R' x y) → StronglySorted R l → StronglySorted R' l.
Proof. intros HR. induction 1; constructor; [done|]. by eapply Forall_impl; eauto. Qed.

Lemma best_first_sorted side b : book_wf b → StronglySorted (further side) (best_first b (opposite side)).
Proof.
  intros Hb. destruct side; cbn; [exact (sw_sorted _ _ _ (Hb SELL))|].
  eapply StronglySorted_impl; [|apply StronglySorted_reverse, (sw_sorted _ _ _ (Hb BUY))]. cbn. intros. lia.
Qed.

Lemma consume_sweep side qty now limit skip b :
  book_wf b → let lt := limit ≫= to_ticks b in
  match consume_liquidity side qty now limit skip b with
  | (b', Ret fs) => ∃ r', swept skip (within side lt b) b b' qty r' [] fs ∧ same_grid b b' ∧
      ((EPS < r')%Q → ∀ t q l, beyond_limit side lt t = false →
         find_level b' (opposite side) t = Some q → l ∈ lq_orders q → (skip && is_paper b l) = true)
  | (_, Raise e) => e = BadNumber
  end.
Proof.
  intros Hb lt. pose proof (consume_wf side qty now limit skip b Hb) as Hwf. revert Hwf.
  unfold consume_liquidity. set (m := match limit with Some _ => _ | None => _ end).
  assert (Hm : m b = (b, Ret lt) ∨ m b = (b, Raise BadNumber)).
  { unfold m, lt, ticks_of, mbind, prog_bind, mret, prog_ret. destruct limit as [p|]; cbn; [|by left].
    by left. }
  unfold mbind, prog_bind, pget, pmodify. destruct Hm as [-> | ->]; [|done].
  pose proof (take_levels_sweep side lt skip now (best_first b (opposite side)) b b qty []
    (best_first_visits _ b Hb) (best_first_sorted side b Hb) (conj eq_refl eq_refl)) as Hs.
  destruct (take_levels _ _ _ _ _ _ _ b) as [b' [[r' fs]|e]]; [|by intros []].
  destruct Hs as (Hsw & Hg & Hfind & Hex). intros _.
  assert (Hfinal : ∀ b2, bk_heap b2 = bk_heap b' → (∀ s, side_of b2 s = side_of b' s) → same_grid b' b2 →
    ∃ r'', swept skip (within side lt b) b b2 qty r'' [] fs ∧ same_grid b b2 ∧
      ((EPS < r'')%Q → ∀ t q l, beyond_limit side lt t = false →
         find_level b2 (opposite side) t = Some q → l ∈ lq_orders q → (skip && is_paper b l) = true)).
  { intros b2 Hheap Hside [Ht Hd]. exists r'. split_and!.
    - eapply swept_trans; [exact Hsw|]. apply same_sizes_swept. split; [by rewrite Hheap|].
      intros l. unfold order_at. by rewrite Hheap.
    - destruct Hg. split; congruence.
    - intros Hr t q l Hlim Hq Hl. unfold find_level in Hq. rewrite Hside in Hq.
      change (find_level b' (opposite side) t = Some q) in Hq.
      destruct (decide (t ∈ best_first b (opposite side))) as [Hin|Hout]; [by eapply Hex|].
      rewrite Hfind in Hq by done. destruct Hout.
      pose proof (sw_keys _ _ _ (Hb (opposite side)) t) as Hk.
      destruct side; cbn in *; [|apply elem_of_reverse]; apply Hk; by eexists. }
  destruct (last fs); by apply Hfinal.
Qed.

(** C40: A sweep (the execution of an aggressive order) takes exactly what it
    reports. The fills never exceed the quantity wanted, each is larger than
    the size tolerance and priced at a level within the limit, the open size
    of the book falls by exactly what was filled, and if more than the
    tolerance is left unfilled then no level within the limit still has an
    order the sweep may take. With self-trade prevention on, no resting paper
    order is filled. (Exact arithmetic.) *)
Theorem sweep_exact side qty now limit skip b b' fs :
  book_wf b → (0 <= qty)%Q →
  consume_liquidity side qty now limit skip b = (b', Ret fs) →
  let lt := limit ≫= to_ticks b in
  (filled_total fs <= qty)%Q ∧
  (open_total b' == open_total b - filled_total fs)%Q ∧
  Forall (λ f, EPS < f_quantity f ∧ ∃ t, beyond_limit side lt t = false ∧ f_price f = from_ticks b t)%Q fs ∧
  ((EPS < qty - filled_total fs)%Q → ∀ t q l, beyond_limit side lt t = false →
     find_level b' (opposite side) t = Some q → l ∈ lq_orders q → skip = true ∧ is_paper b l = true) ∧
  (skip = true → ∀ l, is_paper b l = true → o_filled (order_at b' l) = o_filled (order_at b l)).
Proof.
  intros Hb Hqty Heq lt. pose proof (consume_sweep side qty now limit skip b Hb) as Hs.
  rewrite Heq in Hs. destruct Hs as (r' & [Hfills Hleft Hpos _ _ Hopen Hord] & _ & Hex).
  assert (Hz : (filled_total [] == 0)%Q) by done.
  split_and!.
  - specialize (Hpos Hqty). lra.
  - lra.
  - destruct Hfills as (new & Hnew & HP). cbn in Hnew. subst fs. exact HP.
  - intros Hr t q l Hlim Hq Hl. apply andb_prop. eapply Hex; eauto. lra.
  - intros Hskip l Hp. by apply (Hord l).
Qed.

(** Prices and ticks round-trip: on a grid whose tick is [c] units of the
    book's last decimal, the tick of a level's price is that level's tick, so
    an order snapped to the grid rests in the level it was snapped to. (Exact
    arithmetic.) *)
Theorem tick_grid_roundtrip b (c k : positive) t :
  bk_tick_size b = (Zpos c # 10 ^ k)%Q → bk_decimals b = Zpos k →
  to_ticks b (from_ticks b t) = Some t.
Proof.
  intros Htick Hdec. unfold to_ticks, from_ticks. rewrite Htick, Hdec. unfold nof_Z.
  cbn [nof_ratio nmul nround ndiv nrint Num_Q]. unfold Q_round_dec.
  rewrite (proj2 (Z.leb_le 0 (Zpos k))) by lia. f_equal.
  assert (Hp : Z.to_pos (10 ^ Zpos k) = (10 ^ k)%positive) by (rewrite <-Pos2Z.inj_pow; done).
  rewrite Hp. unfold Qdiv, Qmult, Qinv. cbn [Qnum Qden].
  rewrite Pos2Z.inj_mul, <-(Pos2Z.inj_pow 10 k). change (Zpos 1 * 10 ^ Zpos k) with (1 * 10 ^ Zpos k).
  rewrite Z.mul_1_l. set (p := 10 ^ Zpos k).
  assert (Hpp : 0 < p) by (apply Z.pow_pos_nonneg; lia).
  replace (t * Zpos c * p) with ((t * Zpos c) * p) by done. rewrite div_half_even_exact by done.
  cbn [Qnum Qden]. rewrite !Pos2Z.inj_mul, Pos2Z.inj_pow. fold p.
  replace (t * Zpos c * p) with (t * (p * Zpos c)) by ring.
  apply div_half_even_exact. lia.
Qed.
End sweeps.

(** ** Witnesses *)

Definition demo_event (type : BookEventType) (side : TradeSide) (cents size : Z) (id : string) : BookEvent Q :=
  mkBookEvent 1%Q type side (cents # 100)%Q (inject_Z size) (Some id).

Definition demo_feed : list (BookEvent Q) :=
  [demo_event ADD SELL 10010 5 "a"; demo_event ADD SELL 10000 7 "b"; demo_event ADD BUY 9990 3 "c"].

Definition demo_book : OrderBook Q :=
  foldl (λ b ev, (apply_market_event "feed" ev b).1)
    (default (mkOrderBook "" 1%Q 0 (mkBookSide ∅ []) (mkBookSide ∅ []) [] None None 0%Q [])
       (new_book "SPY" (1 # 100)%Q)) demo_feed.

Lemma demo_book_wf : book_wf demo_book.
Proof.
  unfold demo_book. apply (foldl_invariant book_wf).
  - destruct (new_book "SPY" (1 # 100)%Q) as [b|] eqn:E; [by eapply new_book_wf|done].
  - intros b ev _ Hb. pose proof (apply_market_event_wf "feed" ev b Hb) as Ht.
    destruct (apply_market_event "feed" ev b) as [b' [|]]; [exact Ht|exact (proj2 Ht)].
Qed.

Lemma book_operations_well_formed_witness :
  bs_keys (bk_asks demo_book) = [10000; 10010] ∧
  book_wf (consume_liquidity BUY 9%Q 2%Q None true demo_book).1.
Proof.
  split; [vm_compute; reflexivity|].
  destruct (book_operations_well_formed demo_book demo_book_wf) as (_ & Hc & _).
  specialize (Hc BUY 9%Q 2%Q None true). destruct (consume_liquidity _ _ _ _ _ _) as [b' r]. apply Hc.
Defined.

Lemma sweep_exact_witness :
  ∃ b' fs, consume_liquidity BUY 9%Q 2%Q (Some (10000 # 100)%Q) true demo_book = (b', Ret fs) ∧
    length fs = 1%nat ∧ (open_total b' == open_total demo_book - filled_total fs)%Q.
Proof.
  destruct (consume_liquidity BUY 9%Q 2%Q (Some (10000 # 100)%Q) true demo_book) as [b' [fs|e]] eqn:E;
    [|vm_compute in E; discriminate E].
  exists b', fs. split; [done|].
  assert (Hlen : length fs = 1%nat) by (vm_compute in E; by injection E as _ <-).
  split; [exact Hlen|]. refine (proj1 (proj2 (sweep_exact BUY 9%Q 2%Q _ true demo_book b' fs demo_book_wf _ E))).
  by vm_compute.
Defined.

Lemma tick_grid_roundtrip_witness :
  ∃ b, new_book "SPY" (1 # 100)%Q = Some b ∧ to_ticks b (from_ticks b 10010) = Some 10010.
Proof.
  eexists. split; [reflexivity|]. apply (tick_grid_roundtrip _ 1 2); reflexivity.
Defined.
