(* ===== verification/MatchingEngine.v ===== *)
(** backend/services/matching_engine.py: routing of paper orders against the
    book, and the feed's effects on them. *)

From S2P Require Import Prelude Numeric Microstructure OrderBook.
#[local] Open Scope Z_scope.

Inductive ExchangeEventType :=
| ORDER_SUBMITTED | ORDER_ACCEPTED | ORDER_QUEUED | ORDER_TRIGGERED | ORDER_PARTIALLY_FILLED
| ORDER_FILLED | ORDER_CANCELLED | ORDER_REJECTED | ORDER_EXPIRED.

#[global] Instance ExchangeEventType_eq_dec : EqDecision ExchangeEventType.
Proof. solve_decision. Defined.

Section engine.
Context {F : Type} `{Num F}.

(** The texts a rejection or cancellation carries; the ones with numbers keep
    them unformatted. *)
Inductive reason :=
| Text (s : string)
| OffGrid (tick_size : F)
| InsufficientCash (cost available : F).

(** An event's [details] dict. *)
Inductive event_details :=
| NoDetails
| SubmittedDetails (side : TradeSide) (type : OrderType) (quantity : F)
| FillDetails (fill_price fill_quantity : F) (side : TradeSide) (taker : bool)
    (avg_price quantity cumulative_filled remaining : F)
| ReasonDetails (r : reason) (filled_quantity : option F)
| CancelDetails (filled_quantity : F)
| QueuedDetails (price : option F) (quantity queue_ahead : F)
| TriggerDetails (trigger_price : F)
| InFlightDetails (until : F).

Record ExchangeEvent := mkExchangeEvent {
  xe_timestamp : F;
  xe_type : ExchangeEventType;
  xe_order_id : string;
  xe_symbol : string;
  xe_details : event_details
}.

Definition is_fill_event (t : ExchangeEventType) : bool :=
  match t with ORDER_FILLED | ORDER_PARTIALLY_FILLED => true | _ => false end.

Record MatchingEngine := mkMatchingEngine {
  me_book : OrderBook F;
  me_event_log : list ExchangeEvent;
  me_pending_stops : list nat
}.
#[global] Instance eta_MatchingEngine : Eta MatchingEngine := λ e,
  mkMatchingEngine (me_book e) (me_event_log e) (me_pending_stops e).

#[local] Abbreviation bprog := (prog (OrderBook F) BookError).
#[local] Abbreviation eprog := (prog MatchingEngine BookError).

Definition on_book {A} (m : bprog A) : eprog A := zoom me_book (λ b e, e <| me_book := b |>) m.

(** *** Helpers *)

Definition event_for (b : OrderBook F) (now : F) (type : ExchangeEventType) (l : nat)
    (details : event_details) : ExchangeEvent :=
  mkExchangeEvent now type (o_id (order_at b l)) (o_symbol (order_at b l)) details.

(** [_fill_event] *)
Definition fill_event (b : OrderBook F) (l : nat) (price qty now : F) (aggressor : bool) : ExchangeEvent :=
  let o := order_at b l in
  event_for b now (if bool_decide (o_status o = FILLED) then ORDER_FILLED else ORDER_PARTIALLY_FILLED) l
    (FillDetails price qty (o_side o) aggressor (nround (o_avg_price o) 8) (o_quantity o)
       (o_filled o) (remaining_quantity o)).

(** [_reject] *)
Definition reject (l : nat) (now : F) (r : reason) : bprog (list ExchangeEvent) :=
  pmodify (update_order l (λ o, o <| o_status := REJECTED |>));;
  b ← pget;
  mret [event_for b now ORDER_REJECTED l (ReasonDetails r None)].

(** [_take] *)
Definition take_step (l : nat) (now : F) (acc : OrderBook F * list ExchangeEvent) (resting : Fill F)
    : OrderBook F * list ExchangeEvent :=
  let '(b, events) := acc in
  let b := update_order l (record_fill (f_price resting) (f_quantity resting) now) b in
  (b, events ++ [fill_event b l (f_price resting) (f_quantity resting) now true]).

Definition take_liquidity (l : nat) (now : F) (limit_price : option F) : bprog (list ExchangeEvent) :=
  b ← pget;
  let o := order_at b l in
  fills ← consume_liquidity (o_side o) (remaining_quantity o) now limit_price true;
  b ← pget;
  let '(b, events) := foldl (take_step l now) (b, []) fills in
  pmodify (λ _, b);;
  mret events.

(** [_available] *)
Fixpoint available_in (b : OrderBook F) (side : TradeSide) (limit_price : option F)
    (levels : list (LevelQueue F)) (total : F) : F :=
  match levels with
  | [] => total
  | q :: levels =>
      let stop := match limit_price, side with
                  | None, _ => false
                  | Some p, BUY => lq_price q >.? (p ⊕ EPS)
                  | Some p, SELL => lq_price q <.? (p ⊖ EPS)
                  end in
      if stop then total else available_in b side limit_price levels (total ⊕ market_size b q)
  end.

Definition available (b : OrderBook F) (side : TradeSide) (limit_price : option F) : F :=
  available_in b side limit_price (levels_of b (opposite side)) n0.

(** [_is_marketable] *)
Definition is_marketable (b : OrderBook F) (o : Order F) : bool :=
  match o_limit_price o, o_side o with
  | None, _ => false
  | Some p, BUY => match best_ask b with Some ask => p >=.? (ask ⊖ EPS) | None => false end
  | Some p, SELL => match best_bid b with Some bid => p <=.? (bid ⊕ EPS) | None => false end
  end.

(** *** Execution *)

Definition execute_market_order (l : nat) (now : F) : bprog (list ExchangeEvent) :=
  events ← take_liquidity l now None;
  b ← pget;
  let o := order_at b l in
  if o_filled o <=.? EPS then
    rejected ← reject l now (Text "insufficient liquidity");
    mret (events ++ rejected)
  else if remaining_quantity o >.? EPS then
    pmodify (update_order l (λ o, o <| o_status := CANCELLED |>));;
    b ← pget;
    mret (events ++ [event_for b now ORDER_CANCELLED l
                       (ReasonDetails (Text "unfilled market remainder cancelled") (Some (o_filled o)))])
  else mret events.

Definition tif_name (t : TimeInForce) : string :=
  match t with DAY => "DAY" | GTC => "GTC" | IOC => "IOC" | FOK => "FOK" end.

Definition execute_limit_order (l : nat) (now : F) : bprog (list ExchangeEvent) :=
  b ← pget;
  let o := order_at b l in
  if bool_decide (o_tif o = FOK) && ((available b (o_side o) (o_limit_price o) ⊕ EPS) <.? o_quantity o)
  then reject l now (Text "FOK - insufficient liquidity for full fill")
  else
    events ← (if is_marketable b o then take_liquidity l now (o_limit_price o) else mret []);
    b ← pget;
    let o := order_at b l in
    if remaining_quantity o <=.? EPS then mret events
    else match o_tif o with
    | IOC | FOK =>
        pmodify (update_order l (λ o, o <| o_status := CANCELLED |>));;
        b ← pget;
        mret (events ++ [event_for b now ORDER_CANCELLED l
                (ReasonDetails (Text (tif_name (o_tif o) +:+ " remainder cancelled")) (Some (o_filled o)))])
    | DAY | GTC =>
        add_order l now;;
        b ← pget;
        let o := order_at b l in
        mret (events ++ [event_for b now ORDER_QUEUED l
                           (QueuedDetails (o_limit_price o) (remaining_quantity o) (o_ahead o))])
    end.

(** *** Submission *)

(** [p <= 0 or not self.book.is_on_grid(p)] *)
Definition bad_price (p : option F) : bprog bool := λ b,
  match p with
  | None => (b, Ret false)
  | Some p =>
      if p <=.? n0 then (b, Ret true)
      else match is_on_grid b p with
           | Some on => (b, Ret (negb on))
           | None => (b, Raise BadNumber)
           end
  end.

Definition validate (o : Order F) : bprog (option reason) :=
  if o_quantity o <=.? n0 then mret (Some (Text "quantity must be positive"))
  else if (match o_type o with LIMIT | STOP_LIMIT => true | _ => false end)
          && bool_decide (o_limit_price o = None)
  then mret (Some (Text "limit order requires limit_price"))
  else if (match o_type o with STOP | STOP_LIMIT => true | _ => false end)
          && bool_decide (o_stop_price o = None)
  then mret (Some (Text "stop order requires stop_price"))
  else
    bad ← bad_price (o_limit_price o);
    bad ← (if bad : bool then mret true else bad_price (o_stop_price o));
    b ← pget;
    mret (if bad : bool then Some (OffGrid (bk_tick_size b)) else None).

(** [submit_order], of the order object at [l]. *)
Definition submit_order (l : nat) (now : F) : eprog (list ExchangeEvent) :=
  on_book (pmodify (λ b, update_order l (λ o, o <| o_owner := PAPER |>
    <| o_symbol := if bool_decide (o_symbol o = "") then bk_symbol b else o_symbol o |>) b));;
  e ← pget;
  let b := me_book e in
  let o := order_at b l in
  let submitted := event_for b now ORDER_SUBMITTED l (SubmittedDetails (o_side o) (o_type o) (o_quantity o)) in
  refusal ← on_book (validate o);
  events ← match refusal with
           | Some r => on_book (reject l now r)
           | None =>
               on_book (pmodify (update_order l (λ o, o <| o_status := ACCEPTED |>)));;
               e ← pget;
               let accepted := event_for (me_book e) now ORDER_ACCEPTED l NoDetails in
               match o_type o with
               | MARKET =>
                   events ← on_book (execute_market_order l now); mret (accepted :: events)
               | LIMIT =>
                   events ← on_book (execute_limit_order l now); mret (accepted :: events)
               | STOP | STOP_LIMIT =>
                   pmodify (λ e, e <| me_pending_stops ::= λ ls, ls ++ [l] |>);;
                   mret [accepted]
               end
           end;
  let events := submitted :: events in
  pmodify (λ e, e <| me_event_log ::= λ log, log ++ events |>);;
  mret events.

(** [cancel_order] *)
Definition engine_cancel_order (order_id : string) (now : F) : eprog (list ExchangeEvent) :=
  e ← pget;
  let named l := bool_decide (o_id (order_at (me_book e) l) = order_id) in
  events ←
    match List.find named (me_pending_stops e) with
    | Some l =>
        on_book (pmodify (update_order l (λ o, o <| o_status := CANCELLED |>)));;
        pmodify (λ e, e <| me_pending_stops ::= remove_first named |>);;
        e ← pget;
        mret [event_for (me_book e) now ORDER_CANCELLED l NoDetails]
    | None =>
        found ← on_book (cancel_order order_id);
        e ← pget;
        mret match found with
             | Some l => [event_for (me_book e) now ORDER_CANCELLED l
                            (CancelDetails (o_filled (order_at (me_book e) l)))]
             | None => []
             end
    end;
  pmodify (λ e, e <| me_event_log ::= λ log, log ++ events |>);;
  mret events.

(** *** Market data *)

(** [_check_stop_triggers] *)
Definition triggered (b : OrderBook F) (trade_price : F) (l : nat) : bool :=
  let o := order_at b l in
  let stop := default n0 (o_stop_price o) in
  match o_side o with
  | BUY => trade_price >=.? (stop ⊖ EPS)
  | SELL => trade_price <=.? (stop ⊕ EPS)
  end.

Definition trigger_step (trade_price now : F) (acc : list ExchangeEvent * list nat) (l : nat)
    : bprog (list ExchangeEvent * list nat) :=
  let '(events, still_pending) := acc in
  b ← pget;
  if triggered b trade_price l then
    let event := event_for b now ORDER_TRIGGERED l (TriggerDetails trade_price) in
    fills ←
      (if bool_decide (o_type (order_at b l) = STOP) then
         pmodify (update_order l (λ o, o <| o_type := MARKET |>));;
         execute_market_order l now
       else
         pmodify (update_order l (λ o, o <| o_type := LIMIT |>));;
         execute_limit_order l now);
    mret (events ++ event :: fills, still_pending)
  else mret (events, still_pending ++ [l]).

Definition check_stop_triggers (trade_price now : F) : eprog (list ExchangeEvent) :=
  e ← pget;
  '(events, still_pending) ← on_book (pfold (trigger_step trade_price now) ([], []) (me_pending_stops e));
  pmodify (λ e, e <| me_pending_stops := still_pending |>);;
  mret events.

(** [on_market_event] *)
Definition on_market_event (fresh : string) (ev : BookEvent F) : eprog (list ExchangeEvent) :=
  let now := ev_timestamp ev in
  fills ← on_book (apply_market_event fresh ev);
  e ← pget;
  let b := me_book e in
  let events := omap (λ f, (λ l, fill_event b l (f_price f) (f_quantity f) now false)
                             <$> get_order b (f_order_id f)) fills in
  stops ← (if bool_decide (ev_event_type ev = TRADE) then check_stop_triggers (ev_price ev) now
           else mret []);
  let events := events ++ stops in
  pmodify (λ e, e <| me_event_log ::= λ log, log ++ events |>);;
  mret events.

(** *** Expiry *)

(** [order.expires_at and now >= order.expires_at] *)
Definition expired (now : F) (o : Order F) : bool :=
  match o_expires_at o with
  | Some t => nbool t && (now >=.? t)
  | None => false
  end.

Definition expire_step (now : F) (events : list ExchangeEvent) (entry : string * nat)
    : bprog (list ExchangeEvent) :=
  let '(oid, l) := entry in
  b ← pget;
  let o := order_at b l in
  if bool_decide (o_owner o = PAPER) && is_active o && expired now o then
    cancelled ← cancel_order oid;
    match cancelled with
    | Some _ =>
        pmodify (update_order l (λ o, o <| o_status := EXPIRED |>));;
        b ← pget;
        mret (events ++ [event_for b now ORDER_EXPIRED l NoDetails])
    | None => mret events
    end
  else mret events.

Definition expire_stop (now : F) (acc : list ExchangeEvent * list nat) (l : nat)
    : bprog (list ExchangeEvent * list nat) :=
  let '(events, kept) := acc in
  b ← pget;
  if expired now (order_at b l) then
    pmodify (update_order l (λ o, o <| o_status := EXPIRED |>));;
    b ← pget;
    mret (events ++ [event_for b now ORDER_EXPIRED l NoDetails], kept)
  else mret (events, kept ++ [l]).

(** [expire_orders] *)
Definition expire_orders (now : F) : eprog (list ExchangeEvent) :=
  e ← pget;
  events ← on_book (pfold (expire_step now) [] (bk_orders (me_book e)));
  e ← pget;
  '(events, kept) ← on_book (pfold (expire_stop now) (events, []) (me_pending_stops e));
  pmodify (λ e, e <| me_pending_stops := kept |> <| me_event_log ::= λ log, log ++ events |>);;
  mret events.
End engine.
Arguments ExchangeEvent F : clear implicits.
Arguments MatchingEngine F : clear implicits.
Arguments reason F : clear implicits.
