(* ===== verification/PaperExchange.v ===== *)
(** backend/services/paper_exchange.py: the event-driven paper exchange (clock,
    latency, pre-trade checks, settlement). *)

From S2P Require Import Prelude Numeric Microstructure OrderBook MatchingEngine.
From stdpp Require Import pretty.
#[local] Open Scope Z_scope.

(** [TradingMode] has no other member. *)
Inductive TradingMode := PAPER_MODE.
Definition TRADING_MODE : TradingMode := PAPER_MODE.

(** [f"P{n:08d}"] *)
Definition pad8 (s : string) : string :=
  String.concat "" (replicate (8 - String.length s) "0") +:+ s.
Definition sequential_id (n : Z) : string := "P" +:+ pad8 (pretty n).

Section exchange.
Context {F : Type} `{Num F}.

(** ** Positions *)

Record PaperPosition := mkPaperPosition {
  pp_quantity : F;
  pp_avg_entry_price : F;
  pp_realized_pnl : F;
  pp_unrealized_pnl : F
}.
#[global] Instance eta_PaperPosition : Eta PaperPosition := λ p,
  mkPaperPosition (pp_quantity p) (pp_avg_entry_price p) (pp_realized_pnl p) (pp_unrealized_pnl p).

(** [apply_fill] *)
Definition apply_fill (fill_price fill_qty : F) (side : TradeSide) (p : PaperPosition) : PaperPosition :=
  let signed_qty := match side with BUY => fill_qty | SELL => nopp fill_qty end in
  let q := pp_quantity p in
  if ((q >.? n0) && (signed_qty <.? n0)) || ((q <.? n0) && (signed_qty >.? n0)) then
    let close_qty := nmin (nabs signed_qty) (nabs q) in
    let pnl_per_unit := fill_price ⊖ pp_avg_entry_price p in
    let pnl_per_unit := if q <.? n0 then nopp pnl_per_unit else pnl_per_unit in
    let p := p <| pp_realized_pnl ::= λ r, r ⊕ (close_qty ⊗ pnl_per_unit) |> in
    let remaining := nabs signed_qty ⊖ close_qty in
    if remaining >.? n0 then
      p <| pp_quantity := if signed_qty >.? n0 then remaining else nopp remaining |>
        <| pp_avg_entry_price := fill_price |>
    else
      let q' := q ⊕ signed_qty in
      if nabs q' <.? nof_ratio 1 10000000000
      then p <| pp_quantity := n0 |> <| pp_avg_entry_price := n0 |>
      else p <| pp_quantity := q' |>
  else
    let total_cost := (nabs q ⊗ pp_avg_entry_price p) ⊕ (fill_qty ⊗ fill_price) in
    let q' := q ⊕ signed_qty in
    let p := p <| pp_quantity := q' |> in
    if nabs q' >.? n0 then p <| pp_avg_entry_price := total_cost ⊘ nabs q' |> else p.

(** [mark_to_market] *)
Definition mark_to_market (current_price : F) (p : PaperPosition) : PaperPosition :=
  let q := pp_quantity p in
  if q =.? n0 then p <| pp_unrealized_pnl := n0 |>
  else
    let pnl_per_unit := current_price ⊖ pp_avg_entry_price p in
    let pnl_per_unit := if q <.? n0 then nopp pnl_per_unit else pnl_per_unit in
    p <| pp_unrealized_pnl := nabs q ⊗ pnl_per_unit |>.

(** ** The exchange *)

Record PaperExchange := mkPaperExchange {
  px_symbol : string;
  px_latency_ms : F;
  px_initial_cash : F;
  px_cash : F;
  px_engine : MatchingEngine F;
  px_position : option PaperPosition;     (* [positions] only ever holds [symbol] *)
  px_fill_history : list (Fill F);
  px_order_history : list nat;
  px_event_log : list (ExchangeEvent F);
  px_decision_mid : gmap string (option F);
  px_arrival_mid : gmap string (option F);
  px_mid_history : list (F * F);
  px_by_id : gmap string nat;
  px_order_seq : Z;
  px_inflight : list (F * Z * nat);       (* the heap [_inflight], unordered *)
  px_market_cost_estimate : gmap string F;
  px_seq : Z;
  px_event_count : Z;
  px_current_time : F;
  px_has_expiring : bool
}.
#[global] Instance eta_PaperExchange : Eta PaperExchange := λ x,
  mkPaperExchange (px_symbol x) (px_latency_ms x) (px_initial_cash x) (px_cash x) (px_engine x)
    (px_position x) (px_fill_history x) (px_order_history x) (px_event_log x) (px_decision_mid x)
    (px_arrival_mid x) (px_mid_history x) (px_by_id x) (px_order_seq x) (px_inflight x)
    (px_market_cost_estimate x) (px_seq x) (px_event_count x) (px_current_time x) (px_has_expiring x).

#[local] Abbreviation xprog := (prog PaperExchange BookError).

(** [PaperExchange(...)]: None for the ValueErrors of its arguments. *)
Definition new_exchange (symbol : string) (latency_ms initial_cash tick_size : F)
    : option PaperExchange :=
  if latency_ms <.? n0 then None
  else
    (λ book, mkPaperExchange symbol latency_ms initial_cash initial_cash
               (mkMatchingEngine book [] []) None [] [] [] ∅ ∅ [] ∅ 0 [] ∅ 0 0 n0 false)
    <$> new_book symbol tick_size.

Definition px_book (x : PaperExchange) : OrderBook F := me_book (px_engine x).
Definition on_engine {A} (m : prog (MatchingEngine F) BookError A) : xprog A :=
  zoom px_engine (λ e x, x <| px_engine := e |>) m.
Definition px_order (x : PaperExchange) (l : nat) : Order F := order_at (px_book x) l.
Definition on_order (l : nat) (f : Order F → Order F) : xprog unit :=
  on_engine (on_book (pmodify (update_order l f))).
Definition log_event (e : ExchangeEvent F) (x : PaperExchange) : PaperExchange :=
  x <| px_event_log ::= λ log, log ++ [e] |>.

(** *** State helpers *)

Definition position_quantity (x : PaperExchange) : F :=
  match px_position x with Some p => pp_quantity p | None => n0 end.

(** [_WORKING] *)
Definition is_working (s : OrderStatus) : bool :=
  match s with SUBMITTED | ACCEPTED | QUEUED | PARTIALLY_FILLED => true | _ => false end.

Definition working (x : PaperExchange) (side : TradeSide) : list nat :=
  List.filter (λ l, bool_decide (o_side (px_order x l) = side) && is_working (o_status (px_order x l)))
    (px_order_history x).

(** [limit_price if not None else stop_price], or zero. *)
Definition worst_price (o : Order F) : F :=
  match (match o_limit_price o with Some p => Some p | None => o_stop_price o end) with
  | Some p => if nbool p then p else n0
  | None => n0
  end.

Definition commitment (x : PaperExchange) (l : nat) : F :=
  let o := px_order x l in
  match o_type o with
  | MARKET => default n0 (px_market_cost_estimate x !! o_id o)
  | _ => remaining_quantity o ⊗ worst_price o
  end.

Definition committed_cash (x : PaperExchange) : F :=
  foldl (λ total l, total ⊕ commitment x l) n0 (working x BUY).
Definition available_cash (x : PaperExchange) : F := px_cash x ⊖ committed_cash x.
Definition sellable_quantity (x : PaperExchange) : F :=
  position_quantity x ⊖ nsum (map (λ l, remaining_quantity (px_order x l)) (working x SELL)).

(** [_estimate_market_buy_cost] *)
Fixpoint estimate_walk (b : OrderBook F) (levels : list (LevelQueue F)) (remaining cost : F)
    (last_price : option F) : F * F * option F :=
  match levels with
  | [] => (remaining, cost, last_price)
  | q :: levels =>
      let take := nmin remaining (market_size b q) in
      let cost := cost ⊕ (take ⊗ lq_price q) in
      let remaining := remaining ⊖ take in
      if remaining <=.? EPS then (remaining, cost, Some (lq_price q))
      else estimate_walk b levels remaining cost (Some (lq_price q))
  end.

Definition estimate_market_buy_cost (x : PaperExchange) (quantity : F) : option F :=
  let '(remaining, cost, last_price) :=
    estimate_walk (px_book x) (ask_levels (px_book x)) quantity n0 None in
  (λ p, cost ⊕ (nmax n0 remaining ⊗ p)) <$> last_price.

(** [_pretrade_reject_reason] *)
Definition pretrade_reject_reason (l : nat) (x : PaperExchange) : PaperExchange * option (reason F) :=
  let o := px_order x l in
  match o_side o with
  | BUY =>
      let '(x, cost) :=
        match o_type o with
        | MARKET =>
            match estimate_market_buy_cost x (o_quantity o) with
            | None => (x, None)
            | Some cost => (x <| px_market_cost_estimate ::= <[o_id o := cost]> |>, Some cost)
            end
        | _ => (x, Some (o_quantity o ⊗ worst_price o))
        end in
      (x, match cost with
          | None => None
          | Some cost =>
              if cost >.? (available_cash x ⊕ nof_ratio 1 1000000)
              then Some (InsufficientCash cost (available_cash x)) else None
          end)
  | SELL =>
      (x, if o_quantity o >.? (sellable_quantity x ⊕ EPS)
          then Some (Text "sell quantity exceeds the sellable position (no short selling)") else None)
  end.

(** *** Settlement *)

(** [_apply_fill] *)
Definition settle_fill (order_id : string) (price qty : F) (side : TradeSide) (timestamp : F)
    (aggressor : bool) (x : PaperExchange) : PaperExchange :=
  let pos := default (mkPaperPosition n0 n0 n0 n0) (px_position x) in
  let partial := match px_by_id x !! order_id with
                 | Some l => negb (bool_decide (o_status (px_order x l) = FILLED))
                 | None => false
                 end in
  x <| px_position := Some (apply_fill price qty side pos) |>
    <| px_cash ::= λ c, c ⊕ match side with BUY => nopp price ⊗ qty | SELL => price ⊗ qty end |>
    <| px_fill_history ::= λ fs, fs ++ [mkFill order_id price qty timestamp partial aggressor (Some side)] |>.

(** [_settle] *)
Definition settle_event (x : PaperExchange) (ev : ExchangeEvent F) : PaperExchange :=
  let x := log_event ev x in
  if is_fill_event (xe_type ev) then
    match xe_details ev with
    | FillDetails price qty side taker _ _ _ _ =>
        settle_fill (xe_order_id ev) price qty side (xe_timestamp ev) taker x
    | _ => x   (* fill events always carry fill details *)
    end
  else x.

Definition settle (events : list (ExchangeEvent F)) (x : PaperExchange) : PaperExchange :=
  foldl settle_event x events.

(** *** Submission *)

(** [_activate] *)
Definition activate (l : nat) : xprog unit :=
  x ← pget;
  let o := px_order x l in
  pmodify (λ x, x <| px_arrival_mid ::= <[o_id o := mid_price (px_book x)]> |>);;
  events ← on_engine (submit_order l (default n0 (o_active_at o)));
  pmodify (settle events);;
  pmodify (λ x, x <| px_market_cost_estimate ::= delete (o_id o) |>).

(** [submit_order]: the location of the new order. *)
Definition submit (side : TradeSide) (quantity : F) (type : OrderType) (limit stop : option F)
    (tif : TimeInForce) (expires_at : option F) : xprog nat :=
  pmodify (λ x, x <| px_order_seq ::= Z.succ |>);;
  x ← pget;
  let id := sequential_id (px_order_seq x) in
  l ← on_engine (on_book (λ b,
        let '(b, l) := alloc (new_order id (px_symbol x) side type quantity limit stop tif
                                (px_current_time x) expires_at PAPER) b in
        (b, Ret l)));
  refusal ← (λ x, let '(x, r) := pretrade_reject_reason l x in (x, Ret r));
  pmodify (λ x, x <| px_order_history ::= λ ls, ls ++ [l] |> <| px_by_id ::= <[id := l]> |>
                  <| px_decision_mid ::= <[id := mid_price (px_book x)]> |>);;
  match refusal with
  | Some r =>
      on_order l (λ o, o <| o_status := REJECTED |>);;
      pmodify (λ x, log_event (mkExchangeEvent (px_current_time x) ORDER_REJECTED id (px_symbol x)
                                 (ReasonDetails r None)) x);;
      mret l
  | None =>
      x ← pget;
      let active_at := px_current_time x ⊕ (px_latency_ms x ⊘ nof_Z 1000) in
      pmodify (λ x, x <| px_has_expiring := px_has_expiring x || bool_decide (is_Some expires_at) |>);;
      on_order l (λ o, o <| o_active_at := Some active_at |>);;
      if px_latency_ms x >.? n0 then
        pmodify (λ x, log_event (mkExchangeEvent (px_current_time x) ORDER_SUBMITTED id (px_symbol x)
                                   (InFlightDetails active_at))
                        (x <| px_inflight ::= λ q, q ++ [(active_at, px_seq x, l)] |>
                           <| px_seq ::= Z.succ |>));;
        mret l
      else activate l;; mret l
  end.

(** [cancel_order] *)
Definition cancel_working (order_id : string) : xprog (list (ExchangeEvent F)) :=
  x ← pget;
  let named (e : F * Z * nat) := bool_decide (o_id (px_order x e.2) = order_id) in
  match List.find named (px_inflight x) with
  | Some entry =>
      let event := mkExchangeEvent (px_current_time x) ORDER_CANCELLED order_id (px_symbol x)
                     (ReasonDetails (Text "cancelled in flight") None) in
      pmodify (λ x, x <| px_inflight ::= List.filter (λ e, negb (bool_decide (e.2 = entry.2))) |>);;
      on_order entry.2 (λ o, o <| o_status := CANCELLED |>);;
      pmodify (λ x, log_event event (x <| px_market_cost_estimate ::= delete order_id |>));;
      mret [event]
  | None =>
      events ← on_engine (engine_cancel_order order_id (px_current_time x));
      pmodify (λ x, x <| px_event_log ::= λ log, log ++ events |>);;
      mret events
  end.

(** *** Clock and market events *)

(** The heap's least entry: by arrival time, then by sequence number. *)
Definition entry_before (a b : F * Z * nat) : bool :=
  let '(ta, sa, _) := a in let '(tb, sb, _) := b in
  (ta <.? tb) || ((ta =.? tb) && (sa <? sb)).
Definition heap_min (q : list (F * Z * nat)) : option (F * Z * nat) :=
  match q with
  | [] => None
  | e :: q => Some (foldl (λ best e, if entry_before e best then e else best) e q)
  end.
Definition heap_remove (e : F * Z * nat) (q : list (F * Z * nat)) : list (F * Z * nat) :=
  List.filter (λ e', negb (e'.1.2 =? e.1.2)) q.

(** The loop of [advance_to]; [length _inflight] iterations are enough. *)
Fixpoint release_due (fuel : nat) (timestamp : F) : xprog unit :=
  match fuel with
  | O => mret ()
  | S k =>
      x ← pget;
      match heap_min (px_inflight x) with
      | None => mret ()
      | Some entry =>
          let '(arrival, _, l) := entry in
          if arrival <=.? (timestamp ⊕ EPS) then
            pmodify (λ x, x <| px_inflight ::= heap_remove entry |>
                            <| px_current_time := nmax (px_current_time x) arrival |>);;
            activate l;;
            release_due k timestamp
          else mret ()
      end
  end.

Definition advance_to (timestamp : F) : xprog unit :=
  x ← pget;
  release_due (length (px_inflight x)) timestamp;;
  pmodify (λ x, x <| px_current_time := nmax (px_current_time x) timestamp |>);;
  x ← pget;
  if px_has_expiring x then
    events ← on_engine (expire_orders (px_current_time x));
    pmodify (settle events)
  else mret ().

(** [on_market_event] *)
Definition exchange_event (fresh : string) (ev : BookEvent F) : xprog (list (ExchangeEvent F)) :=
  advance_to (ev_timestamp ev);;
  pmodify (λ x, x <| px_event_count ::= Z.succ |>);;
  events ← on_engine (on_market_event fresh ev);
  pmodify (settle events);;
  x ← pget;
  match mid_price (px_book x) with
  | None => mret ()
  | Some mid =>
      let changed := match last (px_mid_history x) with
                     | Some (_, m) => negb (m =.? mid)
                     | None => true
                     end in
      if changed then pmodify (λ x, x <| px_mid_history ::= λ h, h ++ [(ev_timestamp ev, mid)] |>)
      else mret ()
  end;;
  mret events.

(** *** Reporting *)

(** [mid_at]: the last entry at or before [timestamp] of the ascending history. *)
Definition mid_at (x : PaperExchange) (timestamp : F) : option F :=
  snd <$> last (List.filter (λ e, e.1 <=.? timestamp) (px_mid_history x)).

Record portfolio_view := mkPortfolioView {
  pv_cash : F;
  pv_committed_cash : F;
  pv_mark_price : option F;
  pv_realized_pnl : F;
  pv_unrealized_pnl : F;
  pv_total_pnl : F;
  pv_equity : F;
  pv_total_orders : nat;
  pv_total_fills : nat;
  pv_events_processed : Z
}.

Definition truthy (p : option F) : option F :=
  match p with Some v => if nbool v then Some v else None | None => None end.

(** [portfolio_summary]; [price] is [current_prices.get(symbol)]. *)
Definition portfolio_summary (price : option F) : xprog portfolio_view :=
  x ← pget;
  let b := px_book x in
  let mark := match truthy price with
              | Some p => Some p
              | None => match truthy (mid_price b) with
                        | Some m => Some m
                        | None => bk_last_trade_price b
                        end
              end in
  match mark with
  | Some m => pmodify (λ x, x <| px_position ::= option_map (mark_to_market m) |>)
  | None => mret ()
  end;;
  x ← pget;
  let value p := match mark with
                 | Some m => pp_quantity p ⊗ m
                 | None => pp_quantity p ⊗ pp_avg_entry_price p
                 end in
  let of_position (f : PaperPosition → F) := match px_position x with Some p => n0 ⊕ f p | None => n0 end in
  let equity := px_cash x ⊕ of_position value in
  mret (mkPortfolioView (nround (px_cash x) 4) (nround (committed_cash x) 4) mark
          (nround (of_position pp_realized_pnl) 4) (nround (of_position pp_unrealized_pnl) 4)
          (nround (equity ⊖ px_initial_cash x) 4) (nround equity 4)
          (length (px_order_history x)) (length (px_fill_history x)) (px_event_count x)).

(** The per-status counts of [exchange_stats]. *)
Definition status_count (x : PaperExchange) (s : OrderStatus) : nat :=
  length (List.filter (λ l, bool_decide (o_status (px_order x l) = s)) (px_order_history x)).
End exchange.
Arguments PaperExchange F : clear implicits.
Arguments PaperPosition F : clear implicits.
