(* ===== verification/PaperExchangeFacts.v ===== *)
(** Facts about the paper exchange: settlement and the simulation clock. *)

From S2P Require Import Prelude Numeric Microstructure OrderBook MatchingEngine PaperExchange.
From Stdlib Require Import QArith Qabs Lqa.
#[local] Open Scope Z_scope.

Section settlement.
Context {F : Type} `{Num F}.
Implicit Types (x : PaperExchange F) (ev : ExchangeEvent F).

(** ** The ledger

    Cash and position replayed from the fill history, and the fills the event
    log reports. *)

Definition signed_cash (f : Fill F) : F :=
  match f_side f with
  | Some BUY => nopp (f_price f) ⊗ f_quantity f
  | _ => f_price f ⊗ f_quantity f
  end.

Definition replay_cash (initial : F) (fs : list (Fill F)) : F := foldl (λ c f, c ⊕ signed_cash f) initial fs.

Definition replay_position (fs : list (Fill F)) : option (PaperPosition F) :=
  foldl (λ p f, Some (apply_fill (f_price f) (f_quantity f) (default BUY (f_side f))
                        (default (mkPaperPosition n0 n0 n0 n0) p))) None fs.

(** The execution an event reports: order, price, quantity, side, taker. *)
Definition execution (ev : ExchangeEvent F) : option (string * F * F * TradeSide * bool) :=
  if is_fill_event (xe_type ev) then
    match xe_details ev with
    | FillDetails price qty side taker _ _ _ _ => Some (xe_order_id ev, price, qty, side, taker)
    | _ => None
    end
  else None.

Definition settled (f : Fill F) : option (string * F * F * TradeSide * bool) :=
  (λ side, (f_order_id f, f_price f, f_quantity f, side, f_aggressor f)) <$> f_side f.

Variable initial : F.   (* the initial cash of the session *)

(** The exchange's books balance. Positions are compared up to the unrealised
    P&L, which reporting rewrites. *)
Definition unmarked (p : PaperPosition F) : F * F * F :=
  (pp_quantity p, pp_avg_entry_price p, pp_realized_pnl p).

Record ledger_ok (x : PaperExchange F) : Prop := {
  lo_initial : px_initial_cash x = initial;
  lo_cash : px_cash x = replay_cash initial (px_fill_history x);
  lo_position : unmarked <$> px_position x = unmarked <$> replay_position (px_fill_history x);
  lo_fills : omap settled (px_fill_history x) = omap execution (px_event_log x);
  lo_sides : Forall (λ f, is_Some (f_side f)) (px_fill_history x)
}.

(** Everything the ledger reads. *)
Definition same_ledger x x' : Prop :=
  px_cash x' = px_cash x ∧ px_initial_cash x' = px_initial_cash x ∧ px_position x' = px_position x ∧
  px_fill_history x' = px_fill_history x ∧ px_event_log x' = px_event_log x.

Lemma ledger_same x x' : same_ledger x x' → ledger_ok x → ledger_ok x'.
Proof. intros (Hc & Hi & Hp & Hf & Hl) []. split; by rewrite ?Hc, ?Hi, ?Hp, ?Hf, ?Hl. Qed.

Lemma unmarked_apply price qty side p p' :
  unmarked p = unmarked p' → unmarked (apply_fill price qty side p) = unmarked (apply_fill price qty side p').
Proof.
  intros [= Hq Ha Hr]. unfold apply_fill. rewrite Hq, Ha.
  repeat (match goal with |- context [if ?c then _ else _] => destruct c end); unfold unmarked; cbn;
    by rewrite ?Hq, ?Ha, ?Hr.
Qed.

Lemma log_event_ok ev x : execution ev = None → ledger_ok x → ledger_ok (log_event ev x).
Proof.
  intros Hev [Hi Hc Hp Hf Hs]. split; try done. cbn. rewrite omap_app. cbn. by rewrite Hev, app_nil_r.
Qed.

Lemma log_events_ok evs x :
  Forall (λ ev, execution ev = None) evs → ledger_ok x →
  ledger_ok (x <| px_event_log ::= λ log, log ++ evs |>).
Proof.
  intros Hevs [Hi Hc Hp Hf Hs]. split; try done. cbn. rewrite omap_app, Hf.
  assert (omap execution evs = []) as ->; [|by rewrite app_nil_r].
  induction Hevs as [|ev evs He _ IH]; cbn; [done|]. by rewrite He.
Qed.

Lemma settle_event_ok x ev : ledger_ok x → ledger_ok (settle_event x ev).
Proof.
  intros Hok. unfold settle_event.
  destruct (is_fill_event (xe_type ev)) eqn:Hfill; [|by apply log_event_ok; [unfold execution; rewrite Hfill|]].
  destruct (xe_details ev) eqn:Hd; try (apply log_event_ok; [|done]; unfold execution; by rewrite Hfill, Hd).
  destruct Hok as [Hi Hc Hp Hf Hs].
  split; cbn.
  - done.
  - unfold replay_cash in *. rewrite foldl_app, <-Hc. cbn. by destruct side.
  - unfold replay_position in *. rewrite foldl_snoc. cbn. f_equal. apply unmarked_apply.
    set (p' := foldl _ None _) in *. destruct (px_position x), p'; cbn in *; congruence.
  - rewrite !omap_app, Hf. cbn. unfold execution. by rewrite Hfill, Hd.
  - apply Forall_app. split; [done|]. repeat constructor. by eexists.
Qed.

Lemma settle_ledger evs x : ledger_ok x → ledger_ok (settle evs x).
Proof. intros Hx. unfold settle. apply foldl_invariant; [done|]. intros. by apply settle_event_ok. Qed.

(** *** Operations *)

#[local] Abbreviation any_error := (λ (_ : BookError) x, ledger_ok x).
#[local] Abbreviation keeps m := (triple ledger_ok m (λ _, ledger_ok) any_error).

Lemma keeps_bind {A B} (m : prog (PaperExchange F) BookError A) (k : A → prog _ _ B) :
  keeps m → (∀ a, keeps (k a)) → keeps (m ≫= k).
Proof. intros. by eapply triple_bind. Qed.

Lemma keeps_ret {A} (a : A) : keeps (mret a).
Proof. by apply triple_ret. Qed.

Lemma keeps_modify f : (∀ x, ledger_ok x → ledger_ok (f x)) → keeps (pmodify f).
Proof. intros Hf. by apply triple_modify. Qed.

Lemma keeps_get : keeps pget.
Proof. by apply triple_get. Qed.

Lemma keeps_engine {A} (m : prog (MatchingEngine F) BookError A) : keeps (on_engine m).
Proof.
  apply (triple_zoom _ _ _ _ (λ _, True) (λ _ _, True) (λ _ _, True)); try done.
  - intros e _. by destruct (m e) as [? []].
  - intros x a t Hx _. eapply ledger_same; [|exact Hx]. by split_and!.
  - intros x a t Hx _. eapply ledger_same; [|exact Hx]. by split_and!.
Qed.

Lemma keeps_field f : (∀ x, same_ledger x (f x)) → keeps (pmodify f).
Proof. intros Hf. apply keeps_modify. intros x. by apply ledger_same. Qed.

(** A cancellation reports no execution. *)
Lemma engine_cancel_events id now e :
  match engine_cancel_order id now e with
  | (_, Ret evs) => Forall (λ ev, execution ev = None) evs
  | (_, Raise _) => True
  end.
Proof.
  unfold engine_cancel_order, mbind, prog_bind, pget, pmodify, on_book, zoom, mret, prog_ret. cbn.
  destruct (List.find _ _) as [l|]; [by repeat constructor|].
  destruct (cancel_order id (me_book e)) as [b [[l|]|err]]; [by repeat constructor|constructor|done].
Qed.

Lemma activate_keeps l : keeps (activate l).
Proof.
  apply keeps_bind; [apply keeps_get|]. intros x0. apply keeps_bind; [by apply keeps_field|]. intros _.
  apply keeps_bind; [apply keeps_engine|]. intros evs.
  apply keeps_bind; [apply keeps_modify; intros; by apply settle_ledger|]. intros _. by apply keeps_field.
Qed.

Lemma release_keeps fuel timestamp : keeps (release_due fuel timestamp).
Proof.
  induction fuel as [|k IH]; [apply keeps_ret|]. cbn [release_due].
  apply keeps_bind; [apply keeps_get|]. intros x0.
  destruct (heap_min _) as [[[arrival ?] l]|]; [|apply keeps_ret].
  destruct (arrival <=.? _); [|apply keeps_ret].
  apply keeps_bind; [by apply keeps_field|]. intros _.
  apply keeps_bind; [apply activate_keeps|]. done.
Qed.

Lemma advance_keeps timestamp : keeps (advance_to timestamp).
Proof.
  apply keeps_bind; [apply keeps_get|]. intros x0. apply keeps_bind; [apply release_keeps|]. intros _.
  apply keeps_bind; [by apply keeps_field|]. intros _. apply keeps_bind; [apply keeps_get|]. intros x1.
  destruct (px_has_expiring x1); [|apply keeps_ret].
  apply keeps_bind; [apply keeps_engine|]. intros evs. apply keeps_modify. intros. by apply settle_ledger.
Qed.

Lemma exchange_event_keeps fresh (bev : BookEvent F) : keeps (exchange_event fresh bev).
Proof.
  apply keeps_bind; [apply advance_keeps|]. intros _. apply keeps_bind; [by apply keeps_field|]. intros _.
  apply keeps_bind; [apply keeps_engine|]. intros evs.
  apply keeps_bind; [apply keeps_modify; intros; by apply settle_ledger|]. intros _.
  apply keeps_bind; [apply keeps_get|]. intros x1.
  apply keeps_bind; [|intros _; apply keeps_ret]. destruct (mid_price _); [|apply keeps_ret].
  destruct (match last _ with Some _ => _ | None => _ end); [by apply keeps_field|apply keeps_ret].
Qed.

Lemma pretrade_same l x : same_ledger x (pretrade_reject_reason l x).1.
Proof.
  unfold pretrade_reject_reason. destruct (o_side _); [|by split_and!].
  destruct (o_type _); [|by split_and!..]. by destruct (estimate_market_buy_cost _ _).
Qed.

Lemma submit_keeps side qty type limit stop tif expires :
  keeps (submit side qty type limit stop tif expires).
Proof.
  apply keeps_bind; [by apply keeps_field|]. intros _. apply keeps_bind; [apply keeps_get|]. intros x0.
  apply keeps_bind; [apply keeps_engine|]. intros l. apply keeps_bind.
  { intros x Hx. pose proof (pretrade_same l x) as Hs.
    destruct (pretrade_reject_reason l x) as [x' r]. by eapply ledger_same. }
  intros refusal. apply keeps_bind; [by apply keeps_field|]. intros _. destruct refusal as [r|].
  - apply keeps_bind; [apply keeps_engine|]. intros _.
    apply keeps_bind; [apply keeps_modify; intros; by apply log_event_ok|]. intros _. apply keeps_ret.
  - apply keeps_bind; [apply keeps_get|]. intros x1. apply keeps_bind; [by apply keeps_field|]. intros _.
    apply keeps_bind; [apply keeps_engine|]. intros _. destruct (n0 <.? _).
    + apply keeps_bind; [|intros _; apply keeps_ret]. apply keeps_modify. intros x Hx.
      apply log_event_ok; [done|]. eapply ledger_same; [|exact Hx]. by split_and!.
    + apply keeps_bind; [apply activate_keeps|]. intros _. apply keeps_ret.
Qed.

Lemma cancel_working_keeps id : keeps (cancel_working id).
Proof.
  apply keeps_bind; [apply keeps_get|]. intros x0. cbv zeta.
  destruct (List.find _ _) as [entry|].
  - apply keeps_bind; [by apply keeps_field|]. intros _. apply keeps_bind; [apply keeps_engine|]. intros _.
    apply keeps_bind; [|intros _; apply keeps_ret]. apply keeps_modify. intros x Hx.
    apply log_event_ok; [done|]. eapply ledger_same; [|exact Hx]. by split_and!.
  - eapply (triple_bind _ _ _ (λ evs x, ledger_ok x ∧ Forall (λ ev, execution ev = None) evs)).
    + intros x Hx. pose proof (engine_cancel_events id (px_current_time x0) (px_engine x)) as He.
      unfold on_engine, zoom. destruct (engine_cancel_order _ _ _) as [e [evs|err]].
      * split; [|done]. eapply ledger_same; [|exact Hx]. by split_and!.
      * eapply ledger_same; [|exact Hx]. by split_and!.
    + intros evs. eapply (triple_bind _ _ _ (λ _, ledger_ok)); [|intros; by apply triple_ret].
      apply triple_modify. intros x [Hx Hevs]. by apply log_events_ok.
Qed.

Lemma portfolio_summary_keeps price : keeps (portfolio_summary price).
Proof.
  apply keeps_bind; [apply keeps_get|]. intros x0. cbv zeta.
  set (mark := match truthy price with Some _ => _ | None => _ end).
  apply keeps_bind; [|intros _; apply keeps_bind; [apply keeps_get|]; intros; apply keeps_ret].
  destruct mark as [m|]; [|apply keeps_ret]. apply keeps_modify. intros x [Hi Hc Hp Hf Hs]. split; try done.
  change (unmarked <$> option_map (mark_to_market m) (px_position x) =
          unmarked <$> replay_position (px_fill_history x)).
  rewrite <-Hp. destruct (px_position x) as [p|]; [|done]. cbn. unfold mark_to_market.
  by destruct (_ =.? _).
Qed.

(** ** Sessions *)

Inductive exchange_op :=
| OpSubmit (side : TradeSide) (qty : F) (type : OrderType) (limit stop : option F) (tif : TimeInForce)
    (expires : option F)
| OpCancel (order_id : string)
| OpAdvance (timestamp : F)
| OpMarketEvent (fresh : string) (ev : BookEvent F)
| OpReport (price : option F).

Definition run_exchange_op (x : PaperExchange F) (op : exchange_op) : PaperExchange F :=
  match op with
  | OpSubmit side qty type limit stop tif expires => (submit side qty type limit stop tif expires x).1
  | OpCancel id => (cancel_working id x).1
  | OpAdvance t => (advance_to t x).1
  | OpMarketEvent fresh ev => (exchange_event fresh ev x).1
  | OpReport price => (portfolio_summary price x).1
  end.

Lemma keeps_run {A} (m : prog (PaperExchange F) BookError A) x : keeps m → ledger_ok x → ledger_ok (m x).1.
Proof. intros Hm Hx. specialize (Hm x Hx). by destruct (m x) as [x' []]. Qed.

Lemma run_op_ok x op : ledger_ok x → ledger_ok (run_exchange_op x op).
Proof.
  intros Hx. destruct op; cbn [run_exchange_op]; (apply keeps_run; [|done]).
  - apply submit_keeps.
  - apply cancel_working_keeps.
  - apply advance_keeps.
  - apply exchange_event_keeps.
  - apply portfolio_summary_keeps.
Qed.

(** C4: Cash and positions change only through executions, and no execution is
    lost: after any sequence of submissions, cancellations, clock advances,
    market events and reports (also when one of them raises), the cash is the
    initial cash replayed over the fill history, the position is the fill
    history replayed, and the fill history lists exactly the executions of
    the event log, in order. It holds of doubles and of exact arithmetic. *)
Theorem settlement_exact symbol latency tick x0 ops :
  new_exchange symbol latency initial tick = Some x0 →
  let x := foldl run_exchange_op x0 ops in
  px_initial_cash x = initial ∧
  px_cash x = replay_cash initial (px_fill_history x) ∧
  unmarked <$> px_position x = unmarked <$> replay_position (px_fill_history x) ∧
  omap settled (px_fill_history x) = omap execution (px_event_log x).
Proof.
  intros Hnew x. assert (Hx : ledger_ok x); [|by destruct Hx].
  apply foldl_invariant; [|intros; by apply run_op_ok].
  revert Hnew. unfold new_exchange. destruct (_ <.? _); [done|]. destruct (new_book _ _); [|done].
  by intros [= <-].
Qed.
End settlement.

(** ** The clock, on exact arithmetic *)

Section clock.
Implicit Types (x : PaperExchange Q) (e : Q * Z * nat).

Definition entry_time e : Q := e.1.1.
Definition entry_seq e : Z := e.1.2.

(** The orders in flight have distinct sequence numbers, all used. *)
Definition inflight_ok (q : list (Q * Z * nat)) (seq : Z) : Prop :=
  NoDup (entry_seq <$> q) ∧ ∀ e, e ∈ q → entry_seq e < seq.

Definition on_clock (P : list (Q * Z * nat) → Z → Q → Prop) (x : PaperExchange Q) : Prop :=
  P (px_inflight x) (px_seq x) (px_current_time x).

(** Code that leaves the flight queue and the clock alone. *)
Definition calm {A} (m : prog (PaperExchange Q) BookError A) : Prop :=
  ∀ P, triple (on_clock P) m (λ _, on_clock P) (λ _, on_clock P).

Lemma calm_bind {A B} (m : prog (PaperExchange Q) BookError A) (k : A → prog _ _ B) :
  calm m → (∀ a, calm (k a)) → calm (m ≫= k).
Proof. intros Hm Hk P. eapply triple_bind; [apply Hm|]. intros a. apply Hk. Qed.

Lemma calm_ret {A} (a : A) : calm (mret a).
Proof. intros P. by apply triple_ret. Qed.

Lemma calm_get : calm pget.
Proof. intros P. by apply triple_get. Qed.

Definition same_clock x x' : Prop :=
  px_inflight x' = px_inflight x ∧ px_seq x' = px_seq x ∧ px_current_time x' = px_current_time x.

Lemma calm_modify f : (∀ x, same_clock x (f x)) → calm (pmodify f).
Proof. intros Hf P. apply triple_modify. intros x Hx. destruct (Hf x) as (Hi & Hs & Ht).
  unfold on_clock in *. by rewrite Hi, Hs, Ht.
Qed.

Lemma calm_engine {A} (m : prog (MatchingEngine Q) BookError A) : calm (on_engine m).
Proof.
  intros P. apply (triple_zoom _ _ _ _ (λ _, True) (λ _ _, True) (λ _ _, True)); try done.
  intros e _. by destruct (m e) as [? []].
Qed.

Lemma settle_clock evs x : same_clock x (settle evs x).
Proof.
  unfold settle. apply (foldl_invariant (same_clock x)); [done|]. intros x' ev _ (? & ? & ?).
  unfold settle_event. destruct (is_fill_event _); [|by split_and!]. by destruct (xe_details ev); split_and!.
Qed.

Lemma activate_calm l : calm (activate l).
Proof.
  apply calm_bind; [apply calm_get|]. intros x0. apply calm_bind; [by apply calm_modify|]. intros _.
  apply calm_bind; [apply calm_engine|]. intros evs.
  apply calm_bind; [apply calm_modify, settle_clock|]. intros _. by apply calm_modify.
Qed.

(** *** The flight queue *)

Lemma heap_min_none (q : list (Q * Z * nat)) : heap_min q = None → q = [].
Proof. by destruct q. Qed.

Lemma entry_before_time e e' : entry_before e e' = true → (entry_time e <= entry_time e')%Q.
Proof.
  destruct e as [[t s] l], e' as [[t' s'] l']. unfold entry_before, entry_time. cbn [fst].
  intros [Hlt|[He _]%andb_prop]%orb_prop; qsimpl; lra.
Qed.

Lemma not_before_time e e' : entry_before e e' = false → (entry_time e' <= entry_time e)%Q.
Proof.
  destruct e as [[t s] l], e' as [[t' s'] l']. unfold entry_before, entry_time. cbn [fst].
  intros [Hlt _]%orb_false_elim. qsimpl. lra.
Qed.

Lemma heap_min_some (q : list (Q * Z * nat)) e :
  heap_min q = Some e → e ∈ q ∧ ∀ e', e' ∈ q → (entry_time e <= entry_time e')%Q.
Proof.
  destruct q as [|e0 q]; [done|]. unfold heap_min. intros [= <-].
  cut (∀ seen best, best ∈ seen → (∀ e', e' ∈ seen → (entry_time best <= entry_time e')%Q) →
    let m := foldl (λ best e, if entry_before e best then e else best) best q in
    m ∈ seen ++ q ∧ ∀ e', e' ∈ seen ++ q → (entry_time m <= entry_time e')%Q).
  { intros Hcut. apply (Hcut [e0] e0); [by left|]. intros e' ->%list_elem_of_singleton. lra. }
  induction q as [|e1 q IH]; intros seen best Hin Hmin; cbn [foldl].
  { rewrite app_nil_r. done. }
  specialize (IH (seen ++ [e1])). rewrite <-app_assoc in IH. cbn [app] in IH.
  destruct (entry_before e1 best) eqn:Hb; apply IH.
  - apply elem_of_app. right. by left.
  - apply entry_before_time in Hb. intros e' [He'| ->%list_elem_of_singleton]%elem_of_app; [|lra].
    specialize (Hmin e' He'). lra.
  - apply elem_of_app. by left.
  - apply not_before_time in Hb. intros e' [He'| ->%list_elem_of_singleton]%elem_of_app; [auto|lra].
Qed.

Lemma elem_of_heap_remove e e' q :
  e' ∈ heap_remove e q ↔ e' ∈ q ∧ entry_seq e' ≠ entry_seq e.
Proof.
  unfold heap_remove. rewrite !list_elem_of_In, List.filter_In, negb_true_iff, Z.eqb_neq. done.
Qed.

Lemma heap_remove_sublist e q : heap_remove e q `sublist_of` q.
Proof.
  unfold heap_remove. induction q as [|e' q IH]; cbn; [done|].
  destruct (negb _); [by apply sublist_skip|by apply sublist_cons].
Qed.

Lemma heap_remove_length e q : e ∈ q → (length (heap_remove e q) < length q)%nat.
Proof.
  intros Hin. induction q as [|e' q IH]; [by apply not_elem_of_nil in Hin|].
  pose proof (sublist_length _ _ (heap_remove_sublist e q)) as Hq. unfold heap_remove in *. cbn in *.
  destruct (negb _) eqn:Hne; cbn; [|lia].
  apply elem_of_cons in Hin as [->|Hin]; [|specialize (IH Hin); lia].
  by rewrite Z.eqb_refl in Hne.
Qed.

Definition due (timestamp : Q) e : Prop := (entry_time e <= timestamp + EPS)%Q.

Lemma release_spec fuel timestamp q0 seq c0 :
  NoDup (entry_seq <$> q0) →
  triple (on_clock (λ q s c, s = seq ∧ (length q ≤ fuel)%nat ∧ q `sublist_of` q0 ∧ (c0 <= c)%Q ∧
            ∀ e, e ∈ q0 → ¬ due timestamp e → e ∈ q))
    (release_due fuel timestamp)
    (λ _, on_clock (λ q s c, s = seq ∧ q `sublist_of` q0 ∧ (c0 <= c)%Q ∧
            ∀ e, e ∈ q ↔ e ∈ q0 ∧ ¬ due timestamp e))
    (λ _ _, True).
Proof.
  intros Hnd. induction fuel as [|k IH]; cbn [release_due].
  { apply triple_ret. intros x (Hs & Hlen & Hsub & Hc & Hkeep). split_and!; [done..|].
    destruct (px_inflight x) as [|e q]; [|cbn in Hlen; lia]. intros e. split; [set_solver|].
    intros [He Hd]. by apply Hkeep. }
  apply triple_read. intros x (Hs & Hlen & Hsub & Hc & Hkeep).
  destruct (heap_min (px_inflight x)) as [[[arrival s] l]|] eqn:Hmin.
  2:{ apply heap_min_none in Hmin. apply triple_ret. intros ? ->. unfold on_clock. rewrite Hmin in *.
      split_and!; [done..|]. intros e. split; [set_solver|]. intros [He Hd]. by apply Hkeep. }
  apply heap_min_some in Hmin as [Hin Hle].
  destruct (arrival <=.? _) eqn:Hdue; qsimpl.
  - eapply triple_bind.
    { apply (triple_modify _ _ (λ _, on_clock (λ q s c, s = seq ∧ (length q ≤ k)%nat ∧ q `sublist_of` q0 ∧
        (c0 <= c)%Q ∧ ∀ e, e ∈ q0 → ¬ due timestamp e → e ∈ q))).
      intros ? ->. unfold on_clock. cbn [px_inflight px_seq px_current_time set_field].
      pose proof (heap_remove_length _ _ Hin). pose proof (nmax_Q (px_current_time x) arrival) as (? & _ & _).
      split_and!; [done|lia|by etransitivity; [apply heap_remove_sublist|]|lra|].
      intros e He Hd. apply elem_of_heap_remove. split; [by apply Hkeep|]. intros Heq.
      assert (e = (arrival, s, l)) as ->; [|by destruct Hd].
      assert (Hin0 : (arrival, s, l) ∈ q0) by (eapply elem_of_sublist; [exact Hin|exact Hsub]).
      clear - Hnd He Hin0 Heq. induction q0 as [|e0 q0 IH]; [by apply not_elem_of_nil in He|].
      apply NoDup_cons in Hnd as [Hnin Hnd].
      apply elem_of_cons in He as [ ->|He], Hin0 as [<-|Hin0]; [done| | |by apply IH].
      - destruct Hnin. rewrite Heq. by apply (list_elem_of_fmap_2 entry_seq).
      - destruct Hnin. rewrite <-Heq. by apply (list_elem_of_fmap_2 entry_seq). }
    intros u. eapply triple_bind; [|intros u'; exact IH].
    eapply triple_conseq; [apply activate_calm|done|done|done].
  - apply triple_ret. intros ? ->. split_and!; [done..|]. intros e. split.
    + intros He. split; [by eapply elem_of_sublist|]. specialize (Hle e He).
      change (timestamp + EPS < arrival)%Q in Hdue. change (arrival <= e.1.1)%Q in Hle.
      unfold due, entry_time. lra.
    + intros [He Hd]. by apply Hkeep.
Qed.

Lemma expire_calm now : calm (events ← on_engine (expire_orders now); pmodify (settle events)).
Proof. apply calm_bind; [apply calm_engine|]. intros evs. apply calm_modify, settle_clock. Qed.

Lemma advance_spec timestamp q0 seq c0 :
  NoDup (entry_seq <$> q0) →
  triple (on_clock (λ q s c, s = seq ∧ q = q0 ∧ c = c0)) (advance_to timestamp)
    (λ _, on_clock (λ q s c, s = seq ∧ q `sublist_of` q0 ∧ (c0 <= c)%Q ∧ (timestamp <= c)%Q ∧
            ∀ e, e ∈ q ↔ e ∈ q0 ∧ ¬ due timestamp e))
    (λ _ _, True).
Proof.
  intros Hnd. apply triple_read. intros x (<- & Hq & Hc). eapply triple_bind.
  { eapply triple_conseq; [apply (release_spec _ timestamp q0 (px_seq x) c0 Hnd)| |done|done].
    intros ? ->. unfold on_clock. rewrite Hq, Hc. split_and!; [done..|lra|]. auto. }
  intros u. eapply triple_bind.
  { apply (triple_modify _ _ (λ _, on_clock (λ q s c, s = px_seq x ∧ q `sublist_of` q0 ∧ (c0 <= c)%Q ∧
      (timestamp <= c)%Q ∧ ∀ e, e ∈ q ↔ e ∈ q0 ∧ ¬ due timestamp e))).
    intros x1 (Hs & Hsub & Hc1 & Hel). unfold on_clock. cbn [px_inflight px_seq px_current_time set_field].
    pose proof (nmax_Q (px_current_time x1) timestamp) as (? & ? & _).
    split_and!; [done|done|lra|lra|done]. }
  intros u'. apply triple_read. intros x1 Hx1. destruct (px_has_expiring x1).
  - eapply triple_conseq; [apply expire_calm| |intros ? ? Ht; exact Ht|done]. by intros ? ->.
  - apply triple_ret. by intros ? ->.
Qed.

(** *** The queue in any session *)

Lemma calm_ok {A} (m : prog (PaperExchange Q) BookError A) x :
  calm m → inflight_ok (px_inflight x) (px_seq x) → inflight_ok (px_inflight (m x).1) (px_seq (m x).1).
Proof.
  intros Hm Hx. specialize (Hm (λ q s _, inflight_ok q s) x Hx). by destruct (m x) as [x' []].
Qed.

Definition flight_ok x : Prop := inflight_ok (px_inflight x) (px_seq x).
#[local] Abbreviation flies m := (triple flight_ok m (λ _, flight_ok) (λ _, flight_ok)).

Lemma calm_flies {A} (m : prog (PaperExchange Q) BookError A) : calm m → flies m.
Proof. intros Hm. apply (Hm (λ q s _, inflight_ok q s)). Qed.

Lemma flies_bind {A B} (m : prog (PaperExchange Q) BookError A) (k : A → prog _ _ B) :
  flies m → (∀ a, flies (k a)) → flies (m ≫= k).
Proof. intros. by eapply triple_bind. Qed.

Lemma inflight_sublist q q' seq : q' `sublist_of` q → inflight_ok q seq → inflight_ok q' seq.
Proof.
  intros Hsub [Hnd Hlt]. split.
  - eapply sublist_NoDup; [exact Hnd|]. by apply fmap_sublist.
  - intros e He. apply Hlt. by eapply elem_of_sublist.
Qed.

Lemma release_flies fuel timestamp : flies (release_due fuel timestamp).
Proof.
  induction fuel as [|k IH]; [by apply triple_ret|]. cbn [release_due].
  apply triple_read. intros x Hx. destruct (heap_min _) as [[[arrival s] l]|]; [|by apply triple_ret; intros ? ->].
  destruct (arrival <=.? _); [|by apply triple_ret; intros ? ->]. eapply triple_bind.
  { apply (triple_modify _ _ (λ _, flight_ok)). intros ? ->.
    apply (inflight_sublist (px_inflight x)); [apply heap_remove_sublist|exact Hx]. }
  intros u. apply flies_bind; [apply calm_flies, activate_calm|]. done.
Qed.

Lemma advance_flies timestamp : flies (advance_to timestamp).
Proof.
  apply flies_bind; [by apply triple_get|]. intros x0. apply flies_bind; [apply release_flies|]. intros _.
  apply flies_bind; [by apply triple_modify|]. intros _.
  apply flies_bind; [by apply triple_get|]. intros x1.
  destruct (px_has_expiring x1); [|by apply triple_ret]. apply calm_flies, expire_calm.
Qed.

Lemma pretrade_clock l x : same_clock x (pretrade_reject_reason l x).1.
Proof.
  unfold pretrade_reject_reason. destruct (o_side _); [|by split_and!].
  destruct (o_type _); [|by split_and!..]. by destruct (estimate_market_buy_cost _ _).
Qed.

Lemma submit_flies side qty type limit stop tif expires :
  flies (submit side qty type limit stop tif expires).
Proof.
  apply flies_bind; [by apply calm_flies, calm_modify|]. intros _. apply flies_bind; [by apply triple_get|].
  intros x0. apply flies_bind; [apply calm_flies, calm_engine|]. intros l. apply flies_bind.
  { intros x Hx. pose proof (pretrade_clock l x) as (Hi & Hs & _).
    destruct (pretrade_reject_reason l x) as [x' r]. cbn in Hi, Hs. unfold flight_ok. by rewrite Hi, Hs. }
  intros refusal. apply flies_bind; [by apply calm_flies, calm_modify|]. intros _. destruct refusal as [r|].
  - apply flies_bind; [apply calm_flies, calm_engine|]. intros _.
    apply flies_bind; [by apply calm_flies, calm_modify|]. intros _. by apply triple_ret.
  - apply flies_bind; [by apply triple_get|]. intros x1.
    apply flies_bind; [by apply calm_flies, calm_modify|]. intros _.
    apply flies_bind; [apply calm_flies, calm_engine|]. intros _. destruct (n0 <.? _).
    + apply flies_bind; [|intros _; by apply triple_ret]. apply triple_modify. intros x [Hnd Hlt]. split; cbn.
      * rewrite fmap_app. apply NoDup_app. split; [done|]. split; [|apply NoDup_singleton].
        intros s Hs ->%list_elem_of_singleton. apply list_elem_of_fmap in Hs as (e & Heq & He).
        specialize (Hlt e He). unfold entry_seq in *. cbn in Heq. lia.
      * intros e [He| ->%list_elem_of_singleton]%elem_of_app; [specialize (Hlt e He); lia|].
        unfold entry_seq. cbn. lia.
    + apply flies_bind; [apply calm_flies, activate_calm|]. intros _. by apply triple_ret.
Qed.

Lemma cancel_flies id : flies (cancel_working id).
Proof.
  apply flies_bind; [by apply triple_get|]. intros x0. cbv zeta. destruct (List.find _ _) as [entry|].
  - apply flies_bind.
    { apply triple_modify. intros x Hx. apply (inflight_sublist (px_inflight x)); [|exact Hx]. cbn.
      clear. induction (px_inflight x) as [|e q IH]; cbn; [done|].
      destruct (negb _); [by apply sublist_skip|by apply sublist_cons]. }
    intros _. apply flies_bind; [apply calm_flies, calm_engine|]. intros _.
    apply flies_bind; [|intros _; by apply triple_ret]. by apply calm_flies, calm_modify.
  - apply flies_bind; [apply calm_flies, calm_engine|]. intros evs.
    apply flies_bind; [by apply calm_flies, calm_modify|]. intros _. by apply triple_ret.
Qed.

Lemma exchange_event_flies fresh (bev : BookEvent Q) : flies (exchange_event fresh bev).
Proof.
  apply flies_bind; [apply advance_flies|]. intros _. apply flies_bind; [by apply calm_flies, calm_modify|].
  intros _. apply flies_bind; [apply calm_flies, calm_engine|]. intros evs.
  apply flies_bind; [apply calm_flies, calm_modify, settle_clock|]. intros _.
  apply flies_bind; [by apply triple_get|]. intros x1.
  apply flies_bind; [|intros _; by apply triple_ret]. destruct (mid_price _); [|by apply triple_ret].
  destruct (match last _ with Some _ => _ | None => _ end); [by apply calm_flies, calm_modify|by apply triple_ret].
Qed.

Lemma run_op_flies x op : flight_ok x → flight_ok (run_exchange_op x op).
Proof.
  intros Hx. assert (Hrun : ∀ A (m : prog (PaperExchange Q) BookError A), flies m → flight_ok (m x).1).
  { intros A m Hm. specialize (Hm x Hx). by destruct (m x) as [x' []]. }
  destruct op; cbn [run_exchange_op]; apply Hrun.
  - apply submit_flies.
  - apply cancel_flies.
  - apply advance_flies.
  - apply exchange_event_flies.
  - apply flies_bind; [by apply triple_get|]. intros x0. cbv zeta.
    set (mark := match truthy price with Some _ => _ | None => _ end).
    apply flies_bind; [|intros _; apply flies_bind; [by apply triple_get|]; intros; by apply triple_ret].
    destruct mark; [by apply calm_flies, calm_modify|by apply triple_ret].
Qed.

(** Latency is exact. In any session, advancing the clock to a time [t]
    that does not raise releases to the matching engine precisely the orders
    in flight whose arrival time has come (within the time tolerance) and
    keeps all the others waiting; the loop's bound, the number of orders in
    flight, is always enough; and the clock ends at [t] or later and never
    runs backwards. (Exact arithmetic.) *)
Theorem advance_releases_due symbol latency initial tick x0 ops timestamp :
  new_exchange symbol latency initial tick = Some x0 →
  let x := foldl run_exchange_op x0 ops in
  match advance_to timestamp x with
  | (x', Ret _) =>
      (∀ e, e ∈ px_inflight x' ↔ e ∈ px_inflight x ∧ ¬ (entry_time e <= timestamp + EPS)%Q) ∧
      (timestamp <= px_current_time x')%Q ∧ (px_current_time x <= px_current_time x')%Q
  | (_, Raise _) => True
  end.
Proof.
  intros Hnew x. assert (Hx : flight_ok x).
  { apply foldl_invariant; [|intros; by apply run_op_flies].
    revert Hnew. unfold new_exchange. destruct (_ <.? _); [done|]. destruct (new_book _ _); [|done].
    intros [= <-]. split; [constructor|]. intros e He. by apply not_elem_of_nil in He. }
  pose proof (advance_spec timestamp (px_inflight x) (px_seq x) (px_current_time x) (proj1 Hx) x) as Ha.
  specialize (Ha (conj eq_refl (conj eq_refl eq_refl))).
  destruct (advance_to timestamp x) as [x' [[]|]]; [|done].
  destruct Ha as (_ & _ & Hc & Ht & He). by split_and!.
Qed.
End clock.

(** ** Witnesses *)

Definition demo_exchange : PaperExchange Q :=
  default (mkPaperExchange "" 0%Q 0%Q 0%Q (mkMatchingEngine (mkOrderBook "" 1%Q 0 (mkBookSide ∅ [])
             (mkBookSide ∅ []) [] None None 0%Q []) [] []) None [] [] [] ∅ ∅ [] ∅ 0 [] ∅ 0 0 0%Q false)
    (new_exchange "SPY" 500%Q 100000%Q (1 # 100)%Q).

(** A quote, a market buy half a second from the market, and time passing. *)
Definition demo_ops : list (exchange_op (F:=Q)) :=
  [OpMarketEvent "f1" (mkBookEvent 1%Q ADD SELL 100%Q 7%Q (Some "a"));
   OpSubmit BUY 5%Q MARKET None None GTC None; OpAdvance 2%Q].

Lemma settlement_exact_witness :
  let x := foldl run_exchange_op demo_exchange demo_ops in
  length (px_fill_history x) = 1%nat ∧
  px_cash x = replay_cash 100000%Q (px_fill_history x).
Proof.
  split; [vm_compute; reflexivity|].
  destruct (settlement_exact 100000%Q "SPY" 500%Q (1 # 100)%Q demo_exchange demo_ops) as (_ & Hc & _);
    [vm_compute; reflexivity|exact Hc].
Defined.

Lemma advance_releases_due_witness :
  let x := foldl run_exchange_op demo_exchange (take 2 demo_ops) in
  length (px_inflight x) = 1%nat ∧
  match advance_to 2%Q x with
  | (x', Ret _) => (2 <= px_current_time x')%Q
  | (_, Raise _) => True
  end.
Proof.
  split; [vm_compute; reflexivity|].
  pose proof (advance_releases_due "SPY" 500%Q 100000%Q (1 # 100)%Q demo_exchange (take 2 demo_ops) 2%Q) as Ha.
  specialize (Ha ltac:(vm_compute; reflexivity)). cbv zeta in Ha.
  destruct (advance_to 2%Q _) as [x' []]; [apply Ha|done].
Defined.
