(* ===== verification/L2Replay.v ===== *)
(** backend/services/l2_event_replay.py and the feed validator of
    market_microstructure.py: loading an L2 feed and replaying it through one
    book, with or without the paper exchange. *)

From S2P Require Import Prelude Numeric Microstructure OrderBook MatchingEngine PaperExchange.
#[local] Open Scope Z_scope.

Section replay.
Context {F : Type} `{Num F}.

(** [uuid4] ids of the feed orders without one, by event index. *)
Variable fresh : nat → string.

(** ** Feed validation *)

Inductive issue :=
| PriceIssue (i : nat) (price : F)
| SizeIssue (i : nat) (size : F) (type : BookEventType)
| TimestampIssue (i : nat) (timestamp : F)
| DuplicateIssue (i : nat) (order_id : string)
| CrossedIssue (i : nat) (bid ask : F)
| RecordIssue (i : nat).

(** [last_ts] starts at minus infinity (None). *)
Definition earlier_than (t : F) (last_ts : option F) : bool :=
  match last_ts with Some l => t <.? l | None => false end.
Definition minus_infinite (t : F) : bool := (t <.? n0) && negb (nfinite t).
Definition max_ts (last_ts : option F) (t : F) : option F :=
  match last_ts with
  | Some l => Some (nmax l t)
  | None => if (t =.? t) && negb (minus_infinite t) then Some t else None
  end.

Record validation := mkValidation {
  va_book : OrderBook F;
  va_seen : gset string;
  va_last_ts : option F;
  va_issues : list issue
}.
#[global] Instance eta_validation : Eta validation := λ v,
  mkValidation (va_book v) (va_seen v) (va_last_ts v) (va_issues v).

Definition add_issue (c : bool) (e : issue) (v : validation) : validation :=
  if c then v <| va_issues ::= λ l, l ++ [e] |> else v.

Definition event_id (ev : BookEvent F) : option string :=
  match ev_order_id ev with
  | Some id => if bool_decide (id = "") then None else Some id
  | None => None
  end.

(** One event of [validate_events]. *)
Definition validate_event (max_issues : nat) (i : nat) (ev : BookEvent F)
    : prog validation BookError unit :=
  v ← pget;
  if (max_issues <=? length (va_issues v))%nat then mret ()
  else if negb (nfinite (ev_price ev) && (ev_price ev >.? n0)) then
    pmodify (add_issue true (PriceIssue i (ev_price ev)))
  else if negb (nfinite (ev_size ev) && (ev_size ev >=.? n0))
          || (bool_decide (ev_event_type ev = TRADE) && (ev_size ev <=.? n0)) then
    pmodify (add_issue true (SizeIssue i (ev_size ev) (ev_event_type ev)))
  else
    pmodify (λ v, add_issue (earlier_than (ev_timestamp ev) (va_last_ts v))
                    (TimestampIssue i (ev_timestamp ev)) v);;
    pmodify (λ v, v <| va_last_ts := max_ts (va_last_ts v) (ev_timestamp ev) |>);;
    match ev_event_type ev, event_id ev with
    | ADD, Some id =>
        pmodify (λ v, add_issue (bool_decide (id ∈ va_seen v)) (DuplicateIssue i id) v
                      <| va_seen ::= λ s, {[id]} ∪ s |>)
    | _, _ => mret ()
    end;;
    zoom va_book (λ b v, v <| va_book := b |>) (apply_market_event (fresh i) ev);;
    pmodify (λ v, match best_bid (va_book v), best_ask (va_book v) with
                  | Some bb, Some ba => add_issue (bb >=.? ba) (CrossedIssue i bb ba) v
                  | _, _ => v
                  end).

Fixpoint validate_from (max_issues i : nat) (events : list (BookEvent F)) : prog validation BookError unit :=
  match events with
  | [] => mret ()
  | ev :: events => validate_event max_issues i ev;; validate_from max_issues (S i) events
  end.

(** [validate_events], given the empty book of its tick size. *)
Definition validate_events (events : list (BookEvent F)) (book : OrderBook F) (max_issues : nat)
    : outcome BookError (list issue) :=
  match validate_from max_issues 0 events (mkValidation book ∅ None []) with
  | (v, Ret _) => Ret (va_issues v)
  | (_, Raise e) => Raise e
  end.

Fixpoint apply_events (i : nat) (events : list (BookEvent F)) : prog (OrderBook F) BookError unit :=
  match events with
  | [] => mret ()
  | ev :: events => apply_market_event (fresh i) ev;; apply_events (S i) events
  end.

(** [build_snapshot_from_events] *)
Definition build_snapshot_from_events (events : list (BookEvent F)) (levels : nat) (book : OrderBook F)
    : outcome BookError (OrderBookSnapshot F) :=
  match apply_events 0 events book with
  | (b, Ret _) => Ret (snapshot levels b)
  | (_, Raise e) => Raise e
  end.

(** ** Event streams *)

(** A record of [from_records]: each field is what [float(r[k])] or
    [str(r[k])] gives, None where it raises. *)
Record raw_record := mkRawRecord {
  rr_timestamp : option F;
  rr_event_type : option string;
  rr_side : option string;
  rr_price : option F;
  rr_size : option F;
  rr_order_id : option string
}.

Definition parse_event_type (s : string) : option BookEventType :=
  let s := str_upper s in
  if bool_decide (s = "ADD") then Some ADD else if bool_decide (s = "CANCEL") then Some CANCEL
  else if bool_decide (s = "MODIFY") then Some MODIFY else if bool_decide (s = "TRADE") then Some TRADE
  else None.
Definition parse_side (s : string) : option TradeSide :=
  let s := str_upper s in
  if bool_decide (s = "BUY") then Some BUY else if bool_decide (s = "SELL") then Some SELL else None.

Definition parse_record (r : raw_record) : option (BookEvent F) :=
  timestamp ← rr_timestamp r;
  type ← rr_event_type r ≫= parse_event_type;
  side ← rr_side r ≫= parse_side;
  price ← rr_price r;
  size ← rr_size r;
  Some (mkBookEvent timestamp type side price size
          (match rr_order_id r with
           | Some id => if bool_decide (id = "") then None else Some id
           | None => None
           end)).

Fixpoint parse_records (i : nat) (rs : list raw_record) : outcome issue (list (BookEvent F)) :=
  match rs with
  | [] => Ret []
  | r :: rs =>
      match parse_record r with
      | Some ev => let! evs := parse_records (S i) rs in Ret (ev :: evs)
      | None => Raise (RecordIssue i)
      end
  end.

(** [events.sort(key=timestamp)], stable. *)
Fixpoint insert_event (ev : BookEvent F) (evs : list (BookEvent F)) : list (BookEvent F) :=
  match evs with
  | [] => [ev]
  | e :: evs' => if ev_timestamp ev <.? ev_timestamp e then ev :: evs else e :: insert_event ev evs'
  end.
Definition sort_events (evs : list (BookEvent F)) : list (BookEvent F) :=
  foldl (λ acc ev, insert_event ev acc) [] evs.

Inductive LoadError :=
| L2DataError (issues : list issue)
| BookFailure (e : BookError).

(** [from_records]: the events of the stream. *)
Definition from_records (records : list raw_record) (book : OrderBook F) (validate : bool)
    : outcome LoadError (list (BookEvent F)) :=
  match parse_records 0 records with
  | Raise i => Raise (L2DataError [i])
  | Ret events =>
      let events := sort_events events in
      if validate then
        match validate_events events book 20 with
        | Raise e => Raise (BookFailure e)
        | Ret [] => Ret events
        | Ret issues => Raise (L2DataError issues)
        end
      else Ret events
  end.

(** ** Replay sessions *)

Record ReplayConfig := mkReplayConfig {
  rc_snapshot_interval : nat;
  rc_warmup_events : nat;
  rc_max_events : option nat;
  rc_snapshot_levels : nat;
  rc_order_quantity : F;
  rc_passive : bool;                      (* order_style is "passive" *)
  rc_cancel_after_events : option nat
}.

(** A strategy's dict: its ["signal"] and its other numeric fields. *)
Record signal := mkSignal {
  sg_signal : option string;
  sg_fields : list (string * option F);
  sg_timestamp : option F;
  sg_order : option (string * OrderStatus)
}.
#[global] Instance eta_signal : Eta signal := λ s,
  mkSignal (sg_signal s) (sg_fields s) (sg_timestamp s) (sg_order s).

Definition strategy := OrderBookSnapshot F → list (TradeEvent F) → option signal.

(** The session drives the exchange if it is given one, a book otherwise. *)
Inductive venue := OnExchange (x : PaperExchange F) | OnBook (b : OrderBook F).

Definition venue_book (v : venue) : OrderBook F :=
  match v with OnExchange x => px_book x | OnBook b => b end.

Record session := mkSession {
  rs_venue : venue;
  rs_total_events : nat;
  rs_snapshots : nat;
  rs_signals : nat;
  rs_trades : nat;
  rs_snapshot_history : list (OrderBookSnapshot F);
  rs_signal_history : list signal;
  rs_recent_trades : list (TradeEvent F);
  rs_working : list (string * nat)
}.
#[global] Instance eta_session : Eta session := λ s,
  mkSession (rs_venue s) (rs_total_events s) (rs_snapshots s) (rs_signals s) (rs_trades s)
    (rs_snapshot_history s) (rs_signal_history s) (rs_recent_trades s) (rs_working s).

#[local] Abbreviation rprog := (prog session BookError).

Definition on_exchange {A} (m : prog (PaperExchange F) BookError A) (k : A → rprog unit) : rprog unit :=
  λ s, match rs_venue s with
       | OnBook _ => (s, Ret ())
       | OnExchange x =>
           match m x with
           | (x, Ret a) => k a (s <| rs_venue := OnExchange x |>)
           | (x, Raise e) => (s <| rs_venue := OnExchange x |>, Raise e)
           end
       end.

Definition on_plain_book {A} (m : prog (OrderBook F) BookError A) : rprog unit :=
  λ s, match rs_venue s with
       | OnExchange _ => (s, Ret ())
       | OnBook b => let '(b, r) := m b in
                     (s <| rs_venue := OnBook b |>, match r with Ret _ => Ret () | Raise e => Raise e end)
       end.

(** The last [n] elements of a list. *)
Definition lastn {A} (n : nat) (l : list A) : list A := drop (length l - n) l.

(** [_order_for_signal] *)
Definition order_for_signal (cfg : ReplayConfig) (sig : option string)
    : prog (PaperExchange F) BookError (option nat) :=
  x ← pget;
  if existsb (λ l, is_working (o_status (px_order x l))) (px_order_history x) then mret None
  else
    let held := position_quantity x in
    let decision :=
      if bool_decide (sig = Some "BUY") && (held <=.? n0) then Some (BUY, rc_order_quantity cfg)
      else if bool_decide (sig = Some "SELL") && (held >.? n0) then Some (SELL, held)
      else None in
    match decision with
    | None => mret None
    | Some (side, qty) =>
        if rc_passive cfg then
          match (match side with BUY => best_bid (px_book x) | SELL => best_ask (px_book x) end) with
          | None => mret None
          | Some price => l ← submit side qty LIMIT (Some price) None GTC None; mret (Some l)
          end
        else l ← submit side qty MARKET None None GTC None; mret (Some l)
    end.

(** Passive orders past [cancel_after_events], and those no longer working,
    leave the working set. *)
Definition age_order (cfg : ReplayConfig) (limit i : nat) (entry : string * nat) : rprog unit :=
  let '(oid, submitted_at) := entry in
  let forget := pmodify (λ s : session, s <| rs_working ::= List.filter (λ e, negb (bool_decide (e.1 = oid))) |>) in
  on_exchange pget (λ x,
    match px_by_id x !! oid with
    | Some l =>
        if is_working (o_status (px_order x l)) then
          if (limit <=? i - submitted_at)%nat
          then on_exchange (cancel_working oid) (λ _, forget)
          else mret ()
        else forget
    | None => forget
    end).

Definition age_orders (cfg : ReplayConfig) (i : nat) : rprog unit :=
  match rc_cancel_after_events cfg with
  | None => mret ()
  | Some limit => s ← pget; pfold (λ _ e, age_order cfg limit i e) () (rs_working s)
  end.

Definition observe_trade (ev : BookEvent F) (s : session) : session :=
  match ev_event_type ev with
  | TRADE =>
      let t := mkTradeEvent (ev_timestamp ev) (ev_price ev) (ev_size ev) (ev_side ev) in
      let trades := rs_recent_trades s ++ [t] in
      s <| rs_trades ::= S |>
        <| rs_recent_trades := if (100 <? length trades)%nat then lastn 100 trades else trades |>
  | _ => s
  end.

Definition record_snapshot (snap : OrderBookSnapshot F) (s : session) : session :=
  let h := rs_snapshot_history s ++ [snap] in
  s <| rs_snapshots ::= S |>
    <| rs_snapshot_history := if (500 <? length h)%nat then lastn 250 h else h |>.

(** Acting on a strategy's signal. *)
Definition act_on (cfg : ReplayConfig) (i : nat) (ev : BookEvent F) (sig : signal) : rprog unit :=
  let sig := sig <| sg_timestamp := Some (ev_timestamp ev) |> in
  pmodify (λ s, s <| rs_signals ::= S |>);;
  s ← pget;
  match rs_venue s with
  | OnBook _ => pmodify (λ s, s <| rs_signal_history ::= λ h, h ++ [sig] |>)
  | OnExchange _ =>
      on_exchange (order_for_signal cfg (sg_signal sig)) (λ placed,
        match placed with
        | None => pmodify (λ s, s <| rs_signal_history ::= λ h, h ++ [sig] |>)
        | Some l =>
            on_exchange pget (λ x,
              let o := px_order x l in
              pmodify (λ s, s
                <| rs_working ::= λ w, if rc_passive cfg then w ++ [(o_id o, i)] else w |>
                <| rs_signal_history ::= λ h, h ++ [sig <| sg_order := Some (o_id o, o_status o) |>] |>))
        end)
  end.

(** One iteration of [replay_session]. *)
Definition replay_event (cfg : ReplayConfig) (strategy_fn : option strategy) (i : nat) (ev : BookEvent F)
    : rprog unit :=
  pmodify (λ s, s <| rs_total_events ::= S |>);;
  on_exchange (exchange_event (fresh i) ev) (λ _, mret ());;
  on_plain_book (apply_market_event (fresh i) ev);;
  pmodify (observe_trade ev);;
  age_orders cfg i;;
  if bool_decide (S i mod rc_snapshot_interval cfg = 0)%nat then
    s ← pget;
    let snap := snapshot (rc_snapshot_levels cfg) (venue_book (rs_venue s)) in
    pmodify (record_snapshot snap);;
    match strategy_fn with
    | None => mret ()
    | Some f =>
        if (i <? rc_warmup_events cfg)%nat then mret ()
        else
          s ← pget;
          match f snap (rs_recent_trades s) with
          | None => mret ()
          | Some sig => act_on cfg i ev sig
          end
    end
  else mret ().

Fixpoint replay_from (cfg : ReplayConfig) (strategy_fn : option strategy) (i : nat)
    (events : list (BookEvent F)) : rprog unit :=
  match events with
  | [] => mret ()
  | ev :: events => replay_event cfg strategy_fn i ev;; replay_from cfg strategy_fn (S i) events
  end.

(** [replay_session], up to the reporting of its end. *)
Definition replay_session (cfg : ReplayConfig) (strategy_fn : option strategy) (v : venue)
    (events : list (BookEvent F)) : session * outcome BookError unit :=
  let events := match rc_max_events cfg with Some n => take n events | None => events end in
  replay_from cfg strategy_fn 0 events (mkSession v 0 0 0 0 [] [] [] []).

(** [obi_momentum_strategy] *)
Definition obi_momentum_strategy (obi_threshold : F) : strategy := λ snap recent_trades,
  match compute_order_book_imbalance snap 5 with
  | None => None
  | Some obi =>
      let rounded d x := match truthy x with Some v => Some (nround v d) | None => None end in
      if nabs obi <.? obi_threshold then None
      else Some (mkSignal (Some (if obi >.? n0 then "BUY" else "SELL"))
        [("strength", Some (nround (nabs obi) 4)); ("obi", Some (nround obi 4));
         ("microprice", rounded 4 (compute_microprice snap));
         ("spread_bps", rounded 2 (compute_spread_bps snap));
         ("trade_imbalance", (λ x, nround x 4) <$> compute_trade_imbalance recent_trades (nof_Z 30) None)]
        None None)
  end.
End replay.
