(* ===== verification/ResearchJobs.v ===== *)
(** backend/services/research_jobs.py and research_trials.py: the research job
    queue. A job's row moves between statuses only by compare-and-set
    statements; the functions below are those statements with the Python
    around them. *)

From S2P Require Import Prelude Numeric Models.
#[local] Open Scope Z_scope.

Definition QUEUED : string := "queued".
Definition RUNNING : string := "running".
Definition SUCCEEDED : string := "succeeded".
Definition FAILED : string := "failed".
Definition CANCELLED : string := "cancelled".

Definition is_active (status : string) : bool := bool_decide (status = QUEUED ∨ status = RUNNING).
Definition is_terminal (status : string) : bool :=
  bool_decide (status = SUCCEEDED ∨ status = FAILED ∨ status = CANCELLED).

Definition WORKER_ONLINE_SECONDS : Z := 30.
Definition WORKER_LOST_DETAIL : string :=
  "The research worker stopped responding while running this job.".

(** ** Job kinds *)

Record JobKind := mkJobKind {
  jk_schema : string;
  jk_target : string;
  jk_audit_action : string;
  jk_finalize : option string;
  jk_market_data : bool
}.

Definition task (f : string) : string := "backend.services.research_tasks:" +:+ f.
Definition experiment_fn (f : string) : string := "backend.services.experiment_registry:" +:+ f.

Definition KINDS : gmap string JobKind :=
  let market schema f action := mkJobKind schema (task f) action None true in
  list_to_map [
    ("ma_backtest", market "BacktestRequest" "ma_backtest" "BACKTEST_COMPLETED");
    ("advanced_backtest", market "AdvancedBacktestRequest" "advanced_backtest" "ADVANCED_BACKTEST");
    ("walk_forward", market "WalkForwardRequest" "walk_forward" "WALK_FORWARD");
    ("event_backtest", market "EventBacktestRequest" "event_backtest" "EVENT_BACKTEST");
    ("alpha", market "AlphaResearchRequest" "alpha_research" "ALPHA_RESEARCH");
    ("factor_model", market "FactorModelRequest" "factor_model" "FACTOR_MODEL");
    ("correlation", market "CorrelationRequest" "correlation" "CORRELATION_ANALYSIS");
    ("optimize", market "PortfolioOptRequest" "portfolio_optimization" "PORTFOLIO_OPT");
    ("regime", market "RegimeDetectionRequest" "regime_detection" "REGIME_DETECTION");
    ("neutral_strategy", market "NeutralStrategyRequest" "neutral_strategy" "NEUTRAL_STRATEGY");
    ("pairs_trading", market "PairsTradingRequest" "pairs_trading" "PAIRS_TRADING");
    ("latency_benchmark", market "LatencyBenchmarkRequest" "latency_benchmark" "LATENCY_BENCHMARK");
    ("report", market "ReportRequest" "research_report" "RESEARCH_REPORT");
    ("stat_test", mkJobKind "StatTestJob" (task "statistical_tests") "STAT_TEST" None false);
    ("experiment_run", mkJobKind "ExperimentJob" (task "experiment_execution") "EXPERIMENT_RUN"
       (Some (experiment_fn "finalize_run_job")) false);
    ("experiment_validate", mkJobKind "ExperimentJob" (task "experiment_execution")
       "EXPERIMENT_VALIDATED" (Some (experiment_fn "finalize_validate_job")) false);
    ("experiment_replay", mkJobKind "ExperimentJob" (task "experiment_execution")
       "EXPERIMENT_REPLAYED" (Some (experiment_fn "finalize_replay_job")) false);
    ("dataset_snapshot", mkJobKind "DatasetSnapshotRequest" (task "dataset_snapshot")
       "DATASET_SNAPSHOT" (Some "backend.services.dataset_registry:finalize_snapshot_job") false)
  ].

(** ** JSON *)

(** [_finite]: non-finite floats become null. *)
Fixpoint finite_json (v : json) : json :=
  match v with
  | JFloat x => if nfinite (F:=b64) x then v else JNull
  | JArr l => JArr (map finite_json l)
  | JObj l => JObj (map (λ kv, (kv.1, finite_json kv.2)) l)
  | _ => v
  end.

(** [json_safe], of a value that is JSON already: FastAPI's encoder leaves
    such a value as it is. *)
Definition json_safe (v : json) : json := finite_json v.

Definition json_get (key : string) (l : list (string * json)) : option json :=
  snd <$> List.find (λ kv, bool_decide (kv.1 = key)) l.

(** Python's [==] on JSON values: numbers compare by value, booleans are 0
    and 1, dicts compare by key. *)
Definition json_number (v : json) : option (Z * Z) :=
  match v with
  | JBool b => Some (if b then 1 else 0, 1)
  | JInt z => Some (z, 1)
  | JFloat x => b64_ratio x
  | _ => None
  end.

Fixpoint json_eqb (fuel : nat) (a b : json) : bool :=
  match fuel with
  | O => false
  | S k =>
      match a, b with
      | JNull, JNull => true
      | JStr x, JStr y => bool_decide (x = y)
      | JArr xs, JArr ys =>
          bool_decide (length xs = length ys) &&
          forallb (λ xy, json_eqb k xy.1 xy.2) (zip xs ys)
      | JObj xs, JObj ys =>
          bool_decide (length xs = length ys) &&
          forallb (λ kv, match json_get kv.1 ys with
                         | Some w => json_eqb k kv.2 w
                         | None => false
                         end) xs
      | _, _ =>
          match json_number a, json_number b with
          | Some (n, d), Some (m, e) => n * e =? m * d
          | _, _ => false
          end
      end
  end.

Fixpoint json_depth (v : json) : nat :=
  match v with
  | JArr l => S (list_max (map json_depth l))
  | JObj l => S (list_max (map (λ kv, json_depth kv.2) l))
  | _ => 1
  end.

Definition json_same (a b : option json) : bool :=
  let a := default JNull a in let b := default JNull b in
  json_eqb (S (json_depth a)) a b.

(** ** The tables *)

(** An audit event to be written once the job's own transaction committed. *)
Record AuditEvent := mkAuditEvent {
  ae_user_id : string;
  ae_action : string;
  ae_resource_type : string;
  ae_resource_id : option string;
  ae_metadata : json;
  ae_job_id : string
}.

(** [TaskError(status_code, detail)] *)
Record TaskError := mkTaskError { te_status_code : Z; te_detail : string }.

(** What stops a completion: a finalizer's refusal, or any other exception,
    which leaves [complete]. *)
Inductive CompletionError :=
| Refused (e : TaskError)
| KeyError (key : string)
| OtherError.

Section queue.
Context {D : Type}.   (* the other tables, which finalizers write *)

Record JobsDB := mkJobsDB {
  jd_jobs : gmap string ResearchJob;
  jd_workers : gmap string ResearchWorker;
  jd_trials : gmap (string * string * string) string;  (* user, family, config -> source *)
  jd_backtests : gmap string (string * json);
  jd_rest : D;
  jd_audit : list AuditEvent
}.
#[global] Instance eta_JobsDB : Eta JobsDB := λ d,
  mkJobsDB (jd_jobs d) (jd_workers d) (jd_trials d) (jd_backtests d) (jd_rest d) (jd_audit d).

Variable RESEARCH_JOB_MAX_ATTEMPTS : Z.
Variable RESEARCH_MAX_ACTIVE_JOBS_PER_USER : Z.

(** [UPDATE research_jobs SET f WHERE id = k AND guard]: the rowcount as a bool. *)
Definition update_job (k : string) (guard : ResearchJob → bool) (f : ResearchJob → ResearchJob)
    (d : JobsDB) : JobsDB * bool :=
  let '(jobs, rowcount) := update_row k guard f (jd_jobs d) in
  (d <| jd_jobs := jobs |>, rowcount =? 1).

(** ** API side *)

Inductive EnqueueError :=
| UnknownKind (kind : string)
| QueueFull (active limit : Z).

Definition created_earlier (a b : ResearchJob) : Prop := rj_created_at a ≤ rj_created_at b.
#[global] Instance created_earlier_dec a b : Decision (created_earlier a b).
Proof. unfold created_earlier. apply _. Defined.

Definition active_jobs (d : JobsDB) (user_id : string) : list ResearchJob :=
  filter (λ j, rj_user_id j = user_id ∧ is_active (rj_status j) = true) (rows (jd_jobs d)).

(** [enqueue]. The process lock and the user-row lock order it against every
    other [enqueue] of the user; [id] and [now] are the new row's defaults. *)
Definition enqueue (d : JobsDB) (user_id kind : string) (params : list (string * json))
    (same_as : list string) (id : string) (now : Z) : JobsDB * outcome EnqueueError ResearchJob :=
  match KINDS !! kind with
  | None => (d, Raise (UnknownKind kind))
  | Some _ =>
      let params := map (λ kv, (kv.1, finite_json kv.2)) params in
      let existing :=
        match same_as with
        | [] => None
        | _ =>
            List.find (λ j, forallb (λ f, json_same (json_get f (rj_params_json j)) (json_get f params))
                              same_as)
              (merge_sort created_earlier
                 (filter (λ j, rj_kind j = kind) (active_jobs d user_id)))
        end in
      match existing with
      | Some job => (d, Ret job)
      | None =>
          let active := Z.of_nat (length (active_jobs d user_id)) in
          if RESEARCH_MAX_ACTIVE_JOBS_PER_USER <=? active
          then (d, Raise (QueueFull active RESEARCH_MAX_ACTIVE_JOBS_PER_USER))
          else
            let job := mkResearchJob id user_id kind params QUEUED false 0 RESEARCH_JOB_MAX_ATTEMPTS
                         None None now None None None None None in
            (d <| jd_jobs ::= <[id := job]> |>, Ret job)
      end
  end.

(** [get_for_user] *)
Definition get_for_user (d : JobsDB) (user_id job_id : string) : option ResearchJob :=
  match jd_jobs d !! job_id with
  | Some job => if bool_decide (rj_user_id job = user_id) then Some job else None
  | None => None
  end.

(** [list_for_user]: newest first. *)
Definition created_later (a b : ResearchJob) : Prop := rj_created_at b ≤ rj_created_at a.
#[global] Instance created_later_dec a b : Decision (created_later a b).
Proof. unfold created_later. apply _. Defined.

Definition list_for_user (d : JobsDB) (user_id : string) (limit : nat) : list ResearchJob :=
  take limit (merge_sort created_later (filter (λ j, rj_user_id j = user_id) (rows (jd_jobs d)))).

(** [request_cancel]. [others] is what workers committed between the read of
    the job and the update. *)
Definition request_cancel (others : JobsDB → JobsDB) (d : JobsDB) (user_id job_id : string)
    (now : Z) : JobsDB * option ResearchJob :=
  match get_for_user d user_id job_id with
  | None => (d, None)
  | Some job =>
      let d := others d in
      let '(d, done_) :=
        if bool_decide (rj_status job = QUEUED) then
          update_job job_id (λ j, bool_decide (rj_status j = QUEUED))
            (λ j, j <| rj_status := CANCELLED |> <| rj_finished_at := Some now |>) d
        else (d, false) in
      if done_ then (d, jd_jobs d !! job_id)
      else
        let status := if bool_decide (rj_status job = QUEUED)
                      then default (rj_status job) (rj_status <$> jd_jobs d !! job_id)
                      else rj_status job in
        if bool_decide (status = RUNNING) then
          let '(d, _) := update_job job_id (λ j, bool_decide (rj_status j = RUNNING))
                           (λ j, j <| rj_cancel_requested := true |>) d in
          (d, jd_jobs d !! job_id)
        else (d, jd_jobs d !! job_id)
  end.

(** [workers_online] *)
Definition workers_online (d : JobsDB) (now : Z) : Z :=
  Z.of_nat (length (filter (λ w, now - seconds WORKER_ONLINE_SECONDS ≤ rw_last_seen_at w)
                      (rows (jd_workers d)))).

(** [view]: the job as the API reports it. *)
Record job_view := mkJobView {
  jv_job_id : string;
  jv_kind : string;
  jv_status : string;
  jv_cancel_requested : bool;
  jv_attempts : Z;
  jv_created_at : Z;
  jv_started_at : option Z;
  jv_finished_at : option Z;
  jv_poll_url : string;
  jv_workers_online : option Z;
  jv_queue_position : option Z;
  jv_error : option (Z * string);
  jv_result : option (option json)
}.

Definition view (d : JobsDB) (job : ResearchJob) (include_result : bool) (now : Z) : job_view :=
  mkJobView (rj_id job) (rj_kind job) (rj_status job) (rj_cancel_requested job) (rj_attempts job)
    (rj_created_at job) (rj_started_at job) (rj_finished_at job)
    ("/api/research/jobs/" +:+ rj_id job)
    (if is_active (rj_status job) then Some (workers_online d now) else None)
    (if bool_decide (rj_status job = QUEUED) then
       Some (1 + Z.of_nat (length (filter (λ j, rj_status j = QUEUED ∧ rj_created_at j < rj_created_at job)
                                     (rows (jd_jobs d)))))
     else None)
    (if bool_decide (rj_status job = FAILED) then
       Some (match rj_error_status job with
             | Some c => if c =? 0 then 500 else c
             | None => 500
             end,
             match rj_error_detail job with
             | Some s => if bool_decide (s = "") then "Research job failed" else s
             | None => "Research job failed"
             end)
     else None)
    (if bool_decide (rj_status job = SUCCEEDED) && include_result
     then Some (rj_result_json job) else None).

(** [queue_stats]: the counts, the age in seconds of the oldest queued job
    (the code rounds it to a tenth) and the workers online. *)
Definition with_status (d : JobsDB) (status : string) : list ResearchJob :=
  filter (λ j, rj_status j = status) (rows (jd_jobs d)).

Definition oldest_created (l : list ResearchJob) : option Z :=
  foldl (λ acc j, Some match acc with
                       | Some t => Z.min t (rj_created_at j)
                       | None => rj_created_at j
                       end) None l.

Record queue_counts := mkQueueCounts {
  qs_queued : Z;
  qs_running : Z;
  qs_oldest_queued_micros : option Z;
  qs_workers_online : Z
}.

Definition queue_stats (d : JobsDB) (now : Z) : queue_counts :=
  mkQueueCounts (Z.of_nat (length (with_status d QUEUED))) (Z.of_nat (length (with_status d RUNNING)))
    ((λ t, now - t) <$> oldest_created (with_status d QUEUED)) (workers_online d now).

(** ** Worker side *)

(** [claim_next]: up to five attempts; [others i] is what other workers
    committed between the read and the update of the [i]-th attempt. *)
Definition oldest_queued (d : JobsDB) : option ResearchJob :=
  head (merge_sort created_earlier (filter (λ j, rj_status j = QUEUED) (rows (jd_jobs d)))).

Fixpoint claim_loop (attempts : nat) (others : nat → JobsDB → JobsDB) (d : JobsDB)
    (worker_id : string) (lease_seconds now : Z) : JobsDB * option ResearchJob :=
  match attempts with
  | O => (d, None)
  | S n =>
      match oldest_queued d with
      | None => (d, None)
      | Some job =>
          let '(d, claimed) :=
            update_job (rj_id job) (λ j, bool_decide (rj_status j = QUEUED))
              (λ j, j <| rj_status := RUNNING |> <| rj_worker_id := Some worker_id |>
                      <| rj_attempts := rj_attempts j + 1 |> <| rj_started_at := Some now |>
                      <| rj_lease_expires_at := Some (now + seconds lease_seconds) |>)
              (others n d) in
          if claimed then (d, jd_jobs d !! rj_id job)
          else claim_loop n others d worker_id lease_seconds now
      end
  end.

Definition claim_next := claim_loop 5.

(** [_owned]: the row is still this worker's attempt. *)
Definition owned (worker_id : string) (attempt : Z) (j : ResearchJob) : bool :=
  bool_decide (rj_worker_id j = Some worker_id) && (rj_attempts j =? attempt)
  && bool_decide (rj_status j = RUNNING).

(** [cancel_requested] *)
Definition cancel_requested (d : JobsDB) (job_id : string) : bool :=
  match jd_jobs d !! job_id with
  | Some j => rj_cancel_requested j
  | None => false
  end.

Inductive lease_state := LeaseOk | LeaseCancel | LeaseLost.

(** [renew_lease] *)
Definition renew_lease (d : JobsDB) (job_id worker_id : string) (attempt lease_seconds now : Z)
    : JobsDB * lease_state :=
  let '(d, renewed) :=
    update_job job_id (owned worker_id attempt)
      (λ j, j <| rj_lease_expires_at := Some (now + seconds lease_seconds) |>) d in
  (d, if negb renewed then LeaseLost
      else if cancel_requested d job_id then LeaseCancel else LeaseOk).

(** [_finish] *)
Definition finish (d : JobsDB) (job_id worker_id : string) (attempt now : Z)
    (values : ResearchJob → ResearchJob) : JobsDB * bool :=
  update_job job_id (owned worker_id attempt)
    (λ j, values (j <| rj_finished_at := Some now |> <| rj_lease_expires_at := None |>)) d.

(** [fail] *)
Definition fail (d : JobsDB) (job_id worker_id : string) (attempt now status_code : Z)
    (detail : string) : JobsDB * bool :=
  finish d job_id worker_id attempt now
    (λ j, j <| rj_status := FAILED |> <| rj_error_status := Some status_code |>
            <| rj_error_detail := Some (String.substring 0 2000 detail) |>).

(** [mark_cancelled] *)
Definition mark_cancelled (d : JobsDB) (job_id worker_id : string) (attempt now : Z)
    : JobsDB * bool :=
  finish d job_id worker_id attempt now (λ j, j <| rj_status := CANCELLED |>).

(** [release] *)
Definition release (d : JobsDB) (job_id worker_id : string) (attempt : Z) : JobsDB * bool :=
  update_job job_id (owned worker_id attempt)
    (λ j, j <| rj_status := QUEUED |> <| rj_worker_id := None |> <| rj_lease_expires_at := None |>
            <| rj_attempts := rj_attempts j - 1 |>) d.

(** [lease_expires_at < now], false for NULL. *)
Definition lapsed (now : Z) (j : ResearchJob) : bool :=
  match rj_lease_expires_at j with Some t => t <? now | None => false end.

(** One iteration of [reap_expired], for a job read at the start. *)
Definition reap_job (now : Z) (acc : JobsDB * Z) (job : ResearchJob) : JobsDB * Z :=
  let '(d, reaped) := acc in
  let stale j :=
    bool_decide (rj_status j = RUNNING) && bool_decide (is_Some (rj_worker_id j))
    && bool_decide (rj_worker_id j = rj_worker_id job)
    && (rj_attempts j =? rj_attempts job) && lapsed now j in
  let values j :=
    if rj_cancel_requested job then
      j <| rj_status := CANCELLED |> <| rj_finished_at := Some now |> <| rj_lease_expires_at := None |>
    else if rj_attempts job <? rj_max_attempts job then
      j <| rj_status := QUEUED |> <| rj_worker_id := None |> <| rj_lease_expires_at := None |>
    else
      j <| rj_status := FAILED |> <| rj_finished_at := Some now |> <| rj_lease_expires_at := None |>
        <| rj_error_status := Some 500 |> <| rj_error_detail := Some WORKER_LOST_DETAIL |> in
  let '(d, hit) := update_job (rj_id job) stale values d in
  (d, if hit then reaped + 1 else reaped).

Definition expired_jobs (d : JobsDB) (now : Z) : list ResearchJob :=
  filter (λ j, rj_status j = RUNNING ∧ lapsed now j = true) (rows (jd_jobs d)).

(** [reap_expired]; [others] as for [request_cancel]. *)
Definition reap_expired (others : JobsDB → JobsDB) (d : JobsDB) (now : Z) : JobsDB * Z :=
  foldl (reap_job now) (others d, 0) (expired_jobs d now).

(** [heartbeat_worker] *)
Definition heartbeat_worker (d : JobsDB) (worker_id hostname : string) (pid : Z)
    (current_job_id : option string) (now : Z) : JobsDB :=
  let '(workers, touched) :=
    update_row worker_id (λ _, true)
      (λ w, w <| rw_last_seen_at := now |> <| rw_current_job_id := current_job_id |>)
      (jd_workers d) in
  if touched =? 0 then
    d <| jd_workers := <[worker_id := mkResearchWorker (String.substring 0 255 hostname) pid now now
                                        current_job_id]> workers |>
  else d <| jd_workers := workers |>.

(** [remove_worker] *)
Definition remove_worker (d : JobsDB) (worker_id : string) : JobsDB :=
  d <| jd_workers ::= delete worker_id |>.

Definition days (n : Z) : Z := seconds (n * 86400).

(** [purge_finished] *)
Definition purgeable (retention_days now : Z) (j : ResearchJob) : bool :=
  is_terminal (rj_status j)
  && match rj_finished_at j with Some t => t <? now - days retention_days | None => false end.

Definition purge_finished (d : JobsDB) (retention_days now : Z) : JobsDB * Z :=
  (d <| jd_jobs := filter (λ kv : string * ResearchJob, negb (purgeable retention_days now kv.2) = true)
                     (jd_jobs d) |>
     <| jd_workers := filter (λ kv : string * ResearchWorker, now - days 1 ≤ rw_last_seen_at kv.2)
                        (jd_workers d) |>,
   Z.of_nat (length (filter (λ j, purgeable retention_days now j = true) (rows (jd_jobs d))))).

(** *** Completion *)

(** research_trials.record and count: [digest] is the SHA-256 of a config's
    canonical JSON. *)
Variable digest : json → string.

Definition trial_count (d : JobsDB) (user_id family : string) : Z :=
  Z.of_nat (length (filter (λ k : string * string * string, k.1 = (user_id, family))
                      ((map_to_list (jd_trials d)).*1))).

Definition record_trials (d : JobsDB) (user_id family : string) (configs : list json)
    (source : string) : JobsDB * Z :=
  let hashes := remove_dups (map digest configs) in
  let d := d <| jd_trials ::= λ m,
    foldl (λ m h, match m !! (user_id, family, h) with
                  | Some _ => m
                  | None => <[(user_id, family, h) := source]> m
                  end) m hashes |> in
  (d, trial_count d user_id family).

Record trials_arg := mkTrials { ta_family : string; ta_configs : list json; ta_source : string }.

(** What a finalizer and [record_market_data] do to the other tables and to
    the result: the components that own them are parameters here. *)
Variable run_finalizer : string → D → ResearchJob → json → json →
  D * outcome CompletionError (json * (string * option string) * json).
Variable record_market_data : D → ResearchJob → json → json → D * outcome CompletionError (json * json).

(** [result["k"] = v] *)
Definition json_set (key : string) (v : json) (l : list (string * json)) : list (string * json) :=
  if existsb (λ kv, bool_decide (kv.1 = key)) l
  then map (λ kv, if bool_decide (kv.1 = key) then (key, v) else kv) l
  else l ++ [(key, v)].

(** The keys the row of a dashboard backtest is built from. *)
Definition backtest_fields : list string :=
  ["initial_capital"; "final_capital"; "sharpe_ratio"; "max_drawdown"; "win_rate"; "total_trades"].

Definition json_fields (v : json) : list (string * json) :=
  match v with JObj l => l | _ => [] end.

Definition missing_field (l : list (string * json)) : option string :=
  List.find (λ f, negb (bool_decide (is_Some (json_get f l)))) backtest_fields.

(** The writes of a completion before [_finish]: result, resource and audit. *)
Definition completion_writes (d : JobsDB) (job : ResearchJob) (kind : JobKind)
    (result : list (string * json)) (audit : json) (record_id : string)
    : JobsDB * outcome CompletionError (json * (string * option string) * json) :=
  let '(rest, market) :=
    if jk_market_data kind then record_market_data (jd_rest d) job (JObj result) audit
    else (jd_rest d, Ret (JObj result, audit)) in
  let d := d <| jd_rest := rest |> in
  match market with
  | Raise e => (d, Raise e)
  | Ret (result, audit) =>
      let '(rest, final) :=
        match jk_finalize kind with
        | Some f => run_finalizer f (jd_rest d) job result audit
        | None => (jd_rest d, Ret (result, ("research", None), audit))
        end in
      let d := d <| jd_rest := rest |> in
      match final with
      | Raise e => (d, Raise e)
      | Ret (result, resource, audit) =>
          if bool_decide (rj_kind job = "ma_backtest") then
            let result := json_safe result in
            let fields := json_fields result in
            match missing_field fields with
            | Some key => (d, Raise (KeyError key))
            | None =>
                (d <| jd_backtests ::= <[record_id := (rj_user_id job, result)]> |>,
                 Ret (JObj (("id", JStr record_id)
                            :: List.filter (λ kv, negb (bool_decide (kv.1 = "id"))) fields),
                      ("backtest", Some record_id), audit))
            end
          else (d, Ret (result, resource, audit))
      end
  end.

(** [complete]: [record_id] is the key of the backtest row it may add, and
    [job] the worker's copy of the row. *)
Definition complete (d : JobsDB) (job : ResearchJob) (worker_id : string) (attempt : Z)
    (result : list (string * json)) (audit : json) (trials : option trials_arg)
    (record_id : string) (now : Z) : JobsDB * outcome CompletionError bool :=
  match KINDS !! rj_kind job with
  | None => (d, Raise (KeyError (rj_kind job)))
  | Some kind =>
      (* research_trials.record commits by itself *)
      let '(d, result) :=
        match trials with
        | Some t =>
            let '(d, n) := record_trials d (rj_user_id job) (ta_family t) (ta_configs t) (ta_source t) in
            (d, json_set "trials_in_family" (JInt n) (json_set "trial_family" (JStr (ta_family t)) result))
        | None => (d, result)
        end in
      let '(d', outcome) := completion_writes d job kind result audit record_id in
      match outcome with
      | Raise (Refused e) =>
          let '(d, done_) := fail d (rj_id job) worker_id attempt now (te_status_code e) (te_detail e) in
          (d, Ret done_)
      | Raise e => (d, Raise e)
      | Ret (result, (resource_type, resource_id), audit) =>
          let '(d', done_) :=
            finish d' (rj_id job) worker_id attempt now
              (λ j, j <| rj_status := SUCCEEDED |> <| rj_result_json := Some (json_safe result) |>) in
          if done_ then
            (d' <| jd_audit ::= λ l, l ++ [mkAuditEvent (rj_user_id job) (jk_audit_action kind)
                                            resource_type resource_id (json_safe audit) (rj_id job)] |>,
             Ret true)
          else (d, Ret false)
      end
  end.
End queue.
Arguments JobsDB D : clear implicits.
