(* ===== verification/ResearchJobsFacts.v ===== *)
(** Facts about the research job queue: every sequence of the queue's
    operations, with other workers' operations between a read and the write
    that depends on it, follows the state diagram of research_jobs.py. *)

From S2P Require Import Prelude Numeric Models ResearchJobs.
#[local] Open Scope Z_scope.

Create HintDb queue.
#[export] Hint Resolve rtc_refl : queue.

(** Counting rows is summing an indicator. *)
Definition indicator {V} (P : V → Prop) `{∀ v, Decision (P v)} (v : V) : Z :=
  if decide (P v) then 1 else 0.

Lemma rows_insert {V} (m : gmap string V) k v :
  m !! k = None → rows (<[k := v]> m) ≡ₚ v :: rows m.
Proof. intros. unfold rows. by rewrite map_to_list_insert. Qed.

Lemma count_rows {V} (P : V → Prop) `{∀ v, Decision (P v)} (m : gmap string V) :
  Z.of_nat (length (filter P (rows m))) = map_sum (indicator P) m.
Proof.
  induction m as [|k v m Hk IH] using map_ind; [done|].
  rewrite rows_insert, map_sum_insert_new by done. rewrite filter_cons.
  unfold indicator at 1. destruct (decide (P v)); cbn [length]; lia.
Qed.

Lemma map_sum_filter_le {V} (f : V → Z) (P : string * V → Prop) `{∀ kv, Decision (P kv)} (m : gmap string V) :
  (∀ v, 0 ≤ f v) → map_sum f (filter P m) ≤ map_sum f m.
Proof.
  intros Hf. induction m as [|k v m Hk IH] using map_ind; [done|].
  rewrite map_sum_insert_new by done. specialize (Hf v). destruct (decide (P (k, v))) as [HP|HP].
  - rewrite map_filter_insert_True, map_sum_insert_new by (done || by apply map_lookup_filter_None_2; left).
    lia.
  - rewrite map_filter_insert_False, delete_id by done. lia.
Qed.

Section facts.
Context {D : Type}.
Variables (max_attempts max_active : Z).
Variable digest : json → string.
Variable run_finalizer : string → D → ResearchJob → json → json →
  D * outcome CompletionError (json * (string * option string) * json).
Variable record_market_data : D → ResearchJob → json → json → D * outcome CompletionError (json * json).
Implicit Types (d : JobsDB D) (j : ResearchJob).

(** ** The state diagram *)

Inductive transition (claimers : string → Prop) : ResearchJob → ResearchJob → Prop :=
| t_claim j w now lease :
    rj_status j = QUEUED → claimers w →
    transition claimers j
      (j <| rj_status := RUNNING |> <| rj_worker_id := Some w |> <| rj_attempts := rj_attempts j + 1 |>
         <| rj_started_at := Some now |> <| rj_lease_expires_at := Some lease |>)
| t_renew j lease :
    rj_status j = RUNNING → transition claimers j (j <| rj_lease_expires_at := Some lease |>)
| t_succeed j now result :
    rj_status j = RUNNING →
    transition claimers j (j <| rj_finished_at := Some now |> <| rj_lease_expires_at := None |>
                             <| rj_status := SUCCEEDED |> <| rj_result_json := Some result |>)
| t_fail j now code detail :
    rj_status j = RUNNING →
    transition claimers j (j <| rj_finished_at := Some now |> <| rj_lease_expires_at := None |>
                             <| rj_status := FAILED |> <| rj_error_status := Some code |>
                             <| rj_error_detail := Some detail |>)
| t_cancel_queued j now :
    rj_status j = QUEUED →
    transition claimers j (j <| rj_status := CANCELLED |> <| rj_finished_at := Some now |>)
| t_cancel j now :
    rj_status j = RUNNING →
    transition claimers j (j <| rj_finished_at := Some now |> <| rj_lease_expires_at := None |>
                             <| rj_status := CANCELLED |>)
| t_ask_cancel j :
    rj_status j = RUNNING → transition claimers j (j <| rj_cancel_requested := true |>)
| t_release j :
    rj_status j = RUNNING →
    transition claimers j (j <| rj_status := QUEUED |> <| rj_worker_id := None |>
                             <| rj_lease_expires_at := None |> <| rj_attempts := rj_attempts j - 1 |>)
| t_requeue j :
    rj_status j = RUNNING → rj_attempts j < max_attempts →
    transition claimers j (j <| rj_status := QUEUED |> <| rj_worker_id := None |>
                             <| rj_lease_expires_at := None |>).

Definition new_job (k : string) (j : ResearchJob) : Prop :=
  ∃ user kind params now,
    j = mkResearchJob k user kind params QUEUED false 0 max_attempts None None now None None None None None.

(** One committed transaction of some process, as far as the jobs go. *)
Inductive job_step (claimers inserted : string → Prop) : JobsDB D → JobsDB D → Prop :=
| step_row d d' k j j' :
    jd_jobs d !! k = Some j → transition claimers j j' → jd_jobs d' = <[k := j']> (jd_jobs d) →
    job_step claimers inserted d d'
| step_new d d' k j :
    jd_jobs d !! k = None → inserted k → new_job k j →
    Z.of_nat (length (active_jobs d (rj_user_id j))) < max_active →
    jd_jobs d' = <[k := j]> (jd_jobs d) →
    job_step claimers inserted d d'
| step_purge d d' (gone : ResearchJob → bool) :
    (∀ j, gone j = true → is_terminal (rj_status j) = true) →
    jd_jobs d' = filter (λ kv : string * ResearchJob, negb (gone kv.2) = true) (jd_jobs d) →
    job_step claimers inserted d d'
| step_other d d' : jd_jobs d' = jd_jobs d → job_step claimers inserted d d'.

(** ** What every row satisfies *)

Inductive status_ok (j : ResearchJob) : Prop :=
| queued_ok :
    rj_status j = QUEUED → rj_worker_id j = None → rj_lease_expires_at j = None →
    rj_finished_at j = None → 0 ≤ rj_attempts j < max_attempts →
    rj_result_json j = None → rj_error_status j = None → status_ok j
| running_ok w lease started :
    rj_status j = RUNNING → rj_worker_id j = Some w → rj_lease_expires_at j = Some lease →
    rj_started_at j = Some started → rj_finished_at j = None → 1 ≤ rj_attempts j ≤ max_attempts →
    rj_result_json j = None → rj_error_status j = None → status_ok j
| succeeded_ok finished result :
    rj_status j = SUCCEEDED → rj_lease_expires_at j = None → rj_finished_at j = Some finished →
    1 ≤ rj_attempts j ≤ max_attempts →
    rj_result_json j = Some result → rj_error_status j = None → status_ok j
| failed_ok finished code :
    rj_status j = FAILED → rj_lease_expires_at j = None → rj_finished_at j = Some finished →
    1 ≤ rj_attempts j ≤ max_attempts →
    rj_result_json j = None → rj_error_status j = Some code → status_ok j
| cancelled_ok finished :
    rj_status j = CANCELLED → rj_lease_expires_at j = None → rj_finished_at j = Some finished →
    0 ≤ rj_attempts j ≤ max_attempts →
    rj_result_json j = None → rj_error_status j = None → status_ok j.

Record job_ok (k : string) (j : ResearchJob) : Prop := mkJobOk {
  ok_id : rj_id j = k;
  ok_max : rj_max_attempts j = max_attempts;
  ok_status : status_ok j
}.

Definition jobs_ok (d : JobsDB D) : Prop :=
  map_Forall job_ok (jd_jobs d) ∧
  ∀ user, Z.of_nat (length (active_jobs d user)) ≤ Z.max 0 max_active.

Lemma is_active_cases s : is_active s = true ↔ s = QUEUED ∨ s = RUNNING.
Proof. unfold is_active. apply bool_decide_eq_true. Qed.

Lemma is_terminal_cases s : is_terminal s = true ↔ s = SUCCEEDED ∨ s = FAILED ∨ s = CANCELLED.
Proof. unfold is_terminal. apply bool_decide_eq_true. Qed.

(** Discard the cases where a row would have two statuses. *)
Ltac statuses :=
  repeat match goal with
  | H : is_active _ = true |- _ => apply is_active_cases in H
  | H : is_terminal _ = true |- _ => apply is_terminal_cases in H
  | H : rj_status _ = _ ∨ _ |- _ => destruct H
  end;
  try solve [exfalso; match goal with
    | H : rj_status ?j = _, H' : rj_status ?j = _ |- _ => rewrite H in H'; discriminate H'
    end].

Ltac status_row :=
  let row c := solve [eapply c; cbn [set_field rj_status rj_worker_id rj_lease_expires_at rj_started_at rj_finished_at
    rj_attempts rj_result_json rj_error_status]; first [reflexivity | eassumption | lia]] in
  first [row queued_ok | row running_ok | row succeeded_ok | row failed_ok | row cancelled_ok].

Lemma transition_ok C k j j' : transition C j j' → job_ok k j → job_ok k j'.
Proof.
  intros Ht [Hid Hmax Hok]. split; [by destruct Ht..|].
  destruct Ht, Hok; statuses; status_row.
Qed.

Lemma transition_keeps C j j' :
  transition C j j' →
  rj_id j' = rj_id j ∧ rj_user_id j' = rj_user_id j ∧ rj_kind j' = rj_kind j ∧
  rj_params_json j' = rj_params_json j ∧ rj_created_at j' = rj_created_at j ∧
  is_active (rj_status j) = true ∧
  (rj_cancel_requested j = true → rj_cancel_requested j' = true).
Proof.
  intros Ht. destruct Ht; split_and!; cbn; try done.
  all: rewrite is_active_cases; auto.
Qed.

Definition active_of (user : string) (j : ResearchJob) : Prop :=
  rj_user_id j = user ∧ is_active (rj_status j) = true.
#[local] Instance active_of_dec user j : Decision (active_of user j).
Proof. unfold active_of. apply _. Defined.

Lemma active_count d user :
  Z.of_nat (length (active_jobs d user)) = map_sum (indicator (active_of user)) (jd_jobs d).
Proof.
  rewrite <-(count_rows (active_of user)). unfold active_jobs. by f_equal.
Qed.

Lemma indicator_bounds {V} (P : V → Prop) `{∀ v, Decision (P v)} v : 0 ≤ indicator P v ≤ 1.
Proof. unfold indicator. case_decide; lia. Qed.

Lemma indicator_le {V} (P : V → Prop) `{∀ v, Decision (P v)} v w :
  (P v → P w) → indicator P v ≤ indicator P w.
Proof. unfold indicator. intros. repeat case_decide; tauto || lia. Qed.

Lemma job_step_ok C I d d' : 0 < max_attempts → job_step C I d d' → jobs_ok d → jobs_ok d'.
Proof.
  intros HM Hs [Hrows Hact]. split.
  - destruct Hs as [d d' k j j' Hk Ht ->|d d' k j Hk _ (user & kind & params & now & ->) _ ->|
                    d d' gone Hg ->|d d' ->]; [| | |done].
    + apply map_Forall_insert_2; [|done]. eapply transition_ok; [done|by apply Hrows].
    + apply map_Forall_insert_2; [|done]. split; [done..|]. status_row.
    + intros k j [Hk _]%map_lookup_filter_Some. by apply Hrows.
  - intros user. specialize (Hact user). rewrite active_count in *.
    destruct Hs as [d d' k j j' Hk Ht ->|d d' k j Hk _ _ Hlim ->|d d' gone Hg ->|d d' ->]; [| | |done].
    + rewrite (map_sum_insert_old _ k j) by done.
      apply transition_keeps in Ht as (_ & Hu & _ & _ & _ & Ha & _).
      assert (indicator (active_of user) j' ≤ indicator (active_of user) j); [|lia].
      apply indicator_le. intros [<- _]. by split.
    + rewrite map_sum_insert_new by done. rewrite active_count in Hlim.
      pose proof (indicator_bounds (active_of user) j).
      unfold indicator at 1. case_decide as Hj; [|lia]. destruct Hj as [<- _]. lia.
    + pose proof (map_sum_filter_le (indicator (active_of user))
        (λ kv : string * ResearchJob, negb (gone kv.2) = true) (jd_jobs d)
        ltac:(intros; apply indicator_bounds)). lia.
Qed.

Lemma job_steps_ok C I d d' : 0 < max_attempts → rtc (job_step C I) d d' → jobs_ok d → jobs_ok d'.
Proof. intros HM. induction 1; eauto using job_step_ok. Qed.

(** ** Operations

    A history is a list of operations of any number of API processes and
    workers, each with its own clock. The operations whose reads and writes
    are separate statements carry what others do in between. *)

Inductive queue_op :=
| OpEnqueue (user_id kind : string) (params : list (string * json)) (same_as : list string)
    (id : string) (now : Z)
| OpRequestCancel (others : list queue_op) (user_id job_id : string) (now : Z)
| OpClaim (others : nat → list queue_op) (worker_id : string) (lease_seconds now : Z)
| OpRenew (job_id worker_id : string) (attempt lease_seconds now : Z)
| OpComplete (job : ResearchJob) (worker_id : string) (attempt : Z) (result : list (string * json))
    (audit : json) (trials : option trials_arg) (record_id : string) (now : Z)
| OpFail (job_id worker_id : string) (attempt now status_code : Z) (detail : string)
| OpMarkCancelled (job_id worker_id : string) (attempt now : Z)
| OpRelease (job_id worker_id : string) (attempt : Z)
| OpReap (others : list queue_op) (now : Z)
| OpHeartbeat (worker_id hostname : string) (pid : Z) (current : option string) (now : Z)
| OpRemoveWorker (worker_id : string)
| OpPurge (retention_days now : Z).

Fixpoint run_op (d : JobsDB D) (o : queue_op) {struct o} : JobsDB D :=
  match o with
  | OpEnqueue user_id kind params same_as id now =>
      match jd_jobs d !! id with
      | Some _ => d   (* ids are fresh: an insert under a used key is an IntegrityError *)
      | None => (enqueue max_attempts max_active d user_id kind params same_as id now).1
      end
  | OpRequestCancel others user_id job_id now =>
      (request_cancel (λ d, foldl run_op d others) d user_id job_id now).1
  | OpClaim others worker_id lease_seconds now =>
      (claim_next (λ n d, foldl run_op d (others n)) d worker_id lease_seconds now).1
  | OpRenew job_id worker_id attempt lease_seconds now =>
      (renew_lease d job_id worker_id attempt lease_seconds now).1
  | OpComplete job worker_id attempt result audit trials record_id now =>
      (complete digest run_finalizer record_market_data d job worker_id attempt result audit trials
         record_id now).1
  | OpFail job_id worker_id attempt now status_code detail =>
      (fail d job_id worker_id attempt now status_code detail).1
  | OpMarkCancelled job_id worker_id attempt now =>
      (mark_cancelled d job_id worker_id attempt now).1
  | OpRelease job_id worker_id attempt => (release d job_id worker_id attempt).1
  | OpReap others now => (reap_expired (λ d, foldl run_op d others) d now).1
  | OpHeartbeat worker_id hostname pid current now => heartbeat_worker d worker_id hostname pid current now
  | OpRemoveWorker worker_id => remove_worker d worker_id
  | OpPurge retention_days now => (purge_finished d retention_days now).1
  end.

Definition run_history (d : JobsDB D) (h : list queue_op) : JobsDB D := foldl run_op d h.

(** The claims and insertions an operation, or one nested in it, may make. *)
Inductive permitted (claimers inserted : string → Prop) : queue_op → Prop :=
| ok_enqueue u k p s id now : inserted id → permitted claimers inserted (OpEnqueue u k p s id now)
| ok_cancel others u jid now :
    (∀ o, o ∈ others → permitted claimers inserted o) →
    permitted claimers inserted (OpRequestCancel others u jid now)
| ok_claim others w l now :
    claimers w → (∀ n o, o ∈ others n → permitted claimers inserted o) →
    permitted claimers inserted (OpClaim others w l now)
| ok_renew jid w a l now : permitted claimers inserted (OpRenew jid w a l now)
| ok_complete j w a r au t rid now : permitted claimers inserted (OpComplete j w a r au t rid now)
| ok_fail jid w a now c s : permitted claimers inserted (OpFail jid w a now c s)
| ok_mark jid w a now : permitted claimers inserted (OpMarkCancelled jid w a now)
| ok_release jid w a : permitted claimers inserted (OpRelease jid w a)
| ok_reap others now :
    (∀ o, o ∈ others → permitted claimers inserted o) → permitted claimers inserted (OpReap others now)
| ok_heartbeat w h p c now : permitted claimers inserted (OpHeartbeat w h p c now)
| ok_remove w : permitted claimers inserted (OpRemoveWorker w)
| ok_purge r now : permitted claimers inserted (OpPurge r now).

(** An [UPDATE] whose guard admits only transitions is a step. *)
Lemma update_job_step C I k guard f d :
  (∀ j, jd_jobs d !! k = Some j → guard j = true → transition C j (f j)) →
  job_step C I d (update_job k guard f d).1.
Proof.
  intros Hf. unfold update_job.
  destruct (update_row_cases k guard f (jd_jobs d)) as [(j & Hk & Hg & ->)| ->]; cbn.
  - eapply step_row; [done|by apply Hf|done].
  - by apply step_other.
Qed.

Lemma owned_running w a j : owned w a j = true → rj_status j = RUNNING.
Proof. unfold owned. intros. by bsimpl. Qed.

Lemma finish_step C I d id w a now f :
  (∀ j, rj_status j = RUNNING →
     transition C j (f (j <| rj_finished_at := Some now |> <| rj_lease_expires_at := None |>))) →
  job_step C I d (finish d id w a now f).1.
Proof. intros Hf. apply update_job_step. intros j _ Hj%owned_running. by apply Hf. Qed.

Lemma fail_step C I d id w a now code detail : job_step C I d (fail d id w a now code detail).1.
Proof. apply finish_step. intros. by apply t_fail. Qed.

Lemma renew_step C I d id w a l now : job_step C I d (renew_lease d id w a l now).1.
Proof.
  unfold renew_lease. pose proof (update_job_step C I id (owned w a)
    (λ j, j <| rj_lease_expires_at := Some (now + seconds l) |>) d) as Hs.
  destruct (update_job _ _ _ _) as [d' renewed]. apply Hs.
  intros j _ Hj%owned_running. by apply t_renew.
Qed.

Lemma completion_writes_jobs d j k r au rid :
  jd_jobs (completion_writes run_finalizer record_market_data d j k r au rid).1 = jd_jobs d.
Proof. unfold completion_writes. repeat (dmatch; cbn; try done). Qed.

Lemma record_trials_jobs d u f cs src : jd_jobs (record_trials digest d u f cs src).1 = jd_jobs d.
Proof. done. Qed.

Lemma permitted_any o : permitted (λ _, True) (λ _, True) o.
Proof.
  revert o. fix IH 1. intros o.
  let each l := (induction l as [|o' l' IHl];
    [intros ? Ho; destruct (not_elem_of_nil _ Ho)
    |intros ? [->|Ho]%elem_of_cons; [apply IH|exact (IHl _ Ho)]]) in
  destruct o as [| others | others | | | | | | others | | |]; constructor; try exact Logic.I;
    [each others|intros n; each (others n)|each others].
Qed.

Section steps.
Variables C I : string → Prop.
#[local] Abbreviation steps := (rtc (job_step C I)).
Hypothesis max_positive : 0 < max_attempts.

Lemma step_once d d' : job_step C I d d' → steps d d'.
Proof. apply rtc_once. Qed.

Lemma same_jobs_steps d d' : jd_jobs d' = jd_jobs d → steps d d'.
Proof. intros. apply rtc_once. by apply step_other. Qed.

Lemma enqueue_steps d user kind params same id now :
  I id → jd_jobs d !! id = None →
  steps d (enqueue max_attempts max_active d user kind params same id now).1.
Proof.
  intros HI Hid. unfold enqueue. destruct (KINDS !! kind); [|apply rtc_refl].
  set (existing := match same with [] => None | _ => _ end).
  destruct existing; [apply rtc_refl|].
  destruct (_ <=? _) eqn:Hlim; [apply rtc_refl|]. bsimpl. apply rtc_once.
  eapply step_new; [done..| | |cbn; reflexivity]; [unfold new_job; eauto 10|done].
Qed.

Lemma request_cancel_steps others d user id now :
  (∀ d, jobs_ok d → steps d (others d)) → jobs_ok d →
  steps d (request_cancel others d user id now).1.
Proof.
  intros Ho Hd. unfold request_cancel. destruct (get_for_user d user id) as [job|]; [|apply rtc_refl].
  specialize (Ho d Hd). set (d1 := others d) in *.
  assert (Hask : ∀ d2, steps d d2 → steps d (update_job id (λ j, bool_decide (rj_status j = RUNNING))
     (λ j, j <| rj_cancel_requested := true |>) d2).1).
  { intros d2 H2. eapply rtc_r; [exact H2|]. apply update_job_step. intros j _ Hj. bsimpl.
    by apply t_ask_cancel. }
  assert (Hc : steps d (update_job id (λ j, bool_decide (rj_status j = QUEUED))
     (λ j, j <| rj_status := CANCELLED |> <| rj_finished_at := Some now |>) d1).1).
  { eapply rtc_r; [exact Ho|]. apply update_job_step. intros j _ Hj. bsimpl. by apply t_cancel_queued. }
  destruct (bool_decide (rj_status job = QUEUED)).
  - destruct (update_job _ _ _ d1) as [d2 done_] in *. destruct done_; [done|].
    specialize (Hask d2 Hc). destruct (bool_decide _); [|done]. by destruct (update_job _ _ _ d2).
  - specialize (Hask d1 Ho). destruct (bool_decide _); [|done]. by destruct (update_job _ _ _ d1).
Qed.

Lemma claim_steps others w lease now n d :
  C w → (∀ n d, jobs_ok d → steps d (others n d)) → jobs_ok d →
  steps d (claim_loop n others d w lease now).1.
Proof.
  intros HC Ho. revert d. induction n as [|n IH]; intros d Hd; cbn [claim_loop]; [apply rtc_refl|].
  destruct (oldest_queued d) as [job|]; [|apply rtc_refl].
  specialize (Ho n d Hd). match goal with |- context [update_job ?k ?g ?f ?d1] =>
    assert (Hs : job_step C I d1 (update_job k g f d1).1) end.
  { apply update_job_step. intros j _ Hj. bsimpl. by apply t_claim. }
  destruct (update_job _ _ _ _) as [d2 claimed]. cbn in Hs.
  assert (steps d d2) by (eapply rtc_r; eauto).
  destruct claimed; [done|]. etransitivity; [done|]. apply IH. eapply job_steps_ok; eauto.
Qed.

Lemma reap_job_step now d n job :
  rj_max_attempts job = max_attempts → job_step C I d (reap_job now (d, n) job).1.
Proof.
  intros Hmax. unfold reap_job. cbn [fst snd]. match goal with |- context [update_job ?k ?g ?f ?d1] =>
    assert (Hs : job_step C I d1 (update_job k g f d1).1) end.
  { apply update_job_step. intros j _ Hj. bsimpl. rewrite Hmax.
    destruct (rj_cancel_requested job); [by apply t_cancel|].
    destruct (Z.ltb_spec (rj_attempts job) max_attempts); [apply t_requeue; [done|lia]|].
    by apply t_fail. }
  by destruct (update_job _ _ _ _).
Qed.

Lemma expired_jobs_ok now d : jobs_ok d → ∀ job, job ∈ expired_jobs d now →
  job_ok (rj_id job) job ∧ jd_jobs d !! rj_id job = Some job.
Proof.
  intros [Hd _] job [_ [k Hk]%elem_of_rows]%list_elem_of_filter.
  pose proof (Hd k job Hk) as Hok. by rewrite (ok_id _ _ Hok).
Qed.

Lemma reap_steps others d now :
  (∀ d, jobs_ok d → steps d (others d)) → jobs_ok d → steps d (reap_expired others d now).1.
Proof.
  intros Ho Hd. unfold reap_expired.
  apply (foldl_invariant (λ acc : JobsDB D * Z, steps d acc.1)); [by apply Ho|].
  intros [d1 n] job Hjob H1. eapply rtc_r; [exact H1|]. apply reap_job_step.
  eapply ok_max, expired_jobs_ok; eauto.
Qed.

Lemma heartbeat_steps d w h pid cur now : steps d (heartbeat_worker d w h pid cur now).
Proof.
  apply same_jobs_steps. unfold heartbeat_worker. destruct (update_row _ _ _ _). by destruct (_ =? _).
Qed.

Lemma purge_steps d days now : steps d (purge_finished d days now).1.
Proof.
  apply rtc_once. apply step_purge with (purgeable days now); [|done].
  unfold purgeable. intros j Hj. by bsimpl.
Qed.

Lemma complete_steps d job w a r au t rid now :
  steps d (complete digest run_finalizer record_market_data d job w a r au t rid now).1.
Proof.
  unfold complete. destruct (KINDS !! rj_kind job) as [kind|]; [|apply rtc_refl].
  set (dr := match t with Some _ => _ | None => _ end).
  assert (Hdr : jd_jobs dr.1 = jd_jobs d) by (unfold dr; by destruct t).
  destruct dr as [d1 r1]. cbn in Hdr.
  pose proof (completion_writes_jobs d1 job kind r1 au rid) as Hw.
  destruct (completion_writes _ _ _ _ _ _ _ _) as [d2 out]. cbn in Hw.
  assert (H1 : steps d d1) by by apply same_jobs_steps.
  assert (H2 : steps d d2) by (apply same_jobs_steps; congruence).
  destruct out as [[[result [rt rid']] au']|[e|key|]]; [| |done|done].
  - match goal with |- context [finish d2 ?k ?w ?a ?n ?f] =>
      pose proof (finish_step C I d2 k w a n f) as Hs end.
    destruct (finish _ _ _ _ _ _) as [d3 done_].
    assert (H3 : steps d d3).
    { eapply rtc_r; [exact H2|]. apply Hs. intros. by apply t_succeed. }
    destruct done_; [|done]. etransitivity; [exact H3|]. by apply same_jobs_steps.
  - match goal with |- context [fail d1 ?k ?w ?a ?n ?c ?x] =>
      pose proof (fail_step C I d1 k w a n c x) as Hs end.
    destruct (fail _ _ _ _ _ _ _) as [d3 done_]. eapply rtc_r; [exact H1|exact Hs].
Qed.

Lemma run_op_steps o d : permitted C I o → jobs_ok d → steps d (run_op d o).
Proof.
  intros Hp. revert d.
  assert (Hfold : ∀ l, (∀ o, o ∈ l → ∀ d, jobs_ok d → steps d (run_op d o)) →
    ∀ d, jobs_ok d → steps d (foldl run_op d l)).
  { intros l Hl d Hd. apply (foldl_invariant (λ d', steps d d')); [apply rtc_refl|].
    intros d' o' Ho Hd'. etransitivity; [exact Hd'|]. apply Hl; [exact Ho|]. eapply job_steps_ok; [done|exact Hd'|exact Hd]. }
  induction Hp; intros d Hd; cbn [run_op].
  - destruct (jd_jobs d !! id) eqn:Hid; [apply rtc_refl|]. by apply enqueue_steps.
  - apply request_cancel_steps; eauto.
  - apply claim_steps; eauto.
  - apply rtc_once, renew_step.
  - apply complete_steps.
  - apply rtc_once, fail_step.
  - apply rtc_once, finish_step. intros. by apply t_cancel.
  - apply rtc_once, update_job_step. intros j _ Hj%owned_running. by apply t_release.
  - apply reap_steps; eauto.
  - apply heartbeat_steps.
  - by apply same_jobs_steps.
  - apply purge_steps.
Qed.

Lemma run_history_steps h d :
  (∀ o, o ∈ h → permitted C I o) → jobs_ok d → steps d (run_history d h).
Proof.
  intros Hh Hd. apply (foldl_invariant (λ d', steps d d')); [apply rtc_refl|].
  intros d' o Ho Hd'. etransitivity; [exact Hd'|].
  apply run_op_steps; [by apply Hh|]. eapply job_steps_ok; [done|exact Hd'|exact Hd].
Qed.
End steps.

(** ** Following one row *)

Lemma row_step C I d d' k j :
  job_step C I d d' → jd_jobs d !! k = Some j →
  jd_jobs d' !! k = Some j ∨ (∃ j', jd_jobs d' !! k = Some j' ∧ transition C j j') ∨
  jd_jobs d' !! k = None ∧ is_terminal (rj_status j) = true.
Proof.
  intros Hs Hk. destruct Hs as [d d' i j1 j2 Hi Ht ->|d d' i j1 Hi _ _ _ ->|d d' gone Hg ->|d d' ->].
  - destruct (decide (i = k)) as [->|]; [|left; by rewrite lookup_insert_ne].
    simplify_eq. right; left. rewrite lookup_insert_eq. eauto.
  - left. rewrite lookup_insert_ne; congruence.
  - destruct (gone j) eqn:Hgj.
    + right; right. split; [|by apply Hg]. apply map_lookup_filter_None. right. intros ? ?. simplify_eq.
      cbn. by rewrite Hgj.
    + left. apply map_lookup_filter_Some. split; [done|]. cbn. by rewrite Hgj.
  - by left.
Qed.

Lemma absent_step C I d d' k :
  ¬ I k → job_step C I d d' → jd_jobs d !! k = None → jd_jobs d' !! k = None.
Proof.
  intros HI Hs Hk. destruct Hs as [d d' i j1 j2 Hi Ht ->|d d' i j1 Hi Hi' _ _ ->|d d' gone Hg ->|d d' ->].
  - rewrite lookup_insert_ne; congruence.
  - rewrite lookup_insert_ne; congruence.
  - apply map_lookup_filter_None. by left.
  - done.
Qed.

(** A property of one row that every transition keeps holds after any steps. *)
Lemma row_steps_inv C I (P : ResearchJob → Prop) d d' k :
  ¬ I k → (∀ j j', transition C j j' → P j → P j') →
  rtc (job_step C I) d d' →
  (∀ j, jd_jobs d !! k = Some j → P j) → ∀ j, jd_jobs d' !! k = Some j → P j.
Proof.
  intros HI HP. induction 1 as [|d1 d2 d3 Hs _ IH]; [done|]. intros Hd1. apply IH. clear IH.
  destruct (jd_jobs d1 !! k) as [j1|] eqn:H1.
  - intros j Hj. destruct (row_step _ _ _ _ _ _ Hs H1) as [|[(j' & ? & ?)|[? ?]]]; simplify_eq; eauto.
  - intros j. by rewrite (absent_step _ _ _ _ _ HI Hs H1).
Qed.

Definition unowned (w : string) (a : Z) (j : ResearchJob) : Prop := owned w a j = false.

Lemma transition_unowned C w a j j' : ¬ C w → transition C j j' → unowned w a j → unowned w a j'.
Proof.
  unfold unowned, owned. intros HC Ht. destruct Ht as [j w' now lease Hq Hw| | | | | | | | ]; cbn.
  all: rewrite ?andb_false_iff, ?bool_decide_eq_false; try tauto; try (right; done).
  intros _. left; left. congruence.
Qed.

Lemma transition_terminal C j j' : transition C j j' → is_terminal (rj_status j) = false.
Proof.
  intros Ht. apply transition_keeps in Ht as (_ & _ & _ & _ & _ & Ha & _).
  apply not_true_is_false. intros ?. by statuses.
Qed.

(** A write of a worker whose attempt is over changes nothing. *)
Lemma update_job_unowned k w a f d :
  (∀ j, jd_jobs d !! k = Some j → unowned w a j) → update_job k (owned w a) f d = (d, false).
Proof.
  intros Hun. unfold update_job, update_row.
  destruct (jd_jobs d !! k) as [j|] eqn:Hk; [rewrite (Hun j eq_refl)|]; by destruct d.
Qed.

Lemma complete_unowned d job w a r au t rid now :
  (∀ j, jd_jobs d !! rj_id job = Some j → unowned w a j) →
  let '(d', out) := complete digest run_finalizer record_market_data d job w a r au t rid now in
  d' <| jd_trials := jd_trials d |> = d ∧ out ≠ Ret true.
Proof.
  intros Hun. unfold complete. destruct (KINDS !! rj_kind job) as [kind|]; [|by destruct d].
  set (dr := match t with Some _ => _ | None => _ end).
  assert (Hdr : jd_jobs dr.1 = jd_jobs d ∧ dr.1 <| jd_trials := jd_trials d |> = d)
    by (unfold dr; destruct d, t; done).
  destruct dr as [d1 r1]. destruct Hdr as [Hj1 Hd1]. cbn [fst] in *.
  pose proof (completion_writes_jobs d1 job kind r1 au rid) as Hw.
  destruct (completion_writes _ _ _ _ _ _ _ _) as [d2 out]. cbn in Hw.
  destruct out as [[[result [rt rid']] au']|[e|key|]]; [| |done|done].
  - unfold finish. rewrite update_job_unowned; [done|]. by rewrite Hw, Hj1.
  - unfold fail, finish. rewrite update_job_unowned; [done|]. by rewrite Hj1.
Qed.

(** ** Reaping and claiming *)

(** What the reaper does to one row. *)
Definition reaped (now : Z) (j : ResearchJob) : ResearchJob :=
  if bool_decide (rj_status j = RUNNING) && lapsed now j then
    if rj_cancel_requested j then
      j <| rj_status := CANCELLED |> <| rj_finished_at := Some now |> <| rj_lease_expires_at := None |>
    else if rj_attempts j <? rj_max_attempts j then
      j <| rj_status := QUEUED |> <| rj_worker_id := None |> <| rj_lease_expires_at := None |>
    else
      j <| rj_status := FAILED |> <| rj_finished_at := Some now |> <| rj_lease_expires_at := None |>
        <| rj_error_status := Some 500 |> <| rj_error_detail := Some WORKER_LOST_DETAIL |>
  else j.

Lemma reap_one now d n job :
  job_ok (rj_id job) job → rj_status job = RUNNING → lapsed now job = true →
  jd_jobs d !! rj_id job = Some job →
  reap_job now (d, n) job = (d <| jd_jobs ::= <[rj_id job := reaped now job]> |>, n + 1).
Proof.
  intros Hok Hst Hl Hk. unfold reap_job, update_job, update_row. rewrite Hk.
  assert (is_Some (rj_worker_id job)) as [w Hw].
  { destruct (ok_status _ _ Hok); statuses. eauto. }
  rewrite Hst, Hl, Hw, Z.eqb_refl, !bool_decide_true by done. cbn.
  unfold reaped. rewrite Hst, Hl, bool_decide_true by done. cbn.
  by destruct (rj_cancel_requested job), (rj_attempts job <? rj_max_attempts job).
Qed.

Lemma reap_all now l d n :
  NoDup (rj_id <$> l) →
  (∀ job, job ∈ l → job_ok (rj_id job) job ∧ rj_status job = RUNNING ∧ lapsed now job = true ∧
                    jd_jobs d !! rj_id job = Some job) →
  ∃ d', foldl (reap_job now) (d, n) l = (d', n + Z.of_nat (length l)) ∧
    ∀ k, jd_jobs d' !! k = if decide (k ∈ rj_id <$> l) then reaped now <$> jd_jobs d !! k
                           else jd_jobs d !! k.
Proof.
  revert d n. induction l as [|job l IH]; intros d n Hnd Hl.
  { exists d. split; [cbn; f_equal; lia|]. intros k. by rewrite decide_False by (cbn; apply not_elem_of_nil). }
  cbn in Hnd. apply NoDup_cons in Hnd as [Hnin Hnd].
  destruct (Hl job) as (Hok & Hst & Hlp & Hk); [by left|]. cbn [foldl]. rewrite reap_one by done.
  destruct (IH (d <| jd_jobs ::= <[rj_id job := reaped now job]> |>) (n + 1)) as (d' & -> & Hd'); [done| |].
  { intros job' Hin. destruct (Hl job') as (? & ? & ? & ?); [by right|]. split_and!; try done.
    cbn. rewrite lookup_insert_ne; [done|]. intros Heq. apply Hnin. rewrite Heq. by apply list_elem_of_fmap_2. }
  exists d'. split; [f_equal; cbn; lia|]. intros k. rewrite Hd'. cbn.
  destruct (decide (k = rj_id job)) as [->|Hne].
  - rewrite decide_False by done. rewrite decide_True by by left.
    by rewrite lookup_insert_eq, Hk.
  - rewrite lookup_insert_ne by done.
    destruct (decide (k ∈ rj_id <$> l)) as [Hin|Hin]; [rewrite decide_True; [done|by right]|].
    rewrite decide_False; [done|]. cbn. by intros [->|?]%elem_of_cons.
Qed.

Lemma expired_nodup now d : jobs_ok d → NoDup (rj_id <$> expired_jobs d now).
Proof.
  intros [Hd _]. unfold expired_jobs, rows.
  assert (Hids : rj_id <$> (map_to_list (jd_jobs d)).*2 = (map_to_list (jd_jobs d)).*1).
  { rewrite <-list_fmap_compose. apply list_fmap_ext. intros i [k j] Hkj. cbn.
    eapply ok_id, Hd, elem_of_map_to_list, list_elem_of_lookup_2, Hkj. }
  apply (sublist_NoDup _ ((map_to_list (jd_jobs d)).*1)); [apply NoDup_fst_map_to_list|]. rewrite <-Hids.
  apply fmap_sublist, sublist_filter.
Qed.

Lemma expired_row d now k :
  jobs_ok d →
  (k ∈ rj_id <$> expired_jobs d now ↔
   ∃ j, jd_jobs d !! k = Some j ∧ rj_status j = RUNNING ∧ lapsed now j = true).
Proof.
  intros Hd. rewrite list_elem_of_fmap. split.
  - intros (job & -> & Hin). exists job.
    split; [by eapply expired_jobs_ok|]. by apply list_elem_of_filter in Hin as [? _].
  - intros (j & Hk & Hst & Hl). exists j. split; [by rewrite (ok_id _ _ (proj1 Hd k j Hk))|].
    apply list_elem_of_filter. split; [done|]. apply elem_of_rows. eauto.
Qed.

Lemma reaped_idle now j : ¬ (rj_status j = RUNNING ∧ lapsed now j = true) → reaped now j = j.
Proof.
  intros Hn. unfold reaped. destruct (bool_decide _) eqn:?, (lapsed now j) eqn:?; bsimpl; naive_solver.
Qed.

Lemma reaped_not_lapsed now j k :
  job_ok k j → rj_status (reaped now j) = RUNNING → lapsed now (reaped now j) = false.
Proof.
  intros Hok. unfold reaped. destruct (bool_decide _) eqn:Hst; [|by intros; bsimpl].
  destruct (lapsed now j) eqn:Hl; [|done]. cbn.
  destruct (rj_cancel_requested j); [done|]. by destruct (_ <? _).
Qed.

Lemma reap_expired_rows d now :
  jobs_ok d →
  let '(d', n) := reap_expired id d now in
  n = Z.of_nat (length (expired_jobs d now)) ∧ ∀ k, jd_jobs d' !! k = reaped now <$> jd_jobs d !! k.
Proof.
  intros Hd. unfold reap_expired, id.
  destruct (reap_all now (expired_jobs d now) d 0) as (d' & -> & Hd').
  { by apply expired_nodup. }
  { intros job Hin. destruct (expired_jobs_ok now d Hd job Hin) as [Hok Hk].
    apply list_elem_of_filter in Hin as [[? ?] _]. done. }
  split; [done|]. intros k. rewrite Hd'. case_decide as Hk; [done|].
  rewrite expired_row in Hk by done. destruct (jd_jobs d !! k) as [j|]; [|done]. cbn.
  rewrite reaped_idle; [done|]. naive_solver.
Qed.

#[local] Instance created_earlier_total : Total created_earlier.
Proof. intros a b. unfold created_earlier. lia. Qed.
#[local] Instance created_earlier_trans : Transitive created_earlier.
Proof. intros a b c. unfold created_earlier. lia. Qed.

Lemma oldest_queued_some d job :
  oldest_queued d = Some job →
  (∃ k, jd_jobs d !! k = Some job) ∧ rj_status job = QUEUED ∧
  ∀ k j, jd_jobs d !! k = Some j → rj_status j = QUEUED → rj_created_at job ≤ rj_created_at j.
Proof.
  unfold oldest_queued. set (l := filter _ _). intros Hh.
  pose proof (StronglySorted_merge_sort created_earlier l) as Hsort.
  pose proof (merge_sort_Permutation created_earlier l) as Hperm.
  destruct (merge_sort created_earlier l) as [|x rest]; [done|]. cbn in Hh. simplify_eq.
  assert (Hin : job ∈ l) by (rewrite <-Hperm; by left).
  apply list_elem_of_filter in Hin as [Hst Hin]. apply elem_of_rows in Hin.
  split_and!; [done..|]. intros k j Hk Hj.
  assert (Hjl : j ∈ job :: rest).
  { rewrite Hperm. apply list_elem_of_filter. split; [done|]. apply elem_of_rows. eauto. }
  apply StronglySorted_inv in Hsort as [_ Hsort]. apply elem_of_cons in Hjl as [->|Hjl]; [lia|].
  rewrite Forall_forall in Hsort. by apply Hsort.
Qed.

Lemma oldest_queued_none d :
  oldest_queued d = None → ∀ k j, jd_jobs d !! k = Some j → rj_status j ≠ QUEUED.
Proof.
  unfold oldest_queued. set (l := filter _ _). intros Hh k j Hk Hj.
  pose proof (merge_sort_Permutation created_earlier l) as Hperm.
  destruct (merge_sort created_earlier l) as [|x rest]; [|done].
  assert (Hjl : j ∈ l) by (apply list_elem_of_filter; split; [done|]; apply elem_of_rows; eauto).
  by rewrite <-Hperm in Hjl; apply not_elem_of_nil in Hjl.
Qed.

(** ** Properties *)

Definition empty_db (rest : D) : JobsDB D := mkJobsDB ∅ ∅ ∅ ∅ rest [].

Lemma empty_ok rest : jobs_ok (empty_db rest).
Proof. split; [by intros ? ? ?|]. intros user. rewrite active_count, map_sum_zero; [lia|done]. Qed.

Lemma history_ok h d : 0 < max_attempts → jobs_ok d → jobs_ok (run_history d h).
Proof.
  intros HM Hd. eapply job_steps_ok; [done| |exact Hd].
  apply (run_history_steps (λ _, True) (λ _, True)); [done| |done]. intros. apply permitted_any.
Qed.

(** C30: Whatever API processes and workers do, in any interleaving and with any
    clocks, the queue only moves along the state diagram of research_jobs.py,
    every row stays consistent with its status (a queued job has no worker
    and attempts left, a running one has a worker, a lease and a start, a
    finished one has a finish time and no lease, and only a succeeded or
    failed one has a result or an error), and no user ever has more active
    jobs than the limit. *)
Theorem queue_follows_diagram h rest :
  0 < max_attempts → 0 ≤ max_active →
  let d := run_history (empty_db rest) h in
  rtc (job_step (λ _, True) (λ _, True)) (empty_db rest) d ∧
  (∀ k j, jd_jobs d !! k = Some j → rj_id j = k ∧ rj_max_attempts j = max_attempts ∧ status_ok j) ∧
  (∀ user, Z.of_nat (length (active_jobs d user)) ≤ max_active).
Proof.
  intros HM HL d. pose proof (empty_ok rest) as He. split_and!.
  - apply run_history_steps; [done| |done]. intros. apply permitted_any.
  - intros k j Hk. destruct (history_ok h _ HM He) as [Hd _]. by destruct (Hd k j Hk).
  - intros user. destruct (history_ok h _ HM He) as [_ Hd]. specialize (Hd user). fold d in Hd. lia.
Qed.

(** Fencing. Once a worker's attempt at a job is over (the row is no longer
    that worker's running attempt), it stays over whatever happens next
    except a new claim by the same worker, and every late write of the old
    attempt (renewal, completion, failure, cancellation, release) changes
    nothing but the count of configurations tried. *)
Theorem superseded_attempt_fenced h h' rest k w a :
  0 < max_attempts →
  (∀ o, o ∈ h' → permitted (λ w', w' ≠ w) (λ i, i ≠ k) o) →
  let d := run_history (empty_db rest) h in
  (∀ j, jd_jobs d !! k = Some j → owned w a j = false) →
  let d' := run_history d h' in
  (∀ l now, renew_lease d' k w a l now = (d', LeaseLost)) ∧
  (∀ now code detail, fail d' k w a now code detail = (d', false)) ∧
  (∀ now, mark_cancelled d' k w a now = (d', false)) ∧
  release d' k w a = (d', false) ∧
  (∀ job r au t rid now, rj_id job = k →
     let '(d2, out) := complete digest run_finalizer record_market_data d' job w a r au t rid now in
     d2 <| jd_trials := jd_trials d' |> = d' ∧ out ≠ Ret true).
Proof.
  intros HM Hh d Hun d'.
  assert (Hd : jobs_ok d) by (apply history_ok; [done|apply empty_ok]).
  assert (Hun' : ∀ j, jd_jobs d' !! k = Some j → unowned w a j).
  { apply (row_steps_inv (λ w', w' ≠ w) (λ i, i ≠ k) (unowned w a) d d' k); [by intros []| | |done].
    - intros j j' Ht. by apply (transition_unowned (λ w', w' ≠ w)); [intros []|].
    - by apply run_history_steps. }
  split_and!.
  - intros. unfold renew_lease. by rewrite update_job_unowned.
  - intros. unfold fail, finish. by rewrite update_job_unowned.
  - intros. unfold mark_cancelled, finish. by rewrite update_job_unowned.
  - unfold release. by rewrite update_job_unowned.
  - intros job r au t rid now <-. by apply complete_unowned.
Qed.

(** A finished job is final: later operations leave its row exactly as it
    is, result or error included, until the retention purge deletes it. *)
Theorem finished_jobs_final h h' rest k j :
  0 < max_attempts →
  (∀ o, o ∈ h' → permitted (λ _, True) (λ i, i ≠ k) o) →
  let d := run_history (empty_db rest) h in
  jd_jobs d !! k = Some j → is_terminal (rj_status j) = true →
  jd_jobs (run_history d h') !! k = Some j ∨ jd_jobs (run_history d h') !! k = None.
Proof.
  intros HM Hh d Hk Hterm.
  assert (Hd : jobs_ok d) by (apply history_ok; [done|apply empty_ok]).
  assert (Hsame : ∀ j', jd_jobs (run_history d h') !! k = Some j' → j' = j).
  { apply (row_steps_inv (λ _, True) (λ i, i ≠ k) (λ j', j' = j) d _ k); [by intros []| | |naive_solver].
    - intros j1 j2 Ht ->. apply transition_terminal in Ht. congruence.
    - by apply run_history_steps. }
  destruct (jd_jobs (run_history d h') !! k) as [j'|]; [|by right]. left. by rewrite (Hsame j' eq_refl).
Qed.

(** A cancellation asked of a running job cannot be lost: after it, and
    whatever happens next, the job's worker is never told to carry on at a
    lease renewal, and if its lease lapses the reaper cancels the job
    instead of queueing it again. *)
Theorem cancel_request_sticks h h' rest user k job now :
  0 < max_attempts →
  (∀ o, o ∈ h' → permitted (λ _, True) (λ i, i ≠ k) o) →
  let d := run_history (empty_db rest) h in
  get_for_user d user k = Some job → rj_status job = RUNNING →
  let d' := run_history (request_cancel id d user k now).1 h' in
  (∀ w a l t, (renew_lease d' k w a l t).2 ≠ LeaseOk) ∧
  (∀ t j, jd_jobs d' !! k = Some j → rj_status j = RUNNING → lapsed t j = true →
     rj_status <$> jd_jobs (reap_expired id d' t).1 !! k = Some CANCELLED).
Proof.
  intros HM Hh d Hjob Hrun d'.
  assert (Hd : jobs_ok d) by (apply history_ok; [done|apply empty_ok]).
  set (dc := (request_cancel id d user k now).1) in *.
  assert (Hk : jd_jobs d !! k = Some job).
  { revert Hjob. unfold get_for_user. destruct (_ !! _); [|done]. by destruct (bool_decide _); [intros [= ->]|]. }
  assert (Hsteps : rtc (job_step (λ _, True) (λ i, i ≠ k)) d dc).
  { apply request_cancel_steps; [|done]. intros. apply rtc_refl. }
  assert (Hdc : jobs_ok dc) by by eapply job_steps_ok.
  assert (Hflag0 : ∀ j, jd_jobs dc !! k = Some j → rj_cancel_requested j = true).
  { unfold dc, request_cancel, id. rewrite Hjob, Hrun, bool_decide_false by done.
    rewrite bool_decide_true by done. unfold update_job, update_row. rewrite Hk, Hrun.
    rewrite bool_decide_true by done. cbn. intros j. rewrite lookup_insert_eq. by intros [= <-]. }
  assert (Hd' : jobs_ok d') by (apply history_ok; done).
  assert (Hflag : ∀ j, jd_jobs d' !! k = Some j → rj_cancel_requested j = true).
  { apply (row_steps_inv (λ _, True) (λ i, i ≠ k) (λ j, rj_cancel_requested j = true) dc d' k);
      [by intros []| | |done].
    - intros j1 j2 Ht. by apply transition_keeps in Ht as (_ & _ & _ & _ & _ & _ & ?).
    - by apply run_history_steps. }
  split.
  - intros w a l t. unfold renew_lease, update_job, update_row, cancel_requested.
    destruct (jd_jobs d' !! k) as [j|] eqn:Hj; [|done]. specialize (Hflag j eq_refl).
    destruct (owned w a j); [|done]. cbn. rewrite lookup_insert_eq. cbn. by rewrite Hflag.
  - intros t j Hj Hst Hl. pose proof (reap_expired_rows d' t Hd') as Hr.
    destruct (reap_expired id d' t) as [d2 n]. destruct Hr as [_ Hr]. cbn. rewrite Hr, Hj. cbn.
    unfold reaped. by rewrite Hst, Hl, (Hflag j Hj), bool_decide_true.
Qed.

(** With no other process writing in between, [claim_next] takes exactly
    the oldest queued job, makes it running with one more attempt, this
    worker and a lease of the asked length, and returns it; it returns None
    only when nothing is queued. *)
Theorem claim_takes_oldest h rest w lease now :
  0 < max_attempts →
  let d := run_history (empty_db rest) h in
  match claim_next (λ _, id) d w lease now with
  | (d', Some job) =>
      ∃ old, jd_jobs d !! rj_id job = Some old ∧ rj_status old = QUEUED ∧
        (∀ k j, jd_jobs d !! k = Some j → rj_status j = QUEUED → rj_created_at old ≤ rj_created_at j) ∧
        job = old <| rj_status := RUNNING |> <| rj_worker_id := Some w |>
                  <| rj_attempts := rj_attempts old + 1 |> <| rj_started_at := Some now |>
                  <| rj_lease_expires_at := Some (now + seconds lease) |> ∧
        owned w (rj_attempts job) job = true ∧
        d' = d <| jd_jobs := <[rj_id job := job]> (jd_jobs d) |>
  | (d', None) => d' = d ∧ ∀ k j, jd_jobs d !! k = Some j → rj_status j ≠ QUEUED
  end.
Proof.
  intros HM d. assert (Hd : jobs_ok d) by (apply history_ok; [done|apply empty_ok]).
  unfold claim_next. cbn [claim_loop id].
  destruct (oldest_queued d) as [old|] eqn:Hold; [|split; [done|by apply oldest_queued_none]].
  apply oldest_queued_some in Hold as ([k Hk] & Hst & Hmin).
  assert (rj_id old = k) as <- by (eapply ok_id, Hd, Hk).
  unfold update_job, update_row. rewrite Hk, Hst, bool_decide_true by done. cbn.
  rewrite lookup_insert_eq. cbn. exists old. split_and!; try done.
  unfold owned. cbn. by rewrite bool_decide_true, Z.eqb_refl.
Qed.

(** With no other process writing in between, [reap_expired] treats every
    running job whose lease lapsed as the row it reads says (cancelled if
    that was asked, queued again while attempts are left, failed otherwise),
    touches no other row, returns how many it reaped, and leaves no running
    job with a lapsed lease. *)
Theorem reap_clears_lapsed h rest now :
  0 < max_attempts →
  let d := run_history (empty_db rest) h in
  let '(d', n) := reap_expired id d now in
  n = Z.of_nat (length (expired_jobs d now)) ∧
  (∀ k, jd_jobs d' !! k = reaped now <$> jd_jobs d !! k) ∧
  expired_jobs d' now = [].
Proof.
  intros HM d. assert (Hd : jobs_ok d) by (apply history_ok; [done|apply empty_ok]).
  assert (Hok' : jobs_ok (reap_expired id d now).1).
  { eapply job_steps_ok; [done| |exact Hd].
    apply (reap_steps (λ _, True) (λ _, True)); [intros; apply rtc_refl|done]. }
  pose proof (reap_expired_rows d now Hd) as Hr. destruct (reap_expired id d now) as [d' n].
  destruct Hr as [-> Hr]. split_and!; [done..|].
  destruct (expired_jobs d' now) as [|job l] eqn:E; [done|]. exfalso.
  assert (Hin : job ∈ expired_jobs d' now) by (rewrite E; by left).
  destruct (expired_jobs_ok now d' Hok' job Hin) as [_ Hk].
  apply list_elem_of_filter in Hin as [[Hst Hl] _].
  rewrite Hr in Hk. destruct (jd_jobs d !! rj_id job) as [j|] eqn:Hj; [|done]. cbn in Hk. simplify_eq.
  by rewrite (reaped_not_lapsed now j _ (proj1 Hd _ _ Hj)) in Hl.
Qed.

(** A completion by the job's current owner is all or nothing. It returns
    True only with the job finished: either succeeded, with the result stored
    and exactly one audit event, or failed because the finalizer refused the
    outcome, and then nothing else was stored. If it raises, nothing but the
    count of configurations tried was stored. *)
Theorem complete_all_or_nothing d job w a r au t rid now j :
  jd_jobs d !! rj_id job = Some j → owned w a j = true →
  let '(d', out) := complete digest run_finalizer record_market_data d job w a r au t rid now in
  match out with
  | Ret true =>
      ∃ j', jd_jobs d' = <[rj_id job := j']> (jd_jobs d) ∧ rj_finished_at j' = Some now ∧
        rj_lease_expires_at j' = None ∧
        ((rj_status j' = SUCCEEDED ∧ is_Some (rj_result_json j') ∧
          ∃ e, jd_audit d' = jd_audit d ++ [e] ∧ ae_job_id e = rj_id job ∧ ae_user_id e = rj_user_id job) ∨
         (rj_status j' = FAILED ∧ is_Some (rj_error_status j') ∧ jd_rest d' = jd_rest d ∧
          jd_backtests d' = jd_backtests d ∧ jd_audit d' = jd_audit d))
  | Ret false => False
  | Raise _ => d' <| jd_trials := jd_trials d |> = d
  end.
Proof.
  intros Hj Hown. unfold complete. destruct (KINDS !! rj_kind job) as [kind|]; [|by destruct d].
  set (dr := match t with Some _ => _ | None => _ end).
  assert (Hdr : jd_jobs dr.1 = jd_jobs d ∧ dr.1 <| jd_trials := jd_trials d |> = d)
    by (unfold dr; destruct d, t; done).
  destruct dr as [d1 r1]. destruct Hdr as [Hj1 Hd1]. cbn [fst] in *.
  assert (Hs : jd_rest d1 = jd_rest d ∧ jd_backtests d1 = jd_backtests d ∧ jd_audit d1 = jd_audit d)
    by (rewrite <-Hd1; done). destruct Hs as (Hs1 & Hs2 & Hs3).
  pose proof (completion_writes_jobs d1 job kind r1 au rid) as Hw.
  assert (Ha : jd_audit (completion_writes run_finalizer record_market_data d1 job kind r1 au rid).1 = jd_audit d1).
  { unfold completion_writes. repeat (dmatch; cbn; try done). }
  destruct (completion_writes _ _ _ _ _ _ _ _) as [d2 out]. cbn in Hw, Ha.
  destruct out as [[[result [rt rid']] au']|[e|key|]]; [| |done|done].
  - unfold finish, update_job, update_row. rewrite Hw, Hj1, Hj, Hown. cbn.
    eexists. split_and!; [reflexivity|done..|]. left. split_and!; [done|by eexists|].
    eexists. rewrite Ha, Hs3. by split_and!.
  - unfold fail, finish, update_job, update_row. rewrite Hj1, Hj, Hown. cbn.
    eexists. split_and!; [reflexivity|done..|]. right. split_and!; [done|by eexists|done..].
Qed.
End facts.

(** ** Witnesses *)

Definition no_finalizer (_ : string) (d : unit) (_ : ResearchJob) (r au : json) :
    unit * outcome CompletionError (json * (string * option string) * json) :=
  (d, Ret (r, ("research", None), au)).
Definition no_market_data (d : unit) (_ : ResearchJob) (r au : json) :
    unit * outcome CompletionError (json * json) := (d, Ret (r, au)).
Definition no_digest (_ : json) : string := "".

Definition two_jobs : list queue_op :=
  [OpEnqueue "ada" "regime" [("symbol", JStr "SPY")] [] "j1" 5;
   OpEnqueue "ada" "stat_test" [] [] "j2" 6; OpClaim (λ _, []) "w1" 60 10].

#[local] Abbreviation later d h := (run_history 3 2 no_digest no_finalizer no_market_data d h).
#[local] Abbreviation demo h := (later (empty_db tt) h).

Lemma queue_follows_diagram_witness :
  Z.of_nat (length (active_jobs (demo two_jobs) "ada")) ≤ 2.
Proof.
  apply (queue_follows_diagram 3 2 no_digest no_finalizer no_market_data two_jobs tt); lia.
Defined.

Ltac permit :=
  let o := fresh "o" in let Ho := fresh "Ho" in
  intros o Ho;
  repeat (apply elem_of_cons in Ho as [->|Ho]; [constructor; done|]);
  by apply not_elem_of_nil in Ho.

(** w1 claims j1, stops renewing, and w2 takes the job over. *)
Definition takeover : list queue_op :=
  two_jobs ++ [OpReap [] 99000000; OpClaim (λ _, []) "w2" 60 99000001].

Lemma superseded_attempt_fenced_witness :
  let d := later (demo takeover) [OpRenew "j1" "w2" 2 60 99000002] in
  rj_worker_id <$> jd_jobs d !! "j1" = Some (Some "w2") ∧
  fail d "j1" "w1" 1 99000003 500 "late" = (d, false).
Proof.
  intros d. split; [vm_compute; reflexivity|].
  destruct (superseded_attempt_fenced 3 2 no_digest no_finalizer no_market_data takeover
    [OpRenew "j1" "w2" 2 60 99000002] tt "j1" "w1" 1) as (_ & Hf & _); [lia|permit| |apply Hf].
  intros j. vm_compute (jd_jobs _ !! _). by intros [= <-].
Defined.

Lemma lone_claim_permitted o :
  o ∈ [OpClaim (λ _, []) "w2" 60 30] → permitted (λ _, True) (λ i, i ≠ "j1") o.
Proof.
  intros [->|Ho]%elem_of_cons; [|by apply not_elem_of_nil in Ho].
  constructor; [done|]. intros ? ? Hn. by apply not_elem_of_nil in Hn.
Qed.

Lemma finished_jobs_final_witness :
  let d := demo (two_jobs ++ [OpFail "j1" "w1" 1 20 500 "boom"]) in
  let d' := later d [OpClaim (λ _, []) "w2" 60 30] in
  ∃ j, rj_status j = FAILED ∧ (jd_jobs d' !! "j1" = Some j ∨ jd_jobs d' !! "j1" = None).
Proof.
  intros d d'. destruct (jd_jobs d !! "j1") as [j|] eqn:E; [|vm_compute in E; discriminate E].
  exists j. split; [vm_compute in E; by injection E as <-|].
  apply (finished_jobs_final 3 2 no_digest no_finalizer no_market_data
    (two_jobs ++ [OpFail "j1" "w1" 1 20 500 "boom"]) [OpClaim (λ _, []) "w2" 60 30] tt "j1");
    [reflexivity|exact lone_claim_permitted|exact E|vm_compute in E; by injection E as <-].
Defined.

Lemma cancel_request_sticks_witness :
  let d := later (request_cancel id (demo two_jobs) "ada" "j1" 20).1 [OpHeartbeat "w1" "host" 7 None 25] in
  (renew_lease d "j1" "w1" 1 60 30).2 ≠ LeaseOk.
Proof.
  intros d.
  assert (Hp : ∀ o, o ∈ [OpHeartbeat "w1" "host" 7 None 25] → permitted (λ _, True) (λ i, i ≠ "j1") o)
    by permit.
  destruct (get_for_user (demo two_jobs) "ada" "j1") as [job|] eqn:E;
    [|vm_compute in E; discriminate E].
  destruct (cancel_request_sticks 3 2 no_digest no_finalizer no_market_data two_jobs
    [OpHeartbeat "w1" "host" 7 None 25] tt "ada" "j1" job 20) as [Hr _];
    [reflexivity|exact Hp|exact E|vm_compute in E; by injection E as <-|apply Hr].
Defined.

Lemma claim_takes_oldest_witness :
  ∃ job, (claim_next (λ _, id) (demo two_jobs) "w2" 60 50).2 = Some job ∧ rj_id job = "j2" ∧
    owned "w2" (rj_attempts job) job = true.
Proof.
  pose proof (claim_takes_oldest 3 2 no_digest no_finalizer no_market_data two_jobs tt "w2" 60 50 ltac:(lia)) as Hc.
  cbv zeta in Hc.
  destruct (claim_next _ _ _ _ _) as [d' [job|]] eqn:E; [|vm_compute in E; discriminate E].
  destruct Hc as (old & _ & _ & _ & _ & Hown & _). exists job. split; [done|]. split; [|exact Hown].
  vm_compute in E. by injection E as _ <-.
Defined.

Lemma reap_clears_lapsed_witness :
  expired_jobs (reap_expired id (demo two_jobs) 99000000).1 99000000 = [].
Proof.
  pose proof (reap_clears_lapsed 3 2 no_digest no_finalizer no_market_data two_jobs tt 99000000 ltac:(lia)) as H.
  cbv zeta in H.
  destruct (reap_expired _ _ _) as [d' n]. apply H.
Defined.

Lemma complete_all_or_nothing_witness :
  ∃ j, rj_id j = "j1" ∧
    (complete no_digest no_finalizer no_market_data (demo two_jobs) j "w1" 1 [] (JObj []) None "b1" 40).2
    ≠ Ret false.
Proof.
  destruct (jd_jobs (demo two_jobs) !! "j1") as [j|] eqn:E; [|vm_compute in E; discriminate E].
  assert (Hid : rj_id j = "j1" ∧ owned "w1" 1 j = true) by (vm_compute in E; by injection E as <-).
  destruct Hid as [Hid Hown]. exists j. split; [exact Hid|]. rewrite <-Hid in E.
  pose proof (complete_all_or_nothing no_digest no_finalizer no_market_data (demo two_jobs) j "w1" 1
    [] (JObj []) None "b1" 40 j E Hown) as Hc.
  destruct (complete _ _ _ _ _ _ _ _ _ _ _ _) as [d' [[]|]]; [done|destruct Hc|done].
Defined.
