(* ===== verification/DatasetRegistry.v ===== *)
(** backend/services/dataset_registry.py: which datasets exist, what they are,
    and who holds them. A blob that a job process says it stored is read back
    and verified before a row describes it. *)

From Stdlib Require Import Ascii.
From stdpp Require Import pretty.
From S2P Require Import Prelude Numeric Models Json JsonText JsonRead DateTime DatasetFormat DatasetCodec DatasetTables DatasetFacts DatasetStore ResearchJobs.
#[local] Open Scope Z_scope.

(** ** Rows *)

Record DatasetVersion := mkDatasetVersion {
  dv_dataset_id : string; dv_identity : DatasetIdentity;
  dv_personal_use_only : bool; dv_redistribution_allowed : bool; dv_point_in_time : bool;
  dv_coverage_start : Z; dv_coverage_end : Z; dv_symbols : list string;
  dv_manifest_canonical : string; dv_tables_json : list (string * json);
  dv_blob_format : string; dv_blob_sha256 : string; dv_blob_size : Z;
  dv_provider_client : string; dv_request_json : json; dv_retrieved_at : Z; dv_created_at : Z
}.
Record UserDataset := mkUserDataset { ud_job_id : option string; ud_created_at : Z }.

(** [dataset_versions] by id, [user_datasets] by user and id. *)
Record Registry := mkRegistry {
  rg_versions : gmap string DatasetVersion;
  rg_holdings : gmap (string * string) UserDataset
}.
#[global] Instance eta_Registry : Eta Registry := λ r, mkRegistry (rg_versions r) (rg_holdings r).

(** ** Licences *)

Record Licence := mkLicence { li_licence_id : string; li_personal_use_only : bool; li_redistribution_allowed : bool; li_terms_url : string }.
Definition LICENCES : gmap string Licence :=
  {[ "yahoo-personal-use" := mkLicence "yahoo-personal-use" true false "https://legal.yahoo.com/us/en/yahoo/terms/otos/index.html" ]}.

(** ** Python values *)

(** [d[key]] and [d.get(key, default)] of what should be a dict. *)
Definition item_of (key : string) (v : json) : outcome CompletionError json :=
  match v with
  | JObj l => match json_get key l with Some x => Ret x | None => Raise (KeyError key) end
  | _ => Raise OtherError
  end.
Definition get_of (key : string) (other : json) (v : json) : json :=
  match v with JObj l => default other (json_get key l) | _ => other end.
(** [for x in v] *)
Definition elements_of (v : json) : outcome CompletionError (list json) :=
  match v with
  | JArr l => Ret l
  | JObj l => Ret (JStr <$> l.*1)
  | JStr s => Ret ((λ cp, JStr (utf8_char cp)) <$> code_points s)
  | _ => Raise OtherError
  end.
(** [s[:n]], by characters *)
Definition text_take (n : nat) (s : string) : string := JsonText.utf8 (take n (code_points s)).

(** ** Describing *)

Inductive DescribeError :=
| RegistryError
| BadFormat (e : FormatError)
| OtherDescribeError.   (* any other exception *)

Definition text_le (a b : string) : Prop := String.compare a b ≠ Gt.
#[global] Instance text_le_dec a b : Decision (text_le a b).
Proof. unfold text_le. destruct (String.compare a b); [left|left|right]; congruence. Defined.

Definition table_column (name : string) (t : Table) : option (Column * list cell) :=
  list_find (λ ca : Column * list cell, col_name ca.1 = name) (zip (ts_columns (tb_schema t)) (tb_columns t)) ≫= λ it, Some it.2.
Definition cell_date (v : cell) : option Z := match v with Some (VDate d) => Some d | _ => None end.
Definition cell_text (v : cell) : option string := match v with Some (VText s) => Some s | _ => None end.
(** The days [datetime.date] has: years 1 to 9999. *)
Definition python_date (days : Z) : bool := (-719162 <=? days) && (days <=? 2932896).

Definition formatted {A} (m : outcome FormatError A) : outcome DescribeError A :=
  match m with Ret a => Ret a | Raise e => Raise (BadFormat e) end.

Section registry.
Variable sha256_hex : string → string.
Variable zlib_decompress : string → Z → option (string * bool * string * string).
Variable loads_other : string → option json.

(** What numpy's [unique] and [str] make of a symbol column that is not all
    text; [None] when they raise. *)
Variable unusual_symbols : list cell → option (list string).

(** [datetime.fromisoformat]: [None] when it raises, else the instant if the
    text says its offset. *)
Variable fromisoformat : string → option (option Z).

Definition symbol_list (a : list cell) : option (list string) :=
  match mapM cell_text a with
  | Some l => Some (merge_sort text_le (remove_dups l))
  | None => merge_sort text_le <$> unusual_symbols a
  end.

(** [describe], with the time of registration; [retrieved_at] is [None] when
    it has no timezone. *)
Definition describe (d : Dataset) (stored : StoredDataset) (request : json) (provider_client : string)
    (retrieved_at : option Z) (created_at : Z) : outcome DescribeError DatasetVersion :=
  let! id := formatted (dataset_id sha256_hex d) in
  let! _ := raise_if (negb (String.eqb (sd_dataset_id stored) id)) RegistryError in
  match LICENCES !! di_licence_id (ds_identity d) with
  | None => Raise RegistryError
  | Some licence =>
      match table "bars" d with
      | None => Raise RegistryError
      | Some bars =>
          let! _ := raise_if (row_count bars =? 0)%nat RegistryError in
          match retrieved_at with
          | None => Raise RegistryError
          | Some retrieved_at =>
              match (ca ← table_column "session_date" bars; mapM cell_date ca.2),
                    (ca ← table_column "symbol" bars; symbol_list ca.2) with
              | Some (s :: sessions), Some symbols =>
                  let first := foldr Z.min s sessions in
                  let last := foldr Z.max s sessions in
                  let! _ := raise_if (negb (python_date first && python_date last)) OtherDescribeError in
                  let! manifest := formatted (dataset_manifest sha256_hex d) in
                  let! text := formatted (canonical_bytes manifest) in
                  Ret (mkDatasetVersion id (ds_identity d) (li_personal_use_only licence) (li_redistribution_allowed licence)
                         (String.eqb (di_adjustment (ds_identity d)) "raw" &&
                          String.eqb (di_survivorship (ds_identity d)) "point_in_time")
                         first last symbols text
                         ((λ t, (ts_name (tb_schema t), table_manifest sha256_hex t)) <$> ds_tables d)
                         BLOB_FORMAT (sd_sha256 stored) (sd_size stored) (text_take 64 provider_client) request
                         retrieved_at created_at)
              | _, _ => Raise OtherDescribeError
              end
          end
      end
  end.

(** ** Registering *)

(** The CHECK constraints of [dataset_versions]. *)
Definition row_checks (v : DatasetVersion) : bool :=
  String.eqb (dv_dataset_id v) (DATASET_SCHEME +:+ ":" +:+ sha256_hex (dv_manifest_canonical v)) &&
  bool_decide ((canonical_json <$> (json_loads (dv_manifest_canonical v) ≫= field "identity"))
               = Some (canonical_json (identity_dict (dv_identity v)))) &&
  (all_of lower_hex (dv_blob_sha256 v) && (len (dv_blob_sha256 v) =? 64)) &&
  (0 <? dv_blob_size v) && (dv_coverage_start v <=? dv_coverage_end v).

Definition described {A} (m : outcome DescribeError A) : outcome CompletionError A :=
  match m with Ret a => Ret a | Raise _ => Raise OtherError end.

(** [INSERT ... ON CONFLICT DO NOTHING]: the constraints are checked first. *)
Definition insert_version (row : DatasetVersion) (r : Registry) : Registry * outcome CompletionError unit :=
  if negb (row_checks row) then (r, Raise OtherError)
  else match rg_versions r !! dv_dataset_id row with
       | Some _ => (r, Ret tt)
       | None => (r <| rg_versions ::= <[dv_dataset_id row := row]> |>, Ret tt)
       end.
Definition insert_holding (user_id dataset_id : string) (job_id : option string) (now : Z) (r : Registry) : Registry :=
  match rg_holdings r !! (user_id, dataset_id) with
  | Some _ => r
  | None => r <| rg_holdings ::= <[(user_id, dataset_id) := mkUserDataset job_id now]> |>
  end.

(** [register], in the caller's transaction. *)
Definition register (d : Dataset) (stored : StoredDataset) (user_id : string) (request : json) (provider_client : string)
    (retrieved_at : option Z) (job_id : option string) (now : Z) : prog Registry CompletionError DatasetVersion :=
  row ← plift (described (describe d stored request provider_client retrieved_at now));
  insert_version row;;
  r ← pget;
  match rg_versions r !! dv_dataset_id row with
  | None => praise OtherError
  | Some version =>
      if negb (String.eqb (dv_blob_sha256 version) (dv_blob_sha256 row)) || negb (dv_blob_size version =? dv_blob_size row)
      then praise OtherError
      else pmodify (insert_holding user_id (dv_dataset_id row) job_id now);; mret version
  end.

(** The store the worker reads, and the time. *)
Variable root : string.
Variable max_bytes : Z.
Variable fs : gmap string string.
Variable now : Z.

(** [store.verified(item["dataset_id"], item["sha256"])]: an id that is no
    text is no dataset id, a hash that is no text matches nothing. *)
Definition verified_item (item : json) : outcome CompletionError (Dataset * StoredDataset) :=
  let! id := item_of "dataset_id" item in
  let! hash := item_of "sha256" item in
  let failed := Raise (Refused (mkTaskError 500 "The snapshot could not be verified after it was stored")) in
  match id, hash with
  | JStr id, (JNull | JStr _) =>
      match verified sha256_hex zlib_decompress loads_other root max_bytes fs id (as_text hash) with
      | Ret p => Ret p
      | Raise _ => failed
      end
  | _, _ => failed
  end.

Definition register_item (job : ResearchJob) (snapshot : json) (retrieved_at : option Z) (item : json)
    : prog Registry CompletionError DatasetVersion :=
  p ← plift (verified_item item);
  request ← plift (item_of "request" snapshot);
  client ← plift (item_of "provider_client" snapshot);
  match client with
  | JStr client => register p.1 p.2 (rj_user_id job) request client retrieved_at (Some (rj_id job)) now
  | _ => praise OtherError
  end.
Fixpoint register_items (job : ResearchJob) (snapshot : json) (retrieved_at : option Z) (items : list json)
    : prog Registry CompletionError (list DatasetVersion) :=
  match items with
  | [] => mret []
  | item :: items =>
      v ← register_item job snapshot retrieved_at item;
      vs ← register_items job snapshot retrieved_at items;
      mret (v :: vs)
  end.

(** [_register_snapshot] *)
Definition register_snapshot (job : ResearchJob) (snapshot : json) : prog Registry CompletionError (list DatasetVersion) :=
  at_ ← plift (item_of "retrieved_at" snapshot);
  match as_text at_ ≫= fromisoformat with
  | None => praise OtherError
  | Some retrieved_at =>
      stored ← plift (item_of "stored" snapshot);
      items ← plift (elements_of stored);
      register_items job snapshot retrieved_at items
  end.

(** *** What the API reports *)

Definition view (v : DatasetVersion) : json :=
  JObj [("dataset_id", JStr (dv_dataset_id v)); ("identity", identity_dict (dv_identity v));
        ("licence", JObj [("personal_use_only", JBool (dv_personal_use_only v));
                          ("redistribution_allowed", JBool (dv_redistribution_allowed v))]);
        ("point_in_time", JBool (dv_point_in_time v));
        ("coverage", JObj [("start", JStr (iso_date (dv_coverage_start v))); ("end", JStr (iso_date (dv_coverage_end v)))]);
        ("symbols", JArr (JStr <$> dv_symbols v));
        ("tables", JObj ((λ kv : string * json, (kv.1, JObj [("rows", default JNull (field "rows" kv.2))])) <$> dv_tables_json v));
        ("blob", JObj [("format", JStr (dv_blob_format v)); ("sha256", JStr (dv_blob_sha256 v)); ("size", JInt (dv_blob_size v))]);
        ("provider_client", JStr (dv_provider_client v)); ("request", dv_request_json v);
        ("retrieved_at", JStr (iso_aware 0 (dv_retrieved_at v)))].

(** [finalize_snapshot_job] *)
Definition finalize_snapshot_job (r : Registry) (job : ResearchJob) (result audit : json)
    : Registry * outcome CompletionError (json * (string * option string) * json) :=
  (versions ← register_snapshot job result;
   unavailable ← plift (item_of "unavailable" result);
   mret (JObj [("datasets", JArr (view <$> versions)); ("unavailable", unavailable)],
         ("dataset", dv_dataset_id <$> head versions), audit)) r.

(** *** Accounting for the data a task read *)

Fixpoint register_snapshots (job : ResearchJob) (snapshots : list json) : prog Registry CompletionError unit :=
  match snapshots with
  | [] => mret tt
  | s :: snapshots => register_snapshot job s;; register_snapshots job snapshots
  end.

Definition unregistered : CompletionError := Refused (mkTaskError 500 "The research job used market data that is not registered").
(** The ids named, each a text or null. *)
Definition id_or_null (v : json) : option (option string) :=
  match v with JStr s => Some (Some s) | JNull => Some None | _ => None end.
Definition is_held (r : Registry) (user_id id : string) : bool := bool_decide (is_Some (rg_holdings r !! (user_id, id))).

(** [held != set(used)]; sorting what is missing raises if it mixes null and
    texts. *)
Definition check_held (r : Registry) (user_id : string) (used : list json) : outcome CompletionError unit :=
  match mapM id_or_null used with
  | None => Raise OtherError
  | Some ids =>
      let missing := List.filter (λ i, match i with Some id => negb (is_held r user_id id) | None => true end) ids in
      if existsb (λ i, bool_decide (i = None)) missing && existsb (λ i, bool_decide (is_Some i)) missing then Raise OtherError
      else match missing with [] => Ret tt | _ => Raise unregistered end
  end.

Definition record_market_data (r : Registry) (job : ResearchJob) (result audit : json)
    : Registry * outcome CompletionError (json * json) :=
  match get_of "market_data" JNull result with
  | JObj _ as report =>
      (snapshots ← plift (elements_of (get_of "snapshots" (JArr []) report));
       register_snapshots job snapshots;;
       used ← plift (elements_of (get_of "datasets" (JArr []) report));
       r ← pget;
       plift (check_held r (rj_user_id job) used);;
       let market := JObj [("source", get_of "source" JNull report); ("datasets", JArr used);
                           ("unavailable", get_of "unavailable" (JObj []) report)] in
       mret (JObj (json_set "market_data" market (json_fields result)),
             JObj (json_set "datasets" (JArr used) (json_fields audit)))) r
  | _ => (r, Raise (Refused (mkTaskError 500 "The research job did not report the market data it used")))
  end.

(** ** Reading *)

(** [get_for_user] *)
Definition get_for_user (r : Registry) (user_id dataset_id : string) : option DatasetVersion :=
  _ ← rg_holdings r !! (user_id, dataset_id); rg_versions r !! dataset_id.

(** [list_for_user]: newest holding first, then by id. *)
Definition newer (a b : Z * string * DatasetVersion) : Prop :=
  b.1.1 < a.1.1 ∨ (a.1.1 = b.1.1 ∧ text_le a.1.2 b.1.2).
#[global] Instance newer_dec a b : Decision (newer a b).
Proof. unfold newer. apply _. Defined.
Definition held_by (r : Registry) (user_id : string) : list (Z * string * DatasetVersion) :=
  omap (λ kv : (string * string) * UserDataset,
          if bool_decide (kv.1.1 = user_id) then (λ v, (ud_created_at kv.2, kv.1.2, v)) <$> rg_versions r !! kv.1.2 else None)
       (map_to_list (rg_holdings r)).
Definition list_for_user (r : Registry) (user_id : string) (limit : nat) : list DatasetVersion :=
  take limit (snd <$> merge_sort newer (held_by r user_id)).

(** ** Routes *)

(** [GET /api/research/datasets] and [GET /api/research/datasets/{id}] *)
Definition list_datasets (r : Registry) (user_id : string) (limit : nat) : json := JArr (view <$> list_for_user r user_id limit).
Definition get_dataset (r : Registry) (user_id dataset_id : string) : outcome HTTPException json :=
  match get_for_user r user_id dataset_id with
  | Some v => Ret (view v)
  | None => Raise (mkHTTPException 404 "Dataset not found")
  end.

Variable RESEARCH_JOB_MAX_ATTEMPTS : Z.
Variable RESEARCH_MAX_ACTIVE_JOBS_PER_USER : Z.

(** [_queue_job]: the job, or 429; an unknown kind is a programming error. *)
Definition queue_job (d : JobsDB Registry) (user_id kind : string) (params : list (string * json)) (same_as : list string)
    (id : string) : JobsDB Registry * outcome (option HTTPException) ResearchJob :=
  let '(d, answer) := enqueue RESEARCH_JOB_MAX_ATTEMPTS RESEARCH_MAX_ACTIVE_JOBS_PER_USER d user_id kind params same_as id now in
  (d, match answer with
      | Ret job => Ret job
      | Raise (QueueFull active limit) =>
          Raise (Some (mkHTTPException 429 ("You already have " +:+ pretty active +:+ " research jobs queued or running (limit "
                                           +:+ pretty limit +:+ "). Wait for one to finish or cancel one.")))
      | Raise (UnknownKind _) => Raise None
      end).

(** [_queue_research]: a request may name only datasets its user holds. *)
Definition queue_research (d : JobsDB Registry) (user_id kind : string) (dataset_ids : list string)
    (params : list (string * json)) (id : string) : JobsDB Registry * outcome (option HTTPException) ResearchJob :=
  match List.find (λ i, bool_decide (get_for_user (jd_rest d) user_id i = None)) dataset_ids with
  | Some missing => (d, Raise (Some (mkHTTPException 404 ("Dataset not found: " +:+ missing))))
  | None => queue_job d user_id kind params [] id
  end.
End registry.

(** * Theorems

    What the dataset registry promises: every row describes bytes that were
    read back and verified, rows never change, and a research result names
    only datasets its user holds. *)

#[local] Open Scope Z_scope.

(** ** Least and greatest *)

Lemma fold_min_le s ss x : x ∈ s :: ss → foldr Z.min s ss ≤ x.
Proof. induction ss as [|y ss IH]; cbn; [intros ->%list_elem_of_singleton; lia|]. rewrite !elem_of_cons in *. intros [?|[?|?]]; [| |]; try lia; assert (foldr Z.min s ss ≤ x) by auto; lia. Qed.
Lemma fold_max_ge s ss x : x ∈ s :: ss → x ≤ foldr Z.max s ss.
Proof. induction ss as [|y ss IH]; cbn; [intros ->%list_elem_of_singleton; lia|]. rewrite !elem_of_cons in *. intros [?|[?|?]]; [| |]; try lia; assert (x ≤ foldr Z.max s ss) by auto; lia. Qed.
Lemma fold_min_in s ss : foldr Z.min s ss ∈ s :: ss.
Proof. induction ss as [|y ss IH]; cbn; [by left|]. rewrite !elem_of_cons in *. destruct (Z.min_spec y (foldr Z.min s ss)) as [[_ ->]|[_ ->]]; naive_solver. Qed.
Lemma fold_max_in s ss : foldr Z.max s ss ∈ s :: ss.
Proof. induction ss as [|y ss IH]; cbn; [by left|]. rewrite !elem_of_cons in *. destruct (Z.max_spec y (foldr Z.max s ss)) as [[_ ->]|[_ ->]]; naive_solver. Qed.

Section facts.
Variable sha256_hex : string → string.
Variable zlib_decompress : string → Z → option (string * bool * string * string).
Variable loads_other : string → option json.
Variable unusual_symbols : list cell → option (list string).
Variable fromisoformat : string → option (option Z).
Variable root : string.
Variable max_bytes : Z.

#[local] Abbreviation decode := (decode_blob sha256_hex zlib_decompress loads_other).
#[local] Abbreviation describing := (describe sha256_hex unusual_symbols).

(** ** The invariant *)

(** A row describes a dataset decoded from bytes with the row's hash and
    size, under its own id. *)
Definition verified_row (v : DatasetVersion) : Prop :=
  ∃ d blob path request client retrieved_at,
    decode blob (dv_dataset_id v) max_bytes = Ret d ∧ row_checks sha256_hex v = true ∧
    describing d (mkStoredDataset (dv_dataset_id v) path (sha256_hex blob) (len blob)) request client retrieved_at (dv_created_at v) = Ret v.

Record registry_ok (r : Registry) : Prop := {
  rok_rows : map_Forall (λ id v, dv_dataset_id v = id ∧ verified_row v) (rg_versions r);
  rok_held : ∀ u id, is_held r u id = true → is_Some (rg_versions r !! id)
}.

(** What one user's job may do: add rows, and add holdings of that user. *)
Definition extends (u : string) (r r' : Registry) : Prop :=
  rg_versions r ⊆ rg_versions r' ∧ rg_holdings r ⊆ rg_holdings r' ∧
  ∀ k, k.1 ≠ u → rg_holdings r' !! k = rg_holdings r !! k.

Definition held (r : Registry) (u : string) (v : DatasetVersion) : Prop :=
  rg_versions r !! dv_dataset_id v = Some v ∧ is_held r u (dv_dataset_id v) = true.

#[export] Instance extends_preorder u : PreOrder (extends u).
Proof.
  split; [done|]. intros x y z (? & ? & Hxy) (? & ? & Hyz). split_and!; [by etrans|by etrans|].
  intros k Hk. by rewrite Hyz, Hxy.
Qed.

Lemma held_extends u r r' v : extends u r r' → held r u v → held r' u v.
Proof.
  intros (Hv & Hh & _) [H1 H2]. split; [by eapply lookup_weaken|]. unfold is_held in *.
  apply bool_decide_eq_true in H2 as [h Hx]. apply bool_decide_eq_true. exists h. by eapply lookup_weaken.
Qed.

(** Within one job's transaction, from [r0]. *)
Definition within (u : string) (r0 r : Registry) : Prop := registry_ok r ∧ extends u r0 r.

Lemma describe_id d s request client at_ now v : describing d s request client at_ now = Ret v →
  dataset_id sha256_hex d = Ret (dv_dataset_id v) ∧ sd_dataset_id s = dv_dataset_id v ∧ dv_created_at v = now ∧
  dv_blob_sha256 v = sd_sha256 s ∧ dv_blob_size v = sd_size s.
Proof.
  unfold describe. intros H. apply obind_Ret in H as (id & Hid & H). apply obind_Ret in H as ([] & Hs & H).
  apply raise_if_Ret, negb_false_iff, String.eqb_eq in Hs. unfold formatted in Hid.
  destruct (dataset_id sha256_hex d) as [id'|]; [|done]. injection Hid as ->.
  destruct (LICENCES !! _); [|done]. destruct (table "bars" d); [|done].
  apply obind_Ret in H as ([] & _ & H). destruct at_; [|done].
  destruct (_ ≫= _) as [[|s0 ss]|]; [done| |done]. destruct (_ ≫= _); [|done]. cbv zeta in H.
  apply obind_Ret in H as ([] & _ & H). apply obind_Ret in H as (m & _ & H). apply obind_Ret in H as (txt & _ & H). injection H as <-.
  done.
Qed.

Lemma verified_Ret fs id hash d s : verified sha256_hex zlib_decompress loads_other root max_bytes fs id hash = Ret (d, s) →
  ∃ blob path, fs !! path = Some blob ∧ decode blob id max_bytes = Ret d ∧ s = mkStoredDataset id path (sha256_hex blob) (len blob).
Proof.
  unfold verified. intros H. apply obind_Ret in H as (path & Hp & H). apply obind_Ret in H as (blob & Hb & H).
  cbv zeta in H. apply obind_Ret in H as (x & _ & H). apply obind_Ret in H as (d' & Hd & [= <- <-]).
  exists blob, path. split_and!; [|done|done]. unfold read_blob in Hb. destruct (fs !! path) as [b|]; [|done].
  destruct (_ <? _); [done|]. by injection Hb as ->.
Qed.

Lemma verified_item_Ret fs item p : verified_item sha256_hex zlib_decompress loads_other root max_bytes fs item = Ret p →
  ∃ id blob path, decode blob id max_bytes = Ret p.1 ∧ p.2 = mkStoredDataset id path (sha256_hex blob) (len blob).
Proof.
  unfold verified_item. intros H. apply obind_Ret in H as (i & _ & H). apply obind_Ret in H as (h & _ & H). cbv zeta in H.
  destruct i as [| | | |id| |]; try done. destruct h as [| | | |hash| |]; try done;
    (destruct (verified _ _ _ _ _ _ _ _) as [[d s]|] eqn:E; [|done]); injection H as <-;
    apply verified_Ret in E as (blob & path & _ & Hd & ->); by exists id, blob, path.
Qed.

Lemma insert_version_ok u r0 row : verified_row row ∨ row_checks sha256_hex row = false →
  triple (within u r0) (insert_version sha256_hex row) (λ _ r, within u r0 r) (λ _ r, within u r0 r).
Proof.
  intros Hrow r [[Hr Hh] He]. unfold insert_version. destruct (row_checks sha256_hex row) eqn:Ec; [|done].
  cbn [negb]. destruct (rg_versions r !! dv_dataset_id row) eqn:E; [done|]. destruct Hrow as [Hrow|]; [|done].
  split; [split; cbn|].
  - by apply map_Forall_insert_2.
  - intros u' id Hu. destruct (decide (dv_dataset_id row = id)) as [->|].
    + by rewrite lookup_insert_eq.
    + rewrite lookup_insert_ne by done. by eapply Hh.
  - etrans; [exact He|]. split_and!; cbn; [by apply insert_subseteq|done|done].
Qed.

Lemma insert_holding_ok u r0 v job now r :
  within u r0 r → rg_versions r !! dv_dataset_id v = Some v →
  within u r0 (insert_holding u (dv_dataset_id v) job now r) ∧ held (insert_holding u (dv_dataset_id v) job now r) u v.
Proof.
  intros [[Hr Hh] He] Hv. unfold insert_holding, held, is_held.
  destruct (rg_holdings r !! (u, dv_dataset_id v)) eqn:E.
  - split; [done|]. split; [done|]. apply bool_decide_eq_true. by rewrite E.
  - split; [|split; [done|]; cbn; apply bool_decide_eq_true; by rewrite lookup_insert_eq]. split.
    + split; cbn; [done|]. intros u' id Hu. unfold is_held in Hu. cbn in Hu. apply bool_decide_eq_true in Hu.
      destruct (decide ((u, dv_dataset_id v) = (u', id))) as [[= <- <-]|Hne]; [by rewrite Hv|].
      rewrite lookup_insert_ne in Hu by done. apply (Hh u'). by apply bool_decide_eq_true.
    + etrans; [exact He|]. split_and!; cbn; [done|by apply insert_subseteq|].
      intros k Hk. rewrite lookup_insert_ne; [done|]. by intros <-.
Qed.

Lemma register_row_ok u r0 d id blob path request client at_ job now :
  decode blob id max_bytes = Ret d →
  triple (within u r0)
    (register sha256_hex unusual_symbols d (mkStoredDataset id path (sha256_hex blob) (len blob)) u request client at_ job now)
    (λ v r, within u r0 r ∧ held r u v) (λ _ r, within u r0 r).
Proof.
  intros Hd. unfold register.
  destruct (describing d _ request client at_ now) as [row|e] eqn:Hrow; cbn [described plift]; [|by intros r Hr].
  destruct (describe_id _ _ _ _ _ _ _ Hrow) as (Hid & Hsid & Hnow & Hsha & Hsize). cbn in Hsid, Hsha, Hsize.
  refine (triple_bind _ (plift (Ret row)) _ (λ a r, a = row ∧ within u r0 r) _ _ _ _); [by intros r Hr|].
  intros row'. apply triple_state. intros s [-> Hs].
  eapply triple_bind with (Q := λ _ r, within u r0 r).
  { eapply triple_conseq; [apply (insert_version_ok u r0 row)| |done|done]; [|by intros ? ->].
    destruct (row_checks sha256_hex row) eqn:Ec; [left|by right].
    exists d, blob, path, request, client, at_. rewrite <-Hsid, Hnow. by split_and!. }
  intros _. apply triple_read. intros r Hr. destruct (rg_versions r !! dv_dataset_id row) as [v|] eqn:Hv; [|by intros ? ->].
  destruct (_ || _); [by intros ? ->|]. intros ? ->. cbn.
  assert (dv_dataset_id v = dv_dataset_id row) as Ei by by destruct Hr as [[Hrows _] _]; apply (Hrows _ _ Hv).
  rewrite <-Ei in Hv |- *. by apply insert_holding_ok.
Qed.

Lemma register_item_ok u r0 fs now job snapshot at_ item : rj_user_id job = u →
  triple (within u r0)
    (register_item sha256_hex zlib_decompress loads_other unusual_symbols root max_bytes fs now job snapshot at_ item)
    (λ v r, within u r0 r ∧ held r u v) (λ _ r, within u r0 r).
Proof.
  intros Hu. unfold register_item.
  destruct (verified_item _ _ _ _ _ _ item) as [p|e] eqn:Hp; [|by intros r Hr].
  apply verified_item_Ret in Hp as (id & blob & path & Hd & Hs). destruct p as [d s]. cbn in Hd, Hs. subst s.
  destruct (item_of "request" snapshot) as [request|]; [|by intros r Hr].
  destruct (item_of "provider_client" snapshot) as [client|]; [|by intros r Hr].
  destruct client as [| | | |client| |]; try by intros r Hr.
  intros r Hr. cbn. rewrite Hu. by apply register_row_ok.
Qed.

Lemma register_items_ok u r0 fs now job snapshot at_ items : rj_user_id job = u →
  triple (within u r0)
    (register_items sha256_hex zlib_decompress loads_other unusual_symbols root max_bytes fs now job snapshot at_ items)
    (λ vs r, within u r0 r ∧ Forall (held r u) vs) (λ _ r, within u r0 r).
Proof.
  intros Hu. induction items as [|item items IH]; cbn [register_items]; [by apply triple_ret|].
  eapply triple_bind; [by apply register_item_ok|]. intros v. apply triple_state. intros s [Hs Hv].
  eapply triple_bind with (Q := λ vs r, (within u r0 r ∧ Forall (held r u) vs) ∧ held r u v).
  - intros ? ->. pose proof (IH s Hs) as H.
    assert (triple (within u s)
      (register_items sha256_hex zlib_decompress loads_other unusual_symbols root max_bytes fs now job snapshot at_ items)
      (λ vs r, within u s r) (λ _ r, True)) as H'.
    { clear -Hu. revert s. induction items as [|i items IH]; intros s; [by apply triple_ret|]. cbn [register_items].
      eapply triple_bind.
      - eapply triple_conseq; [by apply (register_item_ok u s)|done| |done]. intros a t [Ht _]. exact Ht.
      - intros v. eapply triple_bind; [apply (IH s)|]. intros vs. by apply triple_ret. }
    specialize (H' s (conj (proj1 Hs) (reflexivity s))).
    destruct (register_items _ _ _ _ _ _ _ _ _ _ _ _ s) as [s' [vs|e]]; [|done].
    split; [done|]. by eapply held_extends; [apply H'|].
  - intros vs. apply triple_ret. intros r [[Hr Hvs] Hv']. split; [done|]. by constructor.
Qed.

Lemma register_snapshot_ok u r0 fs now job snapshot : rj_user_id job = u →
  triple (within u r0)
    (register_snapshot sha256_hex zlib_decompress loads_other unusual_symbols fromisoformat root max_bytes fs now job snapshot)
    (λ vs r, within u r0 r ∧ Forall (held r u) vs) (λ _ r, within u r0 r).
Proof.
  intros Hu. unfold register_snapshot. destruct (item_of "retrieved_at" snapshot) as [at_|]; [|by intros r Hr].
  intros r Hr. unfold mbind, prog_bind, plift. destruct (option_bind _ _ _ _) as [at'|]; [|exact Hr].
  destruct (item_of "stored" snapshot) as [stored|]; [|exact Hr]. destruct (elements_of stored) as [items|]; [|exact Hr].
  by apply register_items_ok.
Qed.

Lemma register_snapshots_ok u r0 fs now job snapshots : rj_user_id job = u →
  triple (within u r0)
    (register_snapshots sha256_hex zlib_decompress loads_other unusual_symbols fromisoformat root max_bytes fs now job snapshots)
    (λ _ r, within u r0 r) (λ _ r, within u r0 r).
Proof.
  intros Hu. induction snapshots as [|s snapshots IH]; cbn [register_snapshots]; [by apply triple_ret|].
  eapply triple_bind; [by apply register_snapshot_ok|]. intros vs. eapply triple_conseq; [apply IH| |done|done]. by intros r [Hr _].
Qed.

Lemma check_held_Ret r u used : check_held r u used = Ret tt →
  ∃ ids, used = JStr <$> ids ∧ Forall (λ id, is_held r u id = true) ids.
Proof.
  unfold check_held. destruct (mapM id_or_null used) as [ids|] eqn:E; [|done]. cbv zeta.
  destruct (_ && _); [done|]. set (missing := List.filter _ ids). destruct missing eqn:Em; [|done]. intros _.
  assert (∀ i, i ∈ ids → ∃ id, i = Some id ∧ is_held r u id = true) as Hall.
  { intros i Hi. assert (i ∉ missing) as Hn by (rewrite Em; apply not_elem_of_nil).
    destruct i as [id|]; [exists id; split; [done|]|].
    - destruct (is_held r u id) eqn:Hh; [done|]. destruct Hn. apply list_elem_of_In, filter_In. split; [by apply list_elem_of_In|]. cbn. by rewrite Hh.
    - destruct Hn. apply list_elem_of_In, filter_In. split; [by apply list_elem_of_In|done]. }
  clear -E Hall. revert ids E Hall. induction used as [|x used IH]; intros ids E Hall; [by exists []|].
  cbn in E. destruct (id_or_null x) as [i|] eqn:Ei; [|done]. cbn in E. destruct (mapM id_or_null used) as [is_|] eqn:Eu; [|done].
  injection E as <-. destruct (Hall i ltac:(by left)) as (id & -> & Hid).
  destruct (IH is_ eq_refl) as (ids' & -> & Hf); [intros j Hj; apply Hall; by right|].
  exists (id :: ids'). split; [|by constructor]. by destruct x; simplify_eq/=.
Qed.

(** The registry describes only verified bytes, and never changes its
    mind. Whatever a job process reports, registering its snapshots (as the
    snapshot job's own finalizer, or while storing any other research result)
    keeps every row the description of a dataset that decoded, under the
    row's id, from bytes with the row's hash and size; keeps every holding a
    holding of a registered dataset; changes and removes no row and no
    holding; and adds holdings for the job's own user only. The datasets a
    finished snapshot job reports are all held by its user. *)
Theorem registry_describes_verified_bytes fs now r job result audit :
  registry_ok r →
  (let '(r', out) := finalize_snapshot_job sha256_hex zlib_decompress loads_other unusual_symbols fromisoformat
                       root max_bytes fs now r job result audit in
   registry_ok r' ∧ extends (rj_user_id job) r r' ∧
   match out with
   | Ret (report, _, _) => ∃ vs, field "datasets" report = Some (JArr (view <$> vs)) ∧ Forall (held r' (rj_user_id job)) vs
   | Raise _ => True
   end) ∧
  (let '(r', _) := record_market_data sha256_hex zlib_decompress loads_other unusual_symbols fromisoformat
                     root max_bytes fs now r job result audit in
   registry_ok r' ∧ extends (rj_user_id job) r r').
Proof.
  intros Hr. set (u := rj_user_id job). assert (within u r r) as Hw by by split. split.
  - unfold finalize_snapshot_job. unfold mbind at 1, prog_bind.
    pose proof (register_snapshot_ok u r fs now job result eq_refl r Hw) as H.
    destruct (register_snapshot _ _ _ _ _ _ _ _ _ _ _ r) as [r' [vs|e]]; [|by destruct H].
    destruct H as [[Hok He] Hvs]. destruct (item_of "unavailable" result) as [x|]; cbn; [|done].
    split_and!; [done|done|]. by exists vs.
  - unfold record_market_data. destruct (get_of "market_data" JNull result) as [| | | | | |l]; try done.
    unfold mbind, prog_bind, plift. destruct (elements_of _) as [snapshots|]; [|done].
    pose proof (register_snapshots_ok u r fs now job snapshots eq_refl r Hw) as H.
    destruct (register_snapshots _ _ _ _ _ _ _ _ _ _ _ r) as [r' [[]|e]]; [|exact H].
    destruct (elements_of _); [|exact H]. cbn. destruct (check_held _ _ _); exact H.
Qed.

(** A research result names only registered datasets that its user holds.
    When the prices a job read are accounted for, the stored result and the
    audit event name the same datasets, and each is one the job's user can
    fetch from the registry, whose row describes verified bytes; a result that
    names any other dataset is refused. *)
Theorem results_name_held_datasets fs now r job result audit r' result' audit' :
  registry_ok r →
  record_market_data sha256_hex zlib_decompress loads_other unusual_symbols fromisoformat root max_bytes fs now r job result audit
    = (r', Ret (result', audit')) →
  ∃ ids market, json_get "market_data" (json_fields result') = Some market ∧
    field "datasets" market = Some (JArr (JStr <$> ids)) ∧
    json_get "datasets" (json_fields audit') = Some (JArr (JStr <$> ids)) ∧
    Forall (λ id, ∃ v, get_for_user r' (rj_user_id job) id = Some v ∧ dv_dataset_id v = id ∧ verified_row v) ids.
Proof.
  intros Hr. set (u := rj_user_id job). assert (within u r r) as Hw by by split.
  unfold record_market_data. destruct (get_of "market_data" JNull result) as [| | | | | |l]; try done.
  unfold mbind, prog_bind, plift. destruct (elements_of _) as [snapshots|]; [|done].
  pose proof (register_snapshots_ok u r fs now job snapshots eq_refl r Hw) as H.
  destruct (register_snapshots _ _ _ _ _ _ _ _ _ _ _ r) as [r1 [[]|e]]; [|done]. destruct H as [[Hrows Hheld] _].
  destruct (elements_of _) as [used|]; [|done]. change (rj_user_id job) with u. unfold pget. cbv beta iota. destruct (check_held r1 u used) as [[]|] eqn:Hc; [|by intros [=]].
  cbv beta iota. intros [= <- <- <-]. apply check_held_Ret in Hc as (ids & -> & Hids).
  assert (∀ k v l, json_get k (json_set k v l) = Some v) as Hset.
  { clear. intros k v l. unfold json_set, json_get. destruct (existsb _ l) eqn:E.
    - induction l as [|[k' x] l IH]; [done|]. cbn in *. destruct (bool_decide_reflect (k' = k)); cbn; [by rewrite bool_decide_true|].
      rewrite bool_decide_false by done. by apply IH.
    - induction l as [|[k' x] l IH]; cbn in *; [by rewrite bool_decide_true|]. apply orb_false_elim in E as [-> E]. by apply IH. }
  eexists ids, _. split; [apply Hset|]. split; [reflexivity|]. split; [apply Hset|].
  eapply Forall_impl; [exact Hids|]. intros id Hid. destruct (Hheld u id Hid) as [v Hv]. exists v.
  unfold get_for_user. unfold is_held in Hid. apply bool_decide_eq_true in Hid as [h Hh]. rewrite Hh. cbn.
  split; [done|]. by apply (Hrows id v).
Qed.

(** ** Rows *)

Lemma table_hashes_names ts l : table_hashes sha256_hex ts = Ret l → l.*1 = (λ t, ts_name (tb_schema t)) <$> ts.
Proof.
  intros H. apply table_hashes_spec in H. induction H as [|t kv ts l (h & _ & ->) H IH]; [done|]. cbn. by rewrite <-IH.
Qed.

Lemma manifest_reads_back d m text : make_dataset d = Ret d → dataset_manifest sha256_hex d = Ret m → canonical_bytes m = Ret text →
  json_loads text = Some (json_sort m) ∧ field "identity" (json_sort m) = Some (json_sort (identity_dict (ds_identity d))).
Proof.
  intros Hd Hm Ht. destruct (canonical_bytes_spec _ _ Ht) as (-> & Hc & _). unfold dataset_manifest in Hm.
  apply obind_Ret in Hm as (l & Hl & [= <-]). split; [|reflexivity].
  apply json_loads_canonical, canonical_readable; [done|]. cbn. split_and!; try done; try (apply (bool_decide_unpack _); by vm_compute).
  - rewrite (table_hashes_names _ _ Hl). exact (make_dataset_names _ Hd).
  - clear Ht Hc. apply table_hashes_spec in Hl. induction Hl as [|t kv ts l (h & _ & ->) H IH]; [done|]. by split.
Qed.

Lemma describe_Ret d s request client at_ now v : describing d s request client at_ now = Ret v →
  ∃ bars st ss t, table "bars" d = Some bars ∧
    (ca ← table_column "session_date" bars; mapM cell_date ca.2) = Some (st :: ss) ∧
    (ca ← table_column "symbol" bars; symbol_list unusual_symbols ca.2) = Some (dv_symbols v) ∧
    dv_coverage_start v = foldr Z.min st ss ∧ dv_coverage_end v = foldr Z.max st ss ∧
    dataset_manifest sha256_hex d = Ret t ∧ canonical_bytes t = Ret (dv_manifest_canonical v) ∧ dv_identity v = ds_identity d.
Proof.
  unfold describe. intros H. apply obind_Ret in H as (id & Hid & H). apply obind_Ret in H as ([] & Hs & H).
  destruct (LICENCES !! _); [|done]. destruct (table "bars" d) as [bars|]; [|done].
  apply obind_Ret in H as ([] & _ & H). destruct at_; [|done].
  destruct (_ ≫= _) as [[|s0 ss]|] eqn:Es; [done| |done]. destruct (_ ≫= _) as [syms|] eqn:El in H; [|done]. cbv zeta in H.
  apply obind_Ret in H as ([] & _ & H). apply obind_Ret in H as (m & Hm & H). apply obind_Ret in H as (txt & Ht & H). injection H as <-.
  unfold formatted in Hm, Ht. destruct (dataset_manifest sha256_hex d) as [m'|]; [|done]. injection Hm as ->.
  destruct (canonical_bytes m) as [t'|] eqn:Et; [|done]. injection Ht as ->.
  exists bars, s0, ss, m. by rewrite El.
Qed.

(** A described row satisfies the table's CHECK constraints, so inserting it
    never fails. *)
Lemma described_row_checks d s request client at_ now v :
  (∀ x, all_of lower_hex (sha256_hex x) = true ∧ len (sha256_hex x) = 64) →
  make_dataset d = Ret d → 0 < sd_size s → (∃ blob, sd_sha256 s = sha256_hex blob) →
  describing d s request client at_ now = Ret v → row_checks sha256_hex v = true.
Proof.
  intros Hhex Hd Hsize [blob Hblob] H. destruct (describe_id _ _ _ _ _ _ _ H) as (Hid & _ & _ & Hsha & Hsz).
  destruct (describe_Ret _ _ _ _ _ _ _ H) as (bars & st & ss & m & _ & _ & _ & Hst & Hen & Hm & Ht & Hi).
  unfold row_checks. rewrite Hsha, Hblob, Hsz, Hi, Hst, Hen. destruct (Hhex blob) as [-> ->].
  destruct (manifest_reads_back d m _ Hd Hm Ht) as [-> Hf]. cbn [mbind option_bind]. rewrite Hf.
  unfold dataset_id in Hid. rewrite Hm in Hid. cbn [obind] in Hid. rewrite Ht in Hid. cbn [obind] in Hid. injection Hid as <-.
  assert (canonical_json (json_sort (identity_dict (ds_identity d))) = canonical_json (identity_dict (ds_identity d))) as Es
    by (unfold canonical_json; by rewrite json_sort_idem).
  rewrite String.eqb_refl, bool_decide_true by exact (f_equal Some Es).
  rewrite (proj2 (Z.ltb_lt _ _)) by done. rewrite (proj2 (Z.leb_le _ _)); [done|].
  etrans; [apply (fold_min_le _ _ st)|apply fold_max_ge]; by left.
Qed.
End facts.

(** What a registered dataset's row says of its bars is exact. Its
    coverage is the first and the last session among its bars, both of them
    sessions it has, and its symbols are the bars' symbols, each once, in
    order; and the row passes the database's own checks: its id is the hash of
    the manifest stored with it, and its identity columns are the identity
    inside that manifest. *)
Theorem description_exact sha256_hex unusual_symbols d stored request client at_ now v :
  (∀ x, all_of lower_hex (sha256_hex x) = true ∧ len (sha256_hex x) = 64) →
  make_dataset d = Ret d → 0 < sd_size stored → (∃ blob, sd_sha256 stored = sha256_hex blob) →
  describe sha256_hex unusual_symbols d stored request client at_ now = Ret v →
  row_checks sha256_hex v = true ∧
  ∃ bars dates symbols, table "bars" d = Some bars ∧
    table_column "session_date" bars = Some dates ∧ table_column "symbol" bars = Some symbols ∧
    (∀ c, c ∈ dates.2 → ∃ day, c = Some (VDate day) ∧ dv_coverage_start v ≤ day ≤ dv_coverage_end v) ∧
    Some (VDate (dv_coverage_start v)) ∈ dates.2 ∧ Some (VDate (dv_coverage_end v)) ∈ dates.2 ∧
    (∀ texts, symbols.2 = (λ t, Some (VText t)) <$> texts →
       NoDup (dv_symbols v) ∧ Sorted text_le (dv_symbols v) ∧ ∀ t, t ∈ dv_symbols v ↔ t ∈ texts).
Proof.
  intros Hhex Hd Hsize Hblob H. split; [by eapply described_row_checks|].
  destruct (describe_Ret _ _ _ _ _ _ _ _ _ H) as (bars & st & ss & m & Hb & Hdates & Hsyms & -> & -> & _).
  destruct (table_column "session_date" bars) as [dates|] eqn:E1; [|done]. destruct (table_column "symbol" bars) as [symbols|] eqn:E2; [|done].
  cbn in Hdates, Hsyms. exists bars, dates, symbols. split_and!; [done|done|done| | | |].
  - apply mapM_Some in Hdates. intros c Hc. destruct (list_elem_of_lookup_1 _ _ Hc) as [i Hi].
    destruct (Forall2_lookup_l _ _ _ _ _ Hdates Hi) as (day & Hday & Ec). exists day.
    apply list_elem_of_lookup_2 in Hday. split; [by destruct c as [[]|]; simplify_eq/=|].
    split; [by apply fold_min_le|by apply fold_max_ge].
  - apply mapM_Some in Hdates. pose proof (fold_min_in st ss) as Hin; destruct (list_elem_of_lookup_1 _ _ Hin) as [i Hi].
    destruct (Forall2_lookup_r _ _ _ _ _ Hdates Hi) as (c & Hc & Ec). apply list_elem_of_lookup_2 in Hc. by destruct c as [[]|]; simplify_eq/=.
  - apply mapM_Some in Hdates. pose proof (fold_max_in st ss) as Hin; destruct (list_elem_of_lookup_1 _ _ Hin) as [i Hi].
    destruct (Forall2_lookup_r _ _ _ _ _ Hdates Hi) as (c & Hc & Ec). apply list_elem_of_lookup_2 in Hc. by destruct c as [[]|]; simplify_eq/=.
  - intros texts Et. unfold symbol_list in Hsyms. rewrite Et in Hsyms.
    assert (mapM cell_text ((λ t, Some (VText t)) <$> texts) = Some texts) as E by (clear; induction texts as [|t l IH]; [done|]; cbn; by rewrite IH).
    rewrite E in Hsyms. injection Hsyms as <-. pose proof (merge_sort_Permutation text_le (remove_dups texts)) as Hp. split_and!.
    + rewrite Hp. apply NoDup_remove_dups.
    + apply Sorted_merge_sort. intros a b. unfold text_le. rewrite String.compare_antisym. destruct (String.compare b a); cbn; auto.
    + intros t. rewrite Hp. apply elem_of_remove_dups.
Qed.

(** ** A snapshot registered *)

Definition sample_fs : gmap string string :=
  match encode_blob flat_hash sample_compress sample_dataset with Ret b => {[ sample_path := b ]} | Raise _ => ∅ end.
Definition sample_job : ResearchJob :=
  mkResearchJob "job-1" "alice" "dataset_snapshot" [] RUNNING false 1 3 (Some "w1") None 0 None None None None None.
Definition sample_snapshot : json :=
  JObj [("provider", JStr "yahoo"); ("provider_client", JStr "yfinance 1.5.2"); ("retrieved_at", JStr "2026-10-11T00:00:00+00:00");
        ("request", JObj []); ("stored", JArr [JObj [("dataset_id", JStr sample_id); ("sha256", JStr (flat_hash EmptyString))]]);
        ("unavailable", JObj [])].
Definition sample_result : json :=
  JObj [("market_data", JObj [("source", JStr "snapshot"); ("datasets", JArr [JStr sample_id]); ("unavailable", JObj []);
                              ("snapshots", JArr [sample_snapshot])])].
Definition sample_iso (_ : string) : option (option Z) := Some (Some 1791676800000000).

Lemma empty_registry_ok h z o n m : registry_ok h z o n m (mkRegistry ∅ ∅).
Proof. split; cbn; [apply map_Forall_empty|done]. Qed.

Definition returned {S E A} (m : S * outcome E A) : bool := match m.2 with Ret _ => true | Raise _ => false end.

Lemma registry_describes_verified_bytes_witness : ∃ r' report vs,
  finalize_snapshot_job flat_hash sample_decompress (λ _, None) (λ _, None) sample_iso "/data" 8192 sample_fs 5
    (mkRegistry ∅ ∅) sample_job sample_snapshot (JObj []) = (r', Ret report) ∧
  field "datasets" report.1.1 = Some (JArr (view <$> vs)) ∧ Forall (held r' "alice") vs.
Proof.
  pose proof (registry_describes_verified_bytes flat_hash sample_decompress (λ _, None) (λ _, None) sample_iso "/data" 8192) as H.
  specialize (H sample_fs 5 (mkRegistry ∅ ∅) sample_job sample_snapshot (JObj [])).
  specialize (H (empty_registry_ok flat_hash sample_decompress (λ _, None) (λ _, None) 8192)). destruct H as [H _].
  assert (returned (finalize_snapshot_job flat_hash sample_decompress (λ _, None) (λ _, None) sample_iso "/data" 8192 sample_fs 5
    (mkRegistry ∅ ∅) sample_job sample_snapshot (JObj [])) = true) as Hr by (vm_compute; reflexivity).
  destruct (finalize_snapshot_job _ _ _ _ _ _ _ _ _ _ _ _) as [r' [[[report res] au]|e]]; [|discriminate Hr].
  destruct H as (_ & _ & vs & Hvs & Hheld). exists r', (report, res, au), vs. exact (conj eq_refl (conj Hvs Hheld)).
Defined.

Lemma results_name_held_datasets_witness : ∃ r' result' audit' ids,
  record_market_data flat_hash sample_decompress (λ _, None) (λ _, None) sample_iso "/data" 8192 sample_fs 5
    (mkRegistry ∅ ∅) sample_job sample_result (JObj []) = (r', Ret (result', audit')) ∧
  json_get "datasets" (json_fields audit') = Some (JArr (JStr <$> ids)) ∧
  Forall (λ id, ∃ v, get_for_user r' "alice" id = Some v) ids.
Proof.
  assert (returned (record_market_data flat_hash sample_decompress (λ _, None) (λ _, None) sample_iso "/data" 8192 sample_fs 5
    (mkRegistry ∅ ∅) sample_job sample_result (JObj [])) = true) as Hr by (vm_compute; reflexivity).
  destruct (record_market_data _ _ _ _ _ _ _ _ _ _ _ _) as [r' [[result' audit']|e]] eqn:E; [|discriminate Hr].
  destruct (results_name_held_datasets flat_hash sample_decompress (λ _, None) (λ _, None) sample_iso "/data" 8192 sample_fs 5
    (mkRegistry ∅ ∅) sample_job sample_result (JObj []) r' result' audit' (empty_registry_ok flat_hash sample_decompress (λ _, None) (λ _, None) 8192) E) as (ids & m & _ & _ & Ha & Hf).
  exists r', result', audit', ids. split; [reflexivity|split; [exact Ha|]].
  refine (Forall_impl _ _ _ Hf _). intros id (v & Hv & _). exists v. exact Hv.
Defined.

Lemma description_exact_witness : ∃ v,
  describe flat_hash (λ _, None) sample_dataset (mkStoredDataset sample_id sample_path (flat_hash EmptyString) 100) JNull "yfinance" (Some 0) 5 = Ret v ∧
  row_checks flat_hash v = true.
Proof.
  destruct (succeeds_Ret (describe flat_hash (λ _, None) sample_dataset
    (mkStoredDataset sample_id sample_path (flat_hash EmptyString) 100) JNull "yfinance" (Some 0) 5) (λ _, true)) as (v & Hv & _); [vm_compute; reflexivity|].
  exists v. split; [exact Hv|].
  refine (proj1 (description_exact flat_hash (λ _, None) sample_dataset _ JNull "yfinance" (Some 0) 5 v _ _ _ _ Hv)).
  - intros x. split; reflexivity.
  - exact (dok_made _ (proj1 sample_dataset_ok)).
  - reflexivity.
  - exists EmptyString. reflexivity.
Defined.
