(* ===== verification/Experiments.v ===== *)
(** backend/services/experiment_registry.py: research experiments with
    immutable inputs, results recorded once under a signed manifest, gates
    that re-check them, and approval by somebody else. Running a strategy is
    the research job's work; here its report is an argument. *)

From stdpp Require Import pretty.
From Stdlib Require Import Ascii SpecFloat.
From S2P Require Import Prelude Numeric Models Json JsonText JsonRead DatasetFormat AuditTrail Integration ResearchJobs.
#[local] Open Scope Z_scope.

(** ** Statuses and records *)

Inductive ExperimentStatus := CREATED | STARTED (* RUNNING *) | COMPLETED | FAILED_ (* FAILED *) | VALIDATED | APPROVED.
#[global] Instance status_eq_dec : EqDecision ExperimentStatus.
Proof. solve_decision. Defined.
Definition status_value (s : ExperimentStatus) : string :=
  match s with
  | CREATED => "CREATED" | STARTED => "RUNNING" | COMPLETED => "COMPLETED" | FAILED_ => "FAILED"
  | VALIDATED => "VALIDATED" | APPROVED => "APPROVED"
  end.

Definition ENGINE_VERSION : string := "QS-L2-SIM-2".
Definition MANIFEST_VERSION : Z := 2.
Definition EXECUTABLE_STRATEGY_IDS : list string := ["obi_momentum"].
Definition executable (strategy_id : string) : bool := bool_decide (strategy_id ∈ EXECUTABLE_STRATEGY_IDS).

Abbreviation dict := (list (string * json)) (only parsing).

(** [Experiment] *)
Record Experiment := mkExperiment {
  x_experiment_id : string; x_strategy_id : string; x_strategy_version : string; x_dataset_id : string;
  x_dataset_hash : string; x_parameter_hash : string; x_code_commit : string; x_random_seed : Z;
  x_execution_model : string; x_latency_model : string; x_status : ExperimentStatus;
  x_created_at : b64; x_completed_at : option b64; x_strategy_hash : string; x_dependency_lock_hash : string;
  x_engine_version : string; x_signing_key_id : option string;
  x_result_hash : string; x_results : dict; x_validation_gates : json; x_manifest_signature : string
}.
#[global] Instance eta_Experiment : Eta Experiment := λ e,
  mkExperiment (x_experiment_id e) (x_strategy_id e) (x_strategy_version e) (x_dataset_id e)
    (x_dataset_hash e) (x_parameter_hash e) (x_code_commit e) (x_random_seed e) (x_execution_model e)
    (x_latency_model e) (x_status e) (x_created_at e) (x_completed_at e) (x_strategy_hash e)
    (x_dependency_lock_hash e) (x_engine_version e) (x_signing_key_id e) (x_result_hash e) (x_results e)
    (x_validation_gates e) (x_manifest_signature e).

(** A row of [research_experiments]. *)
Record ExperimentRow := mkExperimentRow {
  er_id : string; er_user_id : string; er_strategy_id : string; er_strategy_version : string;
  er_dataset_id : string; er_dataset_json : json; er_dataset_hash : string;
  er_parameters_json : dict; er_parameter_hash : string; er_code_commit : string; er_random_seed : Z;
  er_execution_model : string; er_latency_model : string; er_status : ExperimentStatus;
  er_result_hash : string; er_results_json : dict; er_validation_gates_json : json; er_manifest_signature : string;
  er_created_at : Z; er_completed_at : option Z;
  er_strategy_hash : option string; er_dependency_lock_hash : option string; er_engine_version : option string;
  er_signing_key_id : option string; er_manifest_json : option dict;
  er_approved_by : option string; er_approved_at : option Z
}.
#[global] Instance eta_ExperimentRow : Eta ExperimentRow := λ r,
  mkExperimentRow (er_id r) (er_user_id r) (er_strategy_id r) (er_strategy_version r) (er_dataset_id r)
    (er_dataset_json r) (er_dataset_hash r) (er_parameters_json r) (er_parameter_hash r) (er_code_commit r)
    (er_random_seed r) (er_execution_model r) (er_latency_model r) (er_status r) (er_result_hash r)
    (er_results_json r) (er_validation_gates_json r) (er_manifest_signature r) (er_created_at r)
    (er_completed_at r) (er_strategy_hash r) (er_dependency_lock_hash r) (er_engine_version r)
    (er_signing_key_id r) (er_manifest_json r) (er_approved_by r) (er_approved_at r).

(** [to_dict] *)
Definition opt_float (x : option b64) : json := match x with Some x => JFloat x | None => JNull end.
Definition to_dict (e : Experiment) : dict :=
  [("experiment_id", JStr (x_experiment_id e)); ("strategy_id", JStr (x_strategy_id e));
   ("strategy_version", JStr (x_strategy_version e)); ("strategy_hash", JStr (x_strategy_hash e));
   ("executable", JBool (executable (x_strategy_id e))); ("dataset_id", JStr (x_dataset_id e));
   ("dataset_hash", JStr (x_dataset_hash e)); ("parameter_hash", JStr (x_parameter_hash e));
   ("code_commit", JStr (x_code_commit e)); ("dependency_lock_hash", JStr (x_dependency_lock_hash e));
   ("execution_engine_version", JStr (x_engine_version e)); ("random_seed", JInt (x_random_seed e));
   ("execution_model", JStr (x_execution_model e)); ("latency_model", JStr (x_latency_model e));
   ("status", JStr (status_value (x_status e))); ("created_at", JFloat (x_created_at e));
   ("completed_at", opt_float (x_completed_at e)); ("result_hash", JStr (x_result_hash e));
   ("validation_gates", x_validation_gates e); ("has_signature", JBool (negb (String.eqb (x_manifest_signature e) EmptyString)))].

(** [build_manifest] *)
Definition build_manifest (e : Experiment) : dict :=
  [("manifest_version", JInt MANIFEST_VERSION); ("experiment_id", JStr (x_experiment_id e));
   ("strategy_id", JStr (x_strategy_id e)); ("strategy_version", JStr (x_strategy_version e));
   ("strategy_hash", JStr (x_strategy_hash e)); ("dataset_id", JStr (x_dataset_id e));
   ("dataset_hash", JStr (x_dataset_hash e)); ("parameter_hash", JStr (x_parameter_hash e));
   ("code_commit", JStr (x_code_commit e)); ("dependency_lock_hash", JStr (x_dependency_lock_hash e));
   ("execution_engine_version", JStr (x_engine_version e)); ("random_seed", JInt (x_random_seed e));
   ("execution_model", JStr (x_execution_model e)); ("latency_model", JStr (x_latency_model e));
   ("result_hash", JStr (x_result_hash e)); ("created_at", JFloat (x_created_at e));
   ("completed_at", opt_float (x_completed_at e)); ("signing_key_id", opt_str (x_signing_key_id e))].
(** [_MANIFEST_BOUND_FIELDS], with what [getattr] gives for each. *)
Definition bound_fields (e : Experiment) : dict :=
  [("experiment_id", JStr (x_experiment_id e)); ("strategy_id", JStr (x_strategy_id e));
   ("strategy_version", JStr (x_strategy_version e)); ("strategy_hash", JStr (x_strategy_hash e));
   ("dataset_id", JStr (x_dataset_id e)); ("dataset_hash", JStr (x_dataset_hash e));
   ("parameter_hash", JStr (x_parameter_hash e)); ("code_commit", JStr (x_code_commit e));
   ("dependency_lock_hash", JStr (x_dependency_lock_hash e)); ("random_seed", JInt (x_random_seed e));
   ("execution_model", JStr (x_execution_model e)); ("latency_model", JStr (x_latency_model e));
   ("result_hash", JStr (x_result_hash e))].

(** ** Python values *)

(** [a < b] on numbers; [None]: it raises. *)
Inductive extended := NegInf | Fin (n d : Z) | PosInf | NotANumber.
Definition extended_of (v : json) : option extended :=
  match v with
  | JFloat (S754_infinity s) => Some (if s then NegInf else PosInf)
  | JFloat S754_nan => Some NotANumber
  | _ => (λ q, Fin q.1 q.2) <$> json_number v
  end.
Definition extended_lt (a b : extended) : bool :=
  match a, b with
  | NotANumber, _ | _, NotANumber => false
  | Fin n d, Fin n' d' => n * d' <? n' * d
  | NegInf, NegInf | PosInf, _ | _, NegInf => false
  | NegInf, _ | _, PosInf => true
  end.
Definition extended_le (a b : extended) : bool :=
  match a, b with
  | NotANumber, _ | _, NotANumber => false
  | Fin n d, Fin n' d' => n * d' <=? n' * d
  | NegInf, _ | _, PosInf => true
  | _, _ => false
  end.
Definition py_lt (a b : json) : option bool := x ← extended_of a; y ← extended_of b; Some (extended_lt x y).
Definition py_le (a b : json) : option bool := x ← extended_of a; y ← extended_of b; Some (extended_le x y).

Definition dget (key : string) (other : json) (d : dict) : json := default other (json_get key d).
(** [d.get(key, {}).get(key', other)]; [None]: what [key] holds has no [get]. *)
Definition dget2 (key key' : string) (other : json) (d : dict) : option json :=
  match dget key (JObj []) d with JObj l => Some (dget key' other l) | _ => None end.

(** [hash_dataset], [hash_parameters], [hash_results], [_canonical] *)
Definition canonical_ (v : json) : string := dumps_compact v.

(** [data.replace(b"\r\n", b"\n")] *)
Fixpoint unix_lines (s : string) : string :=
  match s with
  | String "013" ((String "010" _) as rest) => unix_lines rest
  | String c rest => String c (unix_lines rest)
  | EmptyString => EmptyString
  end.

Definition ml_dsa_prefix : string := "ml-dsa:".
Definition hmac_prefix : string := "hmac-sha256:".

(** [bytes.hex] and [bytes.fromhex] *)
Fixpoint hex_text (s : string) : string :=
  match s with
  | EmptyString => EmptyString
  | String c s => let n := nat_of_ascii c in String (hex_digit (n / 16)) (String (hex_digit (n mod 16)) (hex_text s))
  end.
Definition blank (c : ascii) : bool := char_in c [32; 9; 10; 11; 12; 13]%nat.
Fixpoint from_hex (s : string) : option string :=
  match s with
  | EmptyString => Some EmptyString
  | String c rest =>
      if blank c then from_hex rest
      else match rest with
           | String c' rest =>
               a ← hex_value c; b ← hex_value c'; r ← from_hex rest; Some (String (byte_char (16 * a + b)) r)
           | EmptyString => None
           end
  end.

(** What an operation can raise: [ExperimentError], [ManifestSigningError],
    or anything else. *)
Inductive ExperimentFailure := ExperimentError (message : string) | ManifestSigningError | OtherFailure.

Section experiments.
Variable sha256_hex : string → string.
Variable sha256 : string → string.
Variable hmac_sha256_hex : string → string → string.
Variable b64 : string → string.
Variable unb64 : string → option string.
Variable dsa_sign : string → string → string.
Variable dsa_verify : string → string → string → option bool.

(** The deployment: its environment and CSRF secret, whether the ML-DSA
    backend works, and what identifies the code: git's answer, the bytes of
    requirements.txt, and the source of the executable strategy. *)
Variable production : bool.
Variable CSRF_SECRET : string.
Variable signing_works : bool.
Variable code_commit : string.
Variable requirements : option string.
Variable obi_source : string.

Definition hash_dataset (v : json) : string := sha256_hex (dumps_sorted v).
Definition hash_parameters (p : dict) : string := sha256_hex (dumps_sorted (JObj p)).
Definition hash_results (r : dict) : string := sha256_hex (dumps_sorted (JObj r)).
Definition dataset_hash_of (dataset : json) : string := match dataset with JNull => EmptyString | d => hash_dataset d end.

Definition dependency_lock_hash : string :=
  match requirements with Some data => sha256_hex (unix_lines data) | None => "unknown" end.
Definition strategy_code_hash (strategy_id strategy_version : string) : string :=
  if String.eqb strategy_id "obi_momentum" then sha256_hex ("source:" +:+ obi_source)
  else sha256_hex (canonical_ (JObj [("strategy_id", JStr strategy_id); ("strategy_version", JStr strategy_version)])).

(** [input_hashes] *)
Definition input_hashes (dataset : json) (parameters : dict) (seed : Z) : json :=
  JObj [("dataset_hash", JStr (dataset_hash_of dataset)); ("parameter_hash", JStr (hash_parameters parameters));
        ("random_seed", JInt seed)].

(** ** Manifest signatures *)

Definition fallback_hmac_key : string := sha256 ("qs-experiment-manifest-hmac:" +:+ CSRF_SECRET).

(** [sign_manifest]; signing makes a key pair if there is none yet. *)
Definition sign_manifest (fresh : Fresh) (manifest : dict) (i : ServerIdentity)
    : ServerIdentity * outcome ExperimentFailure string :=
  let text := canonical_ (JObj manifest) in
  if signing_works then
    let '(i, sig) := sign sha256_hex dsa_sign fresh text i in (i, Ret (ml_dsa_prefix +:+ hex_text sig))
  else if production then (i, Raise ManifestSigningError)
  else (i, Ret (hmac_prefix +:+ hmac_sha256_hex fallback_hmac_key text)).

(** [_manifest_public_key]; the outer [None]: decoding a stored key raised. *)
Definition manifest_public_key (key_id : option string) (i : ServerIdentity) (d : AuditDB) : option (option string) :=
  let named := match key_id with Some k => negb (String.eqb k EmptyString) | None => false end in
  match (if named then key_id ≫= λ k, adb_keys d !! k else None) with
  | Some record => Some <$> unb64 (sk_public_key record)
  | None => Some (if negb named || bool_decide (key_id = si_key_id i) then si_dsa_pk i else None)
  end.

(** [verify_manifest_signature] *)
Definition verify_manifest_signature (manifest : dict) (signature : string) (i : ServerIdentity) (d : AuditDB) : bool :=
  let text := canonical_ (JObj manifest) in
  match literal hmac_prefix signature with
  | Some sig => negb production && String.eqb sig (hmac_sha256_hex fallback_hmac_key text)
  | None =>
      match literal ml_dsa_prefix signature with
      | Some hex =>
          match json_get "signing_key_id" manifest with
          | None | Some JNull | Some (JStr _) =>
              let key_id := json_get "signing_key_id" manifest ≫= as_text in
              match manifest_public_key key_id i d with
              | Some (Some pk) =>
                  match from_hex hex with Some sig => default false (dsa_verify pk text sig) | None => false end
              | _ => false
              end
          | _ => false   (* no key has such an id: the query fails or finds nothing *)
          end
      | None => false
      end
  end.

(** ** Deployment gates *)

Record Gate := mkGate { g_passed : bool; g_details : dict }.
Definition gate_json (g : Gate) : json := JObj (("passed", JBool (g_passed g)) :: g_details g).
Definition described_gate (passed : bool) (description : string) : Gate := mkGate passed [("description", JStr description)].
Definition measured_gate (passed : bool) (value threshold : json) (description : string) : Gate :=
  mkGate passed [("value", value); ("threshold", threshold); ("description", JStr description)].

Definition half : json := JFloat (nof_ratio 1 2).
Definition execution_gates (results : dict) : option (list (string * Gate)) :=
  pnl ← dget2 "portfolio" "total_pnl" (JFloat n0) results;
  fill_ratio ← dget2 "execution_metrics" "fill_ratio" (JFloat n0) results;
  is_bps ← dget2 "implementation_shortfall" "total_is_bps" (JFloat (S754_infinity false)) results;
  p1 ← py_lt (JInt 0) pnl;
  p2 ← py_le half fill_ratio;
  p3 ← py_le is_bps (JInt 25);
  Some [("net_pnl", measured_gate p1 pnl (JFloat n0) "Net P&L after execution costs must be positive");
        ("fill_ratio", measured_gate p2 fill_ratio half "At least half of submitted quantity must execute");
        ("implementation_shortfall", measured_gate p3 is_bps (JFloat (nof_Z 25)) "Implementation shortfall must not exceed 25 bps")].
Definition signal_gates (results : dict) : option (list (string * Gate)) :=
  let oos_sharpe := dget "oos_sharpe" (JInt 0) results in
  let dsr := dget "survives_deflation" (JBool false) results in
  let turnover := dget "avg_daily_turnover" (JFloat n1) results in
  p1 ← py_lt half oos_sharpe;
  p3 ← py_lt turnover (JInt 2);
  Some [("walk_forward", measured_gate p1 oos_sharpe half "OOS Sharpe ratio must exceed 0.5");
        ("dsr", mkGate (truthy dsr) [("value", dsr); ("description", JStr "Strategy must survive Deflated Sharpe Ratio test")]);
        ("turnover", measured_gate p3 turnover (JFloat (nof_Z 2)) "Average daily turnover must be below 200%")].

(** [validate_for_deployment]: the gates, in order; [None]: a comparison or a
    lookup raised. *)
Definition deployment_gates (e : Experiment) : option (list (string * Gate)) :=
  let results := x_results e in
  gates ← (match json_get "execution_metrics" results with
           | Some _ => execution_gates results
           | None => signal_gates results
           end);
  Some (gates ++
        [("risk_limits", described_gate (truthy (dget "max_position_size" JNull results) || truthy (dget "max_drawdown_limit" JNull results))
                           "Strategy must define position size and drawdown limits");
         ("manifest_signed", described_gate (negb (String.eqb (x_manifest_signature e) EmptyString))
                               "Experiment manifest must be cryptographically signed")]).
Definition all_passed (gates : list (string * Gate)) : bool := forallb (λ g : string * Gate, g_passed g.2) gates.
Definition gate_report (experiment_id : string) (gates : list (string * Gate)) : dict :=
  [("experiment_id", JStr experiment_id); ("all_gates_passed", JBool (all_passed gates));
   ("eligible_for_paper_deployment", JBool (all_passed gates));
   ("gates", JObj ((λ g : string * Gate, (g.1, gate_json g.2)) <$> gates))].
Definition validate_for_deployment (e : Experiment) : option dict :=
  gate_report (x_experiment_id e) <$> deployment_gates e.

(** ** The durable registry *)

Definition epoch (t : Z) : Numeric.b64 := nof_ratio t 1000000.
Definition or_blank (s : option string) : string := default EmptyString s.
(** [_to_experiment]; [created_at or 0.0] of a row's creation time. *)
Definition to_experiment (r : ExperimentRow) : Experiment :=
  mkExperiment (er_id r) (er_strategy_id r) (er_strategy_version r) (er_dataset_id r) (er_dataset_hash r)
    (er_parameter_hash r) (er_code_commit r) (er_random_seed r) (er_execution_model r) (er_latency_model r)
    (er_status r) (epoch (er_created_at r)) (epoch <$> er_completed_at r) (or_blank (er_strategy_hash r))
    (or_blank (er_dependency_lock_hash r)) (or_blank (er_engine_version r)) (er_signing_key_id r)
    (er_result_hash r) (er_results_json r) (or_empty (er_validation_gates_json r)) (er_manifest_signature r).

(** The tables this component writes, and this process's signing identity. *)
Record ExperimentState := mkExperimentState {
  xs_rows : gmap string ExperimentRow; xs_audit : AuditDB; xs_identity : ServerIdentity
}.
#[global] Instance eta_ExperimentState : Eta ExperimentState := λ s,
  mkExperimentState (xs_rows s) (xs_audit s) (xs_identity s).

(** A clock reading: [time.time()], and the instant it converts to. *)
Record Clock := mkClock { ck_time : Numeric.b64; ck_instant : Z }.

(** [_row]: the user's own experiment. *)
Definition own_row (user_id experiment_id : string) (s : ExperimentState) : option ExperimentRow :=
  r ← xs_rows s !! experiment_id; if bool_decide (er_user_id r = user_id) then Some r else None.
Definition put_row (r : ExperimentRow) (s : ExperimentState) : ExperimentState := s <| xs_rows ::= <[er_id r := r]> |>.

Definition recorded_inputs (r : ExperimentRow) : json :=
  JObj [("dataset_hash", JStr (er_dataset_hash r)); ("parameter_hash", JStr (er_parameter_hash r)); ("random_seed", JInt (er_random_seed r))].

(** [create]: [id] is the experiment's new id. *)
Definition create (user_id id strategy_id strategy_version dataset_id : string) (dataset : json) (parameters : dict)
    (random_seed : Z) (execution_model latency_model : string) (now : Z) (s : ExperimentState)
    : ExperimentState * outcome ExperimentFailure Experiment :=
  match xs_rows s !! id with
  | Some _ => (s, Raise OtherFailure)
  | None =>
      let row := mkExperimentRow id user_id strategy_id strategy_version dataset_id dataset (dataset_hash_of dataset)
        parameters (hash_parameters parameters) code_commit random_seed execution_model latency_model CREATED
        EmptyString [] (JObj []) EmptyString now None (Some (strategy_code_hash strategy_id strategy_version))
        (Some dependency_lock_hash) (Some ENGINE_VERSION) None None None None in
      (put_row row s, Ret (to_experiment row))
  end.

(** [_register_signing_key] *)
Definition register_signing_key (fresh : Fresh) (uuid : string) (now : Z) (s : ExperimentState)
    : ExperimentState * outcome ExperimentFailure unit :=
  let signed :=
    match si_dsa_sk (xs_identity s) with
    | Some _ => Some (xs_identity s)
    | None => if signing_works then Some (sign sha256_hex dsa_sign fresh EmptyString (xs_identity s)).1 else None
    end in
  match signed with
  | None => (s, Raise OtherFailure)
  | Some i =>
      let '(i, d, r) := register_in_db sha256_hex b64 uuid now i (xs_audit s) in
      (s <| xs_identity := i |> <| xs_audit := d |>,
       match r with Ret _ => Ret tt | Raise _ => Raise OtherFailure end)
  end.

(** [_record]: results, completion and the signed manifest, on the row. *)
Definition record (fresh : Fresh) (clock : Clock) (r : ExperimentRow) (results : dict) (result_hash : string) (sign : bool)
    (s : ExperimentState) : ExperimentState * outcome ExperimentFailure Experiment :=
  let e := to_experiment r <| x_results := results |> <| x_result_hash := result_hash |>
             <| x_completed_at := Some (ck_time clock) |> <| x_status := COMPLETED |> in
  let signed :=
    if sign then
      let e := e <| x_signing_key_id := si_key_id (xs_identity s) |> in
      let manifest := build_manifest e in
      let '(i, sig) := sign_manifest fresh manifest (xs_identity s) in
      (i, match sig with Ret sig => Ret (e <| x_manifest_signature := sig |>, Some manifest) | Raise x => Raise x end)
    else (xs_identity s, Ret (e, None)) in
  let s := s <| xs_identity := signed.1 |> in
  match signed.2 with
  | Raise x => (s, Raise x)
  | Ret (e, manifest) =>
      (put_row (r <| er_results_json := results |> <| er_result_hash := x_result_hash e |>
                  <| er_completed_at := Some (ck_instant clock) |> <| er_status := x_status e |>
                  <| er_signing_key_id := x_signing_key_id e |> <| er_manifest_json := manifest |>
                  <| er_manifest_signature := x_manifest_signature e |>) s, Ret e)
  end.

(** [complete]; the answer is [None] when there is no such experiment. In one
    step: the source reads the row unlocked and commits in between; none of the
    routes reaches it. *)
Definition complete (user_id experiment_id : string) (results : dict) (sign : bool) (fresh : Fresh) (uuid : string) (clock : Clock)
    (s : ExperimentState) : ExperimentState * outcome ExperimentFailure (option Experiment) :=
  match own_row user_id experiment_id s with
  | None => (s, Ret None)
  | Some r =>
      if negb (bool_decide (er_status r = CREATED))
      then (s, Raise (ExperimentError ("results already recorded (status " +:+ status_value (er_status r) +:+ ")")))
      else
        let '(s, registered) := if sign then register_signing_key fresh uuid (ck_instant clock) s else (s, Ret tt) in
        match registered with
        | Raise x => (s, Raise x)
        | Ret _ =>
            let '(s, e) := record fresh clock r results (hash_results results) sign s in
            match e with
            | Raise x => (s, Raise x)
            | Ret _ => (s, Ret (to_experiment <$> xs_rows s !! experiment_id))
            end
        end
  end.

(** *** Manifests *)

Definition blank_manifest (r : ExperimentRow) : dict :=
  [("experiment_id", JStr (er_id r)); ("signature", JStr (er_manifest_signature r)); ("signature_valid", JBool false);
   ("consistent_with_record", JBool false)].
Definition consistent (manifest : dict) (e : Experiment) : bool :=
  forallb (λ f : string * json, json_same (json_get f.1 manifest) (Some f.2)) (bound_fields e).
(** [_manifest_view], as the two verdicts and the whole answer. *)
Definition manifest_verdicts (r : ExperimentRow) (s : ExperimentState) : bool * bool :=
  match er_manifest_json r with
  | None | Some [] => (false, false)
  | Some manifest => (verify_manifest_signature manifest (er_manifest_signature r) (xs_identity s) (xs_audit s),
                      consistent manifest (to_experiment r))
  end.
Definition manifest_view (r : ExperimentRow) (s : ExperimentState) : dict :=
  match er_manifest_json r with
  | None | Some [] => blank_manifest r
  | Some manifest =>
      let '(valid, same) := manifest_verdicts r s in
      json_set "consistent_with_record" (JBool same) (json_set "signature_valid" (JBool valid)
        (json_set "signature" (JStr (er_manifest_signature r)) manifest))
  end.
Definition get_manifest (user_id experiment_id : string) (s : ExperimentState) : option dict :=
  (λ r, manifest_view r s) <$> own_row user_id experiment_id s.

(** *** Strategy inputs *)

Definition OBI_DEFAULTS : dict :=
  [("obi_threshold", JFloat (nof_ratio 3 10)); ("events_per_bar", JInt 50); ("snapshot_interval", JInt 10); ("warmup_events", JInt 50);
   ("order_quantity", JFloat (nof_Z 100)); ("order_style", JStr "aggressive"); ("cancel_after_events", JNull);
   ("latency_preset", JStr "zero"); ("tick_size", JFloat (nof_ratio 1 100))].
Definition LATENCY_PRESETS : list string := ["zero"; "colocated"; "datacenter"; "regional"; "cloud"; "cross_region"; "retail"].

(** [float] of a text. *)
Variable float_of_text : string → option Numeric.b64.
Definition py_float (v : json) : option Numeric.b64 :=
  match v with
  | JFloat x => Some x
  | JInt z => let x : Numeric.b64 := nof_Z z in if nfinite x then Some x else None
  | JBool b => Some (if b then n1 else n0)
  | JStr s => float_of_text s
  | _ => None
  end.
Definition py_int_of (v : json) : option Z :=
  match v with
  | JInt z => Some z
  | JBool b => Some (if b then 1 else 0)
  | JFloat x => (λ q : Z * Z, Z.quot q.1 q.2) <$> b64_ratio x
  | JStr s => py_int s
  | _ => None
  end.
Definition numeric {A} (v : option A) : outcome ExperimentFailure A := match v with Some a => Ret a | None => Raise OtherFailure end.
Definition refuse_if (c : bool) (message : string) : outcome ExperimentFailure unit := raise_if c (ExperimentError message).

(** [_obi_parameters] *)
Definition obi_parameters (parameters : dict) : outcome ExperimentFailure dict :=
  let! _ := refuse_if (existsb (λ kv, negb (bool_decide (is_Some (json_get kv.1 OBI_DEFAULTS)))) parameters) "unknown obi_momentum parameters" in
  let p := foldl (λ d kv, json_set kv.1 kv.2 d) OBI_DEFAULTS parameters in
  let get key := dget key JNull p in
  let! threshold := numeric (py_float (get "obi_threshold")) in
  let! _ := refuse_if (negb ((n0 <.? threshold) && (threshold <.? n1))) "obi_threshold must be in (0, 1)" in
  let! events := numeric (py_int_of (get "events_per_bar")) in
  let! _ := refuse_if (negb ((2 <=? events) && (events <=? 500))) "events_per_bar must be between 2 and 500" in
  let positive := "order_quantity and tick_size must be positive" in
  let! quantity := numeric (py_float (get "order_quantity")) in
  let! _ := refuse_if (quantity <=.? n0) positive in
  let! tick := numeric (py_float (get "tick_size")) in
  let! _ := refuse_if (tick <=.? n0) positive in
  let! _ := refuse_if (negb (existsb (λ s, json_same (Some (get "order_style")) (Some (JStr s))) ["aggressive"; "passive"]))
              "order_style must be aggressive or passive" in
  let! _ := raise_if (match get "latency_preset" with JArr _ | JObj _ => true | _ => false end) OtherFailure in
  let! _ := refuse_if (negb (existsb (λ s, json_same (Some (get "latency_preset")) (Some (JStr s))) LATENCY_PRESETS))
              "latency_preset must be a preset" in
  Ret p.

(** [check_strategy_inputs] *)
Definition required_keys : list string := ["timestamp"; "open"; "high"; "low"; "close"].
Definition good_bar (b : json) : bool :=
  match b with JObj l => forallb (λ k, bool_decide (is_Some (json_get k l))) required_keys | _ => false end.
Definition check_strategy_inputs (strategy_id : string) (dataset : json) (parameters : dict) : outcome ExperimentFailure dict :=
  let! _ := refuse_if (negb (executable strategy_id)) "the strategy is not executable by the platform" in
  let! p := obi_parameters parameters in
  match dataset with
  | JArr ((_ :: _) as bars) =>
      let! _ := refuse_if (500 <? Z.of_nat (length bars)) "obi_momentum needs a dataset of 1-500 OHLCV bars" in
      let! _ := refuse_if (negb (forallb good_bar bars)) "every bar needs its keys" in
      let! events := numeric (py_int_of (dget "events_per_bar" JNull p)) in
      let! _ := refuse_if (100000 <? Z.of_nat (length bars) * events) "bars x events_per_bar must not exceed 100,000 events" in
      Ret p
  | _ => Raise (ExperimentError "obi_momentum needs a dataset of 1-500 OHLCV bars")
  end.

(** *** Jobs: what the API queues *)

Definition job_params (r : ExperimentRow) (execute : bool) : dict :=
  [("experiment_id", JStr (er_id r)); ("strategy_id", JStr (er_strategy_id r));
   ("dataset", if execute then er_dataset_json r else JNull);
   ("parameters", JObj (if execute then er_parameters_json r else [])); ("random_seed", JInt (er_random_seed r));
   ("execute", JBool execute)].
Definition can_execute (r : ExperimentRow) : bool := executable (er_strategy_id r) && negb (String.eqb (er_result_hash r) EmptyString).

Definition run_job_params (user_id experiment_id : string) (s : ExperimentState) : outcome ExperimentFailure (option dict) :=
  match own_row user_id experiment_id s with
  | None => Ret None
  | Some r =>
      if negb (executable (er_strategy_id r)) then Raise (ExperimentError "the strategy is not executable by the platform")
      else if negb (bool_decide (er_status r = CREATED))
      then Raise (ExperimentError ("experiment already has results (status " +:+ status_value (er_status r) +:+ ")"))
      else let! _ := check_strategy_inputs (er_strategy_id r) (er_dataset_json r) (er_parameters_json r) in Ret (Some (job_params r true))
  end.
Definition validatable (st : ExperimentStatus) : bool := bool_decide (st = COMPLETED ∨ st = VALIDATED).
Definition validate_job_params (user_id experiment_id : string) (s : ExperimentState) : outcome ExperimentFailure (option dict) :=
  match own_row user_id experiment_id s with
  | None => Ret None
  | Some r =>
      if negb (validatable (er_status r))
      then Raise (ExperimentError ("only completed experiments can be validated (status " +:+ status_value (er_status r) +:+ ")"))
      else Ret (Some (job_params r (can_execute r)))
  end.
(** [replay_job_params]: what the caller supplies, each optional. *)
Definition replay_job_params (user_id experiment_id : string) (dataset : option json) (parameters : option dict) (seed : option Z)
    (s : ExperimentState) : option dict :=
  r ← own_row user_id experiment_id s;
  let d_hash := dataset_hash_of (default (er_dataset_json r) dataset) in
  let p_hash := hash_parameters (default (er_parameters_json r) parameters) in
  let seed := default (er_random_seed r) seed in
  let matches := String.eqb d_hash (er_dataset_hash r) && String.eqb p_hash (er_parameter_hash r) && (seed =? er_random_seed r) in
  let verification := JObj [("experiment_id", JStr experiment_id); ("dataset_hash", JStr d_hash); ("parameter_hash", JStr p_hash);
    ("random_seed", JInt seed); ("matches_experiment", JBool matches); ("replay_status", JStr "deterministic_input_verification");
    ("result_reproduced", JNull)] in
  Some (job_params r (matches && can_execute r) ++ [("verification", verification)]).

(** *** Jobs: what the worker records *)

(** [_replay_outcome]: whether the strategy was executed, the hash it gave and
    whether that reproduces the recorded result. [None]: a key is missing. *)
Record ReplayOutcome := mkReplayOutcome {
  ro_executed : bool; ro_result_hash : json; ro_reproduced : bool; ro_engine_matches : bool
}.
Definition replay_outcome (r : ExperimentRow) (execution : dict) : option ReplayOutcome :=
  if negb (truthy (dget "executed" JNull execution)) || negb (executable (er_strategy_id r)) || String.eqb (er_result_hash r) EmptyString
  then Some (mkReplayOutcome false JNull false false)
  else
    inputs ← json_get "inputs" execution;
    hash ← json_get "result_hash" execution;
    Some (mkReplayOutcome true hash
            (json_same (Some inputs) (Some (recorded_inputs r)) && json_same (Some hash) (Some (JStr (er_result_hash r))))
            (String.eqb (or_blank (er_engine_version r)) ENGINE_VERSION)).

(** [_validate_row] *)
Definition inputs_unchanged (r : ExperimentRow) : bool :=
  String.eqb (dataset_hash_of (er_dataset_json r)) (er_dataset_hash r) &&
  String.eqb (hash_parameters (er_parameters_json r)) (er_parameter_hash r).
Definition integrity_gates (r : ExperimentRow) (replay : ReplayOutcome) (s : ExperimentState) : list (string * Gate) :=
  let '(valid, same) := manifest_verdicts r s in
  [("signature_valid", described_gate valid "Manifest signature verifies with the key that signed it");
   ("manifest_consistent", described_gate same "Signed manifest matches the stored experiment");
   ("inputs_unchanged", described_gate (inputs_unchanged r) "Stored dataset and parameters still hash to the recorded values");
   ("result_reproducible", mkGate (ro_reproduced replay) [("value", ro_result_hash replay);
      ("description", JStr (if ro_executed replay then "Re-executing the strategy from stored inputs reproduces the result hash"
                            else "Strategy is not executable by the platform, so its result cannot be reproduced"))])].
Definition validate_row (r : ExperimentRow) (replay : ReplayOutcome) (s : ExperimentState) : option (ExperimentState * list (string * Gate)) :=
  gates ← deployment_gates (to_experiment r);
  let gates := gates ++ integrity_gates r replay s in
  Some (put_row (r <| er_validation_gates_json := JObj (gate_report (er_id r) gates) |>
                   <| er_status := if all_passed gates then VALIDATED else COMPLETED |>) s, gates).

(** *** Finalizers *)

Definition task_error {A} (status : Z) (detail : string) : outcome CompletionError A := Raise (Refused (mkTaskError status detail)).
Definition not_found {A} (experiment_id : string) : outcome CompletionError A :=
  task_error 404 ("Experiment " +:+ experiment_id +:+ " not found").
Definition unsettled {A} (x : ExperimentFailure) : outcome CompletionError A := Raise OtherError.

(** [job.params_json["experiment_id"]] *)
Definition job_experiment (job : ResearchJob) : option string := json_get "experiment_id" (rj_params_json job) ≫= as_text.

Definition finalize_run_job (fresh : Fresh) (uuid : string) (clock : Clock) (s : ExperimentState) (job : ResearchJob) (execution : dict)
    : ExperimentState * outcome CompletionError (json * (string * option string) * json) :=
  match job_experiment job with
  | None => (s, Raise OtherError)
  | Some id =>
      let '(s, registered) := register_signing_key fresh uuid (ck_instant clock) s in
      match registered with
      | Raise _ => (s, Raise OtherError)
      | Ret _ =>
          match own_row (rj_user_id job) id s with
          | None => (s, not_found id)
          | Some r =>
              if negb (bool_decide (er_status r = CREATED))
              then (s, task_error 422 ("experiment already has results (status " +:+ status_value (er_status r) +:+ ")"))
              else match json_get "inputs" execution with
                   | None => (s, Raise (KeyError "inputs"))
                   | Some inputs =>
                       if negb (json_same (Some inputs) (Some (recorded_inputs r)))
                       then (s, task_error 409 "The executed inputs differ from the experiment's recorded inputs; no result was recorded.")
                       else match json_get "results" execution, json_get "result_hash" execution with
                            | Some (JObj results), Some (JStr hash) =>
                                let '(s, e) := record fresh clock r results hash true s in
                                (s, match e with
                                    | Raise _ => Raise OtherError
                                    | Ret e => Ret (JObj (to_dict e ++ [("results", JObj (x_results e))]), ("experiment", Some id),
                                                    JObj [("result_hash", JStr (x_result_hash e))])
                                    end)
                            | _, _ => (s, Raise OtherError)
                            end
                   end
          end
      end
  end.

Definition finalize_validate_job (s : ExperimentState) (job : ResearchJob) (execution : dict)
    : ExperimentState * outcome CompletionError (json * (string * option string) * json) :=
  match job_experiment job with
  | None => (s, Raise OtherError)
  | Some id =>
      match own_row (rj_user_id job) id s with
      | None => (s, not_found id)
      | Some r =>
          if negb (validatable (er_status r))
          then (s, task_error 409 ("only completed experiments can be validated (status " +:+ status_value (er_status r) +:+ ")"))
          else match (replay ← replay_outcome r execution; validate_row r replay s) with
               | None => (s, Raise OtherError)
               | Some (s, gates) =>
                   (s, Ret (JObj (gate_report id gates), ("experiment", Some id), JObj [("all_gates_passed", JBool (all_passed gates))]))
               end
      end
  end.

Definition finalize_replay_job (s : ExperimentState) (job : ResearchJob) (execution : dict)
    : ExperimentState * outcome CompletionError (json * (string * option string) * json) :=
  match job_experiment job with
  | None => (s, Raise OtherError)
  | Some id =>
      match own_row (rj_user_id job) id s with
      | None => (s, not_found id)
      | Some r =>
          match json_get "verification" (rj_params_json job), replay_outcome r execution with
          | Some (JObj verification), Some replay =>
              let response :=
                if ro_executed replay then
                  json_set "engine_version_matches" (JBool (ro_engine_matches replay))
                    (json_set "result_reproduced" (JBool (ro_reproduced replay))
                      (json_set "recorded_result_hash" (JStr (er_result_hash r))
                        (json_set "result_hash" (ro_result_hash replay)
                          (json_set "replay_status" (JStr "re-executed") verification))))
                else verification in
              (s, match json_get "replay_status" response, json_get "result_reproduced" response with
                  | Some status, Some reproduced =>
                      Ret (JObj response, ("experiment", Some id), JObj [("replay_status", status); ("result_reproduced", reproduced)])
                  | _, _ => Raise OtherError
                  end)
          | _, _ => (s, Raise OtherError)
          end
      end
  end.

(** ** Approval *)

Inductive ApprovalError := LookupError | NotApprovable (message : string).
Definition approve_experiment (experiment_id approver_id : string) (now : Z) (s : ExperimentState)
    : ExperimentState * outcome ApprovalError Experiment :=
  match xs_rows s !! experiment_id with
  | None => (s, Raise LookupError)
  | Some r =>
      if bool_decide (er_user_id r = approver_id)
      then (s, Raise (NotApprovable "an experiment cannot be approved by its owner (four-eyes rule)"))
      else if negb (bool_decide (er_status r = VALIDATED))
      then (s, Raise (NotApprovable ("only validated experiments can be approved (status " +:+ status_value (er_status r) +:+ ")")))
      else
        let r := r <| er_status := APPROVED |> <| er_approved_by := Some approver_id |> <| er_approved_at := Some now |> in
        (put_row r s, Ret (to_experiment r))
  end.

(** [POST /api/experiments/{id}/approve]: the operator check, then the approval. *)
Definition experiment_approve (is_admin : bool) (experiment_id user_id : string) (now : Z) (s : ExperimentState)
    : ExperimentState * outcome HTTPException (dict * AuditEvent) :=
  if negb is_admin then (s, Raise (mkHTTPException 403 "approving experiments requires an operator role"))
  else
    let '(s, r) := approve_experiment experiment_id user_id now s in
    (s, match r with
        | Raise LookupError => Raise (mkHTTPException 404 ("Experiment " +:+ experiment_id +:+ " not found"))
        | Raise (NotApprovable message) => Raise (mkHTTPException 409 message)
        | Ret e => Ret (to_dict e, mkAuditEvent user_id "EXPERIMENT_APPROVED" "experiment" (Some experiment_id)
                                     (JObj [("result_hash", JStr (x_result_hash e))]) EmptyString)
        end).
End experiments.
