(* ===== verification/ExperimentsFacts.v ===== *)
(** What the experiment registry promises: the life of an experiment, the
    evidence behind a validated one, and that signed manifests stay
    verifiable. *)

From stdpp Require Import relations.
From Stdlib Require Import Ascii.
From S2P Require Import Prelude Numeric Models Json JsonText JsonRead DatasetFormat AuditTrail AuditFacts Integration ResearchJobs Experiments.
#[local] Open Scope Z_scope.

Section facts.
Variable sha256_hex : string → string.
Variable sha256 : string → string.
Variable hmac_sha256_hex : string → string → string.
Variable b64 : string → string.
Variable unb64 : string → option string.
Variable dsa_sign : string → string → string.
Variable dsa_verify : string → string → string → option bool.
Variable production : bool.
Variable CSRF_SECRET : string.
Variable signing_works : bool.
Variable code_commit : string.
Variable requirements : option string.
Variable obi_source : string.

#[local] Abbreviation unchanged := (inputs_unchanged sha256_hex).
#[local] Abbreviation verdicts := (manifest_verdicts sha256 hmac_sha256_hex unb64 dsa_verify production CSRF_SECRET).
#[local] Abbreviation recording := (record sha256_hex sha256 hmac_sha256_hex dsa_sign production CSRF_SECRET signing_works).
#[local] Abbreviation registering := (register_signing_key sha256_hex b64 dsa_sign signing_works).

(** ** The life of an experiment *)

Definition inputs_of (r : ExperimentRow) :=
  (er_id r, er_user_id r, er_strategy_id r, er_strategy_version r, er_dataset_id r, er_dataset_json r, er_dataset_hash r,
   er_parameters_json r, er_parameter_hash r, er_code_commit r, er_random_seed r, er_execution_model r, er_latency_model r,
   er_created_at r, er_strategy_hash r, er_dependency_lock_hash r, er_engine_version r).
Definition outcome_of (r : ExperimentRow) :=
  (er_result_hash r, er_results_json r, er_manifest_json r, er_manifest_signature r, er_completed_at r, er_signing_key_id r).

(** How a row may change: its inputs never, its outcome only while there is
    none, and once approved not at all. *)
Definition evolves (r r' : ExperimentRow) : Prop :=
  inputs_of r' = inputs_of r ∧
  (er_status r ≠ CREATED → outcome_of r' = outcome_of r ∧ er_status r' ≠ CREATED) ∧
  (er_status r = APPROVED → r' = r).

(** The evidence recorded with a validated row. *)
Definition earned (r : ExperimentRow) : Prop :=
  ∃ gates manifest, er_validation_gates_json r = JObj (gate_report (er_id r) gates) ∧ all_passed gates = true ∧
    (∀ name, name ∈ ["signature_valid"; "manifest_consistent"; "inputs_unchanged"; "result_reproducible"] → ∃ g, (name, g) ∈ gates) ∧
    er_manifest_json r = Some manifest ∧ consistent manifest (to_experiment r) = true ∧
    unchanged r = true ∧ can_execute r = true.

Record row_ok (r : ExperimentRow) : Prop := {
  row_status : er_status r ∈ [CREATED; COMPLETED; VALIDATED; APPROVED];
  row_blank : er_status r = CREATED → er_result_hash r = EmptyString ∧ er_manifest_json r = None;
  row_earned : er_status r = VALIDATED ∨ er_status r = APPROVED → earned r;
  row_approved : match er_approved_by r with
                 | Some approver => er_status r = APPROVED ∧ approver ≠ er_user_id r
                 | None => er_status r ≠ APPROVED
                 end
}.
Definition rows_fine (s : ExperimentState) : Prop := map_Forall (λ id r, er_id r = id ∧ row_ok r) (xs_rows s).

#[export] Instance evolves_preorder : PreOrder evolves.
Proof.
  split.
  - intros r. by split_and!.
  - intros r1 r2 r3 (I1 & O1 & A1) (I2 & O2 & A2). split_and!; [congruence| |].
    + intros H. destruct (O1 H) as [E1 H2]. destruct (O2 H2) as [E2 H3]. split; [congruence|done].
    + intros H. specialize (A1 H) as ->. auto.
Qed.

(** What one operation does to the table. *)
Definition writes (s s' : ExperimentState) : Prop :=
  xs_rows s' = xs_rows s ∨
  ∃ r', xs_rows s' = <[er_id r' := r']> (xs_rows s) ∧ row_ok r' ∧
    match xs_rows s !! er_id r' with Some r => evolves r r' | None => True end.

Lemma writes_fine s s' : rows_fine s → writes s s' →
  rows_fine s' ∧ ∀ id r, xs_rows s !! id = Some r → ∃ r', xs_rows s' !! id = Some r' ∧ evolves r r'.
Proof.
  unfold rows_fine. intros Hs [->|(r' & -> & Hok & He)]; [split; [done|]; intros id r Hr; by exists r|]. split.
  - by apply map_Forall_insert_2.
  - intros id r Hr. destruct (decide (er_id r' = id)) as [<-|Hne].
    + rewrite Hr in He. exists r'. by rewrite lookup_insert_eq.
    + exists r. by rewrite lookup_insert_ne.
Qed.

Lemma writes_from s s1 s2 : xs_rows s1 = xs_rows s → writes s1 s2 → writes s s2.
Proof. unfold writes. by intros ->. Qed.

Lemma own_row_Some u id s r : own_row u id s = Some r → xs_rows s !! id = Some r ∧ er_user_id r = u.
Proof. unfold own_row. destruct (xs_rows s !! id) as [r'|]; [|done]. cbn. case_bool_decide; [|done]. by intros [= ->]. Qed.

Lemma registering_rows f u n s : xs_rows (registering f u n s).1 = xs_rows s.
Proof.
  unfold register_signing_key. destruct (match si_dsa_sk _ with Some _ => _ | None => _ end) as [i|]; [|done].
  by destruct (register_in_db _ _ _ _ _ _) as [[i' d] r].
Qed.

(** Recording writes the row it was given, once. *)
Lemma recording_writes f c r results hash sgn s : xs_rows s !! er_id r = Some r → row_ok r → er_status r = CREATED →
  writes s (recording f c r results hash sgn s).1.
Proof.
  intros Hr Hok Hst. unfold record.
  destruct sgn; [destruct (sign_manifest _ _ _ _ _ _ _ _ _ _) as [i [sig|x]]|]; cbn; [|by left|];
    right; eexists (_ : ExperimentRow); (split; [reflexivity|]); cbn; rewrite Hr; (split; [split; cbn|split_and!; cbn]);
    try done; try (by repeat constructor); try (by rewrite Hst); try (intros [?|?]; done);
    (pose proof (row_approved r Hok) as Ha; rewrite Hst in Ha; destruct (er_approved_by r); [by destruct Ha|done]).
Qed.

Lemma all_passed_app g g' : all_passed (g ++ g') = all_passed g && all_passed g'.
Proof. apply forallb_app. Qed.

Lemma validating_writes r replay s s' gates : xs_rows s !! er_id r = Some r → row_ok r → validatable (er_status r) = true →
  (ro_reproduced replay = true → can_execute r = true) →
  validate_row sha256_hex sha256 hmac_sha256_hex unb64 dsa_verify production CSRF_SECRET r replay s = Some (s', gates) → writes s s'.
Proof.
  intros Hr Hok Hv Hexec. unfold validate_row. destruct (deployment_gates (to_experiment r)) as [dg|]; [|done]. cbn [mbind option_bind].
  set (ig := integrity_gates _ _ _ _ _ _ _ _ _ _). intros [= <- <-]. right.
  match goal with |- context [put_row ?x _] => set (r' := x) end. exists r'. split; [reflexivity|].
  assert (er_status r ≠ CREATED ∧ er_status r ≠ APPROVED) as [Hnc Hna].
  { unfold validatable in Hv. apply bool_decide_eq_true in Hv as [-> | ->]; done. }
  assert (er_approved_by r = None) as Hap.
  { pose proof (row_approved r Hok) as H. destruct (er_approved_by r); [by destruct H|done]. }
  split.
  2:{ change (er_id r') with (er_id r). rewrite Hr. split_and!; [done| |done]. intros _. split; [done|]. cbn. by destruct (all_passed _). }
  split; cbn; rewrite ?Hap.
  - destruct (all_passed _); repeat (constructor; try done).
  - by destruct (all_passed _).
  - destruct (all_passed (dg ++ ig)) eqn:Hall; [|by intros [|]]. intros _.
    rewrite all_passed_app in Hall. apply andb_prop in Hall as [Hdg Hig].
    unfold ig, integrity_gates in Hig. destruct (verdicts r s) as [valid same] eqn:Hverd. cbn in Hig.
    destruct valid; [|done]. destruct same; [|done]. cbn in Hig. rewrite andb_true_r in Hig. apply andb_prop in Hig as [Hin Hrep].
    unfold manifest_verdicts in Hverd. destruct (er_manifest_json r) as [m|] eqn:Em; [|done].
    exists (dg ++ ig), m. split_and!; cbn; try done.
    + rewrite all_passed_app, Hdg. unfold ig, integrity_gates. unfold manifest_verdicts. rewrite Em, Hverd. cbn. by rewrite Hin, Hrep.
    + intros name Hn. unfold ig, integrity_gates. destruct (verdicts r s).
      repeat (apply elem_of_cons in Hn as [->|Hn]); [..|by apply not_elem_of_nil in Hn]; eexists; apply elem_of_app; right;
        repeat (apply elem_of_cons; (left; reflexivity) || right).
    + destruct m; [done|]. by injection Hverd.
    + by apply Hexec.
  - by destruct (all_passed _).
Qed.

Lemma replay_reproduced r execution o : replay_outcome r execution = Some o → ro_reproduced o = true →
  can_execute r = true ∧ truthy (dget "executed" JNull execution) = true ∧
  json_same (json_get "inputs" execution) (Some (recorded_inputs r)) = true ∧
  json_same (json_get "result_hash" execution) (Some (JStr (er_result_hash r))) = true.
Proof.
  unfold replay_outcome, can_execute. destruct (truthy _) eqn:Et; cbn [negb orb]; [|by intros [= <-]].
  destruct (executable _); cbn [negb orb andb]; [|by intros [= <-]]. destruct (String.eqb _ _); [by intros [= <-]|].
  destruct (json_get "inputs" execution) as [x|]; [|done]. destruct (json_get "result_hash" execution) as [h|]; [|done]. cbn [mbind option_bind].
  intros [= <-]. cbn [ro_reproduced]. by intros [H1 H2]%andb_prop.
Qed.

(** *** Every operation *)

Inductive experiment_op :=
| OpCreate (user id strategy version dataset_id : string) (dataset : json) (parameters : list (string * json)) (seed : Z)
    (execution latency : string) (now : Z)
| OpComplete (user id : string) (results : list (string * json)) (sign : bool) (fresh : Fresh) (uuid : string) (clock : Clock)
| OpRun (fresh : Fresh) (uuid : string) (clock : Clock) (job : ResearchJob) (execution : list (string * json))
| OpValidate (job : ResearchJob) (execution : list (string * json))
| OpReplay (job : ResearchJob) (execution : list (string * json))
| OpApprove (id approver : string) (now : Z)
| OpRotate (fresh : Fresh) (uuid : string) (now : Z)
| OpProcess (i : ServerIdentity).

#[local] Abbreviation completing := (complete sha256_hex sha256 hmac_sha256_hex b64 dsa_sign production CSRF_SECRET signing_works).
#[local] Abbreviation finishing := (finalize_run_job sha256_hex sha256 hmac_sha256_hex b64 dsa_sign production CSRF_SECRET signing_works).
#[local] Abbreviation checking := (finalize_validate_job sha256_hex sha256 hmac_sha256_hex unb64 dsa_verify production CSRF_SECRET).

(** The state after an operation: by any user, in any process. *)
Definition run_experiment (s : ExperimentState) (op : experiment_op) : ExperimentState :=
  match op with
  | OpCreate u id st v di d p seed em lm now => (create sha256_hex code_commit requirements obi_source u id st v di d p seed em lm now s).1
  | OpComplete u id results sgn f uuid c => (completing u id results sgn f uuid c s).1
  | OpRun f uuid c job x => (finishing f uuid c s job x).1
  | OpValidate job x => (checking s job x).1
  | OpReplay job x => (finalize_replay_job s job x).1
  | OpApprove id a now => (approve_experiment id a now s).1
  | OpRotate f uuid now =>
      let '(i, d, _) := rotate sha256_hex b64 f uuid now (xs_identity s) (xs_audit s) in s <| xs_identity := i |> <| xs_audit := d |>
  | OpProcess i => s <| xs_identity := i |>
  end.

Lemma created_ok id u st v di d p ph dh cc seed em lm now sh lh :
  row_ok (mkExperimentRow id u st v di d dh p ph cc seed em lm CREATED EmptyString [] (JObj []) EmptyString now None sh lh
            (Some ENGINE_VERSION) None None None None).
Proof. split; cbn; [by left|done|by intros [|]|done]. Qed.

Lemma operation_writes op s : rows_fine s → writes s (run_experiment s op).
Proof.
  intros Hs. destruct op; cbn [run_experiment].
  - unfold create. destruct (xs_rows s !! id) eqn:E; [by left|]. right. eexists (_ : ExperimentRow). split; [reflexivity|].
    cbn [er_id]. split; [apply created_ok|by rewrite E].
  - unfold complete. destruct (own_row user id s) as [r|] eqn:Er; [|by left]. apply own_row_Some in Er as [Hr _].
    destruct (Hs _ _ Hr) as [Hid Hok]. subst id. destruct (bool_decide_reflect (er_status r = CREATED)) as [Hst|]; [|by left]. cbn [negb].
    pose proof (registering_rows fresh uuid (ck_instant clock) s) as Hreg.
    destruct sign; cbn.
    + destruct (registering fresh uuid (ck_instant clock) s) as [s1 [[]|x]]; cbn in Hreg; [|by left].
      eapply writes_from; [exact Hreg|].
      pose proof (recording_writes fresh clock r results (hash_results sha256_hex results) true s1) as Hw. rewrite Hreg in Hw. specialize (Hw Hr Hok Hst).
      destruct (recording _ _ _ _ _ _ s1) as [s2 [e|x]]; exact Hw.
    + pose proof (recording_writes fresh clock r results (hash_results sha256_hex results) false s Hr Hok Hst) as Hw.
      exact Hw.
  - unfold finalize_run_job. destruct (job_experiment job) as [id|]; [|by left].
    pose proof (registering_rows fresh uuid (ck_instant clock) s) as Hreg.
    destruct (registering fresh uuid (ck_instant clock) s) as [s1 [[]|x]]; cbn in Hreg; [|by left].
    destruct (own_row (rj_user_id job) id s1) as [r|] eqn:Er; [|by left]. apply own_row_Some in Er as [Hr _]. rewrite Hreg in Hr.
    destruct (Hs _ _ Hr) as [Hid Hok]. destruct (bool_decide_reflect (er_status r = CREATED)) as [Hst|]; [|by left]. cbn [negb].
    destruct (json_get "inputs" execution); [|by left]. destruct (negb _); [by left|].
    destruct (json_get "results" execution) as [[| | | | | |l]|]; try by left. destruct (json_get "result_hash" execution) as [[| | | |h| |]|]; try by left.
    rewrite <-Hid in Hr.
    eapply writes_from; [exact Hreg|].
    pose proof (recording_writes fresh clock r l h true s1) as Hw. rewrite Hreg in Hw. specialize (Hw Hr Hok Hst).
    destruct (recording _ _ _ _ _ _ s1) as [s2 [e|x]]; exact Hw.
  - unfold finalize_validate_job. destruct (job_experiment job) as [id|]; [|by left].
    destruct (own_row (rj_user_id job) id s) as [r|] eqn:Er; [|by left]. apply own_row_Some in Er as [Hr _].
    destruct (Hs _ _ Hr) as [Hid Hok]. destruct (validatable (er_status r)) eqn:Hv; [|by left]. cbn [negb].
    destruct (replay_outcome r execution) as [o|] eqn:Eo; [|by left]. cbn [mbind option_bind].
    destruct (validate_row _ _ _ _ _ _ _ _ _ _) as [[s' gates]|] eqn:Ev; [|by left]. cbn.
    rewrite <-Hid in Hr. eapply (validating_writes r o s s' gates); [done|done|done| |done]. intros H. exact (proj1 (replay_reproduced r execution o Eo H)).
  - unfold finalize_replay_job. destruct (job_experiment job) as [id|]; [|by left]. destruct (own_row _ _ _); [|by left].
    destruct (json_get "verification" _) as [[| | | | | |]|]; try by left. destruct (replay_outcome _ _); by left.
  - unfold approve_experiment. destruct (xs_rows s !! id) as [r|] eqn:Hr; [|by left]. case_bool_decide as Hu; [by left|].
    destruct (bool_decide_reflect (er_status r = VALIDATED)) as [Hst|]; [|by left]. cbn [negb]. right.
    destruct (Hs _ _ Hr) as [<- Hok]. eexists (_ : ExperimentRow). split; [reflexivity|]. cbn. rewrite Hr. split.
    + split; cbn; [by repeat constructor|done| |done]. intros _. destruct (row_earned r Hok) as (g & m & H); [by left|]. exists g, m. exact H.
    + unfold evolves. split_and!; [done| |]; cbn; rewrite Hst; [by split|done].
  - destruct (rotate _ _ _ _ _ _ _) as [[i d] r]. by left.
  - by left.
Qed.

(** C8: The life of an experiment. Whatever users, research jobs and
    operators do, in any order: an experiment is created with its inputs,
    which never change; its results and signed manifest are recorded at most
    once; it is validated only with a stored report in which every gate
    passed, a manifest that matches the row, inputs that still hash to the
    recorded values and a result the platform can re-execute; it is approved
    only from there, by somebody other than its owner; and once approved its
    row never changes again. *)
Theorem experiment_life ops s :
  rows_fine s → let s' := foldl run_experiment s ops in
  rows_fine s' ∧ ∀ id r, xs_rows s !! id = Some r → ∃ r', xs_rows s' !! id = Some r' ∧ evolves r r'.
Proof.
  revert s. induction ops as [|op ops IH]; intros s Hs; cbn [foldl]; [split; [done|]; intros id r Hr; by exists r|].
  destruct (writes_fine s _ Hs (operation_writes op s Hs)) as [Hs1 He1]. destruct (IH _ Hs1) as [Hs2 He2]. split; [done|].
  intros id r Hr. destruct (He1 id r Hr) as (r1 & Hr1 & E1). destruct (He2 id r1 Hr1) as (r2 & Hr2 & E2). exists r2. split; [done|]. by etrans.
Qed.

(** C14: Validation re-checks everything. When a validation job makes an
    experiment VALIDATED, the job's own execution of the strategy ran, on the
    recorded inputs, and gave the recorded result hash; the stored manifest's
    signature verified with the key that signed it; the manifest matches the
    row; and the stored dataset and parameters hash to the recorded values. *)
Theorem validated_means_reproduced s job execution id r r' :
  rows_fine s → job_experiment job = Some id → xs_rows s !! id = Some r →
  xs_rows (checking s job execution).1 !! id = Some r' → er_status r ≠ VALIDATED → er_status r' = VALIDATED →
  er_user_id r = rj_user_id job ∧ executable (er_strategy_id r) = true ∧
  json_same (json_get "inputs" execution) (Some (recorded_inputs r)) = true ∧
  json_same (json_get "result_hash" execution) (Some (JStr (er_result_hash r))) = true ∧
  verdicts r s = (true, true) ∧ unchanged r = true.
Proof.
  intros Hs Hj Hr. unfold finalize_validate_job. rewrite Hj. destruct (own_row (rj_user_id job) id s) as [r0|] eqn:Er.
  2:{ cbn. rewrite Hr. intros [= <-]. done. }
  apply own_row_Some in Er as [Hr0 Hu]. rewrite Hr in Hr0. injection Hr0 as <-.
  destruct (validatable (er_status r)); cbn [negb]; [|cbn; rewrite Hr; by intros [= <-]].
  destruct (replay_outcome r execution) as [o|] eqn:Eo; cbn [mbind option_bind]; [|cbn; rewrite Hr; by intros [= <-]].
  unfold validate_row. destruct (deployment_gates (to_experiment r)) as [dg|]; cbn [mbind option_bind]; [|cbn; rewrite Hr; by intros [= <-]].
  cbn. destruct (Hs _ _ Hr) as [Hid _]. rewrite Hid, lookup_insert_eq. intros [= <-] _. cbn.
  rewrite all_passed_app. unfold integrity_gates. destruct (verdicts r s) as [valid same]. cbn.
  destruct valid, same; cbn; rewrite ?andb_false_r; try done.
  destruct (unchanged r); cbn; rewrite ?andb_false_r; [|done]. destruct (ro_reproduced o) eqn:Erep; cbn; rewrite ?andb_false_r; [|done]. intros _.
  destruct (replay_reproduced r execution o Eo Erep) as (Hc & _ & H1 & H2). unfold can_execute in Hc. apply andb_prop in Hc as [Hx _].
  by split_and!.
Qed.
End facts.

(** ** Hexadecimal *)

Lemma hex_value_digit n : (n < 16)%nat → hex_value (hex_digit n) = Some (Z.of_nat n) ∧ blank (hex_digit n) = false.
Proof. intros Hn. do 16 (destruct n as [|n]; [split; reflexivity|]). lia. Qed.

Lemma from_hex_text s : from_hex (hex_text s) = Some s.
Proof.
  induction s as [|c s IH]; [done|]. cbn [hex_text from_hex]. pose proof (nat_ascii_bounded c) as Hc.
  destruct (hex_value_digit (nat_of_ascii c / 16)) as [Ha Hb]; [apply Nat.Div0.div_lt_upper_bound; lia|].
  destruct (hex_value_digit (nat_of_ascii c mod 16)) as [Ha' _]; [apply Nat.mod_upper_bound; lia|].
  rewrite Hb, Ha, Ha'. cbn [mbind option_bind]. rewrite IH. cbn [mbind option_bind]. do 2 f_equal.
  replace (16 * Z.of_nat (nat_of_ascii c / 16) + Z.of_nat (nat_of_ascii c mod 16)) with (Z.of_nat (nat_of_ascii c)).
  - unfold byte_char. rewrite <-nat_N_Z, N2Z.id. apply ascii_nat_embedding.
  - rewrite (Nat.div_mod_eq (nat_of_ascii c) 16) at 1. lia.
Qed.

(** ** Signed manifests stay verifiable *)

Section signatures.
Variable sha256_hex : string → string.
Variable sha256 : string → string.
Variable hmac_sha256_hex : string → string → string.
Variable b64 : string → string.
Variable unb64 : string → option string.
Variable dsa_sign : string → string → string.
Variable dsa_verify : string → string → string → option bool.
Variable production : bool.
Variable CSRF_SECRET : string.
Variable code_commit : string.
Variable requirements : option string.
Variable obi_source : string.

(** ML-DSA key pairs: signatures verify, keys have bytes, and fingerprints
    tell them apart; base64 is decoded back. *)
Variable key_pair : string → string → Prop.
Hypothesis sign_verifies : ∀ pk sk m, key_pair pk sk → dsa_verify pk m (dsa_sign sk m) = Some true.
Hypothesis keys_nonempty : ∀ pk sk, key_pair pk sk → pk ≠ "".
Hypothesis fingerprints_differ : ∀ pk sk pk' sk', key_pair pk sk → key_pair pk' sk' → sha256_hex pk = sha256_hex pk' → pk = pk'.
Hypothesis b64_decodes : ∀ x, unb64 (b64 x) = Some x.

#[local] Abbreviation verdicts := (manifest_verdicts sha256 hmac_sha256_hex unb64 dsa_verify production CSRF_SECRET).
#[local] Abbreviation recording := (record sha256_hex sha256 hmac_sha256_hex dsa_sign production CSRF_SECRET true).
#[local] Abbreviation registering := (register_signing_key sha256_hex b64 dsa_sign true).
#[local] Abbreviation keys_ok := (audited sha256_hex b64 unb64 dsa_verify key_pair).
#[local] Abbreviation id_ok := (identity_ok sha256_hex unb64 key_pair).
#[local] Abbreviation run := (run_experiment sha256_hex sha256 hmac_sha256_hex b64 unb64 dsa_sign dsa_verify production CSRF_SECRET true
                                code_commit requirements obi_source).

(** A row's manifest, if it has one, matches it and verifies with a
    registered key. *)
Definition signed_row (d : AuditDB) (r : ExperimentRow) : Prop :=
  ∀ m, er_manifest_json r = Some m → m ≠ [] ∧ consistent m (to_experiment r) = true ∧
    ∃ k pk sig, json_get "signing_key_id" m = Some (JStr k) ∧ k ≠ "" ∧ key_of unb64 d k pk ∧
      er_manifest_signature r = ml_dsa_prefix +:+ hex_text sig ∧ dsa_verify pk (canonical_ (JObj m)) sig = Some true.

Definition signed_ok (s : ExperimentState) : Prop :=
  rows_fine sha256_hex s ∧ keys_ok (xs_audit s) ∧ id_ok (xs_audit s) (xs_identity s) ∧
  ∀ id r, xs_rows s !! id = Some r → signed_row (xs_audit s) r.

(** What the operations are given: new key pairs and ids that are no blank
    text; a process's identity is one whose keys, if registered, are its own. *)
Definition op_fine (s : ExperimentState) (op : experiment_op) : Prop :=
  match op with
  | OpComplete _ _ _ _ f uuid _ | OpRun f uuid _ _ _ | OpRotate f uuid _ => fresh_ok key_pair f ∧ uuid ≠ ""
  | OpProcess i => id_ok (xs_audit s) i
  | _ => True
  end.
Definition experiment_step (s s' : ExperimentState) : Prop := ∃ op, op_fine s op ∧ s' = run s op.

Lemma signed_row_grows d d' r : grows d d' → signed_row d r → signed_row d' r.
Proof.
  intros Hg Hr m Hm. destruct (Hr m Hm) as (Hne & Hc & k & pk & sig & Hk & Hkne & Ho & Hs & Hv). split_and!; [done|done|].
  exists k, pk, sig. split_and!; try done. by eapply key_of_grows.
Qed.

Lemma signed_row_evolves d r r' : evolves r r' → er_status r ≠ CREATED → signed_row d r → signed_row d r'.
Proof.
  intros (Hi & Ho & _) Hst Hr m Hm. destruct (Ho Hst) as [E _]. destruct r, r'. unfold inputs_of, outcome_of in Hi, E. cbn in Hi, E, Hm.
  simplify_eq. exact (Hr m eq_refl).
Qed.

Lemma registering_ok f uuid now s : fresh_ok key_pair f → uuid ≠ "" → keys_ok (xs_audit s) → id_ok (xs_audit s) (xs_identity s) →
  let '(s', r) := registering f uuid now s in
  xs_rows s' = xs_rows s ∧ grows (xs_audit s) (xs_audit s') ∧ keys_ok (xs_audit s') ∧ id_ok (xs_audit s') (xs_identity s') ∧
  (r = Ret tt → si_registered (xs_identity s') = true).
Proof.
  intros Hf Hu Ha Hi. unfold register_signing_key.
  set (signed := match si_dsa_sk _ with Some _ => _ | None => _ end).
  assert (∃ i, signed = Some i ∧ id_ok (xs_audit s) i ∧ is_Some (si_dsa_sk i)) as (i & -> & Hi' & [sk Hsk]).
  { subst signed. destruct (si_dsa_sk (xs_identity s)) eqn:E; [by exists (xs_identity s)|].
    eexists. split; [reflexivity|]. unfold sign. rewrite E. cbn [fst]. split; [by apply ensure_keypair_ok|by eexists]. }
  pose proof (register_ok sha256_hex b64 unb64 dsa_verify key_pair keys_nonempty fingerprints_differ b64_decodes uuid now i (xs_audit s) Hu Ha Hi') as H.
  destruct (register_in_db _ _ _ _ _ _) as [[i' d'] r]. destruct H as (Hg & Ha' & Hi'' & Hreg & _). cbn. split_and!; try done.
  intros Hr. destruct (io_sk _ _ _ _ _ Hi' sk Hsk) as (pk & Hpk & _). destruct r as [x|]; [|done]. apply (Hreg ltac:(congruence) x eq_refl).
Qed.

Lemma bound_fields_read e e' : bound_fields e' = bound_fields e → consistent (build_manifest e) e' = true.
Proof.
  intros E. unfold consistent. rewrite E. apply forallb_forall. intros [k v] Hin.
  change (json_same (json_get k (build_manifest e)) (Some v) = true).
  assert (json_get k (build_manifest e) = Some v ∧ match v with JStr _ | JInt _ => True | _ => False end) as [-> Hv].
  { cbn in Hin. repeat (destruct Hin as [[= <- <-]|Hin]; [split; [reflexivity|done]|]). destruct Hin. }
  unfold json_same. destruct v; try done; cbn; [apply Z.eqb_eq; lia|by apply bool_decide_eq_true].
Qed.

Lemma recording_signed f c r results hash s s' out : xs_rows s !! er_id r = Some r →
  id_ok (xs_audit s) (xs_identity s) → si_registered (xs_identity s) = true →
  recording f c r results hash true s = (s', out) →
  xs_audit s' = xs_audit s ∧ xs_identity s' = xs_identity s ∧
  ∃ r', xs_rows s' = <[er_id r := r']> (xs_rows s) ∧ signed_row (xs_audit s) r'.
Proof.
  intros Hr Hi Hreg. destruct (registered_identity _ _ _ _ _ Hi Hreg) as (k & pk & sk & Hk & Hkne & Hpk & Hsk & Hp & Ho).
  unfold record, sign_manifest. rewrite (sign_ok sha256_hex dsa_sign f _ (xs_identity s) sk Hsk). cbn. intros [= <- <-]. cbn.
  split_and!; [done|done|]. eexists. split; [reflexivity|]. intros m Hm. cbn in Hm. injection Hm as <-. split_and!; [done|by apply bound_fields_read|].
  rewrite Hk. eexists k, pk, _. split_and!; [reflexivity|done|done|cbn; reflexivity|]. by apply sign_verifies.
Qed.

(** A row that has a manifest is past its creation. *)
Lemma manifest_not_created r m : row_ok sha256_hex r → er_manifest_json r = Some m → er_status r ≠ CREATED.
Proof. intros Hok Hm Hst. destruct (row_blank _ _ Hok Hst) as [_ Hn]. congruence. Qed.

(** Operations that sign nothing keep what was signed. *)
Lemma quiet_signed s s' : signed_ok s → writes sha256_hex s s' → xs_audit s' = xs_audit s → xs_identity s' = xs_identity s →
  (∀ id r, xs_rows s' !! id = Some r → xs_rows s !! id = None → er_manifest_json r = None) →
  (∀ id r r', xs_rows s !! id = Some r → xs_rows s' !! id = Some r' → er_status r = CREATED → er_manifest_json r' = None) →
  signed_ok s'.
Proof.
  intros (Hf & Ha & Hi & Hs) Hw Ea Ei Hnew Hblank. destruct (writes_fine _ _ _ Hf Hw) as [Hf' He].
  unfold signed_ok. rewrite Ea, Ei. split_and!; [done|done|done|]. intros id r' Hr'.
  destruct (xs_rows s !! id) as [r|] eqn:Hr.
  - destruct (He id r Hr) as (r2 & Hr2 & Hev). rewrite Hr' in Hr2. injection Hr2 as <-.
    destruct (decide (er_status r = CREATED)) as [Hst|Hst]; [intros m Hm; by rewrite (Hblank id r r') in Hm|].
    eapply signed_row_evolves; [done|done|by eapply Hs].
  - intros m Hm. by rewrite (Hnew id r') in Hm.
Qed.

Lemma recorded_signed s s1 s' f c r results hash out : signed_ok s → grows (xs_audit s) (xs_audit s1) → xs_rows s1 = xs_rows s →
  keys_ok (xs_audit s1) → id_ok (xs_audit s1) (xs_identity s1) → si_registered (xs_identity s1) = true →
  xs_rows s !! er_id r = Some r → er_status r = CREATED →
  recording f c r results hash true s1 = (s', out) → signed_ok s'.
Proof.
  intros (Hf & Ha & Hi & Hs) Hg Erows Ha1 Hi1 Hreg Hr Hst E.
  destruct (Hf _ _ Hr) as [_ Hok]. 
  assert (writes sha256_hex s1 s') as Hw.
  { pose proof (recording_writes sha256_hex sha256 hmac_sha256_hex dsa_sign production CSRF_SECRET true f c r results hash true s1) as H.
    rewrite Erows, E in H. by apply H. }
  assert (rows_fine sha256_hex s1) as Hf1 by (unfold rows_fine; by rewrite Erows).
  destruct (writes_fine _ _ _ Hf1 Hw) as [Hf' _].
  destruct (recording_signed f c r results hash s1 s' out ltac:(by rewrite Erows) Hi1 Hreg E) as (Ea & Ei & r' & Er & Hsig).
  unfold signed_ok. rewrite Ea, Ei. split_and!; [done|done|done|]. intros id r0. rewrite Er, Erows.
  intros [[<- <-]|[_ Hr0]]%lookup_insert_Some; [done|]. eapply signed_row_grows; [done|by eapply Hs].
Qed.

Lemma rows_only_signed s s' : signed_ok s → xs_rows s' = xs_rows s → grows (xs_audit s) (xs_audit s') →
  keys_ok (xs_audit s') → id_ok (xs_audit s') (xs_identity s') → signed_ok s'.
Proof.
  intros (Hf & _ & _ & Hs) Er Hg Ha Hi. split_and!; [unfold rows_fine; by rewrite Er|done|done|].
  intros id r. rewrite Er. intros Hr. eapply signed_row_grows; [done|by eapply Hs].
Qed.
Lemma step_signed s op : signed_ok s → op_fine s op → signed_ok (run s op).
Proof.
  intros Hs Hop. pose proof Hs as (Hf & Ha & Hi & Hrows).
  pose proof (operation_writes sha256_hex sha256 hmac_sha256_hex b64 unb64 dsa_sign dsa_verify production CSRF_SECRET true
                code_commit requirements obi_source op s Hf) as Hw.
  destruct op; cbn [run_experiment op_fine] in *.
  - apply (quiet_signed s); try done; unfold create in *; destruct (xs_rows s !! id) as [r0|] eqn:E; try done; cbn.
    + by intros id' r Hr Hn; rewrite Hr in Hn.
    + intros id' r [[<- <-]|[_ Hr]]%lookup_insert_Some Hn; [done|congruence].
    + intros id' r r' Hr Hr' Hst. rewrite Hr in Hr'. injection Hr' as <-. destruct (Hf _ _ Hr) as [_ Hok]. apply (row_blank _ _ Hok Hst).
    + intros id' r r' Hr [[<- <-]|[_ Hr']]%lookup_insert_Some; [by rewrite E in Hr|].
      intros Hst. rewrite Hr in Hr'. injection Hr' as <-. destruct (Hf _ _ Hr) as [_ Hok]. apply (row_blank _ _ Hok Hst).
  - destruct Hop as [Hfr Hu]. unfold complete in *. destruct (own_row user id s) as [r|] eqn:Er; [|done].
    apply own_row_Some in Er as [Hr _]. destruct (Hf _ _ Hr) as [<- Hok].
    destruct (bool_decide_reflect (er_status r = CREATED)) as [Hst|]; [|done]. cbn [negb] in *. destruct sign.
    + pose proof (registering_ok fresh uuid (ck_instant clock) s Hfr Hu Ha Hi) as Hreg.
      destruct (registering fresh uuid (ck_instant clock) s) as [s1 [[]|x]]; destruct Hreg as (E & Hg & Ha1 & Hi1 & Hr1).
      * destruct (recording _ _ _ _ _ _ s1) as [s2 out] eqn:Erec.
        assert (signed_ok s2) as Hs2 by (eapply recorded_signed; [exact Hs|exact Hg|exact E|done|done|by apply Hr1|done|done|exact Erec]).
        by destruct out.
      * by apply (rows_only_signed s).
    + apply (quiet_signed s); try done; cbn.
      * intros id r0 [[<- <-]|[_ Hr0]]%lookup_insert_Some Hn; [done|congruence].
      * intros id r0 r' Hr0 [[<- <-]|[_ Hr']]%lookup_insert_Some Hst'; [done|].
        rewrite Hr0 in Hr'. injection Hr' as <-. destruct (Hf _ _ Hr0) as [_ Hok0]. apply (row_blank _ _ Hok0 Hst').
  - destruct Hop as [Hfr Hu]. unfold finalize_run_job in *. destruct (job_experiment job) as [id|]; [|done].
    pose proof (registering_ok fresh uuid (ck_instant clock) s Hfr Hu Ha Hi) as Hreg.
    destruct (registering fresh uuid (ck_instant clock) s) as [s1 [[]|x]]; destruct Hreg as (E & Hg & Ha1 & Hi1 & Hr1);
      [|by apply (rows_only_signed s)].
    assert (signed_ok s1) as Hs1 by by apply (rows_only_signed s).
    destruct (own_row (rj_user_id job) id s1) as [r|] eqn:Er; [|done]. apply own_row_Some in Er as [Hr _]. rewrite E in Hr.
    destruct (Hf _ _ Hr) as [<- Hok]. destruct (bool_decide_reflect (er_status r = CREATED)) as [Hst|]; [|done]. cbn [negb].
    destruct (json_get "inputs" execution) as [inp|]; [|exact Hs1]. destruct (negb (json_same (Some inp) _)); [exact Hs1|].
    destruct (json_get "results" execution) as [[| | | | | |l]|]; try done. destruct (json_get "result_hash" execution) as [[| | | |h| |]|]; try done.
    destruct (recording _ _ _ _ _ _ s1) as [s2 out] eqn:Erec. cbn [fst].
    eapply recorded_signed; [exact Hs|exact Hg|exact E|done|done|by apply Hr1|done|done|exact Erec].
  - apply (quiet_signed s); [done|exact Hw| | | |];
      unfold finalize_validate_job; destruct (job_experiment job) as [id|];
      try (destruct (own_row (rj_user_id job) id s) as [r|] eqn:Er);
      try (destruct (negb (validatable (er_status r))) eqn:Hv);
      try (destruct (replay_outcome r execution) as [o|]; cbn [mbind option_bind]; unfold validate_row;
           [destruct (deployment_gates (to_experiment r)) as [dg|]; cbn [mbind option_bind]|]); cbn; try done;
      try (by intros id' r0 Hr0 Hn; rewrite Hr0 in Hn);
      try (intros id' r0 r' Hr0 Hr' Hst; rewrite Hr0 in Hr'; injection Hr' as <-; destruct (Hf _ _ Hr0) as [_ Hok]; apply (row_blank _ _ Hok Hst)).
    + apply own_row_Some in Er as [Hr _]. destruct (Hf _ _ Hr) as [<- Hok].
      intros id' r0 [[<- <-]|[_ Hr0]]%lookup_insert_Some Hn; congruence.
    + apply own_row_Some in Er as [Hr _]. destruct (Hf _ _ Hr) as [<- Hok].
      intros id' r0 r' Hr0 [[<- <-]|[_ Hr']]%lookup_insert_Some Hst.
      * rewrite Hr in Hr0. injection Hr0 as <-. unfold validatable in Hv. by rewrite Hst in Hv.
      * rewrite Hr0 in Hr'. injection Hr' as <-. destruct (Hf _ _ Hr0) as [_ Hok0]. apply (row_blank _ _ Hok0 Hst).
  - unfold finalize_replay_job. destruct (job_experiment job); [|done]. destruct (own_row _ _ _); [|done].
    destruct (json_get "verification" _) as [[| | | | | |]|]; try done. by destruct (replay_outcome _ _).
  - apply (quiet_signed s); [done|exact Hw| | | |]; unfold approve_experiment; destruct (xs_rows s !! id) as [r|] eqn:Hr; try done;
      try (destruct (bool_decide (er_user_id r = approver))); try (destruct (negb (bool_decide (er_status r = VALIDATED))) eqn:Hv); cbn; try done;
      try (by intros id' r0 Hr0 Hn; rewrite Hr0 in Hn);
      try (intros id' r0 r' Hr0 Hr' Hst; rewrite Hr0 in Hr'; injection Hr' as <-; destruct (Hf _ _ Hr0) as [_ Hok]; apply (row_blank _ _ Hok Hst)).
    + destruct (Hf _ _ Hr) as [<- Hok]. intros id' r0 [[<- <-]|[_ Hr0]]%lookup_insert_Some Hn; congruence.
    + destruct (Hf _ _ Hr) as [<- Hok]. intros id' r0 r' Hr0 [[<- <-]|[_ Hr']]%lookup_insert_Some Hst.
      * rewrite Hr in Hr0. injection Hr0 as <-. by rewrite Hst in Hv.
      * rewrite Hr0 in Hr'. injection Hr' as <-. destruct (Hf _ _ Hr0) as [_ Hok0]. apply (row_blank _ _ Hok0 Hst).
  - destruct Hop as [Hfr Hu].
    pose proof (rotate_ok sha256_hex b64 unb64 dsa_verify key_pair keys_nonempty fingerprints_differ b64_decodes fresh uuid now
                  (xs_identity s) (xs_audit s) Hu Hfr Ha Hi) as H.
    destruct (rotate _ _ _ _ _ _ _) as [[i d] r]. destruct H as (Hg & Ha' & Hi' & _). by apply (rows_only_signed s).
  - by apply (rows_only_signed s).
Qed.

Lemma ops_reach ops s : Forall (λ op, ∀ s, op_fine s op) ops → rtc experiment_step s (foldl run s ops).
Proof.
  intros H. revert s. induction H as [|op ops Hop H IH]; intros s; [apply rtc_refl|].
  eapply rtc_l; [|apply IH]. by exists op.
Qed.

(** Signed manifests stay verifiable. With ML-DSA at work, after any
    sequence of operations by users, jobs, operators and processes, key
    rotations included, every manifest that was ever stored still verifies
    and still matches its row, whichever process asks; its owner reads it
    exactly as signed, with both verdicts true. *)
Theorem signed_manifests_stay_verifiable s s' id r m i :
  signed_ok s → rtc experiment_step s s' → xs_rows s' !! id = Some r → er_manifest_json r = Some m →
  verdicts r (s' <| xs_identity := i |>) = (true, true) ∧
  get_manifest sha256 hmac_sha256_hex unb64 dsa_verify production CSRF_SECRET (er_user_id r) id s' =
    Some (json_set "consistent_with_record" (JBool true) (json_set "signature_valid" (JBool true)
            (json_set "signature" (JStr (er_manifest_signature r)) m))).
Proof.
  intros Hs Hr. assert (signed_ok s') as (_ & _ & _ & Hrows) by (induction Hr as [|s s1 s2 (op & Hop & ->) Hr IH]; auto using step_signed).
  intros Hid Hm. destruct (Hrows id r Hid m Hm) as (Hne & Hc & k & pk & sig & Hk & Hkne & (row & Hrow & Hpk & _) & Esig & Hv).
  assert (∀ i, verdicts r (s' <| xs_identity := i |>) = (true, true)) as Hver.
  { intros i'. unfold manifest_verdicts. rewrite Hm. destruct m as [|f m]; [done|]. rewrite Hc. f_equal.
    unfold verify_manifest_signature. rewrite Esig.
    change (literal hmac_prefix (ml_dsa_prefix +:+ hex_text sig)) with (@None string).
    change (literal ml_dsa_prefix (ml_dsa_prefix +:+ hex_text sig)) with (Some (hex_text sig)). cbv iota. rewrite Hk. cbn [mbind option_bind as_text].
    unfold manifest_public_key. rewrite (proj2 (String.eqb_neq k _)) by done. cbn [negb mbind option_bind xs_audit set_field].
    rewrite Hrow, Hpk. cbn [fmap option_fmap option_map]. rewrite from_hex_text, Hv. done. }
  split; [apply Hver|]. unfold get_manifest, own_row. rewrite Hid. cbn [mbind option_bind]. rewrite bool_decide_true by done. cbn [fmap option_fmap option_map].
  unfold manifest_view. specialize (Hver (xs_identity s')).
  assert (s' <| xs_identity := xs_identity s' |> = s') as E by by destruct s'. rewrite E in Hver. rewrite Hver, Hm. by destruct m.
Qed.
End signatures.

(** ** An experiment from creation to approval *)

Definition toy_state : ExperimentState :=
  mkExperimentState ∅ (mkAuditDB ∅ ∅ ∅ ∅) (new_identity toy_hash None 0).
Definition toy_fresh : Fresh := mkFresh "pk" "pk" "key-1" 3.
Definition toy_clock : Clock := mkClock (nof_Z 100) 100000000.
Definition toy_job (kind : string) : ResearchJob :=
  mkResearchJob "job-1" "alice" kind [("experiment_id", JStr "QS-1")] RUNNING false 1 3 (Some "w1") None 0 None None None None None.
Definition toy_results : list (string * json) :=
  [("execution_metrics", JObj [("fill_ratio", JInt 1)]); ("portfolio", JObj [("total_pnl", JInt 5)]);
   ("implementation_shortfall", JObj [("total_is_bps", JInt 3)]); ("max_position_size", JInt 100)].
Definition toy_dataset : json := JArr [JObj [("close", JInt 7)]].
Definition toy_execution : list (string * json) :=
  [("executed", JBool true); ("results", JObj toy_results); ("result_hash", JStr "result-1"); ("inputs", input_hashes toy_hash toy_dataset [] 42)].
Definition toy_ops : list experiment_op :=
  [OpCreate "alice" "QS-1" "obi_momentum" "1.0" "bars" toy_dataset [] 42 "LOB_QUEUE_V2" "zero" 1;
   OpRun toy_fresh "uuid" toy_clock (toy_job "experiment_run") toy_execution;
   OpRotate (mkFresh "pk2" "pk2" "key-2" 200) "uuid2" 200;
   OpValidate (toy_job "experiment_validate") toy_execution;
   OpApprove "QS-1" "alice" 300; OpApprove "QS-1" "bob" 400].
Definition toy_run : ExperimentState → experiment_op → ExperimentState :=
  run_experiment toy_hash toy_hash (λ k m, k +:+ m) (λ s, s) (λ s, Some s) toy_sign toy_verify true "secret" true "commit" None "source".

Lemma toy_state_fine : rows_fine toy_hash toy_state.
Proof. apply map_Forall_empty. Qed.

Lemma experiment_life_witness : ∃ r, xs_rows (foldl toy_run toy_state toy_ops) !! "QS-1" = Some r ∧
  er_status r = APPROVED ∧ er_approved_by r = Some "bob" ∧ earned toy_hash r.
Proof.
  assert (match xs_rows (foldl toy_run toy_state toy_ops) !! "QS-1" with
          | Some r => bool_decide (er_status r = APPROVED ∧ er_approved_by r = Some "bob") | None => false end = true) as Hr by (vm_compute; reflexivity).
  destruct (experiment_life toy_hash toy_hash (λ k m, k +:+ m) (λ s, s) (λ s, Some s) toy_sign toy_verify true "secret" true "commit" None "source"
    toy_ops toy_state toy_state_fine) as [Hf _]. fold toy_run in Hf.
  destruct (xs_rows (foldl toy_run toy_state toy_ops) !! "QS-1") as [r|] eqn:E; [|discriminate Hr].
  apply bool_decide_eq_true in Hr as [Hst Ha]. exists r. split; [reflexivity|split; [exact Hst|split; [exact Ha|]]].
  destruct (Hf _ _ E) as [_ Hok]. exact (row_earned _ _ Hok (or_intror Hst)).
Defined.

Lemma validated_means_reproduced_witness :
  let s := foldl toy_run toy_state (take 3 toy_ops) in
  ∃ r, xs_rows s !! "QS-1" = Some r ∧ executable (er_strategy_id r) = true ∧
    json_same (json_get "result_hash" toy_execution) (Some (JStr (er_result_hash r))) = true.
Proof.
  intros s. set (s' := toy_run s (OpValidate (toy_job "experiment_validate") toy_execution)).
  assert (match xs_rows s !! "QS-1", xs_rows s' !! "QS-1" with
          | Some r, Some r' => negb (bool_decide (er_status r = VALIDATED)) && bool_decide (er_status r' = VALIDATED) | _, _ => false end = true) as Hr
    by (vm_compute; reflexivity).
  assert (rows_fine toy_hash s) as Hf.
  { unfold s, toy_ops. cbn [take foldl]. do 3 (eapply writes_fine; [|apply operation_writes]); try exact toy_state_fine;
      repeat (eapply writes_fine; [|apply operation_writes]); exact toy_state_fine. }
  destruct (xs_rows s !! "QS-1") as [r|] eqn:E; [|discriminate Hr]. destruct (xs_rows s' !! "QS-1") as [r'|] eqn:E'; [|discriminate Hr].
  apply andb_prop in Hr as [Hn%negb_true_iff%bool_decide_eq_false Hv%bool_decide_eq_true].
  destruct (validated_means_reproduced toy_hash toy_hash (λ k m, k +:+ m) (λ s, Some s) toy_verify true "secret"
    s (toy_job "experiment_validate") toy_execution "QS-1" r r' Hf eq_refl E E' Hn Hv) as (_ & Hx & _ & Hh & _).
  exists r. exact (conj eq_refl (conj Hx Hh)).
Defined.

Lemma signed_manifests_stay_verifiable_witness :
  ∃ r m s', xs_rows s' !! "QS-1" = Some r ∧ er_manifest_json r = Some m ∧ si_key_id (xs_identity s') = Some "key-2" ∧
    manifest_verdicts toy_hash (λ k m, k +:+ m) (λ s, Some s) toy_verify true "secret" r s' = (true, true).
Proof.
  set (s' := foldl toy_run toy_state toy_ops).
  assert (match xs_rows s' !! "QS-1" with Some r => match er_manifest_json r with Some _ => true | None => false end | None => false end
          && bool_decide (si_key_id (xs_identity s') = Some "key-2") = true) as Hr by (vm_compute; reflexivity).
  apply andb_prop in Hr as [Hr Hk%bool_decide_eq_true].
  destruct (xs_rows s' !! "QS-1") as [r|] eqn:E; [|discriminate Hr]. destruct (er_manifest_json r) as [m|] eqn:Em; [|discriminate Hr].
  assert (fresh_ok toy_pair toy_fresh ∧ fresh_ok toy_pair (mkFresh "pk2" "pk2" "key-2" 200)) as [F1 F2] by (repeat split; done).
  destruct (signed_manifests_stay_verifiable toy_hash toy_hash (λ k m, k +:+ m) (λ s, s) (λ s, Some s) toy_sign toy_verify true "secret" "commit" None "source"
    toy_pair) with (s := toy_state) (s' := s') (id := "QS-1") (r := r) (m := m) (i := xs_identity s') as [Hv _].
  - intros pk sk x [-> _]. unfold toy_verify. by rewrite bool_decide_true.
  - by intros pk sk [_ ?].
  - intros pk sk pk' sk' _ _ Eh. unfold toy_hash in Eh. by apply (inj (String.append "h")) in Eh.
  - done.
  - split_and!; [exact toy_state_fine| | |].
    + split; cbn; try (intros *; rewrite lookup_empty; done). unfold chain. cbn. done.
    + by split.
    + intros id r0. cbn. by rewrite lookup_empty.
  - apply ops_reach. repeat (apply Forall_cons_2; [intros s0; cbn; first [exact I | split; done]|]). apply Forall_nil_2.
  - exact E.
  - exact Em.
  - exists r, m, s'. split; [exact E|split; [exact Em|split; [exact Hk|]]].
    assert (s' <| xs_identity := xs_identity s' |> = s') as Es by by destruct s'. rewrite Es in Hv. exact Hv.
Defined.
