(* ===== verification/Worker.v ===== *)
(** backend/worker.py: the research worker. It runs one job at a time in a
    child process, renews the job's lease while the child computes, and
    settles the job's row with the outcome. *)

From stdpp Require Import pretty.
From S2P Require Import Prelude Numeric Models ResearchJobs ResearchJobsFacts.
#[local] Open Scope Z_scope.

Definition RECYCLE_AFTER_JOBS : Z := 50.
Definition CHILD_BOOT_SECONDS : Z := 120.
Definition PURGE_INTERVAL_SECONDS : Z := 3600.
Definition WORKER_HEARTBEAT_SECONDS : Z := 5.
Definition GENERIC_FAILURE : string := "Research job failed".

(** ** The child's environment *)

Definition JOB_ENVIRONMENT : gset string := list_to_set
  ["PATH"; "HOME"; "USER"; "LOGNAME"; "LANG"; "LANGUAGE"; "TZ"; "TMPDIR"; "TEMP"; "TMP";
   "XDG_CACHE_HOME"; "XDG_CONFIG_HOME"; "MPLCONFIGDIR";
   "SYSTEMROOT"; "SYSTEMDRIVE"; "WINDIR"; "COMSPEC"; "PATHEXT"; "USERPROFILE"; "APPDATA";
   "LOCALAPPDATA"; "PROGRAMDATA"; "__CF_USER_TEXT_ENCODING";
   "VIRTUAL_ENV"; "PYTHONHOME"; "PYTHONPATH"; "PYTHONUTF8"; "PYTHONIOENCODING"; "PYTHONUNBUFFERED";
   "PYTHONDONTWRITEBYTECODE"; "PYTHONHASHSEED";
   "HTTP_PROXY"; "HTTPS_PROXY"; "NO_PROXY"; "ALL_PROXY";
   "SSL_CERT_FILE"; "SSL_CERT_DIR"; "REQUESTS_CA_BUNDLE"; "CURL_CA_BUNDLE";
   "OMP_NUM_THREADS"; "OPENBLAS_NUM_THREADS"; "MKL_NUM_THREADS"; "NUMEXPR_NUM_THREADS";
   "NUMEXPR_MAX_THREADS"; "ENVIRONMENT"; "DATASET_ROOT"].

Definition kept_variable (name : string) : bool :=
  bool_decide (str_upper name ∈ JOB_ENVIRONMENT) || String.prefix "LC_" (str_upper name).

Definition job_environment (environ : gmap string string) : gmap string string :=
  <["QS_PROCESS_ROLE" := "research-job"]>
    (filter (λ kv : string * string, kept_variable kv.1 = true) environ).

(** [_job_process_environment]: the environment while the child starts and
    after. *)
Definition with_job_environment (environ : gmap string string) : gmap string string * gmap string string :=
  (job_environment environ, environ).

(** ** Tasks *)

(** What calling a task does, and the tuple [_run_target] makes of it. *)
Inductive target_call :=
| Returned (result : list (string * json)) (audit : json) (trials : option trials_arg)
| RaisedTaskError (e : TaskError)
| RaisedException.

Inductive task_outcome :=
| TaskOk (result : list (string * json)) (audit : json) (trials : option trials_arg)
| TaskFailed (status : Z) (detail : string).

Definition run_target (call : target_call) : task_outcome :=
  match call with
  | RaisedTaskError e => TaskFailed (te_status_code e) (te_detail e)
  | RaisedException => TaskFailed 500 GENERIC_FAILURE
  | Returned result audit trials =>
      TaskOk (json_fields (json_safe (JObj result))) (json_safe audit)
        ((λ t, mkTrials (ta_family t) (map json_safe (ta_configs t)) (ta_source t)) <$> trials)
  end.

(** ** The job process *)

Inductive stop_reason := Cancelled | Lost | Shutdown.

(** The result of [JobProcess.run]. *)
Inductive run_outcome :=
| Finished (o : task_outcome)
| Stopped (why : stop_reason)
| TimedOut
| Crashed.

(** One pass of the loop: what [poll] gave, and the clock when it is read. *)
Inductive child_poll :=
| GotReady                       (* the child finished importing *)
| GotOutcome (o : task_outcome)
| PipeBroken                     (* recv raised EOFError or OSError *)
| Nothing (alive : bool).        (* nothing within a tick *)

Section run.
Context {S E : Type}.            (* the callback's state and its surroundings *)
Variable on_tick : S → E → S * option stop_reason.

Record observation := mkObservation { ob_poll : child_poll; ob_now : Z; ob_env : E }.

(** A live child and the jobs it has run; None when there is no child. *)
Definition JobProcess : Type := option Z.

Record deadlines := mkDeadlines { dl_job : option Z; dl_boot : Z }.

(** The loop of [JobProcess.run]; None when the observations run out. Returns
    the callback's state, the process left behind and the outcome. *)
Fixpoint run_loop (timeout jobs : Z) (dl : deadlines) (st : S) (obs : list observation)
    : option (S * JobProcess * run_outcome) :=
  match obs with
  | [] => None
  | ob :: obs =>
      match ob_poll ob with
      | PipeBroken => Some (st, None, Crashed)
      | GotReady => run_loop timeout jobs (mkDeadlines (Some (ob_now ob + timeout)) (dl_boot dl)) st obs
      | GotOutcome o =>
          let jobs := jobs + 1 in
          Some (st, if RECYCLE_AFTER_JOBS <=? jobs then None else Some jobs, Finished o)
      | Nothing alive =>
          if negb alive then Some (st, None, Crashed)
          else
            match dl_job dl with
            | None => if dl_boot dl <=? ob_now ob then Some (st, None, Crashed)
                      else
                        let '(st, stop) := on_tick st (ob_env ob) in
                        match stop with
                        | Some why => Some (st, None, Stopped why)
                        | None => run_loop timeout jobs dl st obs
                        end
            | Some deadline => if deadline <=? ob_now ob then Some (st, None, TimedOut)
                      else
                        let '(st, stop) := on_tick st (ob_env ob) in
                        match stop with
                        | Some why => Some (st, None, Stopped why)
                        | None => run_loop timeout jobs dl st obs
                        end
            end
      end
  end.

(** [JobProcess.run] at [now]: a missing or dead child is started first, and
    then the boot deadline runs until it is ready. *)
Definition run_job (proc : JobProcess) (alive : bool) (timeout now : Z) (st : S) (obs : list observation)
    : option (S * JobProcess * run_outcome) :=
  match proc with
  | Some jobs =>
      if alive then run_loop timeout jobs (mkDeadlines (Some (now + timeout)) 0) st obs
      else run_loop timeout 0 (mkDeadlines None (now + seconds CHILD_BOOT_SECONDS)) st obs
  | None => run_loop timeout 0 (mkDeadlines None (now + seconds CHILD_BOOT_SECONDS)) st obs
  end.
End run.
Arguments observation E : clear implicits.

(** ** The worker *)

Section worker.
Context {D : Type}.
Variable digest : json → string.
Variable run_finalizer : string → D → ResearchJob → json → json →
  D * outcome CompletionError (json * (string * option string) * json).
Variable record_market_data : D → ResearchJob → json → json → D * outcome CompletionError (json * json).

Record Worker := mkWorker {
  wk_id : string;
  wk_hostname : string;
  wk_pid : Z;
  wk_lease_seconds : Z;
  wk_timeout_seconds : Z;
  wk_process : JobProcess;
  wk_last_heartbeat : Z;
  wk_last_purge : Z
}.
#[global] Instance eta_Worker : Eta Worker := λ w,
  mkWorker (wk_id w) (wk_hostname w) (wk_pid w) (wk_lease_seconds w) (wk_timeout_seconds w)
    (wk_process w) (wk_last_heartbeat w) (wk_last_purge w).

(** The clocks an operation reads: [time.monotonic] and [utcnow]. *)
Record clocks := mkClocks { monotonic : Z; utcnow : Z }.

(** [_heartbeat] *)
Definition heartbeat (c : clocks) (current : option string) (force : bool) (w : Worker) (d : JobsDB D)
    : Worker * JobsDB D :=
  if force || (seconds WORKER_HEARTBEAT_SECONDS <=? monotonic c - wk_last_heartbeat w)
  then (w <| wk_last_heartbeat := monotonic c |>,
        heartbeat_worker d (wk_id w) (wk_hostname w) (wk_pid w) current (utcnow c))
  else (w, d).

(** [_housekeeping] *)
Definition housekeeping (others : JobsDB D → JobsDB D) (c : clocks) (retention_days : Z) (w : Worker)
    (d : JobsDB D) : Worker * JobsDB D :=
  let '(d, _) := reap_expired others d (utcnow c) in
  if seconds PURGE_INTERVAL_SECONDS <=? monotonic c - wk_last_purge w then
    let '(d, _) := purge_finished d retention_days (utcnow c) in
    (w <| wk_last_purge := monotonic c |>, d)
  else (w, d).

(** What a tick sees: the clocks, the stop event, and what other processes did
    to the database since the last tick. *)
Record tick_env := mkTickEnv { te_clocks : clocks; te_stop : bool; te_others : JobsDB D → JobsDB D }.

Record tick_state := mkTickState { ts_worker : Worker; ts_db : JobsDB D; ts_last_renew : Z }.

(** [now - last_renew < max(1.0, lease_seconds / 3)] *)
Definition renewed_recently (lease_seconds elapsed : Z) : bool :=
  (elapsed <? seconds 1) || (3 * elapsed <? seconds lease_seconds).

(** The [on_tick] of [_execute]. *)
Definition on_tick (job_id : string) (attempt : Z) (st : tick_state) (env : tick_env)
    : tick_state * option stop_reason :=
  let c := te_clocks env in
  let w := ts_worker st in
  let d := te_others env (ts_db st) in
  if te_stop env then (mkTickState w d (ts_last_renew st), Some Shutdown)
  else if renewed_recently (wk_lease_seconds w) (monotonic c - ts_last_renew st) then
    (mkTickState w d (ts_last_renew st), if cancel_requested d job_id then Some Cancelled else None)
  else
    let '(d, state) := renew_lease d job_id (wk_id w) attempt (wk_lease_seconds w) (utcnow c) in
    let '(w, d) := heartbeat c (Some job_id) false w d in
    (mkTickState w d (monotonic c),
     match state with
     | LeaseCancel => Some Cancelled
     | LeaseLost => Some Lost
     | LeaseOk => None
     end).

(** Settling the job's row with the run's outcome, in [_execute]. *)
Definition settle_outcome (w : Worker) (d : JobsDB D) (job : ResearchJob) (attempt : Z) (o : run_outcome)
    (record_id : string) (now : Z) : JobsDB D * outcome CompletionError unit :=
  let id := rj_id job in
  match o with
  | Finished (TaskOk result audit trials) =>
      let '(d, r) := complete digest run_finalizer record_market_data d job (wk_id w) attempt result
                       audit trials record_id now in
      (d, match r with Ret _ => Ret tt | Raise e => Raise e end)
  | Finished (TaskFailed code detail) => ((fail d id (wk_id w) attempt now code detail).1, Ret tt)
  | TimedOut =>
      ((fail d id (wk_id w) attempt now 504
          ("The research job exceeded its " +:+ pretty (wk_timeout_seconds w) +:+ "-second time limit.")).1,
       Ret tt)
  | Crashed => ((fail d id (wk_id w) attempt now 500 "The research job process stopped unexpectedly.").1,
                Ret tt)
  | Stopped Cancelled => ((mark_cancelled d id (wk_id w) attempt now).1, Ret tt)
  | Stopped Shutdown => ((release d id (wk_id w) attempt).1, Ret tt)
  | Stopped Lost => (d, Ret tt)
  end.

(** What surrounds one [_execute]: the clocks at its start and end, whether the
    child is alive at the start, the observations of its run, and what others
    did between the run's last tick and the final write. *)
Record execution := mkExecution {
  ex_start : clocks;
  ex_alive : bool;
  ex_observations : list (observation tick_env);
  ex_others : JobsDB D → JobsDB D;
  ex_record_id : string;
  ex_end : clocks
}.

(** [_execute]; None when the observations run out before the job ends. *)
Definition execute (w : Worker) (d : JobsDB D) (job : ResearchJob) (x : execution)
    : option (Worker * JobsDB D * outcome CompletionError unit) :=
  let attempt := rj_attempts job in
  match KINDS !! rj_kind job with
  | None => Some (w, (fail d (rj_id job) (wk_id w) attempt (utcnow (ex_start x)) 500
                        "Unknown research job kind").1, Ret tt)
  | Some kind =>
      let '(w, d) := heartbeat (ex_start x) (Some (rj_id job)) true w d in
      match run_job (on_tick (rj_id job) attempt) (wk_process w) (ex_alive x)
              (seconds (wk_timeout_seconds w)) (monotonic (ex_start x))
              (mkTickState w d (monotonic (ex_start x))) (ex_observations x) with
      | None => None
      | Some (st, proc, o) =>
          let w := ts_worker st <| wk_process := proc |> in
          let d := ex_others x (ts_db st) in
          let '(d, r) := settle_outcome w d job attempt o (ex_record_id x) (utcnow (ex_end x)) in
          match r with
          | Raise e => Some (w, d, Raise e)
          | Ret _ => let '(w, d) := heartbeat (ex_end x) None true w d in Some (w, d, Ret tt)
          end
      end
  end.

(** [run_once]: whether a job was run. *)
Definition run_once (reap_others : JobsDB D → JobsDB D) (claim_others : nat → JobsDB D → JobsDB D)
    (retention_days : Z) (c : clocks) (x : ResearchJob → execution) (w : Worker) (d : JobsDB D)
    : option (Worker * JobsDB D * outcome CompletionError bool) :=
  let '(w, d) := heartbeat c None false w d in
  let '(w, d) := housekeeping reap_others c retention_days w d in
  let '(d, claimed) := claim_next claim_others d (wk_id w) (wk_lease_seconds w) (utcnow c) in
  match claimed with
  | None => Some (w, d, Ret false)
  | Some job =>
      match execute w d job (x job) with
      | None => None
      | Some (w, d, Ret _) => Some (w, d, Ret true)
      | Some (w, d, Raise e) => Some (w, d, Raise e)
      end
  end.
End worker.

(** * Theorems

    Facts about the research worker. *)

#[local] Open Scope Z_scope.

(** ** The child's environment *)

(** A job process sees exactly the allow-listed variables of its worker,
    unchanged, and the research-job role, which nothing in the worker's
    environment can override. *)
Theorem job_environment_exact environ name value :
  job_environment environ !! name = Some value ↔
  (name = "QS_PROCESS_ROLE" ∧ value = "research-job") ∨
  (name ≠ "QS_PROCESS_ROLE" ∧ kept_variable name = true ∧ environ !! name = Some value).
Proof.
  unfold job_environment. rewrite lookup_insert_Some, map_lookup_filter_Some. cbn [fst].
  generalize (kept_variable name). intros kept. split; intros Hc.
  - destruct Hc as [[<- <-]|(Hne & He & Hk)]; [by left|right]. split_and!; [congruence|done|done].
  - destruct Hc as [[-> ->]|(Hne & Hk & He)]; [by left|right]. split_and!; [congruence|done|done].
Qed.

Example secrets_are_dropped :
  forallb (λ name, negb (kept_variable name))
    ["DATABASE_URL"; "REDIS_URL"; "JWT_PRIVATE_KEY"; "JWT_PRIVATE_KEY_FILE"; "REFRESH_TOKEN_SECRET";
     "CSRF_SECRET"; "WEBHOOK_ENCRYPTION_KEY"; "PRIVATE_KEY_ENCRYPTION_KEY"; "SERVER_DSA_PRIVATE_KEY"] = true.
Proof. vm_compute. reflexivity. Qed.

(** ** The job process *)

Section run.
Context {S E : Type} (on_tick : S → E → S * option stop_reason).

(** The time a READY is received at, if this observation is one. *)
Definition ready_time (ob : observation E) : option Z :=
  match ob_poll ob with GotReady => Some (ob_now ob) | _ => None end.

Lemma run_loop_returns timeout jobs dl st obs (last : observation E) alive :
  ob_poll last = Nothing alive → dl_boot dl ≤ ob_now last →
  (∀ t, dl_job dl = Some t → t ≤ ob_now last) →
  (∀ ob t, ob ∈ obs → ready_time ob = Some t → t + timeout ≤ ob_now last) →
  is_Some (run_loop on_tick timeout jobs dl st (obs ++ [last])).
Proof.
  intros Hlast. revert dl st; induction obs as [|ob obs IH]; intros dl st Hboot Hjob Hready; cbn [run_loop app].
  - rewrite Hlast. destruct alive; cbn; [|by eexists]. destruct (dl_job dl) as [t|].
    + rewrite (proj2 (Z.leb_le _ _)) by auto. by eexists.
    + rewrite (proj2 (Z.leb_le _ _)) by auto. by eexists.
  - assert (Hob : ready_time ob = match ob_poll ob with GotReady => Some (ob_now ob) | _ => None end) by done.
    assert (Hrest : ∀ dl' st', dl_boot dl' ≤ ob_now last →
      (∀ t, dl_job dl' = Some t → t ≤ ob_now last) → is_Some (run_loop on_tick timeout jobs dl' st' (obs ++ [last]))).
    { intros dl' st' Hb Hj. apply IH; [done..|]. intros ob' t Hin. apply Hready. by right. }
    destruct (ob_poll ob) as [| | |[]]; try by eexists.
    + apply Hrest; [done|]. cbn. intros t [= <-]. apply (Hready ob); [by left|done].
    + destruct (dl_job dl) as [t|] eqn:Hdl; cbn; (destruct (_ <=? _); [by eexists|]);
        (destruct (on_tick st (ob_env ob)) as [st' [why|]]; [by eexists|]); apply Hrest; naive_solver.
Qed.

Lemma run_loop_timeout timeout jobs dl st (obs : list (observation E)) st' proc :
  run_loop on_tick timeout jobs dl st obs = Some (st', proc, TimedOut) →
  ∃ ob t, ob ∈ obs ∧ t ≤ ob_now ob ∧
    (dl_job dl = Some t ∨ ∃ ob', ob' ∈ obs ∧ ready_time ob' = Some (t - timeout)).
Proof.
  revert dl st; induction obs as [|ob obs IH]; intros dl st; cbn [run_loop]; [done|].
  assert (Hrest : ∀ dl' st'', (∀ t, dl_job dl' = Some t → dl_job dl = Some t ∨ ready_time ob = Some (t - timeout)) →
    run_loop on_tick timeout jobs dl' st'' obs = Some (st', proc, TimedOut) →
    ∃ ob0 t, ob0 ∈ ob :: obs ∧ t ≤ ob_now ob0 ∧
      (dl_job dl = Some t ∨ ∃ ob', ob' ∈ ob :: obs ∧ ready_time ob' = Some (t - timeout))).
  { intros dl' st'' Hdl Hrun. destruct (IH dl' st'' Hrun) as (ob0 & t & Hin & Ht & Hcase).
    exists ob0, t. split; [by right|]. split; [done|]. destruct Hcase as [Hj|(ob' & Hin' & Hr)].
    - destruct (Hdl t Hj) as [?|?]; [by left|right]. exists ob. split; [by left|done].
    - right. exists ob'. split; [by right|done]. }
  destruct (ob_poll ob) as [| | |[]] eqn:Hp; try done; cbn [negb].
  - apply Hrest. cbn. intros t [= <-]. right. unfold ready_time. rewrite Hp. f_equal. lia.
  - destruct (dl_job dl) as [t|] eqn:Hdl; (destruct (_ <=? _) eqn:Hdue; [bsimpl|]).
    + intros _. exists ob, t. split; [by left|]. split; [done|]. by left.
    + destruct (on_tick st (ob_env ob)) as [st1 [why|]]; [done|]. apply Hrest. rewrite Hdl. by left.
    + done.
    + destruct (on_tick st (ob_env ob)) as [st1 [why|]]; [done|]. apply Hrest. rewrite Hdl. by left.
Qed.

(** A job process cannot hang its worker. A run returns as soon as an
    observation finds nothing in the pipe at a time past the boot limit and
    past the job's time limit, counted from the start and from every READY
    received; and a run reported as timed out has had its whole time limit,
    counted from the start of the run on a live child or from its READY. *)
Theorem job_process_time_limits proc alive timeout now st (obs : list (observation E)) last live :
  0 ≤ timeout → ob_poll last = Nothing live →
  now + seconds CHILD_BOOT_SECONDS ≤ ob_now last → now + timeout ≤ ob_now last → 0 ≤ now →
  (∀ ob t, ob ∈ obs → ready_time ob = Some t → t + timeout ≤ ob_now last) →
  is_Some (run_job on_tick proc alive timeout now st (obs ++ [last])) ∧
  ∀ st' proc', run_job on_tick proc alive timeout now st (obs ++ [last]) = Some (st', proc', TimedOut) →
    ∃ ob t, ob ∈ obs ++ [last] ∧ t + timeout ≤ ob_now ob ∧
      (t = now ∨ ∃ ob', ob' ∈ obs ++ [last] ∧ ready_time ob' = Some t).
Proof.
  intros Htimeout Hlast Hboot Hjob Hnow Hready.
  assert (Hfresh : is_Some (run_loop on_tick timeout 0 (mkDeadlines None (now + seconds CHILD_BOOT_SECONDS))
    st (obs ++ [last]))) by (by eapply run_loop_returns).
  assert (Hwarm : ∀ jobs, is_Some (run_loop on_tick timeout jobs (mkDeadlines (Some (now + timeout)) 0)
    st (obs ++ [last]))).
  { intros jobs. eapply run_loop_returns; [done|cbn; lia| |done]. cbn. by intros t [= <-]. }
  assert (Htime : ∀ jobs dl st' proc', dl_job dl = None ∨ dl_job dl = Some (now + timeout) →
    run_loop on_tick timeout jobs dl st (obs ++ [last]) = Some (st', proc', TimedOut) →
    ∃ ob t, ob ∈ obs ++ [last] ∧ t + timeout ≤ ob_now ob ∧
      (t = now ∨ ∃ ob', ob' ∈ obs ++ [last] ∧ ready_time ob' = Some t)).
  { intros jobs dl st' proc' Hdl Hrun. destruct (run_loop_timeout _ _ _ _ _ _ _ Hrun) as (ob & t & Hin & Ht & Hcase).
    exists ob, (t - timeout). split; [done|]. split; [lia|].
    destruct Hcase as [Hj|Hr]; [left|by right]. destruct Hdl; [congruence|]. simplify_eq. lia. }
  unfold run_job. destruct proc as [jobs|]; [destruct alive|].
  - split; [done|]. intros st' proc'. apply Htime. by right.
  - split; [done|]. intros st' proc'. apply Htime. by left.
  - split; [done|]. intros st' proc'. apply Htime. by left.
Qed.
End run.

(** ** The worker *)

Section worker.
Context {D : Type}.
Variable digest : json → string.
Variable run_finalizer : string → D → ResearchJob → json → json →
  D * outcome CompletionError (json * (string * option string) * json).
Variable record_market_data : D → ResearchJob → json → json → D * outcome CompletionError (json * json).
Implicit Types (d : JobsDB D).

(** The job's row is no longer the attempt [a] of worker [w]. *)
Definition over (id w : string) (a : Z) (d : JobsDB D) : Prop :=
  ∀ j, jd_jobs d !! id = Some j → owned w a j = false.

Lemma over_same id w a d d' : jd_jobs d' = jd_jobs d → over id w a d → over id w a d'.
Proof. unfold over. by intros ->. Qed.

(** A write conditional on owning the row ends the attempt, if it moves the row
    out of running or to another attempt. *)
Lemma update_over id w a (f : ResearchJob → ResearchJob) d :
  (∀ j, owned w a (f j) = false) → over id w a (update_job id (owned w a) f d).1.
Proof.
  intros Hf j. unfold update_job, update_row.
  destruct (jd_jobs d !! id) as [j0|] eqn:Hj0; [destruct (owned w a j0) eqn:Hown|]; cbn.
  - rewrite lookup_insert_eq. intros [= <-]. apply Hf.
  - rewrite Hj0. by intros [= <-].
  - by rewrite Hj0.
Qed.

Lemma not_running_over w a j : rj_status j ≠ RUNNING → owned w a j = false.
Proof. intros Hs. unfold owned. rewrite (bool_decide_false (rj_status j = RUNNING)) by done. by rewrite andb_false_r. Qed.

Lemma fail_over id w a now c s d : over id w a (fail d id w a now c s).1.
Proof. apply update_over. intros j. by apply not_running_over. Qed.

Lemma mark_cancelled_over id w a now d : over id w a (mark_cancelled d id w a now).1.
Proof. apply update_over. intros j. by apply not_running_over. Qed.

Lemma release_over id w a d : over id w a (release d id w a).1.
Proof. apply update_over. intros j. by apply not_running_over. Qed.

Lemma complete_over d job w a r au t rid now :
  let '(d', out) := complete digest run_finalizer record_market_data d job w a r au t rid now in
  match out with
  | Ret _ => over (rj_id job) w a d'
  | Raise _ => True
  end.
Proof.
  destruct (jd_jobs d !! rj_id job) as [j|] eqn:Hj; [destruct (owned w a j) eqn:Hown|].
  - unfold complete. destruct (KINDS !! rj_kind job) as [kind|]; [|done].
    set (dr := match t with Some _ => _ | None => _ end).
    assert (Hdr : jd_jobs dr.1 = jd_jobs d) by (unfold dr; by destruct t).
    destruct dr as [d1 r1]. cbn in Hdr.
    pose proof (completion_writes_jobs run_finalizer record_market_data d1 job kind r1 au rid) as Hw.
    destruct (completion_writes _ _ _ _ _ _ _ _) as [d2 out]. cbn in Hw.
    destruct out as [[[result [rt rid']] au']|[e|key|]]; [| |done|done].
    + unfold finish, update_job, update_row. rewrite Hw, Hdr, Hj, Hown. cbn.
      intros j'. cbn. rewrite lookup_insert_eq. intros [= <-]. by apply not_running_over.
    + pose proof (fail_over (rj_id job) w a now (te_status_code e) (te_detail e) d1) as Hf.
      by destruct (fail _ _ _ _ _ _ _).
  - assert (Hun : ∀ j', jd_jobs d !! rj_id job = Some j' → unowned w a j')
      by (intros j'; rewrite Hj; by intros [= <-]).
    pose proof (complete_unowned digest run_finalizer record_market_data d job w a r au t rid now Hun) as Hc.
    destruct (complete _ _ _ _ _ _ _ _ _ _ _ _) as [d' out]. destruct Hc as [Hc _].
    destruct out; [|done]. rewrite <-Hc in Hun. exact Hun.
  - assert (Hun : ∀ j', jd_jobs d !! rj_id job = Some j' → unowned w a j') by (intros j'; by rewrite Hj).
    pose proof (complete_unowned digest run_finalizer record_market_data d job w a r au t rid now Hun) as Hc.
    destruct (complete _ _ _ _ _ _ _ _ _ _ _ _) as [d' out]. destruct Hc as [Hc _].
    destruct out; [|done]. rewrite <-Hc in Hun. exact Hun.
Qed.

(** Heartbeats leave the jobs and the worker's identity alone. *)
Lemma heartbeat_jobs c cur force w d :
  let '(w', d') := heartbeat c cur force w d in
  jd_jobs d' = jd_jobs d ∧ wk_id w' = wk_id w.
Proof.
  unfold heartbeat. destruct (force || _); [|done]. cbn. split; [|done].
  unfold heartbeat_worker. destruct (update_row _ _ _ _). by destruct (_ =? _).
Qed.

Lemma on_tick_id id a st env st' why :
  on_tick id a st env = (st', why) →
  wk_id (ts_worker st') = wk_id (ts_worker st) ∧
  (why = Some Lost → over id (wk_id (ts_worker st)) a (ts_db st')).
Proof.
  unfold on_tick. set (d0 := te_others env (ts_db st)). destruct (te_stop env); [by intros [= <- <-]|].
  destruct (renewed_recently _ _).
  { intros [= <- <-]. split; [done|]. by destruct (cancel_requested _ _). }
  destruct (renew_lease d0 id (wk_id (ts_worker st)) a _ _) as [d1 state] eqn:Hr.
  match goal with |- context [heartbeat ?c ?cur ?f ?w d1] =>
    pose proof (heartbeat_jobs c cur f w d1) as Hh; destruct (heartbeat c cur f w d1) as [w2 d2] end.
  destruct Hh as [Hj Hid]. intros [= <- <-]. cbn. split; [done|].
  destruct state; try done. intros _. eapply over_same; [exact Hj|].
  unfold renew_lease, update_job, update_row in Hr.
  destruct (jd_jobs d0 !! id) as [j|] eqn:Hd0; [destruct (owned _ a j) eqn:Hown|];
    cbn in Hr; [by destruct (cancel_requested _ _)| |]; injection Hr as <-; intros j'; cbn.
  - rewrite Hd0. by intros [= <-].
  - by rewrite Hd0.
Qed.

Lemma run_loop_id id a timeout jobs dl st obs st' proc o :
  run_loop (on_tick id a) timeout jobs dl st obs = Some (st', proc, o) →
  wk_id (ts_worker st') = wk_id (ts_worker st) ∧
  (o = Stopped Lost → over id (wk_id (ts_worker st)) a (ts_db st')).
Proof.
  revert dl st; induction obs as [|ob obs IH]; intros dl st; cbn [run_loop]; [done|].
  destruct (ob_poll ob) as [| | |[]]; cbn [negb].
  - apply IH.
  - by intros [= <- <- <-].
  - by intros [= <- <- <-].
  - destruct (dl_job dl); (destruct (_ <=? _); [by intros [= <- <- <-]|]);
      (destruct (on_tick id a st (ob_env ob)) as [st1 why] eqn:Ht;
       apply on_tick_id in Ht as [Hid Hlost]; destruct why as [why|];
       [intros [= <- <- <-]; split; [done|]; intros [= ->]; by apply Hlost
       |intros Hrun; destruct (IH _ _ Hrun) as [Hid' Hl']; rewrite Hid in *; by split]).
  - by intros [= <- <- <-].
Qed.

Lemma run_job_id id a proc alive timeout now st obs st' proc' o :
  run_job (on_tick id a) proc alive timeout now st obs = Some (st', proc', o) →
  wk_id (ts_worker st') = wk_id (ts_worker st) ∧
  (o = Stopped Lost → over id (wk_id (ts_worker st)) a (ts_db st')).
Proof. unfold run_job. destruct proc; [destruct alive|]; apply run_loop_id. Qed.

Lemma settle_outcome_over w d job a o rid now d' :
  settle_outcome digest run_finalizer record_market_data w d job a o rid now = (d', Ret tt) →
  (o = Stopped Lost → over (rj_id job) (wk_id w) a d) →
  over (rj_id job) (wk_id w) a d'.
Proof.
  unfold settle_outcome. destruct o as [[result audit trials|code detail]|[]| |].
  - pose proof (complete_over d job (wk_id w) a result audit trials rid now) as Hc.
    destruct (complete _ _ _ _ _ _ _ _ _ _ _ _) as [d1 [b|e]]; intros [= <-]. by intros _.
  - intros [= <-] _. apply fail_over.
  - intros [= <-] _. apply mark_cancelled_over.
  - intros [= <-] Hl. by apply Hl.
  - intros [= <-] _. apply release_over.
  - intros [= <-] _. apply fail_over.
  - intros [= <-] _. apply fail_over.
Qed.

(** A worker never leaves its job behind as running. When [_execute]
    returns, whatever the child did and whatever other processes did
    meanwhile (short of handing this very attempt back to the worker, which
    no queue operation does), the job's row is no longer this worker's
    running attempt: it is finished, back in the queue, someone else's, or
    gone. *)
Theorem execute_settles_job w d job x w' d' :
  (∀ d, over (rj_id job) (wk_id w) (rj_attempts job) d →
        over (rj_id job) (wk_id w) (rj_attempts job) (ex_others x d)) →
  execute digest run_finalizer record_market_data w d job x = Some (w', d', Ret tt) →
  ∀ j, jd_jobs d' !! rj_id job = Some j → owned (wk_id w) (rj_attempts job) j = false.
Proof.
  intros Hothers. unfold execute. destruct (KINDS !! rj_kind job) as [kind|];
    [|intros [= <- <-]; apply fail_over].
  pose proof (heartbeat_jobs (ex_start x) (Some (rj_id job)) true w d) as Hh.
  destruct (heartbeat _ _ _ w d) as [w1 d1]. destruct Hh as [_ Hid1].
  destruct (run_job _ _ _ _ _ _ _) as [[[st proc] o]|] eqn:Hrun; [|done].
  apply run_job_id in Hrun as [Hid Hlost]. cbn in Hid, Hlost. rewrite Hid1 in Hid, Hlost.
  destruct (settle_outcome _ _ _ _ _ _ _ _ _ _) as [d2 [[]|e]] eqn:Hs; [|done].
  apply settle_outcome_over in Hs; cbn [wk_id set_field] in Hs; cbv beta iota.
  2:{ cbn. rewrite Hid. intros Ho. by apply Hothers, Hlost. }
  rewrite Hid in Hs.
  match goal with |- context [heartbeat ?c ?cur ?f ?w d2] =>
    pose proof (heartbeat_jobs c cur f w d2) as Hh; destruct (heartbeat c cur f w d2) as [w3 d3] end.
  destruct Hh as [Hj _]. intros [= <- <-]. by eapply over_same.
Qed.
End worker.

(** ** Witnesses *)

Lemma job_process_time_limits_witness :
  is_Some (run_job (λ (s : unit) (_ : unit), (s, None)) None false (seconds 10) 0 tt
    ([mkObservation GotReady (seconds 3) tt; mkObservation (Nothing true) (seconds 5) tt] ++
     [mkObservation (Nothing true) (seconds 130) tt])).
Proof.
  apply (job_process_time_limits (λ (s : unit) (_ : unit), (s, None)) None false (seconds 10) 0 tt
    [mkObservation GotReady (seconds 3) tt; mkObservation (Nothing true) (seconds 5) tt]
    (mkObservation (Nothing true) (seconds 130) tt) true); try done.
  intros ob t Hin. apply elem_of_cons in Hin as [->|Hin]; [by intros [= <-]|].
  by apply list_elem_of_singleton in Hin as ->.
Defined.

Definition demo_worker : Worker := mkWorker "w1" "host" 7 60 10 None 0 0.

(** The child crashes while importing. *)
Definition demo_execution : execution (D:=unit) :=
  mkExecution (mkClocks 0 10) false [mkObservation (Nothing false) 1 (mkTickEnv (mkClocks 1 11) false id)]
    id "b1" (mkClocks 2 12).

Definition demo_jobs : JobsDB unit :=
  run_history 3 2 no_digest no_finalizer no_market_data (empty_db tt) two_jobs.

Lemma execute_settles_job_witness :
  ∃ job w' d', jd_jobs demo_jobs !! "j1" = Some job ∧
    execute no_digest no_finalizer no_market_data demo_worker demo_jobs job demo_execution
      = Some (w', d', Ret tt) ∧
    ∀ j, jd_jobs d' !! rj_id job = Some j → owned "w1" (rj_attempts job) j = false.
Proof.
  destruct (jd_jobs demo_jobs !! "j1") as [job|] eqn:E; [|vm_compute in E; discriminate E].
  destruct (execute no_digest no_finalizer no_market_data demo_worker demo_jobs job demo_execution)
    as [[[w' d'] [[]|e]]|] eqn:X.
  2,3: exfalso; vm_compute in E; injection E as <-; vm_compute in X; discriminate X.
  exists job, w', d'. split; [done|]. split; [done|].
  apply (execute_settles_job no_digest no_finalizer no_market_data demo_worker demo_jobs job
    demo_execution w' d'); [by intros|exact X].
Defined.
