(* ===== verification/RateLimit.v ===== *)
(** backend/main.py, [SecurityHeadersAndRateLimit] and its buckets: who a
    request counts against, the in-process window of the last minute, the
    Redis counter, and the answers of the limiter. *)

From Stdlib Require Import Ascii.
From stdpp Require Import sorting.
From S2P Require Import Prelude Models OrderedDict Lockout.
#[local] Open Scope Z_scope.

(** ** Requests *)

(** What the middleware reads of a request. *)
Record RateRequest := mkRateRequest {
  rq_path : string;
  rq_client_host : option string;
  rq_qs_access : option string;          (* the cookie *)
  rq_authorization : option string;
  rq_qs_headers : list (option string);  (* key id, timestamp, nonce, signature *)
  rq_api_key : option string
}.

Definition present (h : option string) : bool := match h with Some EmptyString | None => false | Some _ => true end.

(** [_request_windows], [_rate_users] and [_rate_api_keys]; times in
    microseconds of the monotonic clock. *)
Record RateState := mkRateState {
  request_windows : list (string * list Z);
  rate_users : list (string * string);
  rate_api_keys : list (string * unit)
}.
#[global] Instance eta_RateState : Eta RateState := λ s,
  mkRateState (request_windows s) (rate_users s) (rate_api_keys s).

Definition RATE_WINDOW_SECONDS : Z := 60.
Definition RATE_MAX_KEYS : Z := 20000.
Definition RATE_PRINCIPAL_CACHE : Z := 10000.

(** ** The window of a key *)

Definition in_minute (now t : Z) : Prop := now - t ≤ seconds RATE_WINDOW_SECONDS.
#[global] Instance in_minute_dec now t : Decision (in_minute now t) := decide (_ ≤ _).

(** A bucket whose window has fully expired. *)
Definition bucket_expired (now : Z) (window : list Z) : bool :=
  match last window with Some t => negb (bool_decide (in_minute now t)) | None => true end.

(** [popitem(last=False)] *)
Definition evict_oldest {V} (l : list (string * V)) : list (string * V) := tail l.

(** [_rate_window]: the buckets afterwards and the key's own. *)
Definition rate_window (key : string) (now : Z) (windows : list (string * list Z))
    : list (string * list Z) * list Z :=
  let windows := od_expire (bucket_expired now) windows in
  match od_get key windows with
  | Some window => (od_move_to_end key windows, window)
  | None =>
      let windows := if RATE_MAX_KEYS <=? Z.of_nat (length windows) then evict_oldest windows else windows in
      (od_put key [] windows, [])
  end.

(** [while window and now - window[0] > 60: window.popleft()] *)
Fixpoint drop_expired (now : Z) (window : list Z) : list Z :=
  match window with
  | t :: rest => if bool_decide (in_minute now t) then window else drop_expired now rest
  | [] => []
  end.

(** One request counted in process: its number in the last minute. [now] is
    read before the wait for Redis, so where Redis is tried first the times
    need not be in order. *)
Definition count_local (key : string) (now : Z) (windows : list (string * list Z)) : list (string * list Z) * Z :=
  let '(windows, window) := rate_window key now windows in
  let window := drop_expired now window in
  (od_put key (window ++ [now]) windows, Z.of_nat (length window) + 1).

(** ** The principal *)

Definition remember {V} (key : string) (v : V) (cache : list (string * V)) : list (string * V) :=
  let cache := od_put_end key v cache in
  if RATE_PRINCIPAL_CACHE <? Z.of_nat (length cache) then evict_oldest cache else cache.

Fixpoint str_take (n : nat) (s : string) : string :=
  match n, s with
  | S n, String c s => String c (str_take n s)
  | _, _ => EmptyString
  end.
Fixpoint after_space (s : string) : string :=
  match s with
  | EmptyString => EmptyString
  | String c s => if Ascii.eqb c " "%char then s else after_space s
  end.

Section principal.
Variable sha256_hex : string → string.
(** [auth_service.decode_access_token]: the subject of a valid token. *)
Variable token_subject : string → option string.

Definition sdk_api_key_hash (r : RateRequest) : option string :=
  if forallb present (rq_qs_headers r) then None
  else match rq_api_key r with
       | Some (String _ _ as raw) => Some (sha256_hex raw)
       | _ => None
       end.

(** The access token: the cookie, then a bearer header. *)
Definition access_token (r : RateRequest) : option string :=
  match rq_qs_access r with
  | Some (String _ _ as token) => Some token
  | _ =>
      let authorization := default EmptyString (rq_authorization r) in
      if String.prefix "Bearer " authorization
      then match after_space authorization with EmptyString => None | token => Some token end
      else None
  end.

Definition rate_principal (r : RateRequest) (client : string) (sdk_key : option string) (s : RateState)
    : RateState * string :=
  if String.prefix "/api/auth/" (rq_path r) then (s, client)
  else if String.prefix "/api/sdk/" (rq_path r) then
    match sdk_key with
    | Some k =>
        match od_get k (rate_api_keys s) with
        | Some _ => (s <| rate_api_keys ::= od_move_to_end k |>, "key:" +:+ str_take 16 k)
        | None => (s, client)
        end
    | None => (s, client)
    end
  else
    match access_token r with
    | None => (s, client)
    | Some token =>
        match od_get token (rate_users s) with
        | Some user_id => (s <| rate_users ::= od_move_to_end token |>, "user:" +:+ user_id)
        | None =>
            match token_subject token with
            | None => (s, client)
            | Some user_id => (s <| rate_users ::= remember token user_id |>, "user:" +:+ user_id)
            end
        end
    end.

(** ** The limiter *)

Inductive RateAnswer :=
| Passed (limit current : Z)   (* the request goes on *)
| LimitExceeded                (* 429 *)
| LimiterUnavailable.          (* 503 *)

Definition rate_limit_of (path : string) : Z := if String.prefix "/api/auth/" path then 10 else 240.

(** [__call__] up to the inner application. [incr] is what Redis replied, if
    there is a client: the counter, or [None] when [incr] or [expire] raised. *)
Definition limit_request (production : bool) (incr : option (option Z)) (now : Z) (r : RateRequest) (s : RateState)
    : RateState * RateAnswer :=
  let client := default "unknown" (rq_client_host r) in
  let sdk_key := if String.prefix "/api/sdk/" (rq_path r) then sdk_api_key_hash r else None in
  let '(s, principal) := rate_principal r client sdk_key s in
  let key := principal +:+ ":" +:+ rq_path r in
  let limit := rate_limit_of (rq_path r) in
  let answer current := if limit <? current then LimitExceeded else Passed limit current in
  let local :=
    let '(windows, current) := count_local key now (request_windows s) in
    (s <| request_windows := windows |>, answer current) in
  match incr with
  | Some (Some current) => if current =? 0 then local else (s, answer current)
  | Some None => if production then (s, LimiterUnavailable) else local
  | None => local
  end.

(** [send_with_headers]: an API key the application accepted is remembered. *)
Definition remember_sdk_key (r : RateRequest) (status : Z) (s : RateState) : RateState :=
  match (if String.prefix "/api/sdk/" (rq_path r) then sdk_api_key_hash r else None) with
  | Some k =>
      if (status <? 400) && bool_decide (od_get k (rate_api_keys s) = None)
      then s <| rate_api_keys ::= remember k () |> else s
  | None => s
  end.

Definition remaining (limit current : Z) : Z := Z.max 0 (limit - current).
End principal.

(** * Theorems

    What the in-process limiter guarantees: it counts exactly the requests of
    the last minute, and its memory is bounded. *)

#[local] Open Scope Z_scope.

Lemma drop_expired_filter now ts : StronglySorted Z.le ts → drop_expired now ts = filter (in_minute now) ts.
Proof.
  induction 1 as [|t ts Hs IH Ht]; [done|]. cbn [drop_expired]. rewrite filter_cons. case_bool_decide as E.
  - rewrite decide_True by done. f_equal. rewrite Forall_forall in Ht. symmetry.
    clear Hs IH. induction ts as [|u ts IH]; [done|]. rewrite filter_cons_True; [f_equal; apply IH; set_solver|].
    specialize (Ht u ltac:(by left)). unfold in_minute in *. lia.
  - by rewrite decide_False.
Qed.

Lemma od_pop_absent {V} k (l : list (string * V)) : od_get k l = None → od_pop k l = l.
Proof.
  unfold od_pop. induction l as [|[j v] l IH]; [done|]. cbn [od_get]. case_decide; [done|]. intros H1.
  rewrite filter_cons_True by (cbn; congruence). by rewrite IH.
Qed.
Lemma od_put_absent {V} k (v : V) l : od_get k l = None → od_put k v l = l ++ [(k, v)].
Proof. induction l as [|[j w] l IH]; [done|]. cbn. case_decide; [done|]. intros H1. by rewrite IH. Qed.
Lemma od_put_app {V} k (v : V) l l' : od_get k l = None → od_put k v (l ++ l') = l ++ od_put k v l'.
Proof. induction l as [|[j w] l IH]; [done|]. cbn. case_decide; [done|]. intros H1. by rewrite IH. Qed.
Lemma od_put_put_end {V} k (u v : V) l : od_put k v (od_put_end k u l) = od_put_end k v l.
Proof.
  unfold od_put_end. rewrite od_put_app by (rewrite od_get_pop; by case_decide). cbn. by case_decide.
Qed.

(** The requests of one key, oldest first. *)
Definition times (key : string) (hist : list (string * Z)) : list Z := snd <$> filter (λ c, c.1 = key) hist.
Lemma times_snoc key k t hist : times key (hist ++ [(k, t)]) = if decide (k = key) then times key hist ++ [t] else times key hist.
Proof.
  unfold times. rewrite filter_app, fmap_app, filter_cons. cbn [fst]. case_decide; [done|]. by rewrite filter_nil, app_nil_r.
Qed.


(** At time [T] the buckets hold, of every key, what can still matter. *)
Record counted (T : Z) (hist : list (string * Z)) (w : list (string * list Z)) : Prop := {
  ct_keys : NoDup (od_keys w);
  ct_order : od_ordered older w;
  ct_times : ∀ k ts, od_get k w = Some ts → ts ≠ [] ∧ StronglySorted Z.le ts ∧ Forall (λ t, t ≤ T) ts;
  ct_known : ∀ k, k ∈ od_keys w → k ∈ hist.*1;
  ct_recent : ∀ k now, T ≤ now →
                filter (in_minute now) (default [] (od_get k w)) = filter (in_minute now) (times k hist)
}.

Lemma minute_mono now now' (ts : list Z) : now ≤ now' →
  filter (in_minute now') (filter (in_minute now) ts) = filter (in_minute now') ts.
Proof. intros Hle. apply list_filter_filter_l. unfold in_minute. intros t. lia. Qed.

Lemma expired_filter now ts : StronglySorted Z.le ts → bucket_expired now ts = true → filter (in_minute now) ts = [].
Proof.
  unfold bucket_expired. destruct ts as [|t ts _] using rev_ind; [done|].
  rewrite last_snoc, negb_true_iff, bool_decide_eq_false. intros Hs Ht.
  assert (Forall (λ x, ¬ in_minute now x) (ts ++ [t])) as Hall.
  { apply Forall_app. split; [|by constructor]. apply Forall_forall. intros x Hx. unfold in_minute in *.
    pose proof (StronglySorted_app_1_elem_of _ _ _ x t Hs Hx ltac:(by left)). lia. }
  clear Hs Ht. induction Hall as [|x l Hx Hl IH]; [done|]. by rewrite filter_cons_False.
Qed.

(** Sweeping the front forgets only what no longer matters. *)
Lemma sweep_counted T now hist w : T ≤ now → counted T hist w → counted now hist (od_expire (bucket_expired now) w).
Proof.
  intros Hle [H1 H2 H3 H4 H5]. pose proof (λ k, od_get_expire (bucket_expired now) k w H1) as Hf. split.
  - by apply od_keys_expire.
  - by apply od_ordered_expire.
  - intros k ts Hk. assert (od_get k w = Some ts) as Hk' by (destruct (Hf k) as [<-|[E _]]; congruence).
    destruct (H3 k ts Hk') as (? & ? & Hb). split_and!; [done|done|]. eapply Forall_impl; [exact Hb|]. cbn. lia.
  - intros k Hk. apply H4. destruct (od_expire_suffix (bucket_expired now) w) as (l0 & E & _). rewrite E.
    unfold od_keys. rewrite fmap_app. set_solver.
  - intros k now' Hn. rewrite <-(H5 k now') by lia. destruct (Hf k) as [->|(-> & ts & Hts & Hd)]; [done|].
    rewrite Hts. cbn. destruct (H3 k ts Hts) as (_ & Hs & _). rewrite <-(minute_mono now now' ts Hn).
    by rewrite (expired_filter now ts Hs Hd).
Qed.

Lemma distinct_bound (l m : list string) : NoDup l → (∀ k, k ∈ l → k ∈ m) → (length l ≤ length (remove_dups m))%nat.
Proof.
  intros Hn Hin. apply submseteq_length, NoDup_submseteq; [done|]. intros k Hk. apply elem_of_remove_dups. auto.
Qed.

(** The number of distinct keys fits the table: nothing live is evicted. *)
Definition fits (hist : list (string * Z)) : Prop := Z.of_nat (length (remove_dups hist.*1)) ≤ RATE_MAX_KEYS.

Lemma count_step T now key hist w : T ≤ now → counted T hist w → fits (hist ++ [(key, now)]) →
  let '(w', current) := count_local key now w in
  counted now (hist ++ [(key, now)]) w' ∧
  current = Z.of_nat (length (filter (in_minute now) (times key hist))) + 1.
Proof.
  intros Hle Hc Hfit. apply (sweep_counted T now) in Hc; [|done]. unfold count_local, rate_window.
  set (w1 := od_expire (bucket_expired now) w) in *. clearbody w1. clear w T Hle. pose proof Hc as [H1 H2 H3 H4 H5].
  set (ts := default [] (od_get key w1)). set (recent := filter (in_minute now) ts).
  assert (StronglySorted Z.le ts ∧ Forall (λ t, t ≤ now) ts) as [Hs Hb].
  { subst ts. destruct (od_get key w1) as [ts|] eqn:E; cbn; [by destruct (H3 key ts E) as (_ & ? & ?)|by split; constructor]. }
  assert (recent = filter (in_minute now) (times key hist)) as Hrec by (apply H5; lia).
  assert ((let '(w', window) := match od_get key w1 with
            | Some window => (od_move_to_end key w1, window)
            | None => (od_put key [] (if RATE_MAX_KEYS <=? Z.of_nat (length w1) then evict_oldest w1 else w1), [])
            end in (od_put key (drop_expired now window ++ [now]) w', Z.of_nat (length (drop_expired now window)) + 1))
    = (od_put_end key (recent ++ [now]) w1, Z.of_nat (length recent) + 1)) as ->.
  { subst recent ts. destruct (od_get key w1) as [ts|] eqn:E; cbn [default].
    - unfold od_move_to_end. rewrite E, drop_expired_filter, od_put_put_end by done. done.
    - cbn [drop_expired]. rewrite filter_nil. cbn [length app].
      assert ((RATE_MAX_KEYS <=? Z.of_nat (length w1)) = false) as ->.
      { apply Z.leb_gt. unfold fits in Hfit. rewrite fmap_app in Hfit.
        assert (S (length w1) ≤ length (remove_dups (hist.*1 ++ [(key, now)].*1)))%nat as Hl; [|lia].
        assert (S (length w1) = length (key :: od_keys w1)) as -> by (cbn [length]; unfold od_keys; by rewrite length_fmap).
        apply distinct_bound; [apply NoDup_cons; split; [|done]|set_solver].
        intros ((k & v) & -> & Hin)%list_elem_of_fmap. apply od_get_elem in Hin; [|done]. cbn in E. congruence. }
      rewrite (od_put_absent key [] w1 E). unfold od_put_end. rewrite od_pop_absent by done.
      rewrite od_put_app by done. cbn. by case_decide. }
  split; [|by rewrite Hrec]. clear Hfit. assert (StronglySorted Z.le (recent ++ [now]) ∧ Forall (λ t, t ≤ now) (recent ++ [now])) as [Hs' Hb'].
  { assert (Forall (λ t, t ≤ now) recent) as Hbr.
    { subst recent. rewrite Forall_forall in Hb |- *. intros t [_ Ht]%list_elem_of_filter. by apply Hb. }
    split; [|apply Forall_app; split; [done|by constructor]].
    apply StronglySorted_app_2; [|by apply StronglySorted_filter|by repeat constructor].
    intros x y Hx ->%list_elem_of_singleton. rewrite Forall_forall in Hbr. by apply Hbr. }
  split.
  - by apply od_keys_put_end.
  - apply od_ordered_put_end; [done|]. intros [k us] Hin. cbn. apply od_get_elem in Hin; [|done].
    destruct (H3 k us Hin) as (Hne & _ & Hus). split_and!; [done|by destruct recent|]. rewrite newest_snoc.
    destruct us as [|u us _] using rev_ind; [done|]. rewrite newest_snoc. rewrite Forall_app, Forall_singleton in Hus. tauto.
  - intros k us. rewrite od_get_put_end. case_decide; [|apply H3]. intros [= <-]. split_and!; [by destruct recent|done|done].
  - intros k Hk. rewrite fmap_app. unfold od_put_end, od_keys in Hk. rewrite fmap_app, elem_of_app in Hk.
    destruct Hk as [(kv & -> & [_ Hin]%od_pop_in)%list_elem_of_fmap|Hk]; [|set_solver].
    apply elem_of_app. left. apply H4. unfold od_keys. apply list_elem_of_fmap. by exists kv.
  - intros k now' Hn. rewrite od_get_put_end, times_snoc. case_decide as E; [subst k|].
    + rewrite decide_True by done. cbn [default from_option id]. rewrite !filter_app. unfold recent.
      rewrite (minute_mono now now' ts Hn). unfold ts. by rewrite (H5 key now' Hn).
    + rewrite decide_False by congruence. by apply H5.
Qed.

(** ** A run of the limiter *)

(** Requests in the order they were counted, each with its key and time, and
    the number each was given. *)
Fixpoint count_all (calls : list (string * Z)) (w : list (string * list Z)) : list (string * list Z) * list Z :=
  match calls with
  | [] => (w, [])
  | (key, now) :: calls =>
      let '(w, current) := count_local key now w in
      let '(w, currents) := count_all calls w in
      (w, current :: currents)
  end.

(** Of each request: its own number among the requests of its key in the
    minute up to it, counting those that were refused too. *)
Definition in_last_minute (key : string) (now : Z) (hist : list (string * Z)) : Z :=
  Z.of_nat (length (filter (in_minute now) (times key hist))) + 1.
Fixpoint window_counts (hist calls : list (string * Z)) : list Z :=
  match calls with
  | [] => []
  | (key, now) :: calls => in_last_minute key now hist :: window_counts (hist ++ [(key, now)]) calls
  end.

Lemma fits_prefix a b : fits (a ++ b) → fits a.
Proof.
  unfold fits. intros H1. etrans; [|exact H1]. apply inj_le, distinct_bound; [apply NoDup_remove_dups|].
  intros k Hk. rewrite elem_of_remove_dups in Hk. rewrite fmap_app. apply elem_of_app. by left.
Qed.

Lemma count_all_counted calls : ∀ T hist w,
  counted T hist w → StronglySorted Z.le (T :: calls.*2) → fits (hist ++ calls) →
  (count_all calls w).2 = window_counts hist calls.
Proof.
  induction calls as [|[key now] calls IH]; intros T hist w Hc Hs Hf; [done|]. cbn [count_all window_counts].
  rewrite fmap_cons in Hs. apply StronglySorted_inv in Hs as [Hs HT]. cbn [snd] in *.
  rewrite (cons_middle (key, now) hist calls), app_assoc in Hf.
  assert (T ≤ now) as Hle by (by apply Forall_cons in HT as [? _]).
  pose proof (count_step T now key hist w Hle Hc (fits_prefix _ _ Hf)) as Hstep.
  destruct (count_local key now w) as [w' current]. destruct Hstep as [Hc' ->].
  specialize (IH now _ _ Hc' Hs Hf). destruct (count_all calls w') as [w'' currents]. cbn in IH |- *. by rewrite IH.
Qed.

Lemma empty_counted T : counted T [] [].
Proof. split; [constructor|constructor|done|by intros k ?%elem_of_nil|done]. Qed.

(** The table never outgrows its ceiling, whatever keys clients make up. *)
Lemma od_expire_length {V} dead (l : list (string * V)) : (length (od_expire dead l) ≤ length l)%nat.
Proof. destruct (od_expire_suffix dead l) as (l0 & E & _). rewrite E at 2. rewrite length_app. lia. Qed.
Lemma od_put_length {V} k (v : V) l : length (od_put k v l) = match od_get k l with Some _ => length l | None => S (length l) end.
Proof. induction l as [|[j w] l IH]; [done|]. cbn. case_decide; [done|]. cbn. rewrite IH. by destruct (od_get k l). Qed.
Lemma od_put_end_length {V} k (v v0 : V) l : NoDup (od_keys l) → od_get k l = Some v0 → length (od_put_end k v l) = length l.
Proof.
  intros Hn Hk. unfold od_put_end. rewrite length_app. cbn [length].
  induction l as [|[j w] l IH]; [done|]. cbn [od_get] in Hk. unfold od_pop. rewrite filter_cons. cbn [fst].
  unfold od_keys in Hn. rewrite fmap_cons in Hn. apply NoDup_cons in Hn as [Hj Hn]. case_decide as E.
  - subst j. rewrite decide_False by tauto. cbn [fst] in Hj. fold (od_pop k l). rewrite od_pop_absent; [cbn; lia|].
    destruct (od_get k l) as [u|] eqn:Eu; [|done]. destruct Hj. apply list_elem_of_fmap. exists (k, u). split; [done|].
    by apply od_get_in.
  - rewrite decide_True by done. cbn [length]. rewrite <-(IH Hn Hk). unfold od_pop. lia.
Qed.

Lemma count_local_bounded key now w : NoDup (od_keys w) → Z.of_nat (length w) ≤ RATE_MAX_KEYS →
  NoDup (od_keys (count_local key now w).1) ∧ Z.of_nat (length (count_local key now w).1) ≤ RATE_MAX_KEYS.
Proof.
  intros Hn Hl. unfold count_local, rate_window.
  assert (NoDup (od_keys (od_expire (bucket_expired now) w))) as Hn1 by by apply od_keys_expire.
  pose proof (od_expire_length (bucket_expired now) w) as Hle. set (w1 := od_expire (bucket_expired now) w) in *. clearbody w1.
  destruct (od_get key w1) as [ts|] eqn:E; cbn [fst].
  - unfold od_move_to_end. rewrite E. rewrite od_put_put_end. split; [by apply od_keys_put_end|].
    rewrite (od_put_end_length _ _ _ _ Hn1 E). lia.
  - set (w2 := if RATE_MAX_KEYS <=? Z.of_nat (length w1) then evict_oldest w1 else w1).
    assert (NoDup (od_keys w2) ∧ od_get key w2 = None ∧ Z.of_nat (length w2) < RATE_MAX_KEYS) as (Hn2 & E2 & Hl2).
    { subst w2. destruct (RATE_MAX_KEYS <=? Z.of_nat (length w1)) eqn:Em; [|split_and!; [done|done|by apply Z.leb_gt in Em]].
      destruct w1 as [|[j v] w1]; [by cbn in Em|]. cbn [evict_oldest tail]. unfold od_keys in Hn1. rewrite fmap_cons in Hn1.
      apply NoDup_cons in Hn1 as [_ Hn1]. cbn [od_get] in E. case_decide; [done|]. split_and!; [done|done|]. cbn [length] in Hle. lia. }
    rewrite (od_put_absent key [] w2 E2), od_put_app by done. cbn [od_put]. rewrite decide_True by done. split.
    + unfold od_keys. rewrite fmap_app. apply NoDup_app. split_and!; [done| |apply NoDup_singleton].
      intros k (kv & -> & Hin)%list_elem_of_fmap Hk%list_elem_of_singleton. destruct kv as [k' v]. cbn in Hk. subst k'.
      apply od_get_elem in Hin; [|done]. congruence.
    + rewrite length_app. cbn. lia.
Qed.

(** Requests of a key admitted in the minute from [lo]. *)
Definition admitted_between (key : string) (lo limit : Z) (answers : list ((string * Z) * Z)) : Z :=
  Z.of_nat (length (filter (λ a, a.1.1 = key ∧ lo ≤ a.1.2 ≤ lo + seconds RATE_WINDOW_SECONDS ∧ a.2 ≤ limit) answers)).

(** A key's requests since [lo]. *)
Definition since (key : string) (lo : Z) (hist : list (string * Z)) : Z :=
  Z.of_nat (length (filter (λ t, lo ≤ t) (times key hist))).

Lemma filter_length_le {A} (P Q : A → Prop) `{∀ x, Decision (P x)} `{∀ x, Decision (Q x)} (l : list A) :
  (∀ x, P x → Q x) → (length (filter P l) ≤ length (filter Q l))%nat.
Proof.
  intros HPQ. induction l as [|x l IH]; [done|]. rewrite !filter_cons.
  destruct (decide (P x)) as [Hp|]; [rewrite (decide_True _ _ (HPQ x Hp)); cbn; lia|]. case_decide; cbn; lia.
Qed.

Lemma in_last_minute_since key lo now hist : now ≤ lo + seconds RATE_WINDOW_SECONDS →
  since key lo hist + 1 ≤ in_last_minute key now hist.
Proof.
  intros Hn. unfold since, in_last_minute. apply Z.add_le_mono_r, inj_le, filter_length_le.
  unfold in_minute. intros t. lia.
Qed.

Lemma since_snoc key lo k t hist : lo ≤ t → since key lo (hist ++ [(k, t)]) = since key lo hist + (if decide (k = key) then 1 else 0).
Proof.
  intros Ht. unfold since. rewrite times_snoc. case_decide; [|lia]. rewrite filter_app, length_app, filter_cons_True by done.
  cbn. lia.
Qed.

Lemma admitted_bounded key lo limit calls : ∀ hist,
  0 ≤ limit → admitted_between key lo limit (zip calls (window_counts hist calls)) ≤ Z.max 0 (limit - since key lo hist).
Proof.
  induction calls as [|[k now] calls IH]; intros hist Hl; [apply Z.le_max_l|]. cbn [window_counts zip zip_with].
  unfold admitted_between. rewrite filter_cons. cbn [fst snd].
  specialize (IH (hist ++ [(k, now)]) Hl). unfold admitted_between in IH.
  destruct (decide (lo ≤ now)) as [Hlo|Hlo].
  - rewrite (since_snoc key lo k now hist Hlo) in IH.
    match goal with |- context [decide ?P] => destruct (decide P) as [(-> & [_ Hhi] & Hcur)|E] end.
    + rewrite decide_True in IH by done.
      pose proof (in_last_minute_since key lo now hist Hhi). cbn [length]. lia.
    + destruct (decide (k = key)); lia.
  - rewrite decide_False by lia.
    assert (since key lo (hist ++ [(k, now)]) = since key lo hist) as E; [|by rewrite E in IH].
    unfold since. rewrite times_snoc. case_decide; [|done]. by rewrite filter_app, filter_cons_False, filter_nil, app_nil_r.
Qed.

(** C39: The limiter is a sliding window. While the distinct keys fit its table,
    requests counted in process get exactly their number among the requests
    of their key in the last minute, refused ones included; so in no minute
    does a key have more admitted requests than its limit. *)
Theorem rate_limit_is_sliding_window calls T key lo limit :
  StronglySorted Z.le (T :: calls.*2) → fits calls → 0 ≤ limit →
  (count_all calls []).2 = window_counts [] calls ∧
  admitted_between key lo limit (zip calls (count_all calls []).2) ≤ limit.
Proof.
  intros Hs Hf Hl. assert ((count_all calls []).2 = window_counts [] calls) as E.
  { apply (count_all_counted calls T); [apply empty_counted|done|done]. }
  split; [done|]. rewrite E. pose proof (admitted_bounded key lo limit calls [] Hl) as Hb.
  change (since key lo []) with 0 in Hb. lia.
Qed.

Definition sample_calls : list (string * Z) :=
  [("a", 0); ("a", seconds 1); ("b", seconds 2); ("a", seconds 61); ("a", seconds 200)].
Lemma rate_limit_is_sliding_window_witness :
  (count_all sample_calls []).2 = [1; 2; 1; 2; 1] ∧
  (count_all sample_calls []).2 = window_counts [] sample_calls ∧
  admitted_between "a" 0 1 (zip sample_calls (count_all sample_calls []).2) ≤ 1.
Proof.
  split; [vm_compute; reflexivity|].
  apply (rate_limit_is_sliding_window sample_calls 0 "a" 0 1).
  - unfold sample_calls, seconds. cbn. repeat (constructor; [|repeat (constructor; [lia|]); constructor]). constructor.
  - apply Z.leb_le. vm_compute. reflexivity.
  - lia.
Defined.
