(* ===== verification/AuthRoutes.v ===== *)
(** backend/main.py, the account routes (register, login, refresh, logout,
    logout-all, settings) and the dependency that authenticates every other
    one ([get_current_user]), over auth_service.py's password check, lockout,
    tokens and CSRF tokens. The Redis copies of refresh-token hashes are
    written by the routes and read by nothing; they are left out. *)

From stdpp Require Import pretty.
From S2P Require Import Prelude Models OrderedDict Lockout Sessions SessionsFacts RateLimit.
#[local] Open Scope Z_scope.

(** ** Rows *)

Record User := mkUser {
  us_id : string; us_email : string; us_password_hash : string; us_tier : string;
  us_beginner_mode : bool; us_is_active : bool; us_role : option string
}.
#[global] Instance eta_User : Eta User := λ u,
  mkUser (us_id u) (us_email u) (us_password_hash u) (us_tier u) (us_beginner_mode u) (us_is_active u) (us_role u).

Record AuditWrite := mkAuditWrite {
  aw_user_id : string; aw_action : string; aw_resource_type : string; aw_resource_id : string; aw_metadata : json
}.

(** The tables the routes write, and this process's lockout and token cache. *)
Record AuthState := mkAuthState {
  st_users : gmap string User;
  st_keys : gmap string KeyPair;
  st_tokens : gmap string RefreshToken;
  st_lockout : Lockout;
  st_verified : list (string * Claims);
  st_audit : list AuditWrite
}.
#[global] Instance eta_AuthState : Eta AuthState := λ s,
  mkAuthState (st_users s) (st_keys s) (st_tokens s) (st_lockout s) (st_verified s) (st_audit s).

Definition write_audit (w : AuditWrite) (s : AuthState) : AuthState := s <| st_audit ::= λ l, l ++ [w] |>.

Definition user_by_email (email : string) (users : gmap string User) : option User :=
  List.find (λ u, bool_decide (us_email u = email)) (rows users).

(** ** Passwords *)

Section auth.
(** Argon2 ([verify]: [None] where it raises, [check_needs_rehash], [hash]),
    PBKDF2-HMAC-SHA256 and base64, the libraries'. *)
Variable argon2_verify : string → string → bool.
Variable argon2_needs_rehash : string → bool.
Variable argon2_hash : string → string.
Variable pbkdf2 : string → string → string.
Variable b64decode : string → option (list Z).
Variable bytes_of : string → list Z.

Definition is_pbkdf2_hash (stored : string) : bool := negb (String.prefix "$" stored).

(** [verify_password]: whether it is valid, and whether to hash it anew. *)
Definition verify_password (password stored : string) : bool * bool :=
  if is_pbkdf2_hash stored then
    match b64decode stored with
    | None => (false, false)
    | Some raw =>
        let salt := take 16 raw in let digest := drop 16 raw in
        let valid := bool_decide (digest = bytes_of (pbkdf2 password (String.string_of_list_ascii (Ascii.ascii_of_nat ∘ Z.to_nat <$> salt)))) in
        (valid, valid)
    end
  else if argon2_verify stored password then (true, argon2_needs_rehash stored) else (false, false).

(** ** Tokens *)

Variable sha256_hex : string → string.
Variables REFRESH_TOKEN_SECONDS REFRESH_ABSOLUTE_SESSION_SECONDS JWT_EXPIRE_SECONDS : Z.
Variables JWT_ISSUER JWT_AUDIENCE : string.
Variable jwt_encode : json → string.
Variable jwt_decode : Z → string → option Claims.
Variable csrf_mac : string → string.
Variable urlsafe_b64encode : string → string.
Variable urlsafe_b64decode : string → option string.

Definition create_access_token (now : Z) (jti user_id tier : string) : string :=
  let now := now / seconds 1 in
  jwt_encode (JObj [("iss", JStr JWT_ISSUER); ("aud", JStr JWT_AUDIENCE); ("sub", JStr user_id); ("jti", JStr jti);
                    ("tier", JStr tier); ("iat", JInt now); ("exp", JInt (now + JWT_EXPIRE_SECONDS))]).

(** What a session grants: the three cookies, and the user they are for. *)
Record Granted := mkGranted { gr_access : string; gr_refresh : string; gr_csrf : string; gr_user : User }.

(** The random values and identifiers a call draws. *)
Record Draws := mkDraws { dr_jti : string; dr_refresh : string; dr_family : string; dr_id : string; dr_kem_id : string; dr_dsa_id : string }.

Definition grant (now : Z) (dr : Draws) (refresh : string) (u : User) : Granted :=
  mkGranted (create_access_token now (dr_jti dr) (us_id u) (us_tier u)) refresh
    (generate_csrf_token csrf_mac urlsafe_b64encode now (us_id u)) u.

(** ** Routes *)

(** The answers: an HTTP error; the 401 that also deletes the cookies; an
    exception nothing handles. *)
Inductive AuthError :=
| Http (e : HTTPException)
| SessionCleared
| Unhandled.
Abbreviation auth_answer A := (outcome AuthError A).
Definition refuse {A} (status : Z) (detail : string) : auth_answer A := Raise (Http (mkHTTPException status detail)).

(** [POST /api/auth/register]. [others] is what was committed between the
    check and the insert; [kem_pk] and [dsa_pk] are the new public keys. *)
Definition register (others : gmap string User → gmap string User) (email password kem_pk dsa_pk : string) (dr : Draws)
    (s : AuthState) : AuthState * auth_answer User :=
  let taken := refuse 409 "Email already registered" in
  match user_by_email email (st_users s) with
  | Some _ => (s, taken)
  | None =>
      let s := s <| st_users ::= others |> in
      match user_by_email email (st_users s), st_users s !! dr_id dr with
      | None, None =>
          let u := mkUser (dr_id dr) email (argon2_hash password) "free" true true (Some "user") in
          let s := s <| st_users ::= <[us_id u := u]> |> in
          let s := s <| st_keys ::= λ m, <[dr_dsa_id dr := mkKeyPair (dr_dsa_id dr) (us_id u) "ML-DSA-65" dsa_pk true]>
                                    (<[dr_kem_id dr := mkKeyPair (dr_kem_id dr) (us_id u) "ML-KEM-768" kem_pk true]> m) |> in
          (write_audit (mkAuditWrite (us_id u) "USER_REGISTERED" "user" (us_id u) (JObj [("email", JStr email)])) s, Ret u)
      | _, _ => (s, taken)
      end
  end.

Definition DUMMY_HASH : string :=
  "$argon2id$v=19$m=65536,t=3,p=4$AAAAAAAAAAAAAAAAAAAAAA$AAAAAAAAAAAAAAAAAAAAAAAAAAAAAAAAAAAAAAAAAAA".

(** The 429 answers; each also sets [Retry-After] to the same seconds. *)
Definition too_many {A} (seconds : Z) : auth_answer A :=
  refuse 429 ("Too many failed attempts. Try again in " +:+ pretty seconds +:+ " seconds.").
Definition locked_now {A} (seconds : Z) : auth_answer A :=
  refuse 429 ("Account temporarily locked after repeated failures. Try again in " +:+ pretty seconds +:+ " seconds.").

Definition ip_json (ip : option string) : json := match ip with Some ip => JStr ip | None => JNull end.

(** [POST /api/auth/login] *)
Definition login (now : Z) (email password : string) (ip : option string) (dr : Draws) (s : AuthState)
    : AuthState * auth_answer Granted :=
  let '(lockout, (is_locked, retry_after)) := check_rate_limit now email ip (st_lockout s) in
  let s := s <| st_lockout := lockout |> in
  if is_locked then (s, too_many retry_after)
  else
    let user := user_by_email email (st_users s) in
    let stored := match user with Some u => us_password_hash u | None => DUMMY_HASH end in
    let '(is_valid, needs_rehash) := verify_password password stored in
    match user, is_valid with
    | Some u, true =>
        let s := s <| st_lockout ::= clear_failed_attempts email ip |> in
        let u := if needs_rehash then u <| us_password_hash := argon2_hash password |> else u in
        let s := if needs_rehash then s <| st_users ::= <[us_id u := u]> |> else s in
        let '(tokens, created) :=
          create_refresh_token sha256_hex REFRESH_TOKEN_SECONDS now (us_id u) (dr_refresh dr) (dr_family dr) (st_tokens s) in
        let s := s <| st_tokens := tokens |> in
        match created with
        | None => (s, Raise Unhandled)
        | Some _ =>
            (write_audit (mkAuditWrite (us_id u) "USER_LOGIN" "user" (us_id u)
                            (JObj [("ip", ip_json ip); ("hash_upgraded", JBool needs_rehash)])) s,
             Ret (grant now dr (dr_refresh dr) u))
        end
    | _, _ =>
        let '(lockout, locked) := record_failed_attempt now email ip (st_lockout s) in
        (s <| st_lockout := lockout |>,
         match locked with
         | Some n => if n =? 0 then refuse 401 "Invalid credentials" else locked_now n
         | None => refuse 401 "Invalid credentials"
         end)
    end.

(** [POST /api/auth/refresh], with the refresh cookie; [missed] as in
    [rotate_refresh_token]. *)
Definition refresh_session (missed : gset string) (now : Z) (cookie : option string) (dr : Draws) (s : AuthState)
    : AuthState * auth_answer Granted :=
  match cookie with
  | None | Some EmptyString => (s, refuse 401 "Missing refresh token")
  | Some raw =>
      let '(tokens, result) :=
        rotate_refresh_token sha256_hex REFRESH_TOKEN_SECONDS REFRESH_ABSOLUTE_SESSION_SECONDS missed now raw (dr_refresh dr) (st_tokens s) in
      let s := s <| st_tokens := tokens |> in
      match result with
      | Raise _ => (s, Raise Unhandled)
      | Ret None => (s, Raise SessionCleared)
      | Ret (Some (new_raw, user_id, _)) =>
          match st_users s !! user_id with
          | Some u =>
              if us_is_active u then (s, Ret (grant now dr new_raw u))
              else (s, refuse 401 "User not found or inactive")
          | None => (s, refuse 401 "User not found or inactive")
          end
      end
  end.

(** [POST /api/auth/logout] *)
Definition logout (cookie : option string) (s : AuthState) : AuthState :=
  match cookie with
  | None | Some EmptyString => s
  | Some raw => s <| st_tokens := (revoke_refresh_token sha256_hex raw (st_tokens s)).1 |>
  end.

(** [get_current_user] *)
Record AuthRequest := mkAuthRequest {
  ar_method : string; ar_qs_access : option string; ar_authorization : option string; ar_csrf_header : option string
}.

(** The token, and whether it came from the cookie. *)
Definition request_token (r : AuthRequest) : option (string * bool) :=
  match ar_qs_access r with
  | Some (String _ _ as token) => Some (token, true)
  | _ =>
      match ar_authorization r with
      | Some a =>
          if String.prefix "Bearer " a
          then match after_space a with EmptyString => None | token => Some (token, false) end else None
      | None => None
      end
  end.

Definition safe_method (m : string) : bool := existsb (String.eqb m) ["GET"; "HEAD"; "OPTIONS"].

Definition get_current_user (now : Z) (r : AuthRequest) (s : AuthState) : AuthState * auth_answer User :=
  match request_token r with
  | None => (s, refuse 401 "Missing authentication")
  | Some (token, from_cookie) =>
      let '(verified, payload) := decode_access_token jwt_decode now token (st_verified s) in
      let s := s <| st_verified := verified |> in
      (s, match payload with
          | None => refuse 401 "Invalid or expired token"
          | Some claims =>
              let csrf_ok :=
                match ar_csrf_header r with
                | None | Some EmptyString => false
                | Some header => verify_csrf_token csrf_mac urlsafe_b64decode now header (Some (cl_sub claims)) 86400
                end in
              if from_cookie && negb (safe_method (ar_method r)) && negb csrf_ok
              then refuse 403 "Invalid or missing CSRF token"
              else match st_users s !! cl_sub claims with
                   | Some u => if us_is_active u then Ret u else refuse 401 "User not found or inactive"
                   | None => refuse 401 "User not found or inactive"
                   end
          end)
  end.

(** [POST /api/auth/logout-all] and [PATCH /api/user/settings], for an
    authenticated user; [missed] are the tokens issued while the UPDATE ran. *)
Definition logout_all (missed : gset string) (u : User) (ip : option string) (s : AuthState) : AuthState * Z :=
  let '(tokens, revoked) := revoke_user_refresh_tokens missed (us_id u) (st_tokens s) in
  (write_audit (mkAuditWrite (us_id u) "USER_LOGOUT_ALL" "user" (us_id u)
                  (JObj [("ip", ip_json ip); ("revoked_families", JInt revoked)])) (s <| st_tokens := tokens |>), revoked).

Definition update_user_settings (u : User) (beginner_mode : option bool) (s : AuthState) : AuthState :=
  match beginner_mode with
  | Some b => s <| st_users ::= alter (λ u, u <| us_beginner_mode := b |>) (us_id u) |>
  | None => s
  end.

(** A route behind the dependency. *)
Definition authenticated {A} (now : Z) (r : AuthRequest) (route : User → AuthState → AuthState * auth_answer A) (s : AuthState)
    : AuthState * auth_answer A :=
  let '(s, answer) := get_current_user now r s in
  match answer with
  | Ret u => route u s
  | Raise e => (s, Raise e)
  end.

(** ** Requests, in the order the server commits them *)

Inductive AuthOp :=
| ORegister (others : gmap string User → gmap string User) (email password kem_pk dsa_pk : string) (dr : Draws)
| OLogin (now : Z) (email password : string) (ip : option string) (dr : Draws)
| ORefresh (missed : gset string) (now : Z) (cookie : option string) (dr : Draws)
| OLogout (cookie : option string)
| OLogoutAll (missed : gset string) (now : Z) (r : AuthRequest) (ip : option string)
| OSettings (now : Z) (r : AuthRequest) (beginner_mode : option bool)
| OOther (now : Z) (r : AuthRequest).

Definition serve (s : AuthState) (op : AuthOp) : AuthState :=
  match op with
  | ORegister others email password kem_pk dsa_pk dr => (register others email password kem_pk dsa_pk dr s).1
  | OLogin now email password ip dr => (login now email password ip dr s).1
  | ORefresh missed now cookie dr => (refresh_session missed now cookie dr s).1
  | OLogout cookie => logout cookie s
  | OLogoutAll missed now r ip => (authenticated now r (λ u s, let '(s, n) := logout_all missed u ip s in (s, Ret n)) s).1
  | OSettings now r b => (authenticated now r (λ u s, (update_user_settings u b s, Ret b)) s).1
  | OOther now r => (get_current_user now r s).1
  end.
Definition serve_all : AuthState → list AuthOp → AuthState := foldl serve.
End auth.

(** * Theorems

    The account routes: whoever refreshes a session logged in for it with the
    account's password, within the session's absolute life and since the
    account last logged out everywhere (but for tokens issued while it did). *)

#[local] Open Scope Z_scope.

Section facts.
Variable argon2_verify : string → string → bool.
Variable argon2_needs_rehash : string → bool.
Variable argon2_hash : string → string.
Variable pbkdf2 : string → string → string.
Variable b64decode : string → option (list Z).
Variable bytes_of : string → list Z.
Variable sha256_hex : string → string.
Variables REFRESH_TOKEN_SECONDS REFRESH_ABSOLUTE_SESSION_SECONDS JWT_EXPIRE_SECONDS : Z.
Variables JWT_ISSUER JWT_AUDIENCE : string.
Variable jwt_encode : json → string.
Variable jwt_decode : Z → string → option Claims.
Variable csrf_mac : string → string.
Variable urlsafe_b64encode : string → string.
Variable urlsafe_b64decode : string → option string.

#[local] Abbreviation verified := (verify_password argon2_verify argon2_needs_rehash pbkdf2 b64decode bytes_of).
#[local] Abbreviation log_in := (login argon2_verify argon2_needs_rehash argon2_hash pbkdf2 b64decode bytes_of sha256_hex
  REFRESH_TOKEN_SECONDS JWT_EXPIRE_SECONDS JWT_ISSUER JWT_AUDIENCE jwt_encode csrf_mac urlsafe_b64encode).
#[local] Abbreviation refresh := (refresh_session sha256_hex REFRESH_TOKEN_SECONDS REFRESH_ABSOLUTE_SESSION_SECONDS
  JWT_EXPIRE_SECONDS JWT_ISSUER JWT_AUDIENCE jwt_encode csrf_mac urlsafe_b64encode).
#[local] Abbreviation current_user := (get_current_user jwt_decode csrf_mac urlsafe_b64decode).
#[local] Abbreviation served := (serve argon2_verify argon2_needs_rehash argon2_hash pbkdf2 b64decode bytes_of sha256_hex
  REFRESH_TOKEN_SECONDS REFRESH_ABSOLUTE_SESSION_SECONDS JWT_EXPIRE_SECONDS JWT_ISSUER JWT_AUDIENCE jwt_encode jwt_decode
  csrf_mac urlsafe_b64encode urlsafe_b64decode).
#[local] Abbreviation served_all := (serve_all argon2_verify argon2_needs_rehash argon2_hash pbkdf2 b64decode bytes_of
  sha256_hex REFRESH_TOKEN_SECONDS REFRESH_ABSOLUTE_SESSION_SECONDS JWT_EXPIRE_SECONDS JWT_ISSUER JWT_AUDIENCE jwt_encode
  jwt_decode csrf_mac urlsafe_b64encode urlsafe_b64decode).

(** The request, at this state, is an accepted log-out-everywhere of the user
    that sees every token of the session (the family [f]). *)
Definition ends_session (uid f : string) (s : AuthState) (op : AuthOp) : bool :=
  match op with
  | OLogoutAll missed now r _ =>
      match (current_user now r s).2 with
      | Ret u => bool_decide (us_id u = uid ∧ map_Forall (λ h t, rt_family_id t = f → h ∉ missed) (st_tokens s))
      | Raise _ => false
      end
  | _ => false
  end.
Fixpoint ended_since (uid f : string) (s : AuthState) (ops : list AuthOp) : bool :=
  match ops with
  | [] => false
  | op :: ops => ends_session uid f s op || ended_since uid f (served s op) ops
  end.

Lemma ended_since_snoc uid f ops : ∀ s op,
  ended_since uid f s (ops ++ [op]) = ended_since uid f s ops || ends_session uid f (served_all s ops) op.
Proof.
  induction ops as [|o ops IH]; intros s op; cbn [ended_since app].
  - by rewrite orb_false_r.
  - rewrite IH. by rewrite orb_assoc.
Qed.

(** At [s], the request logs the user in and starts the session [f]: not
    locked out, and with the account's password. *)
Definition logs_in (uid f : string) (t0 : Z) (s : AuthState) (op : AuthOp) : Prop :=
  ∃ email password ip dr u,
    op = OLogin t0 email password ip dr ∧ dr_family dr = f ∧
    (check_rate_limit t0 email ip (st_lockout s)).2.1 = false ∧
    user_by_email email (st_users s) = Some u ∧ us_id u = uid ∧
    (verified password (us_password_hash u)).1 = true.

Definition session_of (s0 : AuthState) (ops : list AuthOp) (uid f : string) (t0 : Z) : Prop :=
  ∃ pre op post, ops = pre ++ op :: post ∧ logs_in uid f t0 (served_all s0 pre) op ∧
    ended_since uid f (served_all s0 (pre ++ [op])) post = false.

Lemma session_of_snoc s0 ops uid f t0 op :
  session_of s0 ops uid f t0 → ends_session uid f (served_all s0 ops) op = false → session_of s0 (ops ++ [op]) uid f t0.
Proof.
  intros (pre & o & post & -> & Hin & Hout) Hop. exists pre, o, (post ++ [op]). split; [by rewrite <- app_assoc|].
  split; [done|]. rewrite ended_since_snoc, Hout. cbn [orb].
  unfold serve_all in *. rewrite <- foldl_app, <- app_assoc. done.
Qed.

(** Every unrevoked token descends from a login whose token is still there. *)
Definition traced (s0 : AuthState) (ops : list AuthOp) (db : gmap string RefreshToken) : Prop :=
  ∀ h t, db !! h = Some t → rt_is_revoked t = false →
    ∃ t0 h' t', session_of s0 ops (rt_user_id t) (rt_family_id t) t0 ∧
      db !! h' = Some t' ∧ rt_family_id t' = rt_family_id t ∧ rt_created_at t' = t0.

(** What a step does to the table: rows stay, and a new unrevoked one
    continues an unrevoked one's family or is a login's. *)
Definition extends (db db' : gmap string RefreshToken) (fresh : RefreshToken → Prop) : Prop :=
  (∀ h t, db !! h = Some t → ∃ t', db' !! h = Some t' ∧ rt_family_id t' = rt_family_id t ∧ rt_created_at t' = rt_created_at t) ∧
  (∀ h t, db' !! h = Some t → rt_is_revoked t = false → fresh t ∨
     ∃ h0 t0, db !! h0 = Some t0 ∧ rt_is_revoked t0 = false ∧ rt_family_id t0 = rt_family_id t ∧ rt_user_id t0 = rt_user_id t).

Lemma extends_refl db P : extends db db P.
Proof. split; intros; [by eexists|]. right. by repeat eexists. Qed.

Lemma extends_revoke missed p db P : extends db (revoke_where missed p db) P.
Proof.
  split; intros h t.
  - intros (t' & Ht' & [->| ->])%(revoke_where_keeps missed p); by eexists.
  - intros (t0 & H0 & [->| ->])%revoke_where_inv; [|done]. intros. right. by exists h, t0.
Qed.

Lemma extends_put h t t' db P :
  db !! h = Some t → rt_family_id t' = rt_family_id t → rt_created_at t' = rt_created_at t → rt_user_id t' = rt_user_id t →
  (rt_is_revoked t' = false → rt_is_revoked t = false) → extends db (<[h := t']> db) P.
Proof.
  intros Ht Hf Hc Hu Hr. split; intros k x Hx.
  - destruct (decide (k = h)) as [->|Hk].
    + exists t'. rewrite lookup_insert_eq. by simplify_eq.
    + exists x. by rewrite lookup_insert_ne.
  - rewrite lookup_insert in Hx. case_decide as Hk; simplify_eq; intros Hrev; right.
    + exists k, t. auto.
    + by exists k, x.
Qed.

Lemma extends_insert t db db' (P : RefreshToken → Prop) :
  insert_token t db = Some db' → P t → extends db db' P.
Proof.
  unfold insert_token. destruct (db !! rt_token_hash t) as [|] eqn:Ht; [done|]. intros [= <-] HP.
  split; intros k x Hx.
  - exists x. rewrite lookup_insert_ne; [done|]. intros <-. by rewrite Ht in Hx.
  - rewrite lookup_insert in Hx. case_decide as Hk; simplify_eq; intros Hrev; [by left|]. right. by exists k, x.
Qed.

Lemma extends_trans db1 db2 db3 P : extends db1 db2 (λ _, False) → extends db2 db3 P → extends db1 db3 P.
Proof.
  intros [K1 N1] [K2 N2]. split; intros h t Ht.
  - destruct (K1 _ _ Ht) as (t2 & H2 & Hf & Hc). destruct (K2 _ _ H2) as (t3 & H3 & Hf' & Hc').
    exists t3. split; [done|]. split; congruence.
  - intros Hr. destruct (N2 _ _ Ht Hr) as [|(h2 & t2 & H2 & Hr2 & Hf & Hu)]; [by left|right].
    destruct (N1 _ _ H2 Hr2) as [[]|(h1 & t1 & H1 & Hr1 & Hf1 & Hu1)]. exists h1, t1. repeat split; congruence.
Qed.

Lemma extends_weaken db db' (P Q : RefreshToken → Prop) :
  (∀ t, P t → Q t ∨ ∃ h0 t0, db !! h0 = Some t0 ∧ rt_is_revoked t0 = false ∧
     rt_family_id t0 = rt_family_id t ∧ rt_user_id t0 = rt_user_id t) →
  extends db db' P → extends db db' Q.
Proof. intros HPQ [K N]. split; [done|]. intros h t Ht Hr. destruct (N h t Ht Hr) as [|]; [by apply HPQ|by right]. Qed.

(** ** Each call *)

Lemma rotate_extends missed now raw new db :
  extends db (rotate_refresh_token sha256_hex REFRESH_TOKEN_SECONDS REFRESH_ABSOLUTE_SESSION_SECONDS missed now raw new db).1
    (λ _, False).
Proof.
  pose proof (rotate_cases sha256_hex REFRESH_TOKEN_SECONDS REFRESH_ABSOLUTE_SESSION_SECONDS missed now raw new db) as HC.
  destruct (rotate_refresh_token _ _ _ _ _ _ _ _) as [db' r]. cbn [fst].
  destruct HC as [[-> _]|[(t & Ht & -> & _)|(t & Ht & [Hused Hrev] & Hexp & Hins & _)]].
  - apply extends_refl.
  - apply extends_revoke.
  - eapply extends_trans; [by apply (extends_put (sha256_hex raw) t (t <| rt_is_used := true |>))|].
    eapply extends_weaken; [|by apply (extends_insert _ _ _ (λ x, rt_family_id x = rt_family_id t ∧ rt_user_id x = rt_user_id t) Hins)].
    intros x [Hf Hu]. right. exists (sha256_hex raw), (t <| rt_is_used := true |>). rewrite lookup_insert_eq. done.
Qed.

Lemma revoke_extends raw db : extends db (revoke_refresh_token sha256_hex raw db).1 (λ _, False).
Proof.
  unfold revoke_refresh_token. destruct (db !! sha256_hex raw) as [t|] eqn:E; cbn [fst]; [|apply extends_refl].
  by apply (extends_put _ t).
Qed.

Lemma current_user_tokens now r s : st_tokens (current_user now r s).1 = st_tokens s.
Proof.
  unfold get_current_user. destruct (request_token r) as [[token c]|]; [|done].
  by destruct (decode_access_token _ _ _ _) as [v p].
Qed.

Lemma register_tokens others email password kem dsa dr s :
  st_tokens (register argon2_hash others email password kem dsa dr s).1 = st_tokens s.
Proof.
  unfold register. destruct (user_by_email email (st_users s)); [done|].
  cbn zeta. destruct (user_by_email email _); [done|]. by destruct (_ !! _).
Qed.

(** A login that writes a token logged the user in. *)
Lemma login_extends now email password ip dr s :
  extends (st_tokens s) (st_tokens (log_in now email password ip dr s).1)
    (λ t, rt_created_at t = now ∧ logs_in (rt_user_id t) (rt_family_id t) now s (OLogin now email password ip dr)).
Proof.
  unfold login. destruct (check_rate_limit now email ip (st_lockout s)) as [lo [locked ra]] eqn:Ec.
  destruct locked; [apply extends_refl|]. cbn zeta. change (st_users (s <| st_lockout := lo |>)) with (st_users s).
  destruct (user_by_email email (st_users s)) as [u|] eqn:Eu.
  - destruct (verified password (us_password_hash u)) as [valid rehash] eqn:Ev.
    destruct valid.
    + unfold create_refresh_token. destruct (insert_token _ _) as [db'|] eqn:Ei.
      * assert (extends (st_tokens s) db' (λ t, rt_created_at t = now ∧ logs_in (rt_user_id t) (rt_family_id t) now s (OLogin now email password ip dr))) as He.
        { eapply extends_insert; [destruct rehash; exact Ei|]. split; [done|]. exists email, password, ip, dr, u.
          rewrite Ec, Ev. split_and!; try done. }
        by destruct rehash.
      * destruct rehash; apply extends_refl.
    + destruct (record_failed_attempt _ _ _ _). apply extends_refl.
  - destruct (verified password DUMMY_HASH). destruct (record_failed_attempt _ _ _ _). apply extends_refl.
Qed.

Lemma serve_extends s op :
  extends (st_tokens s) (st_tokens (served s op))
    (λ t, logs_in (rt_user_id t) (rt_family_id t) (rt_created_at t) s op).
Proof.
  destruct op as [others email password kem dsa dr|now email password ip dr|missed now cookie dr|cookie|missed now r ip|now r b|now r];
    cbn [serve].
  - rewrite register_tokens. apply extends_refl.
  - eapply extends_weaken; [|apply login_extends]. intros t [Hc Hin]. left. by rewrite Hc.
  - apply (extends_weaken _ _ (λ _, False)); [done|]. unfold refresh_session.
    destruct cookie as [[|c raw]|]; [apply extends_refl| |apply extends_refl].
    pose proof (rotate_extends missed now (String c raw) (dr_refresh dr) (st_tokens s)) as He.
    destruct (rotate_refresh_token _ _ _ _ _ _ _ _) as [db r]. cbn [fst] in He.
    destruct r as [[[[new uid] f]|]|e]; [|done..]. cbn zeta. destruct (_ !! uid) as [u|]; [|done]. by destruct (us_is_active u).
  - apply (extends_weaken _ _ (λ _, False)); [done|]. unfold logout.
    destruct cookie as [[|c raw]|]; [apply extends_refl| |apply extends_refl]. apply revoke_extends.
  - unfold authenticated. pose proof (current_user_tokens now r s) as Ht.
    destruct (current_user now r s) as [s1 [u|e]]; cbn [fst] in *; cbn; rewrite <- Ht;
      [apply extends_revoke|apply extends_refl].
  - unfold authenticated. pose proof (current_user_tokens now r s) as Ht.
    destruct (current_user now r s) as [s1 [u|e]]; cbn [fst] in *.
    + destruct b; cbn; rewrite Ht; apply extends_refl.
    + rewrite Ht. apply extends_refl.
  - rewrite current_user_tokens. apply extends_refl.
Qed.

(** Logging out everywhere leaves the sessions it sees no live token. *)
Lemma logout_all_revokes uid s op h t :
  ends_session uid (rt_family_id t) s op = true → st_tokens (served s op) !! h = Some t → rt_user_id t = uid →
  rt_is_revoked t = true.
Proof.
  destruct op as [| | | |missed now r ip| |]; try done. cbn [serve ends_session]. unfold authenticated.
  pose proof (current_user_tokens now r s) as Ht.
  destruct (current_user now r s) as [s1 [u|e]]; [|done]. cbn [fst snd] in *. rewrite bool_decide_eq_true, <- Ht.
  intros [<- Hseen]. cbn. intros (t0 & H0 & ->)%lookup_revoke_where Hu.
  destruct (rt_is_revoked t0) eqn:Er.
  { by repeat case_match. }
  rewrite andb_true_r in *. case_bool_decide as Hm; [by destruct (Hseen h t0 H0 eq_refl)|].
  case_bool_decide as Hb; [done|]. done.
Qed.

Lemma serve_traced s0 ops op :
  traced s0 ops (st_tokens (served_all s0 ops)) →
  traced s0 (ops ++ [op]) (st_tokens (served_all s0 (ops ++ [op]))).
Proof.
  unfold serve_all at 2. rewrite foldl_app. cbn [foldl]. fold (served_all s0 ops).
  set (s := served_all s0 ops). intros HT. destruct (serve_extends s op) as [K N].
  intros h t Ht Hr. assert (ends_session (rt_user_id t) (rt_family_id t) s op = false) as Hout.
  { apply not_true_iff_false. intros H. by rewrite (logout_all_revokes _ _ _ _ _ H Ht eq_refl) in Hr. }
  destruct (N h t Ht Hr) as [Hin|(h0 & t0 & H0 & Hr0 & Hf & Hu)].
  - exists (rt_created_at t), h, t. split; [|done]. exists ops, op, []. done.
  - destruct (HT _ _ H0 Hr0) as (c & h' & t' & Hs & H' & Hf' & Hc).
    destruct (K _ _ H') as (t'' & H'' & Hf'' & Hc''). exists c, h', t''. rewrite Hu, Hf in Hs.
    split; [by apply session_of_snoc|]. split; [done|]. split; congruence.
Qed.

Lemma served_traced s0 ops :
  st_tokens s0 = ∅ → traced s0 ops (st_tokens (served_all s0 ops)).
Proof.
  intros H0. induction ops as [|op ops IH] using rev_ind.
  - intros h t. unfold serve_all. cbn. by rewrite H0.
  - by apply serve_traced.
Qed.

(** The absolute age of a family bounds the age of each of its tokens. *)
Lemma min_created_le ts t : t ∈ ts → ∃ m, min_created ts = Some m ∧ m ≤ rt_created_at t.
Proof.
  induction ts as [|x ts IH]; [by intros ?%not_elem_of_nil|]. intros [->|Ht]%elem_of_cons; cbn.
  - eexists. split; [done|]. destruct (foldr _ _ _); lia.
  - destruct (IH Ht) as (m & Hm & Hle). unfold min_created in Hm. rewrite Hm. eexists. split; [done|]. lia.
Qed.

Lemma rotate_young missed now raw new db db' x f u :
  rotate_refresh_token sha256_hex REFRESH_TOKEN_SECONDS REFRESH_ABSOLUTE_SESSION_SECONDS missed now raw new db = (db', Ret (Some (x, u, f))) →
  ∃ t, db !! sha256_hex raw = Some t ∧ rt_is_revoked t = false ∧ rt_user_id t = u ∧ x = new ∧
    ∀ h t', db !! h = Some t' → rt_family_id t' = rt_family_id t → now - rt_created_at t' ≤ seconds REFRESH_ABSOLUTE_SESSION_SECONDS.
Proof.
  unfold rotate_refresh_token. destruct (db !! sha256_hex raw) as [t|] eqn:E; [|done].
  destruct (rt_expires_at t <? now); [done|]. destruct (rt_is_revoked t) eqn:Er; [done|].
  destruct (rt_is_used t) eqn:Eu; [done|]. cbn zeta.
  destruct (match family_created_at _ _ with Some _ => _ | None => _ end) eqn:Ea; [done|].
  destruct (insert_token _ _); [|done]. intros [= <- <- <- <-]. exists t. split_and!; try done.
  intros h t' Ht' Hf. unfold family_created_at in Ea.
  destruct (min_created_le (filter (λ x, rt_family_id x = rt_family_id t) (rows db)) t') as (m & Hm & Hle).
  { apply list_elem_of_filter. split; [done|]. apply elem_of_rows. by exists h. }
  rewrite Hm in Ea. lia.
Qed.

(** C37: Sessions start with a password. Serving any requests (registrations,
    logins, refreshes, log-outs, settings and authenticated ones, with any
    cookies and headers, in the order of their commits) from an empty token
    table, if a refresh is then answered with new cookies, they are for an
    active user for whom, earlier in the run, a login found the account not
    locked out, verified its password and began the session; that login is no
    further back than the session's absolute lifetime, however often the token
    was rotated; and the user has not logged out everywhere since, unless a
    token of this very session was committed while that log-out's UPDATE ran,
    which under READ COMMITTED then does not see it. *)
Theorem refreshed_sessions_were_logged_in s0 ops missed now cookie dr g :
  st_tokens s0 = ∅ →
  (refresh missed now cookie dr (served_all s0 ops)).2 = Ret g →
  ∃ uid f t0, st_users (served_all s0 ops) !! uid = Some (gr_user g) ∧ us_is_active (gr_user g) = true ∧
    session_of s0 ops uid f t0 ∧ now - t0 ≤ seconds REFRESH_ABSOLUTE_SESSION_SECONDS ∧ gr_refresh g = dr_refresh dr.
Proof.
  intros H0. pose proof (served_traced s0 ops H0) as HT. revert HT. generalize (served_all s0 ops) as s. intros s HT.
  unfold refresh_session. destruct cookie as [[|c raw]|]; [done| |done].
  destruct (rotate_refresh_token _ _ _ _ _ _ _ _) as [db r] eqn:Er.
  destruct r as [[[[new uid] f]|]|e]; [|done..]. cbn zeta. change (st_users (s <| st_tokens := db |>)) with (st_users s).
  destruct (st_users s !! uid) as [u|] eqn:Eu; [|done]. destruct (us_is_active u) eqn:Ea; [|done]. intros [= <-].
  apply rotate_young in Er as (t & Ht & Hr & <- & -> & Hage).
  destruct (HT _ _ Ht Hr) as (t0 & h' & t' & Hs & H' & Hf & <-). exists (rt_user_id t), (rt_family_id t), (rt_created_at t').
  split_and!; try done. by apply (Hage h').
Qed.
End facts.

Definition auth_demo_user : User := mkUser "u1" "ann@example.com" "$pw" "free" true true (Some "user").
Definition auth_demo_state : AuthState :=
  mkAuthState {[ "u1" := auth_demo_user ]} ∅ ∅ (mkLockout [] []) [] [].
Definition auth_demo_draws (n : string) : Draws := mkDraws ("j" +:+ n) ("r" +:+ n) ("f" +:+ n) "i" "k" "d".
Definition auth_demo_ops : list AuthOp :=
  [OLogin (seconds 100) "ann@example.com" "pw" None (auth_demo_draws "1");
   ORefresh ∅ (seconds 200) (Some "r1") (auth_demo_draws "2")].

Lemma refreshed_sessions_were_logged_in_witness :
  ∃ g uid f t0, gr_refresh g = "r3" ∧
    session_of (λ stored pw, String.eqb stored ("$" +:+ pw)) (λ _, false) (λ pw, "$" +:+ pw) (λ a b, a +:+ b) (λ _, None) (λ _, [])
      id 86400 604800 900 "iss" "aud" (λ _, "jwt") (λ _ _, None) id id Some auth_demo_state auth_demo_ops uid f t0.
Proof.
  destruct (refreshed_sessions_were_logged_in (λ stored pw, String.eqb stored ("$" +:+ pw)) (λ _, false) (λ pw, "$" +:+ pw)
    (λ a b, a +:+ b) (λ _, None) (λ _, []) id 86400 604800 900 "iss" "aud" (λ _, "jwt") (λ _ _, None) id id Some
    auth_demo_state auth_demo_ops ∅ (seconds 300) (Some "r2") (auth_demo_draws "3")
    (mkGranted "jwt" "r3" (generate_csrf_token id id (seconds 300) "u1") auth_demo_user)) as (uid & f & t0 & _ & _ & Hs & _ & _);
    [reflexivity|vm_compute; reflexivity|].
  exists (mkGranted "jwt" "r3" (generate_csrf_token id id (seconds 300) "u1") auth_demo_user), uid, f, t0.
  split; [reflexivity|exact Hs].
Defined.
