(* ===== verification/Handshake.v ===== *)
(** backend/services/auth_service.py, [perform_handshake], over crypto/pqc.py:
    the server's side of the hybrid X25519 and ML-KEM-768 handshake, its
    replay guard, its signed transcript and the session it keeps. *)

From stdpp Require Import sorting pretty.
From S2P Require Import Prelude Models Json OrderedDict AuditTrail AuditFacts RedisStore Sessions.
#[local] Open Scope Z_scope.

(** ** State and input *)

(** [SESSIONS], [NONCES], the nonces in Redis or in its fallback, and the
    server's signing identity with the tables it is registered in. *)
Record HandshakeState (R : Type) := mkHandshakeState {
  hs_sessions : list (string * PqcSession);
  hs_nonces : gmap string Z;
  hs_store : Store R;
  hs_identity : ServerIdentity;
  hs_db : AuditDB
}.
Arguments mkHandshakeState {R}. Arguments hs_sessions {R}. Arguments hs_nonces {R}. Arguments hs_store {R}.
Arguments hs_identity {R}. Arguments hs_db {R}.
#[global] Instance eta_HandshakeState R : Eta (HandshakeState R) := λ s,
  mkHandshakeState (hs_sessions s) (hs_nonces s) (hs_store s) (hs_identity s) (hs_db s).

Record Hello := mkHello { he_x25519 : string; he_ml_kem : option string; he_nonce : string }.

(** What a call draws: the times it reads, in order, the public key of the
    client it simulates, its own X25519 key, the encapsulation's randomness,
    32 and 16 random bytes, and what a new signing key would be. *)
Record HandshakeDraws := mkHandshakeDraws {
  hd_expire_at : Z; hd_nonce_at : Z; hd_created_at : Z; hd_expires_from : Z; hd_register_at : Z;
  hd_client_kem : string; hd_x25519_sk : string; hd_kem_coins : string;
  hd_server_nonce : string; hd_session_id : string; hd_fresh : Fresh; hd_uuid : string
}.

Record ServerHello := mkServerHello {
  sh_session_id : string; sh_x25519 : string; sh_ciphertext : string; sh_nonce : string; sh_signature : string;
  sh_dsa_public_key : string; sh_fingerprint : string; sh_key_id : option string; sh_transcript_hash : string;
  sh_version : string; sh_token : string; sh_simulated : bool; sh_sizes : list (string * Z)
}.

(** An HTTP error, an exception of a decoder or a primitive, one of the
    database. *)
Inductive HandshakeError :=
| HandshakeHttp (e : HTTPException)
| HandshakeValue
| HandshakeDatabase (e : AuditError).

Definition HKDF_INFO_CONTEXT : string := "QuantumSentinel-v1".
Definition HANDSHAKE_PROTOCOL_VERSION : string := "QS-HANDSHAKE-V2".

Section handshake.
Context {R : Type}.
Variable redis_client : option (RedisClient R).
Variable production : bool.
(** The primitives, the libraries': base64, SHA-256, X25519's public key and
    exchange, ML-KEM-768's encapsulation (shared secret, ciphertext), HKDF,
    HMAC and ML-DSA-65's signature. [None] where one raises. *)
Variable b64 : string → string.
Variable unb64 : string → option string.
Variable sha256_hex : string → string.
Variable x25519_public : string → string.
Variable x25519_exchange : string → string → option string.
Variable kem_encaps : string → string → option (string * string).
Variable hkdf : string → string → string → string.
Variable hmac_sha256 : string → string → string.
Variable dsa_sign : string → string → string.

(** ** crypto/pqc.py *)

Definition derive_session_key (x25519_shared ml_kem_shared client_nonce server_nonce : string) : string :=
  hkdf (client_nonce +:+ server_nonce) HKDF_INFO_CONTEXT (x25519_shared +:+ ml_kem_shared).
Definition session_token (session_key client_nonce server_nonce : string) : string :=
  b64 (hmac_sha256 session_key (client_nonce +:+ server_nonce)).
(** [(ciphertext, shared secret)] *)
Definition kem_encapsulate (coins pk : string) : option (string * string) :=
  (λ r, (r.2, r.1)) <$> kem_encaps coins pk.

(** ** The replay guard *)

(** [run_sync]: nothing when the call fails or its reply is [lost]. *)
Definition run_sync {A} (lost : bool) (call : prog (Store R) StoreError A) (s : Store R) : Store R * option A :=
  let '(s, r) := call s in
  (s, if lost then None else match r with Ret a => Some a | Raise _ => None end).

Definition consume_nonce (lost : bool) (now : Z) (nonce : string) (s : HandshakeState R)
    : HandshakeState R * outcome HandshakeError bool :=
  let local s :=
    let '(nonces, accepted) := consume_nonce_local sha256_hex now nonce (hs_nonces s) in
    (s <| hs_nonces := nonces |>, Ret accepted) in
  match redis_client with
  | None => local s
  | Some _ =>
      let '(store, accepted) :=
        run_sync lost (consume_pqc_nonce redis_client production sha256_hex now nonce) (hs_store s) in
      let s := s <| hs_store := store |> in
      match accepted with
      | Some a => (s, Ret a)
      | None =>
          if production
          then (s, Raise (HandshakeHttp (mkHTTPException 503 "handshake replay protection unavailable")))
          else local s
      end
  end.

(** ** The transcript *)

Definition transcript (client_x25519 client_kem client_nonce server_x25519 ciphertext server_nonce user_id : string) : json :=
  JObj [("protocol_version", JStr HANDSHAKE_PROTOCOL_VERSION);
        ("client_x25519_pub", JStr (b64 client_x25519));
        ("client_ml_kem_pub", JStr (b64 client_kem));
        ("client_nonce", JStr (b64 client_nonce));
        ("server_x25519_pub", JStr (b64 server_x25519));
        ("server_kem_ciphertext", JStr (b64 ciphertext));
        ("server_nonce", JStr (b64 server_nonce));
        ("kem_algorithm", JStr "ML-KEM-768");
        ("dsa_algorithm", JStr "ML-DSA-65");
        ("kex_algorithm", JStr "X25519");
        ("session_context", JStr user_id)].

(** ** The call *)

Definition size (s : string) : Z := Z.of_nat (String.length s).

(** From the accepted nonce on: keys, transcript, signature and session. *)
Definition answer_hello (dr : HandshakeDraws) (user_id : string) (hello : Hello) (client_x25519 client_nonce : string)
    (s : HandshakeState R) : HandshakeState R * outcome HandshakeError ServerHello :=
  let client_kem :=
    match he_ml_kem hello with
    | Some (String _ _ as text) => (λ pk, (pk, false)) <$> unb64 text
    | _ => Some (hd_client_kem dr, true)
    end in
  match client_kem with
  | None => (s, Raise HandshakeValue)
  | Some (client_kem, simulated) =>
      let server_x25519 := x25519_public (hd_x25519_sk dr) in
      match x25519_exchange (hd_x25519_sk dr) client_x25519 with
      | None => (s, Raise HandshakeValue)
      | Some x25519_shared =>
          match kem_encapsulate (hd_kem_coins dr) client_kem with
          | None => (s, Raise HandshakeValue)
          | Some (ciphertext, kem_shared) =>
              let server_nonce := hd_server_nonce dr in
              let session_key := derive_session_key x25519_shared kem_shared client_nonce server_nonce in
              let transcript_hash :=
                sha256_hex (canonical_json (transcript client_x25519 client_kem client_nonce server_x25519 ciphertext
                                              server_nonce user_id)) in
              let '(ident, db, registered) :=
                ensure_registered sha256_hex b64 (hd_fresh dr) (hd_uuid dr) (hd_register_at dr) (hs_identity s) (hs_db s) in
              let s := s <| hs_identity := ident |> <| hs_db := db |> in
              match registered with
              | Raise e => (s, Raise (HandshakeDatabase e))
              | Ret tt =>
                  let '(ident, signature) := sign sha256_hex dsa_sign (hd_fresh dr) transcript_hash ident in
                  let dsa_pk := default EmptyString (si_dsa_pk ident) in
                  let session_id := b64 (hd_session_id dr) in
                  let session :=
                    mkPqcSession user_id session_key (hd_created_at dr) (hd_expires_from dr + seconds 3600) in
                  (s <| hs_identity := ident |> <| hs_sessions ::= od_put session_id session |>,
                   Ret (mkServerHello session_id (b64 server_x25519) (b64 ciphertext) (b64 server_nonce) (b64 signature)
                          (b64 dsa_pk) (sha256_hex dsa_pk) (si_key_id ident) transcript_hash
                          HANDSHAKE_PROTOCOL_VERSION (session_token session_key client_nonce server_nonce) simulated
                          [("x25519_shared_secret_bytes", size x25519_shared); ("ml_kem_ciphertext_bytes", size ciphertext);
                           ("ml_kem_shared_secret_bytes", size kem_shared); ("ml_dsa_signature_bytes", size signature);
                           ("session_key_bytes", size session_key)]))
              end
          end
      end
  end.

(** One call at a time: the source adds to [SESSIONS] outside its lock, so
    handshakes in flight on other threads can each add one more session. *)
Definition perform_handshake (lost : bool) (dr : HandshakeDraws) (user_id : string) (hello : Hello)
    (s : HandshakeState R) : HandshakeState R * outcome HandshakeError ServerHello :=
  let s := s <| hs_sessions ::= expire_sessions (hd_expire_at dr) |> in
  match unb64 (he_x25519 hello), unb64 (he_nonce hello) with
  | Some client_x25519, Some client_nonce =>
      let '(s, accepted) := consume_nonce lost (hd_nonce_at dr) client_nonce s in
      match accepted with
      | Raise e => (s, Raise e)
      | Ret false =>
          (s, Raise (HandshakeHttp (mkHTTPException 409 "HANDSHAKE_REPLAY: client nonce has already been used")))
      | Ret true => answer_hello dr user_id hello client_x25519 client_nonce s
      end
  | _, _ => (s, Raise HandshakeValue)
  end.
End handshake.

(** * Theorems

    What a handshake guarantees: client and server hold the same session key,
    the server's hello verifies against the client's own transcript under a
    registered signing key, the session table stays bounded, and a nonce
    opens one session within its window. *)

#[local] Open Scope Z_scope.

(** ** The session table *)

Lemma foldl_pop {V} (ks : list string) (l : list (string * V)) :
  foldl (λ l k, od_pop k l) l ks = filter (λ kv, kv.1 ∉ ks) l.
Proof.
  revert l. induction ks as [|k ks IH]; intros l; cbn [foldl].
  - symmetry. apply filter_all. intros x _. by apply not_elem_of_nil.
  - rewrite IH. unfold od_pop. rewrite list_filter_filter. apply list_filter_iff.
    intros [j v]. cbn. rewrite not_elem_of_cons. tauto.
Qed.

Lemma expire_sessions_bounded now sessions : Z.of_nat (length (expire_sessions now sessions)) ≤ MAX_SESSIONS.
Proof.
  unfold expire_sessions. set (live := filter _ sessions). cbn zeta.
  destruct (Z.ltb_spec MAX_SESSIONS (Z.of_nat (length live))) as [Hl|]; [|lia].
  set (n := Z.to_nat (Z.of_nat (length live) - MAX_SESSIONS)). set (sorted := merge_sort created_le live).
  assert (∀ l vs, foldl (λ l kv, od_pop kv.1 l) l vs = foldl (λ l k, od_pop k l) l (vs.*1 : list string)) as ->.
  { clear. intros l vs. revert l. by induction vs as [|v vs IH]; intros l; [|apply IH]. }
  rewrite foldl_pop.
  assert (filter (λ kv, kv.1 ∉ (take n sorted).*1) live ≡ₚ filter (λ kv, kv.1 ∉ (take n sorted).*1) (drop n sorted)) as ->.
  { rewrite <- (merge_sort_Permutation created_le live) at 1. fold sorted. rewrite <- (take_drop n sorted) at 1.
    rewrite filter_app. rewrite (filter_none _ (take n sorted)); [done|].
    intros x Hx Hin. by apply Hin, list_elem_of_fmap_2. }
  etrans; [apply Nat2Z.inj_le, length_filter|]. rewrite length_drop. unfold sorted, n.
  rewrite merge_sort_Permutation. unfold MAX_SESSIONS in *. lia.
Qed.

Lemma length_od_put {V} k (v : V) l : (length (od_put k v l) ≤ S (length l))%nat.
Proof. induction l as [|[k' v'] l IH]; cbn; [lia|]. case_decide; cbn; lia. Qed.


Section facts.
Context {R : Type}.
Variable redis_client : option (RedisClient R).
Variable production : bool.
Variable b64 : string → string.
Variable unb64 : string → option string.
Variable sha256_hex : string → string.
Variable x25519_public : string → string.
Variable x25519_exchange : string → string → option string.
Variable kem_encaps : string → string → option (string * string).
Variable kem_decaps : string → string → option string.
Variable hkdf : string → string → string → string.
Variable hmac_sha256 : string → string → string.
Variable dsa_sign : string → string → string.
Variable dsa_verify : string → string → string → option bool.

(** The key pairs in use, and what the primitives guarantee of them. *)
Variable key_pair : string → string → Prop.
Variable kem_pair : string → string → Prop.
Hypothesis sign_verifies : ∀ pk sk m, key_pair pk sk → dsa_verify pk m (dsa_sign sk m) = Some true.
Hypothesis keys_nonempty : ∀ pk sk, key_pair pk sk → pk ≠ "".
Hypothesis fingerprints_differ : ∀ pk sk pk' sk',
  key_pair pk sk → key_pair pk' sk' → sha256_hex pk = sha256_hex pk' → pk = pk'.
Hypothesis b64_decodes : ∀ x, unb64 (b64 x) = Some x.
Hypothesis exchange_agrees : ∀ a b, x25519_exchange a (x25519_public b) = x25519_exchange b (x25519_public a).
Hypothesis decaps_encaps : ∀ coins pk sk shared ciphertext,
  kem_pair pk sk → kem_encaps coins pk = Some (shared, ciphertext) → kem_decaps sk ciphertext = Some shared.

#[local] Abbreviation handshake := (perform_handshake redis_client production b64 unb64 sha256_hex x25519_public
  x25519_exchange kem_encaps hkdf hmac_sha256 dsa_sign).
#[local] Abbreviation answer := (answer_hello (R:=R) b64 unb64 sha256_hex x25519_public x25519_exchange kem_encaps hkdf
  hmac_sha256 dsa_sign).
#[local] Abbreviation audited' := (audited sha256_hex b64 unb64 dsa_verify key_pair).
#[local] Abbreviation identity_ok' := (identity_ok sha256_hex unb64 key_pair).

(** ** The client's side *)

(** What the client computes from the answer with its own secrets. *)
Definition client_session_key (x_sk kem_sk nonce : string) (a : ServerHello) : option string :=
  match unb64 (sh_x25519 a), unb64 (sh_ciphertext a), unb64 (sh_nonce a) with
  | Some server_x25519, Some ciphertext, Some server_nonce =>
      match x25519_exchange x_sk server_x25519, kem_decaps kem_sk ciphertext with
      | Some x, Some k => Some (derive_session_key hkdf x k nonce server_nonce)
      | _, _ => None
      end
  | _, _, _ => None
  end.

(** The transcript the client itself saw. *)
Definition client_transcript (x_pk kem_pk nonce user_id : string) (a : ServerHello) : option string :=
  match unb64 (sh_x25519 a), unb64 (sh_ciphertext a), unb64 (sh_nonce a) with
  | Some server_x25519, Some ciphertext, Some server_nonce =>
      Some (sha256_hex (canonical_json (transcript b64 x_pk kem_pk nonce server_x25519 ciphertext server_nonce user_id)))
  | _, _, _ => None
  end.

Definition client_verifies (x_sk kem_pk kem_sk nonce user_id : string) (a : ServerHello) : Prop :=
  client_transcript (x25519_public x_sk) kem_pk nonce user_id a = Some (sh_transcript_hash a) ∧
  (∃ pk sg, unb64 (sh_dsa_public_key a) = Some pk ∧ sha256_hex pk = sh_fingerprint a ∧
     unb64 (sh_signature a) = Some sg ∧ dsa_verify pk (sh_transcript_hash a) sg = Some true) ∧
  ∃ key server_nonce, client_session_key x_sk kem_sk nonce a = Some key ∧ unb64 (sh_nonce a) = Some server_nonce ∧
    sh_token a = session_token b64 hmac_sha256 key nonce server_nonce.

(** The signing key of the answer is registered. *)
Definition signer_registered (d : AuditDB) (a : ServerHello) : Prop :=
  ∃ k pk, sh_key_id a = Some k ∧ unb64 (sh_dsa_public_key a) = Some pk ∧ key_of unb64 d k pk.

Lemma consume_nonce_frame lost now nonce s :
  let s' := (consume_nonce redis_client production sha256_hex lost now nonce s).1 in
  hs_sessions s' = hs_sessions s ∧ hs_identity s' = hs_identity s ∧ hs_db s' = hs_db s.
Proof.
  unfold consume_nonce. destruct redis_client as [c|].
  - destruct (run_sync _ _ _) as [st [a|]]; [done|]. destruct production; [done|].
    cbn zeta. by destruct (consume_nonce_local _ _ _ _).
  - by destruct (consume_nonce_local _ _ _ _).
Qed.

(** An answered hello. *)
Lemma answer_verifies dr user_id hello x_sk kem_pk kem_sk nonce s s' a :
  audited' (hs_db s) → identity_ok' (hs_db s) (hs_identity s) → fresh_ok key_pair (hd_fresh dr) → hd_uuid dr ≠ "" →
  he_ml_kem hello = Some (b64 kem_pk) → b64 kem_pk ≠ "" → kem_pair kem_pk kem_sk →
  answer dr user_id hello (x25519_public x_sk) nonce s = (s', Ret a) →
  audited' (hs_db s') ∧ identity_ok' (hs_db s') (hs_identity s') ∧ signer_registered (hs_db s') a ∧
  client_verifies x_sk kem_pk kem_sk nonce user_id a ∧
  ∃ key, client_session_key x_sk kem_sk nonce a = Some key ∧
    hs_sessions s' = od_put (sh_session_id a)
      (mkPqcSession user_id key (hd_created_at dr) (hd_expires_from dr + seconds 3600)) (hs_sessions s).
Proof.
  intros Ha Hi Hf Hu Hkem Hne Hpair. unfold answer_hello. rewrite Hkem.
  destruct (b64 kem_pk) as [|c text] eqn:Eb; [done|]. rewrite <- Eb, b64_decodes. cbn [fmap option_fmap option_map].
  destruct (x25519_exchange (hd_x25519_sk dr) (x25519_public x_sk)) as [xs|] eqn:Ex; [|done].
  unfold kem_encapsulate. destruct (kem_encaps (hd_kem_coins dr) kem_pk) as [[ks ct]|] eqn:Ek; [|done]. cbn [fmap option_fmap option_map fst snd].
  pose proof (ensure_registered_ok _ _ _ _ _ keys_nonempty fingerprints_differ b64_decodes (hd_fresh dr) (hd_uuid dr)
                (hd_register_at dr) (hs_identity s) (hs_db s) Hu Hf Ha Hi) as Hreg.
  destruct (ensure_registered _ _ _ _ _ _ _) as [[i d] r]. destruct Hreg as (_ & Had & Hid & Hreg & _).
  destruct r as [[]|]; [|done]. specialize (Hreg eq_refl).
  destruct (registered_identity _ _ _ _ _ Hid Hreg) as (k & pk & sk & Hk & _ & Hpk & Hsk & Hp & Hrow).
  cbn zeta. rewrite (sign_ok _ _ _ _ _ sk Hsk). rewrite Hpk, Hk. cbn [default from_option id].
  set (h := sha256_hex _). set (key := derive_session_key _ _ _ _ _). intros [= <- <-].
  assert (∀ a', sh_x25519 a' = b64 (x25519_public (hd_x25519_sk dr)) → sh_ciphertext a' = b64 ct →
            sh_nonce a' = b64 (hd_server_nonce dr) → client_session_key x_sk kem_sk nonce a' = Some key) as Hkey.
  { intros a' E1 E2 E3. unfold client_session_key. rewrite E1, E2, E3, !b64_decodes, exchange_agrees, Ex.
    by rewrite (decaps_encaps _ _ _ _ _ Hpair Ek). }
  split_and!; [done|done| | |].
  - exists k, pk. cbn. by rewrite b64_decodes.
  - split_and!.
    + unfold client_transcript. cbn. by rewrite !b64_decodes.
    + exists pk, (dsa_sign sk h). cbn. rewrite !b64_decodes. split_and!; try done. by apply sign_verifies.
    + exists key, (hd_server_nonce dr). split; [by apply Hkey|]. cbn. by rewrite b64_decodes.
  - exists key. split; [by apply Hkey|done].
Qed.

(** C38: Both sides agree. With primitives that do what they document (ML-DSA
    verifies what it signed, X25519 commutes, ML-KEM decapsulates), when the
    server answers a client that holds the secrets of the keys it sent: the
    client derives from the answer exactly the session key the server stored,
    for that user and for an hour; the signature verifies over the transcript
    the client itself saw, under a key that is registered and has the
    announced fingerprint; the token proves the key; the signing tables stay
    well formed, and at most one session more than the limit is kept. *)
Theorem handshake_agrees lost dr user_id x_sk kem_pk kem_sk nonce s s' a :
  audited' (hs_db s) → identity_ok' (hs_db s) (hs_identity s) → fresh_ok key_pair (hd_fresh dr) → hd_uuid dr ≠ "" →
  b64 kem_pk ≠ "" → kem_pair kem_pk kem_sk →
  handshake lost dr user_id (mkHello (b64 (x25519_public x_sk)) (Some (b64 kem_pk)) (b64 nonce)) s = (s', Ret a) →
  (∃ key, client_session_key x_sk kem_sk nonce a = Some key ∧
     od_get (sh_session_id a) (hs_sessions s') =
       Some (mkPqcSession user_id key (hd_created_at dr) (hd_expires_from dr + seconds 3600))) ∧
  client_verifies x_sk kem_pk kem_sk nonce user_id a ∧ signer_registered (hs_db s') a ∧
  audited' (hs_db s') ∧ identity_ok' (hs_db s') (hs_identity s') ∧
  Z.of_nat (length (hs_sessions s')) ≤ MAX_SESSIONS + 1.
Proof.
  intros Ha Hi Hf Hu Hne Hpair. unfold perform_handshake. cbn [he_x25519 he_nonce]. rewrite !b64_decodes.
  set (s0 := s <| hs_sessions ::= _ |>).
  pose proof (consume_nonce_frame lost (hd_nonce_at dr) nonce s0) as (Hs & Hid & Hdb).
  destruct (consume_nonce _ _ _ _ _ _ s0) as [s1 [[]|e]]; [|done..]. cbn [fst] in *.
  intros Hans. apply answer_verifies with (kem_pk := kem_pk) (kem_sk := kem_sk) in Hans
    as (Hau & Hio & Hreg & Hver & key & Hkey & Hses); try done; [|by rewrite Hdb|by rewrite Hdb, Hid].
  split_and!; try done.
  - exists key. split; [done|]. by rewrite Hses, od_get_put, decide_True.
  - rewrite Hses. etrans; [apply Nat2Z.inj_le, length_od_put|]. rewrite Hs. cbn [hs_sessions s0 set_field].
    pose proof (expire_sessions_bounded (hd_expire_at dr) (hs_sessions s)). unfold s0. cbn. lia.
Qed.

(** In production, without Redis's answer there is no session. *)
Lemma production_fails_closed c dr user_id hello s :
  redis_client = Some c → production = true → ∀ s' a, handshake true dr user_id hello s ≠ (s', Ret a).
Proof.
  intros -> -> s' a. unfold perform_handshake. destruct (unb64 (he_x25519 hello)), (unb64 (he_nonce hello)); try done.
  unfold consume_nonce, run_sync. destruct (consume_pqc_nonce _ _ _ _ _ _) as [st r]. by destruct r.
Qed.

(** ** Nonces, without Redis *)

#[local] Abbreviation handshake_local := (perform_handshake (R:=R) None production b64 unb64 sha256_hex x25519_public
  x25519_exchange kem_encaps hkdf hmac_sha256 dsa_sign false).

Definition greet (s : HandshakeState R) (g : HandshakeDraws * string * Hello) : HandshakeState R :=
  (handshake_local g.1.1 g.1.2 g.2 s).1.

Lemma answer_nonces dr user_id hello x n s : hs_nonces (answer dr user_id hello x n s).1 = hs_nonces s.
Proof.
  unfold answer_hello.
  destruct (match he_ml_kem hello with Some (String _ _) => _ | _ => _ end) as [[kem sim]|]; [|done]. cbn zeta.
  destruct (x25519_exchange _ _); [|done]. destruct (kem_encapsulate _ _ _) as [[ct ks]|]; [|done].
  destruct (ensure_registered _ _ _ _ _ _ _) as [[i d] [[]|e]]; [|done].
  by destruct (sign _ _ _ _ _).
Qed.

Definition known_nonce (t : Z) (nonce : string) (s : HandshakeState R) : Prop := hs_nonces s !! sha256_hex nonce = Some t.

Lemma local_nonce now nonce (s : HandshakeState R) :
  consume_nonce None production sha256_hex false now nonce s =
    (s <| hs_nonces := (consume_nonce_local sha256_hex now nonce (hs_nonces s)).1 |>,
     Ret (consume_nonce_local sha256_hex now nonce (hs_nonces s)).2).
Proof. unfold consume_nonce. by destruct (consume_nonce_local _ _ _ _). Qed.

Lemma known_consumed t nonce now nonce' (s : HandshakeState R) :
  now - seconds NONCE_TTL_SECONDS ≤ t → known_nonce t nonce s →
  (consume_nonce_local sha256_hex now nonce' (hs_nonces s)).1 !! sha256_hex nonce = Some t ∧
  (sha256_hex nonce' = sha256_hex nonce → (consume_nonce_local sha256_hex now nonce' (hs_nonces s)).2 = false).
Proof.
  unfold known_nonce, consume_nonce_local. intros Ht Hk. cbn zeta. set (live := filter _ (hs_nonces s)).
  assert (live !! sha256_hex nonce = Some t) as Hl by (apply map_lookup_filter_Some; split; [done|cbn; lia]).
  destruct (live !! sha256_hex nonce') as [t'|] eqn:E; [done|]. cbn [fst snd]. split.
  - rewrite lookup_insert_ne; [done|]. intros E'. by rewrite E', Hl in E.
  - intros E'. by rewrite E', Hl in E.
Qed.

Lemma known_greet t nonce s g :
  hd_nonce_at g.1.1 - seconds NONCE_TTL_SECONDS ≤ t → known_nonce t nonce s → known_nonce t nonce (greet s g).
Proof.
  destruct g as [[dr user_id] hello]. cbn [fst snd]. intros Ht Hk. unfold greet, known_nonce, perform_handshake. cbn [fst snd].
  destruct (unb64 (he_x25519 hello)) as [x|], (unb64 (he_nonce hello)) as [n|]; try done.
  rewrite local_nonce. destruct (known_consumed t nonce (hd_nonce_at dr) n s Ht Hk) as [Hl _].
  destruct (consume_nonce_local _ _ _ _).2; [rewrite answer_nonces|]; exact Hl.
Qed.

(** What an answered handshake leaves and found. *)
Lemma answered_nonce dr user_id hello nonce s s' a :
  unb64 (he_nonce hello) = Some nonce → handshake_local dr user_id hello s = (s', Ret a) →
  known_nonce (hd_nonce_at dr) nonce s' ∧ (∀ t, known_nonce t nonce s → t < hd_nonce_at dr - seconds NONCE_TTL_SECONDS).
Proof.
  intros Hn. unfold perform_handshake. rewrite Hn. destruct (unb64 (he_x25519 hello)) as [x|]; [|done].
  rewrite local_nonce. destruct (consume_nonce_local _ _ _ _).2 eqn:Ec; [|done]. intros Hans. split.
  - unfold known_nonce. change s' with (s', Ret (E:=HandshakeError) a).1. rewrite <- Hans, answer_nonces. cbn [hs_nonces set_field].
    cbn in Ec |- *. unfold consume_nonce_local in *. cbn zeta in *. destruct (filter _ _ !! _); [done|]. apply lookup_insert_eq.
  - intros t Hk. destruct (Z.lt_ge_cases t (hd_nonce_at dr - seconds NONCE_TTL_SECONDS)) as [|Hge]; [done|].
    destruct (known_consumed t nonce (hd_nonce_at dr) nonce (s <| hs_sessions ::= expire_sessions (hd_expire_at dr) |>) Hge Hk)
      as [_ Hc]. specialize (Hc eq_refl). exact (False_ind _ (Bool.diff_true_false (eq_trans (eq_sym Ec) Hc))).
Qed.

(** A nonce opens one session. In one process without Redis, when two
    handshakes whose nonces decode to the same bytes are both answered,
    whatever the text they were sent as, whoever sent them and whatever
    handshakes were tried in between, they are more than five minutes apart. *)
Theorem nonce_opens_one_session dr1 u1 h1 dr2 u2 h2 others nonce s s1 s2 a1 a2 :
  unb64 (he_nonce h1) = Some nonce → unb64 (he_nonce h2) = Some nonce →
  Forall (λ g, hd_nonce_at g.1.1 ≤ hd_nonce_at dr2) others →
  handshake_local dr1 u1 h1 s = (s1, Ret a1) →
  handshake_local dr2 u2 h2 (foldl greet s1 others) = (s2, Ret a2) →
  hd_nonce_at dr1 + seconds NONCE_TTL_SECONDS < hd_nonce_at dr2.
Proof.
  intros Hn1 Hn2 Ho H1 H2. destruct (answered_nonce _ _ _ _ _ _ _ Hn1 H1) as [Hk _].
  destruct (answered_nonce _ _ _ _ _ _ _ Hn2 H2) as [_ Hold].
  destruct (Z.lt_ge_cases (hd_nonce_at dr1 + seconds NONCE_TTL_SECONDS) (hd_nonce_at dr2)) as [|Hge]; [done|].
  assert (known_nonce (hd_nonce_at dr1) nonce (foldl greet s1 others)) as Hk'.
  { clear H1 H2 Hold. revert s1 Hk. induction Ho as [|g l Hg Hl IH]; intros s1 Hk; [done|].
    apply IH, known_greet; [lia|done]. }
  specialize (Hold _ Hk'). lia.
Qed.
End facts.

(** ** Concrete primitives *)

Definition toy_exchange (a b : string) : option string :=
  Some (pretty (Z.of_nat (String.length a) + Z.of_nat (String.length b))).
Definition toy_encaps (coins pk : string) : option (string * string) := Some (coins +:+ pk, coins).
Definition toy_decaps (sk ciphertext : string) : option string := Some (ciphertext +:+ sk).
Definition toy_hkdf (salt info ikm : string) : string := salt +:+ info +:+ ikm.
Definition toy_hmac (key m : string) : string := key +:+ m.

Definition hello_draws (at_ : Z) (id : string) : HandshakeDraws :=
  mkHandshakeDraws at_ at_ at_ at_ at_ "ck" "ssk" "coins" "sn" id (mkFresh "key0" "key0" "k0" 1) "row0".
Definition hello_state : HandshakeState unit :=
  mkHandshakeState [] ∅ (mkStore () ∅ ∅ ∅) (new_identity toy_hash None 0) (mkAuditDB ∅ ∅ ∅ ∅).
Definition toy_handshake (dr : HandshakeDraws) (hello : Hello) (s : HandshakeState unit) :=
  perform_handshake None false id Some toy_hash id toy_exchange toy_encaps toy_hkdf toy_hmac toy_sign false dr "u1" hello s.
Definition hello_of (r : HandshakeState unit * outcome HandshakeError ServerHello) : ServerHello :=
  match r.2 with Ret a => a | Raise _ => mkServerHello "" "" "" "" "" "" "" None "" "" "" false [] end.

Lemma handshake_agrees_witness :
  let r := toy_handshake (hello_draws 5 "s1") (mkHello "csk" (Some "kem") "n1") hello_state in
  ∃ key, client_session_key Some toy_exchange toy_decaps toy_hkdf "csk" "kem" "n1" (hello_of r) = Some key ∧
    od_get "s1" (hs_sessions r.1) = Some (mkPqcSession "u1" key 5 (5 + seconds 3600)).
Proof.
  cbv zeta.
  destruct (handshake_agrees (R:=unit) None false id Some toy_hash id toy_exchange toy_encaps toy_decaps toy_hkdf toy_hmac toy_sign
    toy_verify toy_pair eq
    (λ pk sk m '(conj E _), f_equal Some (bool_decide_eq_true_2 _ (f_equal (λ k, toy_sign k m) (eq_sym E))))
    (λ pk sk '(conj _ E), E)) with (lost := false) (dr := hello_draws 5 "s1") (user_id := "u1") (x_sk := "csk")
    (kem_pk := "kem") (kem_sk := "kem") (nonce := "n1") (s := hello_state)
    (s' := (toy_handshake (hello_draws 5 "s1") (mkHello "csk" (Some "kem") "n1") hello_state).1)
    (a := hello_of (toy_handshake (hello_draws 5 "s1") (mkHello "csk" (Some "kem") "n1") hello_state))
    as [(key & Hk & Hs) _].
  - intros pk sk pk' sk' _ _ E. by injection E.
  - done.
  - intros a b. unfold toy_exchange. by rewrite Z.add_comm.
  - intros coins pk sk shared ct -> [= <- <-]. reflexivity.
  - split; [by intros k row Hk|exact I|by intros k row Hk|by intros k row Hk].
  - split; cbn; done.
  - split; [done|]. cbn. discriminate.
  - discriminate.
  - discriminate.
  - reflexivity.
  - vm_compute. reflexivity.
  - exists key. split; [exact Hk|]. exact Hs.
Defined.

Lemma nonce_opens_one_session_witness :
  hd_nonce_at (hello_draws 5 "s1") + seconds NONCE_TTL_SECONDS < hd_nonce_at (hello_draws (seconds 301) "s3").
Proof.
  set (h := mkHello "csk" (Some "kem") "n1").
  set (r1 := toy_handshake (hello_draws 5 "s1") h hello_state).
  set (others := [(hello_draws 7 "s2", "u1", h)]).
  set (s2 := foldl (greet false id Some toy_hash id toy_exchange toy_encaps toy_hkdf toy_hmac toy_sign) r1.1 others).
  set (r2 := toy_handshake (hello_draws (seconds 301) "s3") h s2).
  apply (nonce_opens_one_session (R:=unit) false id Some toy_hash id toy_exchange toy_encaps toy_hkdf toy_hmac toy_sign
    (hello_draws 5 "s1") "u1" h (hello_draws (seconds 301) "s3") "u1" h others "n1" hello_state r1.1 r2.1
    (hello_of r1) (hello_of r2)).
  - reflexivity.
  - reflexivity.
  - repeat constructor. vm_compute. discriminate.
  - vm_compute. reflexivity.
  - vm_compute. reflexivity.
Defined.
