(* ===== verification/Schemas.v ===== *)
(** backend/schemas.py: what the API accepts. A request class is a list of
    fields, each with its default and its check, in the order pydantic
    validates them; a check returns the value the model then holds, as
    [model_dump(mode="json")] writes it.

    pydantic is a library: how it reads a value of another type (["5"] or [5.0]
    for an int, say) and what its numeric bounds do with a NaN are parameters,
    as are Python's case mapping and stripping outside ASCII. *)

From S2P Require Import Prelude Numeric Models Json JsonText JsonRead DateTime DatasetFormat Integration ResearchJobs.
From Stdlib Require Import Ascii.
#[local] Open Scope Z_scope.

(** ** Blocked mail domains and passwords *)

Definition disposable_domains_1 : list string := [
  "mailinator.com"; "guerrillamail.com"; "guerrillamail.info"; "guerrillamail.biz"; "guerrillamail.de";
  "guerrillamail.net"; "guerrillamail.org"; "grr.la"; "spam4.me"; "trashmail.com"; "trashmail.me";
  "trashmail.net"; "trashmail.at"; "trashmail.io"; "trashmail.org"; "trashmail.xyz"; "yopmail.com";
  "yopmail.fr"; "cool.fr.nf"; "jetable.fr.nf"; "nospam.ze.tc"; "nomail.xl.cx"; "mega.zik.dj";
  "speed.1s.fr"; "courriel.fr.nf"; "moncourrier.fr.nf"; "monemail.fr.nf"; "monmail.fr.nf"; "jetable.com";
  "10minutemail.com"; "10minutemail.net"; "10minutemail.org"; "10minutemail.co.za"; "10minutemail.de";
  "10minemail.com"; "10minutmail.com"; "20minutemail.com"; "30minutemail.com"; "60minutemail.com";
  "fakeinbox.com"; "mailnull.com"; "spamgourmet.com"; "spamgourmet.net"; "spamgourmet.org";
  "spamgourmet.me"; "tempmail.com"; "temp-mail.org"; "temp-mail.ru"; "tempinbox.com"; "dispostable.com";
  "discard.email"; "throwam.com"; "throwam.net"; "throwaway.email"; "maildrop.cc"; "mailnesia.com";
  "mailnesia.me"; "sharklasers.com"; "guerrillamailblock.com"; "spam.la"; "cuvox.de"; "dayrep.com";
  "einrot.com"; "fleckens.hu"; "gustr.com"; "jourrapide.com"; "krovatk.ru"; "objectmail.com"; "obobbo.com";
  "rhyta.com"; "superrito.com"; "teleworm.us"; "armyspy.com"; "cuvox.de"; "dayrep.com"; "einrot.com";
  "fleckens.hu"; "gustr.com"; "jourrapide.com"; "rhyta.com"; "superrito.com"; "teleworm.us"; "armyspy.com";
  "spamhereplease.com"; "spamhereplease.net"; "nobulk.com"; "mailnew.com"; "spamfree24.org"; "spamfree.eu";
  "kasmail.com"; "spamless.nl"; "wegwerfmail.de"; "wegwerfmail.net"; "wegwerfmail.org"; "byom.de";
  "emailaaa.com"; "emailias.com"; "emailinfive.com"; "emailmiser.com"; "emailsensei.com";
  "emailtemporanea.com"; "emailtemporanea.net"; "emailtemporario.com.br"; "emailto.de"; "emailwarden.com";
  "emailx.at.hm"; "emailxfer.com"; "emailz.cf"; "emailz.ga"; "emailz.ml"; "etranquil.com"; "etranquil.net";
  "etranquil.org"; "explodemail.com"; "eyepaste.com"; "fakeinbox.cf"; "fakeinbox.com"; "fakeinbox.ga";
  "fakeinbox.info"; "fakeinbox.ml"; "fakeinbox.tk"; "fakemailgenerator.com"; "fakethat.com";
  "filzmail.com"; "filzmail.de"; "fivemail.de"; "fleckens.hu"; "frapmail.com"; "freundin.ru";
  "fuckingduh.com"; "fudgerub.com"; "fuirio.com"; "gamail.top"; "garliclife.com"; "gelitik.in";
  "get1mail.com"; "getairmail.com"; "getairmail.cf"; "getairmail.ga"; "getairmail.gq"; "getairmail.ml";
  "getairmail.tk"; "getfun.men"; "getmails.eu"; "getonemail.com"; "getonemail.net"; "ghosttexter.de";
  "giantmail.de"; "girlsundertheinfluence.com"; "gishpuppy.com"; "gmailni.com"; "gms.pl";
  "gorillaswithdirtyarmpits.com"; "gotmail.com"; "gotmail.net"; "gotmail.org"; "gowikibooks.com";
  "gowikicampus.com"; "gowikicars.com"; "gowikifilms.com"; "gowikigames.com"; "gowikimusic.com";
  "gowikinetwork.com"; "gowikitravel.com"; "gowikitv.com"; "grandmamail.com"; "great-host.in";
  "greensloth.com"; "grr.la"; "gsrv.co.uk"; "guessmail.com"; "gun.io"; "gustr.com"; "h8s.org";
  "hailmail.net"; "harakirimail.com"; "hat-geld.de"; "hatespam.org"; "herp.in"; "hidemail.de";
  "hmamail.com"; "hochsitze.com"; "hopemail.biz"; "hot-mail.co"; "hotmai1.com"; "hotmails.com";
  "hotpop.com"; "hulapla.de"; "humaility.com"; "ieatspam.eu"; "ieatspam.info"; "ihateyoualot.info";
  "iheartspam.org"; "imailto.net"; "imgof.com"; "inbax.tk"; "inbox.si"; "inboxclean.com"; "inboxclean.org";
  "incognitomail.com"; "incognitomail.net"; "incognitomail.org"; "instant-mail.de";
  "instantemailaddress.com"; "iodizc.com"; "ip6.li"; "ipoo.org"; "irish2me.com"; "jetable.com";
  "jetable.net"; "jetable.org"; "joseiaspe.com"; "kasmail.com"; "kaspop.com"; "killmail.com";
  "killmail.net"; "klzlk.com"; "knol-power.nl"; "kostenlosemailadresse.de"; "kurzepost.de"; "l33r.eu";
  "lackmail.ru"; "lags.us"; "landmail.co.uk"; "laoeq.com"; "lastmail.co"; "leafmailer.com";
  "letthemeatspam.com"; "lhsdv.com"; "lifebyfood.com"; "link2mail.net"; "litedrop.com"; "lolfreak.net";
  "lookugly.com"; "lortemail.dk"; "losemymail.com"; "lovemeleaveme.com"; "lr78.com"; "lukop.dk";
  "m4ilweb.info"; "macr2.com"; "mail114.net"; "mail1a.de"; "mail21.cc"; "mail2rss.org"; "mail333.com";
  "mail4trash.com"; "mail707.com"; "mail72.com"; "mail7.io"; "mailbidon.com"; "mailbiz.biz";
  "mailblocks.com"; "mailblog.biz"; "mailbucket.org"; "mailcat.biz"; "mailcatch.com"; "mailde.de";
  "mailde.info"; "mailexpire.com"; "mailf5.com"; "mailforspam.com"; "mailfreeonline.com"; "mailfs.com";
  "mailguard.me"; "mailhazard.com"; "mailhazard.us"; "mailimate.com"; "mailin8r.com"; "mailinater.com";
  "mailink.net"; "mailme.ir"; "mailme.lv"; "mailme24.com"; "mailmetrash.com"; "mailmoat.com";
  "mailnew.com"; "mailnull.com"; "mailpick.biz"; "mailproxsy.com"; "mailquack.com"; "mailrock.biz";
  "mailsac.com"; "mailscrap.com"; "mailshell.com"; "mailsiphon.com"; "mailslite.com"; "mailsucker.net";
  "mailtome.de"; "mailtothis.com"; "mailtrash.net"; "mailtv.net"; "mailtv.tv"; "mailzilla.com";
  "mailzilla.org"; "makemetheking.com"; "malahov.de"; "manifestgenerator.com"; "manybrain.com"; "mbx.cc";
  "mega.zik.dj"; "megaleak.net"; "meinspamschutz.de"; "melfki.com"; "mezimages.net"; "mfsa.ru";
  "mierdamail.com"; "migumail.com"; "minimail.eu"; "ministry-of-silly-walks.de"; "mintemail.com";
  "misterpinball.de"; "moburl.com"; "mockmail.com"; "moeri.org"; "momentics.ru"; "monmail.fr.nf";
  "mox.pp.ua"; "mt2009.com"; "mt2014.com"; "mx0.wwwnew.eu"; "myalias.pw"; "mymail-in.net"; "mypacks.net";
  "mypartyclip.de"; "myphantomemail.com"; "mysamp.de"; "mytempemail.com"; "mytrashmail.com";
  "netzidiot.de"; "neutralspam.com"; "newbpotato.tk"; "nfast.net"; "niftynitwit.com"; "nincsmail.com";
  "nnh.com"; "no-spam.ws"; "noblepioneer.com"; "nobulk.com"; "nodezero.net"; "nomail.pw"; "nomail2me.com";
  "nomorespamemails.com"; "notmailinator.com"; "nospamthanks.info"; "notrnailinator.com"; "nowhere.org";
  "nowmymail.com"; "ntlhelp.net"; "nullmail.com"; "nwldx.com"; "objectmail.com"; "obobbo.com";
  "odnorazovoe.ru"; "one-time.email"; "oneoffemail.com"; "onewaymail.com"; "onlatedotcom.info";
  "online.ms"; "onqin.com"; "oopi.org"; "opentrash.com"; "ordinaryamerican.net"; "otherinbox.com";
  "ourpreviewdomain.com"; "owlpic.com"; "pancakemail.com"; "paplease.com"; "pepbot.com";
  "phentermine-mortgages.com"; "pimpedupmyride.com"; "pjjkp.com"; "pookmail.com"; "postalmail.biz";
  "privacy.net"; "privymail.de"; "proxymail.eu"; "prtnx.com"; "prtz.eu"; "pubmail.io";
  "putthisinyourspamdatabase.com"; "pwrby.com"; "quickinbox.com"; "quickmail.in"; "quickmail.nl";
  "recode.me"; "recursor.net"; "recyclemail.dk"; "regbypass.com"; "regbypass.comsafe-mail.net";
  "rejectmail.com"; "reliable-mail.com"; "replyyes.com"; "rfc822.org"; "rhyta.com"; "rklips.com";
  "rmqkr.net"; "rppkn.com"; "rsvhr.com"; "rudymail.ml"; "runbox.com"; "safetymail.info"; "safetypost.de";
  "sandelf.de"; "sanfinder.com"; "sanstr.com"; "sast.ro"; "scatmail.com"; "secretemail.de";
  "secure-email.com"; "sendspamhere.com"; "senseless-entertainment.com"; "services391.com";
  "sharedmailbox.org"; "sharklasers.com"; "shieldedmail.com"; "shiftmail.com"; "shitmail.de";
  "shitmail.me"; "shitmail.org"; "shitware.nl"].

Definition disposable_domains_2 : list string := [
  "shmeriously.com"; "shortmail.net"; "sibmail.com"; "sinnlos-mail.de"; "sino.tw"; "skeefmail.com";
  "slapsfromlastnight.com"; "slaskpost.se"; "slipry.net"; "slopsbox.com"; "slothmail.net"; "slushmail.com";
  "smellfear.com"; "smellrear.com"; "snakemail.com"; "sneakemail.com"; "snkmail.com"; "sofimail.com";
  "sofort-mail.de"; "sogetthis.com"; "sohu.com"; "soodonims.com"; "spam.su"; "spam4.me"; "spamavert.com";
  "spambob.com"; "spambob.net"; "spambob.org"; "spambog.com"; "spambog.de"; "spambog.ru"; "spamcon.org";
  "spamcorptastic.com"; "spamcowboy.com"; "spamcowboy.net"; "spamcowboy.org"; "spamday.com"; "spamex.com";
  "spamfree.eu"; "spamfree24.de"; "spamfree24.eu"; "spamfree24.info"; "spamfree24.net"; "spamfree24.org";
  "spamgoes.in"; "spamgourmet.com"; "spamgourmet.net"; "spamgourmet.org"; "spamherelots.com";
  "spamhereplease.com"; "spamhole.com"; "spamify.com"; "spaminator.de"; "spamkill.info"; "spaml.com";
  "spaml.de"; "spammotel.com"; "spammy.com"; "spamoff.de"; "spamslicer.com"; "spamspot.com";
  "spamstack.net"; "spamthis.co.uk"; "spamthisplease.com"; "spamtroll.net"; "speed.1s.fr"; "spl0it.com";
  "spoofmail.de"; "squizzy.de"; "squizzy.eu"; "squizzy.net"; "ssoia.com"; "startfu.com"; "stevemail.pl";
  "stinkefinger.net"; "stop-my-spam.com"; "stuffmail.de"; "supergreatmail.com"; "supermailer.jp";
  "superrito.com"; "suremail.info"; "svk.jp"; "sweetxxx.de"; "tafmail.com"; "tagyourself.com";
  "taylorventuresllc.com"; "tefl.ro"; "telecomix.pl"; "teleworm.us"; "teml.net"; "temp-mail.com";
  "temp-mail.de"; "temp.bartdevos.be"; "tempail.com"; "tempalias.com"; "tempe-mail.com"; "tempemail.biz";
  "tempemail.co.za"; "tempemail.com"; "tempemail.net"; "tempinbox.co.uk"; "tempinbox.com"; "tempmail.de";
  "tempmail.eu"; "tempmail.it"; "tempmail.us"; "tempmail2.com"; "tempmaildemo.com"; "tempmailer.com";
  "tempmailer.de"; "tempomail.fr"; "temporaryemail.net"; "temporaryemail.us"; "temporaryforwarding.com";
  "temporaryinbox.com"; "temporarymailaddress.com"; "tempsky.com"; "tempthe.net"; "tempymail.com";
  "thanksnospam.info"; "thecloudindex.com"; "thenullemail.com"; "thisisnotmyrealemail.com"; "throam.com";
  "throwam.com"; "throwam.net"; "throwaway.email"; "throwaymail.com"; "tilien.com"; "tittbit.in";
  "tmailinator.com"; "toiea.com"; "tradermail.info"; "trash-amil.com"; "trash-mail.at"; "trash-mail.cf";
  "trash-mail.com"; "trash-mail.de"; "trash-mail.ga"; "trash-mail.gq"; "trash-mail.io"; "trash-mail.ml";
  "trash-mail.tk"; "trashemail.de"; "trashimail.de"; "trashmail.at"; "trashmail.com"; "trashmail.io";
  "trashmail.me"; "trashmail.net"; "trashmail.org"; "trashmail.xyz"; "trashmailer.com"; "trashspam.com";
  "trayna.com"; "trbvm.com"; "treemail.de"; "trollproject.com"; "tropicalbass.info";
  "trout.addressfinder.net"; "trv6.com"; "tunxis.info"; "turual.com"; "twinmail.de"; "tyldd.com";
  "uggsrock.com"; "umail.net"; "unmail.ru"; "upliftnow.com"; "uplipht.com"; "uroid.com"; "us.af";
  "uyhip.com"; "venompen.com"; "veryrealemail.com"; "viditag.com"; "viewcastmedia.com";
  "viewcastmedia.net"; "viewcastmedia.org"; "viralplays.com"; "vkcode.ru"; "vomoto.com"; "votiputox.org";
  "vpn.st"; "vsimcard.com"; "vubby.com"; "walala.org"; "walkmail.net"; "walkmail.ru"; "webemail.me";
  "weg-werf-email.de"; "weggam.com"; "wegwerf-email.at"; "wegwerf-email.de"; "wegwerf-email.net";
  "wegwerf-email.org"; "wegwerfadresse.de"; "wegwerfmail.de"; "wegwerfmail.net"; "wegwerfmail.org";
  "wilemail.com"; "willhackforfood.biz"; "willselfdestruct.com"; "winemaven.info"; "wronghead.com";
  "wuzup.net"; "wuzupmail.net"; "www.e4ward.com"; "www.mailinator.com"; "wwwnew.eu"; "xagloo.com";
  "xemaps.com"; "xents.com"; "xmaily.com"; "xoxy.net"; "xwaretech.com"; "xwaretech.info"; "xwaretech.net";
  "xww.ro"; "xyz.am"; "y7mail.com"; "yahomail.top"; "yapped.net"; "yeah.net"; "yep.it"; "yogamaven.com";
  "yopmail.com"; "yopmail.fr"; "yopmail.gq"; "yopmail.net"; "youmail.ga"; "yourdomain.com";
  "yourspamgoeshere.com"; "ypmail.webarnak.fr.eu.org"; "yuurok.com"; "z1p.biz"; "za.com"; "zehnminuten.de";
  "zehnminutenmail.de"; "zetmail.com"; "zippymail.info"; "zoaxe.com"; "zoemail.com"; "zoemail.net";
  "zoemail.org"; "zomg.info"; "zxcv.com"; "zxcvbnm.com"; "zzz.com"; "mailsac.com"; "spamgourmet.com";
  "notmailinator.com"; "spamoff.de"; "harakirimail.com"; "spam.la"; "trashmail.com"; "discardmail.com";
  "mailnull.com"; "safetypost.de"; "throwam.com"; "binkmail.com"; "bobmail.info"; "chammy.info";
  "devnullmail.com"; "divad.ga"; "dudmail.com"; "durandinterstellar.com"; "easytrashmail.com";
  "ephemail.net"; "explodemail.com"; "extra.com"; "eyepaste.com"; "fismail.com"; "freemail.ms";
  "ftpinc.ca"; "friscaa.com"; "gemq.com"; "haltospam.com"; "hezll.com"; "hidebox.org"; "hidemail.de";
  "hinote.com"; "hostguru.info"; "hotpop.com"; "iheartspam.org"; "inoutmail.de"; "inoutmail.eu";
  "inoutmail.info"; "inoutmail.net"; "internet-e-mail.de"; "internet-mail.de"; "internetemails.net";
  "internetemails.org"; "junk1.tk"; "kasmail.com"; "killmail.com"; "knol-power.nl"; "lackmail.ru";
  "lacto.com"; "link2mail.net"; "littleapple.com"; "litedrop.com"; "lol.ovpn.to"; "lookugly.com";
  "maildx.com"; "mailguard.me"; "mailme.lv"; "mailnew.com"; "mailquack.com"; "mailrock.biz";
  "mailshell.com"; "mailtv.tv"; "mailzilla.com"; "mbx.cc"; "mierdamail.com"; "mintemail.com";
  "mycleaninbox.net"; "mypartyclip.de"; "nezdiro.org"; "noblepioneer.com"; "noclickemail.com";
  "nospam.ze.tc"; "nowmymail.com"; "notsharingmy.info"; "objectmail.com"; "one-time.email";
  "onewaymail.com"; "pookmail.com"; "postalmail.biz"; "privacy.net"; "proxymail.eu"; "rejectmail.com";
  "safetymail.info"; "scatmail.com"; "spoofmail.de"; "stop-my-spam.com"; "supermailer.jp"; "svk.jp";
  "tempalias.com"; "tempe-mail.com"; "tempmaildemo.com"; "tempsky.com"; "throwaway.email"; "tilien.com";
  "trout.addressfinder.net"; "tunxis.info"; "uggsrock.com"; "upliftnow.com"; "uroid.com"; "walkmail.ru";
  "yuurok.com"; "zehnminutenmail.de"; "zoaxe.com"].
Definition _DISPOSABLE_DOMAINS : list string := disposable_domains_1 ++ disposable_domains_2.

Definition _COMMON_PASSWORDS : list string := [
  "password"; "password1"; "password123"; "password1234"; "password12345"; "123456789"; "1234567890";
  "12345678901"; "123456789012"; "qwerty123"; "qwerty1234"; "qwertyuiop"; "letmein"; "letmein1";
  "iloveyou"; "iloveyou1"; "monkey123"; "dragon123"; "master123"; "abc123456"; "trustno1"; "admin1234";
  "welcome1"; "welcome123"; "football1"; "baseball1"; "sunshine1"; "shadow123"; "superman1"; "batman1234";
  "mustang1"; "michael1"; "jessica1"; "charlie1"; "jordan123"; "harley123"; "ranger123"; "passw0rd";
  "p@ssword"; "p@ssw0rd"; "p@55word"; "admin@123"; "admin1234"; "root1234"; "qwerty!123"; "qwerty@123";
  "changeme1"; "changeme!"; "changeme123"].

(** ** Models *)

(** The values validated so far ([info.data]), and the whole model's. *)
Definition Data : Type := list (string * json).

Record Field := mkField {
  fd_name : string;
  fd_default : option json;              (* None: the field is required *)
  fd_check : Data → json → option json   (* None: ValueError *)
}.

Record Schema := mkSchema {
  sc_fields : list Field;
  sc_after : Data → bool;                (* the "after" model validator *)
  sc_forbid_extra : bool
}.

(** Fields in order. A default is not validated. *)
Fixpoint validate_fields (fs : list Field) (input data : Data) : option Data :=
  match fs with
  | [] => Some data
  | f :: fs =>
      match json_get (fd_name f) input with
      | Some v =>
          match fd_check f data v with
          | Some w => validate_fields fs input (data ++ [(fd_name f, w)])
          | None => None
          end
      | None =>
          match fd_default f with
          | Some d => validate_fields fs input (data ++ [(fd_name f, d)])
          | None => None
          end
      end
  end.

Definition extra_fields (s : Schema) (input : Data) : bool :=
  existsb (λ kv, negb (existsb (λ f, bool_decide (fd_name f = kv.1)) (sc_fields s))) input.

(** [Model.model_validate(value)] *)
Definition model_validate (s : Schema) (value : json) : option Data :=
  match value with
  | JObj input =>
      if sc_forbid_extra s && extra_fields s input then None
      else match validate_fields (sc_fields s) input [] with
           | Some data => if sc_after s data then Some data else None
           | None => None
           end
  | _ => None
  end.

Definition model (fs : list Field) : Schema := mkSchema fs (λ _, true) false.
Definition req (name : string) (check : json → option json) : Field := mkField name None (λ _, check).
Definition opt (name : string) (d : json) (check : json → option json) : Field := mkField name (Some d) (λ _, check).

(** ** Checks *)

Definition points (s : string) : Z := Z.of_nat (length (code_points s)).
Definition within (lo hi z : Z) : bool := (lo <=? z) && (z <=? hi).
Definition member (s : string) (l : list string) : bool := existsb (String.eqb s) l.

(** [str] with [min_length] and [max_length], then a field validator. *)
Definition text_with (f : string → option string) (v : json) : option json :=
  match v with JStr s => JStr <$> f s | _ => None end.
Definition keep (p : string → bool) (s : string) : option string := if p s then Some s else None.
Definition sized (lo hi : Z) (f : string → option string) (s : string) : option string :=
  if within lo hi (points s) then f s else None.
Definition any_text : json → option json := text_with Some.
Definition text_of (lo hi : Z) : json → option json := text_with (keep (λ s, within lo hi (points s))).
(** [Literal[...]], and a [str] that a validator looks up in a set. *)
Definition one_of (l : list string) : json → option json := text_with (keep (λ s, member s l)).

(** [t | None] *)
Definition nullable (check : json → option json) (v : json) : option json :=
  match v with JNull => Some JNull | _ => check v end.

Fixpoint all_texts (l : list json) : option (list string) :=
  match l with
  | [] => Some []
  | JStr s :: l => cons s <$> all_texts l
  | _ => None
  end.
(** [list[str]] with its bounds on the length, then a field validator. *)
Definition texts (lo hi : Z) (f : list string → option (list string)) (v : json) : option json :=
  match v with
  | JArr l =>
      if within lo hi (Z.of_nat (length l)) then
        match all_texts l with
        | Some l => (λ l, JArr (JStr <$> l)) <$> f l
        | None => None
        end
      else None
  | _ => None
  end.

Definition ticker_char (c : ascii) : bool := in_range 65 90 c || JsonRead.json_digit c || char_in c [46; 45]%nat.

Section schemas.
(** What pydantic makes of a value where an int, a float, a bool or a date is
    declared; whether a NaN passes a numeric bound; [EmailStr]'s normalised
    address. *)
Variable lax_int : json → option Z.
Variable lax_float : json → option b64.
Variable lax_bool : json → option bool.
Variable lax_date : json → option Z.
Variable nan_in_bounds : bool.
Variable email_str : string → option string.
(** [str.strip], [str.upper] and [str.lower] of a text with characters beyond
    ASCII, and whether such a character is a decimal digit. *)
Variable strip_other : string → string.
Variable upper_other : string → string.
Variable lower_other : string → string.
Variable digit_other : Z → bool.

Definition strip (s : string) : string := if is_ascii s then strip_right (strip_left s) else strip_other s.
Definition upper (s : string) : string := if is_ascii s then str_upper s else upper_other s.

Definition lower (s : string) : string := if is_ascii s then str_lower s else lower_other s.

Definition int_by (p : Z → bool) (v : json) : option json :=
  match lax_int v with Some z => if p z then Some (JInt z) else None | None => None end.
Definition int_in (lo hi : Z) : json → option json := int_by (within lo hi).
Definition int_from (lo : Z) : json → option json := int_by (λ z, lo <=? z).
Definition any_int : json → option json := int_by (λ _, true).

Definition is_nan (x : b64) : bool := match x with SpecFloat.S754_nan => true | _ => false end.
Definition passes (p : b64 → bool) (x : b64) : bool := if is_nan x then nan_in_bounds else p x.
Definition float_by (p : b64 → bool) (v : json) : option json :=
  match lax_float v with Some x => if p x then Some (JFloat x) else None | None => None end.
(** The literal [n / 1000]. *)
Definition thousandths (n : Z) : b64 := nof_ratio n 1000.
Definition ge (n : Z) (x : b64) : bool := passes (λ x, thousandths n <=.? x) x.
Definition gt (n : Z) (x : b64) : bool := passes (λ x, thousandths n <.? x) x.
Definition le (n : Z) (x : b64) : bool := passes (λ x, x <=.? thousandths n) x.
Definition lt (n : Z) (x : b64) : bool := passes (λ x, x <.? thousandths n) x.
Definition float_in (lo hi : Z) : json → option json := float_by (λ x, ge lo x && le hi x).
Definition positive_to (hi : Z) : json → option json := float_by (λ x, gt 0 x && le hi x).
Definition positive : json → option json := float_by (gt 0).
Definition finite_float : json → option json := float_by (nfinite (F:=b64)).

Definition bool_of (v : json) : option json := JBool <$> lax_bool v.
Definition date_of (v : json) : option json := (λ d, JStr (iso_date d)) <$> lax_date v.

Fixpoint all_of_list (check : json → option json) (l : list json) : option (list json) :=
  match l with
  | [] => Some []
  | v :: l =>
      match check v, all_of_list check l with
      | Some w, Some l => Some (w :: l)
      | _, _ => None
      end
  end.
Definition list_of (lo hi : Z) (check : json → option json) (v : json) : option json :=
  match v with
  | JArr l => if within lo hi (Z.of_nat (length l)) then JArr <$> all_of_list check l else None
  | _ => None
  end.

Definition any_dict (v : json) : option json := match v with JObj _ => Some v | _ => None end.

(** [OrderRequest.normalized_asset] *)
Definition normalized_asset (value : string) : option string :=
  let value := upper (strip value) in
  if all_of ticker_char value && within 1 20 (len value) then Some value else None.
Definition asset_of (lo hi : Z) : json → option json := text_with (sized lo hi normalized_asset).
Definition upper_texts (l : list string) : option (list string) := Some ((λ v, upper (strip v)) <$> l).
Definition assets_of (lo hi : Z) : json → option json := texts lo hi upper_texts.

(** A field another one is compared with. *)
Definition int_field (name : string) (data : Data) : option Z :=
  match json_get name data with Some (JInt z) => Some z | _ => None end.

(** ** Accounts *)

(** [value.split("@", 1)[-1]] and [value.split("@")[0]] *)
Fixpoint after_at (s : string) : option string :=
  match s with
  | EmptyString => None
  | String c s => if (nat_of_ascii c =? 64)%nat then Some s else after_at s
  end.
Definition domain_part (s : string) : string := default s (after_at s).
Fixpoint local_part (s : string) : string :=
  match s with
  | EmptyString => EmptyString
  | String c s => if (nat_of_ascii c =? 64)%nat then EmptyString else String c (local_part s)
  end.

Fixpoint contains (part s : string) : bool :=
  String.prefix part s || match s with EmptyString => false | String _ s => contains part s end.
Definition has (p : ascii → bool) (s : string) : bool := negb (all_of (λ c, negb (p c)) s).

Definition email_not_disposable (value : string) : option string :=
  let domain := strip (lower (domain_part value)) in
  if member domain _DISPOSABLE_DOMAINS then None
  else if negb (has (λ c, char_in c [46%nat]) domain) then None
  else Some (strip (lower value)).

(** ASCII punctuation, as the validator's character class lists it. *)
Definition special_char (c : ascii) : bool :=
  char_in c [33; 64; 35; 36; 37; 94; 38; 42; 40; 41; 45; 95; 61; 43; 91; 93; 123; 125; 59; 58; 39; 34; 44; 46;
             60; 62; 63; 47; 92; 124; 96; 126]%nat.
Definition digit_point (cp : Z) : bool := within 48 57 cp || ((128 <=? cp) && digit_other cp).
(** [(.)\1{3,}]: four equal characters in a row, newlines apart. *)
Fixpoint four_alike (l : list Z) : bool :=
  match l with
  | a :: ((b :: c :: d :: _) as l') =>
      (negb (a =? 10) && (a =? b) && (a =? c) && (a =? d)) || four_alike l'
  | _ => false
  end.

Definition password_strength (value : string) : option string :=
  if negb (has (in_range 65 90) value) || negb (has (in_range 97 122) value)
     || negb (existsb digit_point (code_points value)) || negb (has special_char value)
     || four_alike (code_points value)
  then None
  else if member (lower value) _COMMON_PASSWORDS then None
  else Some value.

Definition text_field (name : string) (data : Data) : string :=
  match json_get name data with Some (JStr s) => s | _ => EmptyString end.

Definition password_not_contain_email (data : Data) : bool :=
  let email_local := lower (local_part (text_field "email" data)) in
  negb ((4 <=? points email_local) && contains email_local (lower (text_field "password" data))).

Definition email_of (f : string → option string) : json → option json :=
  text_with (λ s, match email_str s with Some e => f e | None => None end).

Definition RegisterRequest : Schema := mkSchema
  [ req "email" (email_of email_not_disposable);
    req "password" (text_with (sized 14 128 password_strength)) ]
  password_not_contain_email false.

Definition LoginRequest : Schema := model [ req "email" (email_of Some); req "password" any_text ].

Definition HandshakeRequest : Schema := model
  [ req "x25519_public_key" any_text; opt "ml_kem_public_key" JNull (nullable any_text); req "client_nonce" any_text ].

Definition UserSettingsRequest : Schema := model [ opt "beginner_mode" JNull (nullable bool_of) ].

Definition RotateKeysRequest : Schema := model
  [ opt "algorithm" (JStr "ML-DSA-65") any_text; opt "reason" (JStr "scheduled_rotation") any_text ].

(** ** Orders and strategies *)

Definition OrderRequest : Schema := model
  [ req "asset" (asset_of 1 20);
    req "side" (one_of ["buy"; "sell"]);
    req "quantity" (positive_to 1000000000);
    opt "order_type" (JStr "market") (one_of ["market"; "limit"; "stop"; "stop_limit"]);
    opt "limit_price" JNull (nullable positive);
    opt "stop_price" JNull (nullable positive);
    opt "time_in_force" (JStr "day") (one_of ["day"; "gtc"; "ioc"]);
    opt "order_id" JNull (nullable (text_of 8 128));
    opt "timestamp" JNull (nullable any_int);
    opt "expires_at" JNull (nullable any_int);
    opt "nonce" JNull (nullable (text_of 16 128));
    opt "key_id" JNull (nullable (text_of 8 128));
    opt "signature" JNull (nullable (text_of 16 8192)) ].

(** [slow_window], and its validator [valid_windows]. *)
Definition valid_windows (lo hi : Z) (data : Data) (v : json) : option json :=
  match int_in lo hi v with
  | Some (JInt z) =>
      match int_field "fast_window" data with
      | Some fast => if z <=? fast then None else Some (JInt z)
      | None => Some (JInt z)
      end
  | _ => None
  end.
Definition slow_window : Field := mkField "slow_window" (Some (JInt 50)) (valid_windows 5 250).

Definition StrategyRequest : Schema := model
  [ req "name" (text_of 3 80); req "asset" (asset_of 1 20); opt "fast_window" (JInt 20) (int_in 2 100); slow_window ].

(** ** Research *)

Definition DATASET_MAX_INPUTS : Z := 10.

Fixpoint distinct (l : list string) : bool :=
  match l with [] => true | s :: l => negb (member s l) && distinct l end.
Definition valid_dataset_ids (l : list string) : option (list string) :=
  if forallb is_dataset_id l && distinct l then Some l else None.
(** The fields of [MarketDataRequest]. *)
Definition market_data_fields : list Field :=
  [ opt "dataset_ids" JNull (nullable (texts 1 DATASET_MAX_INPUTS valid_dataset_ids)) ].
Definition market_data (fs : list Field) : Schema := model (market_data_fields ++ fs).

Definition BacktestRequest : Schema := market_data
  [ req "asset" (asset_of 1 20);
    opt "fast_window" (JInt 20) (int_in 2 100);
    slow_window;
    opt "period" (JStr "1y") (one_of ["6mo"; "1y"; "2y"; "5y"]) ].

Definition EXECUTION_PRESETS : list string := ["zero_cost"; "retail"; "institutional"].
Definition symbols (l : list string) : json := JArr (JStr <$> l).

Definition AdvancedBacktestRequest : Schema := market_data
  [ opt "assets" (symbols ["AAPL"]) (assets_of 1 10);
    opt "period" (JStr "2y") (one_of ["6mo"; "1y"; "2y"; "3y"; "5y"]);
    opt "initial_capital" (JInt 100000) (float_in 1000000 100000000000);
    opt "strategy_type" (JStr "ma_crossover") (one_of ["ma_crossover"; "sba_signal"; "momentum"; "mean_reversion"]);
    opt "fast_window" (JInt 20) (int_in 2 100);
    opt "slow_window" (JInt 50) (int_in 5 250);
    opt "execution_preset" (JStr "retail") (one_of EXECUTION_PRESETS);
    opt "allow_short_selling" (JBool false) bool_of;
    opt "sizing_method" (JStr "fixed_fractional")
      (one_of ["fixed_fractional"; "volatility_target"; "kelly"; "equal_weight"]);
    opt "risk_per_trade" (JFloat (thousandths 20)) (float_in 1 500);
    opt "max_position_pct" (JFloat (thousandths 200)) (float_in 10 1000);
    opt "max_leverage" (JFloat (thousandths 1000)) (float_in 100 5000);
    opt "benchmark" (JStr "SPY") (text_of 0 20) ].

Definition WalkForwardRequest : Schema := market_data
  [ opt "assets" (symbols ["AAPL"]) (assets_of 1 5);
    opt "window_type" (JStr "rolling") (one_of ["rolling"; "expanding"]);
    opt "train_years" (JInt 2) (int_in 1 5);
    opt "test_years" (JInt 1) (int_in 1 3);
    opt "total_years" (JInt 5) (int_in 3 10);
    opt "fast_window" (JInt 20) (int_in 2 100);
    opt "slow_window" (JInt 50) (int_in 5 250);
    opt "optimize_parameters" (JBool true) bool_of;
    opt "execution_preset" (JStr "retail") (one_of EXECUTION_PRESETS) ].

Definition STAT_TEST_MAX_RETURNS : Z := 10000.
Definition is_family (s : string) : bool := all_of lower_hex s && (len s =? 64).

Definition StatTestRequest : Schema := model
  [ opt "backtest_id" JNull (nullable any_text);
    opt "returns" JNull (nullable (list_of 0 STAT_TEST_MAX_RETURNS finite_float));
    opt "n_strategies_tested" (JInt 1) (int_in 1 10000);
    opt "trial_family" JNull (nullable (text_with (keep is_family)));
    opt "n_bootstrap" (JInt 10000) (int_in 100 100000);
    opt "n_permutations" (JInt 10000) (int_in 100 100000) ].

Definition StatTestJob : Schema := model
  [ req "returns" (list_of 5 STAT_TEST_MAX_RETURNS finite_float);
    req "n_trials" (int_from 1);
    req "declared" (int_from 1);
    req "server_counted" (int_from 0);
    opt "trial_family" JNull (nullable any_text);
    req "n_bootstrap" (int_in 100 100000);
    req "n_permutations" (int_in 100 100000) ].

Definition ExperimentJob : Schema := model
  [ req "experiment_id" any_text;
    req "strategy_id" any_text;
    opt "dataset" JNull Some;
    opt "parameters" (JObj []) any_dict;
    req "random_seed" any_int;
    req "execute" bool_of;
    opt "verification" JNull (nullable any_dict) ].

Definition DATASET_EARLIEST_START : Z := days_of_civil (1950, 1, 1).
Definition DATASET_MAX_SYMBOLS : Z := 20.

(** [dataset_providers.SYMBOL] *)
Definition symbol_head (c : ascii) : bool := in_range 65 90 c || JsonRead.json_digit c || char_in c [94%nat].
Definition symbol_char (c : ascii) : bool := symbol_head c || char_in c [46; 61; 45]%nat.
Definition SYMBOL (s : string) : bool :=
  match s with
  | EmptyString => false
  | String c s' => symbol_head c && all_of symbol_char s' && (len s' <=? 19)
  end.

Definition valid_symbols (value : list string) : option (list string) :=
  let symbols := (λ v, upper (strip v)) <$> value in
  if forallb SYMBOL symbols && distinct symbols then Some symbols else None.

Definition date_field (name : string) (data : Data) : Z :=
  match json_get name data with Some v => default 0 (lax_date v) | None => 0 end.
(** [today] is the UTC date, in days. *)
Definition valid_range (today : Z) (data : Data) : bool :=
  let start := date_field "start" data in let end_ := date_field "end" data in
  (start <? end_) && (DATASET_EARLIEST_START <=? start) && (end_ <=? today + 1).

Definition DatasetSnapshotRequest (today : Z) : Schema := mkSchema
  [ req "symbols" (texts 1 DATASET_MAX_SYMBOLS valid_symbols); req "start" date_of; req "end" date_of ]
  (valid_range today) false.

Definition MAJORS : list string := ["AAPL"; "MSFT"; "GOOGL"; "NVDA"; "JPM"; "BAC"; "XOM"; "JNJ"; "AMZN"; "META"].
Definition SIGNALS : list string := ["momentum"; "reversal"; "volatility"; "quality"; "sba"].
Definition YEARS : list string := ["1y"; "2y"; "3y"; "5y"].

Definition AlphaResearchRequest : Schema := market_data
  [ opt "assets" (symbols ["AAPL"; "MSFT"; "GOOGL"; "NVDA"; "JPM"]) (assets_of 4 50);
    opt "period" (JStr "2y") (one_of YEARS);
    opt "signal_type" (JStr "momentum") (one_of SIGNALS);
    opt "max_horizon" (JInt 20) (int_in 1 60) ].

(** [list[str]] without bounds *)
Definition any_texts (v : json) : option json :=
  match v with
  | JArr l => match all_texts l with Some l => Some (symbols l) | None => None end
  | _ => None
  end.

Definition FactorModelRequest : Schema := market_data
  [ opt "assets" (symbols MAJORS) (assets_of 8 50);
    opt "period" (JStr "3y") (one_of ["2y"; "3y"; "5y"]);
    opt "factors" (symbols ["momentum"; "reversal"; "volatility"; "low_volatility"; "quality"]) any_texts;
    opt "newey_west_lags" (JInt 4) (int_in 1 20) ].

Definition CorrelationRequest : Schema := market_data
  [ opt "assets" (symbols MAJORS) (assets_of 4 50);
    opt "period" (JStr "2y") (one_of YEARS);
    opt "ewma_halflife" (JFloat (thousandths 60000)) (float_in 5000 250000);
    opt "pca_components" JNull (nullable (int_in 1 20)) ].

Definition PortfolioOptRequest : Schema := market_data
  [ opt "assets" (symbols MAJORS) (assets_of 4 50);
    opt "period" (JStr "2y") (one_of YEARS);
    opt "covariance_method" (JStr "ledoit_wolf") (one_of ["pearson"; "ledoit_wolf"; "oas"; "ewma"]);
    opt "long_only" (JBool true) bool_of;
    opt "max_weight" (JFloat (thousandths 400)) (float_in 10 1000);
    opt "min_weight" (JFloat (thousandths 0)) (float_in 0 200);
    opt "risk_free_rate" (JFloat (thousandths 50)) (float_in 0 200);
    opt "include_sba" (JBool false) bool_of ].

Definition EventBacktestRequest : Schema := market_data
  [ opt "assets" (symbols ["AAPL"; "MSFT"; "GOOGL"]) (assets_of 1 10);
    opt "period" (JStr "2y") (one_of YEARS);
    opt "strategy" (JStr "ma_crossover") (one_of ["ma_crossover"; "momentum"; "mean_reversion"]);
    opt "cost_model" (JStr "retail") (one_of EXECUTION_PRESETS);
    opt "sizing_method" (JStr "fixed_fractional") (one_of ["fixed_fractional"; "volatility_target"]);
    opt "allow_short" (JBool false) bool_of;
    opt "initial_capital" (JFloat (thousandths 100000000)) (float_in 1000000 100000000000);
    opt "fast_window" (JInt 20) (int_in 2 200);
    opt "slow_window" (JInt 50) (int_in 5 500) ].

(** A ticker that a validator only strips and upper-cases. *)
Definition upper_text (s : string) : option string := Some (upper (strip s)).
Definition loose_asset : json → option json := text_with (sized 1 10 upper_text).

Definition RegimeDetectionRequest : Schema := market_data
  [ opt "asset" (JStr "SPY") loose_asset;
    opt "period" (JStr "3y") (one_of YEARS);
    opt "hmm_iters" (JInt 100) (int_in 10 500) ].

Definition NeutralStrategyRequest : Schema := market_data
  [ opt "assets" (symbols MAJORS) (assets_of 6 50);
    opt "period" (JStr "2y") (one_of YEARS);
    opt "signal_type" (JStr "momentum") any_text;
    opt "n_long" (JInt 3) (int_in 1 20);
    opt "n_short" (JInt 3) (int_in 1 20);
    opt "vol_scale" (JBool true) bool_of;
    opt "target_vol" (JFloat (thousandths 100)) (float_in 10 500);
    opt "factor_neutral" (JBool false) bool_of ].

Definition PairsTradingRequest : Schema := market_data
  [ opt "asset_y" (JStr "GS") loose_asset;
    opt "asset_x" (JStr "MS") loose_asset;
    opt "period" (JStr "3y") (one_of YEARS);
    opt "entry_z" (JFloat (thousandths 2000)) (float_in 500 5000);
    opt "exit_z" (JFloat (thousandths 500)) (float_in 0 3000);
    opt "use_kalman" (JBool true) bool_of ].

Definition LatencyBenchmarkRequest : Schema := market_data
  [ opt "assets" (symbols MAJORS) (assets_of 4 20);
    opt "period" (JStr "2y") (one_of ["1y"; "2y"; "3y"]);
    opt "n_runs" (JInt 20) (int_in 5 100);
    opt "percentile_mode" (JBool false) bool_of;
    opt "cpp_vs_python" (JBool true) bool_of ].

Definition ReportRequest : Schema := market_data
  [ opt "assets" (symbols MAJORS) (assets_of 1 20);
    opt "period" (JStr "2y") (one_of YEARS);
    opt "strategy_type" (JStr "momentum") (one_of SIGNALS);
    opt "include_walk_forward" (JBool true) bool_of;
    opt "include_factor_model" (JBool true) bool_of;
    opt "include_regime" (JBool true) bool_of ].

(** ** Keys *)

Definition valid_scopes (value : list string) : option (list string) :=
  let scopes := filter (λ s, member s value = true) ["read"; "trade"] in
  if bool_decide (value = []) || negb (forallb (λ s, member s ["read"; "trade"]) value) then None else Some scopes.
Definition ApiKeyRequest : Schema := model
  [ req "name" (text_of 3 80);
    opt "scopes" (symbols ["read"])
      (λ v, match v with
            | JArr l => match all_texts l with
                        | Some l => symbols <$> valid_scopes l
                        | None => None
                        end
            | _ => None
            end) ].

(** ** Market simulation *)

Definition float_field (name : string) (data : Data) : b64 :=
  match json_get name data with Some (JFloat x) => x | Some (JInt z) => nof_Z z | _ => n0 end.

Definition consistent_range (bar : Data) : bool :=
  let open := float_field "open" bar in let close := float_field "close" bar in
  (float_field "low" bar <=.? nmin open close) && (nmin open close <=.? nmax open close)
  && (nmax open close <=.? float_field "high" bar).
Definition OHLCVBar : Schema := mkSchema
  [ req "timestamp" (float_by (λ _, true));
    req "open" positive; req "high" positive; req "low" positive; req "close" positive;
    opt "volume" (JInt 10000) (float_by (ge 0)) ]
  consistent_range false.

Definition bars_of (data : Data) : list json := match json_get "bars" data with Some (JArr l) => l | _ => [] end.
Definition bounded_work (data : Data) : bool :=
  Z.of_nat (length (bars_of data)) * default 0 (int_field "events_per_bar" data) <=? 100000.
Definition MicrostructureReplayRequest : Schema := mkSchema
  [ req "bars" (list_of 1 500 (λ v, JObj <$> model_validate OHLCVBar v));
    opt "seed" (JInt 42) any_int;
    opt "events_per_bar" (JInt 50) (int_in 2 500);
    opt "obi_threshold" (JFloat (thousandths 300)) (float_by (λ x, gt 0 x && lt 1000 x));
    opt "snapshot_interval" (JInt 10) (int_in 1 10000);
    opt "warmup_events" (JInt 50) (int_from 0);
    opt "tick_size" (JFloat (thousandths 10)) (positive_to 100000);
    opt "execute" (JBool false) bool_of;
    opt "order_quantity" (JInt 100) (positive_to 1000000000);
    opt "order_style" (JStr "aggressive") (one_of ["aggressive"; "passive"]);
    opt "cancel_after_events" JNull (nullable (int_from 1));
    opt "latency_preset" (JStr "zero") any_text ]
  bounded_work false.

(** [value.upper()], then looked up in a set. *)
Definition upper_one_of (l : list string) : json → option json :=
  text_with (λ s, keep (λ s, member s l) (upper s)).
Definition ExchangeSimulationRequest : Schema := mkSchema
  [ opt "symbol" (JStr "AAPL") (asset_of 1 20);
    opt "side" (JStr "BUY") (upper_one_of ["BUY"; "SELL"]);
    opt "quantity" (JInt 1) (positive_to 1000000000);
    opt "order_type" (JStr "market") (one_of ["market"; "limit"; "stop"; "stop_limit"]);
    opt "limit_price" JNull (nullable positive);
    opt "stop_price" JNull (nullable positive);
    opt "time_in_force" (JStr "GTC") (upper_one_of ["DAY"; "GTC"; "IOC"; "FOK"]);
    opt "seed" (JInt 42) any_int;
    opt "flow_events" (JInt 200) (int_in 0 5000);
    opt "latency_ms" (JInt 0) (float_in 0 10000000);
    opt "tick_size" JNull (nullable (positive_to 100000));
    opt "initial_position" (JInt 0) (float_in 0 1000000000) ]
  (λ _, true) true.

(** ** Queued jobs: the schema each kind names in [research_jobs.KINDS], which
    the task validates the stored parameters with. *)
Definition params_schema (today : Z) (kind : string) : option Schema :=
  (list_to_map [
    ("ma_backtest", BacktestRequest); ("advanced_backtest", AdvancedBacktestRequest);
    ("walk_forward", WalkForwardRequest); ("event_backtest", EventBacktestRequest);
    ("alpha", AlphaResearchRequest); ("factor_model", FactorModelRequest);
    ("correlation", CorrelationRequest); ("optimize", PortfolioOptRequest);
    ("regime", RegimeDetectionRequest); ("neutral_strategy", NeutralStrategyRequest);
    ("pairs_trading", PairsTradingRequest); ("latency_benchmark", LatencyBenchmarkRequest);
    ("report", ReportRequest); ("stat_test", StatTestJob);
    ("experiment_run", ExperimentJob); ("experiment_validate", ExperimentJob);
    ("experiment_replay", ExperimentJob); ("dataset_snapshot", DatasetSnapshotRequest today) ] : gmap string Schema)
    !! kind.
End schemas.
