(* ===== verification/ResearchRoutes.v ===== *)
(** backend/main.py, the research routes: each validates its request
    (schemas.py), applies its own checks and queues a job; and the routes that
    report on a user's jobs. *)

From S2P Require Import Prelude Numeric Models Json JsonText DateTime DatasetFormat Integration ResearchJobs DatasetRegistry Schemas.
From stdpp Require Import pretty.
#[local] Open Scope Z_scope.

Abbreviation DB := (JobsDB Registry).

(** ** Numbers in stored results *)

(** A JSON number as Python holds it: an int (a bool is one) or a float. *)
Definition number (v : json) : option (Z + b64) :=
  match v with
  | JBool b => Some (inl (if b then 1 else 0))
  | JInt z => Some (inl z)
  | JFloat x => Some (inr x)
  | _ => None
  end.
(** [float(z)]; [None] is [OverflowError]. *)
Definition int_float (z : Z) : option b64 := let x : b64 := nof_Z z in if nfinite x then Some x else None.
Definition as_float (n : Z + b64) : option b64 := match n with inl z => int_float z | inr x => Some x end.
Definition zero_number (n : Z + b64) : bool := match n with inl z => z =? 0 | inr x => x =.? n0 end.

Definition py_sub (a b : Z + b64) : option (Z + b64) :=
  match a, b with
  | inl x, inl y => Some (inl (x - y))
  | _, _ => match as_float a, as_float b with Some x, Some y => Some (inr (x ⊖ y)) | _, _ => None end
  end.
(** [a / b] for [b] not zero: of two ints, the float nearest to the ratio. *)
Definition py_truediv (a b : Z + b64) : option b64 :=
  match a, b with
  | inl x, inl y =>
      let q : b64 := nof_ratio (x * Z.sgn y) (Z.to_pos (Z.abs y)) in
      if nfinite q then Some q else None
  | _, _ => match as_float a, as_float b with Some x, Some y => Some (x ⊘ y) | _, _ => None end
  end.

(** [(curve[i] - curve[i-1]) / curve[i-1] if curve[i-1] else 0] *)
Definition one_return (prev next : json) : option json :=
  if negb (truthy prev) then Some (JInt 0)
  else
    match number next, number prev with
    | Some n, Some p => d ← py_sub n p; JFloat <$> py_truediv d p
    | _, _ => None
    end.
Fixpoint curve_returns (prev : json) (l : list json) : option (list json) :=
  match l with
  | [] => Some []
  | next :: l =>
      match one_return prev next, curve_returns next l with
      | Some r, Some rs => Some (r :: rs)
      | _, _ => None
      end
  end.

(** [len(v)] *)
Definition py_len (v : json) : option Z :=
  match v with
  | JArr l => Some (Z.of_nat (length l))
  | JStr s => Some (points s)
  | JObj l => Some (Z.of_nat (length l))
  | _ => None
  end.

(** ** Routes *)

(** What a route may answer other than its job: an HTTP error, or [None], an
    exception nothing handles (500). *)
Abbreviation answer A := (outcome (option HTTPException) A).
Definition http {A} (status : Z) (detail : string) : answer A := Raise (Some (mkHTTPException status detail)).
Definition crash {A} : answer A := Raise None.
Definition or_crash {A} (v : option A) : answer A := match v with Some a => Ret a | None => crash end.

Section routes.
Variable lax_int : json → option Z.
Variable lax_float : json → option b64.
Variable lax_bool : json → option bool.
Variable lax_date : json → option Z.
Variable nan_in_bounds : bool.
Variable strip_other : string → string.
Variable upper_other : string → string.

Variable now : Z.
Variable RESEARCH_JOB_MAX_ATTEMPTS : Z.
Variable RESEARCH_MAX_ACTIVE_JOBS_PER_USER : Z.

Definition today : Z := now / US_PER_DAY.
Definition schema_of (kind : string) : option Schema :=
  params_schema lax_int lax_float lax_bool lax_date nan_in_bounds strip_other upper_other today kind.

Definition dataset_ids_of (req : Data) : list string :=
  match json_get "dataset_ids" req with
  | Some (JArr l) => default [] (all_texts l)
  | _ => []
  end.

(** A research route: the body validated, the route's own check, then
    [_queue_research(db, user, kind, req)]. *)
Definition research_route (kind : string) (check : Data → option HTTPException) (d : DB) (user_id : string)
    (body : json) (id : string) : DB * answer ResearchJob :=
  match schema_of kind with
  | None => (d, crash)
  | Some s =>
      match model_validate s body with
      | None => (d, http 422 "validation error")
      | Some req =>
          match check req with
          | Some e => (d, Raise (Some e))
          | None => queue_research now RESEARCH_JOB_MAX_ATTEMPTS RESEARCH_MAX_ACTIVE_JOBS_PER_USER
                      d user_id kind (dataset_ids_of req) req id
          end
      end
  end.

Definition no_check (req : Data) : option HTTPException := None.
Definition windows_check (req : Data) : option HTTPException :=
  match int_field "slow_window" req, int_field "fast_window" req with
  | Some slow, Some fast =>
      if slow <=? fast then Some (mkHTTPException 400 "slow_window must be larger than fast_window") else None
  | _, _ => None
  end.
Definition pair_check (req : Data) : option HTTPException :=
  if String.eqb (text_field "asset_y" req) (text_field "asset_x" req)
  then Some (mkHTTPException 422 "asset_y and asset_x must be different") else None.

Definition run_backtest := research_route "ma_backtest" windows_check.
Definition advanced_backtest := research_route "advanced_backtest" no_check.
Definition walk_forward_validation := research_route "walk_forward" no_check.
Definition alpha_research_endpoint := research_route "alpha" no_check.
Definition factor_model_endpoint := research_route "factor_model" no_check.
Definition correlation_endpoint := research_route "correlation" no_check.
Definition portfolio_optimize_endpoint := research_route "optimize" no_check.
Definition event_backtest_endpoint := research_route "event_backtest" no_check.
Definition regime_detection_endpoint := research_route "regime" no_check.
Definition neutral_strategy_endpoint := research_route "neutral_strategy" no_check.
Definition pairs_trading_endpoint := research_route "pairs_trading" pair_check.
Definition latency_benchmark_endpoint := research_route "latency_benchmark" no_check.
Definition research_report_endpoint := research_route "report" no_check.

(** [POST /api/research/datasets] *)
Definition snapshot_dataset (d : DB) (user_id : string) (body : json) (id : string) : DB * answer ResearchJob :=
  match model_validate (DatasetSnapshotRequest lax_date strip_other upper_other today) body with
  | None => (d, http 422 "validation error")
  | Some req =>
      queue_job now RESEARCH_JOB_MAX_ATTEMPTS RESEARCH_MAX_ACTIVE_JOBS_PER_USER
        d user_id "dataset_snapshot" req ["symbols"; "start"; "end"] id
  end.

(** ** Statistical tests *)

Definition list_field (name : string) (req : Data) : list json :=
  match json_get name req with Some (JArr l) => l | _ => [] end.

Definition no_backtest {A} : answer A := http 404 "Backtest not found".

(** The returns of a stored backtest, and its trial family. *)
Definition stored_returns (rj : Data) : answer (option (list json)) :=
  let daily := default JNull (json_get "daily_returns_net" rj) in
  if truthy daily then
    match elements_of daily with Ret l => Ret (Some l) | Raise _ => crash end
  else
    let net := default JNull (json_get "equity_curve_net" rj) in
    let curve := if truthy net then net else default (JArr []) (json_get "equity_curve" rj) in
    let! n := or_crash (py_len curve) in
    if n <=? 2 then Ret None
    else match curve with
         | JArr (v :: l) => let! rs := or_crash (curve_returns v l) in Ret (Some rs)
         | _ => crash
         end.

(** The returns a request is about, and the family they belong to. *)
Definition resolve_returns (d : DB) (user_id : string) (req : Data) : answer (option (list json) * json) :=
  let family := default JNull (json_get "trial_family" req) in
  match list_field "returns" req with
  | (_ :: _) as l => Ret (Some l, family)
  | [] =>
      let backtest_id := text_field "backtest_id" req in
      if String.eqb backtest_id EmptyString then Ret (None, family)
      else match jd_backtests d !! backtest_id with
           | None => no_backtest
           | Some (owner, result) =>
               if negb (bool_decide (owner = user_id)) then no_backtest
               else
                 let! rj := (match result with
                             | JObj l => Ret l
                             | v => if truthy v then crash else Ret []
                             end) in
                 let family := if truthy family then family else default JNull (json_get "trial_family" rj) in
                 let! returns := stored_returns rj in
                 Ret (returns, family)
           end
  end.

(** [math.isfinite(r)] of an int or a float; [None]: [OverflowError]. *)
Definition finite_number (v : json) : option bool :=
  match number v with
  | None => Some false
  | Some n => nfinite (F:=b64) <$> as_float n
  end.
Fixpoint all_finite (l : list json) : option bool :=
  match l with
  | [] => Some true
  | v :: l =>
      match finite_number v with
      | Some true => all_finite l
      | b => b
      end
  end.
Definition float_item (v : json) : option json := n ← number v; JFloat <$> as_float n.
Fixpoint float_items (l : list json) : option (list json) :=
  match l with
  | [] => Some []
  | v :: l => match float_item v, float_items l with Some x, Some xs => Some (x :: xs) | _, _ => None end
  end.

(** [f"{n:,}"] *)
Fixpoint with_commas (fuel : nat) (n : Z) : string :=
  match fuel with
  | O => pretty n
  | S fuel => if n <? 1000 then pretty n else with_commas fuel (n / 1000) +:+ "," +:+ pad 3 (n mod 1000)
  end.
Definition grouped (n : Z) : string := with_commas (Z.to_nat (Z.log2 n)) n.
Example grouped_samples : grouped 10001 = "10,001" ∧ grouped 1234567 = "1,234,567" ∧ grouped 999 = "999".
Proof. vm_compute. auto. Qed.

Definition need_observations {A} : answer A := http 422 "Need at least 5 return observations".

(** [count] of the request's family, when it has one. *)
Definition counted (d : DB) (user_id : string) (family : json) : answer Z :=
  if negb (truthy family) then Ret 0
  else match family with JStr f => Ret (trial_count d user_id f) | _ => crash end.

Definition int_or_0 (name : string) (req : Data) : Z := default 0 (int_field name req).
(** The job a request queues. *)
Definition stat_test_params (d : DB) (user_id : string) (req : Data) : answer Data :=
  let! resolved := resolve_returns d user_id req in
  match resolved.1 with
  | None => need_observations
  | Some returns =>
      let n := Z.of_nat (length returns) in
      if n <? 5 then need_observations
      else if STAT_TEST_MAX_RETURNS <? n
      then http 422 ("At most " +:+ grouped STAT_TEST_MAX_RETURNS +:+ " return observations can be tested; got " +:+ grouped n)
      else
        let! finite := or_crash (all_finite returns) in
        if negb finite then http 422 "Every return observation must be a finite number"
        else
          let! server_counted := counted d user_id resolved.2 in
          let! returns := or_crash (float_items returns) in
          let declared := int_or_0 "n_strategies_tested" req in
          Ret [("returns", JArr returns); ("n_trials", JInt (Z.max declared server_counted));
               ("declared", JInt declared); ("server_counted", JInt server_counted);
               ("trial_family", resolved.2); ("n_bootstrap", JInt (int_or_0 "n_bootstrap" req));
               ("n_permutations", JInt (int_or_0 "n_permutations" req))]
  end.

Definition statistical_tests (d : DB) (user_id : string) (body : json) (id : string) : DB * answer ResearchJob :=
  match model_validate (StatTestRequest lax_int lax_float) body with
  | None => (d, http 422 "validation error")
  | Some req =>
      match stat_test_params d user_id req with
      | Raise e => (d, Raise e)
      | Ret params => queue_job now RESEARCH_JOB_MAX_ATTEMPTS RESEARCH_MAX_ACTIVE_JOBS_PER_USER
                        d user_id "stat_test" params [] id
      end
  end.

(** ** Jobs *)

Definition list_research_jobs (d : DB) (user_id : string) (limit : nat) : list job_view :=
  (λ job, ResearchJobs.view d job false now) <$> ResearchJobs.list_for_user d user_id limit.
Definition get_research_job (d : DB) (user_id job_id : string) : answer job_view :=
  match ResearchJobs.get_for_user d user_id job_id with
  | None => http 404 "Research job not found"
  | Some job => Ret (ResearchJobs.view d job true now)
  end.
Definition cancel_research_job (others : DB → DB) (d : DB) (user_id job_id : string) : DB * answer job_view :=
  let '(d, job) := request_cancel others d user_id job_id now in
  (d, match job with
      | None => http 404 "Research job not found"
      | Some job => Ret (ResearchJobs.view d job false now)
      end).
Definition research_queue_status (is_admin : bool) (d : DB) : answer queue_counts :=
  if is_admin then Ret (queue_stats d now) else http 403 "queue status requires an operator role".
End routes.
