(* ===== verification/SchemasFacts.v ===== *)
(** What schemas.py guarantees: a request the API accepted is accepted again
    by the task that runs it, a registration's password is strong, a
    statistical test counts every trial. *)

From S2P Require Import Prelude Numeric Models Json JsonText JsonRead DateTime DatasetFormat Integration ResearchJobs DatasetRegistry Schemas ResearchRoutes.
From Stdlib Require Import Ascii Floats.SpecFloat.
#[local] Open Scope Z_scope.

(** ** Finite floats *)

Lemma finite_nfinite s m e : nfinite (F:=b64) (S754_finite s m e) = true.
Proof.
  unfold nfinite. change (SFeqb (SFsub 53 1024 (S754_finite s m e) (S754_finite s m e)) n0 = true).
  cbn [SFsub]. rewrite Z.sub_diag. destruct s; reflexivity.
Qed.

(** A float between two finite ones is finite. *)
Lemma between_finite (lo hi x : b64) a b m e :
  b64_key lo = Some (a, m, e) → -1 ≤ a → SFleb lo x = true → b64_key hi = Some b → b.1.1 ≤ 1 → SFleb x hi = true →
  nfinite (F:=b64) x = true.
Proof.
  intros Hlo Ha H1%b64_le_key Hhi Hb H2%b64_le_key. destruct b as [[b1 b2] b3]. cbn in Hb.
  destruct x as [s|[]| |s m' e']; try apply finite_nfinite; try (by destruct s).
  - destruct H1 as (k & j & ? & [= <-] & Hk). simplify_eq. cbn in Hk. destruct Hk as [?|[=]]; lia.
  - destruct H2 as (k & j & [= <-] & ? & Hk). rewrite Hhi in *. simplify_eq. cbn in Hk.
    destruct Hk as [?|[=]]; lia.
  - by destruct H1 as (k & j & ? & ? & ?).
Qed.

(** ** Fields *)

Lemma json_get_app k (a b : Data) :
  json_get k (a ++ b) = match json_get k a with Some v => Some v | None => json_get k b end.
Proof.
  unfold json_get. induction a as [|[k' v] a IH]; [done|]. cbn. destruct (decide (k' = k)) as [->|].
  - by rewrite bool_decide_eq_true_2.
  - rewrite bool_decide_eq_false_2 by done. apply IH.
Qed.
Lemma json_get_cons k k' v (l : Data) :
  json_get k ((k', v) :: l) = if bool_decide (k' = k) then Some v else json_get k l.
Proof. unfold json_get. cbn. by case_bool_decide. Qed.
Lemma json_get_fresh k (l : Data) : k ∉ l.*1 → json_get k l = None.
Proof.
  induction l as [|[k' v] l IH]; [done|]. rewrite fmap_cons. intros [Hk ?]%not_elem_of_cons. cbn in Hk.
  rewrite json_get_cons, bool_decide_eq_false_2 by congruence. auto.
Qed.

(** The value a field ends up with: its default, or what its check made. *)
Definition origin (f : Field) (w : json) : Prop :=
  fd_default f = Some w ∨ ∃ data v, fd_check f data v = Some w.

(** The same value, up to an int default that is read back as a float. *)
Definition same (v w : json) : Prop := v = w ∨ ∃ z, v = JInt z ∧ w = JFloat (nof_Z z).
Definition same_field (a b : string * json) : Prop := a.1 = b.1 ∧ same a.2 b.2.

(** A field whose values are accepted again. *)
Definition again (f : Field) (w : json) : Prop := ∃ w', same w w' ∧ ∀ data, fd_check f data w = Some w'.

Lemma validate_fields_origin fs input : ∀ data out,
  validate_fields fs input data = Some out →
  ∃ new, out = data ++ new ∧ Forall2 (λ f kv, kv.1 = fd_name f ∧ origin f kv.2) fs new.
Proof.
  induction fs as [|f fs IH]; cbn [validate_fields]; intros data out H.
  - exists []. injection H as <-. by rewrite app_nil_r.
  - assert (∃ w, origin f w ∧ validate_fields fs input (data ++ [(fd_name f, w)]) = Some out) as (w & Hw & H').
    { destruct (json_get _ _) as [v|].
      - destruct (fd_check f data v) as [w|] eqn:E; [|done]. exists w. split; [|done]. right. eauto.
      - destruct (fd_default f) as [w|] eqn:E; [|done]. exists w. split; [by left|done]. }
    apply IH in H' as (new & -> & Hnew). exists ((fd_name f, w) :: new). split; [by rewrite <-app_assoc|].
    by constructor.
Qed.

Lemma validate_fields_again fs : ∀ (input data new : Data),
  Forall2 (λ f kv, kv.1 = fd_name f ∧ again f kv.2) fs new →
  (∀ f w, (fd_name f, w) ∈ new → f ∈ fs → json_get (fd_name f) input = Some w) →
  ∃ out, validate_fields fs input data = Some (data ++ out) ∧ Forall2 same_field new out.
Proof.
  induction fs as [|f fs IH]; intros input data new H Hin.
  - apply Forall2_nil_inv_l in H as ->. exists []. cbn. by rewrite app_nil_r.
  - apply Forall2_cons_inv_l in H as ([k w] & new' & [[=Hk] (w' & Hs & Hw)] & Hnew & ->).
    cbn in Hk, Hs, Hw. subst k. cbn [validate_fields].
    rewrite (Hin f w) by (constructor || set_solver). rewrite Hw.
    destruct (IH input (data ++ [(fd_name f, w')]) new' Hnew) as (out & Hout & Hsame).
    { intros g v Hg Hgs. apply Hin; by right. }
    exists ((fd_name f, w') :: out). rewrite Hout, <-app_assoc. split; [done|]. constructor; [by split|done].
Qed.

Lemma validate_fields_cons f fs input data v w :
  json_get (fd_name f) input = Some v → fd_check f data v = Some w →
  validate_fields (f :: fs) input data = validate_fields fs input (data ++ [(fd_name f, w)]).
Proof. intros Hv Hw. cbn [validate_fields]. by rewrite Hv, Hw. Qed.

(** One value refused: the whole request is. *)
Lemma validate_fields_refused fs input f v : ∀ data,
  f ∈ fs → json_get (fd_name f) input = Some v → (∀ data, fd_check f data v = None) →
  validate_fields fs input data = None.
Proof.
  induction fs as [|g fs IH]; intros data Hf Hv Hn; [by apply elem_of_nil in Hf|].
  cbn [validate_fields]. apply elem_of_cons in Hf as [<-|Hf]; [by rewrite Hv, Hn|].
  destruct (json_get (fd_name g) input) as [u|]; [destruct (fd_check g data u)|destruct (fd_default g)]; by auto.
Qed.

Lemma json_get_elem (l : Data) k w : NoDup l.*1 → (k, w) ∈ l → json_get k l = Some w.
Proof.
  induction l as [|[k' v] l IH]; intros Hn Hin; [by apply elem_of_nil in Hin|].
  rewrite fmap_cons in Hn. apply NoDup_cons in Hn as [Hk Hn]. cbn in Hk. rewrite json_get_cons.
  apply elem_of_cons in Hin as [[= -> ->]|Hin]; [by rewrite bool_decide_eq_true_2|].
  rewrite bool_decide_eq_false_2; [auto|]. intros ->. apply Hk. rewrite list_elem_of_fmap. by exists (k, w).
Qed.

Lemma origin_names fs new :
  Forall2 (λ f kv, kv.1 = fd_name f ∧ origin f kv.2) fs new → new.*1 = fd_name <$> fs.
Proof. induction 1 as [|f kv fs new [E _] _ IH]; [done|]. rewrite !fmap_cons. by rewrite IH, E. Qed.

(** What [enqueue] stores of a request's values. *)
Definition stored (req : Data) : Data := map (λ kv, (kv.1, finite_json kv.2)) req.

Lemma stored_names req : (stored req).*1 = req.*1.
Proof. unfold stored. induction req as [|kv req IH]; [done|]. cbn [map]. by rewrite !fmap_cons, IH. Qed.

(** A request whose fields are data-independent is accepted again from what
    was stored, unless one of its values is refused. *)
Lemma fields_reread fs (bad : string → json → bool) req :
  NoDup (fd_name <$> fs) → Forall2 (λ f kv, kv.1 = fd_name f ∧ origin f kv.2) fs req →
  (∀ f w, f ∈ fs → origin f w →
     if bad (fd_name f) w then ∀ data, fd_check f data (finite_json w) = None else finite_json w = w ∧ again f w) →
  match validate_fields fs (stored req) [] with
  | Some out => existsb (λ kv, bad kv.1 kv.2) req = false ∧ Forall2 same_field req out
  | None => existsb (λ kv, bad kv.1 kv.2) req = true
  end.
Proof.
  intros Hn Hr Hf. assert (NoDup req.*1) as Hnr by by rewrite (origin_names fs req Hr).
  destruct (existsb (λ kv, bad kv.1 kv.2) req) eqn:Eb.
  - rewrite existsb_exists in Eb. destruct Eb as ([k w] & Hin%list_elem_of_In & Hb). cbn in Hb.
    apply list_elem_of_lookup in Hin as [i Hi]. destruct (Forall2_lookup_r _ _ _ _ _ Hr Hi) as (f & Hfi & Ek & Ho). cbn in Ek, Ho. subst k.
    apply list_elem_of_lookup_2 in Hfi. pose proof (Hf f w Hfi Ho) as H. rewrite Hb in H.
    rewrite (validate_fields_refused fs (stored req) f (finite_json w)); [done|done| |done].
    apply json_get_elem; [by rewrite stored_names|]. unfold stored. apply list_elem_of_In.
    apply (in_map (λ kv : string * json, (kv.1, finite_json kv.2)) req (fd_name f, w)). apply list_elem_of_In.
    by eapply list_elem_of_lookup_2.
  - assert (∀ k w, (k, w) ∈ req → bad k w = false) as Hgood.
    { intros k w Hin. apply not_true_iff_false. intros Hb. apply not_true_iff_false in Eb. apply Eb.
      apply existsb_exists. exists (k, w). by rewrite <-list_elem_of_In. }
    assert (Forall2 (λ f kv, kv.1 = fd_name f ∧ finite_json kv.2 = kv.2 ∧ again f kv.2) fs req) as Hag.
    { apply Forall2_same_length_lookup. split; [by eapply Forall2_length|]. intros i f [k w] Hfi Hi.
      pose proof (Forall2_lookup_lr _ _ _ _ _ _ Hr Hfi Hi) as [Ek Ho]. cbn in Ek, Ho. subst k. cbn [fst snd].
      split; [done|]. apply list_elem_of_lookup_2 in Hfi, Hi. pose proof (Hf f w Hfi Ho) as H. by rewrite Hgood in H. }
    assert (stored req = req) as ->.
    { unfold stored. clear -Hag. induction Hag as [|f [k w] fs req (_ & E & _) _ IH]; [done|]. cbn in E |- *. by rewrite E, IH. }
    destruct (validate_fields_again fs req [] req) as (out & -> & Hs).
    + eapply Forall2_impl; [done|]. naive_solver.
    + intros f w Hin _. by apply json_get_elem.
    + by split.
Qed.

(** ** Case mapping and stripping *)

Lemma is_space_upper c : is_space (upper_ascii c) = is_space c.
Proof. by destruct c as [[] [] [] [] [] [] [] []]. Qed.
Lemma upper_ascii_again c : upper_ascii (upper_ascii c) = upper_ascii c.
Proof. by destruct c as [[] [] [] [] [] [] [] []]. Qed.
Lemma upper_ascii_low c : (nat_of_ascii (upper_ascii c) <? 128)%nat = (nat_of_ascii c <? 128)%nat.
Proof. by destruct c as [[] [] [] [] [] [] [] []]. Qed.

Lemma str_upper_again s : str_upper (str_upper s) = str_upper s.
Proof. induction s as [|c s IH]; [done|]. cbn [str_upper]. by rewrite upper_ascii_again, IH. Qed.
Lemma is_ascii_upper s : is_ascii (str_upper s) = is_ascii s.
Proof. induction s as [|c s IH]; [done|]. cbn [str_upper is_ascii]. by rewrite IH, upper_ascii_low. Qed.

Lemma strip_left_upper s : strip_left (str_upper s) = str_upper (strip_left s).
Proof.
  induction s as [|c s IH]; [done|]. cbn [str_upper strip_left]. rewrite is_space_upper.
  by destruct (is_space c).
Qed.
Lemma strip_right_upper s : strip_right (str_upper s) = str_upper (strip_right s).
Proof.
  induction s as [|c s IH]; [done|]. cbn [str_upper strip_right]. rewrite IH, is_space_upper.
  destruct (strip_right s) as [|d r]; cbn [str_upper]; [by destruct (is_space c)|done].
Qed.
Lemma is_ascii_strip_left s : is_ascii s = true → is_ascii (strip_left s) = true.
Proof.
  induction s as [|c s IH]; [done|]. cbn [is_ascii strip_left]. intros [Hc Hs]%andb_prop.
  destruct (is_space c); [auto|]. cbn [is_ascii]. by rewrite Hc, Hs.
Qed.
Lemma is_ascii_strip_right s : is_ascii s = true → is_ascii (strip_right s) = true.
Proof.
  induction s as [|c s IH]; [done|]. cbn [is_ascii strip_right]. intros [Hc Hs]%andb_prop.
  specialize (IH Hs). destruct (strip_right s) as [|d r]; [destruct (is_space c); [done|]; cbn [is_ascii]; by rewrite Hc|].
  change ((nat_of_ascii c <? 128)%nat && is_ascii (String d r) = true). by rewrite Hc, IH.
Qed.

(** A text with nothing to strip at either end. *)
Lemma strip_right_again s : strip_right (strip_right s) = strip_right s.
Proof.
  induction s as [|c s IH]; [done|]. cbn [strip_right]. destruct (strip_right s) as [|d r] eqn:E.
  - destruct (is_space c) eqn:Ec; [done|]. cbn [strip_right]. by rewrite Ec.
  - change (strip_right (String c (String d r))) with
      (match strip_right (String d r) with
       | EmptyString => if is_space c then EmptyString else String c EmptyString
       | r0 => String c r0 end).
    by rewrite IH.
Qed.
Lemma strip_left_head s : match strip_left s with String c _ => is_space c = false | EmptyString => True end.
Proof. induction s as [|c s IH]; [done|]. cbn. by destruct (is_space c) eqn:E; [|cbn]. Qed.
Lemma strip_right_head s : match s with String d _ => is_space d = false | EmptyString => True end →
  match strip_right s with String d _ => is_space d = false | EmptyString => True end.
Proof.
  destruct s as [|d s]; [done|]. cbn [strip_right]. intros Hd. rewrite Hd. by destruct (strip_right s).
Qed.
Lemma strip_left_id s : match s with String d _ => is_space d = false | EmptyString => True end → strip_left s = s.
Proof. destruct s as [|d s]; [done|]. cbn. by intros ->. Qed.

Lemma strip_ascii_again s : strip_right (strip_left (strip_right (strip_left s))) = strip_right (strip_left s).
Proof.
  rewrite strip_left_id; [apply strip_right_again|]. apply strip_right_head, strip_left_head.
Qed.

Lemma points_ascii s : is_ascii s = true → points s = len s.
Proof.
  unfold points, len. intros Hs. f_equal. induction s as [|c s IH]; [done|].
  cbn [is_ascii] in Hs. apply andb_prop in Hs as [Hc%Nat.ltb_lt Hs]. cbn [code_points String.length].
  assert ((byte_val c <? 128) = true) as ->; [|cbn [length]; by rewrite IH].
  apply Z.ltb_lt. unfold byte_val. change 128 with (Z.of_N 128). apply N2Z.inj_lt.
  unfold nat_of_ascii in Hc. apply N.compare_lt_iff. apply N.compare_lt_iff.
  rewrite <-(N2Nat.id (N_of_ascii c)). change 128%N with (N.of_nat 128). lia.
Qed.

(** ** Checks that accept their own results *)

Section facts.
Variable lax_int : json → option Z.
Variable lax_float : json → option b64.
Variable lax_bool : json → option bool.
Variable lax_date : json → option Z.
Variable nan_in_bounds : bool.
Variable strip_other : string → string.
Variable upper_other : string → string.

(** pydantic takes a value of the declared type as it is, an int for a float,
    and never null for a float. *)
Hypothesis int_kept : ∀ z, lax_int (JInt z) = Some z.
Hypothesis float_kept : ∀ x, lax_float (JFloat x) = Some x.
Hypothesis float_of_int : lax_float (JInt 100000) = Some (nof_Z 100000).
Hypothesis no_float_of_null : lax_float JNull = None.
Hypothesis bool_kept : ∀ b, lax_bool (JBool b) = Some b.

Abbreviation upper := (upper upper_other).
Abbreviation strip := (strip strip_other).
Abbreviation su s := (upper (strip s)).

(** Stripping and upper-casing a text beyond ASCII is done once and for all. *)
Hypothesis su_other : ∀ s, is_ascii s = false → su (su s) = su s.

Lemma su_again s : su (su s) = su s.
Proof.
  destruct (is_ascii s) eqn:E; [|by apply su_other]. unfold Schemas.upper, Schemas.strip. rewrite E.
  assert (is_ascii (strip_right (strip_left s)) = true) as E1 by auto using is_ascii_strip_right, is_ascii_strip_left.
  rewrite E1, is_ascii_upper, E1, strip_left_upper, strip_right_upper, is_ascii_upper, strip_ascii_again, E1.
  apply str_upper_again.
Qed.

Definition settled (c : json → option json) : Prop := ∀ v w, c v = Some w → c w = Some w.
(** What a check never makes: a float, or something with one inside. *)
Definition no_float (v : json) : bool :=
  match v with
  | JFloat _ | JObj _ => false
  | JArr l => forallb (λ v, match v with JStr _ => true | _ => false end) l
  | _ => true
  end.
Definition plain (c : json → option json) : Prop := ∀ v w, c v = Some w → no_float w = true.

Lemma no_float_finite w : no_float w = true → finite_json w = w.
Proof.
  destruct w as [| | | | |l|]; try done. cbn [no_float finite_json]. intros H. f_equal.
  induction l as [|v l IH]; [done|]. cbn in H |- *. apply andb_prop in H as [Hv H]. rewrite (IH H). by destruct v.
Qed.

Lemma settled_text f : (∀ s t, f s = Some t → f t = Some t) → settled (text_with f).
Proof.
  intros Hf [] w H; try done. cbn in H. destruct (f s) as [t|] eqn:E; [|done]. injection H as <-. cbn. by rewrite (Hf _ _ E).
Qed.
Lemma plain_any_text f : plain (text_with f).
Proof. intros [] w H; try done. cbn in H. destruct (f s); [|done]. by injection H as <-. Qed.
Lemma settled_keep p : settled (text_with (keep p)).
Proof. apply settled_text. unfold keep. intros s t. destruct (p s) eqn:E; intros [= <-]. by rewrite E. Qed.
Lemma settled_any_text : settled any_text.
Proof. apply settled_text. auto. Qed.
Lemma settled_nullable c : settled c → settled (nullable c).
Proof.
  intros Hc v w. unfold nullable at 1. destruct v; [by intros [= <-]|..]; intros H; apply Hc in H; by destruct w.
Qed.
Lemma plain_nullable c : plain c → plain (nullable c).
Proof. intros Hc v w. unfold nullable. destruct v; [by intros [= <-]|..]; apply Hc. Qed.
Lemma settled_int p : settled (int_by lax_int p).
Proof.
  intros v w. unfold int_by at 1. destruct (lax_int v) as [z|]; [|done]. destruct (p z) eqn:E; intros [= <-].
  unfold int_by. by rewrite int_kept, E.
Qed.
Lemma plain_int p : plain (int_by lax_int p).
Proof. intros v w. unfold int_by. destruct (lax_int v) as [z|]; [|done]. by destruct (p z); intros [= <-]. Qed.
Lemma settled_bool : settled (bool_of lax_bool).
Proof. intros v w. unfold bool_of at 1. destruct (lax_bool v) as [b|]; intros [= <-]. unfold bool_of. by rewrite bool_kept. Qed.
Lemma plain_bool : plain (bool_of lax_bool).
Proof. intros v w. unfold bool_of. by destruct (lax_bool v) as [b|]; intros [= <-]. Qed.

Lemma all_texts_strings l : all_texts (JStr <$> l) = Some l.
Proof. induction l as [|s l IH]; [done|]. cbn. by rewrite IH. Qed.
Lemma no_float_strings l : no_float (JArr (JStr <$> l)) = true.
Proof. induction l as [|s l IH]; [done|]. cbn. apply IH. Qed.
Lemma settled_texts lo hi f :
  (∀ l m, f l = Some m → length m = length l ∧ f m = Some m) → settled (texts lo hi f).
Proof.
  intros Hf v w. unfold texts at 1. destruct v as [| | | | |l|]; try done. destruct (within lo hi _) eqn:Ew; [|done].
  destruct (all_texts l) as [t|] eqn:Et; [|done]. destruct (f t) as [m|] eqn:Em; [|done]. intros [= <-].
  destruct (Hf _ _ Em) as [Hl Hm]. unfold texts. rewrite length_fmap, Hl, all_texts_strings, Hm.
  assert (length t = length l) as ->; [|by rewrite Ew].
  clear -Et. revert t Et. induction l as [|[] l IH]; intros t Et; cbn in Et; try done; [by injection Et as <-|].
  destruct (all_texts l) as [u|]; [|done]. injection Et as <-. cbn. by rewrite (IH u).
Qed.
Lemma plain_texts lo hi f : plain (texts lo hi f).
Proof.
  intros v w. unfold texts. destruct v; try done. destruct (within _ _ _); [|done]. destruct (all_texts _); [|done].
  destruct (f _); intros [= <-]. apply no_float_strings.
Qed.
Lemma settled_assets lo hi : settled (assets_of strip_other upper_other lo hi).
Proof.
  apply settled_texts. intros l m [= <-]. split; [apply length_fmap|]. unfold upper_texts. rewrite <-list_fmap_compose.
  f_equal. apply list_fmap_ext. intros i s _. apply su_again.
Qed.
Lemma settled_ids : settled (texts 1 DATASET_MAX_INPUTS valid_dataset_ids).
Proof. apply settled_texts. unfold valid_dataset_ids. intros l m. destruct (_ && _) eqn:E; intros [= <-]. by rewrite E. Qed.
Lemma settled_any_texts : settled any_texts.
Proof.
  intros v w. unfold any_texts at 1. destruct v; try done. destruct (all_texts l); intros [= <-]. unfold any_texts, symbols.
  by rewrite all_texts_strings.
Qed.
Lemma plain_any_texts : plain any_texts.
Proof. intros v w. unfold any_texts. destruct v; try done. destruct (all_texts l); intros [= <-]. apply no_float_strings. Qed.

Lemma normalized_again s t : normalized_asset strip_other upper_other s = Some t →
  normalized_asset strip_other upper_other t = Some t ∧ all_of ticker_char t = true ∧ within 1 20 (len t) = true.
Proof.
  unfold normalized_asset. destruct (_ && _) eqn:E; intros [= <-]. rewrite su_again, E. apply andb_prop in E. naive_solver.
Qed.
Lemma ticker_ascii t : all_of ticker_char t = true → is_ascii t = true.
Proof.
  induction t as [|c t IH]; [done|]. cbn [all_of is_ascii]. intros [Hc Ht]%andb_prop. rewrite IH, andb_true_r by done.
  by destruct c as [[] [] [] [] [] [] [] []].
Qed.
Lemma settled_asset : settled (asset_of strip_other upper_other 1 20).
Proof.
  apply settled_text. unfold sized. intros s t. destruct (within 1 20 (points s)); [|done].
  intros (H & Ht & Hl)%normalized_again. rewrite points_ascii by by apply ticker_ascii. by rewrite Hl.
Qed.

(** ** Fields whose values come back *)

(** The tickers a validator only strips and upper-cases, which may then be
    empty or longer than the declared ten characters. *)
Definition loose (kind : string) : list string :=
  if String.eqb kind "regime" then ["asset"]
  else if String.eqb kind "pairs_trading" then ["asset_y"; "asset_x"] else [].
Definition bad_value (kind name : string) (w : json) : bool :=
  match w with
  | JFloat x => is_nan x
  | JStr s => member name (loose kind) && negb (within 1 10 (points s))
  | _ => false
  end.
Definition comes_back (kind : string) (f : Field) : Prop := ∀ w, origin f w →
  if bad_value kind (fd_name f) w then ∀ data, fd_check f data (finite_json w) = None
  else finite_json w = w ∧ again f w.

Lemma settled_comes_back kind f c :
  (∀ data, fd_check f data = c) → settled c → plain c →
  (∀ d, fd_default f = Some d → c d = Some d ∧ no_float d = true) → member (fd_name f) (loose kind) = false → comes_back kind f.
Proof.
  intros Hf Hs Hp Hd Hn w Ho.
  assert (c w = Some w ∧ no_float w = true) as [Hw Hnf].
  { destruct Ho as [Hw|(data & v & Hv)]; [by apply Hd|]. rewrite Hf in Hv. split; [by eapply Hs|by eapply Hp]. }
  assert (bad_value kind (fd_name f) w = false) as ->.
  { destruct w; try done. cbn. by rewrite Hn. }
  split; [by apply no_float_finite|]. exists w. split; [by left|]. intros data. by rewrite Hf.
Qed.
Lemma req_comes_back kind name c : settled c → plain c → member name (loose kind) = false → comes_back kind (req name c).
Proof. intros. apply settled_comes_back with c; by auto. Qed.
Lemma opt_comes_back kind name d c :
  settled c → plain c → c d = Some d → no_float d = true → member name (loose kind) = false → comes_back kind (opt name d c).
Proof. intros. apply settled_comes_back with c; try done. cbn. by intros ? [= <-]. Qed.

Definition finite_key (x : b64) : bool :=
  match b64_key x with Some (a, _, _) => (-1 <=? a) && (a <=? 1) | None => false end.

Abbreviation float_in := (float_in lax_float nan_in_bounds).

Lemma float_in_bounds lo hi x : is_nan x = false →
  ge nan_in_bounds lo x && le nan_in_bounds hi x = (thousandths lo <=.? x) && (x <=.? thousandths hi).
Proof. intros E. unfold ge, le, passes. by rewrite E. Qed.

Lemma float_comes_back kind name d lo hi x :
  finite_key (thousandths lo) = true → finite_key (thousandths hi) = true →
  lax_float d = Some x → (d = JFloat x ∨ ∃ z, d = JInt z ∧ x = nof_Z z) →
  is_nan x = false → (thousandths lo <=.? x) && (x <=.? thousandths hi) = true →
  comes_back kind (opt name d (float_in lo hi)).
Proof.
  intros Hlo Hhi Hd Hdx Hxn Hx w Ho.
  assert (∀ y, is_nan y = false → (thousandths lo <=.? y) && (y <=.? thousandths hi) = true →
            finite_json (JFloat y) = JFloat y ∧ again (opt name d (float_in lo hi)) (JFloat y)) as Hgood.
  { intros y Hn Hb. split.
    - cbn [finite_json]. unfold finite_key in *. apply andb_prop in Hb as [H1 H2].
      destruct (b64_key (thousandths lo)) as [[[a m] e]|] eqn:El; [|done].
      destruct (b64_key (thousandths hi)) as [[[a' m'] e']|] eqn:Eh; [|done].
      apply andb_prop in Hlo as [Hlo%Z.leb_le _], Hhi as [_ Hhi%Z.leb_le].
      by rewrite (between_finite _ _ y _ _ _ _ El Hlo H1 Eh Hhi H2).
    - exists (JFloat y). split; [by left|]. intros data. cbn. unfold Schemas.float_in, float_by.
      rewrite float_kept, float_in_bounds by done. by rewrite Hb. }
  assert (∀ y, w = JFloat y → ge nan_in_bounds lo y && le nan_in_bounds hi y = true →
    if bad_value kind name w then ∀ data, fd_check (opt name d (float_in lo hi)) data (finite_json w) = None
    else finite_json w = w ∧ again (opt name d (float_in lo hi)) w) as Hfloat.
  { intros y -> Hy. cbn [bad_value]. destruct (is_nan y) eqn:Hn.
    - intros data. destruct y; try done. cbn. unfold Schemas.float_in, float_by. by rewrite no_float_of_null.
    - rewrite float_in_bounds in Hy by done. by apply Hgood. }
  cbn [fd_name opt]. destruct Ho as [[= <-]|(data & v & Hv)].
  - destruct Hdx as [-> |(z & -> & ->)]; [by apply (Hfloat x); [|rewrite float_in_bounds]|].
    cbn. split; [done|]. exists (JFloat (nof_Z z)). split; [right; by exists z|]. intros data.
    cbn. unfold Schemas.float_in, float_by. rewrite Hd, float_in_bounds by done. by rewrite Hx.
  - change (float_in lo hi v = Some w) in Hv. unfold Schemas.float_in, float_by in Hv. destruct (lax_float v) as [y|]; [|done].
    destruct (ge _ _ _ && _) eqn:Ey; [|done]. injection Hv as <-. by apply (Hfloat y).
Qed.

Lemma loose_comes_back kind name d :
  member name (loose kind) = true → within 1 10 (points d) = true → su d = d →
  comes_back kind (opt name (JStr d) (loose_asset strip_other upper_other)).
Proof.
  intros Hn Hd Hsu w Ho. cbn [fd_name opt].
  assert (∃ s, w = JStr s ∧ su s = s) as (s & -> & Hs).
  { destruct Ho as [[= <-]|(data & v & Hv)]; [by exists d|]. cbn in Hv. unfold loose_asset, text_with, sized, upper_text in Hv.
    destruct v; try done. destruct (within 1 10 (points s)); [|done]. injection Hv as <-. eexists. split; [done|]. apply su_again. }
  cbn [bad_value]. rewrite Hn. cbn [andb]. destruct (within 1 10 (points s)) eqn:E; cbn [negb].
  - split; [done|]. exists (JStr s). split; [by left|]. intros data. cbn. unfold loose_asset, text_with, sized, upper_text.
    by rewrite E, Hs.
  - intros data. cbn. unfold loose_asset, text_with, sized. by rewrite E.
Qed.

(** ** The research requests *)

Variable now : Z.
Abbreviation schema_of := (ResearchRoutes.schema_of lax_int lax_float lax_bool lax_date nan_in_bounds strip_other upper_other now).

#[local] Ltac settled_tac :=
  first
    [ apply settled_keep | apply settled_any_text | apply settled_int | apply settled_bool | apply settled_assets
    | apply settled_ids | apply settled_any_texts | apply settled_asset
    | apply settled_nullable; settled_tac ].
#[local] Ltac plain_tac :=
  first
    [ apply plain_any_text | apply plain_int | apply plain_bool | apply plain_texts | apply plain_any_texts
    | apply plain_nullable; plain_tac ].
#[local] Ltac default_tac :=
  first
    [ reflexivity
    | unfold int_in, int_from, int_by; rewrite int_kept; reflexivity
    | unfold bool_of; rewrite bool_kept; reflexivity ].
#[local] Ltac field_tac :=
  first
    [ apply loose_comes_back; vm_compute; reflexivity
    | apply req_comes_back; [settled_tac | plain_tac | reflexivity]
    | apply opt_comes_back; [settled_tac | plain_tac | default_tac | reflexivity | reflexivity]
    | eapply float_comes_back;
      [ vm_compute; reflexivity | vm_compute; reflexivity | first [apply float_kept | apply float_of_int]
      | first [left; reflexivity | right; eexists; split; reflexivity] | vm_compute; reflexivity | vm_compute; reflexivity ] ].

(** The research kinds other than the dashboard backtest, whose window is
    checked against another field. *)
Definition independent_kinds : list string :=
  ["advanced_backtest"; "walk_forward"; "event_backtest"; "alpha"; "factor_model"; "correlation"; "optimize"; "regime";
   "neutral_strategy"; "pairs_trading"; "latency_benchmark"; "report"].

Lemma independent_comes_back kind : kind ∈ independent_kinds →
  ∃ fs, schema_of kind = Some (market_data fs) ∧
    Forall (comes_back kind) (market_data_fields ++ fs) ∧ NoDup (fd_name <$> market_data_fields ++ fs).
Proof.
  unfold independent_kinds. rewrite !elem_of_cons. intros Hk.
  destruct_or! Hk; [subst kind; eexists; split; [reflexivity|]; split;
    [repeat (constructor; [field_tac|]); constructor | by apply (bool_decide_unpack _)]..|].
  by apply elem_of_nil in Hk.
Qed.

(** What is in a request that [model] accepted. *)
Lemma model_validate_origin fs body req : model_validate (model fs) body = Some req →
  Forall2 (λ f kv, kv.1 = fd_name f ∧ origin f kv.2) fs req.
Proof.
  destruct body; try done. cbn. destruct (validate_fields fs l []) as [out|] eqn:E; intros [= <-].
  by apply validate_fields_origin in E as (new & -> & H).
Qed.

Lemma origin_settled name d c w : settled c → plain c → c d = Some d → no_float d = true →
  origin (opt name d c) w → c w = Some w ∧ no_float w = true.
Proof. intros Hs Hp Hd Hn [[= <-]|(data & v & Hv)]; [done|]. split; [by eapply Hs|by eapply Hp]. Qed.

Lemma origin_int name d lo hi w : int_in lax_int lo hi (JInt d) = Some (JInt d) →
  origin (opt name (JInt d) (int_in lax_int lo hi)) w → ∃ z, w = JInt z ∧ int_in lax_int lo hi (JInt z) = Some (JInt z).
Proof.
  intros Hd Ho. apply (origin_settled name (JInt d) _ w (settled_int _) (plain_int _) Hd eq_refl) in Ho as [Hw _].
  unfold int_in, int_by in Hw. destruct (lax_int w) as [z|] eqn:E; [|done]. destruct (within lo hi z) eqn:Ez; [|done].
  injection Hw as <-. exists z. split; [done|]. unfold int_in, int_by. by rewrite int_kept, Ez.
Qed.

Lemma origin_slow w : origin (slow_window lax_int) w → ∃ z, w = JInt z ∧ int_in lax_int 5 250 (JInt z) = Some (JInt z).
Proof.
  assert (∀ z, within 5 250 z = true → int_in lax_int 5 250 (JInt z) = Some (JInt z)) as Hz.
  { intros z E. unfold int_in, int_by. by rewrite int_kept, E. }
  intros [[= <-]|(data & v & Hv)]; [exists 50; split; [done|]; by apply Hz|].
  change (valid_windows lax_int 5 250 data v = Some w) in Hv. unfold valid_windows in Hv.
  destruct (int_in lax_int 5 250 v) as [[| |z| | | |]|] eqn:E; try done.
  assert (w = JInt z) as -> by (destruct (int_field _ _) as [f|]; [destruct (z <=? f); [done|]|]; by injection Hv).
  exists z. split; [done|]. by eapply settled_int.
Qed.

Lemma no_float_good kind name w : no_float w = true → loose kind = [] → bad_value kind name w = false.
Proof. intros Hw Hl. destruct w; try done. unfold bad_value. by rewrite Hl. Qed.

(** The dashboard backtest's request, once its route compared the windows. *)
Lemma backtest_reread body req : model_validate (BacktestRequest lax_int strip_other upper_other) body = Some req →
  windows_check req = None → stored req = req ∧ existsb (λ kv, bad_value "ma_backtest" kv.1 kv.2) req = false ∧
  model_validate (BacktestRequest lax_int strip_other upper_other) (JObj req) = Some req.
Proof.
  intros H%model_validate_origin Hw. unfold market_data_fields in H. cbn [app] in H.
  apply Forall2_cons_inv_l in H as ([k1 w1] & l1 & [E1 O1] & H & ->).
  apply Forall2_cons_inv_l in H as ([k2 w2] & l2 & [E2 O2] & H & ->).
  apply Forall2_cons_inv_l in H as ([k3 w3] & l3 & [E3 O3] & H & ->).
  apply Forall2_cons_inv_l in H as ([k4 w4] & l4 & [E4 O4] & H & ->).
  apply Forall2_cons_inv_l in H as ([k5 w5] & l5 & [E5 O5] & H & ->). apply Forall2_nil_inv_l in H as ->.
  cbn [fst snd fd_name opt Schemas.req slow_window] in *. subst k1 k2 k3 k4 k5.
  apply origin_settled in O1 as [W1 N1]; [|settled_tac|plain_tac|done|done].
  apply origin_settled in O5 as [W5 N5]; [|settled_tac|plain_tac|done|done].
  destruct O2 as [[=]|(data & v & Hv)]. cbn [fd_check Schemas.req] in Hv.
  pose proof (settled_asset _ _ Hv) as W2. pose proof (plain_any_text _ _ _ Hv) as N2.
  apply origin_int in O3 as (fast & -> & W3); [|unfold int_in, int_by; by rewrite int_kept].
  apply origin_slow in O4 as (slow & -> & W4).
  change ((if slow <=? fast then Some (mkHTTPException 400 "slow_window must be larger than fast_window") else None) = None) in Hw.
  destruct (slow <=? fast) eqn:Hlt; [done|].
  split_and!.
  - unfold stored. cbn [map fst snd]. by rewrite !no_float_finite.
  - cbn [existsb fst snd]. rewrite !no_float_good by done. done.
  - unfold model_validate, BacktestRequest, market_data, market_data_fields. cbn [sc_fields sc_after sc_forbid_extra model app andb].
    rewrite (validate_fields_cons _ _ _ _ w1 w1) by done. rewrite (validate_fields_cons _ _ _ _ w2 w2) by done.
    rewrite (validate_fields_cons _ _ _ _ (JInt fast) (JInt fast)) by done.
    rewrite (validate_fields_cons _ _ _ _ (JInt slow) (JInt slow)); [|done|].
    2:{ cbn [fd_check slow_window]. unfold valid_windows. rewrite W4. 
        change (int_field "fast_window" _) with (Some fast). cbv beta iota. by rewrite Hlt. }
    by rewrite (validate_fields_cons _ _ _ _ w5 w5).
Qed.

(** ** From the route to the task *)

Variable RESEARCH_JOB_MAX_ATTEMPTS : Z.
Variable RESEARCH_MAX_ACTIVE_JOBS_PER_USER : Z.
Abbreviation queue_job := (queue_job now RESEARCH_JOB_MAX_ATTEMPTS RESEARCH_MAX_ACTIVE_JOBS_PER_USER).
Abbreviation research_route := (research_route lax_int lax_float lax_bool lax_date nan_in_bounds strip_other upper_other
  now RESEARCH_JOB_MAX_ATTEMPTS RESEARCH_MAX_ACTIVE_JOBS_PER_USER).

(** The job a request without [same_as] queues is a new one. *)
Definition queued (job : ResearchJob) (user_id kind : string) (params : Data) (id : string) (d : DB) : Prop :=
  jd_jobs d !! id = Some job ∧ rj_id job = id ∧ rj_user_id job = user_id ∧ rj_kind job = kind ∧
  rj_status job = QUEUED ∧ rj_params_json job = stored params.

Lemma queue_job_new d user_id kind params id d' job :
  queue_job d user_id kind params [] id = (d', Ret job) → queued job user_id kind params id d'.
Proof.
  unfold DatasetRegistry.queue_job, enqueue. destruct (KINDS !! kind); [|done].
  destruct (_ <=? _); [done|]. intros [= <- <-]. unfold queued. cbn. by rewrite lookup_insert_eq.
Qed.

(** The research routes, each with its own check of the request. *)
Definition research_routes : list (string * (Data → option HTTPException)) :=
  ("ma_backtest", windows_check) :: ("pairs_trading", pair_check) ::
  ((λ kind, (kind, no_check)) <$>
     ["advanced_backtest"; "walk_forward"; "event_backtest"; "alpha"; "factor_model"; "correlation"; "optimize"; "regime";
      "neutral_strategy"; "latency_benchmark"; "report"]).

Lemma model_validate_model fs data : model_validate (model fs) (JObj data) = validate_fields fs data [].
Proof. cbn. by destruct (validate_fields fs data []). Qed.

Lemma research_route_queued kind check d user_id body id d' job :
  research_route kind check d user_id body id = (d', Ret job) →
  ∃ s req, schema_of kind = Some s ∧ model_validate s body = Some req ∧ check req = None ∧
    queued job user_id kind req id d'.
Proof.
  unfold ResearchRoutes.research_route. destruct (schema_of kind) as [s|] eqn:Es; [|done].
  destruct (model_validate s body) as [req|] eqn:Er; [|done]. destruct (check req) eqn:Ec; [done|].
  unfold queue_research. destruct (List.find _ _); [done|]. intros Hq%queue_job_new. by exists s, req.
Qed.

(** C15: A research request the API accepted is accepted again by the task that
    runs it. The job stored for an accepted request holds exactly its values,
    and the task's own validation of them gives the same values back (an int
    default may come back as a float); it fails only for a request that
    contains a NaN, which is stored as null, or a ticker that stripping and
    upper-casing left empty or too long, and then it always fails. *)
Theorem accepted_requests_reach_their_task kind check d user_id body id d' job :
  (kind, check) ∈ research_routes → research_route kind check d user_id body id = (d', Ret job) →
  ∃ s req, schema_of kind = Some s ∧ model_validate s body = Some req ∧ queued job user_id kind req id d' ∧
    match model_validate s (JObj (rj_params_json job)) with
    | Some again => existsb (λ kv, bad_value kind kv.1 kv.2) req = false ∧ Forall2 same_field req again
    | None => existsb (λ kv, bad_value kind kv.1 kv.2) req = true
    end.
Proof.
  intros Hk (s & req & Hs & Hr & Hc & Hq)%research_route_queued. exists s, req. split_and!; [done..|].
  destruct Hq as (_ & _ & _ & _ & _ & ->). unfold research_routes in Hk. apply elem_of_cons in Hk as [[= -> ->]|Hk].
  - assert (schema_of "ma_backtest" = Some (BacktestRequest lax_int strip_other upper_other)) as Es by reflexivity.
    rewrite Es in Hs. apply (inj Some) in Hs as <-. destruct (backtest_reread _ _ Hr Hc) as (-> & Hb & ->). split; [done|].
    clear. induction req as [|kv req IH]; constructor; [|done]. split; [done|by left].
  - assert (kind ∈ independent_kinds) as (fs & Hfs & Hback & Hnd)%independent_comes_back.
    { unfold independent_kinds. rewrite !fmap_cons, !elem_of_cons in Hk. cbn [fst] in Hk.
      destruct_or! Hk; [injection Hk as -> ->; by apply (bool_decide_unpack _)..|by apply elem_of_nil in Hk]. }
    rewrite Hfs in Hs. apply (inj Some) in Hs as <-. unfold market_data. rewrite model_validate_model.
    apply fields_reread; [done|by eapply model_validate_origin|].
    intros f w Hf Ho. by apply (proj1 (Forall_forall _ _) Hback f Hf w Ho).
Qed.

(** ** Statistical tests *)

Definition finite_value (v : json) : Prop := ∃ x, v = JFloat x ∧ nfinite (F:=b64) x = true.

Lemma float_items_finite l rs : all_finite l = Some true → float_items l = Some rs →
  Forall finite_value rs ∧ length rs = length l.
Proof.
  revert rs. induction l as [|v l IH]; intros rs; cbn [all_finite float_items]; [by intros _ [= <-]|].
  unfold finite_number, float_item. destruct (number v) as [n|]; [|done]. cbn [mbind option_bind].
  destruct (as_float n) as [x|]; [|done]. cbn [fmap option_fmap option_map]. destruct (nfinite x) eqn:Ex; [|done].
  intros Ha. destruct (float_items l) as [xs|]; [|done]. intros [= <-]. destruct (IH _ Ha eq_refl) as [Hf Hl].
  split; [|cbn; by rewrite Hl]. constructor; [by exists x|done].
Qed.

Lemma finite_values_kept rs : Forall finite_value rs →
  finite_json (JArr rs) = JArr rs ∧ all_of_list (finite_float lax_float) rs = Some rs.
Proof.
  induction 1 as [|v rs (x & -> & Hx) _ [IH1 IH2]]; [done|]. split.
  - cbn [finite_json map] in IH1 |- *. apply (f_equal (λ v, match v with JArr l => l | _ => [] end)) in IH1. cbn [finite_json] in IH1. by rewrite Hx, IH1.
  - cbn [all_of_list]. unfold finite_float at 1, float_by. by rewrite float_kept, Hx, IH2.
Qed.

(** The fields of a validated request that the route reads. *)
Lemma stat_request_fields body req : model_validate (StatTestRequest lax_int lax_float) body = Some req →
  1 ≤ int_or_0 "n_strategies_tested" req ≤ 10000 ∧ 100 ≤ int_or_0 "n_bootstrap" req ≤ 100000 ∧
  100 ≤ int_or_0 "n_permutations" req ≤ 100000.
Proof.
  intros H%model_validate_origin.
  apply Forall2_cons_inv_l in H as ([k1 w1] & l1 & [E1 O1] & H & ->).
  apply Forall2_cons_inv_l in H as ([k2 w2] & l2 & [E2 O2] & H & ->).
  apply Forall2_cons_inv_l in H as ([k3 w3] & l3 & [E3 O3] & H & ->).
  apply Forall2_cons_inv_l in H as ([k4 w4] & l4 & [E4 O4] & H & ->).
  apply Forall2_cons_inv_l in H as ([k5 w5] & l5 & [E5 O5] & H & ->).
  apply Forall2_cons_inv_l in H as ([k6 w6] & l6 & [E6 O6] & H & ->). apply Forall2_nil_inv_l in H as ->.
  cbn [fst snd fd_name opt] in *. subst k1 k2 k3 k4 k5 k6.
  assert (∀ lo hi z, int_in lax_int lo hi (JInt z) = Some (JInt z) → lo ≤ z ≤ hi) as Hin.
  { intros lo hi z. unfold int_in, int_by. rewrite int_kept. destruct (within lo hi z) eqn:E; [|done].
    apply andb_prop in E as [?%Z.leb_le ?%Z.leb_le]. done. }
  apply origin_int in O3 as (a & -> & Ha%Hin); [|unfold int_in, int_by; by rewrite int_kept].
  apply origin_int in O5 as (b & -> & Hb%Hin); [|unfold int_in, int_by; by rewrite int_kept].
  apply origin_int in O6 as (c & -> & Hc%Hin); [|unfold int_in, int_by; by rewrite int_kept].
  done.
Qed.

Definition stat_params (rs : list json) (declared server : Z) (family : json) (req : Data) : Data :=
  [("returns", JArr rs); ("n_trials", JInt (Z.max declared server)); ("declared", JInt declared);
   ("server_counted", JInt server); ("trial_family", family); ("n_bootstrap", JInt (int_or_0 "n_bootstrap" req));
   ("n_permutations", JInt (int_or_0 "n_permutations" req))].

Lemma stat_params_inv d user_id req params : stat_test_params d user_id req = Ret params →
  ∃ rs family server, counted d user_id family = Ret server ∧ Forall finite_value rs ∧
    5 ≤ Z.of_nat (length rs) ≤ STAT_TEST_MAX_RETURNS ∧
    params = stat_params rs (int_or_0 "n_strategies_tested" req) server family req.
Proof.
  unfold stat_test_params. intros ([returns family] & _ & H)%obind_Ret. cbn [fst snd] in H.
  destruct returns as [l|]; [|done]. cbv zeta in H. destruct (_ <? 5) eqn:E5; [done|]. destruct (STAT_TEST_MAX_RETURNS <? _) eqn:Em; [done|].
  apply obind_Ret in H as (fin & Hfin & H). destruct fin; [|done]. cbn [negb] in H.
  apply obind_Ret in H as (server & Hc & H). apply obind_Ret in H as (rs & Hrs & H). injection H as <-.
  exists rs, family, server. unfold or_crash in Hfin, Hrs. destruct (all_finite l) as [b|] eqn:Ea; [|done]. injection Hfin as ->.
  destruct (float_items l) as [rs'|] eqn:Ef; [|done]. injection Hrs as ->.
  destruct (float_items_finite _ _ Ea Ef) as [Hf Hl]. rewrite Hl. apply Z.ltb_ge in E5, Em. done.
Qed.

Lemma counted_at_least_0 d user_id family n : counted d user_id family = Ret n → 0 ≤ n.
Proof.
  unfold counted. destruct (truthy family); cbn [negb]; [|by intros [= <-]].
  destruct family; try done. intros [= <-]. unfold trial_count. lia.
Qed.

Lemma stat_job_accepts rs declared server family req :
  Forall finite_value rs → 5 ≤ Z.of_nat (length rs) ≤ STAT_TEST_MAX_RETURNS → 1 ≤ declared → 0 ≤ server →
  100 ≤ int_or_0 "n_bootstrap" req ≤ 100000 → 100 ≤ int_or_0 "n_permutations" req ≤ 100000 →
  (family = JNull ∨ ∃ f, family = JStr f) →
  let params := stat_params rs declared server family req in
  stored params = params ∧ model_validate (StatTestJob lax_int lax_float) (JObj params) = Some params.
Proof.
  intros Hr Hl Hd Hs Hb Hp Hf. destruct (finite_values_kept rs Hr) as [H1 H2]. cbv zeta. unfold stat_params. split.
  { unfold stored. cbn [map fst snd]. rewrite H1. by destruct Hf as [-> |(f & ->)]. }
  assert (∀ p z, p z = true → int_by lax_int p (JInt z) = Some (JInt z)) as Hi by by intros p z E; unfold int_by; rewrite int_kept, E.
  unfold StatTestJob. rewrite model_validate_model.
  rewrite (validate_fields_cons _ _ _ _ (JArr rs) (JArr rs)); [|done|].
  2:{ cbn [fd_check Schemas.req]. unfold list_of. rewrite H2. unfold within.
      by rewrite (proj2 (Z.leb_le _ _)), (proj2 (Z.leb_le _ _)) by lia. }
  do 3 (erewrite validate_fields_cons; [|done|apply Hi; apply Z.leb_le; lia]).
  rewrite (validate_fields_cons _ _ _ _ family family); [|done|by destruct Hf as [-> |(f & ->)]].
  do 2 (erewrite validate_fields_cons; [|done|apply Hi; unfold within; apply andb_true_intro; split; apply Z.leb_le; lia]).
  done.
Qed.

(** A statistical test discounts at least every trial the server ran. The job
    a request queues holds between 5 and 10,000 finite returns, its trial
    count is at least the declared one and at least the number of trials
    recorded for the user and the family, and the task accepts it unless the
    stored backtest named a family that is not a text. *)
Theorem stat_tests_count_every_trial d user_id body id d' job :
  statistical_tests lax_int lax_float now RESEARCH_JOB_MAX_ATTEMPTS RESEARCH_MAX_ACTIVE_JOBS_PER_USER
    d user_id body id = (d', Ret job) →
  ∃ req rs declared server family, model_validate (StatTestRequest lax_int lax_float) body = Some req ∧
    int_field "n_strategies_tested" req = Some declared ∧
    queued job user_id "stat_test" (stat_params rs declared server family req) id d' ∧
    Forall finite_value rs ∧ 5 ≤ Z.of_nat (length rs) ≤ STAT_TEST_MAX_RETURNS ∧
    1 ≤ declared ≤ Z.max declared server ∧
    (∀ f, family = JStr f → f ≠ EmptyString → trial_count d user_id f ≤ Z.max declared server) ∧
    ((family = JNull ∨ ∃ f, family = JStr f) →
       model_validate (StatTestJob lax_int lax_float) (JObj (rj_params_json job)) = Some (rj_params_json job)).
Proof.
  unfold statistical_tests. destruct (model_validate _ body) as [req|] eqn:Er; [|done].
  destruct (stat_test_params d user_id req) as [params|] eqn:Ep; [|done]. intros Hq%queue_job_new.
  apply stat_params_inv in Ep as (rs & family & server & Hc & Hf & Hl & ->).
  destruct (stat_request_fields _ _ Er) as (Hd & Hb & Hp). pose proof (counted_at_least_0 _ _ _ _ Hc) as Hs.
  exists req, rs, (int_or_0 "n_strategies_tested" req), server, family. split_and!; try done; try lia.
  - unfold int_or_0 in *. destruct (int_field _ req); [done|]. cbn in Hd. lia.
  - intros f -> Hne. unfold counted in Hc. cbn [truthy] in Hc. rewrite (proj2 (String.eqb_neq _ _) Hne) in Hc.
    injection Hc as <-. lia.
  - intros Hfam. destruct Hq as (_ & _ & _ & _ & _ & ->).
    destruct (stat_job_accepts rs (int_or_0 "n_strategies_tested" req) server family req) as [-> H]; try done; lia.
Qed.
End facts.

(** ** Witnesses *)

Definition sample_int (v : json) : option Z := match v with JInt z => Some z | _ => None end.
Definition sample_float (v : json) : option b64 := match v with JFloat x => Some x | JInt z => Some (nof_Z z) | _ => None end.
Definition sample_bool (v : json) : option bool := match v with JBool b => Some b | _ => None end.
Definition sample_date (v : json) : option Z := None.
Definition no_jobs : DB := mkJobsDB ∅ ∅ ∅ ∅ (mkRegistry ∅ ∅) [].
Definition sample_body : json :=
  JObj [("assets", JArr [JStr " msft "; JStr "AAPL"]); ("max_leverage", JFloat (thousandths 2500)); ("fast_window", JInt 60)].
Abbreviation sample_route := (research_route sample_int sample_float sample_bool sample_date true id id 0 3 5).

Lemma sample_su s : is_ascii s = false → upper id (strip id (upper id (strip id s))) = upper id (strip id s).
Proof. intros E. unfold upper, strip, id. by rewrite !E. Qed.

Lemma accepted_requests_reach_their_task_witness :
  ∃ d' job, sample_route "advanced_backtest" no_check no_jobs "u1" sample_body "j1" = (d', Ret job) ∧
  ∃ s req, ResearchRoutes.schema_of sample_int sample_float sample_bool sample_date true id id 0 "advanced_backtest" = Some s ∧
    model_validate s sample_body = Some req ∧ queued job "u1" "advanced_backtest" req "j1" d' ∧
    match model_validate s (JObj (rj_params_json job)) with
    | Some again => existsb (λ kv, bad_value "advanced_backtest" kv.1 kv.2) req = false ∧ Forall2 same_field req again
    | None => existsb (λ kv, bad_value "advanced_backtest" kv.1 kv.2) req = true
    end.
Proof.
  destruct (sample_route "advanced_backtest" no_check no_jobs "u1" sample_body "j1") as [d' [job|e]] eqn:E;
    [|exfalso; apply (f_equal (λ r, match r.2 with Ret _ => true | Raise _ => false end)) in E; revert E; vm_compute; discriminate].
  exists d', job. split; [done|].
  apply (accepted_requests_reach_their_task sample_int sample_float sample_bool sample_date true id id
           (λ z, eq_refl) (λ x, eq_refl) eq_refl eq_refl (λ b, eq_refl) sample_su 0 3 5
           "advanced_backtest" no_check no_jobs "u1" sample_body "j1" d' job); [|done].
  unfold research_routes. right. right. left.
Defined.

Definition sample_returns : json := JObj [("returns", JArr (replicate 5 (JFloat (thousandths 10)))); ("n_strategies_tested", JInt 7)].
Definition sample_tests := statistical_tests sample_int sample_float 0 3 5 no_jobs "u1" sample_returns "j1".

Lemma stat_tests_count_every_trial_witness :
  ∃ d' job, sample_tests = (d', Ret job) ∧
  ∃ req rs declared server family, model_validate (StatTestRequest sample_int sample_float) sample_returns = Some req ∧
    int_field "n_strategies_tested" req = Some declared ∧
    queued job "u1" "stat_test" (stat_params rs declared server family req) "j1" d' ∧
    Forall finite_value rs ∧ 5 ≤ Z.of_nat (length rs) ≤ STAT_TEST_MAX_RETURNS ∧
    1 ≤ declared ≤ Z.max declared server ∧
    (∀ f, family = JStr f → f ≠ EmptyString → trial_count no_jobs "u1" f ≤ Z.max declared server) ∧
    ((family = JNull ∨ ∃ f, family = JStr f) →
       model_validate (StatTestJob sample_int sample_float) (JObj (rj_params_json job)) = Some (rj_params_json job)).
Proof.
  destruct sample_tests as [d' [job|e]] eqn:E;
    [|exfalso; apply (f_equal (λ r, match r.2 with Ret _ => true | Raise _ => false end)) in E; revert E; vm_compute; discriminate].
  exists d', job. split; [done|].
  exact (stat_tests_count_every_trial sample_int sample_float (λ z, eq_refl) (λ x, eq_refl) 0 3 5 no_jobs "u1" sample_returns "j1" d' job E).
Defined.

(** ** Gaps *)

(** The common-password check never fires: the listed passwords are all
    shorter than the fourteen characters the field requires. *)
Lemma len_lower s : len (str_lower s) = len s.
Proof. unfold len. f_equal. induction s as [|c s IH]; [done|]. cbn. by rewrite IH. Qed.

Lemma common_passwords_are_short s lower_other : is_ascii s = true → 14 ≤ points s → member (lower lower_other s) _COMMON_PASSWORDS = false.
Proof.
  intros Ha Hp. rewrite points_ascii in Hp by done. unfold lower. rewrite Ha.
  assert (forallb (λ p, len p <? 14) _COMMON_PASSWORDS = true) as Hall by (vm_compute; reflexivity).
  apply not_true_iff_false. unfold member. rewrite existsb_exists. intros (p & Hin & <-%String.eqb_eq).
  rewrite forallb_forall in Hall. specialize (Hall _ Hin). apply Z.ltb_lt in Hall. rewrite <-len_lower in Hp. lia.
Qed.

(** A strategy may be stored with its slow window below the fast one: the
    default is not compared. *)
Example strategy_default_not_compared :
  model_validate (StrategyRequest sample_int id id)
    (JObj [("name", JStr "abc"); ("asset", JStr "AAPL"); ("fast_window", JInt 60)])
  = Some [("name", JStr "abc"); ("asset", JStr "AAPL"); ("fast_window", JInt 60); ("slow_window", JInt 50)] ∧
  model_validate (StrategyRequest sample_int id id)
    (JObj [("name", JStr "abc"); ("asset", JStr "AAPL"); ("fast_window", JInt 60); ("slow_window", JInt 50)]) = None.
Proof. split; reflexivity. Qed.

(** A blank ticker passes the bounds before it is stripped, not after. *)
Example blank_ticker_refused_later :
  model_validate (RegimeDetectionRequest sample_int id id) (JObj [("asset", JStr " ")])
  = Some [("dataset_ids", JNull); ("asset", JStr ""); ("period", JStr "3y"); ("hmm_iters", JInt 100)] ∧
  model_validate (RegimeDetectionRequest sample_int id id)
    (JObj [("dataset_ids", JNull); ("asset", JStr ""); ("period", JStr "3y"); ("hmm_iters", JInt 100)]) = None.
Proof. split; reflexivity. Qed.

(** Registration stores the address in lower case; login looks up the address
    as it was typed. *)
Example login_address_keeps_case :
  email_of Some (email_not_disposable id id) (JStr "Ann@example.com") = Some (JStr "ann@example.com") ∧
  email_of Some Some (JStr "Ann@example.com") = Some (JStr "Ann@example.com").
Proof. split; vm_compute; reflexivity. Qed.
