(* ===== verification/StrategySignals.v ===== *)
(** backend/services/strategy_signals.py: the signal of each built-in strategy
    at every bar, and the timing contract the backtesting engines rely on: the
    signal at a bar is computed from the closes up to that bar. Windows and
    lookbacks are positive, as every request schema requires. *)

From S2P Require Import Prelude Numeric.
#[local] Open Scope nat_scope.

(** [x[a:b]] with [0 <= a] and [0 <= b]. *)
Definition slice {A} (a b : nat) (x : list A) : list A := take (b - a) (drop a x).

Lemma slice_take {A} a b n (x : list A) : b ≤ n → slice a b (take n x) = slice a b x.
Proof. intros Hb. unfold slice. rewrite skipn_firstn_comm, take_take. f_equal. lia. Qed.

(** ** Configuration *)

Definition MIN_DECISION_DELAY_BARS : Z := 1.
Definition MA_CROSSOVER : string := "ma_crossover".
Definition SBA_SIGNAL : string := "sba_signal".
Definition MOMENTUM : string := "momentum".
Definition MEAN_REVERSION : string := "mean_reversion".

Record StrategyConfig (F : Type) := mkStrategyConfig {
  strategy_type : string;
  fast_window : nat;
  slow_window : nat;
  sba_buy_threshold : F;
  sba_sell_threshold : F;
  momentum_lookback : nat;
  momentum_entry : F;
  momentum_exit : F;
  mr_lookback : nat;
  mr_entry_zscore : F;
  mr_exit_zscore : F
}.
Arguments mkStrategyConfig {F}. Arguments strategy_type {F}. Arguments fast_window {F}. Arguments slow_window {F}.
Arguments sba_buy_threshold {F}. Arguments sba_sell_threshold {F}. Arguments momentum_lookback {F}.
Arguments momentum_entry {F}. Arguments momentum_exit {F}. Arguments mr_lookback {F}. Arguments mr_entry_zscore {F}.
Arguments mr_exit_zscore {F}.
#[global] Instance eta_StrategyConfig F : Eta (StrategyConfig F) := λ s,
  mkStrategyConfig (strategy_type s) (fast_window s) (slow_window s) (sba_buy_threshold s) (sba_sell_threshold s)
    (momentum_lookback s) (momentum_entry s) (momentum_exit s) (mr_lookback s) (mr_entry_zscore s) (mr_exit_zscore s).

Section signals.
Context {F : Type} `{Num F}.
(** NumPy's mean, standard deviation with [ddof] and hyperbolic tangent. *)
Variable np_mean : list F → F.
Variable np_std : nat → list F → F.
Variable np_tanh : F → F.

(** The defaults of the dataclass, with the windows a request gives. *)
Definition strategy_config (kind : string) (fast slow : nat) : StrategyConfig F :=
  mkStrategyConfig kind fast slow (nof_ratio 15 100) (nof_ratio (-15) 100) 20 (nof_ratio 5 100) (nof_ratio (-2) 100)
    20 (nof_Z (-2)) n0.

Definition SBA_MOMENTUM_LOOKBACK : nat := 20.

Definition warmup_bars (s : StrategyConfig F) : nat :=
  if String.eqb (strategy_type s) MOMENTUM then momentum_lookback s + 1
  else if String.eqb (strategy_type s) MEAN_REVERSION then mr_lookback s + 1
  else if String.eqb (strategy_type s) SBA_SIGNAL then SBA_MOMENTUM_LOOKBACK + 1
  else if String.eqb (strategy_type s) MA_CROSSOVER then max (fast_window s) (slow_window s) + 1
  else 1.

(** ** The series

    An array that starts with zeros and is then filled from index [first]. *)
Definition filled (first n : nat) (f : nat → F) : list F := replicate first n0 ++ (f <$> seq first (n - first)).

(** [close[t]] *)
Definition at_bar (close : list F) (t : nat) : F := default n0 (close !! t).

(** [_rolling_mean]; [None] is NaN. *)
Definition rolling_mean (x : list F) (window : nat) : list (option F) :=
  (λ t, if (1 <=? window) && (window <=? t + 1) then Some (np_mean (slice (t + 1 - window) (t + 1) x)) else None)
    <$> seq 0 (length x).

(** Comparisons with a NaN are false. *)
Definition le_nan (x y : option F) : bool := match x, y with Some x, Some y => (x <=.? y) | _, _ => false end.
Definition lt_nan (x y : option F) : bool := match x, y with Some x, Some y => (x <.? y) | _, _ => false end.

Definition crossover (prev_f prev_s cur_f cur_s : option F) : F :=
  if le_nan prev_f prev_s && lt_nan cur_s cur_f then n1
  else if le_nan prev_s prev_f && lt_nan cur_f cur_s then nopp n1
  else n0.

Definition ma_crossover_series (close : list F) (fast slow : nat) : list F :=
  let first := max fast slow in
  if length close <=? first then replicate (length close) n0
  else
    let f := rolling_mean close fast in
    let s := rolling_mean close slow in
    let get (x : list (option F)) t := default None (x !! t) in
    filled first (length close) (λ t, crossover (get f (t - 1)) (get s (t - 1)) (get f t) (get s t)).

(** [np.minimum] and [np.maximum] of values that are not NaN. *)
Definition np_minimum (x y : F) : F := if y <.? x then y else x.
Definition np_maximum (x y : F) : F := if x <.? y then y else x.

Definition momentum_signal (s : StrategyConfig F) (mom : F) : F :=
  if momentum_entry s <.? mom then np_minimum (mom ⊗ nof_Z 5) n1
  else if mom <.? momentum_exit s then np_maximum (mom ⊗ nof_Z 5) (nopp n1)
  else n0.

Definition momentum_series (close : list F) (s : StrategyConfig F) : list F :=
  let lb := momentum_lookback s in
  if length close <=? lb then replicate (length close) n0
  else filled lb (length close) (λ t, momentum_signal s (at_bar close t ⊘ at_bar close (t - lb) ⊖ n1)).

Definition reversion_signal (s : StrategyConfig F) (price mu sigma : F) : F :=
  if sigma <.? nof_ratio 1 1000000000 then n0
  else
    let z := (price ⊖ mu) ⊘ sigma in
    let strength := np_minimum (nabs z ⊘ nof_Z 3) n1 in
    if z <.? mr_entry_zscore s then strength
    else if mr_exit_zscore s <.? z then nopp strength
    else n0.

Definition mean_reversion_series (close : list F) (s : StrategyConfig F) : list F :=
  let lb := mr_lookback s in
  if (lb <? 2) || (length close <=? lb) then replicate (length close) n0
  else
    filled lb (length close) (λ t,
      let window := slice (t + 1 - lb) (t + 1) close in
      reversion_signal s (at_bar close t) (np_mean window) (np_std 1 window)).

(** signal_engine.py's [_momentum], which is what [extract_features] answers
    under ["momentum"]. *)
Definition engine_momentum (close : list F) (lookback : nat) : F :=
  if length close <=? lookback then n0
  else at_bar close (length close - 1) ⊘ at_bar close (length close - 1 - lookback) ⊖ n1.

Definition sba_signal (s : StrategyConfig F) (close : list F) : F :=
  let spin := np_tanh (engine_momentum close SBA_MOMENTUM_LOOKBACK ⊗ nof_Z 5) in
  if (sba_buy_threshold s <.? spin) || (spin <.? sba_sell_threshold s) then spin else n0.

Definition sba_series (close : list F) (s : StrategyConfig F) (start : nat) : list F :=
  let first := max start SBA_MOMENTUM_LOOKBACK in
  if length close <=? first then replicate (length close) n0
  else filled first (length close) (λ t, sba_signal s (take (t + 1) close)).

Definition signal_series (close : list F) (s : StrategyConfig F) (start : nat) : list F :=
  let kind := strategy_type s in
  if String.eqb kind MA_CROSSOVER then ma_crossover_series close (fast_window s) (slow_window s)
  else if String.eqb kind MOMENTUM then momentum_series close s
  else if String.eqb kind MEAN_REVERSION then mean_reversion_series close s
  else if String.eqb kind SBA_SIGNAL then sba_series close s start
  else replicate (length close) n0.

Definition latest_signal (close : list F) (s : StrategyConfig F) : F :=
  match close with
  | [] => n0
  | _ => default n0 (last (signal_series close s (length close - 1)))
  end.

(** ** A series, element by element *)

Lemma length_filled first n f : first ≤ n → length (filled first n f) = n.
Proof. intros Hn. unfold filled. rewrite length_app, length_replicate, length_fmap, length_seq. lia. Qed.

Lemma filled_at first n f t :
  first ≤ n → t < n → filled first n f !! t = Some (if first <=? t then f t else n0).
Proof.
  intros Hn Ht. unfold filled. destruct (Nat.leb_spec first t).
  - rewrite lookup_app_r by (rewrite length_replicate; lia). rewrite length_replicate, list_lookup_fmap.
    rewrite lookup_seq_lt by lia. cbn. do 2 f_equal. lia.
  - rewrite lookup_app_l by (rewrite length_replicate; lia). by rewrite lookup_replicate_2.
Qed.

(** The signal at bar [t] as a function of the closes. *)
Definition signal_at (s : StrategyConfig F) (start : nat) (close : list F) (t : nat) : F :=
  let kind := strategy_type s in
  if String.eqb kind MA_CROSSOVER then
    let first := max (fast_window s) (slow_window s) in
    let mean window u := if (1 <=? window) && (window <=? u + 1) then Some (np_mean (slice (u + 1 - window) (u + 1) close)) else None in
    if first <=? t then
      crossover (mean (fast_window s) (t - 1)) (mean (slow_window s) (t - 1)) (mean (fast_window s) t) (mean (slow_window s) t)
    else n0
  else if String.eqb kind MOMENTUM then
    if momentum_lookback s <=? t
    then momentum_signal s (at_bar close t ⊘ at_bar close (t - momentum_lookback s) ⊖ n1) else n0
  else if String.eqb kind MEAN_REVERSION then
    if (2 <=? mr_lookback s) && (mr_lookback s <=? t) then
      let window := slice (t + 1 - mr_lookback s) (t + 1) close in
      reversion_signal s (at_bar close t) (np_mean window) (np_std 1 window)
    else n0
  else if String.eqb kind SBA_SIGNAL then
    if max start SBA_MOMENTUM_LOOKBACK <=? t then sba_signal s (take (t + 1) close) else n0
  else n0.

Lemma rolling_mean_at x window t :
  t < length x →
  default None (rolling_mean x window !! t) =
    if (1 <=? window) && (window <=? t + 1) then Some (np_mean (slice (t + 1 - window) (t + 1) x)) else None.
Proof. intros Ht. unfold rolling_mean. rewrite list_lookup_fmap, lookup_seq_lt by lia. done. Qed.

(** An array that is all zeros, or filled from [first]. *)
Lemma zeros_or_filled_at (n first t : nat) f :
  t < n → (if n <=? first then replicate n n0 else filled first n f) !! t = Some (if first <=? t then f t else n0).
Proof.
  intros Ht. destruct (Nat.leb_spec n first).
  - rewrite lookup_replicate_2 by done. destruct (Nat.leb_spec first t); [lia|done].
  - apply filled_at; lia.
Qed.

Lemma signal_series_at s start close t :
  t < length close → signal_series close s start !! t = Some (signal_at s start close t).
Proof.
  intros Ht. unfold signal_series, signal_at. cbn zeta.
  destruct (String.eqb _ MA_CROSSOVER).
  { unfold ma_crossover_series. cbn zeta. rewrite zeros_or_filled_at by done.
    destruct (Nat.leb_spec (max (fast_window s) (slow_window s)) t); [|done].
    by rewrite !rolling_mean_at by lia. }
  destruct (String.eqb _ MOMENTUM); [by apply zeros_or_filled_at|].
  destruct (String.eqb _ MEAN_REVERSION).
  { unfold mean_reversion_series. cbn zeta. destruct (Nat.ltb_spec (mr_lookback s) 2).
    - cbn [orb]. rewrite lookup_replicate_2 by done. by destruct (Nat.leb_spec 2 (mr_lookback s)); [lia|].
    - cbn [orb]. rewrite zeros_or_filled_at by done. by destruct (Nat.leb_spec 2 (mr_lookback s)); [|lia]. }
  destruct (String.eqb _ SBA_SIGNAL); [by apply zeros_or_filled_at|].
  by apply lookup_replicate_2.
Qed.

Lemma length_signal_series s start close : length (signal_series close s start) = length close.
Proof.
  unfold signal_series, ma_crossover_series, momentum_series, mean_reversion_series, sba_series. cbn zeta.
  repeat match goal with
  | |- context [if String.eqb ?a ?b then _ else _] => destruct (String.eqb a b)
  | |- context [if ?a <=? ?b then _ else _] => destruct (Nat.leb_spec a b)
  | |- context [if _ || (?a <=? ?b) then _ else _] => destruct (Nat.leb_spec a b); rewrite ?orb_true_r, ?orb_false_r
  | |- context [if ?a <? ?b then _ else _] => destruct (Nat.ltb_spec a b)
  end; rewrite ?length_replicate, ?length_filled by lia; done.
Qed.

(** ** The timing contract *)

Lemma at_bar_take close n t : t < n → at_bar (take n close) t = at_bar close t.
Proof. intros Ht. unfold at_bar. by rewrite lookup_take_lt by done. Qed.

Lemma signal_at_take s start close n t : t < n → signal_at s start (take n close) t = signal_at s start close t.
Proof.
  intros Ht. unfold signal_at. cbn zeta.
  rewrite !at_bar_take by lia. rewrite !slice_take by lia. by rewrite take_take, Nat.min_l by lia.
Qed.

Lemma signal_series_take s start close n :
  signal_series (take n close) s start = take n (signal_series close s start).
Proof.
  apply list_eq. intros t. destruct (Nat.lt_ge_cases t (length (take n close))) as [Ht|Ht].
  - pose proof Ht as Ht'. rewrite length_take in Ht'.
    rewrite signal_series_at by done. rewrite lookup_take_lt by lia. rewrite signal_series_at by lia.
    f_equal. apply signal_at_take. lia.
  - rewrite !lookup_ge_None_2; [done| |].
    + rewrite length_take, length_signal_series. by rewrite length_take in Ht.
    + by rewrite length_signal_series.
Qed.

(** No signal before the warm-up is over. *)
Lemma warmup_silent s start close t : t + 1 < warmup_bars s → signal_at s start close t = n0.
Proof.
  unfold warmup_bars, signal_at. cbn zeta. intros Ht.
  destruct (String.eqb _ MA_CROSSOVER) eqn:E1.
  { apply String.eqb_eq in E1. rewrite E1 in Ht. cbn in Ht. destruct (Nat.leb_spec (max (fast_window s) (slow_window s)) t); [lia|done]. }
  destruct (String.eqb _ MOMENTUM); [by destruct (Nat.leb_spec (momentum_lookback s) t); [lia|]|].
  destruct (String.eqb _ MEAN_REVERSION); [destruct (Nat.leb_spec (mr_lookback s) t); [lia|by rewrite andb_false_r]|].
  destruct (String.eqb _ SBA_SIGNAL); [destruct (Nat.leb_spec (max start SBA_MOMENTUM_LOOKBACK) t); [lia|done]|].
  done.
Qed.

(** The timing contract. For every strategy and any closes (any
    arithmetic, binary64 included): the signal at each bar is the same whatever
    closes follow it, it is what [latest_signal] answers on the closes up to
    that bar, and it is zero until [warmup_bars] closes are there. *)
Theorem signals_read_only_the_past s start close future t :
  t < length close → start ≤ t →
  signal_series (close ++ future) s start !! t = signal_series close s start !! t ∧
  signal_series close s start !! t = Some (latest_signal (take (t + 1) close) s) ∧
  (t + 1 < warmup_bars s → signal_series close s start !! t = Some n0).
Proof.
  intros Ht Hs. split_and!.
  - rewrite !signal_series_at by (rewrite ?length_app; lia). f_equal.
    rewrite <- (take_app_length close future) at 2. symmetry. by apply signal_at_take.
  - rewrite signal_series_at by done. unfold latest_signal.
    assert (length (take (t + 1) close) = t + 1) as Hl by (rewrite length_take; lia).
    destruct (take (t + 1) close) as [|x l] eqn:E; [cbn in Hl; lia|]. rewrite <- E in *.
    rewrite last_lookup, length_signal_series, Hl. replace (pred (t + 1)) with t by lia.
    rewrite signal_series_at by lia. cbn. f_equal. rewrite signal_at_take by lia.
    unfold signal_at. cbn zeta. replace (t + 1 - 1) with t by lia.
    destruct (Nat.leb_spec (max start SBA_MOMENTUM_LOOKBACK) t), (Nat.leb_spec (max t SBA_MOMENTUM_LOOKBACK) t); try done; lia.
  - intros Hw. rewrite signal_series_at by done. by rewrite warmup_silent.
Qed.
End signals.

(** Ten closes, the last two a jump and a fall: the crossover fires on the
    jump's bar, with means computed exactly. *)
Definition exact_mean (l : list QArith_base.Q) : QArith_base.Q := nsum l ⊘ nof_Z (Z.of_nat (length l)).
Definition sample_closes : list QArith_base.Q := nof_Z <$> [10; 10; 10; 10; 10; 10; 9; 12; 20; 3]%Z.

Definition sample_signals (closes : list QArith_base.Q) : list QArith_base.Q :=
  signal_series exact_mean (λ _ _, n0) id closes (strategy_config MA_CROSSOVER 2 4) 0.

Lemma signals_read_only_the_past_witness :
  sample_signals (sample_closes ++ [nof_Z 100]) !! 7 = sample_signals sample_closes !! 7 ∧
  sample_signals sample_closes !! 7 = Some n1.
Proof.
  assert (7 < length sample_closes) as H1 by (apply Nat.ltb_lt; reflexivity).
  assert (0 ≤ 7) as H2 by lia.
  pose proof (signals_read_only_the_past exact_mean (λ _ _, n0) id (strategy_config MA_CROSSOVER 2 4) 0 sample_closes [nof_Z 100]
                7 H1 H2) as [H3 _].
  split; [exact H3|]. vm_compute. reflexivity.
Defined.
