(* ===== verification/ExecutionModel.v ===== *)
(** backend/services/execution_model.py: commissions, slippage, spread, borrow
    cost, position sizing, and the execution of one order under all of them. *)

From Stdlib Require Import QArith Qabs Lqa.
From S2P Require Import Prelude Numeric.
#[local] Open Scope Z_scope.

(** ** Parameters *)

Record CommissionModel (F : Type) := mkCommissionModel {
  per_share : F; pct_of_notional : F; min_per_trade : F; max_pct_of_notional : F
}.
Record SlippageModel (F : Type) := mkSlippageModel {
  base_bps : F; volatility_factor : F; volume_participation_limit : F
}.
Record SpreadModel (F : Type) := mkSpreadModel { base_spread_bps : F; vol_multiplier : F }.
Record BorrowCostModel (F : Type) := mkBorrowCostModel {
  general_annual_rate : F; hard_to_borrow_rate : F; hard_to_borrow_tickers : gset string
}.
Inductive SizingMethod := FIXED_FRACTIONAL | VOLATILITY_TARGET | KELLY | EQUAL_WEIGHT.
Record PositionSizer (F : Type) := mkPositionSizer {
  ps_method : SizingMethod; risk_per_trade : F; target_volatility : F; max_position_pct : F; max_leverage : F
}.
Record ExecutionConfig (F : Type) := mkExecutionConfig {
  ec_commission : CommissionModel F;
  ec_slippage : SlippageModel F;
  ec_spread : SpreadModel F;
  ec_borrow : BorrowCostModel F;
  ec_sizer : PositionSizer F;
  execution_delay_bars : Z;
  allow_short_selling : bool;
  cash_reserve_pct : F;
  leverage_limit : F
}.
Record FillResult (F : Type) := mkFillResult {
  filled : bool; fill_price : F; fill_qty : F; commission : F; slippage_cost : F; spread_cost : F; total_cost : F;
  partial : bool; reason : string
}.
Arguments mkCommissionModel {F}. Arguments per_share {F}. Arguments pct_of_notional {F}. Arguments min_per_trade {F}.
Arguments max_pct_of_notional {F}.
Arguments mkSlippageModel {F}. Arguments base_bps {F}. Arguments volatility_factor {F}.
Arguments volume_participation_limit {F}.
Arguments mkSpreadModel {F}. Arguments base_spread_bps {F}. Arguments vol_multiplier {F}.
Arguments mkBorrowCostModel {F}. Arguments general_annual_rate {F}. Arguments hard_to_borrow_rate {F}.
Arguments hard_to_borrow_tickers {F}.
Arguments mkPositionSizer {F}. Arguments ps_method {F}. Arguments risk_per_trade {F}. Arguments target_volatility {F}.
Arguments max_position_pct {F}. Arguments max_leverage {F}.
Arguments mkExecutionConfig {F}. Arguments ec_commission {F}. Arguments ec_slippage {F}. Arguments ec_spread {F}.
Arguments ec_borrow {F}. Arguments ec_sizer {F}. Arguments execution_delay_bars {F}. Arguments allow_short_selling {F}.
Arguments cash_reserve_pct {F}. Arguments leverage_limit {F}.
Arguments mkFillResult {F}. Arguments filled {F}. Arguments fill_price {F}. Arguments fill_qty {F}. Arguments commission {F}.
Arguments slippage_cost {F}. Arguments spread_cost {F}. Arguments total_cost {F}. Arguments partial {F}. Arguments reason {F}.
#[global] Instance eta_ExecutionConfig F : Eta (ExecutionConfig F) := λ c,
  mkExecutionConfig (ec_commission c) (ec_slippage c) (ec_spread c) (ec_borrow c) (ec_sizer c) (execution_delay_bars c)
    (allow_short_selling c) (cash_reserve_pct c) (leverage_limit c).

Section models.
Context {F : Type} `{Num F}.
(** [math.sqrt] *)
Variable sqrt : F → F.

(** ** Costs *)

Definition compute_commission (m : CommissionModel F) (shares price : F) : F :=
  let notional := nabs shares ⊗ price in
  let raw := nmax (min_per_trade m) (nabs shares ⊗ per_share m ⊕ notional ⊗ pct_of_notional m) in
  let cap := notional ⊗ max_pct_of_notional m in
  nmin raw cap.

Definition compute_slippage (m : SlippageModel F) (price shares daily_vol avg_volume : F) : F :=
  let participation :=
    if avg_volume <=.? n0 then n1 else nmin (nabs shares ⊘ avg_volume) (volume_participation_limit m) in
  let slippage_bps := base_bps m ⊕ volatility_factor m ⊗ daily_vol ⊗ nof_Z 10000 ⊗ participation in
  price ⊗ slippage_bps ⊘ nof_Z 10000.

Definition can_fill_fully (m : SlippageModel F) (shares avg_volume : F) : bool :=
  if avg_volume <=.? n0 then false else nabs shares <=.? (avg_volume ⊗ volume_participation_limit m).

(** [np.sign] of a value that is not NaN. *)
Definition np_sign (x : F) : F := if n0 <.? x then n1 else if x <.? n0 then nopp n1 else n0.

Definition partial_fill_qty (m : SlippageModel F) (shares avg_volume : F) : F :=
  let max_qty := avg_volume ⊗ volume_participation_limit m in
  nmin (nabs shares) max_qty ⊗ np_sign shares.

Definition estimate_spread (m : SpreadModel F) (price daily_vol : F) : F :=
  let spread_bps := base_spread_bps m ⊕ vol_multiplier m ⊗ daily_vol ⊗ nof_Z 10000 in
  price ⊗ spread_bps ⊘ nof_Z 20000.

Inductive OrderSide := Buy | Sell.
Definition is_buy (side : OrderSide) : bool := match side with Buy => true | Sell => false end.

Definition adjust_fill_price (m : SpreadModel F) (price daily_vol : F) (side : OrderSide) : F :=
  let hs := estimate_spread m price daily_vol in
  if is_buy side then price ⊕ hs else price ⊖ hs.

Definition daily_cost (m : BorrowCostModel F) (ticker : string) (shares price : F) : F :=
  if n0 <=.? shares then n0
  else
    let rate := if decide (ticker ∈ hard_to_borrow_tickers m) then hard_to_borrow_rate m else general_annual_rate m in
    nabs shares ⊗ price ⊗ rate ⊘ nof_Z 252.

(** ** Sizing *)

Definition kelly_fraction (win_rate avg_win_loss_ratio : F) : F :=
  let p := nmax (nof_ratio 1 100) (nmin (nof_ratio 99 100) win_rate) in
  let b := nmax (nof_ratio 1 100) avg_win_loss_ratio in
  let q := n1 ⊖ p in
  let kelly_f := (p ⊗ b ⊖ q) ⊘ b in
  nmax n0 (nmin kelly_f (nof_ratio 1 2)).

(** [compute_shares], with the win rate and the win/loss ratio no caller gives. *)
Definition compute_shares_with (win_rate avg_win_loss_ratio : F) (z : PositionSizer F) (capital price daily_vol : F)
    (n_assets : Z) : F :=
  if (price <=.? n0) || (capital <=.? n0) then n0
  else
    let shares :=
      match ps_method z with
      | FIXED_FRACTIONAL => capital ⊗ risk_per_trade z ⊘ price
      | VOLATILITY_TARGET =>
          let ann_vol := daily_vol ⊗ sqrt (nof_Z 252) in
          let ann_vol := if ann_vol <.? nof_ratio 1 1000000000 then nof_ratio 2 10 else ann_vol in
          let vol_scalar := target_volatility z ⊘ ann_vol in
          capital ⊗ vol_scalar ⊘ nof_Z (Z.max n_assets 1) ⊘ price
      | KELLY => capital ⊗ kelly_fraction win_rate avg_win_loss_ratio ⊗ nof_ratio 1 2 ⊘ price
      | EQUAL_WEIGHT => capital ⊘ nof_Z (Z.max n_assets 1) ⊘ price
      end in
    let max_notional := capital ⊗ max_position_pct z ⊗ max_leverage z in
    nround (nmin shares (max_notional ⊘ price)) 6.
Definition compute_shares : PositionSizer F → F → F → F → Z → F :=
  compute_shares_with (nof_ratio 1 2) (nof_ratio 3 2).

(** ** One order *)

Definition tiny : F := nof_ratio 1 1000000000.
Definition unfilled (why : string) : FillResult F := mkFillResult false n0 n0 n0 n0 n0 n0 false why.

(** The quantity the volume allows, and whether it is less than was asked. *)
Definition volume_fill (m : SlippageModel F) (desired avg_volume : F) : F * bool :=
  if can_fill_fully m desired avg_volume then (desired, false)
  else (nabs (partial_fill_qty m desired avg_volume), true).

(** The price after spread and slippage, and the slippage per share. *)
Definition costed_price (cfg : ExecutionConfig F) (side : OrderSide) (price daily_vol avg_volume qty : F) : F * F :=
  let fp := adjust_fill_price (ec_spread cfg) price daily_vol side in
  let slip := compute_slippage (ec_slippage cfg) price qty daily_vol avg_volume in
  (if is_buy side then fp ⊕ slip else nmax (fp ⊖ slip) (price ⊗ nof_ratio 1 2), slip).

(** What the cash buys at the price. *)
Definition max_affordable (cfg : ExecutionConfig F) (available_cash fp : F) : F :=
  let usable_cash := available_cash ⊗ (n1 ⊖ cash_reserve_pct cfg) in
  if fp >.? n0 then usable_cash ⊘ fp else n0.

Definition execute_order (cfg : ExecutionConfig F) (side : OrderSide) (desired_shares price daily_vol avg_volume : F)
    (available_cash current_position : F) : FillResult F :=
  let desired := nabs desired_shares in
  if (desired <.? tiny) || (price <.? tiny) then unfilled "zero order"
  else
    let no_short := negb (is_buy side) && ((current_position ⊖ desired) <.? n0) && negb (allow_short_selling cfg) in
    let desired := if no_short then nmin desired (nmax n0 current_position) else desired in
    if no_short && (desired <.? tiny) then unfilled "short selling disabled"
    else
      let '(qty, part) := volume_fill (ec_slippage cfg) desired avg_volume in
      let '(fp, slip) := costed_price cfg side price daily_vol avg_volume qty in
      let '(qty, part) :=
        if is_buy side && (max_affordable cfg available_cash fp <.? qty) then (max_affordable cfg available_cash fp, true)
        else (qty, part) in
      let com := compute_commission (ec_commission cfg) qty fp in
      let spread := nabs (estimate_spread (ec_spread cfg) price daily_vol) ⊗ qty in
      let slippage := slip ⊗ qty in
      let total := com ⊕ spread ⊕ slippage in
      if qty <.? tiny then unfilled "insufficient cash or volume"
      else mkFillResult true (nround fp 6) (nround qty 6) (nround com 4) (nround slippage 4) (nround spread 4)
             (nround total 4) part "".

Definition daily_borrow_cost (cfg : ExecutionConfig F) (ticker : string) (position price : F) : F :=
  daily_cost (ec_borrow cfg) ticker position price.

(** ** Presets *)

Definition default_sizer : PositionSizer F :=
  mkPositionSizer FIXED_FRACTIONAL (nof_ratio 2 100) (nof_ratio 15 100) (nof_ratio 20 100) n1.
Definition default_borrow : BorrowCostModel F := mkBorrowCostModel (nof_ratio 5 1000) (nof_ratio 5 100) ∅.

Definition zero_cost_config : ExecutionConfig F :=
  mkExecutionConfig (mkCommissionModel n0 n0 n0 n1) (mkSlippageModel n0 n0 n1) (mkSpreadModel n0 n0)
    (mkBorrowCostModel n0 n0 ∅) default_sizer 1 true n0 n1.
Definition retail_config : ExecutionConfig F :=
  mkExecutionConfig (mkCommissionModel (nof_ratio 5 1000) (nof_ratio 1 1000) n1 (nof_ratio 5 1000))
    (mkSlippageModel (nof_Z 2) (nof_ratio 15 100) (nof_ratio 5 100)) (mkSpreadModel (nof_Z 3) (nof_ratio 6 10))
    default_borrow default_sizer 1 true n0 n1.
Definition institutional_config : ExecutionConfig F :=
  mkExecutionConfig (mkCommissionModel (nof_ratio 2 1000) (nof_ratio 5 10000) (nof_ratio 1 2) (nof_ratio 5 1000))
    (mkSlippageModel (nof_ratio 1 2) (nof_ratio 8 100) (nof_ratio 5 100)) (mkSpreadModel n1 (nof_ratio 3 10))
    default_borrow default_sizer 1 true n0 n1.
End models.

#[local] Close Scope Z_scope.
(** * Theorems

    What one simulated execution guarantees, in exact arithmetic: how much is
    filled, at what price, and for what commission. *)

#[local] Open Scope Q_scope.

(** ** Rounding to six digits *)

Lemma nround_grid (x : Q) :
  ∃ r, nround x 6 = r # 1000000 ∧ (∀ z, x <= z # 1000000 → (r <= z)%Z) ∧ (∀ z, z # 1000000 <= x → (z <= r)%Z).
Proof.
  pose proof (nround_Q_error x 6 ltac:(lia)) as He.
  assert (nround x 6 = div_half_even (Qnum x * 10 ^ 6) (Zpos (Qden x)) # 1000000) as Hr.
  { unfold nround, Num_Q, Q_round_dec. change (0 <=? 6)%Z with true. cbv iota. f_equal. }
  rewrite Hr in He |- *. clear Hr. generalize dependent (div_half_even (Qnum x * 10 ^ 6) (Zpos (Qden x))). intros r He.
  change (inject_Z (2 * 10 ^ 6)) with (2000000 # 1) in He. exists r. split; [reflexivity|].
  assert (- 1 <= (2000000 # 1) * ((r # 1000000) - x) <= 1) as [H1 H2].
  { revert He. apply Qabs_case; intros; lra. }
  assert (∃ u, u * (1000000 # 1) == 1 ∧ ∀ z, (z # 1000000) == inject_Z z * u) as (u & Hu & Hz).
  { exists (1 # 1000000). split; [reflexivity|]. intros z. by rewrite Qmake_Qdiv. }
  rewrite Hz in H1, H2.
  split; intros z Hx; rewrite Hz in Hx.
  - assert (inject_Z r < inject_Z (z + 1)) as Hlt; [|rewrite <- Zlt_Qlt in Hlt; lia].
    rewrite inject_Z_plus. change (inject_Z 1) with (1 # 1). nra.
  - assert (inject_Z z < inject_Z (r + 1)) as Hlt; [|rewrite <- Zlt_Qlt in Hlt; lia].
    rewrite inject_Z_plus. change (inject_Z 1) with (1 # 1). nra.
Qed.

(** ** Sane parameters *)

Record sane (cfg : ExecutionConfig Q) : Prop := {
  sane_commission : 0 <= per_share (ec_commission cfg) ∧ 0 <= pct_of_notional (ec_commission cfg) ∧
    0 <= min_per_trade (ec_commission cfg) ∧ 0 <= max_pct_of_notional (ec_commission cfg);
  sane_slippage : 0 <= base_bps (ec_slippage cfg) ∧ 0 <= volatility_factor (ec_slippage cfg) ∧
    0 <= volume_participation_limit (ec_slippage cfg);
  sane_spread : 0 <= base_spread_bps (ec_spread cfg) ∧ 0 <= vol_multiplier (ec_spread cfg)
}.

Lemma nmax_pos (x y : Q) : 0 <= x → 0 <= nmax x y.
Proof. intros Hx. destruct (nmax_Q x y) as [H1 _]. lra. Qed.
Lemma nmin_pos (x y : Q) : 0 <= x → 0 <= y → 0 <= nmin x y.
Proof. intros Hx Hy. destruct (nmin_Q x y) as (_ & _ & [-> | ->]); done. Qed.

Ltac qpos := repeat first
  [ assumption | apply Qmult_le_0_compat | apply nmin_pos | apply nmax_pos | apply Qabs_nonneg
  | match goal with |- 0 <= _ / _ => apply Qle_shift_div_l; [reflexivity|rewrite Qmult_0_l] end
  | match goal with |- 0 <= _ + _ => apply (Qplus_le_compat 0 _ 0 _) end
  | match goal with |- (_ <= _)%Q => discriminate end ].

Lemma commission_bounds m shares price :
  0 <= per_share m → 0 <= pct_of_notional m → 0 <= min_per_trade m → 0 <= max_pct_of_notional m → 0 <= shares → 0 <= price →
  0 <= compute_commission m shares price ∧ compute_commission m shares price <= shares * price * max_pct_of_notional m.
Proof.
  intros H1 H2 H3 H4 Hs Hp. unfold compute_commission. cbn zeta. cbn [nabs nadd nmul Num_Q].
  split.
  - qpos.
  - eapply Qle_trans; [apply nmin_Q|]. cbn [nmul Num_Q nabs]. rewrite (Qabs_pos shares Hs). apply Qle_refl.
Qed.

Lemma slippage_nonneg m price qty vol avg :
  0 <= base_bps m → 0 <= volatility_factor m → 0 <= volume_participation_limit m → 0 <= price → 0 <= vol → 0 <= avg →
  0 <= compute_slippage m price qty vol avg.
Proof.
  intros. unfold compute_slippage. cbn zeta. cbn [nadd nmul ndiv nabs Num_Q].
  destruct (avg <=.? n0) eqn:E; qsimpl; [qpos|].
  assert (0 < avg) by (change (@n0 Q _) with 0 in E; lra).
  assert (0 <= Qabs qty / avg) by (apply Qle_shift_div_l; [done|]; rewrite Qmult_0_l; apply Qabs_nonneg). qpos.
Qed.

Lemma spread_nonneg m price vol :
  0 <= base_spread_bps m → 0 <= vol_multiplier m → 0 <= price → 0 <= vol → 0 <= estimate_spread m price vol.
Proof. intros. unfold estimate_spread. cbn zeta. cbn [nadd nmul ndiv Num_Q]. qpos. Qed.

(** What the volume allows. *)
Lemma volume_fill_bounds m desired avg qty part :
  0 <= volume_participation_limit m → 0 <= avg → 0 < desired → volume_fill m desired avg = (qty, part) →
  0 <= qty ∧ qty <= desired ∧ qty <= avg * volume_participation_limit m ∧ (part = false → qty = desired).
Proof.
  intros Hl Ha Hd. unfold volume_fill, can_fill_fully, partial_fill_qty, np_sign. change (@n0 Q _) with 0.
  cbn [nmul nabs Num_Q]. assert (0 <= avg * volume_participation_limit m) as Hm by qpos.
  assert (∀ q, (q, true) = (qty, part) → q == nmin (Qabs desired) (avg * volume_participation_limit m) →
            0 <= qty ∧ qty <= desired ∧ qty <= avg * volume_participation_limit m ∧ (part = false → qty = desired)) as Hp.
  { intros q [= <- <-] Hq. destruct (nmin_Q (Qabs desired) (avg * volume_participation_limit m)) as (H1 & H2 & _).
    assert (Qabs desired == desired) as Hab by (apply Qabs_pos; lra).
    split; [|split; [lra|split; [lra|done]]]. rewrite Hq. apply nmin_pos; lra. }
  assert (∀ x, Qabs (x * (if 0 <.? desired then n1 else if desired <.? 0 then nopp n1 else 0)) == Qabs x) as Hs.
  { intros x. rewrite (proj2 (nlt_Q 0 desired) Hd). change (@n1 Q _) with 1. by rewrite Qmult_1_r. }
  destruct (avg <=.? 0) eqn:E.
  - intros Hq. apply (Hp _ Hq). eapply Qeq_trans; [apply Hs|]. apply Qabs_pos. apply nmin_pos; [apply Qabs_nonneg|done].
  - destruct (Qabs desired <=.? (avg * volume_participation_limit m)) eqn:E2; qsimpl.
    + intros [= <- <-]. rewrite (Qabs_pos desired) in E2 by lra. split; [lra|]. split; [apply Qle_refl|]. by split.
    + intros Hq. apply (Hp _ Hq). eapply Qeq_trans; [apply Hs|]. apply Qabs_pos. apply nmin_pos; [apply Qabs_nonneg|done].
Qed.

(** What the price is. *)
Lemma costed_price_bounds cfg side price vol avg qty fp slip :
  sane cfg → 0 <= price → 0 <= vol → 0 <= avg → costed_price cfg side price vol avg qty = (fp, slip) →
  0 <= fp ∧ 0 <= slip ∧ (side = Buy → price <= fp) ∧ (side = Sell → fp <= price ∧ price * (1 # 2) <= fp).
Proof.
  intros [_ (S1 & S2 & S3) (S4 & S5)] Hp Hv Ha. unfold costed_price, adjust_fill_price. cbn zeta.
  assert (0 <= estimate_spread (ec_spread cfg) price vol) as Hh by (by apply spread_nonneg).
  assert (0 <= compute_slippage (ec_slippage cfg) price qty vol avg) as Hs by (by apply slippage_nonneg).
  revert Hh Hs. generalize (compute_slippage (ec_slippage cfg) price qty vol avg) as sl.
  generalize (estimate_spread (ec_spread cfg) price vol) as hs. intros hs sl Hh Hs [= <- <-].
  destruct side; cbn [is_buy nadd nsub nmul Num_Q nof_ratio].
  - split_and!; intros; try discriminate; try done; lra.
  - destruct (nmax_Q (price - hs - sl) (price * (1 # 2))) as (H1 & H2 & H3).
    set (m := nmax (price - hs - sl) (price * (1 # 2))) in *. split_and!; try done; [lra|].
    intros _. split; [|done]. destruct H3 as [-> | ->]; lra.
Qed.

(** ** One execution *)

Lemma affordable_cost cfg cash fp q : 0 <= fp → (max_affordable cfg cash fp <.? q) = false → 0 < q → q * fp <= cash * (1 - cash_reserve_pct cfg).
Proof.
  intros Hf Hm Hq. qsimpl. unfold max_affordable in Hm. cbn zeta in Hm. change (@n0 Q _) with 0 in Hm. change (@n1 Q _) with 1 in Hm.
  cbn [nmul nsub ndiv Num_Q] in Hm. destruct (fp >.? 0) eqn:E; qsimpl; [|lra].
  apply (Qmult_le_compat_r _ _ fp) in Hm; [|done]. unfold Qdiv in Hm. rewrite <- Qmult_assoc, (Qmult_comm (/ fp)) in Hm.
  rewrite Qmult_inv_r in Hm by lra. lra.
Qed.

Lemma affordable_exact cfg cash fp : 0 <= fp → tiny <= max_affordable cfg cash fp →
  max_affordable cfg cash fp * fp <= cash * (1 - cash_reserve_pct cfg).
Proof.
  intros Hf Ht. change (@tiny Q _) with (1 # 1000000000) in Ht. apply affordable_cost; [done| |lra].
  apply nlt_Q_false, Qle_refl.
Qed.

(** The quantity, price and commission before they are rounded. *)
Definition within_limits (cfg : ExecutionConfig Q) (side : OrderSide) (desired price avg_volume cash position q fp c : Q) : Prop :=
  tiny <= q ∧ q <= Qabs desired ∧ q <= avg_volume * volume_participation_limit (ec_slippage cfg) ∧
  0 <= c ∧ c <= q * fp * max_pct_of_notional (ec_commission cfg) ∧
  match side with
  | Buy => price <= fp ∧ q * fp <= cash * (1 - cash_reserve_pct cfg)
  | Sell => fp <= price ∧ price * (1 # 2) <= fp ∧ (allow_short_selling cfg = false → q <= nmax 0 position)
  end.

Lemma execution_limits cfg side desired price vol avg_volume cash position :
  sane cfg → 0 <= vol → 0 <= avg_volume →
  let r := execute_order cfg side desired price vol avg_volume cash position in
  filled r = true →
  ∃ q fp c, fill_qty r = nround q 6 ∧ fill_price r = nround fp 6 ∧ commission r = nround c 4 ∧
    within_limits cfg side desired price avg_volume cash position q fp c.
Proof.
  intros Hs Hv Ha. cbn zeta. unfold execute_order. cbn zeta. change (nabs (F:=Q)) with Qabs.
  destruct ((Qabs desired <.? tiny) || (price <.? tiny)) eqn:E0; [done|]. apply orb_false_iff in E0 as [E1 E2]. qsimpl.
  change (@tiny Q _) with (1 # 1000000000) in *.
  set (no_short := negb (is_buy side) && _ && _).
  set (d := if no_short then nmin (Qabs desired) (nmax n0 position) else Qabs desired).
  destruct (no_short && (d <.? (1 # 1000000000))) eqn:E3; [done|].
  assert (0 < d ∧ d <= Qabs desired ∧ (no_short = true → d <= nmax 0 position)) as (Hd & Hdd & Hdp).
  { unfold d in *. destruct no_short; cbn [andb] in E3.
    - qsimpl. destruct (nmin_Q (Qabs desired) (nmax n0 position)) as (H1 & H2 & _). split; [lra|]. split; [done|]. by intros _.
    - split; [lra|]. split; [apply Qle_refl|done]. }
  destruct (volume_fill (ec_slippage cfg) d avg_volume) as [q0 part] eqn:Ev.
  apply volume_fill_bounds in Ev as (Hq0 & Hq1 & Hq2 & _); [|by apply (sane_slippage _ Hs)|done|done].
  destruct (costed_price cfg side price vol avg_volume q0) as [fp slip] eqn:Ep.
  apply costed_price_bounds in Ep as (Hf0 & _ & Hbuy & Hsell); [|done|lra|done|done].
  set (capped := is_buy side && _).
  destruct (if capped then _ else _) as [q part'] eqn:Eq.
  set (c := compute_commission (ec_commission cfg) q fp).
  destruct (q <.? (1 # 1000000000)) eqn:E4; [done|]. qsimpl. intros _. exists q, fp, c. cbn [fill_qty fill_price commission].
  split; [done|]. split; [done|]. split; [done|].
  assert (q <= q0 ∧ (side = Buy → q * fp <= cash * (1 - cash_reserve_pct cfg))) as [Hq Hcash].
  { destruct side; cbn [is_buy andb] in capped; unfold capped in Eq.
    - destruct (max_affordable cfg cash fp <.? q0) eqn:E5; injection Eq as <- _.
      + split; [qsimpl; lra|]. intros _. by apply affordable_exact.
      + split; [apply Qle_refl|]. intros _. apply affordable_cost; [done..|lra].
    - injection Eq as <- _. split; [apply Qle_refl|done]. }
  destruct (commission_bounds (ec_commission cfg) q fp) as [Hc0 Hc1]; try (apply (sane_commission _ Hs)); [lra|done|].
  unfold within_limits. split; [done|]. split; [lra|]. split; [lra|]. split; [done|]. split; [done|].
  destruct side.
  - split; [by apply Hbuy|by apply Hcash].
  - destruct (Hsell eq_refl) as [H1 H2]. split; [done|]. split; [done|]. intros Hns.
    destruct no_short eqn:En; [specialize (Hdp eq_refl); lra|].
    unfold no_short in En. rewrite Hns in En. cbn [is_buy negb andb] in En. rewrite andb_true_r in En.
    change (@n0 Q _) with 0 in En. cbn [nsub Num_Q] in En. qsimpl. unfold d in *.
    destruct (nmax_Q 0 position) as (_ & H4 & _). lra.
Qed.

(** An execution stays within its limits. With cost parameters that are
    not negative, a filled order fills at most what was asked and at most the
    allowed share of the average volume, at a price no better than the market
    for either side (and no worse than half of it for a sell); a buy spends at
    most the cash above the reserve, commission apart; a sell without
    permission to go short sells at most what is held; the commission is at
    most its capped share of the notional. The reported quantity and price are
    those figures rounded to six digits and the commission to four. *)
Theorem execution_within_limits cfg side desired price vol avg_volume cash position :
  sane cfg → 0 <= vol → 0 <= avg_volume →
  let r := execute_order cfg side desired price vol avg_volume cash position in
  filled r = true →
  ∃ q fp c, fill_qty r = nround q 6 ∧ fill_price r = nround fp 6 ∧ commission r = nround c 4 ∧
    within_limits cfg side desired price avg_volume cash position q fp c.
Proof. apply execution_limits. Qed.

Lemma execution_within_limits_witness :
  let r := execute_order (F:=Q) retail_config Buy 1000 100 (2 # 100) 10000 30000 0 in
  filled r = true ∧ ∃ q fp c, fill_qty r = nround q 6 ∧ q * fp <= 30000 ∧ q <= 500 ∧ 0 <= c.
Proof.
  cbv zeta. split; [vm_compute; reflexivity|].
  destruct (execution_within_limits retail_config Buy 1000 100 (2 # 100) 10000 30000 0) as (q & fp & c & Hq & _ & _ & Hw).
  - split; repeat split; discriminate.
  - discriminate.
  - discriminate.
  - vm_compute. reflexivity.
  - destruct Hw as (_ & _ & H1 & H2 & _ & _ & H3). exists q, fp, c. split; [exact Hq|].
    change (cash_reserve_pct (F:=Q) retail_config) with 0 in H3.
    change (volume_participation_limit (ec_slippage (F:=Q) retail_config)) with (5 # 100) in H1.
    split; [lra|]. split; [lra|exact H2].
Defined.
