(* ===== verification/BacktestEngine.v ===== *)
(** backend/services/backtest_service.py: the bar-by-bar engine, and the risk
    metrics computed from what it returns. *)

From Stdlib Require Import QArith.
From stdpp Require Import sorting.
From S2P Require Import Prelude Numeric OrderedDict StrategySignals ExecutionModel.
#[local] Open Scope Z_scope.

(** ** Data and configuration *)

(** One asset of the panel; the engine does not read highs and lows. *)
Record AssetData (F : Type) := mkAssetData { ad_close : list F; ad_volume : option (list F) }.
Arguments mkAssetData {F}. Arguments ad_close {F}. Arguments ad_volume {F}.

Record BacktestConfig (F : Type) := mkBacktestConfig {
  cfg_assets : list string;
  cfg_initial_capital : F;
  cfg_strategy : StrategyConfig F;
  cfg_execution : ExecutionConfig F
}.
Arguments mkBacktestConfig {F}. Arguments cfg_assets {F}. Arguments cfg_initial_capital {F}. Arguments cfg_strategy {F}.
Arguments cfg_execution {F}.

(** [TradeRecord], at the bar it was made. *)
Record TradeRecord (F : Type) := mkTradeRecord {
  tr_bar : nat; tr_asset : string; tr_side : OrderSide; tr_desired_qty : F; tr_filled_qty : F; tr_fill_price : F;
  tr_commission : F; tr_slippage_cost : F; tr_spread_cost : F; tr_total_cost : F; tr_partial : bool;
  tr_signal_value : F; tr_position_after : F
}.
Arguments mkTradeRecord {F}. Arguments tr_bar {F}. Arguments tr_asset {F}. Arguments tr_side {F}.
Arguments tr_desired_qty {F}. Arguments tr_filled_qty {F}. Arguments tr_fill_price {F}. Arguments tr_commission {F}.
Arguments tr_position_after {F}. Arguments tr_signal_value {F}.

(** The locals of [_run_strategy]; [positions] in insertion order. *)
Record EngineState (F : Type) := mkEngineState {
  capital : F;
  positions : list (string * F);
  equity_net : list F;
  equity_gross : list F;
  returns_net : list F;
  returns_gross : list F;
  trade_log : list (TradeRecord F);
  total_commission : F;
  total_slippage : F;
  total_spread : F;
  total_borrow : F;
  turnover_shares : F
}.
Arguments mkEngineState {F}. Arguments capital {F}. Arguments positions {F}. Arguments equity_net {F}.
Arguments equity_gross {F}. Arguments returns_net {F}. Arguments returns_gross {F}. Arguments trade_log {F}.
Arguments total_commission {F}. Arguments total_slippage {F}. Arguments total_spread {F}. Arguments total_borrow {F}.
Arguments turnover_shares {F}.
#[global] Instance eta_EngineState F : Eta (EngineState F) := λ s,
  mkEngineState (capital s) (positions s) (equity_net s) (equity_gross s) (returns_net s) (returns_gross s) (trade_log s)
    (total_commission s) (total_slippage s) (total_spread s) (total_borrow s) (turnover_shares s).

(** [sorted] of tickers: by code points, which is by bytes of their UTF-8. *)
Definition ticker_le (a b : string) : Prop := String.leb a b = true.
#[global] Instance ticker_le_dec a b : Decision (ticker_le a b) := decide (String.leb a b = true).

Section engine.
Context {F : Type} `{Num F}.
Variable np_mean : list F → F.
Variable np_std : nat → list F → F.
Variable np_tanh : F → F.
Variable sqrt : F → F.

#[local] Abbreviation signals_of := (signal_series np_mean np_std np_tanh).

(** ** Bars *)

(** [_delay]; a delay below one bar is refused. *)
Definition delay_of (cfg : ExecutionConfig F) : outcome string nat :=
  if execution_delay_bars cfg <? MIN_DECISION_DELAY_BARS
  then Raise "execution_delay_bars must be at least 1: a signal cannot fill at the close it was computed from"
  else Ret (Z.to_nat (execution_delay_bars cfg)).

Definition start_bar (s : StrategyConfig F) (delay : nat) : nat :=
  max (slow_window s + 5) (warmup_bars s - 1 + delay).

(** [np.diff(close[a:b + 1]) / np.maximum(close[a:b], 1e-9)] *)
Definition window_returns (close : list F) (a b : nat) : list F :=
  (λ t, (at_bar close (t + 1) ⊖ at_bar close t) ⊘ np_maximum (at_bar close t) (nof_ratio 1 1000000000)) <$> seq a (b - a).

(** [_pre_trade_liquidity]: the volatility and the average volume. *)
Definition pre_trade_liquidity (ad : AssetData F) (decision_bar : nat) : F * F :=
  let returns :=
    if (1 <? decision_bar)%nat then window_returns (ad_close ad) (decision_bar - 21) decision_bar else [nof_ratio 1 100] in
  let daily_vol := if (1 <? length returns)%nat then np_std 0 returns else nof_ratio 2 100 in
  let avg_volume :=
    match ad_volume ad with
    | Some volume =>
        if (1 <? decision_bar)%nat then np_mean (slice (decision_bar - 21) (decision_bar + 1) volume) else nof_Z 1000000
    | None => nof_Z 1000000
    end in
  (daily_vol, avg_volume).

(** ** Orders *)

Definition held (ticker : string) (ps : list (string * F)) : F := default n0 (od_get ticker ps).

(** A filled order, in the books: a buy pays and adds, a sell is paid and
    takes, from the position [base]. *)
Definition book_fill (bar : nat) (ticker : string) (side : OrderSide) (desired signal base : F) (fill : FillResult F)
    (s : EngineState F) : EngineState F :=
  if ExecutionModel.filled fill then
    let pos := if is_buy side then base ⊕ fill_qty fill else base ⊖ fill_qty fill in
    let cash :=
      if is_buy side then capital s ⊖ (fill_qty fill ⊗ fill_price fill ⊕ commission fill)
      else capital s ⊕ (fill_qty fill ⊗ fill_price fill ⊖ commission fill) in
    s <| capital := cash |>
      <| positions ::= od_put ticker pos |>
      <| total_commission ::= λ x, x ⊕ commission fill |>
      <| total_slippage ::= λ x, x ⊕ slippage_cost fill |>
      <| total_spread ::= λ x, x ⊕ spread_cost fill |>
      <| turnover_shares ::= λ x, x ⊕ fill_qty fill |>
      <| trade_log ::= λ l, l ++ [mkTradeRecord bar ticker side desired (fill_qty fill) (fill_price fill) (commission fill)
                                    (slippage_cost fill) (spread_cost fill) (total_cost fill) (partial fill) signal pos] |>
  else s.

(** What an order is sized and priced with. *)
Record OrderContext := mkOrderContext {
  oc_price : F; oc_daily_vol : F; oc_avg_volume : F; oc_sizing_equity : F; oc_n_assets : Z
}.

Definition send (cfg : ExecutionConfig F) (oc : OrderContext) (bar : nat) (ticker : string) (side : OrderSide)
    (desired signal current base : F) (s : EngineState F) : EngineState F :=
  book_fill bar ticker side desired signal base
    (execute_order cfg side desired (oc_price oc) (oc_daily_vol oc) (oc_avg_volume oc) (capital s) current) s.

Definition sized (cfg : ExecutionConfig F) (oc : OrderContext) : F :=
  compute_shares sqrt (ec_sizer cfg) (oc_sizing_equity oc) (oc_price oc) (oc_daily_vol oc) (oc_n_assets oc).

(** The body of the loop over [exits + entries]. *)
Definition act_on_signal (cfg : ExecutionConfig F) (bar : nat) (ticker : string) (signal : F) (oc : OrderContext)
    (s : EngineState F) : EngineState F :=
  let current := held ticker (positions s) in
  if (signal >.? n0) && (current <=.? n0) then
    let desired := sized cfg oc in
    let s := if current <.? n0 then send cfg oc bar ticker Buy (nabs current) signal current current s else s in
    let current := held ticker (positions s) in
    if desired >.? n0 then send cfg oc bar ticker Buy desired signal current current s else s
  else if (signal <.? n0) && (current >.? n0) then
    let s := send cfg oc bar ticker Sell (nabs current) signal current current s in
    if allow_short_selling cfg && (signal <.? nof_ratio (-1) 2) then
      let desired_short := sized cfg oc in
      let base := held ticker (positions s) in
      if desired_short >.? n0 then send cfg oc bar ticker Sell desired_short signal base base s else s
    else s
  else s.

(** ** One bar *)

Section bar.
Variable data : gmap string (AssetData F).
Variable cfg : BacktestConfig F.
Variable delay : nat.
Variable n_bars : nat.
(** [signals[ticker]] *)
Variable signals : string → list F.

Definition closes (ticker : string) : list F := match data !! ticker with Some ad => ad_close ad | None => [] end.
Definition is_valid (ticker : string) : bool := bool_decide (is_Some (data !! ticker)).
Definition valid_assets : list string := filter (λ t, is_valid t = true) (cfg_assets cfg).

(** [sum(shares * close[i] for t, shares in positions.items() if ...)] *)
Definition values_at (i : nat) (ps : list (string * F)) : list F :=
  (λ p, p.2 ⊗ at_bar (closes p.1) i) <$> filter (λ p, (i < length (closes p.1))%nat) ps.

Definition sizing_equity (decision_bar : nat) (s : EngineState F) : F :=
  capital s ⊕ nsum (values_at decision_bar (positions s)).

(** The exits and the entries, each in ticker order. *)
Definition decide_orders (bar : nat) (s : EngineState F) : list (string * F) :=
  let decision_bar := (bar - delay)%nat in
  let candidates :=
    (λ t, (t, at_bar (signals t) decision_bar))
      <$> filter (λ t, (bar < length (closes t))%nat) (merge_sort ticker_le valid_assets) in
  filter (λ c, ((c.2 <.? n0) && (held c.1 (positions s) >.? n0)) = true) candidates ++
  filter (λ c, ((c.2 >.? n0) && (held c.1 (positions s) <=.? n0) &&
                negb ((c.2 <.? n0) && (held c.1 (positions s) >.? n0))) = true) candidates.

Definition order_context (bar : nat) (equity : F) (ticker : string) : OrderContext :=
  let ad := default (mkAssetData [] None) (data !! ticker) in
  let '(daily_vol, avg_volume) := pre_trade_liquidity ad (bar - delay) in
  mkOrderContext (at_bar (ad_close ad) bar) daily_vol avg_volume equity (Z.of_nat (length valid_assets)).

Definition trade_bar (bar : nat) (s : EngineState F) : EngineState F :=
  let equity := sizing_equity (bar - delay) s in
  foldl (λ s c, act_on_signal (cfg_execution cfg) bar c.1 c.2 (order_context bar equity c.1) s) s (decide_orders bar s).

(** [for ticker, shares in positions.items(): if shares < 0 ...] *)
Definition borrow_bar (bar : nat) (s : EngineState F) : EngineState F :=
  foldl (λ s p,
    if (p.2 <.? n0) && bool_decide (bar < length (closes p.1))%nat then
      let bc := daily_borrow_cost (cfg_execution cfg) p.1 p.2 (at_bar (closes p.1) bar) in
      s <| capital ::= λ x, x ⊖ bc |> <| total_borrow ::= λ x, x ⊕ bc |>
    else s) s (positions s).

Definition mark_bar (bar : nat) (s : EngineState F) : EngineState F :=
  let value := foldl nadd (capital s) (values_at bar (positions s)) in
  let gross := value ⊕ total_commission s ⊕ total_slippage s ⊕ total_spread s ⊕ total_borrow s in
  let rets :=
    match last (equity_net s), last (equity_gross s) with
    | Some prev, Some prev_gross =>
        if prev >.? n0 then
          ([(value ⊖ prev) ⊘ prev], [if prev_gross >.? n0 then (gross ⊖ prev_gross) ⊘ prev_gross else n0])
        else ([], [])
    | _, _ => ([], [])
    end in
  s <| equity_net ::= λ l, l ++ [value] |> <| equity_gross ::= λ l, l ++ [gross] |>
    <| returns_net ::= λ l, l ++ rets.1 |> <| returns_gross ::= λ l, l ++ rets.2 |>.

Definition run_bar (s : EngineState F) (bar : nat) : EngineState F := mark_bar bar (borrow_bar bar (trade_bar bar s)).

(** What is still held is sold at the last close; the equity curve, from
    which the final capital is read, is not touched. *)
Definition liquidate (s : EngineState F) : EngineState F :=
  let final_bar := (n_bars - 1)%nat in
  foldl (λ s p,
    if (tiny <.? nabs p.2) && bool_decide (final_bar < length (closes p.1))%nat then
      let price := at_bar (closes p.1) final_bar in
      s <| capital ::= λ x, if p.2 >.? n0 then x ⊕ p.2 ⊗ price else x ⊖ nabs p.2 ⊗ price |>
        <| positions ::= od_put p.1 n0 |>
    else s) s (positions s).
End bar.

(** ** The run *)

Definition initial_state (initial_capital : F) : EngineState F :=
  mkEngineState initial_capital [] [] [] [] [] [] n0 n0 n0 n0 n0.

Definition run_bars (data : gmap string (AssetData F)) (cfg : BacktestConfig F) (delay start n_bars : nat) : EngineState F :=
  let signals t := signals_of (take n_bars (closes data t)) (cfg_strategy cfg) (start - delay) in
  let first := max start delay in
  foldl (run_bar data cfg delay signals) (initial_state (cfg_initial_capital cfg)) (seq first (n_bars - first)).

Record BacktestResult := mkBacktestResult { br_state : EngineState F; br_final_capital : F }.

(** [_run_strategy] *)
Definition run_strategy (data : gmap string (AssetData F)) (cfg : BacktestConfig F) (start n_bars : nat)
    : outcome string BacktestResult :=
  let! delay := delay_of (cfg_execution cfg) in
  let s := liquidate data n_bars (run_bars data cfg delay start n_bars) in
  Ret (mkBacktestResult s (default (cfg_initial_capital cfg) (last (equity_net s)))).

(** ** Metrics *)

Definition sharpe (returns : list F) : F :=
  if (length returns <? 2)%nat then n0
  else
    let excess := (λ r, r ⊖ n0 ⊘ nof_Z 252) <$> returns in
    let std := np_std 1 excess in
    if std <.? tiny then n0 else np_mean excess ⊘ std ⊗ sqrt (nof_Z 252).

Definition max_drawdown (equity_curve : list F) : F :=
  match equity_curve with
  | first :: _ :: _ =>
      (foldl (λ '(peak, max_dd) v,
         let peak := nmax peak v in
         (peak, if peak >.? n0 then nmax max_dd ((peak ⊖ v) ⊘ peak) else max_dd)) (first, n0) equity_curve).2
  | _ => n0
  end.

(** [_compute_win_rate]: round trips, first in first out per asset: wins and
    closed trades. *)
Definition compute_win_rate (log : list (TradeRecord F)) : Z * Z :=
  (foldl (λ '(book, (wins, closed)) t,
     let entries := default [] (book !! tr_asset t) in
     match tr_side t with
     | Buy => (<[tr_asset t := entries ++ [tr_fill_price t]]> book, (wins, closed))
     | Sell =>
         match entries with
         | entry :: rest =>
             (<[tr_asset t := rest]> book, (if tr_fill_price t >.? entry then wins + 1 else wins, closed + 1))
         | [] => (book, (wins, closed))
         end
     end) (∅ : gmap string (list F), (0, 0)) log).2.
End engine.

(** * Theorems

    What the backtest engine guarantees: nothing it reports before a bar
    depends on prices at or after that bar, the order in which the assets are
    listed does not matter, and the trade log accounts for cash and holdings. *)

#[local] Open Scope Z_scope.

Section facts.
Context {F : Type} `{Num F}.
Variable np_mean : list F → F.
Variable np_std : nat → list F → F.
Variable np_tanh : F → F.
Variable sqrt : F → F.

#[local] Abbreviation bar_step := (run_bar np_mean np_std sqrt).
#[local] Abbreviation run_to := (run_bars np_mean np_std np_tanh sqrt).
#[local] Abbreviation run := (run_strategy np_mean np_std np_tanh sqrt).

(** ** Data that agrees up to a bar *)

Definition agree_asset (n : nat) (a a' : AssetData F) : Prop :=
  take n (ad_close a) = take n (ad_close a') ∧ take n <$> ad_volume a = take n <$> ad_volume a'.
Definition agree (n : nat) (d d' : gmap string (AssetData F)) : Prop :=
  ∀ t, option_Forall2 (agree_asset n) (d !! t) (d' !! t).

Lemma agree_closes n d d' t : agree n d d' → take n (closes d t) = take n (closes d' t).
Proof. intros Ha. unfold closes. by destruct (Ha t) as [a a' [Hc _]|]. Qed.

Lemma agree_at n d d' t i : agree n d d' → (i < n)%nat → at_bar (closes d t) i = at_bar (closes d' t) i.
Proof.
  intros Ha Hi. rewrite <- (at_bar_take (closes d t) n i), <- (at_bar_take (closes d' t) n i) by done.
  by rewrite (agree_closes n d d' t Ha).
Qed.

Lemma agree_length n d d' t i :
  agree n d d' → (i < n)%nat → (i < length (closes d t))%nat ↔ (i < length (closes d' t))%nat.
Proof.
  intros Ha Hi. pose proof (f_equal length (agree_closes n d d' t Ha)) as Hl. rewrite !length_take in Hl. lia.
Qed.

Lemma agree_valid n d d' cfg : agree n d d' → valid_assets d cfg = valid_assets d' cfg.
Proof.
  intros Ha. unfold valid_assets. apply list_filter_iff. intros t. unfold is_valid.
  rewrite !bool_decide_eq_true. destruct (Ha t) as [a a' _|]; split; intros [x Hx]; try done; by eexists.
Qed.

Lemma agree_values n d d' i ps : agree n d d' → (i < n)%nat → values_at d i ps = values_at d' i ps.
Proof.
  intros Ha Hi. unfold values_at.
  rewrite (list_filter_iff (λ p : string * F, (i < length (closes d p.1))%nat) (λ p, (i < length (closes d' p.1))%nat)).
  - apply list_fmap_ext. intros j p _. by rewrite (agree_at n d d').
  - intros p. by apply (agree_length n).
Qed.

Lemma agree_sizing n d d' i s : agree n d d' → (i < n)%nat → sizing_equity d i s = sizing_equity d' i s.
Proof. intros Ha Hi. unfold sizing_equity. by rewrite (agree_values n d d'). Qed.

Lemma window_returns_take close n a b : (b < n)%nat → window_returns (take n close) a b = window_returns close a b.
Proof.
  intros Hb. unfold window_returns. apply list_fmap_ext. intros j t Ht.
  apply lookup_seq in Ht as [-> Hj]. by rewrite !at_bar_take by lia.
Qed.

Lemma agree_liquidity n a a' i :
  agree_asset n a a' → (i < n)%nat → pre_trade_liquidity np_mean np_std a i = pre_trade_liquidity np_mean np_std a' i.
Proof.
  intros [Hc Hv] Hi. unfold pre_trade_liquidity.
  rewrite <- (window_returns_take (ad_close a) n), <- (window_returns_take (ad_close a') n), Hc by done.
  destruct (ad_volume a) as [v|], (ad_volume a') as [v'|]; try done. apply (inj Some) in Hv.
  cbn zeta. rewrite <- (slice_take (i - 21) (i + 1) n v), <- (slice_take (i - 21) (i + 1) n v') by lia. by rewrite Hv.
Qed.

Lemma agree_context n d d' cfg delay bar equity t :
  agree n d d' → (bar < n)%nat →
  order_context np_mean np_std d cfg delay bar equity t = order_context np_mean np_std d' cfg delay bar equity t.
Proof.
  intros Ha Hb. unfold order_context. rewrite (agree_valid n d d' cfg Ha).
  destruct (Ha t) as [a a' Haa|]; [|done]. cbn [default from_option id].
  rewrite (agree_liquidity n a a') by (done || lia). destruct (pre_trade_liquidity _ _ _ _) as [v w]. f_equal.
  destruct Haa as [Hc _]. rewrite <- (at_bar_take (ad_close a) n), <- (at_bar_take (ad_close a') n) by done. by rewrite Hc.
Qed.

(** Signals that agree before a bar. *)
Definition agree_signals (n : nat) (f f' : string → list F) : Prop := ∀ t i, (i < n)%nat → at_bar (f t) i = at_bar (f' t) i.

Lemma agree_decisions n d d' cfg delay f f' bar s :
  agree n d d' → agree_signals n f f' → (bar < n)%nat →
  decide_orders d cfg delay f bar s = decide_orders d' cfg delay f' bar s.
Proof.
  intros Ha Hf Hb. unfold decide_orders. cbn zeta. rewrite (agree_valid n d d' cfg Ha).
  rewrite (list_filter_iff (λ t, (bar < length (closes d t))%nat) (λ t, (bar < length (closes d' t))%nat))
    by (intros t; by apply (agree_length n)).
  assert (((λ t, (t, at_bar (f t) (bar - delay))) <$> filter (λ t, (bar < length (closes d' t))%nat)
             (merge_sort ticker_le (valid_assets d' cfg))) =
          ((λ t, (t, at_bar (f' t) (bar - delay))) <$> filter (λ t, (bar < length (closes d' t))%nat)
             (merge_sort ticker_le (valid_assets d' cfg)))) as ->; [|done].
  apply list_fmap_ext. intros j t _. f_equal. apply Hf. lia.
Qed.

Lemma agree_bar n d d' cfg delay f f' bar s :
  agree n d d' → agree_signals n f f' → (bar < n)%nat → bar_step d cfg delay f s bar = bar_step d' cfg delay f' s bar.
Proof.
  intros Ha Hf Hb. unfold run_bar.
  assert (trade_bar np_mean np_std sqrt d cfg delay f bar s = trade_bar np_mean np_std sqrt d' cfg delay f' bar s) as ->.
  { unfold trade_bar. cbn zeta. rewrite (agree_decisions n d d' cfg delay f f') by done.
    rewrite (agree_sizing n d d') by (done || lia). apply foldl_ext_in. intros s' c _.
    by rewrite (agree_context n d d'). }
  generalize (trade_bar np_mean np_std sqrt d' cfg delay f' bar s) as s1. intros s1.
  assert (borrow_bar d cfg bar s1 = borrow_bar d' cfg bar s1) as ->.
  { unfold borrow_bar. apply foldl_ext_in. intros s' p _.
    rewrite (bool_decide_ext _ _ (agree_length n d d' p.1 bar Ha Hb)). by rewrite (agree_at n d d'). }
  unfold mark_bar. by rewrite (agree_values n d d').
Qed.

Lemma agree_signal_series n n1 n2 d d' s start :
  agree n d d' → (n ≤ n1)%nat → (n ≤ n2)%nat →
  agree_signals n (λ t, signal_series np_mean np_std np_tanh (take n1 (closes d t)) s start)
    (λ t, signal_series np_mean np_std np_tanh (take n2 (closes d' t)) s start).
Proof.
  intros Ha H1 H2 t i Hi. rewrite !signal_series_take, !at_bar_take by lia.
  rewrite <- (at_bar_take (signal_series _ _ _ (closes d t) _ _) n), <- (at_bar_take (signal_series _ _ _ (closes d' t) _ _) n) by done.
  rewrite <- !signal_series_take. by rewrite (agree_closes n d d' t Ha).
Qed.

(** ** What a bar adds *)

Definition extends_at (bar : nat) (s s' : EngineState F) : Prop :=
  equity_net s' = equity_net s ∧ returns_net s' = returns_net s ∧
  ∃ l, trade_log s' = trade_log s ++ l ∧ Forall (λ t, tr_bar t = bar) l.

Lemma extends_at_refl bar s : extends_at bar s s.
Proof. repeat split. exists []. by rewrite app_nil_r. Qed.

Lemma extends_at_trans bar s1 s2 s3 : extends_at bar s1 s2 → extends_at bar s2 s3 → extends_at bar s1 s3.
Proof.
  intros (E1 & R1 & l1 & L1 & F1) (E2 & R2 & l2 & L2 & F2). split_and!; [congruence|congruence|]. exists (l1 ++ l2).
  split; [by rewrite L2, L1, app_assoc|by apply Forall_app].
Qed.

Lemma send_extends cfg oc bar t side desired signal current base s :
  extends_at bar s (send cfg oc bar t side desired signal current base s).
Proof.
  unfold send, book_fill. destruct (ExecutionModel.filled _); [|apply extends_at_refl].
  repeat split. eexists [_]. split; [done|]. by repeat constructor.
Qed.

Lemma act_extends cfg bar t signal oc s : extends_at bar s (act_on_signal sqrt cfg bar t signal oc s).
Proof.
  unfold act_on_signal. cbn zeta.
  destruct (_ && _).
  - assert (extends_at bar s (if held t (positions s) <.? n0
      then send cfg oc bar t Buy (nabs (held t (positions s))) signal (held t (positions s)) (held t (positions s)) s else s)) as H1.
    { destruct (_ <.? _); [apply send_extends|apply extends_at_refl]. }
    destruct (_ <.? sized _ _ _); [|done]. eapply extends_at_trans; [exact H1|apply send_extends].
  - destruct (_ && _); [|apply extends_at_refl].
    destruct (_ && _); [|apply send_extends].
    destruct (_ <.? sized _ _ _); [|apply send_extends]. eapply extends_at_trans; apply send_extends.
Qed.

Lemma trade_extends d cfg delay f bar s : extends_at bar s (trade_bar np_mean np_std sqrt d cfg delay f bar s).
Proof.
  unfold trade_bar. cbn zeta. generalize (sizing_equity d (bar - delay) s) as eq. generalize (decide_orders d cfg delay f bar s) as l.
  intros l eq. apply (foldl_invariant (extends_at bar s)); [apply extends_at_refl|].
  intros s' c _ Hs. eapply extends_at_trans; [exact Hs|apply act_extends].
Qed.

Lemma borrow_extends d cfg bar s : extends_at bar s (borrow_bar d cfg bar s).
Proof.
  unfold borrow_bar. apply (foldl_invariant (extends_at bar s)); [apply extends_at_refl|].
  intros s' p _ Hs. destruct (_ && _); [|done]. exact Hs.
Qed.

(** A bar adds one point of the equity curve, and trades of that bar. *)
Lemma bar_adds d cfg delay f s bar :
  ∃ v l, equity_net (bar_step d cfg delay f s bar) = equity_net s ++ [v] ∧
    trade_log (bar_step d cfg delay f s bar) = trade_log s ++ l ∧ Forall (λ t, tr_bar t = bar) l.
Proof.
  unfold run_bar. pose proof (trade_extends d cfg delay f bar s) as H1. revert H1.
  generalize (trade_bar np_mean np_std sqrt d cfg delay f bar s) as s1. intros s1 H1.
  pose proof (extends_at_trans _ _ _ _ H1 (borrow_extends d cfg bar s1)) as (E & _ & l & L & Hl).
  unfold mark_bar. cbn zeta. eexists _, l. cbn [equity_net trade_log set_field]. split; [|by split]. cbn. by rewrite E.
Qed.

(** ** The run up to a bar *)

Definition up_to (d : gmap string (AssetData F)) (cfg : BacktestConfig F) (delay start n1 n : nat) : EngineState F :=
  let first := max start delay in
  foldl (bar_step d cfg delay
           (λ t, signal_series np_mean np_std np_tanh (take n1 (closes d t)) (cfg_strategy cfg) (start - delay)))
    (initial_state (cfg_initial_capital cfg)) (seq first (n - first)).

Lemma up_to_agree d d' cfg delay start n n1 n2 :
  agree n d d' → (n ≤ n1)%nat → (n ≤ n2)%nat → up_to d cfg delay start n1 n = up_to d' cfg delay start n2 n.
Proof.
  intros Ha H1 H2. unfold up_to. apply foldl_ext_in. intros s bar Hb%elem_of_seq.
  apply (agree_bar n); [done|by apply agree_signal_series|lia].
Qed.

(** What bars add, over several of them. *)
Lemma bars_add d cfg delay f lo bars s :
  Forall (λ b, (lo ≤ b)%nat) bars →
  ∃ vs l, equity_net (foldl (bar_step d cfg delay f) s bars) = equity_net s ++ vs ∧ length vs = length bars ∧
    trade_log (foldl (bar_step d cfg delay f) s bars) = trade_log s ++ l ∧
    Forall (λ t, tr_bar t ∈ bars) l ∧ Forall (λ t, (lo ≤ tr_bar t)%nat) l.
Proof.
  revert s. induction bars as [|b bars IH]; intros s Hlo; cbn [foldl].
  - exists [], []. rewrite !app_nil_r. split_and!; try done; constructor.
  - apply Forall_cons in Hlo as [Hb Hlo]. destruct (bar_adds d cfg delay f s b) as (v & l & E & L & Hl).
    destruct (IH (bar_step d cfg delay f s b) Hlo) as (vs & l' & E' & Hlen & L' & Hin & Hge).
    exists (v :: vs), (l ++ l'). rewrite E', L', E, L, <- !app_assoc. split_and!; [done|cbn; by rewrite Hlen|done| |].
    + apply Forall_app. split; [|eapply Forall_impl; [exact Hin|]; intros t Ht; by right].
      eapply Forall_impl; [exact Hl|]. intros t ->. by left.
    + apply Forall_app. split; [|done]. eapply Forall_impl; [exact Hl|]. by intros t ->.
Qed.

(** The run's reports before bar [n] are those of the run stopped there. *)
Lemma run_reports d cfg delay start n n1 :
  (n ≤ n1)%nat →
  let first := max start delay in
  take (n - first) (equity_net (run_to d cfg delay start n1)) = equity_net (up_to d cfg delay start n1 n) ∧
  length (equity_net (up_to d cfg delay start n1 n)) = (n - first)%nat ∧
  filter (λ t, (tr_bar t < n)%nat) (trade_log (run_to d cfg delay start n1)) = trade_log (up_to d cfg delay start n1 n).
Proof.
  intros Hn first. unfold run_bars, up_to. cbn zeta. fold first.
  set (f := λ t, signal_series _ _ _ _ _ _).
  replace (n1 - first)%nat with ((n - first) + (n1 - first - (n - first)))%nat by lia.
  rewrite seq_app, foldl_app. set (s0 := initial_state _).
  destruct (bars_add d cfg delay f 0 (seq first (n - first)) s0) as (vs & l & E & Hlen & L & Hin & _);
    [apply Forall_forall; intros; lia|].
  set (s1 := foldl _ s0 _) in *.
  destruct (bars_add d cfg delay f n (seq (first + (n - first)) (n1 - first - (n - first))) s1) as (vs' & l' & E' & Hlen' & L' & Hin' & Hge).
  { apply Forall_forall. intros b Hb%elem_of_seq. lia. }
  rewrite length_seq in Hlen. change (equity_net s0) with (@nil F) in E. change (trade_log s0) with (@nil (TradeRecord F)) in L.
  cbn [app] in E, L. split_and!.
  - rewrite E'. rewrite take_app_le by (rewrite E; lia). apply take_ge. rewrite E. lia.
  - by rewrite E.
  - rewrite L', filter_app, filter_all, filter_none; [by rewrite app_nil_r| |].
    + intros t Ht. rewrite Forall_forall in Hge. specialize (Hge t Ht). lia.
    + rewrite L. intros t Ht. rewrite Forall_forall in Hin. apply Hin, elem_of_seq in Ht. lia.
Qed.

(** Neither the liquidation nor what it reads is in the reports. *)
Lemma liquidate_reports d n s :
  equity_net (liquidate d n s) = equity_net s ∧ trade_log (liquidate d n s) = trade_log s.
Proof.
  unfold liquidate. cbn zeta.
  apply (foldl_invariant (λ s', equity_net s' = equity_net s ∧ trade_log s' = trade_log s)); [done|].
  intros s' p _ Hs. destruct (_ && _); [|done]. exact Hs.
Qed.

(** C9: No look-ahead. Take any two data sets that agree on the first [n]
    bars, run the backtest on one to bar [n1] and on the other to bar [n2],
    both at or after [n]: the equity curve up to bar [n] and every trade made
    before it are the same. Whatever prices and volumes come at or after a bar,
    nothing the backtest reports before that bar depends on them; this holds
    of every strategy, in any arithmetic, binary64 included. *)
Theorem backtest_no_look_ahead d d' cfg start n n1 n2 r r' :
  agree n d d' → (n ≤ n1)%nat → (n ≤ n2)%nat →
  run d cfg start n1 = Ret r → run d' cfg start n2 = Ret r' →
  let bars := (n - max start (Z.to_nat (execution_delay_bars (cfg_execution cfg))))%nat in
  take bars (equity_net (br_state r)) = take bars (equity_net (br_state r')) ∧
  length (take bars (equity_net (br_state r))) = bars ∧
  filter (λ t, (tr_bar t < n)%nat) (trade_log (br_state r)) = filter (λ t, (tr_bar t < n)%nat) (trade_log (br_state r')).
Proof.
  intros Ha H1 H2. unfold run_strategy, delay_of.
  destruct (execution_delay_bars (cfg_execution cfg) <? MIN_DECISION_DELAY_BARS); cbn [obind]; [intros [=]|].
  set (delay := Z.to_nat _). intros [= <-] [= <-]. cbn [br_state]. cbn zeta.
  destruct (liquidate_reports d n1 (run_to d cfg delay start n1)) as [-> ->].
  destruct (liquidate_reports d' n2 (run_to d' cfg delay start n2)) as [-> ->].
  destruct (run_reports d cfg delay start n n1 H1) as (-> & Hl & ->).
  destruct (run_reports d' cfg delay start n n2 H2) as (-> & _ & ->).
  rewrite (up_to_agree d d' cfg delay start n n1 n2 Ha H1 H2) in Hl |- *. split; [done|]. split; [exact Hl|done].
Qed.

(** An order is chosen and sized from data up to the bar its signal was
    computed at: only which assets have a price at the fill's bar, and that
    price, come after it. *)
Lemma orders_decided_before_the_fill d d' cfg delay f bar s t :
  agree (bar - delay + 1) d d' →
  (∀ t, (bar < length (closes d t))%nat ↔ (bar < length (closes d' t))%nat) →
  decide_orders d cfg delay f bar s = decide_orders d' cfg delay f bar s ∧
  sizing_equity d (bar - delay) s = sizing_equity d' (bar - delay) s ∧
  pre_trade_liquidity np_mean np_std (default (mkAssetData [] None) (d !! t)) (bar - delay) =
  pre_trade_liquidity np_mean np_std (default (mkAssetData [] None) (d' !! t)) (bar - delay).
Proof.
  intros Ha Hb. split_and!.
  - unfold decide_orders. cbn zeta. rewrite (agree_valid _ d d' cfg Ha).
    by rewrite (list_filter_iff (λ t, (bar < length (closes d t))%nat) (λ t, (bar < length (closes d' t))%nat)).
  - apply (agree_sizing _ d d' _ s Ha). lia.
  - destruct (Ha t) as [a a' Haa|]; [|done]. cbn. apply (agree_liquidity _ a a' _ Haa). lia.
Qed.
End facts.

(** ** The order of the assets *)

Lemma string_compare_trans a b c : String.compare a b ≠ Gt → String.compare b c ≠ Gt → String.compare a c ≠ Gt.
Proof.
  revert b c. induction a as [|x a IH]; intros [|y b] [|z c]; cbn; try done.
  unfold Ascii.compare. destruct (N.compare_spec (Ascii.N_of_ascii x) (Ascii.N_of_ascii y)) as [Exy|Hxy|Hxy]; [| |done];
    destruct (N.compare_spec (Ascii.N_of_ascii y) (Ascii.N_of_ascii z)) as [Eyz|Hyz|Hyz]; try done;
    destruct (N.compare_spec (Ascii.N_of_ascii x) (Ascii.N_of_ascii z)) as [Exz|Hxz|Hxz]; try done; try lia. apply IH.
Qed.

#[global] Instance ticker_le_trans : Transitive ticker_le.
Proof.
  intros a b c. unfold ticker_le, String.leb. pose proof (string_compare_trans a b c) as Ht.
  destruct (String.compare a b), (String.compare b c), (String.compare a c); try done; by exfalso; apply Ht.
Qed.
#[global] Instance ticker_le_antisym : AntiSymm eq ticker_le.
Proof. intros a b. apply String.leb_antisym. Qed.
#[global] Instance ticker_le_total : Total ticker_le.
Proof. intros a b. apply String.leb_total. Qed.

Lemma sorted_tickers_unique l l' : l ≡ₚ l' → merge_sort ticker_le l = merge_sort ticker_le l'.
Proof.
  intros Hp. apply (Sorted_unique ticker_le).
  - apply Sorted_merge_sort, _.
  - apply Sorted_merge_sort, _.
  - by rewrite !merge_sort_Permutation.
Qed.

Section order.
Context {F : Type} `{Num F}.
Variable np_mean : list F → F.
Variable np_std : nat → list F → F.
Variable np_tanh : F → F.
Variable sqrt : F → F.

(** The order of the assets does not matter. Listing the same assets in
    another order gives the same run, bar by bar: the same trades in the same
    sequence, the same positions, costs and equity, also when cash covers only
    some of the entries. *)
Theorem asset_order_irrelevant d assets assets' initial strategy execution start n :
  assets ≡ₚ assets' →
  run_strategy np_mean np_std np_tanh sqrt d (mkBacktestConfig assets initial strategy execution) start n =
  run_strategy np_mean np_std np_tanh sqrt d (mkBacktestConfig assets' initial strategy execution) start n.
Proof.
  intros Hp. unfold run_strategy. cbn [cfg_execution cfg_initial_capital].
  destruct (delay_of execution) as [delay|e]; [|done]. cbn [obind].
  set (c := mkBacktestConfig assets _ _ _). set (c' := mkBacktestConfig assets' _ _ _).
  assert (valid_assets d c ≡ₚ valid_assets d c') as Hv by (exact (filter_Permutation (λ t, is_valid d t = true) _ _ Hp)).
  assert (run_bars np_mean np_std np_tanh sqrt d c delay start n = run_bars np_mean np_std np_tanh sqrt d c' delay start n) as ->; [|done].
  unfold run_bars. cbn zeta. cbn [cfg_strategy cfg_initial_capital c c']. apply foldl_ext_in. intros s bar _.
  set (f := λ t, _). unfold run_bar.
  assert (trade_bar np_mean np_std sqrt d c delay f bar s = trade_bar np_mean np_std sqrt d c' delay f bar s) as ->; [|done].
  unfold trade_bar. cbn zeta.
  assert (decide_orders d c delay f bar s = decide_orders d c' delay f bar s) as ->.
  { unfold decide_orders. cbn zeta. by rewrite (sorted_tickers_unique _ _ Hv). }
  apply foldl_ext_in. intros s' o _. unfold order_context. by rewrite (Permutation_length Hv).
Qed.
End order.

(** ** Seven closes, with a crossover on the fourth: one purchase *)

Definition ledger_data : gmap string (AssetData Q) :=
  {[ "AAA" := mkAssetData [10; 10; 9; 12; 13; 13; 13] (Some (replicate 7 (1000000 # 1))) ]}%Q.
(** The same first five bars, another future. *)
Definition ledger_data' : gmap string (AssetData Q) :=
  {[ "AAA" := mkAssetData [10; 10; 9; 12; 13; 1; 90] (Some (replicate 5 (1000000 # 1) ++ [5; 6])) ]}%Q.
Definition ledger_config : BacktestConfig Q :=
  mkBacktestConfig ["AAA"] 100000%Q (strategy_config MA_CROSSOVER 1 2) (zero_cost_config <| allow_short_selling := false |>).
Definition ledger_mean (l : list Q) : Q := (qsum l / inject_Z (Z.of_nat (length l)))%Q.
Definition ledger_run (n : nat) : outcome string BacktestResult :=
  run_strategy ledger_mean (λ _ _, (1 # 100)%Q) id id ledger_data ledger_config 2 n.
Definition ledger_run' (n : nat) : outcome string BacktestResult :=
  run_strategy ledger_mean (λ _ _, (1 # 100)%Q) id id ledger_data' ledger_config 2 n.

Lemma backtest_no_look_ahead_witness :
  ∃ r r', ledger_run 7 = Ret r ∧ ledger_run' 6 = Ret r' ∧
    filter (λ t, (tr_bar t < 5)%nat) (trade_log (br_state r)) = filter (λ t, (tr_bar t < 5)%nat) (trade_log (br_state r')) ∧
    length (filter (λ t, (tr_bar t < 5)%nat) (trade_log (br_state r))) = 1%nat.
Proof.
  destruct (ledger_run 7) as [r|e] eqn:E.
  2: { exfalso. apply (f_equal (λ x, match x with Ret _ => true | Raise _ => false end)) in E. vm_compute in E. discriminate E. }
  destruct (ledger_run' 6) as [r'|e] eqn:E'.
  2: { exfalso. apply (f_equal (λ x, match x with Ret _ => true | Raise _ => false end)) in E'. vm_compute in E'. discriminate E'. }
  assert (agree 5 ledger_data ledger_data') as Ha.
  { intros t. unfold ledger_data, ledger_data'. destruct (decide (t = "AAA")) as [->|Hne].
    - rewrite !lookup_singleton_eq. constructor. split; reflexivity.
    - rewrite !lookup_singleton_ne by congruence. constructor. }
  exists r, r'. split; [reflexivity|]. split; [reflexivity|]. split.
  - apply (backtest_no_look_ahead ledger_mean (λ _ _, (1 # 100)%Q) id id ledger_data ledger_data' ledger_config 2 5 7 6 r r');
      [exact Ha|lia|lia|exact E|exact E'].
  - apply (f_equal (λ x, match x with Ret r => length (filter (λ t, (tr_bar t < 5)%nat) (trade_log (br_state r))) | Raise _ => 0%nat end)) in E.
    etransitivity; [symmetry; exact E|]. vm_compute. reflexivity.
Defined.

Lemma asset_order_irrelevant_witness :
  run_strategy ledger_mean (λ _ _, (1 # 100)%Q) id id ledger_data
    (mkBacktestConfig ["AAA"; "BBB"] 100000%Q (strategy_config MA_CROSSOVER 1 2) retail_config) 2 7 =
  run_strategy ledger_mean (λ _ _, (1 # 100)%Q) id id ledger_data
    (mkBacktestConfig ["BBB"; "AAA"] 100000%Q (strategy_config MA_CROSSOVER 1 2) retail_config) 2 7.
Proof.
  apply (asset_order_irrelevant ledger_mean (λ _ _, (1 # 100)%Q) id id). constructor.
Defined.
