(* ===== verification/BacktestBooks.v ===== *)
(** The books of the backtest engine, in exact arithmetic: the trade log
    accounts for every unit of cash and every share, and a run without short
    selling never holds less than nothing. *)

From Stdlib Require Import QArith Qabs Lqa.
From S2P Require Import Prelude Numeric OrderedDict StrategySignals ExecutionModel BacktestEngine.
#[local] Open Scope Q_scope.

(** What a trade does to the cash and to its asset's position. *)
Definition trade_cash (t : TradeRecord Q) : Q :=
  if is_buy (tr_side t) then - (tr_filled_qty t * tr_fill_price t + tr_commission t)
  else tr_filled_qty t * tr_fill_price t - tr_commission t.
Definition trade_qty (t : TradeRecord Q) : Q := if is_buy (tr_side t) then tr_filled_qty t else - tr_filled_qty t.
Definition traded (log : list (TradeRecord Q)) (ticker : string) : Q :=
  qsum (trade_qty <$> filter (λ t, tr_asset t = ticker) log).

(** What a share of a ticker counts for at a bar: its close there, and nothing
    when its series is shorter. *)
Definition mark_price (d : gmap string (AssetData Q)) (i : nat) (ticker : string) : Q :=
  if (i <? length (closes d ticker))%nat then at_bar (closes d ticker) i else 0.
Definition trade_worth (d : gmap string (AssetData Q)) (i : nat) (t : TradeRecord Q) : Q :=
  trade_cash t + trade_qty t * mark_price d i (tr_asset t).

(** A position, put into the books, changes their worth by its own change. *)
Lemma values_put d i t v (ps : list (string * Q)) :
  NoDup (od_keys ps) →
  qsum (values_at d i (od_put t v ps)) == qsum (values_at d i ps) + (v - held t ps) * mark_price d i t.
Proof.
  assert (∀ t v ps, qsum (values_at d i ((t, v) :: ps)) == v * mark_price d i t + qsum (values_at d i ps)) as Hcons.
  { intros k w l. unfold values_at, mark_price. rewrite filter_cons. cbn [fst]. destruct (Nat.ltb_spec i (length (closes d k))).
    - rewrite decide_True by done. unfold qsum. cbn. ring.
    - rewrite decide_False by lia. ring. }
  induction ps as [|[k w] ps IH]; intros Hnd.
  - change (od_put t v []) with [(t, v)]. rewrite Hcons. unfold held. cbn. ring.
  - cbn [od_put]. apply NoDup_cons in Hnd as [Hk Hnd]. unfold held in *. cbn [od_get]. destruct (decide (k = t)) as [->|Hne].
    + rewrite !Hcons. cbn [default from_option id]. ring.
    + rewrite !Hcons, IH by done. ring.
Qed.

Section books.
Variable np_mean : list Q → Q.
Variable np_std : nat → list Q → Q.
Variable np_tanh : Q → Q.
Variable sqrt : Q → Q.
Variable initial : Q.

Record books (s : EngineState Q) : Prop := {
  bk_cash : capital s == initial + qsum (trade_cash <$> trade_log s) - total_borrow s;
  bk_held : ∀ t, held t (positions s) == traded (trade_log s) t;
  bk_commission : total_commission s == qsum (tr_commission <$> trade_log s);
  bk_keys : NoDup (od_keys (positions s));
  bk_worth : ∀ d i, qsum (values_at d i (positions s)) ==
    qsum ((λ r, trade_qty r * mark_price d i (tr_asset r)) <$> trade_log s);
  bk_after : ∀ k r, trade_log s !! k = Some r →
    tr_position_after r == traded (take (S k) (trade_log s)) (tr_asset r)
}.

Lemma traded_snoc log r t : traded (log ++ [r]) t == traded log t + (if decide (tr_asset r = t) then trade_qty r else 0).
Proof.
  unfold traded. rewrite filter_app, fmap_app, qsum_app. apply Qplus_comp; [reflexivity|].
  destruct (decide (tr_asset r = t)) as [E|E].
  - rewrite filter_singleton_True by done. unfold qsum. cbn. ring.
  - by rewrite filter_singleton_False.
Qed.

Lemma qsum_snoc {A} (f : A → Q) (l : list A) (x : A) : qsum (f <$> l ++ [x]) == qsum (f <$> l) + f x.
Proof. rewrite fmap_app, qsum_app. apply Qplus_comp; [reflexivity|]. unfold qsum. cbn. ring. Qed.

Lemma send_books cfg oc bar t side desired signal current s :
  books s → books (send cfg oc bar t side desired signal current (held t (positions s)) s).
Proof.
  intros [Hc Hh Hm Hk Hw Ha]. unfold send, book_fill. set (fill := execute_order _ _ _ _ _ _ _ _).
  destruct (filled fill); [|done]. cbn zeta.
  set (pos := if is_buy side then held t (positions s) ⊕ fill_qty fill else held t (positions s) ⊖ fill_qty fill).
  set (r := mkTradeRecord _ _ _ _ _ _ _ _ _ _ _ _ _).
  assert (trade_qty r == pos - held t (positions s)) as Hq.
  { unfold trade_qty, r, pos. cbn [tr_side tr_filled_qty]. destruct (is_buy side); cbn [nadd nsub Num_Q]; ring. }
  split; cbn [capital positions trade_log total_borrow total_commission].
  - cbn. rewrite qsum_snoc. unfold trade_cash at 2, r. cbn [tr_side tr_filled_qty tr_fill_price tr_commission].
    destruct (is_buy side); cbn [nadd nsub nmul Num_Q]; rewrite Hc; ring.
  - intros t'. eapply Qeq_trans; [|symmetry; apply traded_snoc]. cbn [tr_asset]. unfold held at 1.
    change (positions (s <| capital := _ |> <| positions ::= ?f |> <| total_commission ::= _ |> <| total_slippage ::= _ |>
      <| total_spread ::= _ |> <| turnover_shares ::= _ |> <| trade_log ::= _ |>)) with (f (positions s)). rewrite od_get_put.
    destruct (decide (t' = t)) as [->|Hne].
    + rewrite decide_True by done. cbn [default from_option id]. rewrite Hq, <- Hh. ring.
    + rewrite decide_False by (unfold r; cbn; congruence). fold (held t' (positions s)). rewrite Hh. symmetry. exact (Qplus_0_r (traded (trade_log s) t')).
  - cbn. rewrite qsum_snoc, Hm. reflexivity.
  - by apply od_keys_put.
  - intros d i. eapply Qeq_trans; [exact (values_put d i t pos _ Hk)|]. eapply Qeq_trans; [|symmetry; apply qsum_snoc].
    rewrite (Hw d i), Hq. reflexivity.
  - intros k x. cbn. intros [Hx|[Hx <-]]%lookup_snoc_Some.
    + destruct Hx as [Hlt Hx]. rewrite take_app_le by lia. by apply Ha.
    + subst k. rewrite take_ge by (rewrite length_app; cbn; lia). eapply Qeq_trans; [|symmetry; apply traded_snoc].
      rewrite decide_True by done. rewrite Hq, <- Hh. change (tr_position_after r) with pos. change (tr_asset r) with t. ring.
Qed.

Lemma act_books cfg bar t signal oc s : books s → books (act_on_signal sqrt cfg bar t signal oc s).
Proof.
  intros Hs. unfold act_on_signal. cbn zeta.
  destruct (_ && _).
  - set (s1 := if held t (positions s) <.? n0 then _ else s).
    assert (books s1) as H1 by (unfold s1; destruct (_ <.? _); [by apply send_books|done]).
    destruct (_ <.? sized _ _ _); [by apply send_books|done].
  - destruct (_ && _); [|done].
    set (s1 := send _ _ _ _ _ _ _ _ _ s). assert (books s1) as H1 by (by apply send_books).
    destruct (_ && _); [|done]. destruct (_ <.? sized _ _ _); [by apply send_books|done].
Qed.

Lemma trade_books d cfg delay f bar s : books s → books (trade_bar np_mean np_std sqrt d cfg delay f bar s).
Proof.
  intros Hs. unfold trade_bar. cbn zeta. generalize (sizing_equity d (bar - delay) s). generalize (decide_orders d cfg delay f bar s).
  intros l eq. apply (foldl_invariant books); [done|]. intros s' c _ Hs'. by apply act_books.
Qed.

Lemma borrow_books d cfg bar s : books s → books (borrow_bar d cfg bar s) ∧ positions (borrow_bar d cfg bar s) = positions s.
Proof.
  intros Hs. unfold borrow_bar.
  apply (foldl_invariant (λ s', books s' ∧ positions s' = positions s)); [done|].
  intros s' p _ [[Hc Hh Hm Hk Hw Ha] Hp]. destruct (_ && _); [|done]. split; [|exact Hp].
  split; cbn [capital trade_log total_borrow positions total_commission nadd nsub Num_Q]; [|exact Hh|exact Hm|exact Hk|exact Hw|exact Ha].
  generalize (daily_borrow_cost (cfg_execution cfg) p.1 p.2 (at_bar (closes d p.1) bar)). intros b.
  change (capital s' - b == initial + qsum (trade_cash <$> trade_log s') - (total_borrow s' + b)). rewrite Hc. ring.
Qed.

Lemma mark_books d bar s : books s → books (mark_bar d bar s).
Proof. intros [Hc Hh Hm Hk Hw Ha]. by split. Qed.

Lemma foldl_add (l : list Q) (a : Q) : foldl nadd a l == a + qsum l.
Proof. revert a. induction l as [|x l IH]; intros a; cbn [foldl]; [unfold qsum; cbn; ring|]. rewrite IH. unfold qsum. cbn. ring. Qed.

(** After a bar, the newest equity is the cash and the holdings at its closes. *)
Definition marked (d : gmap string (AssetData Q)) (bar : nat) (s : EngineState Q) : Prop :=
  ∃ v, last (equity_net s) = Some v ∧ v == capital s + qsum (values_at d bar (positions s)).

Lemma bar_books d cfg delay f s bar :
  books s → books (run_bar np_mean np_std sqrt d cfg delay f s bar) ∧
    marked d bar (run_bar np_mean np_std sqrt d cfg delay f s bar).
Proof.
  intros Hs. unfold run_bar. set (s1 := borrow_bar d cfg bar _).
  assert (books s1) as H1 by (by apply borrow_books, trade_books). split; [by apply mark_books|].
  unfold marked, mark_bar. cbn zeta. cbn. rewrite last_snoc. eexists. split; [done|]. apply foldl_add.
Qed.

Lemma run_books d cfg delay start n :
  cfg_initial_capital cfg = initial →
  let s := run_bars np_mean np_std np_tanh sqrt d cfg delay start n in
  books s ∧ (equity_net s = [] ∧ trade_log s = [] ∧ positions s = [] ∧ capital s = initial ∨ marked d (n - 1) s).
Proof.
  intros Hi. cbn zeta. unfold run_bars. cbn zeta. set (f := λ t, _). set (first := max start delay).
  assert (books (initial_state (cfg_initial_capital cfg))) as H0.
  { rewrite Hi. split; cbn; [unfold qsum; cbn; ring|by intros t|reflexivity|apply NoDup_nil_2|reflexivity|done]. }
  destruct (n - first)%nat as [|k] eqn:Ek.
  - split; [done|]. left. by rewrite Hi.
  - replace (S k) with (k + 1)%nat by lia. rewrite seq_app, foldl_app. cbn [seq foldl].
    set (s1 := foldl _ _ (seq first k)).
    assert (books s1) as H1.
    { apply (foldl_invariant books); [done|]. intros s' bar _ Hs'. by apply bar_books. }
    destruct (bar_books d cfg delay f s1 (first + k) H1) as [H2 H3]. split; [done|]. right.
    by replace (n - 1)%nat with (first + k)%nat by lia.
Qed.

(** ** Without short selling *)

Section long_only.
Variable d : gmap string (AssetData Q).
Variable cfg : BacktestConfig Q.
Hypothesis parameters_sane : sane (cfg_execution cfg).
Hypothesis no_shorts : allow_short_selling (cfg_execution cfg) = false.
Hypothesis volumes_nonneg : ∀ t a v, d !! t = Some a → ad_volume a = Some v → Forall (λ x, 0 <= x) v.
Hypothesis mean_nonneg : ∀ l, Forall (λ x, 0 <= x) l → 0 <= np_mean l.
Hypothesis std_nonneg : ∀ k l, 0 <= np_std k l.

(** A holding of whole millionths of a share, not negative. *)
Definition long (p : Q) : Prop := ∃ z, (0 <= z)%Z ∧ p == z # 1000000.
Record long_book (s : EngineState Q) : Prop := {
  lg_held : ∀ t, long (held t (positions s));
  lg_log : Forall (λ r, 0 <= tr_position_after r) (trade_log s)
}.

Lemma long_nonneg p : long p → 0 <= p.
Proof. intros (z & Hz & ->). unfold Qle. cbn. lia. Qed.
Lemma long_add p r : (0 <= r)%Z → long p → long (p + (r # 1000000)).
Proof.
  intros Hr (z & Hz & Hp). exists (z + r)%Z. split; [lia|]. rewrite Hp. unfold Qeq. cbn. lia.
Qed.
Lemma long_sub p z r : (0 <= r)%Z → (r <= z)%Z → p == z # 1000000 → long (p - (r # 1000000)).
Proof. intros Hr Hz Hp. exists (z - r)%Z. split; [lia|]. rewrite Hp. unfold Qeq. cbn. lia. Qed.

Lemma liquidity_nonneg t i :
  0 <= (pre_trade_liquidity np_mean np_std (default (mkAssetData [] None) (d !! t)) i).1 ∧
  0 <= (pre_trade_liquidity np_mean np_std (default (mkAssetData [] None) (d !! t)) i).2.
Proof.
  unfold pre_trade_liquidity. cbn zeta. cbn [fst snd]. split.
  - destruct (1 <? _)%nat; [apply std_nonneg|discriminate].
  - destruct (d !! t) as [a|] eqn:Ed; cbn [default from_option id].
    + destruct (ad_volume a) as [v|] eqn:Ev; [|discriminate]. destruct (1 <? i)%nat; [|discriminate].
      apply mean_nonneg. unfold slice. apply Forall_take, Forall_drop. by eapply volumes_nonneg.
    + discriminate.
Qed.

Definition context_ok (oc : OrderContext) : Prop := 0 <= oc_daily_vol oc ∧ 0 <= oc_avg_volume oc.

(** An order that buys, or sells at most what is held. *)
Lemma send_long oc bar t side desired signal s :
  context_ok oc → (side = Sell → desired = Qabs (held t (positions s))) → long_book s →
  long_book (send (cfg_execution cfg) oc bar t side desired signal (held t (positions s)) (held t (positions s)) s).
Proof.
  intros [Hv Ha] Hd [Hh Hl]. unfold send, book_fill. set (fill := execute_order _ _ _ _ _ _ _ _).
  destruct (filled fill) eqn:Ef; [|done]. cbn zeta.
  destruct (execution_limits (cfg_execution cfg) side desired (oc_price oc) (oc_daily_vol oc) (oc_avg_volume oc) (capital s)
              (held t (positions s)) parameters_sane Hv Ha Ef) as (q & fp & c & Hq & _ & _ & Hw).
  fold fill in Hq. destruct Hw as (Hq0 & Hq1 & _ & _ & _ & Hside). destruct (nround_grid q) as (r & Hr & Hle & Hge).
  assert (0 <= r)%Z as Hr0 by (apply Hge; change (@tiny Q _) with (1 # 1000000000) in Hq0; unfold Qle in *; cbn in *; lia).
  assert (long (if is_buy side then held t (positions s) ⊕ fill_qty fill else held t (positions s) ⊖ fill_qty fill)) as Hpos.
  { rewrite Hq, Hr. destruct side; cbn [is_buy nadd nsub Num_Q].
    - by apply long_add.
    - destruct (Hh t) as (z & Hz & Hp). apply (long_sub _ z); [done| |done]. apply Hle.
      rewrite (Hd eq_refl), (Qabs_pos (Qabs _)) in Hq1 by apply Qabs_nonneg.
      rewrite Qabs_pos in Hq1 by (by apply long_nonneg). by rewrite <- Hp. }
  split.
  - intros t'. cbn. unfold held. rewrite od_get_put. destruct (decide (t' = t)); [exact Hpos|apply Hh].
  - cbn. apply Forall_app. split; [done|]. constructor; [|done]. by apply long_nonneg.
Qed.

Lemma act_long bar t signal oc s :
  context_ok oc → long_book s → long_book (act_on_signal sqrt (cfg_execution cfg) bar t signal oc s).
Proof.
  intros Ho Hs. unfold act_on_signal. cbn zeta. rewrite no_shorts. cbn [andb]. destruct (_ && _).
  - set (s1 := if held t (positions s) <.? n0 then _ else s).
    assert (long_book s1) as H1 by (unfold s1; destruct (_ <.? _); [by apply send_long|done]).
    destruct (_ <.? sized _ _ _); [by apply send_long|done].
  - destruct (_ && _); [|done]. by apply send_long.
Qed.

Lemma bar_long delay f s bar : long_book s → long_book (run_bar np_mean np_std sqrt d cfg delay f s bar).
Proof.
  intros Hs. unfold run_bar. set (s1 := trade_bar _ _ _ _ _ _ _ _ s).
  assert (long_book s1) as H1.
  { unfold s1, trade_bar. cbn zeta. generalize (sizing_equity d (bar - delay) s). generalize (decide_orders d cfg delay f bar s).
    intros l eq. apply (foldl_invariant long_book); [done|]. intros s' c _ Hs'. apply act_long; [|done].
    unfold order_context. pose proof (liquidity_nonneg c.1 (bar - delay)) as Hl.
    destruct (pre_trade_liquidity _ _ _ _) as [v a]. exact Hl. }
  assert (long_book (borrow_bar d cfg bar s1)) as [H2 H3]; [|by split].
  unfold borrow_bar. apply (foldl_invariant long_book); [done|]. intros s' p _ [Hh Hl]. by destruct (_ && _).
Qed.

Lemma run_long delay start n : long_book (run_bars np_mean np_std np_tanh sqrt d cfg delay start n).
Proof.
  unfold run_bars. cbn zeta. apply (foldl_invariant long_book); [|intros s bar _ Hs; by apply bar_long].
  split; [|constructor]. intros t. exists 0%Z. by split.
Qed.
End long_only.
End books.

Lemma liquidate_totals d n (s : EngineState Q) :
  total_borrow (liquidate d n s) = total_borrow s ∧ total_commission (liquidate d n s) = total_commission s.
Proof.
  unfold liquidate. cbn zeta.
  apply (foldl_invariant (λ s', total_borrow s' = total_borrow s ∧ total_commission s' = total_commission s)); [done|].
  intros s' p _ Hs. destruct (_ && _); [|done]. exact Hs.
Qed.

Lemma qsum_worth d i (log : list (TradeRecord Q)) :
  qsum (trade_worth d i <$> log) ==
  qsum (trade_cash <$> log) + qsum ((λ r, trade_qty r * mark_price d i (tr_asset r)) <$> log).
Proof.
  induction log as [|r log IH]; [reflexivity|]. unfold qsum in *. cbn [fmap list_fmap foldr]. rewrite IH. unfold trade_worth. ring.
Qed.

(** C10: The books balance. In exact arithmetic, the final capital a backtest
    reports is the initial capital, plus for each trade in its log what the
    trade brought (a sale) or cost (a purchase), its commission paid, and its
    shares at the last bar's close, less the borrow costs; the commissions
    reported are the log's; and the position each record states is the sum of
    its asset's signed quantities up to that record. And when short selling is
    off (cost parameters, volatilities and volumes not negative), no trade
    ever leaves a negative position. *)
Theorem backtest_books_balance np_mean np_std np_tanh sqrt d cfg start n r :
  run_strategy np_mean np_std np_tanh sqrt d cfg start n = Ret r →
  let log := trade_log (br_state r) in
  br_final_capital r == cfg_initial_capital cfg + qsum (trade_worth d (n - 1) <$> log) - total_borrow (br_state r) ∧
  total_commission (br_state r) == qsum (tr_commission <$> log) ∧
  (∀ k t, log !! k = Some t → tr_position_after t == traded (take (S k) log) (tr_asset t)) ∧
  (sane (cfg_execution cfg) → allow_short_selling (cfg_execution cfg) = false →
   (∀ t a v, d !! t = Some a → ad_volume a = Some v → Forall (λ x, 0 <= x) v) →
   (∀ l, Forall (λ x, 0 <= x) l → 0 <= np_mean l) → (∀ k l, 0 <= np_std k l) →
   Forall (λ t, 0 <= tr_position_after t) log).
Proof.
  unfold run_strategy. destruct (delay_of (cfg_execution cfg)) as [delay|e]; cbn [obind]; [|intros [=]].
  set (s := run_bars _ _ _ _ _ _ _ _ _). intros [= <-]. cbn [br_state br_final_capital].
  destruct (liquidate_reports d n s) as [He Hl]. rewrite He, Hl. destruct (liquidate_totals d n s) as [-> ->].
  destruct (run_books np_mean np_std np_tanh sqrt (cfg_initial_capital cfg) d cfg delay start n eq_refl) as [[Hc Hh Hm Hk Hw Ha] Hlast].
  fold s in Hc, Hh, Hm, Hk, Hw, Ha, Hlast. split; [|split; [exact Hm|split; [exact Ha|]]].
  - rewrite qsum_worth. destruct Hlast as [(E1 & E2 & E3 & E4)|(v & Hv & Hval)].
    + rewrite E2, E4 in Hc. rewrite E1, E2. cbn [last default from_option id]. unfold qsum in *. cbn in *. lra.
    + rewrite Hv. cbn [default from_option id]. rewrite Hval, Hc, Hw. ring.
  - intros. by apply (lg_log s (run_long np_mean np_std np_tanh sqrt d cfg ltac:(done) ltac:(done) ltac:(done) ltac:(done) ltac:(done) delay start n)).
Qed.

Lemma ledger_mean_nonneg l : Forall (λ x, 0 <= x) l → 0 <= ledger_mean l.
Proof.
  intros Hl. assert (0 <= qsum l) as Hs.
  { induction Hl as [|x l Hx _ IH]; [discriminate|]. unfold qsum in *. cbn. lra. }
  unfold ledger_mean. destruct l as [|x l]; [discriminate|]. apply Qle_shift_div_l; [reflexivity|]. by rewrite Qmult_0_l.
Qed.

Lemma backtest_books_balance_witness :
  ∃ r, ledger_run 7 = Ret r ∧ Forall (λ t, 0 <= tr_position_after t) (trade_log (br_state r)) ∧
    br_final_capital r ==
      cfg_initial_capital ledger_config + qsum (trade_worth ledger_data 6 <$> trade_log (br_state r)) - total_borrow (br_state r).
Proof.
  destruct (ledger_run 7) as [r|e] eqn:E.
  - destruct (backtest_books_balance ledger_mean (λ _ _, 1 # 100) id id ledger_data ledger_config 2 7 r E) as (Hf & _ & _ & Hl).
    exists r. split; [reflexivity|]. split; [|exact Hf]. apply Hl.
    + split; repeat split; discriminate.
    + reflexivity.
    + intros t a v Ha Hv. unfold ledger_data in Ha. apply lookup_singleton_Some in Ha as [_ <-]. injection Hv as <-.
      repeat constructor; discriminate.
    + exact ledger_mean_nonneg.
    + intros. discriminate.
  - exfalso. apply (f_equal (λ x, match x with Ret _ => true | Raise _ => false end)) in E. vm_compute in E. discriminate E.
Defined.
