(* ===== verification/RiskMetrics.v ===== *)
(** backend/services/backtest_service.py: the risk statistics of a series of
    returns, alone and against a benchmark. *)

From Stdlib Require Import QArith Qabs Lqa.
From stdpp Require Import sorting.
From S2P Require Import Prelude Numeric StrategySignals ExecutionModel BacktestEngine.
#[local] Open Scope nat_scope.

Section metrics.
Context {F : Type} `{Num F}.
Variable np_mean : list F → F.
Variable np_std : nat → list F → F.
Variable sqrt : F → F.
(** [np.cov(a, b)]: its entries [0, 1] and [1, 1]. *)
Variable np_cov : list F → list F → F * F.

(** [np.minimum(returns - target, 0.0) ** 2], for a target of zero *)
Definition downside_squares (returns : list F) : list F :=
  (λ r, let d := np_minimum (r ⊖ n0) n0 in d ⊗ d) <$> returns.

Definition sortino (returns : list F) : F :=
  if length returns <? 2 then n0
  else
    let excess := (λ r, r ⊖ n0 ⊘ nof_Z 252) <$> returns in
    let dd := sqrt (np_mean (downside_squares returns)) in
    if dd <.? tiny then n0 else np_mean excess ⊘ dd ⊗ sqrt (nof_Z 252).

Definition calmar (returns : list F) (max_dd : F) : F :=
  if (max_dd <.? tiny) || (length returns <? 2) then n0
  else np_mean returns ⊗ nof_Z 252 ⊘ max_dd.

(** [int(x)] of a float between 0 and [n]. *)
Definition int_below (n : nat) (x : F) : nat := length (filter (λ k, (nof_Z (Z.of_nat k) <=.? x) = true) (seq 1 n)).

(** [np.sort] of values that are not NaN. *)
Definition float_le (x y : F) : Prop := (x <=.? y) = true.
#[local] Instance float_le_dec x y : Decision (float_le x y) := decide (_ = true).
Definition np_sort (xs : list F) : list F := merge_sort float_le xs.

Definition var_cvar (returns : list F) (alpha : F) : F * F :=
  if length returns <? 5 then (n0, n0)
  else
    let sorted_rets := np_sort returns in
    let idx := int_below (length sorted_rets) (alpha ⊗ nof_Z (Z.of_nat (length sorted_rets))) in
    let var := nopp (at_bar sorted_rets idx) in
    let tail := take (idx + 1) sorted_rets in
    let cvar := nopp (np_mean tail) in
    (nmax n0 var, nmax n0 cvar).

Definition downside_deviation (returns : list F) : F :=
  if length returns <? 2 then n0 else sqrt (np_mean (downside_squares returns)).

Definition alpha_beta (strategy benchmark : list F) : F * F :=
  if length strategy <? 5 then (n0, n1)
  else
    let '(cov, var_b) := np_cov strategy benchmark in
    if var_b <.? nof_ratio 1 1000000000000 then (n0, n1)
    else
      let beta := cov ⊘ var_b in
      ((np_mean strategy ⊖ beta ⊗ np_mean benchmark) ⊗ nof_Z 252, beta).

Definition tracking_error (strategy benchmark : list F) : F :=
  let diff := zip_with nsub strategy benchmark in
  if length diff <? 2 then n0 else np_std 1 diff ⊗ sqrt (nof_Z 252).

Definition information_ratio (strategy benchmark : list F) : F :=
  let te := tracking_error strategy benchmark in
  if te <.? tiny then n0 else np_mean (zip_with nsub strategy benchmark) ⊗ nof_Z 252 ⊘ te.
End metrics.

#[local] Close Scope nat_scope.
(** * Theorems

    The drawdown and the value at risk are what their names say, in exact
    arithmetic. *)

#[local] Open Scope Q_scope.

(** ** Drawdown *)

Definition fall (a b : Q) : Q := (a - b) / a.

Definition drawdown_step (acc : Q * Q) (v : Q) : Q * Q :=
  let '(peak, dd) := acc in
  let peak := nmax peak v in (peak, if peak >.? n0 then nmax dd ((peak ⊖ v) ⊘ peak) else dd).

Lemma max_drawdown_fold e1 e2 es :
  max_drawdown (e1 :: e2 :: es) = (foldl drawdown_step (e1, n0) (e1 :: e2 :: es)).2.
Proof. unfold max_drawdown. f_equal. apply foldl_ext_in. by intros [peak dd] v _. Qed.

(** After some values: the peak is the largest of them, and the drawdown the
    largest fall from one to a later one. *)
Record drawdown_inv (seen : list Q) (acc : Q * Q) : Prop := {
  di_peak_in : acc.1 ∈ seen;
  di_peak : ∀ v, v ∈ seen → v <= acc.1;
  di_bound : ∀ i j a b, (i ≤ j)%nat → seen !! i = Some a → seen !! j = Some b → fall a b <= acc.2;
  di_reached : acc.2 == 0 ∨ ∃ i j a b, (i ≤ j)%nat ∧ seen !! i = Some a ∧ seen !! j = Some b ∧ acc.2 == fall a b
}.

Lemma fall_mono a a' b : 0 < a → a <= a' → 0 <= b → fall a b <= fall a' b.
Proof.
  intros Ha Hle Hb. unfold fall. assert (0 < a') as Ha' by lra.
  assert (∀ x, 0 < x → (x - b) / x == 1 - b / x) as Hx by (intros x Hx; field; lra).
  rewrite !Hx by done. assert (b / a' <= b / a); [|lra].
  apply Qle_shift_div_l; [done|]. assert (b / a' * a == b * (a / a')) as -> by (field; lra).
  assert (a / a' <= 1) by (apply Qle_shift_div_r; lra). nra.
Qed.

Lemma drawdown_snoc seen acc v :
  (∀ x, x ∈ seen → 0 < x) → 0 < v → drawdown_inv seen acc → drawdown_inv (seen ++ [v]) (drawdown_step acc v).
Proof.
  intros Hpos Hv [Hin Hpk Hb Hr]. destruct acc as [peak dd]. cbn [fst snd] in *. unfold drawdown_step.
  destruct (nmax_Q peak v) as (Hp1 & Hp2 & Hp3). set (peak' := nmax peak v) in *.
  pose proof (Hpos _ Hin) as Hpeak. assert ((peak' >.? n0) = true) as -> by (apply nlt_Q; change (@n0 Q _) with 0; lra).
  assert ((peak' ⊖ v) ⊘ peak' = fall peak' v) as -> by done.
  destruct (nmax_Q dd (fall peak' v)) as (Hd1 & Hd2 & Hd3). set (dd' := nmax dd (fall peak' v)) in *.
  assert (∃ k, (k ≤ length seen)%nat ∧ (seen ++ [v]) !! k = Some peak') as (k & Hk & Hpk').
  { destruct Hp3 as [->| ->].
    - apply list_elem_of_lookup in Hin as [k Hk]. exists k. split; [apply lookup_lt_Some in Hk; lia|].
      by apply lookup_app_l_Some.
    - exists (length seen). split; [done|]. by rewrite lookup_app_r, Nat.sub_diag by done. }
  split; cbn [fst snd].
  - by eapply list_elem_of_lookup_2.
  - intros x [Hx| ->%list_elem_of_singleton]%elem_of_app; [|done]. specialize (Hpk x Hx). lra.
  - intros i j a b Hij Ha Hb'. destruct (Nat.lt_ge_cases j (length seen)) as [Hj|Hj].
    + rewrite lookup_app_l in Ha, Hb' by lia. specialize (Hb i j a b Hij Ha Hb'). lra.
    + assert (j = length seen) as ->.
      { apply lookup_lt_Some in Hb'. rewrite length_app in Hb'. cbn in Hb'. lia. }
      rewrite lookup_app_r, Nat.sub_diag in Hb' by done. cbn in Hb'. injection Hb' as <-.
      assert (a ∈ seen ++ [v]) as Hain by (by eapply list_elem_of_lookup_2).
      assert (0 < a ∧ a <= peak') as [H1 H2].
      { apply elem_of_app in Hain as [Hx| ->%list_elem_of_singleton]; [|split; done]. split; [by apply Hpos|].
        specialize (Hpk a Hx). lra. }
      pose proof (fall_mono a peak' v H1 H2 ltac:(lra)). lra.
  - destruct Hd3 as [E|E]; rewrite E.
    + destruct Hr as [?|(i & j & a & b & ? & Ha & Hb' & ?)]; [by left|]. right. exists i, j, a, b.
      split_and!; [done|by apply lookup_app_l_Some|by apply lookup_app_l_Some|done].
    + right. exists k, (length seen), peak', v. split_and!; [done..| |reflexivity].
      by rewrite lookup_app_r, Nat.sub_diag by done.
Qed.

Lemma drawdown_run es seen acc :
  (∀ x, x ∈ seen ++ es → 0 < x) → drawdown_inv seen acc → drawdown_inv (seen ++ es) (foldl drawdown_step acc es).
Proof.
  revert seen acc. induction es as [|v es IH]; intros seen acc Hpos Hinv; [by rewrite app_nil_r|].
  cbn [foldl]. replace (seen ++ v :: es) with ((seen ++ [v]) ++ es) in * by (by rewrite <- app_assoc).
  apply IH; [done|]. apply drawdown_snoc; [| |done].
  - intros x Hx. apply Hpos. rewrite !elem_of_app. auto.
  - apply Hpos. rewrite !elem_of_app. left. right. by left.
Qed.

(** The maximum drawdown of an equity curve that stays positive is the
    largest relative fall from any value to a later one: no fall is larger, it
    is reached unless it is zero, and it is at least zero and below one. *)
Theorem max_drawdown_exact (equity : list Q) :
  (∀ x, x ∈ equity → 0 < x) → (2 ≤ length equity)%nat →
  let dd := max_drawdown equity in
  (∀ i j a b, (i ≤ j)%nat → equity !! i = Some a → equity !! j = Some b → fall a b <= dd) ∧
  (dd == 0 ∨ ∃ i j a b, (i ≤ j)%nat ∧ equity !! i = Some a ∧ equity !! j = Some b ∧ dd == fall a b) ∧
  0 <= dd ∧ dd < 1.
Proof.
  intros Hpos Hl. destruct equity as [|e1 [|e2 es]]; cbn in Hl; [lia..|]. cbn zeta. rewrite max_drawdown_fold.
  assert (∀ x, 0 < x → fall x x == 0) as Hself by (intros x Hx; unfold fall; field; lra).
  assert (0 < e1) as He1 by (apply Hpos; by left).
  assert (drawdown_inv [e1] (drawdown_step (e1, n0) e1)) as Hbase.
  { unfold drawdown_step. assert (nmax e1 e1 = e1) as -> by (by destruct (nmax_Q e1 e1) as (_ & _ & [-> | ->])).
    assert ((e1 >.? n0) = true) as -> by (apply nlt_Q; exact He1). change ((e1 ⊖ e1) ⊘ e1) with (fall e1 e1).
    assert (nmax n0 (fall e1 e1) == 0) as H0.
    { destruct (nmax_Q n0 (fall e1 e1)) as (_ & _ & [-> | ->]); [reflexivity|by apply Hself]. }
    split; cbn [fst snd].
    - by left.
    - intros v ->%list_elem_of_singleton. apply Qle_refl.
    - intros [|i] [|j] a b _; cbn; [|done..]. intros [= <-] [= <-]. rewrite H0, Hself by done. apply Qle_refl.
    - by left. }
  destruct (drawdown_run (e2 :: es) [e1] _ Hpos Hbase) as [_ _ Hb Hr]. cbn [app] in Hb, Hr.
  change (foldl drawdown_step (e1, n0) (e1 :: e2 :: es)) with (foldl drawdown_step (drawdown_step (e1, n0) e1) (e2 :: es)).
  split_and!; [exact Hb|exact Hr| |].
  - rewrite <- (Hself e1 He1). apply (Hb 0 0 e1 e1)%nat; done.
  - destruct Hr as [->|(i & j & a & b & _ & Ha & Hb' & ->)]; [lra|].
    assert (0 < a ∧ 0 < b) as [Ha0 Hb0] by (split; apply Hpos; by eapply list_elem_of_lookup_2).
    unfold fall. apply Qlt_shift_div_r; lra.
Qed.

(** ** Value at risk *)

#[local] Instance float_le_trans : Transitive (float_le (F:=Q)).
Proof. intros x y z Hx Hy. apply nle_Q. apply nle_Q in Hx, Hy. lra. Qed.
#[local] Instance float_le_total : Total (float_le (F:=Q)).
Proof. intros x y. unfold float_le. rewrite !nle_Q. destruct (Qlt_le_dec x y); [left; lra|by right]. Qed.

Lemma np_sort_Permutation (xs : list Q) : np_sort xs ≡ₚ xs.
Proof. apply merge_sort_Permutation. Qed.
Lemma np_sort_sorted (xs : list Q) : StronglySorted float_le (np_sort xs).
Proof. apply (StronglySorted_merge_sort float_le). Qed.

Lemma sorted_at (l : list Q) i j a b :
  StronglySorted float_le l → (i ≤ j)%nat → l !! i = Some a → l !! j = Some b → a <= b.
Proof.
  intros Hs. revert i j. induction Hs as [|x l Hs IH Hx]; intros i j Hij; [done|]. destruct i as [|i], j as [|j]; cbn; [..|lia|].
  - intros [= <-] [= <-]. apply Qle_refl.
  - intros [= <-] Hb. rewrite Forall_forall in Hx. apply nle_Q, Hx. by eapply list_elem_of_lookup_2.
  - intros Ha Hb. apply (IH i j); [lia|done..].
Qed.

Definition of_nat (n : nat) : Q := inject_Z (Z.of_nat n).
Lemma of_nat_S n : of_nat (S n) == of_nat n + 1.
Proof. unfold of_nat. rewrite Nat2Z.inj_succ, <- Z.add_1_r. by rewrite inject_Z_plus. Qed.
Lemma of_nat_le n m : (n ≤ m)%nat → of_nat n <= of_nat m.
Proof. intros. unfold of_nat. rewrite <- Zle_Qle. lia. Qed.
Lemma of_nat_lt n m : (n < m)%nat → of_nat n < of_nat m.
Proof. intros. unfold of_nat. rewrite <- Zlt_Qlt. lia. Qed.

Lemma int_below_S n (x : Q) : int_below (S n) x = (int_below n x + if nof_Z (Z.of_nat (S n)) <=.? x then 1 else 0)%nat.
Proof.
  unfold int_below. rewrite seq_S, filter_app, length_app. f_equal. rewrite filter_cons. cbn [Nat.add].
  destruct (nof_Z (Z.of_nat (S n)) <=.? x); [by rewrite decide_True|by rewrite decide_False].
Qed.

(** It is the integer part. *)
Lemma int_below_spec n (x : Q) : 0 <= x → x < of_nat n → of_nat (int_below n x) <= x ∧ x < of_nat (int_below n x) + 1.
Proof.
  assert (∀ m, of_nat m <= x → int_below m x = m) as Hall.
  { induction m as [|m IH]; intros Hm; [done|]. rewrite of_nat_S in Hm. rewrite int_below_S, IH by lra.
    assert ((nof_Z (Z.of_nat (S m)) <=.? x) = true) as ->; [|lia]. apply nle_Q. change (of_nat (S m) <= x). rewrite of_nat_S. lra. }
  intros H0. induction n as [|n IH]; intros Hx; [change (of_nat 0) with 0 in Hx; lra|]. rewrite int_below_S.
  assert ((nof_Z (Z.of_nat (S n)) <=.? x) = false) as ->; [apply nle_Q_false; exact Hx|]. rewrite Nat.add_0_r.
  destruct (Qlt_le_dec x (of_nat n)) as [Hlt|Hle]; [by apply IH|]. rewrite of_nat_S in Hx. rewrite Hall by done. lra.
Qed.

Definition below (q : Q) (l : list Q) : nat := length (filter (λ r, (r <.? q) = true) l).
Definition up_to (q : Q) (l : list Q) : nat := length (filter (λ r, (r <=.? q) = true) l).

Lemma below_perm q l l' : l ≡ₚ l' → below q l = below q l'.
Proof. intros Hp. unfold below. by rewrite Hp. Qed.
Lemma up_to_perm q l l' : l ≡ₚ l' → up_to q l = up_to q l'.
Proof. intros Hp. unfold up_to. by rewrite Hp. Qed.

Lemma rank_below (l : list Q) i q : StronglySorted float_le l → l !! i = Some q → (below q l ≤ i ∧ i < up_to q l)%nat.
Proof.
  intros Hs Hq. pose proof (lookup_lt_Some _ _ _ Hq) as Hi. unfold below, up_to. split.
  - rewrite <- (take_drop i l), filter_app, length_app.
    rewrite (filter_none _ (drop i l)); [|].
    + cbn. rewrite Nat.add_0_r. etrans; [apply length_filter|]. rewrite length_take. lia.
    + intros x [k Hk]%list_elem_of_lookup. rewrite lookup_drop in Hk.
      pose proof (sorted_at l i (i + k) q x Hs ltac:(lia) Hq Hk). rewrite nlt_Q. lra.
  - rewrite <- (take_drop (S i) l), filter_app, length_app.
    rewrite (filter_all _ (take (S i) l)).
    + rewrite length_take. lia.
    + intros x [k Hk]%list_elem_of_lookup. apply lookup_take_Some in Hk as [Hk Hlt].
      pose proof (sorted_at l k i x q Hs ltac:(lia) Hk Hq). by apply nle_Q.
Qed.

(** The value at risk is a quantile, and the expected shortfall covers it.
    For at least five returns and a level in [[0, 1)], the value at risk is the
    loss, at least zero, of one of the returns: at most a share [alpha] of the
    returns is worse, and more than that share is at least as bad. When a mean
    is not above the largest of its values, the conditional value at risk is at
    least the value at risk. *)
Theorem value_at_risk_is_quantile np_mean (returns : list Q) alpha :
  (5 ≤ length returns)%nat → 0 <= alpha → alpha < 1 →
  (∀ l x, l ≠ [] → (∀ y, y ∈ l → y <= x) → np_mean l <= x) →
  let n := of_nat (length returns) in
  let var := (var_cvar np_mean returns alpha).1 in
  let cvar := (var_cvar np_mean returns alpha).2 in
  (∃ q, q ∈ returns ∧ var = nmax 0 (- q) ∧ of_nat (below q returns) <= alpha * n ∧ alpha * n < of_nat (up_to q returns)) ∧
  0 <= var ∧ var <= cvar.
Proof.
  intros Hl Ha0 Ha1 Hmean. cbn zeta. unfold var_cvar. destruct (Nat.ltb_spec (length returns) 5); [lia|]. cbn zeta.
  set (s := np_sort returns). pose proof (np_sort_Permutation returns) as Hp. fold s in Hp. pose proof (np_sort_sorted returns) as Hs. fold s in Hs.
  rewrite (Permutation_length Hp). set (n := length returns) in *. set (x := alpha ⊗ nof_Z (Z.of_nat n)).
  assert (x == alpha * of_nat n) as Hx by reflexivity.
  assert (0 < of_nat n) as Hn by (apply (of_nat_lt 0); lia).
  destruct (int_below_spec n x) as [Hlo Hhi]; [rewrite Hx; nra|rewrite Hx; nra|]. set (idx := int_below n x) in *.
  assert (idx < n)%nat as Hidx.
  { apply Nat.nle_gt. intros Hge%of_nat_le. rewrite Hx in Hlo. nra. }
  assert (is_Some (s !! idx)) as [q Hq] by (apply lookup_lt_is_Some; rewrite (Permutation_length Hp); done).
  assert (at_bar s idx = q) as -> by (unfold at_bar; by rewrite Hq).
  destruct (rank_below s idx q Hs Hq) as [Hbelow Habove]. cbn [fst snd].
  destruct (nmax_Q n0 (nopp q)) as (Hv0 & Hv1 & Hv2). split; [|split; [exact Hv0|]].
  - exists q. split; [rewrite <- Hp; by eapply list_elem_of_lookup_2|]. split; [done|]. rewrite <- Hx, <- (below_perm q s), <- (up_to_perm q s) by done.
    apply of_nat_le in Hbelow. apply of_nat_le in Habove. rewrite of_nat_S in Habove. lra.
  - destruct (nmax_Q n0 (nopp (np_mean (take (idx + 1) s)))) as (Hc0 & Hc1 & _).
    assert (np_mean (take (idx + 1) s) <= q) as Hm.
    { apply Hmean.
      - destruct s; [done|]. by rewrite Nat.add_1_r.
      - intros y [k Hk]%list_elem_of_lookup. apply lookup_take_Some in Hk as [Hk Hlt]. apply (sorted_at s k idx); [done|lia|done..]. }
    cbn [nopp Num_Q] in *. destruct Hv2 as [-> | ->]; [exact Hc0|]. lra.
Qed.

(** ** On concrete returns *)

Definition sample_equity : list Q := [100; 120; 90; 130; 104].

Lemma max_drawdown_exact_witness :
  max_drawdown sample_equity == 1 # 4 ∧ fall 130 104 <= max_drawdown sample_equity.
Proof.
  assert (∀ x, x ∈ sample_equity → 0 < x) as Hpos by (apply Forall_forall; repeat constructor).
  assert (2 ≤ length sample_equity)%nat as Hl by (apply Nat.leb_le; reflexivity).
  destruct (max_drawdown_exact sample_equity Hpos Hl) as [Hb _]. split; [vm_compute; reflexivity|].
  assert (3 ≤ 4)%nat as H34 by (apply Nat.leb_le; reflexivity).
  exact (Hb 3%nat 4%nat 130 104 H34 eq_refl eq_refl).
Defined.

(** The largest value bounds itself, and so is a mean for this purpose. *)
Definition largest (l : list Q) : Q := match l with [] => 0 | x :: l => foldl nmax x l end.

Lemma largest_bounded l x : l ≠ [] → (∀ y, y ∈ l → y <= x) → largest l <= x.
Proof.
  destruct l as [|a l]; [done|]. intros _ Hx. cbn. apply (foldl_invariant (λ m, m <= x)); [apply Hx; by left|].
  intros m b Hm Hb. destruct (nmax_Q m b) as (_ & _ & [-> | ->]); [done|]. apply Hx. by right.
Qed.

Definition sample_returns : list Q := [1 # 100; - (3 # 100); 2 # 100; - (1 # 100); 0; 5 # 100].

Lemma value_at_risk_is_quantile_witness :
  (var_cvar largest sample_returns (5 # 100)).1 == 3 # 100 ∧
  (var_cvar largest sample_returns (5 # 100)).1 <= (var_cvar largest sample_returns (5 # 100)).2.
Proof.
  assert (5 ≤ length sample_returns)%nat as Hl by (apply Nat.leb_le; reflexivity).
  assert (0 <= 5 # 100) as H0 by discriminate. assert (5 # 100 < 1) as H1 by reflexivity.
  destruct (value_at_risk_is_quantile largest sample_returns (5 # 100) Hl H0 H1 largest_bounded) as (_ & _ & Hle).
  split; [vm_compute; reflexivity|exact Hle].
Defined.
