(* ===== verification/WalkForward.v ===== *)
(** backend/services/walk_forward.py: the folds, the in-sample search of the
    moving-average windows, the out-of-sample evaluation of what it chose, and
    the aggregation of the out-of-sample returns. *)

From Stdlib Require Import QArith.
From S2P Require Import Prelude Numeric StrategySignals ExecutionModel BacktestEngine RiskMetrics.
#[local] Open Scope Z_scope.

Inductive WindowType := ROLLING | EXPANDING.

Record WalkForwardConfig (F : Type) := mkWalkForwardConfig {
  wf_assets : list string;
  window_type : WindowType;
  train_years : Z;
  test_years : Z;
  step_years : Z;
  wf_strategy : StrategyConfig F;
  wf_execution : ExecutionConfig F;
  fast_window_range : list nat;
  slow_window_range : list nat;
  optimize_parameters : bool;
  wf_sizer : option (PositionSizer F)
}.
Arguments mkWalkForwardConfig {F}. Arguments wf_assets {F}. Arguments window_type {F}. Arguments train_years {F}.
Arguments test_years {F}. Arguments step_years {F}. Arguments wf_strategy {F}. Arguments wf_execution {F}.
Arguments fast_window_range {F}. Arguments slow_window_range {F}. Arguments optimize_parameters {F}. Arguments wf_sizer {F}.

(** ** Folds *)

Record Fold := mkFold { fd_index : Z; train_start : Z; train_end : Z; test_start : Z; test_end : Z }.

Definition BARS_PER_YEAR : Z := 252.

(** The two [while] loops of [run], from the state of their variables. *)
Fixpoint rolling_folds (fuel : nat) (train test step n_bars : Z) (idx start : Z) : list Fold :=
  match fuel with
  | O => []
  | S fuel =>
      if start + train + test <=? n_bars then
        mkFold idx start (start + train) (start + train) (Z.min (start + train + test) n_bars)
          :: rolling_folds fuel train test step n_bars (idx + 1) (start + step)
      else []
  end.
Fixpoint expanding_folds (fuel : nat) (test step n_bars : Z) (idx tstart : Z) : list Fold :=
  match fuel with
  | O => []
  | S fuel =>
      if tstart + test <=? n_bars then
        mkFold idx 0 tstart tstart (Z.min (tstart + test) n_bars)
          :: expanding_folds fuel test step n_bars (idx + 1) (tstart + step)
      else []
  end.

Section engine.
Context {F : Type} `{Num F}.
Variable np_mean : list F → F.
Variable np_std : nat → list F → F.
Variable np_tanh : F → F.
Variable sqrt : F → F.

Definition folds_of (cfg : WalkForwardConfig F) (n_bars : Z) : list Fold :=
  let train := train_years cfg * BARS_PER_YEAR in
  let test := test_years cfg * BARS_PER_YEAR in
  let step := step_years cfg * BARS_PER_YEAR in
  let fuel := S (Z.to_nat n_bars) in
  match window_type cfg with
  | ROLLING => rolling_folds fuel train test step n_bars 0 0
  | EXPANDING => expanding_folds fuel test step n_bars 0 train
  end.

(** ** The engine *)

Definition WF_CAPITAL : F := nof_Z 100000.

Definition fully_invested_sizer : PositionSizer F :=
  mkPositionSizer EQUAL_WEIGHT (nof_ratio 2 100) (nof_ratio 15 100) n1 n1.

(** [self._execution] *)
Definition engine_execution (cfg : WalkForwardConfig F) : ExecutionConfig F :=
  let x := wf_execution cfg in
  mkExecutionConfig (ec_commission x) (ec_slippage x) (ec_spread x) (ec_borrow x)
    (default fully_invested_sizer (wf_sizer cfg)) (execution_delay_bars x) false (cash_reserve_pct x) (leverage_limit x).

Definition parameter_grid (cfg : WalkForwardConfig F) : list (nat * nat) :=
  if optimize_parameters cfg then
    filter (λ p, (p.1 < p.2)%nat) (fw ← fast_window_range cfg; (λ sw, (fw, sw)) <$> slow_window_range cfg)
  else [(fast_window (wf_strategy cfg), slow_window (wf_strategy cfg))].

(** The metrics of one evaluation. *)
Record Metrics := mkMetrics {
  m_sharpe : F; m_sortino : F; m_total_return : F; m_max_dd : F; m_calmar : F; m_var_95 : F; m_cvar_95 : F;
  m_win_rate : F; m_n_trades : Z; m_equity : list F; m_returns : list F
}.
Definition empty_metrics : Metrics := mkMetrics n0 n0 n0 n0 n0 n0 n0 n0 0 [WF_CAPITAL] [].

(** [equity[i] / equity[i - 1] - 1 if equity[i - 1] > 0 else 0.0] *)
Fixpoint equity_returns (prev : F) (equity : list F) : list F :=
  match equity with
  | [] => []
  | v :: rest => (if prev >.? n0 then v ⊘ prev ⊖ n1 else n0) :: equity_returns v rest
  end.

(** [_evaluate]: a portfolio backtest over bars [[start, end)). *)
Definition evaluate (cfg : WalkForwardConfig F) (data : gmap string (AssetData F)) (assets : list string) (start end_ : Z)
    (fast slow : nat) : outcome string Metrics :=
  let assets := filter (λ t, is_valid data t = true) assets in
  match assets with
  | [] => Ret empty_metrics
  | a :: rest =>
      let strategy :=
        mkStrategyConfig MA_CROSSOVER fast slow (sba_buy_threshold (wf_strategy cfg)) (sba_sell_threshold (wf_strategy cfg))
          (momentum_lookback (wf_strategy cfg)) (momentum_entry (wf_strategy cfg)) (momentum_exit (wf_strategy cfg))
          (mr_lookback (wf_strategy cfg)) (mr_entry_zscore (wf_strategy cfg)) (mr_exit_zscore (wf_strategy cfg)) in
      let config := mkBacktestConfig assets WF_CAPITAL strategy (engine_execution cfg) in
      let shortest := foldl (λ m t, Z.min m (Z.of_nat (length (closes data t)))) (Z.of_nat (length (closes data a))) rest in
      let end_ := Z.min end_ shortest in
      let! delay := delay_of (engine_execution cfg) in
      let first := Z.max start (Z.of_nat (warmup_bars strategy) - 1 + Z.of_nat delay) in
      if end_ - first <? 2 then Ret empty_metrics
      else
        let! res := run_strategy np_mean np_std np_tanh sqrt data config (Z.to_nat first) (Z.to_nat end_) in
        let net := equity_net (br_state res) in
        let equity := WF_CAPITAL :: net in
        let returns := equity_returns WF_CAPITAL net in
        let '(wins, closed) := compute_win_rate (trade_log (br_state res)) in
        let max_dd := max_drawdown equity in
        let '(var95, cvar95) := var_cvar np_mean returns (nof_ratio 5 100) in
        Ret (mkMetrics (sharpe np_mean np_std sqrt returns) (sortino np_mean sqrt returns)
               (default WF_CAPITAL (last equity) ⊘ WF_CAPITAL ⊖ n1) max_dd (calmar np_mean returns max_dd) var95 cvar95
               (nof_Z wins ⊘ nof_Z (Z.max 1 closed)) (Z.of_nat (length (trade_log (br_state res)))) equity returns)
  end.

(** ** One fold *)

Record FoldResult := mkFoldResult {
  fr_fold : Fold; fr_best_fast : nat; fr_best_slow : nat; fr_oos : Metrics; fr_train : Metrics
}.

(** The search: the first of the grid with the largest training Sharpe. The
    best so far is [None] for [-inf]. *)
Fixpoint search (cfg : WalkForwardConfig F) (data : gmap string (AssetData F)) (assets : list string) (fold : Fold)
    (grid : list (nat * nat)) (best : option F) (fast slow : nat) : outcome string (nat * nat) :=
  match grid with
  | [] => Ret (fast, slow)
  | (fw, sw) :: grid =>
      let! m := evaluate cfg data assets (train_start fold) (train_end fold) fw sw in
      let better := match best with None => nle (m_sharpe m) (m_sharpe m) | Some b => b <.? m_sharpe m end in
      if better then search cfg data assets fold grid (Some (m_sharpe m)) fw sw
      else search cfg data assets fold grid best fast slow
  end.

Definition best_windows (cfg : WalkForwardConfig F) (data : gmap string (AssetData F)) (assets : list string) (fold : Fold)
    : outcome string (nat * nat) :=
  let fast := fast_window (wf_strategy cfg) in
  let slow := slow_window (wf_strategy cfg) in
  if optimize_parameters cfg then search cfg data assets fold (parameter_grid cfg) None fast slow else Ret (fast, slow).

(** [_run_fold] *)
Definition run_fold (cfg : WalkForwardConfig F) (data : gmap string (AssetData F)) (assets : list string) (fold : Fold)
    : outcome string FoldResult :=
  let! best := best_windows cfg data assets fold in
  let! oos := evaluate cfg data assets (test_start fold) (test_end fold) best.1 best.2 in
  let! train := evaluate cfg data assets (train_start fold) (train_end fold) best.1 best.2 in
  Ret (mkFoldResult fold best.1 best.2 oos train).

(** ** The run *)

(** The aggregated out-of-sample metrics, the comparison with the training
    Sharpe ratios, and the spread of the chosen windows. *)
Record Aggregate := mkAggregate {
  ag_sharpe : F; ag_sortino : F; ag_total_return : F; ag_max_drawdown : F; ag_calmar : F; ag_var_95 : F; ag_cvar_95 : F
}.
Record Overfitting := mkOverfitting {
  of_avg_train_sharpe : F; of_avg_oos_sharpe : F; of_sharpe_decay : F; of_score : F; of_likely_overfit : bool
}.
Record Stability := mkStability { sb_fast_std : F; sb_slow_std : F; sb_parameters_stable : bool }.

Record WalkForwardResult := mkWalkForwardResult {
  wr_folds : list FoldResult;
  wr_trials : Z;                (* [n_trials] *)
  wr_oos_returns : list F;
  wr_equity : list F;
  wr_aggregate : Aggregate;
  wr_overfitting : Overfitting;
  wr_stability : Stability
}.

Fixpoint run_folds (cfg : WalkForwardConfig F) (data : gmap string (AssetData F)) (assets : list string) (folds : list Fold)
    : outcome string (list FoldResult) :=
  match folds with
  | [] => Ret []
  | f :: folds =>
      let! r := run_fold cfg data assets f in
      let! rs := run_folds cfg data assets folds in
      Ret (r :: rs)
  end.

(** [agg_equity.append(agg_equity[-1] * (1 + r))] *)
Fixpoint compound (equity : F) (returns : list F) : list F :=
  match returns with
  | [] => [equity]
  | r :: returns => equity :: compound (equity ⊗ (n1 ⊕ r)) returns
  end.

Definition aggregate (all_oos equity : list F) : Aggregate :=
  let total := if WF_CAPITAL >.? n0 then default WF_CAPITAL (last equity) ⊘ WF_CAPITAL ⊖ n1 else n0 in
  let max_dd := max_drawdown equity in
  let '(var95, cvar95) := var_cvar np_mean all_oos (nof_ratio 5 100) in
  mkAggregate (nround (sharpe np_mean np_std sqrt all_oos) 3) (nround (sortino np_mean sqrt all_oos) 3) (nround total 4)
    (nround max_dd 4) (nround (calmar np_mean all_oos max_dd) 3) (nround var95 4) (nround cvar95 4).

Definition overfitting (results : list FoldResult) : Overfitting :=
  let avg_train := np_mean ((λ r, m_sharpe (fr_train r)) <$> results) in
  let avg_oos := np_mean ((λ r, m_sharpe (fr_oos r)) <$> results) in
  let decay := avg_train ⊖ avg_oos in
  let score := decay ⊘ nmax (nabs avg_train) tiny in
  mkOverfitting (nround avg_train 3) (nround avg_oos 3) (nround decay 3) (nround score 3) (score >.? nof_ratio 1 2).

Definition stability (results : list FoldResult) : Stability :=
  let fast := (λ r, nof_Z (Z.of_nat (fr_best_fast r))) <$> results in
  let slow := (λ r, nof_Z (Z.of_nat (fr_best_slow r))) <$> results in
  mkStability (nround (np_std 0 fast) 2) (nround (np_std 0 slow) 2) (np_std 0 fast <.? nof_Z 5).

(** [run], from the aligned panel: its assets, their data and its length. *)
Definition walk_forward (cfg : WalkForwardConfig F) (data : gmap string (AssetData F)) (assets : list string) (n_bars : Z)
    : outcome string WalkForwardResult :=
  match assets with
  | [] => Raise "No valid assets found"
  | _ =>
      match folds_of cfg n_bars with
      | [] => Raise "Not enough data for walk-forward"
      | folds =>
          let! results := run_folds cfg data assets folds in
          let oos := concat ((λ r, m_returns (fr_oos r)) <$> results) in
          let all_oos := match oos with [] => [n0] | _ => oos end in
          let equity := compound WF_CAPITAL all_oos in
          Ret (mkWalkForwardResult results (Z.of_nat (length (parameter_grid cfg))) oos equity (aggregate all_oos equity)
                 (overfitting results) (stability results))
      end
  end.
End engine.

(** * Theorems

    What walk-forward validation guarantees: the folds are exactly the windows
    that fit, each test window starts where its training ends, and the
    parameters tested on it were chosen without it. *)

#[local] Open Scope Z_scope.

(** ** Folds *)

Definition rolling_fold (train test step i : Z) : Fold :=
  mkFold i (i * step) (i * step + train) (i * step + train) (i * step + train + test).
Definition expanding_fold (train test step i : Z) : Fold :=
  mkFold i 0 (train + i * step) (train + i * step) (train + i * step + test).

(** A loop that appends the [i]-th fold while it fits, for enough fuel. *)
Lemma rolling_folds_exact fuel train test step n idx f :
  0 < step → 0 < train + test → 0 ≤ idx → n < Z.of_nat fuel + idx * step + train + test → 
  f ∈ rolling_folds fuel train test step n idx (idx * step) ↔
  ∃ i, idx ≤ i ∧ i * step + train + test ≤ n ∧ f = rolling_fold train test step i.
Proof.
  intros Hs Ht. revert idx. induction fuel as [|fuel IH]; intros idx Hi Hf; cbn [rolling_folds].
  - split; [by intros ?%not_elem_of_nil|]. intros (i & Hi1 & Hi2 & _). nia.
  - destruct (Z.leb_spec (idx * step + train + test) n).
    + replace (idx * step + step) with ((idx + 1) * step) by lia.
      rewrite elem_of_cons, IH by nia. split.
      * intros [->|(i & Hi1 & Hi2 & ->)]; [|exists i; split; [lia|done]].
        exists idx. split; [lia|]. split; [done|]. unfold rolling_fold. by rewrite Z.min_l by lia.
      * intros (i & Hi1 & Hi2 & ->). destruct (decide (i = idx)) as [->|Hne]; [left|right].
        -- unfold rolling_fold. by rewrite Z.min_l by lia.
        -- exists i. split; [lia|done].
    + split; [by intros ?%not_elem_of_nil|]. intros (i & Hi1 & Hi2 & _). nia.
Qed.

Lemma expanding_folds_exact fuel train test step n idx f :
  0 < step → 0 < train + test → 0 ≤ idx → n < Z.of_nat fuel + idx * step + train + test →
  f ∈ expanding_folds fuel test step n idx (train + idx * step) ↔
  ∃ i, idx ≤ i ∧ train + i * step + test ≤ n ∧ f = expanding_fold train test step i.
Proof.
  intros Hs Ht. revert idx. induction fuel as [|fuel IH]; intros idx Hi Hf; cbn [expanding_folds].
  - split; [by intros ?%not_elem_of_nil|]. intros (i & Hi1 & Hi2 & _). nia.
  - destruct (Z.leb_spec (train + idx * step + test) n).
    + replace (train + idx * step + step) with (train + (idx + 1) * step) by lia.
      rewrite elem_of_cons, IH by nia. split.
      * intros [->|(i & Hi1 & Hi2 & ->)]; [|exists i; split; [lia|done]].
        exists idx. split; [lia|]. split; [done|]. unfold expanding_fold. by rewrite Z.min_l by lia.
      * intros (i & Hi1 & Hi2 & ->). destruct (decide (i = idx)) as [->|Hne]; [left|right].
        -- unfold expanding_fold. by rewrite Z.min_l by lia.
        -- exists i. split; [lia|done].
    + split; [by intros ?%not_elem_of_nil|]. intros (i & Hi1 & Hi2 & _). nia.
Qed.

Section facts.
Context {F : Type} `{Num F}.
Variable np_mean : list F → F.
Variable np_std : nat → list F → F.
Variable np_tanh : F → F.
Variable sqrt : F → F.

(** The [i]-th fold. *)
Definition fold_at (cfg : WalkForwardConfig F) (i : Z) : Fold :=
  let train := train_years cfg * BARS_PER_YEAR in
  let test := test_years cfg * BARS_PER_YEAR in
  let step := step_years cfg * BARS_PER_YEAR in
  match window_type cfg with ROLLING => rolling_fold train test step i | EXPANDING => expanding_fold train test step i end.

Lemma folds_of_exact cfg n f :
  1 ≤ train_years cfg → 1 ≤ test_years cfg → 1 ≤ step_years cfg → 0 ≤ n →
  f ∈ folds_of cfg n ↔ ∃ i, 0 ≤ i ∧ test_end (fold_at cfg i) ≤ n ∧ f = fold_at cfg i.
Proof.
  intros Htr Hte Hst Hn. unfold folds_of, fold_at. cbn zeta. destruct (window_type cfg).
  - change 0 with (0 * (step_years cfg * BARS_PER_YEAR)) at 2. apply rolling_folds_exact; unfold BARS_PER_YEAR; lia.
  - replace (train_years cfg * BARS_PER_YEAR) with (train_years cfg * BARS_PER_YEAR + 0 * (step_years cfg * BARS_PER_YEAR)) at 1 by lia.
    apply expanding_folds_exact; unfold BARS_PER_YEAR; lia.
Qed.

Lemma fold_shape cfg i :
  1 ≤ train_years cfg → 1 ≤ test_years cfg → 1 ≤ step_years cfg → 0 ≤ i →
  0 ≤ train_start (fold_at cfg i) < train_end (fold_at cfg i) ∧ test_start (fold_at cfg i) = train_end (fold_at cfg i) ∧
  test_end (fold_at cfg i) = test_start (fold_at cfg i) + test_years cfg * BARS_PER_YEAR.
Proof. intros. unfold fold_at, BARS_PER_YEAR. cbn zeta. destruct (window_type cfg); cbn; nia. Qed.

(** C17: The folds are exactly those that fit. With positive windows and step,
    the loop stops, and its folds are the training windows, each followed at
    once by its test window, a step apart, whose test ends within the data;
    the test windows of two folds share no bar when the step is at least the
    test window, and two successive ones always do when it is not. *)
Theorem folds_exact cfg n :
  1 ≤ train_years cfg → 1 ≤ test_years cfg → 1 ≤ step_years cfg → 0 ≤ n →
  (∀ f, f ∈ folds_of cfg n ↔ ∃ i, 0 ≤ i ∧ test_end (fold_at cfg i) ≤ n ∧ f = fold_at cfg i) ∧
  (∀ f, f ∈ folds_of cfg n → 0 ≤ train_start f < train_end f ∧ test_start f = train_end f ∧
     test_end f = test_start f + test_years cfg * BARS_PER_YEAR ∧ test_end f ≤ n) ∧
  (test_years cfg ≤ step_years cfg → ∀ i j, i < j → test_end (fold_at cfg i) ≤ test_start (fold_at cfg j)) ∧
  (step_years cfg < test_years cfg → ∀ i, test_start (fold_at cfg (i + 1)) < test_end (fold_at cfg i)).
Proof.
  intros Htr Hte Hst Hn. split; [by intros; apply folds_of_exact|]. split; [|split].
  - intros f (i & Hi & Hle & ->)%folds_of_exact; try done. by destruct (fold_shape cfg i Htr Hte Hst Hi) as (H1 & H2 & H3).
  - intros Hle i j Hij. unfold fold_at, BARS_PER_YEAR. cbn zeta. destruct (window_type cfg); cbn; nia.
  - intros Hlt i. unfold fold_at, BARS_PER_YEAR. cbn zeta. destruct (window_type cfg); cbn; nia.
Qed.

(** ** Evaluations *)

Lemma agree_mono n m d d' : (m ≤ n)%nat → agree n d d' → agree m (F:=F) d d'.
Proof.
  intros Hm Ha t. destruct (Ha t) as [a a' [Hc Hv]|]; constructor. split.
  - apply (f_equal (take m)) in Hc. by rewrite !take_take, !Nat.min_l in Hc by lia.
  - destruct (ad_volume a), (ad_volume a'); try done. apply (inj Some) in Hv. cbn. f_equal.
    apply (f_equal (take m)) in Hv. by rewrite !take_take, !Nat.min_l in Hv by lia.
Qed.

(** A run reads nothing at or after its end. *)
Lemma run_within d d' cfg start n :
  agree n d d' →
  match run_strategy np_mean np_std np_tanh sqrt d cfg start n, run_strategy np_mean np_std np_tanh sqrt d' cfg start n with
  | Ret r, Ret r' => equity_net (br_state r) = equity_net (br_state r') ∧ trade_log (br_state r) = trade_log (br_state r')
  | Raise e, Raise e' => e = e'
  | _, _ => False
  end.
Proof.
  intros Ha. unfold run_strategy. destruct (delay_of (cfg_execution cfg)) as [delay|e]; [|done]. cbn [obind br_state].
  destruct (liquidate_reports d n (run_bars np_mean np_std np_tanh sqrt d cfg delay start n)) as [-> ->].
  destruct (liquidate_reports d' n (run_bars np_mean np_std np_tanh sqrt d' cfg delay start n)) as [-> ->].
  pose proof (up_to_agree np_mean np_std np_tanh sqrt d d' cfg delay start n n n Ha (le_n n) (le_n n)) as Hu.
  unfold BacktestEngine.up_to in Hu. unfold run_bars. cbn zeta. by rewrite Hu.
Qed.

Lemma agree_shortest n (d d' : gmap string (AssetData F)) a rest :
  agree n d d' →
  Z.min (Z.of_nat n) (foldl (λ m t, Z.min m (Z.of_nat (length (closes d t)))) (Z.of_nat (length (closes d a))) rest) =
  Z.min (Z.of_nat n) (foldl (λ m t, Z.min m (Z.of_nat (length (closes d' t)))) (Z.of_nat (length (closes d' a))) rest).
Proof.
  intros Ha.
  assert (∀ t, Z.min (Z.of_nat n) (Z.of_nat (length (closes d t))) = Z.min (Z.of_nat n) (Z.of_nat (length (closes d' t)))) as Hl.
  { intros t. pose proof (f_equal length (agree_closes n d d' t Ha)) as Hl. rewrite !length_take in Hl. lia. }
  pose proof (Hl a) as H0. revert H0. generalize (Z.of_nat (length (closes d a))) as x. generalize (Z.of_nat (length (closes d' a))) as y.
  induction rest as [|t rest IH]; intros y x Hxy; cbn [foldl]; [done|]. apply IH. specialize (Hl t). lia.
Qed.

#[local] Abbreviation eval := (evaluate np_mean np_std np_tanh sqrt).

Lemma evaluate_within cfg d d' assets start end_ n fast slow :
  end_ ≤ Z.of_nat n → agree n d d' → eval cfg d assets start end_ fast slow = eval cfg d' assets start end_ fast slow.
Proof.
  intros He Ha. unfold evaluate. cbn zeta.
  assert (filter (λ t, is_valid d t = true) assets = filter (λ t, is_valid d' t = true) assets) as ->.
  { exact (agree_valid n d d' (mkBacktestConfig assets n0 (wf_strategy cfg) (wf_execution cfg)) Ha). }
  destruct (filter _ assets) as [|a rest]; [done|].
  pose proof (agree_shortest n d d' a rest Ha) as Hs.
  set (m := foldl _ _ _) in Hs |- *. set (m' := foldl (λ m t, Z.min m (Z.of_nat (length (closes d' t)))) _ _) in Hs |- *.
  replace (Z.min end_ m') with (Z.min end_ m) by lia.
  destruct (delay_of (engine_execution cfg)) as [delay|e]; [|done]. cbn [obind].
  destruct (_ <? 2); [done|]. set (c := mkBacktestConfig _ _ _ _). set (first := Z.max start _).
  pose proof (run_within d d' c (Z.to_nat first) (Z.to_nat (Z.min end_ m))
                (agree_mono n (Z.to_nat (Z.min end_ m)) d d' ltac:(lia) Ha)) as Hr.
  destruct (run_strategy np_mean np_std np_tanh sqrt d c _ _) as [r|e], (run_strategy np_mean np_std np_tanh sqrt d' c _ _) as [r'|e'];
    try done; cbn [obind]; [|by rewrite Hr]. destruct Hr as [-> ->]. done.
Qed.

Lemma search_within cfg d d' assets fold n grid : ∀ best fast slow,
  train_end fold ≤ Z.of_nat n → agree n d d' →
  search np_mean np_std np_tanh sqrt cfg d assets fold grid best fast slow =
  search np_mean np_std np_tanh sqrt cfg d' assets fold grid best fast slow.
Proof.
  induction grid as [|[fw sw] grid IH]; intros best fast slow Hn Ha; cbn [search]; [done|].
  rewrite (evaluate_within cfg d d' assets _ _ n fw sw Hn Ha).
  destruct (eval _ _ _ _ _ _ _) as [m|e]; [|done]. cbn [obind].
  destruct (match best with None => _ | Some _ => _ end); by apply IH.
Qed.

(** C16: The parameters are chosen blind. For every fold of the run and any
    other data that agrees with the actual one before the fold's test window,
    however it differs in and after it: the search chooses the same windows,
    and measures the same training result. And nothing the fold reports
    depends on bars after its test window. *)
Theorem windows_chosen_blind cfg data data' assets n fold :
  1 ≤ train_years cfg → 1 ≤ test_years cfg → 1 ≤ step_years cfg → 0 ≤ n → fold ∈ folds_of cfg n →
  (agree (Z.to_nat (test_start fold)) data data' →
     best_windows np_mean np_std np_tanh sqrt cfg data assets fold = best_windows np_mean np_std np_tanh sqrt cfg data' assets fold ∧
     ∀ fast slow, eval cfg data assets (train_start fold) (train_end fold) fast slow =
                  eval cfg data' assets (train_start fold) (train_end fold) fast slow) ∧
  (agree (Z.to_nat (test_end fold)) data data' →
     run_fold np_mean np_std np_tanh sqrt cfg data assets fold = run_fold np_mean np_std np_tanh sqrt cfg data' assets fold).
Proof.
  intros Htr Hte Hst Hn Hf.
  apply (folds_of_exact cfg n fold Htr Hte Hst Hn) in Hf as (i & Hi & Hle & ->).
  destruct (fold_shape cfg i Htr Hte Hst Hi) as (Hs & Et & Hend). set (fold := fold_at cfg i) in *. unfold BARS_PER_YEAR in Hend.
  assert (∀ k, train_end fold ≤ Z.of_nat k → agree k data data' →
    best_windows np_mean np_std np_tanh sqrt cfg data assets fold = best_windows np_mean np_std np_tanh sqrt cfg data' assets fold) as Hb.
  { intros k Hk Ha. unfold best_windows. cbn zeta. destruct (optimize_parameters cfg); [|done]. by apply (search_within _ _ _ _ _ k). }
  split.
  - intros Ha. split; [apply (Hb (Z.to_nat (test_start fold)) ltac:(lia) Ha)|]. intros fast slow.
    by apply (evaluate_within cfg data data' assets (train_start fold) (train_end fold) (Z.to_nat (test_start fold)) fast slow ltac:(lia)).
  - intros Ha. unfold run_fold. rewrite (Hb (Z.to_nat (test_end fold)) ltac:(lia) Ha).
    clear Hb. destruct (best_windows np_mean np_std np_tanh sqrt cfg data' assets fold) as [best|e]; [|reflexivity]. cbn [obind].
    rewrite (evaluate_within cfg data data' assets (test_start fold) (test_end fold) (Z.to_nat (test_end fold)) best.1 best.2 ltac:(lia) Ha).
    rewrite (evaluate_within cfg data data' assets (train_start fold) (train_end fold) (Z.to_nat (test_end fold)) best.1 best.2 ltac:(lia) Ha).
    reflexivity.
Qed.
End facts.

(** ** Five years of daily bars *)

Definition five_years (kind : WindowType) (test : Z) : WalkForwardConfig Q :=
  mkWalkForwardConfig ["AAA"] kind 2 test 1 (strategy_config MA_CROSSOVER 20 50) retail_config
    [10; 20]%nat [40; 15]%nat true None.

Lemma folds_exact_witness :
  length (folds_of (five_years ROLLING 1) 1260) = 3%nat ∧ fold_at (five_years ROLLING 1) 2 ∈ folds_of (five_years ROLLING 1) 1260.
Proof.
  split; [vm_compute; reflexivity|].
  destruct (folds_exact (five_years ROLLING 1) 1260) as [Hx _]; [discriminate..|].
  apply Hx. exists 2. split; [discriminate|]. split; [discriminate|reflexivity].
Defined.

(** The request cannot set the step, which is a year, but may ask for a test
    window of two: then two successive test windows share a year, whose
    returns enter the aggregated out-of-sample curve twice. *)
Example test_windows_overlap :
  folds_of (five_years ROLLING 2) 1260 = [mkFold 0 0 504 504 1008; mkFold 1 252 756 756 1260].
Proof. vm_compute. reflexivity. Qed.

(** Two years of one price, then another future. *)
Definition flat_then (p : Q) : gmap string (AssetData Q) := {[ "AAA" := mkAssetData (replicate 504 10%Q ++ [p]) None ]}.

Lemma windows_chosen_blind_witness :
  best_windows ledger_mean (λ _ _, 0%Q) id id (five_years ROLLING 1) (flat_then 1%Q) ["AAA"] (fold_at (five_years ROLLING 1) 0) =
  best_windows ledger_mean (λ _ _, 0%Q) id id (five_years ROLLING 1) (flat_then 90%Q) ["AAA"] (fold_at (five_years ROLLING 1) 0).
Proof.
  destruct (windows_chosen_blind (F:=Q) ledger_mean (λ _ _, 0%Q) id id (five_years ROLLING 1) (flat_then 1%Q) (flat_then 90%Q) ["AAA"] 1260
              (fold_at (five_years ROLLING 1) 0)) as [Hb _]; [discriminate..| |].
  - vm_compute. left.
  - apply Hb. intros t. unfold flat_then. destruct (decide (t = "AAA")) as [->|Hne].
    + rewrite !lookup_singleton_eq. constructor. split; [|reflexivity].
      change (Z.to_nat (test_start (fold_at (five_years ROLLING 1) 0))) with 504%nat. cbn [ad_close].
      rewrite !take_app_length'; [reflexivity|by rewrite length_replicate..].
    + rewrite !lookup_singleton_ne by congruence. constructor.
Defined.
