(* ===== verification/EventSimulator.v ===== *)
(** backend/services/event_simulator.py: the event-driven backtester, bar by
    bar: fills of the orders of the bar before, market history, the strategies'
    signals, sizing, and marking to market. *)

From Stdlib Require Import QArith Qabs Lqa.
From S2P Require Import Prelude Numeric OrderedDict StrategySignals.
#[local] Open Scope Z_scope.

(** ** Events *)

Record SignalEvent (F : Type) := mkSignalEvent {
  sg_ticker : string; signal_strength : F; suggested_direction : Z
}.
Arguments mkSignalEvent {F}. Arguments sg_ticker {F}. Arguments signal_strength {F}. Arguments suggested_direction {F}.

Record OrderEvent (F : Type) := mkOrderEvent { oe_timestamp : nat; oe_ticker : string; oe_quantity : F }.
Arguments mkOrderEvent {F}. Arguments oe_timestamp {F}. Arguments oe_ticker {F}. Arguments oe_quantity {F}.

Record FillEvent (F : Type) := mkFillEvent {
  fe_timestamp : nat; fe_ticker : string; fe_quantity : F; fe_price : F; fe_commission : F; fe_slippage : F; fe_borrow : F
}.
Arguments mkFillEvent {F}. Arguments fe_timestamp {F}. Arguments fe_ticker {F}. Arguments fe_quantity {F}.
Arguments fe_price {F}. Arguments fe_commission {F}. Arguments fe_slippage {F}. Arguments fe_borrow {F}.

Record TransactionCostModel (F : Type) := mkTransactionCostModel {
  commission_pct : F; spread_bps : F; market_impact_bps : F; borrow_rate_annual : F; min_commission : F
}.
Arguments mkTransactionCostModel {F}. Arguments commission_pct {F}. Arguments spread_bps {F}.
Arguments market_impact_bps {F}. Arguments borrow_rate_annual {F}. Arguments min_commission {F}.

(** A line of [trade_log]. *)
Record LoggedFill (F : Type) := mkLoggedFill {
  lf_timestamp : nat; lf_ticker : string; lf_qty : F; lf_price : F; lf_commission : F; lf_slippage : F
}.
Arguments mkLoggedFill {F}. Arguments lf_timestamp {F}. Arguments lf_ticker {F}. Arguments lf_qty {F}.

(** [Portfolio]; [positions] in insertion order. *)
Record Portfolio (F : Type) := mkPortfolio {
  pf_allow_short : bool;
  pf_leverage_limit : F;
  cash : F;
  positions : list (string * F);
  avg_costs : gmap string F;
  equity_curve : list F;
  pf_returns : list F;
  pf_log : list (LoggedFill F);
  sum_commission : F;
  sum_slippage : F;
  sum_borrow : F
}.
Arguments mkPortfolio {F}. Arguments pf_allow_short {F}. Arguments pf_leverage_limit {F}. Arguments cash {F}.
Arguments positions {F}. Arguments avg_costs {F}. Arguments equity_curve {F}. Arguments pf_returns {F}.
Arguments pf_log {F}. Arguments sum_commission {F}. Arguments sum_slippage {F}. Arguments sum_borrow {F}.
#[global] Instance eta_Portfolio F : Eta (Portfolio F) := λ p,
  mkPortfolio (pf_allow_short p) (pf_leverage_limit p) (cash p) (positions p) (avg_costs p) (equity_curve p)
    (pf_returns p) (pf_log p) (sum_commission p) (sum_slippage p) (sum_borrow p).

(** The strategies, with [MomentumStrategy]'s event counter in the state. *)
Inductive Strategy (F : Type) :=
| MACrossover (fast slow : nat)
| Momentum (lookback n_long n_short : nat)
| MeanReversion (window : nat) (n_std : F).
Arguments MACrossover {F}. Arguments Momentum {F}. Arguments MeanReversion {F}.

Inductive Sizer (F : Type) :=
| FixedFractional (fraction : F)
| VolatilityTarget (target_vol : F) (lookback : nat).
Arguments FixedFractional {F}. Arguments VolatilityTarget {F}.

Section simulator.
Context {F : Type} `{Num F}.
Variable np_mean : list F → F.
Variable np_std : nat → list F → F.
Variable sqrt : F → F.
(** The order in which Python iterates a set of these strings. *)
Variable set_order : list string → list string.

Definition nano : F := nof_ratio 1 1000000000.
Definition position_of (ticker : string) (ps : list (string * F)) : F := default n0 (od_get ticker ps).
Definition price_of (prices : list (string * F)) (ticker : string) : F := default n0 (od_get ticker prices).

(** ** Fills *)

Definition compute_fill (m : TransactionCostModel F) (order : OrderEvent F) (market_open daily_vol : F) : FillEvent F :=
  let qty := oe_quantity order in
  let direction := if qty >.? n0 then n1 else nopp n1 in
  let spread_cost := market_open ⊗ (spread_bps m ⊘ nof_Z 10000) in
  let impact_cost := market_open ⊗ (market_impact_bps m ⊘ nof_Z 10000) ⊗ (daily_vol ⊘ nof_ratio 1 100) in
  let fill_price := market_open ⊕ direction ⊗ (spread_cost ⊕ impact_cost) in
  let notional := nabs qty ⊗ fill_price in
  let commission := nmax (notional ⊗ commission_pct m) (min_commission m) in
  let slippage := nabs qty ⊗ (spread_cost ⊕ impact_cost) in
  let borrow := if qty <.? n0 then nabs qty ⊗ fill_price ⊗ (borrow_rate_annual m ⊘ nof_Z 252) else n0 in
  mkFillEvent (oe_timestamp order) (oe_ticker order) qty fill_price commission slippage borrow.

(** ** The portfolio *)

Definition initial_portfolio (capital : F) (allow_short : bool) (limit : F) : Portfolio F :=
  mkPortfolio allow_short limit capital [] ∅ [capital] [n0] [] n0 n0 n0.

(** The average cost after a fill. *)
Definition next_cost (ticker : string) (prev_qty new_qty qty price : F) (costs : gmap string F) : gmap string F :=
  if new_qty =.? n0 then delete ticker costs
  else if (prev_qty =.? n0) || negb (Bool.eqb (prev_qty >.? n0) (new_qty >.? n0)) then <[ticker := price]> costs
  else if nabs prev_qty <.? nabs new_qty then
    let prev_cost := default price (costs !! ticker) in
    <[ticker := (prev_cost ⊗ nabs prev_qty ⊕ price ⊗ nabs qty) ⊘ nabs new_qty]> costs
  else costs.

Definition process_fill (fill : FillEvent F) (p : Portfolio F) : Portfolio F :=
  let ticker := fe_ticker fill in
  let qty := fe_quantity fill in
  let price := fe_price fill in
  let prev_qty := position_of ticker (positions p) in
  let new_qty := prev_qty ⊕ qty in
  p <| positions ::= od_put ticker new_qty |>
    <| avg_costs ::= next_cost ticker prev_qty new_qty qty price |>
    <| cash ::= λ c, c ⊖ (qty ⊗ price ⊕ fe_commission fill ⊕ fe_borrow fill) |>
    <| sum_commission ::= λ x, x ⊕ fe_commission fill |>
    <| sum_slippage ::= λ x, x ⊕ fe_slippage fill |>
    <| sum_borrow ::= λ x, x ⊕ fe_borrow fill |>
    <| pf_log ::= λ l, l ++ [mkLoggedFill (fe_timestamp fill) ticker (nround qty 2) (nround price 4)
                               (nround (fe_commission fill) 4) (nround (fe_slippage fill) 4)] |>.

(** The union of the two dicts' keys, in the set's order. *)
Definition update_equity (prices : list (string * F)) (p : Portfolio F) : Portfolio F :=
  let keys := set_order (od_keys (positions p) ++ od_keys prices) in
  let position_value := nsum ((λ t, position_of t (positions p) ⊗ price_of prices t) <$> keys) in
  let equity := cash p ⊕ position_value in
  let prev := default n0 (last (equity_curve p)) in
  p <| equity_curve ::= λ l, l ++ [equity] |>
    <| pf_returns ::= λ l, l ++ [(equity ⊖ prev) ⊘ nmax (nabs prev) nano] |>.

Definition accrue_borrow (prices : list (string * F)) (annual_rate : F) (p : Portfolio F) : Portfolio F :=
  let daily_cost :=
    nsum ((λ kv, nabs kv.2 ⊗ price_of prices kv.1 ⊗ annual_rate ⊘ nof_Z 252)
            <$> filter (λ kv, (kv.2 <.? n0) = true) (positions p)) in
  p <| cash ::= λ c, c ⊖ daily_cost |> <| sum_borrow ::= λ x, x ⊕ daily_cost |>.

(** ** Strategies *)

Abbreviation history := (list (string * list F)) (only parsing).
Definition closes_of (h : list (string * list F)) (ticker : string) : list F := default [] (od_get ticker h).
(** [xs[-n:]] for [n >= 1] *)
Definition last_n {A} (n : nat) (xs : list A) : list A := drop (length xs - n) xs.

(** [MACrossoverStrategy.prepare]: the series of each ticker. *)
Definition prepared (s : Strategy F) (tickers : list string) (data : string → list F) : list (string * list F) :=
  match s with
  | MACrossover fast slow => (λ t, (t, ma_crossover_series np_mean (data t) fast slow)) <$> tickers
  | _ => []
  end.

Definition crossover_events (ticker : string) (signal : F) : list (SignalEvent F) :=
  if signal >.? n0 then [mkSignalEvent ticker n1 1]
  else if signal <.? n0 then [mkSignalEvent ticker (nopp n1) (-1)]
  else [].

Definition momentum_scores (lookback : nat) (h : list (string * list F)) : list (string * F) :=
  (λ tp, (tp.1, default n0 (last tp.2) ⊘ nmax (at_bar tp.2 (length tp.2 - lookback)) nano ⊖ n1))
    <$> filter (λ tp, (lookback <= length tp.2)%nat) h.

(** [sorted(scores, key=..., reverse=True)]: the best first, equal scores in
    the order of the dict. *)
Fixpoint rank_in (kv : string * F) (ranked : list (string * F)) : list (string * F) :=
  match ranked with
  | [] => [kv]
  | x :: ranked' => if x.2 <.? kv.2 then kv :: ranked else x :: rank_in kv ranked'
  end.
Definition ranking (scores : list (string * F)) : list (string * F) := foldl (λ acc kv, rank_in kv acc) [] scores.

(** The signal of each rank. *)
Definition momentum_events (lookback n_long n_short : nat) (h : list (string * list F)) : list (SignalEvent F) :=
  let ranked := ranking (momentum_scores lookback h) in
  let n := length ranked in
  let n_long := min n_long (n / 3) in
  let n_short := min n_short (n / 3) in
  imap (λ i kv,
    if (i <? n_long)%nat then mkSignalEvent kv.1 kv.2 1
    else if (n - n_short <=? i)%nat then mkSignalEvent kv.1 kv.2 (-1)
    else mkSignalEvent kv.1 n0 0) ranked.

Definition reversion_events (window : nat) (n_std : F) (ticker : string) (prices : list F) : list (SignalEvent F) :=
  if (length prices <? window)%nat then []
  else
    let w := last_n window prices in
    let mu := np_mean w in
    let sd := np_std 0 w in
    if sd <.? nano then []
    else
      let z := (default n0 (last prices) ⊖ mu) ⊘ sd in
      if z <.? nopp n_std then [mkSignalEvent ticker (nopp z) 1]
      else if z >.? n_std then [mkSignalEvent ticker z (-1)]
      else if nabs z <.? nof_ratio 1 2 then [mkSignalEvent ticker n0 0]
      else [].

(** [on_market]: the counter afterwards and the signals. *)
Definition on_market (s : Strategy F) (series : list (string * list F)) (bar : nat) (ticker : string)
    (h : list (string * list F)) (counter : Z) : Z * list (SignalEvent F) :=
  match s with
  | MACrossover fast slow =>
      let signal :=
        match od_get ticker series ≫= (λ xs, xs !! bar) with
        | Some x => x
        | None =>
            match last_n (S (max fast slow)) (closes_of h ticker) with
            | [] => n0
            | tail => default n0 (last (ma_crossover_series np_mean tail fast slow))
            end
        end in
      (counter, crossover_events ticker signal)
  | Momentum lookback n_long n_short =>
      let counter := counter + 1 in
      (counter, if counter mod 5 =? 0 then momentum_events lookback n_long n_short h else [])
  | MeanReversion window n_std => (counter, reversion_events window n_std ticker (closes_of h ticker))
  end.

(** ** Sizing *)

(** [np.diff(a) / np.maximum(a[:-1], 1e-9)] *)
Definition simple_returns (prices : list F) : list F :=
  zip_with (λ a b, (b ⊖ a) ⊘ np_maximum a nano) prices (drop 1 prices).

Definition size_order (z : Sizer F) (sg : SignalEvent F) (price equity : F) (h : list F) : F :=
  let direction := nof_Z (suggested_direction sg) in
  match z with
  | FixedFractional fraction =>
      if price <=.? n0 then n0
      else direction ⊗ (equity ⊗ fraction ⊗ nabs (signal_strength sg)) ⊘ price
  | VolatilityTarget target_vol lookback =>
      let returns := if (2 <? length h)%nat then simple_returns h else [] in
      if (price <=.? n0) || (length returns <? lookback)%nat then n0
      else
        let asset_vol := np_std 1 (last_n lookback returns) ⊗ sqrt (nof_Z 252) in
        if asset_vol <.? nano then n0
        else
          let target_value := equity ⊗ nmin (target_vol ⊘ asset_vol) (nof_Z 5) in
          direction ⊗ nmin target_value (equity ⊗ nof_ratio 1 4) ⊘ price
  end.

(** ** The loop *)

Record SimState := mkSimState {
  sm_portfolio : Portfolio F;
  sm_history : list (string * list F);
  sm_pending : list (OrderEvent F);
  sm_counter : Z
}.

Section run.
Variable tickers : list string.
Variable data : string → list F.
Variable strategy : Strategy F.
Variable series : list (string * list F).
Variable costs : TransactionCostModel F.
Variable sizer : Sizer F.

Definition current_prices (bar : nat) : list (string * F) :=
  foldl (λ d t, match data t !! bar with Some p => od_put t p d | None => d end) [] tickers.

(** The volatility of the last twelve closes. *)
Definition fill_vol (h : list F) : F :=
  if (12 <=? length h)%nat then nmax (np_std 1 (simple_returns (last_n 12 h))) (nof_ratio 1 1000000) else nof_ratio 1 100.

(** The gross exposure after the fill, over the last equity. *)
Definition projected_gross (prices : list (string * F)) (fill : FillEvent F) (ticker : string) (p : Portfolio F) : F :=
  let equity := nmax (default n0 (last (equity_curve p))) nano in
  let notional :=
    nsum ((λ kv, nabs (kv.2 ⊕ (if bool_decide (kv.1 = ticker) then fe_quantity fill else n0)) ⊗ price_of prices kv.1)
            <$> positions p) in
  let notional :=
    match od_get ticker (positions p) with
    | Some _ => notional
    | None => notional ⊕ nabs (fe_quantity fill) ⊗ price_of prices ticker
    end in
  notional ⊘ equity.

(** One pending order at this bar. *)
Definition fill_order (prices : list (string * F)) (h : list (string * list F)) (p : Portfolio F) (order : OrderEvent F)
    : Portfolio F :=
  let ticker := oe_ticker order in
  let open_price := price_of prices ticker in
  if open_price <=.? n0 then p
  else
    let daily_vol := fill_vol (closes_of h ticker) in
    let fill := compute_fill costs order open_price daily_vol in
    if projected_gross prices fill ticker p >.? (pf_leverage_limit p ⊕ nano) then p
    else
      let current_pos := position_of ticker (positions p) in
      let fill :=
        if (fe_quantity fill <.? n0) && negb (pf_allow_short p) && ((current_pos ⊕ fe_quantity fill) <.? n0) then
          compute_fill costs (mkOrderEvent (oe_timestamp order) ticker (nopp current_pos)) open_price daily_vol
        else fill in
      if nof_ratio 1 1000000 <.? nabs (fe_quantity fill) then process_fill fill p else p.

(** [history[ticker].append(...)], for every ticker with this bar. *)
Definition extend_history (bar : nat) (h : list (string * list F)) : list (string * list F) :=
  foldl (λ h t, match data t !! bar with Some p => od_put t (closes_of h t ++ [p]) h | None => h end) h tickers.

Definition collect_signals (bar : nat) (h : list (string * list F)) (counter : Z) : Z * list (SignalEvent F) :=
  foldl (λ '(c, l) t, let '(c, l') := on_market strategy series bar t h c in (c, l ++ l')) (counter, []) tickers.

(** The order of a signal, if any. *)
Definition order_of (bar : nat) (prices : list (string * F)) (h : list (string * list F)) (p : Portfolio F)
    (sg : SignalEvent F) : option (OrderEvent F) :=
  let price := price_of prices (sg_ticker sg) in
  if price <=.? n0 then None
  else
    let equity := default n0 (last (equity_curve p)) in
    let qty := size_order sizer sg price equity (closes_of h (sg_ticker sg)) in
    if nabs qty <.? nof_ratio 1 10000 then None
    else if suggested_direction sg =? 0 then
      let qty := nopp (position_of (sg_ticker sg) (positions p)) in
      if nabs qty <.? nof_ratio 1 10000 then None else Some (mkOrderEvent bar (sg_ticker sg) qty)
    else Some (mkOrderEvent bar (sg_ticker sg) qty).

Definition sim_bar (s : SimState) (bar : nat) : SimState :=
  let prices := current_prices bar in
  let p := accrue_borrow prices (borrow_rate_annual costs) (sm_portfolio s) in
  let h := sm_history s in
  let '(p, pending) :=
    match bar, sm_pending s with
    | O, pending => (p, pending)
    | _, [] => (p, [])
    | _, pending => (foldl (fill_order prices h) p pending, [])
    end in
  let h := extend_history bar h in
  let '(counter, signals) := collect_signals bar h (sm_counter s) in
  let orders := omap (order_of bar prices h p) signals in
  mkSimState (update_equity prices p) h (pending ++ orders) counter.

(** The main event loop, over the first [n] bars. *)
Definition sim_bars (s : SimState) (n : nat) : SimState := foldl sim_bar s (seq 0 n).
End run.

(** The presets, by name. *)
Definition cost_model (name : string) : TransactionCostModel F :=
  if String.eqb name "zero_cost" then mkTransactionCostModel n0 n0 n0 n0 n0
  else if String.eqb name "institutional" then
    mkTransactionCostModel (nof_ratio 2 10000) n1 (nof_ratio 1 2) (nof_ratio 5 1000) (nof_ratio 1 2)
  else mkTransactionCostModel (nof_ratio 1 1000) (nof_Z 5) (nof_Z 2) (nof_ratio 15 1000) n1.

Definition initial_state (tickers : list string) (initial_capital : F) (allow_short : bool) (limit : F) : SimState :=
  mkSimState (initial_portfolio initial_capital allow_short limit) (foldl (λ h t, od_put t [] h) [] tickers) [] 0.

(** [run_event_backtest] up to its performance statistics: the state after
    the last bar. Arrays of different lengths are refused. *)
Definition run_event_backtest (tickers : list string) (data : string → list F) (strategy : Strategy F)
    (initial_capital : F) (cost_model_name : string) (allow_short : bool) (limit : F) (sizer : Sizer F)
    : outcome string SimState :=
  match remove_dups ((λ t, length (data t)) <$> tickers) with
  | [n] =>
      Ret (sim_bars tickers data strategy (prepared strategy tickers data) (cost_model cost_model_name) sizer
             (initial_state tickers initial_capital allow_short limit) n)
  | _ => Raise "price_data must be date-aligned arrays of equal length"
  end.

(** ** Performance *)

Record Performance := mkPerformance {
  pe_final_equity : F; pe_total_return : F; pe_annual_return : F; pe_annual_volatility : F; pe_sharpe : F;
  pe_max_drawdown : F; pe_drawdown_days : nat; pe_calmar : F; pe_cvar : F; pe_win_rate : F; pe_n_trades : nat;
  pe_total_commission : F; pe_total_slippage : F; pe_total_borrow : F; pe_total_costs : F;
  pe_equity_curve : list F; pe_daily_returns : list F
}.

(** [np.maximum.accumulate(equity_curve)], and the drawdowns from it. *)
Fixpoint accumulate_max (peak : F) (xs : list F) : list F :=
  match xs with [] => [] | x :: xs => let peak := np_maximum peak x in peak :: accumulate_max peak xs end.
Definition drawdowns (equity : list F) : list F :=
  match equity with
  | [] => []
  | e :: es => zip_with (λ x peak, (x ⊖ peak) ⊘ np_maximum peak nano) equity (e :: accumulate_max e es)
  end.
Definition smallest (xs : list F) : F := match xs with [] => n0 | x :: xs => foldl np_minimum x xs end.

(** [np.percentile(xs, 5)] *)
Variable np_percentile5 : list F → F.

Definition tail_risk (valid : list F) : F :=
  if (10 <? length valid)%nat then
    let cut := np_percentile5 valid in
    match filter (λ r, (r <=.? cut) = true) valid with [] => cut | tail => np_mean tail end
  else n0.

Definition performance (initial_capital : F) (s : SimState) : Performance :=
  let p := sm_portfolio s in
  let equity := equity_curve p in
  let returns := drop 1 (pf_returns p) in
  let valid := filter (λ r, nfinite r = true) returns in
  let ann_ret := match valid with [] => n0 | _ => np_mean valid ⊗ nof_Z 252 end in
  let ann_vol := if (1 <? length valid)%nat then np_std 1 valid ⊗ sqrt (nof_Z 252) else n0 in
  let dd := drawdowns equity in
  let max_dd := smallest dd in
  let r_nonzero := filter (λ r, negb (r =.? n0) = true) valid in
  let win_rate :=
    match r_nonzero with
    | [] => nof_ratio 1 2
    | _ => np_mean ((λ r, if r >.? n0 then n1 else n0) <$> r_nonzero)
    end in
  let calmar := if max_dd <.? n0 then ann_ret ⊘ nmax (nabs max_dd) nano else ann_ret in
  let final := default n0 (last equity) in
  mkPerformance (nround final 2) (nround (final ⊘ initial_capital ⊖ n1) 4) (nround ann_ret 4) (nround ann_vol 4)
    (nround (ann_ret ⊘ nmax ann_vol nano) 4) (nround max_dd 4)
    (length (filter (λ d, (d <.? nof_ratio (-1) 100) = true) dd)) (nround calmar 4) (nround (tail_risk valid) 6)
    (nround win_rate 4) (length (pf_log p)) (nround (sum_commission p) 2) (nround (sum_slippage p) 2)
    (nround (sum_borrow p) 2) (nround (sum_commission p ⊕ sum_slippage p ⊕ sum_borrow p) 2)
    ((λ e, nround e 2) <$> last_n 504 equity) ((λ r, nround r 6) <$> last_n 504 returns).
End simulator.

#[local] Close Scope Z_scope.
(** * Theorems

    The event-driven backtester: what it does on a bar depends on the bars up
    to it, orders respect the leverage limit and the ban on short positions,
    and a flat signal orders nothing. *)

(** ** No look-ahead *)

Section causality.
Context {F : Type} `{Num F}.
Variable np_mean : list F → F.
Variable np_std : nat → list F → F.
Variable sqrt : F → F.
Variable set_order : list string → list string.
Variable tickers : list string.

Definition agree (n : nat) (data data' : string → list F) : Prop := ∀ t, t ∈ tickers → take n (data t) = take n (data' t).

Lemma prices_agree_at n data data' t bar : agree n data data' → t ∈ tickers → (bar < n)%nat → data t !! bar = data' t !! bar.
Proof. intros Ha Ht Hb. rewrite <- (lookup_take_lt (data t) n bar Hb), (Ha t Ht). by apply lookup_take_lt. Qed.

Lemma crossover_series_take n (close : list F) fast slow :
  ma_crossover_series np_mean (take n close) fast slow = take n (ma_crossover_series np_mean close fast slow).
Proof. exact (signal_series_take np_mean np_std id (strategy_config MA_CROSSOVER fast slow) 0 close n). Qed.

Lemma prepared_at fast slow data t l :
  t ∈ l → od_get t (prepared np_mean (MACrossover fast slow) l data) = Some (ma_crossover_series np_mean (data t) fast slow).
Proof.
  induction l as [|x l IH]; [by intros []%not_elem_of_nil|]. intros Hin. cbn.
  case_decide as E; [by subst|]. apply IH. apply elem_of_cons in Hin as [->|?]; [done|done].
Qed.

Lemma on_market_agree n data data' strategy bar t h c :
  agree n data data' → t ∈ tickers → (bar < n)%nat →
  on_market np_mean np_std strategy (prepared np_mean strategy tickers data) bar t h c =
  on_market np_mean np_std strategy (prepared np_mean strategy tickers data') bar t h c.
Proof.
  intros Ha Ht Hb. destruct strategy as [fast slow| |]; [|done|done]. unfold on_market. rewrite !prepared_at by done.
  cbn [mbind option_bind].
  assert (∀ close : list F, ma_crossover_series np_mean close fast slow !! bar =
                    ma_crossover_series np_mean (take n close) fast slow !! bar) as Hs.
  { intros close. rewrite crossover_series_take. symmetry. by apply lookup_take_lt. }
  by rewrite (Hs (data t)), (Hs (data' t)), (Ha t Ht).
Qed.

Lemma sim_bar_agree n data data' strategy costs sizer s bar :
  agree n data data' → (bar < n)%nat →
  sim_bar np_mean np_std sqrt set_order tickers data strategy (prepared np_mean strategy tickers data) costs sizer s bar =
  sim_bar np_mean np_std sqrt set_order tickers data' strategy (prepared np_mean strategy tickers data') costs sizer s bar.
Proof.
  intros Ha Hb. unfold sim_bar.
  assert (current_prices tickers data bar = current_prices tickers data' bar) as ->.
  { apply foldl_ext_in. intros d t Ht. by rewrite (prices_agree_at n data data'). }
  assert (∀ h, extend_history tickers data bar h = extend_history tickers data' bar h) as Hh.
  { intros h. apply foldl_ext_in. intros d t Ht. by rewrite (prices_agree_at n data data'). }
  assert (∀ h c, collect_signals np_mean np_std tickers strategy (prepared np_mean strategy tickers data) bar h c =
                 collect_signals np_mean np_std tickers strategy (prepared np_mean strategy tickers data') bar h c) as Hc.
  { intros h c. apply foldl_ext_in. intros [c' l] t Ht. by rewrite (on_market_agree n data data'). }
  by rewrite Hh, Hc.
Qed.

Lemma sim_bars_agree n data data' strategy costs sizer s :
  agree n data data' →
  sim_bars np_mean np_std sqrt set_order tickers data strategy (prepared np_mean strategy tickers data) costs sizer s n =
  sim_bars np_mean np_std sqrt set_order tickers data' strategy (prepared np_mean strategy tickers data') costs sizer s n.
Proof.
  intros Ha. apply foldl_ext_in. intros s' bar Hin%elem_of_seq. apply (sim_bar_agree n); [done|lia].
Qed.

(** What is recorded is never rewritten. *)
Definition extends (p p' : Portfolio F) : Prop := equity_curve p `prefix_of` equity_curve p' ∧ pf_log p `prefix_of` pf_log p'.

Lemma curve_refl p : extends p p.
Proof. done. Qed.
Lemma curve_trans p p' p'' : extends p p' → extends p' p'' → extends p p''.
Proof. intros [? ?] [? ?]. split; by etrans. Qed.

Lemma fill_order_curve costs prices h p o :
  let p' := fill_order np_std costs prices h p o in
  equity_curve p' = equity_curve p ∧ pf_leverage_limit p' = pf_leverage_limit p ∧ pf_allow_short p' = pf_allow_short p ∧
  pf_log p `prefix_of` pf_log p'.
Proof.
  unfold fill_order. cbn zeta. destruct (_ <=.? _); [done|]. destruct (_ <.? _); [done|]. destruct (_ <.? nabs _); [|done].
  unfold process_fill. cbn. split_and!; [done..|by eexists].
Qed.

Lemma fill_orders_curve costs prices h orders p :
  let p' := foldl (fill_order np_std costs prices h) p orders in
  equity_curve p' = equity_curve p ∧ pf_leverage_limit p' = pf_leverage_limit p ∧ pf_allow_short p' = pf_allow_short p ∧
  pf_log p `prefix_of` pf_log p'.
Proof.
  revert p. induction orders as [|o orders IH]; intros p; [done|]. cbn [foldl].
  destruct (IH (fill_order np_std costs prices h p o)) as (E1 & E2 & E3 & E4).
  destruct (fill_order_curve costs prices h p o) as (E5 & E6 & E7 & E8). rewrite E1, E2, E3. split_and!; [done..|by etrans].
Qed.

(** The portfolio after the fills of a bar. *)
Definition after_fills costs (data : string → list F) (s : SimState) (bar : nat) : Portfolio F :=
  let prices := current_prices tickers data bar in
  foldl (fill_order np_std costs prices (sm_history s)) (accrue_borrow prices (borrow_rate_annual costs) (sm_portfolio s))
    (match bar with O => [] | S _ => sm_pending s end).

Lemma sim_bar_portfolio data strategy series costs sizer s bar :
  sm_portfolio (sim_bar np_mean np_std sqrt set_order tickers data strategy series costs sizer s bar) =
  update_equity set_order (current_prices tickers data bar) (after_fills costs data s bar).
Proof.
  unfold sim_bar, after_fills. cbn zeta. destruct bar, (sm_pending s) as [|o orders];
    by destruct (collect_signals _ _ _ _ _ _ _ _).
Qed.

Lemma sim_bar_extends data strategy series costs sizer s bar :
  let s' := sim_bar np_mean np_std sqrt set_order tickers data strategy series costs sizer s bar in
  extends (sm_portfolio s) (sm_portfolio s') ∧
  length (equity_curve (sm_portfolio s')) = S (length (equity_curve (sm_portfolio s))).
Proof.
  cbn zeta. rewrite sim_bar_portfolio. unfold after_fills, extends.
  match goal with |- context [foldl (fill_order _ ?c ?pr ?h) ?p ?os] => destruct (fill_orders_curve c pr h os p) as (E1 & _ & _ & E4) end.
  unfold update_equity. cbn. rewrite E1. split_and!; [by eexists|done|]. cbn. rewrite length_app. cbn. lia.
Qed.

Lemma sim_bars_S data strategy series costs sizer s n :
  sim_bars np_mean np_std sqrt set_order tickers data strategy series costs sizer s (S n) =
  sim_bar np_mean np_std sqrt set_order tickers data strategy series costs sizer
    (sim_bars np_mean np_std sqrt set_order tickers data strategy series costs sizer s n) n.
Proof. unfold sim_bars. by rewrite seq_S, foldl_app. Qed.

Lemma sim_bars_extend data strategy series costs sizer s n m :
  (n ≤ m)%nat →
  let run := sim_bars np_mean np_std sqrt set_order tickers data strategy series costs sizer s in
  extends (sm_portfolio (run n)) (sm_portfolio (run m)).
Proof.
  cbn zeta. induction 1 as [|m Hle IH]; [apply curve_refl|]. rewrite sim_bars_S.
  eapply curve_trans; [exact IH|]. apply sim_bar_extends.
Qed.

Lemma sim_bars_length data strategy series costs sizer s n :
  length (equity_curve (sm_portfolio (sim_bars np_mean np_std sqrt set_order tickers data strategy series costs sizer s n))) =
  (length (equity_curve (sm_portfolio s)) + n)%nat.
Proof.
  induction n as [|n IH]; [cbn; lia|]. rewrite sim_bars_S. destruct (sim_bar_extends data strategy series costs sizer
    (sim_bars np_mean np_std sqrt set_order tickers data strategy series costs sizer s n) n) as [_ ->]. lia.
Qed.

Lemma run_bars data strategy capital model short limit sizer s :
  run_event_backtest np_mean np_std sqrt set_order tickers data strategy capital model short limit sizer = Ret s →
  ∃ t T, t ∈ tickers ∧ length (data t) = T ∧
    s = sim_bars np_mean np_std sqrt set_order tickers data strategy (prepared np_mean strategy tickers data) (cost_model model)
          sizer (initial_state tickers capital short limit) T.
Proof.
  unfold run_event_backtest. destruct (remove_dups _) as [|T [|]] eqn:E; [done| |done]. intros [= <-].
  assert (T ∈ remove_dups ((λ t, length (data t)) <$> tickers)) as HT by (rewrite E; by left).
  rewrite elem_of_remove_dups in HT. apply list_elem_of_fmap in HT as (t & -> & Ht). by exists t, (length (data t)).
Qed.

(** No look-ahead in the event simulator, whatever the arithmetic, the
    strategy and the costs. If the prices of the first [n] bars are the same in
    two runs, their first [n + 1] equity values are the same, and both trade
    logs begin with the trades of those bars, however the prices go on. *)
Theorem simulator_no_look_ahead n data data' strategy capital model short limit sizer s s' :
  run_event_backtest np_mean np_std sqrt set_order tickers data strategy capital model short limit sizer = Ret s →
  run_event_backtest np_mean np_std sqrt set_order tickers data' strategy capital model short limit sizer = Ret s' →
  agree n data data' →
  (∀ t, t ∈ tickers → n ≤ length (data t) ∧ n ≤ length (data' t))%nat →
  let p := sm_portfolio (sim_bars np_mean np_std sqrt set_order tickers data strategy (prepared np_mean strategy tickers data)
                           (cost_model model) sizer (initial_state tickers capital short limit) n) in
  extends p (sm_portfolio s) ∧ extends p (sm_portfolio s') ∧ length (equity_curve p) = S n.
Proof.
  intros (t & T & Ht & HT & ->)%run_bars (t' & T' & Ht' & HT' & ->)%run_bars Ha Hn p. split_and!.
  - apply sim_bars_extend. rewrite <- HT. by apply Hn.
  - unfold p. rewrite (sim_bars_agree n data data') by done. apply sim_bars_extend. rewrite <- HT'. by apply Hn.
  - unfold p. by rewrite sim_bars_length.
Qed.
End causality.

(** ** Limits, in exact arithmetic *)

Section limits.
#[local] Open Scope Q_scope.
Variable np_mean : list Q → Q.
Variable np_std : nat → list Q → Q.
Variable sqrt : Q → Q.
Variable set_order : list string → list string.
Variable prices : list (string * Q).
Implicit Types ps : list (string * Q).

(** The value of the positions, long and short. *)
Definition gross ps : Q := qsum ((λ kv, Qabs kv.2 * price_of prices kv.1) <$> ps).

Lemma qsum_step (x : Q) l : qsum (x :: l) = x + qsum l.
Proof. done. Qed.

Lemma pop_absent t ps : t ∉ od_keys ps → od_pop t ps = ps.
Proof.
  intros Ht. apply filter_all. intros kv Hin E. apply Ht. subst. by apply list_elem_of_fmap_2.
Qed.
Lemma get_absent t ps : t ∉ od_keys ps → od_get t ps = None.
Proof.
  induction ps as [|[k v] ps IH]; [done|]. cbn. rewrite not_elem_of_cons. intros [Hk Ht]. rewrite decide_False by congruence. auto.
Qed.

(** Setting a position replaces its share of the exposure. *)
Lemma gross_put t x ps : NoDup (od_keys ps) → gross (od_put t x ps) == gross (od_pop t ps) + Qabs x * price_of prices t.
Proof.
  induction ps as [|[k v] ps IH]; intros Hnd; [unfold gross; cbn; ring|].
  apply NoDup_cons in Hnd as [Hk Hnd]. cbn [od_put]. unfold od_pop. rewrite filter_cons. cbn [fst]. case_decide as E.
  - subst. rewrite decide_False by auto. fold (od_pop t ps). rewrite pop_absent by done. unfold gross. rewrite fmap_cons, qsum_step. cbn [fst snd]. ring.
  - rewrite decide_True by done. fold (od_pop t ps). specialize (IH Hnd). unfold gross in *. rewrite !fmap_cons, !qsum_step, IH. ring.
Qed.

Lemma projected_notional t q ps :
  NoDup (od_keys ps) →
  qsum ((λ kv, Qabs (kv.2 + (if bool_decide (kv.1 = t) then q else 0)) * price_of prices kv.1) <$> ps)
    + (match od_get t ps with Some _ => 0 | None => Qabs q * price_of prices t end)
  == gross (od_pop t ps) + Qabs (position_of t ps + q) * price_of prices t.
Proof.
  induction ps as [|[k v] ps IH]; intros Hnd.
  { change (0 + Qabs q * price_of prices t == 0 + Qabs (0 + q) * price_of prices t). rewrite (Qabs_wd (0 + q) q) by ring. ring. }
  apply NoDup_cons in Hnd as [Hk Hnd]. specialize (IH Hnd). unfold od_pop, position_of in *. rewrite filter_cons.
  cbn [od_get fst]. rewrite fmap_cons, qsum_step. cbn [fst snd]. case_decide as E.
  - subst. rewrite decide_False by auto. rewrite bool_decide_eq_true_2 by done. cbn [default from_option id].
    rewrite get_absent in IH by done. fold (od_pop t ps) in IH |- *. rewrite pop_absent in IH |- * by done.
    change (default n0 None) with 0 in IH. rewrite (Qabs_wd (0 + q) q) in IH by ring.
    assert (qsum ((λ kv, Qabs (kv.2 + (if bool_decide (kv.1 = t) then q else 0)) * price_of prices kv.1) <$> ps) == gross ps) as ->; [|ring].
    apply (Qplus_inj_r _ _ (Qabs q * price_of prices t)). exact IH.
  - rewrite decide_True by done. rewrite bool_decide_eq_false_2 by done. fold (od_pop t ps) in IH |- *.
    unfold gross in *. rewrite fmap_cons, qsum_step. cbn [fst snd].
    rewrite (Qabs_wd (v + 0) v) by ring. rewrite <- !Qplus_assoc, IH. ring.
Qed.

Definition max_gross (p : Portfolio Q) : Q := (pf_leverage_limit p + nano) * nmax (default 0 (last (equity_curve p))) nano.
Definition long_only ps : Prop := ∀ t, 0 <= position_of t ps.
Definition sound (p : Portfolio Q) : Prop :=
  NoDup (od_keys (positions p)) ∧ (pf_allow_short p = false → long_only (positions p)).

Lemma div_le_mul (x y e : Q) : 0 < e → x / e <= y → x <= y * e.
Proof. intros He Hx. assert (x == x / e * e) as -> by (field; lra). apply Qmult_le_compat_r; [done|lra]. Qed.

Lemma over_limit fill t p :
  NoDup (od_keys (positions p)) →
  (projected_gross prices fill t p >.? (pf_leverage_limit p ⊕ nano)) = false →
  gross (od_pop t (positions p)) + Qabs (position_of t (positions p) + fe_quantity fill) * price_of prices t <= max_gross p.
Proof.
  intros Hnd Hp%nlt_Q_false. rewrite <- projected_notional by done. unfold projected_gross, max_gross in *. cbn zeta in Hp.
  cbn [nadd nmul ndiv nabs Num_Q] in Hp. change (@n0 Q _) with 0 in Hp.
  set (e := nmax _ nano) in *. assert (0 < e) as He.
  { destruct (nmax_Q (default 0 (last (equity_curve p))) nano) as (_ & Hn & _). eapply Qlt_le_trans; [|exact Hn]. done. }
  pose proof (div_le_mul _ _ _ He Hp) as Hx.
  eapply Qle_trans; [|exact Hx]. destruct (od_get t (positions p)); rewrite nsum_Q; lra.
Qed.

Lemma position_put t x j ps : position_of j (od_put t x ps) = if decide (j = t) then x else position_of j ps.
Proof. unfold position_of. rewrite od_get_put. by case_decide. Qed.

Lemma long_only_put t x ps : long_only ps → 0 <= x → long_only (od_put t x ps).
Proof. intros Hl Hx j. rewrite position_put. by case_decide. Qed.

Lemma filled_positions fill (p : Portfolio Q) :
  positions (process_fill fill p) = od_put (fe_ticker fill) (position_of (fe_ticker fill) (positions p) ⊕ fe_quantity fill) (positions p).
Proof. done. Qed.
Lemma filled_short fill (p : Portfolio Q) : pf_allow_short (process_fill fill p) = pf_allow_short p.
Proof. done. Qed.

Hypothesis prices_pos : ∀ t, 0 <= price_of prices t.

(** One pending order: the books stay sound, and a position that changed
    leaves the account within its limit. *)
Lemma fill_order_limits costs h p o :
  sound p →
  let p' := fill_order np_std costs prices h p o in
  sound p' ∧ (positions p' = positions p ∨ gross (positions p') <= max_gross p).
Proof.
  intros [Hnd Hl]. unfold fill_order. cbn zeta. destruct (_ <=.? _); [by split; [|left]|].
  set (fill := compute_fill costs o _ _). set (t := oe_ticker o) in *.
  destruct (projected_gross prices fill t p >.? _) eqn:Eg; [by split; [|left]|].
  pose proof (over_limit fill t p Hnd Eg) as Hg. cbn [fe_quantity compute_fill fill] in Hg |- *.
  set (pos := position_of t (positions p)) in *. set (q := oe_quantity o) in *.
  destruct ((q <.? n0) && negb (pf_allow_short p) && ((pos ⊕ q) <.? n0)) eqn:Ecap.
  - apply andb_prop in Ecap as [[Eq Es]%andb_prop _]. cbn [fe_quantity compute_fill oe_quantity].
    destruct (_ <.? nabs _); [|by split; [|left]]. unfold sound. rewrite filled_positions, filled_short.
    cbn [fe_ticker fe_quantity compute_fill oe_ticker oe_quantity]. fold t pos. assert (pos ⊕ nopp pos == 0) as Hz by (cbn [nadd nopp Num_Q]; ring).
    split; [split|right].
    + by apply od_keys_put.
    + intros Hs. apply long_only_put; [by apply Hl|]. rewrite Hz. apply Qle_refl.
    + eapply Qle_trans; [|exact Hg]. rewrite gross_put by done. apply Qplus_le_compat; [apply Qle_refl|].
      apply Qmult_le_compat_r; [|done]. rewrite (Qabs_wd _ _ Hz). apply Qabs_nonneg.
  - destruct (_ <.? nabs _); [|by split; [|left]]. unfold sound. rewrite filled_positions, filled_short.
    cbn [fe_ticker fe_quantity compute_fill]. fold t q pos.
    split; [split|right].
    + by apply od_keys_put.
    + intros Hs. apply long_only_put; [by apply Hl|]. rewrite Hs in Ecap. specialize (Hl Hs t). fold pos in Hl.
      cbn [negb andb] in Ecap. rewrite andb_true_r in Ecap. apply andb_false_iff in Ecap as [Ec|Ec]; apply nlt_Q_false in Ec;
        change (@n0 Q _) with 0 in Ec; change (0 <= pos + q); [lra|exact Ec].
    + by rewrite gross_put.
Qed.

Lemma fill_orders_limits costs h orders p :
  sound p →
  let p' := foldl (fill_order np_std costs prices h) p orders in
  sound p' ∧ (positions p' = positions p ∨ gross (positions p') <= max_gross p).
Proof.
  revert p. induction orders as [|o orders IH]; intros p Hp; [by split; [|left]|]. cbn [foldl].
  destruct (fill_order_limits costs h p o Hp) as [Hp' Hg']. destruct (IH _ Hp') as [Hp'' Hg'']. split; [done|].
  destruct (fill_order_curve np_std costs prices h p o) as (E1 & E2 & _ & _).
  assert (max_gross (fill_order np_std costs prices h p o) = max_gross p) as Em by (unfold max_gross; by rewrite E1, E2).
  destruct Hg'' as [->|Hg'']; [done|]. right. by rewrite <- Em.
Qed.
End limits.

Lemma current_prices_pos tickers (data : string → list Q) bar :
  (∀ t x, x ∈ data t → (0 <= x)%Q) → ∀ t, (0 <= price_of (current_prices tickers data bar) t)%Q.
Proof.
  intros Hd t. unfold price_of, current_prices.
  assert (∀ d, (∀ j x, od_get j d = Some x → (0 <= x)%Q) → ∀ j x,
    od_get j (foldl (λ d t, match data t !! bar with Some p => od_put t p d | None => d end) d tickers) = Some x → (0 <= x)%Q) as Hf.
  { induction tickers as [|k l IH]; intros d Hpos; [done|]. cbn [foldl]. apply IH. intros j x.
    destruct (data k !! bar) as [v|] eqn:E; [|by apply Hpos]. rewrite od_get_put. case_decide; [|by apply Hpos].
    intros [= <-]. apply (Hd k). by apply list_elem_of_lookup_2 in E. }
  destruct (od_get t _) as [x|] eqn:E; [|done]. cbn. apply (Hf []) in E; [done|]. by intros j y [=].
Qed.

Section account.
#[local] Open Scope Q_scope.
Variable np_mean : list Q → Q.
Variable np_std : nat → list Q → Q.
Variable sqrt : Q → Q.
Variable set_order : list string → list string.
Variable tickers : list string.
Variable data : string → list Q.
Variable strategy : Strategy Q.
Variable series : list (string * list Q).
Variable costs : TransactionCostModel Q.
Variable sizer : Sizer Q.
Hypothesis prices_pos : ∀ t x, x ∈ data t → 0 <= x.

Definition bars (s : SimState) (n : nat) : SimState :=
  sim_bars np_mean np_std sqrt set_order tickers data strategy series costs sizer s n.

Lemma bars_S s n :
  bars s (S n) = sim_bar np_mean np_std sqrt set_order tickers data strategy series costs sizer (bars s n) n.
Proof. apply sim_bars_S. Qed.

Lemma bar_limits s k :
  sound (sm_portfolio s) →
  let s' := sim_bar np_mean np_std sqrt set_order tickers data strategy series costs sizer s k in
  sound (sm_portfolio s') ∧
  (positions (sm_portfolio s') = positions (sm_portfolio s) ∨
   gross (current_prices tickers data k) (positions (sm_portfolio s')) <= max_gross (sm_portfolio s)).
Proof.
  intros Hs. cbn zeta. rewrite sim_bar_portfolio. unfold after_fills.
  set (prices := current_prices tickers data k). set (orders := match k with O => [] | S _ => sm_pending s end).
  apply (fill_orders_limits np_std prices (current_prices_pos tickers data k prices_pos) costs (sm_history s) orders
           (accrue_borrow prices (borrow_rate_annual costs) (sm_portfolio s)) Hs).
Qed.

Lemma bars_sound s n : sound (sm_portfolio s) → sound (sm_portfolio (bars s n)).
Proof. intros Hs. induction n as [|n IH]; [done|]. rewrite bars_S. by apply bar_limits. Qed.

(** The account the event simulator keeps, in exact arithmetic, on prices
    that are not negative, for every strategy, sizer, cost model and number of
    bars. At every bar either no position changed, or the gross exposure at the
    bar's prices is within the leverage limit (plus the tolerance) times the
    last equity; and without short selling no position is ever below zero. *)
Theorem exposure_within_limits capital short limit k :
  let start := initial_state tickers capital short limit in
  let p := sm_portfolio (bars start k) in
  let p' := sm_portfolio (bars start (S k)) in
  (positions p' = positions p ∨
   gross (current_prices tickers data k) (positions p')
     <= (limit + nano) * nmax (default 0 (last (equity_curve p))) nano) ∧
  (short = false → ∀ t, 0 <= position_of t (positions p')).
Proof.
  cbn zeta. set (start := initial_state tickers capital short limit).
  assert (sound (sm_portfolio start)) as Hs0 by (split; [constructor|by intros _ t]).
  assert (∀ n, pf_leverage_limit (sm_portfolio (bars start n)) = limit ∧ pf_allow_short (sm_portfolio (bars start n)) = short) as Hc.
  { induction n as [|n [IH1 IH2]]; [done|]. rewrite bars_S, sim_bar_portfolio. unfold after_fills.
    match goal with |- context [foldl (fill_order _ ?c ?pr ?h) ?p ?os] => destruct (fill_orders_curve np_std c pr h os p) as (_ & E1 & E2 & _) end.
    exact (conj (eq_trans E1 IH1) (eq_trans E2 IH2)). }
  pose proof (bars_sound start k Hs0) as Hk.
  pose proof (Hc (S k)) as [_ Hshort]. rewrite bars_S in *.
  destruct (bar_limits (bars start k) k Hk) as [[_ Hl] Hg]. split.
  - unfold max_gross in Hg. by rewrite (proj1 (Hc k)) in Hg.
  - intros Hs. apply Hl. by rewrite Hshort.
Qed.

(** Flat signals: every sizer answers zero for direction 0, which is below the
    smallest order, so the branch that liquidates the position is never taken. *)
Lemma flat_signals_never_trade bar prices h p sg :
  suggested_direction sg = 0%Z → order_of np_std sqrt sizer bar prices h p sg = None.
Proof.
  intros Hd. unfold order_of. cbn zeta. destruct (_ <=.? _); [done|].
  assert (∀ x y : Q, nof_Z 0 ⊗ x ⊘ y == 0) as Hz.
  { intros x y. change (0 * x / y == 0). unfold Qdiv. ring. }
  assert (size_order np_std sqrt sizer sg (price_of prices (sg_ticker sg)) (default n0 (last (equity_curve p)))
            (closes_of h (sg_ticker sg)) == 0) as Hq.
  { unfold size_order. rewrite Hd. cbn zeta. destruct sizer as [f|tv lb]; repeat case_match; by rewrite ?Hz. }
  assert (∀ q : Q, q == 0 → (nabs q <.? nof_ratio 1 10000) = true) as Hsmall.
  { intros q Hq'. apply nlt_Q. cbn [nabs Num_Q]. by rewrite (Qabs_wd _ _ Hq'). }
  by rewrite (Hsmall _ Hq).
Qed.
End account.

(** ** On concrete prices *)

Definition sample_mean (l : list Q) : Q := nsum l ⊘ nof_Z (Z.of_nat (length l)).
Definition sample_prices (tail : list Z) (ticker : string) : list Q := nof_Z <$> [10; 10; 9; 12; 20; 15]%Z ++ tail.
Definition sample_run (tail : list Z) : outcome string SimState :=
  run_event_backtest sample_mean (λ _ _, n0) id remove_dups ["AAA"] (sample_prices tail) (MACrossover 1 2) (nof_Z 1000) "retail"
    false n1 (FixedFractional (nof_ratio 1 4)).
Definition sample_equity (tail : list Z) : list Q :=
  match sample_run tail with Ret s => Qred <$> equity_curve (sm_portfolio s) | Raise _ => [] end.

(** It trades: the jump at the fourth bar is bought at the fifth. *)
Example sample_trades : match sample_run [3; 4]%Z with Ret s => length (pf_log (sm_portfolio s)) | Raise _ => 0%nat end = 2%nat.
Proof. vm_compute. reflexivity. Qed.

Lemma simulator_no_look_ahead_witness :
  match sample_run [3; 4]%Z, sample_run [100]%Z with
  | Ret s, Ret s' => ∃ p, extends p (sm_portfolio s) ∧ extends p (sm_portfolio s') ∧ length (equity_curve p) = 7%nat
  | _, _ => False
  end.
Proof.
  destruct (sample_run [3; 4]%Z) as [s|] eqn:E; [|by vm_compute in E].
  destruct (sample_run [100]%Z) as [s'|] eqn:E'; [|by vm_compute in E'].
  assert (agree ["AAA"] 6 (sample_prices [3; 4]%Z) (sample_prices [100]%Z)) as Ha by (intros t _; reflexivity).
  assert (∀ t, t ∈ ["AAA"] → 6 ≤ length (sample_prices [3; 4]%Z t) ∧ 6 ≤ length (sample_prices [100]%Z t))%nat as Hn.
  { intros t _. split; apply Nat.leb_le; reflexivity. }
  pose proof (simulator_no_look_ahead sample_mean (λ _ _, n0) id remove_dups ["AAA"] 6 _ _ _ _ _ _ _ _ s s' E E' Ha Hn) as Hp.
  cbn zeta in Hp. eexists. exact Hp.
Defined.

Lemma exposure_within_limits_witness :
  let run := bars sample_mean (λ _ _, n0) id remove_dups ["AAA"] (sample_prices [3; 4]%Z) (MACrossover 1 2)
               (prepared sample_mean (MACrossover 1 2) ["AAA"] (sample_prices [3; 4]%Z)) (cost_model "retail")
               (FixedFractional (nof_ratio 1 4)) (initial_state ["AAA"] (nof_Z 1000) false n1) in
  positions (sm_portfolio (run 4%nat)) ≠ positions (sm_portfolio (run 5%nat)) ∧
  ∀ t, (0 <= position_of t (positions (sm_portfolio (run 5%nat))))%Q.
Proof.
  cbn zeta. split; [vm_compute; discriminate|].
  assert (∀ t x, x ∈ sample_prices [3; 4]%Z t → (0 <= x)%Q) as Hpos.
  { intros t. apply Forall_forall. repeat constructor; by vm_compute. }
  pose proof (exposure_within_limits sample_mean (λ _ _, n0) id remove_dups ["AAA"] (sample_prices [3; 4]%Z) (MACrossover 1 2)
           (prepared sample_mean (MACrossover 1 2) ["AAA"] (sample_prices [3; 4]%Z)) (cost_model "retail")
           (FixedFractional (nof_ratio 1 4)) Hpos (nof_Z 1000) false n1 4) as [_ Hlong].
  cbn zeta in Hlong. exact (Hlong eq_refl).
Defined.

(** [MomentumStrategy] rebalances every five market events, and there is one
    event per ticker: with ten tickers one bar rebalances twice. *)
Example momentum_counts_events :
  let tickers := ["A"; "B"; "C"; "D"; "E"; "F"; "G"; "H"; "I"; "J"] in
  let h := (λ t, (t, [n1 : Q])) <$> tickers in
  let '(counter, signals) := collect_signals sample_mean (λ _ _, n0) tickers (Momentum 1 3 3) [] 0 h 0%Z in
  counter = 10%Z ∧ length signals = 20%nat.
Proof. vm_compute. by split. Qed.
