(* ===== verification/HistoricalData.v ===== *)
(** backend/services/historical_data.py: price panels on one calendar. A
    download is a table whose rows are dates: an index without duplicates and
    one column of possibly missing values per field and ticker. *)

From stdpp Require Import sorting.
From S2P Require Import Prelude Numeric OrderedDict.
#[local] Open Scope nat_scope.

(** A column; [None] is NaN. Its length is that of the index. *)
Abbreviation series F := (list (option F)) (only parsing).

(** The two layouts of a download: (field, ticker) columns, or the fields of a
    single symbol. Dates are day numbers. *)
Inductive Columns (F : Type) :=
| MultiIndex (blocks : list (string * list (string * list (option F))))
| FlatIndex (fields : list (string * list (option F))).
Arguments MultiIndex {F}. Arguments FlatIndex {F}.

Record DataFrame (F : Type) := mkDataFrame { df_index : list Z; df_columns : Columns F }.
Arguments mkDataFrame {F}. Arguments df_index {F}. Arguments df_columns {F}.

(** [PricePanel]: row [i] of every column is the date [i]. *)
Record PricePanel (F : Type) := mkPricePanel {
  pp_dates : list Z;
  pp_close : list (string * list F);
  pp_high : list (string * list F);
  pp_low : list (string * list F);
  pp_volume : list (string * list F)
}.
Arguments mkPricePanel {F}. Arguments pp_dates {F}. Arguments pp_close {F}. Arguments pp_high {F}. Arguments pp_low {F}.
Arguments pp_volume {F}.
Definition tickers {F} (p : PricePanel F) : list string := od_keys (pp_close p).

Section frames.
Context {F : Type} `{Num F}.

Definition DEFAULT_VOLUME : F := nof_Z 1000000.

(** [list(dict.fromkeys(xs))] *)
Definition fromkeys (xs : list string) : list string :=
  od_keys (foldl (λ d t, od_put t tt d) [] xs).

(** [field_frame]: the columns found, in the order they are wanted. *)
Definition field_frame (data : DataFrame F) (field : string) (names : list string) : list (string * list (option F)) :=
  let wanted := fromkeys names in
  match df_columns data with
  | MultiIndex blocks =>
      match od_get field blocks with
      | Some block => omap (λ t, (t,.) <$> od_get t block) wanted
      | None => []
      end
  | FlatIndex fields =>
      match wanted, od_get field fields with
      | [t], Some col => [(t, col)]
      | _, _ => []
      end
  end.

(** [np.isfinite(close) & (close > 0)] *)
Definition valid_price (x : F) : bool := nfinite x && (x >.? n0).
(** [col.where(test)] *)
Definition keep (test : F → bool) (x : option F) : option F := if default false (test <$> x) then x else None.
Definition where_ (test : F → bool) (col : list (option F)) : list (option F) := keep test <$> col.
Definition count (col : list (option F)) : nat := length (filter (λ x, is_Some x) col).

(** The rows that [dropna(how="any")] keeps. *)
Definition complete_row (cols : list (string * list (option F))) (i : nat) : bool :=
  forallb (λ c, bool_decide (is_Some (default None (c.2 !! i)))) cols.
Definition at_rows (rows : list nat) (col : list (option F)) : list (option F) := (λ i, default None (col !! i)) <$> rows.

(** [ffill] *)
Fixpoint ffill (last : option F) (col : list (option F)) : list (option F) :=
  match col with
  | [] => []
  | x :: col => let x := match x with Some _ => x | None => last end in x :: ffill x col
  end.

(** [on_calendar(field)]: one column per usable ticker, missing ones of NaN. *)
Definition on_calendar (data : DataFrame F) (field : string) (usable : list string) (rows : list nat)
    : list (string * list (option F)) :=
  (λ t, (t, match od_get t (field_frame data field usable) with
            | Some col => at_rows rows col
            | None => (λ _, None) <$> rows
            end)) <$> usable.

(** [.where(> 0).fillna(close)] *)
Definition fill_with (close : list F) (col : list (option F)) : list F :=
  zip_with (λ c x, default c (keep (λ v, v >.? n0) x)) close col.

Definition aligned_panel (data : DataFrame F) (names : list string) (min_rows : nat) : PricePanel F :=
  let close := (λ c, (c.1, where_ valid_price c.2)) <$> field_frame data "Close" names in
  let used := filter (λ c, min_rows <= count c.2) close in
  let usable := od_keys used in
  let rows := if decide (used = []) then [] else filter (λ i, complete_row used i = true) (seq 0 (length (df_index data))) in
  let closes := (λ c, (c.1, default n0 <$> at_rows rows c.2)) <$> used in
  let or_close field :=
    (λ c, (c.1, fill_with (default [] (od_get c.1 closes)) c.2)) <$> on_calendar data field usable rows in
  mkPricePanel (omap (λ i, df_index data !! i) rows) closes (or_close "High") (or_close "Low")
    ((λ c, (c.1, default DEFAULT_VOLUME <$> ffill None (where_ (λ v, n0 <=.? v) c.2)))
       <$> on_calendar data "Volume" usable rows).

(** [series_on_calendar]: the union of the calendars, filled forward, at the
    wanted dates. *)
Definition value_on (dates : list Z) (col : list (option F)) (d : Z) : option F :=
  match list_find (d =.) dates with Some (i, _) => default None (col !! i) | None => None end.

Definition series_on_calendar (data : DataFrame F) (ticker : string) (dates : list Z) : option (list F) :=
  match od_get ticker (field_frame data "Close" [ticker]), dates with
  | None, _ | _, [] => None
  | Some col, _ =>
      let kept := filter (λ dx, is_Some dx.2) (zip (df_index data) (where_ valid_price col)) in
      match kept with
      | [] => None
      | _ =>
          let union := merge_sort Z.le (remove_dups (kept.*1 ++ dates)) in
          let filled := ffill None (value_on kept.*1 kept.*2 <$> union) in
          mapM (value_on union filled) dates
      end
  end.
End frames.

(** * Theorems

    Panels pair prices of the same date, keep every date they can and nothing
    else; and a series carried onto another calendar never reads ahead. *)

#[local] Open Scope nat_scope.

(** ** Dicts built in order *)

Lemma od_get_fmap {A B} (f : A → B) t (l : list (string * A)) :
  od_get t ((λ c, (c.1, f c.2)) <$> l) = f <$> od_get t l.
Proof. induction l as [|[k v] l IH]; [done|]. cbn. by case_decide. Qed.

Lemma od_get_in_fmap {A B} (f : string * A → B) t v (l : list (string * A)) :
  od_get t ((λ c, (c.1, f c)) <$> l) = Some v → ∃ c, od_get t l = Some c ∧ v = f (t, c).
Proof.
  induction l as [|[k w] l IH]; [done|]. cbn. case_decide as E; [|done]. intros [= <-]. subst. by exists w.
Qed.

Lemma od_get_tagged {A} (f : string → A) t l : od_get t ((λ k, (k, f k)) <$> l) = if decide (t ∈ l) then Some (f t) else None.
Proof.
  induction l as [|k l IH]; [done|]. cbn. destruct (decide (k = t)) as [->|Hne].
  - by rewrite decide_True by (by left).
  - rewrite IH. apply decide_ext. rewrite elem_of_cons. naive_solver.
Qed.

Lemma od_get_omap {A} (g : string → option A) t l :
  od_get t (omap (λ k, (k,.) <$> g k) l) = if decide (t ∈ l) then g t else None.
Proof.
  induction l as [|k l IH]; [done|]. cbn. destruct (g k) as [v|] eqn:E; cbn; destruct (decide (k = t)) as [->|Hne].
  - by rewrite decide_True by (by left).
  - rewrite IH. apply decide_ext. rewrite elem_of_cons. naive_solver.
  - rewrite IH. rewrite (decide_True (P := t ∈ t :: l)) by (by left). rewrite E. by destruct (decide _).
  - rewrite IH. apply decide_ext. rewrite elem_of_cons. naive_solver.
Qed.

Lemma od_get_filter {A} (P : string * A → Prop) `{∀ x, Decision (P x)} t v (l : list (string * A)) :
  NoDup (od_keys l) → od_get t (filter P l) = Some v ↔ od_get t l = Some v ∧ P (t, v).
Proof.
  intros Hnd. assert (NoDup (od_keys (filter P l))) as Hnd'.
  { unfold od_keys in *. eapply sublist_NoDup; [exact Hnd|]. apply fmap_sublist, sublist_filter. }
  rewrite !od_get_elem by done. rewrite list_elem_of_filter. tauto.
Qed.

Lemma od_keys_get {A} t (l : list (string * A)) : t ∈ od_keys l ↔ is_Some (od_get t l).
Proof.
  induction l as [|[k v] l IH]; [split; [by intros []%not_elem_of_nil|by intros [? [=]]]|].
  unfold od_keys in *. cbn. rewrite elem_of_cons. case_decide as E; [subst; split; [by eexists|by left]|].
  rewrite IH. naive_solver.
Qed.

Lemma fromkeys_spec xs : NoDup (fromkeys xs) ∧ ∀ t, t ∈ fromkeys xs ↔ t ∈ xs.
Proof.
  unfold fromkeys. assert (∀ d, NoDup (od_keys d) →
    NoDup (od_keys (foldl (λ d t, od_put t tt d) d xs)) ∧
    ∀ t, t ∈ od_keys (foldl (λ d t, od_put t tt d) d xs) ↔ t ∈ od_keys d ∨ t ∈ xs) as Hf.
  { induction xs as [|x xs IH]; intros d Hd; cbn [foldl].
    { split; [done|]. intros t. split; [by left|]. intros [?|[]%not_elem_of_nil]; done. }
    destruct (IH (od_put x tt d)) as [IH1 IH2]; [by apply od_keys_put|]. split; [done|]. intros t. rewrite IH2, elem_of_cons.
    rewrite !od_keys_get, od_get_put. case_decide as E; [subst; split; [auto|by left; eexists]|]. naive_solver. }
  destruct (Hf []) as [H1 H2]; [constructor|]. split; [done|]. intros t. rewrite H2. split; [|by right].
  intros [[]%not_elem_of_nil|?]; done.
Qed.

Section panels.
Context {F : Type} `{Num F}.
Implicit Types data : DataFrame F.

Lemma field_frame_keys data field names : NoDup (od_keys (field_frame data field names)).
Proof.
  destruct (fromkeys_spec names) as [Hnd _]. unfold field_frame. cbn zeta. destruct (df_columns data) as [blocks|fields].
  - destruct (od_get field blocks) as [b|]; [|constructor].
    assert (od_keys (omap (λ t, (t,.) <$> od_get t b) (fromkeys names)) `sublist_of` fromkeys names) as Hs.
    { induction (fromkeys names) as [|k l IH]; [constructor|]. apply NoDup_cons in Hnd as [_ Hnd]. cbn.
      destruct (od_get k b); cbn; constructor; by apply IH. }
    by eapply sublist_NoDup.
  - destruct (fromkeys names) as [|u [|]]; try constructor. destruct (od_get field fields); [|constructor].
    apply NoDup_singleton.
Qed.

(** The close of a ticker in a row of the download, when it is valid. *)
Definition valid_close data names t (i : nat) : option F :=
  default None (default [] (od_get t (field_frame data "Close" names)) !! i) ≫= λ x, keep valid_price (Some x).

(** Enough valid closes to be used. *)
Definition usable data names (min_rows : nat) (t : string) : Prop :=
  ∃ col, od_get t (field_frame data "Close" names) = Some col ∧ min_rows ≤ count (where_ valid_price col).

Definition used_columns data names min_rows : list (string * list (option F)) :=
  filter (λ c, min_rows ≤ count c.2) ((λ c, (c.1, where_ valid_price c.2)) <$> field_frame data "Close" names).
Definition panel_rows data names min_rows : list nat :=
  let used := used_columns data names min_rows in
  if decide (used = []) then [] else filter (λ i, complete_row used i = true) (seq 0 (length (df_index data))).

Lemma used_keys data names min_rows : NoDup (od_keys (used_columns data names min_rows)).
Proof.
  unfold used_columns, od_keys. eapply sublist_NoDup; [|apply fmap_sublist, sublist_filter].
  rewrite <- list_fmap_compose. apply field_frame_keys.
Qed.

Lemma where_at (test : F → bool) col i : default None (where_ test col !! i) = default None (col !! i) ≫= λ x, keep test (Some x).
Proof. unfold where_. rewrite list_lookup_fmap. by destruct (col !! i) as [[x|]|]. Qed.

Lemma used_get data names min_rows t col :
  od_get t (used_columns data names min_rows) = Some col →
  usable data names min_rows t ∧ ∀ i, default None (col !! i) = valid_close data names t i.
Proof.
  unfold used_columns. rewrite od_get_filter; [|unfold od_keys; rewrite <- list_fmap_compose; apply field_frame_keys].
  rewrite (od_get_fmap (where_ valid_price)). unfold usable, valid_close.
  destruct (od_get t (field_frame data "Close" names)) as [c|]; [|by intros [[=] _]]. intros [[= <-] Hk]. cbn in Hk |- *.
  split; [by exists c|]. intros i. apply where_at.
Qed.

Lemma usable_get data names min_rows t :
  usable data names min_rows t ↔ is_Some (od_get t (used_columns data names min_rows)).
Proof.
  split; [|by intros [col [? _]%used_get]]. intros (c & Hc & Hk). exists (where_ valid_price c). unfold used_columns.
  rewrite od_get_filter; [|unfold od_keys; rewrite <- list_fmap_compose; apply field_frame_keys].
  by rewrite (od_get_fmap (where_ valid_price)), Hc.
Qed.

Lemma tickers_panel data names min_rows t :
  t ∈ tickers (aligned_panel data names min_rows) ↔ is_Some (od_get t (used_columns data names min_rows)).
Proof.
  unfold tickers. rewrite od_keys_get. unfold aligned_panel. cbn zeta. cbn [pp_close]. fold (used_columns data names min_rows).
  rewrite (od_get_fmap (λ c, default n0 <$> at_rows _ c)). by rewrite fmap_is_Some.
Qed.

Lemma complete_row_spec (cols : list (string * list (option F))) i :
  NoDup (od_keys cols) →
  complete_row cols i = true ↔ ∀ t col, od_get t cols = Some col → is_Some (default None (col !! i)).
Proof.
  intros Hnd. unfold complete_row. rewrite forallb_forall. setoid_rewrite <- list_elem_of_In. split.
  - intros Hc t col Hg. apply od_get_elem in Hg; [|done]. apply Hc in Hg. by apply bool_decide_eq_true in Hg.
  - intros Hc [t col] Hin. apply bool_decide_eq_true. apply (Hc t). by apply od_get_elem.
Qed.

Lemma panel_rows_spec data names min_rows i :
  i ∈ panel_rows data names min_rows ↔
  i < length (df_index data) ∧ tickers (aligned_panel data names min_rows) ≠ [] ∧
  ∀ t, t ∈ tickers (aligned_panel data names min_rows) → is_Some (valid_close data names t i).
Proof.
  assert (tickers (aligned_panel data names min_rows) = od_keys (used_columns data names min_rows)) as Et.
  { unfold tickers, aligned_panel, od_keys. cbn zeta. cbn [pp_close]. by rewrite <- list_fmap_compose. }
  unfold panel_rows. cbn zeta. rewrite Et. destruct (decide (used_columns data names min_rows = [])) as [E|E].
  { rewrite E. split; [by intros []%not_elem_of_nil|]. by intros (_ & [] & _). }
  rewrite list_elem_of_filter, elem_of_seq, complete_row_spec by apply used_keys. split.
  - intros [Hc Hi]. split; [lia|]. split; [by destruct (used_columns data names min_rows)|].
    intros t [col Hg]%od_keys_get. destruct (used_get _ _ _ _ _ Hg) as [_ Hv]. rewrite <- Hv. by apply (Hc t).
  - intros (Hi & _ & Hc). split; [|lia]. intros t col Hg. destruct (used_get _ _ _ _ _ Hg) as [_ Hv]. rewrite Hv.
    apply Hc. apply od_keys_get. by eexists.
Qed.

Lemma omap_lookup {A B} (f : A → option B) (l : list A) j :
  (∀ x, x ∈ l → is_Some (f x)) → omap f l !! j = l !! j ≫= f.
Proof.
  revert j. induction l as [|x l IH]; intros j Hl; [done|]. cbn. destruct (Hl x) as [y Hy]; [by left|]. rewrite Hy.
  destruct j as [|j]; [done|]. cbn. apply IH. intros z Hz. apply Hl. by right.
Qed.

Lemma omap_sublist {A B} (f : A → option B) l k : l `sublist_of` k → omap f l `sublist_of` omap f k.
Proof. induction 1 as [|x l k _ IH|x l k _ IH]; [done| |]; cbn; destruct (f x); by repeat constructor. Qed.

Lemma omap_lookup_seq {A} (l : list A) : omap (λ i, l !! i) (seq 0 (length l)) = l.
Proof.
  apply list_eq. intros j. rewrite omap_lookup.
  - destruct (Nat.lt_ge_cases j (length l)); [by rewrite lookup_seq_lt by done|].
    by rewrite !lookup_ge_None_2 by (rewrite ?length_seq; done).
  - intros i Hi%elem_of_seq. apply lookup_lt_is_Some. lia.
Qed.

Lemma panel_dates_sublist data names min_rows : pp_dates (aligned_panel data names min_rows) `sublist_of` df_index data.
Proof.
  unfold aligned_panel. cbn zeta. cbn [pp_dates]. 
  transitivity (omap (λ i, df_index data !! i) (seq 0 (length (df_index data)))); [|by rewrite omap_lookup_seq].
  apply omap_sublist.
  destruct (decide _); [apply sublist_nil_l|apply sublist_filter].
Qed.

Lemma panel_dates_at data names min_rows j :
  pp_dates (aligned_panel data names min_rows) !! j = panel_rows data names min_rows !! j ≫= λ i, df_index data !! i.
Proof.
  unfold aligned_panel. cbn zeta. cbn [pp_dates]. fold (used_columns data names min_rows). fold (panel_rows data names min_rows).
  apply omap_lookup. intros i (Hi & _)%panel_rows_spec. by apply lookup_lt_is_Some.
Qed.

Lemma panel_length data names min_rows : length (pp_dates (aligned_panel data names min_rows)) = length (panel_rows data names min_rows).
Proof.
  apply Nat.le_antisymm; apply Nat.nlt_ge; intros Hlt.
  - apply lookup_lt_is_Some in Hlt as [d Hd]. rewrite panel_dates_at in Hd.
    by rewrite lookup_ge_None_2 in Hd.
  - apply lookup_lt_is_Some in Hlt as [i Hi]. assert (i < length (df_index data)) as Hlt.
    { by apply list_elem_of_lookup_2, panel_rows_spec in Hi as (? & _). }
    apply lookup_lt_is_Some in Hlt as [d Hd]. pose proof (panel_dates_at data names min_rows (length (pp_dates (aligned_panel data names min_rows)))) as He.
    rewrite Hi in He. cbn in He. rewrite Hd, lookup_ge_None_2 in He; done.
Qed.

(** The four fields of the panel. *)
Definition fields_of (p : PricePanel F) : list (list (string * list F)) := [pp_close p; pp_high p; pp_low p; pp_volume p].

Lemma ffill_length (l : option F) col : length (ffill l col) = length col.
Proof. revert l. induction col as [|x col IH]; intros l; [done|]. cbn. by rewrite IH. Qed.

Lemma panel_close_get data names min_rows t col :
  od_get t (pp_close (aligned_panel data names min_rows)) = Some col →
  ∃ c, od_get t (used_columns data names min_rows) = Some c ∧ col = default n0 <$> at_rows (panel_rows data names min_rows) c.
Proof.
  unfold aligned_panel. cbn zeta. cbn [pp_close]. fold (used_columns data names min_rows). fold (panel_rows data names min_rows).
  rewrite (od_get_fmap (λ c, default n0 <$> at_rows (panel_rows data names min_rows) c)).
  destruct (od_get t _) as [c|]; [|done]. intros [= <-]. by exists c.
Qed.

Lemma on_calendar_get data field names rows t col :
  od_get t (on_calendar data field names rows) = Some col → t ∈ names ∧ length col = length rows.
Proof.
  unfold on_calendar. rewrite (od_get_tagged (λ t, match od_get t (field_frame data field names) with
     | Some col => at_rows rows col | None => (λ _, None) <$> rows end)).
  destruct (decide _); [|done]. intros [= <-]. split; [done|]. unfold at_rows. destruct (od_get t _); by rewrite length_fmap.
Qed.

Lemma panel_columns data names min_rows f t col :
  f ∈ fields_of (aligned_panel data names min_rows) → od_get t f = Some col →
  length col = length (pp_dates (aligned_panel data names min_rows)).
Proof.
  rewrite panel_length. unfold fields_of, aligned_panel. cbn zeta. cbn [pp_close pp_high pp_low pp_volume].
  fold (used_columns data names min_rows). fold (panel_rows data names min_rows). set (rows := panel_rows data names min_rows).
  set (used := used_columns data names min_rows). set (closes := (λ c, (c.1, default n0 <$> at_rows rows c.2)) <$> used).
  assert (∀ field, od_get t ((λ c, (c.1, fill_with (default [] (od_get c.1 closes)) c.2)) <$> on_calendar data field (od_keys used) rows) = Some col →
          length col = length rows) as Hf.
  { intros field Hg. apply od_get_in_fmap in Hg as (c & Hc & ->). destruct (on_calendar_get _ _ _ _ _ _ Hc) as [Hin Hl].
    cbn [fst snd]. unfold fill_with. rewrite length_zip_with, Hl. unfold closes.
    rewrite (od_get_fmap (λ c, default n0 <$> at_rows rows c)). apply od_keys_get in Hin as [c' ->]. cbn. unfold at_rows. rewrite !length_fmap. lia. }
  repeat setoid_rewrite elem_of_cons. intros [->|[->|[->|[->|[]%not_elem_of_nil]]]]; [|by apply Hf|by apply Hf|].
  - unfold closes. rewrite (od_get_fmap (λ c, default n0 <$> at_rows rows c)). destruct (od_get t used); [|done]. intros [= <-].
    unfold at_rows. by rewrite !length_fmap.
  - rewrite (od_get_fmap (λ c, default DEFAULT_VOLUME <$> ffill None (where_ (λ v, n0 <=.? v) c))).
    destruct (od_get t _) as [c|] eqn:Ec; [|done]. intros [= <-]. apply on_calendar_get in Ec as [_ Hl].
    rewrite length_fmap, ffill_length. unfold where_. by rewrite length_fmap.
Qed.

(** A panel pairs prices of the same date. A ticker is in it exactly when
    it has enough valid closes; a date is in it exactly when every ticker of
    the panel has a valid close on it, and the dates keep their order; the
    entry of a ticker at a date is its close on that very date in the download,
    and valid; and every column of every field has one entry per date. *)
Theorem panel_pairs_same_dates data names min_rows :
  let p := aligned_panel data names min_rows in
  (∀ t, t ∈ tickers p ↔ usable data names min_rows t) ∧
  (∀ i d, NoDup (df_index data) → df_index data !! i = Some d →
     d ∈ pp_dates p ↔ tickers p ≠ [] ∧ ∀ t, t ∈ tickers p → is_Some (valid_close data names t i)) ∧
  pp_dates p `sublist_of` df_index data ∧
  (∀ j d, pp_dates p !! j = Some d → ∃ i, df_index data !! i = Some d ∧
     ∀ t col, od_get t (pp_close p) = Some col → col !! j = valid_close data names t i ∧ is_Some (col !! j)) ∧
  (∀ f t col, f ∈ fields_of p → od_get t f = Some col → length col = length (pp_dates p)).
Proof.
  cbn zeta. split_and!.
  - intros t. by rewrite tickers_panel, usable_get.
  - intros i d Hnd Hd. rewrite list_elem_of_lookup. setoid_rewrite panel_dates_at. split.
    + intros [j Hj]. destruct (panel_rows _ _ _ !! j) as [i'|] eqn:Ej; [|done]. cbn in Hj.
      assert (i' = i) as -> by (by eapply NoDup_lookup). by apply list_elem_of_lookup_2, panel_rows_spec in Ej as (_ & ? & ?).
    + intros [Hne Hv]. assert (i ∈ panel_rows data names min_rows) as [j Hj]%list_elem_of_lookup.
      { apply panel_rows_spec. split; [by eapply lookup_lt_Some|done]. }
      exists j. by rewrite Hj.
  - apply panel_dates_sublist.
  - intros j d. rewrite panel_dates_at. destruct (panel_rows _ _ _ !! j) as [i|] eqn:Ej; [|done]. cbn. intros Hd.
    exists i. split; [done|]. intros t col (c & Hc & ->)%panel_close_get.
    destruct (used_get _ _ _ _ _ Hc) as [_ Hv]. apply list_elem_of_lookup_2 in Ej as Hin.
    apply panel_rows_spec in Hin as (_ & _ & Hall). unfold at_rows. rewrite !list_lookup_fmap, Ej. cbn. rewrite Hv.
    destruct (Hall t) as [v ->]; [apply tickers_panel; by eexists|]. done.
  - intros f t col. apply panel_columns.
Qed.
End panels.

(** ** A series on another calendar *)

Section carried.
Context {F : Type} `{Num F}.
Implicit Types data : DataFrame F.

Lemma value_on_spec (dates : list Z) (col : list (option F)) d x :
  NoDup dates → value_on dates col d = Some x ↔ ∃ i, dates !! i = Some d ∧ col !! i = Some (Some x).
Proof.
  intros Hnd. unfold value_on. destruct (list_find (d =.) dates) as [[i e]|] eqn:E.
  - apply list_find_Some in E as (Hi & -> & _). split.
    + intros Hx. exists i. split; [done|]. by destruct (col !! i) as [[y|]|]; simplify_eq/=.
    + intros (i' & Hi' & Hx). assert (i' = i) as -> by (by eapply NoDup_lookup). by rewrite Hx.
  - apply list_find_None in E. split; [done|]. intros (i & Hi & _). apply list_elem_of_lookup_2 in Hi.
    rewrite Forall_forall in E. by destruct (E d).
Qed.

(** A filled column holds the last value at or before each row. *)
Lemma ffill_at (l : option F) col i x :
  ffill l col !! i = Some x →
  (∃ i0 v, i0 ≤ i ∧ col !! i0 = Some (Some v) ∧ x = Some v ∧ ∀ i1, i0 < i1 → i1 ≤ i → col !! i1 = Some None) ∨
  (x = l ∧ ∀ i1, i1 ≤ i → col !! i1 = Some None).
Proof.
  revert l i. induction col as [|c col IH]; intros l i; [done|]. cbn. destruct i as [|i]; cbn.
  - intros [= <-]. destruct c as [v|]; [left; exists 0, v; split_and!; [lia|done..|intros; lia]|].
    right. split; [done|]. intros i1 Hi. by replace i1 with 0 by lia.
  - intros [(i0 & v & Hle & Hv & -> & Hn)|[-> Hn]]%IH.
    + left. exists (S i0), v. split_and!; [lia|done..|]. intros [|i1] ? ?; [lia|]. apply Hn; lia.
    + destruct c as [v|].
      * left. exists 0, v. split_and!; [lia|done..|]. intros [|i1] ? ?; [lia|]. apply Hn; lia.
      * right. split; [done|]. intros [|i1] ?; [done|]. apply Hn; lia.
Qed.

Lemma sorted_lookup_le (l : list Z) i j a b : StronglySorted Z.le l → l !! i = Some a → l !! j = Some b → i ≤ j → (a ≤ b)%Z.
Proof.
  intros Hs. revert i j. induction Hs as [|x l Hs IH Hx]; intros i j; [done|]. destruct i as [|i], j as [|j]; cbn; [..|lia|].
  - intros [= <-] [= <-] _. lia.
  - intros [= <-] Hb _. rewrite Forall_forall in Hx. apply Hx. by eapply list_elem_of_lookup_2.
  - intros Ha Hb Hij. apply (IH i j); [done..|lia].
Qed.

(** [v] is the valid close of the ticker on the date [d]. *)
Definition closed_at data t (d : Z) (v : F) : Prop := ∃ i, df_index data !! i = Some d ∧ valid_close data [t] t i = Some v.

Definition valid_rows data (col : list (option F)) : list (Z * option F) :=
  filter (λ dx, is_Some dx.2) (zip (df_index data) (where_ valid_price col)).

Lemma valid_rows_spec data t col d x :
  od_get t (field_frame data "Close" [t]) = Some col → (d, Some x) ∈ valid_rows data col ↔ closed_at data t d x.
Proof.
  intros Hc. unfold valid_rows, closed_at, valid_close. rewrite Hc. cbn [default from_option id]. rewrite list_elem_of_filter. cbn [snd].
  rewrite list_elem_of_lookup. setoid_rewrite lookup_zip_with_Some. setoid_rewrite <- where_at. split.
  - intros [_ (i & d' & y & [= -> ->] & Hi & Hx)]. exists i. by rewrite Hx.
  - intros (i & Hi & Hx). split; [by eexists|]. exists i. eexists _, _. split_and!; [done..|].
    by destruct (where_ _ _ !! i) as [[y|]|]; simplify_eq/=.
Qed.

Lemma valid_rows_dates data col : NoDup (df_index data) → NoDup (valid_rows data col).*1.
Proof.
  intros Hnd. unfold valid_rows. eapply sublist_NoDup; [|apply fmap_sublist, sublist_filter].
  eapply sublist_NoDup; [exact Hnd|]. generalize (where_ valid_price col) as l. generalize (df_index data) as ds.
  clear. induction ds as [|d ds IH]; intros [|x l]; cbn; [done|constructor|apply sublist_nil_l|]. constructor. apply IH.
Qed.

Lemma valid_rows_value data t col d x :
  NoDup (df_index data) → od_get t (field_frame data "Close" [t]) = Some col →
  value_on (valid_rows data col).*1 (valid_rows data col).*2 d = Some x ↔ closed_at data t d x.
Proof.
  intros Hnd Hc. rewrite value_on_spec by (by apply valid_rows_dates). rewrite <- (valid_rows_spec data t col) by done.
  rewrite list_elem_of_lookup. split.
  - intros (i & Hd & Hx). rewrite list_lookup_fmap in Hd. rewrite list_lookup_fmap in Hx. exists i. by destruct (valid_rows data col !! i) as [[]|]; simplify_eq/=.
  - intros (i & Hi). exists i. by rewrite !list_lookup_fmap, Hi.
Qed.

Section union.
Context (data : DataFrame F) (t : string) (col : list (option F)) (dates : list Z).
Hypothesis Hnd : NoDup (df_index data).
Hypothesis Hcol : od_get t (field_frame data "Close" [t]) = Some col.

Definition calendar : list Z := merge_sort Z.le (remove_dups ((valid_rows data col).*1 ++ dates)).
Definition carried : list (option F) := ffill None (value_on (valid_rows data col).*1 (valid_rows data col).*2 <$> calendar).

Lemma calendar_elem d : d ∈ calendar ↔ (∃ v, closed_at data t d v) ∨ d ∈ dates.
Proof.
  unfold calendar. rewrite merge_sort_Permutation, elem_of_remove_dups, elem_of_app.
  setoid_rewrite <- (valid_rows_spec data t col) at 1; [|done]. rewrite list_elem_of_fmap. split; (intros [Hd|]; [left|by right]).
  - destruct Hd as ([d' x] & -> & Hin). assert (is_Some x) as [v ->] by (by apply list_elem_of_filter in Hin as [? _]). by exists v.
  - destruct Hd as [v Hin]. by exists (d, Some v).
Qed.
Lemma calendar_NoDup : NoDup calendar.
Proof. unfold calendar. rewrite merge_sort_Permutation. apply NoDup_remove_dups. Qed.
Lemma calendar_sorted : StronglySorted Z.le calendar.
Proof. apply (StronglySorted_merge_sort Z.le). Qed.

Lemma calendar_lt i j a b : calendar !! i = Some a → calendar !! j = Some b → (a ≤ b)%Z → i ≤ j.
Proof.
  intros Ha Hb Hle. destruct (Nat.le_gt_cases i j) as [|Hgt]; [done|].
  pose proof (sorted_lookup_le _ _ _ _ _ calendar_sorted Hb Ha ltac:(lia)). assert (a = b) as -> by lia.
  pose proof (NoDup_lookup _ _ _ _ calendar_NoDup Ha Hb). lia.
Qed.

(** The carried value on a date of the calendar. *)
Lemma carried_at d :
  d ∈ calendar →
  match value_on calendar carried d with
  | Some v => ∃ d0, (d0 ≤ d)%Z ∧ closed_at data t d0 v ∧ ∀ d1 v1, closed_at data t d1 v1 → (d1 ≤ d)%Z → (d1 ≤ d0)%Z
  | None => ∀ d1 v1, closed_at data t d1 v1 → (d < d1)%Z
  end.
Proof.
  intros [i Hi]%list_elem_of_lookup.
  assert (∀ d1 v1, closed_at data t d1 v1 → ∃ i1, calendar !! i1 = Some d1 ∧
    (value_on (valid_rows data col).*1 (valid_rows data col).*2 <$> calendar) !! i1 = Some (Some v1)) as Hclosed.
  { intros d1 v1 Hd1. assert (d1 ∈ calendar) as [i1 Hi1]%list_elem_of_lookup by (apply calendar_elem; left; by eexists).
    exists i1. split; [done|]. rewrite list_lookup_fmap, Hi1. cbn. by rewrite (proj2 (valid_rows_value data t col d1 v1 Hnd Hcol) Hd1). }
  assert (∀ x, value_on calendar carried d = x → carried !! i = Some x) as Hx.
  { intros x <-. destruct (carried !! i) as [y|] eqn:Ey.
    - f_equal. unfold value_on. destruct (list_find (d =.) calendar) as [[i' e]|] eqn:E.
      + apply list_find_Some in E as (Hi' & <- & _). assert (i' = i) as -> by (eapply NoDup_lookup; [apply calendar_NoDup|done..]).
        by rewrite Ey.
      + apply list_find_None in E. rewrite Forall_forall in E. destruct (E d); [by eapply list_elem_of_lookup_2|done].
    - apply lookup_ge_None in Ey. unfold carried in Ey. rewrite ffill_length, length_fmap in Ey. apply lookup_lt_Some in Hi. lia. }
  destruct (value_on calendar carried d) as [v|] eqn:Ev; specialize (Hx _ eq_refl);
    apply ffill_at in Hx as [(i0 & v0 & Hle & Hv & Ex & Hn)|[Ex Hn]]; simplify_eq.
  - rewrite list_lookup_fmap in Hv. destruct (calendar !! i0) as [d0|] eqn:E0; [|done]. cbn in Hv. injection Hv as Hv.
    apply (valid_rows_value data t) in Hv; [|done..]. exists d0. split; [by eapply sorted_lookup_le; [apply calendar_sorted|exact E0|exact Hi|]|].
    split; [done|]. intros d1 v1 (i1 & Hi1 & Hv1)%Hclosed Hd1. assert (i1 ≤ i) by (by eapply calendar_lt).
    destruct (Nat.le_gt_cases i1 i0) as [?|Hgt]; [by eapply sorted_lookup_le; [apply calendar_sorted|exact Hi1|exact E0|]|].
    rewrite (Hn i1) in Hv1 by lia. done.
  - intros d1 v1 (i1 & Hi1 & Hv1)%Hclosed. destruct (Z.le_gt_cases d1 d) as [Hle|]; [|lia].
    rewrite (Hn i1) in Hv1 by (by eapply calendar_lt). done.
Qed.
End union.

(** A benchmark on the assets' calendar never reads ahead: its value on
    each date is its valid close on the latest date, up to that one, on which
    it has one; and no series is answered only when there is no date or some
    date comes before its first valid close. *)
Theorem carried_series_reads_back data t dates :
  NoDup (df_index data) →
  match series_on_calendar data t dates with
  | Some vs =>
      length vs = length dates ∧
      ∀ j d, dates !! j = Some d → ∃ v d0, vs !! j = Some v ∧ (d0 ≤ d)%Z ∧ closed_at data t d0 v ∧
        ∀ d1 v1, closed_at data t d1 v1 → (d1 ≤ d)%Z → (d1 ≤ d0)%Z
  | None => dates = [] ∨ ∃ d, d ∈ dates ∧ ∀ d1 v1, closed_at data t d1 v1 → (d < d1)%Z
  end.
Proof.
  intros Hnd. unfold series_on_calendar. destruct (od_get t (field_frame data "Close" [t])) as [col|] eqn:Ec.
  2:{ destruct dates as [|d dates]; [by left|right]. exists d. split; [by left|]. intros d1 v1 (i & _ & Hv).
      unfold valid_close in Hv. by rewrite Ec in Hv. }
  destruct dates as [|d dates]; [by left|]. set (ds := d :: dates). fold (valid_rows data col).
  destruct (valid_rows data col) as [|r rows] eqn:Er.
  { right. exists d. split; [by left|]. intros d1 v1 Hd1%(valid_rows_spec data t col); [|done]. rewrite Er in Hd1.
    by apply not_elem_of_nil in Hd1. }
  rewrite <- Er. cbn zeta. fold (calendar data col ds). fold (carried data col ds).
  assert (∀ d', d' ∈ ds → d' ∈ calendar data col ds) as Hin by (intros; apply (calendar_elem data t); auto).
  destruct (mapM _ ds) as [vs|] eqn:Em.
  - apply mapM_Some in Em. split; [symmetry; by eapply Forall2_length|]. intros j d' Hj.
    destruct (Forall2_lookup_l _ _ _ _ _ Em Hj) as (v & Hv & Hval).
    pose proof (carried_at data t col ds Hnd Ec d' (Hin d' (list_elem_of_lookup_2 _ _ _ Hj))) as Hc. rewrite Hval in Hc.
    destruct Hc as (d0 & ? & ? & ?). by exists v, d0.
  - right. apply mapM_None, Exists_exists in Em as (d' & Hd' & Hval). exists d'. split; [done|].
    pose proof (carried_at data t col ds Hnd Ec d' (Hin d' Hd')) as Hc. by rewrite Hval in Hc.
Qed.
End carried.

(** ** A share and a coin: the share has no close on the third day *)

Definition sample_frame : DataFrame QArith_base.Q :=
  mkDataFrame [19; 20; 21; 22]%Z (MultiIndex
    [("Close", [("AAA", [Some (nof_Z 10); Some (nof_Z 11); None; Some (nof_Z 12)]);
                ("BTC", [Some (nof_Z 1); Some (nof_Z 2); Some (nof_Z 3); Some (nof_Z 4)])])]).

Example sample_panel :
  let p := aligned_panel sample_frame ["AAA"; "BTC"] 2 in
  pp_dates p = [19; 20; 22]%Z ∧ od_get "BTC" (pp_close p) = Some (nof_Z <$> [1; 2; 4]%Z).
Proof. vm_compute. by split. Qed.

Lemma panel_pairs_same_dates_witness :
  let p := aligned_panel sample_frame ["AAA"; "BTC"] 2 in
  20%Z ∈ pp_dates p ∧ ∀ t, t ∈ tickers p → is_Some (valid_close sample_frame ["AAA"; "BTC"] t 1).
Proof.
  cbn zeta. destruct (panel_pairs_same_dates sample_frame ["AAA"; "BTC"] 2) as (_ & Hdates & _).
  assert (NoDup (df_index sample_frame)) as Hnd by (apply (bool_decide_unpack _); vm_compute; exact I).
  assert (20%Z ∈ pp_dates (aligned_panel sample_frame ["AAA"; "BTC"] 2)) as Hin.
  { apply (bool_decide_unpack _). vm_compute. exact I. }
  split; [exact Hin|]. exact (proj2 (proj1 (Hdates 1 20%Z Hnd eq_refl) Hin)).
Defined.

Lemma carried_series_reads_back_witness :
  series_on_calendar sample_frame "AAA" [20; 21; 22]%Z = Some (nof_Z <$> [11; 11; 12]%Z) ∧
  ∃ d0, (d0 ≤ 21)%Z ∧ closed_at sample_frame "AAA" d0 (nof_Z 11).
Proof.
  assert (NoDup (df_index sample_frame)) as Hnd by (apply (bool_decide_unpack _); vm_compute; exact I).
  pose proof (carried_series_reads_back sample_frame "AAA" [20; 21; 22]%Z Hnd) as Hs.
  assert (series_on_calendar sample_frame "AAA" [20; 21; 22]%Z = Some (nof_Z <$> [11; 11; 12]%Z)) as E by (vm_compute; reflexivity).
  split; [exact E|]. rewrite E in Hs. destruct Hs as [_ Hs].
  destruct (Hs 1 21%Z eq_refl) as (v & d0 & Hv & Hle & Hc & _). exists d0. split; [exact Hle|].
  injection Hv as <-. exact Hc.
Defined.
