(* ===== verification/BacktestReport.v ===== *)
(** backend/services/backtest_service.py: a backtest from the downloaded
    prices to the report, with its benchmark. *)

From S2P Require Import Prelude Numeric OrderedDict StrategySignals ExecutionModel HistoricalData BacktestEngine RiskMetrics.
#[local] Open Scope nat_scope.

Section report.
Context {F : Type} `{Num F}.
Variable np_mean : list F → F.
Variable np_std : nat → list F → F.
Variable np_tanh : F → F.
Variable sqrt : F → F.
Variable np_cov : list F → list F → F * F.
(** [market_data.download] and its errors: [None] is no data. *)
Variable download : list string → outcome string (option (DataFrame F)).

#[local] Abbreviation sharpe := (sharpe np_mean np_std sqrt).

(** ** The benchmark *)

Record Benchmark := mkBenchmark {
  bm_returns : list F; bm_equity_curve : list F; bm_total_return : F; bm_sharpe : F; bm_max_drawdown : F
}.

(** [np.cumprod] *)
Fixpoint cumprod (acc : F) (xs : list F) : list F :=
  match xs with [] => [] | x :: xs => (acc ⊗ x) :: cumprod (acc ⊗ x) xs end.

Definition benchmark_returns (close : list F) (start n_bars : nat) : list F :=
  omap (λ i, if at_bar close (i - 1) >.? n0 then Some (at_bar close i ⊘ at_bar close (i - 1) ⊖ n1) else None)
    (seq (start + 1) (n_bars - (start + 1))).

(** [_compute_benchmark]; [None] is the empty dict. *)
Definition compute_benchmark (initial_capital : F) (close : list F) (start n_bars : nat) : option Benchmark :=
  if length close <? n_bars then None
  else
    let returns := benchmark_returns close start n_bars in
    let cumulative :=
      match returns with
      | [] => [n1]
      | r :: rs => (n1 ⊕ r) :: cumprod (n1 ⊕ r) ((λ x, n1 ⊕ x) <$> rs)
      end in
    let equity := (λ c, initial_capital ⊗ c) <$> cumulative in
    Some (mkBenchmark returns equity (default n1 (last cumulative) ⊖ n1) (sharpe returns) (max_drawdown equity)).

(** ** The report *)

(** [TradeRecord.to_dict] *)
Definition to_dict (t : TradeRecord F) : TradeRecord F :=
  mkTradeRecord (tr_bar t) (tr_asset t) (tr_side t) (nround (tr_desired_qty t) 4) (nround (tr_filled_qty t) 4)
    (nround (tr_fill_price t) 4) (nround (tr_commission t) 4) (nround (tr_slippage_cost _ t) 4) (nround (tr_spread_cost _ t) 4)
    (nround (tr_total_cost _ t) 4) (tr_partial _ t) (nround (tr_signal_value t) 4) (nround (tr_position_after t) 4).

(** [xs[::step]] *)
Definition every {A} (step : nat) (xs : list A) : list A :=
  omap (λ ix, if (ix.1 mod step =? 0) then Some ix.2 else None) (zip (seq 0 (length xs)) xs).

Record CostBreakdown := mkCostBreakdown {
  cb_commission : F; cb_slippage : F; cb_spread : F; cb_borrow : F; cb_total : F; cb_pct_of_capital : F
}.

Record BenchmarkReport := mkBenchmarkReport {
  bp_total_return : F; bp_sharpe : F; bp_max_drawdown : F; bp_equity_curve : list F;
  (* alpha, beta, tracking error, information ratio *)
  bp_relative : option (F * F * F * F)
}.

Record Report := mkReport {
  rp_final_capital : F; rp_total_return : F; rp_total_return_gross : F;
  rp_sharpe_net : F; rp_sharpe_gross : F; rp_sortino : F; rp_calmar : F;
  rp_max_drawdown_net : F; rp_max_drawdown_gross : F;
  rp_var_95 : F; rp_var_99 : F; rp_cvar_95 : F; rp_cvar_99 : F; rp_downside_deviation : F;
  rp_win_rate : F; rp_total_trades : nat; rp_buy_trades : nat; rp_sell_trades : nat;
  rp_costs : CostBreakdown;
  rp_equity_curve_net : list F; rp_equity_curve_gross : list F; rp_daily_returns_net : list F;
  rp_trade_log : list (TradeRecord F);
  rp_benchmark : option BenchmarkReport
}.

Definition cost_breakdown (initial_capital : F) (s : EngineState F) : CostBreakdown :=
  let total := total_commission s ⊕ total_slippage s ⊕ total_spread s ⊕ total_borrow s in
  mkCostBreakdown (nround (total_commission s) 2) (nround (total_slippage s) 2) (nround (total_spread s) 2)
    (nround (total_borrow s) 2) (nround total 2) (nround (total ⊘ initial_capital ⊗ nof_Z 100) 2).

Definition compile_benchmark (rets_net : list F) (step : nat) (b : Benchmark) : BenchmarkReport :=
  let relative :=
    if (5 <? length rets_net) && (5 <? length (bm_returns b)) then
      let n := Nat.min (length rets_net) (length (bm_returns b)) in
      let s := take n rets_net in
      let m := take n (bm_returns b) in
      let '(alpha, beta) := alpha_beta np_mean np_cov s m in
      Some (nround alpha 4, nround beta 4, nround (tracking_error np_std sqrt s m) 4,
            nround (information_ratio np_mean np_std sqrt s m) 3)
    else None in
  mkBenchmarkReport (nround (bm_total_return b) 4) (nround (bm_sharpe b) 3) (nround (bm_max_drawdown b) 4)
    ((λ v, nround v 2) <$> every step (bm_equity_curve b)) relative.

Definition compile_results (initial_capital : F) (res : BacktestResult) (benchmark : option Benchmark) : Report :=
  let s := br_state res in
  let eq_net := equity_net s in
  let eq_gross := equity_gross s in
  let rets_net := returns_net s in
  let final := br_final_capital res in
  let log := trade_log s in
  let '(wins, closed) := compute_win_rate log in
  let max_dd_net := max_drawdown eq_net in
  let '(var95, cvar95) := var_cvar np_mean rets_net (nof_ratio 5 100) in
  let '(var99, cvar99) := var_cvar np_mean rets_net (nof_ratio 1 100) in
  let step := Nat.max 1 (length eq_net / 200) in
  mkReport (nround final 2) (nround (final ⊘ initial_capital ⊖ n1) 4)
    (nround (match last eq_gross with Some g => g ⊘ initial_capital ⊖ n1 | None => n0 end) 4)
    (nround (sharpe rets_net) 3) (nround (sharpe (returns_gross s)) 3) (nround (sortino np_mean sqrt rets_net) 3)
    (nround (calmar np_mean rets_net max_dd_net) 3) (nround max_dd_net 4) (nround (max_drawdown eq_gross) 4)
    (nround var95 4) (nround var99 4) (nround cvar95 4) (nround cvar99 4) (nround (downside_deviation np_mean sqrt rets_net) 6)
    (nround (nof_Z wins ⊘ nof_Z (Z.max 1 closed)) 3) (length log)
    (length (filter (λ t, is_buy (tr_side t) = true) log)) (length (filter (λ t, is_buy (tr_side t) = false) log))
    (cost_breakdown initial_capital s)
    ((λ v, nround v 2) <$> every step eq_net) ((λ v, nround v 2) <$> every step eq_gross)
    ((λ r, nround r 6) <$> rets_net) (to_dict <$> take 100 log) (compile_benchmark rets_net step <$> benchmark).

(** ** The run *)

(** [panel.asset_data()] *)
Definition asset_data (p : PricePanel F) : gmap string (AssetData F) :=
  list_to_map ((λ c, (c.1, mkAssetData c.2 (od_get c.1 (pp_volume p)))) <$> pp_close p).

Record Backtest := mkBacktest {
  bt_report : Report;
  bt_assets_traded : list string;
  bt_data_start : option Z;
  bt_data_end : option Z;
  bt_first_trading_date : option Z;
  bt_n_bars : nat;
  bt_delay : nat
}.

(** [run] *)
Definition run (cfg : BacktestConfig F) (benchmark : string) : outcome string Backtest :=
  let! data := download (fromkeys (cfg_assets cfg ++ [benchmark])) in
  match data with
  | None => Raise "Failed to fetch historical data"
  | Some data =>
      let panel := aligned_panel data (cfg_assets cfg) (slow_window (cfg_strategy cfg) + 11) in
      match tickers panel with
      | [] => Raise "No assets had sufficient price history"
      | _ =>
          let n_bars := length (pp_dates panel) in
          let! delay := delay_of (cfg_execution cfg) in
          let start := start_bar (cfg_strategy cfg) delay in
          if n_bars <=? start + 2 then Raise "Not enough data after warm-up period"
          else
            let! res := run_strategy np_mean np_std np_tanh sqrt (asset_data panel) cfg start n_bars in
            let bench :=
              series_on_calendar data benchmark (pp_dates panel) ≫=
                λ close, compute_benchmark (cfg_initial_capital cfg) close start n_bars in
            Ret (mkBacktest (compile_results (cfg_initial_capital cfg) res bench) (tickers panel)
                   (head (pp_dates panel)) (last (pp_dates panel)) (pp_dates panel !! start) n_bars delay)
      end
  end.

(** [run_moving_average_backtest]: the retail preset against SPY; its answer
    renames the fields of the report. *)
Definition run_moving_average_backtest (asset : string) (fast_window slow_window : nat) (initial_capital : F)
    : outcome string Backtest :=
  run (mkBacktestConfig [asset] initial_capital (strategy_config MA_CROSSOVER fast_window slow_window) retail_config) "SPY".
End report.
