(* ===== verification/MarketData.v ===== *)
(** backend/services/market_data.py: prices for a research task, built from
    frozen datasets: one series per symbol from every dataset that holds it,
    adjusted for dividends, cut to the trailing period. Error messages are kept
    without the names and numbers in them. *)

From Stdlib Require Import Ascii QArith Qabs Lqa.
From stdpp Require Import sorting strings.
From S2P Require Import Prelude Numeric Models Json JsonText OrderedDict JsonRead DateTime DatasetFormat DatasetStore DatasetRegistry HistoricalData.
#[local] Open Scope Z_scope.

Inductive DataError :=
| MarketDataError (message : string)   (* the message is safe to show *)
| DataValueError                       (* another ValueError *)
| OtherDataError.                      (* a KeyError or another exception *)

(** ** Periods *)

(** [PERIOD.fullmatch]: the number and whether it is of years. *)
Definition parse_period (period : string) : option (Z * bool) :=
  let unit_of (s : string) := if String.eqb s "mo" then Some false else if String.eqb s "y" then Some true else None in
  match period with
  | String c1 rest =>
      if in_range 49 57 c1 then
        match unit_of rest, rest with
        | Some y, _ => Some (digits_value 0 (String c1 EmptyString), y)
        | None, String c2 rest' =>
            if json_digit c2 then (λ y, (digits_value 0 (String c1 (String c2 EmptyString)), y)) <$> unit_of rest' else None
        | None, _ => None
        end
      else None
  | EmptyString => None
  end.

(** [calendar.monthrange(year, month)[1]] *)
Definition leap (year : Z) : bool := (year mod 4 =? 0) && (negb (year mod 100 =? 0) || (year mod 400 =? 0)).
Definition month_days (year month : Z) : Z :=
  if month =? 2 then (if leap year then 29 else 28)
  else if (month =? 4) || (month =? 6) || (month =? 9) || (month =? 11) then 30 else 31.

(** [period_start]; a year before 1 is a ValueError of [datetime.date]. *)
Definition period_start (end_ : Z) (period : string) : outcome DataError Z :=
  match parse_period period with
  | None => Raise (MarketDataError "unsupported period")
  | Some (n, years) =>
      let months := n * (if years then 12 else 1) in
      let '(y, m, d) := civil end_ in
      let total := y * 12 + m - 1 - months in
      let year := total / 12 in
      let month := total mod 12 + 1 in
      if year <? 1 then Raise DataValueError
      else Ret (days_of_civil (year, month, Z.min d (month_days year month)))
  end.

(** ** Series *)

(** A session's bar: the bit patterns of its numbers, [None] for NaN. *)
Record Bar := mkBar { b_open : option Z; b_high : option Z; b_low : option Z; b_close : option Z; b_volume : option Z }.
#[global] Instance bar_eq_dec : EqDecision Bar.
Proof. solve_decision. Defined.

(** [_Series]: bars by session, dividends by ex-date, each in its order. *)
Record Series := mkSeries { sr_identity : DatasetIdentity; sr_bars : list (Z * Bar); sr_dividends : list (Z * Z) }.

(** Dicts keyed by days. *)
Definition day_get {V} (k : Z) (l : list (Z * V)) : option V := list_find (λ kv, kv.1 = k) l ≫= λ it, Some it.2.2.
Fixpoint day_put {V} (k : Z) (v : V) (l : list (Z * V)) : list (Z * V) :=
  match l with
  | [] => [(k, v)]
  | (k', v') :: l => if decide (k' = k) then (k, v) :: l else (k', v') :: day_put k v l
  end.

Definition or_key_error {A} (x : option A) : outcome DataError A := match x with Some x => Ret x | None => Raise OtherDataError end.
Definition column_of (name : string) (t : Table) : outcome DataError (list cell) := or_key_error (snd <$> table_column name t).

Definition is_text (s : string) (v : cell) : bool := match v with Some (VText t) => String.eqb t s | _ => false end.
(** The rows whose symbol is [symbol]. *)
Definition rows_of (symbol : string) (symbols : list cell) : list nat :=
  filter (λ i, is_text symbol (array_at symbols i) = true) (seq 0 (length symbols)).
Definition float_bits (v : cell) : option (option Z) := match v with Some (VFloat b) => Some (Some b) | None => Some None | _ => None end.

Definition bar_at (d o h l c v : list cell) (i : nat) : option (Z * Bar) :=
  day ← cell_date (array_at d i);
  o ← float_bits (array_at o i); h ← float_bits (array_at h i); l ← float_bits (array_at l i);
  c ← float_bits (array_at c i); v ← float_bits (array_at v i);
  Some (day, mkBar o h l c v).

(** [_series] *)
Definition dividends_of (d : Dataset) (symbol : string) : outcome DataError (list (Z * Z)) :=
  match table "corporate_actions" d with
  | None => Ret []
  | Some t =>
      let! symbols := column_of "symbol" t in
      let! actions := column_of "action" t in
      let! dates := column_of "ex_date" t in
      let! values := column_of "value" t in
      let mine := filter (λ i, is_text "dividend" (array_at actions i) = true) (rows_of symbol symbols) in
      let! items := or_key_error (mapM (λ i, day ← cell_date (array_at dates i);
                                             amount ← float_bits (array_at values i) ≫= id; Some (day, amount)) mine) in
      Ret (foldl (λ m kv, day_put kv.1 kv.2 m) [] items)
  end.
Definition series_of (d : Dataset) (symbol : string) : outcome DataError (option Series) :=
  let! t := or_key_error (table "bars" d) in
  let! symbols := column_of "symbol" t in
  match rows_of symbol symbols with
  | [] => Ret None
  | rows =>
      let! dates := column_of "session_date" t in
      let! o := column_of "open" t in
      let! h := column_of "high" t in
      let! l := column_of "low" t in
      let! c := column_of "close" t in
      let! v := column_of "volume" t in
      let! bars := or_key_error (mapM (bar_at dates o h l c v) rows) in
      let! dividends := dividends_of d symbol in
      Ret (Some (mkSeries (ds_identity d) bars dividends))
  end.

(** ** Merging *)

Definition day_le {V} (a b : Z * V) : Prop := a.1 <= b.1.
#[global] Instance day_le_dec {V} (a b : Z * V) : Decision (day_le a b).
Proof. unfold day_le. apply _. Defined.

(** Two rows of one session with different values. *)
Fixpoint bars_disagree (bars : list (Z * Bar)) : bool :=
  match bars with
  | [] => false
  | b :: bars => existsb (λ b', (b'.1 =? b.1) && negb (bool_decide (b'.2 = b.2))) bars || bars_disagree bars
  end.
(** [bars[~bars.index.duplicated()]]: the first of each session. *)
Fixpoint first_of_each (seen : list Z) (bars : list (Z * Bar)) : list (Z * Bar) :=
  match bars with
  | [] => []
  | b :: bars => if decide (b.1 ∈ seen) then first_of_each seen bars else b :: first_of_each (b.1 :: seen) bars
  end.

(** [dividends.setdefault(ex_date, amount) != amount]: [None] when two amounts
    differ. *)
Fixpoint merge_dividends (acc : list (Z * Z)) (items : list (Z * Z)) : option (list (Z * Z)) :=
  match items with
  | [] => Some acc
  | (day, amount) :: items =>
      match day_get day acc with
      | Some a => if a =? amount then merge_dividends acc items else None
      | None => merge_dividends (acc ++ [(day, amount)]) items
      end
  end.

(** [_merged], of at least one part. *)
Definition merged (parts : list Series) : outcome DataError Series :=
  match parts with
  | [] => Raise OtherDataError
  | [p] => Ret p
  | p :: rest =>
      if existsb (λ q, negb (bool_decide (sr_identity q = sr_identity p))) rest
      then Raise (MarketDataError "symbol in datasets with different identities")
      else
        let bars := concat (sr_bars <$> parts) in
        if bars_disagree bars then Raise (MarketDataError "the datasets disagree on bars")
        else
          match merge_dividends [] (concat (sr_dividends <$> parts)) with
          | None => Raise (MarketDataError "the datasets disagree on dividends")
          | Some dividends => Ret (mkSeries (sr_identity p) (merge_sort day_le (first_of_each [] bars)) dividends)
          end
  end.

Section adjustment.
Context {F : Type} `{Num F}.

(** The number a bit pattern stands for. *)
Definition of_bits (bits : Z) : F :=
  let sign := if 2 ^ 63 <=? bits then -1 else 1 in
  let fraction := bits mod 2 ^ 52 in
  let m := if exponent_field bits =? 0 then fraction else fraction + 2 ^ 52 in
  let e := Z.max 1 (exponent_field bits) - 1075 in
  if 0 <=? e then nof_Z (sign * m * 2 ^ e) else nof_ratio (sign * m) (Z.to_pos (2 ^ (- e))).

(** [np.searchsorted(sessions, day)] of sorted sessions *)
Definition searchsorted (sessions : list Z) (day : Z) : nat := length (filter (λ s, s < day) sessions).

(** The loop of [total_return_factor], over the sorted dividends. *)
Fixpoint apply_dividends (sessions : list Z) (close : list (option F)) (dividends : list (Z * F)) (factor : list F)
    : outcome DataError (list F) :=
  match dividends with
  | [] => Ret factor
  | (ex_date, amount) :: dividends =>
      match searchsorted sessions ex_date with
      | O => apply_dividends sessions close dividends factor
      | S last as first =>
          match default None (close !! last) with
          | Some previous =>
              if (n0 <.? amount) && (amount <.? previous) then
                let f := n1 ⊖ amount ⊘ previous in
                apply_dividends sessions close dividends (((λ x, x ⊗ f) <$> take first factor) ++ drop first factor)
              else Raise (MarketDataError "a dividend is not between 0 and the previous close")
          | None => Raise (MarketDataError "a dividend is not between 0 and the previous close")
          end
      end
  end.
Definition total_return_factor (sessions : list Z) (close : list (option F)) (dividends : list (Z * F)) : outcome DataError (list F) :=
  apply_dividends sessions close (merge_sort day_le dividends) (replicate (length close) n1).

(** A row of the adjusted frame. *)
Record Row := mkRow { r_open : option F; r_high : option F; r_low : option F; r_close : option F; r_volume : option F }.

Definition scaled (f : F) (x : option Z) : option F := (λ b, of_bits b ⊗ f) <$> x.
Definition adjust_bar (f : F) (b : Bar) : Row :=
  mkRow (scaled f (b_open b)) (scaled f (b_high b)) (scaled f (b_low b)) (scaled f (b_close b)) (of_bits <$> b_volume b).

(** [_adjusted] *)
Definition adjusted (s : Series) : outcome DataError (list (Z * Row)) :=
  let adjustment := di_adjustment (sr_identity s) in
  if negb (String.eqb adjustment "split" || String.eqb adjustment "split_dividend")
  then Raise (MarketDataError "prices of this adjustment are not supported")
  else
    let! factor :=
      if String.eqb adjustment "split" && negb (bool_decide (sr_dividends s = [])) then
        total_return_factor (sr_bars s).*1 ((λ b, of_bits <$> b_close b.2) <$> sr_bars s)
          ((λ d, (d.1, of_bits d.2)) <$> sr_dividends s)
      else Ret (replicate (length (sr_bars s)) n1) in
    Ret (zip_with (λ b f, (b.1, adjust_bar f b.2)) (sr_bars s) factor).

(** ** Frames *)

(** The parts of a ticker: the datasets that hold it, with their ids. *)
Fixpoint parts_of (datasets : list (string * Dataset)) (ticker : string) : outcome DataError (list (string * Series)) :=
  match datasets with
  | [] => Ret []
  | (id, d) :: datasets =>
      let! s := series_of d ticker in
      let! rest := parts_of datasets ticker in
      Ret (match s with Some s => (id, s) :: rest | None => rest end)
  end.

(** [found]: the tickers that some dataset holds, and [missing]: the others. *)
Fixpoint find_all (datasets : list (string * Dataset)) (names : list string)
    : outcome DataError (list (string * (Series * list string)) * list (string * string)) :=
  match names with
  | [] => Ret ([], [])
  | t :: names =>
      let! parts := parts_of datasets t in
      match parts with
      | [] =>
          let! fm := find_all datasets names in
          Ret (fm.1, (t, "no data") :: fm.2)
      | _ =>
          let! s := merged parts.*2 in
          let! fm := find_all datasets names in
          Ret ((t, (s, parts.*1)) :: fm.1, fm.2)
      end
  end.

(** [max] of some days. *)
Definition latest (days : list Z) : Z := match days with [] => 0 | d :: days => foldl Z.max d days end.

(** The rows of each found ticker in the period, or why there are none. *)
Fixpoint in_period (start : Z) (found : list (string * (Series * list string)))
    : outcome DataError (list (string * list (Z * Row) * list string) * list (string * string)) :=
  match found with
  | [] => Ret ([], [])
  | (t, (s, ids)) :: found =>
      let! rows := adjusted s in
      let rows := filter (λ r, start <= r.1) rows in
      let! rest := in_period start found in
      match rows with
      | [] => Ret (rest.1, (t, "no sessions in the period") :: rest.2)
      | _ => Ret ((t, rows, ids) :: rest.1, rest.2)
      end
  end.

Definition FIELDS : list (string * (Row → option F)) :=
  [("Close", r_close); ("High", r_high); ("Low", r_low); ("Open", r_open); ("Volume", r_volume)].

Definition ticker_before (a b : string * list (Z * Row) * list string) : Prop := text_le a.1.1 b.1.1.
#[local] Instance ticker_before_dec a b : Decision (ticker_before a b) := text_le_dec _ _.

(** [pd.concat(..., axis=1, sort=True)]: columns on the union of their dates. *)
Definition concat_frames (columns : list (string * list (Z * Row) * list string)) : DataFrame F :=
  let index := merge_sort Z.le (remove_dups (concat ((λ c, c.1.2.*1) <$> columns))) in
  let columns := merge_sort ticker_before columns in
  mkDataFrame index (MultiIndex ((λ f, (f.1, (λ c, (c.1.1, (λ d, day_get d c.1.2 ≫= f.2) <$> index)) <$> columns)) <$> FIELDS)).

(** [frame_from]: the frame, the ids that supplied it, the missing tickers. *)
Definition frame_from (datasets : list (string * Dataset)) (names : list string) (period : string)
    : outcome DataError (DataFrame F * list string * list (string * string)) :=
  let! fm := find_all datasets (fromkeys names) in
  let '(found, missing) := fm in
  let! supplied :=
    match found with
    | [] => Ret ([], [])
    | _ =>
        let anchor := latest ((λ f, latest (sr_bars f.2.1).*1) <$> found) + 1 in
        let! start := period_start anchor period in
        in_period start found
    end in
  let '(columns, late) := supplied in
  match columns with
  | [] => Raise (MarketDataError "no data for any requested symbol")
  | _ => Ret (concat_frames columns, merge_sort text_le (remove_dups (concat (snd <$> columns))), missing ++ late)
  end.
End adjustment.

(** ** A session *)

Definition MAX_SYMBOLS : nat := 50.
Definition FETCH_MARGIN_DAYS : Z := 7.

(** dataset_providers.py's [SYMBOL.fullmatch] *)
Definition upper_or_digit (c : ascii) : bool := in_range 65 90 c || json_digit c.
Definition is_symbol (s : string) : bool :=
  match s with
  | String c s' =>
      (upper_or_digit c || char_in c [94]%nat) && all_of (λ c, upper_or_digit c || char_in c [46; 61; 94; 45]%nat) s' &&
      (len s' <=? 19)
  | EmptyString => false
  end.

(** [SnapshotRequest]; [None] is its ValueError. *)
Record SnapshotRequest := mkSnapshotRequest { sq_symbols : list string; sq_start : Z; sq_end : Z }.
Definition make_request (symbols : list string) (start end_ : Z) : option SnapshotRequest :=
  if bool_decide (symbols = []) || (MAX_SYMBOLS <? length symbols)%nat then None
  else if negb (bool_decide (NoDup symbols)) then None
  else if negb (forallb is_symbol symbols) then None
  else if end_ <=? start then None
  else Some (mkSnapshotRequest (merge_sort text_le symbols) start end_).

Record Snapshot := mkSnapshot {
  sn_provider : string; sn_client : string; sn_retrieved_at : string;
  sn_datasets : list Dataset; sn_unavailable : list (string * string)
}.
(** What the task says of a snapshot it stored. *)
Record SnapshotRecord := mkSnapshotRecord {
  sx_provider : string; sx_client : string; sx_retrieved_at : string; sx_request : SnapshotRequest;
  sx_stored : list (string * string); sx_unavailable : list (string * string)
}.

(** [MarketData]: what it holds, and the store's files. *)
Record Session := mkSession {
  ms_dataset_ids : option (list string);
  ms_loaded : gmap string Dataset;
  ms_snapshots : list SnapshotRecord;
  ms_used : list string;
  ms_unavailable : list (string * string);
  ms_files : gmap string string
}.
#[global] Instance eta_Session : Eta Session := λ s,
  mkSession (ms_dataset_ids s) (ms_loaded s) (ms_snapshots s) (ms_used s) (ms_unavailable s) (ms_files s).

Section session.
Context {F : Type} `{Num F}.
Variable sha256_hex : string → string.
Variable zlib_compress : list string → string.
Variable zlib_decompress : string → Z → option (string * bool * string * string).
Variable loads_other : string → option json.
Variable root : string.
Variable max_bytes : Z.
(** [str(t).strip().upper()] *)
Variable strip_upper : string → string.
(** The provider the session was given; [Raise] is its ProviderError. *)
Variable provider : SnapshotRequest → outcome string Snapshot.
(** The day in UTC. *)
Variable today : Z.

Abbreviation task := (prog Session DataError).

(** [MarketData(dataset_ids)] on the files of the store; an empty list is no
    list. *)
Definition open_session (dataset_ids : option (list string)) (files : gmap string string) : Session :=
  mkSession (match dataset_ids with Some [] => None | ids => ids end) ∅ [] [] [] files.

(** [self.unavailable.setdefault(symbol, why)] *)
Definition set_unavailable (items : list (string * string)) : task unit :=
  pmodify (λ s, s <| ms_unavailable ::= λ u,
    foldl (λ u kv, match od_get kv.1 u with Some _ => u | None => od_put kv.1 kv.2 u end) u items |>).

(** [_load] *)
Definition load (dataset_id : string) : task Dataset :=
  s ← pget;
  match ms_loaded s !! dataset_id with
  | Some d => mret d
  | None =>
      match DatasetStore.get sha256_hex zlib_decompress loads_other root max_bytes (ms_files s) dataset_id None with
      | Ret d => _ ← pmodify (λ s, s <| ms_loaded ::= <[dataset_id := d]> |>); mret d
      | Raise _ => praise (MarketDataError "dataset could not be read from the store")
      end
  end.
Fixpoint load_all (ids : list string) : task (list (string * Dataset)) :=
  match ids with
  | [] => mret []
  | id :: ids => d ← load id; rest ← load_all ids; mret ((id, d) :: rest)
  end.

(** [self._store.put(dataset)]; a DatasetError is a ValueError. *)
Definition store (d : Dataset) : task StoredDataset := λ s,
  let '(files, r) := DatasetStore.put sha256_hex zlib_compress zlib_decompress loads_other root max_bytes d (ms_files s) in
  (s <| ms_files := files |>, match r with
                             | Ret x => Ret x
                             | Raise DatasetError => Raise DataValueError
                             | Raise DatasetIntegrityError => Raise OtherDataError
                             end).
Fixpoint store_all (ds : list Dataset) : task (list StoredDataset) :=
  match ds with
  | [] => mret []
  | d :: ds => x ← store d; rest ← store_all ds; mret (x :: rest)
  end.

(** [_snapshot] *)
Definition take_snapshot (symbols : list string) (period : string) : task (list (string * Dataset)) :=
  let valid := filter (λ t, is_symbol t = true) symbols in
  _ ← set_unavailable ((λ t, (t, "not a ticker symbol")) <$> filter (λ t, is_symbol t = false) symbols);
  if bool_decide (valid = []) then praise (MarketDataError "no valid ticker symbols")
  else if (MAX_SYMBOLS <? length valid)%nat then praise (MarketDataError "too many symbols at once")
  else
    let end_ := today + 1 in
    start ← plift (period_start end_ period);
    match make_request valid (start - FETCH_MARGIN_DAYS) end_ with
    | None => praise DataValueError
    | Some request =>
        match provider request with
        | Raise why => praise (MarketDataError why)
        | Ret snapshot =>
            stored ← store_all (sn_datasets snapshot);
            _ ← pmodify (λ s, s <| ms_snapshots ::= λ l, l ++
                  [mkSnapshotRecord (sn_provider snapshot) (sn_client snapshot) (sn_retrieved_at snapshot) request
                     ((λ x, (sd_dataset_id x, sd_sha256 x)) <$> stored) (sn_unavailable snapshot)] |>);
            _ ← set_unavailable (sn_unavailable snapshot);
            mret (zip (sd_dataset_id <$> stored) (sn_datasets snapshot))
        end
    end.

(** [download] *)
Definition download (names : list string) (period : string) : task (DataFrame F) :=
  let symbols := fromkeys (strip_upper <$> names) in
  s ← pget;
  sources ← match ms_dataset_ids s with Some ids => load_all ids | None => take_snapshot symbols period end;
  r ← plift (frame_from sources symbols period);
  _ ← pmodify (λ s, s <| ms_used ::= λ u, u ++ r.1.2 |>);
  _ ← set_unavailable r.2;
  mret r.1.1.

(** [record]: the source, the datasets used, what was unavailable, and the
    snapshots taken. *)
Record MarketRecord := mkMarketRecord {
  mr_source : string; mr_datasets : list string; mr_unavailable : list (string * string); mr_snapshots : list SnapshotRecord
}.
Definition key_before (a b : string * string) : Prop := text_le a.1 b.1.
#[local] Instance key_before_dec a b : Decision (key_before a b) := text_le_dec _ _.
Definition record (s : Session) : MarketRecord :=
  mkMarketRecord (match ms_dataset_ids s with Some _ => "datasets" | None => "snapshot" end)
    (merge_sort text_le (remove_dups (ms_used s))) (merge_sort key_before (ms_unavailable s)) (ms_snapshots s).
End session.

#[local] Close Scope Z_scope.
(** * Theorems

    Market data: the total-return factor, the shape of the frames, and reruns
    on the datasets a task used. *)

(** ** Total return *)

Section factor.
#[local] Open Scope Q_scope.
Variable sessions : list Z.
Variable close : list (option Q).
Implicit Types d : Z * Q.

Definition qprod (l : list Q) : Q := foldr Qmult 1 l.

(** The first session at or after an ex-date, the close before it, and what
    the dividend multiplies the earlier sessions by. *)
Definition first_of d : nat := searchsorted sessions d.1.
Definition close_before d : option Q := default None (close !! pred (first_of d)).
Definition sound d : Prop := first_of d = 0%nat ∨ ∃ p, close_before d = Some p ∧ 0 < d.2 ∧ d.2 < p.
Definition paid d : Q := 1 - d.2 / default 1 (close_before d).
Definition later_factor (i : nat) (ds : list (Z * Q)) : Q := qprod (paid <$> filter (λ d, (i < first_of d)%nat) ds).

Lemma qprod_perm l l' : l ≡ₚ l' → qprod l == qprod l'.
Proof. induction 1 as [|x l l' _ IH|x y l|l1 l2 l3 _ IH1 _ IH2]; cbn; [reflexivity|by rewrite IH|ring|by rewrite IH1]. Qed.

Lemma later_factor_perm i ds ds' : ds ≡ₚ ds' → later_factor i ds == later_factor i ds'.
Proof. intros Hp. apply qprod_perm. by rewrite Hp. Qed.

Lemma apply_dividends_spec ds factor fs :
  apply_dividends sessions close ds factor = Ret fs →
  length fs = length factor ∧ Forall sound ds ∧
  ∀ i x, factor !! i = Some x → ∃ y, fs !! i = Some y ∧ y == x * later_factor i ds.
Proof.
  revert factor. induction ds as [|[ex a] ds IH]; intros factor; cbn [apply_dividends].
  { intros [= <-]. split; [done|]. split; [constructor|]. intros i x ->. exists x. split; [done|]. unfold later_factor. cbn. ring. }
  destruct (searchsorted sessions ex) as [|last] eqn:Ef.
  - intros (Hl & Hs & Hx)%IH. split; [done|]. split; [constructor; [by left|done]|]. intros i x Hi.
    destruct (Hx i x Hi) as (y & ? & Hy). exists y. split; [done|]. unfold later_factor. rewrite filter_cons.
    rewrite decide_False; [done|]. unfold first_of. cbn [fst]. rewrite Ef. lia.
  - destruct (default None (close !! last)) as [p|] eqn:Ep; [|done].
    destruct ((n0 <.? a) && (a <.? p)) eqn:Ea; [|done]. apply andb_prop in Ea as [Ha0 Hap]. qsimpl.
    assert (close_before (ex, a) = Some p) as Hb by (unfold close_before, first_of; cbn [fst]; by rewrite Ef).
    intros (Hl & Hs & Hx)%IH. split; [|split].
    + rewrite Hl, length_app, length_fmap, length_take, length_drop. lia.
    + constructor; [|done]. right. by exists p.
    + intros i x Hi. destruct (decide (i < S last)%nat) as [Hlt|Hge].
      * destruct (Hx i (x ⊗ (n1 ⊖ a ⊘ p))) as (y & ? & Hy).
        { rewrite lookup_app_l by (rewrite length_fmap, length_take; apply lookup_lt_Some in Hi; lia).
          by rewrite list_lookup_fmap, lookup_take_lt, Hi. }
        exists y. split; [done|]. rewrite Hy. unfold later_factor. rewrite filter_cons, decide_True.
        2:{ unfold first_of. cbn [fst]. by rewrite Ef. }
        rewrite fmap_cons. cbn [qprod foldr]. assert (paid (ex, a) = 1 - a / p) as -> by (unfold paid; by rewrite Hb).
        cbn [nmul nsub ndiv Num_Q]. change (@n1 Q _) with 1. unfold qprod. ring.
      * destruct (Hx i x) as (y & ? & Hy).
        { pose proof (lookup_lt_Some _ _ _ Hi). rewrite lookup_app_r by (rewrite length_fmap, length_take; lia).
          rewrite length_fmap, length_take, lookup_drop. rewrite <- Hi. f_equal. lia. }
        exists y. split; [done|]. rewrite Hy. unfold later_factor. rewrite filter_cons, decide_False; [done|].
        unfold first_of. cbn [fst]. rewrite Ef. lia.
Qed.

Lemma apply_dividends_total ds factor : Forall sound ds → ∃ fs, apply_dividends sessions close ds factor = Ret fs.
Proof.
  intros Hs. revert factor. induction Hs as [|[ex a] ds Hd _ IH]; intros factor; [by eexists|]. cbn [apply_dividends].
  destruct Hd as [H0|(p & Hp & Ha & Hlt)].
  - unfold first_of in H0. cbn [fst] in H0. rewrite H0. apply IH.
  - unfold close_before, first_of in Hp. cbn [fst snd] in *. destruct (searchsorted sessions ex) as [|last]; [apply IH|].
    cbn [pred] in Hp. rewrite Hp. assert ((n0 <.? a) = true) as -> by (apply nlt_Q; exact Ha).
    assert ((a <.? p) = true) as -> by (apply nlt_Q; exact Hlt). cbn [andb]. apply IH.
Qed.

Lemma later_factor_step i ds :
  later_factor i ds == later_factor (S i) ds * qprod (paid <$> filter (λ d, first_of d = S i) ds).
Proof.
  unfold later_factor. induction ds as [|d ds IH]; [cbn; ring|]. rewrite !filter_cons.
  destruct (decide (i < first_of d)%nat) as [H1|H1].
  - destruct (decide (first_of d = S i)) as [H2|H2].
    + rewrite (decide_False (P := (S i < first_of d)%nat)) by lia. rewrite !fmap_cons. cbn [qprod foldr] in *. unfold qprod in *. rewrite IH. ring.
    + rewrite (decide_True (P := (S i < first_of d)%nat)) by lia. rewrite !fmap_cons. cbn [qprod foldr] in *. unfold qprod in *. rewrite IH. ring.
  - rewrite (decide_False (P := (S i < first_of d)%nat)), (decide_False (P := first_of d = S i)) by lia. exact IH.
Qed.

Lemma later_factor_bounds i ds : Forall sound ds → 0 < later_factor i ds ∧ later_factor i ds <= 1.
Proof.
  unfold later_factor. induction 1 as [|d ds Hd _ [IH0 IH1]]; [by split|]. rewrite filter_cons.
  destruct (decide (i < first_of d)%nat) as [Hi|]; [|done]. rewrite fmap_cons. cbn [qprod foldr].
  destruct Hd as [?|(p & Hp & Ha & Hlt)]; [lia|]. assert (0 < paid d ∧ paid d <= 1) as [H0 H1].
  { unfold paid. rewrite Hp. cbn [default from_option id]. assert (0 < p) by lra.
    assert (0 < d.2 / p) by (apply Qlt_shift_div_l; lra). assert (d.2 / p < 1) by (apply Qlt_shift_div_r; lra). lra. }
  unfold qprod in *. set (x := foldr Qmult 1 _) in *. split; nra.
Qed.

Lemma total_return_factor_by_place ds :
  match total_return_factor sessions close ds with
  | Ret fs =>
      Forall sound ds ∧ length fs = length close ∧
      ∀ i, (i < length close)%nat → ∃ f, fs !! i = Some f ∧ f == later_factor i ds ∧ 0 < f ∧ f <= 1 ∧
        ∀ g, fs !! S i = Some g → f == g * qprod (paid <$> filter (λ d, first_of d = S i) ds)
  | Raise _ => ¬ Forall sound ds
  end.
Proof.
  pose proof (merge_sort_Permutation day_le ds) as Hp. unfold total_return_factor.
  destruct (apply_dividends _ _ _ _) as [fs|e] eqn:E.
  - destruct (apply_dividends_spec _ _ _ E) as (Hl & Hs & Hx). rewrite Hp in Hs. rewrite length_replicate in Hl. split_and!; [done..|].
    assert (∀ i, (i < length close)%nat → ∃ f, fs !! i = Some f ∧ f == later_factor i ds) as Hf.
    { intros i Hi. destruct (Hx i n1) as (f & Hf & Ef); [by apply lookup_replicate_2|]. exists f. split; [done|].
      rewrite Ef, (later_factor_perm i _ _ Hp). change (@n1 Q _) with 1. ring. }
    intros i Hi. destruct (Hf i Hi) as (f & Hfi & Ef). exists f. split_and!; [done..| | |].
    + rewrite Ef. by apply later_factor_bounds.
    + rewrite Ef. by apply later_factor_bounds.
    + intros g Hg. assert (S i < length close)%nat as Hi' by (rewrite <- Hl; by eapply lookup_lt_Some).
      destruct (Hf (S i) Hi') as (g' & Hg' & Eg). simplify_eq. rewrite Ef, Eg. apply later_factor_step.
  - rewrite <- Hp. intros Hs. destruct (apply_dividends_total _ (replicate (length close) n1) Hs) as [fs Hfs]. congruence.
Qed.

(** *** In dates *)

(** The sessions before an ex-date with their closes, the last of these, a
    dividend the code accepts, and the share of the price it leaves. *)
Definition sessions_before d : list (Z * option Q) := filter (λ sx, (sx.1 < d.1)%Z) (zip sessions close).
Definition previous_close d : option Q := last (sessions_before d) ≫= snd.
Definition payable d : Prop := sessions_before d = [] ∨ ∃ p, previous_close d = Some p ∧ 0 < d.2 ∧ d.2 < p.
Definition kept_share d : Q := 1 - d.2 / default 1 (previous_close d).

Lemma filter_sorted_take {A} (f : A → Z) day (l : list A) :
  StronglySorted Z.lt (f <$> l) → filter (λ x, (f x < day)%Z) l = take (length (filter (λ z, (z < day)%Z) (f <$> l))) l.
Proof.
  induction l as [|x l IH]; [done|]. cbn [fmap list_fmap]. intros [Hl Hx]%StronglySorted_inv. rewrite !filter_cons.
  destruct (decide (f x < day)%Z) as [Hd|Hd]; cbn [length take]; [by rewrite <- IH|].
  assert (filter (λ z, (z < day)%Z) (f <$> l) = []) as ->.
  { apply filter_none. intros z Hz. rewrite Forall_forall in Hx. specialize (Hx z Hz). lia. }
  apply filter_none. intros y Hy. rewrite Forall_forall in Hx. assert (f x < f y)%Z by (apply Hx; by apply list_elem_of_fmap_2). lia.
Qed.

Lemma strictly_sorted_NoDup (l : list Z) : StronglySorted Z.lt l → NoDup l.
Proof.
  induction 1 as [|x l _ IH Hx]; [constructor|]. constructor; [|done]. intros Hin. rewrite Forall_forall in Hx.
  specialize (Hx x Hin). lia.
Qed.

Section dates.
Hypothesis sorted : StronglySorted Z.lt sessions.
Hypothesis same_length : length sessions = length close.

Lemma sessions_before_take d : sessions_before d = take (first_of d) (zip sessions close).
Proof.
  unfold sessions_before, first_of, searchsorted.
  assert (fst <$> zip sessions close = sessions) as E by (apply fst_zip; lia).
  rewrite (filter_sorted_take fst) by (by rewrite E). by rewrite E.
Qed.

Lemma first_of_bound d : (first_of d <= length sessions)%nat.
Proof. apply length_filter. Qed.

Lemma session_before_iff i s d : sessions !! i = Some s → (i < first_of d)%nat ↔ (s < d.1)%Z.
Proof.
  intros Hi. pose proof (filter_sorted_take id d.1 sessions) as Ht. rewrite list_fmap_id in Ht. specialize (Ht sorted).
  change (filter (λ x, (id x < d.1)%Z) sessions = take (first_of d) sessions) in Ht. split.
  - intros Hlt. assert (s ∈ take (first_of d) sessions) as Hin by (apply list_elem_of_lookup; exists i; by rewrite lookup_take_lt).
    rewrite <- Ht in Hin. by apply list_elem_of_filter in Hin as [? _].
  - intros Hs. assert (s ∈ take (first_of d) sessions) as Hin by (rewrite <- Ht; apply list_elem_of_filter; split; [done|by eapply list_elem_of_lookup_2]).
    apply list_elem_of_lookup in Hin as [k Hk]. apply lookup_take_Some in Hk as [Hk Hlt].
    by rewrite (NoDup_lookup _ i k s (strictly_sorted_NoDup _ sorted) Hi Hk).
Qed.

Lemma previous_close_before d : first_of d ≠ 0%nat → previous_close d = close_before d.
Proof.
  intros Hd. unfold previous_close, close_before. rewrite sessions_before_take.
  pose proof (first_of_bound d). destruct (first_of d) as [|k]; [done|]. cbn [pred].
  destruct (lookup_lt_is_Some_2 sessions k) as [s Hs]; [lia|]. destruct (lookup_lt_is_Some_2 close k) as [c Hc]; [lia|].
  assert (zip sessions close !! k = Some (s, c)) as Hk by (rewrite lookup_zip_with, Hs; cbn; by rewrite Hc).
  rewrite (take_S_r _ _ _ Hk), last_snoc, Hc. done.
Qed.

Lemma payable_sound d : payable d ↔ sound d.
Proof.
  unfold payable, sound. rewrite sessions_before_take. destruct (decide (first_of d = 0%nat)) as [E|E].
  - split; intros _; left; [done|by rewrite E].
  - rewrite (previous_close_before d E). split; intros [H0|?]; try (by right).
    apply (f_equal length) in H0. rewrite length_take, length_zip in H0. pose proof (first_of_bound d). cbn in H0. lia.
Qed.

Lemma share_product (P P' : Z * Q → Prop) `{∀ d, Decision (P d)} `{∀ d, Decision (P' d)} ds :
  (∀ d, P d ↔ P' d) → (∀ d, P d → first_of d ≠ 0%nat) → qprod (paid <$> filter P ds) = qprod (kept_share <$> filter P' ds).
Proof.
  intros Hiff Hpos. rewrite (list_filter_iff P' P) by (by intros d; rewrite Hiff). f_equal.
  apply list_fmap_ext. intros i d Hd. assert (P d) as Hp by (apply list_elem_of_lookup_2 in Hd; by apply list_elem_of_filter in Hd as [? _]).
  unfold paid, kept_share. by rewrite previous_close_before by (by apply Hpos).
Qed.

(** The total-return factor is the textbook one, in exact arithmetic.
    It is answered exactly when every dividend with an earlier session is
    between zero and the last close before its ex-date. It has one entry per
    session: the product, over the dividends that go ex after that session, of
    one less the dividend over that close, whatever the order of the
    dividends; it is above zero and at most one; and from a session to the next
    it changes only by the dividends that go ex after the one and by the
    other. *)
Theorem total_return_factor_exact ds :
  match total_return_factor sessions close ds with
  | Ret fs =>
      Forall payable ds ∧ length fs = length sessions ∧
      ∀ i s, sessions !! i = Some s → ∃ f, fs !! i = Some f ∧
        f == qprod (kept_share <$> filter (λ d, (s < d.1)%Z) ds) ∧ 0 < f ∧ f <= 1 ∧
        ∀ s' g, sessions !! S i = Some s' → fs !! S i = Some g →
          f == g * qprod (kept_share <$> filter (λ d, (s < d.1 ≤ s')%Z) ds)
  | Raise _ => ¬ Forall payable ds
  end.
Proof.
  pose proof (total_return_factor_by_place ds) as Hplace. assert (Forall payable ds ↔ Forall sound ds) as Hps by (rewrite !Forall_forall; by setoid_rewrite payable_sound).
  destruct (total_return_factor _ _ ds) as [fs|e]; [|by rewrite Hps].
  destruct Hplace as (Hs & Hl & Hf). split_and!; [by apply Hps|lia|]. intros i s Hi. pose proof (lookup_lt_Some _ _ _ Hi).
  destruct (Hf i) as (f & Hfi & Ef & H0 & H1 & Hstep); [lia|]. exists f. split_and!; [done| |done..|].
  - rewrite Ef. unfold later_factor. erewrite share_product; [reflexivity|intros d; by apply session_before_iff|intros d; lia].
  - intros s' g Hs' Hg. rewrite (Hstep g Hg). erewrite share_product; [reflexivity| |intros d; lia].
    intros d. pose proof (session_before_iff i s d Hi). pose proof (session_before_iff (S i) s' d Hs'). cbn beta. lia.
Qed.
End dates.
End factor.

(** ** Reruns *)

Section rerun.
Context {F : Type} `{Num F}.
Implicit Types ds : list (string * Dataset).

Definition keep_ids (P : string → Prop) `{∀ x, Decision (P x)} ds : list (string * Dataset) := filter (λ d, P d.1) ds.

Lemma parts_of_keep (P : string → Prop) `{∀ x, Decision (P x)} ds t parts :
  parts_of ds t = Ret parts → (∀ id, id ∈ parts.*1 → P id) → parts_of (keep_ids P ds) t = Ret parts.
Proof.
  revert parts. induction ds as [|[id d] ds IH]; intros parts; [done|]. cbn [parts_of].
  intros (s & Hs & (rest & Hr & [= <-])%obind_Ret)%obind_Ret Hp. unfold keep_ids. rewrite filter_cons.
  assert (parts_of (keep_ids P ds) t = Ret rest) as Hk.
  { apply IH; [done|]. intros id' Hin. apply Hp. destruct s; [by right|done]. }
  destruct (decide (P (id, d).1)) as [HP|HP]; cbn [parts_of].
  - fold (keep_ids P ds). rewrite Hs. cbn [obind]. by rewrite Hk.
  - fold (keep_ids P ds). destruct s as [s|]; [|done]. destruct HP. apply Hp. by left.
Qed.

Lemma find_all_keep (P : string → Prop) `{∀ x, Decision (P x)} ds names found missing :
  find_all ds names = Ret (found, missing) → (∀ f id, f ∈ found → id ∈ f.2.2 → P id) →
  find_all (keep_ids P ds) names = Ret (found, missing).
Proof.
  revert found missing. induction names as [|t names IH]; intros found missing; [done|]. cbn [find_all].
  intros (parts & Hparts & Hrest)%obind_Ret Hp. destruct parts as [|p parts].
  - apply obind_Ret in Hrest as ([f m] & Hf & [= <- <-]). rewrite (parts_of_keep P ds t []); [|done|by intros ? []%not_elem_of_nil].
    cbn [obind]. by rewrite (IH f m).
  - apply obind_Ret in Hrest as (s & Hs & ([f m] & Hf & [= <- <-])%obind_Ret).
    rewrite (parts_of_keep P ds t (p :: parts)); [|done|].
    + cbn [obind]. rewrite Hs. cbn [obind]. rewrite (IH f m); [done|done|]. intros x id Hx. apply Hp. by right.
    + intros id Hid. apply (Hp (t, (s, (p :: parts).*1))); [by left|done].
Qed.

Lemma in_period_ids start (found : list (string * (Series * list string))) cols :
  in_period (F:=F) start found = Ret (cols, []) → snd <$> cols = (λ f, f.2.2) <$> found.
Proof.
  revert cols. induction found as [|[t [s ids]] found IH]; intros cols; cbn [in_period]; [by intros [= <-]|].
  intros (rows & _ & ([cols' late'] & Hr & Hc)%obind_Ret)%obind_Ret. cbn [fst snd] in Hc.
  destruct (filter _ rows) as [|r rs]; [done|]. injection Hc as <- ->. cbn. f_equal. by apply IH.
Qed.

(** C27: A rerun on the datasets a frame was built from builds the same frame.
    When every requested ticker either supplied sessions or is in no dataset
    at all, the datasets the frame names are enough: any others could be taken
    away and the frame, the datasets it names and the missing tickers are the
    same. *)
Theorem rerun_builds_same_frame ds names period frame used missing :
  frame_from (F:=F) ds names period = Ret (frame, used, missing) →
  Forall (λ m, m.2 = "no data") missing →
  frame_from (keep_ids (λ id, id ∈ used) ds) names period = Ret (frame, used, missing).
Proof.
  unfold frame_from. intros ([found miss] & Hf & ([cols late] & Hs & Hr)%obind_Ret)%obind_Ret Hm.
  destruct cols as [|c cols]; [done|]. remember (c :: cols) as columns eqn:Ecol.
  injection Hr as <- <- <-. apply Forall_app in Hm as [_ Hlate].
  assert (late = []) as ->.
  { destruct found as [|f found]; [injection Hs as H1 H2; by rewrite H2|]. apply obind_Ret in Hs as (start & _ & Hs).
    clear -Hs Hlate. revert columns late Hs Hlate. generalize (f :: found) as l. induction l as [|[t [s ids]] l IH]; intros columns late; cbn [in_period].
    - by intros [= _ <-].
    - intros (rows & _ & ([c' l'] & Hr & Hc)%obind_Ret)%obind_Ret Hlate. cbn [fst snd] in Hc. destruct (filter _ rows).
      + injection Hc as <- <-. apply Forall_cons in Hlate as [Hbad _]. by cbn in Hbad.
      + injection Hc as <- ->. by eapply IH. }
  set (used := merge_sort text_le (remove_dups (concat (snd <$> columns)))).
  rewrite (find_all_keep (λ id, id ∈ used) ds _ found miss Hf).
  - cbn [obind]. rewrite Hs. cbn [obind]. unfold used. subst columns. reflexivity.
  - intros f id Hin Hid. unfold used. rewrite merge_sort_Permutation, elem_of_remove_dups.
    assert (snd <$> columns = (λ f, f.2.2) <$> found) as ->.
    { destruct found as [|f' found]; [by apply not_elem_of_nil in Hin|]. apply obind_Ret in Hs as (start & _ & Hs). by eapply in_period_ids. }
    apply list_elem_of_In, in_concat. exists f.2.2. rewrite <- !list_elem_of_In. split; [|done]. apply list_elem_of_fmap. by exists f.
Qed.
End rerun.

(** ** The shape of a frame *)

Section shape.
Context {F : Type} `{Num F}.

Lemma latest_bound (days : list Z) d : d ∈ days → (d ≤ latest days)%Z.
Proof.
  destruct days as [|x days]; [by intros []%not_elem_of_nil|]. cbn.
  assert (∀ l x, (x ≤ foldl Z.max x l)%Z ∧ ∀ y, y ∈ l → (y ≤ foldl Z.max x l)%Z) as Hf.
  { clear. induction l as [|z l IH]; intros x; cbn; [split; [lia|by intros ? []%not_elem_of_nil]|].
    destruct (IH (Z.max x z)) as [H1 H2]. split; [lia|]. intros y [->|Hy]%elem_of_cons; [lia|by apply H2]. }
  intros [->|Hd]%elem_of_cons; [exact (proj1 (Hf days x))|exact (proj2 (Hf days x) d Hd)].
Qed.

Lemma latest_in days : days ≠ [] → latest days ∈ days.
Proof.
  destruct days as [|x days]; [done|]. intros _. cbn.
  apply (foldl_invariant (λ m, m ∈ x :: days)); [by left|]. intros m b Hm Hb.
  destruct (Z.max_spec m b) as [[_ ->]|[_ ->]]; [by right|done].
Qed.

(** The latest session of some tickers. *)
Section sessions_of.
Variable found : list (string * (Series * list string)).
Let end_ := latest ((λ f, latest (sr_bars f.2.1).*1) <$> found).

Lemma latest_session_bound f d : f ∈ found → d ∈ (sr_bars f.2.1).*1 → (d ≤ end_)%Z.
Proof.
  intros Hf Hd. pose proof (latest_bound _ _ Hd).
  assert (latest (sr_bars f.2.1).*1 ≤ end_)%Z by (apply latest_bound; apply list_elem_of_fmap; by exists f). lia.
Qed.

Lemma latest_session : found ≠ [] → (∀ f, f ∈ found → sr_bars f.2.1 ≠ []) → ∃ f, f ∈ found ∧ end_ ∈ (sr_bars f.2.1).*1.
Proof.
  intros Hne Hbars. assert (end_ ∈ (λ f, latest (sr_bars f.2.1).*1) <$> found) as Hin by (apply latest_in; by destruct found).
  apply list_elem_of_fmap in Hin as (f & E & Hf). exists f. split; [done|]. rewrite E. apply latest_in.
  specialize (Hbars f Hf). by destruct (sr_bars f.2.1).
Qed.
End sessions_of.

(** A symbol that a dataset holds has bars, and so has one that was found. *)
Lemma series_of_bars d t s : series_of d t = Ret (Some s) → sr_bars s ≠ [].
Proof.
  unfold series_of. intros (tb & _ & (symbols & _ & Hs)%obind_Ret)%obind_Ret.
  destruct (rows_of t symbols) as [|r rows]; [done|].
  do 6 apply obind_Ret in Hs as (? & _ & Hs). apply obind_Ret in Hs as (bars & Hb & (dv & _ & [= <-])%obind_Ret). cbn [sr_bars].
  destruct bars; [|done]. unfold or_key_error in Hb. destruct (mapM _ _) as [l|] eqn:E; [|done]. injection Hb as ->.
  apply length_mapM in E. done.
Qed.

Lemma first_of_each_bars bars : bars ≠ [] → first_of_each [] bars ≠ [].
Proof. destruct bars as [|b bars]; [done|]. cbn [first_of_each]. rewrite decide_False by (by intros []%not_elem_of_nil). done. Qed.

Lemma merged_bars parts s : (∀ p, p ∈ parts → sr_bars p ≠ []) → merged parts = Ret s → sr_bars s ≠ [].
Proof.
  intros Hp. destruct parts as [|p [|q rest]]; [done| |]; cbn [merged].
  { intros [= <-]. apply Hp. by left. }
  destruct (existsb _ _); [done|]. destruct (bars_disagree _); [done|]. destruct (merge_dividends _ _); [|done].
  set (bars := first_of_each [] _). intros [= <-]. cbn [sr_bars]. intros E.
  pose proof (merge_sort_Permutation day_le bars) as Hperm. rewrite E in Hperm. apply Permutation_nil in Hperm.
  revert Hperm. apply first_of_each_bars. specialize (Hp p). cbn. destruct (sr_bars p); [|done]. intros _. apply Hp; [by left|done].
Qed.

Lemma parts_of_bars ds t parts : parts_of ds t = Ret parts → ∀ p, p ∈ parts.*2 → sr_bars p ≠ [].
Proof.
  revert parts. induction ds as [|[id d] ds IH]; intros parts; cbn [parts_of].
  { intros [= <-] p []%not_elem_of_nil. }
  intros (s & Hs & (rest & Hr & [= <-])%obind_Ret)%obind_Ret p Hin.
  destruct s as [s|]; [|by eapply IH]. apply elem_of_cons in Hin as [->|Hin]; [by eapply series_of_bars|by eapply IH].
Qed.

Lemma find_all_bars ds names found missing :
  find_all ds names = Ret (found, missing) → ∀ f, f ∈ found → sr_bars f.2.1 ≠ [].
Proof.
  revert found missing. induction names as [|t names IH]; intros found missing; cbn [find_all].
  { intros [= <- _] f []%not_elem_of_nil. }
  intros (parts & Hparts & Hrest)%obind_Ret f Hf. destruct parts as [|p parts].
  - apply obind_Ret in Hrest as ([f' m] & Hf' & [= <- _]). by eapply IH.
  - apply obind_Ret in Hrest as (s & Hs & ([f' m] & Hf' & [= <- _])%obind_Ret).
    apply elem_of_cons in Hf as [->|Hf]; [|by eapply IH]. eapply merged_bars; [|exact Hs]. by eapply parts_of_bars.
Qed.

Lemma adjusted_dates s (rows : list (Z * Row)) : adjusted (F:=F) s = Ret rows → ∀ r, r ∈ rows → r.1 ∈ (sr_bars s).*1.
Proof.
  unfold adjusted. destruct (negb _); [done|]. intros (factor & _ & [= <-])%obind_Ret r Hr.
  apply list_elem_of_lookup in Hr as [i Hi]. apply lookup_zip_with_Some in Hi as (b & f & -> & Hb & _).
  apply list_elem_of_fmap. exists b. split; [done|]. by eapply list_elem_of_lookup_2.
Qed.

Lemma in_period_dates start found (cols : list (string * list (Z * Row) * list string)) late :
  in_period (F:=F) start found = Ret (cols, late) →
  ∀ c r, c ∈ cols → r ∈ c.1.2 → (start ≤ r.1)%Z ∧ ∃ f, f ∈ found ∧ r.1 ∈ (sr_bars f.2.1).*1.
Proof.
  revert cols late. induction found as [|[t [s ids]] found IH]; intros cols late; cbn [in_period].
  { intros [= <- _] c r []%not_elem_of_nil. }
  intros (rows & Hrows & ([cols' late'] & Hrest & Hc)%obind_Ret)%obind_Ret c r Hin Hr. cbn [fst snd] in Hc.
  assert (c ∈ cols' ∨ c.1.2 = filter (λ r, (start ≤ r.1)%Z) rows) as [Hc'|Hc'].
  { destruct (filter _ rows) as [|x xs] eqn:E; injection Hc as <- <-; [by left|].
    apply elem_of_cons in Hin as [->|?]; [by right|by left]. }
  - destruct (IH cols' late' Hrest c r Hc' Hr) as (? & f & ? & ?). split; [done|]. exists f. split; [by right|done].
  - rewrite Hc' in Hr. apply list_elem_of_filter in Hr as [Hle Hr]. split; [done|]. exists (t, (s, ids)). split; [by left|].
    by eapply adjusted_dates.
Qed.

(** A frame has the shape of a download. Its index is strictly increasing,
    every column of every field has one entry per date, and every date is in
    the trailing period that ends with the latest session that any of the
    requested tickers has. *)
Theorem frames_well_shaped ds names period (frame : DataFrame F) used missing :
  frame_from ds names period = Ret (frame, used, missing) →
  StronglySorted Z.lt (df_index frame) ∧
  (∀ blocks field block t col, df_columns frame = MultiIndex blocks → (field, block) ∈ blocks → (t, col) ∈ block →
     length col = length (df_index frame)) ∧
  ∃ found missing' end_ start, find_all ds (fromkeys names) = Ret (found, missing') ∧
    (∃ f, f ∈ found ∧ end_ ∈ (sr_bars f.2.1).*1) ∧ (∀ f d, f ∈ found → d ∈ (sr_bars f.2.1).*1 → (d ≤ end_)%Z) ∧
    period_start (end_ + 1) period = Ret start ∧ ∀ d, d ∈ df_index frame → (start ≤ d ≤ end_)%Z.
Proof.
  unfold frame_from. intros ([found miss] & Hfound & ([cols late] & Hs & Hr)%obind_Ret)%obind_Ret.
  destruct cols as [|c cols]; [done|]. remember (c :: cols) as columns eqn:Ecol. injection Hr as <- _ _.
  unfold concat_frames. cbn zeta. cbn [df_index df_columns].
  set (dates := concat ((λ c, c.1.2.*1) <$> columns)). split; [|split].
  - pose proof (StronglySorted_merge_sort Z.le (remove_dups dates)) as Hsorted.
    assert (NoDup (merge_sort Z.le (remove_dups dates))) as Hnd by (rewrite merge_sort_Permutation; apply NoDup_remove_dups).
    induction Hsorted as [|x l Hl IH Hx]; [constructor|]. apply NoDup_cons in Hnd as [Hnin Hnd]. constructor; [by apply IH|].
    rewrite Forall_forall in Hx |- *. intros y Hy. specialize (Hx y Hy). assert (x ≠ y) by (by intros ->). lia.
  - generalize (FIELDS (F:=F)) as fs. intros fs blocks field block t col [= <-] Hb Hcol. apply list_elem_of_fmap in Hb as (f & [= -> ->] & _).
    apply list_elem_of_fmap in Hcol as (x & [= -> ->] & _). by rewrite length_fmap.
  - destruct found as [|f found]; [injection Hs as H1 _; by rewrite Ecol in H1|].
    apply obind_Ret in Hs as (start & Hstart & Hs). exists (f :: found), miss. eexists. exists start. split_and!; [done| | |exact Hstart|].
    + apply latest_session; [done|]. intros g Hg. by eapply find_all_bars.
    + intros g d Hg Hd. by apply (latest_session_bound _ g).
    + intros d. rewrite merge_sort_Permutation, elem_of_remove_dups. unfold dates.
      rewrite list_elem_of_In, in_concat. intros (l & Hl & Hd). apply list_elem_of_In in Hl, Hd.
      apply list_elem_of_fmap in Hl as (x & -> & Hx). apply list_elem_of_fmap in Hd as (r & -> & Hr).
      destruct (in_period_dates _ _ _ _ Hs x r Hx Hr) as (Hle & g & Hg & Hbars). split; [done|].
      by apply (latest_session_bound _ g).
Qed.
End shape.

(** ** Two datasets: a share that pays a dividend, and a coin *)

Definition number (z : Z) : cell := Some (VFloat (f64_bits (nof_Z z))).
Definition bars_table (symbol : string) (first : Z) (closes : list Z) : Table :=
  mkTable BARS_V1
    [(λ _, Some (VText symbol)) <$> closes; (λ i, Some (VDate (first + Z.of_nat i))) <$> seq 0 (length closes);
     number <$> closes; number <$> closes; (λ _, None) <$> closes; number <$> closes; (λ _, number 100) <$> closes].
Definition dividend_table (symbol : string) (ex_date amount : Z) : Table :=
  mkTable CORPORATE_ACTIONS_V1
    [[Some (VText symbol)]; [Some (VDate ex_date)]; [Some (VText "dividend")]; [number amount]; [None]; [Some (VText "yahoo")]].
Definition sample_identity (family : string) : DatasetIdentity :=
  mkDatasetIdentity family "yahoo" "yahoo-personal-use" "1d" "exchange-local" "split" "current_listings".
Definition sample_datasets : list (string * Dataset) :=
  [("share", mkDataset (sample_identity "EQUITY_EOD") [bars_table "AAA" 19000 [10; 8; 9]%Z; dividend_table "AAA" 19001 2]);
   ("coin", mkDataset (sample_identity "CRYPTO_SPOT_EOD") [bars_table "BTC" 19000 [1; 2; 3; 4]%Z])].

(** The close before the ex-date is scaled by 1 - 2 / 10. *)
Example sample_adjusted :
  match frame_from (F:=Q) sample_datasets ["AAA"] "1mo" with
  | Ret (frame, used, missing) =>
      match df_columns frame with
      | MultiIndex blocks => option_map (map (option_map Qred)) (od_get "Close" blocks ≫= od_get "AAA") = Some [Some 8; Some 8; Some 9]%Q
      | FlatIndex _ => False
      end ∧ df_index frame = [19000; 19001; 19002]%Z ∧ used = ["share"]
  | Raise _ => False
  end.
Proof. vm_compute. by split. Qed.

(** Two dividends: 2 on a close of 10, then 1 on a close of 8. *)
Lemma total_return_factor_exact_witness :
  match total_return_factor [19000; 19001; 19002; 19003]%Z [Some 10; Some 8; None; Some 9]%Q [(19002, 1%Q); (19001, 2%Q)]%Z with
  | Ret fs => Qred <$> fs = [7 # 10; 7 # 8; 1; 1]%Q ∧ ∃ f, fs !! 0%nat = Some f ∧ (0 < f)%Q
  | Raise _ => False
  end.
Proof.
  assert (StronglySorted Z.lt [19000; 19001; 19002; 19003]%Z) as Hs by (repeat constructor; lia).
  pose proof (total_return_factor_exact [19000; 19001; 19002; 19003]%Z [Some 10; Some 8; None; Some 9]%Q Hs eq_refl
                [(19002, 1%Q); (19001, 2%Q)]%Z) as Ht.
  destruct (total_return_factor _ _ _) as [fs|e] eqn:E; [|vm_compute in E; discriminate].
  destruct Ht as (_ & _ & Hf). destruct (Hf 0%nat 19000%Z eq_refl) as (f & H0 & _ & Hpos & _). split; [|by exists f].
  vm_compute in E. injection E as <-. reflexivity.
Defined.

Lemma rerun_builds_same_frame_witness :
  match frame_from (F:=Q) sample_datasets ["AAA"; "XXX"] "1mo" with
  | Ret (frame, used, missing) =>
      keep_ids (λ id, id ∈ used) sample_datasets = take 1 sample_datasets ∧
      frame_from (F:=Q) (take 1 sample_datasets) ["AAA"; "XXX"] "1mo" = Ret (frame, used, missing)
  | Raise _ => False
  end.
Proof.
  destruct (frame_from (F:=Q) sample_datasets ["AAA"; "XXX"] "1mo") as [[[frame used] missing]|e] eqn:E.
  - assert (used = ["share"]) as Hu by (vm_compute in E; by injection E).
    assert (missing = [("XXX", "no data")]) as Hm by (vm_compute in E; by injection E).
    assert (Forall (λ m : string * string, m.2 = "no data") missing) as Hall by (rewrite Hm; repeat constructor).
    pose proof (rerun_builds_same_frame sample_datasets ["AAA"; "XXX"] "1mo" frame used missing E Hall) as Hr.
    assert (keep_ids (λ id, id ∈ used) sample_datasets = take 1 sample_datasets) as Hk by (rewrite Hu; reflexivity).
    split; [exact Hk|]. rewrite <- Hk. exact Hr.
  - vm_compute in E. discriminate.
Defined.

Lemma frames_well_shaped_witness :
  match frame_from (F:=Q) sample_datasets ["AAA"; "BTC"] "1mo" with
  | Ret (frame, _, _) => StronglySorted Z.lt (df_index frame) ∧ length (df_index frame) = 4%nat
  | Raise _ => False
  end.
Proof.
  destruct (frame_from (F:=Q) sample_datasets ["AAA"; "BTC"] "1mo") as [[[frame used] missing]|e] eqn:E.
  - destruct (frames_well_shaped sample_datasets ["AAA"; "BTC"] "1mo" frame used missing E) as [Hs _].
    split; [exact Hs|]. vm_compute in E. injection E as <- _ _. reflexivity.
  - vm_compute in E. discriminate.
Defined.
