(* ===== verification/ResearchTasks.v ===== *)
(** backend/services/research_tasks.py: the backtesting tasks, from the
    parameters of a job to its result, the trials it evaluated and the record
    of the market data it used. Numbers are binary64. *)

From stdpp Require Import pretty sorting strings.
From S2P Require Import Prelude Numeric Models Json JsonText OrderedDict DatasetFormat DatasetStore ResearchJobs DatasetRegistry Schemas StrategySignals ExecutionModel BacktestEngine RiskMetrics WalkForward HistoricalData BacktestReport MarketData.
From S2P Require EventSimulator.
#[local] Open Scope Z_scope.

Inductive TaskResult :=
| MovingAverageResult (b : Backtest (F:=b64))
| BacktestTaskResult (b : Backtest (F:=b64))
| WalkForwardTaskResult (w : WalkForwardResult (F:=b64)) (assets : list string)
| EventTaskResult (p : EventSimulator.Performance (F:=b64)) (assets : list string).

(** [TaskOutput], with the ["market_data"] of its result beside it. *)
Record TaskOutput (R : Type) := mkTaskOutput {
  to_result : R; to_market_data : MarketRecord; to_audit : json; to_trials : option trials_arg
}.
Arguments mkTaskOutput {R}. Arguments to_result {R}. Arguments to_market_data {R}. Arguments to_audit {R}. Arguments to_trials {R}.

Section tasks.
Variable np_mean : list b64 → b64.
Variable np_std : nat → list b64 → b64.
Variable np_tanh : b64 → b64.
Variable sqrt : b64 → b64.
Variable np_cov : list b64 → list b64 → b64 * b64.
Variable np_percentile5 : list b64 → b64.
Variable set_order : list string → list string.

Variable lax_int : json → option Z.
Variable lax_float : json → option b64.
Variable lax_bool : json → option bool.
Variable nan_in_bounds : bool.
Variable strip_other : string → string.
Variable upper_other : string → string.

Variable sha256_hex : string → string.
Variable zlib_compress : list string → string.
Variable zlib_decompress : string → Z → option (string * bool * string * string).
Variable loads_other : string → option json.
Variable root : string.
Variable max_bytes : Z.
Variable provider : SnapshotRequest → outcome string Snapshot.
Variable today : Z.
(** [_digest] of research_trials.py *)
Variable digest : json → string.

Definition strip_upper (s : string) : string := upper upper_other (strip strip_other s).

(** What a task does with its session: it fails with a [TaskError], or with
    another exception ([None]), or answers. *)
Abbreviation task A := (prog Session (option TaskError) A).
Definition task_error {A} (status : Z) (detail : string) : task A := praise (Some (mkTaskError status detail)).

(** [params.get("dataset_ids")] *)
Definition requested_ids (params : json) : option (list string) :=
  match params with
  | JObj fields => match json_get "dataset_ids" fields with Some (JArr l) => all_texts l | _ => None end
  | _ => None
  end.

(** [uses_market_data] *)
Definition uses_market_data {R} (body : task (R * json * option trials_arg)) (params : json) (files : gmap string string)
    : Session * outcome (option TaskError) (TaskOutput R) :=
  match body (open_session (requested_ids params) files) with
  | (s, Ret (result, audit, trials)) => (s, Ret (mkTaskOutput result (record s) audit trials))
  | (s, Raise e) => (s, Raise e)
  end.

Definition data_download (names : list string) (period : string) : prog Session DataError (DataFrame b64) :=
  download sha256_hex zlib_compress zlib_decompress loads_other root max_bytes strip_upper provider today names period.

(** An engine that downloads once: it is given what the session answers. *)
Definition with_download {A} (names : list string) (period : string)
    (engine : outcome DataError (DataFrame b64) → outcome (option TaskError) A) : task A := λ s,
  let '(s, r) := data_download names period s in (s, engine r).

(** An error of [engine.run()] other than a ValueError of its own is not
    possible here, so the tasks' [except Exception] never runs. *)
Definition or_422 {A} (r : outcome string A) : outcome (option TaskError) A :=
  match r with Ret a => Ret a | Raise why => Raise (Some (mkTaskError 422 why)) end.

(** backtest_service.py's [_fetch_data] *)
Definition fetch_data (r : outcome DataError (DataFrame b64)) : outcome string (option (DataFrame b64)) :=
  match r with
  | Ret frame => Ret (Some frame)
  | Raise (MarketDataError why) => Raise why
  | Raise _ => Ret None
  end.

Definition family_hash (strategy : string) (assets : list string) : string :=
  digest (JObj [("strategy", JStr strategy);
                ("assets", JArr (JStr <$> merge_sort text_le (remove_dups (strip_upper <$> assets))))]).

(** The value of a field, and [req.model_dump(exclude={"dataset_ids"})]. *)
Definition field_json (name : string) (req : Data) : json := default JNull (json_get name req).
Definition texts_of (name : string) (req : Data) : list string :=
  match json_get name req with Some (JArr l) => default [] (all_texts l) | _ => [] end.
Definition nat_field (name : string) (req : Data) : nat := Z.to_nat (default 0 (int_field name req)).
Definition flag (name : string) (req : Data) : bool := match json_get name req with Some (JBool b) => b | _ => false end.
Definition model_dump (req : Data) : json := JObj (filter (λ kv, kv.1 ≠ "dataset_ids") req).

Definition schema_backtest := BacktestRequest lax_int strip_other upper_other.
Definition schema_advanced := AdvancedBacktestRequest lax_int lax_float lax_bool nan_in_bounds strip_other upper_other.
Definition schema_walk_forward := WalkForwardRequest lax_int lax_bool strip_other upper_other.
Definition schema_event := EventBacktestRequest lax_int lax_float lax_bool nan_in_bounds strip_other upper_other.

Definition validated (s : Schema) (params : json) : task Data :=
  match model_validate s params with Some req => mret req | None => praise None end.

(** ** Moving-average backtest *)

Definition ma_backtest_body (params : json) : task (TaskResult * json * option trials_arg) :=
  req ← validated schema_backtest params;
  let asset := text_field "asset" req in
  result ← with_download [asset; "SPY"] (text_field "period" req) (λ r,
    or_422 (run_moving_average_backtest np_mean np_std np_tanh sqrt np_cov (λ _, fetch_data r) asset
              (nat_field "fast_window" req) (nat_field "slow_window" req) (nof_Z 100000)));
  mret (MovingAverageResult result,
        JObj [("asset", JStr asset); ("period", field_json "period" req);
              ("total_return", JFloat (rp_total_return (bt_report result)))],
        Some (mkTrials (family_hash "ma_crossover" [asset])
          [JObj [("fast_window", field_json "fast_window" req); ("slow_window", field_json "slow_window" req);
                 ("period", field_json "period" req); ("execution_preset", JStr "retail")]] "backtest")).
Definition ma_backtest (params : json) := uses_market_data (ma_backtest_body params) params.

(** ** Advanced backtest *)

Definition execution_preset (name : string) : ExecutionConfig b64 :=
  if String.eqb name "zero_cost" then zero_cost_config
  else if String.eqb name "institutional" then institutional_config
  else retail_config.

Definition sizing_method (name : string) : SizingMethod :=
  if String.eqb name "volatility_target" then VOLATILITY_TARGET
  else if String.eqb name "kelly" then KELLY
  else if String.eqb name "equal_weight" then EQUAL_WEIGHT
  else FIXED_FRACTIONAL.

Definition strategy_kind (name : string) : string :=
  if String.eqb name "sba_signal" then SBA_SIGNAL
  else if String.eqb name "momentum" then MOMENTUM
  else if String.eqb name "mean_reversion" then MEAN_REVERSION
  else MA_CROSSOVER.

Definition advanced_config (req : Data) : BacktestConfig b64 :=
  let x := execution_preset (text_field "execution_preset" req) in
  let sizer := mkPositionSizer (sizing_method (text_field "sizing_method" req)) (float_field "risk_per_trade" req)
                 (nof_ratio 15 100) (float_field "max_position_pct" req) (float_field "max_leverage" req) in
  mkBacktestConfig (texts_of "assets" req) (float_field "initial_capital" req)
    (strategy_config (strategy_kind (text_field "strategy_type" req)) (nat_field "fast_window" req) (nat_field "slow_window" req))
    (mkExecutionConfig (ec_commission x) (ec_slippage x) (ec_spread x) (ec_borrow x) sizer (execution_delay_bars x)
       (flag "allow_short_selling" req) (cash_reserve_pct x) (float_field "max_leverage" req)).

Definition advanced_backtest_body (params : json) : task (TaskResult * json * option trials_arg) :=
  req ← validated schema_advanced params;
  let cfg := advanced_config req in
  let benchmark := text_field "benchmark" req in
  result ← with_download (fromkeys (cfg_assets cfg ++ [benchmark])) (text_field "period" req) (λ r,
    or_422 (run np_mean np_std np_tanh sqrt np_cov (λ _, fetch_data r) cfg benchmark));
  mret (BacktestTaskResult result,
        JObj [("assets", field_json "assets" req); ("strategy", field_json "strategy_type" req); ("period", field_json "period" req)],
        Some (mkTrials (family_hash (strategy_type (cfg_strategy cfg)) (cfg_assets cfg)) [model_dump req] "backtest")).
Definition advanced_backtest (params : json) := uses_market_data (advanced_backtest_body params) params.

(** ** Walk-forward *)

Definition walk_forward_config (req : Data) : WalkForwardConfig b64 :=
  mkWalkForwardConfig (texts_of "assets" req)
    (if String.eqb (text_field "window_type" req) "rolling" then ROLLING else EXPANDING)
    (default 0 (int_field "train_years" req)) (default 0 (int_field "test_years" req)) 1
    (strategy_config MA_CROSSOVER (nat_field "fast_window" req) (nat_field "slow_window" req))
    (execution_preset (text_field "execution_preset" req)) [10; 15; 20; 25; 30]%nat [40; 50; 60; 75; 100]%nat
    (flag "optimize_parameters" req) None.

(** [WalkForwardEngine.run] from its download on. *)
Definition walk_forward_run (cfg : WalkForwardConfig b64) (r : outcome DataError (DataFrame b64))
    : outcome string (WalkForwardResult (F:=b64) * list string) :=
  match r with
  | Raise _ => Raise "Data download failed"
  | Ret data =>
      let panel := aligned_panel data (wf_assets cfg) 101 in
      let! w := walk_forward np_mean np_std np_tanh sqrt cfg (asset_data panel) (tickers panel)
                  (Z.of_nat (length (pp_dates panel))) in
      Ret (w, tickers panel)
  end.

Definition walk_forward_body (params : json) : task (TaskResult * json * option trials_arg) :=
  req ← validated schema_walk_forward params;
  let cfg := walk_forward_config req in
  let period := pretty (default 0 (int_field "total_years" req)) +:+ "y" in
  wa ← with_download (fromkeys (wf_assets cfg)) period (λ r, or_422 (walk_forward_run cfg r));
  let common := (λ k, (k, field_json k req)) <$> ["window_type"; "train_years"; "test_years"; "total_years"; "execution_preset"] in
  mret (WalkForwardTaskResult wa.1 wa.2,
        JObj [("assets", field_json "assets" req); ("window_type", field_json "window_type" req);
              ("n_folds", JInt (Z.of_nat (length (wr_folds wa.1))))],
        Some (mkTrials (family_hash "ma_crossover" (wf_assets cfg))
          ((λ g : nat * nat, JObj (common ++ [("fast_window", JInt (Z.of_nat g.1)); ("slow_window", JInt (Z.of_nat g.2))]))
             <$> parameter_grid cfg) "walk_forward")).
Definition walk_forward_task (params : json) := uses_market_data (walk_forward_body params) params.

(** ** Event-driven backtest *)

Definition event_strategy (req : Data) : EventSimulator.Strategy b64 :=
  if String.eqb (text_field "strategy" req) "momentum" then EventSimulator.Momentum 60 3 3
  else if String.eqb (text_field "strategy" req) "mean_reversion" then EventSimulator.MeanReversion 20 (nof_Z 2)
  else EventSimulator.MACrossover (nat_field "fast_window" req) (nat_field "slow_window" req).

Definition event_sizer (req : Data) : EventSimulator.Sizer b64 :=
  if String.eqb (text_field "sizing_method" req) "volatility_target" then EventSimulator.VolatilityTarget (nof_ratio 15 100) 21
  else EventSimulator.FixedFractional (nof_ratio 2 100).

Definition event_run (req : Data) (r : outcome DataError (DataFrame b64))
    : outcome (option TaskError) (EventSimulator.Performance (F:=b64) * list string) :=
  match r with
  | Raise (MarketDataError why) => Raise (Some (mkTaskError 422 why))
  | Raise _ => Raise (Some (mkTaskError 422 "data error"))
  | Ret raw =>
      let panel := aligned_panel raw (texts_of "assets" req) 60 in
      if bool_decide (tickers panel = []) || (length (pp_dates panel) <? 60)%nat
      then Raise (Some (mkTaskError 422 "No tickers had sufficient data"))
      else
        let closes t := default [] (od_get t (pp_close panel)) in
        let capital := float_field "initial_capital" req in
        let short := flag "allow_short" req in
        match EventSimulator.run_event_backtest np_mean np_std sqrt set_order (tickers panel) closes (event_strategy req) capital
                (text_field "cost_model" req) short (if short then nof_Z 2 else n1) (event_sizer req) with
        | Raise _ => Raise (Some (mkTaskError 500 "Event backtest failed"))
        | Ret s => Ret (EventSimulator.performance np_mean np_std sqrt np_percentile5 capital s, tickers panel)
        end
  end.

Definition event_backtest_body (params : json) : task (TaskResult * json * option trials_arg) :=
  req ← validated schema_event params;
  pa ← with_download (texts_of "assets" req) (text_field "period" req) (event_run req);
  mret (EventTaskResult pa.1 pa.2,
        JObj [("n_assets", JInt (Z.of_nat (length pa.2))); ("strategy", field_json "strategy" req);
              ("cost_model", field_json "cost_model" req)],
        Some (mkTrials (family_hash ("event:" +:+ text_field "strategy" req) (texts_of "assets" req)) [model_dump req] "event_backtest")).
Definition event_backtest (params : json) := uses_market_data (event_backtest_body params) params.
End tasks.

(** * Theorems

    Research tasks: a task given datasets reads those and nothing else, and
    the walk-forward task records every configuration its search evaluated. *)

#[local] Open Scope Z_scope.

Section granted.
Context {F : Type} `{Num F}.
Variable sha256_hex : string → string.
Variable zlib_compress : list string → string.
Variable zlib_decompress : string → Z → option (string * bool * string * string).
Variable loads_other : string → option json.
Variable root : string.
Variable max_bytes : Z.
Variable strip_upper : string → string.
Variable provider : SnapshotRequest → outcome string Snapshot.
Variable today : Z.

Variable ids : list string.
Variable files : gmap string string.

(** A session on given datasets that read nothing else. *)
Definition granted (s : Session) : Prop :=
  ms_dataset_ids s = Some ids ∧ ms_files s = files ∧ ms_snapshots s = [] ∧ ∀ u, u ∈ ms_used s → u ∈ ids.

#[local] Abbreviation raised := (λ (_ : DataError) s, granted s).

Lemma set_unavailable_granted items : triple granted (set_unavailable items) (λ _, granted) raised.
Proof. by apply triple_modify. Qed.

Lemma load_granted id : triple granted (load sha256_hex zlib_decompress loads_other root max_bytes id) (λ _, granted) raised.
Proof.
  intros s Hs. unfold load, mbind, prog_bind, pget. destruct (ms_loaded s !! id); [done|].
  by destruct (DatasetStore.get _ _ _ _ _ _ _ _).
Qed.

Lemma load_all_granted l :
  triple granted (load_all sha256_hex zlib_decompress loads_other root max_bytes l)
    (λ ds s, granted s ∧ ds.*1 = l) raised.
Proof.
  induction l as [|id l IH]; cbn [load_all]; [by apply triple_ret|].
  eapply triple_bind; [apply load_granted|]. intros d. cbn beta. eapply triple_bind; [exact IH|]. intros rest.
  apply triple_ret. intros s [Hs Hr]. split; [done|]. cbn. by rewrite Hr.
Qed.

(** A frame is supplied by datasets it was given. *)
Lemma parts_of_ids ds t parts : parts_of ds t = Ret parts → ∀ id, id ∈ parts.*1 → id ∈ ds.*1.
Proof.
  revert parts. induction ds as [|[id d] ds IH]; intros parts; cbn [parts_of].
  { intros [= <-] id []%not_elem_of_nil. }
  intros (s & _ & (rest & Hr & [= <-])%obind_Ret)%obind_Ret id' Hin.
  destruct s; [apply elem_of_cons in Hin as [->|Hin]; [by left|]|]; right; by eapply IH.
Qed.

Lemma find_all_ids ds names found missing :
  find_all ds names = Ret (found, missing) → ∀ f id, f ∈ found → id ∈ f.2.2 → id ∈ ds.*1.
Proof.
  revert found missing. induction names as [|t names IH]; intros found missing; cbn [find_all].
  { intros [= <- _] f id []%not_elem_of_nil. }
  intros (parts & Hparts & Hrest)%obind_Ret f id Hf Hid. destruct parts as [|p parts].
  - apply obind_Ret in Hrest as ([f' m] & Hf' & [= <- _]). by eapply IH.
  - apply obind_Ret in Hrest as (s & _ & ([f' m] & Hf' & [= <- _])%obind_Ret).
    apply elem_of_cons in Hf as [->|Hf]; [by eapply parts_of_ids|by eapply IH].
Qed.

Lemma in_period_supplied start (found : list (string * (Series * list string))) cols late :
  in_period (F:=F) start found = Ret (cols, late) → ∀ c, c ∈ cols → ∃ f, f ∈ found ∧ c.2 = f.2.2.
Proof.
  revert cols late. induction found as [|[t [s l]] found IH]; intros cols late; cbn [in_period].
  { intros [= <- _] c []%not_elem_of_nil. }
  intros (rows & _ & ([c' l'] & Hr & Hc)%obind_Ret)%obind_Ret c Hin. cbn [fst snd] in Hc.
  assert (c ∈ c' ∨ c.2 = l) as [Hc'| ->].
  { destruct (filter _ rows); injection Hc as <- <-; [by left|]. apply elem_of_cons in Hin as [->|?]; [by right|by left]. }
  - destruct (IH c' l' Hr c Hc') as (f & ? & ?). exists f. split; [by right|done].
  - exists (t, (s, l)). split; [by left|done].
Qed.

Lemma frame_used ds names period (frame : DataFrame F) used missing :
  frame_from ds names period = Ret (frame, used, missing) → ∀ u, u ∈ used → u ∈ ds.*1.
Proof.
  unfold frame_from. intros ([found miss] & Hf & ([cols late] & Hs & Hr)%obind_Ret)%obind_Ret u.
  destruct cols as [|c cols]; [done|]. remember (c :: cols) as columns eqn:Ecol. injection Hr as _ <- _.
  rewrite merge_sort_Permutation, elem_of_remove_dups, list_elem_of_In, in_concat. intros (l & Hl & Hu).
  apply list_elem_of_In in Hl, Hu. apply list_elem_of_fmap in Hl as (x & -> & Hx).
  destruct found as [|f found]; [injection Hs as H1 _; by rewrite Ecol in H1|].
  apply obind_Ret in Hs as (start & _ & Hs). destruct (in_period_supplied _ _ _ _ Hs x Hx) as (g & Hg & Eg).
  rewrite Eg in Hu. by eapply find_all_ids.
Qed.

Lemma download_granted names period :
  triple granted
    (download (F:=F) sha256_hex zlib_compress zlib_decompress loads_other root max_bytes strip_upper provider today names period)
    (λ _, granted) raised.
Proof.
  unfold download. cbn zeta. apply triple_read. intros s0 Hs0. destruct Hs0 as (Hids & Hrest). rewrite Hids.
  eapply triple_bind; [eapply triple_conseq; [apply load_all_granted|intros s ->; by split|done|done]|].
  intros sources. cbn beta. destruct (frame_from sources _ period) as [[[frame used] missing]|e] eqn:E.
  - unfold plift. intros s [Hs Hl]. unfold mbind, prog_bind, pmodify, set_unavailable, mret, prog_ret. cbn.
    destruct Hs as (? & ? & ? & Hu). split_and!; try done. cbn. intros u [?|Hin]%elem_of_app; [by apply Hu|].
    rewrite <- Hl. by eapply frame_used.
  - by intros s [Hs _].
Qed.
End granted.

(** ** The search *)

Section search.
Context {F : Type} `{Num F}.
Variable np_mean : list F → F.
Variable np_std : nat → list F → F.
Variable np_tanh : F → F.
Variable sqrt : F → F.

Lemma search_in_grid cfg data assets fold grid best fast slow fs :
  search np_mean np_std np_tanh sqrt cfg data assets fold grid best fast slow = Ret fs → fs = (fast, slow) ∨ fs ∈ grid.
Proof.
  revert best fast slow. induction grid as [|[fw sw] grid IH]; intros best fast slow; cbn [search]; [intros [= <-]; by left|].
  intros (m & _ & Hs)%obind_Ret. cbn zeta in Hs.
  destruct (match best with None => _ | Some b => _ end); destruct (IH _ _ _ Hs) as [->|?]; first [by left|right; by left|right; by right].
Qed.

Lemma best_windows_evaluated cfg data assets fold fs :
  best_windows np_mean np_std np_tanh sqrt cfg data assets fold = Ret fs →
  fs ∈ parameter_grid cfg ∨ fs = (fast_window (wf_strategy cfg), slow_window (wf_strategy cfg)).
Proof.
  unfold best_windows. cbn zeta. destruct (optimize_parameters cfg).
  - intros [?|?]%search_in_grid; [by right|by left].
  - intros [= <-]. by right.
Qed.

Lemma folds_evaluated cfg data assets n w :
  walk_forward np_mean np_std np_tanh sqrt cfg data assets n = Ret w →
  wr_trials w = Z.of_nat (length (parameter_grid cfg)) ∧
  ∀ r, r ∈ wr_folds w → (fr_best_fast r, fr_best_slow r) ∈ parameter_grid cfg ∨
                         (fr_best_fast r, fr_best_slow r) = (fast_window (wf_strategy cfg), slow_window (wf_strategy cfg)).
Proof.
  unfold walk_forward. destruct assets as [|a assets]; [done|]. destruct (folds_of cfg n) as [|f folds]; [done|].
  generalize (f :: folds) as fs. intros fs (results & Hr & [= <-])%obind_Ret. cbn [wr_trials wr_folds]. split; [done|].
  revert results Hr. clear f folds. induction fs as [|f fs IH]; intros results; cbn [run_folds].
  { intros [= <-] r []%not_elem_of_nil. }
  intros (x & Hx & (rs & Hrs & [= <-])%obind_Ret)%obind_Ret r [->|Hin]%elem_of_cons; [|by apply (IH rs)].
  unfold run_fold in Hx. apply obind_Ret in Hx as ([fast slow] & Hb & (oos & _ & (tr & _ & [= <-])%obind_Ret)%obind_Ret).
  cbn [fr_best_fast fr_best_slow]. by eapply best_windows_evaluated.
Qed.
End search.

Section tasks.
Variable np_mean : list b64 → b64.
Variable np_std : nat → list b64 → b64.
Variable np_tanh : b64 → b64.
Variable sqrt : b64 → b64.
Variable np_cov : list b64 → list b64 → b64 * b64.
Variable np_percentile5 : list b64 → b64.
Variable set_order : list string → list string.
Variable lax_int : json → option Z.
Variable lax_float : json → option b64.
Variable lax_bool : json → option bool.
Variable nan_in_bounds : bool.
Variable strip_other : string → string.
Variable upper_other : string → string.
Variable sha256_hex : string → string.
Variable zlib_compress : list string → string.
Variable zlib_decompress : string → Z → option (string * bool * string * string).
Variable loads_other : string → option json.
Variable root : string.
Variable max_bytes : Z.
Variable provider : SnapshotRequest → outcome string Snapshot.
Variable today : Z.
Variable digest : json → string.

#[local] Abbreviation ma := (ma_backtest np_mean np_std np_tanh sqrt np_cov lax_int strip_other upper_other sha256_hex
  zlib_compress zlib_decompress loads_other root max_bytes provider today digest).
#[local] Abbreviation advanced := (advanced_backtest np_mean np_std np_tanh sqrt np_cov lax_int lax_float lax_bool nan_in_bounds
  strip_other upper_other sha256_hex zlib_compress zlib_decompress loads_other root max_bytes provider today digest).
#[local] Abbreviation walk := (walk_forward_task np_mean np_std np_tanh sqrt lax_int lax_bool strip_other upper_other sha256_hex
  zlib_compress zlib_decompress loads_other root max_bytes provider today digest).
#[local] Abbreviation event := (event_backtest np_mean np_std sqrt np_percentile5 set_order lax_int lax_float lax_bool nan_in_bounds
  strip_other upper_other sha256_hex zlib_compress zlib_decompress loads_other root max_bytes provider today digest).

Section body.
Variable ids : list string.
Variable files : gmap string string.

#[local] Abbreviation body_ok m := (triple (granted ids files) m (λ _, granted ids files) (λ _, granted ids files)).

Lemma validated_granted s params : body_ok (validated s params).
Proof. unfold validated. destruct (model_validate s params); [by apply triple_ret|]. by intros st Hs. Qed.

Lemma with_download_granted {A} names period (engine : outcome DataError (DataFrame b64) → outcome (option TaskError) A) :
  body_ok (with_download strip_other upper_other sha256_hex zlib_compress zlib_decompress loads_other root max_bytes provider today
             names period engine).
Proof.
  intros s Hs. unfold with_download, data_download.
  pose proof (download_granted (F:=b64) sha256_hex zlib_compress zlib_decompress loads_other root max_bytes
                (strip_upper strip_other upper_other) provider today ids files names period s Hs) as Hd.
  destruct (download _ _ _ _ _ _ _ _ _ _ _ s) as [s' r]. destruct r, (engine _); done.
Qed.

Lemma uses_market_data_granted {R} (body : prog Session (option TaskError) (R * json * option trials_arg)) params :
  requested_ids params = Some ids → ids ≠ [] → body_ok body →
  granted ids files (uses_market_data body params files).1 ∧
  ∀ out, (uses_market_data body params files).2 = Ret out →
    to_market_data out = record (uses_market_data body params files).1.
Proof.
  intros Hr Hne Hb. unfold uses_market_data. rewrite Hr.
  assert (granted ids files (open_session (Some ids) files)) as Hopen by (destruct ids; [done|]; split_and!; try done; by intros u []%not_elem_of_nil).
  specialize (Hb _ Hopen). destruct (body (open_session (Some ids) files)) as [s [[[res audit] trials]|e]]; cbn [fst snd] in *.
  - split; [done|]. by intros out [= <-].
  - by split.
Qed.

Lemma reads_granted {R} (body : prog Session (option TaskError) (R * json * option trials_arg)) params :
  requested_ids params = Some ids → ids ≠ [] → body_ok body →
  ms_files (uses_market_data body params files).1 = files ∧
  ∀ out, (uses_market_data body params files).2 = Ret out →
    let m := to_market_data out in
    mr_source m = "datasets" ∧ mr_snapshots m = [] ∧ ∀ d, d ∈ mr_datasets m → d ∈ ids.
Proof.
  intros Hids Hne Hbody. destruct (uses_market_data_granted body params Hids Hne Hbody) as [(Hi & Hf & Hs & Hu) Hout].
  split; [done|]. intros out Ho. cbn zeta. rewrite (Hout out Ho). unfold record. cbn [mr_source mr_snapshots mr_datasets]. rewrite Hi.
  split_and!; [done..|]. intros d. rewrite merge_sort_Permutation, elem_of_remove_dups. apply Hu.
Qed.
End body.

Ltac body_granted :=
  eapply triple_bind; [apply validated_granted|]; intros ?; cbn beta zeta;
  eapply triple_bind; [apply with_download_granted|]; intros ?; by apply triple_ret.


(** A trial's configuration, by its windows. *)
Definition configures (c : json) (fast slow : nat) : Prop :=
  ∃ common, c = JObj (common ++ [("fast_window", JInt (Z.of_nat fast)); ("slow_window", JInt (Z.of_nat slow))]).

(** The walk-forward task records what its search tried. The trials it
    hands to the ledger are as many as its result says it evaluated, one per
    pair of windows in the grid, under the family of its assets; and the
    windows each fold was tested with are among them, unless the search kept
    the requested ones because no candidate had a Sharpe ratio. *)
Theorem walk_forward_records_trials params files out :
  (walk params files).2 = Ret out →
  ∃ w assets req trials, to_result out = WalkForwardTaskResult w assets ∧ to_trials out = Some trials ∧
    model_validate (schema_walk_forward lax_int lax_bool strip_other upper_other) params = Some req ∧
    let cfg := walk_forward_config req in
    ta_family trials = family_hash strip_other upper_other digest "ma_crossover" (wf_assets cfg) ∧
    Z.of_nat (length (ta_configs trials)) = wr_trials w ∧
    (∀ g, g ∈ parameter_grid cfg → ∃ c, c ∈ ta_configs trials ∧ configures c g.1 g.2) ∧
    ∀ r, r ∈ wr_folds w →
      (∃ c, c ∈ ta_configs trials ∧ configures c (fr_best_fast r) (fr_best_slow r)) ∨
      (fr_best_fast r, fr_best_slow r) = (fast_window (wf_strategy cfg), slow_window (wf_strategy cfg)).
Proof.
  unfold walk_forward_task, uses_market_data. set (s0 := open_session _ _). unfold walk_forward_body.
  destruct (model_validate (schema_walk_forward _ _ _ _) params) as [req|] eqn:Ev; unfold validated; rewrite Ev; [|done].
  unfold mbind, prog_bind, mret, prog_ret. cbn beta iota zeta. unfold with_download.
  destruct (data_download _ _ _ _ _ _ _ _ _ _ _ _ s0) as [s r]. unfold or_422. set (cfg := walk_forward_config req).
  destruct (walk_forward_run _ _ _ _ cfg r) as [[w assets]|why] eqn:Ew; [|done]. cbn [snd fst].
  intros [= <-]. exists w, assets, req. eexists. cbn [to_result to_trials ta_family ta_configs].
  unfold walk_forward_run in Ew. destruct r as [data|e]; [|done]. apply obind_Ret in Ew as (w' & Hw & [= -> <-]).
  destruct (folds_evaluated _ _ _ _ _ _ _ _ _ Hw) as [Ht Hf].
  assert (∀ g, g ∈ parameter_grid cfg → ∃ c, c ∈ (λ g : nat * nat, JObj (((λ k, (k, field_json k req)) <$>
     ["window_type"; "train_years"; "test_years"; "total_years"; "execution_preset"]) ++
     [("fast_window", JInt (Z.of_nat g.1)); ("slow_window", JInt (Z.of_nat g.2))])) <$> parameter_grid cfg ∧ configures c g.1 g.2) as Hg.
  { intros g Hin. eexists. split; [by apply list_elem_of_fmap_2|]. by eexists. }
  split_and!; [done..| |exact Hg|].
  - cbn [ta_configs]. rewrite length_fmap. by rewrite Ht.
  - intros r' [Hin|E]%Hf; [left|by right]. by apply (Hg (_, _)).
Qed.
End tasks.

(** A job naming one dataset the server has lost is refused, and neither asks
    the provider nor writes a file. *)
Definition lost_dataset : string := DATASET_SCHEME +:+ ":0123456789abcdef0123456789abcdef0123456789abcdef0123456789abcdef".
Definition sample_job : json :=
  JObj [("asset", JStr "SPY"); ("period", JStr "1y"); ("dataset_ids", JArr [JStr lost_dataset])].

