(* ===== verification/Vectors.v ===== *)
(** What the numerical engines use of NumPy and of Python's sorting: vectors
    are lists, the reductions whose order of operations the library chooses
    are the operations of a class, with the laws they have in exact
    arithmetic. *)

From Stdlib Require Import QArith Qabs Lqa.
From stdpp Require Import sorting.
From S2P Require Import Prelude Numeric.

(** ** The library *)

Class NumPy (F : Type) := {
  np_sum : list F → F;
  np_dot : list F → list F → F;          (* [a @ b] of two vectors *)
  np_mean : list F → F;
  np_std : nat → list F → F;             (* with [ddof] *)
  np_percentile : list F → F → F;
  np_argsort : list F → list nat;        (* ties in an order of its own *)
  m_sqrt : F → F;
  m_exp : F → F;
  m_log : F → F;
  m_pow : F → F → F;
  m_erf : F → F
}.

(** Documented behaviour of the reductions, in exact arithmetic. *)
Definition qdot (xs ys : list Q) : Q := qsum (zip_with Qmult xs ys).
Class NumPyExact `{NumPy Q} : Prop := {
  np_sum_exact xs : (np_sum xs == qsum xs)%Q;
  np_dot_exact xs ys : (np_dot xs ys == qdot xs ys)%Q;
  np_argsort_perm xs : np_argsort xs ≡ₚ seq 0 (length xs);
  np_argsort_sorted xs : StronglySorted (λ i j, (default 0 (xs !! i) <= default 0 (xs !! j))%Q) (np_argsort xs)
}.

Section vectors.
Context {F : Type} `{Num F} `{NumPy F}.

(** [a + b], [a - b], [a * b], [c * a] and [m @ v]. *)
Definition vadd (xs ys : list F) : list F := zip_with nadd xs ys.
Definition vsub (xs ys : list F) : list F := zip_with nsub xs ys.
Definition vmul (xs ys : list F) : list F := zip_with nmul xs ys.
Definition vscale (c : F) (xs : list F) : list F := (λ x, c ⊗ x) <$> xs.
Definition vdiv (xs : list F) (c : F) : list F := (λ x, x ⊘ c) <$> xs.
Definition matvec (m : list (list F)) (xs : list F) : list F := (λ row, np_dot row xs) <$> m.
Definition at_ (xs : list F) (i : nat) : F := default n0 (xs !! i).

(** [np.clip(x, lower, upper)] *)
Definition clip (lower upper x : F) : F := nmin (nmax x lower) upper.

(** [np.max], [np.min] of a vector that is not empty. *)
Definition vmax (xs : list F) : F := match xs with [] => n0 | x :: xs => foldl nmax x xs end.
Definition vmin (xs : list F) : F := match xs with [] => n0 | x :: xs => foldl nmin x xs end.

(** [np.argmax]: the first of the largest. *)
Fixpoint argmax_from (best : F) (at_best i : nat) (xs : list F) : nat :=
  match xs with
  | [] => at_best
  | x :: xs => if best <.? x then argmax_from x i (S i) xs else argmax_from best at_best (S i) xs
  end.
Definition argmax (xs : list F) : nat :=
  match xs with [] => 0 | x :: xs => argmax_from x 0 1 xs end.
End vectors.

(** ** [sorted(xs, key=...)]: stable *)

Section sorted.
Context {A F : Type} `{Num F}.
Variable key : A → F.

Fixpoint insert_key (x : A) (xs : list A) : list A :=
  match xs with
  | [] => [x]
  | y :: ys => if key x <.? key y then x :: xs else y :: insert_key x ys
  end.
Definition sort_key (xs : list A) : list A := foldl (λ acc x, insert_key x acc) [] xs.

Lemma insert_key_perm x xs : insert_key x xs ≡ₚ x :: xs.
Proof.
  induction xs as [|y ys IH]; [done|]. cbn [insert_key]. destruct (key x <.? key y); [done|].
  rewrite IH. apply Permutation_swap.
Qed.

Lemma sort_key_perm xs : sort_key xs ≡ₚ xs.
Proof.
  unfold sort_key. assert (∀ acc, foldl (λ acc x, insert_key x acc) acc xs ≡ₚ acc ++ xs) as Hf; [|by apply (Hf [])].
  induction xs as [|x xs IH]; intros acc; cbn [foldl]; [by rewrite app_nil_r|].
  rewrite IH, insert_key_perm. by rewrite <- Permutation_middle.
Qed.
End sorted.

Lemma insert_key_sorted {A} (key : A → Q) x xs :
  StronglySorted (λ a b, (key a <= key b)%Q) xs → StronglySorted (λ a b, (key a <= key b)%Q) (insert_key key x xs).
Proof.
  induction 1 as [|y ys Hs IH Hy]; cbn [insert_key]; [repeat constructor|].
  destruct (key x <.? key y) eqn:E; qsimpl.
  - constructor; [by constructor|]. constructor; [lra|]. eapply Forall_impl; [exact Hy|]. cbn. intros z Hz. lra.
  - constructor; [done|]. rewrite insert_key_perm. constructor; [lra|done].
Qed.

Lemma sort_key_sorted {A} (key : A → Q) xs : StronglySorted (λ a b, (key a <= key b)%Q) (sort_key key xs).
Proof. apply (foldl_invariant (StronglySorted (λ a b, (key a <= key b)%Q))); [constructor|]. intros; by apply insert_key_sorted. Qed.

(** ** The exact instance *)

Section exact.
#[local] Open Scope Q_scope.

Lemma square_nonneg_Q (x : Q) : 0 <= x * x.
Proof. destruct (Qlt_le_dec x 0); nra. Qed.

Lemma clip_Q lower upper x : lower <= upper → lower <= clip lower upper x ∧ clip lower upper x <= upper.
Proof.
  intros Hl. unfold clip. destruct (nmax_Q x lower) as (? & ? & _).
  destruct (nmin_Q (nmax x lower) upper) as (? & ? & [E|E]); rewrite E in *; split; lra.
Qed.

Lemma clip_inside lower upper x : lower <= x → x <= upper → clip lower upper x == x.
Proof.
  intros Hl Hu. unfold clip, nmax, nmin. destruct (x <.? lower) eqn:E1; qsimpl; [lra|].
  destruct (upper <.? x) eqn:E2; qsimpl; lra.
Qed.

Lemma clip_mono lower upper x y : x <= y → clip lower upper x <= clip lower upper y.
Proof.
  intros Hxy. unfold clip, nmax, nmin.
  destruct (x <.? lower) eqn:E1, (y <.? lower) eqn:E2; qsimpl;
    repeat match goal with |- context [?a <.? ?b] => let E := fresh "E" in destruct (a <.? b) eqn:E end; qsimpl; lra.
Qed.

Lemma clip_lipschitz lower upper x y : lower <= upper → x <= y → clip lower upper y - clip lower upper x <= y - x.
Proof.
  intros Hlu Hxy. unfold clip, nmax, nmin.
  destruct (x <.? lower) eqn:E1, (y <.? lower) eqn:E2; qsimpl;
    repeat match goal with |- context [?a <.? ?b] => let E := fresh "E" in destruct (a <.? b) eqn:E end; qsimpl; lra.
Qed.

Lemma vmax_Q (xs : list Q) x : x ∈ xs → x <= vmax xs.
Proof.
  destruct xs as [|y ys]; [by intros []%not_elem_of_nil|]. cbn [vmax].
  assert (∀ l a, a <= foldl nmax a l ∧ ∀ z, z ∈ l → z <= foldl nmax a l) as Hf.
  { clear. induction l as [|z l IH]; intros a; cbn; [split; [lra|by intros ? []%not_elem_of_nil]|].
    destruct (IH (nmax a z)) as [H1 H2], (nmax_Q a z) as (? & ? & _). split; [lra|].
    intros w [->|Hw]%elem_of_cons; [lra|by apply H2]. }
  intros [->|Hx]%elem_of_cons; [exact (proj1 (Hf ys y))|exact (proj2 (Hf ys y) x Hx)].
Qed.

Lemma vmin_Q (xs : list Q) x : x ∈ xs → vmin xs <= x.
Proof.
  destruct xs as [|y ys]; [by intros []%not_elem_of_nil|]. cbn [vmin].
  assert (∀ l a, foldl nmin a l <= a ∧ ∀ z, z ∈ l → foldl nmin a l <= z) as Hf.
  { clear. induction l as [|z l IH]; intros a; cbn; [split; [lra|by intros ? []%not_elem_of_nil]|].
    destruct (IH (nmin a z)) as [H1 H2], (nmin_Q a z) as (? & ? & _). split; [lra|].
    intros w [->|Hw]%elem_of_cons; [lra|by apply H2]. }
  intros [->|Hx]%elem_of_cons; [exact (proj1 (Hf ys y))|exact (proj2 (Hf ys y) x Hx)].
Qed.

(** The place [argmax] answers is in the vector, and its entry is maximal. *)
Lemma argmax_from_Q (xs pre : list Q) best k :
  (k < length pre)%nat → pre !! k = Some best → (∀ x, x ∈ pre → x <= best) →
  let i := argmax_from best k (length pre) xs in
  ∃ m, (pre ++ xs) !! i = Some m ∧ ∀ x, x ∈ pre ++ xs → x <= m.
Proof.
  revert pre best k. induction xs as [|x xs IH]; intros pre best k Hk Hbest Hle; cbn [argmax_from].
  { exists best. rewrite app_nil_r. done. }
  destruct (best <.? x) eqn:E; qsimpl.
  - specialize (IH (pre ++ [x]) x (length pre)). rewrite length_app, Nat.add_1_r, <- app_assoc in IH. apply IH; [lia| |].
    + by apply list_lookup_middle.
    + intros y [Hy|Hy]%elem_of_app; [specialize (Hle y Hy); lra|]. apply list_elem_of_singleton in Hy as ->. lra.
  - specialize (IH (pre ++ [x]) best k). rewrite length_app, Nat.add_1_r, <- app_assoc in IH. apply IH; [lia| |].
    + by rewrite lookup_app_l by lia.
    + intros y [Hy|Hy]%elem_of_app; [by apply Hle|]. apply list_elem_of_singleton in Hy as ->. lra.
Qed.

Lemma argmax_Q (xs : list Q) : xs ≠ [] → ∃ m, xs !! argmax xs = Some m ∧ ∀ x, x ∈ xs → x <= m.
Proof.
  destruct xs as [|x xs]; [done|]. intros _. cbn [argmax].
  apply (argmax_from_Q xs [x] x 0); [cbn; lia|done|]. intros y Hy%list_elem_of_singleton. subst. lra.
Qed.
End exact.

(** ** A library for the witnesses *)

Definition sorted_places (xs : list Q) : list nat := fst <$> sort_key snd (zip (seq 0 (length xs)) xs).

#[global] Instance NumPy_Q : NumPy Q := {
  np_sum := qsum;
  np_dot := qdot;
  np_mean xs := (qsum xs / inject_Z (Z.of_nat (length xs)))%Q;
  np_std _ _ := 1%Q;
  np_percentile xs _ := default 0%Q (head xs);
  np_argsort := sorted_places;
  m_sqrt _ := 1%Q;
  m_exp _ := 1%Q;
  m_log x := (x - 1)%Q;
  m_pow x _ := x;
  m_erf _ := 0%Q
}.

#[global] Instance NumPyExact_Q : NumPyExact.
Proof.
  assert (∀ xs : list Q, Forall (λ ix, xs !! ix.1 = Some ix.2) (zip (seq 0 (length xs)) xs)) as Hplaces.
  { intros xs. apply Forall_lookup. intros k [i x] Hk. apply lookup_zip_Some in Hk as [Hi Hx]. cbn in *.
    apply lookup_seq in Hi as [-> ?]. done. }
  split.
  - intros xs. reflexivity.
  - intros xs ys. reflexivity.
  - intros xs. cbn. unfold sorted_places. rewrite sort_key_perm. rewrite fst_zip; [done|]. by rewrite length_seq.
  - intros xs. cbn. unfold sorted_places.
    pose proof (sort_key_sorted (@snd nat Q) (zip (seq 0 (length xs)) xs)) as Hs.
    assert (Forall (λ ix, xs !! ix.1 = Some ix.2) (sort_key (@snd nat Q) (zip (seq 0 (length xs)) xs))) as Hf
      by (rewrite sort_key_perm; apply Hplaces).
    induction Hs as [|[i x] l Hs IH Hx]; [constructor|]. apply Forall_cons in Hf as [Hi Hf]. cbn [fmap list_fmap fst].
    constructor; [by apply IH|]. apply Forall_forall. intros j Hj. apply list_elem_of_fmap in Hj as ([j' y] & -> & Hy).
    rewrite Forall_forall in Hf, Hx. specialize (Hf _ Hy). specialize (Hx _ Hy). cbn in *. by rewrite Hi, Hf.
Qed.
