(* ===== verification/StatTests.v ===== *)
(** backend/services/stat_tests.py: the tests a strategy's returns are put to.
    Random draws come from a generator seeded in each function: the [i]-th draw
    is a parameter. Sentences of interpretation are left out. *)

From Stdlib Require Import QArith Qabs Lqa.
From stdpp Require Import sorting.
From S2P Require Import Prelude Numeric StrategySignals RiskMetrics Vectors.
#[local] Open Scope nat_scope.

Section tests.
Context {F : Type} `{Num F} `{NumPy F}.
(** [rng.choice(returns, size=n, replace=True)] and the signs of a replicate. *)
Variable resample : nat → list F → list F.
Variable random_signs : nat → nat → list F.
(** [np.median], [NormalDist().inv_cdf] and [math.e]. *)
Variable np_median : list F → F.
Variable inv_cdf : F → F.
Variable m_e : F.

Definition of_nat (n : nat) : F := nof_Z (Z.of_nat n).
Definition pico : F := nof_ratio 1 1000000000000.
Definition nano : F := nof_ratio 1 1000000000.
Definition annual : F := m_sqrt (nof_Z 252).
Definition five_percent : F := nof_ratio 5 100.
Definition one_percent : F := nof_ratio 1 100.

Definition normal_cdf (x : F) : F := nof_ratio 1 2 ⊗ (n1 ⊕ m_erf (x ⊘ m_sqrt (nof_Z 2))).

(** Wilson and Hilferty's approximation. *)
Definition chi2_sf (x : F) (df : nat) : F :=
  if x <=.? n0 then n1
  else if df =? 0 then n0
  else
    let d := of_nat df in
    let third := n1 ⊘ nof_Z 3 in
    if 30 <? df then
      let v := nof_Z 2 ⊘ (nof_Z 9 ⊗ d) in
      n1 ⊖ normal_cdf ((m_pow (x ⊘ d) third ⊖ (n1 ⊖ v)) ⊘ m_sqrt v)
    else
      let a := d ⊘ nof_Z 2 in
      let v := n1 ⊘ (nof_Z 9 ⊗ a) in
      n1 ⊖ normal_cdf ((m_pow (x ⊘ (nof_Z 2 ⊗ a)) third ⊖ (n1 ⊖ v)) ⊘ m_sqrt v).

(** [returns - mean] *)
Definition centred (xs : list F) : list F := let m := np_mean xs in (λ x, x ⊖ m) <$> xs.
Definition squares (xs : list F) : list F := (λ x, x ⊗ x) <$> xs.

Definition skewness (xs : list F) : F :=
  if length xs <? 3 then n0
  else
    let m2 := np_sum (squares (centred xs)) ⊘ of_nat (length xs) in
    let m3 := np_sum ((λ d, m_pow d (nof_Z 3)) <$> centred xs) ⊘ of_nat (length xs) in
    if m2 <.? pico then n0 else m3 ⊘ m_pow m2 (nof_ratio 3 2).

Definition kurtosis (xs : list F) : F :=
  if length xs <? 4 then nof_Z 3
  else
    let m2 := np_sum (squares (centred xs)) ⊘ of_nat (length xs) in
    let m4 := np_sum ((λ d, m_pow d (nof_Z 4)) <$> centred xs) ⊘ of_nat (length xs) in
    if m2 <.? pico then nof_Z 3 else m4 ⊘ (m2 ⊗ m2).

(** ** Newey-West *)

(** [a[lag:] * b[:-lag]] *)
Definition lagged (lag : nat) (xs : list F) : list F := vmul (drop lag xs) (take (length xs - lag) xs).

Definition newey_west_se (returns : list F) (max_lag : option nat) : F :=
  let n := length returns in
  if n <? 5 then (if 1 <? n then np_std 1 returns ⊘ m_sqrt (of_nat n) else n0)
  else
    let lags :=
      match max_lag with
      | Some l => l
      | None => max 1 (int_below n (nof_Z 4 ⊗ m_pow (of_nat n ⊘ nof_Z 100) (nof_Z 2 ⊘ nof_Z 9)))
      end in
    let resid := centred returns in
    let gamma_0 := np_sum (squares resid) ⊘ of_nat n in
    let nw_var := foldl (λ v lag,
        let weight := n1 ⊖ of_nat lag ⊘ of_nat (lags + 1) in
        v ⊕ nof_Z 2 ⊗ weight ⊗ (np_sum (lagged lag resid) ⊘ of_nat n)) gamma_0 (seq 1 lags) in
    m_sqrt (nmax nw_var pico ⊘ of_nat n).

(** A result that was refused has no annualised mean. *)
Record TTest := mkTTest {
  tt_t_stat : F; tt_p_value : F; tt_mean : F; tt_se : F; tt_n : nat; tt_significant_5pct : bool;
  tt_significant_1pct : bool; tt_method : string; tt_annualized_mean : option F
}.

Definition ttest_mean_return (returns : list F) (use_nw : bool) : TTest :=
  let n := length returns in
  if n <? 5 then mkTTest n0 n1 n0 n0 n false false "insufficient_data" None
  else
    let mean := np_mean returns in
    let se := if use_nw then newey_west_se returns None else np_std 1 returns ⊘ m_sqrt (of_nat n) in
    let method := if use_nw then "newey_west" else "ols" in
    if se <.? pico then mkTTest n0 n1 mean n0 n false false method None
    else
      let t_stat := mean ⊘ se in
      let p_value := nof_Z 2 ⊗ normal_cdf (nopp (nabs t_stat)) in
      mkTTest (nround t_stat 4) (nround p_value 6) (nround mean 6) (nround se 6) n (p_value <.? five_percent)
        (p_value <.? one_percent) method (Some (nround (mean ⊗ nof_Z 252) 4)).

(** ** Bootstrap *)

Record Bootstrap := mkBootstrap {
  bo_sharpe : F; bo_ci_lower : F; bo_ci_upper : F; bo_se : F; bo_n_bootstrap : nat;
  (* mean, median and the percentiles 5, 25, 75, 95 *)
  bo_distribution : list F; bo_probability_positive : option F
}.

(** The annualised Sharpe ratio, with the deviation floored. *)
Definition floored_sharpe (xs : list F) : F := np_mean xs ⊘ nmax (np_std 1 xs) nano ⊗ annual.

Definition bootstrap_sharpe_ci (returns : list F) (n_bootstrap : nat) (ci_level : F) : Bootstrap :=
  if length returns <? 10 then mkBootstrap n0 n0 n0 n0 0 [] None
  else
    let samples := (λ i,
        let sample := resample i returns in
        let std := np_std 1 sample in
        if std <.? nano then n0 else np_mean sample ⊘ std ⊗ annual) <$> seq 0 n_bootstrap in
    let alpha := (n1 ⊖ ci_level) ⊘ nof_Z 2 in
    let pct q := np_percentile samples q in
    mkBootstrap (nround (floored_sharpe returns) 4) (nround (pct (alpha ⊗ nof_Z 100)) 4)
      (nround (pct ((n1 ⊖ alpha) ⊗ nof_Z 100)) 4) (nround (np_std 0 samples) 4) n_bootstrap
      (nround (np_mean samples) 4 :: nround (np_median samples) 4 :: ((λ q, nround (pct (nof_Z q)) 4) <$> [5; 25; 75; 95]%Z))
      (Some (nround (np_mean ((λ s, if s >.? n0 then n1 else n0) <$> samples)) 4)).

(** ** Permutation *)

Record Permuted := mkPermuted {
  pm_observed_sharpe : F; pm_p_value : F; pm_n_permutations : nat;
  pm_significant_5pct : bool; pm_significant_1pct : bool; pm_count_exceeding : nat
}.

Definition permutation_test (returns : list F) (n_permutations : nat) : Permuted :=
  if length returns <? 10 then mkPermuted n0 n1 0 false false 0
  else
    let observed := floored_sharpe returns in
    let exceeding := filter (λ i,
        (floored_sharpe (vmul returns (random_signs i (length returns))) >=.? observed) = true) (seq 0 n_permutations) in
    let p_value := of_nat (length exceeding + 1) ⊘ of_nat (n_permutations + 1) in
    mkPermuted (nround observed 4) (nround p_value 6) n_permutations (p_value <.? five_percent) (p_value <.? one_percent)
      (length exceeding).

(** ** Ljung-Box *)

Record LjungBox := mkLjungBox {
  lb_test_statistic : F; lb_p_value : F; lb_autocorrelations : list F; lb_significant : bool
}.

Definition ljung_box_test (returns : list F) (max_lag : nat) : LjungBox :=
  let n := length returns in
  if n <? max_lag + 5 then mkLjungBox n0 n1 [] false
  else
    let resid := centred returns in
    let var := np_sum (squares resid) ⊘ of_nat n in
    if var <.? pico then mkLjungBox n0 n1 [] false
    else
      let rk lag := np_sum (lagged lag resid) ⊘ (of_nat n ⊗ var) in
      let q := foldl (λ q lag, q ⊕ rk lag ⊗ rk lag ⊘ of_nat (n - lag)) n0 (seq 1 max_lag) in
      let q := q ⊗ of_nat (n * (n + 2)) in
      let p_value := chi2_sf q max_lag in
      mkLjungBox (nround q 4) (nround p_value 6) ((λ lag, nround (rk lag) 4) <$> seq 1 max_lag) (p_value <.? five_percent).

(** ** Multiple tests *)

Record Correction := mkCorrection { co_significant : list nat; co_adjusted : list F; co_n_tests : nat }.

Definition bonferroni_correction (p_values : list F) (alpha : F) : Correction :=
  match p_values with
  | [] => mkCorrection [] [] 0
  | _ =>
      let m := length p_values in
      let adjusted_alpha := alpha ⊘ of_nat m in
      mkCorrection (fst <$> filter (λ ip, (ip.2 <.? adjusted_alpha) = true) (zip (seq 0 m) p_values))
        ((λ p, nround (nmin (p ⊗ of_nat m) n1) 6) <$> p_values) m
  end.

(** The loop over the ranks, the largest first: the last adjusted value, the
    adjusted values by index, and the significant indices. *)
Definition bh_step (alpha : F) (m : nat) (x : nat * (nat * F)) (s : F * list F * list nat) : F * list F * list nat :=
  let '(rank, (orig_idx, p)) := x in
  let '(prev_adj, adjusted, significant) := s in
  let adj_p := nmin prev_adj (p ⊗ of_nat m ⊘ of_nat rank) in
  (adj_p, <[orig_idx := adj_p]> adjusted, if adj_p <.? alpha then significant ++ [orig_idx] else significant).

Definition benjamini_hochberg (p_values : list F) (alpha : F) : Correction :=
  let m := length p_values in
  let indexed := sort_key snd (zip (seq 0 m) p_values) in
  let '(_, adjusted, significant) :=
    foldr (bh_step alpha m) (n1, replicate m n0, []) (zip (seq 1 m) indexed) in
  mkCorrection (merge_sort Nat.le significant) ((λ p, nround p 6) <$> adjusted) m.

(** ** Deflated Sharpe ratio *)

Definition EULER_GAMMA : F := nof_ratio 5772156649015329 10000000000000000.

Definition expected_max_sharpe (n_trials : Z) (trial_sharpe_std : F) : F :=
  if (n_trials <=? 1)%Z then n0
  else
    trial_sharpe_std ⊗ ((n1 ⊖ EULER_GAMMA) ⊗ inv_cdf (n1 ⊖ n1 ⊘ nof_Z n_trials)
                        ⊕ EULER_GAMMA ⊗ inv_cdf (n1 ⊖ n1 ⊘ (nof_Z n_trials ⊗ m_e))).

Record Deflated := mkDeflated {
  df_observed_sharpe : F; df_expected_max_sharpe : F; df_n_trials : Z; df_n_observations : nat;
  df_standard_error : F; df_z_score : F; df_p_value : F; df_significant_5pct : bool; df_haircut_pct : F
}.

(** [None] is the dict of too few trials or observations, which has no
    ["significant_5pct"]. *)
Definition deflated_sharpe_ratio (observed_sharpe : F) (n_trials : Z) (n_observations : nat) (skew kurt : F)
    (sharpe_std : option F) (periods_per_year : Z) : option Deflated :=
  if (n_trials <? 1)%Z || (n_observations <? 5) then None
  else
    let scale := m_sqrt (nof_Z periods_per_year) in
    let sr := observed_sharpe ⊘ scale in
    let null_std := m_sqrt (n1 ⊘ of_nat (n_observations - 1)) in
    let trial_std := match sharpe_std with Some s => s ⊘ scale | None => null_std end in
    let sr_benchmark := expected_max_sharpe n_trials trial_std in
    let sr_variance :=
      (n1 ⊖ skew ⊗ sr ⊕ nof_ratio 1 4 ⊗ (kurt ⊖ n1) ⊗ (sr ⊗ sr)) ⊘ of_nat (n_observations - 1) in
    let sr_std := m_sqrt (nmax sr_variance pico) in
    let dsr_z := (sr ⊖ sr_benchmark) ⊘ sr_std in
    let dsr_p := n1 ⊖ normal_cdf dsr_z in
    let expected_max_annual := sr_benchmark ⊗ scale in
    Some (mkDeflated (nround observed_sharpe 4) (nround expected_max_annual 4) n_trials n_observations
            (nround (sr_std ⊗ scale) 4) (nround dsr_z 4) (nround dsr_p 6) (dsr_p <.? five_percent)
            (nround (if expected_max_annual >.? n0
                     then nmax n0 (n1 ⊖ observed_sharpe ⊘ expected_max_annual) ⊗ nof_Z 100 else n0) 1)).

(** ** The suite *)

Record StatReport := mkStatReport {
  sr_ttest_nw : TTest; sr_ttest_ols : TTest; sr_bootstrap : Bootstrap; sr_permutation : Permuted; sr_ljung_box : LjungBox;
  sr_deflated : Deflated; sr_corrections : option (Correction * Correction);
  sr_ci_excludes_zero : bool; sr_overall_credible : bool
}.

(** [None] is the KeyError on the key that a refused deflation lacks. *)
Definition run_full_stat_tests (returns : list F) (n_strategies_tested : Z) (strategy_p_values : option (list F))
    (n_bootstrap n_permutations : nat) : option StatReport :=
  let nw := ttest_mean_return returns true in
  let boot := bootstrap_sharpe_ci returns n_bootstrap (nof_ratio 95 100) in
  let perm := permutation_test returns n_permutations in
  deflated ← deflated_sharpe_ratio (floored_sharpe returns) (Z.max 1 n_strategies_tested) (length returns)
               (skewness returns) (kurtosis returns) None 252;
  let excludes := bo_ci_lower boot >.? n0 in
  Some (mkStatReport nw (ttest_mean_return returns false) boot perm (ljung_box_test returns 10) deflated
          (match strategy_p_values with
           | Some ps => if 1 <? length ps
                        then Some (bonferroni_correction ps five_percent, benjamini_hochberg ps five_percent) else None
           | None => None
           end)
          excludes
          (tt_significant_5pct nw && excludes && pm_significant_5pct perm && df_significant_5pct deflated)).
End tests.

#[local] Close Scope nat_scope.
(** * Theorems

    The statistical tests: the false-discovery procedure is the step-up one,
    and counting more trials never makes a Sharpe ratio significant. *)

#[local] Open Scope Q_scope.

Lemma of_nat_Q n : of_nat n = inject_Z (Z.of_nat n).
Proof. done. Qed.

Lemma of_nat_pos n : (0 < n)%nat → 0 < of_nat (F:=Q) n.
Proof. intros Hn. rewrite of_nat_Q. change 0 with (inject_Z 0). rewrite <- Zlt_Qlt. lia. Qed.

Lemma of_nat_mono n m : (n <= m)%nat → of_nat (F:=Q) n <= of_nat m.
Proof. intros Hn. rewrite !of_nat_Q, <- Zle_Qle. lia. Qed.

(** ** Step-up

    The number of p-values at most [q], and what the procedure compares: the
    p-value [q] under the line through the origin of slope [alpha / m]. *)
Section step_up.
Variable alpha : Q.
Variable ps : list Q.

Definition at_most (q : Q) : nat := length (filter (λ p, (p <=.? q) = true) ps).
Definition under_line (q : Q) : Prop := q * of_nat (length ps) < alpha * of_nat (at_most q).

Hypothesis alpha_nonneg : 0 <= alpha.
Hypothesis alpha_le_1 : alpha <= 1.
#[local] Abbreviation m := (length ps).

(** A ranked p-value under the line of its rank. *)
Definition crosses (x : nat * (nat * Q)) : Prop := x.2.2 * of_nat m / of_nat x.1 < alpha.

Lemma bh_loop l adj0 :
  let '(prev, _, sig) := foldr (bh_step alpha m) (n1, adj0, []) l in
  (prev < alpha ↔ ∃ x, x ∈ l ∧ crosses x) ∧
  ∀ i, i ∈ sig ↔ ∃ l1 x l2, l = l1 ++ x :: l2 ∧ x.2.1 = i ∧ ∃ y, y ∈ x :: l2 ∧ crosses y.
Proof.
  induction l as [|[rank [i p]] l IH]; cbn [foldr].
  { split.
    - change (n1 (F:=Q)) with 1. split; [lra|]. by intros (x & []%not_elem_of_nil & _).
    - intros i. split; [by intros []%not_elem_of_nil|]. by intros ([] & x & l2 & ? & _). }
  destruct (foldr _ _ l) as [[prev adj] sig]. destruct IH as [Hprev Hsig]. cbn [bh_step].
  set (a := p ⊗ of_nat m ⊘ of_nat rank).
  assert (nmin prev a < alpha ↔ ∃ x, x ∈ (rank, (i, p)) :: l ∧ crosses x) as Hmin.
  { destruct (nmin_Q prev a) as (H1 & H2 & Hor). split.
    - intros Hlt. destruct Hor as [E|E]; rewrite E in Hlt.
      + apply Hprev in Hlt as (x & ? & ?). exists x. split; [by right|done].
      + exists (rank, (i, p)). split; [by left|exact Hlt].
    - intros (x & [->|Hx]%elem_of_cons & Hc).
      + change (a < alpha) in Hc. lra.
      + assert (prev < alpha) by (apply Hprev; by exists x). lra. }
  split; [exact Hmin|]. intros k.
  assert (k ∈ (if nmin prev a <.? alpha then sig ++ [i] else sig) ↔ k ∈ sig ∨ (k = i ∧ nmin prev a < alpha)) as ->.
  { destruct (nmin prev a <.? alpha) eqn:E; qsimpl.
    - rewrite elem_of_app, list_elem_of_singleton. naive_solver.
    - split; [by left|]. intros [?|[_ ?]]; [done|lra]. }
  rewrite Hsig, Hmin. split.
  - intros [(l1 & x & l2 & -> & ? & ?)|[-> Hex]].
    + by exists ((rank, (i, p)) :: l1), x, l2.
    + by exists [], (rank, (i, p)), l.
  - intros ([|x0 l1] & x & l2 & El & Hi & Hy).
    + injection El as <- <-. right. by split.
    + injection El as -> ->. left. by exists l1, x, l2.
Qed.

(** The p-values with their places, in increasing order. *)
#[local] Abbreviation indexed := (sort_key snd (zip (seq 0 m) ps)).

Lemma indexed_elem i p : (i, p) ∈ indexed ↔ ps !! i = Some p.
Proof.
  rewrite sort_key_perm, list_elem_of_lookup. split.
  - intros [k Hk]. apply lookup_zip_Some in Hk as [Hi Hp]. apply lookup_seq in Hi as [-> _]. done.
  - intros Hp. exists i. apply lookup_zip_Some. split; [|done]. apply lookup_seq. apply lookup_lt_Some in Hp. lia.
Qed.

Lemma indexed_NoDup : NoDup (indexed.*1).
Proof. rewrite sort_key_perm, fst_zip by (rewrite length_seq; lia). apply NoDup_seq. Qed.

Lemma at_most_indexed q : at_most q = length (filter (λ x, (x.2 <=.? q) = true) indexed).
Proof.
  rewrite sort_key_perm. unfold at_most. generalize 0%nat. induction ps as [|p l IH]; intros n; [done|].
  cbn [length seq zip zip_with]. rewrite !filter_cons. cbn [snd]. destruct (decide _); cbn [length]; by rewrite (IH (S n)).
Qed.

Lemma sorted_count (l : list (nat * Q)) q k x :
  StronglySorted (λ a b, a.2 <= b.2) l → l !! k = Some x →
  x.2 <= q ↔ (k < length (filter (λ x, (x.2 <=.? q) = true) l))%nat.
Proof.
  intros Hs. revert k. induction Hs as [|y l Hs IH Hy]; intros k; [done|]. rewrite filter_cons.
  destruct (decide ((y.2 <=.? q) = true)) as [Hq|Hq].
  - destruct k as [|k]; cbn [length]; [intros [= <-]; split; [lia|intros _; by apply nle_Q]|].
    intros Hk%IH. rewrite Hk. lia.
  - apply not_true_iff_false, nle_Q_false in Hq. assert (filter (λ x, (x.2 <=.? q) = true) l = []) as ->.
    { apply filter_none. intros z Hz. rewrite Forall_forall in Hy. specialize (Hy z Hz).
      apply not_true_iff_false, nle_Q_false. lra. }
    destruct k as [|k]; cbn [length]; [intros [= <-]; split; [lra|lia]|].
    intros Hk. change (l !! k = Some x) in Hk. apply list_elem_of_lookup_2 in Hk. rewrite Forall_forall in Hy.
    specialize (Hy x Hk). split; [lra|lia].
Qed.

(** An entry is at most [q] exactly when its rank is at most the number of
    entries that are. *)
Lemma ranked_le k x q : indexed !! k = Some x → x.2 <= q ↔ (k < at_most q)%nat.
Proof. intros Hk. rewrite at_most_indexed. apply sorted_count; [apply sort_key_sorted|done]. Qed.

Lemma ranked_lookup k x : zip (seq 1 m) indexed !! k = Some x ↔ x.1 = S k ∧ indexed !! k = Some x.2.
Proof.
  destruct x as [r x]. rewrite lookup_zip_Some, lookup_seq. cbn [fst snd]. split; [intros [[-> _] ?]; done|].
  intros [-> Hk]. split; [|done]. split; [lia|]. apply lookup_lt_Some in Hk.
  rewrite sort_key_perm, length_zip, length_seq in Hk. lia.
Qed.

Lemma crosses_line k x : x.1 = S k → (crosses x ↔ x.2.2 * of_nat m < alpha * of_nat (S k)).
Proof.
  intros Hx. unfold crosses. rewrite Hx. pose proof (of_nat_pos (S k) ltac:(lia)) as Hpos. split; intros Hc.
  - assert (x.2.2 * of_nat m == x.2.2 * of_nat m / of_nat (S k) * of_nat (S k)) as -> by (field; lra).
    by apply Qmult_lt_compat_r.
  - by apply Qlt_shift_div_r.
Qed.

Lemma significant_under i p :
  ps !! i = Some p →
  (∃ l1 x l2, zip (seq 1 m) indexed = l1 ++ x :: l2 ∧ x.2.1 = i ∧ ∃ y, y ∈ x :: l2 ∧ crosses y) ↔
  ∃ q, q ∈ ps ∧ p <= q ∧ under_line q.
Proof.
  intros Hi. split.
  - intros (l1 & x & l2 & El & Hxi & y & Hy & Hc).
    assert (zip (seq 1 m) indexed !! length l1 = Some x) as Hx by (rewrite El; by apply list_lookup_middle).
    apply list_elem_of_lookup in Hy as [j Hj].
    assert (zip (seq 1 m) indexed !! (length l1 + j)%nat = Some y) as Hy.
    { rewrite El, lookup_app_r by lia. by replace (length l1 + j - length l1)%nat with j by lia. }
    apply ranked_lookup in Hx as [_ Hx], Hy as [Hry Hy]. destruct x as [r [i' p']], y as [r' [i2 q]]. cbn [fst snd] in *. subst i'.
    assert (ps !! i = Some p') as Hp' by (apply indexed_elem; by eapply list_elem_of_lookup_2). simplify_eq.
    exists q. split_and!.
    + apply list_elem_of_lookup. exists i2. apply indexed_elem. by eapply list_elem_of_lookup_2.
    + apply (ranked_le _ _ q Hx). cbn. pose proof (proj1 (ranked_le _ _ q Hy)) as Hr. cbn in Hr. specialize (Hr ltac:(lra)). lia.
    + apply (crosses_line (length l1 + j) (_, (i2, q)) eq_refl) in Hc. cbn [snd] in Hc. unfold under_line.
      pose proof (proj1 (ranked_le _ _ q Hy)) as Hr. cbn in Hr. specialize (Hr ltac:(lra)).
      pose proof (of_nat_mono _ _ Hr). assert (alpha * of_nat (S (length l1 + j)) <= alpha * of_nat (at_most q)) by nra. lra.
  - intros (q & Hq & Hpq & Hline). apply indexed_elem, list_elem_of_lookup in Hi as [k Hk].
    assert (k < at_most q)%nat as Hkc by (by apply (ranked_le k (i, p))).
    set (c := at_most q) in *. assert (c <= m)%nat as Hcm by apply length_filter.
    destruct (lookup_lt_is_Some_2 indexed (c - 1)) as [[i2 v] Hv].
    { rewrite sort_key_perm, length_zip, length_seq. lia. }
    assert (v <= q) as Hvq by (apply (ranked_le _ _ q Hv); fold c; lia).
    assert (crosses (c, (i2, v))) as Hc.
    { apply (crosses_line (c - 1)); [cbn; lia|]. cbn [snd]. unfold under_line in Hline. fold c in Hline.
      replace (S (c - 1)) with c by lia. pose proof (of_nat_mono 0 m ltac:(lia)). change (of_nat 0) with 0 in *. nra. }
    assert (zip (seq 1 m) indexed !! k = Some (S k, (i, p))) as Hxk by (by apply ranked_lookup).
    assert (zip (seq 1 m) indexed !! (c - 1)%nat = Some (c, (i2, v))) as Hyk by (apply ranked_lookup; split; [cbn; lia|done]).
    exists (take k (zip (seq 1 m) indexed)), (S k, (i, p)), (drop (S k) (zip (seq 1 m) indexed)).
    split; [by rewrite take_drop_middle|]. split; [done|]. exists (c, (i2, v)). split; [|done].
    destruct (decide (k = (c - 1)%nat)) as [E|Hne]; [apply elem_of_cons; left; rewrite E in Hxk; congruence|]. right.
    apply list_elem_of_lookup. exists (c - 1 - S k)%nat. rewrite lookup_drop. by replace (S k + (c - 1 - S k))%nat with (c - 1)%nat by lia.
Qed.
End step_up.

(** A list with an element is not empty. *)
Lemma length_elem {A} (x : A) l : x ∈ l → (0 < length l)%nat.
Proof. destruct 1; cbn; lia. Qed.

(** The significant indices, in the order the loop meets them. *)
Lemma bh_sublist alpha m l (s : Q * list Q * list nat) :
  s.2 = [] → (foldr (bh_step alpha m) s l).2 `sublist_of` reverse (l.*2.*1).
Proof.
  intros Hs. induction l as [|[rank [i p]] l IH]; cbn [foldr fmap list_fmap fst snd]; [by rewrite Hs|].
  destruct (foldr _ s l) as [[prev adj] sig]. cbn [bh_step snd] in *. rewrite reverse_cons.
  destruct (_ <.? alpha); [by apply sublist_app|]. by apply sublist_inserts_r.
Qed.

Lemma sorted_lt (l : list nat) : StronglySorted Nat.le l → NoDup l → StronglySorted lt l.
Proof.
  induction 1 as [|x l _ IH Hx]; intros Hnd; [constructor|]. apply NoDup_cons in Hnd as [Hnin Hnd].
  constructor; [by apply IH|]. rewrite Forall_forall in Hx |- *. intros y Hy. specialize (Hx y Hy).
  assert (x ≠ y) by (by intros ->). lia.
Qed.

Lemma bonferroni_elem alpha (ps : list Q) i :
  i ∈ co_significant (bonferroni_correction ps alpha) → ∃ p, ps !! i = Some p ∧ p < alpha / of_nat (length ps).
Proof.
  destruct ps as [|p0 ps']; [by intros []%not_elem_of_nil|]. cbn [co_significant bonferroni_correction].
  intros (ip & -> & [Hp Hin]%list_elem_of_filter)%list_elem_of_fmap. destruct ip as [i p]. cbn [fst snd] in *.
  apply list_elem_of_lookup in Hin as [k Hk]. apply lookup_zip_Some in Hk as [Hi Hk]. apply lookup_seq in Hi as [-> _].
  exists p. split; [done|]. by apply nlt_Q.
Qed.

(** C18: In exact arithmetic, the Benjamini-Hochberg procedure is the step-up
    procedure (in doubles the product and the quotient that the two
    corrections compare may round to different sides of the level). At a level
    between zero and one, a test is significant exactly when some p-value at
    least as large as its own, times the number of tests, is below the level
    times the number of p-values at most that one - whatever the order of the
    tests and of equal p-values; the significant tests are listed once each, in
    increasing order; and every test that the Bonferroni correction calls
    significant is among them. *)
Theorem benjamini_hochberg_steps_up alpha (ps : list Q) :
  0 <= alpha → alpha <= 1 →
  let bh := co_significant (benjamini_hochberg ps alpha) in
  (∀ i p, ps !! i = Some p → i ∈ bh ↔ ∃ q, q ∈ ps ∧ p <= q ∧ under_line alpha ps q) ∧
  (∀ i, i ∈ bh → (i < length ps)%nat) ∧ StronglySorted lt bh ∧
  ∀ i, i ∈ co_significant (bonferroni_correction ps alpha) → i ∈ bh.
Proof.
  intros H0 H1. cbn zeta. unfold benjamini_hochberg.
  set (l := zip (seq 1 (length ps)) (sort_key snd (zip (seq 0 (length ps)) ps))).
  pose proof (bh_loop alpha ps H1 l (replicate (length ps) n0)) as Hloop.
  pose proof (bh_sublist alpha (length ps) l (n1, replicate (length ps) n0, []) eq_refl) as Hsub.
  assert (l.*2.*1 ≡ₚ seq 0 (length ps)) as Hplaces.
  { unfold l. rewrite snd_zip by (rewrite sort_key_perm, length_zip, !length_seq; lia).
    rewrite sort_key_perm, fst_zip; [done|]. by rewrite length_seq. }
  destruct (foldr _ _ l) as [[prev adj] sig]. destruct Hloop as [_ Hsig]. cbn [co_significant snd] in *.
  assert (∀ i p, ps !! i = Some p → i ∈ merge_sort Nat.le sig ↔ ∃ q, q ∈ ps ∧ p <= q ∧ under_line alpha ps q) as Hup.
  { intros i p Hi. rewrite merge_sort_Permutation, Hsig. by apply significant_under. }
  split_and!; [exact Hup| | |].
  - intros i. rewrite merge_sort_Permutation. intros Hi. assert (i ∈ l.*2.*1) as Hin.
    { rewrite <- reverse_Permutation. by eapply elem_of_sublist. }
    rewrite Hplaces in Hin. apply elem_of_seq in Hin. lia.
  - apply sorted_lt; [by apply StronglySorted_merge_sort; apply _|]. rewrite merge_sort_Permutation.
    eapply sublist_NoDup; [|exact Hsub]. rewrite reverse_Permutation, Hplaces. apply NoDup_seq.
  - intros i (p & Hi & Hp)%bonferroni_elem. apply (Hup i p Hi). exists p. split_and!; [by eapply list_elem_of_lookup_2|lra|].
    unfold under_line. pose proof (lookup_lt_Some _ _ _ Hi). pose proof (of_nat_pos (length ps) ltac:(lia)) as Hm.
    assert (p * of_nat (length ps) < alpha) as Hlt.
    { assert (alpha == alpha / of_nat (length ps) * of_nat (length ps)) as -> by (field; lra). by apply Qmult_lt_compat_r. }
    assert (1 <= at_most ps p)%nat as Hc.
    { assert (p ∈ filter (λ q, (q <=.? p) = true) ps) as Hin%length_elem.
      { apply list_elem_of_filter. split; [apply nle_Q; lra|by eapply list_elem_of_lookup_2]. } unfold at_most. lia. }
    pose proof (of_nat_mono _ _ Hc). change (of_nat 1) with 1 in *. nra.
Qed.


(** ** Deflation *)

Section deflation.
Context `{NumPy Q}.
Variable inv_cdf : Q → Q.
Variable m_e : Q.

(** The library's functions are monotone, and positive where they are. *)
Hypothesis sqrt_pos : ∀ x, 0 < x → 0 < m_sqrt x.
Hypothesis erf_mono : ∀ x y, x <= y → m_erf x <= m_erf y.
Hypothesis inv_cdf_mono : ∀ x y, 0 < x → x <= y → y < 1 → inv_cdf x <= inv_cdf y.
Hypothesis inv_cdf_half : ∀ x, 1 # 2 <= x → x < 1 → 0 <= inv_cdf x.
Hypothesis e_above_1 : 1 <= m_e.

Lemma nof_Z_Q z : nof_Z (F:=Q) z = inject_Z z.
Proof. done. Qed.

(** [1 - 1 / (n c)] for at least two trials and a factor [c] at least one. *)
Lemma share_bounds (n n' : Z) c : (2 <= n <= n')%Z → 1 <= c →
  1 # 2 <= 1 - 1 / (inject_Z n * c) ∧ 1 - 1 / (inject_Z n * c) <= 1 - 1 / (inject_Z n' * c) ∧ 1 - 1 / (inject_Z n' * c) < 1.
Proof.
  intros [Hn Hn'] Hc. rewrite Zle_Qle in Hn, Hn'. change (inject_Z 2) with 2 in Hn.
  assert (2 <= inject_Z n * c) as Hd by nra. assert (inject_Z n * c <= inject_Z n' * c) as Hd' by nra.
  set (d := inject_Z n * c) in *. set (d' := inject_Z n' * c) in *.
  assert (1 / d <= 1 # 2) by (apply Qle_shift_div_r; lra).
  assert (1 / d' <= 1 / d). { apply Qle_shift_div_r; [lra|]. assert (1 / d * d' == d' / d) as -> by (field; lra). apply Qle_shift_div_l; lra. }
  assert (0 < 1 / d') by (apply Qlt_shift_div_l; lra). lra.
Qed.

Lemma mix_mono a b x y x' y' :
  0 <= a → 0 <= b → 0 <= x → x <= x' → 0 <= y → y <= y' → 0 <= a * x + b * y ∧ a * x + b * y <= a * x' + b * y'.
Proof.
  intros Ha Hb Hx Hxx Hy Hyy.
  pose proof (Qmult_le_0_compat _ _ Ha Hx). pose proof (Qmult_le_0_compat _ _ Hb Hy).
  assert (0 <= a * (x' - x)) by (apply Qmult_le_0_compat; lra). assert (0 <= b * (y' - y)) by (apply Qmult_le_0_compat; lra). lra.
Qed.

Lemma quantile_bounds x y : 1 # 2 <= x → x <= y → y < 1 → 0 <= inv_cdf x ∧ inv_cdf x <= inv_cdf y.
Proof. intros Hx Hxy Hy. split; [apply inv_cdf_half; lra|apply inv_cdf_mono; lra]. Qed.

Lemma expected_max_mono n n' s : 0 <= s → (n <= n')%Z →
  expected_max_sharpe inv_cdf m_e n s <= expected_max_sharpe inv_cdf m_e n' s.
Proof.
  intros Hs Hn. unfold expected_max_sharpe.
  assert (∀ k k', (2 <= k <= k')%Z →
    0 <= (1 - EULER_GAMMA) * inv_cdf (1 - 1 / inject_Z k) + EULER_GAMMA * inv_cdf (1 - 1 / (inject_Z k * m_e)) ∧
    (1 - EULER_GAMMA) * inv_cdf (1 - 1 / inject_Z k) + EULER_GAMMA * inv_cdf (1 - 1 / (inject_Z k * m_e)) <=
    (1 - EULER_GAMMA) * inv_cdf (1 - 1 / inject_Z k') + EULER_GAMMA * inv_cdf (1 - 1 / (inject_Z k' * m_e))) as Hg.
  { intros k k' Hk. destruct (share_bounds k k' 1 Hk ltac:(lra)) as (A1 & A2 & A3).
    assert (∀ z, inject_Z z * 1 == inject_Z z) as Hone by (intros; ring). rewrite (Hone k) in A1, A2. rewrite (Hone k') in A2, A3.
    destruct (share_bounds k k' m_e Hk e_above_1) as (B1 & B2 & B3).
    destruct (quantile_bounds _ _ A1 A2 A3) as [Q1 Q2], (quantile_bounds _ _ B1 B2 B3) as [Q3 Q4].
    set (g := EULER_GAMMA). assert (0 <= g /\ g <= 1) as [? ?] by (split; vm_compute; discriminate).
    apply mix_mono; [lra|exact H1|exact Q1|exact Q2|exact Q3|exact Q4]. }
  destruct (Z.leb_spec n 1), (Z.leb_spec n' 1); try lia; [lra| |].
  - destruct (Hg n' n' ltac:(lia)) as [Hg0 _]. by apply (Qmult_le_0_compat s).
  - destruct (Hg n n' ltac:(lia)) as [_ Hg1]. cbn [nmul Num_Q]. rewrite !(Qmult_comm s). by apply Qmult_le_compat_r.
Qed.

Lemma normal_cdf_mono x y : x <= y → normal_cdf x <= normal_cdf y.
Proof.
  intros Hxy. unfold normal_cdf. cbn [nsub nadd nmul ndiv Num_Q].
  assert (0 < m_sqrt (nof_Z (F:=Q) 2)) as Hs by (apply sqrt_pos; rewrite nof_Z_Q; done).
  assert (x / m_sqrt (nof_Z (F:=Q) 2) <= y / m_sqrt (nof_Z (F:=Q) 2)) as Hd.
  { apply Qle_shift_div_l; [done|]. assert (x / m_sqrt (nof_Z (F:=Q) 2) * m_sqrt (nof_Z (F:=Q) 2) == x) as -> by (field; lra). done. }
  pose proof (erf_mono _ _ Hd). change (nof_ratio (F:=Q) 1 2) with (1 # 2). nra.
Qed.

Definition deflated_significant (observed : Q) (n_trials : Z) (n_obs : nat) (skew kurt : Q) (std : option Q) (periods : Z) : bool :=
  match deflated_sharpe_ratio inv_cdf m_e observed n_trials n_obs skew kurt std periods with
  | Some d => df_significant_5pct d
  | None => false
  end.

(** Counting more trials never makes a Sharpe ratio significant: whatever
    the returns' length, skewness, kurtosis and frequency, a ratio that
    survives deflation by [n'] trials survives it by any fewer, and the bar it
    is held to only grows. *)
Theorem more_trials_never_help observed n n' n_obs skew kurt std periods :
  (1 <= n <= n')%Z → (0 < periods)%Z → (∀ s, std = Some s → 0 <= s) →
  (∀ s, 0 <= s → expected_max_sharpe inv_cdf m_e n s <= expected_max_sharpe inv_cdf m_e n' s) ∧
  (deflated_significant observed n' n_obs skew kurt std periods = true →
   deflated_significant observed n n_obs skew kurt std periods = true).
Proof.
  intros [Hn Hnn] Hp Hstd. split; [intros s Hs; by apply expected_max_mono|].
  unfold deflated_significant, deflated_sharpe_ratio.
  destruct (Z.ltb_spec n' 1), (Z.ltb_spec n 1); try lia. destruct (Nat.ltb_spec n_obs 5); cbn [orb]; [done|].
  cbn zeta. cbn [df_significant_5pct]. set (scale := m_sqrt (nof_Z (F:=Q) periods)).
  assert (0 < scale) as Hscale by (apply sqrt_pos; rewrite nof_Z_Q; change 0 with (inject_Z 0); rewrite <- Zlt_Qlt; lia).
  set (trial_std := match std with Some s => _ | None => _ end).
  assert (0 <= trial_std) as Htrial.
  { unfold trial_std. destruct std as [s|].
    - specialize (Hstd s eq_refl). apply Qle_shift_div_l; [done|lra].
    - apply Qlt_le_weak, sqrt_pos. apply Qlt_shift_div_l; [apply of_nat_pos; lia|change n1 with 1; lra]. }
  set (sr_std := m_sqrt (nmax _ pico)).
  assert (0 < sr_std) as Hsr.
  { apply sqrt_pos. match goal with |- 0 < nmax ?a pico => destruct (nmax_Q a pico) as (_ & Hpico & _) end.
    assert (0 < pico (F:=Q)) by done. lra. }
  intros Hsig%nlt_Q. apply nlt_Q. pose proof (expected_max_mono n n' trial_std Htrial Hnn) as Hbench.
  set (b := expected_max_sharpe inv_cdf m_e n trial_std) in *. set (b' := expected_max_sharpe inv_cdf m_e n' trial_std) in *.
  assert ((observed ⊘ scale ⊖ b') ⊘ sr_std <= (observed ⊘ scale ⊖ b) ⊘ sr_std) as Hz%normal_cdf_mono.
  { cbn [nsub ndiv Num_Q]. apply Qle_shift_div_l; [done|].
    assert ((observed / scale - b') / sr_std * sr_std == observed / scale - b') as -> by (field; lra). lra. }
  cbn [nsub Num_Q] in *. lra.
Qed.
End deflation.

(** ** Witnesses *)

Lemma benjamini_hochberg_steps_up_witness :
  let ps : list Q := [1 # 100; 4 # 100; 2 # 100; 1 # 2] in
  co_significant (benjamini_hochberg ps (5 # 100)) = [0; 2]%nat ∧
  co_significant (bonferroni_correction ps (5 # 100)) = [0]%nat ∧
  0%nat ∈ co_significant (benjamini_hochberg ps (5 # 100)).
Proof.
  cbn zeta. split; [by vm_compute|]. split; [by vm_compute|].
  destruct (benjamini_hochberg_steps_up (5 # 100) [1 # 100; 4 # 100; 2 # 100; 1 # 2] ltac:(discriminate) ltac:(discriminate))
    as (_ & _ & _ & Hb). apply Hb. vm_compute. by left.
Defined.

(** A library whose quantile is a straight line and whose error function is
    the identity on [-1, 1]. *)
Definition NumPy_line : NumPy Q :=
  {| np_sum := qsum; np_dot := qdot; np_mean := qsum; np_std _ _ := 1; np_percentile _ x := x; np_argsort := sorted_places;
     m_sqrt x := x; m_exp x := x; m_log x := x; m_pow x _ := x; m_erf := clip (-1) 1 |}.

Lemma more_trials_never_help_witness :
  let sig n := @deflated_significant NumPy_line (λ p, p - (1 # 2)) 3 (504 # 1) n 6 0 (3 # 1) None 252 in
  sig 1000%Z = true ∧ sig 1%Z = true.
Proof.
  cbn zeta. assert (@deflated_significant NumPy_line (λ p, p - (1 # 2)) 3 (504 # 1) 1000 6 0 (3 # 1) None 252 = true) as Hsig
    by (by vm_compute). split; [exact Hsig|].
  refine (proj2 (@more_trials_never_help NumPy_line (λ p, p - (1 # 2)) 3 _ _ _ _ _ (504 # 1) 1 1000 6 0 (3 # 1) None 252 _ _ _) Hsig).
  - intros x Hx. exact Hx.
  - intros x y. apply clip_mono.
  - intros x y _ Hxy _. lra.
  - intros x Hx _. lra.
  - discriminate.
  - lia.
  - lia.
  - discriminate.
Defined.
