(* ===== verification/Matrices.v ===== *)
(** Matrices as lists of rows, and the linear algebra the numerical engines
    take from NumPy, as a class of operations. *)

From Stdlib Require Import QArith Qabs Lqa.
From S2P Require Import Prelude Numeric StrategySignals Vectors.
#[local] Open Scope nat_scope.

Abbreviation matrix F := (list (list F)).

(** [None] where the library raises. *)
Class LinAlg (F : Type) := {
  la_cov : matrix F → matrix F;                    (* [np.cov(m.T, ddof=1)] *)
  la_corrcoef : matrix F → matrix F;               (* [np.corrcoef(m.T)] *)
  la_pinv : matrix F → option (matrix F);
  la_eigvalsh : matrix F → list F;
  la_svd : matrix F → list F * matrix F;           (* singular values and [Vt] *)
  la_lstsq : matrix F → list F → option (list F)
}.

Section matrices.
Context {F : Type} `{Num F} `{NumPy F}.

(** [m[:, j]], [m.T] of [n] columns, [m[i, j]], [np.diag(m)] *)
Definition column (j : nat) (m : matrix F) : list F := (λ row, at_ row j) <$> m.
Definition transpose (n : nat) (m : matrix F) : matrix F := (λ j, column j m) <$> seq 0 n.
Definition entry (m : matrix F) (i j : nat) : F := at_ (default [] (m !! i)) j.
Definition diagonal (m : matrix F) : list F := (λ i, entry m i i) <$> seq 0 (length m).

(** The matrix of [n] rows and columns with the entries [f i j]. *)
Definition square (n : nat) (f : nat → nat → F) : matrix F := (λ i, (λ j, f i j) <$> seq 0 n) <$> seq 0 n.
Definition eye (n : nat) : matrix F := square n (λ i j, if i =? j then n1 else n0).
Definition mat_map (f : F → F) (m : matrix F) : matrix F := map (map f) m.
Definition matmul (n : nat) (a b : matrix F) : matrix F := (λ row, (λ col, np_dot row col) <$> transpose n b) <$> a.

Lemma entry_square n f i j : i < n → j < n → entry (square n f) i j = f i j.
Proof.
  intros Hi Hj. unfold entry, square, at_. rewrite list_lookup_fmap, lookup_seq_lt by done. cbn.
  by rewrite list_lookup_fmap, lookup_seq_lt.
Qed.

Lemma square_shape n f : length (square n f) = n ∧ ∀ row, row ∈ square n f → length row = n.
Proof.
  unfold square. split; [by rewrite length_fmap, length_seq|]. intros row (i & -> & _)%list_elem_of_fmap.
  by rewrite length_fmap, length_seq.
Qed.

Lemma square_entry n f row x : row ∈ square n f → x ∈ row → ∃ i j, i < n ∧ j < n ∧ x = f i j.
Proof.
  unfold square. intros (i & -> & Hi%elem_of_seq)%list_elem_of_fmap (j & -> & Hj%elem_of_seq)%list_elem_of_fmap.
  exists i, j. split_and!; [lia|lia|done].
Qed.
End matrices.

(** A library for the witnesses: right on the identity. *)
#[global] Instance LinAlg_Q : LinAlg Q := {
  la_cov m := m;
  la_corrcoef m := m;
  la_pinv m := Some m;
  la_eigvalsh _ := [1%Q];
  la_svd m := ([], m);
  la_lstsq _ b := Some b
}.

#[local] Close Scope nat_scope.
(** * Theorems

    Vectors and matrices of rationals: sums, and vectors without negative
    entries. *)

#[local] Open Scope Q_scope.

(** ** Sums *)

Lemma qsum_cons x xs : qsum (x :: xs) = x + qsum xs.
Proof. done. Qed.

Lemma qsum_vdiv xs c : qsum (vdiv xs c) == qsum xs / c.
Proof.
  induction xs as [|x xs IH]; [cbn; unfold Qdiv; ring|]. unfold vdiv in *. cbn [fmap list_fmap]. rewrite !qsum_cons, IH.
  cbn [ndiv Num_Q]. unfold Qdiv. ring.
Qed.

Lemma qsum_vscale xs c : qsum (vscale c xs) == c * qsum xs.
Proof.
  induction xs as [|x xs IH]; [cbn; ring|]. unfold vscale in *. cbn [fmap list_fmap]. rewrite !qsum_cons, IH.
  cbn [nmul Num_Q]. ring.
Qed.

Lemma qsum_fmap_eq {A} (f g : A → Q) (l : list A) : (∀ x, x ∈ l → f x == g x) → qsum (f <$> l) == qsum (g <$> l).
Proof.
  induction l as [|x l IH]; intros Hf; [reflexivity|]. cbn [fmap list_fmap]. rewrite !qsum_cons, (Hf x) by (by left).
  rewrite IH; [reflexivity|]. intros; apply Hf; by right.
Qed.

(** ** Without negative entries *)

Definition nonneg (xs : list Q) : Prop := Forall (Qle 0) xs.

Lemma qsum_nonneg xs : nonneg xs → 0 <= qsum xs.
Proof. induction 1 as [|x xs Hx _ IH]; [apply Qle_refl|]. rewrite qsum_cons. lra. Qed.

Lemma nonneg_le_qsum xs x : nonneg xs → x ∈ xs → x <= qsum xs.
Proof.
  induction 1 as [|y xs Hy Hxs IH]; [by intros []%not_elem_of_nil|]. pose proof (qsum_nonneg xs Hxs). rewrite qsum_cons.
  intros [->|Hx]%elem_of_cons; [lra|]. specialize (IH Hx). lra.
Qed.

Lemma nonneg_at xs i : nonneg xs → 0 <= at_ xs i.
Proof.
  intros Hxs. unfold at_. destruct (xs !! i) as [x|] eqn:E; cbn; [|lra]. by apply (Forall_lookup_1 _ _ _ _ Hxs E).
Qed.

Lemma nonneg_zip (f : Q → Q → Q) xs ys : (∀ x y, 0 <= x → 0 <= y → 0 <= f x y) → nonneg xs → nonneg ys → nonneg (zip_with f xs ys).
Proof.
  intros Hf Hxs. revert ys. induction Hxs as [|x xs Hx _ IH]; intros ys Hys; [constructor|].
  destruct Hys as [|y ys Hy Hys]; constructor; [by apply Hf|by apply IH].
Qed.

Lemma nonneg_vmul xs ys : nonneg xs → nonneg ys → nonneg (vmul xs ys).
Proof. apply nonneg_zip, Qmult_le_0_compat. Qed.

Lemma nonneg_vadd xs ys : nonneg xs → nonneg ys → nonneg (vadd xs ys).
Proof. apply nonneg_zip. intros x y ??. cbn. lra. Qed.

Lemma nonneg_fmap {A} (f : A → Q) (l : list A) : (∀ x, x ∈ l → 0 <= f x) → nonneg (f <$> l).
Proof. intros Hf. apply Forall_fmap, Forall_forall. exact Hf. Qed.

Lemma Qdiv_nonneg x c : 0 <= x → 0 < c → 0 <= x / c.
Proof. intros Hx Hc. apply Qle_shift_div_l; [done|]. lra. Qed.

Lemma nonneg_vdiv xs c : nonneg xs → 0 < c → nonneg (vdiv xs c).
Proof.
  intros Hxs Hc. apply nonneg_fmap. intros x Hx. apply Qdiv_nonneg; [|done]. by apply (proj1 (Forall_forall _ _) Hxs).
Qed.

Lemma qdot_nonneg xs ys : nonneg xs → nonneg ys → 0 <= qdot xs ys.
Proof. intros ??. apply qsum_nonneg. by apply nonneg_vmul. Qed.

(** A row divided by its sum. *)
Lemma qsum_vdiv_self xs : ¬ qsum xs == 0 → qsum (vdiv xs (qsum xs)) == 1.
Proof. intros Hs. rewrite qsum_vdiv. by field. Qed.

(** ** Matrices *)

Definition shaped {F} (n : nat) (m : matrix F) : Prop := length m = n ∧ Forall (λ row, length row = n) m.
Definition nonneg_matrix (m : matrix Q) : Prop := Forall nonneg m.

Lemma square_shaped {F} n (f : nat → nat → F) : shaped n (square n f).
Proof. split; [apply square_shape|]. apply Forall_forall, square_shape. Qed.

Lemma nonneg_square n (f : nat → nat → Q) : (∀ i j, 0 <= f i j) → nonneg_matrix (square n f).
Proof.
  intros Hf. apply Forall_forall. intros row Hrow. apply Forall_forall. intros x Hx.
  by destruct (square_entry n f row x Hrow Hx) as (i & j & _ & _ & ->).
Qed.

Lemma nonneg_entry m i j : nonneg_matrix m → 0 <= entry m i j.
Proof.
  intros Hm. unfold entry. destruct (m !! i) as [row|] eqn:E; cbn; [|apply Qle_refl].
  apply nonneg_at. exact (Forall_lookup_1 _ _ _ _ Hm E).
Qed.

Lemma nonneg_column m j : nonneg_matrix m → nonneg (column j m).
Proof.
  intros Hm. apply nonneg_fmap. intros row Hrow. apply nonneg_at. by apply (proj1 (Forall_forall _ _) Hm).
Qed.

Lemma nonneg_transpose n m : nonneg_matrix m → nonneg_matrix (transpose n m).
Proof. intros Hm. apply Forall_fmap, Forall_forall. intros j _. by apply nonneg_column. Qed.

Lemma nonneg_concat m : nonneg_matrix m → nonneg (concat m).
Proof. induction 1; cbn; [constructor|]. by apply Forall_app. Qed.

Lemma nonneg_mat_map (f : Q → Q) m : (∀ x, 0 <= x → 0 <= f x) → nonneg_matrix m → nonneg_matrix (mat_map f m).
Proof.
  intros Hf Hm. apply Forall_map. eapply Forall_impl; [exact Hm|]. intros row Hrow. apply Forall_map.
  eapply Forall_impl; [exact Hrow|]. exact Hf.
Qed.

Lemma shaped_mat_map {F} n (f : F → F) (m : matrix F) : shaped n m → shaped n (mat_map f m).
Proof.
  intros [Hl Hm]. split; [unfold mat_map; by rewrite length_map|]. apply Forall_map.
  eapply Forall_impl; [exact Hm|]. intros row Hr. by rewrite length_map.
Qed.

Lemma entry_mat_map `{Num F} n (f : F → F) (m : matrix F) i j :
  shaped n m → (i < n)%nat → (j < n)%nat → entry (mat_map f m) i j = f (entry m i j).
Proof.
  intros [Hl Hm] Hi Hj. unfold entry, mat_map. change (map (map f) m) with (map f <$> m). rewrite list_lookup_fmap.
  destruct (m !! i) as [row|] eqn:E; [|apply lookup_ge_None in E; lia]. cbn.
  pose proof (Forall_lookup_1 _ _ _ _ Hm E) as Hr. cbn in Hr. unfold at_. change (map f row) with (f <$> row).
  rewrite list_lookup_fmap. destruct (row !! j) eqn:Ej; [done|]. apply lookup_ge_None in Ej. lia.
Qed.

Section numpy.
Context `{NumPy Q} `{!NumPyExact}.

Lemma np_sum_nonneg xs : nonneg xs → 0 <= np_sum xs.
Proof. rewrite np_sum_exact. apply qsum_nonneg. Qed.

Lemma np_dot_nonneg xs ys : nonneg xs → nonneg ys → 0 <= np_dot xs ys.
Proof. intros ??. rewrite np_dot_exact. by apply qdot_nonneg. Qed.

Lemma nonneg_matvec m v : nonneg_matrix m → nonneg v → nonneg (matvec m v).
Proof.
  intros Hm Hv. apply nonneg_fmap. intros row Hrow. apply np_dot_nonneg; [|done]. by apply (proj1 (Forall_forall _ _) Hm).
Qed.
End numpy.
