(* ===== verification/PortfolioOpt.v ===== *)
(** backend/services/portfolio_optimization.py: long-only portfolios under box
    constraints. Errors are the messages of its ValueErrors. *)

From Stdlib Require Import QArith Qabs Lqa.
From S2P Require Import Prelude Numeric OrderedDict StrategySignals Vectors Matrices.
#[local] Open Scope nat_scope.

Record PortfolioConstraints (F : Type) := mkConstraints {
  long_only : bool; min_weight : F; max_weight : F; gross_leverage : F; target_volatility : option F
}.
Arguments mkConstraints {F}. Arguments long_only {F}. Arguments min_weight {F}. Arguments max_weight {F}.
Arguments gross_leverage {F}. Arguments target_volatility {F}.

Inductive OptMethod := MIN_VARIANCE | MAX_SHARPE | RISK_PARITY | MAX_DIVERSIFICATION | EQUAL_WEIGHT.
Definition method_value (m : OptMethod) : string :=
  match m with
  | MIN_VARIANCE => "min_variance"
  | MAX_SHARPE => "max_sharpe"
  | RISK_PARITY => "risk_parity"
  | MAX_DIVERSIFICATION => "max_diversification"
  | EQUAL_WEIGHT => "equal_weight"
  end.

Section optimisation.
Context {F : Type} `{Num F} `{NumPy F} `{LinAlg F}.
Implicit Types con : PortfolioConstraints F.

Definition unconstrained : PortfolioConstraints F := mkConstraints true n0 n1 n1 None.

Definition trillionth : F := nof_ratio 1 1000000000000.
Definition billionth : F := nof_ratio 1 1000000000.
Definition half (x : F) : F := x ⊘ nof_Z 2.
Definition ones (n : nat) : list F := replicate n n1.
Definition count_of (n : nat) : F := nof_Z (Z.of_nat n).

(** ** Projections *)

(** [np.clip(w - theta, lower, upper)] *)
Definition shifted (lower upper theta : F) (w : list F) : list F := (λ x, clip lower upper (x ⊖ theta)) <$> w.

(** The bisection for [theta], as many turns as the code makes. *)
Fixpoint bisect (turns : nat) (lower upper : F) (w : list F) (lo hi : F) : F * F :=
  match turns with
  | O => (lo, hi)
  | S turns =>
      let theta := half (lo ⊕ hi) in
      if np_sum (shifted lower upper theta w) >.? n1 then bisect turns lower upper w theta hi
      else bisect turns lower upper w lo theta
  end.

Definition project_simplex (w : list F) con : outcome string (list F) :=
  match w with
  | [] => Raise "weights must be a non-empty vector"
  | _ =>
      if negb (long_only con) then Raise "short portfolio projection is not implemented; use long_only constraints"
      else
        let lower := nmax n0 (min_weight con) in
        let upper := max_weight con in
        let n := count_of (length w) in
        if (lower >.? upper) || (lower ⊗ n >.? n1 ⊕ trillionth) || (upper ⊗ n <.? n1 ⊖ trillionth)
        then Raise "infeasible portfolio box constraints"
        else
          let '(lo, hi) := bisect 80 lower upper w (vmin w ⊖ upper) (vmax w ⊖ lower) in
          Ret (shifted lower upper (half (lo ⊕ hi)) w)
  end.

Definition project_box (w : list F) con : list F :=
  (λ x, let x := clip (min_weight con) (max_weight con) x in if long_only con then np_maximum x n0 else x) <$> w.

(** [n] turns of a loop whose body may raise. *)
Fixpoint iterate (n : nat) (body : list F → outcome string (list F)) (w : list F) : outcome string (list F) :=
  match n with O => Ret w | S n => let! w := body w in iterate n body w end.

(** The same with a [break]: [true] ends the loop. *)
Fixpoint iterate_until (n : nat) (body : list F → outcome string (list F * bool)) (w : list F) : outcome string (list F) :=
  match n with
  | O => Ret w
  | S n => let! r := body w in if r.2 then Ret r.1 else iterate_until n body r.1
  end.

(** [np.max(np.abs(a - b))] *)
Definition distance (a b : list F) : F := vmax (nabs <$> vsub a b).

(** ** Methods *)

Definition np_sign (x : F) : F := if x >.? n0 then n1 else if x <.? n0 then nopp n1 else n0.

Definition turnover_aware_mean_variance (mu : list F) (cov : matrix F) (prev : list F) (risk_aversion turnover_penalty : F)
    con (n_iter : nat) (lr : F) : outcome string (list F) :=
  if negb (bool_decide (length cov = length mu ∧ Forall (λ row, length row = length mu) cov ∧ length prev = length mu))
  then Raise "expected_returns, covariance matrix, and previous_weights have incompatible shapes"
  else if (risk_aversion <.? n0) || (turnover_penalty <.? n0)
  then Raise "risk_aversion and turnover_penalty must be non-negative"
  else
    let! w := project_simplex prev con in
    let threshold := lr ⊗ turnover_penalty in
    iterate_until n_iter (λ w,
      let candidate := vadd w (vscale lr (vsub mu (vscale (nof_Z 2 ⊗ risk_aversion) (matvec cov w)))) in
      let delta := vsub candidate prev in
      let w_next := vadd prev ((λ d, np_sign d ⊗ np_maximum (nabs d ⊖ threshold) n0) <$> delta) in
      let! w_next := project_simplex w_next con in
      Ret (w_next, distance w_next w <.? billionth)) w.

Definition equal_weight (n_assets : nat) con : outcome string (list F) :=
  match n_assets with
  | O => Raise "n_assets must be positive"
  | _ => project_simplex (vdiv (ones n_assets) (count_of n_assets)) con
  end.

(** [w / w.sum()] *)
Definition normalised (w : list F) : list F := vdiv w (np_sum w).
Definition near_nonneg (w : list F) : bool := forallb (λ x, x >=.? nof_ratio (-1) 1000000) w.

(** The closed form, when it applies. *)
Definition min_variance_closed_form (cov : matrix F) con : option (list F) :=
  if long_only con && (min_weight con =.? n0) && (max_weight con =.? n1) then
    inv ← la_pinv cov;
    let w_cf := matvec inv (ones (length cov)) in
    if np_sum w_cf >.? billionth then
      let w_cf := normalised w_cf in
      if near_nonneg w_cf then Some (normalised (clip n0 n1 <$> w_cf)) else None
    else None
  else None.

Definition minimum_variance (cov : matrix F) con (n_iter : nat) (lr : F) : outcome string (list F) :=
  match min_variance_closed_form cov con with
  | Some w => Ret w
  | None =>
      let n := length cov in
      let! w := iterate n_iter (λ w, project_simplex (vsub w (vscale lr (matvec (mat_map (λ x, nof_Z 2 ⊗ x) cov) w))) con)
                  (vdiv (ones n) (count_of n)) in
      project_simplex w con
  end.

(** [math.sqrt(max(w @ cov @ w, 1e-12))]: the variance and the volatility. *)
Definition variance_of (cov : matrix F) (w : list F) : F := np_dot w (matvec cov w).
Definition volatility_of (cov : matrix F) (w : list F) : F := m_sqrt (nmax (variance_of cov w) trillionth).

Definition max_sharpe_closed_form (excess : list F) (cov : matrix F) : option (list F) :=
  inv ← la_pinv cov;
  let w_raw := matvec inv excess in
  if forallb (λ x, x >.? n0) w_raw && (np_sum w_raw >.? billionth) then
    let w := normalised w_raw in
    if near_nonneg w then Some (normalised (clip n0 n1 <$> w)) else None
  else None.

Definition maximum_sharpe (expected_returns : list F) (cov : matrix F) (rf_rate : F) con (n_iter : nat)
    : outcome string (list F) :=
  let n := length cov in
  let excess := (λ r, r ⊖ rf_rate) <$> expected_returns in
  match max_sharpe_closed_form excess cov with
  | Some w => Ret w
  | None =>
      let! w := iterate n_iter (λ w,
          let port_ret := np_dot w excess in
          let port_var := variance_of cov w in
          let port_vol := volatility_of cov w in
          let grad_vol := vdiv (matvec cov w) port_vol in
          let grad_sharpe :=
            vdiv (vsub ((λ r, r ⊗ port_vol) <$> excess) (vscale port_ret grad_vol)) (nmax port_var trillionth) in
          project_simplex (vadd w (vscale (nof_ratio 1 100) grad_sharpe)) con)
        (vdiv (ones n) (count_of n)) in
      project_simplex w con
  end.

Definition risk_parity (cov : matrix F) con (n_iter : nat) (tol : F) : outcome string (list F) :=
  let n := length cov in
  let target_rc := vdiv (ones n) (count_of n) in
  let! w := iterate_until n_iter (λ w,
      let sigma_w := matvec cov w in
      let port_var := np_dot w sigma_w in
      if port_var <.? trillionth then Ret (w, true)
      else
        let rc := vdiv (vmul w sigma_w) port_var in
        let w_new := vmul w (zip_with (λ t r, m_sqrt (t ⊘ np_maximum r trillionth)) target_rc rc) in
        let w_new := project_box w_new con in
        let w_new := vdiv w_new (nmax (np_sum w_new) billionth) in
        Ret (w_new, distance w_new w <.? tol))
    (vdiv (ones n) (count_of n)) in
  project_simplex w con.

Definition asset_volatilities (cov : matrix F) : list F := (λ v, m_sqrt (np_maximum v trillionth)) <$> diagonal cov.

Definition maximum_diversification (cov : matrix F) con (n_iter : nat) : outcome string (list F) :=
  let n := length cov in
  let asset_vols := asset_volatilities cov in
  let! w := iterate n_iter (λ w,
      let port_var := variance_of cov w in
      let port_vol := volatility_of cov w in
      let weighted_vol := np_dot w asset_vols in
      let grad_den := vdiv (matvec cov w) port_vol in
      let grad_dr :=
        vdiv (vsub ((λ v, v ⊗ port_vol) <$> asset_vols) (vscale weighted_vol grad_den)) (nmax port_var trillionth) in
      project_simplex (vadd w (vscale (nof_ratio 2 100) grad_dr)) con)
    (vdiv (ones n) (count_of n)) in
  project_simplex w con.

(** ** Analytics *)

Record Analytics := mkAnalytics {
  an_annual_return : F; an_annual_volatility : F; an_sharpe_ratio : F; an_diversification_ratio : F; an_effective_n : F;
  an_weights : list F; an_risk_contributions : list F; an_max_weight : F; an_min_weight : F; an_n_nonzero : nat;
  an_herfindahl_index : F
}.

Definition portfolio_analytics (weights expected_returns : list F) (cov : matrix F) (risk_free : F) : Analytics :=
  let port_ret := np_dot weights expected_returns in
  let port_var := variance_of cov weights in
  let port_vol := volatility_of cov weights in
  let annual := m_sqrt (nof_Z 252) in
  let sharpe := if port_vol >.? billionth then (port_ret ⊖ risk_free) ⊘ port_vol else n0 in
  let rc := vdiv (vmul weights (matvec cov weights)) (nmax port_var trillionth) in
  let div_ratio := if port_vol >.? billionth then np_dot weights (asset_volatilities cov) ⊘ port_vol else n1 in
  let herfindahl := np_sum ((λ w, w ⊗ w) <$> weights) in
  mkAnalytics (nround (port_ret ⊗ nof_Z 252) 4) (nround (port_vol ⊗ annual) 4) (nround (sharpe ⊗ annual) 4)
    (nround div_ratio 4) (nround (n1 ⊘ nmax herfindahl billionth) 2) ((λ w, nround w 4) <$> weights)
    ((λ r, nround r 4) <$> rc) (nround (vmax weights) 4) (nround (vmin weights) 4)
    (length (filter (λ w, (w >.? nof_ratio 1 10000) = true) weights)) (nround herfindahl 4).

(** [np.linspace(a, b, n)], of at least two points: [a + i * step], and the
    end point itself. *)
Definition linspace (a b : F) (n : nat) : list F :=
  let step := (b ⊖ a) ⊘ count_of (n - 1) in
  ((λ i, count_of i ⊗ step ⊕ a) <$> seq 0 (n - 1)) ++ [b].

(** A point of the frontier: return, volatility, Sharpe ratio. *)
Definition efficient_frontier (exp_ret : list F) (cov : matrix F) con (rf_rate : F) (n_points : nat)
    : outcome string (list (F * F * F)) :=
  let min_ret := vmin exp_ret in
  let max_ret := vmax exp_ret in
  if min_ret >=.? max_ret then Ret []
  else
    let annual := m_sqrt (nof_Z 252) in
    foldr (λ target_ret acc,
      let! acc := acc in
      let alpha := (target_ret ⊖ min_ret) ⊘ nmax (max_ret ⊖ min_ret) billionth in
      let! w_mv := minimum_variance cov con 200 (nof_ratio 1 100) in
      let w_mr := <[argmax exp_ret := n1]> (replicate (length exp_ret) n0) in
      let w := vadd (vscale (n1 ⊖ alpha) w_mv) (vscale alpha w_mr) in
      let w := clip (min_weight con) (max_weight con) <$> w in
      let w := vdiv w (nmax (np_sum w) billionth) in
      let port_ret := np_dot w exp_ret in
      let port_vol := volatility_of cov w in
      let sharpe := (port_ret ⊖ rf_rate) ⊘ nmax port_vol billionth in
      Ret ((nround (port_ret ⊗ nof_Z 252) 4, nround (port_vol ⊗ annual) 4, nround (sharpe ⊗ annual) 4) :: acc))
      (Ret []) (linspace min_ret max_ret n_points).

(** ** All methods *)

Definition run_method (m : OptMethod) (exp_ret : list F) (cov : matrix F) (rf_rate : F) con : outcome string (list F) :=
  match m with
  | EQUAL_WEIGHT => equal_weight (length cov) con
  | MIN_VARIANCE => minimum_variance cov con 500 (nof_ratio 1 100)
  | MAX_SHARPE => maximum_sharpe exp_ret cov rf_rate con 500
  | RISK_PARITY => risk_parity cov con 1000 (nof_ratio 1 100000000)
  | MAX_DIVERSIFICATION => maximum_diversification cov con 500
  end.

Definition ALL_METHODS : list OptMethod := [EQUAL_WEIGHT; MIN_VARIANCE; RISK_PARITY; MAX_SHARPE; MAX_DIVERSIFICATION].

(** The portfolios by name and the errors: a method that fails gets equal
    weights, whose own failure is the whole run's. *)
Fixpoint run_methods (ms : list OptMethod) (exp_ret : list F) (cov : matrix F) (rf_rate : F) con
    : outcome string (list (string * list F) * list (string * string)) :=
  match ms with
  | [] => Ret ([], [])
  | m :: ms =>
      match run_method m exp_ret cov rf_rate con with
      | Ret w =>
          let! r := run_methods ms exp_ret cov rf_rate con in
          Ret ((method_value m, w) :: r.1, r.2)
      | Raise why =>
          let! w := equal_weight (length cov) con in
          let! r := run_methods ms exp_ret cov rf_rate con in
          Ret ((method_value m, w) :: r.1, (method_value m, why) :: r.2)
      end
  end.

(** [cov + (abs(min_eig) + 1e-6) * np.eye(N)] when it is not positive enough. *)
Definition regularised (cov : matrix F) : matrix F :=
  let min_eig := vmin (la_eigvalsh cov) in
  if min_eig <.? nof_ratio 1 100000000 then
    let c := nabs min_eig ⊕ nof_ratio 1 1000000 in
    square (length cov) (λ i j, entry cov i j ⊕ c ⊗ (if i =? j then n1 else n0))
  else cov.

(** The signal-weighted portfolio. *)
Definition sba_portfolio (n : nat) (signals : list F) con : outcome string (list F) :=
  let w := (λ s, np_maximum s n0) <$> signals in
  if np_sum w >.? billionth then Ret (normalised w) else equal_weight n con.

Record OptimizationReport := mkOptimizationReport {
  op_portfolios : list (string * Analytics); op_ranked : list (string * F); op_frontier : list (F * F * F);
  op_errors : list (string * string)
}.

(** [run_portfolio_optimization], with the covariance of the method it was
    asked for; [None] is its dict with ["error"]. *)
Definition run_portfolio_optimization (returns : matrix F) (n : nat) (covariance : matrix F) (rf_rate : F) con
    (sba_signals : option (list F)) (previous_weights : option (list F)) (turnover_penalty risk_aversion : F)
    : outcome string (option OptimizationReport) :=
  if (length returns <? 30) || (n <? 2) then Ret None
  else
    let cov := regularised covariance in
    let exp_ret := np_mean <$> transpose n returns in
    let! r := run_methods ALL_METHODS exp_ret cov rf_rate con in
    let '(methods, errors) := r in
    let '(methods, errors) :=
      match previous_weights with
      | Some prev =>
          match turnover_aware_mean_variance exp_ret cov prev risk_aversion turnover_penalty con 800 (nof_ratio 2 100) with
          | Ret w => (methods ++ [("turnover_aware_mean_variance", w)], errors)
          | Raise why => (methods, errors ++ [("turnover_aware_mean_variance", why)])
          end
      | None => (methods, errors)
      end in
    let! methods :=
      match sba_signals with
      | Some s => if length s =? n then let! w := sba_portfolio n s con in Ret (methods ++ [("sba_signal", w)]) else Ret methods
      | None => Ret methods
      end in
    let analytics := (λ kw, (kw.1, portfolio_analytics kw.2 exp_ret cov rf_rate)) <$> methods in
    let! frontier := efficient_frontier exp_ret cov con rf_rate 30 in
    (* [sorted(..., reverse=True)] keeps the order of equal keys *)
    let ranked := sort_key (λ ks, nopp ks.2) ((λ ka, (ka.1, an_sharpe_ratio ka.2)) <$> analytics) in
    Ret (Some (mkOptimizationReport analytics ((λ ks, (ks.1, nround ks.2 4)) <$> ranked) frontier errors)).
End optimisation.

#[local] Close Scope nat_scope.
(** * Theorems

    Portfolio optimisation: the projection is the closest admissible
    portfolio, and what each method promises of its weights. *)

#[local] Open Scope Q_scope.

(** ** Sums *)

Lemma qsum_fmap_cons {A} (f : A → Q) x l : qsum (f <$> x :: l) = f x + qsum (f <$> l).
Proof. done. Qed.

Lemma qsum_fmap_le {A} (f g : A → Q) l : (∀ x, x ∈ l → f x <= g x) → qsum (f <$> l) <= qsum (g <$> l).
Proof.
  induction l as [|x l IH]; intros Hfg; [apply Qle_refl|]. pose proof (Hfg x ltac:(by left)).
  rewrite !qsum_fmap_cons. assert (qsum (f <$> l) <= qsum (g <$> l)) by (apply IH; intros; apply Hfg; by right). lra.
Qed.

Definition size {A} (l : list A) : Q := inject_Z (Z.of_nat (length l)).

Lemma size_cons {A} (x : A) l : size (x :: l) == 1 + size l.
Proof. unfold size. cbn [length]. rewrite Nat2Z.inj_succ, <- Z.add_1_l, inject_Z_plus. reflexivity. Qed.

Lemma size_nonneg {A} (l : list A) : 0 <= size l.
Proof. unfold size. change 0 with (inject_Z 0). rewrite <- Zle_Qle. lia. Qed.

Lemma qsum_fmap_const {A} (f : A → Q) c l : (∀ x, x ∈ l → f x == c) → qsum (f <$> l) == size l * c.
Proof.
  induction l as [|x l IH]; intros Hc; [unfold size; cbn; ring|]. rewrite size_cons, qsum_fmap_cons.
  rewrite IH by (intros; apply Hc; by right). rewrite (Hc x ltac:(by left)). ring.
Qed.

Lemma qsum_fmap_lipschitz {A} (f g : A → Q) c l : (∀ x, x ∈ l → f x <= g x + c) → qsum (f <$> l) <= qsum (g <$> l) + size l * c.
Proof.
  induction l as [|x l IH]; intros Hfg; [change (0 <= 0 + 0 * c); lra|]. rewrite size_cons, !qsum_fmap_cons.
  pose proof (Hfg x ltac:(by left)).
  assert (qsum (f <$> l) <= qsum (g <$> l) + size l * c) by (apply IH; intros; apply Hfg; by right). lra.
Qed.

(** ** The projection *)

Section projection.
Context `{NumPy Q} `{!NumPyExact}.
Variables lower upper : Q.
Variable w : list Q.
Hypothesis box : lower <= upper.

Definition mass (theta : Q) : Q := qsum (shifted lower upper theta w).

Lemma mass_mono t t' : t <= t' → mass t' <= mass t.
Proof. intros Ht. apply qsum_fmap_le. intros x _. apply clip_mono. cbn. lra. Qed.

Lemma mass_lipschitz t t' : t <= t' → mass t <= mass t' + size w * (t' - t).
Proof.
  intros Ht. apply qsum_fmap_lipschitz. intros x _. cbn [nsub Num_Q].
  pose proof (clip_lipschitz lower upper (x - t') (x - t) box ltac:(lra)). lra.
Qed.

Lemma shifted_box t x : x ∈ shifted lower upper t w → lower <= x ∧ x <= upper.
Proof. intros (y & -> & _)%list_elem_of_fmap. by apply clip_Q. Qed.

Lemma mass_start : mass (vmin w - upper) == size w * upper.
Proof.
  apply qsum_fmap_const. intros x Hx. pose proof (vmin_Q w x Hx). cbn [nsub Num_Q]. unfold clip, nmax, nmin.
  destruct (_ <.? lower) eqn:E1; qsimpl; [lra|]. destruct (upper <.? _) eqn:E2; qsimpl; lra.
Qed.

Lemma mass_end : mass (vmax w - lower) == size w * lower.
Proof.
  apply qsum_fmap_const. intros x Hx. pose proof (vmax_Q w x Hx). cbn [nsub Num_Q]. unfold clip, nmax, nmin.
  destruct (_ <.? lower) eqn:E1; qsimpl; [destruct (upper <.? lower) eqn:E2; qsimpl; lra|].
  destruct (upper <.? _) eqn:E2; qsimpl; lra.
Qed.

(** The bisection keeps the mass around one and halves its interval. *)
Lemma bisect_spec turns lo hi lo' hi' e :
  0 <= e → bisect turns lower upper w lo hi = (lo', hi') → lo <= hi → 1 - e <= mass lo → mass hi <= 1 + e →
  lo' <= hi' ∧ (hi' - lo') * inject_Z (2 ^ Z.of_nat turns) == hi - lo ∧ 1 - e <= mass lo' ∧ mass hi' <= 1 + e.
Proof.
  intros He. revert lo hi. induction turns as [|turns IH]; intros lo hi; cbn [bisect].
  { intros [= <- <-] ???. split_and!; try done. change (inject_Z (2 ^ Z.of_nat 0)) with 1. ring. }
  set (theta := half (lo ⊕ hi)). assert (theta == (lo + hi) / 2) as Et by (unfold theta, half; cbn; reflexivity).
  intros Hb Hlh Hlo Hhi.
  assert (inject_Z (2 ^ Z.of_nat (S turns)) == 2 * inject_Z (2 ^ Z.of_nat turns)) as Epow.
  { rewrite Nat2Z.inj_succ, Z.pow_succ_r by lia. by rewrite inject_Z_mult. }
  assert (lo <= theta ∧ theta <= hi) as [Hlt Hth] by (rewrite Et; split; [apply Qle_shift_div_l|apply Qle_shift_div_r]; lra).
  destruct (n1 <.? np_sum (shifted lower upper theta w)) eqn:E; qsimpl; rewrite np_sum_exact in E; change n1 with 1 in E;
    fold (mass theta) in E; apply IH in Hb as (? & Hw & ? & ?); try done; try lra;
    (split_and!; [done| |done..]); rewrite Epow;
    (set (p := inject_Z (2 ^ Z.of_nat turns)) in *; assert ((hi' - lo') * (2 * p) == 2 * ((hi' - lo') * p)) as -> by ring);
    rewrite Hw, Et; field.
Qed.
End projection.

(** ** The closest admissible portfolio *)

Definition square_distance (xs ys : list Q) : Q := qsum (zip_with (λ x y, (x - y) * (x - y)) xs ys).

Lemma clip_variational lower upper z y :
  lower <= upper → lower <= y → y <= upper → 0 <= (clip lower upper z - z) * (y - clip lower upper z).
Proof.
  intros Hlu Hl Hu. unfold clip, nmax, nmin. destruct (z <.? lower) eqn:E1; qsimpl.
  - destruct (upper <.? lower) eqn:E2; qsimpl; [lra|]. apply Qmult_le_0_compat; lra.
  - destruct (upper <.? z) eqn:E2; qsimpl; [|nra].
    assert ((upper - z) * (y - upper) == (z - upper) * (upper - y)) as -> by ring. apply Qmult_le_0_compat; lra.
Qed.

Lemma shifted_closest lower upper t (w ys : list Q) :
  lower <= upper → length ys = length w → (∀ y, y ∈ ys → lower <= y ∧ y <= upper) →
  square_distance (shifted lower upper t w) w - 2 * t * (qsum ys - qsum (shifted lower upper t w)) <= square_distance ys w.
Proof.
  intros Hlu. revert ys. induction w as [|x w IH]; intros [|y ys] Hl Hbox; try done; [cbn; lra|]. injection Hl as Hl.
  specialize (IH ys Hl ltac:(intros; apply Hbox; by right)). destruct (Hbox y ltac:(by left)) as [H1 H2].
  pose proof (clip_variational lower upper (x ⊖ t) y Hlu H1 H2) as Hv. unfold square_distance, shifted, qsum in *.
  cbn [fmap list_fmap zip_with foldr] in *. set (c := clip lower upper (x ⊖ t)) in *. cbn [nsub Num_Q] in *.
  assert ((y - x) * (y - x) == (c - x) * (c - x) + (y - c) * (y - c) + 2 * ((c - (x - t)) * (y - c)) - 2 * t * (y - c)) as E by ring.
  pose proof (square_nonneg_Q (y - c)). set (s1 := foldr Qplus 0 (zip_with _ _ w)) in *. set (s2 := foldr Qplus 0 _) in *.
  set (s3 := foldr Qplus 0 ys) in *. set (s4 := foldr Qplus 0 _) in *. nra.
Qed.

(** ** Projecting onto the simplex *)

Section methods.
Context `{NumPy Q} `{!NumPyExact} `{LinAlg Q}.
Implicit Types con : PortfolioConstraints Q.

Definition lower_of con : Q := nmax 0 (min_weight con).
Definition in_box con (w : list Q) : Prop := ∀ x, x ∈ w → lower_of con <= x ∧ x <= max_weight con.

(** By how much the box may miss a sum of one: not at all when it holds a
    portfolio, and otherwise what the feasibility test lets pass. *)
Definition box_slack con (w : list Q) : Q :=
  if Qle_bool (size w * lower_of con) 1 && Qle_bool 1 (size w * max_weight con) then 0 else trillionth.

(** The most the sum may differ from one: each weight is off by at most half
    of the interval that eighty halvings leave, and the box's slack. *)
Definition simplex_tolerance con (w : list Q) : Q :=
  box_slack con w + size w * (vmax w - vmin w + max_weight con - lower_of con) / inject_Z (2 ^ 81).

Lemma project_simplex_form w con xs :
  project_simplex w con = Ret xs →
  w ≠ [] ∧ lower_of con <= max_weight con ∧
  size w * lower_of con <= 1 + trillionth ∧ 1 - trillionth <= size w * max_weight con ∧
  ∃ lo hi, bisect 80 (lower_of con) (max_weight con) w (vmin w - max_weight con) (vmax w - lower_of con) = (lo, hi) ∧
    xs = shifted (lower_of con) (max_weight con) (half (lo ⊕ hi)) w.
Proof.
  unfold project_simplex. destruct w as [|x w]; [done|]. remember (x :: w) as v eqn:Ev. destruct (negb _); [done|].
  change (nmax n0 (min_weight con)) with (lower_of con).
  destruct ((lower_of con >.? max_weight con) || _ || _) eqn:E; [done|]. bsimpl. qsimpl.
  destruct (bisect _ _ _ _ _ _) as [lo hi] eqn:Eb. intros [= <-]. split; [by subst|]. split; [done|].
  change (count_of (length v)) with (size v) in *. change n1 with 1 in *. cbn [nadd nsub nmul Num_Q] in *.
  split_and!; [rewrite (Qmult_comm (size v)); lra|rewrite (Qmult_comm (size v)); lra|]. by exists lo, hi.
Qed.

Lemma project_simplex_box w con xs : project_simplex w con = Ret xs → length xs = length w ∧ in_box con xs.
Proof.
  intros (_ & Hbox & _ & _ & lo & hi & _ & ->)%project_simplex_form. split; [by unfold shifted; rewrite length_fmap|].
  intros x Hx. by eapply shifted_box.
Qed.

Lemma project_simplex_sum w con xs : project_simplex w con = Ret xs → Qabs (qsum xs - 1) <= simplex_tolerance con w.
Proof.
  intros (Hne & Hbox & Hl & Hu & lo & hi & Hb & ->)%project_simplex_form.
  set (l := lower_of con) in *. set (u := max_weight con) in *.
  assert (vmin w <= vmax w) as Hspread.
  { destruct w as [|x w']; [done|]. pose proof (vmin_Q (x :: w') x ltac:(by left)). pose proof (vmax_Q (x :: w') x ltac:(by left)). lra. }
  assert (0 <= box_slack con w ∧ size w * l <= 1 + box_slack con w ∧ 1 - box_slack con w <= size w * u) as (Ht & Hl' & Hu').
  { unfold box_slack. fold l u. destruct (Qle_bool _ 1 && Qle_bool 1 _) eqn:E.
    - apply andb_true_iff in E as [F1 F2]. rewrite Qle_bool_iff in F1, F2. split_and!; lra.
    - split_and!; [vm_compute; discriminate|exact Hl|exact Hu]. }
  clear Hl Hu. apply (bisect_spec l u w 80 _ _ lo hi (box_slack con w)) in Hb as (Hlh & Hw & Hlo & Hhi); [|done|lra| |].
  2:{ rewrite mass_start by done. lra. }
  2:{ rewrite mass_end by done. lra. }
  set (theta := half (lo ⊕ hi)). assert (theta == (lo + hi) / 2) as Et by (unfold theta, half; cbn; reflexivity).
  assert (lo <= theta ∧ theta <= hi) as [Hlt Hth] by (rewrite Et; split; [apply Qle_shift_div_l|apply Qle_shift_div_r]; lra).
  change (Qabs (mass l u w theta - 1) <= simplex_tolerance con w).
  pose proof (mass_lipschitz l u w Hbox lo theta Hlt) as M1. pose proof (mass_lipschitz l u w Hbox theta hi Hth) as M2.
  assert (theta - lo == (hi - lo) / 2) as E1 by (rewrite Et; field). assert (hi - theta == (hi - lo) / 2) as E2 by (rewrite Et; field).
  rewrite E1 in M1. rewrite E2 in M2.
  assert (size w * ((hi - lo) / 2) == size w * (vmax w - vmin w + u - l) / inject_Z (2 ^ 81)) as E3.
  { assert (hi - lo == (vmax w - vmin w + u - l) / inject_Z (2 ^ 80)) as ->.
    { assert (vmax w - vmin w + u - l == vmax w - l - (vmin w - u)) as -> by ring. change (Z.of_nat 80) with 80%Z in Hw.
      rewrite <- Hw. field. discriminate. }
    change (inject_Z (2 ^ 81)) with (inject_Z (2 * 2 ^ 80)). rewrite inject_Z_mult. field. discriminate. }
  rewrite E3 in M1, M2. apply Qabs_Qle_condition. unfold simplex_tolerance. fold l u. split; lra.
Qed.

(** The box holds some portfolio of [n] weights, up to the code's slack. *)
Definition feasible con (w : list Q) : Prop :=
  lower_of con <= max_weight con ∧ size w * lower_of con <= 1 + trillionth ∧ 1 - trillionth <= size w * max_weight con.

Lemma project_simplex_raises w con why : project_simplex w con = Raise why → w = [] ∨ long_only con = false ∨ ¬ feasible con w.
Proof.
  unfold project_simplex. destruct w as [|x w]; [by left|]. remember (x :: w) as v eqn:Ev. destruct (long_only con); [|auto].
  cbn [negb]. change (nmax n0 (min_weight con)) with (lower_of con).
  destruct ((lower_of con >.? max_weight con) || _ || _) eqn:E; [|by destruct (bisect _ _ _ _ _ _)].
  intros _. right. right. intros (F1 & F2 & F3). rewrite !orb_true_iff in E. change (count_of (length v)) with (size v) in E.
  change n1 with 1 in E. cbn [nadd nsub nmul Num_Q] in E. rewrite (Qmult_comm (size v)) in F2, F3.
  destruct E as [[E|E]|E]; qsimpl; lra.
Qed.


(** ** The methods *)

Lemma qsum_clip_bounds (l : list Q) : (∀ x, x ∈ l → 0 <= x) → ∀ x, x ∈ l → x <= qsum l.
Proof.
  induction l as [|y l IH]; intros Hl x; [by intros []%not_elem_of_nil|]. change (qsum (y :: l)) with (y + qsum l).
  assert (0 <= qsum l).
  { clear IH. assert (∀ x, x ∈ l → 0 <= x) as Hl' by (intros; apply Hl; by right). clear Hl. induction l as [|z l IH]; [cbn; lra|].
    change (qsum (z :: l)) with (z + qsum l). pose proof (Hl' z ltac:(by left)).
    assert (0 <= qsum l) by (apply IH; intros; apply Hl'; by right). lra. }
  pose proof (Hl y ltac:(by left)). intros [->|Hx]%elem_of_cons; [lra|].
  assert (x <= qsum l) by (apply IH; [intros; apply Hl; by right|done]). lra.
Qed.

Lemma normalised_box (l : list Q) : (∀ x, x ∈ l → 0 <= x) → 0 < qsum l → ∀ x, x ∈ normalised l → 0 <= x ∧ x <= 1.
Proof.
  intros Hl Hs x (y & -> & Hy)%list_elem_of_fmap. assert (0 < np_sum l) as Hn by (by rewrite np_sum_exact).
  pose proof (qsum_clip_bounds l Hl y Hy) as Hys. rewrite <- np_sum_exact in Hys. pose proof (Hl y Hy). cbn [ndiv Num_Q].
  split; [apply Qle_shift_div_l|apply Qle_shift_div_r]; lra.
Qed.

Lemma normalised_sum (l : list Q) : 0 < qsum l → qsum (normalised l) == 1.
Proof.
  intros Hs. assert (∀ l', qsum (vdiv l' (np_sum l)) == qsum l' / qsum l) as Hf; [|unfold normalised; rewrite Hf; field; lra].
  induction l' as [|x l' IH]; [cbn; field; lra|]. unfold vdiv in *. rewrite qsum_fmap_cons, IH. cbn [ndiv Num_Q].
  rewrite np_sum_exact. change (qsum (x :: l')) with (x + qsum l'). field. lra.
Qed.

Lemma clipped_sum (l : list Q) : qsum l <= qsum (clip 0 1 <$> l) + size l * 0 ∨ ∃ x, x ∈ l ∧ 1 < x.
Proof.
  induction l as [|x l IH]; [left; change (0 <= 0 + 0 * 0); lra|]. destruct (Qlt_le_dec 1 x) as [Hx1|Hx1]; [right; exists x; split; [by left|done]|].
  destruct IH as [IH|(y & ? & ?)]; [left|right; exists y; split; [by right|done]].
  rewrite size_cons, qsum_fmap_cons. change (qsum (x :: l)) with (x + qsum l).
  assert (x <= clip 0 1 x); [|lra]. unfold clip, nmax, nmin. destruct (x <.? 0) eqn:E1; qsimpl;
    [destruct (1 <.? 0) eqn:E2; qsimpl; lra|destruct (1 <.? x) eqn:E2; qsimpl; lra].
Qed.

Lemma clipped_positive (l : list Q) : qsum l == 1 → 0 < qsum (clip 0 1 <$> l).
Proof.
  intros Hs. destruct (clipped_sum l) as [Hc|(x & Hx & Hx1)]; [lra|].
  assert (clip 0 1 x <= qsum (clip 0 1 <$> l)) as Hle.
  { apply qsum_clip_bounds; [|by apply list_elem_of_fmap_2]. intros y (z & -> & _)%list_elem_of_fmap. apply clip_Q. lra. }
  assert (clip 0 1 x == 1) as E; [|lra]. unfold clip, nmax, nmin. destruct (x <.? 0) eqn:E1; qsimpl; [lra|].
  destruct (1 <.? x) eqn:E2; qsimpl; lra.
Qed.

(** Weights that were normalised, clipped to [0, 1] and normalised again. *)
Lemma closed_form_weights (v : list Q) :
  0 < qsum v → let w := normalised (clip 0 1 <$> normalised v) in qsum w == 1 ∧ ∀ x, x ∈ w → 0 <= x ∧ x <= 1.
Proof.
  intros Hv. cbn zeta. pose proof (clipped_positive _ (normalised_sum v Hv)) as Hc. split; [by apply normalised_sum|].
  apply normalised_box; [|done]. intros y (z & -> & _)%list_elem_of_fmap. apply clip_Q. lra.
Qed.

(** Weights of a method: within the bounds, and either exactly normalised or
    the projection of some weights. *)
Definition admissible con (w : list Q) : Prop :=
  in_box con w ∧ (qsum w == 1 ∨ ∃ v, project_simplex v con = Ret w).

Lemma projected_admissible v con w : project_simplex v con = Ret w → admissible con w.
Proof. intros Hp. split; [by eapply project_simplex_box|right; by exists v]. Qed.

Lemma iterate_until_inv (P : list Q → Prop) n body w w' :
  (∀ v r, P v → body v = Ret r → P r.1) → P w → iterate_until n body w = Ret w' → P w'.
Proof.
  intros Hb. revert w. induction n as [|n IH]; intros w Hw; cbn [iterate_until]; [by intros [= <-]|].
  intros (r & Hr & Hrest)%obind_Ret. pose proof (Hb w r Hw Hr). destruct r.2; [by injection Hrest as <-|by eapply IH].
Qed.

Lemma minimum_variance_admissible cov con n lr w : minimum_variance cov con n lr = Ret w → admissible con w.
Proof.
  unfold minimum_variance. destruct (min_variance_closed_form cov con) as [v|] eqn:E.
  2:{ intros (v & _ & Hp)%obind_Ret. by eapply projected_admissible. }
  intros [= <-]. revert E. unfold min_variance_closed_form.
  destruct (long_only con && _ && _) eqn:Ec; [|done]. bsimpl. qsimpl. change (n0 (F:=Q)) with 0 in *. change (n1 (F:=Q)) with 1 in *.
  destruct (la_pinv cov) as [inv|]; [|done]. cbn [mbind option_bind]. change (np_sum _ >.? billionth) with (billionth <.? np_sum (matvec inv (ones (length cov)))).
  destruct (billionth <.? np_sum (matvec inv (ones (length cov)))) eqn:Es; [|done]. qsimpl. rewrite np_sum_exact in Es.
  assert (0 < billionth (F:=Q)) by done. destruct (near_nonneg _); [|done]. intros [= <-].
  destruct (closed_form_weights (matvec inv (ones (length cov)))) as [Hsum Hbox]; [lra|]. split; [|by left].
  intros x Hx. destruct (Hbox x Hx). unfold lower_of, nmax. destruct (0 <.? min_weight con) eqn:El; qsimpl; split; lra.
Qed.

(** The portfolios respect their constraints: whatever the covariance, the
    expected returns and the constraints, every weight that equal weighting,
    minimum variance, risk parity, maximum diversification or the
    turnover-aware method answers is within the bounds, and the weights were
    either normalised to a sum of exactly one or are a projection onto the
    admissible portfolios. *)
Theorem optimised_weights_admissible exp_ret cov rf con w :
  (∃ m, m ≠ MAX_SHARPE ∧ run_method m exp_ret cov rf con = Ret w) ∨
  (∃ prev aversion penalty n lr, turnover_aware_mean_variance exp_ret cov prev aversion penalty con n lr = Ret w) →
  admissible con w.
Proof.
  intros [(m & Hm & Hr)|(prev & aversion & penalty & n & lr & Hr)].
  - destruct m; cbn [run_method] in Hr; [by eapply minimum_variance_admissible|done|..].
    + apply obind_Ret in Hr as (v & _ & Hp). by eapply projected_admissible.
    + apply obind_Ret in Hr as (v & _ & Hp). by eapply projected_admissible.
    + unfold equal_weight in Hr. destruct (length cov); [done|]. by eapply projected_admissible.
  - unfold turnover_aware_mean_variance in Hr. destruct (negb _); [done|]. destruct (_ || _); [done|].
    apply obind_Ret in Hr as (v & Hp & Hr). eapply (iterate_until_inv (admissible con)); [|by eapply projected_admissible|exact Hr].
    intros u r _ (u' & Hp' & [= <-])%obind_Ret. by eapply projected_admissible.
Qed.
End methods.


(** At two uncorrelated assets of the same variance: half in each. *)
Lemma optimised_weights_admissible_witness :
  ∃ w, run_method MIN_VARIANCE [1; 2] (eye 2) 0 unconstrained = Ret w ∧ admissible unconstrained w.
Proof.
  eexists. split; [by vm_compute|]. apply (optimised_weights_admissible [1; 2] (eye 2) 0 unconstrained). left.
  exists MIN_VARIANCE. split; [done|]. by vm_compute.
Defined.

(** The maximum Sharpe portfolio's closed form is the exception: it does not
    look at the bounds. Two uncorrelated assets with three to one expected
    returns get three quarters and a quarter, at most three fifths asked. *)
Example max_sharpe_closed_form_ignores_the_bounds :
  let con := mkConstraints true 0 (3 # 5) 1 None in
  feasible con [3; 1] ∧ ∃ w, run_method MAX_SHARPE [3; 1] (eye 2) 0 con = Ret w ∧ Qred <$> w = [3 # 4; 1 # 4].
Proof. split; [by vm_compute|]. eexists. split; by vm_compute. Qed.
