(* ===== verification/RegimeDetection.v ===== *)
(** backend/services/regime_detection.py: which regime the market is in, by a
    two-state hidden Markov model, by volatility and by trend. A NaN of the
    rolling arrays is [None]; a dict with ["error"] is [None]. *)

From Stdlib Require Import QArith Qabs Lqa.
From S2P Require Import Prelude Numeric StrategySignals RiskMetrics Vectors Matrices.
#[local] Open Scope nat_scope.

Inductive VolRegime := LOW | MED | HIGH | CRISIS.
Inductive TrendRegime := BULL | BEAR | SIDEWAYS.

#[global] Instance VolRegime_eq_dec : EqDecision VolRegime.
Proof. solve_decision. Defined.
#[global] Instance TrendRegime_eq_dec : EqDecision TrendRegime.
Proof. solve_decision. Defined.

Definition vol_value (r : VolRegime) : string :=
  match r with LOW => "low_vol" | MED => "med_vol" | HIGH => "high_vol" | CRISIS => "crisis" end.
Definition trend_value (r : TrendRegime) : string :=
  match r with BULL => "bull" | BEAR => "bear" | SIDEWAYS => "sideways" end.

(** [str(l)] of a label that may be ["unknown"]. *)
Definition label_text {A} (value : A → string) (l : option A) : string := from_option value "unknown" l.

Section regimes.
Context {F : Type} `{Num F} `{NumPy F}.
(** [math.pi]; [np.abs(vals - 1.0)] and [np.real(vecs)] of [np.linalg.eig]. *)
Variable m_pi : F.
Variable eig_near_one : matrix F → option (list F * matrix F).

(** ** The hidden Markov model *)

Definition tiny : F := nof_ratio 1 (10 ^ 300)%positive.
Definition n_states : nat := 2.

Record GaussianHMM := mkHMM { hm_pi : list F; hm_A : matrix F; hm_means : list F; hm_stds : list F }.

Definition gaussian_pdf (x mu sigma : F) : F :=
  let z := (x ⊖ mu) ⊘ nmax sigma (nof_ratio 1 1000000000) in
  m_exp (nof_ratio (-1) 2 ⊗ z ⊗ z) ⊘ (sigma ⊗ m_sqrt (nof_Z 2 ⊗ m_pi)).

Definition emission_probs (h : GaussianHMM) (x : F) : list F :=
  (λ k, np_maximum (gaussian_pdf x (at_ (hm_means h) k) (at_ (hm_stds h) k)) tiny) <$> seq 0 n_states.

(** [v @ A] *)
Definition vecmat (v : list F) (m : matrix F) : list F := np_dot v <$> transpose n_states m.

(** [v /= max(v.sum(), 1e-300)] *)
Definition scaled (v : list F) : list F := vdiv v (nmax (np_sum v) tiny).

(** The rows after the first, from the row before: [alpha[t]] and [scale[t]]. *)
Fixpoint forward_from (h : GaussianHMM) (prev : list F) (obs : list F) : list (list F * F) :=
  match obs with
  | [] => []
  | x :: obs =>
      let a := vmul (vecmat prev (hm_A h)) (emission_probs h x) in
      (scaled a, np_sum a) :: forward_from h (scaled a) obs
  end.
Definition forward (h : GaussianHMM) (obs : list F) : list (list F * F) :=
  match obs with
  | [] => []
  | x :: obs =>
      let a := vmul (hm_pi h) (emission_probs h x) in
      (scaled a, np_sum a) :: forward_from h (scaled a) obs
  end.

Fixpoint backward (h : GaussianHMM) (obs : list F) : list (list F) :=
  match obs with
  | [] => []
  | [_] => [replicate n_states n1]
  | _ :: (x :: _) as rest =>
      let bs := backward h rest in
      scaled (matvec (hm_A h) (vmul (emission_probs h x) (default [] (head bs)))) :: bs
  end.

Definition gamma_row (a b : list F) : list F := let g := vmul a b in vdiv g (np_maximum (np_sum g) tiny).

(** [xi_t] of a step: [np.outer(alpha[t], em * beta[t + 1]) * A], scaled. *)
Definition xi_step (h : GaussianHMM) (alpha em beta_next : list F) : matrix F :=
  let xi := square n_states (λ i j, at_ alpha i ⊗ (at_ em j ⊗ at_ beta_next j) ⊗ entry (hm_A h) i j) in
  mat_map (λ x, x ⊘ nmax (np_sum (concat xi)) tiny) xi.

Definition mat_add (a b : matrix F) : matrix F := zip_with vadd a b.

(** [alphas] of every step but the last, with the observation and the [beta]
    of the step after. *)
Fixpoint xi_total (h : GaussianHMM) (alphas : list (list F)) (next : list (F * list F)) (acc : matrix F) : matrix F :=
  match alphas, next with
  | a :: alphas, (x, b) :: next => xi_total h alphas next (mat_add acc (xi_step h a (emission_probs h x) b))
  | _, _ => acc
  end.

Definition transition_row (xi_row old : list F) : list F :=
  let row_sum := np_sum xi_row in
  if row_sum >.? nof_ratio 1 1000000000000 then vdiv xi_row row_sum else old.

(** The mean and the deviation of a state. *)
Definition emission_update (gamma : list (list F)) (obs : list F) (k : nat) : F * F :=
  let w := column k gamma in
  let w_sum := nmax (np_sum w) (nof_ratio 1 1000000000000) in
  let mean := np_sum (vmul w obs) ⊘ w_sum in
  let var := np_sum (vmul w ((λ x, (x ⊖ mean) ⊗ (x ⊖ mean)) <$> obs)) ⊘ w_sum in
  (mean, nmax (m_sqrt var) (nof_ratio 1 1000000)).

(** One turn of the EM loop: the new parameters and the log-likelihood. *)
Definition em_step (h : GaussianHMM) (obs : list F) : GaussianHMM * F :=
  let rows := forward h obs in
  let alpha := fst <$> rows in
  let beta := backward h obs in
  let gamma := zip_with gamma_row alpha beta in
  let xi_sum := xi_total h alpha (tail (zip obs beta)) (square n_states (λ _ _, n0)) in
  let emissions := emission_update gamma obs <$> seq 0 n_states in
  (mkHMM (default [] (head gamma)) (zip_with transition_row xi_sum (hm_A h)) (fst <$> emissions) (snd <$> emissions),
   np_sum ((λ s, m_log (np_maximum s tiny)) <$> (snd <$> rows))).

Fixpoint em_loop (n : nat) (tol : F) (obs : list F) (prev_ll : option F) (h : GaussianHMM) : GaussianHMM :=
  match n with
  | O => h
  | S n =>
      let '(h, ll) := em_step h obs in
      if match prev_ll with Some p => nabs (ll ⊖ p) <.? tol | None => false end then h
      else em_loop n tol obs (Some ll) h
  end.

Definition initial_A : matrix F := [[nof_ratio 95 100; nof_ratio 5 100]; [nof_ratio 10 100; nof_ratio 90 100]].

Definition initial_hmm (obs : list F) : GaussianHMM :=
  let T := length obs in
  let sorted_obs := sort_key id obs in
  let halves := [take (T / 2) sorted_obs; drop (T / 2) sorted_obs] in
  mkHMM [nof_ratio 1 2; nof_ratio 1 2] initial_A (np_mean <$> halves)
    ((λ xs, nmax (np_std 0 xs) (nof_ratio 1 1000000)) <$> halves).

Definition fit (n_iter : nat) (tol : F) (obs : list F) : GaussianHMM := em_loop n_iter tol obs None (initial_hmm obs).

(** *** Viterbi *)

Definition np_log (v : list F) : list F := m_log <$> v.
Definition floored_log (x : F) : F := m_log (np_maximum x tiny).

(** [viterbi[t - 1] + log_A[:, k]] *)
Definition candidates (log_A : matrix F) (v : list F) (k : nat) : list F := vadd v (column k log_A).

Definition viterbi_step (log_A : matrix F) (v log_em : list F) : list nat * list F :=
  let step k := let c := candidates log_A v k in (argmax c, at_ c (argmax c) ⊕ at_ log_em k) in
  (fst ∘ step <$> seq 0 n_states, snd ∘ step <$> seq 0 n_states).

(** The back pointers of every step after the first, and the last row. *)
Fixpoint viterbi_table (log_A : matrix F) (v : list F) (log_ems : list (list F)) : list (list nat) * list F :=
  match log_ems with
  | [] => ([], v)
  | e :: log_ems =>
      let '(b, v) := viterbi_step log_A v e in
      let '(bs, last) := viterbi_table log_A v log_ems in (b :: bs, last)
  end.

(** [states[t] = backptr[t + 1, states[t + 1]]], from the last state. *)
Fixpoint backtrack (bs : list (list nat)) (last : nat) : list nat :=
  match bs with
  | [] => [last]
  | b :: bs => let states := backtrack bs last in default 0 (b !! default 0 (head states)) :: states
  end.

(** [None]: an empty series raises an IndexError. *)
Definition predict (h : GaussianHMM) (obs : list F) : option (list nat * list (list F)) :=
  match obs with
  | [] => None
  | x :: rest =>
      let first := vadd (floored_log <$> hm_pi h) (np_log (emission_probs h x)) in
      let log_A := mat_map floored_log (hm_A h) in
      let '(bs, last) := viterbi_table log_A first ((λ x, np_log (emission_probs h x)) <$> rest) in
      Some (backtrack bs (argmax last), fst <$> forward h obs)
  end.

(** [np.argmin] *)
Definition argmin (xs : list F) : nat := argmax (nopp <$> xs).

Definition steady_state (h : GaussianHMM) : option (list F) :=
  r ← eig_near_one (transpose n_states (hm_A h));
  let ss := nabs <$> column (argmin r.1) r.2 in
  Some (vdiv ss (np_sum ss)).

(** ** Statistics of a regime *)

Record RegimeStats := mkRegimeStats {
  rs_count : nat; rs_pct_of_time : F; rs_ann_return : F; rs_ann_vol : F; rs_sharpe : F
}.

(** The returns under the mask, when there are more than two. *)
Definition regime_stats (mask : list bool) (returns : list F) : option RegimeStats :=
  let r := snd <$> filter (λ mr, mr.1 = true) (zip mask returns) in
  if length r <=? 2 then None
  else
    Some (mkRegimeStats (length (filter (λ b, b = true) mask))
      (nround (np_mean ((λ b : bool, if b then n1 else n0) <$> mask)) 4)
      (nround (np_mean r ⊗ nof_Z 252) 4) (nround (np_std 1 r ⊗ m_sqrt (nof_Z 252)) 4)
      (nround (np_mean r ⊘ nmax (np_std 1 r) (nof_ratio 1 1000000000) ⊗ m_sqrt (nof_Z 252)) 4)).

(** The statistics of each regime that has any. *)
Definition all_stats {A} `{EqDecision A} (regimes : list A) (labels : list (option A)) (returns : list F)
    : list (A * RegimeStats) :=
  omap (λ regime, s ← regime_stats ((λ l, bool_decide (l = Some regime)) <$> labels) returns; Some (regime, s)) regimes.

(** ** Volatility *)

Definition annual_vol (w : list F) : F := np_std 1 w ⊗ m_sqrt (nof_Z 252).

Definition rolling_vol (window : nat) (returns : list F) : list (option F) :=
  (λ t, if window <=? t then Some (annual_vol (slice (t - window) t returns)) else None) <$> seq 0 (length returns).

(** [xs[np.isfinite(xs)]] *)
Definition finite_ones (xs : list (option F)) : list F := filter (λ x, nfinite x = true) (omap id xs).

Record Thresholds := mkThresholds { p25 : F; p75 : F; p95 : F }.

Definition thresholds (hist_valid : list F) : Thresholds :=
  let p q := np_percentile hist_valid (nof_Z q) in mkThresholds (p 25%Z) (p 75%Z) (p 95%Z).

Definition vol_label (th : Thresholds) (v : F) : VolRegime :=
  if v <=.? p25 th then LOW else if v <=.? p75 th then MED else if v <=.? p95 th then HIGH else CRISIS.

(** The label of a step and the thresholds it was given, from the history up
    to and with it. *)
Definition label_at (hist : list (option F)) (v : option F) : option (VolRegime * Thresholds) :=
  match v with
  | Some v =>
      if negb (nfinite v) || (length (finite_ones hist) <? 5) then None
      else let th := thresholds (finite_ones hist) in Some (vol_label th v, th)
  | None => None
  end.
Definition labelled (vols : list (option F)) : list (option (VolRegime * Thresholds)) :=
  imap (λ t v, label_at (take (S t) vols) v) vols.
Definition volatility_labels (window : nat) (returns : list F) : list (option VolRegime) :=
  (λ l : option (VolRegime * Thresholds), fst <$> l) <$> labelled (rolling_vol window returns).

(** ** Transitions *)

Definition transition_counts {A} `{EqDecision A} (labels : list (option A)) (a b : A) : nat :=
  length (filter (λ p, p = (Some a, Some b)) (zip labels (tail labels))).
Definition row_total {A} `{EqDecision A} (labels : list (option A)) (states : list A) (a : A) : nat :=
  sum_list (transition_counts labels a <$> states).
Definition transition_share {A} `{EqDecision A} (labels : list (option A)) (states : list A) (a b : A) : F :=
  nof_Z (Z.of_nat (transition_counts labels a b)) ⊘ nof_Z (Z.of_nat (row_total labels states a)).
Definition compute_transition_matrix {A} `{EqDecision A} (labels : list (option A)) (states : list A)
    : list (A * list (A * F)) :=
  (λ a, (a, (λ b, (b, nround (transition_share labels states a b) 4)) <$> states))
  <$> filter (λ a, 0 < row_total labels states a) states.

Record VolReport := mkVolReport {
  vr_regime_labels : list string; vr_current_regime : string; vr_vol_thresholds : option Thresholds;
  vr_regime_stats : list (VolRegime * RegimeStats); vr_transition_matrix : list (VolRegime * list (VolRegime * F))
}.

Definition vol_states : list VolRegime := [LOW; MED; HIGH; CRISIS].

Definition volatility_regime (returns : list F) (window : nat) : option VolReport :=
  if length returns <? window + 2 then None
  else if length (finite_ones (rolling_vol window returns)) <? 5 then None
  else
    let labels := volatility_labels window returns in
    let texts := label_text vol_value <$> labels in
    let found := omap id (labelled (rolling_vol window returns)) in
    Some (mkVolReport texts (default "unknown" (last texts))
      ((λ lt : VolRegime * Thresholds, let th := lt.2 in mkThresholds (nround (p25 th) 4) (nround (p75 th) 4) (nround (p95 th) 4))
       <$> last found)
      (all_stats vol_states labels returns) (compute_transition_matrix labels vol_states)).

(** ** Trend *)

Definition sma (n : nat) (prices : list F) (t : nat) : option F :=
  if n <=? t then let m := np_mean (slice (t - n) t prices) in if nfinite m then Some m else None else None.

Definition sma_slope (fast slope_window : nat) (prices : list F) (t : nat) : option F :=
  if slope_window <=? t then
    now ← sma fast prices t;
    before ← sma fast prices (t - slope_window);
    let s := (now ⊖ before) ⊘ nmax (nabs before) (nof_ratio 1 1000000000) in
    if nfinite s then Some s else None
  else None.

Definition trend_label (fast slow slope_window : nat) (prices : list F) (t : nat) : option TrendRegime :=
  match sma fast prices t, sma slow prices t, sma_slope fast slope_window prices t with
  | Some f, Some s, Some slope =>
      Some (if (f >.? s) && (slope >.? n0) then BULL else if (f <.? s) && (slope <.? n0) then BEAR else SIDEWAYS)
  | _, _, _ => None
  end.
Definition trend_labels (fast slow slope_window : nat) (prices : list F) : list (option TrendRegime) :=
  trend_label fast slow slope_window prices <$> seq 0 (length prices).

Record TrendReport := mkTrendReport {
  tr_regime_labels : list string; tr_current_regime : string; tr_current_sma_fast : option F;
  tr_current_sma_slow : option F; tr_regime_stats : list (TrendRegime * RegimeStats)
}.

(** [round(x, 4) if x else None] *)
Definition rounded_if (x : option F) : option F := x ← x; if nbool x then Some (nround x 4) else None.

Definition trend_regime (prices : list F) (fast slow slope_window : nat) : option TrendReport :=
  let T := length prices in
  if T <? slow + slope_window then None
  else
    let labels := trend_labels fast slow slope_window prices in
    let texts := label_text trend_value <$> labels in
    let returns := zip_with (λ p q, (q ⊖ p) ⊘ np_maximum p (nof_ratio 1 1000000000)) (removelast prices) (tail prices) in
    Some (mkTrendReport texts (default "unknown" (last texts)) (rounded_if (sma fast prices (T - 1)))
      (rounded_if (sma slow prices (T - 1))) (all_stats [BULL; BEAR; SIDEWAYS] (tail labels) returns)).

(** ** The model's regimes *)

Record HMMReport := mkHMMReport {
  hr_regime_labels : list string; hr_regime_probs : list (list F); hr_current_regime : string;
  hr_current_bull_prob : F; hr_regime_stats : list (TrendRegime * (RegimeStats * F * F));
  hr_transition_matrix : list (list F); hr_steady_state : option (F * F); hr_n_regime_switches : nat;
  hr_means : list F; hr_stds : list F
}.

Definition hmm_regime (returns : list F) (n_iter : nat) : option HMMReport :=
  if length returns <? 60 then None
  else
    let model := fit n_iter (nof_ratio 1 10000) returns in
    r ← predict model returns;
    let '(states, probs) := r in
    let bull_state := argmax (hm_means model) in
    let bear_state := 1 - bull_state in
    let labels := (λ s, if s =? bull_state then BULL else BEAR) <$> states in
    let texts := trend_value <$> labels in
    let stats (label : TrendRegime) (state : nat) : option (TrendRegime * (RegimeStats * F * F)) :=
      rs ← regime_stats ((λ s, s =? state) <$> states) returns;
      Some (label, (rs, nround (at_ (hm_means model) state) 6, nround (at_ (hm_stds model) state) 6)) in
    let A i j := nround (entry (hm_A model) i j) 4 in
    Some (mkHMMReport texts (mat_map (λ p, nround p 4) probs) (default "unknown" (last texts))
      (nround (at_ (default [] (last probs)) bull_state) 4)
      (omap id [stats BULL bull_state; stats BEAR bear_state])
      [[A bull_state bull_state; A bull_state bear_state]; [A bear_state bull_state; A bear_state bear_state]]
      ((λ ss, (nround (at_ ss bull_state) 4, nround (at_ ss bear_state) 4)) <$> steady_state model)
      (length (filter (λ p, p.1 ≠ p.2) (zip states (tail states))))
      ((λ m, nround m 6) <$> hm_means model) ((λ s, nround s 6) <$> hm_stds model)).

(** ** The dashboard *)

Definition aligned (h v : string) : bool :=
  ((h =? "bull")%string && ((v =? "low_vol")%string || (v =? "med_vol")%string))
  || ((h =? "bear")%string && ((v =? "high_vol")%string || (v =? "crisis")%string)).

(** The share of the steps at which the two detectors agree: of fewer than two
    steps, [None]. *)
Definition agreement (hmm_labels vol_labels : list string) : option F :=
  let n := length hmm_labels `min` length vol_labels in
  if n <? 2 then None
  else Some (nof_Z (Z.of_nat (length (filter (λ hv, aligned hv.1 hv.2 = true) (zip hmm_labels vol_labels))))
             ⊘ nof_Z (Z.of_nat n)).

(** The percentage, and the grade of the interpretation. *)
Definition compute_regime_alignment (hmm_labels vol_labels : list string) : option (F * string) :=
  a ← agreement hmm_labels vol_labels;
  Some (nround (a ⊗ nof_Z 100) 1,
        if a >.? nof_ratio 70 100 then "High" else if a >.? nof_ratio 50 100 then "Moderate" else "Low").

Record Dashboard := mkDashboard {
  db_hmm_regime : option HMMReport; db_volatility_regime : option VolReport; db_trend_regime : option TrendReport;
  db_regime_alignment : option (F * string); db_current : string * string * string; db_bull_prob_pct : F; db_n_periods : nat
}.

Definition run_regime_detection (returns : list F) (prices : option (list F)) (hmm_iters : nat) : Dashboard :=
  let hmm := hmm_regime returns hmm_iters in
  let vol := volatility_regime returns 21 in
  let trend :=
    match prices with
    | Some p => if 60 <=? length p then trend_regime p 50 200 20 else None
    | None => None
    end in
  mkDashboard hmm vol trend
    (compute_regime_alignment (from_option hr_regime_labels [] hmm) (from_option vr_regime_labels [] vol))
    (from_option hr_current_regime "unknown" hmm, from_option vr_current_regime "unknown" vol,
     from_option tr_current_regime "unknown" trend)
    (nround (from_option hr_current_bull_prob (nof_ratio 1 2) hmm ⊗ nof_Z 100) 1) (length returns).
End regimes.

#[local] Close Scope nat_scope.
(** * Theorems

    Regime detection: the decoded path is the likeliest, the fitted model is a
    chain, and the labels look back only. *)

#[local] Open Scope Q_scope.

(** ** Labels *)

Section labels.
Context {F : Type} `{Num F} `{NumPy F}.

Lemma take_fmap_seq {A} (f g : nat → A) n len :
  (∀ t, (t < n `min` len)%nat → f t = g t) → take n (f <$> seq 0 len) = g <$> seq 0 (n `min` len).
Proof.
  intros Hfg. rewrite <- fmap_take, take_seq. apply list_fmap_ext. intros i x Hi%lookup_seq. cbn. apply Hfg. lia.
Qed.

Lemma rolling_vol_take window n (returns : list F) : rolling_vol window (take n returns) = take n (rolling_vol window returns).
Proof.
  unfold rolling_vol. symmetry. rewrite length_take. apply take_fmap_seq. intros t Ht.
  destruct (window <=? t)%nat; [|done]. do 2 f_equal. symmetry. apply slice_take. lia.
Qed.

Lemma labelled_take n (vols : list (option F)) : labelled (take n vols) = take n (labelled vols).
Proof.
  unfold labelled. apply list_eq. intros i. rewrite list_lookup_imap. destruct (decide (i < n)%nat).
  - rewrite !lookup_take_lt, list_lookup_imap by done. by rewrite take_take, Nat.min_l by lia.
  - by rewrite !lookup_take_ge by lia.
Qed.

Lemma sma_take k n (prices : list F) t : (t < n)%nat → sma k (take n prices) t = sma k prices t.
Proof. intros Ht. unfold sma. by rewrite slice_take by lia. Qed.

(** A regime label never looks ahead: with the series cut anywhere, the
    labels the volatility detector and the trend detector give to the days
    that remain, and the volatility thresholds they were compared with, are
    the labels and thresholds of the whole series, in any arithmetic and for
    any percentile and mean. *)
Theorem regime_labels_look_back n window fast slow slope_window (returns prices : list F) :
  labelled (rolling_vol window (take n returns)) = take n (labelled (rolling_vol window returns)) ∧
  volatility_labels window (take n returns) = take n (volatility_labels window returns) ∧
  trend_labels fast slow slope_window (take n prices) = take n (trend_labels fast slow slope_window prices).
Proof.
  assert (labelled (rolling_vol window (take n returns)) = take n (labelled (rolling_vol window returns))) as E
    by (by rewrite rolling_vol_take, labelled_take).
  split_and!; [done| |].
  - unfold volatility_labels. by rewrite E, fmap_take.
  - unfold trend_labels. symmetry. rewrite length_take. apply take_fmap_seq. intros t Ht.
    unfold trend_label, sma_slope. by rewrite !sma_take by lia.
Qed.
End labels.

(** ** Viterbi *)

Section hmm.
Context `{NumPy Q} `{!NumPyExact}.
Variable m_pi : Q.
Implicit Types (h : GaussianHMM (F:=Q)) (v e : list Q).

(** The parameters of a two-state model. *)
Definition two_state h : Prop := length (hm_pi h) = n_states ∧ shaped n_states (hm_A h).

Definition state_path (n : nat) (ys : list nat) : Prop := length ys = n ∧ Forall (λ s, s < n_states)%nat ys.

(** The log-probability of the observations along a path of states. *)
Fixpoint steps_score (f : nat → nat → Q) (prev : nat) (log_ems : list (list Q)) (ys : list nat) : Q :=
  match log_ems, ys with
  | e :: log_ems, y :: ys => f prev y + at_ e y + steps_score f y log_ems ys
  | _, _ => 0
  end.
Definition score (f : nat → nat → Q) (v : list Q) (log_ems : list (list Q)) (ys : list nat) : Q :=
  match ys with y :: ys => at_ v y + steps_score f y log_ems ys | [] => 0 end.

Lemma at_vadd v w k : (k < length v)%nat → (k < length w)%nat → at_ (vadd v w) k == at_ v k + at_ w k.
Proof.
  intros [x Hx]%lookup_lt_is_Some [y Hy]%lookup_lt_is_Some. unfold at_, vadd.
  rewrite lookup_zip_with, Hx, Hy. cbn. reflexivity.
Qed.

Lemma at_column (m : matrix Q) i k : (i < length m)%nat → at_ (column k m) i = entry m i k.
Proof.
  intros [row Hrow]%lookup_lt_is_Some. unfold at_, column, entry. by rewrite list_lookup_fmap, Hrow.
Qed.

Lemma argmax_at (xs : list Q) : xs ≠ [] → (argmax xs < length xs)%nat ∧ ∀ i, (i < length xs)%nat → at_ xs i <= at_ xs (argmax xs).
Proof.
  intros Hne. destruct (argmax_Q xs Hne) as (m & Hm & Hle). split; [by eapply lookup_lt_Some|].
  intros i [x Hx]%lookup_lt_is_Some. unfold at_. rewrite Hx, Hm. cbn. apply Hle. by eapply list_elem_of_lookup_2.
Qed.

Lemma argmax_states v : length v = n_states → (argmax v < n_states)%nat ∧ ∀ i, (i < n_states)%nat → at_ v i <= at_ v (argmax v).
Proof. intros Hl. rewrite <- Hl. apply argmax_at. by intros ->. Qed.

Lemma at_states {A} (f : nat → A) k : (k < n_states)%nat → (f <$> seq 0 n_states) !! k = Some (f k).
Proof. intros Hk. by rewrite list_lookup_fmap, lookup_seq_lt. Qed.

(** One step of the table: the best predecessor, and its value. *)
Lemma viterbi_step_spec A v e :
  length v = n_states → shaped n_states A →
  let '(b, v') := viterbi_step A v e in
  length v' = n_states ∧
  ∀ y, (y < n_states)%nat → ∃ best, b !! y = Some best ∧ (best < n_states)%nat ∧
    at_ v' y == at_ v best + entry A best y + at_ e y ∧
    ∀ i, (i < n_states)%nat → at_ v i + entry A i y + at_ e y <= at_ v' y.
Proof.
  intros Hv HA. unfold viterbi_step. split; [by rewrite length_fmap, length_seq|]. intros y Hy.
  assert (length (candidates A v y) = n_states) as Hl
    by (unfold candidates, vadd, column; rewrite length_zip_with, length_fmap, Hv, (proj1 HA); done).
  destruct (argmax_states _ Hl) as [Hb Hmax].
  assert (∀ i, (i < n_states)%nat → at_ (candidates A v y) i == at_ v i + entry A i y) as Hc.
  { intros i Hi. unfold candidates. rewrite at_vadd; [by rewrite at_column by (by rewrite (proj1 HA))|by rewrite Hv|].
    unfold column. by rewrite length_fmap, (proj1 HA). }
  exists (argmax (candidates A v y)). split; [by rewrite at_states|]. split; [done|].
  match goal with |- at_ ?w y == _ ∧ _ => assert (at_ w y = at_ (candidates A v y) (argmax (candidates A v y)) + at_ e y) as -> end.
  { unfold at_ at 1. by rewrite at_states. }
  split; [by rewrite Hc|]. intros i Hi. pose proof (Hmax i Hi) as Hle. rewrite Hc in Hle by done. lra.
Qed.

Lemma backtrack_length bs last : length (backtrack bs last) = S (length bs).
Proof. induction bs as [|b bs IH]; [done|]. cbn. by rewrite IH. Qed.

Lemma viterbi_best A v es :
  length v = n_states → shaped n_states A →
  let '(bs, last) := viterbi_table A v es in
  state_path (S (length es)) (backtrack bs (argmax last)) ∧
  ∀ ys, state_path (S (length es)) ys → score (entry A) v es ys <= score (entry A) v es (backtrack bs (argmax last)).
Proof.
  intros Hv HA. revert v Hv. induction es as [|e es IH]; intros v Hv; cbn [viterbi_table].
  { destruct (argmax_states v Hv) as [Hb Hmax]. split; [split; [done|by apply Forall_singleton]|].
    intros ys [Hl Hys]. destruct ys as [|y [|]]; try done. apply Forall_cons in Hys as [Hy _]. cbn. specialize (Hmax y Hy). lra. }
  pose proof (viterbi_step_spec A v e Hv HA) as Hstep. destruct (viterbi_step A v e) as [b v']. destruct Hstep as [Hv' Hstep].
  specialize (IH v' Hv'). destruct (viterbi_table A v' es) as [bs last]. destruct IH as [[Hl Hpath] IH].
  cbn [backtrack]. destruct (backtrack bs (argmax last)) as [|s path]; [done|]. cbn [head default from_option id].
  pose proof (Forall_cons_1 _ _ _ Hpath) as [Hs _]. destruct (Hstep s Hs) as (best & -> & Hbest & Ev & _). cbn [from_option id].
  split; [split; [cbn in *; lia|by constructor]|]. intros ys [Hys Hbound]. destruct ys as [|y0 [|y1 ys]]; try done.
  apply Forall_cons in Hbound as [Hy0 Hbound]. pose proof (Forall_cons_1 _ _ _ Hbound) as [Hy1 _].
  specialize (IH (y1 :: ys)). cbn [score steps_score length] in *. destruct (Hstep y1 Hy1) as (_ & _ & _ & _ & Hmax).
  specialize (Hmax y0 Hy0). assert (state_path (S (length es)) (y1 :: ys)) as Hp by (split; [cbn; lia|done]). specialize (IH Hp). lra.
Qed.

(** What a path of states scores under the model. *)
Definition log_likelihood h (obs : list Q) (ys : list nat) : Q :=
  match obs with
  | [] => 0
  | x :: rest =>
      score (λ i j, floored_log (entry (hm_A h) i j)) (vadd (floored_log <$> hm_pi h) (np_log (emission_probs m_pi h x)))
        ((λ x, np_log (emission_probs m_pi h x)) <$> rest) ys
  end.

Lemma emission_length h x : length (emission_probs m_pi h x) = n_states.
Proof. by unfold emission_probs; rewrite length_fmap, length_seq. Qed.

Lemma forward_from_length h prev obs : length (forward_from m_pi h prev obs) = length obs.
Proof. revert prev. induction obs as [|x obs IH]; intros prev; [done|]. cbn [forward_from length]. by rewrite IH. Qed.

Lemma forward_length h obs : length (forward m_pi h obs) = length obs.
Proof. destruct obs; [done|]. cbn [forward length]. by rewrite forward_from_length. Qed.

Lemma steps_score_ext f g prev es ys :
  (prev < n_states)%nat → Forall (λ s, s < n_states)%nat ys →
  (∀ i j, (i < n_states)%nat → (j < n_states)%nat → f i j = g i j) → steps_score f prev es ys = steps_score g prev es ys.
Proof.
  intros Hp Hys Hfg. revert prev Hp ys Hys. induction es as [|e es IH]; intros prev Hp ys Hys; [done|].
  destruct Hys as [|y ys Hy Hys]; [done|]. cbn [steps_score]. by rewrite Hfg, IH.
Qed.

Lemma score_ext f g v es ys :
  Forall (λ s, s < n_states)%nat ys → (∀ i j, (i < n_states)%nat → (j < n_states)%nat → f i j = g i j) →
  score f v es ys = score g v es ys.
Proof. intros Hys Hfg. destruct Hys as [|y ys Hy Hys]; [done|]. cbn. by erewrite steps_score_ext. Qed.

(** C20: The decoded regimes are the likeliest: for a two-state model and any
    series that is not empty, the decoder answers a state for each day, and no
    sequence of states has a larger log-likelihood under the model, whatever
    exponential, logarithm and square root are used. *)
Theorem decoded_regimes_are_likeliest h obs :
  two_state h →
  match predict m_pi h obs with
  | Some (states, probs) =>
      state_path (length obs) states ∧ length probs = length obs ∧
      ∀ ys, state_path (length obs) ys → log_likelihood h obs ys <= log_likelihood h obs states
  | None => obs = []
  end.
Proof.
  intros [Hpi HA]. destruct obs as [|x rest]; [done|]. cbn [predict].
  set (v := vadd _ _). set (es := _ <$> rest). set (A := mat_map _ _).
  assert (length v = n_states) as Hv.
  { unfold v, vadd, np_log. rewrite length_zip_with, !length_fmap, emission_length, Hpi. done. }
  assert (shaped n_states A) as HsA by (by apply shaped_mat_map).
  pose proof (viterbi_best A v es Hv HsA) as Hbest. destruct (viterbi_table A v es) as [bs last].
  assert (length es = length rest) as Hes by (unfold es; by rewrite length_fmap). rewrite Hes in Hbest.
  destruct Hbest as [Hpath Hbest]. split_and!; [done| |].
  - rewrite length_fmap. apply forward_length.
  - intros ys Hys. specialize (Hbest ys Hys). unfold log_likelihood. fold v. change (_ <$> rest) with es.
    assert (∀ p, Forall (λ s, s < n_states)%nat p → score (λ i j, floored_log (entry (hm_A h) i j)) v es p = score (entry A) v es p) as E.
    { intros p Hp. apply score_ext; [done|]. intros i j Hi Hj. symmetry. by apply (entry_mat_map n_states). }
    rewrite !E; [done|apply Hpath|apply Hys].
Qed.

(** ** The fitted model *)

Definition distribution (xs : list Q) : Prop := length xs = n_states ∧ nonneg xs ∧ qsum xs == 1.
Definition subdistribution (xs : list Q) : Prop := length xs = n_states ∧ nonneg xs ∧ qsum xs <= 1.

(** A chain: initial probabilities, rows of the transition matrix, and
    deviations away from zero. *)
Definition chain h : Prop :=
  subdistribution (hm_pi h) ∧ length (hm_A h) = n_states ∧ Forall distribution (hm_A h) ∧
  length (hm_means h) = n_states ∧ length (hm_stds h) = n_states ∧ Forall (λ s, 1 # 1000000 <= s) (hm_stds h).

Lemma tiny_pos : 0 < tiny (F:=Q).
Proof. unfold tiny. cbn -[Pos.pow]. done. Qed.

Lemma chain_shaped h : chain h → shaped n_states (hm_A h).
Proof. intros (_ & Hl & Hr & _). split; [done|]. eapply Forall_impl; [exact Hr|]. by intros row (? & _). Qed.

Lemma chain_nonneg h : chain h → nonneg_matrix (hm_A h).
Proof. intros (_ & _ & Hr & _). eapply Forall_impl; [exact Hr|]. by intros row (_ & ? & _). Qed.

Lemma np_maximum_Q x y : x <= np_maximum x y ∧ y <= np_maximum x y.
Proof. unfold np_maximum. destruct (x <.? y) eqn:E; qsimpl; split; lra. Qed.

Lemma emission_nonneg h x : nonneg (emission_probs m_pi h x).
Proof.
  apply nonneg_fmap. intros k _. pose proof tiny_pos.
  destruct (np_maximum_Q (gaussian_pdf m_pi x (at_ (hm_means h) k) (at_ (hm_stds h) k)) tiny). lra.
Qed.

Lemma scale_pos xs : 0 < nmax (np_sum xs) tiny.
Proof. pose proof tiny_pos. destruct (nmax_Q (np_sum xs) tiny) as (_ & ? & _). lra. Qed.

Lemma floored_division xs c : nonneg xs → 0 < c → qsum xs <= c → nonneg (vdiv xs c) ∧ qsum (vdiv xs c) <= 1.
Proof. intros Hn Hc Hs. split; [by apply nonneg_vdiv|]. rewrite qsum_vdiv. apply Qle_shift_div_r; lra. Qed.

Lemma scaled_subdistribution xs : length xs = n_states → nonneg xs → subdistribution (scaled xs).
Proof.
  intros Hl Hn. unfold scaled. split; [unfold vdiv; by rewrite length_fmap|]. apply floored_division; [done|apply scale_pos|].
  rewrite <- np_sum_exact. by destruct (nmax_Q (np_sum xs) tiny) as (? & _).
Qed.

Lemma gamma_subdistribution a b : length a = n_states → length b = n_states → nonneg a → nonneg b → subdistribution (gamma_row a b).
Proof.
  intros Ha Hb Na Nb. unfold gamma_row. split; [unfold vdiv, vmul; rewrite length_fmap, length_zip_with, Ha, Hb; done|].
  destruct (np_maximum_Q (np_sum (vmul a b)) tiny). pose proof tiny_pos.
  apply floored_division; [by apply nonneg_vmul|lra|by rewrite <- np_sum_exact].
Qed.

Lemma forward_step_sub h v x : length v = n_states → nonneg v → subdistribution (scaled (vmul v (emission_probs m_pi h x))).
Proof.
  intros Hl Hn. apply scaled_subdistribution; [|apply nonneg_vmul; [done|apply emission_nonneg]].
  unfold vmul. rewrite length_zip_with, emission_length, Hl. done.
Qed.

Lemma vecmat_ok (A : matrix Q) v : nonneg_matrix A → nonneg v → length (vecmat v A) = n_states ∧ nonneg (vecmat v A).
Proof.
  intros HA Hv. unfold vecmat. split; [unfold transpose; by rewrite !length_fmap, length_seq|].
  apply nonneg_fmap. intros col Hcol. apply np_dot_nonneg; [done|].
  exact (proj1 (Forall_forall _ _) (nonneg_transpose _ _ HA) col Hcol).
Qed.

Lemma forward_sub h obs : chain h → Forall (λ r, subdistribution r.1) (forward m_pi h obs).
Proof.
  intros Hc. destruct obs as [|x obs]; [constructor|]. destruct (Hc) as ((Hl & Hn & _) & _).
  pose proof (forward_step_sub h _ x Hl Hn) as Hs. cbn [forward]. constructor; [done|].
  revert Hs. generalize (scaled (vmul (hm_pi h) (emission_probs m_pi h x))). clear Hl Hn x.
  induction obs as [|x obs IH]; intros v Hs; [constructor|]. cbn [forward_from].
  destruct Hs as (_ & Hn & _). destruct (vecmat_ok (hm_A h) v (chain_nonneg h Hc) Hn) as [Hl' Hn'].
  pose proof (forward_step_sub h _ x Hl' Hn'). constructor; [done|by apply IH].
Qed.

Lemma backward_nonneg h obs : chain h → Forall (λ b, length b = n_states ∧ nonneg b) (backward m_pi h obs).
Proof.
  intros Hc. induction obs as [|x [|y obs] IH]; [constructor| |].
  { constructor; [|constructor]. split; [done|]. apply Forall_replicate. cbn. lra. }
  change (backward m_pi h (x :: y :: obs)) with
    (scaled (matvec (hm_A h) (vmul (emission_probs m_pi h y) (default [] (head (backward m_pi h (y :: obs))))))
     :: backward m_pi h (y :: obs)).
  constructor; [|done].
  assert (nonneg (default [] (head (backward m_pi h (y :: obs))))) as Hh.
  { destruct IH as [|b bs [_ Hb] _]; [constructor|done]. }
  unfold scaled, vdiv, matvec. rewrite !length_fmap. split; [by destruct Hc as (_ & ? & _)|].
  apply nonneg_vdiv; [|apply scale_pos]. apply nonneg_matvec; [by apply chain_nonneg|].
  apply nonneg_vmul; [apply emission_nonneg|done].
Qed.

Lemma xi_step_ok h a e b :
  chain h → nonneg a → nonneg e → nonneg b → shaped n_states (xi_step h a e b) ∧ nonneg_matrix (xi_step h a e b).
Proof.
  intros Hc Ha He Hb. unfold xi_step. split; [apply shaped_mat_map, square_shaped|].
  apply nonneg_mat_map; [intros x Hx; apply Qdiv_nonneg; [done|apply scale_pos]|]. apply nonneg_square. intros i j.
  cbn [nmul Num_Q]. repeat apply Qmult_le_0_compat; try (by apply nonneg_at). apply nonneg_entry. by apply chain_nonneg.
Qed.

Lemma mat_add_ok (a b : matrix Q) :
  shaped n_states a ∧ nonneg_matrix a → shaped n_states b ∧ nonneg_matrix b →
  shaped n_states (mat_add a b) ∧ nonneg_matrix (mat_add a b).
Proof.
  intros [[La Sa] Na] [[Lb Sb] Nb]. unfold mat_add. split; [split|].
  - by rewrite length_zip_with, La, Lb.
  - clear La Lb Na Nb. revert b Sb. induction Sa as [|r a Hr _ IH]; intros b Sb; [constructor|].
    destruct Sb as [|r' b Hr' Sb]; constructor; [unfold vadd; rewrite length_zip_with; lia|by apply IH].
  - clear La Lb Sa Sb. revert b Nb. induction Na as [|r a Hr _ IH]; intros b Nb; [constructor|].
    destruct Nb as [|r' b Hr' Nb]; constructor; [by apply nonneg_vadd|by apply IH].
Qed.

Lemma xi_total_ok h alphas next acc :
  chain h → Forall (λ a, subdistribution a) alphas → Forall (λ xb : Q * list Q, length xb.2 = n_states ∧ nonneg xb.2) next →
  shaped n_states acc ∧ nonneg_matrix acc →
  shaped n_states (xi_total m_pi h alphas next acc) ∧ nonneg_matrix (xi_total m_pi h alphas next acc).
Proof.
  intros Hc Ha. revert next acc. induction Ha as [|a alphas (_ & Hn & _) _ IH]; intros next acc Hnext Hacc; [done|].
  destruct Hnext as [|[x b] next [_ Hb] Hnext]; [done|]. cbn [xi_total]. apply IH; [done|].
  apply mat_add_ok; [done|]. apply xi_step_ok; [done|done|apply emission_nonneg|done].
Qed.

Lemma transition_row_ok xi old : length xi = n_states → nonneg xi → distribution old → distribution (transition_row xi old).
Proof.
  intros Hl Hn Hold. unfold transition_row. destruct (nof_ratio 1 1000000000000 <.? np_sum xi) eqn:E; [|done]. qsimpl.
  assert (0 < np_sum xi) by (change (nof_ratio 1 1000000000000) with (1 # 1000000000000) in E; lra).
  split; [unfold vdiv; by rewrite length_fmap|]. split; [by apply nonneg_vdiv|]. rewrite qsum_vdiv. pose proof (np_sum_exact xi) as Es.
  rewrite Es. rewrite Es in H1. field. lra.
Qed.

Lemma transition_rows_ok xi A :
  shaped n_states xi → nonneg_matrix xi → length A = n_states → Forall distribution A →
  length (zip_with transition_row xi A) = n_states ∧ Forall distribution (zip_with transition_row xi A).
Proof.
  intros [Lx Sx] Nx LA HA. split; [by rewrite length_zip_with, Lx, LA|]. clear Lx LA. revert xi Sx Nx.
  induction HA as [|r A Hr _ IH]; intros xi Sx Nx; [destruct xi; constructor|]. destruct Sx as [|x xi Hx Sx]; [constructor|].
  apply Forall_cons in Nx as [Hn Nx]. constructor; [by apply transition_row_ok|by apply IH].
Qed.

Lemma Forall_head_default {A} (P : A → Prop) d l : l ≠ [] → Forall P l → P (default d (head l)).
Proof. intros Hne Hl. by destruct Hl. Qed.

Lemma floored_dev x : 1 # 1000000 <= nmax x (nof_ratio 1 1000000).
Proof. by destruct (nmax_Q x (nof_ratio 1 1000000)) as (_ & ? & _). Qed.

Lemma em_step_chain h obs : obs ≠ [] → chain h → chain (em_step m_pi h obs).1.
Proof.
  intros Hne Hc. pose proof (forward_sub h obs Hc) as Hf. pose proof (backward_nonneg h obs Hc) as Hb.
  set (alpha := fst <$> forward m_pi h obs). assert (Forall subdistribution alpha) as Ha by (by apply Forall_fmap).
  assert (length alpha = length obs) as La by (unfold alpha; by rewrite length_fmap, forward_length).
  destruct (Hc) as (_ & LA & HA & _). unfold em_step. cbn [fst]. fold alpha. set (beta := backward m_pi h obs) in *.
  assert (beta ≠ []) as Hbne by (unfold beta; destruct obs as [|x [|]]; [done|cbn; done|cbn [backward]; done]).
  assert (Forall subdistribution (zip_with gamma_row alpha beta)) as Hg.
  { clear La. revert Hb. generalize beta. clear -Ha H0. induction Ha as [|a alpha (La & Na & _) _ IH]; intros beta Hb; [constructor|].
    destruct Hb as [|b beta [Lb Nb] Hb]; [by apply Forall_nil|]. apply Forall_cons. split; [by apply gamma_subdistribution|by apply IH]. }
  assert (Forall (λ xb : Q * list Q, length xb.2 = n_states ∧ nonneg xb.2) (tail (zip obs beta))) as Hn.
  { apply Forall_forall. intros [x b] Hx. assert ((x, b) ∈ zip obs beta) as Hz by (destruct (zip obs beta); [done|by right]).
    apply elem_of_zip_r in Hz. exact (proj1 (Forall_forall _ _) Hb b Hz). }
  destruct (xi_total_ok h alpha (tail (zip obs beta)) (square n_states (λ _ _, n0))) as [Hs Hx];
    [done|done|done|split; [apply square_shaped|apply nonneg_square; intros; apply Qle_refl]|].
  destruct (transition_rows_ok _ _ Hs Hx LA HA) as [LA' HA'].
  split_and!; [|done|done|done|done|].
  - apply Forall_head_default; [|done]. destruct alpha, beta; [| |done|done]; by destruct obs.
  - apply Forall_fmap, Forall_fmap, Forall_forall. intros k _. apply floored_dev.
Qed.

Lemma initial_chain obs : chain (initial_hmm obs).
Proof.
  split_and!; try done.
  - split_and!; [done| |done]. repeat constructor; done.
  - repeat constructor; done.
  - cbn [initial_hmm hm_stds]. apply Forall_fmap, Forall_forall. intros xs _. apply floored_dev.
Qed.

Lemma fit_chain n tol obs : obs ≠ [] → chain (fit m_pi n tol obs).
Proof.
  intros Hne. unfold fit. generalize (@None Q). pose proof (initial_chain obs) as Hc. revert Hc. generalize (initial_hmm obs).
  induction n as [|n IH]; intros h Hc ll; [done|]. cbn [em_loop]. pose proof (em_step_chain h obs Hne Hc) as Hc'.
  destruct (em_step m_pi h obs) as [h' ll']. cbn [fst] in Hc'. destruct (match ll with Some p => _ | None => false end); [done|by apply IH].
Qed.

(** C21: In exact arithmetic, training gives a Markov chain and decoding gives
    probabilities: however many turns of expectation maximisation are made on
    a series of at least two observations (with one, the code takes the mean
    of an empty half), each row of the fitted transition matrix is a
    probability distribution, the initial probabilities have no negative entry
    and sum to at most one, the deviations stay away from zero, and the
    posterior of every day is of the same kind. *)
Theorem fitted_model_is_a_chain n_iter tol obs series :
  (2 <= length obs)%nat →
  chain (fit m_pi n_iter tol obs) ∧
  match predict m_pi (fit m_pi n_iter tol obs) series with
  | Some (_, probs) => length probs = length series ∧ Forall subdistribution probs
  | None => series = []
  end.
Proof.
  intros Hlen. assert (obs ≠ []) as Hne by (destruct obs; [cbn in Hlen; lia|done]).
  pose proof (fit_chain n_iter tol obs Hne) as Hc. split; [done|]. destruct series as [|x series]; [done|].
  cbn [predict]. destruct (viterbi_table _ _ _) as [bs last]. split; [by rewrite length_fmap, forward_length|].
  apply Forall_fmap. exact (forward_sub _ (x :: series) Hc).
Qed.
End hmm.

(** At the untrained model of four days. *)
Lemma decoded_regimes_are_likeliest_witness :
  let h := initial_hmm [1; 2; 3; 4] in let obs := [1; 4; 2] in
  two_state h ∧
  match predict (22 # 7) h obs with
  | Some (states, probs) =>
      state_path (length obs) states ∧ length probs = length obs ∧
      ∀ ys, state_path (length obs) ys → log_likelihood (22 # 7) h obs ys <= log_likelihood (22 # 7) h obs states
  | None => obs = []
  end.
Proof.
  cbn zeta. assert (two_state (initial_hmm [1; 2; 3; 4])) as Ht by (repeat constructor). split; [exact Ht|].
  exact (decoded_regimes_are_likeliest (22 # 7) (initial_hmm [1; 2; 3; 4]) [1; 4; 2] Ht).
Defined.

(** Three turns on four days. *)
Lemma fitted_model_is_a_chain_witness :
  (2 <= length [1; 2; 3; 4])%nat ∧ chain (fit (22 # 7) 3 (1 # 10000) [1; 2; 3; 4]).
Proof. split; [cbn; lia|]. apply (fitted_model_is_a_chain (22 # 7) 3 (1 # 10000) [1; 2; 3; 4] []). cbn. lia. Defined.
