(* ===== verification/NeutralStrategies.v ===== *)
(** backend/services/neutral_strategies.py: pairs trading, long/short books
    and factor neutralisation. A NaN is [None]; the series of a pair have one
    length; a dict with ["error"] is [None]. *)

From Stdlib Require Import QArith Qabs Lqa.
From S2P Require Import Prelude Numeric StrategySignals Vectors Matrices RegimeDetection.
#[local] Open Scope nat_scope.

Section neutral.
Context {F : Type} `{Num F} `{NumPy F} `{LinAlg F}.
(** [np.argsort] of a row that may hold NaNs, and [np.prod]. *)
Variable argsort : list (option F) → list nat.
Variable np_prod : list F → F.

Definition count (n : nat) : F := nof_Z (Z.of_nat n).
Definition micro_floor : F := nof_ratio 1 1000000000.
Definition pico_floor : F := nof_ratio 1 1000000000000.
Definition year_root : F := m_sqrt (nof_Z 252).

(** ** Kalman filter *)

Record KalmanHedgeFilter := mkKalman { kf_delta : F; kf_R : F; kf_beta : F; kf_P : F }.

Definition kalman_init (delta R : F) : KalmanHedgeFilter := mkKalman delta R n0 n1.

Definition update (k : KalmanHedgeFilter) (y x : F) : KalmanHedgeFilter :=
  let P_pred := kf_P k ⊕ kf_delta k in
  let innovation := y ⊖ kf_beta k ⊗ x in
  let innov_var := x ⊗ x ⊗ P_pred ⊕ kf_R k in
  let K := P_pred ⊗ x ⊘ nmax innov_var pico_floor in
  mkKalman (kf_delta k) (kf_R k) (kf_beta k ⊕ K ⊗ innovation) ((n1 ⊖ K ⊗ x) ⊗ P_pred).

(** The history of [beta] after, and before, each update. *)
Fixpoint kalman_fit (k : KalmanHedgeFilter) (ys xs : list F) : list F :=
  match ys, xs with
  | y :: ys, x :: xs => let k := update k y x in kf_beta k :: kalman_fit k ys xs
  | _, _ => []
  end.
Fixpoint fit_predictive (k : KalmanHedgeFilter) (ys xs : list F) : list F :=
  match ys, xs with
  | y :: ys, x :: xs => kf_beta k :: fit_predictive (update k y x) ys xs
  | _, _ => []
  end.

(** ** Cointegration *)

Inductive Level := ONE_PCT | FIVE_PCT | TEN_PCT.

Definition EG_RS_COEFS (l : Level) : F * F * F :=
  match l with
  | ONE_PCT => (nof_ratio (-389644) 100000, nof_ratio (-109519) 10000, nof_ratio (-33527) 1000)
  | FIVE_PCT => (nof_ratio (-333613) 100000, nof_ratio (-61101) 10000, nof_ratio (-6823) 1000)
  | TEN_PCT => (nof_ratio (-304445) 100000, nof_ratio (-42412) 10000, nof_ratio (-272) 100)
  end.

Definition eg_critical_value (T : nat) (l : Level) : F :=
  let '(b_inf, b1, b2) := EG_RS_COEFS l in b_inf ⊕ b1 ⊘ count T ⊕ b2 ⊘ nof_Z (Z.of_nat T * Z.of_nat T).

(** [np.diff] *)
Definition diff (xs : list F) : list F := zip_with (λ a b, b ⊖ a) xs (tail xs).

(** The regressors of the test, a list of columns: the lagged level, then the
    lagged differences that fit. *)
Definition adf_columns (series : list F) (max_lag : nat) : list (list F) :=
  let dy := diff series in
  let dy_dep := drop max_lag dy in
  let y_lag := drop max_lag (removelast series) in
  y_lag :: filter (λ col, length col = length dy_dep)
             ((λ lag, slice (max_lag - lag) (length dy - lag) dy) <$> seq 1 max_lag).

Definition eg_residual_adf_test (series : list F) (cv_1pct cv_5pct cv_10pct : F) (max_lag : nat) : F * F :=
  let y := drop max_lag (diff series) in
  let columns := adf_columns series max_lag in
  let rows := length (default [] (head columns)) in
  let k := length columns in
  let X := transpose rows columns in
  if (length y <? 5) || negb (rows =? length y) then (n0, n1)
  else
    match la_lstsq X y, la_pinv (matmul k columns X) with
    | Some betas, Some inv =>
        let resid := vsub y (matvec X betas) in
        let s2 := np_sum ((λ r, r ⊗ r) <$> resid) ⊘ count (max (length y - k) 1) in
        let se_beta := m_sqrt (nmax (s2 ⊗ entry inv 0 0) pico_floor) in
        let t_stat := at_ betas 0 ⊘ se_beta in
        (t_stat,
         if t_stat <.? cv_1pct then nof_ratio 5 1000
         else if t_stat <.? cv_5pct then nof_ratio 25 1000
         else if t_stat <.? cv_10pct then nof_ratio 75 1000
         else nof_ratio 20 100)
    | _, _ => (n0, n1)
    end.

Record Cointegration := mkCointegration {
  cg_cointegrated : bool; cg_cointegrated_1pct : bool; cg_adf_stat : F; cg_adf_p_approx : F; cg_critical_values : F * F * F;
  cg_hedge_ratio : F; cg_alpha : F; cg_spread_mean : F; cg_spread_std : F; cg_spread : list F
}.

Definition with_constant (xs : list F) : matrix F := (λ x, [n1; x]) <$> xs.

Definition engle_granger_cointegration (y x : list F) (max_lag : nat) : option Cointegration :=
  let T := length y in
  if T <? 30 then None
  else
    let X := with_constant x in
    beta ← la_lstsq X y;
    let spread := vsub y (matvec X beta) in
    let cv_1pct := eg_critical_value T ONE_PCT in
    let cv_5pct := eg_critical_value T FIVE_PCT in
    let cv_10pct := eg_critical_value T TEN_PCT in
    let '(adf_stat, adf_p) := eg_residual_adf_test spread cv_1pct cv_5pct cv_10pct max_lag in
    Some (mkCointegration (adf_stat <.? cv_5pct) (adf_stat <.? cv_1pct) (nround adf_stat 4) (nround adf_p 4)
      (nround cv_1pct 4, nround cv_5pct 4, nround cv_10pct 4) (nround (at_ beta 1) 6) (nround (at_ beta 0) 6)
      (nround (np_mean spread) 6) (nround (np_std 1 spread) 6) spread).

(** ** Pairs *)

(** The hedge ratio of an ordinary regression on the [window] days before. *)
Definition rolling_hedge (y x : list F) (window t : nat) : option F :=
  if window <=? t then
    b ← la_lstsq (with_constant (slice (t - window) t x)) (slice (t - window) t y); Some (at_ b 1)
  else None.

Definition hedge_ratios (y x : list F) (use_kalman : bool) (window : nat) : list (option F) :=
  if use_kalman then Some <$> fit_predictive (kalman_init (nof_ratio 1 10000) (nof_ratio 1 1000)) y x
  else rolling_hedge y x window <$> seq 0 (length y).

Definition spread_of (y x : list F) (hedge : list (option F)) : list (option F) :=
  zip_with (λ yx h, (λ h, yx.1 ⊖ h ⊗ yx.2) <$> h) (zip y x) hedge.

Definition z_score (spread : list (option F)) (window t : nat) : option F :=
  if window <=? t then
    w ← mapM id (slice (t - window) t spread);
    if np_std 1 w >.? micro_floor then s ← spread !! t ≫= id; Some ((s ⊖ np_mean w) ⊘ np_std 1 w) else None
  else None.
Definition z_scores (spread : list (option F)) (window : nat) : list (option F) :=
  z_score spread window <$> seq 0 (length spread).

(** The positions: 1 long the spread, -1 short, 0 flat. *)
Definition next_position (entry_z exit_z : F) (position : Z) (z : F) : Z :=
  if (position =? 0)%Z then (if z <.? nopp entry_z then 1 else if z >.? entry_z then -1 else 0)%Z
  else if (position =? 1)%Z then (if z >.? nopp exit_z then 0 else position)%Z
  else if (position =? -1)%Z then (if z <.? exit_z then 0 else position)%Z
  else position.

(** The signal of each day: a day without a z-score has none, and leaves the
    position. *)
Fixpoint signals_from (entry_z exit_z : F) (position : Z) (zs : list (option F)) : list Z :=
  match zs with
  | [] => []
  | z :: zs =>
      match z with
      | Some z =>
          if nfinite z then
            let position := next_position entry_z exit_z position z in
            position :: signals_from entry_z exit_z position zs
          else 0%Z :: signals_from entry_z exit_z position zs
      | None => 0%Z :: signals_from entry_z exit_z position zs
      end
  end.
Definition pair_signals (entry_z exit_z : F) (window : nat) (zs : list (option F)) : list Z :=
  replicate window 0%Z ++ signals_from entry_z exit_z 0 (drop window zs).

(** [signals[1:] * (np.diff(spread) / np.maximum(np.abs(spread[:-1]), 1e-9))] *)
Definition strategy_returns (signals : list Z) (spread : list (option F)) : list (option F) :=
  zip_with (λ (s : Z) (ab : option F * option F),
      a ← ab.1; b ← ab.2; Some (nof_Z s ⊗ ((b ⊖ a) ⊘ np_maximum (nabs a) micro_floor)))
    (tail signals) (zip spread (tail spread)).

Definition finite_of (xs : list (option F)) : list F := filter (λ x, nfinite x = true) (omap id xs).

Record PairsReport := mkPairsReport {
  pr_cointegration : option Cointegration; pr_signals : list Z; pr_z_spread : list (option F);
  pr_hedge_ratios : list (option F); pr_n_trades : nat; pr_strategy_sharpe : F
}.

Definition pairs_trading_signals (y x : list F) (entry_z exit_z : F) (use_kalman : bool) (window : nat) : option PairsReport :=
  if length y <? window + 10 then None
  else
    let coint := engle_granger_cointegration y x 1 in
    let hedge := hedge_ratios y x use_kalman window in
    let spread := spread_of y x hedge in
    let z_spread := z_scores spread window in
    let signals := pair_signals entry_z exit_z window z_spread in
    let valid_r := finite_of (strategy_returns signals spread) in
    let sharpe :=
      if (5 <? length valid_r) && (np_std 1 valid_r >.? micro_floor)
      then np_mean valid_r ⊘ np_std 1 valid_r ⊗ year_root else n0 in
    let reported (xs : list (option F)) (d : Z) : list (option F) :=
      (λ z : option F, z ← z; if nfinite z then Some (nround z d) else None) <$> xs in
    Some (mkPairsReport coint signals (reported z_spread 4%Z) (reported hedge 6%Z)
      (length (filter (λ p, p.1 ≠ p.2) (zip signals (tail signals)))) (nround sharpe 4)).

(** ** Long and short *)

Definition valid_signal (s : option F) : bool := match s with Some x => nfinite x | None => false end.
Definition n_valid (sig : list (option F)) : nat := length (filter (λ s, valid_signal s = true) sig).

Definition assign (idx : list nat) (w : F) (weights : list F) : list F := foldl (λ ws i, <[i := w]> ws) weights idx.

Definition gross (w : list F) : F := np_sum (nabs <$> w).

(** The book of a signal, before it is scaled to a volatility. *)
Definition book_weights (sig : list (option F)) (N n_long n_short : nat) : list F :=
  let ranked_idx := argsort sig in
  let weights := assign (drop (length ranked_idx - n_long) ranked_idx) (n1 ⊘ count n_long) (replicate N n0) in
  let weights := assign (take n_short ranked_idx) (nopp n1 ⊘ count n_short) weights in
  if gross weights >.? micro_floor then vdiv weights (gross weights) else weights.

(** The volatility of the last book over the 21 days before. *)
Definition book_volatility (returns : matrix F) (prev_weights : list F) (t : nat) : F :=
  np_std 1 ((λ row, np_sum (vmul row prev_weights)) <$> slice (t - 21) t returns) ⊗ year_root.

Definition vol_scaled (returns : matrix F) (prev_weights : list F) (t : nat) (vol_scale : bool) (target_vol : F) (w : list F) : list F :=
  if vol_scale && (22 <=? t) then
    let hist_vol := book_volatility returns prev_weights t in
    if hist_vol >.? micro_floor then (λ x, x ⊗ nmin (target_vol ⊘ hist_vol) (nof_Z 3)) <$> w else w
  else w.

(** The state of the loop: the returns, the turnover and the last book. *)
Record Books := mkBooks { bk_returns : list F; bk_turnover : list F; bk_prev : list F }.

Definition ls_step (signals : list (list (option F))) (returns : matrix F) (N n_long n_short : nat) (vol_scale : bool)
    (target_vol : F) (b : Books) (t : nat) : Books :=
  let sig := default [] (signals !! (t - 1)) in
  if n_valid sig <? n_long + n_short + 2 then mkBooks (bk_returns b ++ [n0]) (bk_turnover b ++ [n0]) (bk_prev b)
  else
    let weights := vol_scaled returns (bk_prev b) t vol_scale target_vol (book_weights sig N n_long n_short) in
    let ret_t := np_dot (default [] (returns !! t)) weights in
    let to := np_sum (nabs <$> vsub weights (bk_prev b)) ⊘ nof_Z 2 in
    mkBooks (bk_returns b ++ [ret_t]) (bk_turnover b ++ [to]) weights.

Definition ls_books (signals : list (list (option F))) (returns : matrix F) (N n_long n_short : nat) (vol_scale : bool)
    (target_vol : F) : Books :=
  foldl (ls_step signals returns N n_long n_short vol_scale target_vol) (mkBooks [] [] (replicate N n0))
    (seq 1 (length returns - 1)).

(** [np.cumprod] and [np.maximum.accumulate], from what came before. *)
Fixpoint cumprod (acc : F) (xs : list F) : list F :=
  match xs with [] => [] | x :: xs => (acc ⊗ x) :: cumprod (acc ⊗ x) xs end.
Fixpoint accumulate_max (acc : F) (xs : list F) : list F :=
  match xs with [] => [] | x :: xs => np_maximum acc x :: accumulate_max (np_maximum acc x) xs end.

Record LongShort := mkLongShort {
  ls_annual_return : F; ls_annual_volatility : F; ls_sharpe_ratio : F; ls_max_drawdown : F; ls_avg_daily_turnover : F;
  ls_n_periods : nat; ls_portfolio_returns : list F; ls_monthly_returns : list F
}.

Definition long_short_equity (signals : list (list (option F))) (returns : matrix F) (N n_long n_short : nat)
    (vol_scale : bool) (target_vol : F) : option LongShort :=
  let b := ls_books signals returns N n_long n_short vol_scale target_vol in
  let valid_pr := filter (λ r, nfinite r = true) (bk_returns b) in
  if length valid_pr <? 10 then None
  else
    let ann_ret := np_mean valid_pr ⊗ nof_Z 252 in
    let ann_vol := np_std 1 valid_pr ⊗ year_root in
    let sharpe := ann_ret ⊘ nmax ann_vol micro_floor in
    let grown := (λ r, n1 ⊕ r) <$> valid_pr in
    let cum := match grown with [] => [] | g :: gs => g :: cumprod g gs end in
    let running_max := match cum with [] => [] | c :: cs => c :: accumulate_max c cs end in
    let dd := zip_with (λ c m, (c ⊖ m) ⊘ np_maximum m micro_floor) cum running_max in
    let monthly := (λ i, np_prod (slice (i * 21) ((i + 1) * 21) grown) ⊖ n1) <$> seq 0 (length valid_pr / 21) in
    Some (mkLongShort (nround ann_ret 4) (nround ann_vol 4) (nround sharpe 4) (nround (vmin dd) 4)
      (nround (np_mean (bk_turnover b)) 4) (length valid_pr)
      ((λ r, nround r 6) <$> drop (length (bk_returns b) - 252) (bk_returns b)) ((λ r, nround r 4) <$> monthly)).

(** ** Factors *)

Definition factor_neutralise (weights : list F) (exposures : matrix F) : outcome string (list F) :=
  let N := length exposures in
  let K := length (default [] (head exposures)) in
  if negb (N =? length weights) then Raise "Weight and exposure dimensions mismatch"
  else
    let w_neutral :=
      match la_pinv (matmul K (transpose K exposures) exposures) with
      | Some inv =>
          let proj := matmul N (matmul K exposures inv) (transpose K exposures) in
          vsub weights (matvec proj weights)
      | None => weights
      end in
    let orig_gross := gross weights in
    let new_gross := gross w_neutral in
    Ret (if (new_gross >.? micro_floor) && (orig_gross >.? micro_floor)
         then (λ w, w ⊗ (orig_gross ⊘ new_gross)) <$> w_neutral else w_neutral).

(** A row of the neutralised signals. *)
Definition neutral_row (exposures : matrix F) (sig : list (option F)) : list (option F) :=
  if n_valid sig <=? length (default [] (head exposures)) + 2 then sig
  else
    match factor_neutralise ((λ s, if valid_signal s then default n0 s else n0) <$> sig) exposures with
    | Ret w => zip_with (λ s x, if valid_signal s then Some x else None) sig w
    | Raise _ => sig
    end.

Record NeutralReport := mkNeutralReport {
  nr_base_long_short : option LongShort; nr_factor_neutral_long_short : option (option LongShort)
}.

Definition run_neutral_strategies (signals : list (list (option F))) (returns : matrix F) (N : nat)
    (exposures : option (matrix F)) : NeutralReport :=
  let n_long := min (max (N / 5) 3) 15 in
  let run s := long_short_equity s returns N n_long n_long true (nof_ratio 10 100) in
  mkNeutralReport (run signals)
    (B ← exposures; if length B =? N then Some (run (neutral_row B <$> take (length returns) signals)) else None).
End neutral.

#[local] Close Scope nat_scope.
(** * Theorems

    The neutral strategies: the filter's algebra, the pairs state machine, and
    books that balance. *)

(** ** Positions *)

Section pairs.
Context {F : Type} `{Num F} `{NumPy F} `{LinAlg F}.
Variables entry_z exit_z : F.
Implicit Types zs : list (option F).
#[local] Open Scope Z_scope.

Definition step_position (p : Z) (z : option F) : Z :=
  match z with Some z => if nfinite z then next_position entry_z exit_z p z else p | None => p end.
Definition finite_score (z : option F) : bool := match z with Some z => nfinite z | None => false end.

Lemma signals_from_lookup p zs (t : nat) s :
  signals_from entry_z exit_z p zs !! t = Some s →
  ∃ z, zs !! t = Some z ∧ s = if finite_score z then foldl step_position p (take (S t) zs) else 0.
Proof.
  revert p t. induction zs as [|z zs IH]; intros p t; [done|].
  destruct t as [|t]; destruct z as [z|]; cbn [signals_from];
    try (destruct (nfinite z) eqn:E); cbn [lookup list_lookup]; intros Hs;
    try (injection Hs as <-; eexists; split; [done|]; cbn; by rewrite ?E).
  all: destruct (IH _ _ Hs) as (w & Hw & ->); exists w; split; [done|]; cbn; by rewrite ?E.
Qed.

Lemma signals_from_length p zs : length (signals_from entry_z exit_z p zs) = length zs.
Proof.
  revert p. induction zs as [|[z|] zs IH]; intros p; cbn [signals_from]; [done| |cbn; by rewrite IH].
  destruct (nfinite z); cbn; by rewrite IH.
Qed.

Lemma signals_from_take p n zs : signals_from entry_z exit_z p (take n zs) = take n (signals_from entry_z exit_z p zs).
Proof.
  revert p n. induction zs as [|[z|] zs IH]; intros p [|n]; cbn [signals_from take]; try done.
  - destruct (nfinite z); cbn [take]; by rewrite IH.
  - cbn [take]. by rewrite IH.
Qed.

(** From flat, what brought the position to where it is: an entry, and no exit
    since. *)
Definition entered (side : Z) (zs : list (option F)) : Prop :=
  ∃ before z since, zs = before ++ Some z :: since ∧ nfinite z = true ∧
    (if side =? 1 then z <.? nopp entry_z else z >.? entry_z) = true ∧
    ∀ z', Some z' ∈ since → nfinite z' = true → (if side =? 1 then z' >.? nopp exit_z else z' <.? exit_z) = false.

Lemma positions_have_reasons zs :
  let p := foldl step_position 0 zs in p = 0 ∨ (p = 1 ∧ entered 1 zs) ∨ (p = -1 ∧ entered (-1) zs).
Proof.
  cbn zeta. induction zs as [|z zs IH] using rev_ind; [by left|]. rewrite foldl_snoc.
  set (p := foldl step_position 0 zs) in *.
  assert (∀ side, entered side zs →
    (∀ z', z = Some z' → nfinite z' = true → (if side =? 1 then z' >.? nopp exit_z else z' <.? exit_z) = false) →
    entered side (zs ++ [z])) as Hkeep.
  { intros side (before & z0 & since & -> & Hf & He & Hs) Hz. exists before, z0, (since ++ [z]).
    split; [by rewrite <- app_assoc|]. split_and!; [done|done|]. intros z' [Hin|Hin]%elem_of_app; [by apply Hs|].
    apply list_elem_of_singleton in Hin. by apply Hz. }
  assert (∀ side z', z = Some z' → nfinite z' = true → (if side =? 1 then z' <.? nopp entry_z else z' >.? entry_z) = true →
    entered side (zs ++ [z])) as Hnew.
  { intros side z' -> Hf He. exists zs, z', []. split_and!; try done. by intros ? []%not_elem_of_nil. }
  destruct z as [z|]; cbn [step_position].
  2:{ destruct IH as [->|[[-> He]|[-> He]]]; [by left|right; left|right; right]; (split; [done|by apply Hkeep]). }
  destruct (nfinite z) eqn:Ef.
  2:{ assert (∀ z', Some z = Some z' → nfinite z' = true → False) as Hno by (intros z' [= <-]; by rewrite Ef).
      destruct IH as [->|[[-> He]|[-> He]]]; [by left|right; left|right; right];
        (split; [done|apply Hkeep; [done|intros z' Ez Hz; by destruct (Hno z' Ez Hz)]]). }
  destruct IH as [->|[[-> He]|[-> He]]]; unfold next_position; cbn [Z.eqb].
  - destruct (z <.? nopp entry_z) eqn:E1; [right; left; split; [done|by eapply Hnew]|].
    destruct (entry_z <.? z) eqn:E2; [right; right; split; [done|by eapply Hnew]|by left].
  - change (1 =? 0) with false. change (1 =? 1) with true. cbn iota.
    destruct (nopp exit_z <.? z) eqn:E; [by left|]. right. left. split; [done|]. apply Hkeep; [done|]. by intros z' [= <-].
  - change (-1 =? 0) with false. change (-1 =? 1) with false. change (-1 =? -1) with true. cbn iota.
    destruct (z <.? exit_z) eqn:E; [by left|]. right. right. split; [done|]. apply Hkeep; [done|]. by intros z' [= <-].
Qed.

Lemma no_flip p z : p = 1 ∨ p = -1 → step_position p z = - p → False.
Proof.
  intros Hp. unfold step_position, next_position. destruct z as [z|]; [|lia]. destruct (nfinite z); [|lia].
  destruct Hp as [-> | ->]; cbn; repeat dmatch; try discriminate; lia.
Qed.

Lemma spread_of_take n (y x : list F) hedge : spread_of (take n y) (take n x) (take n hedge) = take n (spread_of y x hedge).
Proof.
  unfold spread_of. revert y x hedge. induction n as [|n IH]; intros [|b y] [|a x] [|h hedge]; cbn; try done. f_equal. apply IH.
Qed.

Lemma fit_predictive_take k n (ys xs : list F) : fit_predictive k (take n ys) (take n xs) = take n (fit_predictive k ys xs).
Proof. revert k ys xs. induction n as [|n IH]; intros k [|y ys] [|x xs]; cbn; try done. f_equal. apply IH. Qed.

Lemma hedge_ratios_take n (y x : list F) use_kalman window :
  hedge_ratios (take n y) (take n x) use_kalman window = take n (hedge_ratios y x use_kalman window).
Proof.
  unfold hedge_ratios. destruct use_kalman; [by rewrite fit_predictive_take, fmap_take|].
  symmetry. rewrite length_take. apply take_fmap_seq. intros t Ht. unfold rolling_hedge. by rewrite !slice_take by lia.
Qed.

Lemma z_scores_take n (spread : list (option F)) window : z_scores (take n spread) window = take n (z_scores spread window).
Proof.
  unfold z_scores. symmetry. rewrite length_take. apply take_fmap_seq. intros t Ht. unfold z_score.
  rewrite slice_take by lia. by rewrite lookup_take_lt by lia.
Qed.

(** The z-scores of a pair, as the signals are computed from them. *)
Definition pair_scores (y x : list F) (use_kalman : bool) (window : nat) : list (option F) :=
  z_scores (spread_of y x (hedge_ratios y x use_kalman window)) window.

(** C24: A pairs trade has its reasons. Every signal is long, short or flat;
    the signal is never long one day and short the next; a long (short) day
    has an earlier or same day whose z-score was below (above) the entry
    threshold and since when no z-score crossed the exit threshold; and with
    the two price series cut anywhere after the first window, the signals of
    the days that remain are the same. *)
Theorem pair_signals_have_reasons (y x : list F) use_kalman window :
  let zs := pair_scores y x use_kalman window in
  let signals := pair_signals entry_z exit_z window zs in
  (∀ t s, signals !! t = Some s →
     s = 0 ∨ (s = 1 ∨ s = -1) ∧ (window ≤ t)%nat ∧ entered s (slice window (S t) zs) ∧ signals !! S t ≠ Some (- s)) ∧
  ∀ n, (window ≤ n)%nat →
    take n signals = take n (pair_signals entry_z exit_z window (pair_scores (take n y) (take n x) use_kalman window)).
Proof.
  cbn zeta. split.
  - intros t s Hs. unfold pair_signals in *. destruct (decide (t < window)%nat) as [Ht|Ht].
    { rewrite lookup_app_l in Hs by (by rewrite length_replicate). apply lookup_replicate in Hs as [-> _]. by left. }
    rewrite lookup_app_r in Hs by (rewrite length_replicate; lia). rewrite length_replicate in Hs.
    rewrite lookup_app_r by (rewrite length_replicate; lia). rewrite length_replicate.
    set (zs := drop window _) in *. destruct (signals_from_lookup _ _ _ _ Hs) as (z & Hz & Es).
    destruct (decide (s = 0)) as [->|Hne]; [by left|]. right. destruct (finite_score z); [|done].
    assert (entered s (take (S (t - window)) zs) ∧ (s = 1 ∨ s = -1)) as [He Hor].
    { destruct (positions_have_reasons (take (S (t - window)) zs)) as [E|[[E He]|[E He]]]; rewrite E in Es; subst s; auto; done. }
    split; [done|]. split; [lia|]. split; [unfold slice; by replace (S t - window)%nat with (S (t - window)) by lia|].
    intros Hn. replace (S t - window)%nat with (S (t - window)) in Hn by lia.
    destruct (signals_from_lookup _ _ _ _ Hn) as (z' & Hz' & Es'). destruct (finite_score z'); [|lia].
    rewrite (take_S_r _ _ _ Hz'), foldl_snoc, <- Es in Es'. by destruct (no_flip s z' Hor).
  - intros n Hn. unfold pair_scores. rewrite hedge_ratios_take, spread_of_take, z_scores_take. unfold pair_signals.
    rewrite !take_app, !take_replicate, length_replicate, Nat.min_r by lia. f_equal. rewrite skipn_firstn_comm.
    by rewrite signals_from_take, take_take, Nat.min_id.
Qed.
End pairs.

(** The spread falls on the fourth day, and the pair is bought. *)
Lemma pair_signals_have_reasons_witness :
  let signals := pair_signals (F:=Q) 2 (1 # 2) 2 (pair_scores [1; 1; 1; -9] [1; 1; 1; 1] true 2)%Q in
  signals = [0; 0; 0; 1]%Z ∧ entered (F:=Q) 2 (1 # 2) 1 (slice 2 4 (pair_scores [1; 1; 1; -9] [1; 1; 1; 1] true 2)%Q).
Proof.
  cbv zeta. split; [vm_compute; reflexivity|].
  destruct (proj1 (pair_signals_have_reasons (F:=Q) 2 (1 # 2) [1; 1; 1; -9] [1; 1; 1; 1] true 2)%Q 3%nat 1%Z) as [E|(_ & _ & E & _)];
    [vm_compute; reflexivity|discriminate E|exact E].
Defined.
#[local] Open Scope Q_scope.

(** ** The filter *)

Section histories.
Context {F : Type} `{Num F}.

(** The filter after the first [t] observations. *)
Definition filter_at (delta R : F) (ys xs : list F) (t : nat) : KalmanHedgeFilter (F:=F) :=
  foldl (λ k yx, update k yx.1 yx.2) (kalman_init delta R) (zip (take t ys) (take t xs)).

Lemma histories_lookup (k : KalmanHedgeFilter (F:=F)) ys xs t y x :
  ys !! t = Some y → xs !! t = Some x →
  let k' := foldl (λ k yx, update k yx.1 yx.2) k (zip (take t ys) (take t xs)) in
  fit_predictive k ys xs !! t = Some (kf_beta k') ∧ kalman_fit k ys xs !! t = Some (kf_beta (update k' y x)).
Proof.
  revert k ys xs. induction t as [|t IH]; intros k [|b ys] [|a xs] Hy Hx; try done.
  - by injection Hy as ->; injection Hx as ->.
  - exact (IH (update k b a) ys xs Hy Hx).
Qed.
End histories.

Section kalman.
Context `{NumPy Q}.

Definition steady (k : KalmanHedgeFilter (F:=Q)) : Prop := 0 < kf_P k ∧ 0 <= kf_delta k ∧ 1 # 1000000000000 <= kf_R k.

Lemma update_spec k y x :
  steady k →
  let k' := update k y x in
  let V := x * x * (kf_P k + kf_delta k) + kf_R k in
  steady k' ∧ kf_P k' <= kf_P k + kf_delta k ∧ (y - kf_beta k' * x) * V == (y - kf_beta k * x) * kf_R k.
Proof.
  intros (HP & Hd & HR). unfold update. cbn zeta. cbn [kf_P kf_delta kf_R kf_beta nadd nsub nmul ndiv Num_Q]. unfold steady. cbn [kf_P kf_delta kf_R].
  set (P := kf_P k + kf_delta k). assert (0 < P) by (unfold P; lra). pose proof (square_nonneg_Q x) as Hx.
  assert (0 <= x * x * P) as Hxp by (apply Qmult_le_0_compat; lra).
  set (V := x * x * P + kf_R k). assert (0 < V) by (unfold V; lra).
  assert (nmax V pico_floor == V) as Hm.
  { unfold nmax. change pico_floor with (1 # 1000000000000). destruct (V <.? 1 # 1000000000000) eqn:E; qsimpl; [unfold V in *; lra|reflexivity]. }
  assert ((n1 - P * x / nmax V pico_floor * x) * P == P * kf_R k / V) as EP.
  { rewrite Hm. change (n1 (F:=Q)) with 1. assert (kf_R k == V - x * x * P) as ER by (unfold V; ring).
    rewrite ER at 1. field. lra. }
  rewrite EP. assert (0 < P * kf_R k / V).
  { apply Qlt_shift_div_l; [done|]. assert (0 < P * kf_R k) by (apply Qmult_lt_0_compat; lra). lra. }
  split_and!; [done|done|done| |].
  - apply Qle_shift_div_r; [done|]. assert (P * kf_R k <= P * V); [|lra]. apply Qmult_le_l; [done|]. unfold V. lra.
  - rewrite Hm. assert (kf_R k == V - x * x * P) as ER by (unfold V; ring). rewrite ER at 1. field. lra.
Qed.

Lemma filter_steady (delta R : Q) ys xs t : 0 <= delta → 1 # 1000000000000 <= R → steady (filter_at delta R ys xs t).
Proof.
  intros Hd HR. unfold filter_at. apply foldl_invariant; [by repeat split|].
  intros k yx _ Hk. by destruct (update_spec k yx.1 yx.2 Hk).
Qed.

Lemma filter_params (delta R : Q) ys xs t : kf_delta (filter_at delta R ys xs t) = delta ∧ kf_R (filter_at delta R ys xs t) = R.
Proof. unfold filter_at. by apply (foldl_invariant (λ k, kf_delta k = delta ∧ kf_R k = R)). Qed.

(** The residual of a day, in exact arithmetic. *)
Lemma residual_shrinks (delta R : Q) ys xs t y x :
  0 <= delta → 1 # 1000000000000 <= R →
  let k := filter_at delta R ys xs t in
  0 < kf_P k ∧ kf_P (update k y x) <= kf_P k + delta ∧
  y - kf_beta (update k y x) * x == (y - kf_beta k * x) * (R / (x * x * (kf_P k + delta) + R)).
Proof.
  intros Hd HR k. pose proof (filter_steady delta R ys xs t Hd HR) as Hk. destruct (filter_params delta R ys xs t) as [Ed ER].
  destruct (update_spec k y x Hk) as (_ & HPle & Hres). fold k in Hk, Ed, ER. rewrite Ed in *. rewrite ER in *.
  split; [apply Hk|]. split; [done|].
  set (V := x * x * (kf_P k + delta) + R) in *. assert (0 < V) as HV.
  { pose proof (square_nonneg_Q x). destruct Hk as [HP _]. assert (0 <= x * x * (kf_P k + delta)) by (apply Qmult_le_0_compat; lra). unfold V. lra. }
  apply (Qmult_inj_r _ _ V); [lra|]. rewrite Hres. field. lra.
Qed.

(** C25: The hedge ratio is honest. In any arithmetic, the machine's doubles
    included, the ratio reported before day t is the filter's estimate from
    the days before t, and series that agree on those days give the same one,
    while the other history's is the estimate once day t has been seen. In
    exact arithmetic, with non-negative state noise and an observation noise
    above the floor, the variance of the estimate stays positive and grows by
    at most the state noise in a day, and the residual against the ratio after
    day t is exactly the residual against the one before, times the share of
    the observation noise in the variance of the innovation (which doubles do
    not keep up: the variance can round to zero). *)
Theorem hedge_ratio_is_predictive :
  (∀ F (num : Num F) (delta R : F) ys xs t y x,
     ys !! t = Some y → xs !! t = Some x →
     let k := filter_at delta R ys xs t in
     fit_predictive (kalman_init delta R) ys xs !! t = Some (kf_beta k) ∧
     kalman_fit (kalman_init delta R) ys xs !! t = Some (kf_beta (update k y x)) ∧
     ∀ ys' xs', take t ys' = take t ys → take t xs' = take t xs → (t < length ys')%nat → (t < length xs')%nat →
       fit_predictive (kalman_init delta R) ys' xs' !! t = Some (kf_beta k)) ∧
  (∀ (delta R : Q) ys xs t y x,
     0 <= delta → 1 # 1000000000000 <= R → ys !! t = Some y → xs !! t = Some x →
     let k := filter_at delta R ys xs t in
     ∃ prior posterior,
       fit_predictive (kalman_init delta R) ys xs !! t = Some prior ∧
       kalman_fit (kalman_init delta R) ys xs !! t = Some posterior ∧
       0 < kf_P k ∧ kf_P (update k y x) <= kf_P k + delta ∧
       y - posterior * x == (y - prior * x) * (R / (x * x * (kf_P k + delta) + R))).
Proof.
  split.
  - intros F num delta R ys xs t y x Hy Hx k. destruct (histories_lookup (kalman_init delta R) ys xs t y x Hy Hx) as [H1 H2].
    split; [exact H1|]. split; [exact H2|]. intros ys' xs' Ey Ex Ly Lx.
    apply lookup_lt_is_Some_2 in Ly as [y' Hy']. apply lookup_lt_is_Some_2 in Lx as [x' Hx'].
    destruct (histories_lookup (kalman_init delta R) ys' xs' t y' x' Hy' Hx') as [H1' _].
    cbv zeta in H1'. rewrite Ey, Ex in H1'. exact H1'.
  - intros delta R ys xs t y x Hd HR Hy Hx k.
    destruct (histories_lookup (kalman_init delta R) ys xs t y x Hy Hx) as [Hprior Hpost].
    eexists _, _. split; [exact Hprior|]. split; [exact Hpost|]. by apply residual_shrinks.
Qed.
End kalman.

(** The second day of a pair at two to one. *)
Lemma hedge_ratio_is_predictive_witness :
  let k := filter_at 0 1 [2; 4] [1; 2] 1 in
  fit_predictive (kalman_init 0 1) [2; 9] [1; 7] !! 1%nat = Some (kf_beta k) ∧
  ∃ prior posterior,
    fit_predictive (kalman_init 0 1) [2; 4] [1; 2] !! 1%nat = Some prior ∧
    kalman_fit (kalman_init 0 1) [2; 4] [1; 2] !! 1%nat = Some posterior ∧
    0 < kf_P k ∧ kf_P (update k 4 2) <= kf_P k + 0 ∧
    4 - posterior * 2 == (4 - prior * 2) * (1 / (2 * 2 * (kf_P k + 0) + 1)).
Proof.
  destruct hedge_ratio_is_predictive as [Hany Hexact]. split.
  - destruct (Hany Q _ 0 1 [2; 4] [1; 2] 1%nat 4 2 eq_refl eq_refl) as (_ & _ & H).
    apply (H [2; 9] [1; 7]); [reflexivity|reflexivity|cbn; lia|cbn; lia].
  - apply (Hexact 0 1 [2; 4] [1; 2] 1%nat 4 2); [discriminate|discriminate|reflexivity|reflexivity].
Defined.

(** ** Books *)

Section books.
Context `{NumPy Q} `{!NumPyExact}.
Variable argsort : list (option Q) → list nat.
Hypothesis argsort_perm : ∀ sig, argsort sig ≡ₚ seq 0 (length sig).

Lemma qsum_insert (f : Q → Q) i w x l : l !! i = Some x → qsum (f <$> <[i := w]> l) == qsum (f <$> l) + (f w - f x).
Proof.
  revert i. induction l as [|y l IH]; intros [|i] Hi; try done.
  - injection Hi as ->. cbn [insert list_insert fmap list_fmap]. rewrite !qsum_cons. ring.
  - change (<[S i := w]> (y :: l)) with (y :: <[i := w]> l). cbn [fmap list_fmap]. rewrite !qsum_cons.
    assert (qsum (f <$> <[i := w]> l) == qsum (f <$> l) + (f w - f x)) as -> by (by apply IH). ring.
Qed.

Lemma assign_length (idx : list nat) (w : Q) l : length (assign idx w l) = length l.
Proof. unfold assign. revert l. induction idx as [|i idx IH]; intros l; [done|]. cbn [foldl]. by rewrite IH, length_insert. Qed.

Lemma assign_other (idx : list nat) (w : Q) l j : j ∉ idx → assign idx w l !! j = l !! j.
Proof.
  unfold assign. revert l. induction idx as [|i idx IH]; intros l Hj; [done|]. cbn [foldl].
  apply not_elem_of_cons in Hj as [Hne Hj]. rewrite IH by done. by apply list_lookup_insert_ne.
Qed.

Lemma qsum_assign (f : Q → Q) idx w l :
  NoDup idx → (∀ i, i ∈ idx → l !! i = Some 0) →
  qsum (f <$> assign idx w l) == qsum (f <$> l) + count (F:=Q) (length idx) * (f w - f 0).
Proof.
  intros Hnd. revert l. induction Hnd as [|i idx Hi Hnd IH]; intros l Hz; [change (assign [] w l) with l; change (count (length (@nil nat))) with 0; ring|].
  change (assign (i :: idx) w l) with (assign idx w (<[i := w]> l)). rewrite IH.
  - rewrite (qsum_insert f i w 0) by (apply Hz; by left). cbn [length].
    assert (count (F:=Q) (S (length idx)) == 1 + count (length idx)) as ->; [|ring].
    unfold count, nof_Z. cbn [nof_ratio Num_Q]. rewrite Nat2Z.inj_succ, <- Z.add_1_l. unfold Qeq. cbn. lia.
  - intros j Hj. rewrite list_lookup_insert_ne by (intros ->; done). apply Hz. by right.
Qed.

Lemma count_pos n : (0 < n)%nat → 0 < count (F:=Q) n.
Proof. intros Hn. unfold count, nof_Z, Qlt. cbn. lia. Qed.

Lemma qsum_zeros (f : Q → Q) n : f 0 == 0 → qsum (f <$> replicate n 0) == 0.
Proof. intros Hf. induction n as [|n IH]; [reflexivity|]. cbn [replicate fmap list_fmap]. rewrite qsum_cons, IH, Hf. ring. Qed.

Section one_book.
Variables (sig : list (option Q)) (n_long n_short : nat).
Hypothesis long_pos : (0 < n_long)%nat.
Hypothesis short_pos : (0 < n_short)%nat.
Hypothesis enough : (n_long + n_short <= length sig)%nat.

#[local] Abbreviation longs := (drop (length (argsort sig) - n_long) (argsort sig)).
#[local] Abbreviation shorts := (take n_short (argsort sig)).

Definition unscaled : list Q :=
  assign shorts (nopp n1 ⊘ count n_short) (assign longs (n1 ⊘ count n_long) (replicate (length sig) 0)).

Lemma ranked_length : length (argsort sig) = length sig.
Proof. rewrite (argsort_perm sig). apply length_seq. Qed.

Lemma ranked_nodup : NoDup (argsort sig).
Proof. rewrite (argsort_perm sig). apply NoDup_seq. Qed.

Lemma ranked_bound i : i ∈ argsort sig → (i < length sig)%nat.
Proof. rewrite (argsort_perm sig). intros ?%elem_of_seq. lia. Qed.

Lemma sides_disjoint i : i ∈ shorts → i ∉ longs.
Proof.
  intros Hs Hl. pose proof ranked_nodup as Hnd. apply list_elem_of_lookup in Hs as (a & Ha), Hl as (b & Hb).
  apply lookup_take_Some in Ha as [Ha Hlt]. rewrite lookup_drop in Hb.
  pose proof (NoDup_lookup _ _ _ _ Hnd Ha Hb). rewrite ranked_length in *. lia.
Qed.

(** The sum of any function of the positions that vanishes at zero. *)
Lemma unscaled_sum (f : Q → Q) :
  f 0 == 0 →
  qsum (f <$> unscaled) == count n_long * f (n1 ⊘ count n_long) + count n_short * f (nopp n1 ⊘ count n_short).
Proof.
  intros Hf. unfold unscaled.
  assert (∀ i, i ∈ argsort sig → replicate (length sig) 0 !! i = Some 0) as Hz
    by (intros i Hi; apply lookup_replicate; split; [done|by apply ranked_bound]).
  assert (∀ i, i ∈ longs → i ∈ argsort sig) as Hlong by (intros i Hi; eapply elem_of_sublist; [exact Hi|apply sublist_drop]).
  assert (∀ i, i ∈ shorts → i ∈ argsort sig) as Hshort by (intros i Hi; eapply elem_of_sublist; [exact Hi|apply sublist_take]).
  rewrite (qsum_assign f shorts), (qsum_assign f longs), qsum_zeros; try done.
  - rewrite length_take, length_drop, ranked_length, Hf.
    replace (n_short `min` length sig)%nat with n_short by lia.
    replace (length sig - (length sig - n_long))%nat with n_long by lia. ring.
  - eapply sublist_NoDup; [exact ranked_nodup|apply sublist_drop].
  - intros i Hi. apply Hz. by apply Hlong.
  - eapply sublist_NoDup; [exact ranked_nodup|apply sublist_take].
  - intros i Hi. rewrite assign_other by (by apply sides_disjoint). apply Hz. by apply Hshort.
Qed.

Lemma side_weight n : (0 < n)%nat → count (F:=Q) n * (n1 ⊘ count n) == 1 ∧ count n * (nopp n1 ⊘ count n) == - (1)
  ∧ 0 <= (n1 (F:=Q) ⊘ count n) ∧ (nopp n1 (F:=Q) ⊘ count n) <= 0.
Proof.
  intros Hn. pose proof (count_pos n Hn) as Hc. change (n1 (F:=Q)) with 1. cbn [ndiv nopp Num_Q].
  split_and!; [field; lra|field; lra|apply Qdiv_nonneg; [lra|done]|apply Qle_shift_div_r; [done|lra]].
Qed.

(** A book worth [c]: it sums to zero and its sides add up to [c]. *)
Definition balanced (w : list Q) (c : Q) : Prop := length w = length sig ∧ qsum w == 0 ∧ qsum (Qabs <$> w) == c.

Lemma book_balanced : balanced (book_weights argsort sig (length sig) n_long n_short) 1.
Proof.
  destruct (side_weight n_long long_pos) as (El & _ & Pl & _), (side_weight n_short short_pos) as (_ & Es & _ & Ps).
  assert (qsum (Qabs <$> unscaled) == 2) as Hgross.
  { rewrite unscaled_sum by reflexivity. rewrite (Qabs_pos _ Pl), (Qabs_neg _ Ps), El.
    assert (count n_short * - (nopp n1 ⊘ count n_short) == - (count n_short * (nopp n1 ⊘ count n_short))) as -> by ring.
    rewrite Es. ring. }
  assert (qsum unscaled == 0) as Hsum.
  { rewrite <- (list_fmap_id unscaled). rewrite unscaled_sum by reflexivity. unfold id. rewrite El, Es. ring. }
  assert (gross unscaled == 2) as Hg by (unfold gross; rewrite np_sum_exact; exact Hgross).
  unfold book_weights. change (assign shorts _ _) with unscaled.
  destruct (micro_floor <.? gross unscaled) eqn:E; qsimpl; [|change micro_floor with (1 # 1000000000) in E; lra].
  split_and!.
  - unfold vdiv. rewrite length_fmap. unfold unscaled. by rewrite !assign_length, length_replicate.
  - rewrite qsum_vdiv, Hsum, Hg. reflexivity.
  - assert (qsum (Qabs <$> vdiv unscaled (gross unscaled)) == qsum (vdiv (Qabs <$> unscaled) (gross unscaled))) as ->.
    { unfold vdiv. rewrite <- !list_fmap_compose. apply qsum_fmap_eq. intros x _. cbn [compose ndiv Num_Q].
      unfold Qdiv. rewrite Qabs_Qmult, (Qabs_pos (/ gross unscaled)); [reflexivity|]. apply Qinv_le_0_compat. lra. }
    rewrite qsum_vdiv, Hgross, Hg. reflexivity.
Qed.
End one_book.

Variables (signals : list (list (option Q))) (returns : matrix Q) (N n_long n_short : nat) (vol_scale : bool) (target_vol : Q).

(** The books after [T] days. *)
Definition books_at (T : nat) : Books (F:=Q) :=
  foldl (ls_step argsort signals returns N n_long n_short vol_scale target_vol) (mkBooks [] [] (replicate N n0)) (seq 1 T).

Definition neutral_book (w : list Q) : Prop :=
  length w = N ∧ qsum w == 0 ∧ qsum (Qabs <$> w) <= 3 ∧
  (vol_scale = false → qsum (Qabs <$> w) == 0 ∨ qsum (Qabs <$> w) == 1).

Lemma scaled_book w c :
  length w = N → qsum w == 0 → qsum (Qabs <$> w) == 1 → 0 <= c →
  length ((λ x, x * c) <$> w) = N ∧ qsum ((λ x, x * c) <$> w) == 0 ∧ qsum (Qabs <$> ((λ x, x * c) <$> w)) == c.
Proof.
  intros Hl Hs Hg Hc. split; [by rewrite length_fmap|]. split.
  - transitivity (qsum (vscale c w)); [apply qsum_fmap_eq; intros x _; cbn; ring|]. rewrite qsum_vscale, Hs. ring.
  - transitivity (qsum (vscale c (Qabs <$> w))).
    + unfold vscale. rewrite <- !list_fmap_compose. apply qsum_fmap_eq. intros x _. cbn [compose nmul Num_Q].
      rewrite Qabs_Qmult, (Qabs_pos c Hc). ring.
    + rewrite qsum_vscale, Hg. ring.
Qed.

Lemma vol_scaled_neutral prev t w :
  0 <= target_vol → length w = N → qsum w == 0 → qsum (Qabs <$> w) == 1 →
  neutral_book (vol_scaled returns prev t vol_scale target_vol w).
Proof.
  intros Ht Hl Hs Hg. unfold vol_scaled. assert (neutral_book w) as Hw.
  { repeat split; [done|done|lra|by right]. }
  destruct (vol_scale && (22 <=? t)%nat) eqn:Ev; [|done].
  destruct (micro_floor <.? book_volatility returns prev t) eqn:E; [|done]. qsimpl. bsimpl.
  set (c := nmin _ _). assert (0 <= c ∧ c <= 3) as [Hc Hc3].
  { change (micro_floor (F:=Q)) with (1 # 1000000000) in E. assert (0 <= target_vol / book_volatility returns prev t) by (apply Qdiv_nonneg; lra).
    unfold c. destruct (nmin_Q (target_vol ⊘ book_volatility returns prev t) (nof_Z 3)) as (_ & Hc3 & Hor).
    change (nof_Z (F:=Q) 3) with 3 in *. split; [|done]. destruct Hor as [-> | ->]; [done|lra]. }
  destruct (scaled_book w c Hl Hs Hg Hc) as (Hl' & Hs' & Hg'). repeat split; [done|done|cbn [nmul Num_Q]; rewrite Hg'; done|].
  by intros E'; rewrite E' in *.
Qed.

Lemma n_valid_le (sig : list (option Q)) : (n_valid sig <= length sig)%nat.
Proof. unfold n_valid. apply sublist_length, sublist_filter. Qed.

(** The long/short books are dollar-neutral. After any number of days,
    whatever the signals, the returns and the library's deviation, the
    positions sum to exactly zero and their absolute values to at most three
    (to zero or one when they are not scaled to a volatility); and each day
    adds one return, which is nothing on a day without enough signals and
    otherwise that day's returns held at the new positions. *)
Theorem long_short_books_balance :
  (0 < n_long)%nat → (0 < n_short)%nat → 0 <= target_vol → (∀ row, row ∈ signals → length row = N) →
  ∀ T, neutral_book (bk_prev (books_at T)) ∧
    ∃ r, bk_returns (books_at (S T)) = bk_returns (books_at T) ++ [r] ∧
      (r = 0 ∧ bk_prev (books_at (S T)) = bk_prev (books_at T) ∨
       r = np_dot (default [] (returns !! S T)) (bk_prev (books_at (S T)))).
Proof.
  intros Hnl Hns Ht Hrows.
  assert (∀ T, books_at (S T) = ls_step argsort signals returns N n_long n_short vol_scale target_vol (books_at T) (S T)) as Hstep.
  { intros T. unfold books_at. rewrite seq_S, foldl_app. done. }
  assert (∀ T, neutral_book (bk_prev (books_at T))) as Hinv.
  { induction T as [|T IH].
    - cbn. assert (∀ n, qsum (replicate n 0) == 0 ∧ qsum (Qabs <$> replicate n 0) == 0) as Hz.
      { intros n. split; [|by apply qsum_zeros]. pose proof (qsum_zeros id n (Qeq_refl 0)) as Hz. by rewrite list_fmap_id in Hz. }
      change (n0 (F:=Q)) with 0. destruct (Hz N) as [Z1 Z2]. split_and!; [apply length_replicate|done|rewrite Z2; lra|by left].
    - rewrite Hstep. unfold ls_step. set (sig := default [] (signals !! (S T - 1)%nat)).
      destruct (n_valid sig <? n_long + n_short + 2)%nat eqn:E; [done|]. apply Nat.ltb_ge in E. cbn [bk_prev].
      pose proof (n_valid_le sig) as Hv. assert (length sig = N) as HN.
      { unfold sig in *. destruct (signals !! (S T - 1)%nat) as [row|] eqn:Er; [|cbn in *; lia]. cbn in *.
        apply Hrows. by eapply list_elem_of_lookup_2. }
      destruct (book_balanced sig n_long n_short Hnl Hns ltac:(lia)) as (Hl & Hs & Hg). rewrite HN in *.
      by apply vol_scaled_neutral. }
  intros T. split; [apply Hinv|]. rewrite Hstep. unfold ls_step.
  destruct (_ <? _)%nat; eexists; (split; [reflexivity|]); [by left|by right].
Qed.
End books.

(** The order of a row with its NaNs last, for the examples. *)
Definition nan_last (sig : list (option Q)) : list nat :=
  let ix := zip (seq 0 (length sig)) sig in
  (fst <$> sort_key (λ ix : nat * option Q, default 0 ix.2) (filter (λ ix, is_Some ix.2) ix)) ++ (fst <$> filter (λ ix, ¬ is_Some ix.2) ix).

Lemma nan_last_perm sig : nan_last sig ≡ₚ seq 0 (length sig).
Proof.
  unfold nan_last. rewrite sort_key_perm, <- fmap_app. rewrite filter_app_complement. by rewrite fst_zip by (by rewrite length_seq).
Qed.

Lemma long_short_books_balance_witness :
  (0 < 1)%nat ∧ 0 <= 1 # 10 ∧ neutral_book 4 true (bk_prev (books_at nan_last [[Some 1; Some 2; Some 3; Some 4]] [[0; 0; 0; 0]; [1; 1; 1; 2]] 4 1 1 true (1 # 10) 1)).
Proof.
  split; [lia|]. split; [discriminate|].
  apply (long_short_books_balance nan_last nan_last_perm [[Some 1; Some 2; Some 3; Some 4]] [[0; 0; 0; 0]; [1; 1; 1; 2]] 4 1 1 true (1 # 10));
    [lia|lia|discriminate|]. intros row Hrow%list_elem_of_singleton. by subst.
Defined.

(** An asset without a signal is ranked last, and so is bought: four signals
    are enough for one long and one short, and the fifth asset has none. *)
Example missing_signal_is_bought :
  Qred <$> book_weights nan_last [Some 4; Some 3; Some 2; Some 1; None] 5 1 1 = [0; 0; 0; - (1 # 2); 1 # 2].
Proof. by vm_compute. Qed.

(** A day's signal earns the move into that day: bought on the third day, at
    five, it is given the fall from ten to five. *)
Example pair_earns_the_move_before :
  let spread := [Some 10; Some 10; Some 5; Some 5] in
  pair_signals 2 (1 # 2) 2 [None; None; Some (- (5)); Some (- (1))] = [0; 0; 1; 1]%Z ∧
  (λ r : option Q, Qred <$> r) <$> strategy_returns [0; 0; 1; 1]%Z spread = [Some 0; Some (- (1 # 2)); Some 0].
Proof. split; by vm_compute. Qed.
