(* ===== verification/CorrelationEngine.v ===== *)
(** backend/services/correlation_engine.py: six estimates of the correlations
    of N assets over T days, and which to use. A reduction along an axis is
    the reduction of each column. *)

From Stdlib Require Import QArith Qabs Lqa.
From S2P Require Import Prelude Numeric StrategySignals Vectors Matrices.
#[local] Open Scope nat_scope.

Inductive CorrMethod := PEARSON | SPEARMAN | EWMA | LEDOIT_WOLF | OAS | PCA.
#[global] Instance CorrMethod_eq_dec : EqDecision CorrMethod.
Proof. solve_decision. Defined.

Section correlation.
Context {F : Type} `{Num F} `{NumPy F} `{LinAlg F}.
Implicit Types returns S : matrix F.

Definition of_n (n : nat) : F := nof_Z (Z.of_nat n).
Definition floor12 : F := nof_ratio 1 1000000000000.

(** ** The sample *)

Definition pearson_correlation returns (N : nat) : matrix F :=
  if length returns <? 3 then eye N else la_corrcoef returns.

(** [ranks[temp] = np.arange(1, T + 1)] *)
Definition ranks (col : list F) : list F :=
  let temp := np_argsort col in
  foldl (λ r kt, <[kt.2 := of_n (kt.1 + 1)]> r) (replicate (length col) n0) (zip (seq 0 (length temp)) temp).

Definition spearman_correlation returns (N : nat) : matrix F :=
  if length returns <? 3 then eye N
  else la_corrcoef (transpose (length returns) (ranks <$> transpose N returns)).

(** ** Exponential weights *)

Definition ewma_weights (T : nat) (halflife : F) : list F :=
  let decay := m_exp (nopp (m_log (nof_Z 2)) ⊘ halflife) in
  let weights := (λ t, m_pow decay (of_n (T - 1 - t))) <$> seq 0 T in
  vdiv weights (np_sum weights).

Definition ewma_covariance returns (N : nat) (halflife : F) : matrix F :=
  let weights := ewma_weights (length returns) halflife in
  let w_mean := (λ j, np_sum (vmul weights (column j returns))) <$> seq 0 N in
  let deviations := (λ row, vsub row w_mean) <$> returns in
  square N (λ i j, np_sum (vmul (vmul weights (column i deviations)) (column j deviations))).

Definition ewma_correlation returns (N : nat) (halflife : F) : matrix F :=
  if length returns <? 3 then eye N
  else
    let w_cov := ewma_covariance returns N halflife in
    let std := m_sqrt <$> diagonal w_cov in
    square N (λ i j,
      if i =? j then n1
      else
        let outer := at_ std i ⊗ at_ std j in
        if outer >.? floor12 then entry w_cov i j ⊘ outer else n0).

(** ** Shrinkage *)

(** [np.sqrt(np.maximum(np.diag(S), 1e-12))], the quotient by the outer
    product, the diagonal filled and the result clipped. *)
Definition to_correlation (N : nat) S : matrix F :=
  let std := (λ v, m_sqrt (np_maximum v floor12)) <$> diagonal S in
  square N (λ i j, clip (nopp n1) n1 (if i =? j then n1 else entry S i j ⊘ (at_ std i ⊗ at_ std j))).

Definition trace S : F := np_sum (diagonal S).

(** [min(1.0, max(0.0, x))] *)
Definition intensity (x : F) : F := nmin n1 (nmax n0 x).

(** [(1 - alpha) * S + alpha * mu * np.eye(N)] *)
Definition shrunk (N : nat) S (alpha mu : F) : matrix F :=
  square N (λ i j, (n1 ⊖ alpha) ⊗ entry S i j ⊕ alpha ⊗ mu ⊗ (if i =? j then n1 else n0)).

Definition sum_of_squares (m : matrix F) : F := np_sum ((λ x, x ⊗ x) <$> concat m).

Definition ledoit_wolf_alpha returns (N : nat) : F :=
  let T := length returns in
  let S := la_cov returns in
  let mu := trace S ⊘ of_n N in
  let means := np_mean <$> transpose N returns in
  let X := (λ row, vsub row means) <$> returns in
  let phi_hat := foldl (λ phi x,
      phi ⊕ sum_of_squares (square N (λ i j, at_ x i ⊗ at_ x j ⊖ entry S i j))) n0 X in
  let phi_hat := phi_hat ⊘ nof_Z (Z.of_nat T * Z.of_nat T) in
  let delta_hat := sum_of_squares (square N (λ i j, entry S i j ⊖ mu ⊗ (if i =? j then n1 else n0))) in
  intensity (if delta_hat >.? floor12 then phi_hat ⊘ delta_hat else n0).

Definition ledoit_wolf_shrinkage returns (N : nat) : matrix F * F :=
  if (length returns <? 3) || (N <? 2) then (eye N, n0)
  else
    let S := la_cov returns in
    let alpha := ledoit_wolf_alpha returns N in
    (to_correlation N (shrunk N S alpha (trace S ⊘ of_n N)), nround alpha 4).

Definition oas_alpha (T N : nat) S : F :=
  let trace_S := trace S in
  let trace_S2 := trace (matmul N S S) in
  let two_N := nof_Z 2 ⊘ of_n N in
  let rho_numerator := (n1 ⊖ two_N) ⊗ trace_S2 ⊕ trace_S ⊗ trace_S in
  let rho_denominator := (of_n (T + 1) ⊖ two_N) ⊗ (trace_S2 ⊖ trace_S ⊗ trace_S ⊘ of_n N) in
  intensity (if rho_denominator >.? floor12 then rho_numerator ⊘ rho_denominator else n0).

Definition oas_shrinkage returns (N : nat) : matrix F * F :=
  let T := length returns in
  if (T <? 3) || (N <? 2) then (eye N, n0)
  else
    let S := la_cov returns in
    let alpha := oas_alpha T N S in
    (to_correlation N (shrunk N S alpha (trace S ⊘ of_n N)), nround alpha 4).

(** ** Principal components *)

Record PCAResult := mkPCA {
  pca_correlation : matrix F; pca_covariance_matrix : matrix F; pca_n_components : nat;
  pca_explained_ratio : list F; pca_cumulative : list F; pca_loadings : matrix F
}.

(** [np.cumsum], from what came before. *)
Fixpoint cumsum (acc : F) (xs : list F) : list F :=
  match xs with [] => [] | x :: xs => (acc ⊕ x) :: cumsum (acc ⊕ x) xs end.
Definition np_cumsum (xs : list F) : list F := match xs with [] => [] | x :: xs => x :: cumsum x xs end.

(** [np.searchsorted] on the sorted cumulative ratios: how many are below. *)
Definition auto_components (T N : nat) (explained_ratio : list F) : nat :=
  let below := length (filter (λ c, (c <.? nof_ratio 80 100) = true) (np_cumsum explained_ratio)) in
  max (min (below + 1) (min (N / 2) (min (T / 2) 20))) 1.

Definition rounded (d : Z) (m : matrix F) : matrix F := mat_map (λ x, nround x d) m.

Definition pca_covariance returns (N : nat) (n_components : option nat) : PCAResult :=
  let T := length returns in
  if (T <? 3) || (N <? 2) then mkPCA (eye N) [] 0 [] [] []
  else
    let columns := transpose N returns in
    let mn := np_mean <$> columns in
    let sd := (λ c, let s := np_std 1 c in if s <.? nof_ratio 1 1000000000 then n1 else s) <$> columns in
    let Z := (λ row, zip_with ndiv (vsub row mn) sd) <$> returns in
    let '(S_vals, Vt) := la_svd Z in
    let eigenvalues := (λ s, s ⊗ s ⊘ of_n (T - 1)) <$> S_vals in
    let explained_ratio := vdiv eigenvalues (nmax (np_sum eigenvalues) floor12) in
    let k := match n_components with Some k => k | None => auto_components T N explained_ratio end in
    let loadings := transpose N (zip_with (λ v e, (λ x, x ⊗ m_sqrt e) <$> v) (take k Vt) (take k eigenvalues)) in
    let F_cov := square N (λ i j, np_dot (default [] (loadings !! i)) (default [] (loadings !! j))) in
    let S_sample := la_cov Z in
    let S_pca := square N (λ i j,
        entry F_cov i j
        ⊕ (if i =? j then np_maximum (entry S_sample i i ⊖ entry F_cov i i) (nof_ratio 1 1000000) else n0)) in
    let ratio := take k explained_ratio in
    mkPCA (rounded 4 (to_correlation N S_pca)) (rounded 6 S_pca) k ((λ x, nround x 4) <$> ratio)
      ((λ x, nround x 4) <$> np_cumsum ratio) (rounded 4 (transpose k loadings)).

(** ** Diagnostics *)

(** The warning: [Some true] not positive definite, [Some false]
    ill-conditioned. *)
Record Diagnostics := mkDiagnostics {
  dg_n_assets : nat; dg_is_positive_definite : bool; dg_min_eigenvalue : F; dg_max_eigenvalue : F; dg_condition_number : F;
  dg_avg_abs_correlation : F; dg_effective_bets : F; dg_warning : option bool
}.

Definition off_diagonal (corr : matrix F) : list F :=
  concat (imap (λ i row, omap id (imap (λ j x, if i =? j then None else Some x) row)) corr).

Definition correlation_diagnostics (corr : matrix F) : Diagnostics :=
  let eigenvalues := la_eigvalsh corr in
  let min_eig := vmin eigenvalues in
  let max_eig := vmax eigenvalues in
  let is_pd := min_eig >.? nof_ratio 1 100000000 in
  let cond_number := if is_pd then max_eig ⊘ min_eig else max_eig ⊘ nmax (nabs min_eig) floor12 in
  let avg_abs_corr := np_mean (nabs <$> off_diagonal corr) in
  let evs := (λ e, np_maximum e n0) <$> eigenvalues in
  let eff_bets := np_sum evs ⊗ np_sum evs ⊘ nmax (np_sum ((λ e, e ⊗ e) <$> evs)) floor12 in
  mkDiagnostics (length corr) is_pd (nround min_eig 6) (nround max_eig 4) (nround cond_number 2) (nround avg_abs_corr 4)
    (nround eff_bets 2)
    (if negb is_pd then Some true else if cond_number >.? nof_Z 1000 then Some false else None).

Definition recommend_estimator (T N : nat) (pearson_is_pd : bool) : CorrMethod :=
  let ratio := of_n T ⊘ of_n N in
  if ratio <.? nof_Z 3 then OAS
  else if ratio <.? nof_Z 10 then LEDOIT_WOLF
  else if negb pearson_is_pd then LEDOIT_WOLF
  else EWMA.

Record CorrelationReport := mkCorrelationReport {
  cr_correlations : list (CorrMethod * matrix F); cr_ledoit_wolf_intensity : F; cr_oas_intensity : F; cr_pca : PCAResult;
  cr_diagnostics : list (CorrMethod * Diagnostics); cr_recommended : CorrMethod; cr_recommended_is_pd : bool
}.

Definition run_correlation_engine returns (N : nat) (ewma_halflife : F) (pca_components : option nat) : CorrelationReport :=
  let T := length returns in
  let '(lw, lw_alpha) := ledoit_wolf_shrinkage returns N in
  let '(oas, oas_alpha) := oas_shrinkage returns N in
  let pca := pca_covariance returns N pca_components in
  let estimates :=
    [(PEARSON, pearson_correlation returns N); (SPEARMAN, spearman_correlation returns N);
     (EWMA, ewma_correlation returns N ewma_halflife); (LEDOIT_WOLF, lw); (OAS, oas); (PCA, pca_correlation pca)] in
  let diag := (λ mc, (mc.1, correlation_diagnostics mc.2)) <$> estimates in
  let is_pd m := existsb (λ md, bool_decide (md.1 = m) && dg_is_positive_definite md.2) diag in
  let recommended := recommend_estimator T N (is_pd PEARSON) in
  mkCorrelationReport
    ((λ mc, (mc.1, if bool_decide (mc.1 = PCA) then mc.2 else rounded 4 mc.2)) <$> estimates)
    lw_alpha oas_alpha pca diag recommended (is_pd recommended).

(** ** The covariance an optimisation asks for *)

Definition corr_to_cov (corr returns : matrix F) (N : nat) : matrix F :=
  let std := np_std 1 <$> transpose N returns in
  square N (λ i j, entry corr i j ⊗ (at_ std i ⊗ at_ std j)).

Definition optimisation_covariance (corr_method : string) returns (N : nat) : matrix F :=
  if (corr_method =? "oas")%string then corr_to_cov (oas_shrinkage returns N).1 returns N
  else if (corr_method =? "pearson")%string then la_cov returns
  else if (corr_method =? "ewma")%string then corr_to_cov (ewma_correlation returns N (nof_Z 60)) returns N
  else corr_to_cov (ledoit_wolf_shrinkage returns N).1 returns N.
End correlation.

#[local] Close Scope nat_scope.
(** * Theorems

    The correlation estimates are correlation matrices, and shrinkage is an
    interpolation that keeps the total variance. *)

#[local] Open Scope Q_scope.

Definition symmetric (N : nat) (m : matrix Q) : Prop :=
  ∀ i j, (i < N)%nat → (j < N)%nat → entry m i j == entry m j i.

(** [N] rows and columns, ones on the diagonal, symmetric, within [-1, 1]. *)
Definition correlation_matrix (N : nat) (m : matrix Q) : Prop :=
  shaped N m ∧ symmetric N m ∧
  ∀ i j, (i < N)%nat → (j < N)%nat → (-1) <= entry m i j ∧ entry m i j <= 1 ∧ entry m i i == 1.

Lemma eye_correlation N : correlation_matrix N (eye N).
Proof.
  unfold eye. split_and!; [apply square_shaped| |].
  - intros i j Hi Hj. rewrite !entry_square by done. by rewrite Nat.eqb_sym.
  - intros i j Hi Hj. rewrite !entry_square, Nat.eqb_refl by done.
    destruct (i =? j)%nat; change (n1 (F:=Q)) with 1; change (n0 (F:=Q)) with 0; split_and!; lra.
Qed.

Lemma clip_compat (lower upper x y : Q) : lower <= upper → x == y → clip lower upper x == clip lower upper y.
Proof.
  intros Hl E. pose proof (clip_mono lower upper x y ltac:(lra)). pose proof (clip_mono lower upper y x ltac:(lra)). lra.
Qed.

Section facts.
Context `{NumPy Q} `{!NumPyExact} `{LinAlg Q}.

Lemma to_correlation_ok N S : symmetric N S → correlation_matrix N (to_correlation N S).
Proof.
  intros HS. unfold to_correlation. set (std := _ <$> diagonal S).
  change (nopp (F:=Q) n1) with (-1). change (n1 (F:=Q)) with 1. split_and!; [apply square_shaped| |].
  - intros i j Hi Hj. rewrite !entry_square by done. apply clip_compat; [lra|]. rewrite Nat.eqb_sym.
    destruct (j =? i)%nat; [reflexivity|]. cbn [ndiv nmul Num_Q]. rewrite (HS i j Hi Hj).
    assert (at_ std i * at_ std j == at_ std j * at_ std i) as -> by ring. reflexivity.
  - intros i j Hi Hj. rewrite !entry_square, Nat.eqb_refl by done.
    match goal with |- _ <= clip _ _ ?x ∧ _ => destruct (clip_Q (-1) 1 x ltac:(lra)) end.
    split_and!; [done|done|]. apply clip_inside; lra.
Qed.

Lemma shrunk_symmetric N S alpha mu : symmetric N S → symmetric N (shrunk N S alpha mu).
Proof.
  intros HS i j Hi Hj. unfold shrunk. rewrite !entry_square by done. cbn [nadd nmul nsub Num_Q]. rewrite (HS i j Hi Hj), Nat.eqb_sym.
  reflexivity.
Qed.

Lemma intensity_bounds x : 0 <= intensity x ∧ intensity x <= 1.
Proof.
  unfold intensity. change (n1 (F:=Q)) with 1. change (n0 (F:=Q)) with 0. destruct (nmax_Q 0 x) as (? & _).
  destruct (nmin_Q 1 (nmax 0 x)) as (? & ? & [E|E]); rewrite E in *; split; lra.
Qed.

Lemma of_n_succ n : of_n (F:=Q) (S n) == 1 + of_n n.
Proof. unfold of_n, nof_Z. cbn [nof_ratio Num_Q]. rewrite Nat2Z.inj_succ, <- Z.add_1_l. unfold Qeq. cbn. lia. Qed.

Lemma qsum_const_seq c k n : qsum ((λ _ : nat, c) <$> seq k n) == of_n n * c.
Proof.
  revert k. induction n as [|n IH]; intros k; [change (0 == 0 * c); ring|]. cbn [seq fmap list_fmap].
  rewrite qsum_cons, IH, of_n_succ. ring.
Qed.

Lemma diagonal_square N (f : nat → nat → Q) : diagonal (square N f) = (λ i, f i i) <$> seq 0 N.
Proof.
  unfold diagonal. rewrite (proj1 (square_shape N f)). apply list_fmap_ext. intros i x Hx%lookup_seq. cbn. by rewrite entry_square by lia.
Qed.

(** The share taken from the target is given back to it. *)
Lemma shrunk_trace N S alpha :
  length S = N → (0 < N)%nat → trace (shrunk N S alpha (trace S ⊘ of_n N)) == trace S.
Proof.
  intros HS HN. set (mu := trace S ⊘ of_n N). unfold trace at 1, shrunk. rewrite np_sum_exact, diagonal_square.
  transitivity (qsum (vscale (1 - alpha) (diagonal S)) + qsum ((λ _ : nat, alpha * mu) <$> seq 0 N)).
  { unfold vscale, diagonal. rewrite HS, <- list_fmap_compose. generalize (seq 0 N).
    induction l as [|i l IH]; [cbn; ring|]. cbn [fmap list_fmap]. rewrite !qsum_cons, IH, Nat.eqb_refl. cbn [compose nadd nmul nsub Num_Q].
    change (n1 (F:=Q)) with 1. ring. }
  rewrite qsum_vscale, qsum_const_seq. unfold mu, trace. rewrite np_sum_exact. cbn [ndiv Num_Q].
  assert (0 < of_n (F:=Q) N) by (unfold of_n, nof_Z, Qlt; cbn; lia). field. lra.
Qed.

(** Shrinkage gives correlation matrices. When the sample covariance has a
    row and a column per asset and is symmetric, both shrinkage estimators
    answer a symmetric matrix with ones on its diagonal and every entry
    within [-1, 1]; it is the correlation of a mixture of the sample
    covariance and its scaled identity in proportions between zero and one,
    which is the reported intensity before rounding; and the mixture has the
    sample's total variance. *)
Theorem shrinkage_gives_correlations returns N :
  shaped N (la_cov returns) → symmetric N (la_cov returns) →
  ∀ estimate, estimate ∈ [ledoit_wolf_shrinkage returns N; oas_shrinkage returns N] →
  correlation_matrix N estimate.1 ∧
  (estimate = (eye N, n0) ∧ (length returns < 3 ∨ N < 2)%nat ∨
   ∃ alpha, 0 <= alpha ∧ alpha <= 1 ∧ estimate.2 = nround alpha 4 ∧
     let mixture := shrunk N (la_cov returns) alpha (trace (la_cov returns) ⊘ of_n N) in
     estimate.1 = to_correlation N mixture ∧ trace mixture == trace (la_cov returns)).
Proof.
  intros [HN _] Hsym estimate Hin.
  assert (∃ alpha, 0 <= alpha ∧ alpha <= 1 ∧ estimate =
    if (length returns <? 3)%nat || (N <? 2)%nat then (eye N, n0)
    else (to_correlation N (shrunk N (la_cov returns) alpha (trace (la_cov returns) ⊘ of_n N)), nround alpha 4)) as (alpha & H0a & H1a & ->).
  { apply elem_of_cons in Hin as [->|Hin]; [|apply list_elem_of_singleton in Hin as ->].
    - exists (ledoit_wolf_alpha returns N). unfold ledoit_wolf_alpha at 1 2.
      match goal with |- context [intensity ?x] => destruct (intensity_bounds x) end. done.
    - exists (oas_alpha (length returns) N (la_cov returns)). unfold oas_alpha at 1 2.
      match goal with |- context [intensity ?x] => destruct (intensity_bounds x) end. done. }
  destruct ((length returns <? 3)%nat || (N <? 2)%nat) eqn:E.
  - split; [apply eye_correlation|left]. split; [done|]. apply orb_true_iff in E as [E|E]; apply Nat.ltb_lt in E; [by left|by right].
  - split; [by apply to_correlation_ok, shrunk_symmetric|right]. exists alpha. split_and!; try done.
    split; [done|]. apply shrunk_trace; [done|]. apply orb_false_iff in E as [_ E]. apply Nat.ltb_ge in E. lia.
Qed.

(** The exponentially weighted matrix is symmetric with ones on its diagonal. *)
Lemma ewma_symmetric returns N halflife :
  let C := ewma_correlation returns N halflife in
  shaped N C ∧ symmetric N C ∧ ∀ i, (i < N)%nat → entry C i i == 1.
Proof.
  cbn zeta. unfold ewma_correlation. destruct (length returns <? 3)%nat.
  { destruct (eye_correlation N) as (? & ? & Hd). split_and!; [done|done|]. intros i Hi. by destruct (Hd i i Hi Hi) as (_ & _ & ?). }
  set (w_cov := ewma_covariance returns N halflife). set (std := _ <$> diagonal w_cov).
  assert (symmetric N w_cov) as Hsym.
  { intros i j Hi Hj. unfold w_cov, ewma_covariance. rewrite !entry_square by done. rewrite !np_sum_exact.
    set (ws := ewma_weights _ _). set (m := _ <$> returns). clearbody ws m. unfold column. revert ws.
    induction m as [|row m IH]; intros [|w ws]; try reflexivity. unfold vmul in *. cbn [fmap list_fmap zip_with].
    rewrite !qsum_cons, IH. cbn [nmul Num_Q]. ring. }
  split_and!; [apply square_shaped| |].
  - intros i j Hi Hj. rewrite !entry_square by done. rewrite (Nat.eqb_sym i j). destruct (j =? i)%nat; [reflexivity|].
    assert (at_ std i ⊗ at_ std j == at_ std j ⊗ at_ std i) as E by (cbn; ring).
    destruct (floor12 <.? at_ std i ⊗ at_ std j) eqn:E1, (floor12 <.? at_ std j ⊗ at_ std i) eqn:E2; qsimpl; try lra; try reflexivity.
    cbn [ndiv Num_Q]. rewrite (Hsym i j Hi Hj), E. reflexivity.
  - intros i Hi. rewrite entry_square, Nat.eqb_refl by done. reflexivity.
Qed.
End facts.

(** Two assets with the identity for their covariance. *)
Lemma shrinkage_gives_correlations_witness :
  let returns := [[1; 0]; [0; 1]] in
  shaped 2 (la_cov returns) ∧ symmetric 2 (la_cov returns) ∧ correlation_matrix 2 (oas_shrinkage returns 2).1.
Proof.
  cbn zeta. assert (shaped 2 (la_cov [[1; 0]; [0; 1]])) as Hs by (repeat constructor).
  assert (symmetric 2 (la_cov [[1; 0]; [0; 1]])) as Hy by (intros [|[|i]] [|[|j]] Hi Hj; try reflexivity; lia).
  split; [exact Hs|]. split; [exact Hy|]. apply (shrinkage_gives_correlations [[1; 0]; [0; 1]] 2 Hs Hy).
  apply elem_of_cons. right. by apply list_elem_of_singleton.
Defined.
