(* ===== verification/ExecutionAnalytics.v ===== *)
(** backend/services/execution_analytics.py and latency_model.py: what a replay
    cost. Dicts with ["error"] or with nothing but zero orders are [None]; a
    number's text in a key is a parameter. *)

From Stdlib Require Import Ascii QArith Qabs Lqa.
From stdpp Require Import strings gmap sets pretty.
From S2P Require Import Prelude Numeric IntText Microstructure OrderBook MatchingEngine PaperExchange Vectors.
#[local] Open Scope nat_scope.

Section analytics.
Context {F : Type} `{Num F}.

(** The text of a horizon in a key: of the number of milliseconds, an integral
    one of the report as an [int]. *)
Variable number_text : F → string.

Definition how_many {A} (l : list A) : F := nof_Z (Z.of_nat (length l)).
Definition mean_of (l : list F) : F := nsum l ⊘ how_many l.
Definition ratio (a b : nat) : F := nof_Z (Z.of_nat a) ⊘ nof_Z (Z.of_nat b).

(** ** Adverse selection *)

Record FillRow := mkFillRow { fr_order_id : string; fr_fill_price : F; fr_side : TradeSide }.
Record AdverseRow := mkAdverseRow { ar_order_id : string; ar_fill_price : F; ar_side : TradeSide; ar_horizons : gmap string F }.

Definition adverse_move (side : TradeSide) (fill_price mid_after : F) : F :=
  match side with BUY => mid_after ⊖ fill_price | SELL => fill_price ⊖ mid_after end.

(** One fill against the mids after it, by the text of their horizon. *)
Definition adverse_row (fill : FillRow) (horizons : list (F * F)) : AdverseRow :=
  mkAdverseRow (fr_order_id fill) (fr_fill_price fill) (fr_side fill)
    (foldl (λ row hm, <[number_text hm.1 +:+ "ms" := nround (adverse_move (fr_side fill) (fr_fill_price fill) hm.2) 6]> row)
       ∅ horizons).

Definition compute_adverse_selection (fills : list FillRow) (mid_prices_after : gmap string (list (F * F))) : list AdverseRow :=
  (λ fill, adverse_row fill (default [] (mid_prices_after !! fr_order_id fill))) <$> fills.

Record AdverseSummary := mkAdverseSummary { as_mean : F; as_adverse_fraction : F; as_count : nat }.

Definition horizon_values (rows : list AdverseRow) (h : string) : list F := omap (λ r, ar_horizons r !! h) rows.
Definition all_horizons (rows : list AdverseRow) : gset string := ⋃ ((λ r, dom (ar_horizons r)) <$> rows).

Definition adverse_summary (vals : list F) : AdverseSummary :=
  mkAdverseSummary (nround (mean_of vals) 6)
    (nround (ratio (length (filter (λ v, (v <.? n0) = true) vals)) (length vals)) 4) (length vals).

Definition compute_adverse_selection_summary (rows : list AdverseRow) : gmap string AdverseSummary :=
  set_to_map (λ h, (h, adverse_summary (horizon_values rows h))) (all_horizons rows).

(** ** Implementation shortfall *)

Record Shortfall := mkShortfall {
  is_decision_price : F; is_arrival_price : F; is_execution_vwap : F; is_side : TradeSide; is_quantity : F;
  is_delay_cost : F; is_spread_cost : F; is_market_impact : F; is_fees : F; is_total : F; is_total_bps : F
}.

Definition side_sign (side : TradeSide) : F := match side with BUY => n1 | SELL => nopp n1 end.
Definition delay_of (decision arrival : F) (side : TradeSide) (quantity : F) : F := side_sign side ⊗ (arrival ⊖ decision) ⊗ quantity.
Definition impact_of (arrival vwap : F) (side : TradeSide) (quantity : F) : F := side_sign side ⊗ (vwap ⊖ arrival) ⊗ quantity.

Definition compute_implementation_shortfall (decision_price arrival_price execution_vwap : F) (side : TradeSide)
    (quantity spread fees : F) : Shortfall :=
  let delay_cost := delay_of decision_price arrival_price side quantity in
  let spread_cost := spread ⊗ quantity in
  let market_impact := impact_of arrival_price execution_vwap side quantity in
  let total_is := delay_cost ⊕ spread_cost ⊕ market_impact ⊕ fees in
  let notional := decision_price ⊗ quantity in
  let total_is_bps := if notional >.? n0 then total_is ⊘ notional ⊗ nof_Z 10000 else n0 in
  mkShortfall (nround decision_price 6) (nround arrival_price 6) (nround execution_vwap 6) side quantity (nround delay_cost 4)
    (nround spread_cost 4) (nround market_impact 4) (nround fees 4) (nround total_is 4) (nround total_is_bps 2).

(** ** Orders by outcome *)

Implicit Types o : Order F.

Definition has_status (s : OrderStatus) o : bool := bool_decide (o_status o = s).

Definition filled_quantity o : F := if has_status FILLED o && (o_filled o <=.? n0) then o_quantity o else o_filled o.
Definition is_partial o : bool :=
  has_status PARTIALLY_FILLED o || (negb (has_status FILLED o) && (filled_quantity o >.? n0)).
Definition queue_time o : option F :=
  entered ← o_entered_book_at o;
  filled ← o_filled_at o;
  let t := filled ⊖ entered in
  if t >=.? n0 then Some t else None.

Definition those (P : Order F → bool) (orders : list (Order F)) : list (Order F) := filter (λ o, P o = true) orders.

Record QueueAnalytics := mkQueueAnalytics {
  qa_total_orders : nat; qa_filled : nat; qa_fully_filled : nat; qa_partially_filled : nat; qa_resting : nat;
  qa_fill_rate : F; qa_full_fill_rate : F; qa_partial_fill_rate : F; qa_fill_ratio : F; qa_avg_queue_ahead_at_entry : F;
  qa_avg_queue_ahead_peak : F; qa_avg_fill_time_seconds : option F
}.

Definition compute_queue_analytics (orders : list (Order F)) : option QueueAnalytics :=
  let filled := those (λ o, has_status FILLED o || is_partial o) orders in
  let resting := those (λ o, has_status QUEUED o && (filled_quantity o <=.? n0)) orders in
  let all_active := filled ++ resting in
  if bool_decide (all_active = []) then None
  else
    let full := those (has_status FILLED) filled in
    let partial := those is_partial filled in
    let fill_times := omap queue_time filled in
    let submitted := nsum (o_quantity <$> all_active) in
    let executed := nsum (filled_quantity <$> all_active) in
    let n := length all_active in
    Some (mkQueueAnalytics n (length filled) (length full) (length partial) (length resting)
      (nround (ratio (length filled) n) 4) (nround (ratio (length full) n) 4)
      (if bool_decide (filled = []) then n0 else nround (ratio (length partial) (length filled)) 4)
      (if nbool submitted then nround (executed ⊘ submitted) 4 else n0)
      (nround (mean_of (o_ahead_at_entry <$> all_active)) 2) (nround (mean_of (o_ahead_peak <$> all_active)) 2)
      (if bool_decide (fill_times = []) then None else Some (nround (mean_of fill_times) 4))).

Record ExecutionMetrics := mkExecutionMetrics {
  em_total_orders : nat; em_filled : nat; em_partially_filled : nat; em_cancelled : nat; em_expired : nat; em_rejected : nat;
  em_any_fill_rate : F; em_full_fill_rate : F; em_partial_fill_rate : F; em_fill_ratio : F; em_cancel_rate : F;
  em_expiry_rate : F; em_reject_rate : F; em_avg_price_improvement : F; em_avg_queue_time_seconds : option F;
  em_total_notional : F; em_total_fills : nat
}.

Definition unfilled o : bool := filled_quantity o <=.? n0.

(** [o.limit_price - o.avg_fill_price] for a buy, of an order with both. *)
Definition price_improvement o : option F :=
  limit ← o_limit_price o;
  if nbool limit && nbool (o_avg_price o) then
    Some (match o_side o with BUY => limit ⊖ o_avg_price o | SELL => o_avg_price o ⊖ limit end)
  else None.

Definition compute_execution_metrics (orders : list (Order F)) (fills : list (Fill F)) : option ExecutionMetrics :=
  let total := length orders in
  if total =? 0 then None
  else
    let full := those (has_status FILLED) orders in
    let partial := those is_partial orders in
    let ended s := those (has_status s) (those unfilled orders) in
    let submitted_qty := nsum (o_quantity <$> those (λ o, negb (has_status REJECTED o)) orders) in
    let executed_qty := nsum (filled_quantity <$> orders) in
    let price_improvements := omap price_improvement full in
    let queue_times := omap queue_time (those (λ o, filled_quantity o >.? n0) orders) in
    Some (mkExecutionMetrics total (length full) (length partial) (length (ended CANCELLED)) (length (ended EXPIRED))
      (length (ended REJECTED)) (nround (ratio (length full + length partial) total) 4) (nround (ratio (length full) total) 4)
      (nround (ratio (length partial) total) 4) (if nbool submitted_qty then nround (executed_qty ⊘ submitted_qty) 4 else n0)
      (nround (ratio (length (ended CANCELLED)) total) 4) (nround (ratio (length (ended EXPIRED)) total) 4)
      (nround (ratio (length (ended REJECTED)) total) 4)
      (if bool_decide (price_improvements = []) then n0 else nround (mean_of price_improvements) 6)
      (if bool_decide (queue_times = []) then None else Some (nround (mean_of queue_times) 4))
      (nround (nsum ((λ f, f_price f ⊗ f_quantity f) <$> fills)) 2) (length fills)).

(** ** The report of a replay *)

Definition order_mid (mids : gmap string (option F)) o : option F := mids !! o_id o ≫= id.

(** An order that traded and whose mids are known, with its notional. *)
Definition shortfall_row (x : PaperExchange F) o : option (string * Shortfall * F) :=
  let qty := o_filled o in
  if qty <=.? n0 then None
  else
    decision ← order_mid (px_decision_mid x) o;
    arrival ← order_mid (px_arrival_mid x) o;
    Some (o_id o, compute_implementation_shortfall decision arrival (o_avg_price o) (o_side o) qty n0 n0, decision ⊗ qty).

(** The mids seen [h] seconds after a fill, for the horizons within the
    replayed data; the label is in milliseconds. *)
Definition horizon_mids (x : PaperExchange F) (horizons : list F) (f : Fill F) : list (F * F) :=
  omap (λ h,
    last_seen ← fst <$> last (px_mid_history x);
    if f_timestamp f ⊕ h <=.? last_seen then (λ mid, (h ⊗ nof_Z 1000, mid)) <$> mid_at x (f_timestamp f ⊕ h) else None)
  horizons.

Definition fill_rows (x : PaperExchange F) (horizons : list F) : list (FillRow * list (F * F)) :=
  imap (λ i f, (mkFillRow (f_order_id f +:+ "#" +:+ pretty i) (f_price f) (default BUY (f_side f)), horizon_mids x horizons f))
    (px_fill_history x).

Record ExecutionReport := mkExecutionReport {
  er_execution_metrics : option ExecutionMetrics; er_queue_analytics : option QueueAnalytics;
  er_shortfall_orders : list (string * Shortfall); er_total_is : F; er_total_is_bps : F;
  er_adverse_selection : gmap string AdverseSummary
}.

Definition build_execution_report (x : PaperExchange F) (horizons : list F) : ExecutionReport :=
  let orders := px_order x <$> px_order_history x in
  let rows := omap (shortfall_row x) orders in
  let total_is := foldl (λ acc r, acc ⊕ is_total r.1.2) n0 rows in
  let notional := foldl (λ acc r, acc ⊕ r.2) n0 rows in
  let fills := fill_rows x horizons in
  let mids_after := list_to_map ((λ fm, (fr_order_id fm.1, fm.2)) <$> fills) in
  let per_fill := compute_adverse_selection (fst <$> fills) mids_after in
  mkExecutionReport (compute_execution_metrics orders (px_fill_history x))
    (compute_queue_analytics (filter (λ o, is_Some (o_entered_book_at o)) orders))
    (fst <$> rows) (nround total_is 4)
    (if nbool notional then nround (total_is ⊘ notional ⊗ nof_Z 10000) 2 else n0)
    (compute_adverse_selection_summary per_fill).

(** ** Capacity and latency *)

(** A strategy's result; a missing key reads as zero. *)
Record Outcome := mkOutcome {
  oc_sharpe : option F; oc_total_return : option F; oc_max_drawdown : option F; oc_avg_slippage_bps : option F;
  oc_fill_rate : option F
}.
Definition or_zero (x : option F) : F := default n0 x.

(** The loss of Sharpe ratio, in percent of the baseline's size. *)
Definition degradation (baseline sharpe : F) : F :=
  if negb (baseline =.? n0) then (baseline ⊖ sharpe) ⊘ nabs baseline ⊗ nof_Z 100 else n0.

Record CapacityRow := mkCapacityRow {
  ca_capital : F; ca_sharpe : F; ca_total_return : F; ca_max_drawdown : F; ca_avg_slippage_bps : F; ca_fill_rate : F;
  ca_sharpe_degradation_pct : F
}.
Record Capacity := mkCapacity {
  cp_baseline_capital : F; cp_baseline_sharpe : F; cp_capacity_estimate : option F; cp_profiles : list CapacityRow
}.

Definition compute_capacity_analysis (results : list (F * Outcome)) : option Capacity :=
  match sort_key fst results with
  | [] => None
  | ((cap0, first) :: _) as by_capital =>
      let baseline_sharpe := or_zero (oc_sharpe first) in
      let rows := (λ cr : F * Outcome,
          let '(cap, r) := cr in
          mkCapacityRow cap (nround (or_zero (oc_sharpe r)) 4) (nround (or_zero (oc_total_return r)) 4)
            (nround (or_zero (oc_max_drawdown r)) 4) (nround (or_zero (oc_avg_slippage_bps r)) 2)
            (nround (or_zero (oc_fill_rate r)) 4) (nround (degradation baseline_sharpe (or_zero (oc_sharpe r))) 2))
        <$> by_capital in
      let capacity_estimate := ca_capital <$> find (λ row, ca_sharpe_degradation_pct row >.? nof_Z 50) rows in
      Some (mkCapacity cap0 (nround baseline_sharpe 4) capacity_estimate rows)
  end.

Record LatencyModel := mkLatency { lm_signal_ms : F; lm_network_ms : F; lm_processing_ms : F; lm_exchange_ms : F }.

Definition total_latency_ms (m : LatencyModel) : F := lm_signal_ms m ⊕ lm_network_ms m ⊕ lm_processing_ms m ⊕ lm_exchange_ms m.
Definition total_latency_seconds (m : LatencyModel) : F := total_latency_ms m ⊘ nof_Z 1000.
Definition apply_to_timestamp (m : LatencyModel) (event_timestamp : F) : F := event_timestamp ⊕ total_latency_seconds m.

Definition hundredths (a b c d : Z) : LatencyModel :=
  mkLatency (nof_ratio a 100) (nof_ratio b 100) (nof_ratio c 100) (nof_ratio d 100).

Definition LATENCY_PRESETS : list (string * LatencyModel) :=
  [("zero", hundredths 0 0 0 0); ("colocated", hundredths 5 1 2 2); ("datacenter", hundredths 10 20 10 10);
   ("regional", hundredths 20 100 30 50); ("cloud", hundredths 50 300 50 100); ("cross_region", hundredths 50 800 50 100);
   ("retail", hundredths 100 3000 500 1400)].

Definition assoc {A} (k : string) (l : list (string * A)) : option A := snd <$> find (λ e, (e.1 =? k)%string) l.

Definition get_preset (name : string) : outcome string LatencyModel :=
  match assoc name LATENCY_PRESETS with
  | Some m => Ret m
  | None =>
      Raise ("Unknown latency preset '" +:+ name +:+ "'. Available: " +:+ String.concat ", " (fst <$> LATENCY_PRESETS))
  end.

Record LatencyRow := mkLatencyRow {
  lr_preset : string; lr_latency_ms : F; lr_sharpe : F; lr_total_return : F; lr_max_drawdown : F; lr_fill_rate : F;
  lr_sharpe_degradation_pct : F
}.
Record Sensitivity := mkSensitivity { se_baseline_preset : string; se_baseline_sharpe : F; se_profiles : list LatencyRow }.

Definition latency_sensitivity_analysis (results : list (string * Outcome)) : option Sensitivity :=
  match results with
  | [] => None
  | (first_name, first) :: _ =>
      let baseline := default first (assoc "zero" results) in
      let baseline_sharpe := or_zero (oc_sharpe baseline) in
      let row (nr : string * Outcome) :=
        let '(name, r) := nr in
        mkLatencyRow name (total_latency_ms (default (hundredths 0 0 0 0) (assoc name LATENCY_PRESETS)))
          (nround (or_zero (oc_sharpe r)) 4) (nround (or_zero (oc_total_return r)) 4) (nround (or_zero (oc_max_drawdown r)) 4)
          (nround (or_zero (oc_fill_rate r)) 4) (nround (degradation baseline_sharpe (or_zero (oc_sharpe r))) 2) in
      Some (mkSensitivity first_name baseline_sharpe (row <$> results))
  end.
End analytics.

(** * Theorems

    Execution analytics: orders are counted once, costs telescope, and no mid
    beyond the replayed data is used. *)

#[local] Open Scope nat_scope.

(** ** Keys of fills *)

(** What follows the last ["#"]. *)
Fixpoint after_hash (s : string) : option string :=
  match s with
  | EmptyString => None
  | String c s => match after_hash s with Some r => Some r | None => if bool_decide (c = "#"%char) then Some s else None end
  end.

Lemma after_hash_app a d : after_hash d = None → after_hash (a +:+ "#" +:+ d) = Some d.
Proof.
  intros Hd. induction a as [|c a IH]; [change (after_hash (String "#" d) = Some d); cbn [after_hash]; by rewrite Hd|]. rewrite string_app_cons. cbn [after_hash]. by rewrite IH.
Qed.

Lemma after_hash_plain s : all_chars plain_char s = true → after_hash s = None.
Proof.
  induction s as [|c s IH]; [done|]. cbn [all_chars after_hash]. intros [Hc Hs]%andb_prop. rewrite (IH Hs).
  case_bool_decide as E; [|done]. subst c. by vm_compute in Hc.
Qed.

Lemma after_hash_pretty (i : nat) : after_hash (pretty i) = None.
Proof. apply after_hash_plain. pose proof (plain_pretty (Z.of_nat i)) as Hp. by destruct i. Qed.

Lemma fill_key_inj (a b : string) (i j : nat) : a +:+ "#" +:+ pretty i = b +:+ "#" +:+ pretty j → i = j.
Proof.
  intros E. apply (f_equal after_hash) in E. rewrite !after_hash_app in E by apply after_hash_pretty.
  injection E as E. by apply (inj pretty) in E.
Qed.

Section facts.
Context {F : Type} `{Num F}.
Variable number_text : F → string.

Lemma fill_keys_unique (x : PaperExchange F) horizons :
  NoDup ((λ fm, fr_order_id fm.1) <$> fill_rows x horizons).
Proof.
  apply NoDup_alt. intros i j k Hi Hj. unfold fill_rows in *.
  rewrite !list_lookup_fmap, !list_lookup_imap in *.
  destruct (px_fill_history x !! i), (px_fill_history x !! j); try done. cbn in *.
  injection Hi as <-. injection Hj as E. symmetry in E. by eapply fill_key_inj.
Qed.

(** The row of a fill's report: what [horizon_mids] gave, by text. *)
Lemma adverse_row_lookup fill (mids : list (F * F)) k v :
  ar_horizons (adverse_row number_text fill mids) !! k = Some v →
  ∃ hm, hm ∈ mids ∧ k = number_text hm.1 +:+ "ms" ∧ v = nround (adverse_move (fr_side fill) (fr_fill_price fill) hm.2) 6.
Proof.
  unfold adverse_row. cbn [ar_horizons].
  assert (∀ m0 : gmap string F, foldl (λ row hm, <[number_text hm.1 +:+ "ms" := nround (adverse_move (fr_side fill) (fr_fill_price fill) hm.2) 6]> row) m0 mids !! k = Some v →
    m0 !! k = Some v ∨ ∃ hm, hm ∈ mids ∧ k = number_text hm.1 +:+ "ms" ∧ v = nround (adverse_move (fr_side fill) (fr_fill_price fill) hm.2) 6) as Hf.
  { induction mids as [|hm mids IH]; intros m0; [by left|]. cbn [foldl]. intros [Hl|(hm' & ? & ?)]%IH.
    - apply lookup_insert_Some in Hl as [[<- <-]|[_ Hl]]; [right; exists hm; split; [by left|done]|by left].
    - right. exists hm'. split; [by right|done]. }
  intros [Hl|Hex]%Hf; [by apply lookup_empty_Some in Hl|done].
Qed.

Lemma horizon_mids_seen (x : PaperExchange F) horizons f hm :
  hm ∈ horizon_mids x horizons f →
  ∃ h t last_seen, h ∈ horizons ∧ hm.1 = h ⊗ nof_Z 1000 ∧ (t, hm.2) ∈ px_mid_history x ∧
    fst <$> last (px_mid_history x) = Some last_seen ∧
    (t <=.? f_timestamp f ⊕ h) = true ∧ (f_timestamp f ⊕ h <=.? last_seen) = true.
Proof.
  unfold horizon_mids. intros (h & Hh & E)%list_elem_of_omap. destruct (last (px_mid_history x)) as [[last_seen m]|] eqn:El; [|done].
  cbn in E. destruct (f_timestamp f ⊕ h <=.? last_seen) eqn:Eh; [|done]. unfold mid_at in E.
  destruct (last (List.filter (λ e, e.1 <=.? f_timestamp f ⊕ h) (px_mid_history x))) as [[t mid]|] eqn:Em; [|done]. cbn in E.
  injection E as <-. apply last_Some_elem_of, list_elem_of_In, List.filter_In in Em as [Hin Ht]. cbn in Ht.
  exists h, t, last_seen. split_and!; try done. by apply list_elem_of_In.
Qed.

(** The rows of the report, fill by fill. *)
Definition report_rows (x : PaperExchange F) (horizons : list F) : list AdverseRow :=
  let fills := fill_rows x horizons in
  compute_adverse_selection number_text (fst <$> fills) (list_to_map ((λ fm, (fr_order_id fm.1, fm.2)) <$> fills)).

Lemma report_rows_own (x : PaperExchange F) horizons :
  report_rows x horizons = (λ fm, adverse_row number_text fm.1 fm.2) <$> fill_rows x horizons.
Proof.
  unfold report_rows, compute_adverse_selection. rewrite <- list_fmap_compose. apply list_fmap_ext. intros i fm Hfm. cbn. f_equal.
  erewrite elem_of_list_to_map_1; [done| |].
  - rewrite <- list_fmap_compose. exact (fill_keys_unique x horizons).
  - apply list_elem_of_fmap. exists fm. split; [done|]. by eapply list_elem_of_lookup_2.
Qed.

(** Every horizon whose mid is known has an entry. *)
Lemma adverse_row_complete fill (mids : list (F * F)) hm :
  hm ∈ mids → is_Some (ar_horizons (adverse_row number_text fill mids) !! (number_text hm.1 +:+ "ms")).
Proof.
  unfold adverse_row. cbn [ar_horizons]. set (k := number_text hm.1 +:+ "ms").
  assert (∀ m0 : gmap string F, hm ∈ mids ∨ is_Some (m0 !! k) →
    is_Some (foldl (λ row hm, <[number_text hm.1 +:+ "ms" := nround (adverse_move (fr_side fill) (fr_fill_price fill) hm.2) 6]> row) m0 mids !! k)) as Hf;
    [|intros Hin; apply Hf; by left].
  induction mids as [|hm' mids IH]; intros m0 Hin; cbn [foldl]; [by destruct Hin as [?%not_elem_of_nil|]|].
  apply IH. destruct (decide (number_text hm'.1 +:+ "ms" = k)) as [->|Hne]; [right; by rewrite lookup_insert_eq|].
  rewrite lookup_insert_ne by done. destruct Hin as [[->|]%elem_of_cons|]; [by destruct Hne|by left|by right].
Qed.

Lemma horizon_mids_reached (x : PaperExchange F) horizons f h last_seen mid :
  h ∈ horizons → fst <$> last (px_mid_history x) = Some last_seen →
  (f_timestamp f ⊕ h <=.? last_seen) = true → mid_at x (f_timestamp f ⊕ h) = Some mid →
  (h ⊗ nof_Z 1000, mid) ∈ horizon_mids x horizons f.
Proof.
  intros Hh Hl Hr Hm. unfold horizon_mids. apply list_elem_of_omap. exists h. split; [done|]. rewrite Hl. cbn. by rewrite Hr, Hm.
Qed.


(** ** Outcomes *)

Definition still_open (o : Order F) : bool :=
  unfilled o && negb (has_status FILLED o) && negb (has_status PARTIALLY_FILLED o) && negb (has_status CANCELLED o)
  && negb (has_status EXPIRED o) && negb (has_status REJECTED o).

Lemma length_those_split (P : Order F → bool) o orders :
  length (those P (o :: orders)) = (if P o then 1 else 0) + length (those P orders).
Proof. unfold those. rewrite filter_cons. destruct (P o) eqn:E; destruct (decide _); by rewrite ?E in *. Qed.

Lemma those_those (P R : Order F → bool) orders : those P (those R orders) = those (λ o, R o && P o) orders.
Proof.
  unfold those. induction orders as [|o orders IH]; [done|]. rewrite !filter_cons.
  destruct (R o) eqn:ER; destruct (decide _) as [|]; try done; cbn [andb].
  rewrite filter_cons, IH. done.
Qed.

(** Every order is counted under exactly one outcome: filled, partly
    filled, cancelled, expired, rejected, or still open, the numbers of the
    metrics and the number of open orders add up to the number of orders; and
    there are metrics unless there is no order. [nlt] must be the negation of
    [nle] on the executed quantities, which excludes NaN. *)
Theorem outcomes_partition_orders (orders : list (Order F)) fills :
  (∀ o, o ∈ orders → (filled_quantity o >.? n0) = negb (filled_quantity o <=.? n0)) →
  match compute_execution_metrics orders fills with
  | Some m =>
      em_total_orders m = length orders ∧
      em_filled m + em_partially_filled m + em_cancelled m + em_expired m + em_rejected m + length (those still_open orders)
      = length orders
  | None => orders = []
  end.
Proof.
  intros Hord. unfold compute_execution_metrics. destruct (length orders =? 0) eqn:E; [by apply Nat.eqb_eq, length_zero_iff_nil in E|].
  split; [done|]. cbn [em_filled em_partially_filled em_cancelled em_expired em_rejected]. rewrite !those_those. clear E.
  induction orders as [|o orders IH]; [done|]. rewrite !length_those_split. cbn [length].
  specialize (IH ltac:(intros; apply Hord; by right)). pose proof (Hord o ltac:(by left)) as Ho.
  unfold is_partial, still_open, unfilled, has_status in *. rewrite Ho.
  destruct (filled_quantity o <=.? n0); destruct (o_status o) eqn:Es; eval_bools; cbn [andb orb negb] in *; lia.
Qed.
End facts.

(** ** Costs *)

#[local] Open Scope Q_scope.

(** Implementation shortfall telescopes: before rounding, the delay cost,
    the spread cost, the market impact and the fees add up to the total, and
    the total is the price paid against the decision price, whatever the
    arrival price was in between; in basis points it is that total over the
    decision's notional. *)
Theorem shortfall_telescopes (decision arrival vwap quantity spread fees : Q) side :
  let s := compute_implementation_shortfall decision arrival vwap side quantity spread fees in
  ∃ total delay impact bps : Q,
    is_total s = nround total 4 ∧ is_delay_cost s = nround delay 4 ∧ is_market_impact s = nround impact 4 ∧
    is_spread_cost s = nround (spread * quantity) 4 ∧ is_total_bps s = nround bps 2 ∧
    delay + spread * quantity + impact + fees == total ∧
    total == side_sign side * (vwap - decision) * quantity + spread * quantity + fees ∧
    (0 < decision * quantity → bps * (decision * quantity) == total * 10000).
Proof.
  cbn zeta. unfold compute_implementation_shortfall. cbn [is_total is_delay_cost is_market_impact is_spread_cost is_total_bps].
  eexists _, _, _, _. do 5 (split; [reflexivity|]). unfold delay_of, impact_of.
  cbn [nadd nsub nmul ndiv Num_Q]. split; [reflexivity|]. split; [ring|]. intros Hn.
  destruct (n0 <.? decision * quantity) eqn:E; qsimpl; change (n0 (F:=Q)) with 0 in E; [|lra].
  change (nof_Z (F:=Q) 10000) with 10000. set (notional := decision * quantity) in *. clearbody notional. field. lra.
Qed.

(** Two results, the second of them of the zero-latency preset: the baseline's
    Sharpe ratio is the second's, its reported name the first's. *)
Example baseline_named_after_another_preset :
  let result s := mkOutcome (Some s) None None None None in
  match latency_sensitivity_analysis [("cloud", result 1); ("zero", result 2)] with
  | Some s => se_baseline_preset s = "cloud" ∧ se_baseline_sharpe s = 2
  | None => False
  end.
Proof. by vm_compute. Qed.

(** A buy at 10, with mids at 9 and 11 one and two seconds later. *)
Definition sample_exchange : option (PaperExchange Q) :=
  (λ x, x <| px_fill_history := [mkFill "P1" 10 1 0 false true (Some BUY)] |>
          <| px_mid_history := [(0, 10); (1, 9); (2, 11)] |>) <$> new_exchange "X" 0 1000 (1 # 100).
Definition sample_text (h : Q) : string := pretty (Qnum (Qred h)).


Lemma outcomes_partition_orders_witness :
  let orders := [new_order (F:=Q) "a" "X" BUY LIMIT 1 None None GTC 0 None PAPER] in
  (∀ o, o ∈ orders → (filled_quantity o >.? n0) = negb (filled_quantity o <=.? n0)) ∧
  match compute_execution_metrics orders [] with
  | Some m => em_total_orders m = 1%nat
  | None => False
  end.
Proof.
  cbn zeta. split; [intros o _; reflexivity|].
  pose proof (outcomes_partition_orders [new_order (F:=Q) "a" "X" BUY LIMIT 1 None None GTC 0 None PAPER] []
    (λ o _, eq_refl)) as Hm.
  destruct (compute_execution_metrics _ _) as [m|]; [exact (proj1 Hm)|discriminate Hm].
Defined.
