(* ===== verification/SignalEngine.v ===== *)
(** backend/services/signal_engine.py: the basket's signals by simulated
    bifurcation, the signal of a single asset, and their caches. Market data
    comes from the provider: what a download answers is an argument. Elapsed
    milliseconds are left out of the responses. *)

From Stdlib Require Import QArith Qabs Lqa.
From stdpp Require Import strings gmap.
From S2P Require Import Prelude Numeric Integration Schemas StrategySignals Vectors Matrices.
#[local] Open Scope nat_scope.

(** [s.endswith(suffix)] *)
Definition ends_with (suffix s : string) : bool :=
  let n := String.length s - String.length suffix in
  (String.length suffix <=? String.length s) && (String.substring n (String.length suffix) s =? suffix)%string.

Definition PRELOADED_ASSETS : list string :=
  ["AAPL"; "MSFT"; "NVDA"; "GOOGL"; "META"; "TSLA"; "AMZN"; "JPM"; "V"; "JNJ"; "XOM"; "SPY"; "QQQ"; "GLD"; "COIN"; "NFLX";
   "AMD"; "BKNG"; "LLY"; "TSM"].

(** Name and sector. *)
Definition ASSET_METADATA : list (string * (string * string)) :=
  [("AAPL", ("Apple Inc.", "Technology")); ("MSFT", ("Microsoft Corp.", "Technology"));
   ("NVDA", ("NVIDIA Corp.", "Semiconductors")); ("GOOGL", ("Alphabet Inc.", "Communication"));
   ("META", ("Meta Platforms", "Communication")); ("TSLA", ("Tesla Inc.", "Electric Vehicles"));
   ("AMZN", ("Amazon.com Inc.", "Consumer Tech")); ("JPM", ("JPMorgan Chase", "Financials"));
   ("V", ("Visa Inc.", "Financials")); ("JNJ", ("Johnson & Johnson", "Healthcare"));
   ("XOM", ("ExxonMobil Corp.", "Energy")); ("SPY", ("SPDR S&P 500 ETF", "ETF - Broad Market"));
   ("QQQ", ("Invesco QQQ ETF", "ETF - Tech")); ("GLD", ("SPDR Gold Shares", "Commodity - Gold"));
   ("COIN", ("Coinbase Global", "Crypto-Equity")); ("NFLX", ("Netflix Inc.", "Entertainment"));
   ("AMD", ("Advanced Micro Devices", "Semiconductors")); ("BKNG", ("Booking Holdings", "Travel"));
   ("LLY", ("Eli Lilly & Co.", "Pharma")); ("TSM", ("Taiwan Semiconductor", "Semiconductors"))].

Definition metadata (ticker : string) : option (string * string) := snd <$> find (λ e, (e.1 =? ticker)%string) ASSET_METADATA.
Definition company_of (ticker : string) : string := from_option fst ticker (metadata ticker).
Definition sector_of (ticker : string) : string := from_option snd "" (metadata ticker).

Definition infer_exchange (ticker : string) : string :=
  let t := str_upper ticker in
  if ends_with ".NS" t || ends_with ".BO" t then "NSE"
  else if ends_with ".L" t then "LSE"
  else if ends_with ".T" t then "TSE"
  else if ends_with ".HK" t then "HKEX"
  else if ends_with ".AX" t then "ASX"
  else if ends_with ".TO" t then "TSX"
  else if ends_with ".DE" t || ends_with ".F" t || ends_with ".MU" t then "XETRA"
  else if ends_with "-USD" t || ends_with "-BTC" t || ends_with "-ETH" t then "CRYPTO"
  else "US".

Section engine.
Context {F : Type} `{Num F} `{NumPy F} `{LinAlg F}.
Variable np_tanh : F → F.
(** [f"{x:.0f}"], [f"{x:+.1f}"] and [f"{x:+.2f}"]. *)
Variables fixed0 signed1 signed2 : F → string.

Definition N_STEPS : nat := 200.
Definition DT : F := nof_ratio 5 100.
Definition COUPLING : F := nof_ratio 1 2.
Definition ten_billionth : F := nof_ratio 1 10000000000.
Definition whole (n : nat) : F := nof_Z (Z.of_nat n).

(** ** Features *)

(** Gains and losses of the days. *)
Definition gain (d : F) : F := if d >.? n0 then d else n0.
Definition loss (d : F) : F := if d <.? n0 then nopp d else n0.
Definition deltas (close : list F) : list F := zip_with (λ a b, b ⊖ a) close (tail close).

Definition wilder_step (period : nat) (avg x : F) : F := (avg ⊗ whole (period - 1) ⊕ x) ⊘ whole period.
Definition wilder (period : nat) (xs : list F) : F := foldl (wilder_step period) (np_mean (take period xs)) (drop period xs).

Definition rsi_wilder (close : list F) (period : nat) : F :=
  if length close <? period * 3 then nof_Z 50
  else
    let avg_gain := wilder period (gain <$> deltas close) in
    let avg_loss := wilder period (loss <$> deltas close) in
    if avg_loss <.? ten_billionth then nof_Z 100
    else nof_Z 100 ⊖ nof_Z 100 ⊘ (n1 ⊕ avg_gain ⊘ avg_loss).

Definition ema_alpha (span : nat) : F := nof_Z 2 ⊘ whole (span + 1).
Fixpoint ema_from (alpha prev : F) (values : list F) : list F :=
  match values with
  | [] => []
  | v :: values => let e := alpha ⊗ v ⊕ (n1 ⊖ alpha) ⊗ prev in e :: ema_from alpha e values
  end.
Definition ema (values : list F) (span : nat) : list F :=
  match values with [] => [] | v :: values => v :: ema_from (ema_alpha span) v values end.

Definition macd_histogram (close : list F) : F :=
  if length close <? 35 then n0
  else
    let macd_line := vsub (ema close 12) (ema close 26) in
    default n0 (last (vsub macd_line (ema macd_line 9))).

Definition bollinger_width (close : list F) (window : nat) : F :=
  if length close <? window then n0
  else
    let w := drop (length close - window) close in
    let mid := np_mean w in
    if mid <.? ten_billionth then n0 else nof_Z 4 ⊗ np_std 0 w ⊘ mid.

Record Features := mkFeatures { ft_rsi : F; ft_macd_histogram : F; ft_momentum : F; ft_bb_width : F }.

Definition extract_features (close : list F) : Features :=
  mkFeatures (rsi_wilder close 14) (macd_histogram close) (engine_momentum close 20) (bollinger_width close 20).

(** ** Simulated bifurcation *)

(** The rows are the assets' returns. *)
Definition build_coupling_matrix (rows : matrix F) : matrix F :=
  let n := length rows in
  if n <? 2 then square n (λ _ _, n0)
  else
    let J := la_corrcoef (transpose (length (default [] (head rows))) rows) in
    square n (λ i j,
      let x := if i =? j then n0 else entry J i j in
      (if nfinite x then x else n0) ⊘ whole n).

Definition cube (x : F) : F := m_pow x (nof_Z 3).

(** One step of the dynamics, at pressure [a]: positions and velocities. *)
Definition sba_step (J : matrix F) (h : list F) (coupling dt a : F) (s : list F * list F) : list F * list F :=
  let '(x, y) := s in
  let dy := zip_with nadd (zip_with nadd (zip_with (λ x c, (a ⊖ n1) ⊗ x ⊖ c) x (cube <$> x)) (vscale coupling (matvec J x))) h in
  let y := zip_with (λ y d, y ⊕ d ⊗ dt) y dy in
  (zip_with (λ x y, clip (nopp n1) n1 (x ⊕ y ⊗ dt)) x y, y).

Definition run_sba (J : matrix F) (h : list F) (n_steps : nat) (dt coupling : F) : list F :=
  let five_percent := nof_ratio 5 100 in
  let x := (λ f, clip (nopp five_percent) five_percent (f ⊗ five_percent)) <$> h in
  (foldl (λ s step, sba_step J h coupling dt (whole step ⊘ whole n_steps) s) (x, replicate (length h) n0) (seq 0 n_steps)).1.

Inductive SignalType := BUY_SIGNAL | SELL_SIGNAL | HOLD_SIGNAL.

Definition score_signal (spin rsi : F) : SignalType * F :=
  let penalised := ((spin >.? n0) && (rsi >.? nof_Z 70)) || ((spin <.? n0) && (rsi <.? nof_Z 30)) in
  let rsi_penalty := if penalised then nof_ratio 25 100 else n0 in
  let confidence := nmax n0 (nmin n1 (nabs spin ⊖ rsi_penalty)) in
  (if spin >.? nof_ratio 15 100 then BUY_SIGNAL else if spin <.? nof_ratio (-15) 100 then SELL_SIGNAL else HOLD_SIGNAL, confidence).

(** ** Explanations *)

Definition rsi_text (rsi : F) : string :=
  let at_ := "RSI at " +:+ fixed0 rsi in
  if rsi <.? nof_Z 35 then at_ +:+ " signals deep oversold territory"
  else if rsi <.? nof_Z 45 then at_ +:+ " shows bearish pressure easing"
  else if rsi >.? nof_Z 70 then at_ +:+ " - overbought, watch for pullback"
  else if rsi >.? nof_Z 60 then at_ +:+ " indicates bullish momentum"
  else at_ +:+ " is neutral".
Definition macd_text (macd : F) : string :=
  if macd >.? nof_ratio 2 1000 then "MACD histogram turning positive (bullish crossover)"
  else if macd >.? n0 then "MACD slightly positive"
  else if macd <.? nof_ratio (-2) 1000 then "MACD histogram negative (bearish crossover)"
  else "MACD near zero".
Definition momentum_text (mom : F) : string :=
  let pct := " (" +:+ signed1 (nround (mom ⊗ nof_Z 100) 1) +:+ "%)" in
  if mom >.? nof_ratio 5 100 then "20-day momentum strongly positive" +:+ pct
  else if mom >.? n0 then "20-day momentum slightly positive" +:+ pct
  else if mom <.? nof_ratio (-5) 100 then "20-day momentum sharply negative" +:+ pct
  else "momentum slightly negative" +:+ pct.
Definition volatility_text (bb_w : F) : list string :=
  if bb_w >.? nof_ratio 8 100 then ["Bollinger bands wide - elevated volatility, position size carefully"]
  else if bb_w <.? nof_ratio 2 100 then ["Bollinger bands narrow - potential breakout approaching"]
  else [].
Definition spin_text (spin : F) : list string :=
  if nabs spin >.? nof_ratio 7 10 then ["momentum score " +:+ signed2 spin +:+ " is strong"]
  else if nabs spin <.? nof_ratio 2 10 then ["momentum score near zero is mixed"]
  else [].

Definition generate_insight (f : Features) (spin : F) : string :=
  String.concat ". "
    (take 4 ([rsi_text (ft_rsi f); macd_text (ft_macd_histogram f); momentum_text (ft_momentum f)]
             ++ volatility_text (ft_bb_width f) ++ spin_text spin)) +:+ ".".

(** ** The basket *)

Record Signal := mkSignal {
  sg_asset : string; sg_signal_type : SignalType; sg_confidence : F; sg_spin : F; sg_last_price : F;
  sg_change_pct : option F; sg_features : Features; sg_exchange : string; sg_insight : string; sg_company : string;
  sg_sector : string;
  (* the three-month range of a single asset's signal *)
  sg_range : option (F * F); sg_on_demand : bool
}.

Record Response := mkResponse {
  rp_signals : list Signal; rp_generated_at : F; rp_n_assets : nat; rp_error : option string
}.

(** What a download answers: it raises, it is empty, or it has the closing
    prices of the assets it has. *)
Inductive Download := DownloadFailed | DownloadEmpty | Downloaded (close_of : string → option (list F)).

Definition MIN_BARS : nat := 50.

Definition rounded_features (f : Features) : Features :=
  mkFeatures (nround (ft_rsi f) 4) (nround (ft_macd_histogram f) 4) (nround (ft_momentum f) 4) (nround (ft_bb_width f) 4).

(** [round(p, 6 if p < 1 else 2)] *)
Definition rounded_price (p : F) : F := nround p (if p <.? n1 then 6 else 2).

(** The returns of the last twenty days, zero where they are not a number. *)
Definition last_returns (close : list F) : list F :=
  let raw_close := drop (length close - 21) close in
  zip_with (λ p q,
      if p =.? n0 then n0 else let r := (q ⊖ p) ⊘ p in if nfinite r then r else n0)
    (removelast raw_close) (tail raw_close).

Definition last_two (close : list F) : F * F :=
  (at_bar close (length close - 1), if 1 <? length close then at_bar close (length close - 2) else n0).

(** The assets with enough history: their closing prices. *)
Definition valid_closes (close_of : string → option (list F)) (assets : list string) : list (string * list F) :=
  omap (λ a, close ← close_of a; if length close <? MIN_BARS then None else Some (a, close)) assets.

(** [h]: the z-scores of the momentum across the basket. *)
Definition local_fields (moms : list F) : list F :=
  let sigma := if 1 <? length moms then np_std 1 moms else nof_ratio 1 1000000000 in
  let mu := np_mean moms in
  (λ m, clip (nof_Z (-3)) (nof_Z 3) ((m ⊖ mu) ⊘ nmax sigma (nof_ratio 1 1000000000)) ⊗ nof_ratio 35 100) <$> moms.

Definition basket_signal (ac : string * list F) (spin : F) : Signal :=
  let '(asset, close) := ac in
  let f := extract_features close in
  let '(signal_type, confidence) := score_signal spin (ft_rsi f) in
  let '(price, prev) := last_two close in
  let change := if prev =.? n0 then None else Some (nround ((price ⊖ prev) ⊘ prev ⊗ nof_Z 100) 2) in
  mkSignal asset signal_type (nround confidence 4) (nround spin 4) (rounded_price price) change (rounded_features f)
    (infer_exchange asset) (generate_insight (rounded_features f) spin) (company_of asset) (sector_of asset) None false.

Definition basket_spins (valid : list (string * list F)) : list F :=
  let closes := snd <$> valid in
  run_sba (build_coupling_matrix (last_returns <$> closes))
    (local_fields ((λ c, ft_momentum (extract_features c)) <$> closes)) N_STEPS DT COUPLING.

(** [assets or PRELOADED_ASSETS] *)
Definition requested (assets : option (list string)) : list string :=
  match assets with Some ((_ :: _) as l) => l | _ => PRELOADED_ASSETS end.

Definition generate_signals (download : list string → Download) (now : F) (assets : option (list string)) : Response :=
  let assets := requested assets in
  match download assets with
  | DownloadFailed => mkResponse [] now 0 (Some "market data unavailable — using stale cache if present")
  | DownloadEmpty => mkResponse [] now 0 (Some "empty market data response")
  | Downloaded close_of =>
      match valid_closes close_of assets with
      | [] => mkResponse [] now 0 (Some "no assets had sufficient price history")
      | valid => mkResponse (zip_with basket_signal valid (basket_spins valid)) now (length valid) None
      end
  end.

(** ** The basket's cache *)

Definition CACHE_TTL_SECONDS : F := nof_Z 20.

Record Cache := mkCache { ca_signals : option Response; ca_generated_at : F; ca_generating : bool }.
#[global] Instance eta_Cache : Eta Cache := λ c, mkCache (ca_signals c) (ca_generated_at c) (ca_generating c).

Definition initial_cache : Cache := mkCache None n0 false.
Definition empty_response (now : F) (error : option string) : Response := mkResponse [] now 0 error.

(** The first critical section of [get_cached_signals]: an answer, or the turn
    to generate. *)
Definition cache_enter (now : F) (c : Cache) : Cache * option Response :=
  let has_data := match ca_signals c with Some r => negb (bool_decide (length (rp_signals r) = 0)) | None => false end in
  if has_data && (now ⊖ ca_generated_at c <.? CACHE_TTL_SECONDS) then (c, ca_signals c)
  else if ca_generating c then (c, Some (default (empty_response now None) (ca_signals c)))
  else (mkCache (ca_signals c) (ca_generated_at c) true, None).

(** The second: with what was generated, or after an exception. *)
Definition cache_finish (now : F) (fresh : option Response) (c : Cache) : Cache * Response :=
  match fresh with
  | Some fresh => (mkCache (Some fresh) now false, fresh)
  | None =>
      (mkCache (ca_signals c) (ca_generated_at c) false,
       default (empty_response now (Some "signal generation failed")) (ca_signals c))
  end.

Definition invalidate_cache (c : Cache) : Cache := mkCache (ca_signals c) n0 (ca_generating c).

(** ** A single asset *)

Definition ONDEMAND_TTL : F := nof_Z 15.

(** The on-demand cache, by ticker: the signal and when it was put there. *)
Abbreviation OnDemand := (gmap string (Signal * F)).

Definition single_signal (ticker : string) (close : list F) : Signal :=
  let f := extract_features close in
  let spin := np_tanh (ft_momentum f ⊗ nof_Z 5) in
  let '(signal_type, confidence) := score_signal spin (ft_rsi f) in
  let '(price, prev) := last_two close in
  let change := if negb (prev =.? n0) then nround ((price ⊖ prev) ⊘ prev ⊗ nof_Z 100) 2 else n0 in
  mkSignal ticker signal_type (nround confidence 4) (nround spin 4) (rounded_price price) (Some change) (rounded_features f)
    (infer_exchange ticker) (generate_insight f spin) (company_of ticker) (sector_of ticker)
    (Some (nround (vmax close) 2, nround (vmin close) 2)) true.

(** [ticker.strip().upper()] *)
Definition normal_ticker (ticker : string) : string := str_upper (strip_right (strip_left ticker)).

Definition compute_single_asset (download : list string → Download) (main : option Response) (now : F) (ticker : string)
    (cache : OnDemand) : OnDemand * option Signal :=
  let ticker := normal_ticker ticker in
  let miss :=
    match find (λ s, (sg_asset s =? ticker)%string) (from_option rp_signals [] main) with
    | Some s => (<[ticker := (s, now)]> cache, Some s)
    | None =>
        match download [ticker] with
        | Downloaded close_of =>
            match close_of ticker with
            | Some close =>
                if length close <? MIN_BARS then (cache, None)
                else let s := single_signal ticker close in (<[ticker := (s, now)]> cache, Some s)
            | None => (cache, None)
            end
        | _ => (cache, None)
        end
    end in
  match cache !! ticker with
  | Some (s, fetched_at) => if now ⊖ fetched_at <.? ONDEMAND_TTL then (cache, Some s) else miss
  | None => miss
  end.

(** ** Live prices *)

Definition PRICE_TTL : F := nof_Z 5.

(** The provider's [fast_info]; [None] when it raises. *)
Record FastInfo := mkFastInfo { fi_last_price : option F; fi_previous_close : option F; fi_currency : option string }.

Record LivePrice := mkLivePrice { lv_ticker : string; lv_price : F; lv_change_pct : option F; lv_currency : string; lv_fetched_at : F }.

(** [getattr(fi, "currency", "USD") or "USD"] *)
Definition currency_or_usd (c : option string) : string :=
  match c with Some c => if (c =? "")%string then "USD" else c | None => "USD" end.

Definition get_live_price (fast_info : string → option FastInfo) (now : F) (ticker : string) (cache : gmap string LivePrice)
    : gmap string LivePrice * option LivePrice :=
  let ticker := normal_ticker ticker in
  let miss :=
    match fast_info ticker with
    | Some fi =>
        match fi_last_price fi with
        | Some price =>
            let chg :=
              match fi_previous_close fi with
              | Some prev => if nbool prev then Some (nround ((price ⊖ prev) ⊘ prev ⊗ nof_Z 100) 2) else None
              | None => None
              end in
            let result := mkLivePrice ticker (rounded_price price) chg (currency_or_usd (fi_currency fi)) now in
            (<[ticker := result]> cache, Some result)
        | None => (cache, None)
        end
    | None => (cache, None)
    end in
  match cache !! ticker with
  | Some p => if now ⊖ lv_fetched_at p <.? PRICE_TTL then (cache, Some p) else miss
  | None => miss
  end.

(** ** Asset information *)

Definition ASSET_INFO_TTL : F := nof_Z 30.

(** The trading hours of an exchange: its time zone, opening and close in
    minutes. *)
Definition trading_hours (exchange : string) : option (string * nat * nat) :=
  snd <$> find (λ e, (e.1 =? exchange)%string)
    [("US", ("America/New_York", 570, 960)); ("NSE", ("Asia/Kolkata", 555, 930)); ("LSE", ("Europe/London", 480, 990));
     ("XETRA", ("Europe/Berlin", 540, 1050)); ("TSE", ("Asia/Tokyo", 540, 930)); ("HKEX", ("Asia/Hong_Kong", 570, 960));
     ("ASX", ("Australia/Sydney", 600, 960)); ("TSX", ("America/Toronto", 570, 960))].

(** [local_time tz]: the weekday (Monday is 0) and the minute of the day there;
    [None] when the zone cannot be loaded. *)
Definition market_is_open (local_time : string → option (nat * nat)) (exchange : string) : bool :=
  if (exchange =? "CRYPTO")%string then true
  else
    match trading_hours exchange with
    | None => false
    | Some (tz, open_t, close_t) =>
        match local_time tz with
        | None => false
        | Some (weekday, minute) => (weekday <? 5) && (open_t <=? minute) && (minute <? close_t)
        end
    end.

Definition ETF_SET : list string :=
  ["SPY"; "QQQ"; "IWM"; "DIA"; "VTI"; "VOO"; "GLD"; "SLV"; "USO"; "TLT"; "IEF"; "HYG"; "LQD"; "BND"; "AGG"; "TIPS"; "XLK"; "XLF";
   "XLV"; "XLE"; "XLI"; "XLY"; "XLP"; "XLB"; "XLRE"; "XLU"; "VEA"; "VWO"; "EFA"; "EEM"].

Record AssetInfo := mkAssetInfo {
  ai_ticker : string; ai_company : string; ai_sector : string; ai_exchange : string; ai_instrument_type : string;
  ai_currency : string; ai_market_open : bool; ai_fractional : bool; ai_is_crypto : bool; ai_is_etf : bool; ai_fetched_at : F
}.

(** What the provider answered before it raised, if it did: the currency, then
    the name and the sector of an asset without metadata. *)
Record ProviderInfo := mkProviderInfo { pi_currency : option (option string); pi_names : option (option string * option string) }.

(** [a or b] of strings. *)
Definition or_else (a : option string) (b : string) : string :=
  match a with Some a => if (a =? "")%string then b else a | None => b end.

Definition get_asset_info (provider : string → ProviderInfo) (local_time : string → option (nat * nat)) (now : F)
    (ticker : string) (cache : gmap string AssetInfo) : gmap string AssetInfo * AssetInfo :=
  let ticker := normal_ticker ticker in
  let exchange := infer_exchange ticker in
  let is_crypto := (exchange =? "CRYPTO")%string || contains "-USD" ticker || contains "-USDT" ticker in
  let is_etf := bool_decide (ticker ∈ ETF_SET) in
  let p := provider ticker in
  let currency := match pi_currency p with Some c => currency_or_usd c | None => "USD" end in
  let named := if (company_of ticker =? ticker)%string then (if pi_currency p is Some _ then pi_names p else None) else None in
  let '(company, sector) :=
    match named with
    | Some (name, sector) => (or_else name ticker, or_else sector (sector_of ticker))
    | None => (company_of ticker, sector_of ticker)
    end in
  let result :=
    mkAssetInfo ticker company sector exchange (if is_crypto then "CRYPTO" else if is_etf then "ETF" else "EQUITY") currency
      (market_is_open local_time exchange) (is_crypto || (exchange =? "US")%string) is_crypto is_etf now in
  match cache !! ticker with
  | Some i => if now ⊖ ai_fetched_at i <.? ASSET_INFO_TTL then (cache, i) else (<[ticker := result]> cache, result)
  | None => (<[ticker := result]> cache, result)
  end.
End engine.

#[local] Close Scope nat_scope.
(** * Theorems

    The signal engine: bounded outputs, an unbiased dynamics, and one
    generation at a time. *)

#[local] Open Scope Q_scope.

Section engine.
Context `{NumPy Q} `{!NumPyExact} `{LinAlg Q}.
(** A mean of numbers that are not negative is not negative; the library's
    power to three is the cube. *)
Hypothesis mean_nonneg : ∀ xs : list Q, nonneg xs → 0 <= np_mean xs.
Variables fixed0 signed1 signed2 : Q → string.

(** ** Ranges *)

Lemma whole_Q n : whole (F:=Q) n = inject_Z (Z.of_nat n).
Proof. done. Qed.

Lemma whole_pos n : (0 < n)%nat → 0 < whole (F:=Q) n.
Proof. intros Hn. rewrite whole_Q. change 0 with (inject_Z 0). rewrite <- Zlt_Qlt. lia. Qed.

Lemma whole_nonneg n : 0 <= whole (F:=Q) n.
Proof. rewrite whole_Q. change 0 with (inject_Z 0). rewrite <- Zle_Qle. lia. Qed.

Lemma wilder_nonneg period xs : (0 < period)%nat → nonneg xs → 0 <= wilder period xs.
Proof.
  intros Hp Hxs. unfold wilder. apply (foldl_invariant (λ a, 0 <= a)).
  - apply mean_nonneg. by apply Forall_take.
  - intros a x Hx Ha. unfold wilder_step. cbn [nadd nmul ndiv Num_Q]. apply Qdiv_nonneg; [|by apply whole_pos].
    assert (0 <= x) by (apply (proj1 (Forall_forall _ _) Hxs); eapply elem_of_sublist; [exact Hx|apply sublist_drop]).
    pose proof (Qmult_le_0_compat _ _ Ha (whole_nonneg (period - 1))). lra.
Qed.

Lemma rsi_range close period : (0 < period)%nat → 0 <= rsi_wilder close period ∧ rsi_wilder close period <= 100.
Proof.
  intros Hp. unfold rsi_wilder. destruct (_ <? _)%nat; [split; vm_compute; discriminate|].
  assert (0 <= wilder period (gain <$> deltas close)) as Hg.
  { apply wilder_nonneg; [done|]. apply nonneg_fmap. intros d _. unfold gain. change (n0 (F:=Q)) with 0. destruct (0 <.? d) eqn:E; qsimpl; lra. }
  assert (0 <= wilder period (loss <$> deltas close)) as Hl.
  { apply wilder_nonneg; [done|]. apply nonneg_fmap. intros d _. unfold loss. change (n0 (F:=Q)) with 0.
    destruct (d <.? 0) eqn:E; qsimpl; cbn [nopp Num_Q]; lra. }
  set (g := wilder period (gain <$> _)) in *. set (l := wilder period (loss <$> _)) in *.
  destruct (l <.? ten_billionth) eqn:E; [split; vm_compute; discriminate|]. qsimpl. change (ten_billionth (F:=Q)) with (1 # 10000000000) in E.
  change (nof_Z (F:=Q) 100) with 100. change (n1 (F:=Q)) with 1. cbn [nadd nsub ndiv Num_Q].
  assert (0 <= g / l) by (apply Qdiv_nonneg; lra). set (r := g / l) in *.
  assert (0 <= 100 / (1 + r)) by (apply Qdiv_nonneg; lra).
  assert (100 / (1 + r) <= 100) by (apply Qle_shift_div_r; [lra|]; nra). split; lra.
Qed.

Lemma score_signal_spec spin rsi :
  let '(type, confidence) := score_signal spin rsi in
  0 <= confidence ∧ confidence <= 1 ∧ (type = BUY_SIGNAL ↔ 15 # 100 < spin) ∧ (type = SELL_SIGNAL ↔ spin < - (15 # 100)).
Proof.
  unfold score_signal. set (p := if _ || _ then nof_ratio 25 100 else n0). change (n1 (F:=Q)) with 1. clearbody p. change (n0 (F:=Q)) with 0.
  destruct (nmax_Q 0 (nmin 1 (nabs spin ⊖ p))) as (Hc0 & _ & Hor), (nmin_Q 1 (nabs spin ⊖ p)) as (Hc1 & _ & _).
  split_and!; [done|destruct Hor as [-> | ->]; lra|..].
  - change (nof_ratio (F:=Q) 15 100) with (15 # 100). change (nof_ratio (F:=Q) (-15) 100) with (- (15 # 100)).
    destruct (15 # 100 <.? spin) eqn:E1; qsimpl; [done|]. destruct (spin <.? - (15 # 100)); split; try done; intros; lra.
  - change (nof_ratio (F:=Q) 15 100) with (15 # 100). change (nof_ratio (F:=Q) (-15) 100) with (- (15 # 100)).
    destruct (15 # 100 <.? spin) eqn:E1; qsimpl; [split; [done|intros; lra]|]. destruct (spin <.? - (15 # 100)) eqn:E2; qsimpl; split; try done; intros; lra.
Qed.

Definition in_range (x : Q) : Prop := -1 <= x ∧ x <= 1.

Lemma sba_step_ok J h coupling dt a (s : list Q * list Q) n :
  length J = n → length h = n → length s.1 = n → length s.2 = n →
  let s' := sba_step J h coupling dt a s in length s'.1 = n ∧ length s'.2 = n ∧ Forall in_range s'.1.
Proof.
  destruct s as [x y]. cbn [fst snd]. intros HJ Hh Hx Hy. unfold sba_step. cbn zeta. cbn [fst snd].
  assert (length (matvec J x) = n) by (unfold matvec; by rewrite length_fmap). unfold vscale.
  rewrite !length_zip_with, !length_fmap, Hx, Hy, Hh. split_and!; [lia|lia|].
  apply Forall_forall. intros z (i & Hz)%list_elem_of_lookup. apply lookup_zip_with_Some in Hz as (p & q & -> & _ & _).
  change (nopp (F:=Q) n1) with (-1). change (n1 (F:=Q)) with 1. apply clip_Q. lra.
Qed.

Lemma run_sba_ok J h n_steps dt coupling :
  length J = length h → length (run_sba J h n_steps dt coupling) = length h ∧ Forall in_range (run_sba J h n_steps dt coupling).
Proof.
  intros HJ. unfold run_sba. set (x := _ <$> h).
  match goal with |- length (?s).1 = _ ∧ _ => assert (length s.1 = length h ∧ length s.2 = length h ∧ Forall in_range s.1) as (? & _ & ?); [|done] end.
  apply (foldl_invariant (λ s : list Q * list Q, length s.1 = length h ∧ length s.2 = length h ∧ Forall in_range s.1)).
  - cbn [fst snd]. split_and!; [unfold x; by rewrite length_fmap|by rewrite length_replicate|].
    apply Forall_fmap, Forall_forall. intros f _. unfold compose. change (nof_ratio (F:=Q) 5 100) with (5 # 100).
    change (nopp (5 # 100)) with (- (5 # 100)).
    destruct (clip_Q (- (5 # 100)) (5 # 100) (f ⊗ (5 # 100)) ltac:(lra)). split; lra.
  - intros s step _ (L1 & L2 & _). by apply sba_step_ok.
Qed.

Lemma coupling_length (rows : matrix Q) : length (build_coupling_matrix rows) = length rows.
Proof. unfold build_coupling_matrix. destruct (_ <? _)%nat; apply square_shape. Qed.

Lemma basket_spins_ok valid :
  length (basket_spins (F:=Q) valid) = length valid ∧ Forall in_range (basket_spins (F:=Q) valid).
Proof.
  unfold basket_spins. set (h := local_fields _). assert (length h = length valid) as Hh
    by (unfold h, local_fields; by rewrite !length_fmap).
  destruct (run_sba_ok (build_coupling_matrix (last_returns <$> (snd <$> valid))) h N_STEPS DT COUPLING) as [Hl Hr].
  { by rewrite coupling_length, !length_fmap. }
  split; [by rewrite Hl|done].
Qed.

(** What a download may answer here: the closes of every asset it has are
    positive (a zero close divides the momentum and makes it infinite or not a
    number, which exact arithmetic does not have). *)
Definition positive_closes (answer : Download (F:=Q)) : Prop :=
  match answer with
  | Downloaded close_of => ∀ a close, close_of a = Some close → Forall (λ x, 0 < x) close
  | _ => True
  end.

Lemma last_two_positive close :
  (2 <= length close)%nat → Forall (λ x, 0 < x) close → 0 < (last_two close).1 ∧ 0 < (last_two close).2.
Proof.
  intros Hlen Hpos. unfold last_two. cbn [fst snd]. rewrite (proj2 (Nat.ltb_lt 1 (length close))) by lia.
  assert (∀ i, (i < length close)%nat → 0 < at_bar close i) as Hat; [|split; apply Hat; lia].
  intros i Hi. unfold at_bar. destruct (lookup_lt_is_Some_2 close i Hi) as [x Hx]. rewrite Hx. cbn [default from_option id].
  by eapply Forall_lookup_1.
Qed.


(** ** Odd dynamics *)

Hypothesis cube_exact : ∀ x : Q, m_pow x (nof_Z 3) == x * x * x.

Definition opposite (xs ys : list Q) : Prop := Forall2 (λ x y, y == - x) xs ys.

Lemma opposite_zip (f : Q → Q → Q) xs xs' ys ys' :
  (∀ a b a' b', a' == - a → b' == - b → f a' b' == - f a b) →
  opposite xs xs' → opposite ys ys' → opposite (zip_with f xs ys) (zip_with f xs' ys').
Proof.
  intros Hf Hx. revert ys ys'. induction Hx as [|a a' xs xs' Ha _ IH]; intros ys ys' Hy; [constructor|].
  destruct Hy as [|b b' ys ys' Hb Hy]; constructor; [by apply Hf|by apply IH].
Qed.

Lemma opposite_fmap (f : Q → Q) xs xs' :
  (∀ a a', a' == - a → f a' == - f a) → opposite xs xs' → opposite (f <$> xs) (f <$> xs').
Proof. intros Hf. induction 1; constructor; auto. Qed.

Lemma opposite_dot row x x' : opposite x x' → np_dot row x' == - np_dot row x.
Proof.
  rewrite !np_dot_exact. unfold qdot. intros Hx. revert row. induction Hx as [|a a' x x' Ha _ IH]; intros [|r row]; try reflexivity.
  cbn [zip_with]. rewrite !qsum_cons, IH, Ha. ring.
Qed.

Lemma clip_odd c x x' : 0 <= c → x' == - x → clip (- c) c x' == - clip (- c) c x.
Proof.
  intros Hc E. unfold clip, nmax, nmin.
  destruct (x <.? - c) eqn:E1, (x' <.? - c) eqn:E2; qsimpl; try lra;
    repeat match goal with |- context [?a <.? ?b] => let E := fresh "E" in destruct (a <.? b) eqn:E end; qsimpl; lra.
Qed.

Lemma sba_step_odd J h h' coupling dt a (s s' : list Q * list Q) :
  opposite h h' → opposite s.1 s'.1 → opposite s.2 s'.2 →
  let r := sba_step J h coupling dt a s in let r' := sba_step J h' coupling dt a s' in
  opposite r.1 r'.1 ∧ opposite r.2 r'.2.
Proof.
  destruct s as [x y], s' as [x' y']. cbn [fst snd]. intros Hh Hx Hy. unfold sba_step. cbn zeta.
  assert (∀ u u' v v' : list Q, opposite u u' → opposite v v' → opposite (zip_with nadd u v) (zip_with nadd u' v')) as Hadd
    by (intros; apply opposite_zip; [intros ???? -> ->; cbn; ring|done|done]).
  match goal with |- opposite (_, ?v).1 (_, ?v').1 ∧ _ => assert (opposite v v') as Hv end.
  { apply opposite_zip; [intros ???? -> ->; cbn; ring|done|]. apply Hadd; [apply Hadd|done].
    - apply opposite_zip; [intros ???? -> ->; cbn; ring|done|]. apply opposite_fmap; [|done].
      intros b b' E. unfold cube. rewrite !cube_exact, E. ring.
    - apply opposite_fmap; [intros ?? ->; cbn; ring|]. unfold matvec. clear -Hx H0. induction J as [|row J IH]; constructor; [|done].
      by apply opposite_dot. }
  cbn [fst snd]. split; [|done]. apply opposite_zip; [|done|done]. intros b c b' c' Eb Ec. change (nopp (F:=Q) n1) with (- (1)).
  change (n1 (F:=Q)) with 1. apply clip_odd; [lra|]. rewrite Eb, Ec. cbn. ring.
Qed.

(** The bifurcation takes no side of its own: for any couplings, with
    every local field turned around every final spin is turned around,
    whatever the number of steps, their length and the coupling constant. *)
Theorem bifurcation_is_unbiased J h n_steps dt coupling :
  opposite (run_sba J h n_steps dt coupling) (run_sba J (Qopp <$> h) n_steps dt coupling).
Proof.
  unfold run_sba. assert (opposite h (Qopp <$> h)) as Hh by (induction h; constructor; [reflexivity|done]).
  rewrite length_fmap.
  assert (opposite ((λ f, clip (nopp (nof_ratio 5 100)) (nof_ratio 5 100) (f ⊗ nof_ratio 5 100)) <$> h)
    ((λ f, clip (nopp (nof_ratio 5 100)) (nof_ratio 5 100) (f ⊗ nof_ratio 5 100)) <$> (Qopp <$> h))) as Hx.
  { apply opposite_fmap; [|done]. intros a a' E. apply (clip_odd (5 # 100)); [lra|]. cbn. rewrite E. ring. }
  assert (opposite (replicate (length h) n0) (replicate (length h) n0)) as Hy.
  { apply Forall2_replicate. reflexivity. }
  revert Hx Hy. generalize ((λ f, clip (nopp (nof_ratio 5 100)) (nof_ratio 5 100) (f ⊗ nof_ratio 5 100)) <$> h).
  generalize ((λ f, clip (nopp (nof_ratio 5 100)) (nof_ratio 5 100) (f ⊗ nof_ratio 5 100)) <$> (Qopp <$> h)).
  generalize (replicate (length h) (n0 (F:=Q))) at 2 4 as y'. generalize (replicate (length h) (n0 (F:=Q))) as y.
  generalize (seq 0 n_steps). induction l as [|step l IH]; intros y y' x' x Hx Hy; [done|]. cbn [foldl].
  destruct (sba_step_odd J h (Qopp <$> h) coupling dt (whole step ⊘ whole n_steps) (x, y) (x', y') Hh Hx Hy) as [Hx1 Hy1].
  destruct (sba_step J h _ _ _ (x, y)) as [x1 y1], (sba_step J (Qopp <$> h) _ _ _ (x', y')) as [x1' y1']. by apply IH.
Qed.
End engine.

(** ** Witnesses *)

Lemma mean_nonneg_Q (xs : list Q) : nonneg xs → 0 <= np_mean xs.
Proof.
  intros Hxs. cbn. apply qsum_nonneg in Hxs. destruct xs as [|x xs]; [discriminate|]. apply Qdiv_nonneg; [done|].
  change 0 with (inject_Z 0). rewrite <- Zlt_Qlt. cbn. lia.
Qed.


(** A library whose power is the cube. *)
Definition NumPy_cube : NumPy Q := {|
  np_sum := qsum; np_dot := qdot; np_mean := np_mean; np_std := np_std; np_percentile := np_percentile; np_argsort := np_argsort;
  m_sqrt := m_sqrt; m_exp := m_exp; m_log := m_log; m_pow x _ := x * x * x; m_erf := m_erf
|}.
Lemma NumPyExact_cube : NumPyExact (H:=NumPy_cube).
Proof. destruct NumPyExact_Q as [a b c d]. constructor; [exact a|exact b|exact c|exact d]. Qed.

Lemma bifurcation_is_unbiased_witness :
  (∀ x : Q, m_pow (NumPy:=NumPy_cube) x (nof_Z 3) == x * x * x) ∧
  opposite (run_sba (H0:=NumPy_cube) [[0; 1]; [1; 0]] [1; 1 # 2] 2 (1 # 20) (1 # 2))
    (run_sba (H0:=NumPy_cube) [[0; 1]; [1; 0]] [- (1); - (1 # 2)] 2 (1 # 20) (1 # 2)).
Proof.
  assert (∀ x : Q, m_pow (NumPy:=NumPy_cube) x (nof_Z 3) == x * x * x) as Hc by (intros x; reflexivity).
  split; [exact Hc|]. exact (@bifurcation_is_unbiased NumPy_cube NumPyExact_cube Hc [[0; 1]; [1; 0]] [1; 1 # 2] 2 (1 # 20) (1 # 2)).
Defined.

(** ** The cache *)

Section cache.
Context {F : Type} `{Num F}.

(** The cache, the callers between its two critical sections, every response
    generated so far with the time it was stored, and whether the cache has
    not been invalidated since the last one. *)
Record System := mkSystem {
  sy_cache : Cache (F:=F); sy_running : nat; sy_made : list (F * Response (F:=F)); sy_current : bool
}.

Inductive sys_step : System → System → Prop :=
| step_served s now c r :
    cache_enter now (sy_cache s) = (c, Some r) → sys_step s (mkSystem c (sy_running s) (sy_made s) (sy_current s))
| step_turn s now c :
    cache_enter now (sy_cache s) = (c, None) → sys_step s (mkSystem c (S (sy_running s)) (sy_made s) (sy_current s))
| step_done s now n fresh c r :
    sy_running s = S n → cache_finish now fresh (sy_cache s) = (c, r) →
    sys_step s (mkSystem c n (sy_made s ++ option_list (pair now <$> fresh)) (match fresh with Some _ => true | None => sy_current s end))
| step_invalidate s : sys_step s (mkSystem (invalidate_cache (sy_cache s)) (sy_running s) (sy_made s) false).

Definition initial_system : System := mkSystem initial_cache 0 [] false.

(** The time the last response counts from: when it was stored, or the epoch
    once it has been invalidated. *)
Definition stamp (s : System) : F :=
  match last (sy_made s) with Some (t, _) => if sy_current s then t else n0 | None => n0 end.

Record single_flight (s : System) : Prop := {
  sf_running : sy_running s = (if ca_generating (sy_cache s) then 1%nat else 0%nat);
  sf_stored : ca_signals (sy_cache s) = snd <$> last (sy_made s);
  sf_stamp : ca_generated_at (sy_cache s) = stamp s
}.

(** Entering the cache, by its three branches. *)
Definition servable (now : F) (c : Cache (F:=F)) : bool :=
  match ca_signals c with Some r => negb (bool_decide (length (rp_signals r) = 0%nat)) | None => false end &&
  (now ⊖ ca_generated_at c <.? CACHE_TTL_SECONDS).
Lemma cache_enter_branches now (c : Cache (F:=F)) :
  cache_enter now c =
    if servable now c then (c, ca_signals c)
    else if ca_generating c then (c, Some (default (empty_response now None) (ca_signals c)))
    else (mkCache (ca_signals c) (ca_generated_at c) true, None).
Proof. reflexivity. Qed.
Lemma servable_stored now (c : Cache (F:=F)) : servable now c = true → ∃ r, ca_signals c = Some r.
Proof. unfold servable. destruct (ca_signals c) as [r|]; [by exists r|done]. Qed.

Lemma sys_step_single_flight s s' : sys_step s s' → single_flight s → single_flight s'.
Proof.
  intros Hstep [Hr Hm Ht]. destruct Hstep as [s now c r He|s now c He|s now n fresh c r Hn Hf|s].
  - rewrite cache_enter_branches in He. assert (c = sy_cache s) as ->; [|by split].
    destruct (servable _ _); [by injection He|]. destruct (ca_generating (sy_cache s)); [by injection He|discriminate He].
  - rewrite cache_enter_branches in He. destruct (servable now (sy_cache s)) eqn:Es.
    { apply servable_stored in Es as [r Er]. rewrite Er in He. discriminate He. }
    destruct (ca_generating (sy_cache s)) eqn:Eg; [discriminate He|]. injection He as <-.
    split; cbn [sy_running sy_cache ca_generating ca_signals ca_generated_at]; [by rewrite Hr|done|exact Ht].
  - unfold cache_finish in Hf. destruct fresh as [f|]; injection Hf as <- _; cbn [fmap option_fmap option_map option_list].
    + split; cbn [sy_running sy_cache ca_generating ca_signals ca_generated_at sy_made].
      * destruct (ca_generating _); lia.
      * change (option_list (Some (now, f))) with [(now, f)]. by rewrite last_snoc.
      * unfold stamp. cbn [sy_made sy_current]. change (option_list (Some (now, f))) with [(now, f)]. by rewrite last_snoc.
    + change (option_list None) with (@nil (F * Response (F:=F))). rewrite app_nil_r.
      split; cbn [sy_running sy_cache ca_generating ca_signals ca_generated_at sy_made]; [|done|exact Ht].
      destruct (ca_generating _); lia.
  - split; cbn; [done|done|]. unfold stamp. cbn. by destruct (last (sy_made s)) as [[t r]|].
Qed.

(** C34: The basket is generated by one caller at a time. In every interleaving
    of callers, completions and invalidations, at most one caller is between
    the two critical sections, exactly when the flag says so, and the stored
    response is the last one generated. A caller who enters when that response
    has signals and was stored less than its time to live ago (and the cache
    has not been invalidated since) is served it and nothing is generated;
    otherwise, while another caller is generating, it is served the stored
    response or, when there is none, an empty one; and otherwise, and only
    then, it gets the turn to generate. *)
Theorem one_generation_at_a_time s :
  rtc sys_step initial_system s →
  (sy_running s <= 1)%nat ∧ (ca_generating (sy_cache s) = true ↔ sy_running s = 1%nat) ∧
  ca_signals (sy_cache s) = snd <$> last (sy_made s) ∧
  ∀ now,
    let turn := (sy_cache s <| ca_generating := true |>, None) in
    cache_enter now (sy_cache s) =
    match last (sy_made s) with
    | Some (_, r) =>
        if negb (bool_decide (rp_signals r = [])) && (now ⊖ stamp s <.? CACHE_TTL_SECONDS) then (sy_cache s, Some r)
        else if (sy_running s =? 1)%nat then (sy_cache s, Some r)
        else turn
    | None => if (sy_running s =? 1)%nat then (sy_cache s, Some (empty_response now None)) else turn
    end.
Proof.
  intros Hs. assert (single_flight s) as [Hr Hm Ht].
  { assert (∀ a b, rtc sys_step a b → single_flight a → single_flight b) as Hinv.
    { induction 1 as [|a b c Hab _ IH]; [done|]. intros Ha. apply IH. by eapply sys_step_single_flight. }
    by eapply Hinv. }
  split; [destruct (ca_generating _); lia|]. split; [destruct (ca_generating _); split; intros; try done; lia|]. split; [done|].
  intros now. cbn zeta. rewrite cache_enter_branches. unfold servable. rewrite Ht, Hr, Hm.
  assert ((if ca_generating (sy_cache s) then 1 else 0) =? 1 = ca_generating (sy_cache s))%nat as -> by by destruct (ca_generating _).
  assert (mkCache (snd <$> last (sy_made s)) (stamp s) true = sy_cache s <| ca_generating := true |>) as ->
    by (rewrite <- Hm, <- Ht; by destruct (sy_cache s)).
  destruct (last (sy_made s)) as [[t r]|]; cbn [fmap option_fmap option_map snd default from_option id]; [|done].
  rewrite (bool_decide_ext (length (rp_signals r) = 0%nat) (rp_signals r = [])) by apply length_zero_iff_nil. done.
Qed.
End cache.

(** A basket's response of one signal, generated at time zero. *)
Definition sample_response : Response (F:=Q) :=
  mkResponse [mkSignal "AAPL" HOLD_SIGNAL 0 0 1 None (mkFeatures 50 0 0 0) "US" "" "Apple Inc." "Technology" None false] 0 1 None.

(** One caller has the turn and stores a response at time 100; a caller at 110
    is served it, one at 130 gets the turn. *)
Lemma one_generation_at_a_time_witness :
  let s := mkSystem (mkCache (Some sample_response) 100 false) 0 [(100, sample_response)] true in
  rtc sys_step initial_system s ∧ (sy_running s <= 1)%nat ∧
  cache_enter (F:=Q) 110 (sy_cache s) = (sy_cache s, Some sample_response) ∧
  cache_enter (F:=Q) 130 (sy_cache s) = (sy_cache s <| ca_generating := true |>, None).
Proof.
  cbn zeta. set (s := mkSystem _ _ _ _). assert (rtc sys_step initial_system s) as Hs.
  { eapply rtc_l; [by apply (step_turn initial_system 5)|]. eapply rtc_l; [|reflexivity].
    by eapply (step_done (mkSystem (mkCache None n0 true) 1 [] false) 100 0 (Some sample_response)). }
  destruct (one_generation_at_a_time s Hs) as (Hone & _ & _ & Henter).
  split; [exact Hs|]. split; [exact Hone|]. split; [exact (Henter 110)|exact (Henter 130)].
Defined.

(** A failed download says it keeps to the stale response, and replaces it:
    the signals that were stored are gone, and the next caller downloads
    again. *)
Example failed_download_drops_the_stale_signals :
  let failed := generate_signals (F:=Q) (λ _, "") (λ _, "") (λ _, "") (λ _, DownloadFailed) 100 None in
  rp_error failed = Some "market data unavailable — using stale cache if present" ∧
  let c := (cache_finish 100 (Some failed) (mkCache (Some sample_response) 0 true)).1 in
  from_option rp_signals [] (ca_signals c) = [] ∧ (cache_enter 101 c).2 = None.
Proof. by split_and!. Qed.

(** A single asset is served from the basket's response however old it is, and
    that is then cached as just fetched. *)
Example stale_basket_signal_is_served :
  let '(cache, served) :=
    compute_single_asset (λ x, x) (λ _, "") (λ _, "") (λ _, "") (λ _, DownloadFailed) (Some sample_response) 1000000 "aapl" ∅ in
  served = head (rp_signals sample_response) ∧ snd <$> cache !! "AAPL" = Some 1000000.
Proof. by vm_compute. Qed.
