(* ===== verification/AlphaResearch.v ===== *)
(** backend/services/alpha_research.py: how well a signal predicts returns.
    Panels are lists of daily rows; sentences of interpretation are left out. *)

From Stdlib Require Import QArith Qabs Lqa.
From stdpp Require Import sorting.
From S2P Require Import Prelude Numeric StrategySignals Vectors StatTests Matrices CorrelationEngine.
#[local] Open Scope nat_scope.

Section alpha.
Context {F : Type} `{Num F} `{NumPy F} `{LinAlg F}.
(** [np.prod] of a column. *)
Variable np_prod : list F → F.

(** ** Ranks *)

(** [np.unique]: sorted, each value once. *)
Fixpoint dedup_sorted (prev : F) (xs : list F) : list F :=
  match xs with
  | [] => []
  | x :: xs => if x =.? prev then dedup_sorted prev xs else x :: dedup_sorted x xs
  end.
Definition np_unique (xs : list F) : list F :=
  match sort_key id xs with [] => [] | x :: xs => x :: dedup_sorted x xs end.

(** The values of [ranks] where [arr] is [v]. *)
Definition masked (arr ranks : list F) (v : F) : list F := snd <$> filter (λ ar, (ar.1 =.? v) = true) (zip arr ranks).

(** [ranks[mask] = ranks[mask].mean()] *)
Definition average_ties (arr : list F) (ranks : list F) (v : F) : list F :=
  if 1 <? length (masked arr ranks v) then
    let m := np_mean (masked arr ranks v) in zip_with (λ a r, if a =.? v then m else r) arr ranks
  else ranks.

Definition rank (arr : list F) : list F := foldl (average_ties arr) (ranks arr) (np_unique arr).

(** ** Information coefficients *)

(** [np.sum((r1 - mean1) * (r2 - mean2))] *)
Definition co_moment (r1 r2 : list F) : F := np_sum (vmul (centred r1) (centred r2)).

Definition spearman_ic (signals forward_returns : list F) : F :=
  if length signals <? 4 then n0
  else
    let r1 := rank signals in
    let r2 := rank forward_returns in
    let den := m_sqrt (np_sum (squares (centred r1)) ⊗ np_sum (squares (centred r2))) in
    if den <.? nof_ratio 1 1000000000000 then n0 else co_moment r1 r2 ⊘ den.

Definition pearson_ic (signals forward_returns : list F) : F :=
  if length signals <? 4 then n0
  else if (np_std 1 signals <.? nof_ratio 1 1000000000000) || (np_std 1 forward_returns <.? nof_ratio 1 1000000000000) then n0
  else entry (la_corrcoef (zip_with (λ s r, [s; r]) signals forward_returns)) 0 1.

(** The pairs of two rows that are both finite. *)
Definition finite_pairs (xs ys : list F) : list (F * F) := filter (λ xy, (nfinite xy.1 && nfinite xy.2) = true) (zip xs ys).

(** The return from the day after [t] over a horizon. *)
Definition forward_return (returns : matrix F) (N t horizon : nat) : list F :=
  if horizon =? 1 then default [] (returns !! (t + 1))
  else (λ j, np_prod ((λ r, n1 ⊕ r) <$> column j (slice (t + 1) (t + 1 + horizon) returns)) ⊖ n1) <$> seq 0 N.

Record ICSeries := mkICSeries {
  ic_series : list F; ic_mean_ic : F; ic_std : F; ic_icir : F; ic_t_stat : F; ic_p_value : F; ic_significant : bool;
  ic_n_periods : nat; ic_positive_pct : F
}.
Definition empty_ic : ICSeries := mkICSeries [] n0 n0 n0 n0 n1 false 0 n0.

(** The coefficients of the days with at least four assets. *)
Definition daily_ics (pairs_of : nat → list (F * F)) (days : nat) : list F :=
  omap (λ t, let p := pairs_of t in if length p <? 4 then None else Some (spearman_ic (fst <$> p) (snd <$> p))) (seq 0 days).

Definition compute_ic_series (signals returns : matrix F) (N horizon : nat) : ICSeries :=
  let T := length signals in
  if (N <? 4) || (T <=? horizon + 2) then empty_ic
  else
    let ics := daily_ics (λ t, finite_pairs (default [] (signals !! t)) (forward_return returns N t horizon)) (T - horizon) in
    match ics with
    | [] => empty_ic
    | _ =>
        let mean_ic := np_mean ics in
        let std := np_std 1 ics in
        let n := length ics in
        let flat := std >.? nof_ratio 1 1000000000 in
        let icir := if flat then mean_ic ⊘ std else n0 in
        let t_stat := if flat then mean_ic ⊘ (std ⊘ m_sqrt (of_n n)) else n0 in
        let p_value := nof_Z 2 ⊗ (n1 ⊖ normal_cdf (nabs t_stat)) in
        mkICSeries ((λ x, nround x 5) <$> ics) (nround mean_ic 5) (nround std 5) (nround icir 4) (nround t_stat 4)
          (nround p_value 6) (p_value <.? nof_ratio 5 100) n
          (nround (np_mean ((λ x, if x >.? n0 then n1 else n0) <$> ics)) 4)
    end.

(** ** Decay *)

Record DecayPoint := mkDecayPoint { dp_horizon : nat; dp_mean_ic : F; dp_icir : F; dp_n_periods : nat }.
Definition decay_point (signals returns : matrix F) (N h : nat) : DecayPoint :=
  let result := compute_ic_series signals returns N h in mkDecayPoint h (ic_mean_ic result) (ic_icir result) (ic_n_periods result).

Record Decay := mkDecay { dc_horizons : list nat; dc_by_horizon : list DecayPoint; dc_half_life : option nat; dc_holding : nat }.

(** [None]: [max()] of no horizons raises. *)
Definition ic_decay (signals returns : matrix F) (N max_horizon : nat) : option Decay :=
  let horizons := seq 1 (min (max_horizon + 1) (length signals / 3) - 1) in
  let decay_ics := decay_point signals returns N <$> horizons in
  let half_life :=
    match decay_ics with
    | first :: _ =>
        if nabs (dp_mean_ic first) >.? nof_ratio 1 1000000 then
          dp_horizon <$> find (λ item, nabs (dp_mean_ic item) <=.? nabs (dp_mean_ic first) ⊗ nof_ratio 1 2) decay_ics
        else None
    | [] => None
    end in
  match half_life with
  | Some h => Some (mkDecay horizons decay_ics half_life h)
  | None => longest ← last horizons; Some (mkDecay horizons decay_ics None longest)
  end.

(** ** Hit rate *)

Record HitRate := mkHitRate { ht_rate : F; ht_n : nat; ht_correct : nat; ht_z : F; ht_p_value : F; ht_significant : bool }.
Definition no_hit_rate : HitRate := mkHitRate (nof_ratio 1 2) 0 0 n0 n1 false.

Definition sign_of (x : F) : F := if x >.? n0 then n1 else if x <.? n0 then nopp n1 else n0.

Definition hit_rate (pairs : list (F * F)) (threshold : F) : HitRate :=
  let chosen := filter (λ sr, (nabs sr.1 >.? threshold) = true) pairs in
  if (length pairs <? 2) || (length chosen <? 2) then no_hit_rate
  else
    let correct := length (filter (λ sr, (sign_of sr.1 =.? sign_of sr.2) = true) chosen) in
    let n := length chosen in
    let hr := of_n correct ⊘ of_n n in
    let se := m_sqrt (nof_ratio 1 4 ⊘ of_n n) in
    let z := (hr ⊖ nof_ratio 1 2) ⊘ se in
    let p_value := nof_Z 2 ⊗ (n1 ⊖ normal_cdf (nabs z)) in
    mkHitRate (nround hr 4) n correct (nround z 3) (nround p_value 5) (p_value <.? nof_ratio 5 100).

(** ** Quantiles *)

(** The forward returns of the assets whose rank is in a bin. *)
Definition in_bin (lo hi : F) (r : F) : bool := (r >.? lo) && (r <=.? hi).
Definition bin_returns (n n_quantiles : nat) (ranked : list (F * F)) (q : nat) : list F :=
  let bin_size := of_n n ⊘ of_n n_quantiles in
  snd <$> filter (λ rr, in_bin (of_n (q - 1) ⊗ bin_size) (of_n q ⊗ bin_size) rr.1 = true) ranked.

Record Quantiles := mkQuantiles {
  qt_returns : list F; qt_spread : F; qt_annualised : option F; qt_monotonic : bool; qt_n_assets : nat
}.
Definition no_quantiles : Quantiles := mkQuantiles [] n0 None false 0.

Definition quintile_returns (pairs : list (F * F)) (n_quantiles : nat) : Quantiles :=
  let n := length pairs in
  if n <? n_quantiles * 2 then no_quantiles
  else
    let ranked := zip (rank (fst <$> pairs)) (snd <$> pairs) in
    let q_returns := (λ q,
        match bin_returns n n_quantiles ranked q with [] => n0 | rs => np_mean rs end) <$> seq 1 n_quantiles in
    let spread := default n0 (last q_returns) ⊖ default n0 (head q_returns) in
    let monotonic := forallb (λ ab, ab.1 <=.? ab.2) (zip q_returns (tail q_returns)) in
    mkQuantiles ((λ r, nround r 6) <$> q_returns) (nround spread 6) (Some (nround (spread ⊗ nof_Z 252) 4)) monotonic n.

(** ** Turnover *)

Record Turnover := mkTurnover { to_rank_correlation : F; to_turnover : F }.

Definition factor_turnover (signals : matrix F) (N : nat) : Turnover :=
  let T := length signals in
  if (T <? 3) || (N <? 2) then mkTurnover n1 n0
  else
    let row t := default [] (signals !! t) in
    match daily_ics (λ t, finite_pairs (row t) (row (t + 1))) (T - 1) with
    | [] => mkTurnover n1 n0
    | rank_corrs => let avg_rc := np_mean rank_corrs in mkTurnover (nround avg_rc 4) (nround (n1 ⊖ avg_rc) 4)
    end.

(** ** The report *)

Record Score := mkScore { sc_score : F; sc_rating : string; sc_ic : F; sc_hit_rate : F; sc_quintile : F; sc_turnover_penalty : F }.

Definition alpha_quality_score (ic : ICSeries) (hr : HitRate) (quint : Quantiles) (turnover : Turnover) : Score :=
  let cap x (m : Z) := nmin x (nof_Z m) in
  let ic_score := cap (nabs (ic_mean_ic ic) ⊘ nof_ratio 10 100 ⊗ nof_Z 20) 20%Z ⊕ cap (nabs (ic_icir ic) ⊘ n1 ⊗ nof_Z 20) 20%Z in
  let hr_score := cap (nmax (ht_rate hr ⊖ nof_ratio 1 2) n0 ⊘ nof_ratio 15 100 ⊗ nof_Z 25) 25%Z in
  let spread := nabs (default n0 (qt_annualised quint)) in
  let q_score := cap (spread ⊘ nof_ratio 20 100 ⊗ nof_Z 20) 20%Z ⊕ (if qt_monotonic quint then nof_Z 5 else n0) in
  let penalty := cap (to_turnover turnover ⊗ nof_Z 10) 10%Z in
  let score := n0 ⊕ ic_score ⊕ hr_score ⊕ q_score ⊖ penalty in
  let score := nmax n0 (nmin (nof_Z 100) score) in
  let rating := if score <.? nof_Z 25 then "Poor" else if score <.? nof_Z 50 then "Fair"
                else if score <.? nof_Z 75 then "Good" else "Excellent" in
  mkScore (nround score 1) rating (nround ic_score 1) (nround hr_score 1) (nround q_score 1) (nround (nopp penalty) 1).

Record AlphaReport := mkAlphaReport {
  al_ic : ICSeries; al_decay : Decay; al_hit_rate : HitRate; al_quintile : Quantiles; al_turnover : Turnover; al_score : Score
}.

Definition run_alpha_research (signals returns : matrix F) (N max_horizon : nat) : option AlphaReport :=
  let T := length signals in
  let ic_1d := compute_ic_series signals returns N 1 in
  decay ← ic_decay signals returns N max_horizon;
  let latest := finite_pairs (default [] (signals !! (T - 2))) (default [] (returns !! (length returns - 1))) in
  let hr := if (2 <=? T) && (4 <=? length latest) then hit_rate latest n0 else no_hit_rate in
  let quint := if (2 <=? T) && (10 <=? length latest) then quintile_returns latest 5 else no_quantiles in
  let to := factor_turnover signals N in
  Some (mkAlphaReport ic_1d decay hr quint to (alpha_quality_score ic_1d hr quint to)).
End alpha.

#[local] Close Scope nat_scope.
(** * Theorems

    What the ranks and the quantile bins of alpha_research.py are, in exact
    arithmetic: fractional ranks whatever order [argsort] gives ties, and
    bins that share out the assets. *)

#[local] Open Scope Q_scope.

(** ** The specification *)

(** How many values are below [v], and how many are [v]. *)
Definition count (p : Q → bool) (xs : list Q) : nat := length (filter (λ x, p x = true) xs).
Definition below (xs : list Q) (v : Q) : nat := count (λ x, x <.? v) xs.
Definition ties (xs : list Q) (v : Q) : nat := count (λ x, x =.? v) xs.

(** The mean of the places a value shares with its equals. *)
Definition fractional_rank (xs : list Q) (v : Q) : Q := of_n (below xs v) + (of_n (ties xs v) + 1) / 2.

Lemma count_cons p x xs : count p (x :: xs) = ((if p x then 1 else 0) + count p xs)%nat.
Proof. unfold count. rewrite filter_cons. destruct (p x); by case_decide. Qed.

Lemma count_perm p xs ys : xs ≡ₚ ys → count p xs = count p ys.
Proof. intros E. unfold count. by rewrite E. Qed.

Lemma count_none p xs : (∀ x, x ∈ xs → p x = false) → count p xs = 0%nat.
Proof.
  induction xs as [|x xs IH]; intros Hp; [done|]. rewrite count_cons, (Hp x), IH; [done| |by left]. intros; apply Hp; by right.
Qed.

Lemma counted_pos p xs x : x ∈ xs → p x = true → (0 < count p xs)%nat.
Proof. induction 1 as [x xs|x y xs _ IH]; intros Hp; rewrite count_cons; [rewrite Hp; lia|specialize (IH Hp); lia]. Qed.

Lemma count_exclusive p q xs : (∀ x, p x = true → q x = false) → (count p xs + count q xs <= length xs)%nat.
Proof.
  intros Hpq. induction xs as [|x xs IH]; [done|]. rewrite !count_cons. cbn [length]. specialize (Hpq x).
  destruct (p x); [rewrite Hpq by done|destruct (q x)]; lia.
Qed.

Lemma of_n_add a b : of_n (F:=Q) (a + b) == of_n a + of_n b.
Proof. unfold of_n, nof_Z. cbn [nof_ratio Num_Q]. unfold Qeq. cbn. lia. Qed.

Lemma of_n_le a b : (a <= b)%nat → of_n (F:=Q) a <= of_n b.
Proof. unfold of_n, nof_Z. cbn [nof_ratio Num_Q]. unfold Qle. cbn. lia. Qed.

Lemma of_n_one : of_n (F:=Q) 1 == 1.
Proof. reflexivity. Qed.

(** ** Ranks before ties are averaged *)

(** The places of [v] in a list whose first place is [o + 1]. *)
Fixpoint places_sum (v : Q) (o : nat) (ys : list Q) : Q :=
  match ys with [] => 0 | y :: ys => (if y =.? v then of_n (o + 1) else 0) + places_sum v (S o) ys end.

Lemma places_sum_sorted v ys o : StronglySorted Qle ys →
  places_sum v o ys == of_n (ties ys v) * (of_n o + fractional_rank ys v).
Proof.
  intros Hs. revert o. induction Hs as [|y ys Hs IH Hy]; intros o; [cbn; ring|]. cbn [places_sum]. rewrite IH.
  rewrite Forall_forall in Hy. unfold fractional_rank, ties, below in *. rewrite !count_cons.
  destruct (y =.? v) eqn:Ee, (y <.? v) eqn:El; qsimpl; try lra.
  - assert (count (λ x, x <.? v) ys = 0%nat) as ->.
    { apply count_none. intros x Hx. specialize (Hy x Hx). apply nlt_Q_false. lra. }
    rewrite !of_n_add, (of_n_succ o), of_n_one. cbn [Nat.add]. change (of_n (F:=Q) 0) with 0. field.
  - rewrite !of_n_add, (of_n_succ o). change (of_n (F:=Q) 0) with 0. rewrite ?of_n_one. field.
  - assert (count (λ x, x =.? v) ys = 0%nat) as ->.
    { apply count_none. intros x Hx. specialize (Hy x Hx). apply neq_Q_false. lra. }
    cbn [Nat.add]. change (of_n (F:=Q) 0) with 0. field.
Qed.

Lemma StronglySorted_fmap_key {A} (f : A → Q) (l : list A) :
  StronglySorted (λ a b, f a <= f b) l → StronglySorted Qle (f <$> l).
Proof. induction 1 as [|a l Hs IH Ha]; constructor; [done|]. by apply Forall_fmap. Qed.

Lemma fmap_at_seq (xs : list Q) : at_ xs <$> seq 0 (length xs) = xs.
Proof.
  apply list_eq. intros i. rewrite list_lookup_fmap. destruct (decide (i < length xs)%nat) as [Hi|Hi].
  - rewrite lookup_seq_lt by done. cbn. unfold at_. destruct (lookup_lt_is_Some_2 _ _ Hi) as [x ->]. done.
  - rewrite lookup_seq_ge by lia. cbn. symmetry. apply lookup_ge_None. lia.
Qed.

Lemma qsum_perm (xs ys : list Q) : xs ≡ₚ ys → qsum xs == qsum ys.
Proof. induction 1; rewrite ?qsum_cons; [reflexivity|by rewrite IHPermutation|ring|by etransitivity]. Qed.

Section ranks.
Context `{NumPy Q} `{!NumPyExact}.

(** [ranks[temp] = np.arange(1, n + 1)] writes each place once. *)
Lemma ranks_written (r : list Q) (o : nat) (temp : list nat) :
  NoDup temp → Forall (λ j, (j < length r)%nat) temp →
  let r' := foldl (λ r kt, <[kt.2 := of_n (kt.1 + 1)]> r) r (zip (seq o (length temp)) temp) in
  (∀ k j, temp !! k = Some j → at_ r' j = of_n (o + k + 1)) ∧ (∀ j, j ∉ temp → at_ r' j = at_ r j) ∧ length r' = length r.
Proof.
  intros Hnd. revert r o. induction Hnd as [|j temp Hj Hnd IH]; intros r o Hlt; [done|]. cbn [length seq zip zip_with foldl fst snd].
  apply Forall_cons in Hlt as [Hjr Hlt]. destruct (IH (<[j := of_n (o + 1)]> r) (S o)) as (IH1 & IH2 & IH3).
  { eapply Forall_impl; [exact Hlt|]. intros i Hi. by rewrite length_insert. }
  split_and!; [|intros i Hi; rewrite not_elem_of_cons in Hi; rewrite IH2 by tauto|by rewrite IH3, length_insert].
  - intros [|k] i Hi; cbn in Hi; [injection Hi as <-|rewrite (IH1 k i Hi); f_equal; lia]. rewrite IH2 by done. unfold at_.
    by rewrite list_lookup_insert_eq, Nat.add_0_r by done.
  - unfold at_. rewrite list_lookup_insert_ne; [done|]. naive_solver.
Qed.

Lemma ranks_at xs :
  length (ranks xs) = length xs ∧ ∀ k j, np_argsort xs !! k = Some j → at_ (ranks xs) j = of_n (k + 1).
Proof.
  unfold ranks. destruct (ranks_written (replicate (length xs) n0) 0 (np_argsort xs)) as (H1 & _ & H3).
  - rewrite np_argsort_perm. apply NoDup_seq.
  - rewrite np_argsort_perm. apply Forall_seq. intros j Hj. rewrite length_replicate. lia.
  - split; [by rewrite H3, length_replicate|done].
Qed.

(** The ranks of the values that are [v], added up. *)
Definition tied (v : Q) (xs r : list Q) (j : nat) : Q := if at_ xs j =.? v then at_ r j else 0.

Lemma masked_sum xs r v : length r = length xs → qsum (masked xs r v) == qsum (tied v xs r <$> seq 0 (length xs)).
Proof.
  revert r. induction xs as [|x xs IH]; intros [|y r] Hl; try discriminate Hl; [reflexivity|]. injection Hl as Hl. cbn [length seq fmap list_fmap]. rewrite qsum_cons.
  rewrite <- fmap_S_seq, <- list_fmap_compose. change (tied v (x :: xs) (y :: r) ∘ S) with (tied v xs r). rewrite <- IH by done.
  unfold masked, tied. change (at_ (x :: xs) 0) with x. change (at_ (y :: r) 0) with y. cbn [zip zip_with].
  rewrite filter_cons. cbn [fst]. destruct (x =.? v); case_decide; try done; cbn [fmap list_fmap snd]; rewrite ?qsum_cons; ring.
Qed.

Lemma masked_length (xs r : list Q) v : length r = length xs → length (masked xs r v) = ties xs v.
Proof.
  revert r. induction xs as [|x xs IH]; intros [|y r] Hl; try discriminate Hl; [reflexivity|]. injection Hl as Hl. unfold ties. rewrite count_cons. fold (ties xs v).
  rewrite <- (IH r) by done. unfold masked. cbn [zip zip_with]. rewrite filter_cons. cbn [fst]. by destruct (x =.? v); case_decide.
Qed.

Lemma tied_places v xs r temp o :
  (∀ k j, temp !! k = Some j → at_ r j = of_n (o + k + 1)) →
  qsum (tied v xs r <$> temp) == places_sum v o (at_ xs <$> temp).
Proof.
  revert o. induction temp as [|j temp IH]; intros o Hr; [reflexivity|]. cbn [fmap list_fmap places_sum]. rewrite qsum_cons, (IH (S o)).
  - unfold tied at 1. rewrite (Hr 0%nat j eq_refl), Nat.add_0_r. reflexivity.
  - intros k i Hi. rewrite (Hr (S k) i Hi). f_equal. lia.
Qed.

Lemma ranks_of_ties xs v : qsum (masked xs (ranks xs) v) == of_n (ties xs v) * fractional_rank xs v.
Proof.
  destruct (ranks_at xs) as [Hl Hr]. rewrite masked_sum by done.
  rewrite (qsum_perm (tied v xs (ranks xs) <$> seq 0 (length xs)) (tied v xs (ranks xs) <$> np_argsort xs))
    by (by rewrite np_argsort_perm).
  rewrite (tied_places v xs (ranks xs) _ 0) by done. rewrite places_sum_sorted.
  - assert (at_ xs <$> np_argsort xs ≡ₚ xs) as Hp.
    { rewrite np_argsort_perm. by rewrite fmap_at_seq. }
    unfold fractional_rank, ties, below. rewrite !(count_perm _ _ _ Hp). change (of_n (F:=Q) 0) with 0. ring.
  - apply (StronglySorted_fmap_key (at_ xs)), np_argsort_sorted.
Qed.

(** ** Averaging *)

Hypothesis np_mean_exact : ∀ xs : list Q, np_mean xs == qsum xs / of_n (length xs).

Lemma masked_eq (xs r : list Q) v v' : v == v' → masked xs r v = masked xs r v'.
Proof.
  intros E. unfold masked. f_equal. apply list_filter_iff. intros [x y]. cbn [fst]. rewrite !neq_Q. by rewrite E.
Qed.

Lemma masked_others (xs r : list Q) v v' m : ¬ v == v' →
  masked xs (zip_with (λ a r, if a =.? v then m else r) xs r) v' = masked xs r v'.
Proof.
  intros Hne. revert r. induction xs as [|x xs IH]; intros [|y r]; [done..|]. specialize (IH r). unfold masked in *. cbn [zip zip_with].
  rewrite !filter_cons. cbn [fst]. destruct (x =.? v') eqn:E; [|case_decide; [done|exact IH]]. case_decide; [|done]. cbn [fmap list_fmap snd].
  rewrite IH. destruct (x =.? v) eqn:E'; [|done]. qsimpl. exfalso. apply Hne. by rewrite <- E, <- E'.
Qed.

Lemma average_ties_length xs r v : length r = length xs → length (average_ties xs r v) = length xs.
Proof. intros Hl. unfold average_ties. destruct (_ <? _)%nat; [|done]. rewrite length_zip_with. lia. Qed.

Lemma average_ties_others xs r v v' : ¬ v == v' → masked xs (average_ties xs r v) v' = masked xs r v'.
Proof. intros Hne. unfold average_ties. destruct (_ <? _)%nat; [|done]. by apply masked_others. Qed.

(** One value's turn: its places read the mean, the others what they read. *)
Lemma average_ties_at xs r v i x y :
  xs !! i = Some x → r !! i = Some y →
  ∃ z, average_ties xs r v !! i = Some z ∧
    if x =.? v then z == qsum (masked xs r x) / of_n (length (masked xs r x)) else z = y.
Proof.
  intros Hx Hy. unfold average_ties. destruct (_ <? _)%nat eqn:E.
  - rewrite lookup_zip_with, Hx, Hy. cbn [mbind option_bind]. eexists; split; [reflexivity|]. destruct (x =.? v) eqn:Ev; [|done].
    qsimpl. by rewrite np_mean_exact, (masked_eq xs r _ _ Ev).
  - exists y. split; [done|]. destruct (x =.? v) eqn:Ev; [|done]. qsimpl. apply Nat.ltb_ge in E. rewrite <- (masked_eq xs r _ _ Ev) in E.
    assert (y ∈ masked xs r x) as Hin.
    { apply list_elem_of_fmap. exists (x, y). split; [done|]. apply list_elem_of_filter. split; [by apply neq_Q|].
      apply (list_elem_of_lookup_2 _ i). apply lookup_zip_Some. done. }
    destruct (masked xs r x) as [|y' [|? ?]]; [by apply not_elem_of_nil in Hin| |cbn in E; lia].
    apply list_elem_of_singleton in Hin as <-. cbn [length]. rewrite of_n_one. cbn. field.
Qed.

Lemma averaged_at xs vs r i x y :
  ForallOrdPairs (λ v v', ¬ v == v') vs → length r = length xs → xs !! i = Some x → r !! i = Some y →
  ∃ z, foldl (average_ties xs) r vs !! i = Some z ∧
    if existsb (λ v, x =.? v) vs then z == qsum (masked xs r x) / of_n (length (masked xs r x)) else z = y.
Proof.
  intros Hd Hl Hx. revert r y Hl. induction Hd as [|v vs Hv Hd IH]; intros r y Hl Hy; [by exists y|]. cbn [foldl existsb].
  destruct (average_ties_at xs r v i x y Hx Hy) as (y' & Hy' & Hcase).
  destruct (IH _ y' (average_ties_length xs r v Hl) Hy') as (z & Hz & Hz'). exists z. split; [done|].
  destruct (x =.? v) eqn:Ev; cbn [orb].
  - assert (existsb (λ v, x =.? v) vs = false) as En.
    { apply not_true_is_false. intros (v' & Hin%list_elem_of_In & Ev')%existsb_exists. qsimpl. rewrite Forall_forall in Hv.
      apply (Hv v' Hin). by rewrite <- Ev. }
    rewrite En in Hz'. by subst z.
  - qsimpl. rewrite average_ties_others in Hz' by (intros E; by apply Ev). by subst y'.
Qed.

Lemma dedup_sorted_strict xs prev :
  StronglySorted Qle (prev :: xs) →
  StronglySorted Qlt (prev :: dedup_sorted prev xs) ∧ ∀ x, x ∈ prev :: xs → ∃ v, v ∈ prev :: dedup_sorted prev xs ∧ x == v.
Proof.
  revert prev. induction xs as [|x xs IH]; intros prev [Hs Hp]%StronglySorted_inv.
  { split; [repeat constructor|]. intros x Hx. exists x. split; [exact Hx|reflexivity]. }
  apply Forall_cons in Hp as [Hx Hp]. cbn [dedup_sorted]. destruct (x =.? prev) eqn:E; qsimpl.
  - apply StronglySorted_inv in Hs as [Hs _]. destruct (IH prev) as [IH1 IH2]; [by constructor|]. split; [done|].
    intros z [->|[->|Hz]%elem_of_cons]%elem_of_cons; [|exists prev; split; [by left|exact E]|apply IH2; by right].
    apply IH2. by left.
  - destruct (IH x Hs) as [IH1 IH2]. split.
    + constructor; [done|]. apply StronglySorted_inv in IH1 as [_ Hd]. constructor; [lra|].
      eapply Forall_impl; [exact Hd|]. cbn. intros z Hz. lra.
    + intros z [->|Hz]%elem_of_cons; [exists prev; split; [by left|reflexivity]|]. destruct (IH2 z Hz) as (v & Hv & Hv').
      exists v. split; [by right|done].
Qed.

Lemma np_unique_spec xs :
  ForallOrdPairs (λ v v', ¬ v == v') (np_unique xs) ∧ ∀ x, x ∈ xs → existsb (λ v, x =.? v) (np_unique xs) = true.
Proof.
  unfold np_unique. pose proof (sort_key_sorted id xs) as Hs. pose proof (sort_key_perm id xs) as Hp.
  destruct (sort_key id xs) as [|p ys]; [split; [constructor|]; intros x; rewrite <- Hp; by intros []%not_elem_of_nil|].
  destruct (dedup_sorted_strict ys p Hs) as [H1 H2]. split.
  - revert H1. generalize (p :: dedup_sorted p ys). induction 1 as [|v vs _ IH Hv]; constructor; [|done].
    eapply Forall_impl; [exact Hv|]. cbn. intros z Hz. lra.
  - intros x Hx. rewrite <- Hp in Hx. destruct (H2 x Hx) as (v & Hv & Ev). apply existsb_exists. exists v.
    split; [by apply list_elem_of_In|by apply neq_Q].
Qed.

Lemma rank_length xs : length (rank xs) = length xs.
Proof.
  unfold rank. apply (foldl_invariant (λ r, length r = length xs)); [apply ranks_at|]. intros r v Hr. by apply average_ties_length.
Qed.

Lemma rank_at xs i x : xs !! i = Some x → ∃ z, rank xs !! i = Some z ∧ z == fractional_rank xs x.
Proof.
  intros Hx. destruct (ranks_at xs) as [Hl _]. assert (i < length xs)%nat as Hi by by eapply lookup_lt_Some.
  destruct (lookup_lt_is_Some_2 (ranks xs) i) as [y Hy]; [lia|]. destruct (np_unique_spec xs) as [Hd Hall].
  destruct (averaged_at xs (np_unique xs) (ranks xs) i x y Hd Hl Hx Hy) as (z & Hz & Hz'). exists z. split; [done|].
  rewrite Hall in Hz' by by eapply list_elem_of_lookup_2. rewrite Hz', ranks_of_ties, masked_length by done.
  assert (0 < ties xs x)%nat as Ht by (eapply counted_pos; [by eapply list_elem_of_lookup_2|by apply neq_Q]).
  apply Qeq_bool_eq. apply Qeq_eq_bool. pose proof (of_n_le 1 _ Ht) as Ht'. rewrite of_n_one in Ht'. field. lra.
Qed.

(** Ranks lie between one and the number of values. *)
Lemma rank_bounds xs i z : rank xs !! i = Some z → 1 <= z ∧ z <= of_n (length xs).
Proof.
  intros Hz. destruct (lookup_lt_is_Some_2 xs i) as [x Hx]; [rewrite <- rank_length; by eapply lookup_lt_Some|].
  destruct (rank_at xs i x Hx) as (z' & Hz' & Ez). rewrite Hz in Hz'. injection Hz' as <-. rewrite Ez. unfold fractional_rank.
  assert (0 < ties xs x)%nat as Ht by (eapply counted_pos; [by eapply list_elem_of_lookup_2|by apply neq_Q]).
  pose proof (of_n_le 1 _ Ht) as Ht'. rewrite of_n_one in Ht'. pose proof (of_n_le 0 (below xs x) ltac:(lia)) as Hb. change (of_n 0) with 0 in Hb.
  assert (below xs x + ties xs x <= length xs)%nat as Hn by (apply count_exclusive; intros w Hw; qsimpl; apply neq_Q_false; lra).
  pose proof (of_n_le _ _ Hn) as Hn'. rewrite of_n_add in Hn'. split; [|].
  - apply Qle_trans with (0 + 1); [lra|]. apply Qplus_le_compat; [done|]. apply Qle_shift_div_l; lra.
  - assert ((of_n (ties xs x) + 1) / 2 <= of_n (ties xs x)) by (apply Qle_shift_div_r; lra). lra.
Qed.
End ranks.

(** ** The quantile bins *)

Section bins.
Variable c : Q.
Hypothesis c_nonneg : 0 <= c.
Let bin (ranked : list (Q * Q)) (q : nat) : list Q := snd <$> filter (λ rr, in_bin (of_n (q - 1) * c) (of_n q * c) rr.1 = true) ranked.

(** The first [k] bins hold what lies above zero and within [k] widths. *)
Lemma bins_filter (ranked : list (Q * Q)) k :
  Forall (λ rr, 0 < rr.1) ranked →
  concat (bin ranked <$> seq 1 k) ≡ₚ snd <$> filter (λ rr, (rr.1 <=.? of_n k * c) = true) ranked.
Proof.
  intros Hpos. induction k as [|k IH].
  - cbn [seq fmap list_fmap concat]. induction Hpos as [|[r x] l Hr _ IH]; [done|]. rewrite filter_cons. cbn [fst] in *.
    case_decide as E; [|exact IH]. qsimpl. change (of_n (F:=Q) 0) with 0 in E. lra.
  - rewrite seq_S, fmap_app, concat_app, IH. cbn [fmap list_fmap concat Nat.add]. rewrite app_nil_r. unfold bin.
    replace (S k - 1)%nat with k by lia. clear IH. pose proof (of_n_succ k) as Ek.
    induction Hpos as [|[r x] l Hr _ IH]; [done|]. rewrite !filter_cons. cbn [fst] in *.
    assert (of_n k * c <= of_n (S k) * c) as Hmono by (rewrite Ek; lra).
    assert (in_bin (of_n k * c) (of_n (S k) * c) r = negb (r <=.? of_n k * c) && (r <=.? of_n (S k) * c)) as -> by done.
    destruct (r <=.? of_n k * c) eqn:E1, (r <=.? of_n (S k) * c) eqn:E2; qsimpl; try lra;
      repeat (case_decide; try done); cbn [fmap list_fmap snd app]; rewrite <- ?IH, ?Permutation_middle; done.
Qed.
End bins.

(** ** Cauchy and Schwarz *)

Lemma qdot_cons x y xs ys : qdot (x :: xs) (y :: ys) == x * y + qdot xs ys.
Proof. reflexivity. Qed.

Lemma squared_combination (s t : Q) xs ys : length ys = length xs →
  qsum (zip_with (λ x y, (t * x - s * y) * (t * x - s * y)) xs ys) ==
  t * t * qdot xs xs - 2 * (s * t) * qdot xs ys + s * s * qdot ys ys.
Proof.
  revert ys. induction xs as [|x xs IH]; intros [|y ys] Hl; try discriminate Hl; [cbn; ring|]. injection Hl as Hl.
  cbn [zip_with]. rewrite !qdot_cons, qsum_cons, IH by done. ring.
Qed.

Lemma cauchy_schwarz xs ys : length ys = length xs → qdot xs ys * qdot xs ys <= qdot xs xs * qdot ys ys.
Proof.
  intros Hl. set (A := qdot xs xs). set (B := qdot ys ys). set (C := qdot xs ys).
  assert (∀ s t, 0 <= t * t * A - 2 * (s * t) * C + s * s * B) as Hq.
  { intros s t. pose proof (squared_combination s t xs ys Hl) as E. fold A B C in E.
    enough (0 <= qsum (zip_with (λ x y, (t * x - s * y) * (t * x - s * y)) xs ys)) by lra. apply qsum_nonneg, Forall_forall.
    intros z (x & y & -> & _)%elem_of_zip_with. apply square_nonneg_Q. }
  destruct (Qlt_le_dec 0 B) as [HB|HB].
  - specialize (Hq C B). nra.
  - specialize (Hq 0 1) as HA. pose proof (Hq 1 0) as HB'. assert (B == 0) as EB by lra. clear HB HB'.
    destruct (Qeq_dec C 0) as [EC|EC]; [rewrite EC; nra|]. exfalso.
    specialize (Hq ((A + 1) / (2 * C)) 1). rewrite EB in Hq.
    assert (1 * 1 * A - 2 * ((A + 1) / (2 * C) * 1) * C + (A + 1) / (2 * C) * ((A + 1) / (2 * C)) * 0 == -1) as E by (field; exact EC).
    lra.
Qed.

Lemma square_bound (x y : Q) : 0 < y → x * x <= y * y → - y <= x ∧ x <= y.
Proof.
  intros Hy Hxy. split; apply Qnot_lt_le; intros Hlt.
  - assert (0 < (- y - x) * (y - x)) by (apply Qmult_lt_0_compat; lra). lra.
  - assert (0 < (x - y) * (x + y)) by (apply Qmult_lt_0_compat; lra). lra.
Qed.

(** ** What the module promises *)

(** A library with the square root the witnesses need. *)
#[local] Definition NumPy_sqrt : NumPy Q := {|
  np_sum := qsum; np_dot := qdot; np_mean xs := qsum xs / inject_Z (Z.of_nat (length xs)); np_std _ _ := 1;
  np_percentile xs _ := default 0 (head xs); np_argsort := sorted_places;
  m_sqrt x := if Qeq_bool x 25 then 5 else 1; m_exp _ := 1; m_log x := x - 1; m_pow x _ := x; m_erf _ := 0
|}.
#[local] Instance NumPyExact_sqrt : @NumPyExact NumPy_sqrt.
Proof. destruct NumPyExact_Q as [H1 H2 H3 H4]. split; [exact H1|exact H2|exact H3|exact H4]. Qed.

(** [_rank] gives each value its fractional rank, one more than the
    number of values below it plus half the number of its other equals,
    whatever order [argsort] put the equals in. *)
Theorem rank_is_fractional `{NumPy Q} `{!NumPyExact}
    (Hmean : ∀ xs : list Q, np_mean xs == qsum xs / of_n (length xs)) (arr : list Q) :
  Forall2 (λ v r, r == fractional_rank arr v) arr (rank arr).
Proof.
  apply Forall2_same_length_lookup_2; [by rewrite rank_length|]. intros i v r Hv Hr.
  destruct (rank_at Hmean arr i v Hv) as (z & Hz & Ez). rewrite Hr in Hz. by injection Hz as ->.
Qed.

Lemma rank_is_fractional_witness :
  Forall2 (λ v r, r == fractional_rank [3; 1; 3; 2] v) [3; 1; 3; 2] (rank [3; 1; 3; 2]) ∧ fractional_rank [3; 1; 3; 2] 3 == 7 # 2.
Proof. split; [|reflexivity]. apply rank_is_fractional. intros xs. reflexivity. Defined.

(** The quantile bins of a cross-section share its assets out: every
    forward return is in exactly one bin. *)
Theorem quantile_bins_share_the_assets `{NumPy Q} `{!NumPyExact}
    (Hmean : ∀ xs : list Q, np_mean xs == qsum xs / of_n (length xs)) (pairs : list (Q * Q)) (k : nat) :
  (0 < k)%nat →
  concat (bin_returns (length pairs) k (zip (rank pairs.*1) pairs.*2) <$> seq 1 k) ≡ₚ pairs.*2.
Proof.
  intros Hk. set (n := length pairs). assert (0 < of_n (F:=Q) k) as Hkq by (unfold of_n, nof_Z, Qlt; cbn; lia).
  pose proof (of_n_le 0 n ltac:(lia)) as Hn. change (of_n 0) with 0 in Hn.
  assert (Forall (λ rr : Q * Q, 0 < rr.1 ∧ rr.1 <= of_n k * (of_n n ⊘ of_n k)) (zip (rank pairs.*1) pairs.*2)) as Hr.
  { apply Forall_lookup. intros i [r x] (Hr & _)%lookup_zip_Some. destruct (rank_bounds Hmean _ _ _ Hr) as [H1r Hnr].
    rewrite length_fmap in Hnr. fold n in Hnr. cbn [fst ndiv Num_Q] in *. split; [lra|].
    assert (of_n k * (of_n n / of_n k) == of_n n) as -> by (field; lra). done. }
  unfold bin_returns. etransitivity; [apply (bins_filter (of_n n ⊘ of_n k))|].
  - by apply Qdiv_nonneg.
  - eapply Forall_impl; [exact Hr|]. intros rr [? _]. done.
  - assert (∀ l : list (Q * Q), Forall (λ rr, 0 < rr.1 ∧ rr.1 <= of_n k * (of_n n ⊘ of_n k)) l →
      filter (λ rr, (rr.1 <=.? of_n k * (of_n n ⊘ of_n k)) = true) l = l) as Hall.
    { induction 1 as [|rr l [_ Hle] _ IH]; [done|]. rewrite filter_cons_True by (by apply nle_Q). by rewrite IH. }
    rewrite Hall by done. rewrite snd_zip; [done|]. rewrite rank_length, !length_fmap. done.
Qed.

Lemma quantile_bins_share_the_assets_witness :
  concat (bin_returns 4 2 (zip (rank [3; 1; 3; 2]) [10; 20; 30; 40]) <$> seq 1 2) ≡ₚ [10; 20; 30; 40].
Proof.
  refine (quantile_bins_share_the_assets _ [(3, 10); (1, 20); (3, 30); (2, 40)] 2 _); [intros xs; reflexivity|lia].
Defined.

(** An information coefficient lies between minus one and one, wherever
    the square root it divides by is the root of what it is given. *)
Theorem information_coefficient_bounded `{NumPy Q} `{!NumPyExact} (signals forward_returns : list Q) :
  length forward_returns = length signals →
  (let moments := np_sum (squares (centred (rank signals))) ⊗ np_sum (squares (centred (rank forward_returns))) in
   m_sqrt moments * m_sqrt moments == moments) →
  -1 <= spearman_ic signals forward_returns ∧ spearman_ic signals forward_returns <= 1.
Proof.
  cbv zeta. intros Hl Hsqrt. unfold spearman_ic. destruct (_ <? 4)%nat; [split; discriminate|].
  set (den := m_sqrt _) in *. destruct (den <.? _) eqn:E; [split; discriminate|]. qsimpl.
  assert (0 < den) as Hden by (eapply Qlt_le_trans; [|exact E]; reflexivity).
  pose proof (cauchy_schwarz (centred (rank signals)) (centred (rank forward_returns))) as Hcs.
  unfold centred in Hcs at 1 2. rewrite !length_fmap, !rank_length in Hcs. specialize (Hcs Hl).
  assert (∀ l : list Q, np_sum (squares l) == qdot l l) as Hsq.
  { intros l. rewrite np_sum_exact. unfold qdot. f_equiv. unfold squares. cbn [nmul Num_Q].
    induction l; [done|]. cbn. by f_equal. }
  cbn [nmul Num_Q] in Hsqrt. rewrite !Hsq in Hsqrt.
  assert (co_moment (rank signals) (rank forward_returns) == qdot (centred (rank signals)) (centred (rank forward_returns))) as Ec.
  { unfold co_moment. apply np_sum_exact. }
  set (C := qdot (centred (rank signals)) (centred (rank forward_returns))) in *. cbn [ndiv Num_Q].
  assert (C * C <= den * den) by lra. destruct (square_bound C den) as [HC1 HC2]; [done..|].
  rewrite Ec. split; [apply Qle_shift_div_l|apply Qle_shift_div_r]; lra.
Qed.

Lemma information_coefficient_bounded_witness :
  let ic := @spearman_ic Q _ NumPy_sqrt [1; 2; 3; 4] [3; 1; 2; 7] in ic == 2 # 5 ∧ -1 <= ic ∧ ic <= 1.
Proof.
  split; [reflexivity|]. apply (@information_coefficient_bounded NumPy_sqrt _ [1; 2; 3; 4] [3; 1; 2; 7]); reflexivity.
Defined.

(** C0: With fewer than six days there is no horizon to measure the decay
    over, and the report fails on the largest of none. *)
Example short_panel_has_no_report : ∃ signals : matrix Q, length signals = 5%nat ∧ ∀ prod returns N, ic_decay prod signals returns N 20%nat = None.
Proof. exists (replicate 5%nat [0; 0; 0; 0]). split; [reflexivity|]. intros. reflexivity. Qed.
