(* ===== verification/FactorModel.v ===== *)
(** backend/services/factor_model.py: exposures of N assets to factors over T
    days, the premia the factors earn, and the split of the risk between
    factors and assets. A cell that is NaN because nothing filled it is
    [None]. *)

From Stdlib Require Import QArith Qabs Lqa.
From stdpp Require Import gmap strings sorting.
From S2P Require Import Prelude Numeric StrategySignals Vectors StatTests Matrices CorrelationEngine.
#[local] Open Scope nat_scope.

Section factors.
Context {F : Type} `{Num F} `{NumPy F} `{LinAlg F}.
Variable np_prod : list F → F.
(** [np.var(x, ddof=1)] *)
Variable np_var : list F → F.

(** ** Exposures *)

Abbreviation exposures := (matrix (option F)).
(** The dict of factors, in the order they are computed. *)
Abbreviation factor_panel := (list (string * exposures)).

(** [np.isfinite] of a cell. *)
Definition finite_cell (x : option F) : option F := match x with Some v => if nfinite v then Some v else None | None => None end.

(** [np.prod(1 + window, axis=0) - 1] *)
Definition cumulative (window : list F) : F := np_prod ((λ r, n1 ⊕ r) <$> window) ⊖ n1.
Definition realised_vol (window : list F) : F := np_std 1 window ⊗ m_sqrt (nof_Z 252).
Definition consistency (window : list F) : F :=
  np_mean window ⊘ (np_std 1 window ⊕ nof_ratio 1 1000000000) ⊗ m_sqrt (nof_Z 252).

(** A statistic of each asset's window, from the day the window is full. *)
Definition rolling (f : list F → F) (lookback : nat) (returns : matrix F) (N : nat) : exposures :=
  (λ t, (λ j, if lookback <=? t then Some (f (column j (slice (t - lookback) t returns))) else None) <$> seq 0 N) <$> seq 0 (length returns).

Definition size_from_prices (prices : matrix F) (N : nat) : exposures :=
  (λ row, (λ j, let p := at_ row j in if p >.? n0 then Some (m_log p) else None) <$> seq 0 N) <$> prices.
Definition size_from_returns (returns : matrix F) (N : nat) : exposures :=
  let T := length returns in
  (λ t, (λ j, if min 252 T <=? t then Some (cumulative (column j (slice (t - 252) t returns))) else None) <$> seq 0 N) <$> seq 0 T.

Definition raw_factors (returns : matrix F) (N : nat) (prices : option (matrix F)) (lookbacks : gmap string nat) : factor_panel :=
  let lb name d := default d (lookbacks !! name) in
  let vol := rolling realised_vol (lb "volatility" 21) returns N in
  [("momentum", rolling cumulative (lb "momentum" 60) returns N);
   ("reversal", rolling (λ w, nopp (cumulative w)) (lb "reversal" 5) returns N);
   ("volatility", vol);
   ("low_volatility", map (map (option_map nopp)) vol);
   ("quality", rolling consistency (lb "quality" 60) returns N);
   ("size", match prices with Some p => size_from_prices p N | None => size_from_returns returns N end)].

(** The z-scores of a day's cells, where at least four are finite. *)
Definition normalise_row (row : list (option F)) : list (option F) :=
  let valid := omap finite_cell row in
  if length valid <? 4 then (λ _, None) <$> row
  else
    let mu := np_mean valid in
    let sd := np_std 1 valid in
    let score x := if sd <.? nof_ratio 1 1000000000 then n0 else clip (nof_Z (-3)) (nof_Z 3) ((x ⊖ mu) ⊘ sd) in
    (λ x, score <$> finite_cell x) <$> row.

Definition compute_factors (returns : matrix F) (N : nat) (prices : option (matrix F)) (lookbacks : gmap string nat) : factor_panel :=
  prod_map id (map normalise_row) <$> raw_factors returns N prices lookbacks.

(** ** Fama and MacBeth *)

Definition cell_at (m : exposures) (t i : nat) : option F := m !! t ≫= λ row, row !! i ≫= finite_cell.

(** The days of a window on which every factor and the return are finite. *)
Definition design (returns : matrix F) (factors : list exposures) (i from until : nat) : list (list F * F) :=
  omap (λ s,
    xs ← mapM (λ m, cell_at m s i) factors;
    y ← returns !! s ≫= λ row, row !! i ≫= λ y, finite_cell (Some y);
    Some (xs, y)) (seq from (until - from)).

(** [pinv(X.T @ X) @ (X.T @ y)] of [k] columns. *)
Definition least_squares (k : nat) (rows : list (list F * F)) : option (list F) :=
  let X := fst <$> rows in
  let y := snd <$> rows in
  inv ← la_pinv (square k (λ a b, np_dot (column a X) (column b X)));
  Some (matvec inv ((λ a, np_dot (column a X) y) <$> seq 0 k)).

Definition beta_window : nat := 60.

(** Pass 1: an asset's loadings from the window before [t]. *)
Definition asset_beta (returns : matrix F) (factors : list exposures) (t i : nat) : option (list F) :=
  let K := length factors in
  if K =? 0 then None
  else
    let rows := design returns factors i (t - beta_window) t in
    if length rows <? K + 2 then None else least_squares K rows.

(** Pass 2: the next day's returns on the loadings; the fit and the premia. *)
Definition cross_section (returns : matrix F) (factors : list exposures) (N t : nat) : option (F * list F) :=
  let K := length factors in
  let rows := omap (λ i,
    beta ← asset_beta returns factors t i;
    y ← returns !! (t + 1) ≫= λ row, row !! i ≫= λ y, finite_cell (Some y);
    if forallb nfinite beta then Some (n1 :: beta, y) else None) (seq 0 N) in
  if length rows <? K + 2 then None
  else
    gamma ← least_squares (K + 1) rows;
    let Y := snd <$> rows in
    let ss_res := np_sum (squares (vsub Y (matvec (fst <$> rows) gamma))) in
    let ss_tot := np_sum (squares (centred Y)) in
    let r2 := if ss_tot >.? nof_ratio 1 1000000000000 then n1 ⊖ ss_res ⊘ ss_tot else n0 in
    Some (nmax n0 r2, drop 1 gamma).

Definition nw_se (x : list F) (max_lag : nat) : F :=
  let n := length x in
  if n <? 3 then if 1 <? n then np_std 1 x ⊘ m_sqrt (of_n n) else n1
  else
    let resid := centred x in
    let gamma0 := np_sum (squares resid) ⊘ of_n n in
    let nw_var := foldl (λ v lag,
      let w := n1 ⊖ of_n lag ⊘ of_n (max_lag + 1) in
      let gamma_k := np_sum (lagged lag resid) ⊘ of_n n in
      v ⊕ nof_Z 2 ⊗ w ⊗ gamma_k) gamma0 (seq 1 max_lag) in
    m_sqrt (nmax nw_var (nof_ratio 1 1000000000000) ⊘ of_n n).

Record Premium := mkPremium {
  pm_lambda : F; pm_annualised : option F; pm_nw_se : option F; pm_t_stat : F; pm_p_value : F;
  pm_significant_5 : bool; pm_significant_1 : bool; pm_n : nat; pm_time_series : list F
}.
Definition no_premium : Premium := mkPremium n0 None None n0 n1 false false 0 [].

Definition premium (g : list F) (lags : nat) : Premium :=
  if length g <? 5 then no_premium
  else
    let lam := np_mean g in
    let se := nw_se g lags in
    let t_stat := if se >.? nof_ratio 1 1000000000000 then lam ⊘ se else n0 in
    let p_value := nof_Z 2 ⊗ (n1 ⊖ normal_cdf (nabs t_stat)) in
    mkPremium (nround lam 6) (Some (nround (lam ⊗ nof_Z 252) 4)) (Some (nround se 6)) (nround t_stat 4) (nround p_value 6)
      (p_value <.? nof_ratio 5 100) (p_value <.? nof_ratio 1 100) (length g) ((λ x, nround x 6) <$> drop (length g - 50) g).

Record FamaMacBeth := mkFamaMacBeth {
  fb_premia : list (string * Premium); fb_ranked : list (string * F); fb_mean_r2 : F; fb_n_cross_sections : nat;
  fb_n_assets : nat; fb_names : list string
}.
Inductive FactorError :=
| INSUFFICIENT_DATA (required_T required_N actual_T actual_N : nat)
| NO_CROSS_SECTIONS
| TOO_SHORT
| TOO_SHORT_TIME_SERIES
| NO_VALID_ASSETS.

(** The cross-sections of the days that have one. *)
Definition cross_sections (returns : matrix F) (factors : list exposures) (N : nat) : list (F * list F) :=
  omap (cross_section returns factors N) (seq beta_window (length returns - 1 - beta_window)).

Definition fama_macbeth (returns : matrix F) (N : nat) (panel : factor_panel) (lags : nat) : FactorError + FamaMacBeth :=
  let T := length returns in
  let names := panel.*1 in
  let K := length panel in
  if (T <? 80) || (N <? K + 2) then inl (INSUFFICIENT_DATA 80 (K + 2) T N)
  else
    let sections := cross_sections returns panel.*2 N in
    if (length sections =? 0) || (K =? 0) then inl NO_CROSS_SECTIONS
    else
      let premia := zip names ((λ k, premium (column k sections.*2) lags) <$> seq 0 K) in
      let ranked := sort_key (λ ft, nopp (nabs ft.2)) (prod_map id pm_t_stat <$> premia) in
      inr (mkFamaMacBeth premia (prod_map id (λ t, nround t 4) <$> ranked) (nround (np_mean sections.*1) 4) (length sections) N names).

(** ** Factor and specific risk *)

(** An asset's loadings and the variance they leave. *)
Definition asset_risk (returns : matrix F) (factors : list exposures) (beta_lb i : nat) : option (list F * F) :=
  let K := length factors in
  let t := length returns - 1 in
  let rows := design returns factors i (t - beta_lb) t in
  if length rows <? K + 2 then None
  else
    beta_hat ← la_lstsq (fst <$> rows) (snd <$> rows);
    Some (beta_hat, np_var (vsub (snd <$> rows) (matvec (fst <$> rows) beta_hat))).

(** The day's mean of exposure times return, over the finite pairs. *)
Definition factor_return (returns : matrix F) (N : nat) (m : exposures) (t : nat) : option F :=
  match omap (λ i, x ← cell_at m t i; y ← returns !! t ≫= λ row, row !! i ≫= λ y, finite_cell (Some y); Some (x ⊗ y)) (seq 0 N) with
  | [] => None
  | products => Some (np_mean products)
  end.

Record Barra := mkBarra {
  br_covariance : matrix F; br_names : list string; br_factor_variance : F; br_specific_variance : F;
  br_pct_factor : F; br_pct_specific : F; br_n_valid : nat
}.

(** [None]: [np.column_stack] of no columns raises. *)
Definition barra_risk_decomposition (returns : matrix F) (N : nat) (panel : factor_panel) (beta_lb : nat) : option (FactorError + Barra) :=
  let T := length returns in
  let factors := panel.*2 in
  let K := length panel in
  if (T <? beta_lb + 10) || (N <? K + 2) then Some (inl TOO_SHORT)
  else if K =? 0 then None
  else
    let risks := asset_risk returns factors beta_lb <$> seq 0 N in
    let factor_ts := omap (λ t, xs ← mapM (λ m, factor_return returns N m t) factors; if forallb nfinite xs then Some xs else None) (seq 0 T) in
    if length factor_ts <? 10 then Some (inl TOO_SHORT_TIME_SERIES)
    else
      let F_cov := la_cov factor_ts in
      let valid := filter (λ bs, forallb nfinite bs.1 = true) (omap id risks) in
      match valid with
      | [] => Some (inl NO_VALID_ASSETS)
      | _ =>
          let avg_fv := np_mean ((λ bs, np_dot (matvec (transpose K F_cov) bs.1) bs.1) <$> valid) in
          let avg_sv := np_mean ((λ bs, if nfinite bs.2 then bs.2 else n0) <$> valid) in
          let total := avg_fv ⊕ avg_sv in
          let pct_factor := if total >.? n0 then avg_fv ⊘ total else n0 in
          Some (inr (mkBarra (mat_map (λ x, nround x 6) F_cov) panel.*1 (nround (avg_fv ⊗ nof_Z 252) 6)
            (nround (avg_sv ⊗ nof_Z 252) 6) (nround pct_factor 4) (nround (n1 ⊖ pct_factor) 4) (length valid)))
      end.
End factors.

(** * Theorems

    The factor model looks back: a day's exposures come from the returns
    before it, a cross-section's loadings from the window before it. *)

#[local] Open Scope nat_scope.

Section back.
Context {F : Type} `{Num F} `{NumPy F} `{LinAlg F}.
Variable np_prod np_var : list F → F.

(** Panels that agree before day [t]. *)
Definition agree_before {A} (t : nat) (x y : list A) : Prop := length x = length y ∧ take t x = take t y.

Lemma agree_slice {A} t a (x y : list A) : agree_before t x y → slice a t x = slice a t y.
Proof. intros [_ E]. rewrite <- (slice_take a t t x), <- (slice_take a t t y) by done. by rewrite E. Qed.

Lemma agree_lookup {A} t s (x y : list A) : agree_before t x y → s < t → x !! s = y !! s.
Proof. intros [_ E] Hs. rewrite <- (lookup_take_lt x t s), <- (lookup_take_lt y t s) by done. by rewrite E. Qed.

(** A panel built day by day reads, on day [t], what its day reads. *)
Lemma by_day_lookup {A} (f g : nat → A) (n m t : nat) : n = m → f t = g t → (f <$> seq 0 n) !! t = (g <$> seq 0 m) !! t.
Proof.
  intros <- E. rewrite !list_lookup_fmap. destruct (seq 0 n !! t) as [s|] eqn:Es; [|done]. apply lookup_seq in Es as [-> _]. cbn. by rewrite E.
Qed.

Lemma rolling_before f lookback (returns returns' : matrix F) N t :
  agree_before t returns returns' → rolling f lookback returns N !! t = rolling f lookback returns' N !! t.
Proof.
  intros Ha. unfold rolling. apply by_day_lookup; [apply Ha|]. apply list_fmap_ext. intros _ j _. cbn.
  by rewrite (agree_slice t (t - lookback) _ _ Ha).
Qed.

Lemma size_before (returns returns' : matrix F) N t :
  agree_before t returns returns' → size_from_returns np_prod returns N !! t = size_from_returns np_prod returns' N !! t.
Proof.
  intros Ha. unfold size_from_returns. destruct Ha as [Hl E] eqn:Eq. apply by_day_lookup; [done|]. apply list_fmap_ext. intros _ j _. cbn.
  by rewrite (agree_slice t (t - 252) _ _ Ha), Hl.
Qed.

(** A day's cells across the factors. *)
Definition on_day (t : nat) (panel : list (string * matrix (option F))) : list (string * option (list (option F))) :=
  prod_map id (lookup t) <$> panel.

(** The exposures of a day are known before it: with sizes measured by
    returns, no factor's row for day [t] reads a return of day [t] or later. *)
Theorem exposures_look_back (returns returns' : matrix F) (N t : nat) (lookbacks : gmap string nat) :
  length returns = length returns' → take t returns = take t returns' →
  on_day t (compute_factors np_prod returns N None lookbacks) = on_day t (compute_factors np_prod returns' N None lookbacks).
Proof.
  intros Hl Ht. assert (agree_before t returns returns') as Ha by done. unfold on_day, compute_factors, raw_factors.
  cbn [fmap list_fmap prod_map fst snd id]. change (map normalise_row) with (fmap (M:=list) (normalise_row (F:=F))).
  change (map (map (option_map nopp))) with (fmap (M:=list) (map (option_map (nopp (F:=F))))).
  rewrite !list_lookup_fmap. by rewrite !(rolling_before _ _ returns returns') , (size_before returns returns').
Qed.

Lemma design_before (returns returns' : matrix F) (factors factors' : list (matrix (option F))) i a t :
  agree_before t returns returns' → Forall2 (agree_before t) factors factors' → design returns factors i a t = design returns' factors' i a t.
Proof.
  intros Ha Hf. unfold design. apply list_omap_ext, Forall2_same_length_lookup_2; [done|]. intros k s s' Hs Hs'. rewrite Hs in Hs'. injection Hs' as <-.
  apply lookup_seq in Hs as [-> Hk]. rewrite (agree_lookup t (a + k) _ _ Ha) by lia.
  assert (mapM (λ m, cell_at m (a + k) i) factors = mapM (λ m, cell_at m (a + k) i) factors') as ->; [|done].
  induction Hf as [|m m' factors factors' Hm _ IH]; [done|]. cbn [mapM]. rewrite IH. unfold cell_at.
  by rewrite (agree_lookup t (a + k) m m' Hm) by lia.
Qed.

(** Premia are measured out of sample: the cross-section of day [t] reads
    loadings estimated on the sixty days before [t] and the returns of day
    [t + 1], and nothing of day [t] itself or of any other day. *)
Theorem premia_out_of_sample (returns returns' : matrix F) (factors factors' : list (matrix (option F))) (N t : nat) :
  agree_before t returns returns' → Forall2 (agree_before t) factors factors' → returns !! (t + 1) = returns' !! (t + 1) →
  cross_section returns factors N t = cross_section returns' factors' N t.
Proof.
  intros Ha Hf Hy. unfold cross_section, asset_beta. rewrite Hy, (Forall2_length _ _ _ Hf).
  assert (∀ i, design returns factors i (t - beta_window) t = design returns' factors' i (t - beta_window) t) as Hd
    by (intros i; by apply design_before).
  match goal with |- context [omap ?f (seq 0 N)] => match goal with |- _ = ?r => match r with context [omap ?g (seq 0 N)] =>
    assert (omap f (seq 0 N) = omap g (seq 0 N)) as ->; [|done] end end end.
  apply list_omap_ext, Forall2_same_length_lookup_2; [done|]. intros k i i' Hi Hi'. rewrite Hi in Hi'. injection Hi' as <-. by rewrite Hd.
Qed.
End back.

(** Five days of three assets, and the same panel with another third day. *)
#[local] Definition days (third : list Q) : matrix Q :=
  [[1#10; 2#10; 1#10]; [2#10; 1#10; 3#10]; [1#10; 1#10; 2#10]; third; [3#10; 1#10; 1#10]]%Q.

Lemma exposures_look_back_witness :
  on_day 3 (compute_factors qsum (days [1; 2; 3]%Q) 3 None (<["momentum" := 2]> ∅)) =
  on_day 3 (compute_factors qsum (days [9; 9; 9]%Q) 3 None (<["momentum" := 2]> ∅)).
Proof. apply exposures_look_back; reflexivity. Defined.

Lemma premia_out_of_sample_witness :
  let panel third := [map (map Some) (days third)] in
  is_Some (cross_section (days [1; 2; 3]%Q) (panel [1; 2; 3]%Q) 3 3) ∧
  cross_section (days [1; 2; 3]%Q) (panel [1; 2; 3]%Q) 3 3 = cross_section (days [9; 9; 9]%Q) (panel [9; 9; 9]%Q) 3 3.
Proof.
  cbv zeta. split; [vm_compute; eexists; reflexivity|].
  apply premia_out_of_sample; [split; reflexivity|repeat constructor|reflexivity].
Defined.
