(* ===== verification/CrossSectionTasks.v ===== *)
(** backend/services/research_tasks.py: the cross-sectional tasks, from the
    parameters of a job to the result of the engine it names. Messages are kept
    without the names and numbers in them. *)

From Stdlib Require Import SpecFloat QArith.
From stdpp Require Import pretty strings sorting.
From S2P Require Import Prelude Numeric Models Json JsonText OrderedDict DatasetFormat DatasetStore ResearchJobs DatasetRegistry Schemas StrategySignals HistoricalData MarketData ResearchTasks Vectors StatTests Matrices PortfolioOpt RegimeDetection NeutralStrategies CorrelationEngine AlphaResearch FactorModel.
#[local] Open Scope nat_scope.

(** ** Matrices of a download *)

Section fetch.
Context {F : Type} `{Num F}.

(** [data["Close"][ticker]] *)
Definition close_of (data : DataFrame F) (ticker : string) : option (list (option F)) :=
  match df_columns data with
  | MultiIndex blocks => od_get "Close" blocks ≫= od_get ticker
  | FlatIndex fields => od_get "Close" fields
  end.
Definition close_frames (data : DataFrame F) (assets : list string) : list (string * list (option F)) :=
  foldl (λ d t,
    match close_of data t with
    | Some s => if 50 <? HistoricalData.count s then od_put t s d else d
    | None => d
    end) [] assets.

(** [np.diff(prices) / np.maximum(prices[:-1], 1e-9)] *)
Definition simple_returns (prices : list F) : list F :=
  zip_with (λ p q, (q ⊖ p) ⊘ np_maximum p (nof_ratio 1 1000000000)) prices (tail prices).
Definition return_rows (prices : matrix F) : matrix F :=
  zip_with (zip_with (λ p q, (q ⊖ p) ⊘ np_maximum p (nof_ratio 1 1000000000))) prices (tail prices).

Definition fetch_return_matrix (data : DataFrame F) (assets : list string) : outcome string (matrix F * matrix F * list string) :=
  if bool_decide (df_index data = []) then Raise "Failed to download market data"
  else
    let frames := close_frames data assets in
    if length frames <? 4 then Raise "too few assets had sufficient data"
    else
      let rows := filter (λ i, complete_row frames i = true) (seq 0 (length (df_index data))) in
      if length rows <? 60 then Raise "too few common trading days"
      else
        let prices := (λ i, (λ c, default n0 (default None (c.2 !! i))) <$> frames) <$> rows in
        Ret (return_rows prices, tail prices, frames.*1).

(** [None]: the download has no closes. *)
Definition fetch_single_asset (data : DataFrame F) (asset : string) : option (outcome string (list F * list F)) :=
  if bool_decide (df_index data = []) then Some (Raise "Could not fetch data")
  else
    close ← close_of data asset;
    let prices := omap id close in
    Some (if length prices <? 60 then Raise "too few trading days" else Ret (simple_returns prices, prices)).
End fetch.

(** ** What tasks make of the exposures *)

Section exposures.
Context {F : Type} `{Num F} `{NumPy F}.
Abbreviation exposures := (matrix (option F)).

(** [np.where(valid, np.maximum(last_valid, 0), 0)], if a cell is valid. *)
Definition sba_signals_of (mom : exposures) : option (list F) :=
  row ← last mom;
  if length (omap finite_cell row) =? 0 then None
  else Some ((λ x, from_option (λ v, np_maximum v n0) n0 (finite_cell x)) <$> row).

Definition all_finite (row : list (option F)) : bool := forallb (λ x, bool_decide (is_Some (finite_cell x))) row.

(** [np.nanmean(m[rows, j])], zero where it is not finite. *)
Definition mean_exposure (m : exposures) (rows : list nat) (j : nat) : F :=
  match omap (λ t, m !! t ≫= λ row, default None (row !! j)) rows with
  | [] => n0
  | xs => let v := np_mean xs in if nfinite v then v else n0
  end.

(** The rows of the last year with all momenta finite, as places in that
    year, and the means over the rows of those numbers. *)
Definition year_of (mom : exposures) : exposures := drop (length mom - min 252 (length mom)) mom.
Definition valid_days (mom : exposures) : list nat :=
  fst <$> filter (λ ir, all_finite ir.2 = true) (zip (seq 0 (length (year_of mom))) (year_of mom)).
Definition neutral_exposures (mom lvol : exposures) (N : nat) : option (matrix F) :=
  let valid_t := valid_days mom in
  if 5 <=? length valid_t
  then Some ((λ j, [mean_exposure mom valid_t j; mean_exposure lvol valid_t j]) <$> seq 0 N)
  else None.

Definition factor_of (name : string) (factors : list (string * exposures)) : exposures :=
  default [] (od_get name factors).
End exposures.

(** [sig_key_map.get(signal_type, "momentum")] *)
Definition alpha_signal (signal_type : string) : string :=
  if (signal_type =? "reversal")%string || (signal_type =? "volatility")%string || (signal_type =? "quality")%string
  then signal_type else "momentum".
Definition neutral_signal (signal_type : string) : string :=
  if (signal_type =? "volatility")%string then "low_volatility"
  else if (signal_type =? "reversal")%string || (signal_type =? "quality")%string then signal_type else "momentum".

(** ** The tasks *)

Inductive CrossResult :=
| AlphaResult (report : AlphaReport (F:=b64)) (asset_names : list string) (signal_type : string)
| FactorModelResult (fama_macbeth : FactorError + FamaMacBeth (F:=b64)) (risk : FactorError + Barra (F:=b64))
    (asset_names factors_computed : list string)
| CorrelationResult (report : CorrelationReport (F:=b64)) (asset_names : list string)
| OptimizationResult (report : option (OptimizationReport (F:=b64))) (asset_names : list string)
| RegimeResult (dashboard : Dashboard (F:=b64)) (asset period : string)
| NeutralResult (report : NeutralReport (F:=b64)) (asset_names : list string) (signal_type : string)
| PairsResult (report : option (PairsReport (F:=b64))) (asset_y asset_x : string) (n_bars : nat).

Section tasks.
Context `{NumPy b64} `{LinAlg b64}.
Variable np_prod : list b64 → b64.
Variable np_var : list b64 → b64.
Variable argsort : list (option b64) → list nat.
Variable m_pi : b64.
Variable eig_near_one : matrix b64 → option (list b64 * matrix b64).
Variable resample : nat → list b64 → list b64.
Variable random_signs : nat → nat → list b64.
Variable np_median : list b64 → b64.
Variable inv_cdf : b64 → b64.
Variable m_e : b64.

Variable lax_int : json → option Z.
Variable lax_float : json → option b64.
Variable lax_bool : json → option bool.
Variable lax_date : json → option Z.
Variable nan_in_bounds : bool.
Variable strip_other : string → string.
Variable upper_other : string → string.

Variable sha256_hex : string → string.
Variable zlib_compress : list string → string.
Variable zlib_decompress : string → Z → option (string * bool * string * string).
Variable loads_other : string → option json.
Variable root : string.
Variable max_bytes : Z.
Variable provider : SnapshotRequest → outcome string Snapshot.
Variable today : Z.

Abbreviation task A := (prog Session (option TaskError) A).
Abbreviation answer := (task (CrossResult * json * option trials_arg)).

Definition with_market {A} (names : list string) (period : string)
    (engine : outcome DataError (DataFrame b64) → outcome (option TaskError) A) : task A :=
  with_download strip_other upper_other sha256_hex zlib_compress zlib_decompress loads_other root max_bytes provider today
    names period engine.

(** [except ValueError as exc: raise TaskError(422, str(exc))] *)
Definition value_error_422 (e : DataError) : option TaskError :=
  match e with
  | MarketDataError why => Some (mkTaskError 422 why)
  | DataValueError => Some (mkTaskError 422 "data error")
  | OtherDataError => None
  end.
(** [except Exception: raise TaskError(500, detail)] *)
Definition or_500 {A} (detail : string) (x : option A) : outcome (option TaskError) A :=
  match x with Some a => Ret a | None => Raise (Some (mkTaskError 500 detail)) end.

Definition matrices (assets : list string) (r : outcome DataError (DataFrame b64))
    : outcome (option TaskError) (matrix b64 * matrix b64 * list string) :=
  match r with
  | Raise e => Raise (value_error_422 e)
  | Ret data => or_422 (fetch_return_matrix data assets)
  end.
Definition single (asset : string) (r : outcome DataError (DataFrame b64)) : outcome (option TaskError) (list b64 * list b64) :=
  match r with
  | Raise e => Raise (value_error_422 e)
  | Ret data => match fetch_single_asset data asset with Some x => or_422 x | None => Raise None end
  end.

(** A task that reads the matrices of its assets and runs an engine on them. *)
Definition on_matrices {A} (req : Data) (engine : matrix b64 → matrix b64 → list string → outcome (option TaskError) A) : task A :=
  let assets := texts_of "assets" req in
  with_market assets (text_field "period" req) (λ r,
    let! m := matrices assets r in let '(returns, prices, names) := m in engine returns prices names).

(** A cell that is NaN. *)
Definition of_cell (x : option b64) : b64 := default S754_nan x.
Definition names_json (l : list string) : json := JArr (JStr <$> l).
Definition size (l : list string) : json := JInt (Z.of_nat (length l)).

Definition alpha_research_body (params : json) : answer :=
  req ← validated (AlphaResearchRequest lax_int strip_other upper_other) params;
  let signal_type := text_field "signal_type" req in
  r ← on_matrices req (λ returns prices names,
    let N := length names in
    let factors := compute_factors np_prod returns N (Some prices) ∅ in
    let signals := factor_of (alpha_signal signal_type) factors in
    let! report := or_500 "Alpha research failed"
      (run_alpha_research np_prod (map (map of_cell) signals) returns N (nat_field "max_horizon" req)) in
    Ret (report, names));
  mret (AlphaResult r.1 r.2 signal_type,
        JObj [("n_assets", size r.2); ("signal_type", JStr signal_type); ("period", field_json "period" req)], None).
Definition alpha_research (params : json) := uses_market_data (alpha_research_body params) params.

(** [{k: v for k, v in all_factors.items() if k in req.factors}], or all. *)
Definition requested_factors {A} (wanted : list string) (factors : list (string * A)) : list (string * A) :=
  match filter (λ kv, kv.1 ∈ wanted) factors with [] => factors | l => l end.

Definition factor_model_body (params : json) : answer :=
  req ← validated (FactorModelRequest lax_int strip_other upper_other) params;
  r ← on_matrices req (λ returns prices names,
    let N := length names in
    let requested := requested_factors (texts_of "factors" req) (compute_factors np_prod returns N (Some prices) ∅) in
    let fm := fama_macbeth returns N requested (nat_field "newey_west_lags" req) in
    let! risk := or_500 "Factor model failed" (barra_risk_decomposition np_var returns N requested 60) in
    Ret (FactorModelResult fm risk names requested.*1, names, requested.*1));
  mret (r.1.1, JObj [("n_assets", size r.1.2); ("factors", names_json r.2)], None).
Definition factor_model (params : json) := uses_market_data (factor_model_body params) params.

Definition correlation_body (params : json) : answer :=
  req ← validated (CorrelationRequest lax_int lax_float nan_in_bounds strip_other upper_other) params;
  r ← on_matrices req (λ returns _ names,
    Ret (run_correlation_engine returns (length names) (float_field "ewma_halflife" req)
           (Z.to_nat <$> int_field "pca_components" req), names));
  mret (CorrelationResult r.1 r.2, JObj [("n_assets", size r.2); ("period", field_json "period" req)], None).
Definition correlation (params : json) := uses_market_data (correlation_body params) params.

Definition constraints_of (req : Data) : PortfolioConstraints b64 :=
  mkConstraints (flag "long_only" req) (float_field "min_weight" req) (float_field "max_weight" req) n1 None.

Definition portfolio_optimization_body (params : json) : answer :=
  req ← validated (PortfolioOptRequest lax_float lax_bool nan_in_bounds strip_other upper_other) params;
  let method := text_field "covariance_method" req in
  r ← on_matrices req (λ returns _ names,
    let N := length names in
    let sba_signals :=
      if flag "include_sba" req then sba_signals_of (factor_of "momentum" (compute_factors np_prod returns N None ∅)) else None in
    match run_portfolio_optimization returns N (optimisation_covariance method returns N)
            (float_field "risk_free_rate" req ⊘ nof_Z 252) (constraints_of req) sba_signals None n0 n1 with
    | Ret report => Ret (report, names)
    | Raise _ => Raise (Some (mkTaskError 500 "Optimisation failed"))
    end);
  mret (OptimizationResult r.1 r.2, JObj [("n_assets", size r.2); ("method", JStr method)], None).
Definition portfolio_optimization (params : json) := uses_market_data (portfolio_optimization_body params) params.

Definition regime_detection_body (params : json) : answer :=
  req ← validated (RegimeDetectionRequest lax_int strip_other upper_other) params;
  let asset := text_field "asset" req in
  let period := text_field "period" req in
  r ← with_market [asset] period (λ r,
    let! rp := single asset r in
    Ret (run_regime_detection m_pi eig_near_one rp.1 (Some rp.2) (nat_field "hmm_iters" req)));
  mret (RegimeResult r asset period, JObj [("asset", JStr asset); ("period", JStr period)], None).
Definition regime_detection (params : json) := uses_market_data (regime_detection_body params) params.

Definition neutral_strategy_body (params : json) : answer :=
  req ← validated (NeutralStrategyRequest lax_int lax_float lax_bool nan_in_bounds strip_other upper_other) params;
  let signal_type := text_field "signal_type" req in
  r ← on_matrices req (λ returns prices names,
    let N := length names in
    let factors := compute_factors np_prod returns N (Some prices) ∅ in
    let signals := factor_of (neutral_signal signal_type) factors in
    let exposures :=
      if flag "factor_neutral" req then neutral_exposures (factor_of "momentum" factors) (factor_of "low_volatility" factors) N
      else None in
    Ret (run_neutral_strategies argsort np_prod signals returns N exposures, names));
  mret (NeutralResult r.1 r.2 signal_type, JObj [("n_assets", size r.2); ("signal_type", JStr signal_type)], None).
Definition neutral_strategy (params : json) := uses_market_data (neutral_strategy_body params) params.

(** The closes of the pair on their common days. *)
Definition pair_prices (y x : string) (r : outcome DataError (DataFrame b64)) : outcome (option TaskError) (list b64 * list b64) :=
  let refuse {A} why : outcome (option TaskError) A := Raise (Some (mkTaskError 422 why)) in
  match r with
  | Raise (MarketDataError why) => refuse why
  | Raise _ => refuse "data error"
  | Ret raw =>
      if bool_decide (df_index raw = []) then refuse "Failed to download pair data"
      else
        let panel := aligned_panel raw [y; x] 1 in
        match od_get y (pp_close panel), od_get x (pp_close panel) with
        | Some py, Some px => if length (pp_dates panel) <? 60 then refuse "too few common trading days" else Ret (py, px)
        | _, _ => refuse "No price data"
        end
  end.

Definition pairs_trading_body (params : json) : answer :=
  req ← validated (PairsTradingRequest lax_float lax_bool nan_in_bounds strip_other upper_other) params;
  let y := text_field "asset_y" req in
  let x := text_field "asset_x" req in
  if (y =? x)%string then task_error 422 "asset_y and asset_x must be different"
  else
    r ← with_market [y; x] (text_field "period" req) (λ r,
      let! p := pair_prices y x r in
      Ret (pairs_trading_signals p.1 p.2 (float_field "entry_z" req) (float_field "exit_z" req) (flag "use_kalman" req) 60,
           length p.1));
    mret (PairsResult r.1 y x r.2, JObj [("pair", JStr (y +:+ "/" +:+ x))], None).
Definition pairs_trading (params : json) := uses_market_data (pairs_trading_body params) params.

(** ** Statistical tests *)

Definition floats_of (name : string) (req : Data) : list b64 :=
  match json_get name req with Some (JArr l) => omap (λ v, match v with JFloat x => Some x | _ => None end) l | _ => [] end.

Record TrialCount := mkTrialCount { tn_used : Z; tn_declared : Z; tn_server_counted : Z; tn_family : json }.

Definition statistical_tests (params : json) : outcome (option TaskError) (StatReport (F:=b64) * TrialCount * json) :=
  match model_validate (StatTestJob lax_int lax_float) params with
  | None => Raise None
  | Some req =>
      let returns := floats_of "returns" req in
      let n name := default 0%Z (int_field name req) in
      match run_full_stat_tests resample random_signs np_median inv_cdf m_e returns (n "n_trials") None
              (nat_field "n_bootstrap" req) (nat_field "n_permutations" req) with
      | None => Raise None
      | Some result =>
          Ret (result, mkTrialCount (n "n_trials") (n "declared") (n "server_counted") (field_json "trial_family" req),
               JObj [("n_obs", JInt (Z.of_nat (length returns))); ("n_strategies", JInt (n "n_trials"));
                     ("declared_strategies", JInt (n "declared")); ("server_counted", JInt (n "server_counted"))])
      end
  end.

(** ** Snapshots *)

(** [DatasetStore.put] of each; one that fails leaves those before it. *)
Fixpoint put_all (ds : list Dataset) (files : gmap string string) : gmap string string * outcome FormatError (list StoredDataset) :=
  match ds with
  | [] => (files, Ret [])
  | d :: ds =>
      match DatasetStore.put sha256_hex zlib_compress zlib_decompress loads_other root max_bytes d files with
      | (files, Raise e) => (files, Raise e)
      | (files, Ret s) => let '(files, r) := put_all ds files in (files, match r with Ret l => Ret (s :: l) | Raise e => Raise e end)
      end
  end.

Definition dataset_snapshot (params : json) (files : gmap string string)
    : gmap string string * outcome (option TaskError) (SnapshotRecord * json) :=
  match model_validate (DatasetSnapshotRequest lax_date strip_other upper_other today) params with
  | None => (files, Raise None)
  | Some req =>
      match make_request (texts_of "symbols" req) (date_field lax_date "start" req) (date_field lax_date "end" req) with
      | None => (files, Raise None)
      | Some request =>
          match provider request with
          | Raise why => (files, Raise (Some (mkTaskError 422 why)))
          | Ret snapshot =>
              match put_all (sn_datasets snapshot) files with
              | (files, Raise _) => (files, Raise None)
              | (files, Ret stored) =>
                  (files, Ret (mkSnapshotRecord (sn_provider snapshot) (sn_client snapshot) (sn_retrieved_at snapshot) request
                                 ((λ x, (sd_dataset_id x, sd_sha256 x)) <$> stored) (sn_unavailable snapshot),
                               JObj [("symbols", names_json (sq_symbols request)); ("datasets", names_json (sd_dataset_id <$> stored));
                                     ("unavailable", names_json (merge_sort text_le (sn_unavailable snapshot).*1))]))
              end
          end
      end
  end.
End tasks.

(** * Theorems

    The cross-sectional tasks: matrices on common days, datasets that were
    granted, and what a request cannot change. *)

#[local] Open Scope nat_scope.

(** ** The matrices of a download *)

Section matrices.
Context {F : Type} `{Num F}.

Lemma length_return_rows (prices : matrix F) : length (return_rows prices) = length (tail prices).
Proof. unfold return_rows. rewrite length_zip_with. destruct prices; cbn [length tail]; lia. Qed.

Lemma return_rows_wide N (prices : matrix F) :
  Forall (λ row, length row = N) prices → Forall (λ row, length row = N) (return_rows prices).
Proof.
  intros Hp. unfold return_rows. apply Forall_lookup. intros i row (a & b & -> & Ha & Hb)%lookup_zip_with_Some.
  rewrite length_zip_with, (Forall_lookup_1 _ _ _ _ Hp Ha).
  assert (length b = N) as ->; [|lia]. destruct prices as [|p prices]; [done|]. cbn in Hb. by apply Forall_cons in Hp as [_ Hp]; apply (Forall_lookup_1 _ _ _ _ Hp Hb).
Qed.
Lemma od_put_elem {V} k (v : V) l kv : kv ∈ od_put k v l → kv = (k, v) ∨ kv ∈ l.
Proof.
  induction l as [|[k' v'] l IH]; cbn [od_put]; [intros ->%list_elem_of_singleton; by left|].
  destruct (decide (k' = k)); intros [->|Hin]%elem_of_cons; [by left|by right; right|by right; left|].
  destruct (IH Hin); [by left|by right; right].
Qed.

(** An asset with a column of more than fifty closes. *)
Definition usable (data : DataFrame F) (t : string) : Prop :=
  ∃ col, close_of data t = Some col ∧ 50 < HistoricalData.count col.

Lemma close_frames_columns (data : DataFrame F) assets :
  NoDup (close_frames data assets).*1 ∧
  (∀ c, c ∈ close_frames data assets → close_of data c.1 = Some c.2) ∧
  ∀ t, t ∈ (close_frames data assets).*1 ↔ t ∈ assets ∧ usable data t.
Proof.
  unfold close_frames. induction assets as [|t l IH] using rev_ind.
  - split; [constructor|]. split; [by intros c []%not_elem_of_nil|]. intros t. split; [by intros []%not_elem_of_nil|by intros [[]%not_elem_of_nil _]].
  - rewrite foldl_snoc. set (d := foldl _ _ l) in *. destruct IH as (Hnd & Hcol & Hin).
    assert (∀ u, u ∈ l ++ [t] ↔ u = t ∨ u ∈ l) as Hsnoc by (intros u; rewrite elem_of_app, list_elem_of_singleton; tauto).
    assert (¬ usable data t → NoDup d.*1 ∧ (∀ c, c ∈ d → close_of data c.1 = Some c.2) ∧ ∀ u, u ∈ d.*1 ↔ u ∈ l ++ [t] ∧ usable data u) as Hskip.
    { intros Hno. split; [done|]. split; [done|]. intros u. rewrite Hin, Hsnoc. split; [tauto|]. intros [[->|?] ?]; tauto. }
    destruct (close_of data t) as [col|] eqn:E; [|apply Hskip; intros (col & E' & _); congruence].
    destruct (Nat.ltb_spec 50 (HistoricalData.count col)) as [Hc|Hc]; [|apply Hskip; intros (col' & E' & Hc'); assert (col' = col) as -> by congruence; lia].
    split; [by apply od_keys_put|]. split; [intros c [->|?]%od_put_elem; [done|by apply Hcol]|].
    assert (usable data t) as Hu by (by exists col).
    intros u. rewrite Hsnoc. split.
    + intros [->|Hd]%od_keys_put_in; [split; [by left|done]|]. apply Hin in Hd as [? ?]. tauto.
    + intros Hud. destruct (decide (u = t)) as [->|Hne].
      * apply list_elem_of_fmap. exists (t, col). split; [done|]. apply (od_get_in t). rewrite od_get_put. by rewrite decide_True.
      * assert (u ∈ d.*1) as Hd by (apply Hin; tauto). apply list_elem_of_fmap in Hd as ([u' v] & -> & Hd). cbn [fst] in *.
        apply list_elem_of_fmap. exists (u', v). split; [done|]. apply (od_get_in u'). rewrite od_get_put, decide_False by done.
        by apply od_get_elem.
Qed.

(** A row of prices: the closes of one day of the download. *)
Definition day_closes (data : DataFrame F) (names : list string) (day : nat) (row : list F) : Prop :=
  Forall2 (λ name x, ∃ col, close_of data name = Some col ∧ col !! day = Some (Some x)) names row.

Lemma complete_row_closes (data : DataFrame F) (frames : list (string * list (option F))) i :
  (∀ c, c ∈ frames → close_of data c.1 = Some c.2) → complete_row frames i = true →
  day_closes data frames.*1 i ((λ c, default n0 (default None (c.2 !! i))) <$> frames).
Proof.
  intros Hin Hc. unfold complete_row in Hc. rewrite forallb_forall in Hc. setoid_rewrite <- list_elem_of_In in Hc.
  induction frames as [|c frames IH]; constructor.
  - exists c.2. split; [apply Hin; by left|]. specialize (Hc c ltac:(by left)). apply bool_decide_eq_true in Hc as [x Hx].
    destruct (c.2 !! i) as [o|]; cbn in *; [|done]. by subst o.
  - apply IH; intros c' Hc'; [apply Hin|apply Hc]; by right.
Qed.

Lemma closes_complete_row (data : DataFrame F) (frames : list (string * list (option F))) i row :
  (∀ c, c ∈ frames → close_of data c.1 = Some c.2) → day_closes data frames.*1 i row → complete_row frames i = true.
Proof.
  intros Hin Hd. unfold complete_row. rewrite forallb_forall. setoid_rewrite <- list_elem_of_In. intros c Hc.
  apply list_elem_of_lookup in Hc as [k Hk]. pose proof (list_lookup_fmap fst frames k) as Hk1. rewrite Hk in Hk1.
  destruct (Forall2_lookup_l _ _ _ _ _ Hd Hk1) as (x & _ & col & E & Hx).
  rewrite (Hin c) in E by (by eapply list_elem_of_lookup_2). injection E as ->. apply bool_decide_eq_true. rewrite Hx. by eexists.
Qed.

Lemma filter_seq_sorted (P : nat → Prop) `{!∀ x, Decision (P x)} a n : StronglySorted Nat.lt (filter P (seq a n)).
Proof.
  revert a. induction n as [|n IH]; intros a; [constructor|]. cbn [seq]. rewrite filter_cons. destruct (decide (P a)); [|done].
  constructor; [done|]. apply Forall_forall. intros x [_ Hx%elem_of_seq]%list_elem_of_filter. lia.
Qed.

(** C28: The matrices of a cross-sectional task line up. The names are the
    assets asked for that have more than fifty closes, each once, at least
    four of them; the days used are, in order, exactly those of the download
    on which every one of them has a close, at least sixty; the prices are the
    closes of those days after the first, a row per day in the order of the
    names; and row by row the returns are the change from the day before over
    the price of the day before (floored at 1e-9). *)
Theorem matrices_line_up (data : DataFrame F) assets returns prices names :
  fetch_return_matrix data assets = Ret (returns, prices, names) →
  NoDup names ∧ 4 <= length names ∧ (∀ t, t ∈ names ↔ t ∈ assets ∧ usable data t) ∧
  ∃ days all,
    StronglySorted Nat.lt days ∧ 60 <= length days ∧
    (∀ day, day ∈ days ↔ day < length (df_index data) ∧ ∃ row, day_closes data names day row) ∧
    Forall2 (day_closes data names) days all ∧ prices = tail all ∧ length returns = length prices ∧
    ∀ t before after, all !! t = Some before → prices !! t = Some after →
      returns !! t = Some (zip_with (λ p q, (q ⊖ p) ⊘ np_maximum p (nof_ratio 1 1000000000)) before after).
Proof.
  unfold fetch_return_matrix. destruct (bool_decide _); [done|]. destruct (_ <? 4) eqn:E4; [done|]. apply Nat.ltb_ge in E4.
  set (rows := filter _ _). destruct (length rows <? 60) eqn:E60; [done|]. apply Nat.ltb_ge in E60.
  set (all := _ <$> rows). intros [= <- <- <-]. destruct (close_frames_columns data assets) as (Hnd & Hcol & Hin).
  split; [done|]. split; [by rewrite length_fmap|]. split; [exact Hin|]. exists rows, all.
  split; [apply filter_seq_sorted|]. split; [done|]. split; [|split; [|split; [done|split; [apply length_return_rows|]]]].
  - intros day. unfold rows. rewrite list_elem_of_filter, elem_of_seq. split.
    + intros [Hc ?]. split; [lia|]. eexists. by apply complete_row_closes.
    + intros [? [row Hrow]]. split; [by eapply closes_complete_row|lia].
  - apply Forall2_fmap_r, Forall2_same_length_lookup_2; [done|]. intros k i j Hi Hj. rewrite Hi in Hj. injection Hj as <-.
    apply list_elem_of_lookup_2, list_elem_of_filter in Hi as [Hc _]. by apply complete_row_closes.
  - intros t before after Hb Ha. unfold return_rows. apply lookup_zip_with_Some. by exists before, after.
Qed.
End matrices.

(** ** Exposures for neutralisation *)

Section exposures.
Context {F : Type} `{Num F} `{NumPy F}.

(** A place among the valid days of the last year is below 252. *)
Lemma valid_days_bound (mom : matrix (option F)) t : t ∈ valid_days mom → t < 252.
Proof.
  unfold valid_days. intros ([i row] & -> & [_ Hin]%list_elem_of_filter)%list_elem_of_fmap. apply list_elem_of_lookup in Hin as [k Hk].
  apply lookup_zip_Some in Hk as [Hi _]. apply lookup_seq in Hi as [-> Hlt]. cbn. unfold year_of in Hlt. rewrite length_drop in Hlt. lia.
Qed.

(** The exposures to neutralise are averaged over the first year of the
    sample, whichever days of the last year were found valid: what an asset's
    volatility exposure was after the first 252 days does not matter. *)
Theorem last_year_is_not_averaged (mom lvol lvol' : matrix (option F)) N :
  take 252 lvol = take 252 lvol' → neutral_exposures mom lvol N = neutral_exposures mom lvol' N.
Proof.
  intros E. unfold neutral_exposures. destruct (5 <=? _); [|done]. f_equal. apply list_fmap_ext. intros _ j _. do 2 f_equal.
  unfold mean_exposure.
  assert (omap (λ t, lvol !! t ≫= λ row, default None (row !! j)) (valid_days mom) =
          omap (λ t, lvol' !! t ≫= λ row, default None (row !! j)) (valid_days mom)) as ->; [|done].
  apply list_omap_ext, Forall2_same_length_lookup_2; [done|]. intros k t t' Ht Ht'. rewrite Ht in Ht'. injection Ht' as <-.
  assert (t < 252) as Hlt by (eapply valid_days_bound, list_elem_of_lookup_2; exact Ht).
  rewrite <- (lookup_take_lt lvol 252 t), <- (lookup_take_lt lvol' 252 t) by done. by rewrite E.
Qed.
End exposures.

(** ** The tasks *)

Section tasks.
Context `{NumPy b64} `{LinAlg b64}.
Variable np_prod : list b64 → b64.
Variable np_var : list b64 → b64.
Variable argsort : list (option b64) → list nat.
Variable m_pi : b64.
Variable eig_near_one : matrix b64 → option (list b64 * matrix b64).
Variable lax_int : json → option Z.
Variable lax_float : json → option b64.
Variable lax_bool : json → option bool.
Variable nan_in_bounds : bool.
Variable strip_other : string → string.
Variable upper_other : string → string.
Variable sha256_hex : string → string.
Variable zlib_compress : list string → string.
Variable zlib_decompress : string → Z → option (string * bool * string * string).
Variable loads_other : string → option json.
Variable root : string.
Variable max_bytes : Z.
Variable provider : SnapshotRequest → outcome string Snapshot.
Variable today : Z.

#[local] Abbreviation over t := (t strip_other upper_other sha256_hex zlib_compress zlib_decompress loads_other root max_bytes provider today).
Definition cross_sectional_tasks : list (json → gmap string string → Session * outcome (option TaskError) (TaskOutput CrossResult)) :=
  [over (alpha_research np_prod lax_int); over (factor_model np_prod np_var lax_int);
   over (correlation lax_int lax_float nan_in_bounds); over (portfolio_optimization np_prod lax_float lax_bool nan_in_bounds);
   over (regime_detection m_pi eig_near_one lax_int);
   over (neutral_strategy np_prod argsort lax_int lax_float lax_bool nan_in_bounds);
   over (pairs_trading lax_float lax_bool nan_in_bounds)].

Ltac cross_granted :=
  eapply triple_bind; [apply validated_granted|]; intros ?; cbn beta zeta;
  try (case_match; [by intros ? ?|]);
  eapply triple_bind; [apply with_download_granted|]; intros ?; by apply triple_ret.

(** A cross-sectional task that is given datasets reads those and nothing
    else: it asks no provider and stores nothing, and the datasets its result
    names are among the ones its request named. *)
Theorem cross_sections_use_granted_datasets run params ids files :
  run ∈ cross_sectional_tasks → requested_ids params = Some ids → ids ≠ [] →
  ms_files (run params files).1 = files ∧
  ∀ out, (run params files).2 = Ret out →
    let m := to_market_data out in
    mr_source m = "datasets" ∧ mr_snapshots m = [] ∧ ∀ d, d ∈ mr_datasets m → d ∈ ids.
Proof.
  intros Hrun Hids Hne. unfold cross_sectional_tasks in Hrun. repeat setoid_rewrite elem_of_cons in Hrun.
  destruct Hrun as [->|[->|[->|[->|[->|[->|[->|[]%not_elem_of_nil]]]]]]];
    apply reads_granted; try done; unfold on_matrices, with_market; cross_granted.
Qed.

(** The books of the neutral strategy are not the ones a request asks for: the
    numbers of long and short positions and the volatility target it may give
    change nothing. *)
Theorem neutral_books_ignore_the_request params params' req req' files :
  let schema := NeutralStrategyRequest lax_int lax_float lax_bool nan_in_bounds strip_other upper_other in
  model_validate schema params = Some req → model_validate schema params' = Some req' →
  requested_ids params = requested_ids params' →
  Forall (λ k, json_get k req = json_get k req') ["assets"; "period"; "signal_type"; "factor_neutral"] →
  over (neutral_strategy np_prod argsort lax_int lax_float lax_bool nan_in_bounds) params files =
  over (neutral_strategy np_prod argsort lax_int lax_float lax_bool nan_in_bounds) params' files.
Proof.
  intros schema Hv Hv' Hids Hsame. rewrite !Forall_cons in Hsame. destruct Hsame as (Ha & Hp & Hs & Hf & _).
  unfold neutral_strategy, uses_market_data, neutral_strategy_body, validated. fold schema. rewrite Hv, Hv', Hids.
  unfold mbind, prog_bind, mret, prog_ret, on_matrices, texts_of, text_field, flag. by rewrite Ha, Hp, Hs, Hf.
Qed.
End tasks.

#[local] Definition flat_frame : DataFrame Q :=
  mkDataFrame (Z.of_nat <$> seq 0 60) (MultiIndex [("Close", (λ t, (t, replicate 60 (Some 1%Q))) <$> ["A"; "B"; "C"; "D"])]).

Lemma matrices_line_up_witness :
  ∃ m, fetch_return_matrix flat_frame ["B"; "A"; "D"; "C"] = Ret m ∧ length m.1.1 = length m.1.2 ∧ ("A" ∈ m.2).
Proof.
  destruct (fetch_return_matrix flat_frame ["B"; "A"; "D"; "C"]) as [[[r p] n]|e] eqn:E; [|vm_compute in E; discriminate E].
  exists (r, p, n). split; [reflexivity|]. destruct (matrices_line_up _ _ _ _ _ E) as (_ & _ & Hn & days & all & _ & _ & _ & _ & _ & Hl & _).
  split; [exact Hl|]. apply Hn. split; [right; by left|].
  destruct (close_of flat_frame "A") as [col|] eqn:Ea; [|vm_compute in Ea; discriminate Ea]. exists col. split; [exact Ea|].
  vm_compute in Ea. injection Ea as <-. apply Nat.ltb_lt. vm_compute. reflexivity.
Defined.

(** A library for the next witness. *)
#[local] Instance NumPy_zero : NumPy b64 := {|
  np_sum _ := n0; np_dot _ _ := n0; np_mean _ := n0; np_std _ _ := n0; np_percentile _ _ := n0; np_argsort _ := [];
  m_sqrt x := x; m_exp x := x; m_log x := x; m_pow x _ := x; m_erf x := x
|}.
#[local] Instance LinAlg_zero : LinAlg b64 := {|
  la_cov m := m; la_corrcoef m := m; la_pinv m := Some m; la_eigvalsh _ := [n0]; la_svd m := ([], m); la_lstsq _ b := Some b
|}.

Lemma cross_sections_use_granted_datasets_witness :
  let run := regime_detection n0 (λ _, None) (λ j, match j with JInt z => Some z | _ => None end) (λ s, s) (λ s, s) (λ s, s)
    (λ l, String.concat "" l) (λ _ _, None) (λ _, None) "/data" 1000%Z (λ _, Raise "asked") 0%Z in
  requested_ids sample_job = Some [lost_dataset] ∧
  (∃ why, (run sample_job {["kept" := "bytes"]}).2 = Raise (Some (mkTaskError 422 why))) ∧
  ms_files (run sample_job {["kept" := "bytes"]}).1 = {["kept" := "bytes"]}.
Proof.
  cbn zeta. split; [by vm_compute|]. split; [eexists; vm_compute; reflexivity|].
  refine (proj1 (cross_sections_use_granted_datasets (λ _, n0) (λ _, n0) (λ _, []) n0 (λ _, None)
    (λ j, match j with JInt z => Some z | _ => None end) (λ _, None) (λ _, None) false (λ s, s) (λ s, s) (λ s, s)
    (λ l, String.concat "" l) (λ _ _, None) (λ _, None) "/data" 1000%Z (λ _, Raise "asked") 0%Z
    _ sample_job [lost_dataset] {["kept" := "bytes"]} _ _ _)).
  - do 4 right. by left.
  - by vm_compute.
  - discriminate.
Defined.
