(* ===== verification/SignalStream.v ===== *)
(** backend/main.py: the signal stream of a WebSocket, and the slots that
    limit how many a user has open across the workers. Redis is a clocked map
    of counters; whether each of its commands succeeds is an argument. *)

From Stdlib Require Import QArith.
From stdpp Require Import strings gmap sorting.
From S2P Require Import Prelude Numeric Models DatasetRegistry SignalEngine.
#[local] Open Scope Z_scope.

Definition WS_MAX_PER_USER : Z := 3.
Definition WS_PUSH_INTERVAL : Z := 30.
Definition WS_MAX_MESSAGE_SIZE : Z := 65536.
Definition WS_COUNTER_TTL : Z := 120.

(** ** Counters *)

(** A counter, and when it expires; times are seconds of Redis's clock. *)
Record Counter := mkCounter { ct_count : Z; ct_expires : option Z }.
Definition live (now : Z) (c : Counter) : bool := match ct_expires c with Some e => now <? e | None => true end.
Abbreviation counters := (gmap string Counter).

(** What a command finds under a key: nothing that has expired. *)
Definition find_live (now : Z) (key : string) (r : counters) : option Counter :=
  c ← r !! key; if live now c then Some c else None.
Definition or_zero (c : option Counter) : Counter := default (mkCounter 0 None) c.

(** [INCR], [DECR]: the count and the new count; an expiry stays. *)
Definition redis_add (now : Z) (key : string) (d : Z) (r : counters) : counters * Z :=
  let c := or_zero (find_live now key r) in
  (<[key := mkCounter (ct_count c + d) (ct_expires c)]> r, ct_count c + d).
Definition redis_incr now key r := redis_add now key 1 r.
Definition redis_decr now key r := redis_add now key (-1) r.
Definition redis_expire (now : Z) (key : string) (ttl : Z) (r : counters) : counters :=
  match find_live now key r with Some c => <[key := mkCounter (ct_count c) (Some (now + ttl))]> r | None => r end.
Definition redis_set (now : Z) (key : string) (v ttl : Z) (r : counters) : counters := <[key := mkCounter v (Some (now + ttl))]> r.

(** ** Slots *)

Record Slots := mkSlots { sl_redis : counters; sl_connections : gmap string Z }.
#[global] Instance eta_Slots : Eta Slots := λ s, mkSlots (sl_redis s) (sl_connections s).

(** Which commands of a call raise. *)
Record RedisAnswers := mkAnswers { ra_incr : bool; ra_expire : bool; ra_decr : bool; ra_set : bool }.
Definition all_answer : RedisAnswers := mkAnswers true true true true.

Section slots.
(** [_redis_client is not None], and [ENVIRONMENT == "production"] *)
Variable redis : bool.
Variable production : bool.

Definition ws_key (user_id : string) : string := "qs:ws:conn:" +:+ user_id.

Definition local_count (user_id : string) (s : Slots) : Z := default 0 (sl_connections s !! user_id).

(** The part after Redis, or without it. *)
Definition acquire_local (user_id : string) (s : Slots) : Slots * (bool * bool) :=
  let s := s <| sl_connections ::= <[user_id := local_count user_id s]> |> in
  if WS_MAX_PER_USER <=? local_count user_id s then (s, (false, false))
  else (s <| sl_connections ::= <[user_id := local_count user_id s + 1]> |>, (true, false)).

(** [_ws_acquire]: acquired, and counted in Redis. *)
Definition ws_acquire (a : RedisAnswers) (now : Z) (user_id : string) (s : Slots) : Slots * (bool * bool) :=
  let failed s := if production then (s, (false, false)) else acquire_local user_id s in
  if negb redis then acquire_local user_id s
  else if negb (ra_incr a) then failed s
  else
    let '(r, count) := redis_incr now (ws_key user_id) (sl_redis s) in
    let s := s <| sl_redis := r |> in
    if negb (ra_expire a) then failed s
    else
      let s := s <| sl_redis ::= redis_expire now (ws_key user_id) WS_COUNTER_TTL |> in
      if WS_MAX_PER_USER <? count then
        if negb (ra_decr a) then failed s
        else (s <| sl_redis ::= λ r, (redis_decr now (ws_key user_id) r).1 |>, (false, false))
      else (s, (true, true)).

(** [_ws_release] *)
Definition ws_release (a : RedisAnswers) (now : Z) (user_id : string) (counted_in_redis : bool) (s : Slots) : Slots :=
  if counted_in_redis then
    if negb (ra_decr a) then s
    else
      let '(r, count) := redis_decr now (ws_key user_id) (sl_redis s) in
      let s := s <| sl_redis := r |> in
      if (count <? 0) && ra_set a then s <| sl_redis ::= redis_set now (ws_key user_id) 0 WS_COUNTER_TTL |> else s
  else s <| sl_connections ::= <[user_id := Z.max 0 (local_count user_id s - 1)]> |>.
End slots.

(** ** Many sockets at once

    In production the workers' commands reach Redis one at a time, in any
    order and at any times. A socket has been counted, or has been granted its
    slot, or found the counter below zero when it gave its slot back and is
    about to reset it. Two things are kept for the statements only: for each
    count that was left behind (a lost reply, a failed command, a worker that
    died) its user; and the users whose counter expired while they had
    sockets. *)
Inductive Phase := Counted (count : Z) | Granted | Resetting.
Record Deployment := mkDeployment {
  dp_redis : counters; dp_sockets : list (string * Phase); dp_leaks : list string; dp_lapsed : gset string
}.

Definition of_user (u : string) (s : string * Phase) : bool := (s.1 =? u)%string.
Definition number (p : string * Phase → bool) (ss : list (string * Phase)) : Z := Z.of_nat (length (filter (λ s, p s = true) ss)).
Definition leaked (u : string) (l : list string) : Z := Z.of_nat (length (filter (λ v, v = u) l)).

(** A command on a user's key finds the key gone when it has expired. *)
Definition touch (now : Z) (u : string) (d : Deployment) : Deployment :=
  match dp_redis d !! ws_key u with
  | Some c =>
      if live now c then d
      else mkDeployment (delete (ws_key u) (dp_redis d)) (dp_sockets d) (filter (λ v, v ≠ u) (dp_leaks d))
             (if number (of_user u) (dp_sockets d) =? 0 then dp_lapsed d else {[u]} ∪ dp_lapsed d)
  | None => d
  end.

Inductive slot_step : Deployment → Deployment → Prop :=
| StepIncr now u d r ss k l :
    touch now u d = mkDeployment r ss k l →
    slot_step d (mkDeployment (redis_incr now (ws_key u) r).1 ((u, Counted (redis_incr now (ws_key u) r).2) :: ss) k l)
| StepIncrLost now u d r ss k l :
    (* counted, but the reply is lost: the socket is refused *)
    touch now u d = mkDeployment r ss k l →
    slot_step d (mkDeployment (redis_incr now (ws_key u) r).1 ss (u :: k) l)
| StepExpire now u d r ss k l :
    (* by an attempt, or by a push of an open socket *)
    touch now u d = mkDeployment r ss k l →
    slot_step d (mkDeployment (redis_expire now (ws_key u) WS_COUNTER_TTL r) ss k l)
| StepGrant u count r l1 l2 k l :
    (WS_MAX_PER_USER <? count) = false →
    slot_step (mkDeployment r (l1 ++ (u, Counted count) :: l2) k l) (mkDeployment r (l1 ++ (u, Granted) :: l2) k l)
| StepRefuse now u count d r l1 l2 k l :
    (WS_MAX_PER_USER <? count) = true → touch now u d = mkDeployment r (l1 ++ (u, Counted count) :: l2) k l →
    slot_step d (mkDeployment (redis_decr now (ws_key u) r).1 (l1 ++ l2) k l)
| StepRelease now u d r l1 l2 k l :
    touch now u d = mkDeployment r (l1 ++ (u, Granted) :: l2) k l →
    slot_step d (mkDeployment (redis_decr now (ws_key u) r).1
                   (if (redis_decr now (ws_key u) r).2 <? 0 then l1 ++ (u, Resetting) :: l2 else l1 ++ l2) k l)
| StepReset now u r l1 l2 k l :
    slot_step (mkDeployment r (l1 ++ (u, Resetting) :: l2) k l)
      (mkDeployment (redis_set now (ws_key u) 0 WS_COUNTER_TTL r) (l1 ++ l2) k l)
| StepAbandon u phase r l1 l2 k l :
    (* EXPIRE or DECR raised, or the worker died *)
    slot_step (mkDeployment r (l1 ++ (u, phase) :: l2) k l) (mkDeployment r (l1 ++ l2) (u :: k) l).

Definition nobody : Deployment := mkDeployment ∅ [] [] ∅.
Definition slots_reachable : Deployment → Prop := rtc slot_step nobody.

Definition holds (user_id : string) (s : string * Phase) : bool :=
  (s.1 =? user_id)%string && match s.2 with Granted => true | Counted _ | Resetting => false end.
Definition held (user_id : string) (ss : list (string * Phase)) : Z := number (holds user_id) ss.

(** ** The stream *)

Section stream.
Context {F : Type} `{Num F}.
(** The order in which Python iterates over a set. *)
Variable set_order : list string → list string.

Definition WS_EXPIRY_GRACE : F := nof_ratio 25 100.

(** The signals of the wanted assets, and those the basket does not have. *)
Definition personalised (wanted : list string) (signals : list (Signal (F:=F))) (single : string → option (Signal (F:=F)))
    : list (Signal (F:=F)) :=
  let filtered := filter (λ s, sg_asset s ∈ wanted) signals in
  filtered ++ omap single (set_order (filter (λ t, t ∉ sg_asset <$> filtered) (remove_dups wanted))).

Record Push := mkPush {
  pu_generated_at : F; pu_signals : list (Signal (F:=F)); pu_n_assets : nat; pu_total_assets : nat;
  pu_watchlist : list string; pu_sequence : nat
}.

Definition push_of (watchlist : list string) (data : Response (F:=F)) (single : string → option (Signal (F:=F))) (seq : nat) : Push :=
  let filtered := personalised watchlist (rp_signals data) single in
  mkPush (rp_generated_at data) filtered (length filtered) (rp_n_assets data) (merge_sort text_le (remove_dups watchlist)) seq.

(** What the client does within the push interval. *)
Inductive ClientEvent := Silent | Message (bytes : Z) | Disconnected | Broken.

(** A cycle: when it starts; the watchlist read, or none of an account that is
    gone, or no answer of the database; the response, if it could be had; what single assets answer; whether
    the push could be sent; and what the client did. *)
Record Cycle := mkCycle {
  cy_now : F; cy_watchlist : option (option (list string)); cy_data : option (Response (F:=F));
  cy_single : string → option (Signal (F:=F)); cy_sent : bool; cy_client : ClientEvent
}.

(** How the loop is left. *)
Inductive Ending := Closed (code : Z) (reason : string) | Abandoned.

Definition stream_cycle (deadline : F) (seq : nat) (c : Cycle) : list Push * (Ending + nat) :=
  if deadline ⊖ cy_now c <=.? WS_EXPIRY_GRACE then ([], inl (Closed 4401 "session expired"))
  else
    match cy_watchlist c, cy_data c with
    | None, _ | Some (Some _), None => ([], inl Abandoned)
    | Some None, _ => ([], inl (Closed 4401 "account inactive"))
    | Some (Some watchlist), Some data =>
        if negb (cy_sent c) then ([], inl Abandoned)
        else
          ([push_of watchlist data (cy_single c) seq],
           match cy_client c with
           | Silent => inr (S seq)
           | Message bytes => if WS_MAX_MESSAGE_SIZE <? bytes then inl (Closed 1009 "message too large") else inr (S seq)
           | Disconnected | Broken => inl Abandoned
           end)
    end.

(** The loop over the cycles it has; [None] while it goes on. *)
Fixpoint stream_loop (deadline : F) (seq : nat) (cycles : list Cycle) : list Push * option Ending :=
  match cycles with
  | [] => ([], None)
  | c :: cycles =>
      let '(pushes, next) := stream_cycle deadline seq c in
      match next with
      | inl e => (pushes, Some e)
      | inr seq => let '(later, e) := stream_loop deadline seq cycles in (pushes ++ later, e)
      end
  end.

(** The wait for a message: [max(0.0, min(_WS_PUSH_INTERVAL, deadline - now))] *)
Definition receive_timeout (deadline now : F) : F := nmax n0 (nmin (nof_Z WS_PUSH_INTERVAL) (deadline ⊖ now)).

(** The subprotocols a client offers, of the split header. *)
Definition subprotocol (offered : list string) : option string := if decide ("qs" ∈ offered) then Some "qs" else None.

(** A token's claims: the user and the expiry. *)
Record Access := mkAccess { ac_sub : string; ac_exp : F }.

Record StreamEnv := mkStreamEnv {
  en_cors_origins : list string; en_redis : bool; en_production : bool;
  en_acquire : RedisAnswers; en_release : RedisAnswers; en_redis_now : Z; en_redis_end : Z; en_wall : F; en_monotonic : F
}.

(** [signal_stream]: what it accepted, pushed and how it ended; [None] when it
    still runs. *)
Definition signal_stream (e : StreamEnv) (origin : option string) (token : option Access) (offered : list string)
    (first_watchlist : option (list string)) (cycles : list Cycle) (s : Slots)
    : Slots * (option (option string) * list Push * option Ending) :=
  let origin_ok := bool_decide ("*" ∈ en_cors_origins e) || from_option (λ o, bool_decide (o ∈ en_cors_origins e)) false origin in
  match token with
  | Some payload =>
      if negb origin_ok then (s, (None, [], Some (Closed 4401 "")))
      else
        let user_id := ac_sub payload in
        let deadline := en_monotonic e ⊕ (ac_exp payload ⊖ en_wall e) in
        let '(s, (acquired, in_redis)) := ws_acquire (en_redis e) (en_production e) (en_acquire e) (en_redis_now e) user_id s in
        if negb acquired then (s, (None, [], Some (Closed 4429 "")))
        else
          let released := ws_release (en_release e) (en_redis_end e) user_id in_redis s in
          match first_watchlist with
          | None => (released, (None, [], Some (Closed 4401 "")))
          | Some _ =>
              let '(pushes, ending) := stream_loop deadline 0 cycles in
              (match ending with Some _ => released | None => s end, (Some (subprotocol offered), pushes, ending))
          end
  | None => (s, (None, [], Some (Closed 4401 "")))
  end.
End stream.

(** * Theorems

    The stream's slots stay within the limit across workers, and what it
    pushes goes to a session that has not expired. *)

#[local] Open Scope Z_scope.

(** ** Counters *)

Definition count_at (user_id : string) (r : counters) : Z := from_option ct_count 0 (r !! ws_key user_id).

Lemma ws_key_inj u v : ws_key u = ws_key v → u = v.
Proof. intros E. by apply (inj (String.append _)) in E. Qed.

(** The counter of a user is there or has not expired. *)
Definition fresh (now : Z) (u : string) (r : counters) : Prop := ∀ c, r !! ws_key u = Some c → live now c = true.

Lemma find_fresh now u r : fresh now u r → find_live now (ws_key u) r = r !! ws_key u.
Proof. intros Hr. unfold find_live. destruct (r !! ws_key u) as [c|] eqn:E; [|done]. cbn. by rewrite (Hr c E). Qed.

Lemma count_at_insert u v c r : count_at v (<[ws_key u := c]> r) = if decide (u = v) then ct_count c else count_at v r.
Proof.
  unfold count_at. destruct (decide (u = v)) as [->|Hne]; [by rewrite lookup_insert_eq|].
  rewrite lookup_insert_ne; [done|]. by intros E%ws_key_inj.
Qed.

Lemma redis_add_count now u v d r : fresh now u r →
  count_at v (redis_add now (ws_key u) d r).1 = count_at v r + (if decide (u = v) then d else 0) ∧
  (redis_add now (ws_key u) d r).2 = count_at u r + d.
Proof.
  intros Hr. unfold redis_add. rewrite find_fresh by done. cbn [fst snd]. rewrite count_at_insert. cbn [ct_count].
  assert (ct_count (or_zero (r !! ws_key u)) = count_at u r) as -> by (unfold count_at, or_zero; by destruct (r !! ws_key u)).
  destruct (decide (u = v)) as [->|]; split; lia.
Qed.

Lemma redis_expire_count now u v ttl r : count_at v (redis_expire now (ws_key u) ttl r) = count_at v r.
Proof.
  unfold redis_expire, find_live. destruct (r !! ws_key u) as [c|] eqn:E; [|done]. cbn. destruct (live now c); [|done].
  rewrite count_at_insert. destruct (decide (u = v)) as [->|]; [|done]. unfold count_at. by rewrite E.
Qed.

(** ** The invariant *)

(** A socket that has its slot, or that its count entitles to one. *)
Definition admitted (u : string) (s : string * Phase) : bool :=
  of_user u s && match s.2 with Granted => true | Counted c => negb (WS_MAX_PER_USER <? c) | Resetting => false end.

Lemma number_cons p s ss : number p (s :: ss) = (if p s then 1 else 0) + number p ss.
Proof. unfold number. rewrite filter_cons. destruct (p s); case_decide; try done; cbn [length]; lia. Qed.

Lemma number_middle p s l1 l2 : number p (l1 ++ s :: l2) = (if p s then 1 else 0) + number p (l1 ++ l2).
Proof. unfold number. rewrite !filter_app, filter_cons. destruct (p s); case_decide; try done; rewrite !length_app; cbn [length]; lia. Qed.

Lemma number_nonneg p ss : 0 <= number p ss.
Proof. unfold number. lia. Qed.

Lemma number_le (p q : string * Phase → bool) ss : (∀ s, p s = true → q s = true) → number p ss <= number q ss.
Proof.
  intros Hpq. induction ss as [|s ss IH]; [done|]. rewrite !number_cons. specialize (Hpq s). destruct (p s); [rewrite Hpq by done|destruct (q s)]; lia.
Qed.

Lemma leaked_cons u v k : leaked u (v :: k) = (if decide (v = u) then 1 else 0) + leaked u k.
Proof. unfold leaked. rewrite filter_cons. destruct (decide (v = u)); cbn [length]; lia. Qed.
Lemma leaked_nonneg u k : 0 <= leaked u k.
Proof. unfold leaked. lia. Qed.
Lemma leaked_other u v k : leaked u (filter (λ w, w ≠ v) k) = if decide (u = v) then 0 else leaked u k.
Proof.
  induction k as [|w k IH]; [by destruct (decide (u = v))|]. rewrite filter_cons. destruct (decide (w ≠ v)) as [Hw|Hw].
  - rewrite !leaked_cons, IH. destruct (decide (u = v)) as [->|]; [|lia]. by rewrite decide_False by congruence.
  - apply dec_stable in Hw. rewrite IH, leaked_cons. destruct (decide (u = v)) as [->|]; [done|]. rewrite decide_False by congruence. lia.
Qed.

Lemma of_user_eq u v p : of_user u (v, p) = bool_decide (v = u).
Proof. unfold of_user. cbn [fst]. destruct (String.eqb_spec v u); by case_bool_decide. Qed.

Record slots_ok (u : string) (r : counters) (ss : list (string * Phase)) (k : list string) : Prop := {
  so_count : count_at u r = number (of_user u) ss + leaked u k;
  so_admitted : number (admitted u) ss <= WS_MAX_PER_USER;
  so_settled : (u, Resetting) ∉ ss
}.
Definition slots_inv (d : Deployment) : Prop := ∀ u, u ∉ dp_lapsed d → slots_ok u (dp_redis d) (dp_sockets d) (dp_leaks d).

Lemma admitted_le u ss : number (admitted u) ss <= number (of_user u) ss.
Proof. apply number_le. by intros s [? _]%andb_true_iff. Qed.

Lemma touch_inv now u d r ss k l : slots_inv d → touch now u d = mkDeployment r ss k l → slots_inv (mkDeployment r ss k l) ∧ fresh now u r.
Proof.
  intros Hinv. unfold touch. destruct (dp_redis d !! ws_key u) as [c|] eqn:Ec.
  2:{ intros ->. split; [exact Hinv|]. cbn in Ec. intros c Hc. by rewrite Ec in Hc. }
  destruct (live now c) eqn:El.
  { intros ->. split; [exact Hinv|]. cbn in Ec. intros c' Hc'. rewrite Ec in Hc'. by injection Hc' as <-. }
  intros [= <- <- <- <-]. split; [|intros c' Hc'; by rewrite lookup_delete_eq in Hc'].
  intros v. cbn [dp_lapsed dp_redis dp_sockets dp_leaks]. destruct (decide (v = u)) as [->|Hne].
  - destruct (Z.eqb_spec (number (of_user u) (dp_sockets d)) 0) as [E0|]; [|set_solver]. intros Hv.
    destruct (Hinv u Hv) as [_ Had Hset]. split; [|exact Had|exact Hset].
    rewrite leaked_other, decide_True, E0 by done. unfold count_at. by rewrite lookup_delete_eq.
  - intros Hv. destruct (Hinv v) as [Hc Had Hset]; [destruct (_ =? 0); set_solver|]. split; [|exact Had|exact Hset].
    rewrite leaked_other, decide_False, <- Hc by done. unfold count_at. rewrite lookup_delete_ne; [done|]. by intros E%ws_key_inj.
Qed.

(** A socket of someone else makes no difference, and the user's own one. *)
Lemma slots_preserved d d' : slots_inv d → slot_step d d' → slots_inv d'.
Proof.
  intros Hinv Hstep.
  destruct Hstep as [now v d r ss k l Ht|now v d r ss k l Ht|now v d r ss k l Ht|v count r l1 l2 k l Hc
                    |now v count d r l1 l2 k l Hc Ht|now v d r l1 l2 k l Ht|now v r l1 l2 k l|v phase r l1 l2 k l];
    try (apply (touch_inv _ _ _ _ _ _ _ Hinv) in Ht as [Hinv' Hr]; clear Hinv; rename Hinv' into Hinv);
    intros u Hu; specialize (Hinv u Hu); cbn [dp_redis dp_sockets dp_leaks dp_lapsed] in *; destruct Hinv as [Hcount Had Hset].
  - destruct (redis_add_count now v u 1 r Hr) as [H1 H2]. unfold redis_incr. split.
    + rewrite H1, number_cons, of_user_eq, Hcount. destruct (decide (v = u)); [rewrite bool_decide_true by done|rewrite bool_decide_false by done]; lia.
    + rewrite number_cons. unfold admitted at 1. rewrite of_user_eq. cbn [snd].
      destruct (decide (v = u)) as [->|]; [rewrite bool_decide_true by done|by rewrite bool_decide_false].
      cbn [andb]. rewrite H2. destruct (Z.ltb_spec WS_MAX_PER_USER (count_at u r + 1)); cbn [negb]; [lia|].
      pose proof (admitted_le u ss). pose proof (leaked_nonneg u k). lia.
    + by intros [[=]|]%elem_of_cons.
  - destruct (redis_add_count now v u 1 r Hr) as [H1 _]. unfold redis_incr. split; [|done|done].
    rewrite H1, leaked_cons, Hcount. destruct (decide (v = u)); lia.
  - split; [by rewrite redis_expire_count|done|done].
  - split.
    + rewrite Hcount, !number_middle. by rewrite !of_user_eq.
    + rewrite number_middle in *. unfold admitted at 1. unfold admitted at 1 in Had. cbn [snd] in *. rewrite Hc in Had. by rewrite !of_user_eq in *.
    + intros Hin. apply Hset. rewrite elem_of_app, elem_of_cons in *. destruct Hin as [|[[=]|]]; auto.
  - destruct (redis_add_count now v u (-1) r Hr) as [H1 _]. unfold redis_decr. rewrite !number_middle in *. split.
    + rewrite H1, Hcount, of_user_eq. destruct (decide (v = u)); [rewrite bool_decide_true by done|rewrite bool_decide_false by done]; lia.
    + unfold admitted at 1 in Had. cbn [snd] in Had. rewrite Hc, andb_false_r in Had. lia.
    + intros Hin. apply Hset. rewrite elem_of_app, elem_of_cons in *. tauto.
  - destruct (redis_add_count now v u (-1) r Hr) as [H1 _], (redis_add_count now v v (-1) r Hr) as [_ H2]. unfold redis_decr.
    rewrite !number_middle in *. rewrite of_user_eq in Hcount. unfold admitted at 1 in Had. rewrite of_user_eq in Had. cbn [snd] in Had. rewrite andb_true_r in Had.
    assert (number (admitted u) (l1 ++ l2) <= WS_MAX_PER_USER) as Had' by (destruct (bool_decide _); lia).
    assert ((u, Resetting) ∉ l1 ++ l2) as Hset' by (intros Hin; apply Hset; rewrite elem_of_app, elem_of_cons in *; tauto).
    pose proof (number_nonneg (of_user u) (l1 ++ l2)). pose proof (leaked_nonneg u k).
    destruct (decide (v = u)) as [->|Hne].
    + rewrite bool_decide_true in Hcount by done. rewrite (proj2 (Z.ltb_ge (_.2) 0)) by (rewrite H2; lia). split; [lia|done|done].
    + rewrite bool_decide_false in Hcount by done. destruct (_ <? 0); [|split; [lia|done|done]]. split.
      * rewrite number_middle, of_user_eq, bool_decide_false by done. lia.
      * rewrite number_middle. unfold admitted at 1. by rewrite of_user_eq, bool_decide_false.
      * intros [Hin|[[= E]|Hin]%elem_of_cons]%elem_of_app; [apply Hset', elem_of_app; by left|by destruct Hne|apply Hset', elem_of_app; by right].
  - destruct (decide (v = u)) as [->|Hne]; [destruct Hset; rewrite elem_of_app, elem_of_cons; auto|].
    rewrite !number_middle in *. rewrite of_user_eq, bool_decide_false in Hcount by done. unfold redis_set. split.
    + rewrite count_at_insert, decide_False by done. lia.
    + unfold admitted at 1 in Had. rewrite of_user_eq, bool_decide_false in Had by done. exact Had.
    + intros Hin. apply Hset. rewrite elem_of_app, elem_of_cons in *. tauto.
  - rewrite !number_middle in *. split.
    + rewrite Hcount, leaked_cons, of_user_eq. destruct (decide (v = u)); [rewrite bool_decide_true by done|rewrite bool_decide_false by done]; lia.
    + destruct (admitted u (v, phase)); lia.
    + intros Hin. apply Hset. rewrite elem_of_app, elem_of_cons in *. tauto.
Qed.

Lemma slots_reached d : slots_reachable d → slots_inv d.
Proof.
  unfold slots_reachable. assert (slots_inv nobody) as H0 by (intros u _; split; [done|done|by intros ?%not_elem_of_nil]).
  revert H0. generalize nobody as d0. intros d0 H0 Hr. induction Hr; eauto using slots_preserved.
Qed.

(** C35: In production, with a Redis that keeps its data, a user never holds more than three slots
    unless the user's counter has expired while sockets of theirs were
    counted in it. This is whatever the order and the times of the workers'
    commands, whichever of them fail or lose their replies, and whichever
    workers die; and until such an expiry the counter is exactly the number
    of the user's sockets that were counted and have not given their slot
    back, plus the counts that failures and deaths have left behind since it
    last expired. *)
Theorem slots_within_limit d : slots_reachable d →
  ∀ u, u ∉ dp_lapsed d →
  held u (dp_sockets d) <= WS_MAX_PER_USER ∧
  count_at u (dp_redis d) = number (of_user u) (dp_sockets d) + leaked u (dp_leaks d).
Proof.
  intros Hd u Hu. destruct (slots_reached d Hd u Hu) as [Hcount Hadm _]. split; [|exact Hcount].
  etransitivity; [|exact Hadm]. apply number_le. unfold holds, admitted, of_user. intros [v [c| |]] Hh; cbn [fst snd] in *.
  - by rewrite andb_false_r in Hh.
  - exact Hh.
  - exact Hh.
Qed.

(** Two sockets counted before either is granted, and a lost reply. *)
Lemma slots_within_limit_witness :
  let r1 := (redis_incr 0 (ws_key "u") ∅).1 in
  let r2 := (redis_incr 1 (ws_key "u") r1).1 in
  let d := mkDeployment (redis_incr 2 (ws_key "u") r2).1 [("u", Counted 2); ("u", Granted)] ["u"] ∅ in
  slots_reachable d ∧ held "u" (dp_sockets d) <= 3 ∧ count_at "u" (dp_redis d) = 3.
Proof.
  intros r1 r2 d. assert (slots_reachable d) as Hd.
  { unfold slots_reachable. eapply rtc_l; [exact (StepIncr 0 "u" nobody ∅ [] [] ∅ eq_refl)|].
    eapply rtc_l; [exact (StepGrant "u" 1 r1 [] [] [] ∅ eq_refl)|].
    eapply rtc_l; [apply (StepIncr 1 "u" _ r1 [("u", Granted)] [] ∅); vm_compute; reflexivity|].
    eapply rtc_l; [apply (StepIncrLost 2 "u" _ r2 [("u", Counted 2); ("u", Granted)] [] ∅); vm_compute; reflexivity|]. apply rtc_refl. }
  split; [exact Hd|]. assert ("u" ∉ dp_lapsed d) as Hu by apply not_elem_of_empty.
  split; [exact (proj1 (slots_within_limit d Hd "u" Hu))|]. etransitivity; [exact (proj2 (slots_within_limit d Hd "u" Hu))|].
  reflexivity.
Defined.

(** A push that blocks for longer than the counter lives: three sockets are
    open, the counter expires, and a fourth gets its slot. *)
Lemma blocked_push_gives_a_fourth_slot :
  let at_three := mkDeployment {[ ws_key "u" := mkCounter 3 (Some 120) ]} (replicate 3 ("u", Granted)) [] ∅ in
  rtc slot_step at_three
    (mkDeployment {[ ws_key "u" := mkCounter 1 None ]} (("u", Granted) :: replicate 3 ("u", Granted)) [] {["u"]}).
Proof.
  eapply rtc_l; [apply (StepIncr 121 "u" _ ∅ (replicate 3 ("u", Granted)) [] {["u"]}); vm_compute; reflexivity|].
  eapply rtc_l; [|apply rtc_refl].
  exact (StepGrant "u" 1 {[ ws_key "u" := mkCounter 1 None ]} [] (replicate 3 ("u", Granted)) [] {["u"]} eq_refl).
Qed.

(** ** The calls are runs *)

Lemma touch_fields now u d :
  dp_sockets (touch now u d) = dp_sockets d ∧
  ∀ n, redis_add now (ws_key u) n (dp_redis (touch now u d)) = redis_add now (ws_key u) n (dp_redis d).
Proof.
  unfold touch. destruct (dp_redis d !! ws_key u) as [c|] eqn:Ec; [|done]. destruct (live now c) eqn:El; [done|]. split; [done|].
  intros n. cbn [dp_redis]. unfold redis_add, find_live. rewrite lookup_delete_eq, Ec. cbn. rewrite El. cbn. by rewrite insert_delete_eq.
Qed.

Lemma touch_live now u r ss k l : fresh now u r → touch now u (mkDeployment r ss k l) = mkDeployment r ss k l.
Proof.
  intros Hr. unfold touch. cbn [dp_redis]. destruct (r !! ws_key u) as [c|] eqn:Ec; [|done]. by rewrite (Hr c Ec).
Qed.

Lemma fresh_add now u n r : fresh now u (redis_add now (ws_key u) n r).1.
Proof.
  intros c. unfold redis_add. cbn [fst]. rewrite lookup_insert_eq. intros [= <-]. unfold find_live.
  destruct (r !! ws_key u) as [c|]; cbn; [|done]. destruct (live now c) eqn:E; [exact E|done].
Qed.

Lemma fresh_expire now u r : fresh now u r → fresh now u (redis_expire now (ws_key u) WS_COUNTER_TTL r).
Proof.
  intros Hr. unfold redis_expire. rewrite find_fresh by done. destruct (r !! ws_key u) as [c|] eqn:Ec; [|by intros c' Hc'; rewrite Ec in Hc'].
  intros c'. rewrite lookup_insert_eq. intros [= <-]. cbn. apply Z.ltb_lt. unfold WS_COUNTER_TTL. lia.
Qed.

(** [_ws_acquire] in production is a run of the steps: whatever its commands
    answer, it leaves Redis as the steps do, and a slot exactly when it says
    so. *)
Lemma acquire_is_a_run a now u s ss k l :
  let '(s', (acquired, _)) := ws_acquire true true a now u s in
  ∃ k' l', rtc slot_step (mkDeployment (sl_redis s) ss k l)
             (mkDeployment (sl_redis s') (if acquired then (u, Granted) :: ss else ss) k' l').
Proof.
  unfold ws_acquire. cbn [negb]. destruct (ra_incr a); cbn [negb]; [|exists k, l; done].
  destruct (touch_fields now u (mkDeployment (sl_redis s) ss k l)) as [Hss Hadd]. specialize (Hadd 1). cbn [dp_redis dp_sockets] in *.
  destruct (touch now u (mkDeployment (sl_redis s) ss k l)) as [r0 ss0 k0 l0] eqn:Et. cbn [dp_redis dp_sockets] in *. subst ss0.
  pose proof (StepIncr now u _ _ _ _ _ Et) as S1. unfold redis_incr in *. rewrite Hadd in S1. pose proof (fresh_add now u 1 (sl_redis s)) as F1.
  destruct (redis_add now (ws_key u) 1 (sl_redis s)) as [r1 count]. cbn [fst snd] in *.
  destruct (ra_expire a); cbn [negb].
  2:{ exists (u :: k0), l0. eapply rtc_l; [exact S1|]. apply rtc_once. exact (StepAbandon u _ r1 [] ss k0 l0). }
  pose proof (StepExpire now u _ _ _ _ _ (touch_live now u r1 ((u, Counted count) :: ss) k0 l0 F1)) as S2.
  pose proof (fresh_expire now u r1 F1) as F2. cbn [sl_redis].
  destruct (WS_MAX_PER_USER <? count) eqn:Ec; [destruct (ra_decr a); cbn [negb]|].
  - exists k0, l0. eapply rtc_l; [exact S1|]. eapply rtc_l; [exact S2|]. apply rtc_once.
    apply (StepRefuse now u count _ _ [] ss _ _ Ec). by apply touch_live.
  - exists (u :: k0), l0. eapply rtc_l; [exact S1|]. eapply rtc_l; [exact S2|]. apply rtc_once. exact (StepAbandon u _ _ [] ss k0 l0).
  - exists k0, l0. eapply rtc_l; [exact S1|]. eapply rtc_l; [exact S2|]. apply rtc_once. exact (StepGrant u count _ [] ss k0 l0 Ec).
Qed.

(** And so is [_ws_release] of a slot counted in Redis. *)
Lemma release_is_a_run a now u s l1 l2 k l :
  ∃ k' l', rtc slot_step (mkDeployment (sl_redis s) (l1 ++ (u, Granted) :: l2) k l)
             (mkDeployment (sl_redis (ws_release a now u true s)) (l1 ++ l2) k' l').
Proof.
  unfold ws_release. destruct (ra_decr a); cbn [negb].
  2:{ exists (u :: k), l. apply rtc_once, StepAbandon. }
  destruct (touch_fields now u (mkDeployment (sl_redis s) (l1 ++ (u, Granted) :: l2) k l)) as [Hss Hadd]. specialize (Hadd (-1)). cbn [dp_redis dp_sockets] in *.
  destruct (touch now u _) as [r0 ss0 k0 l0] eqn:Et. cbn [dp_redis dp_sockets] in *. subst ss0.
  pose proof (StepRelease now u _ _ _ _ _ _ Et) as S1. unfold redis_decr in *. rewrite Hadd in S1.
  destruct (redis_add now (ws_key u) (-1) (sl_redis s)) as [r1 count]. cbn [fst snd] in *.
  destruct (count <? 0); cbn [andb].
  - destruct (ra_set a).
    + exists k0, l0. eapply rtc_l; [exact S1|]. apply rtc_once, StepReset.
    + exists (u :: k0), l0. eapply rtc_l; [exact S1|]. apply rtc_once, StepAbandon.
  - exists k0, l0. apply rtc_once. exact S1.
Qed.

(** ** A leaked slot *)

(** The answers to a user's attempts, at their times. *)
Fixpoint attempts (user_id : string) (times : list Z) (s : Slots) : list (bool * bool) :=
  match times with
  | [] => []
  | t :: times => let '(s, r) := ws_acquire true true all_answer t user_id s in r :: attempts user_id times s
  end.

(** Each attempt comes less than a lifetime of the counter after the one
    before. *)
Fixpoint persistent (expires : Z) (times : list Z) : Prop :=
  match times with [] => True | t :: times => t < expires ∧ persistent (t + WS_COUNTER_TTL) times end.

Lemma find_live_insert now key c r : live now c = true → find_live now key (<[key := c]> r) = Some c.
Proof. intros Hl. unfold find_live. rewrite lookup_insert_eq. cbn. by rewrite Hl. Qed.

Lemma full_refused user_id t s expires :
  sl_redis s !! ws_key user_id = Some (mkCounter WS_MAX_PER_USER (Some expires)) → t < expires →
  let (s', r) := ws_acquire true true all_answer t user_id s in
  r = (false, false) ∧ sl_redis s' !! ws_key user_id = Some (mkCounter WS_MAX_PER_USER (Some (t + WS_COUNTER_TTL))).
Proof.
  intros Hk Ht. set (key := ws_key user_id) in *.
  assert (redis_incr t key (sl_redis s) = (<[key := mkCounter 4 (Some expires)]> (sl_redis s), 4)) as E1.
  { unfold redis_incr, redis_add, find_live. rewrite Hk. cbn [mbind option_bind live ct_expires]. by rewrite (proj2 (Z.ltb_lt _ _) Ht). }
  assert (∀ r, redis_expire t key WS_COUNTER_TTL (<[key := mkCounter 4 (Some expires)]> r) = <[key := mkCounter 4 (Some (t + WS_COUNTER_TTL))]> r) as E2.
  { intros r. unfold redis_expire. rewrite find_live_insert by (by apply Z.ltb_lt). by rewrite insert_insert_eq. }
  assert (∀ r, (redis_decr t key (<[key := mkCounter 4 (Some (t + WS_COUNTER_TTL))]> r)).1 = <[key := mkCounter 3 (Some (t + WS_COUNTER_TTL))]> r) as E3.
  { intros r. unfold redis_decr, redis_add. rewrite find_live_insert by (apply Z.ltb_lt; unfold WS_COUNTER_TTL; lia). by rewrite insert_insert_eq. }
  unfold ws_acquire. cbn [negb all_answer ra_incr ra_expire ra_decr]. fold key. rewrite E1. cbn iota beta.
  change (WS_MAX_PER_USER <? 4) with true. cbn iota. split; [done|]. destruct s as [r0 c0]. cbn in *. rewrite E2, E3. by rewrite lookup_insert_eq.
Qed.

(** A counter left at the limit by workers that died does not expire while its
    user keeps trying: an attempt that is refused puts the expiry off, too. *)
Theorem retries_keep_a_leaked_slot user_id times s expires :
  sl_redis s !! ws_key user_id = Some (mkCounter WS_MAX_PER_USER (Some expires)) → persistent expires times →
  Forall (λ r, r = (false, false)) (attempts user_id times s).
Proof.
  revert s expires. induction times as [|t times IH]; intros s expires Hk Hp; cbn [attempts]; [constructor|]. destruct Hp as [Ht Hp].
  pose proof (full_refused user_id t s expires Hk Ht) as Hf. destruct (ws_acquire _ _ _ _ _ s) as [s' r]. destruct Hf as [-> Hs].
  constructor; [done|]. by apply (IH _ (t + WS_COUNTER_TTL)).
Qed.

(** ** What is pushed *)

Section stream.
Context {F : Type} `{Num F}.
Variable set_order : list string → list string.
Hypothesis set_order_elem : ∀ l t, t ∈ set_order l → t ∈ l.

(** A push that its cycle allowed: the session had time left, the account was
    active, and each signal is of an asset on the list read in that cycle, or
    what the engine answered for one. *)
Definition allowed (deadline : F) (c : Cycle (F:=F)) (p : Push (F:=F)) : Prop :=
  (deadline ⊖ cy_now c <=.? WS_EXPIRY_GRACE) = false ∧ cy_sent c = true ∧
  ∃ watchlist, cy_watchlist c = Some (Some watchlist) ∧
    ∀ s, s ∈ pu_signals p → sg_asset s ∈ watchlist ∨ ∃ t, t ∈ watchlist ∧ cy_single c t = Some s.

Lemma personalised_wanted wanted (signals : list (Signal (F:=F))) single s :
  s ∈ personalised set_order wanted signals single → sg_asset s ∈ wanted ∨ ∃ t, t ∈ wanted ∧ single t = Some s.
Proof.
  unfold personalised. intros [[Hw _]%list_elem_of_filter|(t & Ht & Hs)%list_elem_of_omap]%elem_of_app; [by left|right].
  exists t. split; [|done]. apply set_order_elem in Ht. apply list_elem_of_filter in Ht as [_ Ht]. by rewrite elem_of_remove_dups in Ht.
Qed.

Lemma stream_cycle_allowed (deadline : F) seq c p rest :
  (stream_cycle set_order deadline seq c).1 = p :: rest → rest = [] ∧ pu_sequence p = seq ∧ allowed deadline c p.
Proof.
  unfold stream_cycle. destruct (deadline ⊖ cy_now c <=.? _) eqn:E; [done|].
  destruct (cy_watchlist c) as [[watchlist|]|] eqn:Ew; [|by destruct (cy_data c)|done]. destruct (cy_data c) as [data|]; [|done].
  destruct (cy_sent c) eqn:Es; [|done]. cbn [negb fst]. intros [= <- <-]. split_and!; [done..|]. split_and!; [done..|].
  exists watchlist. split; [done|]. intros s Hs. cbn [push_of pu_signals] in Hs. by eapply personalised_wanted.
Qed.

Lemma stream_cycle_continues (deadline : F) seq c next :
  (stream_cycle set_order deadline seq c).2 = inr next → ∃ p, (stream_cycle set_order deadline seq c).1 = [p] ∧ next = S seq.
Proof.
  unfold stream_cycle. destruct (_ <=.? _); [done|]. destruct (cy_watchlist c) as [[w|]|]; [|by destruct (cy_data c)|done].
  destruct (cy_data c); [|done]. destruct (cy_sent c); [|done]. cbn [negb snd fst]. destruct (cy_client c); try done.
  - intros [= <-]. by eexists.
  - destruct (_ <? _); [done|]. intros [= <-]. by eexists.
Qed.

(** What a stream pushes was allowed when it was pushed: push number [k]
    has sequence number [k] and is made in cycle [k], in which the session was
    not about to expire and the account was active, and its signals are of the
    assets on the watchlist read in that cycle. *)
Theorem pushes_are_allowed (deadline : F) (cycles : list Cycle) (k : nat) (p : Push) :
  (stream_loop set_order deadline 0 cycles).1 !! k = Some p →
  pu_sequence p = k ∧ ∃ c, cycles !! k = Some c ∧ allowed deadline c p.
Proof.
  assert (∀ cycles seq k, (stream_loop set_order deadline seq cycles).1 !! k = Some p →
    pu_sequence p = (seq + k)%nat ∧ ∃ c, cycles !! k = Some c ∧ allowed deadline c p) as Hgen; [|apply (Hgen cycles 0%nat)].
  clear cycles k. induction cycles as [|c cycles IH]; intros seq k; cbn [stream_loop]; [done|].
  pose proof (stream_cycle_allowed deadline seq c) as Hallowed. pose proof (stream_cycle_continues deadline seq c) as Hnext.
  destruct (stream_cycle set_order deadline seq c) as [pushes [e|next]]; cbn [fst snd] in *.
  - destruct pushes as [|q rest]; [done|]. destruct (Hallowed q rest eq_refl) as (-> & Hq & Hok).
    destruct k as [|k]; cbn; [|done]. intros [= <-]. split; [lia|]. by exists c.
  - destruct (Hnext next eq_refl) as (q & -> & ->). destruct (Hallowed q [] eq_refl) as (_ & Hq & Hok).
    specialize (IH (S seq)). destruct (stream_loop set_order deadline (S seq) cycles) as [later e]. cbn [fst] in *.
    destruct k as [|k]; cbn; [intros [= <-]; split; [lia|by exists c]|]. intros Hk. destruct (IH k Hk) as [-> Hc]. split; [lia|exact Hc].
Qed.
End stream.

#[local] Definition quiet_cycle (now : Z) : Cycle (F:=Q) :=
  mkCycle (nof_Z now) (Some (Some ["SPY"])) (Some (mkResponse [] (nof_Z 0) 0 None)) (λ _, None) true Silent.

Lemma pushes_are_allowed_witness :
  let pushes := (stream_loop (λ l, l) (nof_Z 100) 0 (quiet_cycle <$> [0; 30; 60; 90; 100; 120])).1 in
  length pushes = 4%nat ∧ ∃ p c, pushes !! 3%nat = Some p ∧ pu_sequence p = 3%nat ∧ allowed (nof_Z 100) c p.
Proof.
  split; [reflexivity|].
  destruct ((stream_loop (λ l, l) (nof_Z 100) 0 (quiet_cycle <$> [0; 30; 60; 90; 100; 120])).1 !! 3%nat) as [p|] eqn:E;
    [|vm_compute in E; discriminate E].
  destruct (pushes_are_allowed (λ l, l) (λ l t Ht, Ht) (nof_Z 100) _ 3 p E) as [H1 (c & _ & H2)]. exists p, c. by split_and!.
Defined.
