(* ===== verification/SignalRoutes.v ===== *)
(** backend/main.py: signals for a user's watchlist, watchlists, regional
    preferences and exchange hours. The basket's cached response is an
    argument of the routes that read it. *)

From Stdlib Require Import QArith.
From stdpp Require Import strings gmap sorting.
From S2P Require Import Prelude Numeric Models Json Integration ResearchJobs DatasetRegistry Schemas SignalEngine.
#[local] Open Scope Z_scope.

Abbreviation answer A := (outcome (option HTTPException) A).
Definition http {A} (status : Z) (detail : string) : answer A := Raise (Some (mkHTTPException status detail)).

Definition DEFAULT_WATCHLIST : list string := PRELOADED_ASSETS.
Definition MAX_WATCHLIST_SIZE : nat := 50.
Definition ASSET_EXCHANGE_MAP : list (string * string) := (λ t, (t, infer_exchange t)) <$> PRELOADED_ASSETS.
(** [ASSET_EXCHANGE_MAP.get(t) or infer_exchange(t)] *)
Definition exchange_of (t : string) : string :=
  match find (λ e, (e.1 =? t)%string) ASSET_EXCHANGE_MAP with
  | Some (_, e) => if (e =? "")%string then infer_exchange t else e
  | None => infer_exchange t
  end.

(** ** Exchange hours *)

(** The zone, and the opening and closing times in minutes. *)
Record Exchange := mkExchange { ex_tz : string; ex_open : Z; ex_close : Z; ex_currency : string }.
Definition clock (h m : Z) : Z := h * 60 + m.
Definition EXCHANGE_REGISTRY : list (string * Exchange) :=
  [("US", mkExchange "America/New_York" (clock 9 30) (clock 16 0) "USD");
   ("NSE", mkExchange "Asia/Kolkata" (clock 9 15) (clock 15 30) "INR");
   ("LSE", mkExchange "Europe/London" (clock 8 0) (clock 16 30) "GBP");
   ("XETRA", mkExchange "Europe/Berlin" (clock 9 0) (clock 17 30) "EUR");
   ("TSE", mkExchange "Asia/Tokyo" (clock 9 0) (clock 15 30) "JPY");
   ("HKEX", mkExchange "Asia/Hong_Kong" (clock 9 30) (clock 16 0) "HKD");
   ("ASX", mkExchange "Australia/Sydney" (clock 10 0) (clock 16 0) "AUD");
   ("TSX", mkExchange "America/Toronto" (clock 9 30) (clock 16 0) "CAD");
   ("CRYPTO", mkExchange "UTC" (clock 0 0) (clock 23 59) "USD")].
Definition exchange_info (key : string) : option Exchange := snd <$> find (λ e, (e.1 =? key)%string) EXCHANGE_REGISTRY.

(** A local time: the day of the week from Monday, and the microseconds since
    midnight. *)
Record LocalTime := mkLocalTime { lt_weekday : Z; lt_micros : Z }.
Definition MINUTE : Z := 60 * 1000000.

Inductive MarketStatus := AlwaysOpen | Weekend | PreMarket (opens_in_mins : Z) | Open (closes_in_mins : Z) | AfterClose.

(** [now]: the local time in a zone; an unknown exchange has New York's
    default hours in UTC. *)
Definition market_status (now : string → LocalTime) (exch_key : string) : MarketStatus :=
  if (exch_key =? "CRYPTO")%string then AlwaysOpen
  else
    let info := default (mkExchange "UTC" (clock 9 30) (clock 16 0) "") (exchange_info exch_key) in
    let t := now (ex_tz info) in
    let open_time := ex_open info * MINUTE in
    let close_time := ex_close info * MINUTE in
    if 5 <=? lt_weekday t then Weekend
    else if lt_micros t <? open_time then PreMarket ((open_time - lt_micros t) / MINUTE)
    else if lt_micros t <? close_time then Open ((close_time - lt_micros t) / MINUTE)
    else AfterClose.

Definition get_exchanges (now : string → LocalTime) : list (string * (Exchange * MarketStatus * nat)) :=
  (λ ki, (ki.1, (ki.2, market_status now ki.1, length (filter (λ e, e.2 = ki.1) ASSET_EXCHANGE_MAP)))) <$> EXCHANGE_REGISTRY.

(** ** Preferences *)

Record Profile := mkProfile {
  pf_watchlist : option (list string); pf_preferred_exchanges : option (list string); pf_user_timezone : option string
}.
#[global] Instance eta_Profile : Eta Profile := λ p, mkProfile (pf_watchlist p) (pf_preferred_exchanges p) (pf_user_timezone p).
Abbreviation Profiles := (gmap string Profile).

(** [x or y] of lists. *)
Definition or_list (l : option (list string)) (other : list string) : list string :=
  match l with Some ((_ :: _) as l) => l | _ => other end.
Definition user_watchlist (p : Profile) : list string := or_list (pf_watchlist p) DEFAULT_WATCHLIST.
Definition profile_of (user_id : string) (ps : Profiles) : Profile := default (mkProfile None None None) (ps !! user_id).

Section routes.
(** [str] of a JSON value that is not a string, and whether a zone exists. *)
Variable str_other : json → string.
Variable zone_exists : string → bool.
Definition str_of (v : json) : string := match v with JStr s => s | v => str_other v end.

(** A body that is a dict. *)
Abbreviation Body := (list (string * json)).

Record Preferences := mkPreferences { pr_exchanges : option (list string); pr_timezone : option string }.
Definition get_preferences (user_id : string) (ps : Profiles) : Preferences * list string :=
  let p := profile_of user_id ps in
  (mkPreferences (Some (or_list (pf_preferred_exchanges p) ["US"]))
     (Some (match pf_user_timezone p with Some tz => if (tz =? "")%string then "UTC" else tz | None => "UTC" end)), user_watchlist p).

(** [None]: a value that cannot be iterated over. *)
Definition valid_exchanges (v : json) : option (list string) :=
  match v with
  | JArr l => Some (filter (λ e, is_Some (exchange_info e)) ((λ e, str_upper (str_of e)) <$> l))
  | JStr s => Some []      (* no exchange is named by one character *)
  | JObj fields => Some (filter (λ e, is_Some (exchange_info e)) ((λ kv, str_upper kv.1) <$> fields))
  | _ => None
  end.

Definition set_preferences (user_id : string) (body : Body) (ps : Profiles) : Profiles * answer Preferences :=
  let p := profile_of user_id ps in
  let with_exchanges :=
    match json_get "preferred_exchanges" body with
    | None => Ret p
    | Some v =>
        match valid_exchanges v with
        | None => Raise None
        | Some [] => http 400 "At least one valid exchange must be selected"
        | Some exchanges => Ret (p <| pf_preferred_exchanges := Some exchanges |>)
        end
    end in
  let updated :=
    let! p := with_exchanges in
    match json_get "user_timezone" body with
    | None => Ret p
    | Some v =>
        let tz := str_of v in
        if zone_exists tz then Ret (p <| pf_user_timezone := Some tz |>) else http 400 "Invalid timezone"
    end in
  match updated with
  | Raise e => (ps, Raise e)
  | Ret p => (<[user_id := p]> ps, Ret (mkPreferences (pf_preferred_exchanges p) (pf_user_timezone p)))
  end.

(** ** Watchlists *)

(** The provider's last price of a ticker: [None] when it raises. *)
Variable last_price : string → option bool.
Definition recognised (t : string) : bool := default false (last_price t).

(** [_probe_tickers_parallel]; [in_time] when all answered within fifteen
    seconds, and [None] otherwise, a TimeoutError. *)
Definition probe_tickers (in_time : bool) (tickers : list string) : option (list string) :=
  match tickers with
  | [] => Some []
  | _ => if in_time then Some (filter (λ t, recognised t = true) tickers) else None
  end.

Definition get_watchlist (user_id : string) (ps : Profiles) : list string * bool :=
  let p := profile_of user_id ps in
  (user_watchlist p, match pf_watchlist p with Some (_ :: _) => false | _ => true end).

(** [str(raw).upper().strip()], each once, none empty. *)
Definition normalized_tickers (raw : list json) : list string :=
  foldl (λ acc v, let t := normal_ticker (str_of v) in if (t =? "")%string || bool_decide (t ∈ acc) then acc else acc ++ [t]) [] raw.

Definition set_watchlist (user_id : string) (body : Body) (in_time : bool) (ps : Profiles) : Profiles * answer (list string) :=
  match default (JArr []) (json_get "watchlist" body) with
  | JArr tickers =>
      if (MAX_WATCHLIST_SIZE <? length tickers)%nat then (ps, http 400 "Watchlist limited to 50 assets")
      else
        let normalized := normalized_tickers tickers in
        match probe_tickers in_time (filter (λ t, t ∉ PRELOADED_ASSETS) normalized) with
        | None => (ps, Raise None)
        | Some probed =>
            match filter (λ t, t ∈ PRELOADED_ASSETS ∨ t ∈ probed) normalized with
            | [] => (ps, http 400 "No recognized tickers provided")
            | cleaned => (<[user_id := profile_of user_id ps <| pf_watchlist := Some cleaned |>]> ps, Ret cleaned)
            end
        end
  | _ => (ps, http 400 "watchlist must be a list")
  end.

(** The list a column holds is an object. [user_watchlist] answers that very
    object, or a copy of the default, and the append changes it in place; the
    session remembers the object the column held when it was loaded. *)
Record Attribute := mkAttribute {
  at_objects : list (list string);     (* the objects, by their place *)
  at_held : option nat;                (* the object the column held when loaded *)
  at_assigned : option nat             (* the object assigned to it *)
}.
Definition load_watchlist (p : Profile) : Attribute :=
  match pf_watchlist p with Some l => mkAttribute [l] (Some 0%nat) None | None => mkAttribute [] None None end.
(** [_user_watchlist(user)]: the object it answers. *)
Definition current_watchlist (a : Attribute) : Attribute * nat :=
  match at_held a with
  | Some k =>
      match at_objects a !! k with
      | Some (_ :: _) => (a, k)
      | _ => (mkAttribute (at_objects a ++ [DEFAULT_WATCHLIST]) (at_held a) (at_assigned a), length (at_objects a))
      end
  | None => (mkAttribute (at_objects a ++ [DEFAULT_WATCHLIST]) (at_held a) (at_assigned a), length (at_objects a))
  end.
Definition object (a : Attribute) (k : nat) : list string := default [] (at_objects a !! k).
Definition append_to (k : nat) (t : string) (a : Attribute) : Attribute :=
  mkAttribute (<[k := object a k ++ [t]]> (at_objects a)) (at_held a) (at_assigned a).
Definition assign_object (k : nat) (a : Attribute) : Attribute := mkAttribute (at_objects a) (at_held a) (Some k).

(** Whether a commit writes a column that was assigned: what the session
    remembers of it, as that reads now, and the value. *)
Variable written : option (list string) → list string → bool.
Definition commit_watchlist (user_id : string) (a : Attribute) (ps : Profiles) : Profiles :=
  match at_assigned a with
  | None => ps
  | Some k =>
      if written (object a <$> at_held a) (object a k)
      then <[user_id := profile_of user_id ps <| pf_watchlist := Some (object a k) |>]> ps else ps
  end.

Definition add_to_watchlist (user_id ticker : string) (ps : Profiles) : Profiles * answer (list string) :=
  let ticker := normal_ticker ticker in
  let '(a, k) := current_watchlist (load_watchlist (profile_of user_id ps)) in
  let current := object a k in
  if bool_decide (ticker ∈ current) then (ps, Ret current)
  else if (MAX_WATCHLIST_SIZE <=? length current)%nat then (ps, http 400 "Watchlist limited to 50 assets")
  else if negb (bool_decide (ticker ∈ PRELOADED_ASSETS)) && negb (recognised ticker)
  then (ps, http 404 "not a recognized tradable instrument")
  else
    let a := assign_object k (append_to k ticker a) in
    (commit_watchlist user_id a ps, Ret (object a k)).

Definition remove_from_watchlist (user_id ticker : string) (ps : Profiles) : Profiles * answer (list string) :=
  let ticker := str_upper ticker in
  let current := user_watchlist (profile_of user_id ps) in
  if bool_decide (ticker ∉ current) then (ps, http 404 "not in watchlist")
  else
    match filter (λ t, t ≠ ticker) current with
    | [] => (ps, http 400 "Cannot remove the last ticker")
    | current => (<[user_id := profile_of user_id ps <| pf_watchlist := Some current |>]> ps, Ret current)
    end.

(** ** Signals *)

Context {F : Type} `{Num F}.
Variable set_order : list string → list string.
(** [str] of a float, and SHA-1 in hexadecimal. *)
Variable float_text : F → string.
Variable sha1_hex : string → string.

Definition etag (value : string) : string := String.substring 0 16 (sha1_hex value).

Fixpoint split_commas (current : string) (s : string) : list string :=
  match s with
  | EmptyString => [current]
  | String c s => if Ascii.eqb c (Ascii.ascii_of_nat 44) then current :: split_commas EmptyString s else split_commas (current +:+ String c EmptyString) s
  end.

(** The assets asked for: those named, or of the watchlist those on preferred
    exchanges, or all of it if none is. *)
Definition wanted_assets (assets : option string) (p : Profile) : list string :=
  match assets with
  | Some ((String _ _) as assets) => remove_dups (filter (λ t, t ≠ "") (normal_ticker <$> split_commas EmptyString assets))
  | _ =>
      let wl := user_watchlist p in
      let preferred := or_list (pf_preferred_exchanges p) ["US"] in
      match filter (λ t, exchange_of t ∈ preferred) wl with
      | [] => remove_dups wl
      | l => remove_dups l
      end
  end.

(** A signal by ticker on demand, with its cache. *)
Abbreviation OnDemand := (gmap string (Signal (F:=F) * F)).
Abbreviation OnDemandEngine := (string → OnDemand → OnDemand * option (Signal (F:=F))).

Fixpoint add_singles (single : OnDemandEngine) (tickers : list string) (cache : OnDemand) : OnDemand * list (Signal (F:=F)) :=
  match tickers with
  | [] => (cache, [])
  | t :: tickers =>
      let '(cache, extra) := single t cache in
      let '(cache, rest) := add_singles single tickers cache in
      (cache, match extra with Some s => s :: rest | None => rest end)
  end.

Record SignalAnswer := mkSignalAnswer {
  sa_signals : list (Signal (F:=F)); sa_generated_at : F; sa_total_assets : nat; sa_watchlist : list string; sa_etag : string
}.
Inductive LatestAnswer := NotModified (tag : string) | Latest (a : SignalAnswer).

Definition signals_tag (data : Response (F:=F)) (wanted : list string) : string :=
  etag (float_text (rp_generated_at data) +:+ "|" +:+ String.concat "," (merge_sort text_le wanted)).

Definition latest_signals (p : Profile) (assets if_none_match : option string) (data : Response (F:=F)) (single : OnDemandEngine)
    (cache : OnDemand) : OnDemand * LatestAnswer :=
  let wanted := wanted_assets assets p in
  let tag := signals_tag data wanted in
  if bool_decide (if_none_match = Some tag) then (cache, NotModified tag)
  else
    let filtered := filter (λ s, sg_asset s ∈ wanted) (rp_signals data) in
    let '(cache, extras) := add_singles single (set_order (filter (λ t, t ∉ sg_asset <$> filtered) wanted)) cache in
    (cache, Latest (mkSignalAnswer (filtered ++ extras) (rp_generated_at data) (rp_n_assets data) (merge_sort text_le wanted) tag)).

(** ** Single assets *)

(** [clean], unless it is no symbol. *)
Definition clean_ticker (ticker : string) : answer string :=
  let clean := normal_ticker ticker in
  if (clean =? "")%string || (20 <? points clean) then http 400 "Invalid ticker symbol" else Ret clean.

Definition get_asset_signal (ticker : string) (single : OnDemandEngine) (cache : OnDemand) : OnDemand * answer (Signal (F:=F)) :=
  match clean_ticker ticker with
  | Raise e => (cache, Raise e)
  | Ret clean =>
      match single clean cache with
      | (cache, Some s) => (cache, Ret s)
      | (cache, None) => (cache, http 404 "No price data found")
      end
  end.

(** The live price and the information of an asset, from their engines. *)
Definition get_asset_value {C A} (missing : string) (engine : string → C → C * option A) (ticker : string) (cache : C) : C * answer A :=
  match clean_ticker ticker with
  | Raise e => (cache, Raise e)
  | Ret clean =>
      match engine clean cache with
      | (cache, Some a) => (cache, Ret a)
      | (cache, None) => (cache, http 404 missing)
      end
  end.

Record SearchResult := mkSearchResult { se_ticker : string; se_exchange : string; se_company_name : string; se_sector : string }.
Definition search_assets (q : string) : list SearchResult :=
  let q := normal_ticker q in
  if (q =? "")%string then []
  else
    let matches := take 10 (filter (λ t, contains q (str_upper t) = true) PRELOADED_ASSETS) in
    let matches := if bool_decide (q ∈ matches) then matches else matches ++ [q] in
    (λ t, mkSearchResult t (exchange_of t) (company_of t) (sector_of t)) <$> matches.
End routes.

(** * Theorems

    Watchlists stay usable, and what their routes and the entity tag of the
    signals do not do. *)

#[local] Open Scope Z_scope.

(** ** Exchange hours *)

(** An exchange other than the crypto markets is reported open exactly on
    a weekday from its opening time until, and not at, its closing time, with
    the whole minutes that are left. *)
Theorem open_within_hours now exch_key (m : Z) (info : Exchange) :
  exch_key ≠ "CRYPTO" → exchange_info exch_key = Some info →
  let t := now (ex_tz info) in
  market_status now exch_key = Open m ↔
  lt_weekday t < 5 ∧ ex_open info * MINUTE <= lt_micros t < ex_close info * MINUTE ∧
  m * MINUTE <= ex_close info * MINUTE - lt_micros t < (m + 1) * MINUTE.
Proof.
  intros Hkey Hinfo t. unfold market_status. destruct (String.eqb_spec exch_key "CRYPTO"); [done|]. rewrite Hinfo. cbn [default from_option id]. fold t.
  assert (0 < MINUTE) as HM by (unfold MINUTE; lia). pose proof (Z.div_mod (ex_close info * MINUTE - lt_micros t) MINUTE ltac:(lia)) as Hdiv.
  pose proof (Z.mod_pos_bound (ex_close info * MINUTE - lt_micros t) MINUTE HM) as Hmod.
  destruct (5 <=? lt_weekday t) eqn:Ew.
  { split; [intros E; discriminate E|intros; lia]. }
  destruct (lt_micros t <? ex_open info * MINUTE) eqn:Eo.
  { split; [intros E; discriminate E|intros; lia]. }
  destruct (lt_micros t <? ex_close info * MINUTE) eqn:Ec; [|split; [intros E; discriminate E|intros; lia]].
  split.
  - intros [= <-]. split_and!; lia || nia.
  - intros (_ & _ & Hm). f_equal. set (q := _ / MINUTE) in *. nia.
Qed.

Lemma open_within_hours_witness :
  let now := λ _, mkLocalTime 4 (clock 15 58 * MINUTE + 1) in
  market_status now "US" = Open 1 ∧
  (clock 9 30 * MINUTE <= clock 15 58 * MINUTE + 1 < clock 16 0 * MINUTE).
Proof.
  split; [reflexivity|].
  pose proof (proj1 (open_within_hours (λ _, mkLocalTime 4 (clock 15 58 * MINUTE + 1)) "US" 1 _ ltac:(discriminate) eq_refl) eq_refl) as (_ & H & _).
  exact H.
Defined.

(** ** Watchlists *)

Section watchlists.
Variable str_other : json → string.
Variable last_price : string → option bool.
Variable written : option (list string) → list string → bool.

(** What the routes keep of a stored watchlist. *)
Definition usable (l : list string) : Prop := l ≠ [] ∧ NoDup l ∧ (length l <= MAX_WATCHLIST_SIZE)%nat.
Definition profiles_usable (ps : Profiles) : Prop :=
  ∀ user_id p l, ps !! user_id = Some p → pf_watchlist p = Some l → usable l.

Lemma default_usable : usable DEFAULT_WATCHLIST.
Proof. split; [discriminate|]. split; [by apply (bool_decide_unpack _); vm_compute|]. unfold MAX_WATCHLIST_SIZE. cbn. lia. Qed.

Lemma user_watchlist_usable ps user_id : profiles_usable ps → usable (user_watchlist (profile_of user_id ps)).
Proof.
  intros Hps. unfold user_watchlist, profile_of, or_list. destruct (ps !! user_id) as [p|] eqn:E; cbn [default from_option id pf_watchlist]; [|apply default_usable].
  destruct (pf_watchlist p) as [[|t l]|] eqn:El; [apply default_usable| |apply default_usable]. by eapply Hps.
Qed.

Lemma store_usable ps user_id l :
  profiles_usable ps → usable l →
  profiles_usable (<[user_id := mkProfile (Some l) (pf_preferred_exchanges (profile_of user_id ps)) (pf_user_timezone (profile_of user_id ps))]> ps).
Proof.
  intros Hps Hl u p l' Hp Hpl. destruct (decide (user_id = u)) as [->|Hne].
  - rewrite lookup_insert_eq in Hp. injection Hp as <-. cbn in Hpl. by injection Hpl as <-.
  - rewrite lookup_insert_ne in Hp by done. by eapply Hps.
Qed.

Lemma normalized_NoDup raw : NoDup (normalized_tickers str_other raw).
Proof.
  unfold normalized_tickers. apply (foldl_invariant NoDup); [constructor|]. intros acc v _ Hacc.
  destruct (_ =? "")%string; [done|]. case_bool_decide as E; [done|]. cbn [orb]. apply NoDup_app. split_and!; [done| |apply NoDup_singleton].
  intros t Ht Ht'. apply list_elem_of_singleton in Ht' as ->. done.
Qed.

Lemma normalized_length raw : (length (normalized_tickers str_other raw) <= length raw)%nat.
Proof.
  unfold normalized_tickers. match goal with |- (length (foldl ?f _ _) <= _)%nat =>
    assert (∀ acc, (length (foldl f acc raw) <= length acc + length raw)%nat) as Hf; [|exact (Hf [])] end.
  induction raw as [|v raw IH]; intros acc; cbn [foldl length]; [lia|].
  etransitivity; [apply IH|]. destruct (_ || _); rewrite ?length_app; cbn [length]; lia.
Qed.

Lemma usable_filter (P : string → Prop) `{∀ t, Decision (P t)} l t l' :
  NoDup l → (length l <= MAX_WATCHLIST_SIZE)%nat → filter P l = t :: l' → usable (t :: l').
Proof.
  intros Hnd Hlen E. split; [done|]. rewrite <- E. split; [by apply NoDup_filter|]. pose proof (length_filter P l). lia.
Qed.

Lemma set_usable user_id body in_time ps :
  profiles_usable ps → profiles_usable (set_watchlist str_other last_price user_id body in_time ps).1.
Proof.
  intros Hps. unfold set_watchlist. destruct (default _ _) as [| | | | |tickers|]; try done.
  destruct (MAX_WATCHLIST_SIZE <? length tickers)%nat eqn:El; [done|]. apply Nat.ltb_ge in El.
  destruct (probe_tickers _ _ _) as [probed|]; [|done]. destruct (filter _ (normalized_tickers _ _)) as [|t l] eqn:E; [done|].
  apply store_usable; [done|]. eapply usable_filter; [apply normalized_NoDup| |exact E]. pose proof (normalized_length tickers). lia.
Qed.

Lemma remove_usable user_id ticker ps : profiles_usable ps → profiles_usable (remove_from_watchlist user_id ticker ps).1.
Proof.
  intros Hps. unfold remove_from_watchlist. case_bool_decide; [done|]. destruct (user_watchlist_usable ps user_id Hps) as (_ & Hnd & Hlen).
  destruct (filter _ (user_watchlist _)) as [|t l] eqn:E; [done|]. apply store_usable; [done|]. by eapply usable_filter.
Qed.

(** The object the route appends to, and what the session remembers of it. *)
Lemma current_watchlist_object p :
  let '(a, k) := current_watchlist (load_watchlist p) in
  object a k = user_watchlist p ∧ (k < length (at_objects a))%nat ∧ at_assigned a = None ∧
  at_held a = (match pf_watchlist p with Some _ => Some 0%nat | None => None end) ∧
  (match pf_watchlist p with Some (_ :: _) => k = 0%nat | _ => at_held a ≠ Some k end).
Proof.
  unfold load_watchlist, user_watchlist, or_list. destruct (pf_watchlist p) as [[|t l]|]; cbn; split_and!; try done; lia.
Qed.

Lemma object_append a k t : (k < length (at_objects a))%nat → object (append_to k t a) k = object a k ++ [t].
Proof. intros Hk. unfold object, append_to. cbn [at_objects]. by rewrite list_lookup_insert_eq. Qed.

Lemma add_usable user_id ticker ps : profiles_usable ps → profiles_usable (add_to_watchlist last_price written user_id ticker ps).1.
Proof.
  intros Hps. unfold add_to_watchlist. pose proof (current_watchlist_object (profile_of user_id ps)) as Hc.
  destruct (current_watchlist _) as [a k]. destruct Hc as (Hobj & Hk & _). case_bool_decide as Hin; [done|].
  destruct (MAX_WATCHLIST_SIZE <=? _)%nat eqn:El; [done|]. destruct (_ && _); [done|]. apply Nat.leb_gt in El.
  cbn [fst]. unfold commit_watchlist. cbn [assign_object at_assigned at_held]. set (a' := assign_object _ _).
  assert (object a' k = user_watchlist (profile_of user_id ps) ++ [normal_ticker ticker]) as ->
    by (unfold a', assign_object; unfold object; cbn [at_objects]; fold (object (append_to k (normal_ticker ticker) a) k); rewrite object_append, Hobj by done; done).
  destruct (written _ _); [|done]. apply store_usable; [done|]. destruct (user_watchlist_usable ps user_id Hps) as (Hne & Hnd & Hlen).
  rewrite Hobj in Hin, El. split_and!.
  - by intros []%app_nil.
  - apply NoDup_app. split_and!; [done| |apply NoDup_singleton]. intros t Ht Ht'. apply list_elem_of_singleton in Ht' as ->. done.
  - rewrite length_app. cbn [length]. lia.
Qed.

(** The requests of all users, in any order. *)
Inductive watchlist_step : Profiles → Profiles → Prop :=
| StepSet user_id body in_time ps : watchlist_step ps (set_watchlist str_other last_price user_id body in_time ps).1
| StepAdd user_id ticker ps : watchlist_step ps (add_to_watchlist last_price written user_id ticker ps).1
| StepRemove user_id ticker ps : watchlist_step ps (remove_from_watchlist user_id ticker ps).1.

(** Whatever watchlist requests are made, a stored watchlist has at least
    one asset and at most fifty, and none twice. *)
Theorem watchlists_stay_usable (ps : Profiles) :
  rtc watchlist_step ∅ ps → profiles_usable ps.
Proof.
  intros Hr. cut (∀ ps0, rtc watchlist_step ps0 ps → profiles_usable ps0 → profiles_usable ps).
  { intros Hgen. eapply Hgen; [exact Hr|]. intros u p l Hp. by rewrite lookup_empty in Hp. }
  clear Hr. induction 1 as [ps0|ps0 ps1 ps Hs _ IH]; [done|]. intros H0. apply IH. destruct Hs; [by apply set_usable|by apply add_usable|by apply remove_usable].
Qed.

(** The ORM finds nothing to write in a column whose value is what it
    remembers. *)
Hypothesis unchanged_not_written : ∀ l, written (Some l) l = false.

(** Adding an asset to a watchlist of one's own is lost: the list is changed
    in place, so what the session remembers changes with it and nothing is
    written, while the answer has the asset. *)
Theorem added_asset_is_lost user_id ticker ps p t l :
  ps !! user_id = Some p → pf_watchlist p = Some (t :: l) → normal_ticker ticker ∉ t :: l →
  (length (t :: l) < MAX_WATCHLIST_SIZE)%nat → recognised last_price (normal_ticker ticker) = true →
  add_to_watchlist last_price written user_id ticker ps = (ps, Ret ((t :: l) ++ [normal_ticker ticker])).
Proof.
  intros Hp Hl Hin Hlen Hrec. unfold add_to_watchlist, profile_of. rewrite Hp. cbn [default from_option id]. unfold load_watchlist. rewrite Hl. cbn [current_watchlist at_held at_objects lookup list_lookup].
  change (object (mkAttribute [t :: l] (Some 0%nat) None) 0) with (t :: l). cbn zeta. rewrite bool_decide_false by done.
  destruct (MAX_WATCHLIST_SIZE <=? length (t :: l))%nat eqn:E; [apply Nat.leb_le in E; lia|]. rewrite Hrec, andb_false_r.
  unfold commit_watchlist, assign_object, append_to, object. cbn. by rewrite unchanged_not_written.
Qed.
End watchlists.

Lemma watchlists_stay_usable_witness :
  let ps := (remove_from_watchlist "u" "aapl" (add_to_watchlist (λ _, None) (λ _ _, true) "u" " aapl" ∅).1).1 in
  (pf_watchlist <$> ps !! "u") = Some (Some (tail DEFAULT_WATCHLIST)) ∧ usable (tail DEFAULT_WATCHLIST).
Proof.
  assert (rtc (watchlist_step (λ _, "") (λ _, None) (λ _ _, true)) ∅
    (remove_from_watchlist "u" "aapl" (add_to_watchlist (λ _, None) (λ _ _, true) "u" " aapl" ∅).1).1) as Hr.
  { eapply rtc_l; [apply (StepAdd _ _ _ "u" " aapl")|]. eapply rtc_l; [apply (StepRemove _ _ _ "u" "aapl")|]. apply rtc_refl. }
  split; [vm_compute; reflexivity|].
  eapply (watchlists_stay_usable (λ _, "") (λ _, None) (λ _ _, true) _ Hr "u"); [vm_compute; reflexivity|reflexivity].
Defined.

(** ** Entity tags *)

Section tags.
Context {F : Type} `{Num F}.
Variable set_order : list string → list string.
Variable float_text : F → string.
Variable sha1_hex : string → string.

(** The tag an answer came with is enough for "not modified" while the basket
    is the same, whatever has become of the signals of assets outside it. *)
Theorem tag_ignores_single_assets p assets data single single' (cache cache' : gmap string (Signal (F:=F) * F)) a :
  (latest_signals set_order float_text sha1_hex p assets None data single cache).2 = Latest a →
  latest_signals set_order float_text sha1_hex p assets (Some (sa_etag a)) data single' cache' = (cache', NotModified (sa_etag a)).
Proof.
  unfold latest_signals at 1. rewrite bool_decide_false by done. destruct (add_singles _ _ _) as [c extras]. intros [= <-]. cbn [sa_etag].
  unfold latest_signals. by rewrite bool_decide_true.
Qed.

Lemma add_singles_in (single : string → gmap string (Signal (F:=F) * F) → gmap string (Signal (F:=F) * F) * option (Signal (F:=F)))
    tickers cache s :
  s ∈ (add_singles single tickers cache).2 → ∃ t c, t ∈ tickers ∧ (single t c).2 = Some s.
Proof.
  revert cache. induction tickers as [|t tickers IH]; intros cache; cbn [add_singles]; [by intros []%not_elem_of_nil|].
  destruct (single t cache) as [c extra] eqn:E. specialize (IH c). destruct (add_singles single tickers c) as [c' rest]. cbn [snd] in *.
  assert (s ∈ rest → ∃ t' c, t' ∈ t :: tickers ∧ (single t' c).2 = Some s) as Hrest.
  { intros (t' & c0 & Ht & Hs)%IH. exists t', c0. split; [by right|done]. }
  destruct extra as [x|]; [|exact Hrest]. intros [->|Hin]%elem_of_cons; [|by apply Hrest].
  exists t, cache. split; [by left|]. by rewrite E.
Qed.

(** The latest signals are of the assets asked for, and of each asset of
    the basket that was asked for there is one. *)
Theorem latest_signals_are_wanted p assets tag data single cache (a : SignalAnswer (F:=F)) :
  (∀ l t, t ∈ set_order l → t ∈ l) → (∀ t c s, (single t c).2 = Some s → sg_asset s = t) →
  (latest_signals set_order float_text sha1_hex p assets tag data single cache).2 = Latest a →
  (∀ s, s ∈ sa_signals a → sg_asset s ∈ wanted_assets assets p) ∧
  ∀ s, s ∈ rp_signals data → sg_asset s ∈ wanted_assets assets p → s ∈ sa_signals a.
Proof.
  intros Horder Hsingle. unfold latest_signals. case_bool_decide; [done|].
  pose proof (add_singles_in single (set_order (filter (λ t, t ∉ sg_asset <$> filter (λ s, sg_asset s ∈ wanted_assets assets p) (rp_signals data))
    (wanted_assets assets p))) cache) as Hadd.
  destruct (add_singles _ _ _) as [c extras]. cbn [snd] in *. intros [= <-]. cbn [sa_signals]. split.
  - intros s [[Hw _]%list_elem_of_filter|(t & c' & Ht & Hs)%Hadd]%elem_of_app; [done|].
    apply Horder, list_elem_of_filter in Ht as [_ Ht]. by rewrite (Hsingle _ _ _ Hs).
  - intros s Hs Hw. apply elem_of_app. left. by apply list_elem_of_filter.
Qed.
End tags.

#[local] Definition plain_signal (asset : string) : Signal (F:=Q) :=
  mkSignal asset HOLD_SIGNAL 0%Q 0%Q 0%Q None (mkFeatures 0%Q 0%Q 0%Q 0%Q) "US" "" asset "" None false.

Lemma latest_signals_are_wanted_witness :
  let data := mkResponse [plain_signal "AAPL"; plain_signal "MSFT"] 0%Q 2 None in
  let r := latest_signals (λ l, l) (λ _, "0") (λ s, s) (mkProfile None None None) (Some "msft, sap.de") None data
             (λ t c, (c, Some (plain_signal t))) ∅ in
  ∃ a, r.2 = Latest a ∧ (sg_asset <$> sa_signals a) = ["MSFT"; "SAP.DE"] ∧ ∀ s, s ∈ sa_signals a → sg_asset s ∈ ["MSFT"; "SAP.DE"].
Proof.
  cbv zeta. eexists. split; [vm_compute; reflexivity|]. split; [reflexivity|].
  refine (proj1 (latest_signals_are_wanted (λ l, l) (λ _, "0") (λ s, s) (mkProfile None None None) (Some "msft, sap.de") None
    (mkResponse [plain_signal "AAPL"; plain_signal "MSFT"] 0%Q 2 None) (λ t c, (c, Some (plain_signal t))) ∅ _ _ _ _)).
  - by intros l t Ht.
  - by intros t c s [= <-].
  - vm_compute. reflexivity.
Defined.
