(* ===== verification/IntegrationRoutes.v ===== *)
(** backend/main.py and backend/services/integration_service.py: a user's API
    keys, webhooks and saved strategies, the delivery of events, key rotation
    and the routes of the kill switches. *)

From Stdlib Require Import QArith.
From stdpp Require Import strings gmap sorting.
From S2P Require Import Prelude Numeric Models Json RedisStore OrderSecurity Integration ResearchJobs AuthRoutes.
From S2P Require DatasetRegistry.
#[local] Open Scope Z_scope.

Definition refuse {A} (status : Z) (detail : string) : outcome HTTPException A := Raise (mkHTTPException status detail).

(** ** Tables *)

Record ApiKeyRow := mkApiKeyRow { ar_key : ApiKey; ar_name : string; ar_created_at : Z }.
Record Webhook := mkWebhook {
  wh_id : string; wh_user_id : string; wh_url : string; wh_secret_hash : string; wh_event_types : option (list string);
  wh_is_active : bool; wh_last_delivery_at : option Z; wh_created_at : Z
}.
#[global] Instance eta_Webhook : Eta Webhook := λ h,
  mkWebhook (wh_id h) (wh_user_id h) (wh_url h) (wh_secret_hash h) (wh_event_types h) (wh_is_active h) (wh_last_delivery_at h) (wh_created_at h).
Record Strategy := mkStrategy {
  sy_id : string; sy_user_id : string; sy_name : string; sy_assets : list string; sy_config : json; sy_is_active : bool; sy_created_at : Z
}.
(** A key pair, with what a rotation records. *)
Record KeyRow := mkKeyRow { kr_pair : KeyPair; kr_private_key : option string; kr_rotation_count : Z; kr_revoked_at : option Z }.

Record IntegrationDB := mkIntegrationDB {
  in_keys : gmap string ApiKeyRow; in_hooks : gmap string Webhook; in_strategies : gmap string Strategy;
  in_pairs : gmap string KeyRow; in_audit : list AuditWrite
}.
#[global] Instance eta_IntegrationDB : Eta IntegrationDB := λ d,
  mkIntegrationDB (in_keys d) (in_hooks d) (in_strategies d) (in_pairs d) (in_audit d).
Definition audit (w : AuditWrite) (d : IntegrationDB) : IntegrationDB := d <| in_audit ::= λ l, l ++ [w] |>.

(** The rows of a user, the newest first. *)
Section listing.
Context {V : Type}.
Variable owner : V → string.
Variable created : V → Z.
Definition newest (a b : V) : Prop := created b <= created a.
#[local] Instance newest_dec a b : Decision (newest a b).
Proof. unfold newest. apply _. Defined.
Definition rows_of_user (user_id : string) (m : gmap string V) : list V :=
  merge_sort newest (filter (λ v, owner v = user_id) (rows m)).
End listing.

Section routes.
Variable sha256_hex : string → string.
Variable hmac_sha256_hex : string → string → string.
(** The Fernet encryption and decryption. *)
Variable encrypt : string → string.
Variable decrypt : string → option string.
(** [str.strip] *)
Variable strip : string → string.

(** ** API keys *)

Definition list_api_keys (user_id : string) (d : IntegrationDB) : list ApiKeyRow :=
  rows_of_user (λ r, ak_user_id (ar_key r)) ar_created_at user_id (in_keys d).

Record CreatedKey := mkCreatedKey { ck_id : string; ck_prefix : string; ck_scopes : list string; ck_api_key : string; ck_hmac_secret : string }.

(** [id], [raw_token] and [secret_token] are fresh. *)
Definition create_api_key (user_id name : string) (scopes : list string) (id raw_token secret_token : string) (now : Z) (d : IntegrationDB)
    : IntegrationDB * CreatedKey :=
  let '(raw, prefix, digest, hmac_secret) := generate_api_key sha256_hex raw_token secret_token in
  let key := mkApiKey id user_id prefix digest (Some (encrypt hmac_secret)) (Some scopes) None None false in
  (audit (mkAuditWrite user_id "API_KEY_CREATED" "api_key" id (JObj [("scopes", JArr (JStr <$> scopes))]))
     (d <| in_keys ::= <[id := mkApiKeyRow key (strip name) now]> |>),
   mkCreatedKey id prefix scopes raw hmac_secret).

Definition revoke_api_key (user_id key_id : string) (d : IntegrationDB) : IntegrationDB * outcome HTTPException unit :=
  match in_keys d !! key_id with
  | Some r =>
      if decide (ak_user_id (ar_key r) = user_id) then
        (audit (mkAuditWrite user_id "API_KEY_REVOKED" "api_key" key_id (JObj []))
           (d <| in_keys ::= <[key_id := mkApiKeyRow (ar_key r <| ak_is_revoked := true |>) (ar_name r) (ar_created_at r)]> |>), Ret tt)
      else (d, refuse 404 "API key not found")
  | None => (d, refuse 404 "API key not found")
  end.

(** The keys as the dependency of the SDK routes reads them. *)
Definition sdk_keys (d : IntegrationDB) : gmap string ApiKey := ar_key <$> in_keys d.

(** ** Webhooks *)

(** What [urlparse] finds: the scheme, the host name and the port. *)
Record ParsedUrl := mkParsedUrl { pu_scheme : string; pu_hostname : option string; pu_port : option Z }.
Variable urlparse : string → ParsedUrl.
(** The host and port that [requests], posting to a URL without a proxy, asks
    [socket.getaddrinfo] for; [None] when it rejects the URL. It parses URLs
    itself, and encodes a host name that is not ASCII by IDNA. *)
Variable requests_target : string → option (string * Z).
(** [socket.getaddrinfo]: the addresses a name has just now. *)
Abbreviation Resolver := (string → Z → option (list string)).
(** The flags of [ipaddress.ip_address]: private, loopback, link-local,
    multicast, reserved, unspecified; [None] when it raises. *)
Record AddressFlags := mkAddressFlags {
  af_private : bool; af_loopback : bool; af_link_local : bool; af_multicast : bool; af_reserved : bool; af_unspecified : bool
}.
Variable ip_address : string → option AddressFlags.

Definition is_public_address (addr : string) : option bool :=
  ip ← ip_address addr;
  Some (negb (af_private ip || af_loopback ip || af_link_local ip || af_multicast ip || af_reserved ip || af_unspecified ip)).

(** [all(...)]; [None] when an address is not one. *)
Fixpoint all_public (addresses : list string) : option bool :=
  match addresses with
  | [] => Some true
  | a :: addresses => b ← is_public_address a; if b : bool then all_public addresses else Some false
  end.

(** [None]: an exception; [Some None]: not eligible. *)
Definition resolve_public_addresses (resolve : Resolver) (hostname : string) (port : Z) : option (option (list string)) :=
  match resolve hostname port with
  | None => Some None
  | Some infos =>
      let addresses := merge_sort DatasetRegistry.text_le (remove_dups infos) in
      match addresses with
      | [] => Some None
      | _ => b ← all_public addresses; Some (if b : bool then Some addresses else None)
      end
  end.

(** [parsed.port or 443] *)
Definition port_of (p : ParsedUrl) : Z := match pu_port p with Some p => if p =? 0 then 443 else p | None => 443 end.

(** An https URL with a host; the host. *)
Definition https_host (p : ParsedUrl) : option string :=
  if (pu_scheme p =? "https")%string then
    match pu_hostname p with Some (String _ _ as h) => Some h | _ => None end
  else None.

Definition is_public_https (resolve : Resolver) (url : string) : option bool :=
  match https_host (urlparse url) with
  | None => Some false
  | Some host => r ← resolve_public_addresses resolve host (port_of (urlparse url)); Some (bool_decide (is_Some r))
  end.

Definition list_webhooks (user_id : string) (d : IntegrationDB) : list Webhook :=
  rows_of_user wh_user_id wh_created_at user_id (in_hooks d).

(** The hook and its signing secret; [Raise None] is an exception. *)
Definition create_webhook (resolve : Resolver) (user_id url : string) (event_types : list string) (id secret : string) (now : Z)
    (d : IntegrationDB) : IntegrationDB * outcome (option HTTPException) (string * string) :=
  match is_public_https resolve url with
  | None => (d, Raise None)
  | Some false => (d, Raise (Some (mkHTTPException 422 "webhook host must resolve to a public HTTPS address")))
  | Some true =>
      (audit (mkAuditWrite user_id "WEBHOOK_CREATED" "webhook" id (JObj [("events", JArr (JStr <$> event_types))]))
         (d <| in_hooks ::= <[id := mkWebhook id user_id url (encrypt secret) (Some event_types) true None now]> |>), Ret (id, secret))
  end.

Definition delete_webhook (user_id hook_id : string) (d : IntegrationDB) : IntegrationDB * outcome HTTPException unit :=
  match in_hooks d !! hook_id with
  | Some h =>
      if decide (wh_user_id h = user_id) then
        (audit (mkAuditWrite user_id "WEBHOOK_DISABLED" "webhook" hook_id (JObj []))
           (d <| in_hooks ::= <[hook_id := h <| wh_is_active := false |>]> |>), Ret tt)
      else (d, refuse 404 "Webhook not found")
  | None => (d, refuse 404 "Webhook not found")
  end.

(** ** Delivery *)

(** The thread's pins, and the resolver that heeds them. *)
Abbreviation Pins := (gmap (string * Z) (list string)).
Definition patched_getaddrinfo (real : Resolver) (pins : Pins) : Resolver := λ host port,
  match pins !! (host, port) with Some addresses => Some addresses | None => real host port end.

(** A request that is sent: to which of the addresses its host resolved to. *)
Record Delivery := mkDelivery { dv_hook : string; dv_url : string; dv_addresses : list string; dv_data : string; dv_event : string; dv_signature : string }.

(** [requests.post] connects to what the host it reads in the URL resolves to
    then. *)
Definition post (real : Resolver) (pins : Pins) (hook : Webhook) (data event signature : string) : option Delivery :=
  target ← requests_target (wh_url hook);
  addresses ← patched_getaddrinfo real pins target.1 target.2;
  Some (mkDelivery (wh_id hook) (wh_url hook) addresses data event signature).

(** The delivery to a hook; [checking] and [connecting] are what the resolver
    answers at the two times. *)
Definition deliver (checking connecting : Resolver) (event_type envelope : string) (hook : Webhook) : option Delivery :=
  if negb (bool_decide (event_type ∈ default [] (wh_event_types hook))) then None
  else
    let parsed := urlparse (wh_url hook) in
    host ← https_host parsed;
    let port := port_of parsed in
    resolved ← resolve_public_addresses checking host port;
    addresses ← resolved;
    secret ← decrypt (wh_secret_hash hook);
    let signature := "sha256=" +:+ hmac_sha256_hex secret envelope in
    post connecting {[(host, port) := addresses]} hook envelope event_type signature.

(** [emit_webhooks]: what is sent, and the hooks with the times of the
    deliveries that [accepted] holds of. *)
Definition emit_webhooks (checking connecting : string → Resolver) (accepted : Delivery → bool) (now : Z) (user_id event_type : string)
    (payload : json) (d : IntegrationDB) : IntegrationDB * list Delivery :=
  let hooks := filter (λ h, wh_user_id h = user_id ∧ wh_is_active h = true) (rows (in_hooks d)) in
  let envelope := canonical_json (JObj [("event", JStr event_type); ("data", payload)]) in
  let sent := omap (λ h, deliver (checking (wh_id h)) (connecting (wh_id h)) event_type envelope h) hooks in
  (d <| in_hooks ::= λ m, foldl (λ m dv, alter (λ h, h <| wh_last_delivery_at := Some now |>) (dv_hook dv) m) m
                            (filter (λ dv, accepted dv = true) sent) |>, sent).

(** ** Strategies *)

Definition list_strategies (user_id : string) (d : IntegrationDB) : list Strategy :=
  rows_of_user sy_user_id sy_created_at user_id (in_strategies d).
Definition create_strategy (user_id name asset : string) (fast slow : Z) (id : string) (now : Z) (d : IntegrationDB) : IntegrationDB * Strategy :=
  let config := [("template", JStr "ma-crossover"); ("fast_window", JInt fast); ("slow_window", JInt slow)] in
  let s := mkStrategy id user_id (strip name) [asset] (JObj config) true now in
  (audit (mkAuditWrite user_id "STRATEGY_CREATED" "strategy" id (JObj (("asset", JStr asset) :: config)))
     (d <| in_strategies ::= <[id := s]> |>), s).

(** ** Key rotation *)

(** The keys of a user and an algorithm that are in use. *)
Definition keys_in_use (user_id algorithm : string) (d : IntegrationDB) : list KeyRow :=
  filter (λ k, kp_user_id (kr_pair k) = user_id ∧ kp_algorithm (kr_pair k) = algorithm ∧ kp_is_active (kr_pair k) = true) (rows (in_pairs d)).
Definition retire (now : Z) (k : KeyRow) : KeyRow :=
  let p := kr_pair k in
  mkKeyRow (mkKeyPair (kp_id p) (kp_user_id p) (kp_algorithm p) (kp_public_key p) false) (kr_private_key k) (kr_rotation_count k) (Some now).

(** [keygen]: the new public and private key of an algorithm; [protect]
    seals the private key. *)
Definition rotate_keys (keygen : string → option (string * string)) (protect : string → string) (user_id algorithm reason id : string)
    (now : Z) (d : IntegrationDB) : IntegrationDB * outcome HTTPException (string * Z) :=
  let old_keys := keys_in_use user_id algorithm d in
  match keygen algorithm with
  | None => (d, refuse 400 "Unsupported algorithm")
  | Some (pk, sk) =>
      let rotation_count := match old_keys with k :: _ => kr_rotation_count k + 1 | [] => 0 end in
      let retired := foldl (λ m k, alter (retire now) (kp_id (kr_pair k)) m) (in_pairs d) old_keys in
      (audit (mkAuditWrite user_id "KEY_ROTATED" "key_pair" id (JObj [("algorithm", JStr algorithm); ("reason", JStr reason)]))
         (d <| in_pairs := <[id := mkKeyRow (mkKeyPair id user_id algorithm pk true) (Some (protect sk)) rotation_count None]> retired |>),
       Ret (id, rotation_count))
  end.

(** The route also tells the user's webhooks; the elapsed time is left out. *)
Definition rotate_keys_route (keygen : string → option (string * string)) (protect : string → string) (checking connecting : string → Resolver)
    (accepted : Delivery → bool) (user_id algorithm reason id : string) (now : Z) (d : IntegrationDB)
    : IntegrationDB * list Delivery * outcome HTTPException (string * Z) :=
  match rotate_keys keygen protect user_id algorithm reason id now d with
  | (d, Raise e) => (d, [], Raise e)
  | (d, Ret (id, rotation_count)) =>
      let '(d, sent) := emit_webhooks checking connecting accepted now user_id "key.rotated"
        (JObj [("algorithm", JStr algorithm); ("rotation_count", JInt rotation_count); ("key_pair_id", JStr id)]) d in
      (d, sent, Ret (id, rotation_count))
  end.

(** ** Kill switches *)

Section switches.
Context {R : Type}.
Variable redis_client : option (RedisClient R).
Variable production : bool.
Variable OPERATOR_ROLES : list string.

(** [(user.role or "user") in OPERATOR_ROLES] *)
Definition is_admin (u : User) : bool :=
  bool_decide (match us_role u with Some (String _ _ as r) => r | _ => "user" end ∈ OPERATOR_ROLES).

(** The switch a body names, once the user may set it. *)
Definition authorised_switch (u : User) (scope : string) (identifier : option string) : outcome HTTPException (option string) :=
  if negb (known_scope scope) then refuse 400 "scope must be global, user, or asset"
  else if (scope =? "user")%string then
    let identifier := match identifier with Some i => i | None => us_id u end in
    if negb (bool_decide (identifier = us_id u)) && negb (is_admin u)
    then refuse 403 "not permitted to set a kill switch for another user" else Ret (Some identifier)
  else if negb (is_admin u) then refuse 403 "these kill switches require operator privileges"
  else Ret identifier.

(** [manage_kill_switch] of a body whose fields are texts; [Raise None] is an
    error of the store. *)
Definition manage_kill_switch (now : Z) (u : User) (scope : string) (identifier : option string) (enabled : bool)
    (s : @Risk R) (log : list AuditWrite) : @Risk R * list AuditWrite * outcome (option HTTPException) (string * option string * bool) :=
  match authorised_switch u scope identifier with
  | Raise e => (s, log, Raise (Some e))
  | Ret identifier =>
      let '(s, ok) :=
        match redis_client with
        | Some _ => let '(s, r) := set_kill_switch_async redis_client production now scope identifier enabled s in
                    (s, match r with Ret _ => true | Raise _ => false end)
        | None => let '(s, r) := set_kill_switch_sync scope identifier enabled s in (s, match r with Ret _ => true | Raise _ => false end)
        end in
      if ok then
        (s, log ++ [mkAuditWrite (us_id u) (if enabled then "KILL_SWITCH_SET" else "KILL_SWITCH_CLEARED") "risk" EmptyString
                      (JObj [("scope", JStr scope); ("identifier", match identifier with Some i => JStr i | None => JNull end)])],
         Ret (scope, identifier, enabled))
      else (s, log, Raise None)
  end.

(** What a user is shown of the switches that are set. *)
Definition visible_switches (u : User) (switches : list (string * option string)) : list (string * option string) :=
  if is_admin u then switches
  else filter (λ s, s.1 ≠ "user" ∨ s.2 = Some (us_id u)) switches.
End switches.
End routes.

(** * Theorems

    What the integration routes guarantee: keys that work until they are
    revoked, deliveries to public addresses only, one key in use after a
    rotation, and kill switches that users cannot set for others. *)

#[local] Open Scope Z_scope.

(** ** API keys *)

Lemma find_unique {A} (p : A → bool) (l : list A) x : x ∈ l → p x = true → (∀ y, y ∈ l → p y = true → y = x) → List.find p l = Some x.
Proof.
  intros Hx Hp Hu. destruct (List.find p l) as [y|] eqn:E.
  - apply find_some in E as [Hy Hpy]. f_equal. apply Hu; [by apply list_elem_of_In|done].
  - apply list_elem_of_In in Hx. by rewrite (find_none _ _ E x Hx) in Hp.
Qed.

Section keys.
Variable sha256_hex : string → string.
Variable encrypt : string → string.
Variable strip : string → string.

(** A key that was created is accepted, as it was shown to its user and
    for each scope it was given, until the user revokes it, and never again
    after that; unless its hash is that of a key there already is. *)
Theorem created_key_works_until_revoked user_id name scopes id raw_token secret_token now now' scope (d : IntegrationDB) :
  (∀ k r, in_keys d !! k = Some r → k ≠ id ∧ ak_key_hash (ar_key r) ≠ sha256_hex ("qs_" +:+ raw_token)) → scope ∈ scopes →
  let (d1, created) := create_api_key sha256_hex encrypt strip user_id name scopes id raw_token secret_token now d in
  (∃ key, (verify_api_key sha256_hex now' (ck_api_key created) scope (sdk_keys d1)).2 = Some key ∧ ak_id key = id ∧ ak_user_id key = user_id) ∧
  (revoke_api_key user_id id d1).2 = Ret tt ∧
  (verify_api_key sha256_hex now' (ck_api_key created) scope (sdk_keys (revoke_api_key user_id id d1).1)).2 = None.
Proof.
  intros Hfresh Hscope. unfold create_api_key, generate_api_key. set (raw := "qs_" +:+ raw_token) in *.
  set (key := mkApiKey id user_id _ _ _ _ None None false). set (row := mkApiKeyRow key (strip name) now). cbn [ck_api_key].
  set (d1 := audit _ _). assert (in_keys d1 = <[id := row]> (in_keys d)) as Hd1 by done.
  assert (sdk_keys d1 = <[id := key]> (sdk_keys d)) as Hs1 by (unfold sdk_keys; by rewrite Hd1, fmap_insert).
  assert (∀ k, k ∈ rows (sdk_keys d) → ak_key_hash k ≠ sha256_hex raw) as Hothers.
  { intros k (j & Hj)%elem_of_rows. unfold sdk_keys in Hj. rewrite lookup_fmap in Hj. apply fmap_Some in Hj as (r & Hr & ->). by destruct (Hfresh j r Hr). }
  assert (∀ m k, k ∈ rows (<[id := m]> (sdk_keys d)) → k = m ∨ k ∈ rows (sdk_keys d)) as Hrows.
  { intros m k (j & Hj)%elem_of_rows. destruct (decide (j = id)) as [->|Hne]; [left; rewrite lookup_insert_eq in Hj; by injection Hj|].
    right. apply elem_of_rows. exists j. by rewrite lookup_insert_ne in Hj. }
  split_and!.
  - unfold verify_api_key, find_by_hash. rewrite Hs1, (find_unique _ _ key).
    + unfold in_scope. cbn [ak_scopes default from_option key]. change (Datatypes.id scopes) with scopes. rewrite bool_decide_true by done. cbn [orb andb unexpired_key ak_expires_at key].
      eexists. split; [reflexivity|]. done.
    + apply elem_of_rows. exists id. by rewrite lookup_insert_eq.
    + apply andb_true_iff. split; [by apply bool_decide_eq_true|done].
    + intros k [->|Hk]%Hrows [Hh%bool_decide_eq_true _]%andb_true_iff; [done|]. by destruct (Hothers k Hk).
  - unfold revoke_api_key. rewrite Hd1, lookup_insert_eq. cbn [ar_key row ak_user_id key]. by rewrite decide_True by done.
  - unfold revoke_api_key. rewrite Hd1, lookup_insert_eq. cbn [ar_key row ak_user_id key]. rewrite decide_True by done. cbn [fst].
    unfold verify_api_key, find_by_hash. destruct (List.find _ _) as [k|] eqn:E; [exfalso|done]. apply find_some in E as [Hk Hp].
    apply andb_true_iff in Hp as [Hh%bool_decide_eq_true Hr]. apply list_elem_of_In in Hk. unfold sdk_keys in Hk. cbn in Hk.
    rewrite insert_insert_eq, fmap_insert in Hk. apply Hrows in Hk as [->|Hk]; [done|]. by destruct (Hothers k Hk).
Qed.
End keys.

Lemma created_key_works_until_revoked_witness :
  let d := mkIntegrationDB ∅ ∅ ∅ ∅ [] in
  let (d1, created) := create_api_key (λ s, s) (λ s, s) (λ s, s) "u" "bot" ["read"] "k1" "token" "secret" 0 d in
  ck_api_key created = "qs_token" ∧ (verify_api_key (λ s, s) 5 "qs_token" "read" (sdk_keys (revoke_api_key "u" "k1" d1).1)).2 = None.
Proof.
  split; [reflexivity|].
  refine (proj2 (proj2 (created_key_works_until_revoked (λ s, s) (λ s, s) (λ s, s) "u" "bot" ["read"] "k1" "token" "secret" 0 5 "read"
    (mkIntegrationDB ∅ ∅ ∅ ∅ []) _ _))); [|by left]. intros k r Hk. cbn [in_keys] in Hk. by rewrite lookup_empty in Hk.
Defined.

(** ** Webhooks *)

Section webhooks.
Variable hmac_sha256_hex : string → string → string.
Variable decrypt : string → option string.
Variable urlparse : string → ParsedUrl.
Variable requests_target : string → option (string * Z).
Variable ip_address : string → option AddressFlags.

Lemma all_public_true addresses : all_public ip_address addresses = Some true → Forall (λ a, is_public_address ip_address a = Some true) addresses.
Proof.
  induction addresses as [|a l IH]; cbn [all_public]; [constructor|]. destruct (is_public_address ip_address a) as [[|]|] eqn:E; cbn; try done.
  intros Hl. constructor; [done|by apply IH].
Qed.

Lemma resolved_public resolve host port addresses :
  resolve_public_addresses ip_address resolve host port = Some (Some addresses) →
  addresses ≠ [] ∧ Forall (λ a, is_public_address ip_address a = Some true) addresses.
Proof.
  unfold resolve_public_addresses. destruct (resolve host port) as [infos|]; [|done]. destruct (merge_sort _ _) as [|a l]; [done|].
  destruct (all_public ip_address (a :: l)) as [[|]|] eqn:E; cbn; try done. intros [= <-]. split; [done|by apply all_public_true].
Qed.

(** C36: An event is delivered only to the active webhooks of its user that
    asked for it, over https; and where the HTTP client looks up the same host
    and port that were checked, which is so for the ASCII host names it does
    not re-encode, only to addresses all of which are public, even if the name
    resolves to others when the request is sent than it did when it was
    checked. Where the client looks up another name, as it does for a host
    that is not ASCII, it connects to whatever that name resolves to when the
    request is sent. *)
Theorem deliveries_are_public checking connecting accepted now user_id event_type payload (d : IntegrationDB) dv :
  dv ∈ (emit_webhooks hmac_sha256_hex decrypt urlparse requests_target ip_address checking connecting accepted now user_id event_type payload d).2 →
  ∃ id h host target, in_hooks d !! id = Some h ∧ wh_user_id h = user_id ∧ wh_is_active h = true ∧
    event_type ∈ default [] (wh_event_types h) ∧ dv_url dv = wh_url h ∧ pu_scheme (urlparse (wh_url h)) = "https" ∧
    pu_hostname (urlparse (wh_url h)) = Some host ∧ requests_target (wh_url h) = Some target ∧
    let checked := (host, port_of (urlparse (wh_url h))) in
    (target = checked → dv_addresses dv ≠ [] ∧ Forall (λ a, is_public_address ip_address a = Some true) (dv_addresses dv)) ∧
    (target ≠ checked → connecting (wh_id h) target.1 target.2 = Some (dv_addresses dv)).
Proof.
  unfold emit_webhooks. cbn [snd]. intros (h & Hh & Hd)%list_elem_of_omap. apply list_elem_of_filter in Hh as [[Hu Ha] Hin].
  apply elem_of_rows in Hin as [id Hid]. unfold deliver in Hd. case_bool_decide as Het; [cbn [negb] in Hd|done].
  destruct (https_host _) as [host|] eqn:Eh; cbn in Hd; [|done]. destruct (resolve_public_addresses _ _ _ _) as [[addresses|]|] eqn:Er; cbn in Hd; try done.
  destruct (decrypt _) as [secret|]; cbn in Hd; [|done]. unfold post in Hd. destruct (requests_target (wh_url h)) as [[host' port']|] eqn:Et; cbn in Hd; [|done].
  destruct (patched_getaddrinfo _ _ _ _) as [found|] eqn:Ef; cbn in Hd; [|done]. injection Hd as <-.
  cbn [dv_url dv_addresses]. exists id, h, host, (host', port'). do 5 (split; [done|]).
  assert (pu_scheme (urlparse (wh_url h)) = "https" ∧ pu_hostname (urlparse (wh_url h)) = Some host) as [Hs Hn].
  { unfold https_host in Eh. destruct (String.eqb_spec (pu_scheme (urlparse (wh_url h))) "https"); [|done]. split; [done|].
    by destruct (pu_hostname (urlparse (wh_url h))) as [[|c n]|]. }
  do 3 (split; [done|]). cbn zeta. unfold patched_getaddrinfo in Ef. split.
  - intros E. rewrite E, lookup_singleton_eq in Ef. injection Ef as <-. by eapply resolved_public.
  - intros E. rewrite lookup_singleton_ne in Ef by (intros E'; by apply E). exact Ef.
Qed.
End webhooks.

#[local] Definition open_hook : Webhook := mkWebhook "h" "u" "https://hooks.example" "sealed" (Some ["order.filled"]) true None 0.
#[local] Definition some_flags (a : string) : option AddressFlags :=
  Some (mkAddressFlags (String.eqb a "10.0.0.1") false false false false false).
(** What is sent to the hook, by the name the client looks up: the checked
    name is public when checked, and every name is private afterwards. *)
#[local] Definition sent_to (client : string) : list Delivery :=
  (emit_webhooks (λ _ _, "sig") Some (λ _, mkParsedUrl "https" (Some "hooks.example") None) (λ _, Some (client, 443)) some_flags
    (λ _ _ _, Some ["93.184.216.34"]) (λ _ _ _, Some ["10.0.0.1"]) (λ _, true) 0 "u" "order.filled" JNull
    (mkIntegrationDB ∅ {["h" := open_hook]} ∅ ∅ [])).2.

Lemma deliveries_are_public_witness :
  (dv_addresses <$> sent_to "hooks.example") = [["93.184.216.34"]] ∧
  Forall (λ dv, Forall (λ a, is_public_address some_flags a = Some true) (dv_addresses dv)) (sent_to "hooks.example").
Proof.
  split; [vm_compute; reflexivity|]. apply Forall_forall. intros dv Hdv.
  destruct (deliveries_are_public (λ _ _, "sig") Some (λ _, mkParsedUrl "https" (Some "hooks.example") None) (λ _, Some ("hooks.example", 443))
    some_flags (λ _ _ _, Some ["93.184.216.34"]) (λ _ _ _, Some ["10.0.0.1"]) (λ _, true) 0 "u" "order.filled" JNull
    (mkIntegrationDB ∅ {["h" := open_hook]} ∅ ∅ []) dv Hdv) as (id & h & host & target & _ & _ & _ & _ & _ & _ & Hn & Ht & Hpub & _).
  injection Hn as <-. injection Ht as <-. exact (proj2 (Hpub eq_refl)).
Defined.

(** A client that looks the host up under its IDNA name misses the pin: the
    event reaches the private address the name resolves to by then. *)
Example idna_name_misses_the_pin : (dv_addresses <$> sent_to "xn--hooks-example") = [["10.0.0.1"]].
Proof. vm_compute. reflexivity. Qed.

(** ** Key rotation *)

Section retiring.
Variable now : Z.

Definition retire_all (l : list KeyRow) (m : gmap string KeyRow) : gmap string KeyRow :=
  foldl (λ m k, alter (retire now) (kp_id (kr_pair k)) m) m l.

Lemma retire_all_other l m j : j ∉ (λ k, kp_id (kr_pair k)) <$> l → retire_all l m !! j = m !! j.
Proof.
  revert m. induction l as [|k l IH]; intros m Hj; [done|]. rewrite fmap_cons, not_elem_of_cons in Hj. destruct Hj as [Hne Hj].
  change (retire_all (k :: l) m) with (retire_all l (alter (retire now) (kp_id (kr_pair k)) m)). rewrite IH by done. by rewrite lookup_alter_ne.
Qed.

(** What is retired once stays retired. *)
Lemma retire_all_inactive l m j p : retire_all l m !! j = Some p → j ∈ (λ k, kp_id (kr_pair k)) <$> l → kp_is_active (kr_pair p) = false.
Proof.
  assert (∀ l m p, retire_all l m !! j = Some p → (∀ q, m !! j = Some q → kp_is_active (kr_pair q) = false) → kp_is_active (kr_pair p) = false) as Hkeep.
  { clear. induction l as [|k l IH]; intros m p Hp Hm; [by apply Hm|]. apply (IH _ _ Hp). intros q.
    destruct (decide (kp_id (kr_pair k) = j)) as [->|Hne]; [rewrite lookup_alter_eq|by rewrite lookup_alter_ne; auto].
    intros (r & _ & ->)%fmap_Some. done. }
  revert m. induction l as [|k l IH]; intros m Hp Hj; [by apply elem_of_nil in Hj|]. rewrite fmap_cons, elem_of_cons in Hj.
  destruct (decide (j ∈ (λ k, kp_id (kr_pair k)) <$> l)) as [Hl|Hl]; [by apply (IH _ Hp)|]. destruct Hj as [->|Hj]; [|done].
  apply (Hkeep l (alter (retire now) (kp_id (kr_pair k)) m) _ Hp). intros q. rewrite lookup_alter_eq. intros (r & _ & ->)%fmap_Some. done.
Qed.
End retiring.

Lemma elem_of_keys_in_use user_id algorithm (d : IntegrationDB) k : k ∈ keys_in_use user_id algorithm d ↔
  (kp_user_id (kr_pair k) = user_id ∧ kp_algorithm (kr_pair k) = algorithm ∧ kp_is_active (kr_pair k) = true) ∧ ∃ j, in_pairs d !! j = Some k.
Proof. unfold keys_in_use. by rewrite list_elem_of_filter, elem_of_rows. Qed.

(** After a rotation exactly one key of the user and the algorithm is in
    use, the new one, and the keys of others and of other algorithms are as
    they were. *)
Theorem rotation_leaves_one_key keygen protect user_id algorithm reason id now (d d' : IntegrationDB) r :
  (∀ k p, in_pairs d !! k = Some p → kp_id (kr_pair p) = k ∧ k ≠ id) →
  rotate_keys keygen protect user_id algorithm reason id now d = (d', Ret r) →
  (∃ k, kp_id (kr_pair k) = id ∧ ∀ k', k' ∈ keys_in_use user_id algorithm d' ↔ k' = k) ∧
  ∀ j p, in_pairs d !! j = Some p → (kp_user_id (kr_pair p), kp_algorithm (kr_pair p)) ≠ (user_id, algorithm) → in_pairs d' !! j = Some p.
Proof.
  intros Hids. unfold rotate_keys. destruct (keygen algorithm) as [[pk sk]|]; [|done]. set (old := keys_in_use user_id algorithm d).
  fold (retire_all now old). set (new := mkKeyRow _ _ _ None). intros [= <- <-]. cbn [in_pairs audit].
  assert (∀ j, j ∈ (λ k, kp_id (kr_pair k)) <$> old → ∃ p, in_pairs d !! j = Some p ∧ p ∈ old) as Hold.
  { intros j (p & -> & Hp)%list_elem_of_fmap. destruct (proj1 (elem_of_keys_in_use _ _ _ _) Hp) as [_ [j Hj]]. exists p. by rewrite (proj1 (Hids j p Hj)). }
  split.
  - exists new. split; [done|]. intros k'. rewrite elem_of_keys_in_use. cbn [in_pairs audit]. split; [|intros ->; split; [done|exists id; by apply lookup_insert_eq]].
    intros [Hk [j Hj]]. change (<[id := new]> (retire_all now old (in_pairs d)) !! j = Some k') in Hj.
    destruct (decide (j = id)) as [->|Hne]; [rewrite lookup_insert_eq in Hj; by injection Hj|]. rewrite lookup_insert_ne in Hj by done. exfalso.
    destruct (decide (j ∈ (λ k, kp_id (kr_pair k)) <$> old)) as [Hin|Hin].
    + pose proof (retire_all_inactive _ _ _ _ _ Hj Hin). destruct Hk as (_ & _ & Ha). congruence.
    + rewrite retire_all_other in Hj by done. apply Hin, list_elem_of_fmap. exists k'. split; [by rewrite (proj1 (Hids j k' Hj))|].
      apply elem_of_keys_in_use. split; [done|]. by exists j.
  - intros j p Hp Hne. change (<[id := new]> (retire_all now old (in_pairs d)) !! j = Some p).
    rewrite lookup_insert_ne by (intros <-; by destruct (Hids id p Hp)). rewrite retire_all_other; [done|]. intros (q & Hq & Hin)%Hold.
    assert (q = p) as -> by congruence. apply elem_of_keys_in_use in Hin as [(Hu & Ha & _) _]. apply Hne. by rewrite Hu, Ha.
Qed.

#[local] Definition two_pairs : gmap string KeyRow :=
  {["a" := mkKeyRow (mkKeyPair "a" "u" "ML-DSA-65" "pk" true) None 3 None]}.

Lemma rotation_leaves_one_key_witness :
  let d := mkIntegrationDB ∅ ∅ ∅ two_pairs [] in
  let d' := (rotate_keys (λ _, Some ("new", "sk")) (λ s, s) "u" "ML-DSA-65" "scheduled" "b" 7 d).1 in
  kr_pair <$> in_pairs d' !! "a" = Some (mkKeyPair "a" "u" "ML-DSA-65" "pk" false) ∧
  ∃ k, kp_id (kr_pair k) = "b" ∧ ∀ k', k' ∈ keys_in_use "u" "ML-DSA-65" d' ↔ k' = k.
Proof.
  split; [vm_compute; reflexivity|].
  refine (proj1 (rotation_leaves_one_key (λ _, Some ("new", "sk")) (λ s, s) "u" "ML-DSA-65" "scheduled" "b" 7
    (mkIntegrationDB ∅ ∅ ∅ two_pairs []) _ ("b", 4) _ _)); [|vm_compute; reflexivity].
  intros k p Hk. cbn [in_pairs] in Hk. unfold two_pairs in Hk. apply lookup_singleton_Some in Hk as [<- <-]. done.
Defined.

(** ** Kill switches *)

Section switches.
Variable production : bool.
Variable OPERATOR_ROLES : list string.
Context {R : Type}.
Abbreviation manage := (manage_kill_switch (R:=R) None production OPERATOR_ROLES).

(** Whoever is not an operator changes, of all the switches, only the one
    of the own account: a request about another account, an asset or the whole
    platform is refused, with the status 403, and leaves every switch as it was. *)
Theorem self_service_switches_are_own now u scope identifier enabled (s s' : Risk R) log log' r :
  is_admin OPERATOR_ROLES u = false → manage now u scope identifier enabled s log = (s', log', r) →
  (∀ k, k ≠ ("user", Some (us_id u)) → (k ∈ kill_switches s' ↔ k ∈ kill_switches s)) ∧
  (known_scope scope = true → (scope, default (us_id u) identifier) ≠ ("user", us_id u) →
   s' = s ∧ log' = log ∧ ∃ e, r = Raise (Some e) ∧ http_status e = 403).
Proof.
  intros Hu. unfold manage_kill_switch, authorised_switch. rewrite Hu. destruct (known_scope scope) eqn:Hk; cbn [negb]; [|intros [= <- <- <-]; by split].
  destruct (String.eqb_spec scope "user") as [->|Hne].
  - change (match identifier with Some i => i | None => us_id u end) with (default (us_id u) identifier). rewrite andb_true_r.
    case_bool_decide as Hi; cbn [negb].
    + rewrite Hi. unfold set_kill_switch_sync. rewrite Hk. intros [= <- <- <-]. split; [|done]. intros k Hne. cbn. destruct enabled; set_solver.
    + intros [= <- <- <-]. split; [done|]. intros _ _. split_and!; try done. by eexists.
  - cbn [negb]. intros [= <- <- <-]. split; [done|]. intros _ _. split_and!; try done. by eexists.
Qed.

(** What an operator halts, the user sets going again: the switch of an
    account is cleared by its own user whoever set it. *)
Theorem users_lift_operator_halts now later admin u (s : Risk R) log : is_admin OPERATOR_ROLES admin = true → 
  let '(s1, log1, r1) := manage now admin "user" (Some (us_id u)) true s log in
  let '(s2, _, r2) := manage later u "user" None false s1 log1 in
  r1 = Ret ("user", Some (us_id u), true) ∧ ("user", Some (us_id u)) ∈ kill_switches s1 ∧
  r2 = Ret ("user", Some (us_id u), false) ∧ ("user", Some (us_id u)) ∉ kill_switches s2.
Proof.
  intros Ha. unfold manage_kill_switch, authorised_switch. rewrite Ha. cbn -[is_admin]. rewrite andb_false_r. cbn -[is_admin].
  rewrite bool_decide_true by done. cbn. split_and!; try done; set_solver.
Qed.

(** A platform-wide switch that is set with an identifier is reported as set
    but stops no order. *)
Theorem named_global_switch_stops_nothing {F : Type} now admin i (s : Risk R) log : is_admin OPERATOR_ROLES admin = true →
  let '(s', _, r) := manage now admin "global" (Some i) true s log in
  r = Ret ("global", Some i, true) ∧ ∀ o : GateOrder F, locally_blocked (kill_switches s') o = locally_blocked (kill_switches s) o.
Proof.
  intros Ha. unfold manage_kill_switch, authorised_switch. rewrite Ha. cbn -[locally_blocked]. split; [done|]. intros o.
  unfold locally_blocked, relevant. cbn [existsb]. repeat (f_equal; try (apply bool_decide_ext; set_solver)).
Qed.
End switches.

#[local] Definition plain_user : User := mkUser "u" "u@example" "" "free" false true None.

Lemma self_service_switches_are_own_witness :
  let s := mkRisk (R:=unit) {[("global", None)]} (mkStore tt ∅ ∅ ∅) in
  let r := manage_kill_switch None true ["admin"; "risk_admin"] 0 plain_user "global" None false s [] in
  ("global", None) ∈ kill_switches r.1.1 ∧ r.2 = Raise (Some (mkHTTPException 403 "these kill switches require operator privileges")).
Proof.
  cbv zeta. split; [|vm_compute; reflexivity].
  apply (proj1 (self_service_switches_are_own true ["admin"; "risk_admin"] 0 plain_user "global" None false
    (mkRisk (R:=unit) {[("global", None)]} (mkStore tt ∅ ∅ ∅)) _ [] _ _ eq_refl eq_refl) ("global", None)); [discriminate|].
  apply elem_of_singleton. reflexivity.
Defined.
